(* ===== verification/_CoqProject ===== *)
-Q . S2P
Prelude.v
Buffer.v
HashTable.v
CoreHash.v
JbSort.v
JitterBuffer.v
JbInv.v
JbProps.v
JbAudio.v
JbCases.v
PortAllocator.v
Scheduler.v
AprQueue.v
ChannelDtmf.v
ChannelNames.v
ChannelState.v
ChannelLife.v
ChannelRace.v
Utf8.v
Base64.v
UrlCode.v
Separate.v
TextUtil.v
CaseLanes.v
NetList.v
Event.v
EventProps.v
EventText.v
Crc32.v
Stun.v
StunProps.v
StunBuild.v
G711.v
Vad.v
Sln.v
StateHandlers.v
StateMachine.v
StateMachineProps.v
StandardHandlers.v
XmlText.v
XmlTree.v
XmlCut.v
XmlParse.v
XmlPrint.v
XmlRound.v
Regex.v
DateTime.v
Caller.v
ChannelVars.v
Expand.v
Dialplan.v
DialplanProps.v
DialplanText.v
DialplanChannel.v
IvrMenu.v
IvrMenuProps.v
IvrMenuRules.v
IvrMenuCases.v
IvrMenuXml.v
