(* ===== verification/Prelude.v ===== *)
(** * A verification of the core of FreeSWITCH

    ** The program

    FreeSWITCH is a telephony switch.  Its core, the C files of src/src, manages
    calls: a _session_ per call, whose thread takes a _channel_ (its state, flags
    and variables) from state to state and asks _state handlers_ what to do,
    _events_ that tell the rest of the system what happens, media
    that is received through a _jitter buffer_, and the services they use:
    buffers, hash tables, queues, a scheduler, media ports, access lists, STUN
    packets, XML documents, menus for callers, and routines on texts and samples.  Endpoints,
    applications, dialplans and codecs are modules on top of the core.  This
    development models the parts of the core that decide something by themselves,
    and the dialplan in XML, which decides what a call does, file by file, and
    proves what makes them correct.

    ** How the code is modelled

    A C function is a Rocq function with the same name.  Its result is [Ret x]
    when it returns, [Abort] when an assertion stops the process, and [Ub] when
    it leaves an object, divides by zero or uses what is not there.  Integers
    are [Z] with the wrap-around of their width written out ([u8] to [u64], [i8]
    to [i32]); words are little-endian.  State is passed explicitly, records
    have the fields of the structures, and shared memory (DTMF digits, task
    containers, event headers, hash entries, XML tags) is a heap or carries addresses
    where ownership or aliasing matters.  Where threads interleave (hangups, the
    scheduler) the critical sections are functions and their interleavings a
    step relation.  Code outside the repository (the clock, [rand], [realloc],
    sockets, HMAC, callbacks of modules) is an argument; what is assumed of it
    is a hypothesis that an instance satisfies.  State handlers, applications and
    dialplans, which modules provide, act on the whole session that is given to
    them.  PCRE and what the dialplan, menus and the expansion of texts ask of a session are classes of
    operations, with classes of the laws that are relied on; the variables of a channel
    are an instance.

    ** Files

    - Prelude: outcomes, machine integers, byte order, records, memory blocks,
      tactics and hints shared by all files.
    - Buffer (switch_buffer.c): partitioned, fixed and dynamic byte buffers.
    - HashTable, CoreHash (switch_hashtable.c, switch_core_hash.c): the chained
      table with its growth, iteration and ownership of keys and values, its
      string and integer keys, and [IntHash], the interface (a class) against
      which the jitter buffer is verified.
    - JbSort, JitterBuffer, JbInv, JbProps, JbAudio, JbCases
      (switch_jitterbuffer.c): the merge sort of nodes, the operations, their
      invariant, the negative acknowledgements, the reordering of an audio
      stream, and concrete runs on the tables of CoreHash.
    - PortAllocator (switch_core_port_allocator.c): media ports.
    - Scheduler (switch_scheduler.c): timed tasks and their threads.
    - AprQueue, ChannelDtmf (libs/apr-util/misc/apr_queue.c, switch_channel.c,
      switch_core.c): the bounded queue and the digits of a channel in it.
    - ChannelNames, ChannelState, ChannelLife, ChannelRace (switch_channel.c):
      names of causes and states; the state table, flags, hold and hangup of a
      channel; what is final; and threads that hang up at the same time.
    - Utf8 (switch_utf8.c).
    - Base64, UrlCode, Separate, TextUtil, CaseLanes (switch_utils.c and
      switch_utils.h): encodings, splitting of arguments, routines on texts, and
      letter case eight bytes at a time.
    - NetList (switch_utils.c): access lists of networks.
    - Event, EventProps, EventText (switch_event.c): headers of events, events
      as maps, arrays and copies, and their text.
    - Crc32, Stun, StunProps, StunBuild (switch_stun.c): the checksum, parsing
      and building packets.
    - G711 (g711.h, g711.c), Vad (switch_vad.c), Sln (switch_resample.c):
      companding, voice detection, mixing of channels.
    - StateHandlers (switch_channel.c, switch_core.c): the tables of state
      handlers of a channel and of the core.
    - StateMachine, StateMachineProps, StandardHandlers
      (switch_core_state_machine.c): the thread of a session, the order in which
      handlers are asked, hangup, reporting and destruction, and what a session
      does by default in each state.
    - XmlText, XmlTree, XmlCut, XmlParse, XmlPrint, XmlRound (switch_xml.c): texts
      with references, tags and their links, cutting and moving them, the parser,
      the printer, and documents that are written and read again.
    - Regex (switch_regex.c, switch_utils.c): matching with PCRE, groups that are
      captured or put into templates.
    - DateTime (switch_utils.c, switch_xml.c): lists and ranges of numbers, days,
      times and dates, and the attributes that make conditions of them.
    - Caller (switch_caller.c): caller profiles and extensions.
    - ChannelVars (switch_channel.c): the variables of a channel, which are headers
      of events, with those of scopes, profiles and the core.
    - Expand (switch_channel.c): references to variables and functions in texts.
    - Dialplan, DialplanProps, DialplanText, DialplanChannel (mod_dialplan_xml.c): the
      search for an extension, what a dialplan means, the way from the text of a
      dialplan to applications, and all of it on the variables of a channel.  They use
      the files before and the parser: a dialplan is a document, its conditions are
      dates or matches, its fields are those of the caller or variables, its result is
      an extension, which StandardHandlers executes.
    - IvrMenu, IvrMenuProps, IvrMenuRules, IvrMenuCases, IvrMenuXml
      (switch_ivr_menu.c): menus for callers, that they end, the rules they follow,
      with patterns, functions and voices, callers to try them on, and menus from the
      tags of a document.

    ** What the theorems show

    - Refinement: an XML dialplan is a list of conditions and actions with a meaning
      of its own; a buffer is a bounded FIFO; a hash table a finite map; the port
      allocator a set of free ports; the DTMF queue a bounded list of digits; an
      event with unique headers a map that ignores letter case; the jitter
      buffer of an audio stream a bag of packets that come out in order; voice
      detection, when it demands no more hits than its hangover has frames, a window
      over the last frames; the table of state handlers a list
      without duplicates; the links between XML tags a document in its order, by
      names and by positions; menus for callers follow rules without buffers, flags
      and loops over actions.
    - Invariants: the jitter buffer (nodes, counters and tables), events (links
      and hashes), a channel that hung up.
    - Liveness and termination: a session that hung up, that nobody instructs, or
      that runs its dialplan is taken down, and the endpoint learns it once; a menu is
      left by every caller who does not enter digits for ever.
    - Safety under threads: one hangup per channel, no task freed or started
      after its time, every key and digit freed once.
    - Round trips: UTF-8, base64, URL encoding, arguments that were escaped,
      array headers, STUN packets and the addresses in them, XML texts and whole
      XML documents.
    - Equivalence with a reference: the macro that offers a state and a traversal
      of the lists of handlers, case conversion by words and by bytes, CRC-32 by
      tables and by bits, positions in UTF-8 texts.
    - Bounds: whatever the text, the expansion of references ends within its buffer,
      and so does the parser of STUN packets; the substitution of groups does for
      templates without open braces.
    - Security: what a caller supplies is expanded without reading a variable or
      calling a function.
    - Behaviour and errors of access lists, state changes, routing and the
      execution of dialplans, dates and times, templates of groups, variables of
      channels and references to them, negative acknowledgements, mixing, companding,
      replacing of texts.
    Theorems about code that departs from its purpose are kept beside the others, and
    the conditions of a theorem are stated in the comment before it: those under which
    a port is freed, a packet put, a document written or a template filled are there
    because the code fails outside them, which a theorem beside it shows.

    ** Fuel and bounds

    Most loops are structural.  The sort of JbSort is bounded by the length of
    its list; array values inside array values (Event) by the length of the
    text; [switch_stun_packet_parse] by the length of the packet, since every
    attribute takes four bytes; the encoders by the number of pending bits; the
    loops over state handlers by the size of their tables; a session that hung up
    by two rounds, one without instructions by 502; walks along XML tags by the
    number of tags, the XML parser by the length of the document, since every
    markup takes a byte, and the printer by the number of tags; lists of numbers
    and days by their length; the substitution of groups by the size of the buffer
    times the length of the template, since every round moves on in the one or adds
    to the other; the search of a dialplan by 102 levels and the expansion of variables
    by 101, where the code stops above 100, and each expansion by the length of its
    text; menus by twelve levels and a number of rounds that their limits and the
    digits of the caller give.  Each of these bounds is shown to be enough for what the theorems are about:
    no theorem has a case for running out of fuel.  The loop of the port allocator that may never end is a relation on
    the number of attempts.

    ** Not modelled

    Input and output (sockets, files, databases, RTP with SRTP, DTLS and ICE),
    process and memory management, logging, and glue to libraries, which only
    pass values on; SDP negotiation, call control (switch_ivr, but for its menus) and the delivery
    threads of events, which drive modules through callbacks; internal document
    types of XML, the memory of its attributes and texts, JSON and configuration
    files; floating-point routines on samples.  Of the XML dialplan, the request for
    the document is left out.  Other modules (src/src/mod) and libraries (src/libs) are clients and
    third-party code.  Not modelled, though nothing prevents it: the arrays of XML
    attributes with their ownership, the frame buffers of switch_utils.c, and the
    announcements and application flags of switch_channel.c. *)

(** * Prelude: shared vocabulary of the development *)
From stdpp Require Import base list numbers option strings sorting.
From Stdlib Require Import ZArith Lia.

#[global] Open Scope Z_scope.
#[global] Set Default Goal Selector "!".

(** ** Status codes: [switch_status_t] of include/switch_types.h *)
Inductive switch_status :=
| SWITCH_STATUS_SUCCESS
| SWITCH_STATUS_FALSE
| SWITCH_STATUS_TIMEOUT
| SWITCH_STATUS_RESTART
| SWITCH_STATUS_INTR
| SWITCH_STATUS_NOTIMPL
| SWITCH_STATUS_MEMERR
| SWITCH_STATUS_NOOP
| SWITCH_STATUS_RESAMPLE
| SWITCH_STATUS_GENERR
| SWITCH_STATUS_INUSE
| SWITCH_STATUS_BREAK
| SWITCH_STATUS_SOCKERR
| SWITCH_STATUS_MORE_DATA
| SWITCH_STATUS_NOTFOUND
| SWITCH_STATUS_UNLOAD
| SWITCH_STATUS_NOUNLOAD
| SWITCH_STATUS_IGNORE
| SWITCH_STATUS_TOO_SMALL
| SWITCH_STATUS_FOUND
| SWITCH_STATUS_CONTINUE
| SWITCH_STATUS_TERM
| SWITCH_STATUS_NOT_INITALIZED
| SWITCH_STATUS_TOO_LATE
| SWITCH_STATUS_XBREAK
| SWITCH_STATUS_WINBREAK.

#[export] Instance switch_status_eq_dec : EqDecision switch_status.
Proof. solve_decision. Defined.

(** ** Outcomes of a C function body

    [Ret x]: the function returned; [Abort]: a [switch_assert] or [abort]
    stopped the process; [Ub]: an access outside an object, or a use of an
    uninitialised pointer. *)
Inductive res (A : Type) :=
| Ret (a : A)
| Abort
| Ub.
Arguments Ret {A} a.
Arguments Abort {A}.
Arguments Ub {A}.

Definition rbind {A B} (m : res A) (k : A -> res B) : res B :=
  match m with
  | Ret a => k a
  | Abort => Abort
  | Ub => Ub
  end.

(** Turn a checked memory access into an outcome. *)
Definition or_ub {A} (o : option A) : res A :=
  match o with Some a => Ret a | None => Ub end.

(** [switch_assert(c)] *)
Definition rassert {A} (c : bool) (k : res A) : res A := if c then k else Abort.

Declare Scope c_scope.
Delimit Scope c_scope with c.
Notation "x <-! m ;; k" := (rbind m (fun x => k))
  (at level 20, m at level 99, k at level 200, only parsing) : c_scope.
Notation "' p <-! m ;; k" := (rbind m (fun x => match x with p => k end))
  (at level 20, p pattern, m at level 99, k at level 200, only parsing) : c_scope.

Definition is_ret {A} (m : res A) : Prop := exists a, m = Ret a.

Lemma rbind_Ret {A B} (m : res A) (k : A -> res B) b :
  rbind m k = Ret b <-> exists a, m = Ret a /\ k a = Ret b.
Proof. destruct m; simpl; split; intros H; try destruct H as (? & ? & ?); simplify_eq; eauto. Qed.

(** ** Machine integers: unsigned and signed wrap-around *)
Definition u8 (z : Z) : Z := z mod 256.
Definition u16 (z : Z) : Z := z mod 65536.
Definition u32 (z : Z) : Z := z mod 4294967296.
Definition u64 (z : Z) : Z := z mod 18446744073709551616.
Definition i8 (z : Z) : Z := (z + 128) mod 256 - 128.
Definition i16 (z : Z) : Z := (z + 32768) mod 65536 - 32768.
Definition i32 (z : Z) : Z := (z + 2147483648) mod 4294967296 - 2147483648.

#[global] Arguments u8 : simpl never.
#[global] Arguments u16 : simpl never.
#[global] Arguments u32 : simpl never.
#[global] Arguments u64 : simpl never.
#[global] Arguments i8 : simpl never.
#[global] Arguments i16 : simpl never.
#[global] Arguments i32 : simpl never.

Lemma u8_range z : 0 <= u8 z < 256.
Proof. unfold u8. apply Z.mod_pos_bound. lia. Qed.
Lemma u16_range z : 0 <= u16 z < 65536.
Proof. unfold u16. apply Z.mod_pos_bound. lia. Qed.
Lemma u32_range z : 0 <= u32 z < 4294967296.
Proof. unfold u32. apply Z.mod_pos_bound. lia. Qed.
Lemma u64_range z : 0 <= u64 z < 18446744073709551616.
Proof. unfold u64. apply Z.mod_pos_bound. lia. Qed.
Lemma u8_small z : 0 <= z < 256 -> u8 z = z.
Proof. apply Z.mod_small. Qed.
Lemma u16_small z : 0 <= z < 65536 -> u16 z = z.
Proof. apply Z.mod_small. Qed.
Lemma u32_small z : 0 <= z < 4294967296 -> u32 z = z.
Proof. apply Z.mod_small. Qed.
Lemma u64_small z : 0 <= z < 18446744073709551616 -> u64 z = z.
Proof. apply Z.mod_small. Qed.
Lemma i16_small z : -32768 <= z < 32768 -> i16 z = z.
Proof. intros Hz. unfold i16. rewrite Z.mod_small by lia. lia. Qed.
Lemma i32_small z : -2147483648 <= z < 2147483648 -> i32 z = z.
Proof. intros Hz. unfold i32. rewrite Z.mod_small by lia. lia. Qed.

(** Disjoint bits add up. *)
Lemma lor_add x k c : 0 <= k -> 0 <= x < 2 ^ k -> Z.lor x (c * 2 ^ k) = x + c * 2 ^ k.
Proof.
  intros Hk Hx. rewrite <- (Z.add_0_r (Z.lor _ _)).
  assert (E : Z.land x (c * 2 ^ k) = 0).
  { apply Z.bits_inj'. intros n Hn. rewrite Z.land_spec, Z.bits_0, <- Z.shiftl_mul_pow2 by done.
    destruct (Z.lt_ge_cases n k).
    - rewrite (Z.shiftl_spec_low c k n) by done. apply andb_false_r.
    - rewrite <- (Z.mod_small x (2 ^ k)) by done. by rewrite Z.mod_pow2_bits_high by lia. }
  rewrite <- E at 1. apply Z.add_lor_land.
Qed.

(** ** Byte order on a little-endian host *)
Definition ntohs (x : Z) : Z := Z.lor (Z.shiftl (Z.land (u16 x) 255) 8) (Z.shiftr (u16 x) 8).
Definition htons (x : Z) : Z := ntohs x.
Definition ntohl (x : Z) : Z :=
  Z.lor (Z.shiftl (ntohs (Z.land (u32 x) 65535)) 16) (ntohs (Z.shiftr (u32 x) 16)).
Definition htonl (x : Z) : Z := ntohl x.
#[global] Arguments ntohs : simpl never.
#[global] Arguments htons : simpl never.
#[global] Arguments ntohl : simpl never.
#[global] Arguments htonl : simpl never.

Lemma shiftl_lor_add a b n : 0 <= n -> 0 <= b < 2 ^ n -> Z.lor (Z.shiftl a n) b = a * 2 ^ n + b.
Proof.
  intros Hn Hb. rewrite <- Z.shiftl_mul_pow2 by lia. symmetry. apply Z.add_nocarry_lor.
  apply Z.bits_inj'; intros i Hi; rewrite Z.land_spec, Z.bits_0.
  destruct (Z.lt_ge_cases i n).
  - by rewrite Z.shiftl_spec_low by lia.
  - rewrite <- (Z.mod_small b (2 ^ n)) by lia. rewrite Z.mod_pow2_bits_high by lia.
    apply andb_false_r.
Qed.

Lemma ntohs_u16 x : ntohs x = ntohs (u16 x).
Proof. unfold ntohs. by rewrite (u16_small (u16 x)) by apply u16_range. Qed.

Lemma ntohs_eq x : 0 <= x < 65536 -> ntohs x = (x mod 256) * 256 + x / 256.
Proof.
  intros Hx. unfold ntohs. rewrite u16_small by done.
  change 255 with (Z.ones 8). rewrite Z.land_ones, Z.shiftr_div_pow2 by lia.
  apply shiftl_lor_add; [lia|]. change (2 ^ 8) with 256. split.
  - apply Z.div_pos; lia.
  - apply Z.div_lt_upper_bound; lia.
Qed.

Lemma ntohs_range x : 0 <= ntohs x < 65536.
Proof.
  rewrite ntohs_u16. pose proof (u16_range x) as Hx. rewrite ntohs_eq by done.
  revert Hx. generalize (u16 x) as y. intros y ?.
  pose proof (Z.mod_pos_bound y 256). pose proof (Z.div_lt_upper_bound y 256 256).
  pose proof (Z.div_pos y 256). lia.
Qed.

Lemma ntohs_ntohs x : 0 <= x < 65536 -> ntohs (ntohs x) = x.
Proof.
  intros Hx. rewrite (ntohs_eq (ntohs x)) by apply ntohs_range. rewrite ntohs_eq by done.
  pose proof (Z.div_mod x 256). pose proof (Z.mod_pos_bound x 256).
  assert (0 <= x / 256 < 256).
  { split; [apply Z.div_pos; lia|apply Z.div_lt_upper_bound; lia]. }
  rewrite Z.div_add_l, (Z.div_small (x / 256)) by lia.
  rewrite (Z.add_comm (x mod 256 * 256)), Z_mod_plus_full, (Z.mod_small (x / 256)) by lia. lia.
Qed.

Lemma ntohs_inj x y : 0 <= x < 65536 -> 0 <= y < 65536 -> ntohs x = ntohs y -> x = y.
Proof. intros Hx Hy E. rewrite <- (ntohs_ntohs x), <- (ntohs_ntohs y) by done. by rewrite E. Qed.

(** A property of bytes that holds when it is computed for each of them. *)
Lemma byte_forall (P : Z -> bool) : forallb P (seqZ 0 256) = true -> forall c, 0 <= c < 256 -> P c = true.
Proof.
  intros H c Hc. rewrite forallb_forall in H. apply H, list_elem_of_In, elem_of_seqZ. lia.
Qed.

(** Sizes that fit an address space with the top bit clear; every object of a
    C program on a 64-bit host has such a size. *)
Definition size_ok (z : Z) : Prop := 0 <= z < 4611686018427387904.

(** ** Flag words: [switch_test_flag], [switch_set_flag], [switch_clear_flag] *)
Definition test_flag (flags flag : Z) : bool := negb (Z.land flags flag =? 0).
Definition set_flag (flags flag : Z) : Z := Z.lor flags flag.
Definition clear_flag (flags flag : Z) : Z := Z.land flags (Z.lnot flag).

(** ** Field update of records

    [eta] rebuilds a record from its projections; a [Setter] for a projection
    is found by abstracting that projection in the rebuilt record. *)
Class Eta (R : Type) := eta : R -> R.
Class Setter {R T : Type} (proj : R -> T) := set : (T -> T) -> R -> R.
Arguments set {R T} proj {_} _ _ /.

Ltac solve_setter :=
  lazymatch goal with
  | |- @Setter ?R ?T ?proj =>
      let f := fresh "f" in
      let r := fresh "r" in
      intros f r;
      let inst := constr:(_ : Eta R) in
      let body := eval hnf in inst in
      let e := eval cbv beta in (body r) in
      lazymatch eval pattern (proj r) in e with
      | ?g _ => let t := eval cbv beta in (g (f (proj r))) in exact t
      end
  end.
#[export] Hint Extern 1 (Setter _) => solve_setter : typeclass_instances.

Notation "r <| p := v |>" := (set p (fun _ => v) r)
  (at level 1, left associativity, p at level 0, v at level 200,
   format "r  <| p  :=  v |>") : c_scope.
Notation "r <| p ::= f |>" := (set p f r)
  (at level 1, left associativity, p at level 0, f at level 200,
   format "r  <| p  ::=  f |>") : c_scope.
#[global] Open Scope c_scope.

(** ** Byte-addressed objects *)
Section Memory.
Context {B : Type}.
Implicit Types m bs : list B.

Definition zlen m : Z := Z.of_nat (length m).

(** Read [n] cells at offset [off]; [None] when outside the object. *)
Definition mem_read m (off n : Z) : option (list B) :=
  if (0 <=? off) && (0 <=? n) && (off + n <=? zlen m)
  then Some (take (Z.to_nat n) (drop (Z.to_nat off) m)) else None.

(** Overwrite the cells at offset [off] with [bs]. *)
Definition mem_write m (off : Z) bs : option (list B) :=
  if (0 <=? off) && (off + zlen bs <=? zlen m)
  then Some (take (Z.to_nat off) m ++ bs ++ drop (Z.to_nat off + length bs) m)
  else None.

Lemma zlen_nonneg m : 0 <= zlen m.
Proof. unfold zlen. lia. Qed.
Lemma zlen_app m1 m2 : zlen (m1 ++ m2) = zlen m1 + zlen m2.
Proof. unfold zlen. rewrite length_app. lia. Qed.
Lemma zlen_cons (x : B) m : zlen (x :: m) = 1 + zlen m.
Proof. unfold zlen. cbn [length]. lia. Qed.
Lemma zlen_take n m : 0 <= n <= zlen m -> zlen (take (Z.to_nat n) m) = n.
Proof. unfold zlen. rewrite length_take. lia. Qed.
Lemma zlen_drop n m : 0 <= n <= zlen m -> zlen (drop (Z.to_nat n) m) = zlen m - n.
Proof. unfold zlen. rewrite length_drop. lia. Qed.

Lemma mem_read_Some m off n :
  0 <= off -> 0 <= n -> off + n <= zlen m ->
  mem_read m off n = Some (take (Z.to_nat n) (drop (Z.to_nat off) m)).
Proof.
  intros. unfold mem_read.
  by rewrite !(proj2 (Z.leb_le _ _)) by lia.
Qed.

Lemma mem_write_Some m off bs :
  0 <= off -> off + zlen bs <= zlen m ->
  mem_write m off bs =
    Some (take (Z.to_nat off) m ++ bs ++ drop (Z.to_nat off + length bs) m).
Proof.
  intros. unfold mem_write.
  by rewrite !(proj2 (Z.leb_le _ _)) by lia.
Qed.

Lemma mem_write_zlen m off bs m' :
  mem_write m off bs = Some m' -> zlen m' = zlen m.
Proof.
  unfold mem_write. case_match; [|done]. intros [= <-].
  apply andb_prop in H as [?%Z.leb_le ?%Z.leb_le].
  unfold zlen in *. rewrite !length_app, length_take, length_drop. lia.
Qed.

(** A write leaves the cells before and after it alone, and is read back. *)
Lemma mem_write_take m off bs m' k :
  mem_write m off bs = Some m' -> (k <= Z.to_nat off)%nat ->
  take k m' = take k m.
Proof.
  unfold mem_write. case_match; [|done]. intros [= <-] Hk.
  apply andb_prop in H as [?%Z.leb_le ?%Z.leb_le].
  assert (zlen bs >= 0) by (unfold zlen; lia).
  unfold zlen in *.
  rewrite take_app_le by (rewrite length_take; lia).
  by rewrite take_take, Nat.min_l by lia.
Qed.
End Memory.

(** ** Synchronisation requests

    Functions that take a lock return the requests they make, in order. *)
Inductive sync_op :=
| Lock (m : Z)
| Unlock (m : Z)
| RdLock (m : Z)
| WrLock (m : Z)
| RwUnlock (m : Z).

(** ** Lists *)
Lemma alter_as_insert {A} (f : A -> A) (l : list A) i x :
  l !! i = Some x -> alter f i l = <[i := f x]> l.
Proof.
  intros Hi. apply list_eq. intros j. rewrite list_lookup_alter.
  pose proof (lookup_lt_Some _ _ _ Hi).
  case_decide as E; [subst|].
  - by rewrite list_lookup_insert_eq, Hi by done.
  - by rewrite list_lookup_insert_ne.
Qed.

(** ** Automation *)
Ltac boolify :=
  repeat match goal with
  | H : (_ && _) = true |- _ => apply andb_prop in H as [? ?]
  | H : (_ && _) = false |- _ => apply andb_false_iff in H
  | H : (_ || _) = true |- _ => apply orb_prop in H
  | H : (_ || _) = false |- _ => apply orb_false_iff in H as [? ?]
  | H : negb _ = true |- _ => apply negb_true_iff in H
  | H : negb _ = false |- _ => apply negb_false_iff in H
  | H : (_ <? _) = true |- _ => apply Z.ltb_lt in H
  | H : (_ <? _) = false |- _ => apply Z.ltb_ge in H
  | H : (_ <=? _) = true |- _ => apply Z.leb_le in H
  | H : (_ <=? _) = false |- _ => apply Z.leb_gt in H
  | H : (_ =? _) = true |- _ => apply Z.eqb_eq in H
  | H : (_ =? _) = false |- _ => apply Z.eqb_neq in H
  end.

(** Case analysis on every [if] and [match] of the goal, with the boolean
    tests turned into propositions. *)
Ltac cases := repeat (case_match; boolify; simplify_eq/=).

(** Case analysis on the first [if] of the goal, or of a hypothesis. *)
Ltac case_if E :=
  match goal with
  | |- context [if ?c then _ else _] => destruct c eqn:E
  end.
Ltac case_if_in H E :=
  match type of H with
  | context [if ?c then _ else _] => destruct c eqn:E
  end.

(** Case analysis on an [if] of the goal whose condition contains none. *)
Ltac case_inner_if :=
  match goal with
  | |- context [if ?c then _ else _] =>
      lazymatch c with
      | context [if _ then _ else _] => fail
      | _ => destruct c eqn:?
      end
  end.

(** Drop the wrap-arounds whose argument fits, from the inside. *)
Ltac small_u32 :=
  repeat match goal with
  | |- context [u32 ?x] =>
      lazymatch x with
      | context [u32 _] => fail
      | _ => rewrite (u32_small x) by lia
      end
  end.

Create HintDb cdb.
Create Rewrite HintDb cdb.
#[export] Hint Resolve zlen_nonneg u8_range u16_range u32_range u64_range : cdb.
#[export] Hint Rewrite @zlen_app : cdb.
