(* ===== verification/Buffer.v ===== *)
(** * Buffer: the byte FIFO of src/switch_buffer.c

    A buffer is one heap object [b_data] of [b_datalen] bytes, a read pointer
    [b_head] into it (kept as an offset from [b_data]), the number [b_used] of
    unread bytes and the number [b_actually_used] of bytes between the start of
    the object and the end of the unread ones.  Every copy is bounds checked
    ([mem_read], [mem_write]); leaving the object is the outcome [Ub].  The
    result of [realloc] is an argument of the operations that call it. *)
From S2P Require Import Prelude.
From stdpp Require Import base list numbers option.
From Stdlib Require Import ZArith Lia.
From Stdlib Require Import Init.Byte.

Abbreviation byte := Byte.byte.
Local Open Scope Z_scope.

Definition SWITCH_BUFFER_FLAG_DYNAMIC : Z := Z.shiftl 1 0.
Definition SWITCH_BUFFER_FLAG_PARTITION : Z := Z.shiftl 1 1.

(** struct switch_buffer; the mutex is an optional handle. *)
Record switch_buffer := mk_buffer {
  b_data : option (list byte);
  b_head : Z;
  b_used : Z;
  b_actually_used : Z;
  b_datalen : Z;
  b_max_len : Z;
  b_blocksize : Z;
  b_mutex : option Z;
  b_flags : Z;
  b_id : Z;
  b_loops : Z
}.

#[export] Instance eta_buffer : Eta switch_buffer := fun b =>
  mk_buffer (b_data b) (b_head b) (b_used b) (b_actually_used b) (b_datalen b)
    (b_max_len b) (b_blocksize b) (b_mutex b) (b_flags b) (b_id b) (b_loops b).

Definition zero_buffer : switch_buffer :=
  mk_buffer None 0 0 0 0 0 0 None 0 0 0.

(** What the allocator does in one call: whether [realloc] succeeds and the
    bytes found in the part of the object it adds. *)
Record allocator := { realloc_ok : Z -> bool; fresh_bytes : nat -> byte }.

Definition switch_buffer_reset_partition_data (b : switch_buffer)
  : switch_status * switch_buffer :=
  if negb (test_flag (b_flags b) SWITCH_BUFFER_FLAG_PARTITION)
  then (SWITCH_STATUS_FALSE, b)
  else (SWITCH_STATUS_SUCCESS,
        b <| b_head := 0 |> <| b_used := b_datalen b |>
          <| b_actually_used := b_datalen b |>).

Definition switch_buffer_set_partition_data (b : switch_buffer) (data : list byte)
    (datalen : Z) : switch_status * switch_buffer :=
  if negb (test_flag (b_flags b) SWITCH_BUFFER_FLAG_PARTITION)
  then (SWITCH_STATUS_FALSE, b)
  else switch_buffer_reset_partition_data
         (b <| b_data := Some data |> <| b_datalen := datalen |>).

(** The three constructors thread the static counter [buffer_id]; [ok] says
    whether the allocations succeed.  *)
Definition switch_buffer_create_partition (buffer_id : Z) (ok : bool)
    (data : list byte) (datalen : Z) : switch_status * Z * option switch_buffer :=
  if ok then
    let nb := zero_buffer <| b_id := buffer_id |>
                <| b_flags ::= fun f => set_flag f SWITCH_BUFFER_FLAG_PARTITION |> in
    let nb := (switch_buffer_set_partition_data nb data datalen).2 in
    (SWITCH_STATUS_SUCCESS, u32 (buffer_id + 1), Some nb)
  else (SWITCH_STATUS_MEMERR, buffer_id, None).

(** [switch_core_alloc] hands out zeroed memory. *)
Definition switch_buffer_create (buffer_id : Z) (ok : bool) (max_len : Z)
  : switch_status * Z * option switch_buffer :=
  if ok then
    let nb := zero_buffer <| b_data := Some (replicate (Z.to_nat max_len) x00) |>
                <| b_datalen := max_len |> <| b_id := buffer_id |> <| b_head := 0 |> in
    (SWITCH_STATUS_SUCCESS, u32 (buffer_id + 1), Some nb)
  else (SWITCH_STATUS_MEMERR, buffer_id, None).

Definition switch_buffer_create_dynamic (buffer_id : Z) (ok_buf ok_data : bool)
    (blocksize start_len max_len : Z) : switch_status * Z * option switch_buffer :=
  if ok_buf then
    let nb := zero_buffer in
    if negb (start_len =? 0) && negb ok_data then (SWITCH_STATUS_MEMERR, buffer_id, None)
    else
      let nb := if negb (start_len =? 0)
                then nb <| b_data := Some (replicate (Z.to_nat start_len) x00) |> else nb in
      let nb := nb <| b_max_len := max_len |> <| b_datalen := start_len |>
                  <| b_id := buffer_id |> <| b_blocksize := blocksize |> <| b_head := 0 |>
                  <| b_flags ::= fun f => set_flag f SWITCH_BUFFER_FLAG_DYNAMIC |> in
      (SWITCH_STATUS_SUCCESS, u32 (buffer_id + 1), Some nb)
  else (SWITCH_STATUS_MEMERR, buffer_id, None).

(** The locking calls return the mutex operation they request. *)
Definition switch_buffer_add_mutex (b : switch_buffer) (mutex : option Z) : switch_buffer :=
  b <| b_mutex := mutex |>.
Definition switch_buffer_lock (b : switch_buffer) : list sync_op :=
  match b_mutex b with Some m => [Lock m] | None => [] end.
Definition switch_buffer_trylock (b : switch_buffer) (lock_status : switch_status)
  : list sync_op * switch_status :=
  match b_mutex b with
  | Some m => ([Lock m], lock_status)
  | None => ([], SWITCH_STATUS_FALSE)
  end.
Definition switch_buffer_unlock (b : switch_buffer) : list sync_op :=
  match b_mutex b with Some m => [Unlock m] | None => [] end.

Definition switch_buffer_len (b : switch_buffer) : Z := b_datalen b.

Definition switch_buffer_freespace (b : switch_buffer) : Z :=
  if test_flag (b_flags b) SWITCH_BUFFER_FLAG_DYNAMIC then
    if negb (b_max_len b =? 0) then u64 (b_max_len b - b_used b) else 1000000
  else u64 (b_datalen b - b_used b).

Definition switch_buffer_inuse (b : switch_buffer) : Z := b_used b.

(** The number of bytes a read, peek or toss of [datalen] takes. *)
Definition reading_of (b : switch_buffer) (datalen : Z) : Z :=
  if datalen <=? b_used b then datalen else b_used b.

Definition switch_buffer_toss (b : switch_buffer) (datalen : Z) : switch_buffer * Z :=
  if b_used b <? 1 then (b <| b_used := 0 |>, 0)
  else
    let reading := reading_of b datalen in
    let b := b <| b_used ::= fun u => u64 (u - reading) |>
               <| b_head ::= fun h => h + reading |> in
    (b, b_used b).

Definition switch_buffer_set_loops (b : switch_buffer) (loops : Z) : switch_buffer :=
  b <| b_loops := loops |>.

(** [memcpy(dst, buffer->head, n)] *)
Definition head_bytes (b : switch_buffer) (n : Z) : res (list byte) :=
  match b_data b with
  | Some d => or_ub (mem_read d (b_head b) n)
  | None => Ub
  end.

(** Returns the buffer, the length returned and the bytes copied out. *)
Definition switch_buffer_read (b : switch_buffer) (datalen : Z)
  : res (switch_buffer * Z * list byte) :=
  if b_used b <? 1 then Ret (b <| b_used := 0 |>, 0, [])
  else
    let reading := reading_of b datalen in
    out <-! head_bytes b reading;;
    Ret (b <| b_used ::= fun u => u64 (u - reading) |>
           <| b_head ::= fun h => h + reading |>, reading, out).

Definition switch_buffer_peek (b : switch_buffer) (datalen : Z)
  : res (switch_buffer * Z * list byte) :=
  if b_used b <? 1 then Ret (b <| b_used := 0 |>, 0, [])
  else
    let reading := reading_of b datalen in
    out <-! head_bytes b reading;;
    Ret (b, reading, out).

(** The pointer handed out is an offset into the buffer's object. *)
Definition switch_buffer_peek_zerocopy (b : switch_buffer)
  : switch_buffer * Z * option Z :=
  if b_used b <? 1 then (b <| b_used := 0 |>, 0, None)
  else (b, b_used b, Some (b_head b)).

Definition switch_buffer_read_loop (b : switch_buffer) (datalen : Z)
  : res (switch_buffer * Z * list byte) :=
  '(b, len, out) <-! switch_buffer_read b datalen;;
  if len =? 0 then
    let b := if 0 <? b_loops b then b <| b_loops ::= fun l => l - 1 |> else b in
    if b_loops b =? 0 then Ret (b, 0, out)
    else switch_buffer_read
           (b <| b_head := 0 |> <| b_used := b_actually_used b |>) datalen
  else Ret (b, len, out).

(** The first block of [switch_buffer_write]: slide the unread bytes to the
    start of the object when the tail is too short for the new ones. *)
Definition write_compact (b : switch_buffer) (d : list byte) (datalen : Z)
  : res switch_buffer :=
  let actual_freespace := u64 (b_datalen b - b_actually_used b) in
  if actual_freespace <? datalen then
    moved <-! or_ub (mem_read d (b_head b) (b_used b));;
    d' <-! or_ub (mem_write d 0 moved);;
    Ret (b <| b_data := Some d' |> <| b_head := 0 |> <| b_actually_used := b_used b |>)
  else Ret b.

(** The size asked of [realloc]. *)
Definition grow_size (b : switch_buffer) (datalen : Z) : Z :=
  let new_size := u64 (b_datalen b + datalen) in
  let new_block_size := u64 (b_datalen b + b_blocksize b) in
  if new_size <? new_block_size then new_block_size else new_size.

(** The second block: grow a dynamic buffer.  The flag is
    false when [realloc] failed and the function returns 0. *)
Definition write_grow (a : allocator) (b : switch_buffer) (datalen : Z)
  : switch_buffer * bool :=
  let freespace := u64 (b_datalen b - b_used b) in
  if test_flag (b_flags b) SWITCH_BUFFER_FLAG_DYNAMIC &&
     ((freespace <? datalen) &&
      ((b_max_len b =? 0) || (u64 (b_used b + datalen) <=? b_max_len b)))
  then
    let new_size := grow_size b datalen in
    let b := b <| b_head := 0 |> in
    if negb (realloc_ok a new_size) then (b, false)
    else
      let old := default [] (b_data b) in
      let tmp := take (Z.to_nat new_size) old ++
                 map (fresh_bytes a) (seq 0 (Z.to_nat new_size - length old)) in
      (b <| b_data := Some tmp |> <| b_head := 0 |> <| b_datalen := new_size |>, true)
  else (b, true).

Definition switch_buffer_write (a : allocator) (b : switch_buffer) (data : list byte)
  : res (switch_buffer * Z) :=
  let datalen := zlen data in
  if test_flag (b_flags b) SWITCH_BUFFER_FLAG_PARTITION then Ret (b, 0)
  else match b_data b with
  | None => Abort
  | Some d =>
    if datalen =? 0 then Ret (b, b_used b)
    else
      b <-! write_compact b d datalen;;
      match write_grow a b datalen with
      | (b, false) => Ret (b, 0)
      | (b, true) =>
        let freespace := u64 (b_datalen b - b_used b) in
        if freespace <? datalen then Ret (b, 0)
        else
          d' <-! or_ub (mem_write (default [] (b_data b)) (b_head b + b_used b) data);;
          let b := b <| b_data := Some d' |>
                     <| b_used ::= fun u => u64 (u + datalen) |>
                     <| b_actually_used ::= fun u => u64 (u + datalen) |> in
          Ret (b, b_used b)
      end
  end.

Definition switch_buffer_zero (b : switch_buffer) : res switch_buffer :=
  match b_data b with
  | None => Abort
  | Some _ => Ret (b <| b_used := 0 |> <| b_actually_used := 0 |> <| b_head := 0 |>)
  end.

Definition switch_buffer_zwrite (a : allocator) (b : switch_buffer) (data : list byte)
  : res (switch_buffer * Z) :=
  if test_flag (b_flags b) SWITCH_BUFFER_FLAG_PARTITION then Ret (b, 0)
  else
    '(b, w) <-! switch_buffer_write a b data;;
    if w =? 0 then b <-! switch_buffer_zero b;; switch_buffer_write a b data
    else Ret (b, w).

Definition switch_buffer_slide_write (a : allocator) (b : switch_buffer) (data : list byte)
  : res (switch_buffer * Z) :=
  if test_flag (b_flags b) SWITCH_BUFFER_FLAG_PARTITION then Ret (b, 0)
  else
    '(b, w) <-! switch_buffer_write a b data;;
    if w =? 0 then switch_buffer_write a (switch_buffer_toss b (zlen data)).1 data
    else Ret (b, w).

(** Returns what is freed: the data object and the buffer itself. *)
Definition switch_buffer_destroy (bp : option switch_buffer)
  : option switch_buffer * (bool * bool) :=
  match bp with
  | Some b =>
    if test_flag (b_flags b) SWITCH_BUFFER_FLAG_DYNAMIC
    then (None, (match b_data b with Some _ => true | None => false end, true))
    else (None, (false, false))
  | None => (None, (false, false))
  end.

(** ** Invariant and abstraction *)

(** The unread bytes, oldest first. *)
Definition contents (b : switch_buffer) : list byte :=
  take (Z.to_nat (b_used b)) (drop (Z.to_nat (b_head b)) (default [] (b_data b))).

Record buf_inv (b : switch_buffer) : Prop := {
  bi_data : exists d, b_data b = Some d /\ zlen d = b_datalen b;
  bi_head : 0 <= b_head b;
  bi_used : 0 <= b_used b;
  bi_span : b_head b + b_used b = b_actually_used b;
  bi_fits : b_actually_used b <= b_datalen b;
  bi_len : size_ok (b_datalen b);
  bi_block : size_ok (b_blocksize b);
}.

Definition writable (b : switch_buffer) : Prop :=
  test_flag (b_flags b) SWITCH_BUFFER_FLAG_PARTITION = false.

(** [realloc] never succeeds for an object larger than the address space. *)
Definition alloc_sane (a : allocator) : Prop :=
  forall n, realloc_ok a n = true -> size_ok n.

(** Fields no read or write changes. *)
Definition same_config (b b' : switch_buffer) : Prop :=
  b_flags b' = b_flags b /\ b_max_len b' = b_max_len b /\
  b_blocksize b' = b_blocksize b /\ b_loops b' = b_loops b.

Lemma same_config_writable b b' : same_config b b' -> writable b -> writable b'.
Proof. unfold same_config, writable. intros (-> & _). done. Qed.

#[export] Instance same_config_preorder : PreOrder same_config.
Proof.
  split; [done|]. intros x y z (? & ? & ? & ?) (? & ? & ? & ?).
  repeat split; congruence.
Qed.

Lemma contents_zlen b : buf_inv b -> zlen (contents b) = b_used b.
Proof.
  intros [(d & Hd & Hl) Hh Hu Hs Hf ? ?]. unfold contents. rewrite Hd; simpl.
  apply zlen_take. rewrite zlen_drop; lia.
Qed.

(** Taking [n] bytes off the front of the buffer. *)
Definition advance (b : switch_buffer) (n : Z) : switch_buffer :=
  b <| b_used ::= fun u => u64 (u - n) |> <| b_head ::= fun h => h + n |>.

Lemma advance_inv b n : buf_inv b -> 0 <= n <= b_used b ->
  buf_inv (advance b n) /\ contents (advance b n) = drop (Z.to_nat n) (contents b) /\
  b_used (advance b n) = b_used b - n.
Proof.
  intros [(d & Hd & Hl) Hh Hu Hs Hf Hz ?] Hn. unfold size_ok in *.
  assert (Hw : u64 (b_used b - n) = b_used b - n) by (apply u64_small; lia).
  unfold advance; split; [|split]; simpl; rewrite ?Hw; [|unfold contents; simpl|done].
  - split; simpl; rewrite ?Hw; [eauto|lia..|done|done].
      - rewrite skipn_firstn_comm, skipn_skipn. f_equal; [lia|].
    f_equal. lia.
Qed.

Lemma reading_of_spec b datalen : 0 <= datalen -> 0 <= b_used b ->
  reading_of b datalen = Z.min datalen (b_used b).
Proof. intros. unfold reading_of. cases; lia. Qed.

Lemma head_bytes_ok b n : buf_inv b -> 0 <= n <= b_used b ->
  head_bytes b n = Ret (take (Z.to_nat n) (contents b)).
Proof.
  intros [(d & Hd & Hl) Hh Hu Hs Hf ? ?] Hn. unfold head_bytes, contents.
  rewrite Hd; simpl. rewrite mem_read_Some by lia; simpl.
  rewrite take_take. repeat f_equal. lia.
Qed.

Lemma contents_empty b : b_used b <= 0 -> contents b = [].
Proof. intros. unfold contents. by rewrite Z2Nat.nonpos by lia. Qed.

Lemma take_contents_all b n : buf_inv b -> b_used b <= n ->
  take (Z.to_nat n) (contents b) = contents b.
Proof.
  intros Hi Hn. apply take_ge. pose proof (contents_zlen b Hi).
  unfold zlen in *. lia.
Qed.
Lemma drop_contents_all b n : buf_inv b -> b_used b <= n ->
  drop (Z.to_nat n) (contents b) = [].
Proof.
  intros Hi Hn. apply drop_ge. pose proof (contents_zlen b Hi).
  unfold zlen in *. lia.
Qed.

Lemma set_used_same b : b_used b = 0 -> b <| b_used := 0 |> = b.
Proof. destruct b; simpl; by intros ->. Qed.

(** Reading [min n used] bytes is reading [n] bytes of the abstract queue. *)
Lemma min_take b n : buf_inv b -> 0 <= n ->
  take (Z.to_nat (Z.min n (b_used b))) (contents b) = take (Z.to_nat n) (contents b) /\
  drop (Z.to_nat (Z.min n (b_used b))) (contents b) = drop (Z.to_nat n) (contents b).
Proof.
  intros Hi Hn. destruct (Z.le_gt_cases n (b_used b)).
  - by rewrite Z.min_l.
  - rewrite Z.min_r by lia.
    by rewrite !take_contents_all, !drop_contents_all by (done || lia).
Qed.

Lemma read_ok b n : buf_inv b -> 0 <= n ->
  exists b', switch_buffer_read b n =
      Ret (b', zlen (take (Z.to_nat n) (contents b)), take (Z.to_nat n) (contents b)) /\
    buf_inv b' /\ same_config b b' /\ contents b' = drop (Z.to_nat n) (contents b).
Proof.
  intros Hi Hn. pose proof (bi_used _ Hi) as Hu. pose proof (contents_zlen b Hi) as Hl.
  unfold switch_buffer_read. destruct (Z.ltb_spec (b_used b) 1).
  - assert (b_used b = 0) by lia. rewrite set_used_same by done.
    rewrite contents_empty, take_nil, drop_nil by lia. exists b. by rewrite contents_empty by lia.
  - rewrite reading_of_spec, head_bytes_ok by (done || lia).
    destruct (min_take b n) as [Ht Hd]; [done..|]. rewrite Ht. simpl.
    destruct (advance_inv b (Z.min n (b_used b))) as (Hi' & Hc & _); [done|lia|].
    exists (advance b (Z.min n (b_used b))). split; [|split; [done|]].
    + do 2 f_equal. f_equal. rewrite <- Ht, zlen_take; lia.
    + split; [done|]. by rewrite Hc, Hd.
Qed.

Lemma peek_ok b n : buf_inv b -> 0 <= n ->
  switch_buffer_peek b n =
    Ret (b, zlen (take (Z.to_nat n) (contents b)), take (Z.to_nat n) (contents b)).
Proof.
  intros Hi Hn. pose proof (bi_used _ Hi) as Hu. pose proof (contents_zlen b Hi) as Hl.
  unfold switch_buffer_peek. destruct (Z.ltb_spec (b_used b) 1).
  - assert (b_used b = 0) by lia. rewrite set_used_same by done.
    by rewrite contents_empty, take_nil by lia.
  - rewrite reading_of_spec, head_bytes_ok by (done || lia).
    destruct (min_take b n) as [Ht Hd]; [done..|]. rewrite Ht. simpl.
    do 2 f_equal. f_equal. rewrite <- Ht, zlen_take; lia.
Qed.

Lemma toss_ok b n : buf_inv b -> 0 <= n ->
  exists b', switch_buffer_toss b n = (b', zlen (drop (Z.to_nat n) (contents b))) /\
    buf_inv b' /\ same_config b b' /\ contents b' = drop (Z.to_nat n) (contents b).
Proof.
  intros Hi Hn. pose proof (bi_used _ Hi) as Hu. pose proof (contents_zlen b Hi) as Hl.
  unfold switch_buffer_toss. destruct (Z.ltb_spec (b_used b) 1).
  - assert (b_used b = 0) by lia. rewrite set_used_same by done.
    rewrite contents_empty, drop_nil by lia. exists b. by rewrite contents_empty by lia.
  - rewrite reading_of_spec by lia.
    destruct (min_take b n) as [Ht Hd]; [done..|].
    destruct (advance_inv b (Z.min n (b_used b))) as (Hi' & Hc & Hu'); [done|lia|].
    exists (advance b (Z.min n (b_used b))). split; [|split; [done|]].
    + f_equal. change (b_used (advance b (Z.min n (b_used b))) = zlen (drop (Z.to_nat n) (contents b))).
      rewrite Hu', <- Hd, zlen_drop; lia.
    + split; [done|]. by rewrite Hc, Hd.
Qed.

(** *** Writing *)

Lemma append_at {A} (d bs rest : list A) (h u : nat) : (h + u <= length d)%nat ->
  take (u + length bs) (drop h (take (h + u) d ++ bs ++ rest)) = take u (drop h d) ++ bs.
Proof.
  intros. rewrite drop_app_le by (rewrite length_take; lia).
  rewrite skipn_firstn_comm. replace (h + u - h)%nat with u by lia.
  rewrite app_assoc, take_app_le by (rewrite length_app, length_take, length_drop; lia).
  apply take_ge. rewrite length_app, length_take. lia.
Qed.

(** The room a write of [n] bytes finds, before it may grow the object. *)
Definition roomy (b : switch_buffer) (n : Z) : Prop :=
  b_actually_used b + n <= b_datalen b \/ b_head b = 0.

Definition keeps (b b' : switch_buffer) : Prop :=
  buf_inv b' /\ same_config b b' /\ contents b' = contents b /\ b_used b' = b_used b.

Lemma keeps_refl b : buf_inv b -> keeps b b.
Proof. done. Qed.

Lemma write_compact_ok b d n : buf_inv b -> b_data b = Some d -> 0 < n ->
  exists b', write_compact b d n = Ret b' /\ keeps b b' /\ roomy b' n /\
    b_datalen b' = b_datalen b.
Proof.
  intros Hi Hd Hn. destruct (Hi) as [(d' & Hd' & Hl) Hh Hu Hs Hf Hz Hb].
  rewrite Hd in Hd'; simplify_eq. unfold size_ok, roomy in *. unfold write_compact.
  rewrite u64_small by lia. destruct (Z.ltb_spec (b_datalen b - b_actually_used b) n).
  2: { exists b. pose proof (keeps_refl b Hi). eauto with lia. }
  rewrite mem_read_Some by lia; simpl. set (moved := take _ _).
  assert (Hm : zlen moved = b_used b).
  { unfold moved. rewrite zlen_take; [done|]. rewrite zlen_drop; lia. }
  rewrite mem_write_Some by lia; simpl. eexists; split; [done|].
  assert (Hlen : zlen (moved ++ drop (length moved) d') = b_datalen b).
  { rewrite zlen_app, Hm. unfold zlen in *. rewrite length_drop. lia. }
  split; [|simpl; auto]. split; [|split; [done|]].
  - split; simpl; [eauto|lia..|done|done].
  - split; [|done]. unfold contents; simpl. rewrite Hd; simpl.
    rewrite drop_0. fold moved. unfold zlen in *.
    rewrite take_app_le by lia. apply take_ge. lia.
Qed.

Lemma write_grow_ok a b n : buf_inv b -> alloc_sane a -> size_ok n -> roomy b n ->
  keeps b (write_grow a b n).1 /\ roomy (write_grow a b n).1 n /\
  b_datalen b <= b_datalen (write_grow a b n).1.
Proof.
  intros Hi Ha Hn Hr. destruct (Hi) as [(d & Hd & Hl) Hh Hu Hs Hf Hz Hb].
  pose proof (keeps_refl b Hi). unfold write_grow. rewrite u64_small by (unfold size_ok in *; lia).
  case_if E; [|simpl; auto with lia].
  boolify. unfold roomy in *. destruct Hr as [|Hr0]; [lia|].
  unfold size_ok in *. assert (Hns : b_datalen b + n <= grow_size b n).
  { unfold grow_size. rewrite !u64_small by lia. cases; lia. }
  set (ns := grow_size b n) in *. clearbody ns.
  assert (Hb0 : b <| b_head := 0 |> = b) by (destruct b; simpl in *; by subst).
  destruct (realloc_ok a ns) eqn:Er; simpl.
  2: { simpl in Hb0. rewrite Hb0. auto with lia. }
  specialize (Ha _ Er). unfold size_ok in Ha. rewrite Hd; simpl.
  assert (Hlen : zlen (take (Z.to_nat ns) d ++
     map (fresh_bytes a) (seq 0 (Z.to_nat ns - length d))) = ns).
  { unfold zlen in *. rewrite length_app, length_take, length_map, length_seq. lia. }
  split; [|split; [by right | lia]]. split; [|split; [done|split; [|done]]].
  - split; simpl; try lia; unfold size_ok; eauto; lia.
  - unfold contents; simpl. rewrite Hd, Hr0, !drop_0; simpl.
    unfold zlen in *. rewrite take_app_le by (rewrite length_take; lia).
    rewrite take_take. f_equal. lia.
Qed.

Lemma append_ok b data : buf_inv b -> roomy b (zlen data) ->
  b_used b + zlen data <= b_datalen b ->
  exists d' b', mem_write (default [] (b_data b)) (b_head b + b_used b) data = Some d' /\
    b' = b <| b_data := Some d' |> <| b_used ::= fun u => u64 (u + zlen data) |>
           <| b_actually_used ::= fun u => u64 (u + zlen data) |> /\
    buf_inv b' /\ same_config b b' /\ contents b' = contents b ++ data /\
    b_used b' = b_used b + zlen data.
Proof.
  intros Hi Hr Hfit. destruct (Hi) as [(d & Hd & Hl) Hh Hu Hs Hf Hz Hb].
  pose proof (zlen_nonneg data). unfold roomy, size_ok in *. rewrite Hd; simpl.
  destruct (mem_write d (b_head b + b_used b) data) as [d'|] eqn:E.
  2: { rewrite mem_write_Some in E; [done|lia|lia]. }
  eexists d', _; split; [done|]. split; [done|].
  pose proof (mem_write_zlen _ _ _ _ E) as Hd'. simpl. rewrite !u64_small by lia. split; [|split; [done|split; [|done]]].
  - split; simpl; try lia; try done. exists d'. rewrite Hd'. done.
  - rewrite mem_write_Some in E by lia. injection E as <-.
    unfold contents; simpl. rewrite Hd; simpl. unfold zlen in *.
    rewrite !Z2Nat.inj_add, Nat2Z.id by lia. by apply append_at; lia.
Qed.

(** What one write does to the abstract queue: it appends everything or
    nothing, and reports which. *)
Inductive accepts (q data : list byte) : list byte -> Z -> Prop :=
| accepted : accepts q data (q ++ data) (zlen (q ++ data))
| refused : data <> [] -> accepts q data q 0.

Lemma write_ok a b data : buf_inv b -> writable b -> alloc_sane a -> size_ok (zlen data) ->
  exists b' r, switch_buffer_write a b data = Ret (b', r) /\
    buf_inv b' /\ same_config b b' /\ accepts (contents b) data (contents b') r /\
    (b_used b + zlen data <= b_datalen b -> contents b' = contents b ++ data).
Proof.
  intros Hi Hw Ha Hn. unfold switch_buffer_write. rewrite Hw.
  destruct (bi_data _ Hi) as (d & Hd & Hl). rewrite Hd.
  destruct (Z.eqb_spec (zlen data) 0) as [E0|E0].
  { assert (data = []) as -> by (destruct data; [done|unfold zlen in *; simpl in *; lia]).
    exists b, (b_used b). rewrite app_nil_r. split; [done|]. split; [done|].
    split; [done|]. split; [|done]. rewrite <- (contents_zlen b) by done.
    rewrite <- (app_nil_r (contents b)) at 2 3. constructor. }
  destruct (write_compact_ok b d (zlen data)) as (b1 & -> & (Hi1 & Hc1 & Hq1 & Hu1) & Hr1 & Hl1);
    [done|done|unfold size_ok in *; lia|]. simpl.
  destruct (write_grow_ok a b1 (zlen data)) as ((Hi2 & Hc2 & Hq2 & Hu2) & Hr2 & Hl2); [done..|].
  assert (data <> []) by (by intros ->).
  destruct (write_grow a b1 (zlen data)) as [b2 ok] eqn:Eg; simpl in *.
  assert (Hc : same_config b b2) by (by etrans).
  assert (Hq : contents b2 = contents b) by congruence.
  pose proof (bi_used _ Hi2). pose proof (bi_head _ Hi2). pose proof (bi_span _ Hi2).
  pose proof (bi_fits _ Hi2). pose proof (bi_len _ Hi2). unfold size_ok in *.
  destruct ok.
  - rewrite u64_small by lia. destruct (Z.ltb_spec (b_datalen b2 - b_used b2) (zlen data)).
    + exists b2, 0. repeat (split; [done|]). rewrite Hq. split; [by constructor|lia].
    + destruct (append_ok b2 data) as (d' & b3 & -> & Eb3 & Hi3 & Hc3 & Hq3 & Hu3); [done|done|lia|].
      exists b3, (b_used b3). cbn [or_ub rbind]. split; [by rewrite Eb3|]. split; [done|].
      split; [by etrans|]. rewrite <- (contents_zlen b3), Hq3, Hq by done.
      split; [constructor|done].
  - exists b2, 0. repeat (split; [done|]). rewrite Hq. split; [by constructor|].
    intros Hfit. exfalso. unfold write_grow in Eg.
    case_if_in Eg E; [|congruence]. boolify.
    pose proof (bi_used _ Hi1). pose proof (bi_len _ Hi1). unfold size_ok in *.
    rewrite u64_small in * by lia. lia.
Qed.

(** A static buffer takes a write exactly when the bytes fit. *)
Lemma write_static_refused a b data : buf_inv b -> writable b -> alloc_sane a ->
  size_ok (zlen data) -> test_flag (b_flags b) SWITCH_BUFFER_FLAG_DYNAMIC = false ->
  b_datalen b < b_used b + zlen data ->
  exists b', switch_buffer_write a b data = Ret (b', 0) /\ keeps b b' /\
    b_datalen b' = b_datalen b.
Proof.
  intros Hi Hw Ha Hn Hs Hbig. unfold switch_buffer_write. rewrite Hw.
  destruct (bi_data _ Hi) as (d & Hd & Hl). rewrite Hd.
  pose proof (bi_fits _ Hi). pose proof (bi_span _ Hi). pose proof (bi_head _ Hi).
  destruct (Z.eqb_spec (zlen data) 0); [lia|].
  destruct (write_compact_ok b d (zlen data)) as (b1 & -> & Hk & Hr1 & Hl1);
    [done|done|unfold size_ok in *; lia|].
  destruct (Hk) as (Hi1 & (Hf1 & _) & _ & Hu1).
  pose proof (bi_len _ Hi). pose proof (bi_used _ Hi). unfold size_ok in *.
  exists b1. split; [|done]. simpl. unfold write_grow. rewrite Hf1, Hs; simpl.
  rewrite u64_small by lia. case_if E; [done|boolify; lia].
Qed.

(** ** Refinement: the buffer is a byte queue *)
Inductive buf_op :=
| OpWrite (data : list byte)
| OpZwrite (data : list byte)
| OpSlideWrite (data : list byte)
| OpRead (n : Z)
| OpPeek (n : Z)
| OpToss (n : Z)
| OpZero.

(** What the caller sees: the value returned and the bytes copied out. *)
Abbreviation obs := (Z * list byte)%type.

Definition exec_op (a : allocator) (b : switch_buffer) (op : buf_op)
  : res (switch_buffer * obs) :=
  match op with
  | OpWrite data => '(b, r) <-! switch_buffer_write a b data;; Ret (b, (r, []))
  | OpZwrite data => '(b, r) <-! switch_buffer_zwrite a b data;; Ret (b, (r, []))
  | OpSlideWrite data => '(b, r) <-! switch_buffer_slide_write a b data;; Ret (b, (r, []))
  | OpRead n => '(b, r, out) <-! switch_buffer_read b n;; Ret (b, (r, out))
  | OpPeek n => '(b, r, out) <-! switch_buffer_peek b n;; Ret (b, (r, out))
  | OpToss n => let '(b, r) := switch_buffer_toss b n in Ret (b, (r, []))
  | OpZero => b <-! switch_buffer_zero b;; Ret (b, (0, []))
  end.

(** The specification: steps of an unbounded byte queue that may refuse a
    write as a whole. *)
Inductive fifo_step : list byte -> buf_op -> obs -> list byte -> Prop :=
| fs_write q data q' r : accepts q data q' r -> fifo_step q (OpWrite data) (r, []) q'
| fs_zwrite q data q' r : accepts q data q' r -> r <> 0 ->
    fifo_step q (OpZwrite data) (r, []) q'
| fs_zwrite_flush q data q1 q' r : accepts q data q1 0 -> accepts [] data q' r ->
    fifo_step q (OpZwrite data) (r, []) q'
| fs_slide q data q' r : accepts q data q' r -> r <> 0 ->
    fifo_step q (OpSlideWrite data) (r, []) q'
| fs_slide_drop q data q1 q' r : accepts q data q1 0 ->
    accepts (drop (length data) q1) data q' r ->
    fifo_step q (OpSlideWrite data) (r, []) q'
| fs_read q n : fifo_step q (OpRead n)
    (zlen (take (Z.to_nat n) q), take (Z.to_nat n) q) (drop (Z.to_nat n) q)
| fs_peek q n : fifo_step q (OpPeek n)
    (zlen (take (Z.to_nat n) q), take (Z.to_nat n) q) q
| fs_toss q n : fifo_step q (OpToss n)
    (zlen (drop (Z.to_nat n) q), []) (drop (Z.to_nat n) q)
| fs_zero q : fifo_step q OpZero (0, []) [].

Definition op_ok (a : allocator) (op : buf_op) : Prop :=
  alloc_sane a /\
  match op with
  | OpWrite data | OpZwrite data | OpSlideWrite data => size_ok (zlen data)
  | OpRead n | OpPeek n | OpToss n => 0 <= n
  | OpZero => True
  end.

Lemma zero_ok b : buf_inv b ->
  exists b', switch_buffer_zero b = Ret b' /\ buf_inv b' /\ same_config b b' /\
    contents b' = [] /\ b_datalen b' = b_datalen b /\ b_used b' = 0.
Proof.
  intros [(d & Hd & Hl) Hh Hu Hs Hf ? ?]. unfold switch_buffer_zero. rewrite Hd.
  eexists; split; [done|]. split; [split; simpl; eauto; lia|]. done.
Qed.

#[local] Hint Constructors fifo_step : cdb.

Lemma exec_op_refines a b op : buf_inv b -> writable b -> op_ok a op ->
  exists b' o, exec_op a b op = Ret (b', o) /\ buf_inv b' /\ writable b' /\
    fifo_step (contents b) op o (contents b').
Proof.
  intros Hi Hw [Ha Hop].
  destruct op as [data|data|data|n|n|n|]; simpl in *.
  - destruct (write_ok a b data) as (b' & r & -> & ? & Hc & ? & _); [done..|].
    eauto 10 using same_config_writable with cdb.
  - unfold switch_buffer_zwrite. rewrite Hw.
    destruct (write_ok a b data) as (b1 & r & -> & Hi1 & Hc & Hacc & _); [done..|]. simpl.
    pose proof (same_config_writable _ _ Hc Hw) as Hw1.
    destruct (Z.eqb_spec r 0); [subst|eauto 10 with cdb].
    destruct (zero_ok b1) as (b2 & -> & Hi2 & Hc2 & Hq2 & _); [done|]. simpl.
    destruct (write_ok a b2 data) as (b3 & r & -> & Hi3 & Hc3 & Hacc3 & _);
      eauto using same_config_writable. rewrite Hq2 in Hacc3.
    eauto 12 using same_config_writable with cdb.
  - unfold switch_buffer_slide_write. rewrite Hw.
    destruct (write_ok a b data) as (b1 & r & -> & Hi1 & Hc & Hacc & _); [done..|]. simpl.
    pose proof (same_config_writable _ _ Hc Hw) as Hw1.
    destruct (Z.eqb_spec r 0); [subst|eauto 10 with cdb].
    destruct (toss_ok b1 (zlen data)) as (b2 & -> & Hi2 & Hc2 & Hq2); auto with cdb. simpl.
    destruct (write_ok a b2 data) as (b3 & r & -> & Hi3 & Hc3 & Hacc3 & _);
      eauto using same_config_writable. rewrite Hq2 in Hacc3.
    unfold zlen in Hacc3. rewrite Nat2Z.id in Hacc3.
    eauto 12 using same_config_writable with cdb.
  - destruct (read_ok b n) as (b' & -> & ? & Hc & Hq); [done..|].
    eexists b', _. rewrite Hq. eauto using same_config_writable with cdb.
  - rewrite peek_ok by done. simpl. eauto 10 with cdb.
  - destruct (toss_ok b n) as (b' & -> & ? & Hc & Hq); [done..|].
    eexists b', _. rewrite Hq. eauto using same_config_writable with cdb.
  - destruct (zero_ok b) as (b' & -> & ? & Hc & Hq & _); [done|].
    eexists b', _. rewrite Hq. eauto using same_config_writable with cdb.
Qed.

Fixpoint exec_ops (b : switch_buffer) (ops : list (allocator * buf_op))
  : res (switch_buffer * list obs) :=
  match ops with
  | [] => Ret (b, [])
  | (a, op) :: ops =>
    '(b, o) <-! exec_op a b op;;
    '(b, os) <-! exec_ops b ops;;
    Ret (b, o :: os)
  end.

Inductive fifo_run : list byte -> list buf_op -> list obs -> list byte -> Prop :=
| fr_nil q : fifo_run q [] [] q
| fr_cons q op o q1 ops os q2 : fifo_step q op o q1 -> fifo_run q1 ops os q2 ->
    fifo_run q (op :: ops) (o :: os) q2.

(** C2: every sequence of writes, flushing writes, sliding writes, reads,
    peeks, tosses and resets on a well-formed buffer runs without a failed
    assertion or an access outside the buffer's object, keeps the buffer well
    formed, and is observationally a run of the byte queue. *)
Theorem buffer_refines_fifo (b : switch_buffer) (ops : list (allocator * buf_op)) :
  buf_inv b -> writable b -> Forall (fun p => op_ok p.1 p.2) ops ->
  exists b' os, exec_ops b ops = Ret (b', os) /\ buf_inv b' /\
    fifo_run (contents b) (map snd ops) os (contents b').
Proof.
  intros Hi Hw Hops. revert b Hi Hw. induction Hops as [|[a op] ops Hop _ IH]; intros b Hi Hw.
  - exists b, []. eauto using fifo_run.
  - destruct (exec_op_refines a b op) as (b1 & o & E & Hi1 & Hw1 & Hs); [done..|].
    destruct (IH b1) as (b2 & os & E2 & Hi2 & Hr); [done..|].
    exists b2, (o :: os). simpl. rewrite E; simpl. rewrite E2; simpl.
    eauto using fifo_run.
Qed.

(** ** Witness data *)
Definition demo_alloc : allocator :=
  {| realloc_ok := fun n => (0 <=? n) && (n <? 1000); fresh_bytes := fun _ => xff |}.

Lemma demo_alloc_sane : alloc_sane demo_alloc.
Proof. intros n H; simpl in H. boolify. unfold size_ok. lia. Qed.

Definition demo_dynamic : switch_buffer :=
  default zero_buffer (switch_buffer_create_dynamic 7 true true 4 8 0).2.
Definition demo_static : switch_buffer :=
  default zero_buffer (switch_buffer_create 7 true 4).2.

(** Both allocating constructors set up a well-formed, writable, empty buffer. *)
Lemma create_dynamic_inv id blocksize start_len max_len b :
  0 < start_len -> size_ok start_len -> size_ok blocksize ->
  (switch_buffer_create_dynamic id true true blocksize start_len max_len).2 = Some b ->
  buf_inv b /\ writable b /\ contents b = [].
Proof.
  intros Hp Hs Hb. unfold switch_buffer_create_dynamic. simpl.
  destruct (Z.eqb_spec start_len 0); [lia|]. simpl. intros [= <-].
  split; [|done]. unfold size_ok in *. split; simpl; try (unfold size_ok; lia).
  eexists; split; [done|]. unfold zlen. rewrite length_replicate. lia.
Qed.

Lemma create_static_inv id len b : size_ok len ->
  (switch_buffer_create id true len).2 = Some b ->
  buf_inv b /\ writable b /\ contents b = [].
Proof.
  intros Hs. unfold switch_buffer_create. simpl. intros [= <-].
  split; [|done]. unfold size_ok in *. split; simpl; try (unfold size_ok; lia).
  eexists; split; [done|]. unfold zlen. rewrite length_replicate. lia.
Qed.

Lemma demo_dynamic_inv : buf_inv demo_dynamic.
Proof.
  apply (create_dynamic_inv 7 4 8 0); [lia|unfold size_ok; lia..|done].
Qed.
Lemma demo_static_inv : buf_inv demo_static.
Proof. apply (create_static_inv 7 4); [unfold size_ok; lia|done]. Qed.

Lemma buffer_refines_fifo_witness :
  exists b' os,
    exec_ops demo_dynamic [(demo_alloc, OpWrite [x01; x02; x03]); (demo_alloc, OpRead 2);
      (demo_alloc, OpWrite (replicate 9 x04)); (demo_alloc, OpToss 1)] = Ret (b', os) /\
    buf_inv b' /\
    fifo_run (contents demo_dynamic)
      [OpWrite [x01; x02; x03]; OpRead 2; OpWrite (replicate 9 x04); OpToss 1] os (contents b').
Proof.
  apply (buffer_refines_fifo demo_dynamic
    [(demo_alloc, OpWrite [x01; x02; x03]); (demo_alloc, OpRead 2);
      (demo_alloc, OpWrite (replicate 9 x04)); (demo_alloc, OpToss 1)]).
  - exact demo_dynamic_inv.
  - reflexivity.
  - repeat (apply List.Forall_cons;
      [split; [exact demo_alloc_sane | unfold size_ok, zlen; simpl; lia]|]).
    apply List.Forall_nil.
Defined.

(** On a buffer of fixed size, a write of [data] is taken in full when the
    unread bytes and the new ones fit in the object, and otherwise returns 0
    and leaves the unread bytes as they were. *)
Theorem write_static_iff (a : allocator) (b : switch_buffer) (data : list byte) :
  buf_inv b -> writable b -> alloc_sane a -> size_ok (zlen data) ->
  test_flag (b_flags b) SWITCH_BUFFER_FLAG_DYNAMIC = false ->
  exists b' r, switch_buffer_write a b data = Ret (b', r) /\ buf_inv b' /\
    if b_used b + zlen data <=? b_datalen b
    then contents b' = contents b ++ data /\ r = b_used b + zlen data
    else contents b' = contents b /\ r = 0.
Proof.
  intros Hi Hw Ha Hn Hs. destruct (Z.leb_spec (b_used b + zlen data) (b_datalen b)) as [Hfit|Hbig].
  - destruct (write_ok a b data) as (b' & r & E & Hi' & _ & Hacc & Hfits); [done..|].
    exists b', r. split; [done|]. split; [done|]. specialize (Hfits Hfit).
    split; [done|]. pose proof (contents_zlen b Hi). inversion Hacc as [Hq Hr|Hne Hq Hr].
    + rewrite zlen_app. lia.
    + rewrite Hfits in Hq. apply (f_equal length) in Hq. rewrite length_app in Hq.
      destruct data; [done|simpl in Hq; lia].
  - destruct (write_static_refused a b data) as (b' & E & (Hi' & _ & Hq & _) & _); [done..|].
    exists b', 0. done.
Qed.

Lemma write_static_iff_witness :
  exists b' r, switch_buffer_write demo_alloc demo_static [x01; x02; x03] = Ret (b', r) /\
    buf_inv b' /\
    if b_used demo_static + zlen [x01; x02; x03] <=? b_datalen demo_static
    then contents b' = contents demo_static ++ [x01; x02; x03] /\
         r = b_used demo_static + zlen [x01; x02; x03]
    else contents b' = contents demo_static /\ r = 0.
Proof.
  apply write_static_iff.
  - exact demo_static_inv.
  - reflexivity.
  - exact demo_alloc_sane.
  - vm_compute; split; congruence.
  - reflexivity.
Defined.

(** A sliding write of at most the size of a fixed buffer never loses the
    new bytes: it ends with [data], preceded by all unread bytes when they fit
    and by the unread bytes less the [length data] oldest ones when not. *)
Theorem slide_write_keeps_newest (a : allocator) (b : switch_buffer) (data : list byte) :
  buf_inv b -> writable b -> alloc_sane a ->
  test_flag (b_flags b) SWITCH_BUFFER_FLAG_DYNAMIC = false ->
  0 < zlen data <= b_datalen b ->
  exists b', switch_buffer_slide_write a b data = Ret (b', b_used b') /\ buf_inv b' /\
    contents b' = (if b_used b + zlen data <=? b_datalen b then contents b
                   else drop (length data) (contents b)) ++ data.
Proof.
  intros Hi Hw Ha Hs Hn. assert (Hsz : size_ok (zlen data)).
  { pose proof (bi_len _ Hi). unfold size_ok in *. lia. }
  assert (Hne : data <> []) by (intros ->; unfold zlen in *; simpl in *; lia).
  unfold switch_buffer_slide_write. rewrite Hw.
  pose proof (bi_used _ Hi). destruct (Z.leb_spec (b_used b + zlen data) (b_datalen b)) as [Hf|Hb].
  - destruct (write_ok a b data) as (b' & r & -> & Hi' & _ & Hacc & Hfits); [done..|].
    specialize (Hfits Hf). simpl. pose proof (contents_zlen b' Hi') as Hl.
    assert (r = b_used b') as ->.
    { inversion Hacc as [Hq Hr|Hne' Hq Hr]; [rewrite <- Hl; congruence|].
      rewrite Hfits in Hq. apply (f_equal length) in Hq. rewrite length_app in Hq.
      destruct data; [done|simpl in Hq; lia]. }
    rewrite Hfits, zlen_app in Hl. pose proof (zlen_nonneg (contents b)).
    case_if E; boolify; [lia|eauto].
  - destruct (write_static_refused a b data) as (b1 & -> & Hk & Hl1); [done..|]. simpl.
    destruct Hk as (Hi1 & Hc1 & Hq1 & Hu1).
    destruct (toss_ok b1 (zlen data)) as (b2 & Et & Hi2 & Hc2 & Hq2); [done|lia|].
    rewrite Et; simpl. assert (Hw2 : writable b2) by eauto using same_config_writable.
    assert (Hl2 : b_datalen b2 = b_datalen b1).
    { unfold switch_buffer_toss in Et. case_if_in Et E; by simplify_eq/=. }
    pose proof (contents_zlen b2 Hi2) as Hu2. rewrite Hq2 in Hu2.
    unfold zlen in Hq2, Hu2. rewrite Nat2Z.id in Hq2, Hu2. rewrite length_drop in Hu2.
    pose proof (contents_zlen b1 Hi1) as Hu1'. unfold zlen in *.
    destruct (write_ok a b2 data) as (b' & r & -> & Hi' & _ & Hacc & Hfits); [done..|].
    pose proof (bi_fits _ Hi). pose proof (bi_span _ Hi). pose proof (bi_head _ Hi).
    specialize (Hfits ltac:(unfold zlen; lia)). pose proof (contents_zlen b' Hi') as Hl.
    exists b'. split; [|split; [done|congruence]].
    do 2 f_equal. inversion Hacc as [Hq Hr|Hne' Hq Hr]; [rewrite <- Hl; congruence|].
    rewrite Hfits in Hq. apply (f_equal length) in Hq. rewrite length_app in Hq.
    destruct data; [done|simpl in Hq; lia].
Qed.

Definition demo_full : switch_buffer :=
  match switch_buffer_write demo_alloc demo_static [x0a; x0b; x0c] with
  | Ret (b, _) => b | _ => zero_buffer
  end.

Lemma demo_full_inv : buf_inv demo_full.
Proof.
  destruct (write_ok demo_alloc demo_static [x0a; x0b; x0c]) as (b' & r & E & Hi & _).
  - exact demo_static_inv.
  - done.
  - exact demo_alloc_sane.
  - vm_compute; split; congruence.
  - unfold demo_full. by rewrite E.
Qed.

Lemma slide_write_keeps_newest_witness :
  exists b', switch_buffer_slide_write demo_alloc demo_full [x01; x02] = Ret (b', b_used b') /\
    buf_inv b' /\
    contents b' = (if b_used demo_full + zlen [x01; x02] <=? b_datalen demo_full
                   then contents demo_full
                   else drop (length [x01; x02]) (contents demo_full)) ++ [x01; x02].
Proof.
  apply slide_write_keeps_newest.
  - exact demo_full_inv.
  - reflexivity.
  - exact demo_alloc_sane.
  - reflexivity.
  - vm_compute. split; congruence.
Defined.

(** [max_len] does not bound a dynamic buffer.  A buffer created with block
    size 8, 4 bytes and a maximum of 6 takes two writes of 5 bytes: the growth
    for the first one reserves 12 bytes, which the second fills without a test
    of [max_len].  [switch_buffer_freespace] then wraps around to 2^64 - 4. *)
Theorem max_len_not_enforced :
  exists b1 b2,
    switch_buffer_create_dynamic 0 true true 8 4 6 = (SWITCH_STATUS_SUCCESS, 1, Some b1) /\
    exec_ops b1 [(demo_alloc, OpWrite (replicate 5 x01)); (demo_alloc, OpWrite (replicate 5 x02))]
      = Ret (b2, [(5, []); (10, [])]) /\
    b_max_len b2 = 6 /\ switch_buffer_inuse b2 = 10 /\
    switch_buffer_freespace b2 = 18446744073709551612.
Proof.
  exists (default zero_buffer (switch_buffer_create_dynamic 0 true true 8 4 6).2).
  match goal with
  | |- exists b2, _ /\ exec_ops ?b ?l = _ /\ _ =>
    let r := eval vm_compute in (exec_ops b l) in
    lazymatch r with Ret (?b2, _) => exists b2 end
  end.
  vm_compute. done.
Qed.
