(* ===== verification/HashTable.v ===== *)
(** * HashTable: the chained hash table of src/switch_hashtable.c

    The table is an array of chains; a chain is the list of the entries linked
    by [next].  Keys and values are abstract; a value of [None] is the NULL
    pointer.  What [malloc] and [realloc] answer is an argument of the
    operations that allocate.  Calls of [free] and of a destructor are returned
    as a list of effects, so that ownership can be stated. *)
From S2P Require Import Prelude.
From stdpp Require Import base list numbers option sorting.
From Stdlib Require Import ZArith Lia Permutation.

Local Open Scope Z_scope.

(** ** Constants and index arithmetic *)

Definition primes : list Z :=
  [53; 97; 193; 389;
   769; 1543; 3079; 6151;
   12289; 24593; 49157; 98317;
   196613; 393241; 786433; 1572869;
   3145739; 6291469; 12582917; 25165843;
   50331653; 100663319; 201326611; 402653189;
   805306457; 1610612741].
Definition prime_table_length : Z := zlen primes.

(** Round a non-negative integer to the 24 significant bits of a [float], to
    nearest, ties to even. *)
Definition round24 (n : Z) : Z :=
  let l := Z.log2 n in
  if l <? 24 then n
  else
    let sh := l - 23 in
    let q := Z.shiftr n sh in
    let r := n mod 2 ^ sh in
    let half := 2 ^ (sh - 1) in
    Z.shiftl (if (half <? r) || ((r =? half) && Z.odd q) then q + 1 else q) sh.

(** [max_load_factor = 0.65f] is 10905190 / 2^24. *)
Definition max_load_factor_num : Z := 10905190.

(** [(unsigned int) ceil(size * max_load_factor)]: the product is taken and
    rounded in [float]. *)
Definition load_limit (size : Z) : Z :=
  (round24 (round24 size * max_load_factor_num) + 16777215) / 16777216.

Definition HASHTABLE_FLAG_NONE : Z := 0.
Definition HASHTABLE_FLAG_FREE_KEY : Z := Z.shiftl 1 0.
Definition HASHTABLE_FLAG_FREE_VALUE : Z := Z.shiftl 1 1.
Definition HASHTABLE_DUP_CHECK : Z := Z.shiftl 1 2.

(** The supplemental mixing of [hash]. *)
Definition hash_mix (i : Z) : Z :=
  let i := u32 (i + u32 (Z.lnot (u32 (Z.shiftl i 9)))) in
  let i := Z.lxor i (Z.lor (Z.shiftr i 14) (u32 (Z.shiftl i 18))) in
  let i := u32 (i + u32 (Z.shiftl i 4)) in
  Z.lxor i (Z.lor (Z.shiftr i 10) (u32 (Z.shiftl i 22))).

Definition indexFor (tablelength hashvalue : Z) : Z := hashvalue mod tablelength.

Section HashTable.
Context {K V : Type}.

Record entry := mk_entry {
  e_k : K;
  e_h : Z;
  e_v : option V;
  e_flags : Z;
  e_destructor : option Z
}.

(** struct switch_hashtable *)
Record switch_hashtable := mk_hashtable {
  h_tablelength : Z;
  h_table : list (list entry);
  h_entrycount : Z;
  h_loadlimit : Z;
  h_primeindex : Z;
  h_hashfn : K -> Z;
  h_eqfn : K -> K -> bool
}.

#[export] Instance eta_entry : Eta entry := fun e =>
  mk_entry (e_k e) (e_h e) (e_v e) (e_flags e) (e_destructor e).
#[export] Instance eta_hashtable : Eta switch_hashtable := fun h =>
  mk_hashtable (h_tablelength h) (h_table h) (h_entrycount h) (h_loadlimit h)
    (h_primeindex h) (h_hashfn h) (h_eqfn h).

Inductive mem_effect :=
| FreeKey (k : K)
| FreeValue (v : V)
| CallDestructor (d : Z) (v : option V).

(** The allocator's answers during one insertion. *)
Record heap_env := { malloc_table : bool; realloc_table : bool; malloc_entry : bool }.

Definition hash (h : switch_hashtable) (k : K) : Z := hash_mix (u32 (h_hashfn h k)).

(** ** Operations *)

(** The search for the first prime above [minsize]; [pindex] is left at the
    length of the table when there is none. *)
Fixpoint pick_prime (l : list Z) (minsize pindex size : Z) : Z * Z :=
  match l with
  | [] => (pindex, size)
  | p :: l => if minsize <? p then (pindex, p) else pick_prime l minsize (pindex + 1) size
  end.

Definition switch_create_hashtable (malloc_h malloc_t : bool) (minsize : Z)
    (hashf : K -> Z) (eqf : K -> K -> bool)
  : res (option switch_hashtable * switch_status) :=
  if Z.shiftl 1 30 <? minsize then Ret (None, SWITCH_STATUS_FALSE)
  else
    let '(pindex, size) := pick_prime primes minsize 0 (default 0 (head primes)) in
    if negb malloc_h then Abort
    else if negb malloc_t then Abort
    else Ret (Some (mk_hashtable size (replicate (Z.to_nat size) []) 0
                      (load_limit size) pindex hashf eqf), SWITCH_STATUS_SUCCESS).

(** [e->next = newtable[index]; newtable[index] = e;] *)
Definition push_entry (t : list (list entry)) (index : Z) (e : entry) : list (list entry) :=
  alter (cons e) (Z.to_nat index) t.

(** The inner loop of [hashtable_expand]: empty one chain into the new table. *)
Fixpoint move_chain (newsize : Z) (chain : list entry) (newtable : list (list entry))
  : list (list entry) :=
  match chain with
  | [] => newtable
  | e :: chain =>
    move_chain newsize chain (push_entry newtable (indexFor newsize (e_h e)) e)
  end.

Fixpoint move_table (newsize : Z) (table newtable : list (list entry))
  : list (list entry) :=
  match table with
  | [] => newtable
  | chain :: table => move_table newsize table (move_chain newsize chain newtable)
  end.

(** With no memory for a second table the code reallocates the first one and
    then clears through the uninitialised pointer [newtable[tablelength]]. *)
Definition hashtable_expand (env : heap_env) (h : switch_hashtable)
  : res (switch_hashtable * Z) :=
  if h_primeindex h =? prime_table_length - 1 then Ret (h, 0)
  else
    let h := h <| h_primeindex ::= fun p => p + 1 |> in
    newsize <-! or_ub (primes !! Z.to_nat (h_primeindex h));;
    if malloc_table env then
      let newtable :=
        move_table newsize (h_table h) (replicate (Z.to_nat newsize) []) in
      Ret (h <| h_table := newtable |> <| h_tablelength := newsize |>
             <| h_loadlimit := load_limit newsize |>, -1)
    else if realloc_table env then Ub
    else Ret (h <| h_primeindex ::= fun p => p - 1 |>, 0).

Definition switch_hashtable_count (h : switch_hashtable) : Z := h_entrycount h.

(** The loop test [(hashvalue == e->h) && (h->eqfn(k, e->k))]. *)
Definition entry_matches (h : switch_hashtable) (k : K) (hashvalue : Z) (e : entry) : bool :=
  (hashvalue =? e_h e) && h_eqfn h k (e_k e).

(** Unlink the first matching entry of a chain. *)
Fixpoint unlink (p : entry -> bool) (chain : list entry) : option (entry * list entry) :=
  match chain with
  | [] => None
  | e :: chain =>
    if p e then Some (e, chain)
    else match unlink p chain with
         | Some (e', chain') => Some (e', e :: chain')
         | None => None
         end
  end.

(** What is freed with an entry, and the value pointer left for the caller. *)
Definition release_entry (e : entry) : list mem_effect * option V :=
  let fk := if test_flag (e_flags e) HASHTABLE_FLAG_FREE_KEY then [FreeKey (e_k e)] else [] in
  if test_flag (e_flags e) HASHTABLE_FLAG_FREE_VALUE then
    (fk ++ match e_v e with Some v => [FreeValue v] | None => [] end, None)
  else match e_destructor e with
       | Some d => (fk ++ [CallDestructor d (e_v e)], None)
       | None => (fk, e_v e)
       end.

Definition _switch_hashtable_remove (h : switch_hashtable) (k : K) (hashvalue index : Z)
  : res (switch_hashtable * option V * list mem_effect) :=
  chain <-! or_ub (h_table h !! Z.to_nat index);;
  match unlink (entry_matches h k hashvalue) chain with
  | Some (e, chain') =>
    let '(eff, v) := release_entry e in
    Ret (h <| h_table ::= fun t => <[Z.to_nat index := chain']> t |>
           <| h_entrycount ::= fun c => u32 (c - 1) |>, v, eff)
  | None => Ret (h, None, [])
  end.

Definition switch_hashtable_insert_destructor (env : heap_env) (h : switch_hashtable)
    (k : K) (v : option V) (flags : Z) (destructor : option Z)
  : res (switch_hashtable * Z * list mem_effect) :=
  let hashvalue := hash h k in
  let index := indexFor (h_tablelength h) hashvalue in
  '(h, eff) <-!
    (if test_flag flags HASHTABLE_DUP_CHECK then
       '(h, _, eff) <-! _switch_hashtable_remove h k hashvalue index;; Ret (h, eff)
     else Ret (h, []));;
  let h := h <| h_entrycount ::= fun c => u32 (c + 1) |> in
  '(h, index) <-!
    (if h_loadlimit h <? h_entrycount h then
       '(h, _) <-! hashtable_expand env h;; Ret (h, indexFor (h_tablelength h) hashvalue)
     else Ret (h, index));;
  if negb (malloc_entry env) then
    Ret (h <| h_entrycount ::= fun c => u32 (c - 1) |>, 0, eff)
  else
    let e := mk_entry k hashvalue v flags destructor in
    if bool_decide (Z.to_nat index < length (h_table h))%nat then
      Ret (h <| h_table ::= fun t => push_entry t index e |>, -1, eff)
    else Ub.

Definition switch_hashtable_search (h : switch_hashtable) (k : K) : res (option V) :=
  let hashvalue := hash h k in
  let index := indexFor (h_tablelength h) hashvalue in
  chain <-! or_ub (h_table h !! Z.to_nat index);;
  match List.find (entry_matches h k hashvalue) chain with
  | Some e => Ret (e_v e)
  | None => Ret None
  end.

Definition switch_hashtable_remove (h : switch_hashtable) (k : K)
  : res (switch_hashtable * option V * list mem_effect) :=
  let hashvalue := hash h k in
  _switch_hashtable_remove h k hashvalue (indexFor (h_tablelength h) hashvalue).

(** Frees every entry, chain by chain; the handle becomes NULL. *)
Definition switch_hashtable_destroy (h : switch_hashtable)
  : option switch_hashtable * list mem_effect :=
  (None, flat_map (fun chain => flat_map (fun e => (release_entry e).1) chain) (h_table h)).

(** *** Iterators

    [i->e] is the entry at depth [d] of the chain of bucket [i->pos]. *)
Record switch_hashtable_iterator := mk_iter { it_pos : Z; it_e : option nat }.

Definition entry_at (h : switch_hashtable) (pos : Z) (d : nat) : option entry :=
  chain ← h_table h !! Z.to_nat pos; chain !! d.

(** [while(i->pos < tablelength && !table[i->pos]) i->pos++;] over the
    buckets from [pos] on. *)
Fixpoint skip_empty (buckets : list (list entry)) (pos : Z) : Z :=
  match buckets with
  | [] :: rest => skip_empty rest (pos + 1)
  | _ => pos
  end.

(** From the loop to the end of [switch_hashtable_next]. *)
Definition next_bucket (h : switch_hashtable) (pos : Z) : option switch_hashtable_iterator :=
  let pos := skip_empty (drop (Z.to_nat pos) (h_table h)) pos in
  if h_tablelength h <=? pos then None
  else match entry_at h pos 0 with
       | Some _ => Some (mk_iter pos (Some 0%nat))
       | None => None
       end.

Definition switch_hashtable_next (h : switch_hashtable) (i : switch_hashtable_iterator)
  : option switch_hashtable_iterator :=
  match it_e i with
  | Some d =>
    match entry_at h (it_pos i) (S d) with
    | Some _ => Some (mk_iter (it_pos i) (Some (S d)))
    | None => next_bucket h (it_pos i + 1)
    end
  | None => next_bucket h (it_pos i)
  end.

Definition switch_hashtable_first_iter (h : switch_hashtable) : option switch_hashtable_iterator :=
  switch_hashtable_next h (mk_iter 0 None).

(** Key and value under the iterator. *)
Definition switch_hashtable_this (h : switch_hashtable) (i : switch_hashtable_iterator)
  : option K * option V :=
  match d ← it_e i; entry_at h (it_pos i) d with
  | Some e => (Some (e_k e), e_v e)
  | None => (None, None)
  end.

Definition switch_hashtable_this_val (h : switch_hashtable) (i : switch_hashtable_iterator)
    (val : option V) : switch_hashtable :=
  match it_e i with
  | Some d =>
    h <| h_table ::= fun t =>
      alter (fun chain => alter (fun e => e <| e_v := val |>) d chain)
            (Z.to_nat (it_pos i)) t |>
  | None => h
  end.

(** [for (hi = first(h); hi; hi = next(&hi)) { this(hi, ...); ... }]: the
    entries a loop over the table sees, with a bound on the iterations. *)
Fixpoint iterate (fuel : nat) (h : switch_hashtable) (hi : option switch_hashtable_iterator)
  : option (list (option K * option V)) :=
  match hi with
  | None => Some []
  | Some i =>
    match fuel with
    | O => None
    | S fuel =>
      l ← iterate fuel h (switch_hashtable_next h i);
      Some (switch_hashtable_this h i :: l)
    end
  end.
End HashTable.

Arguments entry K V : clear implicits.
Arguments switch_hashtable K V : clear implicits.
Arguments mem_effect K V : clear implicits.
#[global] Arguments switch_create_hashtable : simpl never.

(** ** Well-formedness *)

(** What the code asks of the two functions of a table: equality of keys is an
    equivalence, and equal keys hash alike. *)
Class KeyLaws {K} (hashfn : K -> Z) (eqfn : K -> K -> bool) : Prop := {
  key_refl k : eqfn k k = true;
  key_sym k1 k2 : eqfn k1 k2 = true -> eqfn k2 k1 = true;
  key_trans k1 k2 k3 : eqfn k1 k2 = true -> eqfn k2 k3 = true -> eqfn k1 k3 = true;
  key_hash k1 k2 : eqfn k1 k2 = true -> hashfn k1 = hashfn k2
}.

Section Theory.
Context {K V : Type}.
Implicit Types (h : switch_hashtable K V) (e : entry K V) (t : list (list (entry K V))).

Definition entries h : list (entry K V) := concat (h_table h).

(** Every entry sits in the bucket of its key's hash. *)
Definition placed (hf : K -> Z) (len : Z) t : Prop :=
  forall i chain e, t !! i = Some chain -> e ∈ chain ->
    e_h e = hf (e_k e) /\ indexFor len (e_h e) = Z.of_nat i.

Record table_wf h : Prop := {
  tw_len : zlen (h_table h) = h_tablelength h;
  tw_pos : 0 < h_tablelength h;
  tw_prime : 0 <= h_primeindex h /\ primes !! Z.to_nat (h_primeindex h) = Some (h_tablelength h);
  tw_placed : placed (hash h) (h_tablelength h) (h_table h);
  tw_laws : KeyLaws (h_hashfn h) (h_eqfn h)
}.

(** The entries whose key equals [k]. *)
Definition matching (eqf : K -> K -> bool) (k : K) (l : list (entry K V)) :=
  List.filter (fun e => eqf k (e_k e)) l.

(** At most one entry per key. *)
Definition uniq (eqf : K -> K -> bool) (l : list (entry K V)) : Prop :=
  forall k, (length (matching eqf k l) <= 1)%nat.

(** The map a table denotes. *)
Definition table_get h (k : K) : option V :=
  match head (matching (h_eqfn h) k (entries h)) with
  | Some e => e_v e
  | None => None
  end.

(** *** Lists and permutations *)

Lemma filter_Permutation_bool {A} (p : A -> bool) l l' :
  l ≡ₚ l' -> List.filter p l ≡ₚ List.filter p l'.
Proof.
  induction 1 as [| x l l' _ IH | x y l | l1 l2 l3 _ IH1 _ IH2]; simpl; [done|..].
  - destruct (p x); [by apply perm_skip | done].
  - destruct (p x), (p y); try done. apply perm_swap.
  - by etrans.
Qed.

#[export] Instance matching_Proper eqf k :
  Proper ((≡ₚ) ==> (≡ₚ)) (matching eqf k).
Proof. intros l l'. apply filter_Permutation_bool. Qed.

Lemma uniq_perm eqf l l' : l ≡ₚ l' -> uniq eqf l -> uniq eqf l'.
Proof. intros Hp Hu k. rewrite <- Hp. apply Hu. Qed.

(** With unique keys the order of the entries does not matter. *)
Lemma matching_perm_eq eqf k l l' : l ≡ₚ l' -> uniq eqf l ->
  matching eqf k l = matching eqf k l'.
Proof.
  intros Hp Hu. specialize (Hu k). assert (Hm : matching eqf k l ≡ₚ matching eqf k l') by (by rewrite Hp).
  destruct (matching eqf k l) as [|a [|b m]]; simpl in *; [| |lia].
  - by apply Permutation_nil in Hm.
  - by apply Permutation_singleton_l in Hm.
Qed.

Lemma concat_insert_perm {A} (t : list (list A)) i c x c' :
  t !! i = Some c -> c ≡ₚ x ++ c' -> concat t ≡ₚ x ++ concat (<[i := c']> t).
Proof.
  intros Ht Hc. rewrite <- (take_drop_middle t i c Ht) at 1.
  rewrite insert_take_drop by (by eapply lookup_lt_Some).
  rewrite !concat_app; simpl. rewrite Hc. solve_Permutation.
Qed.

Lemma concat_push_perm t i e : 0 <= i < zlen t ->
  concat (push_entry t i e) ≡ₚ e :: concat t.
Proof.
  intros Hi. unfold push_entry. unfold zlen in Hi.
  destruct (lookup_lt_is_Some_2 t (Z.to_nat i)) as [c Hc]; [lia|].
  rewrite (alter_as_insert _ _ _ _ Hc).
  rewrite (concat_insert_perm (<[Z.to_nat i := e :: c]> t) (Z.to_nat i) (e :: c) [e] c).
  - by rewrite list_insert_insert_eq, list_insert_id.
  - apply list_lookup_insert_eq. lia.
  - done.
Qed.

Lemma push_entry_zlen t i e : zlen (push_entry t i e) = zlen t.
Proof. unfold push_entry, zlen. by rewrite length_alter. Qed.

Lemma push_entry_placed hf len t e :
  placed hf len t -> e_h e = hf (e_k e) -> 0 < len ->
  placed hf len (push_entry t (indexFor len (e_h e)) e).
Proof.
  intros Hp He Hl i chain e' Hlk Hin. unfold push_entry in Hlk.
  assert (0 <= indexFor len (e_h e)) by (apply Z.mod_pos_bound; lia).
  rewrite list_lookup_alter in Hlk. case_decide as Hd.
  - subst i. destruct (t !! _) as [c|] eqn:Et in Hlk; [|done]. simplify_eq/=.
    apply elem_of_cons in Hin as [->|Hin]; [split; [done|lia]|by eapply Hp].
  - by eapply Hp.
Qed.

(** *** Moving entries to a larger table *)

Definition all_hashed (hf : K -> Z) (l : list (entry K V)) : Prop :=
  Forall (fun e => e_h e = hf (e_k e)) l.

Lemma move_chain_spec hf n chain t :
  0 < n -> zlen t = n -> placed hf n t -> all_hashed hf chain ->
  placed hf n (move_chain n chain t) /\ zlen (move_chain n chain t) = n /\
  concat (move_chain n chain t) ≡ₚ chain ++ concat t.
Proof.
  intros Hn. revert t. induction chain as [|e chain IH]; intros t Hl Hp Ha; simpl; [done|].
  inversion Ha as [|? ? He Ha']; subst.
  assert (0 <= indexFor (zlen t) (e_h e) < zlen t) by (apply Z.mod_pos_bound; lia).
  destruct (IH (push_entry t (indexFor (zlen t) (e_h e)) e)) as (H1 & H2 & H3).
  - apply push_entry_zlen.
  - by apply push_entry_placed.
  - done.
  - split; [done|]. split; [done|]. rewrite H3, concat_push_perm by done. solve_Permutation.
Qed.

Lemma move_table_spec hf n t0 t :
  0 < n -> zlen t = n -> placed hf n t -> all_hashed hf (concat t0) ->
  placed hf n (move_table n t0 t) /\ zlen (move_table n t0 t) = n /\
  concat (move_table n t0 t) ≡ₚ concat t0 ++ concat t.
Proof.
  intros Hn. revert t. induction t0 as [|c t0 IH]; intros t Hl Hp Ha; simpl in *; [done|].
  apply Forall_app in Ha as [Hc Ha].
  destruct (move_chain_spec hf n c t) as (H1 & H2 & H3); [done..|].
  destruct (IH (move_chain n c t)) as (H4 & H5 & H6); [done..|].
  split; [done|]. split; [done|]. rewrite H6, H3. solve_Permutation.
Qed.

Lemma concat_replicate_nil {A} n : concat (replicate n (@nil A)) = [].
Proof. induction n; simpl; auto. Qed.

Lemma empty_placed hf len n : placed hf len (replicate n []).
Proof.
  intros i chain e Hl Hin. apply lookup_replicate in Hl as [-> _].
  by apply not_elem_of_nil in Hin.
Qed.

Lemma placed_hashed hf len t : placed hf len t -> all_hashed hf (concat t).
Proof.
  intros Hp. apply List.Forall_forall. intros e (c & Hc & He)%in_concat.
  apply list_elem_of_In, list_elem_of_lookup in Hc as [i Hi].
  eapply Hp; [exact Hi|by apply list_elem_of_In].
Qed.
End Theory.

Section Correctness.
Context {K V : Type}.
Implicit Types (h : switch_hashtable K V) (e : entry K V) (t : list (list (entry K V))).

(** Two tables that differ neither in their functions nor in what the
    placement of an entry depends on. *)
Definition same_keys h h' : Prop := h_hashfn h' = h_hashfn h /\ h_eqfn h' = h_eqfn h.

Lemma same_keys_hash h h' k : same_keys h h' -> hash h' k = hash h k.
Proof. unfold hash. by intros [-> _]. Qed.

(** *** Reaching the bucket of a key *)

Lemma bucket_of h k : table_wf h ->
  exists chain, h_table h !! Z.to_nat (indexFor (h_tablelength h) (hash h k)) = Some chain.
Proof.
  intros Hw. pose proof (tw_pos _ Hw). pose proof (tw_len _ Hw).
  assert (0 <= indexFor (h_tablelength h) (hash h k) < h_tablelength h)
    by (apply Z.mod_pos_bound; lia).
  unfold zlen in *. apply lookup_lt_is_Some_2. lia.
Qed.

Lemma matching_elsewhere h k i chain : table_wf h -> h_table h !! i = Some chain ->
  Z.of_nat i <> indexFor (h_tablelength h) (hash h k) -> matching (h_eqfn h) k chain = [].
Proof.
  intros Hw Hi Hne. unfold matching. destruct (List.filter _ chain) as [|e l] eqn:E; [done|].
  exfalso. assert (He : In e (e :: l)) by (by left). rewrite <- E in He.
  apply filter_In in He as [Hin Heq]. apply list_elem_of_In in Hin.
  destruct (tw_placed _ Hw _ _ _ Hi Hin) as [Hh Hidx].
  apply Hne. rewrite <- Hidx, Hh. unfold hash. by rewrite (key_hash _ _ (KeyLaws:=tw_laws _ Hw) Heq).
Qed.

Lemma matching_app eqf k (l1 l2 : list (entry K V)) :
  matching eqf k (l1 ++ l2) = matching eqf k l1 ++ matching eqf k l2.
Proof. apply List.filter_app. Qed.

Lemma matching_cons eqf k e (l : list (entry K V)) :
  matching eqf k (e :: l) = if eqf k (e_k e) then e :: matching eqf k l else matching eqf k l.
Proof. done. Qed.

Lemma matching_concat_nil eqf k t :
  Forall (fun c => matching eqf k c = []) t -> matching eqf k (concat t) = [].
Proof. induction 1 as [|c t Hc _ IH]; [done|]. simpl. by rewrite matching_app, Hc, IH. Qed.

Lemma matching_bucket h k chain : table_wf h ->
  h_table h !! Z.to_nat (indexFor (h_tablelength h) (hash h k)) = Some chain ->
  matching (h_eqfn h) k (entries h) = matching (h_eqfn h) k chain.
Proof.
  intros Hw Hi. unfold entries. set (i := Z.to_nat _) in *.
  assert (Hz : 0 <= indexFor (h_tablelength h) (hash h k))
    by (apply Z.mod_pos_bound; apply (tw_pos _ Hw)).
  rewrite <- (take_drop_middle _ _ _ Hi), concat_app. simpl. rewrite !matching_app.
  rewrite !matching_concat_nil, app_nil_r; [done|..]; apply Forall_lookup_2; intros j c Hj.
  - rewrite lookup_drop in Hj. eapply matching_elsewhere; [done|exact Hj|lia].
  - apply lookup_take_Some in Hj as [Hj ?]. eapply matching_elsewhere; [done|exact Hj|lia].
Qed.

Lemma entry_matches_eq h k i chain e : table_wf h -> h_table h !! i = Some chain ->
  e ∈ chain -> entry_matches h k (hash h k) e = h_eqfn h k (e_k e).
Proof.
  intros Hw Hi Hin. unfold entry_matches. destruct (h_eqfn h k (e_k e)) eqn:E.
  - destruct (tw_placed _ Hw _ _ _ Hi Hin) as [-> _]. unfold hash.
    rewrite (key_hash _ _ (KeyLaws:=tw_laws _ Hw) E). by rewrite Z.eqb_refl.
  - apply andb_false_r.
Qed.

Lemma find_head_filter {A} (p : A -> bool) l : List.find p l = head (List.filter p l).
Proof. induction l as [|x l IH]; [done|]. simpl. by destruct (p x). Qed.

Lemma filter_ext_in' {A} (p q : A -> bool) l :
  (forall x, x ∈ l -> p x = q x) -> List.filter p l = List.filter q l.
Proof. intros H. apply List.filter_ext_in. intros x Hx. apply H. by apply list_elem_of_In. Qed.

Lemma search_ok h k : table_wf h -> switch_hashtable_search h k = Ret (table_get h k).
Proof.
  intros Hw. unfold switch_hashtable_search, table_get.
  destruct (bucket_of h k Hw) as [chain Hc]. rewrite (matching_bucket h k chain) by done.
  rewrite Hc; simpl. rewrite find_head_filter. unfold matching.
  rewrite (filter_ext_in' _ (fun e => h_eqfn h k (e_k e))).
  - by destruct (head _).
  - intros e He. by eapply entry_matches_eq.
Qed.

(** *** Removal *)

Lemma unlink_Some (p : entry K V -> bool) chain e chain' :
  unlink p chain = Some (e, chain') ->
  p e = true /\ chain ≡ₚ e :: chain' /\ head (List.filter p chain) = Some e.
Proof.
  revert chain'. induction chain as [|a chain IH]; intros chain' H; [done|]. simpl in *.
  destruct (p a) eqn:E.
  - injection H as <- <-. done.
  - destruct (unlink p chain) as [[e0 c0]|] eqn:Eu; [|done]. simplify_eq.
    destruct (IH _ eq_refl) as (? & Hp & ?). split; [done|]. split; [|done].
    rewrite Hp. apply perm_swap.
Qed.

Lemma unlink_None (p : entry K V -> bool) chain :
  unlink p chain = None -> List.filter p chain = [].
Proof.
  induction chain as [|a chain IH]; [done|]. simpl. destruct (p a); [done|].
  destruct (unlink p chain) as [[??]|]; [done|]. auto.
Qed.

Lemma unlink_ext p q (chain : list (entry K V)) :
  (forall e, e ∈ chain -> p e = q e) -> unlink p chain = unlink q chain.
Proof.
  induction chain as [|a chain IH]; [done|]. intros H. simpl.
  rewrite (H a) by (by left). destruct (q a); [done|].
  by rewrite IH by (intros e He; apply H; by right).
Qed.

Lemma unlink_subset (p : entry K V -> bool) chain e chain' x :
  unlink p chain = Some (e, chain') -> x ∈ chain' -> x ∈ chain.
Proof. intros (_ & Hp & _)%unlink_Some Hx. rewrite Hp. by right. Qed.

Lemma table_get_perm h h' : same_keys h h' -> entries h ≡ₚ entries h' ->
  uniq (h_eqfn h) (entries h) -> forall k, table_get h' k = table_get h k.
Proof.
  intros [_ Heq] Hp Hu k. unfold table_get. by rewrite Heq, (matching_perm_eq _ _ _ _ Hp Hu).
Qed.

(** What [_switch_hashtable_remove] does to the entries of a table. *)
Definition removes h k h' v eff : Prop :=
  same_keys h h' /\ table_wf h' /\ h_loadlimit h' = h_loadlimit h /\
  h_primeindex h' = h_primeindex h /\
  ((matching (h_eqfn h) k (entries h) = [] /\ h' = h /\ v = None /\ eff = []) \/
   exists e, head (matching (h_eqfn h) k (entries h)) = Some e /\
     h_eqfn h k (e_k e) = true /\ entries h ≡ₚ e :: entries h' /\
     h_entrycount h' = u32 (h_entrycount h - 1) /\ (eff, v) = release_entry e).

Lemma remove_at_ok h k : table_wf h ->
  exists h' v eff, _switch_hashtable_remove h k (hash h k)
      (indexFor (h_tablelength h) (hash h k)) = Ret (h', v, eff) /\ removes h k h' v eff.
Proof.
  intros Hw. destruct (bucket_of h k Hw) as [chain Hc].
  unfold _switch_hashtable_remove. rewrite Hc; simpl.
  pose proof (matching_bucket h k chain Hw Hc) as Hm.
  rewrite (unlink_ext _ (fun e => h_eqfn h k (e_k e)))
    by (intros e He; by eapply entry_matches_eq).
  destruct (unlink _ chain) as [[e chain']|] eqn:Eu.
  2: { apply unlink_None in Eu. eexists _, _, _. split; [done|].
       repeat (split; [done|]). left. by rewrite Hm. }
  destruct (unlink_Some _ _ _ _ Eu) as (Hpe & Hperm & Hhd).
  destruct (release_entry e) as [eff v] eqn:Er. eexists _, _, _. split; [done|].
  split; [done|]. set (i := Z.to_nat _) in *. split; [|split; [done|split; [done|]]].
  - destruct Hw as [Hl Hp Hpr Hpl Hlaws]. split; try done.
    + simpl. by rewrite <- Hl; unfold zlen; rewrite length_insert.
    + intros j c x Hj Hx. simpl in Hj. rewrite list_lookup_insert in Hj.
      case_decide as Hd; [|by eapply Hpl]. destruct Hd as [-> _]. simplify_eq.
      eapply Hpl; [exact Hc|]. by eapply unlink_subset.
  - right. exists e. rewrite Hm. split; [done|]. split; [done|]. split; [|done].
    by apply (concat_insert_perm (h_table h) i chain [e] chain').
Qed.

Lemma uniq_cons eqf e (l : list (entry K V)) : uniq eqf (e :: l) -> uniq eqf l.
Proof.
  intros Hu k. specialize (Hu k). simpl in Hu. destruct (eqf k (e_k e)); simpl in Hu; lia.
Qed.

Lemma removes_uniq h k h' v eff : uniq (h_eqfn h) (entries h) ->
  removes h k h' v eff -> uniq (h_eqfn h') (entries h').
Proof.
  intros Hu ([_ ->] & _ & _ & _ & [(_ & -> & _)|(e & _ & _ & Hp & _)]); [done|].
  apply (uniq_cons _ e). by eapply uniq_perm.
Qed.

(** After a removal the key is gone and every other key is untouched. *)
Lemma removes_matching h k h' v eff k' : table_wf h -> uniq (h_eqfn h) (entries h) ->
  removes h k h' v eff ->
  matching (h_eqfn h) k' (entries h') =
    if h_eqfn h k k' then [] else matching (h_eqfn h) k' (entries h).
Proof.
  intros Hw Hu Hr. pose proof (tw_laws _ Hw) as Hlaws.
  destruct Hr as ([_ Heq] & Hw' & _ & _ & [(Hn & -> & _)|(e & _ & He & Hp & _)]).
  - destruct (h_eqfn h k k') eqn:E; [|done].
    rewrite <- Hn. unfold matching. apply List.filter_ext. intros a.
    apply eq_true_iff_eq. split; intros Ha.
    + by eapply key_trans.
    + eapply key_trans; [by apply key_sym|done].
  - rewrite (matching_perm_eq _ k' _ _ Hp Hu). specialize (Hu k').
    rewrite Hp, matching_cons in Hu. rewrite matching_cons.
    destruct (h_eqfn h k k') eqn:E.
    + assert (h_eqfn h k' (e_k e) = true) as Ek by (eapply key_trans; [by apply key_sym|done]).
      rewrite Ek in Hu. simpl in Hu. apply length_zero_iff_nil. lia.
    + destruct (h_eqfn h k' (e_k e)) eqn:Ek; [|done].
      exfalso. enough (h_eqfn h k k' = true) by congruence.
      eapply key_trans; [done|]. by apply key_sym.
Qed.
End Correctness.

Section Updates.
Context {K V : Type}.
Implicit Types (h : switch_hashtable K V) (e : entry K V).

(** The allocator answers under which an insertion is defined: not the one
    that sends [hashtable_expand] through its realloc branch. *)
Definition env_defined (env : heap_env) : Prop :=
  malloc_table env = true \/ realloc_table env = false.

Lemma primes_next (i : Z) p : 0 <= i -> primes !! Z.to_nat i = Some p ->
  i <> prime_table_length - 1 -> exists q, primes !! Z.to_nat (i + 1) = Some q /\ 0 < q.
Proof.
  intros Hi Hp Hne. pose proof (lookup_lt_Some _ _ _ Hp) as Hl.
  destruct (lookup_lt_is_Some_2 primes (Z.to_nat (i + 1))) as [q Hq].
  { unfold prime_table_length, zlen in Hne. lia. }
  exists q. split; [done|]. assert (Hall : Forall (fun x => 0 < x) primes)
    by (repeat constructor).
  by eapply Forall_lookup_1 in Hall.
Qed.

Lemma placed_ext hf hf' len (t : list (list (entry K V))) :
  (forall k, hf' k = hf k) -> placed hf len t -> placed hf' len t.
Proof. intros E Hp i c e Hi He. rewrite E. by eapply Hp. Qed.

Lemma expand_ok env h : table_wf h -> env_defined env ->
  exists h' r, hashtable_expand env h = Ret (h', r) /\ same_keys h h' /\ table_wf h' /\
    entries h' ≡ₚ entries h /\ h_entrycount h' = h_entrycount h /\
    (h_loadlimit h = load_limit (h_tablelength h) ->
     h_loadlimit h' = load_limit (h_tablelength h')).
Proof.
  intros Hw He. destruct (Hw) as [Hl Hp [Hpi Hpr] Hpl Hlaws]. unfold hashtable_expand.
  destruct (Z.eqb_spec (h_primeindex h) (prime_table_length - 1)) as [|Hne].
  { exists h, 0. done. }
  destruct (primes_next _ _ Hpi Hpr Hne) as (q & Hq & Hq0). simpl. rewrite Hq; simpl.
  destruct (malloc_table env) eqn:Em.
  - destruct (move_table_spec (hash h) q (h_table h) (replicate (Z.to_nat q) []))
      as (H1 & H2 & H3).
    + done.
    + unfold zlen. rewrite length_replicate. lia.
    + apply empty_placed.
    + by eapply placed_hashed.
    + eexists _, _. split; [done|]. split; [done|]. split; [|split; [|done]].
      * split; simpl; [done|done|by split; [lia|]|done|done].
      * unfold entries; simpl. by rewrite H3, concat_replicate_nil, app_nil_r.
  - destruct He as [?|Her]; [congruence|]. rewrite Her. eexists _, _. split; [done|].
    replace (h_primeindex h + 1 - 1) with (h_primeindex h) by lia. split; [done|].
    split; [|done]. by split.
Qed.

(** Adding an entry at the head of its bucket. *)
Lemma push_ok h e : table_wf h -> e_h e = hash h (e_k e) ->
  let i := indexFor (h_tablelength h) (e_h e) in
  let h' := h <| h_table ::= fun t => push_entry t i e |> in
  (Z.to_nat i < length (h_table h))%nat /\ table_wf h' /\ entries h' ≡ₚ e :: entries h.
Proof.
  intros [Hl Hp Hpr Hpl Hlaws] He i h'.
  assert (Hi : 0 <= i < h_tablelength h) by (apply Z.mod_pos_bound; lia).
  split; [unfold zlen in *; lia|]. split.
  - split; simpl; [by rewrite push_entry_zlen|done|done| |done].
    by apply push_entry_placed.
  - apply concat_push_perm. lia.
Qed.

Definition bump_count h : switch_hashtable K V :=
  h <| h_entrycount ::= fun c => u32 (c + 1) |>.

(** The insertion after its duplicate check, with memory for the entry. *)
Lemma insert_tail_ok env h k v flags d : table_wf h -> env_defined env ->
  malloc_entry env = true ->
  exists h2 h3, (if h_loadlimit h <? u32 (h_entrycount h + 1)
           then '(hx, _) <-! hashtable_expand env (bump_count h);;
                Ret (hx, indexFor (h_tablelength hx) (hash h k))
           else Ret (bump_count h, indexFor (h_tablelength h) (hash h k)))
      = Ret (h2, indexFor (h_tablelength h2) (hash h k)) /\
    h3 = h2 <| h_table ::= fun t => push_entry t (indexFor (h_tablelength h2) (hash h k))
                                      (mk_entry k (hash h k) v flags d) |> /\
    (Z.to_nat (indexFor (h_tablelength h2) (hash h k)) < length (h_table h2))%nat /\
    same_keys h h3 /\ table_wf h3 /\
    entries h3 ≡ₚ mk_entry k (hash h k) v flags d :: entries h /\
    h_entrycount h3 = u32 (h_entrycount h + 1) /\
    (h_loadlimit h = load_limit (h_tablelength h) ->
     h_loadlimit h3 = load_limit (h_tablelength h3)).
Proof.
  intros Hw He Hm. assert (Hw1 : table_wf (bump_count h)) by (destruct Hw; by split).
  assert (Hcase : exists h2, (if h_loadlimit h <? u32 (h_entrycount h + 1)
           then '(hx, _) <-! hashtable_expand env (bump_count h);;
                Ret (hx, indexFor (h_tablelength hx) (hash h k))
           else Ret (bump_count h, indexFor (h_tablelength h) (hash h k)))
      = Ret (h2, indexFor (h_tablelength h2) (hash h k)) /\ same_keys h h2 /\
      table_wf h2 /\ entries h2 ≡ₚ entries h /\ h_entrycount h2 = u32 (h_entrycount h + 1) /\
      (h_loadlimit h = load_limit (h_tablelength h) ->
       h_loadlimit h2 = load_limit (h_tablelength h2))).
  { case_if E; [|by exists (bump_count h)].
    destruct (expand_ok env (bump_count h)) as (h2 & r & -> & Hk & Hw2 & Hp & Hc & Hll);
      [done..|]. by exists h2. }
  destruct Hcase as (h2 & -> & Hk & Hw2 & Hp & Hc & Hll).
  destruct (push_ok h2 (mk_entry k (hash h k) v flags d)) as (Hlt & Hw3 & Hp3); [done|..].
  { simpl. by rewrite (same_keys_hash _ _ k Hk). }
  eexists h2, _. split; [done|]. split; [done|]. simpl in *.
  split; [done|]. split; [done|]. split; [done|]. split; [|done].
  by rewrite Hp3, Hp.
Qed.

(** What a successful insertion with duplicate check does. *)
Definition inserts h k v flags d h' eff : Prop :=
  exists h1 v0, removes h k h1 v0 eff /\ same_keys h h' /\ table_wf h' /\
    entries h' ≡ₚ mk_entry k (hash h k) v flags d :: entries h1 /\
    h_entrycount h' = u32 (h_entrycount h1 + 1) /\
    (h_loadlimit h1 = load_limit (h_tablelength h1) ->
     h_loadlimit h' = load_limit (h_tablelength h')).

Lemma insert_ok env h k v flags d : table_wf h -> env_defined env ->
  malloc_entry env = true -> test_flag flags HASHTABLE_DUP_CHECK = true ->
  exists h' eff, switch_hashtable_insert_destructor env h k v flags d = Ret (h', -1, eff) /\
    inserts h k v flags d h' eff.
Proof.
  intros Hw He Hm Hf. unfold switch_hashtable_insert_destructor. rewrite Hf.
  destruct (remove_at_ok h k Hw) as (h1 & v0 & eff & -> & Hr). cbn [rbind].
  pose proof (Hr) as (Hk & Hw1 & _). pose proof (same_keys_hash _ _ k Hk) as Hh.
  destruct (insert_tail_ok env h1 k v flags d) as
    (h2 & h3 & E & E3 & Hlt & Hk3 & Hw3 & Hp3 & Hc3 & Hl3); [done..|]. rewrite Hh in *.
  exists h3, eff. split.
  - assert (Hst : h_tablelength h1 = h_tablelength h).
    { destruct (tw_prime _ Hw) as [_ Hp1], (tw_prime _ Hw1) as [_ Hp2].
      destruct Hr as (_ & _ & _ & Hpi & _). rewrite Hpi in Hp2. congruence. }
    rewrite <- Hst. unfold bump_count in E. simpl in E |- *. rewrite E. cbn [rbind].
    rewrite Hm. simpl. rewrite bool_decide_eq_true_2 by done. by rewrite E3.
  - exists h1, v0. split; [done|]. split; [|done].
    destruct Hk as [Ha Hb], Hk3 as [Hc Hd]. split; congruence.
Qed.

Lemma inserts_matching h k v flags d h' eff k' : table_wf h -> uniq (h_eqfn h) (entries h) ->
  inserts h k v flags d h' eff ->
  uniq (h_eqfn h') (entries h') /\
  matching (h_eqfn h) k' (entries h') =
    if h_eqfn h k k' then [mk_entry k (hash h k) v flags d]
    else matching (h_eqfn h) k' (entries h).
Proof.
  intros Hw Hu (h1 & v0 & Hr & [_ Heq] & Hw' & Hp & _). pose proof (tw_laws _ Hw) as Hlaws.
  set (e := mk_entry _ _ _ _ _) in *.
  assert (Hm : forall q, matching (h_eqfn h) q (e :: entries h1) =
    if h_eqfn h k q then [e] else matching (h_eqfn h) q (entries h)).
  { intros q. rewrite matching_cons, (removes_matching h k h1 v0 eff q) by done. simpl.
    destruct (h_eqfn h k q) eqn:E; [by rewrite (key_sym _ _ E)|].
    destruct (h_eqfn h q k) eqn:E2; [|done]. rewrite (key_sym _ _ E2) in E. done. }
  assert (Hu1 : uniq (h_eqfn h) (e :: entries h1)).
  { intros q. rewrite Hm. destruct (h_eqfn h k q); [done|apply Hu]. }
  rewrite Heq. split; [by eapply uniq_perm|].
  rewrite <- Hm. symmetry. apply matching_perm_eq; [by symmetry|done].
Qed.
End Updates.

(** ** Iteration *)
Section Iteration.
Context {K V : Type}.
Implicit Types (h : switch_hashtable K V).

(** The entries a valid iterator has still to visit, its own first. *)
Definition rest_of h (i : switch_hashtable_iterator) : list (entry K V) :=
  match it_e i with
  | Some d => drop d (default [] (h_table h !! Z.to_nat (it_pos i))) ++
              concat (drop (S (Z.to_nat (it_pos i))) (h_table h))
  | None => []
  end.

Definition iter_valid h (i : switch_hashtable_iterator) : Prop :=
  0 <= it_pos i /\ exists d e, it_e i = Some d /\ entry_at h (it_pos i) d = Some e.

Definition visited (e : entry K V) : option K * option V := (Some (e_k e), e_v e).

Lemma skip_empty_spec (t : list (list (entry K V))) pos :
  exists n : nat, skip_empty t pos = pos + Z.of_nat n /\ concat t = concat (drop n t) /\
    (n <= length t)%nat /\ (forall c, t !! n = Some c -> c <> []).
Proof.
  revert pos. induction t as [|[|e c] t IH]; intros pos; simpl.
  - exists 0%nat. split; [lia|]. done.
  - destruct (IH (pos + 1)) as (n & -> & Hc & Hl & Hn). exists (S n).
    split; [lia|]. split; [done|]. split; [lia|]. done.
  - exists 0%nat. split; [lia|]. split; [done|]. split; [lia|]. simpl. by intros c' [= <-].
Qed.

Lemma next_bucket_spec h pos : zlen (h_table h) = h_tablelength h -> 0 <= pos ->
  match next_bucket h pos with
  | None => concat (drop (Z.to_nat pos) (h_table h)) = []
  | Some i => iter_valid h i /\ rest_of h i = concat (drop (Z.to_nat pos) (h_table h))
  end.
Proof.
  intros Hl Hp. unfold next_bucket.
  destruct (skip_empty_spec (drop (Z.to_nat pos) (h_table h)) pos) as (n & -> & Hc & Hn & Hne).
  rewrite Hc, drop_drop. rewrite length_drop in Hn. rewrite lookup_drop in Hne.
  destruct (Z.leb_spec (h_tablelength h) (pos + Z.of_nat n)) as [Hge|Hlt].
  - rewrite drop_ge; [done|]. unfold zlen in Hl. lia.
  - assert (E : (Z.to_nat (pos + Z.of_nat n) = Z.to_nat pos + n)%nat) by lia.
    destruct (lookup_lt_is_Some_2 (h_table h) (Z.to_nat pos + n)) as [c Hlk];
      [unfold zlen in Hl; lia|]. specialize (Hne c Hlk).
    destruct c as [|e c]; [done|].
    assert (He : entry_at h (pos + Z.of_nat n) 0 = Some e)
      by (unfold entry_at; by rewrite E, Hlk).
    rewrite He. unfold iter_valid, rest_of; simpl. split; [split; [lia|eauto]|].
    by rewrite E, Hlk, (drop_S _ _ _ Hlk).
Qed.

Lemma next_spec h i : zlen (h_table h) = h_tablelength h -> iter_valid h i ->
  exists e l, rest_of h i = e :: l /\ switch_hashtable_this h i = visited e /\
    match switch_hashtable_next h i with
    | None => l = []
    | Some i' => iter_valid h i' /\ rest_of h i' = l
    end.
Proof.
  intros Hl (Hp & d & e & Hd & He). unfold rest_of, switch_hashtable_this, switch_hashtable_next.
  rewrite Hd. unfold entry_at in *. destruct (h_table h !! Z.to_nat (it_pos i)) as [c|] eqn:Hc;
    [|done]. simpl in *.
  exists e, (drop (S d) c ++ concat (drop (S (Z.to_nat (it_pos i))) (h_table h))).
  rewrite (drop_S _ _ _ He), He. split; [done|]. split; [done|].
  destruct (c !! S d) as [e'|] eqn:He'.
  - split.
    + split; [done|]. exists (S d), e'. unfold entry_at; simpl. by rewrite Hc.
    + unfold rest_of; simpl. by rewrite Hc.
  - apply lookup_ge_None in He'. rewrite drop_ge by done. simpl.
    replace (S (Z.to_nat (it_pos i))) with (Z.to_nat (it_pos i + 1)) by lia.
    pose proof (next_bucket_spec h (it_pos i + 1) Hl ltac:(lia)) as Hb.
    by destruct (next_bucket h (it_pos i + 1)).
Qed.

Lemma iterate_valid h i fuel : zlen (h_table h) = h_tablelength h -> iter_valid h i ->
  (length (rest_of h i) <= fuel)%nat ->
  iterate fuel h (Some i) = Some (map visited (rest_of h i)).
Proof.
  intros Hl. revert i. induction fuel as [|fuel IH]; intros i Hv Hf;
    destruct (next_spec h i Hl Hv) as (e & l & Hr & Ht & Hn); rewrite Hr in *; simpl in *.
  { lia. }
  rewrite Ht. destruct (switch_hashtable_next h i) as [i'|] eqn:En.
  - destruct Hn as [Hv' <-]. rewrite IH by (done || lia). done.
  - subst l. by destruct fuel.
Qed.

(** A loop over the table sees each entry exactly once, bucket by bucket. *)
Lemma iterate_all h : zlen (h_table h) = h_tablelength h ->
  iterate (length (entries h)) h (switch_hashtable_first_iter h) =
    Some (map visited (entries h)).
Proof.
  intros Hl. unfold switch_hashtable_first_iter, switch_hashtable_next; simpl.
  pose proof (next_bucket_spec h 0 Hl ltac:(lia)) as Hb. rewrite drop_0 in Hb.
  unfold entries. destruct (next_bucket h 0) as [i|].
  - destruct Hb as [Hv Hr]. rewrite iterate_valid by (done || by rewrite Hr).
    by rewrite Hr.
  - rewrite Hb. done.
Qed.
End Iteration.

(** ** Refinement: a table used with owned keys is a finite map

    The core wrappers insert with [HASHTABLE_FLAG_FREE_KEY | HASHTABLE_DUP_CHECK]
    and no destructor. *)
Section Refinement.
Context {K V : Type}.
Implicit Types (h : switch_hashtable K V) (e : entry K V) (m : K -> option V).

Definition owned_flags : Z := Z.lor HASHTABLE_FLAG_FREE_KEY HASHTABLE_DUP_CHECK.
Definition plain e : Prop := e_flags e = owned_flags /\ e_destructor e = None.

Record table_inv h : Prop := {
  ti_wf : table_wf h;
  ti_uniq : uniq (h_eqfn h) (entries h);
  ti_plain : Forall plain (entries h);
  ti_count : h_entrycount h = u32 (zlen (entries h));
  ti_limit : h_loadlimit h = load_limit (h_tablelength h)
}.

Inductive table_op := TInsert (k : K) (v : option V) | TRemove (k : K) | TFind (k : K).

Definition exec_table_op (env : heap_env) h (op : table_op)
  : res (switch_hashtable K V * option V * list (mem_effect K V)) :=
  match op with
  | TInsert k v =>
    '(h, r, eff) <-! switch_hashtable_insert_destructor env h k v owned_flags None;;
    Ret (h, None, eff)
  | TRemove k => switch_hashtable_remove h k
  | TFind k => v <-! switch_hashtable_search h k;; Ret (h, v, [])
  end.

(** The specification: a map over the keys up to [eqf]. *)
Definition map_put (eqf : K -> K -> bool) m (k : K) (v : option V) : K -> option V :=
  fun k' => if eqf k k' then v else m k'.

Definition spec_op (eqf : K -> K -> bool) m (op : table_op) : (K -> option V) * option V :=
  match op with
  | TInsert k v => (map_put eqf m k v, None)
  | TRemove k => (map_put eqf m k None, m k)
  | TFind k => (m, m k)
  end.

Definition denotes h m : Prop := forall k, table_get h k = m k.

(** Keys handed over by an operation, keys it frees, keys a table owns. *)
Definition op_keys (op : table_op) : list K :=
  match op with TInsert k _ => [k] | _ => [] end.
Definition freed_keys (eff : list (mem_effect K V)) : list K :=
  flat_map (fun x => match x with FreeKey k => [k] | _ => [] end) eff.
Definition table_keys h : list K := map e_k (entries h).

Lemma release_plain e : plain e -> release_entry e = ([FreeKey (e_k e)], e_v e).
Proof. intros [Hf Hd]. unfold release_entry. by rewrite Hf, Hd. Qed.

Lemma u32_pred n : u32 (u32 (1 + n) - 1) = u32 n.
Proof.
  unfold u32. rewrite Zminus_mod_idemp_l. f_equal. lia.
Qed.
Lemma u32_succ n : u32 (u32 n + 1) = u32 (1 + n).
Proof. unfold u32. rewrite Zplus_mod_idemp_l. f_equal. lia. Qed.

Lemma zlen_perm {A} (l l' : list A) : l ≡ₚ l' -> zlen l = zlen l'.
Proof. intros H. unfold zlen. by rewrite H. Qed.

Lemma table_get_matching h h' k k' (l : list (entry K V)) :
  same_keys h h' -> matching (h_eqfn h) k' (entries h') = (if h_eqfn h k k' then l
    else matching (h_eqfn h) k' (entries h)) ->
  table_get h' k' = if h_eqfn h k k' then match head l with Some e => e_v e | None => None end
                    else table_get h k'.
Proof.
  intros [_ Heq] Hm. unfold table_get. rewrite Heq, Hm. by destruct (h_eqfn h k k').
Qed.

Lemma removes_spec h k h' v eff m : table_inv h -> denotes h m -> removes h k h' v eff ->
  table_inv h' /\ denotes h' (map_put (h_eqfn h) m k None) /\ v = m k /\
  freed_keys eff ++ table_keys h' ≡ₚ table_keys h.
Proof.
  intros [Hw Hu Hpl Hc Hll] Hd Hr. pose proof Hr as (Hk & Hw' & Hl' & Hpi & Hcase).
  pose proof (removes_uniq _ _ _ _ _ Hu Hr) as Hu'.
  assert (Hden : denotes h' (map_put (h_eqfn h) m k None)).
  { intros k'. rewrite (table_get_matching h h' k k' []) by
      (done || by eapply removes_matching). unfold map_put. by rewrite Hd. }
  assert (Hlen : h_loadlimit h' = load_limit (h_tablelength h')).
  { destruct (tw_prime _ Hw) as [_ Hp1], (tw_prime _ Hw') as [_ Hp2].
    rewrite Hpi in Hp2. congruence. }
  destruct Hcase as [(Hn & -> & -> & ->)|(e & Hhd & He & Hp & Hcnt & Hrel)].
  { split; [done|]. split; [done|]. split; [|done]. rewrite <- Hd. unfold table_get.
    by rewrite Hn. }
  assert (Hpe : plain e /\ Forall plain (entries h')).
  { rewrite Hp in Hpl. by apply Forall_cons. }
  destruct Hpe as [Hpe Hpl']. rewrite release_plain in Hrel by done. simplify_eq.
  split; [|split; [done|split]].
  - split; [done..| |done]. by rewrite Hcnt, Hc, (zlen_perm _ _ Hp), zlen_cons, u32_pred.
  - rewrite <- Hd. unfold table_get. by rewrite Hhd.
  - simpl. unfold table_keys. by rewrite Hp.
Qed.

Lemma inserts_spec h k v h' eff m : table_inv h -> denotes h m ->
  inserts h k v owned_flags None h' eff ->
  table_inv h' /\ denotes h' (map_put (h_eqfn h) m k v) /\
  freed_keys eff ++ table_keys h' ≡ₚ k :: table_keys h.
Proof.
  intros Hi Hd Hins. pose proof Hins as (h1 & v0 & Hr & Hk & Hw' & Hp & Hc & Hll).
  destruct (removes_spec h k h1 v0 eff m) as (Hi1 & _ & _ & Hkeys); [done..|].
  destruct (inserts_matching h k v owned_flags None h' eff k) as [Hu' _];
    [apply Hi|apply Hi|done|].
  split; [|split].
  - split; [done|done| | |].
    + rewrite Hp. constructor; [done|apply Hi1].
    + by rewrite Hc, (ti_count _ Hi1), (zlen_perm _ _ Hp), zlen_cons, u32_succ.
    + apply Hll, Hi1.
  - intros k'. destruct (inserts_matching h k v owned_flags None h' eff k') as [_ Hm];
      [apply Hi|apply Hi|done|].
    rewrite (table_get_matching h h' k k' _ Hk Hm). unfold map_put. by rewrite Hd.
  - unfold table_keys in *. rewrite Hp. simpl. rewrite <- Hkeys. solve_Permutation.
Qed.

Lemma exec_table_op_ok env h op m : table_inv h -> denotes h m -> env_defined env ->
  malloc_entry env = true ->
  exists h' eff, exec_table_op env h op = Ret (h', (spec_op (h_eqfn h) m op).2, eff) /\
    table_inv h' /\ h_eqfn h' = h_eqfn h /\
    denotes h' (spec_op (h_eqfn h) m op).1 /\
    freed_keys eff ++ table_keys h' ≡ₚ op_keys op ++ table_keys h.
Proof.
  intros Hi Hd He Hm. pose proof (ti_wf _ Hi) as Hw. destruct op as [k v|k|k]; simpl.
  - destruct (insert_ok env h k v owned_flags None) as (h' & eff & -> & Hins); [done..|].
    destruct (inserts_spec h k v h' eff m) as (? & ? & ?); [done..|]. simpl.
    destruct Hins as (? & ? & _ & [_ ?] & _). exists h', eff. done.
  - unfold switch_hashtable_remove.
    destruct (remove_at_ok h k Hw) as (h' & v & eff & -> & Hr).
    destruct (removes_spec h k h' v eff m) as (? & ? & -> & ?); [done..|].
    destruct Hr as ([_ ?] & _). by exists h', eff.
  - rewrite search_ok by done. exists h, []. simpl. rewrite Hd. done.
Qed.

Fixpoint exec_table_ops h (ops : list (heap_env * table_op))
  : res (switch_hashtable K V * list (option V) * list (mem_effect K V)) :=
  match ops with
  | [] => Ret (h, [], [])
  | (env, op) :: ops =>
    '(h, o, eff) <-! exec_table_op env h op;;
    '(h, os, effs) <-! exec_table_ops h ops;;
    Ret (h, o :: os, eff ++ effs)
  end.

Fixpoint spec_ops (eqf : K -> K -> bool) m (ops : list table_op)
  : (K -> option V) * list (option V) :=
  match ops with
  | [] => (m, [])
  | op :: ops =>
    let '(m, o) := spec_op eqf m op in
    let '(m, os) := spec_ops eqf m ops in (m, o :: os)
  end.

Definition env_ok (env : heap_env) : Prop := env_defined env /\ malloc_entry env = true.

Lemma exec_table_ops_ok h ops m : table_inv h -> denotes h m ->
  Forall (fun p => env_ok p.1) ops ->
  exists h' eff, exec_table_ops h ops = Ret (h', (spec_ops (h_eqfn h) m (map snd ops)).2, eff) /\
    table_inv h' /\ denotes h' (spec_ops (h_eqfn h) m (map snd ops)).1 /\
    freed_keys eff ++ table_keys h' ≡ₚ flat_map op_keys (map snd ops) ++ table_keys h.
Proof.
  intros Hi Hd Hall. revert h m Hi Hd. induction Hall as [|[env op] ops [He Hm] _ IH]; intros h m Hi Hd.
  { by exists h, []. }
  destruct (exec_table_op_ok env h op m) as (h1 & eff & E & Hi1 & Heq & Hd1 & Hk1); [done..|].
  destruct (IH h1 _ Hi1 Hd1) as (h2 & effs & E2 & Hi2 & Hd2 & Hk2). simpl. rewrite E. simpl.
  rewrite Heq in *. rewrite E2. simpl. destruct (spec_op (h_eqfn h) m op) as [m1 o]; simpl in *.
  destruct (spec_ops (h_eqfn h) m1 (map snd ops)) as [m2 os]; simpl in *.
  exists h2, (eff ++ effs). split; [done|]. split; [done|]. split; [done|].
  unfold freed_keys in *. rewrite flat_map_app, <- !app_assoc, Hk2.
  rewrite (Permutation_app_swap_app _ (flat_map op_keys (map snd ops))).
  rewrite Hk1. apply Permutation_app_swap_app.
Qed.

Lemma pick_prime_spec (l : list Z) minsize pi d : Exists (fun p => minsize < p) l ->
  exists (j : nat) p, pick_prime l minsize pi d = (pi + Z.of_nat j, p) /\
    l !! j = Some p /\ minsize < p.
Proof.
  intros Hex. revert pi. induction l as [|p l IH]; intros pi; [by apply Exists_nil in Hex|].
  simpl. destruct (Z.ltb_spec minsize p) as [Hlt|Hge].
  - exists 0%nat, p. split; [f_equal; lia|done].
  - apply Exists_cons in Hex as [?|Hex]; [lia|].
    destruct (IH Hex (pi + 1)) as (j & q & -> & Hl & Hq). exists (S j), q.
    split; [f_equal; lia|done].
Qed.

(** A new table is well formed and denotes the empty map. *)
Lemma create_ok minsize hashf eqf : KeyLaws hashf eqf -> 0 <= minsize <= 2 ^ 30 ->
  exists h, switch_create_hashtable true true minsize hashf eqf
      = Ret (Some h, SWITCH_STATUS_SUCCESS) /\
    table_inv h /\ denotes h (fun _ => None) /\ h_eqfn h = eqf /\ h_hashfn h = hashf /\
    entries h = [] /\ minsize < h_tablelength h.
Proof.
  intros Hlaws Hmin. unfold switch_create_hashtable.
  rewrite (proj2 (Z.ltb_ge _ _)) by (rewrite Z.shiftl_1_l; lia).
  destruct (pick_prime_spec primes minsize 0 (default 0 (head primes))) as (j & p & -> & Hj & Hp).
  { do 25 right. left. lia. }
  eexists. split; [done|]. assert (He : concat (replicate (Z.to_nat p) (@nil (entry K V))) = [])
    by apply concat_replicate_nil.
  split; [|split; [|repeat (split; [done|]); done]].
  - split; unfold entries, uniq; simpl; rewrite ?He; try done.
    2: { intros k. simpl. lia. }
    split; simpl; try done.
    + unfold zlen. rewrite length_replicate. lia.
    + lia.
    + split; [lia|]. by rewrite Z.add_0_l, Nat2Z.id.
    + apply empty_placed.
  - intros k. unfold table_get, entries; simpl. by rewrite He.
Qed.
End Refinement.
