(* ===== verification/CoreHash.v ===== *)
(** * CoreHash: the string and integer tables of src/switch_core_hash.c

    The key functions are the inline ones of include/switch_hashtable.h.  A
    string is the list of its bytes; like the C code, the functions stop at the
    first zero byte.  The file ends with [IntHash], the interface the jitter
    buffer is verified against, and its implementation by the hash table. *)
From S2P Require Import Prelude HashTable.
From stdpp Require Import base list numbers option.
From Stdlib Require Import ZArith Lia Permutation.
From Stdlib Require Import Init.Byte.

Local Open Scope Z_scope.

(** ** Key functions *)

Definition byte_Z (b : Byte.byte) : Z := Z.of_N (Byte.to_N b).

Lemma byte_Z_range b : 0 <= byte_Z b < 256.
Proof. destruct b; unfold byte_Z; simpl; lia. Qed.

(** The four-lane lower-casing of include/switch_utils.h. *)
Definition switch_tolower (eax : Z) : Z :=
  let ebx := u32 (Z.land 0x7f7f7f7f eax + 0x25252525) in
  let ebx := u32 (Z.land 0x7f7f7f7f ebx + 0x1a1a1a1a) in
  let ebx := Z.land (Z.shiftr (Z.land ebx (u32 (Z.lnot eax))) 2) 0x20202020 in
  u32 (eax + ebx).

Definition switch_toupper (eax : Z) : Z :=
  let ebx := u32 (Z.land 0x7f7f7f7f eax + 0x05050505) in
  let ebx := u32 (Z.land 0x7f7f7f7f ebx + 0x1a1a1a1a) in
  let ebx := Z.land (Z.shiftr (Z.land ebx (u32 (Z.lnot eax))) 2) 0x20202020 in
  u32 (eax - ebx).

(** The C locale's [tolower] and [toupper], used by [strcasecmp]. *)
Definition ascii_lower (c : Z) : Z := if (65 <=? c) && (c <=? 90) then c + 32 else c.
Definition ascii_upper (c : Z) : Z := if (97 <=? c) && (c <=? 122) then c - 32 else c.

Abbreviation cstring := (list Byte.byte).

(** The bytes before the terminating zero. *)
Fixpoint cstr (s : cstring) : cstring :=
  match s with
  | [] => []
  | c :: s => if byte_Z c =? 0 then [] else c :: cstr s
  end.

(** [strcmp(s1, s2) ? 0 : 1] and [strcasecmp(s1, s2) ? 0 : 1]. *)
Definition switch_hash_equalkeys (k1 k2 : cstring) : bool :=
  bool_decide (map byte_Z (cstr k1) = map byte_Z (cstr k2)).
Definition switch_hash_equalkeys_ci (k1 k2 : cstring) : bool :=
  bool_decide (map (fun c => ascii_lower (byte_Z c)) (cstr k1) =
               map (fun c => ascii_lower (byte_Z c)) (cstr k2)).

(** [hash = c + (hash << 6) + (hash << 16) - hash] *)
Definition sdbm_step (hash c : Z) : Z :=
  u32 (c + u32 (Z.shiftl hash 6) + u32 (Z.shiftl hash 16) - hash).

Fixpoint sdbm_loop (lower : Z -> Z) (s : cstring) (hash : Z) : Z :=
  match s with
  | [] => hash
  | c :: s =>
    let c := lower (byte_Z c) in
    if c =? 0 then hash else sdbm_loop lower s (sdbm_step hash c)
  end.

Definition switch_hash_default (ky : cstring) : Z := sdbm_loop (fun c => c) ky 0.
Definition switch_hash_default_ci (ky : cstring) : Z := sdbm_loop switch_tolower ky 0.

Definition switch_hash_default_int (ky : Z) : Z :=
  let x := u32 ky in
  let x := u32 (Z.lxor (Z.shiftr x 16) x * 0x45d9f3b) in
  let x := u32 (Z.lxor (Z.shiftr x 16) x * 0x45d9f3b) in
  Z.lxor (Z.shiftr x 16) x.

Definition switch_hash_equalkeys_int (k1 k2 : Z) : bool := u32 k1 =? u32 k2.

(** *** The bit trick agrees with the character tables *)

Lemma tolower_byte b : switch_tolower (byte_Z b) = ascii_lower (byte_Z b).
Proof. destruct b; reflexivity. Qed.

Lemma ascii_lower_zero c : 0 <= c -> ascii_lower c = 0 <-> c = 0.
Proof. intros. unfold ascii_lower. case_if E; boolify; lia. Qed.

Lemma sdbm_loop_cstr lower (s : cstring) h :
  (forall b, lower (byte_Z b) = 0 <-> byte_Z b = 0) ->
  sdbm_loop lower s h = foldl sdbm_step h (map (fun c => lower (byte_Z c)) (cstr s)).
Proof.
  intros Hz. revert h. induction s as [|c s IH]; intros h; [done|]. simpl.
  specialize (Hz c). destruct (Z.eqb_spec (byte_Z c) 0) as [E|E].
  - by rewrite (proj2 Hz E).
  - destruct (Z.eqb_spec (lower (byte_Z c)) 0) as [E'|_]; [by apply Hz in E'|].
    simpl. apply IH.
Qed.

Lemma switch_hash_default_spec s :
  switch_hash_default s = foldl sdbm_step 0 (map byte_Z (cstr s)).
Proof. apply (sdbm_loop_cstr (fun c => c)). done. Qed.

Lemma switch_hash_default_ci_spec s :
  switch_hash_default_ci s = foldl sdbm_step 0 (map (fun c => ascii_lower (byte_Z c)) (cstr s)).
Proof.
  unfold switch_hash_default_ci. rewrite sdbm_loop_cstr.
  - f_equal. apply map_ext. intros b. apply tolower_byte.
  - intros b. rewrite tolower_byte. apply ascii_lower_zero. pose proof (byte_Z_range b). lia.
Qed.

(** The three pairs of functions satisfy what the table relies on. *)
#[export] Instance string_keys : KeyLaws switch_hash_default switch_hash_equalkeys.
Proof.
  unfold switch_hash_equalkeys. split.
  - intros k. by apply bool_decide_eq_true.
  - intros k1 k2 H. apply bool_decide_eq_true in H. by apply bool_decide_eq_true.
  - intros k1 k2 k3 H1 H2. apply bool_decide_eq_true in H1, H2.
    apply bool_decide_eq_true. congruence.
  - intros k1 k2 H. apply bool_decide_eq_true in H.
    by rewrite !switch_hash_default_spec, H.
Qed.

#[export] Instance string_keys_ci : KeyLaws switch_hash_default_ci switch_hash_equalkeys_ci.
Proof.
  unfold switch_hash_equalkeys_ci. split.
  - intros k. by apply bool_decide_eq_true.
  - intros k1 k2 H. apply bool_decide_eq_true in H. by apply bool_decide_eq_true.
  - intros k1 k2 k3 H1 H2. apply bool_decide_eq_true in H1, H2.
    apply bool_decide_eq_true. congruence.
  - intros k1 k2 H. apply bool_decide_eq_true in H.
    by rewrite !switch_hash_default_ci_spec, H.
Qed.

#[export] Instance int_keys : KeyLaws switch_hash_default_int switch_hash_equalkeys_int.
Proof.
  unfold switch_hash_equalkeys_int, switch_hash_default_int. split.
  - intros k. by apply Z.eqb_eq.
  - intros k1 k2 H. apply Z.eqb_eq in H. by apply Z.eqb_eq.
  - intros k1 k2 k3 H1 H2. apply Z.eqb_eq in H1, H2. apply Z.eqb_eq. congruence.
  - intros k1 k2 H. apply Z.eqb_eq in H. by rewrite H.
Qed.

(** ** The wrappers *)
Section Wrappers.
Context {V : Type}.
Abbreviation table := (switch_hashtable cstring V).

Definition switch_core_hash_init_case (malloc_h malloc_t case_sensitive : bool)
  : res (option table * switch_status) :=
  if case_sensitive
  then switch_create_hashtable malloc_h malloc_t 16 switch_hash_default switch_hash_equalkeys
  else switch_create_hashtable malloc_h malloc_t 16 switch_hash_default_ci switch_hash_equalkeys_ci.

Definition switch_core_hash_destroy (hash : option table)
  : res (option table * list (mem_effect cstring V) * switch_status) :=
  match hash with
  | None => Abort
  | Some h => let '(h, eff) := switch_hashtable_destroy h in Ret (h, eff, SWITCH_STATUS_SUCCESS)
  end.

Definition core_flags : Z := owned_flags.

Definition switch_core_hash_insert_destructor (env : heap_env) (hash : table)
    (key : cstring) (data : option V) (destructor : option Z)
  : res (table * switch_status * list (mem_effect cstring V)) :=
  '(h, r, eff) <-! switch_hashtable_insert_destructor env hash (cstr key) data core_flags destructor;;
  Ret (h, if r =? 0 then SWITCH_STATUS_FALSE else SWITCH_STATUS_SUCCESS, eff).

(** The macro [switch_core_hash_insert]. *)
Definition switch_core_hash_insert (env : heap_env) (hash : table) (key : cstring)
    (data : option V) : res (table * switch_status * list (mem_effect cstring V)) :=
  switch_core_hash_insert_destructor env hash key data None.

(** [f] between taking and releasing an optional lock. *)
Definition with_lock {A} (take release : Z -> sync_op) (m : option Z) (f : res A)
  : res (A * list sync_op) :=
  a <-! f;;
  Ret (a, match m with Some m => [take m; release m] | None => [] end).

Definition switch_core_hash_insert_locked env hash key data (mutex : option Z) :=
  with_lock Lock Unlock mutex (switch_core_hash_insert env hash key data).
Definition switch_core_hash_insert_wrlock env hash key data (rwlock : option Z) :=
  with_lock WrLock RwUnlock rwlock (switch_core_hash_insert env hash key data).

Definition switch_core_hash_delete (hash : table) (key : cstring)
  : res (table * option V * list (mem_effect cstring V)) :=
  switch_hashtable_remove hash key.

Definition switch_core_hash_delete_locked hash key (mutex : option Z) :=
  with_lock Lock Unlock mutex (switch_core_hash_delete hash key).
Definition switch_core_hash_delete_wrlock hash key (rwlock : option Z) :=
  with_lock WrLock RwUnlock rwlock (switch_core_hash_delete hash key).

Definition switch_core_hash_find (hash : table) (key : cstring) : res (option V) :=
  switch_hashtable_search hash key.

Definition switch_core_hash_find_locked hash key (mutex : option Z) :=
  with_lock Lock Unlock mutex (switch_core_hash_find hash key).
Definition switch_core_hash_find_rdlock hash key (rwlock : option Z) :=
  with_lock RdLock RwUnlock rwlock (switch_core_hash_find hash key).

Definition switch_core_hash_first_iter (hash : table) : option switch_hashtable_iterator :=
  switch_hashtable_first_iter hash.
Definition switch_core_hash_next (hash : table) (hi : switch_hashtable_iterator) :=
  switch_hashtable_next hash hi.
Definition switch_core_hash_this (hash : table) (hi : switch_hashtable_iterator) :=
  switch_hashtable_this hash hi.
Definition switch_core_hash_this_val (hash : table) (hi : switch_hashtable_iterator)
    (val : option V) : table := switch_hashtable_this_val hash hi val.

Definition switch_core_hash_empty (hash : table) : bool :=
  match switch_core_hash_first_iter hash with Some _ => false | None => true end.

(** *** Integer keys *)
Abbreviation itable := (switch_hashtable Z V).

Definition switch_core_inthash_init (malloc_h malloc_t : bool)
  : res (option itable * switch_status) :=
  switch_create_hashtable malloc_h malloc_t 16 switch_hash_default_int switch_hash_equalkeys_int.

Definition switch_core_inthash_destroy (hash : itable)
  : option itable * list (mem_effect Z V) * switch_status :=
  let '(h, eff) := switch_hashtable_destroy hash in (h, eff, SWITCH_STATUS_SUCCESS).

(** The key is copied to a fresh [uint32_t]. *)
Definition switch_core_inthash_insert (env : heap_env) (hash : itable) (key : Z) (data : option V)
  : res (itable * switch_status * list (mem_effect Z V)) :=
  '(h, r, eff) <-! switch_hashtable_insert_destructor env hash (u32 key) data core_flags None;;
  Ret (h, if r =? 0 then SWITCH_STATUS_FALSE else SWITCH_STATUS_SUCCESS, eff).

Definition switch_core_inthash_delete (hash : itable) (key : Z)
  : res (itable * option V * list (mem_effect Z V)) :=
  switch_hashtable_remove hash (u32 key).

Definition switch_core_inthash_find (hash : itable) (key : Z) : res (option V) :=
  switch_hashtable_search hash (u32 key).
End Wrappers.

(** ** Properties of the tables *)

Definition good_env : heap_env :=
  {| malloc_table := true; realloc_table := false; malloc_entry := true |}.

Lemma good_env_ok : env_ok good_env.
Proof. split; [by left|done]. Qed.


(** Forty keys: enough to make the first table of 53 buckets grow. *)
Definition demo_ops : list (heap_env * @table_op Z Z) :=
  map (fun i => (good_env, TInsert (Z.of_nat i) (Some (Z.of_nat i * 7)))) (seq 0 40) ++
  [(good_env, TRemove 3); (good_env, TFind 3); (good_env, TFind 39)].

Lemma demo_ops_ok : Forall (fun p => env_ok p.1) demo_ops.
Proof.
  apply List.Forall_forall. intros p [(i & <- & _)%in_map_iff|Hp]%in_app_or.
  - exact good_env_ok.
  - simpl in Hp. destruct Hp as [<-|[<-|[<-|[]]]]; exact good_env_ok.
Qed.


Lemma destroy_frees {K V} (h : switch_hashtable K V) : Forall plain (entries h) ->
  freed_keys (switch_hashtable_destroy h).2 = table_keys h.
Proof.
  unfold switch_hashtable_destroy, table_keys, entries; simpl.
  induction (h_table h) as [|c t IHt]; [done|]. simpl. intros [Hc Ht]%Forall_app.
  unfold freed_keys in *. rewrite flat_map_app, map_app, (IHt Ht). f_equal.
  induction Hc as [|e c He _ IHc]; [done|]. simpl. rewrite release_plain by done.
  simpl. by rewrite IHc.
Qed.

(** C35: key ownership. From the creation of a table whose insertions own their keys to
    its destruction, for any sequence of insertions, removals and searches in which an
    entry is allocated for every insertion and the bigger table comes from malloc or not
    at all (its realloc branch is undefined), the keys the table frees are, as a
    multiset, exactly the keys handed to it by the insertions: no key leaks and none is
    freed twice. *)
Theorem hashtable_frees_each_key_once {K V} (hashf : K -> Z) (eqf : K -> K -> bool)
    (minsize : Z) (ops : list (heap_env * @table_op K V)) :
  KeyLaws hashf eqf -> 0 <= minsize <= 2 ^ 30 -> Forall (fun p => env_ok p.1) ops ->
  exists h h' os eff,
    switch_create_hashtable true true minsize hashf eqf = Ret (Some h, SWITCH_STATUS_SUCCESS) /\
    exec_table_ops h ops = Ret (h', os, eff) /\
    freed_keys (eff ++ (switch_hashtable_destroy h').2) ≡ₚ flat_map op_keys (map snd ops).
Proof.
  intros Hl Hm Hops.
  destruct (create_ok (V:=V) minsize hashf eqf Hl Hm) as (h & E & Hi & Hd & _ & _ & Hn & _).
  destruct (exec_table_ops_ok h ops _ Hi Hd Hops) as (h' & eff & E' & Hi' & _ & Hk).
  eexists h, h', _, eff. split; [done|]. split; [done|].
  unfold freed_keys in *. rewrite flat_map_app. fold (freed_keys (switch_hashtable_destroy h').2).
  rewrite destroy_frees by apply Hi'. rewrite Hk. unfold table_keys. by rewrite Hn, app_nil_r.
Qed.

Lemma hashtable_frees_each_key_once_witness :
  exists h h' os eff,
    switch_create_hashtable true true 16 switch_hash_default_int switch_hash_equalkeys_int
      = Ret (Some h, SWITCH_STATUS_SUCCESS) /\
    exec_table_ops h demo_ops = Ret (h', os, eff) /\
    freed_keys (eff ++ (switch_hashtable_destroy h').2) ≡ₚ flat_map op_keys (map snd demo_ops).
Proof.
  apply hashtable_frees_each_key_once.
  - exact int_keys.
  - lia.
  - exact demo_ops_ok.
Defined.

(** The table of forty integer keys. *)
Definition demo_table : switch_hashtable Z Z :=
  match switch_create_hashtable true true 16 switch_hash_default_int switch_hash_equalkeys_int with
  | Ret (Some h, _) =>
    match exec_table_ops h demo_ops with Ret (h', _, _) => h' | _ => h end
  | _ => mk_hashtable 0 [] 0 0 0 switch_hash_default_int switch_hash_equalkeys_int
  end.

(** A loop [for (hi = first(h); hi; hi = next(&hi))] terminates after as
    many steps as the table has entries and sees every entry exactly once, in
    bucket order. *)
Theorem hashtable_iteration_complete {K V} (h : switch_hashtable K V) :
  zlen (h_table h) = h_tablelength h ->
  iterate (length (entries h)) h (switch_hashtable_first_iter h) =
    Some (map (fun e => (Some (e_k e), e_v e)) (entries h)).
Proof. apply iterate_all. Qed.

Lemma hashtable_iteration_complete_witness :
  iterate 39 demo_table (switch_hashtable_first_iter demo_table) =
    Some (map (fun e => (Some (e_k e), e_v e)) (entries demo_table)).
Proof.
  replace 39%nat with (length (entries demo_table)) by (vm_compute; reflexivity).
  apply (hashtable_iteration_complete demo_table). vm_compute. reflexivity.
Defined.

(** The fallback of [hashtable_expand] is not usable.  When the table has
    reached its load limit, [malloc] refuses a second table and [realloc]
    grants the larger one, an insertion of a new key reads the uninitialised
    slot [newtable[h->tablelength]] as a pointer and clears memory through it. *)
Theorem expand_realloc_branch_undefined {K V} (h : switch_hashtable K V) (k : K) (v : option V)
    (env : heap_env) :
  table_inv h -> malloc_table env = false -> realloc_table env = true ->
  h_primeindex h <> prime_table_length - 1 ->
  matching (h_eqfn h) k (entries h) = [] ->
  h_loadlimit h <= h_entrycount h < 2 ^ 32 - 1 ->
  switch_hashtable_insert_destructor env h k v core_flags None = Ub.
Proof.
  intros Hi Hm Hr Hp Hn Hl. pose proof (ti_wf _ Hi) as Hw.
  unfold switch_hashtable_insert_destructor. simpl.
  destruct (remove_at_ok h k Hw) as (h1 & v0 & eff & -> & _ & _ & _ & _ & [(_ & -> & _)|(e & He & _)]).
  2: { by rewrite Hn in He. }
  assert (0 <= h_entrycount h) by (rewrite (ti_count _ Hi); apply u32_range).
  cbn [rbind]. simpl. rewrite u32_small by lia. rewrite (proj2 (Z.ltb_lt _ _)) by lia.
  unfold hashtable_expand. simpl. destruct (Z.eqb_spec (h_primeindex h) (prime_table_length - 1)); [done|].
  destruct (tw_prime _ Hw) as [Hp0 Hp1].
  destruct (primes_next _ _ Hp0 Hp1 Hp) as (q & Hq & _). rewrite Hq. simpl. by rewrite Hm, Hr.
Qed.

Definition full_ops : list (heap_env * @table_op Z Z) :=
  map (fun i => (good_env, TInsert (Z.of_nat i) (Some 1))) (seq 0 35).
Definition full_table : switch_hashtable Z Z :=
  match switch_create_hashtable true true 16 switch_hash_default_int switch_hash_equalkeys_int with
  | Ret (Some h, _) =>
    match exec_table_ops h full_ops with Ret (h', _, _) => h' | _ => h end
  | _ => mk_hashtable 0 [] 0 0 0 switch_hash_default_int switch_hash_equalkeys_int
  end.

Lemma full_table_inv : table_inv full_table.
Proof.
  unfold full_table.
  destruct (create_ok (V:=Z) 16 switch_hash_default_int switch_hash_equalkeys_int)
    as (h & -> & Hi & Hd & _); [exact int_keys|lia|].
  destruct (exec_table_ops_ok h full_ops (fun _ => None) Hi Hd) as (h' & eff & -> & Hi' & _); [|done].
  apply List.Forall_forall. intros p (i & <- & _)%in_map_iff. exact good_env_ok.
Qed.

Lemma expand_realloc_branch_undefined_witness :
  switch_hashtable_insert_destructor
    {| malloc_table := false; realloc_table := true; malloc_entry := true |}
    full_table 99 (Some 1) core_flags None = Ub.
Proof.
  apply expand_realloc_branch_undefined.
  - exact full_table_inv.
  - reflexivity.
  - reflexivity.
  - vm_compute. discriminate.
  - vm_compute. reflexivity.
  - vm_compute. split; [discriminate|reflexivity].
Defined.

(** ** Interface: integer tables for their clients *)

(** What a client of [switch_core_inthash_*] sees: a container indexed by
    [uint32_t] keys.  Values are non-NULL pointers. *)
Class IntHash (H : Type -> Type) := {
  ih_init {V} : H V;
  ih_insert {V} : H V -> Z -> V -> H V;
  ih_delete {V} : H V -> Z -> H V * option V;
  ih_find {V} : H V -> Z -> option V;
  (** keys and values in the order a loop over the table meets them *)
  ih_elements {V} : H V -> list (Z * V);
  ih_ok {V} : H V -> Prop
}.

(** What the container promises. *)
Class IntHashLaws (H : Type -> Type) `{IntHash H} : Prop := {
  ih_init_ok {V} : ih_ok (ih_init (V:=V));
  ih_insert_ok {V} (h : H V) k v : ih_ok h -> ih_ok (ih_insert h k v);
  ih_delete_ok {V} (h : H V) k : ih_ok h -> ih_ok (ih_delete h k).1;
  ih_find_init {V} k : ih_find (ih_init (V:=V)) k = None;
  ih_find_insert {V} (h : H V) k v k' : ih_ok h ->
    ih_find (ih_insert h k v) k' = if u32 k =? u32 k' then Some v else ih_find h k';
  ih_find_delete {V} (h : H V) k k' : ih_ok h ->
    ih_find (ih_delete h k).1 k' = if u32 k =? u32 k' then None else ih_find h k';
  ih_delete_ret {V} (h : H V) k : ih_ok h -> (ih_delete h k).2 = ih_find h k;
  ih_find_u32 {V} (h : H V) k : ih_ok h -> ih_find h (u32 k) = ih_find h k;
  ih_elements_spec {V} (h : H V) k v : ih_ok h ->
    (k, v) ∈ ih_elements h <-> 0 <= k < 4294967296 /\ ih_find h k = Some v
}.

Lemma u32_idem z : u32 (u32 z) = u32 z.
Proof. apply u32_small, u32_range. Qed.

(** The hash table, with an allocator that never fails, implements it. *)
Definition inthash (V : Type) : Type := switch_hashtable Z V.

Definition inthash_new (V : Type) : inthash V :=
  match switch_core_inthash_init (V:=V) true true with
  | Ret (Some h, _) => h
  | _ => mk_hashtable 0 [] 0 0 0 switch_hash_default_int switch_hash_equalkeys_int
  end.

#[export] Instance inthash_ops : IntHash inthash := {
  ih_init V := inthash_new V;
  ih_insert V h k v :=
    match switch_core_inthash_insert good_env h k (Some v) with
    | Ret (h', _, _) => h' | _ => h
    end;
  ih_delete V h k :=
    match switch_core_inthash_delete h k with
    | Ret (h', v, _) => (h', v) | _ => (h, None)
    end;
  ih_find V h k :=
    match switch_core_inthash_find h k with Ret v => v | _ => None end;
  ih_elements V h :=
    match iterate (length (entries h)) h (switch_hashtable_first_iter h) with
    | Some l => omap (fun '(k, v) => k ← k; v ← v; Some (k, v)) l
    | None => []
    end;
  ih_ok V h := table_inv h /\ h_eqfn h = switch_hash_equalkeys_int /\
    Forall (fun k => u32 k = k) (table_keys h)
}.

Lemma inthash_insert_eq {V} (h : inthash V) k v : ih_ok h ->
  ih_ok (ih_insert h k v) /\
  denotes (ih_insert h k v) (map_put switch_hash_equalkeys_int (table_get h) (u32 k) (Some v)).
Proof.
  intros (Hi & He & Hc). simpl. unfold switch_core_inthash_insert. change core_flags with owned_flags.
  destruct (insert_ok good_env h (u32 k) (Some v) owned_flags None) as (h' & eff & -> & Hins);
    [apply Hi|by left|done|done|].
  destruct (inserts_spec h (u32 k) (Some v) h' eff (table_get h)) as (Hi' & Hd & Hk'); [done..|].
  destruct Hins as (? & ? & _ & [_ Hk] & _). simpl. rewrite <- He. split; [|done].
  split; [done|]. split; [by rewrite Hk|].
  assert (Hall : Forall (fun k => u32 k = k) (freed_keys eff ++ table_keys h')).
  { rewrite Hk'. constructor; [apply u32_idem|done]. }
  by apply Forall_app in Hall as [_ ?].
Qed.

Lemma inthash_delete_eq {V} (h : inthash V) k : ih_ok h ->
  ih_ok (ih_delete h k).1 /\ (ih_delete h k).2 = table_get h (u32 k) /\
  denotes (ih_delete h k).1 (map_put switch_hash_equalkeys_int (table_get h) (u32 k) None).
Proof.
  intros (Hi & He & Hc). simpl. unfold switch_core_inthash_delete, switch_hashtable_remove.
  destruct (remove_at_ok h (u32 k)) as (h' & v & eff & -> & Hr); [apply Hi|].
  destruct (removes_spec h (u32 k) h' v eff (table_get h)) as (Hi' & Hd & -> & Hk'); [done..|].
  destruct Hr as ([_ Hk] & _). simpl. rewrite <- He. split; [|done].
  split; [done|]. split; [by rewrite Hk|].
  rewrite <- Hk' in Hc. by apply Forall_app in Hc as [_ ?].
Qed.

Lemma inthash_find_eq {V} (h : inthash V) k : ih_ok h -> ih_find h k = table_get h (u32 k).
Proof.
  intros (Hi & _). simpl. unfold switch_core_inthash_find. by rewrite search_ok by apply Hi.
Qed.

Lemma inthash_init_eq {V} : ih_ok (ih_init (H:=inthash) (V:=V)) /\
  denotes (ih_init (H:=inthash) (V:=V)) (fun _ => None).
Proof.
  change (ih_init (H:=inthash) (V:=V)) with (inthash_new V).
  unfold inthash_new, switch_core_inthash_init.
  destruct (create_ok (V:=V) 16 switch_hash_default_int switch_hash_equalkeys_int)
    as (h & -> & Hi & Hd & He & _ & Hn & _); [exact int_keys|lia|]. split; [|done].
  split; [done|]. split; [done|]. unfold table_keys. by rewrite Hn.
Qed.

(** A key is met in the iteration exactly when a search finds it. *)
Lemma inthash_elements_eq {V} (h : inthash V) k v : ih_ok h ->
  (k, v) ∈ ih_elements h <-> 0 <= k < 4294967296 /\ ih_find h k = Some v.
Proof.
  intros Hok. rewrite inthash_find_eq by done. destruct Hok as (Hi & He & Hc).
  simpl. rewrite iterate_all by apply Hi. rewrite list_elem_of_omap.
  assert (Hiff : (exists x, x ∈ map visited (entries h) /\
      (let '(k0, v0) := x in k0 ← k0; v0 ← v0; Some (k0, v0)) = Some (k, v)) <->
    exists e, e ∈ entries h /\ e_k e = k /\ e_v e = Some v).
  { split.
    - intros (x & (e & <- & He')%list_elem_of_In%in_map_iff & E).
      apply list_elem_of_In in He'. exists e. unfold visited in E. simpl in E.
      destruct (e_v e); simplify_eq/=. done.
    - intros (e & Hin & <- & Hv). exists (visited e). split.
      + apply list_elem_of_In, in_map. by apply list_elem_of_In.
      + simpl. by rewrite Hv. }
  rewrite Hiff. clear Hiff. pose proof (ti_uniq _ Hi) as Hu. unfold table_get, table_keys in *. rewrite He in *.
  assert (Hm : forall e, e ∈ entries h -> 0 <= e_k e < 4294967296 /\
    matching switch_hash_equalkeys_int (e_k e) (entries h) = [e]).
  { intros e Hin. rewrite List.Forall_forall in Hc. assert (Hk : u32 (e_k e) = e_k e).
    { apply Hc, in_map. by apply list_elem_of_In. }
    split; [rewrite <- Hk; apply u32_range|]. specialize (Hu (e_k e)).
    assert (Hf : In e (matching switch_hash_equalkeys_int (e_k e) (entries h))).
    { apply filter_In. split; [by apply list_elem_of_In|]. apply Z.eqb_refl. }
    destruct (matching _ _ _) as [|a [|b l]]; simpl in *; [done| |lia].
    by destruct Hf as [->|[]]. }
  split.
  - intros (e & Hin & <- & Hv). destruct (Hm e Hin) as [Hr He']. split; [done|].
    rewrite u32_small, He' by done. done.
  - intros (Hr & Hg). rewrite u32_small in Hg by done.
    destruct (matching switch_hash_equalkeys_int k (entries h)) as [|e l] eqn:E; [done|].
    simpl in Hg. assert (Hin : In e (e :: l)) by (by left). rewrite <- E in Hin.
    apply filter_In in Hin as [Hin Hk]. apply list_elem_of_In in Hin. exists e. split; [done|].
    split; [|done]. destruct (Hm e Hin) as [Hre _]. unfold switch_hash_equalkeys_int in Hk.
    rewrite !u32_small in Hk by done. apply Z.eqb_eq in Hk. done.
Qed.

#[export] Instance inthash_laws : IntHashLaws inthash.
Proof.
  split.
  - intros V. apply inthash_init_eq.
  - intros V h k v Hok. by apply inthash_insert_eq.
  - intros V h k Hok. by apply inthash_delete_eq.
  - intros V k. rewrite inthash_find_eq by apply inthash_init_eq. apply inthash_init_eq.
  - intros V h k v k' Hok. destruct (inthash_insert_eq h k v Hok) as [Hok' Hd].
    rewrite !inthash_find_eq by done. rewrite Hd. unfold map_put, switch_hash_equalkeys_int.
    by rewrite !u32_idem.
  - intros V h k k' Hok. destruct (inthash_delete_eq h k Hok) as (Hok' & _ & Hd).
    rewrite !inthash_find_eq by done. rewrite Hd. unfold map_put, switch_hash_equalkeys_int.
    by rewrite !u32_idem.
  - intros V h k Hok. rewrite inthash_find_eq by done. by apply inthash_delete_eq.
  - intros V h k Hok. rewrite !inthash_find_eq by done. by rewrite u32_idem.
  - intros V h k v. apply inthash_elements_eq.
Qed.
