(* ===== verification/JbSort.v ===== *)
(** * JbSort: the list merge sort of src/switch_jitterbuffer.c ([sort_nodes])

    The C function is a bottom-up merge sort of a doubly linked list.  A run
    [p] of [psize] nodes and the rest [q] of the list are lists here; emitting
    a node appends it to the output list.  All loops are structural except the
    outermost two, which are bounded by the length of the list; the bounds are
    shown to be enough. *)
From S2P Require Import Prelude.
From stdpp Require Import base list numbers option.
From Stdlib Require Import ZArith Lia Permutation Sorted.

Local Open Scope Z_scope.

Section Sort.
Context {A : Type} (cmp : A -> A -> Z).

(** [while (psize > 0 || (qsize > 0 && q))]: merge the run [p] with the first
    [qsize] nodes of [q].  Returns the nodes emitted and what is left of [q]. *)
Fixpoint merge_runs (p : list A) : nat -> list A -> list A * list A :=
  fix go (qsize : nat) (q : list A) {struct qsize} : list A * list A :=
    match p with
    | [] =>
      match qsize, q with
      | S qs, e :: q' => let '(out, rest) := go qs q' in (e :: out, rest)
      | _, _ => ([], q)
      end
    | a :: p' =>
      match qsize, q with
      | S qs, b :: q' =>
        if cmp a b <=? 0
        then let '(out, rest) := merge_runs p' qsize q in (a :: out, rest)
        else let '(out, rest) := go qs q' in (b :: out, rest)
      | _, _ => let '(out, rest) := merge_runs p' qsize q in (a :: out, rest)
      end
    end.

(** [while (p)]: one pass over the list with runs of [insize] nodes.  Returns
    the new list and the number of merges; [None] when the bound is reached. *)
Fixpoint merge_pass (fuel : nat) (insize : nat) (p : list A) : option (list A * nat) :=
  match p with
  | [] => Some ([], 0%nat)
  | _ =>
    match fuel with
    | O => None
    | S fuel =>
      let '(out, rest) := merge_runs (take insize p) insize (drop insize p) in
      '(out', n) ← merge_pass fuel insize rest;
      Some (out ++ out', S n)
    end
  end.

(** [while (1)]: passes with runs of 1, 2, 4, ... nodes. *)
Fixpoint sort_passes (fuel : nat) (insize : nat) (lst : list A) : option (list A) :=
  match fuel with
  | O => None
  | S fuel =>
    '(out, nmerges) ← merge_pass (length lst) insize lst;
    if (nmerges <=? 1)%nat then Some out else sort_passes fuel (insize * 2) out
  end.

Definition sort_nodes (lst : list A) : option (list A) :=
  match lst with
  | [] => Some []
  | _ => sort_passes (length lst) 1 lst
  end.

(** ** Correctness *)

Definition le_cmp (a b : A) : Prop := cmp a b <= 0.

Class TotalPreorder : Prop := {
  cmp_total a b : le_cmp a b \/ le_cmp b a;
  cmp_trans a b c : le_cmp a b -> le_cmp b c -> le_cmp a c
}.

Abbreviation sorted := (StronglySorted le_cmp).

Lemma merge_runs_nil qsize q : merge_runs [] qsize q = (take qsize q, drop qsize q).
Proof.
  revert q. induction qsize as [|n IH]; intros [|b q]; try done.
  simpl. simpl in IH. by rewrite IH.
Qed.

Lemma merge_runs_left a p qsize : merge_runs (a :: p) qsize [] =
  let '(out, rest) := merge_runs p qsize [] in (a :: out, rest).
Proof. by destruct qsize. Qed.
Lemma merge_runs_zero a p q : merge_runs (a :: p) 0 q =
  let '(out, rest) := merge_runs p 0 q in (a :: out, rest).
Proof. done. Qed.
Lemma merge_runs_both a p n b q : merge_runs (a :: p) (S n) (b :: q) =
  if cmp a b <=? 0
  then let '(out, rest) := merge_runs p (S n) (b :: q) in (a :: out, rest)
  else let '(out, rest) := merge_runs (a :: p) n q in (b :: out, rest).
Proof. done. Qed.

Lemma merge_runs_rest p qsize q : (merge_runs p qsize q).2 = drop qsize q.
Proof.
  revert qsize q. induction p as [|a p IHp]; intros qsize q.
  - by rewrite merge_runs_nil.
  - revert q. induction qsize as [|n IHq]; intros q.
    + rewrite merge_runs_zero. specialize (IHp 0%nat q).
      by destruct (merge_runs p 0 q).
    + destruct q as [|b q].
      * rewrite merge_runs_left. specialize (IHp (S n) []).
        by destruct (merge_runs p (S n) []).
      * rewrite merge_runs_both. case_if E.
        -- specialize (IHp (S n) (b :: q)). by destruct (merge_runs p _ _).
        -- specialize (IHq q). by destruct (merge_runs (a :: p) n q).
Qed.

Lemma merge_runs_perm p qsize q : (merge_runs p qsize q).1 ≡ₚ p ++ take qsize q.
Proof.
  revert qsize q. induction p as [|a p IHp]; intros qsize q.
  - by rewrite merge_runs_nil.
  - revert q. induction qsize as [|n IHq]; intros q.
    + rewrite merge_runs_zero. specialize (IHp 0%nat q).
      destruct (merge_runs p 0 q); simpl in *. by rewrite IHp.
    + destruct q as [|b q].
      * rewrite merge_runs_left. specialize (IHp (S n) []).
        destruct (merge_runs p (S n) []); simpl in *. by rewrite IHp.
      * rewrite merge_runs_both. case_if E.
        -- specialize (IHp (S n) (b :: q)). destruct (merge_runs p _ _); simpl in *.
           by rewrite IHp.
        -- specialize (IHq q). destruct (merge_runs (a :: p) n q); simpl in *.
           rewrite IHq. simpl. rewrite Permutation_middle. rewrite <- Permutation_middle.
           solve_Permutation.
Qed.

Context `{!TotalPreorder}.

Lemma sorted_cons_all a l : sorted l -> (forall x, x ∈ l -> le_cmp a x) -> sorted (a :: l).
Proof.
  intros Hs Ha. constructor; [done|]. apply List.Forall_forall.
  intros x Hx. apply Ha. by apply list_elem_of_In.
Qed.

Lemma sorted_head_le a l x : sorted (a :: l) -> x ∈ l -> le_cmp a x.
Proof.
  intros Hs Hx. inversion Hs as [|? ? _ Hf]; subst.
  rewrite List.Forall_forall in Hf. apply Hf. by apply list_elem_of_In.
Qed.

Lemma sorted_tail a l : sorted (a :: l) -> sorted l.
Proof. by inversion 1. Qed.

Lemma elem_merge p qsize q x : x ∈ (merge_runs p qsize q).1 -> x ∈ p \/ x ∈ take qsize q.
Proof. rewrite merge_runs_perm. apply elem_of_app. Qed.

Lemma merge_runs_sorted p qsize q : sorted p -> sorted (take qsize q) ->
  sorted (merge_runs p qsize q).1.
Proof.
  revert qsize q. induction p as [|a p IHp]; intros qsize q Hp.
  - by rewrite merge_runs_nil.
  - revert q. induction qsize as [|n IHq]; intros q Hq.
    + rewrite merge_runs_zero. specialize (IHp 0%nat q (sorted_tail _ _ Hp) Hq).
      pose proof (elem_merge p 0 q) as He. destruct (merge_runs p 0 q); simpl in *.
      apply sorted_cons_all; [done|]. intros x [Hx|Hx]%He.
      * by eapply sorted_head_le.
      * by apply not_elem_of_nil in Hx.
    + destruct q as [|b q].
      * rewrite merge_runs_left. specialize (IHp (S n) [] (sorted_tail _ _ Hp) Hq).
        pose proof (elem_merge p (S n) []) as He. destruct (merge_runs p (S n) []); simpl in *.
        apply sorted_cons_all; [done|]. intros x [Hx|Hx]%He.
        -- by eapply sorted_head_le.
        -- by apply not_elem_of_nil in Hx.
      * rewrite merge_runs_both. destruct (Z.leb_spec (cmp a b) 0) as [Hle|Hgt].
        -- specialize (IHp (S n) (b :: q) (sorted_tail _ _ Hp) Hq).
           pose proof (elem_merge p (S n) (b :: q)) as He.
           destruct (merge_runs p _ _); simpl in *.
           apply sorted_cons_all; [done|]. intros x [Hx|Hx]%He.
           ++ by eapply sorted_head_le.
           ++ apply elem_of_cons in Hx as [->|Hx]; [done|].
              eapply cmp_trans; [done|]. by eapply sorted_head_le.
        -- simpl in Hq. specialize (IHq q (sorted_tail _ _ Hq)).
           assert (Hba : le_cmp b a) by (destruct (cmp_total a b); [unfold le_cmp in *; lia|done]).
           pose proof (elem_merge (a :: p) n q) as He.
           destruct (merge_runs (a :: p) n q); simpl in *.
           apply sorted_cons_all; [done|]. intros x [Hx|Hx]%He.
           ++ apply elem_of_cons in Hx as [->|Hx]; [done|].
              eapply cmp_trans; [done|]. by eapply sorted_head_le.
           ++ by eapply sorted_head_le.
Qed.
(** The list is a sequence of sorted runs of [n] nodes, the last one possibly
    shorter. *)
Definition runs (n : nat) (l : list A) : Prop :=
  forall k, sorted (take n (drop (k * n) l)).

Lemma runs_one l : runs 1 l.
Proof. intros k. destruct (drop (k * 1) l) as [|x m]; simpl; repeat constructor. Qed.

Lemma runs_drop n j l : runs n l -> runs n (drop (j * n) l).
Proof. intros Hr k. rewrite drop_drop, <- Nat.mul_add_distr_r. apply Hr. Qed.

Lemma runs_app n out l : sorted out ->
  (length out = n \/ (length out <= n /\ l = []))%nat -> runs n l -> runs n (out ++ l).
Proof.
  intros Hs Hlen Hr k. destruct Hlen as [Hlen|[Hlen ->]].
  - destruct k as [|k]; simpl.
    + rewrite drop_0, take_app_le by lia. by rewrite take_ge by lia.
    + rewrite drop_app_ge by lia. replace (n + k * n - length out)%nat with (k * n)%nat by lia.
      apply Hr.
  - rewrite app_nil_r. destruct k as [|k]; simpl.
    + rewrite drop_0. by rewrite take_ge by lia.
    + rewrite drop_ge by lia. rewrite take_nil. constructor.
Qed.

Lemma merge_pass_spec n l fuel : (0 < n)%nat -> runs n l -> (length l <= fuel)%nat ->
  exists out m, merge_pass fuel n l = Some (out, m) /\ out ≡ₚ l /\ runs (n * 2) out /\
    (m = 0 <-> length l = 0)%nat /\ (m <= 1 <-> length l <= n * 2)%nat.
Proof.
  intros Hn. revert l. induction fuel as [|fuel IH]; intros l Hr Hl.
  - destruct l; [|simpl in Hl; lia]. exists [], 0%nat. split; [done|]. split; [done|].
    split; [intros k; rewrite drop_nil, take_nil; constructor|simpl; lia].
  - destruct l as [|x l0] eqn:El.
    { exists [], 0%nat. split; [done|]. split; [done|].
      split; [intros k; rewrite drop_nil, take_nil; constructor|simpl; lia]. }
    rewrite <- El in *. assert (Hne : (0 < length l)%nat) by (rewrite El; simpl; lia).
    pose proof (merge_runs_rest (take n l) n (drop n l)) as Hrest.
    pose proof (merge_runs_perm (take n l) n (drop n l)) as Hperm.
    assert (Hsort : sorted (merge_runs (take n l) n (drop n l)).1).
    { apply merge_runs_sorted.
      - specialize (Hr 0%nat). by rewrite drop_0 in Hr.
      - specialize (Hr 1%nat). by rewrite Nat.mul_1_l in Hr. }
    replace (merge_pass (S fuel) n l) with
      (let '(out, rest) := merge_runs (take n l) n (drop n l) in
       '(out', m) ← merge_pass fuel n rest; Some (out ++ out', S m)) by (by rewrite El).
    destruct (merge_runs (take n l) n (drop n l)) as [out rest]. simpl in Hrest, Hperm, Hsort.
    rewrite drop_drop in Hrest. subst rest.
    destruct (IH (drop (n + n) l)) as (out' & m & -> & Hp' & Hr' & Hm0' & Hm').
    { replace (n + n)%nat with (2 * n)%nat by lia. by apply runs_drop. }
    { rewrite length_drop. lia. }
    assert (Hlo : length out = Nat.min (n * 2) (length l)).
    { rewrite Hperm, length_app, !length_take, length_drop. lia. }
    exists (out ++ out'), (S m). split; [done|].
    pose proof (Permutation_length Hp') as Hlen'. rewrite length_drop in Hlen'.
    split; [|split].
    + rewrite Hperm, Hp', <- app_assoc. rewrite <- (drop_drop l n n).
      by rewrite (take_drop n (drop n l)), take_drop.
    + apply runs_app; [done| |done]. destruct (decide (length l <= n * 2)%nat) as [Hle|Hgt].
      * right. split; [lia|]. apply length_zero_iff_nil. lia.
      * left. lia.
    + rewrite length_drop in Hm0'. lia.
Qed.

Lemma sort_passes_S fuel n l out m : merge_pass (length l) n l = Some (out, m) ->
  sort_passes (S fuel) n l = if (m <=? 1)%nat then Some out else sort_passes fuel (n * 2) out.
Proof. intros E. simpl. by rewrite E. Qed.

Lemma sort_passes_spec fuel n l : (0 < n)%nat -> runs n l ->
  (length l <= n * 2 ^ S fuel)%nat ->
  exists out, sort_passes (S fuel) n l = Some out /\ out ≡ₚ l /\ sorted out.
Proof.
  revert n l. induction fuel as [|fuel IH]; intros n l Hn Hr Hl;
    destruct (merge_pass_spec n l (length l) Hn Hr) as (out & m & E & Hp & Hr2 & _ & Hm); try lia.
  - exists out. rewrite (sort_passes_S _ _ _ _ _ E).
    rewrite (proj2 (Nat.leb_le m 1)) by (apply Hm; simpl in Hl; lia).
    split; [done|]. split; [done|]. specialize (Hr2 0%nat). rewrite drop_0 in Hr2.
    pose proof (Permutation_length Hp). rewrite take_ge in Hr2 by (simpl in Hl; lia). done.
  - pose proof (Permutation_length Hp) as Hlen.
    rewrite (sort_passes_S _ _ _ _ _ E).
    destruct (Nat.leb_spec m 1) as [Hle|Hgt].
    + exists out. split; [done|]. split; [done|]. apply Hm in Hle.
      specialize (Hr2 0%nat). rewrite drop_0, take_ge in Hr2 by lia. done.
    + destruct (IH (n * 2)%nat out) as (out2 & -> & Hp2 & Hs2); [lia|done| |].
      { rewrite Hlen. simpl in Hl |- *. lia. }
      exists out2. split; [done|]. split; [by rewrite Hp2|done].
Qed.

(** [sort_nodes] terminates within its bounds, keeps exactly the nodes it was
    given, and orders them. *)
Lemma sort_nodes_spec l :
  exists out, sort_nodes l = Some out /\ out ≡ₚ l /\ sorted out.
Proof.
  destruct l as [|x l]; [exists []; repeat constructor|].
  apply sort_passes_spec; [lia|apply runs_one|].
  rewrite Nat.mul_1_l. apply Nat.lt_le_incl, (Nat.pow_gt_lin_r 2 (S (length l))). lia.
Qed.
End Sort.
