(* ===== verification/JitterBuffer.v ===== *)
(** * JitterBuffer: the RTP jitter buffer of src/switch_jitterbuffer.c

    The buffer keeps received packets in a list of reusable nodes; the nodes
    that hold a packet are visible.  Two integer tables index the visible nodes
    by sequence number and, in timestamp mode, by timestamp, and a third one
    remembers the sequence numbers to ask for again.  The tables are those of
    CoreHash, used through the interface [IntHash].

    Pointers to nodes are the identities the nodes get when allocated; a node is
    never freed before the buffer is, so an identity always denotes a node of
    the list.  Sequence numbers and timestamps are kept in network byte order
    as in the structure, and converted where the code converts them.  The two
    mutexes and the percentage that is only printed are left out.  Requests to
    the session are recorded in [j_log]. *)
From S2P Require Import Prelude CoreHash JbSort.
From stdpp Require Import base list numbers option.
From Stdlib Require Import ZArith Lia.

Local Open Scope Z_scope.

Definition RENACK_TIME : Z := 100000.
Definition PERIOD_LEN : Z := 250.
Definition USHRT_MAX : Z := 65535.
Definition UINT_MAX : Z := 4294967295.

(** [switch_rtp_packet_t]: the header fields the buffer reads or writes, the
    other header fields as one word, and the body. *)
Record rtp_packet := mk_packet {
  p_version : Z;
  p_m : bool;
  p_seq : Z;
  p_ts : Z;
  p_rest : Z;
  p_body : list Z
}.
#[export] Instance eta_packet : Eta rtp_packet := fun p =>
  mk_packet (p_version p) (p_m p) (p_seq p) (p_ts p) (p_rest p) (p_body p).

(** The body has SWITCH_RTP_MAX_BUF_LEN + 4 bytes and the size of a pointer; the
    packet adds the 12 bytes of the header and two pointers. *)
Definition sizeof_body : Z := 16384 + 4 + 8.
Definition sizeof_packet : Z := 12 + sizeof_body + 8 + 8.

(** [switch_jb_node_t], less [parent] and the list links. *)
Record jb_node := mk_node {
  n_id : nat;
  n_packet : rtp_packet;
  n_len : Z;
  n_visible : bool;
  n_bad_hits : Z
}.
#[export] Instance eta_node : Eta jb_node := fun n =>
  mk_node (n_id n) (n_packet n) (n_len n) (n_visible n) (n_bad_hits n).

Inductive jb_type := SJB_VIDEO | SJB_AUDIO | SJB_TEXT.
#[export] Instance jb_type_eq_dec : EqDecision jb_type.
Proof. solve_decision. Defined.
Definition is_video (t : jb_type) : bool := match t with SJB_VIDEO => true | _ => false end.
Definition is_text (t : jb_type) : bool := match t with SJB_TEXT => true | _ => false end.

Definition SJB_QUEUE_ONLY : Z := Z.shiftl 1 0.

(** Requests the buffer makes to the session that owns it. *)
Inductive jb_request :=
| RequestVideoRefresh
| RequestBitrate (bits : Z).

(** ** [node_cmp] *)
Definition node_cmp (a b : jb_node) : Z :=
  if negb (n_visible a) then 0
  else if negb (n_visible b) then 1
  else ntohs (p_seq (n_packet a)) - ntohs (p_seq (n_packet b)).

(** ** Node lists *)
Definition get_node (l : list jb_node) (id : nat) : option jb_node :=
  List.find (fun n => (n_id n =? id)%nat) l.
Definition upd_node (id : nat) (f : jb_node -> jb_node) (l : list jb_node) : list jb_node :=
  map (fun n => if (n_id n =? id)%nat then f n else n) l.
Definition remove_node (id : nat) (l : list jb_node) : list jb_node :=
  List.filter (fun n => negb (n_id n =? id)%nat) l.

Section JitterBuffer.
Context {H : Type -> Type} `{!IntHash H}.

(** [struct switch_jb_s] *)
Record switch_jb := mk_jb {
  j_node_list : list jb_node;
  j_last_target_seq : Z;
  j_highest_read_ts : Z;
  j_highest_dropped_ts : Z;
  j_highest_read_seq : Z;
  j_highest_wrote_ts : Z;
  j_highest_wrote_seq : Z;
  j_target_seq : Z;
  j_target_ts : Z;
  j_last_target_ts : Z;
  j_psuedo_seq : Z;
  j_last_psuedo_seq : Z;
  j_visible_nodes : Z;
  j_allocated_nodes : Z;
  j_complete_frames : Z;
  j_frame_len : Z;
  j_min_frame_len : Z;
  j_max_frame_len : Z;
  j_highest_frame_len : Z;
  j_period_miss_count : Z;
  j_consec_miss_count : Z;
  j_period_miss_inc : Z;
  j_period_good_count : Z;
  j_consec_good_count : Z;
  j_period_count : Z;
  j_dropped : Z;
  j_samples_per_frame : Z;
  j_samples_per_second : Z;
  j_bitrate_control : Z;
  j_video_low_bitrate : Z;
  j_write_init : bool;
  j_read_init : bool;
  j_debug_level : Z;
  j_next_seq : Z;
  j_last_len : Z;
  j_missing_seq_hash : option (H Z);
  j_node_hash : H nat;
  j_node_hash_ts : option (H nat);
  j_free_pool : bool;
  j_drop_flag : Z;
  j_flags : Z;
  j_type : jb_type;
  (** whether [session] is set *)
  j_session : bool;
  (** the channel: the depth of CF_VIDEO_BITRATE_UNMANAGABLE on it *)
  j_channel : option Z;
  j_buffer_lag : Z;
  j_flush : Z;
  j_packet_count : Z;
  j_max_packet_len : Z;
  (** requests made so far, oldest first *)
  j_log : list jb_request
}.
#[export] Instance eta_jb : Eta switch_jb := fun j =>
  mk_jb (j_node_list j) (j_last_target_seq j) (j_highest_read_ts j) (j_highest_dropped_ts j)
    (j_highest_read_seq j) (j_highest_wrote_ts j) (j_highest_wrote_seq j) (j_target_seq j)
    (j_target_ts j) (j_last_target_ts j) (j_psuedo_seq j) (j_last_psuedo_seq j)
    (j_visible_nodes j) (j_allocated_nodes j) (j_complete_frames j) (j_frame_len j)
    (j_min_frame_len j) (j_max_frame_len j) (j_highest_frame_len j) (j_period_miss_count j)
    (j_consec_miss_count j) (j_period_miss_inc j) (j_period_good_count j)
    (j_consec_good_count j) (j_period_count j) (j_dropped j) (j_samples_per_frame j)
    (j_samples_per_second j) (j_bitrate_control j) (j_video_low_bitrate j) (j_write_init j)
    (j_read_init j) (j_debug_level j) (j_next_seq j) (j_last_len j) (j_missing_seq_hash j)
    (j_node_hash j) (j_node_hash_ts j) (j_free_pool j) (j_drop_flag j) (j_flags j) (j_type j)
    (j_session j) (j_channel j) (j_buffer_lag j) (j_flush j) (j_packet_count j)
    (j_max_packet_len j) (j_log j).

Implicit Types jb : switch_jb.

(** [if (jb->session) switch_core_session_request_video_refresh(jb->session)] *)
Definition request_refresh jb : switch_jb :=
  if j_session jb then jb <| j_log ::= fun l => l ++ [RequestVideoRefresh] |> else jb.

(** ** Nodes *)

(** [push_to_top]: unlink the node and put it first. *)
Definition push_to_top jb (node : jb_node) : switch_jb :=
  jb <| j_node_list := node :: remove_node (n_id node) (j_node_list jb) |>.

(** The two [switch_core_inthash_delete]s of [hide_node]. *)
Definition unhash_node jb (node : jb_node) : switch_jb :=
  let jb := jb <| j_node_hash_ts ::= option_map (fun h => (ih_delete h (p_ts (n_packet node))).1) |> in
  let '(h, found) := ih_delete (j_node_hash jb) (p_seq (n_packet node)) in
  let jb := jb <| j_node_hash := h |> in
  match found with
  | Some _ =>
    if (p_version (n_packet node) =? 1) && is_video (j_type jb)
    then jb <| j_complete_frames ::= fun c => u32 (c - 1) |> else jb
  | None => jb
  end.

Definition hidden (n : jb_node) : jb_node := n <| n_visible := false |> <| n_bad_hits := 0 |>.

(** [hide_node]; [node] is the node the pointer denotes. *)
Definition hide_node jb (node : jb_node) (pop : bool) : switch_jb :=
  let jb :=
    if n_visible node then
      let jb := jb <| j_node_list ::= upd_node (n_id node) hidden |>
                   <| j_visible_nodes ::= fun v => u32 (v - 1) |> in
      if pop then push_to_top jb (hidden node) else jb
    else jb in
  unhash_node jb node.

(** [sort_free_nodes]; [sort_nodes] always ends, see [sort_nodes_spec]. *)
Definition sort_free_nodes jb : switch_jb :=
  match sort_nodes node_cmp (j_node_list jb) with
  | Some l => jb <| j_node_list := l |>
  | None => jb
  end.

(** [for (np = jb->node_list; np; np = np->next) hide_node(np, SWITCH_FALSE)]
    restricted to the nodes that satisfy [sel]; hiding a node without [pop]
    changes neither the order of the list nor another node. *)
Definition hide_where (sel : jb_node -> bool) jb : switch_jb :=
  fold_left (fun jb np => if sel np then hide_node jb np false else jb) (j_node_list jb) jb.

Definition hide_nodes jb : switch_jb := hide_where (fun _ => true) jb.

Definition drop_ts jb (ts : Z) : switch_jb :=
  let sel np := n_visible np && (ts =? p_ts (n_packet np)) in
  let jb' := hide_where sel jb in
  if existsb sel (j_node_list jb) then sort_free_nodes jb' else jb'.

(** The loops of the [jb_find_lowest_*] functions: the first node for which no
    later one is [better]. *)
Definition find_best (sel : jb_node -> bool) (better : jb_node -> jb_node -> bool)
    (l : list jb_node) : option jb_node :=
  fold_left (fun lowest np =>
    if negb (sel np) then lowest
    else match lowest with
         | None => Some np
         | Some b => if better b np then Some np else lowest
         end) l None.

Definition jb_find_lowest_seq jb (ts : Z) : option jb_node :=
  find_best (fun np => n_visible np && negb (negb (ts =? 0) && negb (ts =? p_ts (n_packet np))))
    (fun lowest np => ntohs (p_seq (n_packet lowest)) >? ntohs (p_seq (n_packet np)))
    (j_node_list jb).

Definition jb_find_lowest_node jb : option jb_node :=
  find_best n_visible
    (fun lowest np => ntohl (p_ts (n_packet lowest)) >? ntohl (p_ts (n_packet np)))
    (j_node_list jb).

Definition jb_find_lowest_ts jb : Z :=
  match jb_find_lowest_node jb with Some n => p_ts (n_packet n) | None => 0 end.

(** A table of nodes, seen through the pointers it holds. *)
Definition hash_find_node jb (h : H nat) (key : Z) : option jb_node :=
  id ← ih_find h key; get_node (j_node_list jb) id.

(** ** Counters *)
Definition jb_hit jb : switch_jb :=
  jb <| j_period_good_count ::= fun c => u32 (c + 1) |>
     <| j_consec_good_count ::= fun c => u32 (c + 1) |>
     <| j_consec_miss_count := 0 |>.

Definition jb_miss jb : switch_jb :=
  jb <| j_period_miss_count ::= fun c => u32 (c + 1) |>
     <| j_consec_miss_count ::= fun c => u32 (c + 1) |>
     <| j_consec_good_count := 0 |>.

Definition jb_frame_inc_line jb (i : Z) : switch_jb :=
  let frame_len :=
    if i =? 0 then j_min_frame_len jb
    else if i >? 0 then
      if u32 (j_frame_len jb + i) <? j_max_frame_len jb
      then u32 (j_frame_len jb + i) else j_max_frame_len jb
    else
      if u32 (j_frame_len jb + i) >? j_min_frame_len jb
      then u32 (j_frame_len jb + i) else j_min_frame_len jb in
  let jb := jb <| j_frame_len := frame_len |> in
  if frame_len >? j_highest_frame_len jb
  then jb <| j_highest_frame_len := frame_len |> else jb.

Definition drop_oldest_frame jb : switch_jb := drop_ts jb (jb_find_lowest_ts jb).

Definition check_seq (a b : Z) : bool :=
  let a := ntohs a in
  let b := ntohs b in
  (a >=? b) || ((b >? a) && (b >? USHRT_MAX / 2) && (a <? USHRT_MAX / 2)).

Definition check_ts (a b : Z) : bool :=
  let a := ntohl a in
  let b := ntohl b in
  (a >? b) || ((b >? a) && (b >? UINT_MAX / 2) && (a <? UINT_MAX / 2)).

(** ** Reset *)
Definition switch_jb_reset jb : switch_jb :=
  let jb :=
    if is_video (j_type jb)
    then request_refresh (jb <| j_missing_seq_hash := Some ih_init |>) else jb in
  let jb := hide_nodes jb in
  jb <| j_drop_flag := 0 |>
     <| j_last_target_seq := 0 |>
     <| j_target_seq := 0 |>
     <| j_write_init := false |>
     <| j_highest_wrote_seq := 0 |>
     <| j_highest_wrote_ts := 0 |>
     <| j_next_seq := 0 |>
     <| j_highest_read_ts := 0 |>
     <| j_highest_read_seq := 0 |>
     <| j_read_init := false |>
     <| j_complete_frames := 0 |>
     <| j_period_miss_count := 0 |>
     <| j_consec_miss_count := 0 |>
     <| j_period_good_count := 0 |>
     <| j_consec_good_count := 0 |>
     <| j_period_count := 0 |>
     <| j_period_miss_inc := 0 |>
     <| j_target_ts := 0 |>
     <| j_last_target_ts := 0 |>.

(** ** Adding a packet *)

(** A node as [switch_core_alloc] gives it: all zero. *)
Definition blank_node (id : nat) : jb_node :=
  mk_node id (mk_packet 0 false 0 0 0 []) 0 false 0.

Definition shown (n : jb_node) : jb_node := n <| n_bad_hits := 0 |> <| n_visible := true |>.

(** [mult] of [new_node] *)
Definition node_mult jb : Z :=
  if is_video (j_type jb) then (if j_max_packet_len jb >? 2 then j_max_packet_len jb else 2) else 2.

(** [new_node]; [None] is a NULL return.  The node's identity is returned. *)
Definition new_node jb : switch_jb * option nat :=
  match List.find (fun np => negb (n_visible np)) (j_node_list jb) with
  | Some np =>
    (jb <| j_node_list ::= upd_node (n_id np) shown |>
        <| j_visible_nodes ::= fun v => u32 (v + 1) |>, Some (n_id np))
  | None =>
    if j_allocated_nodes jb >? u32 (j_max_frame_len jb * node_mult jb)
    then (switch_jb_reset jb, None)
    else
      let id := length (j_node_list jb) in
      (jb <| j_allocated_nodes ::= fun a => u32 (a + 1) |>
          <| j_node_list ::= fun l => shown (blank_node id) :: l |>
          <| j_visible_nodes ::= fun v => u32 (v + 1) |>, Some id)
  end.

(** Distances to the newest packet written, in the test for a new stream. *)
Definition seq_diff jb (packet : rtp_packet) : Z :=
  if (ntohs (j_highest_wrote_seq jb) >? USHRT_MAX - 100) && (ntohs (p_seq packet) <? 100)
  then (USHRT_MAX - ntohs (j_highest_wrote_seq jb)) + ntohs (p_seq packet)
  else Z.abs (ntohs (p_seq packet) - ntohs (j_highest_wrote_seq jb)).

Definition ts_diff jb (packet : rtp_packet) : Z :=
  if (ntohl (j_highest_wrote_ts jb) >? UINT_MAX - 1000) && (ntohl (p_ts packet) <? 1000)
  then i32 (u32 ((UINT_MAX - ntohl (p_ts packet)) + ntohl (p_ts packet)))
  else i32 (Z.abs (i32 (ntohl (p_ts packet) - ntohl (j_highest_wrote_ts jb)))).

(** The end of [add_node]: bookkeeping of the newest packet and frame. *)
Definition add_node_tail jb (id : nat) (packet : rtp_packet) : switch_jb :=
  let jb :=
    if negb (j_write_init jb) || (ntohs (p_seq packet) >? ntohs (j_highest_wrote_seq jb))
       || ((ntohs (j_highest_wrote_seq jb) >? USHRT_MAX - 100) && (ntohs (p_seq packet) <? 100))
    then jb <| j_highest_wrote_seq := p_seq packet |> else jb in
  let jb :=
    if is_video (j_type jb) then
      let jb := if negb (test_flag (j_flags jb) SJB_QUEUE_ONLY)
                then jb <| j_packet_count ::= fun c => u32 (c + 1) |> else jb in
      if j_write_init jb && check_seq (p_seq packet) (j_highest_wrote_seq jb)
         && check_ts (p_ts packet) (j_highest_wrote_ts jb)
      then
        let jb := jb <| j_highest_wrote_ts := p_ts packet |>
                     <| j_complete_frames ::= fun c => u32 (c + 1) |> in
        let jb :=
          if negb (test_flag (j_flags jb) SJB_QUEUE_ONLY) then
            let jb := if j_packet_count jb >? j_max_packet_len jb
                      then jb <| j_max_packet_len := j_packet_count jb |> else jb in
            jb <| j_packet_count := 0 |>
          else jb in
        jb <| j_node_list ::=
              upd_node id (fun n => n <| n_packet ::= fun p => p <| p_version := 1 |> |>) |>
      else if negb (j_write_init jb) then jb <| j_highest_wrote_ts := p_ts packet |> else jb
    else
      (* jb->write_init || jb->type == SJB_TEXT || jb->type == SJB_AUDIO *)
      jb <| j_complete_frames ::= fun c => u32 (c + 1) |> in
  jb <| j_write_init := true |>.

(** [add_node]; the copy of [len] bytes into [node->packet.body] is defined
    only within the body. *)
Definition add_node jb (packet : rtp_packet) (len : Z) : res switch_jb :=
  match new_node jb with
  | (jb, None) => Ret jb
  | (jb, Some id) =>
    if len >? sizeof_body then Ub else
    let jb := jb <| j_node_list ::=
                    upd_node id (fun n => n <| n_packet := packet |> <| n_len := u32 len |>) |>
                 <| j_node_hash ::= fun h => ih_insert h (p_seq packet) id |>
                 <| j_node_hash_ts ::= option_map (fun h => ih_insert h (p_ts packet) id) |> in
    let jb :=
      if j_write_init jb && is_video (j_type jb)
         && ((seq_diff jb packet >=? 100) || (ts_diff jb packet >? 900000 * 5))
      then switch_jb_reset jb else jb in
    Ret (add_node_tail jb id packet)
  end.

(** ** Read position *)
Definition increment_ts jb : switch_jb :=
  if j_target_ts jb =? 0 then jb
  else jb <| j_last_psuedo_seq := j_psuedo_seq jb |>
          <| j_last_target_ts := j_target_ts jb |>
          <| j_target_ts := htonl (u32 (ntohl (j_target_ts jb) + j_samples_per_frame jb)) |>
          <| j_psuedo_seq ::= fun s => u16 (s + 1) |>.

Definition set_read_ts jb (ts : Z) : switch_jb :=
  if ts =? 0 then jb
  else jb <| j_last_psuedo_seq := j_psuedo_seq jb |>
          <| j_last_target_ts := ts |>
          <| j_target_ts := htonl (u32 (ntohl ts + j_samples_per_frame jb)) |>
          <| j_psuedo_seq ::= fun s => u16 (s + 1) |>.

Definition increment_seq jb : switch_jb :=
  jb <| j_last_target_seq := j_target_seq jb |>
     <| j_target_seq := htons (ntohs (j_target_seq jb) + 1) |>.

Definition set_read_seq jb (seq : Z) : switch_jb :=
  jb <| j_last_target_seq := seq |>
     <| j_target_seq := htons (ntohs seq + 1) |>.

(** [for (x = 0; x < 10; x++)]: the search past a missing packet of a video
    stream.  The flag says that the code jumps back to [top]. *)
Fixpoint scan_ahead (n : nat) jb : switch_jb * option jb_node * bool :=
  match n with
  | O => (jb, None, false)
  | S n =>
    let jb := increment_seq jb in
    match hash_find_node jb (j_node_hash jb) (j_target_seq jb) with
    | Some node =>
      if p_m (n_packet node) || (p_ts (n_packet node) =? j_highest_read_ts jb)
      then
        let jb := jb <| j_dropped ::= fun d => u32 (d + 1) |> in
        let jb := drop_ts jb (p_ts (n_packet node)) in
        (jb <| j_highest_dropped_ts := ntohl (p_ts (n_packet node)) |>, None, true)
      else (jb, Some node, false)
    | None => scan_ahead n jb
    end
  end.

(** A frame was dropped: start again from the lowest sequence number. *)
Definition resync jb : switch_jb :=
  if is_video (j_type jb) && negb (j_dropped jb =? 0)
  then request_refresh (jb <| j_dropped := 0 |> <| j_target_seq := 0 |>) else jb.

(** The body of [jb_next_packet_by_seq] from the label [top] to the end of the
    search; [fuel] bounds the jumps back to [top]. *)
Fixpoint next_by_seq (fuel : nat) jb : switch_jb * option jb_node :=
  match fuel with
  | O => (jb, None)
  | S fuel =>
    let jb := resync jb in
    let found := hash_find_node jb (j_node_hash jb) (j_target_seq jb) in
    if j_target_seq jb =? 0 then
      (jb_hit jb, match found with Some n => Some n | None => jb_find_lowest_seq jb 0 end)
    else match found with
    | Some node => (jb_hit jb, Some node)
    | None =>
      let jb := jb_miss jb in
      if is_video (j_type jb) then
        let jb :=
          if (j_period_miss_count jb >? 1) && (j_period_miss_inc jb =? 0)
          then jb_frame_inc_line (jb <| j_period_miss_inc ::= fun c => u32 (c + 1) |>) 1 else jb in
        let jb := request_refresh jb in
        match scan_ahead 10 jb with
        | (jb, _, true) => next_by_seq fuel jb
        | (jb, node, false) => (jb, node)
        end
      else (increment_seq jb, None)
    end
  end.

(** One jump is the most there is, see [next_by_seq_fuel]. *)
Definition jb_next_packet_by_seq jb : switch_jb * option jb_node :=
  match next_by_seq 2 jb with
  | (jb, Some node) => (set_read_seq jb (p_seq (n_packet node)), Some node)
  | (jb, None) => (jb, None)
  end.

Definition jb_next_packet_by_ts jb : switch_jb * option jb_node :=
  let found := h ← j_node_hash_ts jb; hash_find_node jb h (j_target_ts jb) in
  let '(jb, node) :=
    if j_target_ts jb =? 0 then (jb_hit jb, jb_find_lowest_node jb)
    else match found with
    | Some n => (jb_hit jb, Some n)
    | None => (increment_ts (jb_miss jb), None)
    end in
  match node with
  | Some n =>
    let jb := set_read_ts jb (p_ts (n_packet n)) in
    let reseq n := n <| n_packet ::= fun p => p <| p_seq := htons (j_psuedo_seq jb) |> |> in
    (jb <| j_node_list ::= upd_node (n_id n) reseq |>, Some (reseq n))
  | None => (jb, None)
  end.

(** [Some node] is SWITCH_STATUS_SUCCESS, [None] SWITCH_STATUS_NOTFOUND. *)
Definition jb_next_packet jb : switch_jb * option jb_node :=
  if negb (j_samples_per_frame jb =? 0) then jb_next_packet_by_ts jb
  else jb_next_packet_by_seq jb.

Definition free_nodes jb : switch_jb := jb <| j_node_list := [] |>.

(** ** Interface functions *)
Definition switch_jb_ts_mode jb (samples_per_frame samples_per_second : Z) : switch_jb :=
  jb <| j_samples_per_frame := samples_per_frame |>
     <| j_samples_per_second := samples_per_second |>
     <| j_node_hash_ts := Some ih_init |>.

(** [switch_jb_set_session]; [depth] is the flag's depth on the session's
    channel and [var] the value [atoi] gives for jb_video_low_bitrate. *)
Definition switch_jb_set_session jb (depth : Z) (var : option Z) : switch_jb :=
  let jb := jb <| j_session := true |> <| j_channel := Some depth |> in
  if is_video (j_type jb) && negb (test_flag (j_flags jb) SJB_QUEUE_ONLY) then
    match var with
    | Some tmp =>
      if (tmp >=? 128) && (tmp <=? 10240) then jb <| j_video_low_bitrate := tmp |> else jb
    | None => jb
    end
  else jb.

Definition switch_jb_set_flag jb (flag : Z) : switch_jb :=
  jb <| j_flags ::= fun f => set_flag f flag |>.
Definition switch_jb_clear_flag jb (flag : Z) : switch_jb :=
  jb <| j_flags ::= fun f => clear_flag f flag |>.

Definition switch_jb_poll jb : switch_jb * bool :=
  let jb :=
    if is_text (j_type jb) && (j_complete_frames jb <? j_frame_len jb) then
      let jb := if negb (j_complete_frames jb =? 0) && (j_buffer_lag jb =? 0)
                then jb <| j_buffer_lag := 10 |> else jb in
      if negb (j_buffer_lag jb =? 0) then
        let jb := jb <| j_buffer_lag ::= fun l => l - 1 |> in
        if j_buffer_lag jb =? 0 then jb <| j_flush := 1 |> else jb
      else jb
    else jb in
  (jb, (j_complete_frames jb >=? j_frame_len jb) || negb (j_flush jb =? 0)).

Definition switch_jb_frame_count jb : Z := i32 (j_complete_frames jb).
Definition switch_jb_debug_level jb (level : Z) : switch_jb := jb <| j_debug_level := level |>.

(** The fields of [switch_frame_t] that [switch_jb_peek_frame] uses; [fr_data]
    is [None] when [frame->data] is NULL. *)
Record jb_frame := mk_frame {
  fr_seq : Z; fr_timestamp : Z; fr_m : bool; fr_datalen : Z;
  fr_data : option (list Z); fr_buflen : Z
}.

Definition switch_jb_peek_frame jb (ts seq peek : Z) (frame : jb_frame) : jb_frame * switch_status :=
  let node :=
    if negb (seq =? 0) then hash_find_node jb (j_node_hash jb) (htons (u16 (seq + peek)))
    else if negb (ts =? 0) && negb (j_samples_per_frame jb =? 0) then
      h ← j_node_hash_ts jb;
      hash_find_node jb h (htonl (u32 (ts + peek * j_samples_per_frame jb)))
    else None in
  match node with
  | Some n =>
    let datalen := u32 (n_len n - 12) in
    let data :=
      match fr_data frame with
      | Some d =>
        if fr_buflen frame >? datalen
        then Some (take (Z.to_nat datalen) (p_body (n_packet n)) ++ drop (Z.to_nat datalen) d)
        else Some d
      | None => None
      end in
    (mk_frame (ntohs (p_seq (n_packet n))) (ntohl (p_ts (n_packet n))) (p_m (n_packet n)) datalen
       data (fr_buflen frame), SWITCH_STATUS_SUCCESS)
  | None => (frame, SWITCH_STATUS_FALSE)
  end.

(** The four out-parameters of [switch_jb_get_frames], each with the value it
    had; the last one is left alone. *)
Definition switch_jb_get_frames jb (min_frame_len max_frame_len cur_frame_len highest_frame_len : option Z)
    : option Z * option Z * option Z * option Z :=
  ((fun _ => j_min_frame_len jb) <$> min_frame_len,
   (fun _ => j_max_frame_len jb) <$> max_frame_len,
   (fun _ => j_frame_len jb) <$> cur_frame_len, highest_frame_len).

Definition switch_jb_set_frames jb (min_frame_len max_frame_len : Z) : switch_jb :=
  let lowest := j_frame_len jb =? j_min_frame_len jb in
  let jb := jb <| j_min_frame_len := min_frame_len |> <| j_max_frame_len := max_frame_len |> in
  let jb := if j_frame_len jb >? j_max_frame_len jb
            then jb <| j_frame_len := j_max_frame_len jb |> else jb in
  let jb := if j_frame_len jb <? j_min_frame_len jb
            then jb <| j_frame_len := j_min_frame_len jb |> else jb in
  let jb := if j_frame_len jb >? j_highest_frame_len jb
            then jb <| j_highest_frame_len := j_frame_len jb |> else jb in
  if lowest then jb <| j_frame_len := j_min_frame_len jb |> else jb.

(** [switch_jb_create]; [own_pool] says that no pool was passed. *)
Definition switch_jb_create (type : jb_type) (min_frame_len max_frame_len : Z) (own_pool : bool)
    : switch_jb :=
  mk_jb [] 0 0 0 0 0 0 0 0 0 0 0 0 0 0 min_frame_len min_frame_len max_frame_len min_frame_len
    0 0 0 0 0 0 0 0 0 0 0 false false 0 0 0
    (if is_video type then Some ih_init else None) ih_init None own_pool 0 0 type
    false None 0 0 0 0 [].

(** What [switch_jb_destroy] gives back: the tables (missing, by sequence, by
    timestamp) and the pool. *)
Definition switch_jb_destroy jb : switch_jb * (bool * bool * bool * bool) :=
  (free_nodes jb,
   (is_video (j_type jb), true, bool_decide (is_Some (j_node_hash_ts jb)), j_free_pool jb)).

(** ** Negative acknowledgements *)
Definition missing_delete jb (key : Z) : switch_jb * option Z :=
  match j_missing_seq_hash jb with
  | Some h => let '(h, v) := ih_delete h key in (jb <| j_missing_seq_hash := Some h |>, v)
  | None => (jb, None)
  end.
Definition missing_insert jb (key v : Z) : switch_jb :=
  jb <| j_missing_seq_hash ::= option_map (fun h => ih_insert h key v) |>.

(** One pass of the [for] loop over the missing sequence numbers.  [inl seq]:
    [seq] has expired; [inr least]: the pass ended. *)
Fixpoint nack_scan (now : Z) jb (l : list (Z * Z)) (least : Z) : Z + Z :=
  match l with
  | [] => inr least
  | (var, then_) :: l =>
    let seq := ntohs (u16 var) in
    if negb (then_ =? 1) && (u32 (now - then_) <? RENACK_TIME) then nack_scan now jb l least
    else if seq <? u32 (ntohs (j_target_seq jb) - j_frame_len jb) then inl seq
    else nack_scan now jb l (if (least =? 0) || (seq <? least) then seq else least)
  end.

(** [top:], with [fuel] bounding the jumps back to it; [None]: out of fuel. *)
Fixpoint nack_loop (fuel : nat) (now : Z) jb : option (switch_jb * Z) :=
  match fuel with
  | O => None
  | S fuel =>
    match nack_scan now jb (from_option ih_elements [] (j_missing_seq_hash jb)) 0 with
    | inl seq => nack_loop fuel now (missing_delete jb (htons seq)).1
    | inr least => Some (jb, least)
    end
  end.

(** [for (i = 0; i < 16; i++)]: the bitmask of following lost packets. *)
Fixpoint nack_blp (n : nat) (i : Z) (now least : Z) jb (blp : Z) : switch_jb * Z :=
  match n with
  | O => (jb, blp)
  | S n =>
    let key := htons (u16 (least + i + 1)) in
    match missing_delete jb key with
    | (jb, Some _) => nack_blp n (i + 1) now least (missing_insert jb key now)
                        (Z.lor blp (Z.shiftl 1 i))
    | (jb, None) => nack_blp n (i + 1) now least jb blp
    end
  end.

(** [switch_jb_pop_nack] at the time [now]: the source reads the clock for every number
    it looks at; here one reading stands for all reads of a call. *)
Definition switch_jb_pop_nack (fuel : nat) (now : Z) jb : option (switch_jb * Z) :=
  if negb (is_video (j_type jb)) then Some (jb, 0) else
  '(jb, least) ← nack_loop fuel now jb;
  if least =? 0 then Some (jb, 0) else
  match missing_delete jb (htons least) with
  | (jb, None) => Some (jb, 0)
  | (jb, Some _) =>
    let nack := htons least in
    let '(jb, blp) := nack_blp 16 0 now least (missing_insert jb nack now) 0 in
    Some (jb, Z.lor nack (Z.shiftl (htons blp) 16))
  end.

(** ** Put and get *)

(** [while ((jb->max_frame_len * 2 - jb->visible_nodes) < jb->max_packet_len)];
    [None]: still running after [fuel] rounds. *)
Fixpoint drop_loop (fuel : nat) jb : option switch_jb :=
  if u32 (j_max_frame_len jb * 2 - j_visible_nodes jb) <? j_max_packet_len jb then
    match fuel with
    | O => None
    | S fuel => drop_loop fuel (drop_oldest_frame jb)
    end
  else Some jb.

(** [for (i = want; i < got; i++)] of [switch_jb_put_packet] *)
Fixpoint mark_missing (n : nat) (i : Z) jb : switch_jb :=
  match n with
  | O => jb
  | S n => mark_missing n (i + 1) (missing_insert jb (htons (u16 i)) 1)
  end.

(** The part of [switch_jb_put_packet] for a video stream with NACKs. *)
Definition track_missing jb (want got : Z) : switch_jb :=
  let '(jb, nacked) := missing_delete jb (htons got) in
  let jb :=
    match nacked with
    | Some _ => if got <? ntohs (j_target_seq jb) then jb_frame_inc_line jb 1 else jb
    | None => jb
    end in
  let jb :=
    if got >? want then
      if (got - want >? j_max_frame_len jb) && (got - want >? 17) then switch_jb_reset jb
      else
        let jb := if j_frame_len jb <? got - want then jb_frame_inc_line jb 1 else jb in
        mark_missing (Z.to_nat (got - want)) want jb
    else jb in
  if (got >=? want) || (want - got >? 1000)
  then jb <| j_next_seq := htons (got + 1) |> else jb.

(** [switch_jb_put_packet] returns SWITCH_STATUS_SUCCESS on every path;
    [Ret None]: the loop that drops frames did not end. *)
Definition switch_jb_put_packet jb (packet : rtp_packet) (len : Z) : res (option switch_jb) :=
  let want := ntohs (j_next_seq jb) in
  let got := ntohs (p_seq packet) in
  let len := if len >=? sizeof_packet then sizeof_packet else len in
  if negb (j_highest_dropped_ts jb =? 0) && (ntohl (p_ts packet) <? j_highest_dropped_ts jb)
  then Ret (Some jb) else
  let jb := jb <| j_highest_dropped_ts := 0 |> in
  let want := if want =? 0 then got else want in
  let jb :=
    if test_flag (j_flags jb) SJB_QUEUE_ONLY || negb (is_video (j_type jb))
    then jb <| j_next_seq := htons (got + 1) |>
    else track_missing jb want got in
  jb <-! add_node jb packet len;;
  if test_flag (j_flags jb) SJB_QUEUE_ONLY && negb (j_max_packet_len jb =? 0)
     && (j_allocated_nodes jb >? u32 (j_max_frame_len jb * 2 - 1))
  then Ret (drop_loop (S (length (j_node_list jb))) jb)
  else Ret (Some jb).

Definition switch_jb_get_packet_by_seq jb (seq : Z) (packet : rtp_packet) (len : Z)
    : rtp_packet * Z * switch_status :=
  match hash_find_node jb (j_node_hash jb) seq with
  | Some node => ((n_packet node) <| p_version := 2 |>, n_len node, SWITCH_STATUS_SUCCESS)
  | None => (packet, len, SWITCH_STATUS_NOTFOUND)
  end.

Definition switch_jb_get_last_read_len jb : Z := j_last_len jb.

(** The adaptation of the bit rate at the end of a period. *)
Definition period_bitrate jb : switch_jb :=
  match j_channel jb with
  | Some depth =>
    if is_video (j_type jb) && negb (j_video_low_bitrate jb =? 0) then
      if negb (depth =? 0) && (j_frame_len jb =? j_min_frame_len jb)
      then request_refresh (jb <| j_channel := Some (depth - 1) |> <| j_bitrate_control := 0 |>)
      else if (depth =? 0) && (j_frame_len jb >? j_max_frame_len jb / 2)
      then
        let jb := jb <| j_bitrate_control := j_video_low_bitrate jb |> in
        let jb := jb <| j_log ::= fun l => l ++ [RequestBitrate (u32 (j_bitrate_control jb * 1024))] |> in
        request_refresh (jb <| j_channel := Some (depth + 1) |>)
      else jb
    else jb
  | None => jb
  end.

(** [if (++jb->period_count >= PERIOD_LEN)] *)
Definition period_step jb : switch_jb :=
  let jb := jb <| j_period_count ::= fun c => u32 (c + 1) |> in
  if j_period_count jb >=? PERIOD_LEN then
    let jb := if j_consec_good_count jb >=? PERIOD_LEN - 5 then jb_frame_inc_line jb (-1) else jb in
    period_bitrate
      (jb <| j_period_count := 1 |>
          <| j_period_miss_inc := 0 |>
          <| j_period_miss_count := 0 |>
          <| j_period_good_count := 0 |>
          <| j_consec_miss_count := 0 |>
          <| j_consec_good_count := 0 |>)
  else jb.

(** Bookkeeping of the newest packet read. *)
Definition note_read jb (node : jb_node) : switch_jb :=
  let seq := p_seq (n_packet node) in
  let ts := p_ts (n_packet node) in
  let jb := if negb (j_read_init jb) || check_seq seq (j_highest_read_seq jb)
            then jb <| j_highest_read_seq := seq |> else jb in
  let jb :=
    if negb (is_video (j_type jb)) ||
       (j_read_init jb && check_seq seq (j_highest_read_seq jb) && check_ts ts (j_highest_read_ts jb))
    then
      let jb := if negb (is_video (j_type jb))
                then jb <| j_complete_frames ::= fun c => u32 (c - 1) |> else jb in
      jb <| j_highest_read_ts := ts |>
    else if negb (j_read_init jb) then jb <| j_highest_read_ts := ts |> else jb in
  jb <| j_read_init := true |>.

(** The header [switch_jb_get_packet] fills in to ask for concealment. *)
Definition plc_header jb (packet : rtp_packet) : rtp_packet :=
  if negb (j_samples_per_frame jb =? 0)
  then packet <| p_seq := htons (j_last_psuedo_seq jb) |> <| p_ts := j_last_target_ts jb |>
  else packet <| p_seq := j_last_target_seq jb |> <| p_ts := 0 |>.

(** [switch_jb_get_packet] up to the label [end]; the flag is [plc]. *)
Definition get_packet_locked jb (packet : rtp_packet) (len : Z)
    : switch_jb * rtp_packet * Z * switch_status * bool :=
  if j_complete_frames jb =? 0 then
    (jb <| j_flush := 0 |>, packet, len, SWITCH_STATUS_BREAK, false)
  else
  let jb := if j_complete_frames jb <? j_frame_len jb then (switch_jb_poll jb).1 else jb in
  if (j_complete_frames jb <? j_frame_len jb) && (j_flush jb =? 0) then
    (jb, packet, len, SWITCH_STATUS_MORE_DATA, false)
  else
  let jb := period_step jb in
  match jb_next_packet jb with
  | (jb, Some node) =>
    let jb := note_read jb node in
    let jb := jb <| j_last_len := n_len node |> in
    (hide_node jb node true, (n_packet node) <| p_version := 2 |>, n_len node,
     SWITCH_STATUS_SUCCESS, false)
  | (jb, None) =>
    if is_video (j_type jb) then (jb, packet, len, SWITCH_STATUS_MORE_DATA, false)
    else if j_consec_miss_count jb >? j_frame_len jb
    then (jb_frame_inc_line jb 1, packet, len, SWITCH_STATUS_RESTART, false)
    else (jb, packet, len, SWITCH_STATUS_NOTFOUND, true)
  end.

Definition switch_jb_get_packet jb (packet : rtp_packet) (len : Z)
    : switch_jb * rtp_packet * Z * switch_status :=
  let '(jb, packet, len, status, plc) := get_packet_locked jb packet len in
  let packet := if plc then plc_header jb packet else packet in
  if is_video (j_type jb) then
    (if j_complete_frames jb >? u32 (j_max_frame_len jb * 2) then switch_jb_reset jb else jb,
     packet, len, status)
  else
    (jb, packet, len,
     (* (int)(jb->max_frame_len * 1.5) *)
     if (j_visible_nodes jb >? j_max_frame_len jb * 3 / 2) && bool_decide (status = SWITCH_STATUS_SUCCESS)
     then SWITCH_STATUS_TIMEOUT else status).

End JitterBuffer.
