(* ===== verification/JbInv.v ===== *)
(** * JbInv: invariants of the jitter buffer

    The node store (list, counters and tables) stays consistent under every
    operation; hiding, sorting and resetting have exact descriptions. *)
From S2P Require Import Prelude CoreHash JbSort JitterBuffer.
From Stdlib Require Import ZArith Lia Permutation Sorted.
From stdpp Require Import base numbers option list.

Local Open Scope Z_scope.

(** ** Node lists *)
Definition ids (l : list jb_node) : list nat := map n_id l.

Lemma get_node_Some l id n : NoDup (ids l) -> get_node l id = Some n <-> n ∈ l /\ n_id n = id.
Proof.
  intros Hnd. unfold get_node. split.
  - intros [Hin Hid%Nat.eqb_eq]%List.find_some. by rewrite list_elem_of_In.
  - intros [Hin <-]. induction l as [|a l IH]; [by apply elem_of_nil in Hin|].
    simpl in *. apply NoDup_cons in Hnd as [Hna Hnd].
    apply elem_of_cons in Hin as [->|Hin]; [by rewrite Nat.eqb_refl|].
    case_if E; [|by apply IH]. apply Nat.eqb_eq in E. destruct Hna. rewrite E.
    apply list_elem_of_In, in_map. by apply list_elem_of_In.
Qed.

Lemma upd_node_ids f id l : (forall n, n_id (f n) = n_id n) -> ids (upd_node id f l) = ids l.
Proof. intros Hf. unfold ids, upd_node. rewrite map_map. apply map_ext. intros n. case_if E; auto. Qed.

Lemma upd_node_absent f id l : id ∉ ids l -> upd_node id f l = l.
Proof.
  induction l as [|a l IH]; simpl; [done|]. intros [Ha Hl]%not_elem_of_cons.
  rewrite IH by done. by rewrite (proj2 (Nat.eqb_neq _ _)) by done.
Qed.

(** Updating a node of a list with distinct identities changes that node only. *)
Lemma upd_node_split f l1 n l2 : NoDup (ids (l1 ++ n :: l2)) ->
  upd_node (n_id n) f (l1 ++ n :: l2) = l1 ++ f n :: l2.
Proof.
  unfold ids. rewrite map_app, NoDup_app. simpl. rewrite NoDup_cons. intros (_ & Hd & Hn & _).
  unfold upd_node. rewrite map_app. simpl. rewrite Nat.eqb_refl.
  fold (upd_node (n_id n) f l1) (upd_node (n_id n) f l2).
  rewrite !upd_node_absent; [done|done|]. intros Hin. apply (Hd _ Hin), elem_of_cons. by left.
Qed.

Lemma remove_node_split l1 n l2 : NoDup (ids (l1 ++ n :: l2)) ->
  remove_node (n_id n) (l1 ++ n :: l2) = l1 ++ l2.
Proof.
  unfold ids. rewrite map_app, NoDup_app. simpl. rewrite NoDup_cons. intros (_ & Hd & Hn & _).
  assert (Hr : forall l, n_id n ∉ map n_id l -> remove_node (n_id n) l = l).
  { clear. induction l as [|a l IH]; simpl; [done|]. intros [Ha Hl]%not_elem_of_cons.
    rewrite IH by done. by rewrite (proj2 (Nat.eqb_neq _ _)) by done. }
  unfold remove_node. rewrite List.filter_app. simpl. rewrite Nat.eqb_refl. simpl.
  fold (remove_node (n_id n) l1) (remove_node (n_id n) l2).
  rewrite !Hr; [done|done|]. intros Hin. apply (Hd _ Hin), elem_of_cons. by left.
Qed.

Definition visibles (l : list jb_node) : list jb_node := List.filter n_visible l.
Abbreviation seq_of n := (p_seq (n_packet n)).

Lemma visibles_app l1 l2 : visibles (l1 ++ l2) = visibles l1 ++ visibles l2.
Proof. apply List.filter_app. Qed.
Lemma visibles_perm l l' : l ≡ₚ l' -> visibles l ≡ₚ visibles l'.
Proof. induction 1; simpl; repeat case_match; eauto using Permutation, perm_trans. Qed.
Lemma elem_visibles n l : n ∈ visibles l <-> n ∈ l /\ n_visible n = true.
Proof. unfold visibles. by rewrite !list_elem_of_In, filter_In. Qed.

(** ** Sorting *)
#[export] Instance node_cmp_preorder : TotalPreorder node_cmp.
Proof.
  split.
  - intros a b. unfold le_cmp, node_cmp. destruct (n_visible a), (n_visible b); simpl; lia.
  - intros a b c. unfold le_cmp, node_cmp.
    destruct (n_visible a), (n_visible b), (n_visible c); simpl; lia.
Qed.

(** ** The invariant of the node store *)
Section Inv.
Context {H : Type -> Type} `{!IntHash H} `{!IntHashLaws H}.
Implicit Types jb : switch_jb (H:=H).

(** The part of the buffer that the store's invariant is about. *)
Record store := mk_store {
  s_nodes : list jb_node;
  s_visible : Z;
  s_allocated : Z;
  s_hash : H nat;
  s_hash_ts : option (H nat)
}.
Definition store_of jb : store :=
  mk_store (j_node_list jb) (j_visible_nodes jb) (j_allocated_nodes jb) (j_node_hash jb)
    (j_node_hash_ts jb).

Definition node_ok (n : jb_node) : Prop := 0 <= seq_of n < 65536.

(** Identities are distinct and less than the number of nodes, the counters
    count the nodes and the visible nodes, and no table holds a pointer to
    something that is not a node. *)
Record store_ok (s : store) : Prop := {
  so_ids : ids (s_nodes s) ≡ₚ List.seq 0 (length (s_nodes s));
  so_allocated : s_allocated s = u32 (zlen (s_nodes s));
  so_visible : s_visible s = u32 (zlen (visibles (s_nodes s)));
  so_nodes : Forall node_ok (s_nodes s);
  so_hash : ih_ok (s_hash s);
  so_hash_ts : forall h, s_hash_ts s = Some h -> ih_ok h;
  so_pointers : forall k id, ih_find (s_hash s) k = Some id -> id ∈ ids (s_nodes s);
  so_pointers_ts : forall h k id, s_hash_ts s = Some h -> ih_find h k = Some id ->
    id ∈ ids (s_nodes s)
}.

(** Each entry of the table by sequence number leads to a visible node that
    holds a packet with that number. *)
Definition hash_sound (s : store) : Prop :=
  forall k id, ih_find (s_hash s) k = Some id ->
  exists n, n ∈ s_nodes s /\ n_id n = id /\ n_visible n = true /\ seq_of n = u32 k.

Lemma store_ids_NoDup s : store_ok s -> NoDup (ids (s_nodes s)).
Proof. intros Hs. rewrite (so_ids _ Hs). apply NoDup_ListNoDup, seq_NoDup. Qed.

Lemma jb_ids_NoDup jb : store_ok (store_of jb) -> NoDup (ids (j_node_list jb)).
Proof. apply (store_ids_NoDup (store_of jb)). Qed.

Lemma u32_sub_1 z : u32 (u32 z - 1) = u32 (z - 1).
Proof. unfold u32. by rewrite Zminus_mod_idemp_l. Qed.
Lemma u32_add_1 z : u32 (u32 z + 1) = u32 (z + 1).
Proof. unfold u32. by rewrite Zplus_mod_idemp_l. Qed.

(** ** Hiding *)
Definition hid (n : jb_node) : jb_node := if n_visible n then hidden n else n.

Lemma hid_id n : n_id (hid n) = n_id n.
Proof. unfold hid. by case_if E. Qed.
Lemma hid_invisible n : n_visible (hid n) = false.
Proof. unfold hid. by case_if E. Qed.
Lemma hid_packet n : n_packet (hid n) = n_packet n.
Proof. unfold hid. by case_if E. Qed.

(** [jb'] is [jb] with another node store and frame count. *)
Definition with_store jb (s : store) (frames : Z) : switch_jb (H:=H) :=
  jb <| j_node_list := s_nodes s |> <| j_visible_nodes := s_visible s |>
     <| j_allocated_nodes := s_allocated s |> <| j_node_hash := s_hash s |>
     <| j_node_hash_ts := s_hash_ts s |> <| j_complete_frames := frames |>.
Definition store_only jb jb' : Prop := jb' = with_store jb (store_of jb') (j_complete_frames jb').

#[export] Instance store_only_preorder : PreOrder store_only.
Proof.
  split.
  - by intros [].
  - intros j1 j2 j3 H12 H23. unfold store_only in *. rewrite H12 in H23. by destruct j1, j3.
Qed.

Definition hash_sub (h' h : H nat) : Prop :=
  ih_ok h' /\ forall k id, ih_find h' k = Some id -> ih_find h k = Some id.

Lemma hash_sub_delete (h : H nat) k : ih_ok h -> hash_sub (ih_delete h k).1 h.
Proof.
  intros Hok. split; [by apply ih_delete_ok|]. intros k' id.
  rewrite ih_find_delete by done. by case_if E.
Qed.

(** A store whose nodes keep their identities and whose tables lose entries
    only stays consistent. *)
Lemma store_ok_update s s' : store_ok s ->
  ids (s_nodes s') ≡ₚ ids (s_nodes s) -> s_allocated s' = s_allocated s ->
  s_visible s' = u32 (zlen (visibles (s_nodes s'))) -> Forall node_ok (s_nodes s') ->
  hash_sub (s_hash s') (s_hash s) ->
  (forall h', s_hash_ts s' = Some h' -> exists h, s_hash_ts s = Some h /\ hash_sub h' h) ->
  store_ok s'.
Proof.
  intros Hs Hids Ha Hv Hn [Hok Hsub] Hts.
  assert (Hlen : length (s_nodes s') = length (s_nodes s)).
  { apply Permutation_length in Hids. unfold ids in Hids. by rewrite !length_map in Hids. }
  split; try done.
  - by rewrite Hids, Hlen, (so_ids _ Hs).
  - unfold zlen. rewrite Hlen, Ha. apply (so_allocated _ Hs).
  - intros h (h0 & _ & Hh & _)%Hts. done.
  - intros k id Hf%Hsub. rewrite Hids. by apply (so_pointers _ Hs k).
  - intros h k id (h0 & Hh0 & _ & Hh)%Hts Hf%Hh. rewrite Hids. by apply (so_pointers_ts _ Hs h0 k).
Qed.

Lemma unhash_store jb n :
  store_only jb (unhash_node jb n) /\
  store_of (unhash_node jb n) =
    mk_store (j_node_list jb) (j_visible_nodes jb) (j_allocated_nodes jb)
      (ih_delete (j_node_hash jb) (seq_of n)).1
      (option_map (fun h => (ih_delete h (p_ts (n_packet n))).1) (j_node_hash_ts jb)).
Proof.
  unfold unhash_node. simpl.
  destruct (ih_delete (j_node_hash jb) (seq_of n)) as [h [v|]]; simpl; [|split; by destruct jb].
  case_if E; split; by destruct jb.
Qed.

Definition hide_nodes_of (pop : bool) l1 n l2 : list jb_node :=
  if n_visible n && pop then hid n :: l1 ++ l2 else l1 ++ hid n :: l2.

Lemma hide_node_store jb pop l1 n l2 : NoDup (ids (j_node_list jb)) ->
  j_node_list jb = l1 ++ n :: l2 ->
  store_only jb (hide_node jb n pop) /\
  store_of (hide_node jb n pop) =
    mk_store (hide_nodes_of pop l1 n l2)
      (if n_visible n then u32 (j_visible_nodes jb - 1) else j_visible_nodes jb)
      (j_allocated_nodes jb) (ih_delete (j_node_hash jb) (seq_of n)).1
      (option_map (fun h => (ih_delete h (p_ts (n_packet n))).1) (j_node_hash_ts jb)).
Proof.
  intros Hnd Hl. unfold hide_node, hide_nodes_of. cbv zeta.
  match goal with |- context [unhash_node ?j n] => destruct (unhash_store j n) as [Ho ->] end.
  split.
  - etransitivity; [|exact Ho]. clear Ho. unfold hid.
    destruct (n_visible n), pop; by destruct jb.
  - clear Ho. unfold hid. destruct (n_visible n) eqn:E; simpl; [|by rewrite Hl].
    rewrite Hl in Hnd. destruct pop; simpl; rewrite Hl, upd_node_split by done; [|done].
    f_equal. f_equal. apply (remove_node_split l1 (hidden n) l2).
    unfold ids in *. rewrite map_app in *. done.
Qed.

Lemma hid_ok n : node_ok n -> node_ok (hid n).
Proof. unfold node_ok. by rewrite hid_packet. Qed.

Lemma hide_nodes_of_perm pop l1 n l2 : hide_nodes_of pop l1 n l2 ≡ₚ l1 ++ hid n :: l2.
Proof. unfold hide_nodes_of. case_if E; [|done]. by rewrite Permutation_middle. Qed.

Lemma hide_node_ok jb pop l1 n l2 : store_ok (store_of jb) -> j_node_list jb = l1 ++ n :: l2 ->
  store_ok (store_of (hide_node jb n pop)).
Proof.
  intros Hs Hl. pose proof (store_ids_NoDup _ Hs) as Hnd.
  destruct (hide_node_store jb pop l1 n l2 Hnd Hl) as [_ ->].
  pose proof (so_nodes _ Hs) as Hn. pose proof (so_visible _ Hs) as Hv. simpl in *. rewrite Hl in *.
  apply (store_ok_update _ _ Hs); simpl; rewrite ?Hl.
  - unfold ids. rewrite hide_nodes_of_perm. rewrite !map_app. simpl. by rewrite hid_id.
  - done.
  - rewrite Hv. unfold zlen. rewrite (Permutation_length (visibles_perm _ _ (hide_nodes_of_perm _ _ _ _))).
    rewrite !visibles_app, !length_app. simpl. rewrite hid_invisible.
    case_if E; [|done]. rewrite u32_sub_1. f_equal. simpl. lia.
  - rewrite hide_nodes_of_perm. apply Forall_app in Hn as [Hn1 [Hn2 Hn3]%Forall_cons].
    apply Forall_app. split; [done|]. apply Forall_cons. split; [by apply hid_ok|done].
  - apply hash_sub_delete, (so_hash _ Hs).
  - intros h'. destruct (j_node_hash_ts jb) as [h|] eqn:E; [|done]. intros [= <-].
    exists h. split; [done|]. apply hash_sub_delete. by apply (so_hash_ts _ Hs).
Qed.

(** The loop over the nodes that satisfy [sel]. *)
Lemma fold_hide (sel : jb_node -> bool) l : forall pre jb, j_node_list jb = pre ++ l -> store_ok (store_of jb) ->
  let jb' := fold_left (fun jb np => if sel np then hide_node jb np false else jb) l jb in
  store_ok (store_of jb') /\ store_only jb jb' /\
  j_node_list jb' = pre ++ map (fun n => if sel n then hid n else n) l /\
  forall k id, ih_find (j_node_hash jb') k = Some id ->
    ih_find (j_node_hash jb) k = Some id /\
    forall n, n ∈ l -> sel n = true -> u32 (seq_of n) <> u32 k.
Proof.
  induction l as [|n l IH]; intros pre jb Hl Hs; simpl.
  - split; [done|]. split; [done|]. split; [by rewrite Hl|].
    intros k id Hf. split; [done|]. intros n Hn. by apply elem_of_nil in Hn.
  - set (jb1 := if sel n then hide_node jb n false else jb).
    assert (H1 : store_ok (store_of jb1) /\ store_only jb jb1 /\
      j_node_list jb1 = pre ++ (if sel n then hid n else n) :: l /\
      forall k id, ih_find (j_node_hash jb1) k = Some id ->
        ih_find (j_node_hash jb) k = Some id /\ (sel n = true -> u32 (seq_of n) <> u32 k)).
    { unfold jb1. destruct (sel n) eqn:E; [|by split_and!].
      destruct (hide_node_store jb false pre n l) as [Ho Hst]; [by apply jb_ids_NoDup|done|].
      split; [by eapply hide_node_ok|]. split; [done|].
      assert (Hh := f_equal s_hash Hst). assert (Hn := f_equal s_nodes Hst). simpl in *.
      split; [rewrite Hn; unfold hide_nodes_of; by rewrite andb_false_r|].
      intros k id. rewrite Hh, ih_find_delete by apply (so_hash _ Hs). case_if Ek; [done|].
      intros Hf. split; [done|]. by apply Z.eqb_neq in Ek. }
    destruct H1 as (Hs1 & Ho1 & Hl1 & Hf1).
    destruct (IH (pre ++ [if sel n then hid n else n]) jb1) as (Hs2 & Ho2 & Hl2 & Hf2); [|done|].
    { by rewrite Hl1, <- app_assoc. }
    split; [done|]. split; [by etransitivity|]. split; [by rewrite Hl2, <- app_assoc|].
    intros k id Hf. destruct (Hf2 k id Hf) as [Hfa Hfb]. destruct (Hf1 k id Hfa) as [Hfc Hfd].
    split; [done|]. intros n' [->|Hn']%elem_of_cons; auto.
Qed.

Lemma hide_where_spec (sel : jb_node -> bool) jb : store_ok (store_of jb) ->
  let jb' := hide_where sel jb in
  store_ok (store_of jb') /\ store_only jb jb' /\
  j_node_list jb' = map (fun n => if sel n then hid n else n) (j_node_list jb) /\
  forall k id, ih_find (j_node_hash jb') k = Some id ->
    ih_find (j_node_hash jb) k = Some id /\
    forall n, n ∈ j_node_list jb -> sel n = true -> u32 (seq_of n) <> u32 k.
Proof. intros Hs. by apply (fold_hide sel (j_node_list jb) [] jb). Qed.

Lemma u32_u32 z : u32 (u32 z) = u32 z.
Proof. apply u32_small, u32_range. Qed.

Lemma hide_where_sound sel jb : store_ok (store_of jb) -> hash_sound (store_of jb) ->
  hash_sound (store_of (hide_where sel jb)).
Proof.
  intros Hs Hh k id Hf. destruct (hide_where_spec sel jb Hs) as (_ & _ & Hl & Hk).
  simpl in *. destruct (Hk k id Hf) as [Hf' Hsel].
  destruct (Hh k id Hf') as (n & Hin & Hid & Hv & Hseq). exists n. simpl in *. rewrite Hl.
  split; [|done]. apply list_elem_of_In, in_map_iff. exists n.
  split; [|by apply list_elem_of_In]. case_if E; [|done].
  destruct (Hsel n Hin E). by rewrite Hseq, u32_u32.
Qed.

Lemma sort_free_nodes_spec jb : exists l, sort_free_nodes jb = jb <| j_node_list := l |> /\
  l ≡ₚ j_node_list jb /\ StronglySorted (le_cmp node_cmp) l.
Proof.
  unfold sort_free_nodes. destruct (sort_nodes_spec node_cmp (j_node_list jb)) as (l & -> & Hp & Hst).
  by exists l.
Qed.

Lemma sort_free_nodes_ok jb : store_ok (store_of jb) -> store_ok (store_of (sort_free_nodes jb)).
Proof.
  intros Hs. destruct (sort_free_nodes_spec jb) as (l & -> & Hp & _).
  apply (store_ok_update _ _ Hs); simpl.
  - unfold ids. by rewrite Hp.
  - done.
  - pose proof (so_visible _ Hs) as Hv. simpl in Hv. rewrite Hv. unfold zlen. by rewrite (Permutation_length (visibles_perm _ _ Hp)).
  - rewrite Hp. apply (so_nodes _ Hs).
  - split; [apply (so_hash _ Hs)|done].
  - intros h Hh. exists h. split; [done|]. split; [by apply (so_hash_ts _ Hs)|done].
Qed.

Lemma sort_free_nodes_sound jb : hash_sound (store_of jb) -> hash_sound (store_of (sort_free_nodes jb)).
Proof.
  intros Hh k id. destruct (sort_free_nodes_spec jb) as (l & -> & Hp & _). simpl. intros Hf.
  destruct (Hh k id Hf) as (n & Hin & ?). exists n. simpl in *. by rewrite Hp.
Qed.

Definition ts_sel (ts : Z) (np : jb_node) : bool := n_visible np && (ts =? p_ts (n_packet np)).

(** Dropping a timestamp hides the visible nodes that carry it. *)
Lemma drop_ts_spec jb ts : store_ok (store_of jb) ->
  let jb' := drop_ts jb ts in
  store_ok (store_of jb') /\ store_only jb jb' /\
  j_node_list jb' ≡ₚ map (fun n => if ts_sel ts n then hid n else n) (j_node_list jb) /\
  (hash_sound (store_of jb) -> hash_sound (store_of jb')).
Proof.
  intros Hs. unfold drop_ts. fold (ts_sel ts).
  destruct (hide_where_spec (ts_sel ts) jb Hs) as (Hs' & Ho & Hl & _).
  pose proof (hide_where_sound (ts_sel ts) jb Hs) as Hh.
  cbv zeta. case_if E; [|split_and!; [done..| by rewrite Hl|done]].
  split; [by apply sort_free_nodes_ok|].
  destruct (sort_free_nodes_spec (hide_where (ts_sel ts) jb)) as (l & Hsort & Hp & _).
  split_and!.
  - etransitivity; [done|]. rewrite Hsort. by destruct (hide_where (ts_sel ts) jb).
  - rewrite Hsort. simpl. by rewrite Hp, Hl.
  - intros Hsound. by apply sort_free_nodes_sound, Hh.
Qed.

(** ** Reset *)
Definition config jb : jb_type * Z * Z * Z * Z * Z * Z * Z :=
  (j_type jb, j_frame_len jb, j_min_frame_len jb, j_max_frame_len jb, j_flags jb,
   j_samples_per_frame jb, j_max_packet_len jb, j_highest_dropped_ts jb).

Lemma request_refresh_store jb : store_of (request_refresh jb) = store_of jb.
Proof. unfold request_refresh. by case_if E. Qed.

Lemma visibles_hid l : visibles (map hid l) = [].
Proof. induction l as [|n l IH]; simpl; [done|]. by rewrite hid_invisible. Qed.

Lemma reset_spec jb : store_ok (store_of jb) ->
  let jb' := switch_jb_reset jb in
  store_ok (store_of jb') /\ j_node_list jb' = map hid (j_node_list jb) /\
  (hash_sound (store_of jb) -> forall k, ih_find (j_node_hash jb') k = None) /\
  config jb' = config jb /\ j_target_seq jb' = 0 /\ j_complete_frames jb' = 0 /\
  j_visible_nodes jb' = 0 /\ j_write_init jb' = false /\ j_read_init jb' = false /\
  j_next_seq jb' = 0 /\ j_dropped jb' = j_dropped jb.
Proof.
  intros Hs. unfold switch_jb_reset, hide_nodes.
  set (jb1 := if is_video (j_type jb) then _ else jb).
  assert (Hst : store_of jb1 = store_of jb).
  { unfold jb1. case_if E; [|done]. by rewrite request_refresh_store. }
  assert (Hc : config jb1 = config jb /\ j_dropped jb1 = j_dropped jb).
  { unfold jb1, request_refresh. repeat case_match; done. }
  rewrite <- Hst in *. assert (Hn1 : j_node_list jb = j_node_list jb1) by apply (f_equal s_nodes (eq_sym Hst)).
  clearbody jb1. destruct (hide_where_spec (fun _ => true) jb1 Hs) as (Hs' & Ho & Hl & Hk).
  destruct Hc as [<- <-]. rewrite Hn1. clear Hst Hn1. pose proof (so_visible _ Hs') as Hv. simpl in *.
  split; [done|]. split; [done|].
  split_and!; try done.
  - intros Hsound k. destruct (ih_find _ k) as [id|] eqn:Ef; [|done].
    destruct (Hk k id Ef) as [Hf Hne]. destruct (Hsound k id Hf) as (n & Hin & _ & _ & Hseq).
    destruct (Hne n Hin eq_refl). by rewrite Hseq, u32_u32.
  - by rewrite Ho.
  - rewrite Hv, Hl, visibles_hid. done.
  - by rewrite Ho.
Qed.

(** ** Adding *)
Lemma find_invisible l np : List.find (fun np => negb (n_visible np)) l = Some np ->
  n_visible np = false /\ exists l1 l2, l = l1 ++ np :: l2.
Proof.
  intros [Hin Hv]%List.find_some. split; [by apply negb_true_iff|]. by apply in_split.
Qed.

Lemma none_invisible l : List.find (fun np => negb (n_visible np)) l = None -> visibles l = l.
Proof.
  intros Hf. unfold visibles. induction l as [|n l IH]; [done|]. simpl in *.
  destruct (n_visible n); [|done]. simpl in Hf. by rewrite IH.
Qed.

(** A new node is visible, and beside it the visible nodes are the old ones. *)
Definition grown jb jb' (l1 : list jb_node) (n : jb_node) (l2 : list jb_node) : Prop :=
  j_node_list jb' = l1 ++ n :: l2 /\ n_visible n = true /\
  visibles (l1 ++ l2) = visibles (j_node_list jb) /\
  (forall m, m ∈ j_node_list jb -> n_visible m = true -> m ∈ l1 ++ l2) /\
  j_node_hash jb' = j_node_hash jb /\ j_node_hash_ts jb' = j_node_hash_ts jb.

Lemma zlen_visibles_grow l1 n l2 : n_visible n = true ->
  zlen (visibles (l1 ++ n :: l2)) = zlen (visibles (l1 ++ l2)) + 1.
Proof. intros Hv. unfold zlen. rewrite !visibles_app, !length_app. simpl. rewrite Hv. simpl. lia. Qed.

Lemma new_node_reuse jb np l1 l2 : store_ok (store_of jb) -> n_visible np = false ->
  j_node_list jb = l1 ++ np :: l2 ->
  let jb' := jb <| j_node_list ::= upd_node (n_id np) shown |>
                <| j_visible_nodes ::= fun v => u32 (v + 1) |> in
  store_ok (store_of jb') /\ store_only jb jb' /\ grown jb jb' l1 (shown np) l2.
Proof.
  intros Hs Hv Hl. pose proof (jb_ids_NoDup _ Hs) as Hnd.
  pose proof (so_visible _ Hs) as Hvis. pose proof (so_nodes _ Hs) as Hn. simpl in Hvis, Hn.
  rewrite Hl in Hnd, Hvis, Hn.
  assert (Hold : visibles (l1 ++ np :: l2) = visibles (l1 ++ l2)).
  { rewrite !visibles_app. simpl. by rewrite Hv. }
  cbv zeta. split_and!; [|by destruct jb|].
  - apply (store_ok_update _ _ Hs); simpl; rewrite ?Hl, ?upd_node_split by done.
    + unfold ids. by rewrite !map_app.
    + done.
    + rewrite Hvis, u32_add_1, Hold. by rewrite (zlen_visibles_grow l1 (shown np)).
    + apply Forall_app in Hn as [Hn1 [Hn2 Hn3]%Forall_cons]. apply Forall_app. split; [done|].
      by apply Forall_cons.
    + split; [apply (so_hash _ Hs)|done].
    + intros h Hh. exists h. split; [done|]. split; [by apply (so_hash_ts _ Hs)|done].
  - unfold grown. simpl. rewrite Hl, upd_node_split by done. split_and!; try done.
    intros m Hm Hmv. apply elem_of_app in Hm as [Hm|[->|Hm]%elem_of_cons];
      [apply elem_of_app; by left|by rewrite Hv in Hmv|apply elem_of_app; by right].
Qed.

Lemma new_node_fresh jb : store_ok (store_of jb) -> visibles (j_node_list jb) = j_node_list jb ->
  let id := length (j_node_list jb) in
  let jb' := jb <| j_allocated_nodes ::= fun a => u32 (a + 1) |>
                <| j_node_list ::= fun l => shown (blank_node id) :: l |>
                <| j_visible_nodes ::= fun v => u32 (v + 1) |> in
  store_ok (store_of jb') /\ store_only jb jb' /\
  grown jb jb' [] (shown (blank_node id)) (j_node_list jb).
Proof.
  intros Hs Hall. cbv zeta.
  pose proof (so_visible _ Hs) as Hvis. pose proof (so_allocated _ Hs) as Hal. simpl in Hvis, Hal.
  split_and!; [|by destruct jb|by unfold grown; split_and!].
  split; simpl.
  - change (0%nat :: List.seq 1 ?n) with (List.seq 0 (S n)). rewrite List.seq_S.
    pose proof (so_ids _ Hs) as Hids. simpl in Hids. rewrite Hids. apply Permutation_cons_append.
  - rewrite Hal, u32_add_1. f_equal. unfold zlen. simpl. lia.
  - rewrite Hvis, u32_add_1. f_equal. symmetry.
    by apply (zlen_visibles_grow [] (shown (blank_node (length (j_node_list jb)))) (j_node_list jb)).
  - apply Forall_cons. split; [by unfold node_ok|]. apply (so_nodes _ Hs).
  - apply (so_hash _ Hs).
  - apply (so_hash_ts _ Hs).
  - intros k id Hf. apply elem_of_cons. right. by apply (so_pointers _ Hs k).
  - intros h k id Hh Hf. apply elem_of_cons. right. by apply (so_pointers_ts _ Hs h k).
Qed.

Inductive new_node_case jb : switch_jb * option nat -> Prop :=
| new_full :
    visibles (j_node_list jb) = j_node_list jb ->
    j_allocated_nodes jb > u32 (j_max_frame_len jb * node_mult jb) ->
    new_node_case jb (switch_jb_reset jb, None)
| new_got jb' l1 n l2 :
    store_ok (store_of jb') -> store_only jb jb' -> j_complete_frames jb' = j_complete_frames jb ->
    grown jb jb' l1 n l2 ->
    new_node_case jb (jb', Some (n_id n)).

Lemma new_node_cases jb : store_ok (store_of jb) -> new_node_case jb (new_node jb).
Proof.
  intros Hs. unfold new_node. destruct (List.find _ _) as [np|] eqn:Ef.
  - apply find_invisible in Ef as (Hv & l1 & l2 & Hl).
    destruct (new_node_reuse jb np l1 l2 Hs Hv Hl) as (Hs' & Ho & Hg). cbv zeta.
    by apply (new_got jb _ l1 (shown np) l2).
  - apply none_invisible in Ef. case_if E.
    + apply new_full; [done|]. lia.
    + destruct (new_node_fresh jb Hs Ef) as (Hs' & Ho & Hg). cbv zeta.
      by apply (new_got jb _ [] (shown (blank_node (length (j_node_list jb)))) (j_node_list jb)).
Qed.

(** The assignments of [add_node] between [new_node] and the test for a new
    stream. *)
Definition fill (packet : rtp_packet) (len : Z) (n : jb_node) : jb_node :=
  n <| n_packet := packet |> <| n_len := u32 len |>.
Definition place jb (id : nat) (packet : rtp_packet) (len : Z) : switch_jb (H:=H) :=
  jb <| j_node_list ::= upd_node id (fill packet len) |>
     <| j_node_hash ::= fun h => ih_insert h (p_seq packet) id |>
     <| j_node_hash_ts ::= option_map (fun h => ih_insert h (p_ts packet) id) |>.

Lemma place_ok jb l1 n l2 packet len : store_ok (store_of jb) ->
  0 <= p_seq packet < 65536 -> j_node_list jb = l1 ++ n :: l2 -> n_visible n = true ->
  let jb' := place jb (n_id n) packet len in
  store_ok (store_of jb') /\ store_only jb jb' /\
  j_node_list jb' = l1 ++ fill packet len n :: l2.
Proof.
  intros Hs Hp Hl Hv. pose proof (jb_ids_NoDup _ Hs) as Hnd.
  assert (Hl' : j_node_list (place jb (n_id n) packet len) = l1 ++ fill packet len n :: l2).
  { simpl. rewrite Hl in *. by rewrite upd_node_split. }
  assert (Hids : ids (l1 ++ fill packet len n :: l2) = ids (l1 ++ n :: l2)).
  { unfold ids. by rewrite !map_app. }
  assert (Hin : n_id n ∈ ids (l1 ++ n :: l2)).
  { unfold ids. rewrite map_app. simpl. rewrite elem_of_app, elem_of_cons. by right; left. }
  split_and!; [|by destruct jb|done].
  pose proof (so_ids _ Hs) as H1. pose proof (so_allocated _ Hs) as H2.
  pose proof (so_visible _ Hs) as H3. pose proof (so_nodes _ Hs) as H4. simpl in *.
  rewrite Hl in H1, H2, H3, H4.
  split; simpl; rewrite ?Hl'.
  - rewrite Hids, H1, !length_app. done.
  - rewrite H2. unfold zlen. by rewrite !length_app.
  - rewrite H3. unfold zlen. rewrite !visibles_app, !length_app. simpl. rewrite Hv. done.
  - apply Forall_app in H4 as [H41 [H42 H43]%Forall_cons]. apply Forall_app. split; [done|].
    by apply Forall_cons.
  - apply ih_insert_ok, (so_hash _ Hs).
  - intros h. destruct (j_node_hash_ts jb) as [h0|] eqn:E; [|done]. intros [= <-].
    apply ih_insert_ok. by apply (so_hash_ts _ Hs).
  - intros k id. rewrite ih_find_insert by apply (so_hash _ Hs). rewrite Hids.
    case_if E; [by intros [= <-]|]. intros Hf. rewrite <- Hl. by apply (so_pointers _ Hs k).
  - intros h k id. destruct (j_node_hash_ts jb) as [h0|] eqn:E; [|done]. intros [= <-].
    rewrite ih_find_insert by (by apply (so_hash_ts _ Hs)). rewrite Hids.
    case_if E'; [by intros [= <-]|]. intros Hf. rewrite <- Hl. by apply (so_pointers_ts _ Hs h0 k).
Qed.

Lemma place_sound jb jb1 l1 n l2 packet len : store_ok (store_of jb) -> store_ok (store_of jb1) ->
  hash_sound (store_of jb) -> 0 <= p_seq packet < 65536 -> grown jb jb1 l1 n l2 ->
  hash_sound (store_of (place jb1 (n_id n) packet len)).
Proof.
  intros Hs Hs1 Hh Hp (Hl & Hv & _ & Hold & Hhash & _) k id Hf.
  destruct (place_ok jb1 l1 n l2 packet len Hs1 Hp Hl Hv) as (_ & _ & Hl'). simpl in *.
  rewrite Hl'. rewrite Hhash, ih_find_insert in Hf by apply (so_hash _ Hs).
  case_if_in Hf E.
  - apply Z.eqb_eq in E. injection Hf as <-. exists (fill packet len n).
    split_and!; [rewrite elem_of_app, elem_of_cons; by right; left|done|done|].
    simpl. rewrite <- E. symmetry. apply u32_small. lia.
  - destruct (Hh k id Hf) as (m & Hm & Hid & Hmv & Hseq). exists m. simpl in *.
    split; [|done]. specialize (Hold m Hm Hmv). rewrite elem_of_app in Hold.
    rewrite elem_of_app, elem_of_cons. destruct Hold; auto.
Qed.

(** Marking a node leaves identities, visibility and sequence numbers alone. *)
Definition same_shape (f : jb_node -> jb_node) : Prop :=
  forall n, n_id (f n) = n_id n /\ n_visible (f n) = n_visible n /\ seq_of (f n) = seq_of n.

Lemma upd_ok s id f :
  (forall n, n_id (f n) = n_id n /\ n_visible (f n) = n_visible n /\ (node_ok n -> node_ok (f n))) ->
  store_ok s ->
  store_ok (mk_store (upd_node id f (s_nodes s)) (s_visible s) (s_allocated s) (s_hash s) (s_hash_ts s)).
Proof.
  intros Hf Hs. apply (store_ok_update _ _ Hs); simpl.
  - rewrite upd_node_ids; [done|]. apply Hf.
  - done.
  - rewrite (so_visible _ Hs). f_equal. unfold zlen. f_equal. clear Hs.
    induction (s_nodes s) as [|n l IH]; [done|]. simpl.
    assert (n_visible (if (n_id n =? id)%nat then f n else n) = n_visible n) as -> by (case_if E; [apply Hf|done]).
    case_if E; simpl; by rewrite IH.
  - apply Forall_forall. intros n (m & <- & Hm)%list_elem_of_In%in_map_iff.
    apply list_elem_of_In in Hm. pose proof (so_nodes _ Hs) as Hn. rewrite Forall_forall in Hn.
    specialize (Hn m Hm). case_if E; [by apply Hf|done].
  - split; [apply (so_hash _ Hs)|done].
  - intros h Hh. exists h. split; [done|]. split; [by apply (so_hash_ts _ Hs)|done].
Qed.

Lemma upd_shape_ok s id f : same_shape f -> store_ok s ->
  store_ok (mk_store (upd_node id f (s_nodes s)) (s_visible s) (s_allocated s) (s_hash s) (s_hash_ts s)).
Proof.
  intros Hf. apply upd_ok. intros n. destruct (Hf n) as (? & ? & E). unfold node_ok. by rewrite E.
Qed.

Lemma upd_shape_sound s id f : same_shape f -> hash_sound s ->
  hash_sound (mk_store (upd_node id f (s_nodes s)) (s_visible s) (s_allocated s) (s_hash s) (s_hash_ts s)).
Proof.
  intros Hf Hs k i Hi. simpl in *. destruct (Hs k i Hi) as (n & Hin & Hid & Hv & Hq).
  exists (if (n_id n =? id)%nat then f n else n). split.
  - apply list_elem_of_In, (in_map (fun n => if (n_id n =? id)%nat then f n else n)).
    by apply list_elem_of_In.
  - destruct (Hf n) as (? & ? & ?). case_if E; [|done]. split_and!; congruence.
Qed.

Lemma add_node_tail_store jb id packet :
  store_of (add_node_tail jb id packet) = store_of jb \/
  exists f, same_shape f /\ store_of (add_node_tail jb id packet) =
    mk_store (upd_node id f (j_node_list jb)) (j_visible_nodes jb) (j_allocated_nodes jb)
      (j_node_hash jb) (j_node_hash_ts jb).
Proof.
  unfold add_node_tail.
  set (jb1 := if negb (j_write_init jb) || _ || _ then _ else jb).
  assert (H1 : store_of jb1 = store_of jb) by (unfold jb1; by case_if E).
  clearbody jb1. rewrite <- H1. cbv zeta.
  set (jb2 := if negb (test_flag (j_flags jb1) _) then _ else jb1).
  assert (H2 : store_of jb2 = store_of jb1) by (unfold jb2; by case_if E).
  clearbody jb2. case_if E1; [|by left]. rewrite <- H2.
  case_if E2; [|case_if E3; by left].
  right. exists (fun n => n <| n_packet ::= fun p => p <| p_version := 1 |> |>).
  split; [by intros []|].
  set (jb3 := jb2 <| j_highest_wrote_ts := _ |> <| j_complete_frames ::= _ |>).
  assert (H3 : store_of jb3 = store_of jb2) by done. clearbody jb3.
  set (jb4 := if j_packet_count jb3 >? _ then _ else jb3).
  assert (H4 : store_of jb4 = store_of jb3) by (unfold jb4; by case_if E).
  clearbody jb4. injection H1 as <- <- <- <- <-. injection H2 as <- <- <- <- <-.
  injection H3 as <- <- <- <- <-. case_if E; [|done].
  injection H4 as <- <- <- <- <-. done.
Qed.

(** Both parts of the invariant. *)
Definition store_keeps jb jb' : Prop :=
  store_ok (store_of jb') /\ (hash_sound (store_of jb) -> hash_sound (store_of jb')).

Lemma keeps_same jb jb' : store_ok (store_of jb) -> store_of jb' = store_of jb -> store_keeps jb jb'.
Proof. intros Hs E. unfold store_keeps. by rewrite E. Qed.
Lemma keeps_trans jb jb1 jb2 : store_keeps jb jb1 -> (store_ok (store_of jb1) -> store_keeps jb1 jb2) ->
  store_keeps jb jb2.
Proof. intros [H1 H2] H3. destruct (H3 H1) as [H4 H5]. split; auto. Qed.

Lemma drop_ts_keeps jb ts : store_ok (store_of jb) -> store_keeps jb (drop_ts jb ts).
Proof. intros Hs. by destruct (drop_ts_spec jb ts Hs) as (? & _ & _ & ?). Qed.

Lemma reset_keeps jb : store_ok (store_of jb) -> store_keeps jb (switch_jb_reset jb).
Proof.
  intros Hs. destruct (reset_spec jb Hs) as (Hs' & _ & He & _). split; [done|].
  intros Hh k id Hf. simpl in Hf. unfold store_of in Hf. simpl in Hf. by rewrite He in Hf.
Qed.

Lemma add_node_tail_keeps jb id packet : store_ok (store_of jb) ->
  store_keeps jb (add_node_tail jb id packet).
Proof.
  intros Hs. unfold store_keeps.
  destruct (add_node_tail_store jb id packet) as [->|(f & Hf & ->)]; [done|]. split.
  - by apply (upd_shape_ok (store_of jb)).
  - by apply (upd_shape_sound (store_of jb)).
Qed.

Lemma add_node_keeps jb packet len jb' : store_ok (store_of jb) -> 0 <= p_seq packet < 65536 ->
  add_node jb packet len = Ret jb' -> store_keeps jb jb'.
Proof.
  intros Hs Hp. unfold add_node.
  destruct (new_node_cases jb Hs) as [_ _|jb1 l1 n l2 Hs1 _ _ Hg].
  - intros [= <-]. by apply reset_keeps.
  - case_if E; [done|]. fold (fill packet len) (place jb1 (n_id n) packet len). cbv zeta.
    destruct Hg as (Hl & Hv & ?) eqn:?.
    destruct (place_ok jb1 l1 n l2 packet len Hs1 Hp Hl Hv) as (Hs2 & _ & _).
    intros [= <-]. apply (keeps_trans _ (place jb1 (n_id n) packet len)).
    + split; [done|]. intros Hh. by apply (place_sound jb jb1 l1 n l2).
    + intros _. case_if E2; [|by apply add_node_tail_keeps].
      eapply keeps_trans; [by apply reset_keeps|]. intros ?. by apply add_node_tail_keeps.
Qed.

Lemma add_node_total jb packet len : store_ok (store_of jb) -> len <= sizeof_body ->
  exists jb', add_node jb packet len = Ret jb'.
Proof.
  intros Hs Hl. unfold add_node. destruct (new_node jb) as [jb1 [id|]]; [|eauto].
  rewrite Z.gtb_ltb, (proj2 (Z.ltb_ge _ _)) by done. eauto.
Qed.

(** ** Trimming a queue *)
Lemma find_best_spec (sel : jb_node -> bool) (better : jb_node -> jb_node -> bool) l : forall acc : option jb_node,
  let r := fold_left (fun lowest (np : jb_node) =>
    if negb (sel np) then lowest
    else match lowest with
         | None => Some np
         | Some b => if better b np then Some np else lowest
         end) l acc in
  (forall n, r = Some n -> acc = Some n \/ n ∈ l /\ sel n = true) /\
  (r = None -> acc = None /\ forall n, n ∈ l -> sel n = false).
Proof.
  induction l as [|a l IH]; intros acc; simpl.
  - split; [by left|]. intros ->. split; [done|]. intros n Hn. by apply elem_of_nil in Hn.
  - specialize (IH (if negb (sel a) then acc else
      match acc with None => Some a | Some b => if better b a then Some a else acc end)).
    destruct IH as [IH1 IH2]. split.
    + intros n [E|[Hn Hs]]%IH1; [|right; rewrite elem_of_cons; auto].
      destruct (sel a) eqn:Ea; simpl in E; [|by left].
      destruct acc as [b|]; [case_if_in E Eb; [|by left]|];
        (injection E as <-; right; rewrite elem_of_cons; auto).
    + intros [E Hn]%IH2. destruct (sel a) eqn:Ea; simpl in E.
      * destruct acc as [b|]; [by case_if_in E Eb|done].
      * split; [done|]. intros n [->|?]%elem_of_cons; auto.
Qed.

Lemma lowest_node_visible jb n : jb_find_lowest_node jb = Some n ->
  n ∈ j_node_list jb /\ n_visible n = true.
Proof.
  intros E. destruct (find_best_spec n_visible
    (fun lowest np => ntohl (p_ts (n_packet lowest)) >? ntohl (p_ts (n_packet np)))
    (j_node_list jb) None) as [Hs _].
  by destruct (Hs n E) as [|?].
Qed.

Lemma visibles_drop_lt (sel : jb_node -> bool) l : (exists n, n ∈ l /\ n_visible n = true /\ sel n = true) ->
  (length (visibles (map (fun n => if sel n then hid n else n) l)) < length (visibles l))%nat.
Proof.
  assert (Hle : forall l, (length (visibles (map (fun n => if sel n then hid n else n) l))
                           <= length (visibles l))%nat).
  { induction l0 as [|a l0 IH]; simpl; [done|]. destruct (sel a).
    - rewrite hid_invisible. destruct (n_visible a); simpl; lia.
    - destruct (n_visible a); simpl; lia. }
  induction l as [|a l IH]; intros (n & Hin & Hv & Hs); [by apply elem_of_nil in Hin|].
  apply elem_of_cons in Hin as [->|Hin].
  - simpl. rewrite Hs, Hv, hid_invisible. specialize (Hle l). simpl. lia.
  - assert (length (visibles (map (fun n => if sel n then hid n else n) l)) < length (visibles l))%nat
      by (apply IH; eauto).
    simpl. destruct (sel a); [rewrite hid_invisible|]; destruct (n_visible a); simpl; lia.
Qed.

(** Dropping the oldest frame of a buffer that shows a node hides a node. *)
Lemma drop_oldest_lt jb : store_ok (store_of jb) -> visibles (j_node_list jb) <> [] ->
  (length (visibles (j_node_list (drop_oldest_frame jb))) < length (visibles (j_node_list jb)))%nat.
Proof.
  intros Hs Hne. unfold drop_oldest_frame, jb_find_lowest_ts.
  assert (exists n, jb_find_lowest_node jb = Some n) as (n & E).
  { destruct (jb_find_lowest_node jb) as [n|] eqn:E; [eauto|]. exfalso. apply Hne.
    destruct (find_best_spec n_visible
      (fun lowest np => ntohl (p_ts (n_packet lowest)) >? ntohl (p_ts (n_packet np)))
      (j_node_list jb) None) as [_ Hnone].
    destruct (Hnone E) as [_ Hall]. clear -Hall. induction (j_node_list jb) as [|a l IH]; [done|].
    simpl. rewrite Hall by (apply elem_of_cons; by left). apply IH. intros n Hn. apply Hall.
    apply elem_of_cons. by right. }
  rewrite E. destruct (lowest_node_visible jb n E) as [Hin Hv].
  destruct (drop_ts_spec jb (p_ts (n_packet n)) Hs) as (_ & _ & Hp & _).
  rewrite (Permutation_length (visibles_perm _ _ Hp)). apply visibles_drop_lt.
  exists n. split_and!; [done|done|]. unfold ts_sel. by rewrite Hv, Z.eqb_refl.
Qed.

Lemma drop_oldest_keeps jb : store_ok (store_of jb) -> store_keeps jb (drop_oldest_frame jb).
Proof. intros Hs. by apply drop_ts_keeps. Qed.

Lemma drop_oldest_only jb : store_ok (store_of jb) -> store_only jb (drop_oldest_frame jb).
Proof. intros Hs. by destruct (drop_ts_spec jb (jb_find_lowest_ts jb) Hs) as (_ & ? & _). Qed.

(** The loop ends when a whole empty buffer has room for a frame. *)
Lemma drop_loop_ends fuel : forall jb, store_ok (store_of jb) ->
  j_max_packet_len jb <= u32 (j_max_frame_len jb * 2) ->
  (length (visibles (j_node_list jb)) < fuel)%nat ->
  exists jb', drop_loop fuel jb = Some jb' /\ store_keeps jb jb' /\ store_only jb jb' /\
    j_max_packet_len jb <= u32 (j_max_frame_len jb * 2 - j_visible_nodes jb').
Proof.
  induction fuel as [|fuel IH]; intros jb Hs Hm Hf; [lia|].
  simpl. case_if E; boolify.
  - assert (Hne : visibles (j_node_list jb) <> []).
    { intros Hnil. pose proof (so_visible _ Hs) as Hv. simpl in Hv. rewrite Hnil in Hv.
      unfold zlen in Hv. simpl in Hv. unfold u32 in Hv at 1. rewrite Hv in E.
      change (0 mod 4294967296) with 0 in E. rewrite Z.sub_0_r in E. lia. }
    pose proof (drop_oldest_lt jb Hs Hne) as Hlt.
    pose proof (drop_oldest_keeps jb Hs) as Hk. pose proof (drop_oldest_only jb Hs) as Ho.
    assert (Hc : j_max_packet_len (drop_oldest_frame jb) = j_max_packet_len jb /\
      j_max_frame_len (drop_oldest_frame jb) = j_max_frame_len jb) by (by rewrite Ho).
    destruct Hc as [Hc1 Hc2].
    destruct (IH (drop_oldest_frame jb)) as (jb' & Hd & Hk' & Ho' & Hr); [apply Hk|by rewrite Hc1, Hc2|lia|].
    exists jb'. rewrite Hc1, Hc2 in Hr. split_and!; [done| |by etransitivity|done].
    by apply (keeps_trans _ (drop_oldest_frame jb)).
  - exists jb. split_and!; [done|by apply keeps_same|done|done].
Qed.

(** ** Put *)
Lemma missing_insert_store jb k v : store_of (missing_insert jb k v) = store_of jb.
Proof. done. Qed.
Lemma missing_delete_store jb k : store_of (missing_delete jb k).1 = store_of jb.
Proof. unfold missing_delete. by repeat case_match. Qed.
Lemma frame_inc_store jb i : store_of (jb_frame_inc_line jb i) = store_of jb.
Proof. unfold jb_frame_inc_line. cbv zeta. by case_if E. Qed.
Lemma mark_missing_store n : forall i jb, store_of (mark_missing n i jb) = store_of jb.
Proof. induction n as [|n IH]; intros i jb; simpl; [done|]. by rewrite IH. Qed.

Lemma track_missing_keeps jb want got : store_ok (store_of jb) ->
  store_keeps jb (track_missing jb want got).
Proof.
  intros Hs. unfold track_missing.
  destruct (missing_delete jb (htons got)) as [jb1 v] eqn:E1.
  assert (H1 : store_of jb1 = store_of jb) by (rewrite <- (missing_delete_store jb (htons got)); by rewrite E1).
  cbv zeta. set (jb2 := match v with Some _ => _ | None => jb1 end).
  assert (H2 : store_of jb2 = store_of jb).
  { unfold jb2. destruct v; [|done]. case_if E; [by rewrite frame_inc_store|done]. }
  clearbody jb2. set (jb3 := if got >? want then _ else jb2).
  assert (H3 : store_keeps jb jb3).
  { unfold jb3. case_if E3; [|by apply keeps_same]. case_if E4.
    - eapply (keeps_trans _ jb2); [by apply keeps_same|]. by apply reset_keeps.
    - apply keeps_same; [done|]. rewrite mark_missing_store. case_if E5; [by rewrite frame_inc_store|done]. }
  clearbody jb3. eapply (keeps_trans _ jb3); [done|]. intros Hs3. apply keeps_same; [done|].
  by case_if E.
Qed.

Lemma drop_loop_keeps fuel : forall jb jb', store_ok (store_of jb) ->
  drop_loop fuel jb = Some jb' -> store_keeps jb jb'.
Proof.
  induction fuel as [|fuel IH]; intros jb jb' Hs Hd; simpl in Hd.
  - case_if_in Hd E; [done|]. injection Hd as <-. by apply keeps_same.
  - case_if_in Hd E; [|injection Hd as <-; by apply keeps_same].
    eapply (keeps_trans _ (drop_oldest_frame jb)); [by apply drop_oldest_keeps|]. intros ?. by apply IH.
Qed.

Lemma put_packet_keeps jb packet len jb' : store_ok (store_of jb) -> 0 <= p_seq packet < 65536 ->
  switch_jb_put_packet jb packet len = Ret (Some jb') -> store_keeps jb jb'.
Proof.
  intros Hs Hp. unfold switch_jb_put_packet. cbv zeta.
  case_if E1; [intros [= <-]; by apply keeps_same|].
  set (jb1 := if test_flag _ _ || _ then _ else _).
  assert (H1 : store_keeps jb jb1).
  { unfold jb1. case_if E2; [by apply keeps_same|].
    eapply (keeps_trans _ (jb <| j_highest_dropped_ts := 0 |>)); [by apply keeps_same|].
    intros ?. by apply track_missing_keeps. }
  clearbody jb1. destruct (add_node jb1 packet _) as [jb2| |] eqn:Ea; try done. simpl.
  assert (H2 : store_keeps jb jb2).
  { eapply (keeps_trans _ jb1); [done|]. intros ?. by eapply add_node_keeps. }
  case_if E3; [|by intros [= <-]]. intros [= Hd].
  eapply (keeps_trans _ jb2); [done|]. intros ?.
  by apply (drop_loop_keeps (S (length (j_node_list jb2)))).
Qed.

(** ** Get *)
Lemma hash_find_node_Some jb h k n : store_ok (store_of jb) -> hash_find_node jb h k = Some n ->
  ih_find h k = Some (n_id n) /\ n ∈ j_node_list jb.
Proof.
  intros Hs. unfold hash_find_node. destruct (ih_find h k) as [id|]; [simpl|done].
  intros [Hin <-]%get_node_Some; [done|by apply jb_ids_NoDup].
Qed.

Lemma lowest_seq_visible jb n : jb_find_lowest_seq jb 0 = Some n ->
  n ∈ j_node_list jb /\ n_visible n = true.
Proof.
  intros E. edestruct (find_best_spec
    (fun np => n_visible np && negb (negb (0 =? 0) && negb (0 =? p_ts (n_packet np)))))
    as [Hs _]. destruct (Hs n E) as [|[? Hv]]; [done|]. by apply andb_prop in Hv as [? ?].
Qed.

Lemma request_refresh_keeps jb : store_ok (store_of jb) -> store_keeps jb (request_refresh jb).
Proof. intros ?. apply keeps_same; [done|apply request_refresh_store]. Qed.

Lemma resync_store jb : store_of (resync jb) = store_of jb.
Proof. unfold resync. case_if E; [|done]. by rewrite request_refresh_store. Qed.

Lemma scan_ahead_keeps n : forall jb, store_ok (store_of jb) ->
  let '(jb', node, again) := scan_ahead n jb in
  store_keeps jb jb' /\ (forall nd, node = Some nd -> nd ∈ j_node_list jb').
Proof.
  induction n as [|n IH]; intros jb Hs; simpl; [split; [by apply keeps_same|done]|].
  destruct (hash_find_node _ _ _) as [nd|] eqn:Ef.
  - case_if E.
    + split; [|done]. eapply (keeps_trans _ (drop_ts (increment_seq jb <| j_dropped ::= fun d => u32 (d + 1) |>)
        (p_ts (n_packet nd)))); [|by intros; apply keeps_same].
      eapply (keeps_trans _ (increment_seq jb <| j_dropped ::= fun d => u32 (d + 1) |>));
        [by apply keeps_same|]. intros ?. by apply drop_ts_keeps.
    + split; [by apply keeps_same|]. intros nd' [= <-].
      by apply hash_find_node_Some in Ef as [_ ?].
  - specialize (IH (increment_seq jb) Hs). by destruct (scan_ahead n (increment_seq jb)) as [[jb' node] again].
Qed.

Lemma next_by_seq_keeps fuel : forall jb, store_ok (store_of jb) ->
  store_keeps jb (next_by_seq fuel jb).1 /\
  forall nd, (next_by_seq fuel jb).2 = Some nd -> nd ∈ j_node_list (next_by_seq fuel jb).1.
Proof.
  induction fuel as [|fuel IH]; intros jb Hs; cbn [next_by_seq]; [split; [by apply keeps_same|done]|].
  cbv zeta. pose proof (resync_store jb) as Hr. generalize (resync jb) as jb1, Hr. clear Hr. intros jb1 Hr.
  assert (Hs1 : store_ok (store_of jb1)) by (by rewrite Hr).
  destruct (hash_find_node jb1 (j_node_hash jb1) (j_target_seq jb1)) as [nd|] eqn:Ef.
  - apply hash_find_node_Some in Ef as [_ Hin]; [|done].
    case_if E; (split; [by apply keeps_same|by intros nd' [= <-]]).
  - case_if E.
    + split; [by apply keeps_same|]. simpl. intros nd Hl. by apply lowest_seq_visible in Hl as [? _].
    + case_if E2; [|by split; [apply keeps_same|]].
      set (jb2 := request_refresh _).
      assert (H2 : store_of jb2 = store_of jb).
      { unfold jb2. rewrite request_refresh_store. case_if E3; [rewrite frame_inc_store|]; by rewrite <- Hr. }
      clearbody jb2. pose proof (scan_ahead_keeps 10 jb2) as Hscan. rewrite H2 in Hscan.
      destruct (scan_ahead 10 jb2) as [[jb3 node] again]. destruct (Hscan Hs) as [Hk Hn].
      assert (Hk' : store_keeps jb jb3).
      { split; [apply Hk|]. destruct Hk as [_ Hk]. by rewrite H2 in Hk. }
      destruct again; [|by split]. destruct (IH jb3) as [Hk3 Hn3]; [apply Hk'|].
      split; [by eapply keeps_trans|done].
Qed.

Lemma set_read_ts_store jb ts : store_of (set_read_ts jb ts) = store_of jb.
Proof. unfold set_read_ts. by case_if E. Qed.
Lemma increment_ts_store jb : store_of (increment_ts jb) = store_of jb.
Proof. unfold increment_ts. by case_if E. Qed.

Lemma next_by_ts_ok jb : store_ok (store_of jb) ->
  store_ok (store_of (jb_next_packet_by_ts jb).1) /\
  forall nd, (jb_next_packet_by_ts jb).2 = Some nd -> nd ∈ j_node_list (jb_next_packet_by_ts jb).1.
Proof.
  intros Hs. unfold jb_next_packet_by_ts. cbv zeta.
  match goal with |- context [let '(_, _) := ?e in _] => set (found := e) end.
  assert (Hf : store_of found.1 = store_of jb /\ forall nd, found.2 = Some nd -> nd ∈ j_node_list jb).
  { unfold found. case_if E.
    - split; [done|]. intros nd Hl. by apply lowest_node_visible in Hl as [? _].
    - destruct (j_node_hash_ts jb) as [h|]; simpl; [|by rewrite increment_ts_store].
      destruct (hash_find_node jb h (j_target_ts jb)) as [nd|] eqn:Eh; simpl;
        [|by rewrite increment_ts_store].
      apply hash_find_node_Some in Eh as [_ ?]; [|done]. split; [done|]. by intros nd' [= <-]. }
  clearbody found. destruct found as [jb1 [nd|]]; simpl in Hf; destruct Hf as [Hst Hin];
    [|simpl; by rewrite Hst].
  simpl. specialize (Hin nd eq_refl).
  set (jb2 := set_read_ts jb1 (p_ts (n_packet nd))).
  assert (H2 : store_of jb2 = store_of jb) by (unfold jb2; by rewrite set_read_ts_store).
  clearbody jb2. assert (Hn2 : j_node_list jb2 = j_node_list jb) by apply (f_equal s_nodes H2).
  split.
  - rewrite <- H2 in Hs. apply (upd_ok (store_of jb2)); [|done]. intros n. split_and!; try done.
    intros _. apply ntohs_range.
  - intros nd' [= <-]. simpl. rewrite Hn2.
    apply list_elem_of_In, in_map_iff. exists nd. rewrite Nat.eqb_refl.
    split; [done|by apply list_elem_of_In].
Qed.

Lemma next_packet_keeps jb : store_ok (store_of jb) ->
  store_ok (store_of (jb_next_packet jb).1) /\
  (j_samples_per_frame jb = 0 -> store_keeps jb (jb_next_packet jb).1) /\
  forall nd, (jb_next_packet jb).2 = Some nd -> nd ∈ j_node_list (jb_next_packet jb).1.
Proof.
  intros Hs. unfold jb_next_packet. case_if E; boolify.
  - destruct (next_by_ts_ok jb Hs) as [? ?]. split_and!; [done| |done]. by intros.
  - unfold jb_next_packet_by_seq. destruct (next_by_seq_keeps 2 jb Hs) as [Hk Hn].
    destruct (next_by_seq 2 jb) as [jb' [nd|]]; simpl in *; split_and!; try done; apply Hk.
Qed.

Lemma poll_store jb : store_of (switch_jb_poll jb).1 = store_of jb.
Proof. unfold switch_jb_poll. simpl. by repeat case_match. Qed.

Lemma period_bitrate_store jb : store_of (period_bitrate jb) = store_of jb.
Proof. unfold period_bitrate. repeat case_match; by rewrite ?request_refresh_store. Qed.

Lemma period_step_store jb : store_of (period_step jb) = store_of jb.
Proof.
  unfold period_step. cbv zeta. case_if E; [|done]. rewrite period_bitrate_store.
  match goal with |- context [if ?c then jb_frame_inc_line ?j _ else _] => set (j1 := j) end.
  assert (store_of j1 = store_of jb) as <- by done. clearbody j1.
  case_if E2; [|done]. rewrite <- (frame_inc_store j1 (-1)). done.
Qed.

Lemma note_read_store jb nd : store_of (note_read jb nd) = store_of jb.
Proof.
  unfold note_read. cbv zeta. set (jb1 := if negb (j_read_init jb) || _ then _ else jb).
  assert (store_of jb1 = store_of jb) as <- by (unfold jb1; by case_if E).
  clearbody jb1. by repeat case_match.
Qed.

Lemma note_read_samples jb nd : j_samples_per_frame (note_read jb nd) = j_samples_per_frame jb.
Proof.
  unfold note_read. cbv zeta. set (jb1 := if negb (j_read_init jb) || _ then _ else jb).
  assert (j_samples_per_frame jb1 = j_samples_per_frame jb) as <- by (unfold jb1; by case_if E).
  clearbody jb1. by repeat case_match.
Qed.

Lemma hide_node_keeps jb pop nd : store_ok (store_of jb) -> nd ∈ j_node_list jb ->
  store_keeps jb (hide_node jb nd pop).
Proof.
  intros Hs (l1 & l2 & Hl)%list_elem_of_split. split; [by eapply hide_node_ok|].
  intros Hh k id Hf. destruct (hide_node_store jb pop l1 nd l2 (jb_ids_NoDup _ Hs) Hl) as [_ Hst].
  rewrite Hst in *. simpl in *. rewrite ih_find_delete in Hf by apply (so_hash _ Hs).
  case_if_in Hf E; [done|]. boolify. destruct (Hh k id Hf) as (n & Hin & Hid & Hv & Hq).
  exists n. simpl in *. split; [|done]. rewrite hide_nodes_of_perm. rewrite Hl in Hin.
  rewrite elem_of_app, elem_of_cons in *. destruct Hin as [?|[->|?]]; auto.
  destruct E. by rewrite Hq, u32_u32.
Qed.

(** Settings that reading never changes. *)
Definition mode jb : jb_type * Z * Z * Z * Z * Z :=
  (j_type jb, j_samples_per_frame jb, j_flags jb, j_min_frame_len jb, j_max_frame_len jb,
   j_max_packet_len jb).

Lemma poll_mode jb : mode (switch_jb_poll jb).1 = mode jb.
Proof. unfold switch_jb_poll. simpl. by repeat case_match. Qed.
Lemma frame_inc_mode jb i : mode (jb_frame_inc_line jb i) = mode jb.
Proof. unfold jb_frame_inc_line. cbv zeta. by case_if E. Qed.
Lemma request_refresh_mode jb : mode (request_refresh jb) = mode jb.
Proof. unfold request_refresh. by case_if E. Qed.
Lemma period_bitrate_mode jb : mode (period_bitrate jb) = mode jb.
Proof. unfold period_bitrate. repeat case_match; by rewrite ?request_refresh_mode. Qed.
Lemma period_step_mode jb : mode (period_step jb) = mode jb.
Proof.
  unfold period_step. cbv zeta. case_if E; [|done]. rewrite period_bitrate_mode.
  match goal with |- context [if ?c then jb_frame_inc_line ?j _ else _] => set (j1 := j) end.
  assert (mode j1 = mode jb) as <- by done. clearbody j1.
  case_if E2; [|done]. rewrite <- (frame_inc_mode j1 (-1)). done.
Qed.

Lemma get_packet_keeps jb packet len jb' packet' len' status : store_ok (store_of jb) ->
  switch_jb_get_packet jb packet len = (jb', packet', len', status) ->
  store_ok (store_of jb') /\ (j_samples_per_frame jb = 0 -> store_keeps jb jb').
Proof.
  intros Hs Hget.
  assert (Hl : let j := (get_packet_locked jb packet len).1.1.1.1 in
    store_ok (store_of j) /\ (j_samples_per_frame jb = 0 -> store_keeps jb j)).
  { clear Hget. unfold get_packet_locked.
    case_if E1; [by split; [|intros; apply keeps_same]|].
    set (jb1 := if _ <? _ then (switch_jb_poll jb).1 else jb).
    assert (H1 : store_of jb1 = store_of jb /\ mode jb1 = mode jb).
    { unfold jb1. case_if E; [|done]. by rewrite poll_store, poll_mode. }
    clearbody jb1. destruct H1 as [H1 M1]. cbv zeta.
    case_if E2; [simpl; split; [by rewrite H1|intros; by apply keeps_same]|].
    pose proof (period_step_store jb1) as H2. pose proof (period_step_mode jb1) as M2.
    destruct (next_packet_keeps (period_step jb1)) as (Hs3 & Hk3 & Hn3); [by rewrite H2, H1|].
    assert (Hk : j_samples_per_frame jb = 0 -> store_keeps jb (jb_next_packet (period_step jb1)).1).
    { intros Hz. rewrite M1 in M2. apply (f_equal (fun m => m.1.1.1.1.2)) in M2.
      change (j_samples_per_frame (period_step jb1) = j_samples_per_frame jb) in M2. rewrite Hz in M2.
      unfold store_keeps in *. rewrite H2, H1 in Hk3. auto. }
    clear H2 M2 Hk3. destruct (jb_next_packet (period_step jb1)) as [jb3 [nd|]]; simpl in Hs3, Hn3, Hk.
    - specialize (Hn3 nd eq_refl). cbn [fst snd].
      set (jb4 := (note_read jb3 nd) <| j_last_len := n_len nd |>).
      assert (H4 : store_of jb4 = store_of jb3) by (apply (note_read_store jb3 nd)).
      clearbody jb4. assert (Hn4 : nd ∈ j_node_list jb4) by (change (nd ∈ s_nodes (store_of jb4)); by rewrite H4).
      assert (Hs4 : store_ok (store_of jb4)) by (by rewrite H4).
      pose proof (hide_node_keeps jb4 true nd Hs4 Hn4) as Hk5.
      split; [apply Hk5|]. intros Hz. apply (keeps_trans _ jb4); [|done].
      unfold store_keeps. rewrite H4. by apply Hk.
    - case_if E3; [done|]. case_if E4; [|done]. simpl.
      unfold store_keeps. by rewrite frame_inc_store. }
  unfold switch_jb_get_packet in Hget.
  destruct (get_packet_locked jb packet len) as [[[[j p] l] st] plc]. simpl in Hl.
  case_if_in Hget E; [|by injection Hget as <- _ _ _].
  injection Hget as Hj _ _ _. subst jb'. case_if E2; [|done].
  destruct Hl as [Hsj Hkj]. split; [by apply reset_keeps|].
  intros Hz. eapply keeps_trans; [by apply Hkj|]. intros. by apply reset_keeps.
Qed.

(** ** The control part of the invariant *)
Record control := mk_control {
  c_type : jb_type; c_samples : Z; c_flags : Z; c_min : Z; c_max : Z;
  c_frame_len : Z; c_highest : Z; c_max_packet_len : Z; c_missing : option (H Z)
}.
Definition control_of jb : control :=
  mk_control (j_type jb) (j_samples_per_frame jb) (j_flags jb) (j_min_frame_len jb)
    (j_max_frame_len jb) (j_frame_len jb) (j_highest_frame_len jb) (j_max_packet_len jb)
    (j_missing_seq_hash jb).

Definition missing_ok (h : H Z) : Prop :=
  ih_ok h /\ forall k v, ih_find h k = Some v -> u32 k < 65536.

(** The frame length stays within its bounds, a queue-only buffer never learns
    the length of a frame, and a video buffer has its table of missing numbers,
    whose keys are 16-bit numbers. *)
Record control_ok (c : control) : Prop := {
  co_min : 1 <= c_min c;
  co_len : c_min c <= c_frame_len c <= c_max c;
  co_max : c_max c < 4294967295;
  co_highest : c_frame_len c <= c_highest c;
  co_queue : test_flag (c_flags c) SJB_QUEUE_ONLY = true -> c_max_packet_len c = 0;
  co_missing : c_type c = SJB_VIDEO -> exists h, c_missing c = Some h;
  co_missing_ok : forall h, c_missing c = Some h -> missing_ok h
}.

Definition fixed jb : jb_type * Z * Z * Z * Z :=
  (j_type jb, j_samples_per_frame jb, j_flags jb, j_min_frame_len jb, j_max_frame_len jb).

(** [jb'] keeps the control part well formed and the settings as they were. *)
Definition controls jb jb' : Prop :=
  fixed jb' = fixed jb /\ (control_ok (control_of jb) -> control_ok (control_of jb')).

Lemma controls_trans j1 j2 j3 : controls j1 j2 -> controls j2 j3 -> controls j1 j3.
Proof. intros [F12 C12] [F23 C23]. split; [congruence|auto]. Qed.
Lemma controls_same jb jb' : control_of jb' = control_of jb -> controls jb jb'.
Proof.
  intros E. split; [|by rewrite E].
  change (fixed jb') with (let c := control_of jb' in (c_type c, c_samples c, c_flags c, c_min c, c_max c)).
  by rewrite E.
Qed.
Lemma controls_refl jb : controls jb jb.
Proof. by apply controls_same. Qed.
Lemma controls_store jb jb' : store_only jb jb' -> controls jb jb'.
Proof. intros ->. by apply controls_same. Qed.

Lemma controls_frame_inc jb i : i = 1 \/ i = -1 -> controls jb (jb_frame_inc_line jb i).
Proof.
  intros Hi. split.
  { unfold jb_frame_inc_line. cbv zeta. by case_if E. }
  intros [C1 C2 C3 C4 C5 C6 C7]. simpl in *.
  assert (Hnew : exists f h, control_of (jb_frame_inc_line jb i) =
    mk_control (j_type jb) (j_samples_per_frame jb) (j_flags jb) (j_min_frame_len jb)
      (j_max_frame_len jb) f h (j_max_packet_len jb) (j_missing_seq_hash jb) /\
    j_min_frame_len jb <= f <= j_max_frame_len jb /\ f <= h).
  { unfold jb_frame_inc_line. cbv zeta.
    match goal with |- context [jb <| j_frame_len := ?f |>] => set (f0 := f) end.
    assert (Hf : j_min_frame_len jb <= f0 <= j_max_frame_len jb).
    { unfold f0. destruct Hi as [-> | ->]; simpl.
      - rewrite u32_small by lia. case_if E; boolify; lia.
      - rewrite u32_small by lia. destruct (j_frame_len jb + -1 >? j_min_frame_len jb) eqn:E; lia. }
    clearbody f0. rewrite Z.gtb_ltb. case_if E; simpl in E; boolify;
      [exists f0, f0|exists f0, (j_highest_frame_len jb)]; (split; [reflexivity|lia]). }
  destruct Hnew as (f & h & -> & Hf & Hh). split; simpl; try done; lia.
Qed.

Lemma missing_ok_init : missing_ok (ih_init (H:=H)).
Proof. split; [apply ih_init_ok|]. intros k v. by rewrite ih_find_init. Qed.
Lemma missing_ok_insert h k v : missing_ok h -> 0 <= k < 65536 -> missing_ok (ih_insert h k v).
Proof.
  intros [Hok Hk] Hr. split; [by apply ih_insert_ok|]. intros k' v'.
  rewrite ih_find_insert by done. case_if E; [|apply Hk]. boolify. intros _.
  rewrite <- E, u32_small; lia.
Qed.
Lemma missing_ok_delete h k : missing_ok h -> missing_ok (ih_delete h k).1.
Proof.
  intros [Hok Hk]. split; [by apply ih_delete_ok|]. intros k' v'.
  rewrite ih_find_delete by done. case_if E; [done|apply Hk].
Qed.

Lemma controls_missing_insert jb k v : 0 <= k < 65536 -> controls jb (missing_insert jb k v).
Proof.
  intros Hk. split; [done|]. intros [C1 C2 C3 C4 C5 C6 C7]. simpl in *. split; simpl; try done.
  - intros Hv. destruct (C6 Hv) as [h ->]. by eexists.
  - intros h. destruct (j_missing_seq_hash jb) as [h0|] eqn:E; [|done].
    intros [= <-]. apply missing_ok_insert; [by apply C7|done].
Qed.
Lemma controls_missing_delete jb k : controls jb (missing_delete jb k).1.
Proof.
  unfold missing_delete. destruct (j_missing_seq_hash jb) as [h|] eqn:E; [|apply controls_refl].
  pose proof (missing_ok_delete h k) as Hd. destruct (ih_delete h k) as [h' v]. simpl in *.
  split; [done|]. intros [C1 C2 C3 C4 C5 C6 C7]. simpl in *. split; simpl; try done.
  - intros _. by eexists.
  - intros h0 [= <-]. apply Hd. by apply C7.
Qed.
Lemma controls_mark_missing n : forall i jb, controls jb (mark_missing n i jb).
Proof.
  induction n as [|n IH]; intros i jb; simpl; [apply controls_refl|].
  eapply controls_trans; [|apply IH]. apply controls_missing_insert, ntohs_range.
Qed.

Lemma controls_refresh jb : controls jb (request_refresh jb).
Proof. apply controls_same. unfold request_refresh. by case_if E. Qed.

Lemma controls_reset jb : store_ok (store_of jb) -> controls jb (switch_jb_reset jb).
Proof.
  intros Hs. unfold switch_jb_reset, hide_nodes. set (jb1 := if is_video (j_type jb) then _ else jb).
  assert (H1 : controls jb jb1 /\ store_of jb1 = store_of jb).
  { unfold jb1. case_if E; [|split; [apply controls_refl|done]].
    split; [|by rewrite request_refresh_store]. eapply controls_trans; [|apply controls_refresh].
    split; [done|]. intros [C1 C2 C3 C4 C5 C6 C7]. simpl in *. split; simpl; try done.
    - intros _. by eexists.
    - intros h [= <-]. apply missing_ok_init. }
  clearbody jb1. destruct H1 as [H1 Hst]. rewrite <- Hst in Hs.
  destruct (hide_where_spec (fun _ => true) jb1 Hs) as (_ & Ho & _ & _).
  eapply controls_trans; [exact H1|]. eapply controls_trans; [by apply controls_store|].
  by apply controls_same.
Qed.

Lemma controls_new_node jb : store_ok (store_of jb) -> controls jb (new_node jb).1.
Proof.
  intros Hs. destruct (new_node_cases jb Hs) as [_ _|jb1 l1 n l2 _ Ho _ _]; simpl.
  - by apply controls_reset.
  - by apply controls_store.
Qed.

Lemma controls_tail jb id packet : controls jb (add_node_tail jb id packet).
Proof.
  unfold add_node_tail.
  set (jb1 := if negb (j_write_init jb) || _ || _ then _ else jb).
  assert (H1 : controls jb jb1) by (apply controls_same; unfold jb1; by case_if E).
  clearbody jb1. eapply controls_trans; [exact H1|]. cbv zeta.
  set (jb2 := if negb (test_flag (j_flags jb1) _) then _ else jb1).
  assert (H2 : controls jb1 jb2) by (apply controls_same; unfold jb2; by case_if E).
  clearbody jb2. case_if E1; [|by apply controls_same]. eapply controls_trans; [exact H2|].
  case_if E2; [|apply controls_same; by case_if E3].
  set (jb3 := jb2 <| j_highest_wrote_ts := _ |> <| j_complete_frames ::= _ |>).
  assert (H3 : controls jb2 jb3) by (by apply controls_same).
  clearbody jb3. eapply controls_trans; [exact H3|].
  case_if E3; [|by apply controls_same]. apply negb_true_iff in E3.
  split; [by case_if E4|]. intros [C1 C2 C3 C4 C5 C6 C7]. simpl in *.
  case_if E4; split; simpl; try done; by rewrite E3.
Qed.

Lemma controls_add_node jb packet len jb' : store_ok (store_of jb) -> 0 <= p_seq packet < 65536 ->
  add_node jb packet len = Ret jb' -> controls jb jb'.
Proof.
  intros Hs Hp. unfold add_node. pose proof (controls_new_node jb Hs) as H1.
  destruct (new_node_cases jb Hs) as [_ _|jb1 l1 n l2 Hs1 _ _ Hg]; simpl in H1; [by intros [= <-]|].
  case_if E; [done|]. fold (fill packet len) (place jb1 (n_id n) packet len). cbv zeta.
  destruct Hg as (Hl & Hv & _).
  destruct (place_ok jb1 l1 n l2 packet len Hs1 Hp Hl Hv) as (Hs2 & Ho & _).
  intros [= <-]. eapply controls_trans; [exact H1|].
  eapply controls_trans; [by apply controls_store|].
  case_if E2; [|apply controls_tail]. eapply controls_trans; [by apply controls_reset|apply controls_tail].
Qed.

Lemma controls_track_missing jb want got : store_ok (store_of jb) ->
  controls jb (track_missing jb want got).
Proof.
  intros Hs. unfold track_missing. pose proof (controls_missing_delete jb (htons got)) as H1.
  pose proof (missing_delete_store jb (htons got)) as S1.
  destruct (missing_delete jb (htons got)) as [jb1 v]. simpl in H1, S1. cbv zeta.
  eapply controls_trans; [exact H1|]. set (jb2 := match v with Some _ => _ | None => jb1 end).
  assert (H2 : controls jb1 jb2 /\ store_of jb2 = store_of jb).
  { unfold jb2. destruct v; [|split; [apply controls_refl|done]].
    case_if E; [|split; [apply controls_refl|done]]. rewrite frame_inc_store. split; [|done].
    apply controls_frame_inc. by left. }
  clearbody jb2. destruct H2 as [H2 S2]. eapply controls_trans; [exact H2|].
  set (jb3 := if got >? want then _ else jb2). assert (H3 : controls jb2 jb3).
  { unfold jb3. case_if E3; [|apply controls_refl]. case_if E4.
    - apply controls_reset. by rewrite S2.
    - case_if E5; [|apply controls_mark_missing].
      eapply controls_trans; [|apply controls_mark_missing]. apply controls_frame_inc. by left. }
  clearbody jb3. eapply controls_trans; [exact H3|]. apply controls_same. by case_if E.
Qed.

Lemma zlen_visibles_le l : zlen (visibles l) <= zlen l.
Proof.
  unfold zlen. induction l as [|n l IH]; simpl; [done|]. destruct (n_visible n); simpl; lia.
Qed.

(** A put into a well-formed buffer of a packet that fits ends, without an
    access out of bounds, in a well-formed buffer. *)
Lemma put_packet_ready jb packet len :
  store_ok (store_of jb) -> control_ok (control_of jb) -> 0 <= p_seq packet < 65536 ->
  len <= sizeof_body ->
  exists jb', switch_jb_put_packet jb packet len = Ret (Some jb') /\
    store_keeps jb jb' /\ controls jb jb'.
Proof.
  intros Hs Hc Hp Hlen.
  cut (exists jb', switch_jb_put_packet jb packet len = Ret (Some jb') /\ controls jb jb').
  { intros (jb' & Hput & ?). exists jb'. split_and!; try done. by eapply put_packet_keeps. }
  unfold switch_jb_put_packet. cbv zeta. case_if E1; [exists jb; split; [done|apply controls_refl]|].
  set (jb1 := if test_flag _ _ || _ then _ else _).
  assert (H1 : store_ok (store_of jb1) /\ controls jb jb1).
  { unfold jb1. case_if E2; [split; [done|by apply controls_same]|].
    assert (Hs0 : store_ok (store_of (jb <| j_highest_dropped_ts := 0 |>))) by done.
    split; [by apply track_missing_keeps|].
    eapply controls_trans; [|by apply controls_track_missing]. by apply controls_same. }
  clearbody jb1. destruct H1 as [Hs1 C1].
  assert (Hl' : (if len >=? sizeof_packet then sizeof_packet else len) = len).
  { unfold sizeof_packet, sizeof_body in *. case_if E; [lia|done]. }
  rewrite Hl'. destruct (add_node_total jb1 packet len Hs1 Hlen) as (jb2 & Ha). rewrite Ha. simpl.
  assert (C2 : controls jb jb2) by (eapply controls_trans; [exact C1|by eapply controls_add_node]).
  destruct (test_flag (j_flags jb2) SJB_QUEUE_ONLY) eqn:Eq.
  - destruct C2 as [F2 C2]. pose proof (co_queue _ (C2 Hc)) as Hz. simpl in Hz. rewrite (Hz Eq). simpl.
    by exists jb2.
  - simpl. by exists jb2.
Qed.

Lemma controls_scan n : forall jb, store_ok (store_of jb) -> controls jb (scan_ahead n jb).1.1.
Proof.
  induction n as [|n IH]; intros jb Hs; cbn [scan_ahead]; [apply controls_refl|]. cbv zeta.
  assert (H1 : controls jb (increment_seq jb)) by (by apply controls_same).
  destruct (hash_find_node _ _ _) as [nd|].
  - case_if E; [|done]. cbn [fst].
    set (jb2 := (increment_seq jb) <| j_dropped ::= fun d => u32 (d + 1) |>).
    assert (H2 : controls jb jb2 /\ store_of jb2 = store_of jb) by (split; [by apply controls_same|done]).
    clearbody jb2. destruct H2 as [H2 S2]. rewrite <- S2 in Hs.
    destruct (drop_ts_spec jb2 (p_ts (n_packet nd)) Hs) as (_ & Ho & _).
    eapply controls_trans; [exact H2|]. eapply controls_trans; [by apply controls_store|].
    by apply controls_same.
  - eapply controls_trans; [exact H1|]. by apply IH.
Qed.

Lemma resync_controls jb : controls jb (resync jb).
Proof.
  unfold resync. case_if E; [|apply controls_refl].
  eapply controls_trans; [|apply controls_refresh]. by apply controls_same.
Qed.

Lemma next_by_seq_controls fuel : forall jb, store_ok (store_of jb) ->
  controls jb (next_by_seq fuel jb).1.
Proof.
  induction fuel as [|fuel IH]; intros jb Hs; cbn [next_by_seq]; [apply controls_refl|]. cbv zeta.
  pose proof (resync_controls jb) as Hr. pose proof (resync_store jb) as Sr.
  revert Hr Sr. generalize (resync jb) as jb1. intros jb1 Hr Sr.
  eapply controls_trans; [exact Hr|].
  case_if E; [by apply controls_same|]. destruct (hash_find_node _ _ _); [by apply controls_same|].
  case_if E2; [|by apply controls_same].
  set (jb2 := if (_ >? 1) && _ then _ else _).
  assert (H2 : controls jb1 jb2 /\ store_of jb2 = store_of jb).
  { unfold jb2. case_if E3; [|split; [by apply controls_same|done]]. rewrite frame_inc_store.
    split; [|done]. eapply controls_trans; [|apply controls_frame_inc; by left].
    by apply controls_same. }
  clearbody jb2. destruct H2 as [H2 S2]. eapply controls_trans; [exact H2|].
  eapply controls_trans; [apply controls_refresh|].
  assert (Hs2 : store_ok (store_of (request_refresh jb2))) by (by rewrite request_refresh_store, S2).
  pose proof (controls_scan 10 _ Hs2) as H3. pose proof (scan_ahead_keeps 10 _ Hs2) as K3.
  destruct (scan_ahead 10 (request_refresh jb2)) as [[jb3 node] again]. cbn [fst snd] in *.
  destruct again; [|done]. eapply controls_trans; [exact H3|]. apply IH. apply K3.
Qed.

Lemma next_packet_controls jb : store_ok (store_of jb) -> controls jb (jb_next_packet jb).1.
Proof.
  intros Hs. unfold jb_next_packet. case_if E.
  - unfold jb_next_packet_by_ts. cbv zeta.
    match goal with |- context [let '(_, _) := ?e in _] => set (found := e) end.
    assert (Hf : controls jb found.1).
    { apply controls_same. unfold found. case_if E1; [done|].
      destruct (_ ≫= _); [done|]. cbn [fst]. unfold increment_ts. by case_if E2. }
    clearbody found. destruct found as [jb1 [nd|]]; [|done]. cbn [fst] in *.
    eapply controls_trans; [exact Hf|]. apply controls_same.
    unfold set_read_ts. by case_if E1.
  - unfold jb_next_packet_by_seq. pose proof (next_by_seq_controls 2 jb Hs) as H2.
    destruct (next_by_seq 2 jb) as [jb' [nd|]]; [|done]. cbn [fst] in *.
    eapply controls_trans; [exact H2|]. by apply controls_same.
Qed.

Lemma period_step_controls jb : controls jb (period_step jb).
Proof.
  unfold period_step. cbv zeta. case_if E; [|by apply controls_same].
  match goal with |- context [if ?c then jb_frame_inc_line ?j _ else _] => set (j1 := j) end.
  assert (H1 : controls jb j1) by (by apply controls_same). clearbody j1.
  eapply controls_trans; [exact H1|].
  set (j2 := if _ >=? _ then _ else j1). assert (H2 : controls j1 j2).
  { unfold j2. case_if E2; [apply controls_frame_inc; by right|apply controls_refl]. }
  clearbody j2. eapply controls_trans; [exact H2|].
  match goal with |- context [period_bitrate ?j] => set (j3 := j) end.
  assert (H3 : controls j2 j3) by (by apply controls_same). clearbody j3.
  eapply controls_trans; [exact H3|]. unfold period_bitrate.
  repeat case_match; try apply controls_refl;
    (eapply controls_trans; [|apply controls_refresh]; by apply controls_same).
Qed.

Lemma note_read_controls jb nd : controls jb (note_read jb nd).
Proof.
  unfold note_read. cbv zeta. set (jb1 := if negb (j_read_init jb) || _ then _ else jb).
  assert (H1 : controls jb jb1) by (apply controls_same; unfold jb1; by case_if E).
  clearbody jb1. eapply controls_trans; [exact H1|]. apply controls_same. by repeat case_match.
Qed.

Lemma poll_controls jb : controls jb (switch_jb_poll jb).1.
Proof. apply controls_same. unfold switch_jb_poll. simpl. by repeat case_match. Qed.

Lemma hide_node_only jb pop nd : store_ok (store_of jb) -> nd ∈ j_node_list jb ->
  store_only jb (hide_node jb nd pop).
Proof.
  intros Hs (l1 & l2 & Hl)%list_elem_of_split.
  by destruct (hide_node_store jb pop l1 nd l2 (jb_ids_NoDup _ Hs) Hl) as [? _].
Qed.

Lemma get_packet_controls jb packet len : store_ok (store_of jb) ->
  controls jb (switch_jb_get_packet jb packet len).1.1.1.
Proof.
  intros Hs. unfold switch_jb_get_packet.
  assert (Hl : let j := (get_packet_locked jb packet len).1.1.1.1 in
    store_ok (store_of j) /\ controls jb j).
  { unfold get_packet_locked. case_if E1; [split; [done|by apply controls_same]|].
    set (jb1 := if _ <? _ then (switch_jb_poll jb).1 else jb).
    assert (H1 : store_of jb1 = store_of jb /\ controls jb jb1).
    { unfold jb1. case_if E; [|split; [done|apply controls_refl]].
      split; [apply poll_store|apply poll_controls]. }
    clearbody jb1. destruct H1 as [S1 H1]. cbv zeta.
    case_if E2; [cbn [fst]; by rewrite S1|].
    pose proof (period_step_controls jb1) as H2. pose proof (period_step_store jb1) as S2.
    rewrite S1 in S2. revert H2 S2. generalize (period_step jb1) as jb2. intros jb2 H2 S2.
    rewrite <- S2 in Hs. destruct (next_packet_keeps jb2 Hs) as (Hs3 & _ & Hn3).
    pose proof (next_packet_controls jb2 Hs) as H3.
    destruct (jb_next_packet jb2) as [jb3 [nd|]]; cbn [fst snd] in *.
    - specialize (Hn3 nd eq_refl). set (jb4 := (note_read jb3 nd) <| j_last_len := n_len nd |>).
      assert (H4 : store_of jb4 = store_of jb3) by (apply (note_read_store jb3 nd)).
      assert (C4 : controls jb3 jb4).
      { eapply controls_trans; [apply (note_read_controls jb3 nd)|]. by apply controls_same. }
      clearbody jb4. assert (Hn4 : nd ∈ j_node_list jb4) by (change (nd ∈ s_nodes (store_of jb4)); by rewrite H4).
      assert (Hs4 : store_ok (store_of jb4)) by (by rewrite H4).
      split; [by apply hide_node_keeps|].
      apply (controls_trans _ jb1); [done|]. apply (controls_trans _ jb2); [done|].
      apply (controls_trans _ jb3); [done|]. apply (controls_trans _ jb4); [done|].
      by apply controls_store, hide_node_only.
    - assert (C : controls jb jb3) 
        by (apply (controls_trans _ jb1); [done|]; by apply (controls_trans _ jb2)).
      case_if E3; [done|]. case_if E4; [|done]. cbn [fst]. rewrite frame_inc_store. split; [done|].
      eapply controls_trans; [exact C|]. apply controls_frame_inc. by left. }
  destruct (get_packet_locked jb packet len) as [[[[j p] l] st] plc]. cbn [fst snd] in *.
  destruct Hl as [? ?]. case_if E; cbn [fst]; [|done]. case_if E2; [|done].
  apply (controls_trans _ j); [done|]. by apply controls_reset.
Qed.

End Inv.
