(* ===== verification/JbProps.v ===== *)
(** * JbProps: what the jitter buffer guarantees

    The invariant of JbInv over sequences of operations, negative
    acknowledgements, the reset, the trimming loop, and the behaviours that
    differ from what the code means to do. *)
From S2P Require Import Prelude CoreHash JbSort JitterBuffer JbInv.
From Stdlib Require Import ZArith Lia Permutation Sorted.
From stdpp Require Import base numbers option list.

Local Open Scope Z_scope.

Section Props.
Context {H : Type -> Type} `{!IntHash H} `{!IntHashLaws H}.
Implicit Types jb : switch_jb (H:=H).

(** ** Negative acknowledgements *)

(** Number of 16-bit keys in a table; the measure of the loop over expired
    sequence numbers. *)
Definition key_count (h : H Z) : nat :=
  length (List.filter (fun k => bool_decide (is_Some (ih_find h k)))
            (map Z.of_nat (List.seq 0 (Z.to_nat 65536)))).

Lemma filter_length_lt {A} (f g : A -> bool) l a :
  (forall x, f x = true -> g x = true) -> In a l -> f a = false -> g a = true ->
  (length (List.filter f l) < length (List.filter g l))%nat.
Proof.
  intros Hfg. assert (Hle : forall l, (length (List.filter f l) <= length (List.filter g l))%nat).
  { induction l0 as [|x l0 IH]; simpl; [done|]. specialize (Hfg x).
    destruct (f x), (g x); simpl; lia. }
  induction l as [|x l IH]; [done|]. intros [->|Hin] Hf Hg; simpl.
  - rewrite Hf, Hg. simpl. specialize (Hle l). lia.
  - specialize (IH Hin Hf Hg). specialize (Hfg x). destruct (f x), (g x); simpl; lia.
Qed.

Lemma key_count_delete (h : H Z) k v : missing_ok h -> 0 <= k < 65536 -> ih_find h k = Some v ->
  (key_count (ih_delete h k).1 < key_count h)%nat.
Proof.
  intros [Hok _] Hk Hf. apply (filter_length_lt _ _ _ k).
  - intros x. rewrite !bool_decide_eq_true, ih_find_delete by done. case_if E; [|done].
    by intros [? ?].
  - apply in_map_iff. exists (Z.to_nat k). split; [lia|]. apply in_seq. lia.
  - apply bool_decide_eq_false. rewrite ih_find_delete, Z.eqb_refl by done. by intros [? ?].
  - apply bool_decide_eq_true. by exists v.
Qed.

(** [ntohs(seq) < ntohs(jb->target_seq) - jb->frame_len], in [uint32_t] *)
Definition expired jb (key : Z) : Prop :=
  ntohs key < u32 (ntohs (j_target_seq jb) - j_frame_len jb).

Lemma nack_scan_inl now jb l least seq : nack_scan now jb l least = inl seq ->
  exists var then_, (var, then_) ∈ l /\ seq = ntohs (u16 var) /\
    seq < u32 (ntohs (j_target_seq jb) - j_frame_len jb).
Proof.
  revert least. induction l as [|[var then_] l IH]; intros least; simpl; [done|].
  case_if E1; [|case_if E2].
  - intros (v & t & Hin & ?)%IH. exists v, t. by rewrite elem_of_cons; split; [right|].
  - intros [= <-]. exists var, then_. rewrite elem_of_cons. boolify. split_and!; [by left|done|done].
  - intros (v & t & Hin & ?)%IH. exists v, t. by rewrite elem_of_cons; split; [right|].
Qed.

Lemma nack_scan_inr now jb l : forall least r, nack_scan now jb l least = inr r ->
  r = least \/ exists var then_, (var, then_) ∈ l /\ r = ntohs (u16 var).
Proof.
  induction l as [|[var then_] l IH]; intros least r; simpl; [intros [= <-]; by left|].
  case_if E1; [|case_if E2; [done|]].
  - intros [->|(v & t & Hin & ->)]%IH; [by left|]. right. exists v, t. by rewrite elem_of_cons; split; [right|].
  - intros [->|(v & t & Hin & ->)]%IH.
    + case_if E3; [|by left]. right. exists var, then_. rewrite elem_of_cons. by split; [left|].
    + right. exists v, t. by rewrite elem_of_cons; split; [right|].
Qed.

(** Tables [h'] that lost only keys that satisfy [P]. *)
Definition loses (P : Z -> Prop) (h h' : H Z) : Prop :=
  missing_ok h' /\
  (forall k, is_Some (ih_find h' k) -> is_Some (ih_find h k)) /\
  (forall k, is_Some (ih_find h k) -> ~ is_Some (ih_find h' k) -> P (u32 k)).

Lemma element_key (h : H Z) k v : missing_ok h -> (k, v) ∈ ih_elements h ->
  0 <= k < 65536 /\ ih_find h k = Some v.
Proof.
  intros [Hok Hk] [Hr Hf]%ih_elements_spec; [|done]. split; [|done].
  specialize (Hk k v Hf). rewrite u32_small in Hk by done. lia.
Qed.

Lemma set_missing_same jb h : j_missing_seq_hash jb = Some h ->
  jb <| j_missing_seq_hash := Some h |> = jb.
Proof. intros <-. by destruct jb. Qed.

Lemma nack_loop_ends fuel : forall now jb h, j_missing_seq_hash jb = Some h -> missing_ok h ->
  (key_count h < fuel)%nat ->
  exists h' least, nack_loop fuel now jb = Some (jb <| j_missing_seq_hash := Some h' |>, least) /\
    loses (expired jb) h h' /\
    (least <> 0 -> exists k, 0 <= k < 65536 /\ is_Some (ih_find h' k) /\ least = ntohs k).
Proof.
  induction fuel as [|fuel IH]; intros now jb h Hm Hok Hf; [lia|]. cbn [nack_loop]. rewrite Hm. cbn [from_option].
  destruct (nack_scan now jb (ih_elements h) 0) as [seq|least] eqn:Es.
  - apply nack_scan_inl in Es as (var & t & Hin & -> & Hexp).
    destruct (element_key h var t Hok Hin) as [Hr Hv].
    rewrite (u16_small var) in * by done. unfold htons. rewrite ntohs_ntohs by done.
    unfold missing_delete. rewrite Hm.
    pose proof (key_count_delete h var t Hok Hr Hv) as Hlt.
    pose proof (missing_ok_delete h var Hok) as Hok'.
    assert (Hfd : forall k, ih_find (ih_delete h var).1 k = if u32 var =? u32 k then None else ih_find h k)
      by (intros; apply ih_find_delete, Hok).
    destruct (ih_delete h var) as [h1 v1]. cbn [fst] in *.
    destruct (IH now (jb <| j_missing_seq_hash := Some h1 |>) h1) as (h' & least & -> & Hl & Hleast); [done..|lia|].
    exists h', least. split; [by destruct jb|]. split; [|done].
    destruct Hl as (Hok2 & Hsub & Hlost). split_and!; [done|..].
    + intros k Hk%Hsub. rewrite Hfd in Hk. case_if_in Hk E; [by destruct Hk|done].
    + intros k Hk Hn. destruct (u32 var =? u32 k) eqn:E.
      * boolify. rewrite <- E, u32_small by lia. exact Hexp.
      * apply Hlost; [|done]. by rewrite Hfd, E.
  - exists h, least. rewrite set_missing_same by done. split; [done|]. split.
    + split_and!; [done|done|]. by intros k ? ?.
    + intros Hne. apply nack_scan_inr in Es as [?|(var & t & Hin & ->)]; [done|].
      destruct (element_key h var t Hok Hin) as [Hr Hv]. exists var.
      rewrite u16_small by done. split; [done|]. split; [by eexists|done].
Qed.

(** Deleting a key and inserting it again keeps the set of keys. *)
Definition same_keys (h h' : H Z) : Prop :=
  missing_ok h' /\ forall k, is_Some (ih_find h' k) <-> is_Some (ih_find h k).

Lemma readd_same_keys (h : H Z) k v : missing_ok h -> 0 <= k < 65536 -> is_Some (ih_find h k) ->
  same_keys h (ih_insert (ih_delete h k).1 k v).
Proof.
  intros Hok Hk Hin. pose proof (missing_ok_delete h k Hok) as Hok'. split.
  - by apply missing_ok_insert.
  - intros k'. rewrite ih_find_insert by apply Hok'. rewrite ih_find_delete by apply Hok.
    case_if E; [|done]. boolify. split; [intros _|by eexists].
    rewrite <- ih_find_u32, <- E, ih_find_u32 by apply Hok. done.
Qed.

Lemma same_keys_trans h1 h2 h3 : same_keys h1 h2 -> same_keys h2 h3 -> same_keys h1 h3.
Proof. intros [_ H12] [Hok H23]. split; [done|]. intros k. by rewrite H23. Qed.

Lemma missing_delete_Some jb h k : j_missing_seq_hash jb = Some h -> missing_ok h ->
  missing_delete jb k = (jb <| j_missing_seq_hash := Some (ih_delete h k).1 |>, ih_find h k).
Proof.
  intros Hm [Hok _]. unfold missing_delete. rewrite Hm. pose proof (ih_delete_ret h k Hok) as Hr.
  destruct (ih_delete h k). simpl in *. by subst.
Qed.

Lemma delete_absent_same_keys (h : H Z) k : missing_ok h -> ih_find h k = None ->
  same_keys h (ih_delete h k).1.
Proof.
  intros Hok Hn. split; [by apply missing_ok_delete|]. intros k'.
  rewrite ih_find_delete by apply Hok. case_if E; [|done]. boolify.
  rewrite <- (ih_find_u32 h k'), <- E, ih_find_u32, Hn by apply Hok. done.
Qed.

Lemma testbit_lor_shiftl b i j : 0 <= i -> 0 <= j ->
  Z.testbit (Z.lor b (Z.shiftl 1 i)) j = Z.testbit b j || (j =? i).
Proof.
  intros Hi Hj. rewrite Z.lor_spec. f_equal. rewrite Z.shiftl_1_l, Z.pow2_bits_eqb by done.
  apply Z.eqb_sym.
Qed.

Definition follow_key (least j : Z) : Z := htons (u16 (least + j + 1)).

(** The bitmask loop reports which of the following numbers are in the table. *)
Lemma nack_blp_spec n : forall i now least jb h blp,
  j_missing_seq_hash jb = Some h -> missing_ok h -> 0 <= i ->
  exists h' blp', nack_blp n i now least jb blp = (jb <| j_missing_seq_hash := Some h' |>, blp') /\
    same_keys h h' /\
    forall j, 0 <= j -> Z.testbit blp' j = Z.testbit blp j ||
      ((i <=? j) && (j <? i + Z.of_nat n) && bool_decide (is_Some (ih_find h (follow_key least j)))).
Proof.
  induction n as [|n IH]; intros i now least jb h blp Hm Hok Hi; cbn [nack_blp].
  - exists h, blp. rewrite set_missing_same by done. split; [done|]. split; [by split|].
    intros j Hj. destruct (Z.leb_spec i j), (Z.ltb_spec j (i + Z.of_nat 0)); try lia; by rewrite orb_false_r.
  - fold (follow_key least i). rewrite (missing_delete_Some jb h) by done.
    set (k := follow_key least i). assert (Hk : 0 <= k < 65536) by apply ntohs_range.
    destruct (ih_find h k) as [v|] eqn:Ef.
    + pose proof (readd_same_keys h k now Hok Hk) as Hr. rewrite Ef in Hr.
      specialize (Hr (ex_intro _ v eq_refl)). set (h1 := ih_insert (ih_delete h k).1 k now) in *.
      destruct (IH (i + 1) now least (missing_insert (jb <| j_missing_seq_hash := Some (ih_delete h k).1 |>) k now)
        h1 (Z.lor blp (Z.shiftl 1 i))) as (h' & blp' & -> & Hs & Hb); [done|apply Hr|lia|].
      exists h', blp'. split; [by destruct jb|]. split; [by eapply same_keys_trans|].
      intros j Hj. rewrite Hb, testbit_lor_shiftl by lia. rewrite <- !orb_assoc. f_equal.
      assert (Hd : forall x, bool_decide (is_Some (ih_find h1 x)) = bool_decide (is_Some (ih_find h x))).
      { intros x. apply bool_decide_ext, Hr. }
      rewrite Hd. destruct (Z.eqb_spec j i) as [->|Hne].
      * fold k. rewrite Ef, (bool_decide_eq_true_2 (is_Some (Some v))) by (by eexists).
        destruct (Z.leb_spec i i), (Z.ltb_spec i (i + Z.of_nat (S n))); lia.
      * f_equal. destruct (Z.leb_spec (i + 1) j), (Z.ltb_spec j (i + 1 + Z.of_nat n)),
          (Z.leb_spec i j), (Z.ltb_spec j (i + Z.of_nat (S n))); try lia; done.
    + pose proof (delete_absent_same_keys h k Hok Ef) as Hr.
      destruct (IH (i + 1) now least (jb <| j_missing_seq_hash := Some (ih_delete h k).1 |>)
        (ih_delete h k).1 blp) as (h' & blp' & -> & Hs & Hb); [done|apply Hr|lia|].
      exists h', blp'. split; [by destruct jb|]. split; [by eapply same_keys_trans|].
      intros j Hj. rewrite Hb by lia. f_equal.
      assert (Hd : forall x, bool_decide (is_Some (ih_find (ih_delete h k).1 x)) = bool_decide (is_Some (ih_find h x))).
      { intros x. apply bool_decide_ext, Hr. }
      rewrite Hd. destruct (Z.eq_dec j i) as [->|Hne].
      * fold k. rewrite Ef, (bool_decide_eq_false_2 (is_Some (@None Z))) by (by intros [? ?]).
        by rewrite !andb_false_r.
      * f_equal. destruct (Z.leb_spec (i + 1) j), (Z.ltb_spec j (i + 1 + Z.of_nat n)),
          (Z.leb_spec i j), (Z.ltb_spec j (i + Z.of_nat (S n))); try lia; done.
Qed.

Lemma key_count_le (h : H Z) : (key_count h <= Z.to_nat 65536)%nat.
Proof.
  unfold key_count. etransitivity; [apply List.filter_length_le|].
  by rewrite length_map, List.length_seq.
Qed.

(** The wire format of an acknowledgement: the number in the low half, the
    bitmask in the high half. *)
Lemma nack_fields least blp :
  let nack := Z.lor (htons least) (Z.shiftl (htons blp) 16) in
  Z.land nack 65535 = htons least /\
  forall j, 0 <= j < 16 -> Z.testbit (ntohs (Z.shiftr nack 16)) j = Z.testbit blp j.
Proof.
  pose proof (ntohs_range least) as Hl. pose proof (ntohs_range blp) as Hb. unfold htons.
  cbv zeta. rewrite Z.lor_comm, shiftl_lor_add by lia. split.
  - change 65535 with (Z.ones 16). rewrite Z.land_ones, Z.add_comm, Z_mod_plus_full by lia.
    by apply Z.mod_small.
  - intros j Hj. rewrite Z.shiftr_div_pow2, Z.div_add_l, Z.div_small, Z.add_0_r by lia.
    rewrite (ntohs_u16 blp), ntohs_ntohs by apply u16_range.
    unfold u16. change 65536 with (2 ^ 16). apply Z.mod_pow2_bits_low. lia.
Qed.

Lemma pop_nack_ok jb (now : Z) (fuel : nat) :
  control_ok (control_of jb) -> j_type jb = SJB_VIDEO -> (Z.to_nat 65536 < fuel)%nat ->
  exists nack h h',
    j_missing_seq_hash jb = Some h /\
    switch_jb_pop_nack fuel now jb = Some (jb <| j_missing_seq_hash := Some h' |>, nack) /\
    loses (expired jb) h h' /\
    (nack <> 0 -> exists seq, 1 <= seq < 65536 /\ Z.land nack 65535 = htons seq /\
       is_Some (ih_find h' (htons seq)) /\
       forall j, 0 <= j < 16 ->
         Z.testbit (ntohs (Z.shiftr nack 16)) j =
         bool_decide (is_Some (ih_find h' (follow_key seq j)))).
Proof.
  intros Hc Ht Hf. destruct (co_missing _ Hc Ht) as [h Hm]. simpl in Hm.
  pose proof (co_missing_ok _ Hc h Hm) as Hok.
  unfold switch_jb_pop_nack. rewrite Ht. cbn [is_video negb].
  destruct (nack_loop_ends fuel now jb h Hm Hok) as (h1 & least & -> & Hl & Hleast).
  { pose proof (key_count_le h). lia. }
  unfold mbind, option_bind. pose proof (proj1 Hl) as Hok1. destruct (Z.eqb_spec least 0) as [->|Hne].
  { exists 0, h, h1. by split_and!. }
  destruct (Hleast Hne) as (k & Hk & Hin & ->). unfold htons. rewrite ntohs_ntohs by done.
  rewrite (missing_delete_Some _ h1) by done. pose proof (readd_same_keys h1 k now Hok1 Hk Hin) as Hs1.
  destruct Hin as [v Hv]. rewrite Hv. set (h2 := ih_insert (ih_delete h1 k).1 k now) in *.
  destruct (nack_blp_spec 16 0 now (ntohs k)
    (missing_insert (jb <| j_missing_seq_hash := Some (ih_delete h1 k).1 |>) k now) h2 0)
    as (h3 & blp & Hblp & Hs3 & Hb); [done|apply Hs1|lia|].
  match goal with |- context [nack_blp 16 0 now (ntohs k) ?j 0] =>
    replace (nack_blp 16 0 now (ntohs k) j 0) with (jb <| j_missing_seq_hash := Some h3 |>, blp)
      by (symmetry; exact Hblp) end.
  pose proof (same_keys_trans _ _ _ Hs1 Hs3) as Hs.
  pose proof (nack_fields (ntohs k) blp) as [Hlow Hbits]. unfold htons in Hlow, Hbits.
  rewrite ntohs_ntohs in Hlow, Hbits by done.
  eexists _, h, h3. split; [done|]. split; [reflexivity|]. split.
  - destruct Hl as (_ & Hsub & Hlost). destruct Hs as [Hok3 Hs]. split_and!; [done|..].
    + intros x Hx%Hs. by apply Hsub.
    + intros x Hx Hn. apply Hlost; [done|]. by rewrite <- Hs.
  - intros _. exists (ntohs k). pose proof (ntohs_range k). rewrite ntohs_ntohs by done.
    split; [lia|]. split; [exact Hlow|]. split; [apply Hs; by eexists|].
    intros j Hj. rewrite Hbits, Hb by lia. rewrite Z.bits_0, orb_false_l.
    destruct (Z.leb_spec 0 j), (Z.ltb_spec j (0 + Z.of_nat 16)); try lia. simpl.
    apply bool_decide_ext. symmetry. apply Hs3.
Qed.

(** ** Sequences of operations *)
Inductive jb_op :=
| JPut (packet : rtp_packet) (len : Z)
| JGet (packet : rtp_packet) (len : Z)
| JPopNack (now : Z)
| JReset
| JPoll
| JSetFrames (min_frame_len max_frame_len : Z)
| JSetSession (depth : Z) (var : option Z)
| JDebugLevel (level : Z).

(** [None]: an access out of bounds or a loop that does not end. *)
Definition exec_jb_op jb (op : jb_op) : option (switch_jb (H:=H)) :=
  match op with
  | JPut packet len =>
    match switch_jb_put_packet jb packet len with Ret r => r | _ => None end
  | JGet packet len => Some (switch_jb_get_packet jb packet len).1.1.1
  | JPopNack now => fst <$> switch_jb_pop_nack (Z.to_nat 65537) now jb
  | JReset => Some (switch_jb_reset jb)
  | JPoll => Some (switch_jb_poll jb).1
  | JSetFrames a b => Some (switch_jb_set_frames jb a b)
  | JSetSession depth var => Some (switch_jb_set_session jb depth var)
  | JDebugLevel level => Some (switch_jb_debug_level jb level)
  end.

Fixpoint exec_jb_ops jb (ops : list jb_op) : option (switch_jb (H:=H)) :=
  match ops with
  | [] => Some jb
  | op :: ops => jb ← exec_jb_op jb op; exec_jb_ops jb ops
  end.

Definition jb_op_ok (op : jb_op) : Prop :=
  match op with
  | JPut packet len => 0 <= p_seq packet < 65536 /\ len <= sizeof_body
  | JSetFrames a b => 1 <= a <= b /\ b < 4294967295
  | _ => True
  end.

(** A buffer that reads by sequence number, with consistent parts. *)
Record jb_ready jb : Prop := {
  jr_store : store_ok (store_of jb);
  jr_sound : hash_sound (store_of jb);
  jr_control : control_ok (control_of jb);
  jr_samples : j_samples_per_frame jb = 0
}.

Lemma ready_step jb jb' : jb_ready jb -> store_keeps jb jb' -> controls jb jb' -> jb_ready jb'.
Proof.
  intros [Hs Hh Hc Hz] [Hs' Hh'] [Hf Hc']. split; [done|auto|auto|].
  apply (f_equal (fun f => f.1.1.1.2)) in Hf. by rewrite <- Hz.
Qed.

Lemma create_store_ok type a b own : store_ok (store_of (switch_jb_create (H:=H) type a b own)).
Proof.
  split; simpl; try done.
  - apply ih_init_ok.
  - intros k id. by rewrite ih_find_init.
Qed.

Lemma create_ready type a b own : 1 <= a <= b -> b < 4294967295 ->
  jb_ready (switch_jb_create (H:=H) type a b own).
Proof.
  intros Hab Hb. split; [apply create_store_ok|..|done].
  - intros k id. simpl. by rewrite ih_find_init.
  - split; simpl; try done; try lia.
    + intros ->. by eexists.
    + destruct type; simpl; try done. intros h [= <-]. apply missing_ok_init.
Qed.

Lemma if_frame_len (c : bool) jb v :
  (if c then jb <| j_frame_len := v |> else jb) = jb <| j_frame_len := if c then v else j_frame_len jb |>.
Proof. by destruct c, jb. Qed.
Lemma if_highest (c : bool) jb v :
  (if c then jb <| j_highest_frame_len := v |> else jb) =
  jb <| j_highest_frame_len := if c then v else j_highest_frame_len jb |>.
Proof. by destruct c, jb. Qed.

Lemma set_frames_eq jb a b :
  let f1 := if j_frame_len jb >? b then b else j_frame_len jb in
  let f2 := if f1 <? a then a else f1 in
  let f := if j_frame_len jb =? j_min_frame_len jb then a else f2 in
  let h := if f2 >? j_highest_frame_len jb then f2 else j_highest_frame_len jb in
  switch_jb_set_frames jb a b =
  jb <| j_min_frame_len := a |> <| j_max_frame_len := b |> <| j_frame_len := f |>
     <| j_highest_frame_len := h |>.
Proof.
  unfold switch_jb_set_frames. cbv zeta. rewrite !if_frame_len, if_highest. by destruct jb.
Qed.

Lemma set_frames_controls jb a b : 1 <= a <= b -> b < 4294967295 -> control_ok (control_of jb) ->
  control_ok (control_of (switch_jb_set_frames jb a b)).
Proof.
  intros Hab Hb [C1 C2 C3 C4 C5 C6 C7]. simpl in C1, C2, C3, C4, C5, C6, C7.
  rewrite set_frames_eq. cbv zeta.
  set (f1 := if j_frame_len jb >? b then b else j_frame_len jb).
  assert (f1 <= b) by (unfold f1; case_if E; lia). clearbody f1.
  set (f2 := if f1 <? a then a else f1).
  assert (a <= f2 <= b) by (unfold f2; case_if E; lia). clearbody f2.
  set (f := if _ =? _ then a else f2).
  assert (a <= f <= b /\ f <= f2) as [? ?] by (unfold f; case_if E; lia). clearbody f.
  set (h := if f2 >? _ then f2 else _).
  assert (f2 <= h) by (unfold h; case_if E; lia). clearbody h.
  split; simpl; try done; lia.
Qed.

Lemma set_session_same jb depth var :
  store_of (switch_jb_set_session jb depth var) = store_of jb /\
  control_of (switch_jb_set_session jb depth var) = control_of jb.
Proof. unfold switch_jb_set_session. simpl. by repeat case_match. Qed.


Lemma ready_missing jb h h' : jb_ready jb -> j_missing_seq_hash jb = Some h -> missing_ok h' ->
  jb_ready (jb <| j_missing_seq_hash := Some h' |>).
Proof.
  intros [Hs Hh [C1 C2 C3 C4 C5 C6 C7] Hz] Hm Hok. split; [done..| |done]. simpl in *.
  split; simpl; try done.
  - intros _. by eexists.
  - by intros h0 [= <-].
Qed.

Lemma exec_jb_op_ok jb op : jb_ready jb -> jb_op_ok op ->
  exists jb', exec_jb_op jb op = Some jb' /\ jb_ready jb'.
Proof.
  intros Hr Hop. pose proof Hr as [Hs Hh Hc Hz]. destruct op; simpl in Hop; unfold exec_jb_op.
  - destruct Hop as [Hp Hl]. destruct (put_packet_ready jb packet len Hs Hc Hp Hl) as (jb' & -> & ? & ?).
    exists jb'. split; [done|]. by eapply ready_step.
  - eexists. split; [done|]. pose proof (get_packet_controls jb packet len Hs) as C.
    destruct (switch_jb_get_packet jb packet len) as [[[jb' p'] l'] st] eqn:E. cbn [fst] in *.
    apply get_packet_keeps in E as [_ E]; [|done]. by apply (ready_step jb); [|apply E|].
  - destruct (j_type jb) eqn:Et.
    + destruct (pop_nack_ok jb now (Z.to_nat 65537) Hc Et) as (nack & h & h' & Hm & -> & Hl & _); [lia|].
      eexists. split; [reflexivity|]. eapply ready_missing; [done..|apply Hl].
    + unfold switch_jb_pop_nack. rewrite Et. by exists jb.
    + unfold switch_jb_pop_nack. rewrite Et. by exists jb.
  - eexists. split; [done|]. apply (ready_step jb); [done|by apply reset_keeps|by apply controls_reset].
  - eexists. split; [done|]. apply (ready_step jb); [done| |apply poll_controls].
    apply keeps_same; [done|apply poll_store].
  - eexists. split; [done|]. destruct Hop as [? ?]. split.
    + by rewrite set_frames_eq.
    + by rewrite set_frames_eq.
    + by apply set_frames_controls.
    + by rewrite set_frames_eq.
  - eexists. split; [done|]. destruct (set_session_same jb depth var) as [S C].
    apply (ready_step jb); [done|by apply keeps_same|by apply controls_same].
  - eexists. split; [done|]. by apply (ready_step jb); [|apply keeps_same|apply controls_same].
Qed.

Lemma exec_jb_ops_ok ops : forall jb, jb_ready jb -> Forall jb_op_ok ops ->
  exists jb', exec_jb_ops jb ops = Some jb' /\ jb_ready jb'.
Proof.
  induction ops as [|op ops IH]; intros jb Hr Hops; [by exists jb|].
  apply Forall_cons in Hops as [Hop Hops].
  destruct (exec_jb_op_ok jb op Hr Hop) as (jb1 & E & Hr1). simpl. rewrite E. simpl. by apply IH.
Qed.

(** C6: a jitter buffer that reads by sequence number (timestamp mode is never switched
    on and no flag is set), created with [1 <= min <= max < 2^32 - 1], survives every
    sequence of puts of packets that fit a node, reads, acknowledgement queries, resets,
    polls, changes of the frame length to [1 <= a <= b < 2^32 - 1], and changes of the
    session and the debug level: no access leaves a node, every loop ends (the trimming
    loop of put and the two loops of the acknowledgements included), the counters
    [allocated_nodes] and [visible_nodes] are exact, every entry of the table by
    sequence number leads to a visible node with that number, and the frame length stays
    within [min] and [max]. The conditions are needed: the cases of longer packets, of
    timestamp mode and of a minimum of 0 are among those of the file JbCases
    ([put_packet_overflows], [ts_mode_leaves_stale_entry], [zero_min_frame_len_stalls]).
    *)
Theorem jitterbuffer_invariant type (min max : Z) (own : bool) (ops : list jb_op) :
  1 <= min <= max -> max < 4294967295 -> Forall jb_op_ok ops ->
  exists jb, exec_jb_ops (switch_jb_create type min max own) ops = Some jb /\
    store_ok (store_of jb) /\ hash_sound (store_of jb) /\
    j_min_frame_len jb <= j_frame_len jb <= j_max_frame_len jb.
Proof.
  intros Hm Hx Hops. destruct (exec_jb_ops_ok ops _ (create_ready type min max own Hm Hx) Hops)
    as (jb & E & [Hs Hh Hc _]). exists jb. split_and!; try done; apply (co_len _ Hc).
Qed.

(** [switch_jb_pop_nack] on a video buffer ends within 65537 passes over the
    missing numbers.  It forgets only numbers that lie more than [frame_len]
    behind the read position, and what it returns is an acknowledgement for a
    number that is still missing, whose bitmask has bit [j] set exactly when
    the number [j + 1] after it is missing too. *)
Theorem pop_nack_reports_missing jb (now : Z) :
  jb_ready jb -> j_type jb = SJB_VIDEO ->
  exists nack h h',
    j_missing_seq_hash jb = Some h /\
    switch_jb_pop_nack (Z.to_nat 65537) now jb =
      Some (jb <| j_missing_seq_hash := Some h' |>, nack) /\
    loses (expired jb) h h' /\
    (nack <> 0 -> exists seq, 1 <= seq < 65536 /\ Z.land nack 65535 = htons seq /\
       is_Some (ih_find h' (htons seq)) /\
       forall j, 0 <= j < 16 ->
         Z.testbit (ntohs (Z.shiftr nack 16)) j =
         bool_decide (is_Some (ih_find h' (follow_key seq j)))).
Proof. intros Hr Ht. apply pop_nack_ok; [apply Hr|done|lia]. Qed.

(** [switch_jb_reset] empties the buffer: no node is visible, the count is
    0, nothing is found by sequence number, and the read and write positions
    are unset; the allocated nodes stay. *)
Theorem reset_empties jb : store_ok (store_of jb) -> hash_sound (store_of jb) ->
  let jb' := switch_jb_reset jb in
  visibles (j_node_list jb') = [] /\ j_visible_nodes jb' = 0 /\ j_complete_frames jb' = 0 /\
  j_target_seq jb' = 0 /\ j_write_init jb' = false /\ j_read_init jb' = false /\
  ids (j_node_list jb') = ids (j_node_list jb) /\
  forall seq packet len,
    switch_jb_get_packet_by_seq jb' seq packet len = (packet, len, SWITCH_STATUS_NOTFOUND).
Proof.
  intros Hs Hh. destruct (reset_spec jb Hs) as (_ & Hl & He & _ & Ht & Hf & Hv & Hw & Hr & _).
  cbv zeta in *. rewrite Hl, visibles_hid. split_and!; try done.
  - unfold ids. rewrite map_map. apply map_ext, hid_id.
  - intros seq packet len. unfold switch_jb_get_packet_by_seq, hash_find_node. by rewrite (He Hh).
Qed.

(** The loop with which a queue-only buffer makes room ends, with room for
    the longest frame seen, whenever an empty buffer has that room. *)
Theorem drop_loop_makes_room jb : store_ok (store_of jb) ->
  j_max_packet_len jb <= u32 (j_max_frame_len jb * 2) ->
  exists jb', drop_loop (S (length (j_node_list jb))) jb = Some jb' /\ store_ok (store_of jb') /\
    j_max_packet_len jb' <= u32 (j_max_frame_len jb' * 2 - j_visible_nodes jb').
Proof.
  intros Hs Hm. destruct (drop_loop_ends (S (length (j_node_list jb))) jb Hs Hm)
    as (jb' & Hd & [Hs' _] & Ho & Hroom).
  { pose proof (zlen_visibles_le (j_node_list jb)) as Hle. unfold zlen in Hle. lia. }
  assert (Hc : j_max_packet_len jb' = j_max_packet_len jb /\ j_max_frame_len jb' = j_max_frame_len jb)
    by (by rewrite Ho).
  exists jb'. destruct Hc as [-> ->]. done.
Qed.

(** ** The jump back to the start of a read *)
Definition kept jb : jb_type * Z := (j_type jb, j_dropped jb).

Lemma hide_node_kept jb nd pop : kept (hide_node jb nd pop) = kept jb.
Proof.
  unfold hide_node. cbv zeta. set (jb1 := if n_visible nd then _ else jb).
  assert (H1 : kept jb1 = kept jb) by (unfold jb1; case_if E; [by destruct pop|done]).
  clearbody jb1. rewrite <- H1. unfold unhash_node. cbv zeta.
  destruct (ih_delete _ (seq_of nd)) as [h [v|]]; [|done]. by case_if E.
Qed.

Lemma drop_ts_kept jb ts : kept (drop_ts jb ts) = kept jb.
Proof.
  unfold drop_ts. cbv zeta. set (sel := fun np => _).
  assert (Hw : kept (hide_where sel jb) = kept jb).
  { unfold hide_where. generalize (j_node_list jb) as l. intros l. revert jb.
    induction l as [|n l IH]; intros jb; simpl; [done|]. rewrite IH.
    case_if E; [apply hide_node_kept|done]. }
  case_if E; [|done]. rewrite <- Hw. unfold sort_free_nodes. by destruct (sort_nodes _ _).
Qed.

Lemma scan_ahead_kept n : forall jb jb' node again, scan_ahead n jb = (jb', node, again) ->
  j_type jb' = j_type jb /\ (again = true -> j_dropped jb' = u32 (j_dropped jb + 1)).
Proof.
  induction n as [|n IH]; intros jb jb' node again; cbn [scan_ahead]; [by intros [= <- <- <-]|].
  cbv zeta. destruct (hash_find_node _ _ _) as [nd|]; [case_if E|].
  - intros [= <- <- <-].
    pose proof (drop_ts_kept ((increment_seq jb) <| j_dropped ::= fun d => u32 (d + 1) |>)
      (p_ts (n_packet nd))) as Hk.
    split; [exact (f_equal fst Hk)|]. intros _. exact (f_equal snd Hk).
  - by intros [= <- <- <-].
  - intros Hs. by apply IH in Hs as [? ?].
Qed.

Lemma resync_dropped jb : is_video (j_type (resync jb)) = true -> j_dropped (resync jb) = 0.
Proof.
  unfold resync. case_if E.
  - intros _. unfold request_refresh. by case_if E2.
  - intros Hv. rewrite Hv in E. simpl in E. by apply negb_false_iff, Z.eqb_eq in E.
Qed.

Lemma resync_target jb : is_video (j_type jb) = true -> j_dropped jb <> 0 ->
  j_target_seq (resync jb) = 0.
Proof.
  intros Hv Hd. unfold resync. rewrite Hv, (proj2 (Z.eqb_neq _ _)) by done. simpl.
  unfold request_refresh. by case_if E.
Qed.

(** The read loop of [jb_next_packet_by_seq] jumps back to its start at
    most once: with more than two passes allowed the result is the same. *)
Theorem next_by_seq_one_jump jb (extra : nat) : next_by_seq (2 + extra) jb = next_by_seq 2 jb.
Proof.
  change (2 + extra)%nat with (S (S extra)).
  assert (Hlast : forall jb f, is_video (j_type jb) = true -> j_dropped jb <> 0 ->
    next_by_seq (S f) jb = next_by_seq 1 jb).
  { intros jb1 f Hv Hd. cbn [next_by_seq]. by rewrite (resync_target jb1). }
  cbn [next_by_seq] in Hlast |- *. cbv zeta. pose proof (resync_dropped jb) as Hd.
  revert Hd. generalize (resync jb) as jb1. intros jb1 Hd.
  case_if E1; [done|]. destruct (hash_find_node _ _ _); [done|]. case_if E2; [|done].
  set (jb2 := request_refresh _).
  assert (H2 : kept jb2 = kept jb1).
  { unfold jb2, request_refresh. case_if E3; unfold jb_frame_inc_line; cbv zeta; repeat case_match; done. }
  clearbody jb2. destruct (scan_ahead 10 jb2) as [[jb3 node] again] eqn:Es.
  apply scan_ahead_kept in Es as [Ht Hdr]. destruct again; [|done].
  apply (Hlast jb3 extra).
  - rewrite Ht. by rewrite (f_equal fst H2 : j_type jb2 = j_type jb1).
  - rewrite Hdr by done. rewrite (f_equal snd H2 : j_dropped jb2 = j_dropped jb1), Hd by done. done.
Qed.

End Props.
