(* ===== verification/JbAudio.v ===== *)
(** * JbAudio: the jitter buffer as a reordering buffer

    For an audio stream read by sequence number, the buffer refines an abstract
    one: a bag of packets with distinct sequence numbers and a read position.
    Packets put in any order come out in order. *)
From S2P Require Import Prelude CoreHash JbSort JitterBuffer JbInv JbProps.
From Stdlib Require Import ZArith Lia Permutation Sorted.
From stdpp Require Import base numbers option list.

Local Open Scope Z_scope.

Section Audio.
Context {H : Type -> Type} `{!IntHash H} `{!IntHashLaws H}.
Implicit Types jb : switch_jb (H:=H).
Implicit Types ps : list rtp_packet.

(** The buffer holds exactly the packets [ps]. *)
Record audio_rel jb ps : Prop := {
  ar_ready : jb_ready jb;
  ar_type : j_type jb = SJB_AUDIO;
  ar_dropped : j_highest_dropped_ts jb = 0;
  ar_view : map n_packet (visibles (j_node_list jb)) ≡ₚ ps;
  ar_distinct : NoDup (map p_seq ps);
  ar_hash : forall p, p ∈ ps -> is_Some (ih_find (j_node_hash jb) (p_seq p));
  ar_frames : j_complete_frames jb = zlen ps;
  ar_size : zlen ps < 4294967296;
  ar_target : 0 <= j_target_seq jb < 65536
}.

Lemma create_audio_rel min max own : 1 <= min <= max -> max < 4294967295 ->
  audio_rel (switch_jb_create (H:=H) SJB_AUDIO min max own) [].
Proof.
  intros Hm Hx. split; try done.
  - by apply create_ready.
  - apply NoDup_nil_2.
  - intros p Hp. by apply elem_of_nil in Hp.
Qed.

(** A packet of the buffer is found through the table. *)
Lemma audio_find jb ps p : audio_rel jb ps -> p ∈ ps ->
  exists n, hash_find_node jb (j_node_hash jb) (p_seq p) = Some n /\ n_packet n = p /\
    n_visible n = true /\ n ∈ j_node_list jb.
Proof.
  intros [Hr _ _ Hv Hd Hh _ _ _] Hp. destruct (Hh p Hp) as [id Hid].
  destruct (jr_sound _ Hr _ _ Hid) as (n & Hin & Hnid & Hvis & Hseq). simpl in Hin.
  pose proof (jr_store _ Hr) as Hs.
  assert (Hrange : forall m, m ∈ j_node_list jb -> 0 <= seq_of m < 65536).
  { intros m Hm. pose proof (so_nodes _ Hs) as Hn. rewrite Forall_forall in Hn. by apply Hn. }
  assert (Hview : forall m, m ∈ j_node_list jb -> n_visible m = true -> n_packet m ∈ ps).
  { intros m Hm Hmv. rewrite <- Hv. apply list_elem_of_In, in_map, list_elem_of_In.
    by apply elem_visibles. }
  assert (Hpn : exists m, m ∈ j_node_list jb /\ n_packet m = p).
  { rewrite <- Hv in Hp. apply list_elem_of_In, in_map_iff in Hp as (m & <- & Hm).
    apply list_elem_of_In, elem_visibles in Hm as [? ?]. by exists m. }
  assert (n_packet n = p) as Hnp.
  { destruct Hpn as (m & Hm & Hmp). specialize (Hrange m Hm). rewrite Hmp in Hrange.
    rewrite u32_small in Hseq by lia.
    specialize (Hview n Hin Hvis).
    apply list_elem_of_lookup in Hview as [i Hi]. apply list_elem_of_lookup in Hp as [j Hj].
    assert (i = j) as ->; [|congruence].
    apply (NoDup_lookup (map p_seq ps) i j (p_seq p)); [done|..].
    - change (map p_seq ps) with (p_seq <$> ps). rewrite list_lookup_fmap, Hi. simpl. by rewrite Hseq.
    - change (map p_seq ps) with (p_seq <$> ps). by rewrite list_lookup_fmap, Hj. }
  exists n. split_and!; try done. unfold hash_find_node. rewrite Hid. simpl.
  apply get_node_Some; [by apply jb_ids_NoDup|done].
Qed.

(** What a change of the node store leaves alone. *)
Lemma store_only_fields jb jb' : store_only jb jb' ->
  config jb' = config jb /\ j_target_seq jb' = j_target_seq jb /\
  j_last_target_seq jb' = j_last_target_seq jb /\ j_type jb' = j_type jb.
Proof. intros Ho. by rewrite Ho. Qed.

(** ** Put *)
Lemma audio_tail jb id packet : j_type jb = SJB_AUDIO ->
  store_of (add_node_tail jb id packet) = store_of jb /\
  j_complete_frames (add_node_tail jb id packet) = u32 (j_complete_frames jb + 1) /\
  j_target_seq (add_node_tail jb id packet) = j_target_seq jb /\
  config (add_node_tail jb id packet) = config jb.
Proof.
  intros Ht. unfold add_node_tail. cbv zeta.
  set (jb1 := if negb (j_write_init jb) || _ || _ then _ else jb).
  assert (H1 : store_of jb1 = store_of jb /\ j_complete_frames jb1 = j_complete_frames jb /\
    j_target_seq jb1 = j_target_seq jb /\ config jb1 = config jb /\ j_type jb1 = SJB_AUDIO).
  { unfold jb1. by case_if E. }
  clearbody jb1. destruct H1 as (S1 & C1 & T1 & F1 & Ty1). rewrite Ty1. cbn [is_video].
  rewrite <- S1, <- C1, <- T1, <- F1. done.
Qed.

Lemma audio_add jb ps packet len : audio_rel jb ps -> 0 <= p_seq packet < 65536 ->
  p_seq packet ∉ map p_seq ps -> len <= sizeof_body ->
  zlen ps <= u32 (j_max_frame_len jb * 2) -> zlen ps + 1 < 4294967296 ->
  exists jb', add_node jb packet len = Ret jb' /\
    map n_packet (visibles (j_node_list jb')) ≡ₚ packet :: ps /\
    (forall p, p ∈ packet :: ps -> is_Some (ih_find (j_node_hash jb') (p_seq p))) /\
    j_complete_frames jb' = zlen (packet :: ps) /\ j_target_seq jb' = j_target_seq jb /\
    config jb' = config jb.
Proof.
  intros [Hr Ht Hd Hv Hnd Hh Hf Hsz Htg] Hp Hnew Hlen Hcap Hcap2. pose proof (jr_store _ Hr) as Hs.
  unfold add_node. destruct (new_node_cases jb Hs) as [Hall Hfull|jb1 l1 n l2 Hs1 Ho Hcf Hg].
  - exfalso. pose proof (so_allocated _ Hs) as Ha. simpl in Ha. unfold node_mult in Hfull.
    rewrite Ht in Hfull. simpl in Hfull. rewrite Ha in Hfull.
    apply Permutation_length in Hv. rewrite length_map, Hall in Hv. unfold zlen in *.
    rewrite u32_small in Hfull by lia. lia.
  - rewrite Z.gtb_ltb, (proj2 (Z.ltb_ge _ _)) by done.
    fold (fill packet len) (place jb1 (n_id n) packet len). cbv zeta.
    pose proof Hg as (Hl & Hnv & Hvis & _ & Hhash & _).
    destruct (place_ok jb1 l1 n l2 packet len Hs1 Hp Hl Hnv) as (Hs2 & Ho2 & Hl2).
    set (jb2 := place jb1 (n_id n) packet len) in *.
    assert (Hc2 : config jb2 = config jb /\ j_target_seq jb2 = j_target_seq jb /\
      j_complete_frames jb2 = zlen ps /\ j_node_hash jb2 = ih_insert (j_node_hash jb) (p_seq packet) (n_id n)).
    { destruct (store_only_fields _ _ Ho) as (F1 & T1 & _).
      rewrite <- Hf, <- Hcf, <- Hhash, <- F1, <- T1. by split_and!. }
    clearbody jb2. destruct Hc2 as (F2 & T2 & C2 & N2).
    assert (Ty2 : j_type jb2 = SJB_AUDIO).
    { change ((config jb2).1.1.1.1.1.1.1 = SJB_AUDIO). by rewrite F2. }
    rewrite Ty2. cbn [is_video]. rewrite andb_false_r. cbn [andb].
    destruct (audio_tail jb2 (n_id n) packet Ty2) as (S3 & C3 & T3 & F3).
    set (jb3 := add_node_tail jb2 (n_id n) packet) in *. clearbody jb3.
    assert (Hn3 : j_node_list jb3 = j_node_list jb2) by apply (f_equal s_nodes S3).
    assert (Hh3 : j_node_hash jb3 = j_node_hash jb2) by apply (f_equal s_hash S3).
    exists jb3. split; [done|]. rewrite Hn3, Hl2, C3, C2, T3, T2, F3, F2, Hh3, N2. split_and!; try done.
    + rewrite visibles_app. simpl. rewrite Hnv. rewrite map_app. simpl.
      rewrite <- Permutation_middle. rewrite <- map_app, <- visibles_app, Hvis. by rewrite Hv.
    + intros p Hpin. rewrite ih_find_insert by apply (so_hash _ Hs). case_if E; [by eexists|].
      apply elem_of_cons in Hpin as [->|Hpin]; [by rewrite Z.eqb_refl in E|]. by apply Hh.
    + unfold zlen in *. simpl. rewrite u32_small; lia.
Qed.

Lemma audio_put jb ps packet len : audio_rel jb ps -> 0 <= p_seq packet < 65536 ->
  p_seq packet ∉ map p_seq ps -> len <= sizeof_body ->
  zlen ps <= u32 (j_max_frame_len jb * 2) -> zlen ps + 1 < 4294967296 ->
  exists jb', switch_jb_put_packet jb packet len = Ret (Some jb') /\ audio_rel jb' (packet :: ps) /\
    j_target_seq jb' = j_target_seq jb /\ config jb' = config jb.
Proof.
  intros Hrel Hp Hnew Hlen Hcap Hcap2. pose proof Hrel as [Hr Ht Hd Hv Hnd Hh Hf Hsz Htg].
  destruct (put_packet_ready jb packet len (jr_store _ Hr) (jr_control _ Hr) Hp Hlen)
    as (jb' & Hput & Hk & Hc). exists jb'. split; [done|].
  assert (Hr' : jb_ready jb') by (by eapply ready_step).
  unfold switch_jb_put_packet in Hput. cbv zeta in Hput. rewrite Hd in Hput. cbn [negb andb Z.eqb] in Hput.
  assert (Hl' : (if len >=? sizeof_packet then sizeof_packet else len) = len).
  { unfold sizeof_packet, sizeof_body in *. case_if E; [lia|done]. }
  rewrite Hl' in Hput.
  match type of Hput with context [if ?c then _ else track_missing _ _ _] => assert (c = true) as Hb end.
  { change (test_flag (j_flags jb) SJB_QUEUE_ONLY || negb (is_video (j_type jb)) = true).
    rewrite Ht. apply orb_true_r. }
  rewrite Hb in Hput. clear Hb.
  match type of Hput with rbind (add_node ?j _ _) _ = _ => set (jb1 := j) in * end.
  assert (Hrel1 : audio_rel jb1 ps).
  { split; try done. apply (ready_step jb); [done|apply keeps_same; [apply Hr|done]|by apply controls_same]. }
  assert (Hm1 : j_target_seq jb1 = j_target_seq jb /\ config jb1 = config jb).
  { split; [done|]. unfold config, jb1. simpl. by rewrite Hd. }
  assert (Hx1 : j_max_frame_len jb1 = j_max_frame_len jb) by done.
  clearbody jb1. destruct Hm1 as [T1 F1]. rewrite <- Hx1 in Hcap.
  destruct (audio_add jb1 ps packet len) as (jb2 & Ha & Hv2 & Hh2 & C2 & T2 & F2); try done.
  rewrite Ha in Hput. simpl in Hput.
  assert (jb2 = jb') as ->.
  { pose proof (controls_add_node jb1 packet len jb2 (jr_store _ (ar_ready _ _ Hrel1)) Hp Ha) as [_ Hc2].
    pose proof (co_queue _ (Hc2 (jr_control _ (ar_ready _ _ Hrel1)))) as Hq. simpl in Hq.
    destruct (test_flag (j_flags jb2) SJB_QUEUE_ONLY) eqn:Eq; simpl in Hput; [|by injection Hput].
    rewrite Hq in Hput by done. simpl in Hput. by injection Hput. }
  rewrite T2, F2, T1, F1. split_and!; try done. split; try done.
  - change ((config jb').1.1.1.1.1.1.1 = SJB_AUDIO). by rewrite F2, F1.
  - change ((config jb').2 = 0). by rewrite F2, F1.
  - simpl. by apply NoDup_cons.
  - unfold zlen in *. simpl. lia.
  - by rewrite T2, T1.
Qed.

(** ** Get *)
Lemma find_best_min (sel : jb_node -> bool) (key : jb_node -> Z) l : forall acc n,
  fold_left (fun lowest np =>
    if negb (sel np) then lowest
    else match lowest with
         | None => Some np
         | Some b => if key b >? key np then Some np else lowest
         end) l acc = Some n ->
  (forall b, acc = Some b -> key n <= key b) /\ forall m, m ∈ l -> sel m = true -> key n <= key m.
Proof.
  induction l as [|a l IH]; intros acc n; simpl.
  - intros ->. split; [by intros b [= <-]|]. intros m Hm. by apply elem_of_nil in Hm.
  - intros [H1 H2]%IH. destruct (sel a) eqn:Ea; simpl in H1.
    + destruct acc as [b|].
      * rewrite Z.gtb_ltb in H1. destruct (Z.ltb_spec (key a) (key b)); specialize (H1 _ eq_refl).
        -- split; [intros b' [= <-]; lia|]. intros m [->|?]%elem_of_cons; auto.
        -- split; [by intros b' [= <-]|]. intros m [->|?]%elem_of_cons Hs; [lia|auto].
      * split; [done|]. specialize (H1 _ eq_refl). intros m [->|?]%elem_of_cons; auto.
    + split; [done|]. intros m [->|?]%elem_of_cons Hs; [congruence|auto].
Qed.

Lemma lowest_seq_min jb n m : jb_find_lowest_seq jb 0 = Some n -> m ∈ j_node_list jb ->
  n_visible m = true -> ntohs (seq_of n) <= ntohs (seq_of m).
Proof.
  intros E Hm Hv. edestruct (find_best_min
    (fun np => n_visible np && negb (negb (0 =? 0) && negb (0 =? p_ts (n_packet np))))
    (fun np => ntohs (seq_of np))) as [_ Hmin]; [exact E|]. apply Hmin; [done|]. by rewrite Hv.
Qed.

(** The packet to deliver: the one at the read position, or the lowest one when
    there is no position yet. *)
Definition picks (target : Z) ps (p : rtp_packet) : Prop :=
  p ∈ ps /\ if target =? 0 then forall q, q ∈ ps -> ntohs (p_seq p) <= ntohs (p_seq q)
            else p_seq p = target.

Inductive audio_next jb ps : switch_jb * option jb_node -> Prop :=
| an_found n : n ∈ j_node_list jb -> n_visible n = true -> picks (j_target_seq jb) ps (n_packet n) ->
    audio_next jb ps (jb_hit jb, Some n)
| an_missing : j_target_seq jb <> 0 -> (forall p, p ∈ ps -> p_seq p <> j_target_seq jb) ->
    audio_next jb ps (increment_seq (jb_miss jb), None).

Lemma audio_next_ok jb ps : audio_rel jb ps -> ps <> [] -> audio_next jb ps (next_by_seq 2 jb).
Proof.
  intros Hrel Hne. pose proof Hrel as [Hr Ht Hd Hv Hnd Hh Hf Hsz Htg].
  pose proof (jr_store _ Hr) as Hs.
  assert (Hview : forall m, m ∈ j_node_list jb -> n_visible m = true -> n_packet m ∈ ps).
  { intros m Hm Hmv. rewrite <- Hv. apply list_elem_of_In, in_map, list_elem_of_In. by apply elem_visibles. }
  cbn [next_by_seq]. cbv zeta. unfold resync. rewrite Ht. cbn [is_video andb].
  destruct (hash_find_node jb (j_node_hash jb) (j_target_seq jb)) as [n|] eqn:Ef.
  - apply hash_find_node_Some in Ef as [Hid Hin]; [|done].
    destruct (jr_sound _ Hr _ _ Hid) as (n' & Hin' & Hid' & Hvis & Hseq). simpl in Hin'.
    assert (n' = n) as ->.
    { pose proof (jb_ids_NoDup _ Hs) as Hnd'.
      assert (G : get_node (j_node_list jb) (n_id n) = Some n) by (by apply get_node_Some).
      assert (G' : get_node (j_node_list jb) (n_id n) = Some n') by (by apply get_node_Some).
      congruence. }
    rewrite u32_small in Hseq by lia.
    destruct (Z.eqb_spec (j_target_seq jb) 0) as [Hz|Hz]; apply an_found; try done;
      (split; [by apply Hview|]); [|by rewrite (proj2 (Z.eqb_neq _ _))].
    rewrite Hz. simpl. intros q _. rewrite Hseq, Hz. change (ntohs 0) with 0. apply ntohs_range.
  - assert (Habs : forall p, p ∈ ps -> p_seq p <> j_target_seq jb).
    { intros p Hp E. destruct (audio_find jb ps p Hrel Hp) as (n & Hn & _). congruence. }
    destruct (Z.eqb_spec (j_target_seq jb) 0) as [Hz|Hz].
    2: { change (j_type (jb_miss jb)) with (j_type jb). rewrite Ht. by apply an_missing. }
    destruct (jb_find_lowest_seq jb 0) as [n|] eqn:El.
    + destruct (lowest_seq_visible jb n El) as [Hin Hvis]. apply an_found; [done..|].
      split; [by apply Hview|]. rewrite Hz. simpl. intros q Hq. rewrite <- Hv in Hq.
      apply list_elem_of_In, in_map_iff in Hq as (m & <- & Hm%list_elem_of_In%elem_visibles).
      by apply (lowest_seq_min jb); [|apply Hm..].
    + exfalso. edestruct (find_best_spec
        (fun np => n_visible np && negb (negb (0 =? 0) && negb (0 =? p_ts (n_packet np)))))
        as [_ Hnone]. destruct (Hnone El) as [_ Hall].
      destruct ps as [|p ps]; [done|]. assert (Hp : p ∈ p :: ps) by (apply elem_of_cons; by left).
      destruct (audio_find jb _ p Hrel Hp) as (n & _ & _ & Hnv & Hin). specialize (Hall n Hin).
      rewrite Hnv in Hall. done.
Qed.

Definition pos jb : Z * Z * Z * Z * jb_type :=
  (j_target_seq jb, j_complete_frames jb, j_highest_dropped_ts jb, j_consec_miss_count jb, j_type jb).

Lemma frame_inc_pos jb i : pos (jb_frame_inc_line jb i) = pos jb.
Proof. unfold jb_frame_inc_line. cbv zeta. by case_if E. Qed.

Lemma frame_dec_le jb : control_ok (control_of jb) ->
  j_frame_len (jb_frame_inc_line jb (-1)) <= j_frame_len jb.
Proof.
  intros [C1 C2 C3 _ _ _ _]. simpl in C1, C2, C3. unfold jb_frame_inc_line. cbv zeta.
  cbn [Z.eqb Z.gtb Z.compare].
  rewrite u32_small by lia. set (f := if _ >? j_min_frame_len jb then _ else _).
  assert (f <= j_frame_len jb) by (unfold f; case_if E; lia). clearbody f. by case_if E.
Qed.

Lemma period_bitrate_pos jb : pos (period_bitrate jb) = pos jb /\
  j_frame_len (period_bitrate jb) = j_frame_len jb.
Proof. unfold period_bitrate, request_refresh. repeat case_match; done. Qed.

(** The end of a period changes the statistics and at most shortens the frame
    length. *)
Lemma period_step_pos jb : control_ok (control_of jb) ->
  j_target_seq (period_step jb) = j_target_seq jb /\
  j_complete_frames (period_step jb) = j_complete_frames jb /\
  j_highest_dropped_ts (period_step jb) = j_highest_dropped_ts jb /\
  j_type (period_step jb) = j_type jb /\
  j_frame_len (period_step jb) <= j_frame_len jb.
Proof.
  intros Hc. unfold period_step. cbv zeta. case_if E; [|simpl; split_and!; try done; lia].
  match goal with |- context [if ?c then jb_frame_inc_line ?j _ else _] => set (j1 := j) end.
  assert (H1 : pos j1 = pos jb /\ j_frame_len j1 = j_frame_len jb /\ control_of j1 = control_of jb) by done.
  clearbody j1. destruct H1 as (P1 & L1 & C1).
  set (j2 := if _ >=? _ then _ else j1).
  assert (H2 : pos j2 = pos jb /\ j_frame_len j2 <= j_frame_len jb).
  { unfold j2. case_if E2; [|by rewrite L1]. rewrite frame_inc_pos. split; [done|].
    rewrite <- L1. apply frame_dec_le. by rewrite C1. }
  clearbody j2. destruct H2 as [P2 L2].
  match goal with |- context [period_bitrate ?j] => set (j3 := j) end.
  assert (H3 : j_target_seq j3 = j_target_seq j2 /\ j_complete_frames j3 = j_complete_frames j2 /\
    j_highest_dropped_ts j3 = j_highest_dropped_ts j2 /\ j_type j3 = j_type j2 /\
    j_frame_len j3 = j_frame_len j2) by done.
  clearbody j3. destruct H3 as (T3 & F3 & D3 & Y3 & L3).
  destruct (period_bitrate_pos j3) as [P4 L4]. unfold pos in P4, P2. simplify_eq.
  rewrite L4, L3. split_and!; congruence.
Qed.

Lemma audio_rel_step jb jb' ps : audio_rel jb ps -> store_of jb' = store_of jb -> controls jb jb' ->
  j_type jb' = SJB_AUDIO -> j_highest_dropped_ts jb' = 0 -> j_complete_frames jb' = j_complete_frames jb ->
  0 <= j_target_seq jb' < 65536 -> audio_rel jb' ps.
Proof.
  intros [Hr Ht Hd Hv Hnd Hh Hf Hsz Htg] Hst Hc Hty Hdr Hcf Htg'.
  assert (Hn : j_node_list jb' = j_node_list jb) by apply (f_equal s_nodes Hst).
  assert (Hhh : j_node_hash jb' = j_node_hash jb) by apply (f_equal s_hash Hst).
  split; rewrite ?Hn, ?Hhh, ?Hcf; try done.
  apply (ready_step jb); [done|apply keeps_same; [apply Hr|done]|done].
Qed.

(** Removing the node that holds [p] from the list of visible packets. *)
Lemma audio_hide jb ps n ps' : jb_ready jb ->
  map n_packet (visibles (j_node_list jb)) ≡ₚ ps -> NoDup (map p_seq ps) ->
  (forall p, p ∈ ps -> is_Some (ih_find (j_node_hash jb) (p_seq p))) ->
  n ∈ j_node_list jb -> n_visible n = true -> ps ≡ₚ n_packet n :: ps' ->
  let jb' := hide_node jb n true in
  map n_packet (visibles (j_node_list jb')) ≡ₚ ps' /\ NoDup (map p_seq ps') /\
  (forall p, p ∈ ps' -> is_Some (ih_find (j_node_hash jb') (p_seq p))) /\
  store_keeps jb jb' /\ store_only jb jb'.
Proof.
  intros Hr Hv Hnd Hh Hin Hnv Hps. pose proof (jr_store _ Hr) as Hs.
  pose proof Hin as (l1 & l2 & Hl)%list_elem_of_split.
  destruct (hide_node_store jb true l1 n l2 (jb_ids_NoDup _ Hs) Hl) as [Ho Hst].
  assert (Hnl := f_equal s_nodes Hst). assert (Hhs := f_equal s_hash Hst). simpl in Hnl, Hhs.
  cbv zeta. rewrite Hnl, Hhs.
  assert (Hnd' : NoDup (p_seq (n_packet n) :: map p_seq ps')).
  { eapply NoDup_Permutation_proper; [|exact Hnd]. symmetry.
    change (p_seq <$> ps ≡ₚ p_seq <$> (n_packet n :: ps')). by rewrite Hps. }
  apply NoDup_cons in Hnd' as [Hnin Hnd'].
  split_and!; [..|done].
  - rewrite (visibles_perm _ _ (hide_nodes_of_perm true l1 n l2)).
    rewrite visibles_app. simpl. rewrite hid_invisible.
    apply (Permutation_cons_inv (a := n_packet n)). rewrite <- Hps, <- Hv, Hl, visibles_app. simpl.
    rewrite Hnv. rewrite !map_app. simpl. by rewrite Permutation_middle.
  - done.
  - intros p Hp. rewrite ih_find_delete by apply (so_hash _ Hs).
    assert (Hpin : p ∈ ps) by (rewrite Hps; apply elem_of_cons; by right).
    case_if E; [|by apply Hh]. exfalso. boolify.
    assert (Hrange : forall q, q ∈ ps -> 0 <= p_seq q < 65536).
    { intros q Hq. rewrite <- Hv in Hq. apply list_elem_of_In, in_map_iff in Hq as (m & <- & Hm).
      apply list_elem_of_In, elem_visibles in Hm as [Hm _].
      pose proof (so_nodes _ Hs) as Hn. rewrite Forall_forall in Hn. by apply Hn. }
    pose proof (Hrange p Hpin). pose proof (Hrange (n_packet n)) as Hr2. rewrite !u32_small in E.
    + apply Hnin. rewrite E. apply list_elem_of_In, in_map. by apply list_elem_of_In.
    + lia.
    + specialize (Hr2 ltac:(rewrite Hps; apply elem_of_cons; by left)). lia.
  - apply hide_node_keeps; done.
Qed.

Lemma note_read_audio jb nd : j_type jb = SJB_AUDIO ->
  let jb' := note_read jb nd in
  j_complete_frames jb' = u32 (j_complete_frames jb - 1) /\ j_target_seq jb' = j_target_seq jb /\
  j_highest_dropped_ts jb' = j_highest_dropped_ts jb /\ j_type jb' = SJB_AUDIO /\
  j_frame_len jb' = j_frame_len jb.
Proof.
  intros Ht. unfold note_read. cbv zeta. set (jb1 := if negb (j_read_init jb) || _ then _ else jb).
  assert (H1 : pos jb1 = pos jb /\ j_frame_len jb1 = j_frame_len jb) by (unfold jb1; by case_if E).
  clearbody jb1. destruct H1 as [P1 L1]. unfold pos in P1. simplify_eq.
  assert (Ht1 : j_type jb1 = SJB_AUDIO) by congruence. rewrite Ht1. cbn [is_video negb orb].
  simpl. split_and!; congruence.
Qed.

Lemma hide_audio_frames jb nd pop : j_type jb = SJB_AUDIO ->
  j_complete_frames (hide_node jb nd pop) = j_complete_frames jb.
Proof.
  intros Ht. unfold hide_node. cbv zeta. set (jb1 := if n_visible nd then _ else jb).
  assert (H1 : j_type jb1 = SJB_AUDIO /\ j_complete_frames jb1 = j_complete_frames jb).
  { unfold jb1. case_if E; [by destruct pop|done]. }
  clearbody jb1. destruct H1 as [T1 <-]. unfold unhash_node. cbv zeta.
  destruct (ih_delete _ (seq_of nd)) as [h [v|]]; [|done].
  change (j_type (?j <| j_node_hash := h |>)) with (j_type j).
  match goal with |- context [if ?c then _ else _] => assert (c = false) as -> end; [|done].
  change (j_type _) with (j_type jb1). rewrite T1. apply andb_false_r.
Qed.

(** Taking the packet of a node out of the buffer, as a read does. *)
Lemma audio_take jb ps nd : audio_rel jb ps -> nd ∈ j_node_list jb -> n_visible nd = true ->
  n_packet nd ∈ ps ->
  let jb' := hide_node ((note_read jb nd) <| j_last_len := n_len nd |>) nd true in
  exists ps', ps ≡ₚ n_packet nd :: ps' /\ audio_rel jb' ps' /\ j_target_seq jb' = j_target_seq jb /\ j_frame_len jb' = j_frame_len jb.
Proof.
  intros Hrel Hin Hnv Hp. pose proof Hrel as [Hr Ht Hd Hv Hnd Hh Hf Hsz Htg].
  destruct (note_read_audio jb nd Ht) as (F4 & T4 & D4 & Y4 & L4).
  pose proof (note_read_store jb nd) as S4. pose proof (note_read_controls jb nd) as C4.
  set (jb4 := (note_read jb nd) <| j_last_len := n_len nd |>).
  assert (H4 : store_of jb4 = store_of jb /\ controls jb jb4 /\
    j_complete_frames jb4 = u32 (zlen ps - 1) /\ j_target_seq jb4 = j_target_seq jb /\
    j_highest_dropped_ts jb4 = 0 /\ j_type jb4 = SJB_AUDIO /\ j_frame_len jb4 = j_frame_len jb).
  { rewrite <- Hf, <- Hd. by split_and!. }
  clearbody jb4. clear F4 T4 D4 Y4 L4 S4 C4. destruct H4 as (S4 & C4 & F4 & T4 & D4 & Y4 & L4).
  assert (N4 : j_node_list jb4 = j_node_list jb) by apply (f_equal s_nodes S4).
  assert (Hh4 : j_node_hash jb4 = j_node_hash jb) by apply (f_equal s_hash S4).
  rewrite <- N4 in Hin, Hv. rewrite <- Hh4 in Hh.
  assert (Hr4 : jb_ready jb4) by (apply (ready_step jb); [done|apply keeps_same; [apply Hr|done]|done]).
  apply elem_of_Permutation in Hp as [ps' Hps].
  destruct (audio_hide jb4 ps nd ps' Hr4 Hv Hnd Hh Hin Hnv Hps) as (Hv5 & Hnd5 & Hh5 & K5 & O5).
  destruct (store_only_fields _ _ O5) as (F5 & T5 & _ & Y5).
  assert (L5 : j_frame_len (hide_node jb4 nd true) = j_frame_len jb4).
  { apply (f_equal (fun c => c.1.1.1.1.1.1.2)) in F5. exact F5. }
  assert (D5 : j_highest_dropped_ts (hide_node jb4 nd true) = j_highest_dropped_ts jb4).
  { apply (f_equal snd) in F5. exact F5. }
  assert (Hz : zlen ps = zlen ps' + 1).
  { apply Permutation_length in Hps. unfold zlen. rewrite Hps. simpl. lia. }
  cbv zeta. exists ps'. split_and!; [done| |congruence|congruence].
  split; try done; [|congruence..| | |].
  - apply (ready_step jb4); [done..|]. by apply controls_store.
  - rewrite hide_audio_frames by done. rewrite F4, u32_small; [lia|]. pose proof (zlen_nonneg ps'). lia.
  - lia.
  - by rewrite T5, T4.
Qed.

(** ** The abstract buffer

    A bag of packets and a read position (0: not yet known). *)
Inductive reorder_get (frame_len : Z) (packet : rtp_packet) :
  list rtp_packet * Z -> switch_status -> rtp_packet -> list rtp_packet * Z -> Prop :=
| rg_empty target : reorder_get frame_len packet ([], target) SWITCH_STATUS_BREAK packet ([], target)
| rg_buffering ps target : ps <> [] -> zlen ps < frame_len ->
    reorder_get frame_len packet (ps, target) SWITCH_STATUS_MORE_DATA packet (ps, target)
| rg_deliver ps target p ps' st : frame_len <= zlen ps -> picks target ps p -> ps ≡ₚ p :: ps' ->
    st = SWITCH_STATUS_SUCCESS \/ st = SWITCH_STATUS_TIMEOUT ->
    reorder_get frame_len packet (ps, target) st (p <| p_version := 2 |>)
      (ps', htons (ntohs (p_seq p) + 1))
| rg_conceal ps target : frame_len <= zlen ps -> target <> 0 ->
    (forall p, p ∈ ps -> p_seq p <> target) ->
    reorder_get frame_len packet (ps, target) SWITCH_STATUS_NOTFOUND
      (packet <| p_seq := target |> <| p_ts := 0 |>) (ps, htons (ntohs target + 1))
| rg_restart ps target : frame_len <= zlen ps -> target <> 0 ->
    (forall p, p ∈ ps -> p_seq p <> target) ->
    reorder_get frame_len packet (ps, target) SWITCH_STATUS_RESTART packet
      (ps, htons (ntohs target + 1)).

Lemma poll_audio jb : j_type jb = SJB_AUDIO -> (switch_jb_poll jb).1 = jb.
Proof. intros Ht. unfold switch_jb_poll. by rewrite Ht. Qed.

(** What one read of a buffer that is full enough does. *)
Lemma audio_read jb ps packet len : audio_rel jb ps -> j_frame_len jb <= zlen ps ->
  exists jb' packet' len' st plc,
    get_packet_locked jb packet len = (jb', packet', len', st, plc) /\
    ((exists p ps', plc = false /\ st = SWITCH_STATUS_SUCCESS /\ picks (j_target_seq jb) ps p /\
        ps ≡ₚ p :: ps' /\ packet' = p <| p_version := 2 |> /\
        audio_rel jb' ps' /\ j_target_seq jb' = htons (ntohs (p_seq p) + 1) /\
        j_frame_len jb' <= j_frame_len jb) \/
     (j_target_seq jb <> 0 /\ (forall p, p ∈ ps -> p_seq p <> j_target_seq jb) /\
        audio_rel jb' ps /\ j_target_seq jb' = htons (ntohs (j_target_seq jb) + 1) /\
        packet' = packet /\ len' = len /\ j_last_target_seq jb' = j_target_seq jb /\
        (plc = true /\ st = SWITCH_STATUS_NOTFOUND \/ plc = false /\ st = SWITCH_STATUS_RESTART))).
Proof.
  intros Hrel Hfull. pose proof Hrel as [Hr Ht Hd Hv Hnd Hh Hf Hsz Htg].
  pose proof (jr_control _ Hr) as Hc. pose proof (co_min _ Hc) as Hmin. pose proof (co_len _ Hc) as Hlen.
  simpl in Hmin, Hlen. pose proof (jr_samples _ Hr) as Hsamp.
  unfold get_packet_locked. rewrite Hf. destruct (Z.eqb_spec (zlen ps) 0); [lia|].
  destruct (Z.ltb_spec (zlen ps) (j_frame_len jb)); [lia|]. cbv zeta. rewrite Hf.
  destruct (Z.ltb_spec (zlen ps) (j_frame_len jb)); [lia|]. cbn [andb].
  destruct (period_step_pos jb Hc) as (T2 & F2 & D2 & Y2 & L2).
  pose proof (period_step_controls jb) as C2. pose proof (period_step_store jb) as S2.
  revert T2 F2 D2 Y2 L2 C2 S2. generalize (period_step jb) as jb2. intros jb2 T2 F2 D2 Y2 L2 C2 S2.
  assert (Hrel2 : audio_rel jb2 ps) by (apply (audio_rel_step jb); try done; congruence).
  assert (Hsamp2 : j_samples_per_frame jb2 = 0) by apply (jr_samples _ (ar_ready _ _ Hrel2)).
  unfold jb_next_packet, jb_next_packet_by_seq. rewrite Hsamp2. cbn [Z.eqb negb].
  assert (Hne : ps <> []) by (intros ->; done).
  rewrite <- T2. destruct (audio_next_ok jb2 ps Hrel2 Hne) as [nd Hin Hnv Hpick|Hz Hmiss].
  - set (jb3 := set_read_seq (jb_hit jb2) (seq_of nd)).
    assert (Hrel3 : audio_rel jb3 ps).
    { apply (audio_rel_step jb2); [done|done|by apply controls_same|simpl; congruence..|done|].
      apply ntohs_range. }
    assert (H3 : j_target_seq jb3 = htons (ntohs (seq_of nd) + 1) /\ j_frame_len jb3 = j_frame_len jb2 /\
      j_node_list jb3 = j_node_list jb2) by done.
    clearbody jb3. destruct H3 as (T3 & L3 & N3). rewrite <- N3 in Hin.
    destruct (audio_take jb3 ps nd Hrel3 Hin Hnv) as (ps' & Hps & Hrel4 & T4 & L4); [apply Hpick|].
    eexists _, _, _, _, _. split; [reflexivity|]. left. exists (n_packet nd), ps'.
    split_and!; try done; [congruence|lia].
  - set (jb3 := increment_seq (jb_miss jb2)).
    assert (Hrel3 : audio_rel jb3 ps).
    { apply (audio_rel_step jb2); [done|done|by apply controls_same|simpl; congruence..|done|].
      apply ntohs_range. }
    assert (H3 : j_target_seq jb3 = htons (ntohs (j_target_seq jb2) + 1) /\
      j_last_target_seq jb3 = j_target_seq jb2) by done.
    clearbody jb3. destruct H3 as (T3 & La3). rewrite (ar_type _ _ Hrel3). cbn [is_video].
    case_if E; (eexists _, _, _, _, _; split; [reflexivity|]; right).
    + pose proof (frame_inc_pos jb3 1) as P4. unfold pos in P4. injection P4 as P41 P42 P43 P44 P45.
      assert (La4 : j_last_target_seq (jb_frame_inc_line jb3 1) = j_last_target_seq jb3).
      { unfold jb_frame_inc_line. cbv zeta. by case_if E4. }
      split_and!; try done; [|congruence..|by right].
      apply (audio_rel_step jb3); [done|apply frame_inc_store|apply controls_frame_inc; by left|..].
      * rewrite P45. apply (ar_type _ _ Hrel3).
      * rewrite P43. apply (ar_dropped _ _ Hrel3).
      * done.
      * rewrite P41. apply (ar_target _ _ Hrel3).
    + split_and!; try done. by left.
Qed.

Lemma get_audio jb packet len jb' packet' len' st plc :
  get_packet_locked jb packet len = (jb', packet', len', st, plc) -> j_type jb' = SJB_AUDIO ->
  switch_jb_get_packet jb packet len =
    (jb', if plc then plc_header jb' packet' else packet', len',
     if (j_visible_nodes jb' >? j_max_frame_len jb' * 3 / 2) && bool_decide (st = SWITCH_STATUS_SUCCESS)
     then SWITCH_STATUS_TIMEOUT else st).
Proof. intros E Ht. unfold switch_jb_get_packet. by rewrite E, Ht. Qed.

(** For an audio stream, [switch_jb_get_packet] implements a read of the
    reordering buffer: BREAK when empty, MORE_DATA while fewer than [frame_len]
    packets are held, otherwise the packet at the read position (the lowest one
    on the first read), and when that one is missing a request to conceal it or
    to restart, with the position moved on.  Exactly the delivered packet
    leaves the buffer. *)
Theorem audio_get_refines jb ps (packet : rtp_packet) (len : Z) :
  audio_rel jb ps -> j_flush jb = 0 ->
  exists jb' packet' len' st ps',
    switch_jb_get_packet jb packet len = (jb', packet', len', st) /\ audio_rel jb' ps' /\
    reorder_get (j_frame_len jb) packet (ps, j_target_seq jb) st packet' (ps', j_target_seq jb').
Proof.
  intros Hrel Hfl. pose proof Hrel as [Hr Ht Hd Hv Hnd Hh Hf Hsz Htg].
  destruct (Z.ltb_spec (zlen ps) (j_frame_len jb)) as [Hlt|Hge].
  - destruct (Z.eqb_spec (zlen ps) 0) as [Hz|Hz].
    + destruct ps; [|done].
      assert (E : get_packet_locked jb packet len =
        (jb <| j_flush := 0 |>, packet, len, SWITCH_STATUS_BREAK, false)).
      { unfold get_packet_locked. by rewrite Hf. }
      rewrite (get_audio _ _ _ _ _ _ _ _ E) by done. rewrite andb_false_r.
      eexists _, _, _, _, []. split; [reflexivity|]. split; [|constructor].
      by apply (audio_rel_step jb); [| |apply controls_same|..].
    + assert (E : get_packet_locked jb packet len = (jb, packet, len, SWITCH_STATUS_MORE_DATA, false)).
      { assert (Elt : (zlen ps <? j_frame_len jb) = true) by (by apply Z.ltb_lt).
        unfold get_packet_locked. rewrite Hf, Elt. destruct (Z.eqb_spec (zlen ps) 0); [done|].
        cbv zeta. by rewrite (poll_audio jb Ht), Hf, Hfl, Elt. }
      rewrite (get_audio _ _ _ _ _ _ _ _ E) by done. rewrite andb_false_r.
      eexists _, _, _, _, ps. split; [reflexivity|]. split; [done|]. constructor; [|done].
      by intros ->.
  - destruct (audio_read jb ps packet len Hrel Hge) as (jb' & packet' & len' & st & plc & E & Hcase).
    assert (Ht' : j_type jb' = SJB_AUDIO /\ j_samples_per_frame jb' = 0).
    { destruct Hcase as [(p & ps' & _ & _ & _ & _ & _ & Hrel' & _)|(_ & _ & Hrel' & _)];
        (split; [apply (ar_type _ _ Hrel')|apply (jr_samples _ (ar_ready _ _ Hrel'))]). }
    destruct Ht' as [Ht' Hs']. rewrite (get_audio _ _ _ _ _ _ _ _ E Ht').
    destruct Hcase as [(p & ps' & -> & -> & Hpick & Hps & -> & Hrel' & T & _)|
                       (Hz & Hmiss & Hrel' & T & -> & -> & La & Hst)].
    + eexists _, _, _, _, ps'. split; [reflexivity|]. split; [done|]. rewrite T.
      apply rg_deliver; [done..|]. case_if E'; [by right|by left].
    + eexists _, _, _, _, ps. split; [reflexivity|]. split; [done|]. rewrite T.
      destruct Hst as [[-> ->]|[-> ->]]; rewrite andb_false_r; [|by apply rg_restart].
      unfold plc_header. rewrite Hs', La. by apply rg_conceal.
Qed.

(** ** Delivery in order *)
Fixpoint put_all jb (l : list (rtp_packet * Z)) : option (switch_jb (H:=H)) :=
  match l with
  | [] => Some jb
  | (packet, len) :: l =>
    match switch_jb_put_packet jb packet len with
    | Ret (Some jb) => put_all jb l
    | _ => None
    end
  end.

(** The packets and statuses of [k] reads into the same packet structure. *)
Fixpoint get_many (k : nat) jb (packet : rtp_packet) : list (rtp_packet * switch_status) :=
  match k with
  | O => []
  | S k => let '(jb, packet, _, st) := switch_jb_get_packet jb packet 0 in
           (packet, st) :: get_many k jb packet
  end.

Definition delivered (st : switch_status) : Prop :=
  st = SWITCH_STATUS_SUCCESS \/ st = SWITCH_STATUS_TIMEOUT.

Lemma put_all_ok l : forall jb ps, audio_rel jb ps ->
  Forall (fun x => 0 <= p_seq x.1 < 65536 /\ x.2 <= sizeof_body) l ->
  NoDup (map p_seq (map fst l ++ ps)) ->
  zlen ps + zlen l <= u32 (j_max_frame_len jb * 2) + 1 -> zlen ps + zlen l < 4294967296 ->
  exists jb', put_all jb l = Some jb' /\ audio_rel jb' (rev (map fst l) ++ ps) /\
    j_target_seq jb' = j_target_seq jb /\ config jb' = config jb.
Proof.
  induction l as [|[p len] l IH]; intros jb ps Hrel Hl Hnd Hcap Hsz; simpl; [by exists jb|].
  apply Forall_cons in Hl as [[Hp Hlen] Hl]. simpl in Hnd. apply NoDup_cons in Hnd as [Hnin Hnd].
  assert (Hz : zlen ((p, len) :: l) = zlen l + 1) by (unfold zlen; simpl; lia).
  rewrite Hz in *. pose proof (zlen_nonneg l).
  destruct (audio_put jb ps p len Hrel) as (jb1 & -> & Hrel1 & T1 & F1); [done| |done|lia|lia|].
  { intros Hin. apply Hnin. rewrite map_app, elem_of_app. by right. }
  assert (Hz1 : zlen (p :: ps) = zlen ps + 1) by (unfold zlen; simpl; lia).
  destruct (IH jb1 (p :: ps) Hrel1 Hl) as (jb' & -> & Hrel' & T' & F').
  - rewrite map_app. simpl. rewrite <- Permutation_middle, <- map_app. by apply NoDup_cons.
  - rewrite Hz1. change (j_max_frame_len jb1) with ((config jb1).1.1.1.1.2). rewrite F1. simpl. lia.
  - lia.
  - exists jb'. rewrite <- app_assoc. simpl. split_and!; [done|done|congruence..].
Qed.

Lemma picks_head target ps q qs t : ps ≡ₚ q :: qs -> NoDup (map p_seq ps) ->
  (forall p, p ∈ ps -> 0 <= p_seq p < 65536 /\ t <= ntohs (p_seq p)) ->
  ntohs (p_seq q) = t -> target = 0 \/ target = p_seq q ->
  forall p, picks target ps p -> p = q.
Proof.
  intros Hps Hnd Hr Hq Ht p [Hp Hpick].
  assert (Hqin : q ∈ ps) by (rewrite Hps; apply elem_of_cons; by left).
  assert (E : p_seq p = p_seq q).
  { destruct (Z.eqb_spec target 0) as [Hz|Hz].
    - destruct (Hr p Hp), (Hr q Hqin). apply ntohs_inj; [done..|]. specialize (Hpick q Hqin). lia.
    - destruct Ht; congruence. }
  apply list_elem_of_lookup in Hp as [i Hi]. apply list_elem_of_lookup in Hqin as [j Hj].
  assert (i = j) as ->; [|congruence]. apply (NoDup_lookup (map p_seq ps) i j (p_seq q)); [done|..];
    change (map p_seq ps) with (p_seq <$> ps).
  - by rewrite list_lookup_fmap, Hi, <- E.
  - by rewrite list_lookup_fmap, Hj.
Qed.

(** [qs] is the packets [t, t+1, ...] in order. *)
Definition consecutive (t : Z) (qs : list rtp_packet) : Prop :=
  map (fun p => ntohs (p_seq p)) qs = seqZ t (zlen qs) /\
  Forall (fun p => 0 <= p_seq p < 65536) qs.

Lemma consecutive_cons t q qs : consecutive t (q :: qs) ->
  ntohs (p_seq q) = t /\ 0 <= p_seq q < 65536 /\ consecutive (t + 1) qs.
Proof.
  intros [Hm [Hq Hqs]%Forall_cons].
  assert (Hz : zlen (q :: qs) = Z.succ (zlen qs)) by (unfold zlen; simpl; lia).
  rewrite Hz, seqZ_cons in Hm by (pose proof (zlen_nonneg qs); lia). simpl in Hm.
  rewrite Z.pred_succ in Hm. injection Hm as H1 H2. split_and!; try done; lia.
Qed.

Lemma consecutive_ge qs : forall t p, consecutive t qs -> p ∈ qs ->
  0 <= p_seq p < 65536 /\ t <= ntohs (p_seq p).
Proof.
  induction qs as [|q qs IH]; intros t p Hc Hp; [by apply elem_of_nil in Hp|].
  apply consecutive_cons in Hc as (Ht & Hr & Hc).
  apply elem_of_cons in Hp as [->|Hp]; [lia|]. destruct (IH (t + 1) p Hc Hp). lia.
Qed.

Lemma get_many_ok k : forall jb ps qs t packet, audio_rel jb ps -> ps ≡ₚ qs -> consecutive t qs ->
  1 <= t -> t + zlen qs <= 65536 ->
  (j_target_seq jb = 0 \/ ntohs (j_target_seq jb) = t) ->
  Z.of_nat k + j_frame_len jb <= zlen qs + 1 ->
  map fst (get_many k jb packet) = map (fun p => p <| p_version := 2 |>) (take k qs) /\
  Forall (fun x => delivered x.2) (get_many k jb packet).
Proof.
  induction k as [|k IH]; intros jb ps qs t packet Hrel Hps Hc Ht Hmax Htg Hk; [done|].
  pose proof (ar_ready _ _ Hrel) as Hr. pose proof (jr_control _ Hr) as Hctl.
  pose proof (co_min _ Hctl) as Hmin. pose proof (co_len _ Hctl) as Hlen. simpl in Hmin, Hlen.
  assert (Hz : zlen ps = zlen qs) by (unfold zlen; by rewrite (Permutation_length Hps)).
  destruct qs as [|q qs]; [unfold zlen in *; simpl in *; lia|].
  destruct (consecutive_cons t q qs Hc) as (Hq & Hqr & Hc').
  assert (Hzq : zlen (q :: qs) = zlen qs + 1) by (unfold zlen; simpl; lia).
  assert (Htq : j_target_seq jb = 0 \/ j_target_seq jb = p_seq q).
  { destruct Htg as [?|Htg]; [by left|right]. apply ntohs_inj; [apply (ar_target _ _ Hrel)|done|congruence]. }
  assert (Hge : forall p, p ∈ ps -> 0 <= p_seq p < 65536 /\ t <= ntohs (p_seq p)).
  { intros p Hp. rewrite Hps in Hp. by apply (consecutive_ge (q :: qs)). }
  assert (Hqin : q ∈ ps) by (rewrite Hps; apply elem_of_cons; by left).
  destruct (audio_read jb ps packet 0 Hrel) as (jb' & packet' & len' & st & plc & E & Hcase); [lia|].
  destruct Hcase as [(p & ps' & -> & -> & Hpick & Hps' & -> & Hrel' & T & L)|(Hz0 & Hmiss & _)].
  2: { exfalso. destruct Htq as [?|Htq]; [done|]. by apply (Hmiss q Hqin). }
  assert (p = q) as ->.
  { by apply (picks_head (j_target_seq jb) ps q qs t Hps (ar_distinct _ _ Hrel) Hge Hq Htq). }
  cbn [get_many]. rewrite (get_audio _ _ _ _ _ _ _ _ E (ar_type _ _ Hrel')).
  assert (Hps2 : ps' ≡ₚ qs) by (apply (Permutation_cons_inv (a := q)); by rewrite <- Hps', Hps).
  destruct (IH jb' ps' qs (t + 1) (q <| p_version := 2 |>)) as [IH1 IH2]; [done..|lia|lia| |lia|].
  { rewrite T, Hq. destruct (Z.eq_dec (t + 1) 65536) as [->|Hne]; [by left|right].
    unfold htons. apply ntohs_ntohs. pose proof (zlen_nonneg qs). lia. }
  cbn [map fst firstn]. rewrite IH1. split; [done|]. apply Forall_cons. split; [|done]. cbn [snd].
  case_if E'; [by right|by left].
Qed.

(** C4: a jitter buffer undoes reordering. Put the packets [qs] of a stretch of an audio
    stream into a new buffer with [1 <= min <= max < 2^31 - 1] in any order: at most [2
    * max + 1] packets, numbered [s, s+1, ...] from some [s >= 1] without a gap and
    without passing 65535, each of a length that fits a node. The reads that follow
    deliver them by ascending number, each with the body it was put with, until [min -
    1] packets are left. (Longer stretches are trimmed, and losses and the wrap of the
    numbers are handled by other branches, which this does not speak of.) *)
Theorem audio_reorders (min max : Z) (own : bool) (s : Z) (qs : list rtp_packet)
    (arrivals : list (rtp_packet * Z)) (packet : rtp_packet) (k : nat) :
  1 <= min <= max -> max < 2147483647 ->
  1 <= s -> s + zlen qs <= 65536 -> zlen qs <= 2 * max + 1 -> consecutive s qs ->
  map fst arrivals ≡ₚ qs -> Forall (fun x => x.2 <= sizeof_body) arrivals ->
  Z.of_nat k + min <= zlen qs + 1 ->
  exists jb, put_all (switch_jb_create SJB_AUDIO min max own) arrivals = Some jb /\
    map fst (get_many k jb packet) = map (fun p => p <| p_version := 2 |>) (take k qs) /\
    Forall (fun x => delivered x.2) (get_many k jb packet).
Proof.
  intros Hm Hx Hs Hmax Hcap Hc Harr Hlen Hk. set (jb0 := switch_jb_create SJB_AUDIO min max own).
  assert (Hz : zlen arrivals = zlen qs).
  { apply Permutation_length in Harr. rewrite length_map in Harr. unfold zlen. by rewrite Harr. }
  assert (Hnd : NoDup (map p_seq qs)).
  { apply (NoDup_fmap_1 ntohs). change (ntohs <$> map p_seq qs) with (map ntohs (map p_seq qs)).
    rewrite map_map. rewrite (proj1 Hc). apply NoDup_seqZ. }
  destruct (put_all_ok arrivals jb0 []) as (jb & Hput & Hrel & T & F).
  - apply create_audio_rel; lia.
  - rewrite Forall_forall in Hlen. apply Forall_forall. intros x Hx'. split; [|by apply Hlen].
    apply (consecutive_ge qs s); [done|]. rewrite <- Harr. apply list_elem_of_In, in_map.
    by apply list_elem_of_In.
  - rewrite app_nil_r. change (map p_seq (map fst arrivals)) with (p_seq <$> map fst arrivals).
    by rewrite Harr.
  - change (zlen []) with 0. simpl. rewrite u32_small; lia.
  - change (zlen []) with 0. lia.
  - exists jb. split; [done|].
    apply (get_many_ok k jb (rev (map fst arrivals) ++ []) qs s); [done|..|done|done|done|by left|].
    + rewrite app_nil_r. by rewrite <- Permutation_rev.
    + change (j_frame_len jb) with ((config jb).1.1.1.1.1.1.2). rewrite F. simpl. lia.
Qed.

End Audio.
