(* ===== verification/JbCases.v ===== *)
(** * JbCases: concrete buffers

    Runs of the jitter buffer on the hash tables of the core: instances of the
    theorems of JbProps and JbAudio, and runs that show where the code departs
    from its purpose. *)
From S2P Require Import Prelude CoreHash JbSort JitterBuffer JbInv JbProps JbAudio.
From Stdlib Require Import ZArith Lia Permutation Sorted.
From stdpp Require Import base numbers option list.

Local Open Scope Z_scope.

Definition rtp (n ts : Z) (m : bool) : rtp_packet := mk_packet 2 m (htons n) (htonl ts) 0 [n].
Definition no_packet : rtp_packet := mk_packet 2 false 0 0 0 [].

Definition jb_new (type : jb_type) (min max : Z) : switch_jb (H:=inthash) :=
  switch_jb_create type min max true.
Definition jb_run (jb : switch_jb (H:=inthash)) (ops : list jb_op) : switch_jb (H:=inthash) :=
  match exec_jb_ops jb ops with Some j => j | None => jb end.

(** [n] rounds of one packet in, one packet out. *)
Fixpoint rounds (n : nat) (s : Z) : list jb_op :=
  match n with
  | O => []
  | S n => JPut (rtp s (s * 160) false) 50 :: JGet no_packet 0 :: rounds n (s + 1)
  end.

(** A video stream that lost the packets 104 and 105. *)
Definition lossy_ops : list jb_op :=
  [JPut (rtp 100 1000 true) 50; JPut (rtp 101 2000 true) 50; JPut (rtp 102 3000 true) 50;
   JPut (rtp 103 4000 true) 50; JGet no_packet 0; JPut (rtp 106 5000 true) 50].

Lemma run_ready type min max ops : 1 <= min <= max -> max < 4294967295 -> Forall jb_op_ok ops ->
  jb_ready (jb_run (jb_new type min max) ops).
Proof.
  intros Hm Hx Hops. unfold jb_run.
  destruct (exec_jb_ops_ok ops (jb_new type min max)) as (jb & -> & Hr); [|done|done].
  by apply create_ready.
Qed.

Ltac ops_ok := repeat (apply Forall_cons; split; [vm_compute; repeat split; discriminate|]);
  apply Forall_nil_2.

Lemma lossy_ops_ok : Forall jb_op_ok lossy_ops.
Proof. unfold lossy_ops. ops_ok. Qed.

Definition lossy : switch_jb (H:=inthash) := jb_run (jb_new SJB_VIDEO 2 10) lossy_ops.

Lemma lossy_ready : jb_ready lossy.
Proof. apply run_ready; [lia|lia|exact lossy_ops_ok]. Qed.

Lemma jitterbuffer_invariant_witness :
  exists jb, exec_jb_ops (switch_jb_create (H:=inthash) SJB_VIDEO 2 10 true)
      (lossy_ops ++ [JPopNack 777; JSetFrames 3 8; JReset]) = Some jb /\
    store_ok (store_of jb) /\ hash_sound (store_of jb) /\
    j_min_frame_len jb <= j_frame_len jb <= j_max_frame_len jb.
Proof.
  apply jitterbuffer_invariant; [lia|lia|]. apply Forall_app. split; [exact lossy_ops_ok|].
  repeat constructor; lia.
Defined.

Lemma pop_nack_reports_missing_witness :
  snd <$> switch_jb_pop_nack 4 777 lossy = Some (Z.lor (htons 104) (Z.shiftl (htons 1) 16)) /\
  exists nack h h',
    j_missing_seq_hash lossy = Some h /\
    switch_jb_pop_nack (Z.to_nat 65537) 777 lossy =
      Some (lossy <| j_missing_seq_hash := Some h' |>, nack) /\
    loses (expired lossy) h h' /\
    (nack <> 0 -> exists seq, 1 <= seq < 65536 /\ Z.land nack 65535 = htons seq /\
       is_Some (ih_find h' (htons seq)) /\
       forall j, 0 <= j < 16 ->
         Z.testbit (ntohs (Z.shiftr nack 16)) j =
         bool_decide (is_Some (ih_find h' (follow_key seq j)))).
Proof.
  split; [vm_compute; reflexivity|].
  apply pop_nack_reports_missing; [exact lossy_ready|vm_compute; reflexivity].
Defined.

Lemma reset_empties_witness :
  visibles (j_node_list (switch_jb_reset lossy)) = [] /\
  forall seq packet len,
    switch_jb_get_packet_by_seq (switch_jb_reset lossy) seq packet len =
      (packet, len, SWITCH_STATUS_NOTFOUND).
Proof.
  destruct (reset_empties lossy) as (? & _ & _ & _ & _ & _ & _ & ?); [apply lossy_ready..|].
  by split.
Defined.

Lemma drop_loop_makes_room_witness :
  exists jb', drop_loop (S (length (j_node_list lossy))) lossy = Some jb' /\ store_ok (store_of jb') /\
    j_max_packet_len jb' <= u32 (j_max_frame_len jb' * 2 - j_visible_nodes jb').
Proof. apply drop_loop_makes_room; [apply lossy_ready|vm_compute; discriminate]. Defined.

(** Four packets of an audio stream, out of order. *)
Definition shuffled : list (rtp_packet * Z) :=
  [(rtp 5 800 false, 50); (rtp 3 480 false, 50); (rtp 6 960 false, 50); (rtp 4 640 false, 50)].

Lemma audio_reorders_witness :
  exists jb, put_all (switch_jb_create (H:=inthash) SJB_AUDIO 2 10 true) shuffled = Some jb /\
    map fst (get_many 3 jb no_packet) =
      map (fun p => p <| p_version := 2 |>)
        (take 3 [rtp 3 480 false; rtp 4 640 false; rtp 5 800 false; rtp 6 960 false]) /\
    Forall (fun x => delivered x.2) (get_many 3 jb no_packet).
Proof.
  apply (audio_reorders 2 10 true 3
    [rtp 3 480 false; rtp 4 640 false; rtp 5 800 false; rtp 6 960 false]).
  - lia.
  - lia.
  - lia.
  - vm_compute. discriminate.
  - vm_compute. discriminate.
  - split; [vm_compute; reflexivity|]. repeat (apply Forall_cons; split; [vm_compute; split; [discriminate|reflexivity]|]).
    apply Forall_nil_2.
  - simpl. solve_Permutation.
  - repeat (apply Forall_cons; split; [vm_compute; discriminate|]). apply Forall_nil_2.
  - vm_compute. discriminate.
Defined.

Definition shuffled_jb : switch_jb (H:=inthash) :=
  match put_all (jb_new SJB_AUDIO 2 10) shuffled with Some j => j | None => jb_new SJB_AUDIO 2 10 end.

Lemma shuffled_rel : audio_rel shuffled_jb (rev (map fst shuffled)).
Proof.
  unfold shuffled_jb.
  destruct (put_all_ok shuffled (jb_new SJB_AUDIO 2 10) []) as (jb & -> & Hrel & _).
  - apply create_audio_rel; lia.
  - repeat (apply Forall_cons; split; [vm_compute; repeat split; discriminate|]). apply Forall_nil_2.
  - apply (bool_decide_eq_true_1 (NoDup _)). vm_compute. reflexivity.
  - vm_compute. discriminate.
  - vm_compute. reflexivity.
  - by rewrite app_nil_r in Hrel.
Qed.

Lemma audio_get_refines_witness :
  exists jb' packet' len' st ps',
    switch_jb_get_packet shuffled_jb no_packet 0 = (jb', packet', len', st) /\ audio_rel jb' ps' /\
    reorder_get (j_frame_len shuffled_jb) no_packet (rev (map fst shuffled), j_target_seq shuffled_jb)
      st packet' (ps', j_target_seq jb').
Proof. apply audio_get_refines; [exact shuffled_rel|vm_compute; reflexivity]. Defined.

(** ** Departures *)

Definition unbounded : switch_jb (H:=inthash) := jb_run (jb_new SJB_AUDIO 0 10) (rounds 250 1).

(** [jb_frame_inc] by -1 is not guarded against a length of 0.  A buffer
    created with a minimum of 0 shortens its frame length after 250 good reads
    to 2^32 - 1, and from then on answers a read with MORE_DATA. *)
Theorem zero_min_frame_len_stalls :
  j_frame_len unbounded = 4294967295 /\
  (switch_jb_get_packet (jb_run unbounded [JPut (rtp 251 40160 false) 50]) no_packet 0).2
    = SWITCH_STATUS_MORE_DATA.
Proof. split; vm_compute; reflexivity. Qed.

Definition by_timestamp : switch_jb (H:=inthash) :=
  jb_run (switch_jb_ts_mode (jb_new SJB_AUDIO 1 10) 160 8000)
    [JPut (rtp 500 160 false) 50; JPut (rtp 501 320 false) 50; JGet no_packet 0].

(** In timestamp mode a read rewrites the sequence number of the node before
    [hide_node] removes it from the table by sequence number, so the entry under
    the old number stays: the packet 500 was delivered and only packet 501 is
    visible, but [switch_jb_get_packet_by_seq] still finds a packet under 500,
    with the rewritten number 1. *)
Theorem ts_mode_leaves_stale_entry :
  map (fun n => p_body (n_packet n)) (visibles (j_node_list by_timestamp)) = [[501]] /\
  (switch_jb_get_packet_by_seq by_timestamp (htons 500) no_packet 0).2 = SWITCH_STATUS_SUCCESS /\
  p_body (switch_jb_get_packet_by_seq by_timestamp (htons 500) no_packet 0).1.1 = [500] /\
  ntohs (p_seq (switch_jb_get_packet_by_seq by_timestamp (htons 500) no_packet 0).1.1) = 1.
Proof. split_and!; vm_compute; reflexivity. Qed.

Definition unread : switch_jb (H:=inthash) :=
  jb_run (jb_new SJB_VIDEO 2 10) [JPut (rtp 100 1000 true) 50; JPut (rtp 103 2000 true) 50].
Definition missing_numbers (jb : switch_jb (H:=inthash)) : option (list Z) :=
  (fun h => map (fun x => ntohs x.1) (ih_elements h)) <$> j_missing_seq_hash jb.

(** The test for an expired number subtracts [frame_len] from the read
    position in [uint32_t].  While the position is below [frame_len], and so
    before the first read, the difference wraps around and every missing number
    counts as expired: [switch_jb_pop_nack] asks for none of them and forgets
    them all. *)
Theorem nack_list_lost_before_first_read :
  missing_numbers unread = Some [101; 102] /\
  snd <$> switch_jb_pop_nack 3 777 unread = Some 0 /\
  (switch_jb_pop_nack 3 777 unread ≫= fun r => missing_numbers r.1) = Some [].
Proof. split_and!; vm_compute; reflexivity. Qed.

(** [switch_jb_put_packet] cuts the length to the size of the packet
    structure, not of its body: any length above the size of the body makes
    [add_node] copy past the end of the node's body. *)
Theorem put_packet_overflows (type : jb_type) (min max : Z) (own : bool) (packet : rtp_packet) (len : Z) :
  type <> SJB_VIDEO -> sizeof_body < len ->
  switch_jb_put_packet (switch_jb_create (H:=inthash) type min max own) packet len = Ub.
Proof.
  intros Ht Hl. unfold switch_jb_put_packet.
  assert (E : ((if len >=? sizeof_packet then sizeof_packet else len) >? sizeof_body) = true).
  { unfold sizeof_packet, sizeof_body in *. case_if E; lia. }
  revert E. generalize (if len >=? sizeof_packet then sizeof_packet else len) as n. intros n E.
  assert (Hv : is_video type = false) by (by destruct type).
  assert (Ha : forall jb, j_node_list jb = [] -> j_allocated_nodes jb = 0 -> add_node (H:=inthash) jb packet n = Ub).
  { intros jb Hn Hz. unfold add_node, new_node. rewrite Hn, Hz. simpl List.find. cbv iota.
    rewrite Z.gtb_ltb, (proj2 (Z.ltb_ge _ _)) by apply u32_range. by rewrite E. }
  cbv zeta. cbn [switch_jb_create j_highest_dropped_ts negb Z.eqb andb].
  rewrite Ha; [done|..]; cbn; by rewrite Hv, orb_true_r.
Qed.

Lemma put_packet_overflows_witness :
  switch_jb_put_packet (switch_jb_create (H:=inthash) SJB_AUDIO 2 10 true) (rtp 1 160 false) 20000 = Ub.
Proof. apply put_packet_overflows; [discriminate|vm_compute; reflexivity]. Defined.
