(* ===== verification/PortAllocator.v ===== *)
(** * PortAllocator: media ports, src/switch_core_port_allocator.c

    An allocator hands out the ports of a range.  [track] has one cell per port:
    1 for a port in use, 0 for a free one, and a negative count for a port that
    was freed or failed its test and has to be passed over that many times.
    [rand()] and the bind test are parameters, indexed by the number of the
    attempt.  The mutex and the memory pool are left out. *)
From S2P Require Import Prelude.
From Stdlib Require Import ZArith Lia.
From stdpp Require Import base numbers option list gmap.

Local Open Scope Z_scope.

Definition SPF_ODD : Z := Z.shiftl 1 0.
Definition SPF_EVEN : Z := Z.shiftl 1 1.
Definition SPF_ROBUST_TCP : Z := Z.shiftl 1 2.
Definition SPF_ROBUST_UDP : Z := Z.shiftl 1 3.

(** [struct switch_core_port_allocator], less [ip], [mutex] and [pool]. *)
Record port_allocator := mk_allocator {
  pa_start : Z;
  pa_end : Z;
  pa_next : Z;
  pa_track : list Z;
  pa_track_len : Z;
  pa_track_used : Z;
  pa_flags : Z
}.
#[export] Instance eta_allocator : Eta port_allocator := fun a =>
  mk_allocator (pa_start a) (pa_end a) (pa_next a) (pa_track a) (pa_track_len a)
    (pa_track_used a) (pa_flags a).

(** [switch_core_port_allocator_new] when memory is available;
    [runtime_flags] is [runtime.port_alloc_flags]. *)
Definition switch_core_port_allocator_new (start end_ flags runtime_flags : Z) : port_allocator :=
  let even := test_flag flags SPF_EVEN in
  let odd := test_flag flags SPF_ODD in
  let flags := Z.lor flags runtime_flags in
  let '(start, end_) :=
    if negb (even && odd) then
      if even then
        (if negb (start mod 2 =? 0) then u16 (start + 1) else start,
         if negb (end_ mod 2 =? 0) then u16 (end_ - 1) else end_)
      else if odd then
        (if start mod 2 =? 0 then u16 (start + 1) else start,
         if end_ mod 2 =? 0 then u16 (end_ - 1) else end_)
      else (start, end_)
    else (start, end_) in
  let track_len := u32 ((end_ - start) + 2) in
  let track_len := if negb (even && odd) then track_len / 2 else track_len in
  mk_allocator start end_ start (replicate (Z.to_nat (u32 (track_len + 2))) 0) track_len 0 flags.

(** What the operating system answers: the values of [rand()] and whether a
    socket of the family binds, for the n-th attempt of a request. *)
Record port_env := { rand_at : nat -> Z; udp_binds : nat -> Z -> bool; tcp_binds : nat -> Z -> bool }.

(** [while (alloc->track[index] && tries < alloc->track_len)]; [n] is
    [track_len - tries].  Returns the cells, the index and what is left of [n]. *)
Fixpoint walk (track_len : Z) (n : nat) (track : list Z) (index : Z) : res (list Z * Z * nat) :=
  v <-! or_ub (track !! Z.to_nat index);;
  if v =? 0 then Ret (track, index, n)
  else match n with
  | O => Ret (track, index, O)
  | S n =>
    let track := if v <? 0 then <[Z.to_nat index := i8 (v + 1)]> track else track in
    let index := if u32 (index + 1) >=? track_len then 0 else u32 (index + 1) in
    walk track_len n track index
  end.

(** The port of a cell. *)
Definition port_of (a : port_allocator) (index : Z) : Z :=
  if test_flag (pa_flags a) SPF_EVEN && test_flag (pa_flags a) SPF_ODD
  then u16 (index + pa_start a)
  else u16 (u16 (index + pa_start a / 2) * 2).

(** [r] of a request: each test overwrites the result of the one before. *)
Definition port_usable (env : port_env) (k : nat) (a : port_allocator) (port : Z) : bool :=
  let r := true in
  let r := if test_flag (pa_flags a) SPF_ROBUST_UDP then udp_binds env k port else r in
  if test_flag (pa_flags a) SPF_ROBUST_TCP then tcp_binds env k port else r.

(** [while (alloc->track_used < alloc->track_len)], from the [k]-th round on;
    [Ret None]: still running after [fuel] rounds. *)
Fixpoint request_loop (fuel : nat) (env : port_env) (k : nat) (a : port_allocator)
    : res (option (port_allocator * Z * switch_status)) :=
  if pa_track_used a <? pa_track_len a then
    match fuel with
    | O => Ret None
    | S fuel =>
      '(track, index, spare) <-! walk (pa_track_len a) (Z.to_nat (pa_track_len a)) (pa_track a)
                                  (rand_at env k mod pa_track_len a);;
      let a := a <| pa_track := track |> in
      match spare with
      | O => request_loop fuel env (S k) a
      | S _ =>
        let port := port_of a index in
        if port_usable env k a port then
          Ret (Some (a <| pa_track := <[Z.to_nat index := 1]> track |>
                       <| pa_track_used ::= fun u => u32 (u + 1) |>, port, SWITCH_STATUS_SUCCESS))
        else request_loop fuel env (S k) (a <| pa_track := <[Z.to_nat index := -4]> track |>)
      end
    end
  else Ret (Some (a, 0, SWITCH_STATUS_FALSE)).

Definition switch_core_port_allocator_request_port (fuel : nat) (env : port_env) (a : port_allocator)
    : res (option (port_allocator * Z * switch_status)) :=
  request_loop fuel env 0 a.

(** C division of an [int] rounds towards zero; [index] is not negative here. *)
Definition free_index (a : port_allocator) (port : Z) : Z :=
  let index := port - pa_start a in
  if negb (test_flag (pa_flags a) SPF_EVEN && test_flag (pa_flags a) SPF_ODD) then Z.quot index 2 else index.

Definition switch_core_port_allocator_free_port (a : port_allocator) (port : Z)
    : res (port_allocator * switch_status) :=
  if port <? pa_start a then Ret (a, SWITCH_STATUS_GENERR) else
  let index := free_index a port in
  v <-! or_ub (pa_track a !! Z.to_nat index);;
  if v >? 0 then
    Ret (a <| pa_track := <[Z.to_nat index := -4]> (pa_track a) |>
           <| pa_track_used ::= fun u => u32 (u - 1) |>, SWITCH_STATUS_SUCCESS)
  else Ret (a, SWITCH_STATUS_FALSE).

(** ** Cells *)
Definition age (v : Z) : Z := if v <? 0 then i8 (v + 1) else v.
Definition count_pos (l : list Z) : nat := length (List.filter (fun v => 0 <? v) l).

Lemma count_pos_cons v l : count_pos (v :: l) = ((if (0 <? v)%Z then 1 else 0) + count_pos l)%nat.
Proof. unfold count_pos. simpl. by case_if E. Qed.

Lemma count_pos_app l1 l2 : count_pos (l1 ++ l2) = (count_pos l1 + count_pos l2)%nat.
Proof. unfold count_pos. by rewrite List.filter_app, length_app. Qed.

Lemma count_pos_zero l : (forall k v, l !! k = Some v -> v <= 0) -> count_pos l = 0%nat.
Proof.
  induction l as [|a l IH]; intros Hl; [done|]. rewrite count_pos_cons.
  rewrite (proj2 (Z.ltb_ge _ _)) by (by apply (Hl 0%nat)). apply IH. intros k v Hk. by apply (Hl (S k)).
Qed.

Lemma count_pos_ext l l' : length l' = length l ->
  (forall k v v', l !! k = Some v -> l' !! k = Some v' -> (0 <? v) = (0 <? v')) ->
  count_pos l' = count_pos l.
Proof.
  revert l'. induction l as [|a l IH]; intros [|b l']; intros Hlen Hk; simplify_eq/=; [done|].
  assert (E1 : (0 <? a) = (0 <? b)) by (by apply (Hk 0%nat)).
  assert (E2 : count_pos l' = count_pos l).
  { apply IH; [done|]. intros k v v' H1 H2. by apply (Hk (S k)). }
  by rewrite !count_pos_cons, E1, E2.
Qed.

Lemma count_pos_insert l k v w : l !! k = Some v ->
  Z.of_nat (count_pos (<[k := w]> l)) =
  Z.of_nat (count_pos l) - (if 0 <? v then 1 else 0) + (if 0 <? w then 1 else 0).
Proof.
  revert k. induction l as [|a l IH]; intros [|k] Hk; simplify_eq/=.
  - rewrite !count_pos_cons. repeat case_match; lia.
  - rewrite !count_pos_cons. specialize (IH k Hk). repeat case_match; lia.
Qed.

Lemma count_pos_full (n : nat) l : (n <= length l)%nat ->
  (forall k, (k < n)%nat -> exists v, l !! k = Some v /\ 0 < v) -> (n <= count_pos l)%nat.
Proof.
  revert n. induction l as [|a l IH]; intros n Hn Hk; simpl in Hn; [lia|].
  destruct n as [|n]; [lia|]. rewrite count_pos_cons.
  destruct (Hk 0%nat) as (v & [= ->] & Hv); [lia|]. rewrite (proj2 (Z.ltb_lt _ _)) by done.
  specialize (IH n). simpl. apply le_n_S, IH; [lia|]. intros k Hlt. apply (Hk (S k)). lia.
Qed.

(** ** The walk over the cells *)
Section Walk.
Context (L : Z) (HL : 0 < L < 4294967295).

Definition cells_ok (track : list Z) : Prop := (Z.to_nat L <= length track)%nat.

(** The cell [k] is one of the [n] cells from [i] on, around the end. *)
Definition passed (i n : Z) (k : nat) : Prop :=
  exists d, 0 <= d < n /\ Z.of_nat k = (i + d) mod L.

Lemma next_index i : 0 <= i < L ->
  (if u32 (i + 1) >=? L then 0 else u32 (i + 1)) = (i + 1) mod L /\ 0 <= (i + 1) mod L < L.
Proof.
  intros Hi. rewrite u32_small by lia. split; [|apply Z.mod_pos_bound; lia].
  case_if E.
  - assert (i + 1 = L) as -> by lia. by rewrite Z_mod_same_full.
  - rewrite Z.mod_small; lia.
Qed.

Lemma passed_step i n k : 0 < n -> passed i n k <-> Z.of_nat k = i mod L \/ passed ((i + 1) mod L) (n - 1) k.
Proof.
  intros Hn. unfold passed. split.
  - intros (d & Hd & Hk). destruct (Z.eq_dec d 0) as [->|Hne]; [left; by rewrite Z.add_0_r in Hk|].
    right. exists (d - 1). split; [lia|]. rewrite Hk, Zplus_mod_idemp_l. f_equal. lia.
  - intros [Hk|(d & Hd & Hk)]; [exists 0; split; [lia|]; by rewrite Z.add_0_r|].
    exists (d + 1). split; [lia|]. rewrite Hk, Zplus_mod_idemp_l. f_equal. lia.
Qed.

(** Fewer than [L] cells from [i + 1] on do not reach [i] again. *)
Lemma not_passed_again i n : 0 <= i < L -> n < L -> ~ passed ((i + 1) mod L) n (Z.to_nat i).
Proof.
  intros Hi Hn (d & Hd & Hk). rewrite Z2Nat.id in Hk by lia. rewrite Zplus_mod_idemp_l in Hk.
  destruct (Z.lt_ge_cases (i + 1 + d) L) as [Hlt|Hge].
  - rewrite Z.mod_small in Hk by lia. lia.
  - replace (i + 1 + d) with ((i + 1 + d - L) + 1 * L) in Hk by lia.
    rewrite Z_mod_plus_full, Z.mod_small in Hk by lia. lia.
Qed.

(** The walk ages the cells it passes, which are all taken, and stops at the
    first free one. *)
Lemma walk_spec n : forall track i, cells_ok track -> 0 <= i < L -> Z.of_nat n <= L ->
  exists track' j m, walk L n track i = Ret (track', j, m) /\
    length track' = length track /\ 0 <= j < L /\ (m <= n)%nat /\
    ((0 < m)%nat -> track' !! Z.to_nat j = Some 0) /\
    (forall k v, track !! k = Some v ->
       (passed i (Z.of_nat (n - m)) k /\ v <> 0 /\ track' !! k = Some (age v)) \/
       (~ passed i (Z.of_nat (n - m)) k /\ track' !! k = Some v)).
Proof.
  induction n as [|n IH]; intros track i Hok Hi Hn.
  - destruct (lookup_lt_is_Some_2 track (Z.to_nat i)) as [v Hv]; [unfold cells_ok in Hok; lia|].
    assert (Hw : walk L 0 track i = Ret (track, i, 0%nat)) by (simpl; rewrite Hv; simpl; by case_if E).
    exists track, i, 0%nat. split; [done|]. split; [done|]. split; [done|]. split; [done|].
    split; [lia|]. intros k v' Hk. right. split; [|done]. intros (d & Hd & _). simpl in Hd. lia.
  - destruct (lookup_lt_is_Some_2 track (Z.to_nat i)) as [v Hv]; [unfold cells_ok in Hok; lia|].
    destruct (Z.eqb_spec v 0) as [->|Hne].
    { exists track, i, (S n). split; [simpl; by rewrite Hv|]. split; [done|]. split; [done|].
      split; [done|]. split; [done|]. intros k v' Hk. right. split; [|done].
      intros (d & Hd & _). rewrite Nat.sub_diag in Hd. simpl in Hd. lia. }
    destruct (next_index i Hi) as [Ei Hi']. set (i' := (i + 1) mod L) in *.
    set (track1 := if v <? 0 then <[Z.to_nat i := i8 (v + 1)]> track else track).
    assert (Ht1 : forall k w, track !! k = Some w ->
      track1 !! k = Some (if decide (k = Z.to_nat i) then age v else w)).
    { intros k w Hk. unfold track1, age. case_decide as Ek.
      - subst. rewrite Hv in Hk. injection Hk as <-. case_if E; [|done].
        apply list_lookup_insert_eq. by apply lookup_lt_Some in Hv.
      - case_if E; [|done]. by rewrite list_lookup_insert_ne. }
    assert (Hlen1 : length track1 = length track) by (unfold track1; case_if E; [apply length_insert|done]).
    destruct (IH track1 i') as (track' & j & m & Hw & Hlen & Hj & Hm & Hz & Hall);
      [unfold cells_ok; by rewrite Hlen1|done|lia|].
    exists track', j, m. split.
    { simpl. rewrite Hv. simpl. rewrite (proj2 (Z.eqb_neq _ _)), Ei by done. exact Hw. }
    split; [by rewrite Hlen|]. split; [done|]. split; [lia|]. split; [done|].
    intros k w Hk. specialize (Hall k _ (Ht1 k w Hk)).
    assert (Hpass : passed i (Z.of_nat (S n - m)) k <->
      k = Z.to_nat i \/ passed i' (Z.of_nat (n - m)) k).
    { rewrite passed_step by lia. replace (Z.of_nat (S n - m) - 1) with (Z.of_nat (n - m)) by lia.
      rewrite (Z.mod_small i) by lia. fold i'. split; (intros [?|?]; [left; lia|by right]). }
    destruct (decide (k = Z.to_nat i)) as [->|Hk'].
    + assert (w = v) as -> by congruence. left. split; [apply Hpass; by left|]. split; [done|].
      destruct Hall as [(Hp & _)|[_ ->]]; [|done].
      exfalso. by apply (not_passed_again i (Z.of_nat (n - m))); [|lia|].
    + destruct Hall as [(Hp & Hw0 & ->)|[Hp ->]]; [left|right].
      * split; [apply Hpass; by right|done].
      * split; [|done]. rewrite Hpass. tauto.
Qed.

(** Passing [L] cells is passing them all. *)
Lemma passed_all i k : 0 <= i < L -> (k < Z.to_nat L)%nat -> passed i L k.
Proof.
  intros Hi Hk. exists ((Z.of_nat k - i) mod L). split; [apply Z.mod_pos_bound; lia|].
  rewrite Zplus_mod_idemp_r. replace (i + (Z.of_nat k - i)) with (Z.of_nat k) by lia.
  rewrite Z.mod_small; lia.
Qed.

Lemma passed_range i n k : passed i n k -> (k < Z.to_nat L)%nat.
Proof. intros (d & _ & Hk). pose proof (Z.mod_pos_bound (i + d) L). lia. Qed.

End Walk.

(** ** Allocators of even ports *)
Record even_ok (a : port_allocator) : Prop := {
  eo_even : test_flag (pa_flags a) SPF_EVEN = true;
  eo_odd : test_flag (pa_flags a) SPF_ODD = false;
  eo_range : 0 <= pa_start a <= pa_end a /\ pa_end a < 65536;
  eo_parity : pa_start a mod 2 = 0 /\ pa_end a mod 2 = 0;
  eo_len : pa_track_len a = (pa_end a - pa_start a) / 2 + 1;
  eo_track : length (pa_track a) = (Z.to_nat (pa_track_len a) + 2)%nat;
  eo_cells : forall k v, pa_track a !! k = Some v ->
    -4 <= v <= 1 /\ ((Z.to_nat (pa_track_len a) <= k)%nat -> v = 0);
  eo_used : pa_track_used a = Z.of_nat (count_pos (pa_track a))
}.

Definition in_range (a : port_allocator) (p : Z) : Prop :=
  pa_start a <= p <= pa_end a /\ p mod 2 = 0.
Definition cell_of (a : port_allocator) (p : Z) : nat := Z.to_nat ((p - pa_start a) / 2).
Definition in_use (a : port_allocator) (p : Z) : Prop :=
  in_range a p /\ exists v, pa_track a !! cell_of a p = Some v /\ 0 < v.

(** The allocator with other cells. *)
Definition same_ports (a a' : port_allocator) : Prop :=
  pa_start a' = pa_start a /\ pa_end a' = pa_end a /\ pa_track_len a' = pa_track_len a /\
  pa_flags a' = pa_flags a.

Lemma even_len a : even_ok a -> 0 < pa_track_len a <= 32768 /\
  pa_end a = pa_start a + 2 * (pa_track_len a - 1).
Proof.
  intros [_ _ Hr [Hs He] Hl _ _ _]. rewrite Hl.
  pose proof (Z.div_mod (pa_end a - pa_start a) 2).
  pose proof (Zminus_mod (pa_end a) (pa_start a) 2) as Hm. rewrite Hs, He in Hm.
  change ((0 - 0) mod 2) with 0 in Hm.
  pose proof (Z.div_pos (pa_end a - pa_start a) 2). lia.
Qed.

Lemma port_of_even a i : even_ok a -> 0 <= i < pa_track_len a ->
  port_of a i = pa_start a + 2 * i /\ in_range a (port_of a i) /\ cell_of a (port_of a i) = Z.to_nat i.
Proof.
  intros Ha Hi. destruct (even_len a Ha) as [Hlen Hend]. destruct Ha as [Hev Hod Hr [Hs He] _ _ _ _].
  pose proof (Z.div_mod (pa_start a) 2) as Hd. rewrite Hs in Hd.
  assert (Hp : port_of a i = pa_start a + 2 * i).
  { unfold port_of. rewrite Hev, Hod. simpl. rewrite (u16_small (i + _)) by lia. rewrite u16_small; lia. }
  rewrite Hp. split; [done|]. split.
  - split; [lia|]. rewrite (Z.mul_comm 2 i), Z_mod_plus_full. done.
  - unfold cell_of. f_equal. replace (pa_start a + 2 * i - pa_start a) with (i * 2) by lia.
    apply Z.div_mul. lia.
Qed.

Lemma cell_port a p : even_ok a -> in_range a p ->
  p = port_of a ((p - pa_start a) / 2) /\ 0 <= (p - pa_start a) / 2 < pa_track_len a.
Proof.
  intros Ha [Hp Hm]. destruct (even_len a Ha) as [Hlen Hend].
  assert (Hd : p - pa_start a = 2 * ((p - pa_start a) / 2)).
  { apply Z.div_exact; [lia|]. rewrite Zminus_mod, Hm, (proj1 (eo_parity _ Ha)). done. }
  assert (0 <= (p - pa_start a) / 2 < pa_track_len a) by lia.
  split; [|done]. rewrite (proj1 (port_of_even a _ Ha H)). lia.
Qed.

Lemma cell_inj a p q : even_ok a -> in_range a p -> in_range a q -> cell_of a p = cell_of a q -> p = q.
Proof.
  intros Ha Hp Hq E. destruct (cell_port a p Ha Hp) as [Ep Hp']. destruct (cell_port a q Ha Hq) as [Eq Hq'].
  unfold cell_of in E. rewrite Ep, Eq. f_equal. lia.
Qed.

(** Changing cells pointwise, within their bounds, keeps the invariant. *)
Lemma even_ok_cells a track used : even_ok a ->
  length track = length (pa_track a) ->
  (forall k v, track !! k = Some v -> -4 <= v <= 1 /\ ((Z.to_nat (pa_track_len a) <= k)%nat -> v = 0)) ->
  used = Z.of_nat (count_pos track) ->
  even_ok (a <| pa_track := track |> <| pa_track_used := used |>).
Proof. intros [] Hl Hc Hu. split; simpl; try done. by rewrite Hl. Qed.

Lemma age_range v : -4 <= v <= 1 -> -4 <= age v <= 1 /\ (0 <? age v) = (0 <? v).
Proof.
  intros Hv. unfold age. case_if E; [|done]. boolify. unfold i8. rewrite Z.mod_small by lia.
  split; [lia|]. destruct (Z.ltb_spec 0 (v + 1 + 128 - 128)), (Z.ltb_spec 0 v); lia.
Qed.

Definition no_tests (a : port_allocator) : Prop :=
  test_flag (pa_flags a) SPF_ROBUST_UDP = false /\ test_flag (pa_flags a) SPF_ROBUST_TCP = false.

(** One round of a request: it takes a free port, or ages every cell. *)
Lemma round_spec env k a : even_ok a -> 0 <= rand_at env k -> pa_track_used a < pa_track_len a ->
  exists track j m,
    walk (pa_track_len a) (Z.to_nat (pa_track_len a)) (pa_track a) (rand_at env k mod pa_track_len a)
      = Ret (track, j, m) /\
    even_ok (a <| pa_track := track |>) /\
    (forall p, in_use (a <| pa_track := track |>) p <-> in_use a p) /\
    0 <= j < pa_track_len a /\ ((0 < m)%nat -> track !! Z.to_nat j = Some 0) /\
    (m = 0%nat -> forall c v, (c < Z.to_nat (pa_track_len a))%nat -> pa_track a !! c = Some v ->
       v <> 0 /\ track !! c = Some (age v)).
Proof.
  intros Ha Hrand Hused. destruct (even_len a Ha) as [Hlen _]. set (L := pa_track_len a) in *.
  destruct (walk_spec L ltac:(lia) (Z.to_nat L) (pa_track a) (rand_at env k mod L))
    as (track & j & m & Hw & Hl & Hj & Hm & Hz & Hall).
  { unfold cells_ok. rewrite (eo_track _ Ha). fold L. lia. }
  { apply Z.mod_pos_bound. lia. }
  { lia. }
  exists track, j, m. split; [done|].
  assert (Hback : forall c w, track !! c = Some w -> exists v, pa_track a !! c = Some v /\
    (w = v \/ w = age v /\ (c < Z.to_nat L)%nat)).
  { intros c w Hc. destruct (lookup_lt_is_Some_2 (pa_track a) c) as [v Hv].
    { rewrite <- Hl. by apply lookup_lt_Some in Hc. }
    exists v. split; [done|]. destruct (Hall c v Hv) as [(Hp & _ & Hw')|[_ Hw']].
    - right. split; [congruence|]. by eapply (passed_range L); [lia|].
    - left. congruence. }
  assert (Hpos : forall c v w, pa_track a !! c = Some v -> track !! c = Some w -> (0 <? v) = (0 <? w)).
  { intros c v w Hv Hc. destruct (Hback c w Hc) as (v' & Hv' & Hcase).
    assert (v' = v) as -> by congruence. destruct Hcase as [->|[-> _]]; [done|].
    symmetry. apply age_range. apply (eo_cells _ Ha c v Hv). }
  split_and!; try done; try lia.
  - assert (Hok : even_ok (a <| pa_track := track |> <| pa_track_used := pa_track_used a |>)).
    { apply even_ok_cells; [done|done|..].
      - intros c w Hc. destruct (Hback c w Hc) as (v & Hv & Hcase).
        destruct (eo_cells _ Ha c v Hv) as [Hb Hhi].
        destruct Hcase as [->|[-> Hlt]]; [done|]. split; [by apply age_range|]. fold L. lia.
      - rewrite (eo_used _ Ha). f_equal. symmetry. by apply count_pos_ext. }
    by destruct a.
  - intros p. unfold in_use, in_range, cell_of. simpl. split; intros [Hr (v & Hv & Hgt)]; (split; [done|]).
    + destruct (Hback _ _ Hv) as (v' & Hv' & _). exists v'. split; [done|].
      specialize (Hpos _ _ _ Hv' Hv). destruct (Z.ltb_spec 0 v'), (Z.ltb_spec 0 v); lia.
    + destruct (lookup_lt_is_Some_2 track (Z.to_nat ((p - pa_start a) / 2))) as [w Hw'].
      { rewrite Hl. by apply lookup_lt_Some in Hv. }
      exists w. split; [done|]. specialize (Hpos _ _ _ Hv Hw').
      destruct (Z.ltb_spec 0 v), (Z.ltb_spec 0 w); lia.
  - intros -> c v Hc Hv. destruct (Hall c v Hv) as [(_ & Hne & Hw')|[Hp _]]; [done|].
    destruct Hp. rewrite Nat.sub_0_r, Z2Nat.id by lia. apply passed_all; [lia| |done].
    apply Z.mod_pos_bound. lia.
Qed.

Lemma port_of_track a track i : port_of (a <| pa_track := track |>) i = port_of a i.
Proof. done. Qed.

Lemma insert_cell_ok a k w : even_ok a -> (k < Z.to_nat (pa_track_len a))%nat -> -4 <= w <= 1 ->
  length (<[k := w]> (pa_track a)) = length (pa_track a) /\
  forall c v, <[k := w]> (pa_track a) !! c = Some v ->
    -4 <= v <= 1 /\ ((Z.to_nat (pa_track_len a) <= c)%nat -> v = 0).
Proof.
  intros Ha Hk Hw. split; [apply length_insert|]. intros c v Hc.
  apply list_lookup_insert_Some in Hc as [(-> & <- & _)|[_ Hc]]; [lia|]. by apply (eo_cells _ Ha c).
Qed.

(** In-use ports after one cell changed. *)
Lemma in_use_insert a k w used p : even_ok a -> (k < Z.to_nat (pa_track_len a))%nat ->
  in_use (a <| pa_track := <[k := w]> (pa_track a) |> <| pa_track_used := used |>) p <->
  (in_range a p /\ cell_of a p = k /\ 0 < w) \/ (in_use a p /\ cell_of a p <> k).
Proof.
  intros Ha Hk. unfold in_use, in_range, cell_of. simpl.
  assert (Hlt : (k < length (pa_track a))%nat) by (rewrite (eo_track _ Ha); lia).
  destruct (decide (Z.to_nat ((p - pa_start a) / 2) = k)) as [<-|Hne].
  - rewrite list_lookup_insert_eq by done. split.
    + intros (Hr & v & [= <-] & Hv). by left.
    + intros [(Hr & _ & Hw)|[_ Hn]]; [|done]. split; [done|]. by exists w.
  - rewrite list_lookup_insert_ne by done. split.
    + intros Hu. right. by split.
    + intros [(_ & E & _)|[Hu _]]; done.
Qed.

(** A request takes the free cell [j]. *)
Lemma take_port a j : even_ok a -> 0 <= j < pa_track_len a -> pa_track a !! Z.to_nat j = Some 0 ->
  pa_track_used a < pa_track_len a ->
  let a' := a <| pa_track := <[Z.to_nat j := 1]> (pa_track a) |>
              <| pa_track_used ::= fun u => u32 (u + 1) |> in
  even_ok a' /\ in_range a (port_of a j) /\ ~ in_use a (port_of a j) /\
  forall p, in_use a' p <-> p = port_of a j \/ in_use a p.
Proof.
  intros Ha Hj Hfree Hu. destruct (even_len a Ha) as [Hlen _].
  destruct (port_of_even a j Ha Hj) as (_ & Hr & Hc).
  pose proof (count_pos_insert _ _ _ 1 Hfree) as Hcount. simpl in Hcount.
  pose proof (eo_used _ Ha) as Hused.
  destruct (insert_cell_ok a (Z.to_nat j) 1 Ha) as [Hl Hcells]; [lia|lia|]. cbv zeta. split_and!.
  - change (a <| pa_track := <[Z.to_nat j := 1]> (pa_track a) |> <| pa_track_used ::= fun u => u32 (u + 1) |>)
      with (a <| pa_track := <[Z.to_nat j := 1]> (pa_track a) |>
              <| pa_track_used := u32 (pa_track_used a + 1) |>).
    apply even_ok_cells; [done..|]. rewrite Hcount, Hused, u32_small; lia.
  - exact Hr.
  - intros [_ (v & Hv & Hpos)]. rewrite Hc, Hfree in Hv. injection Hv as <-. lia.
  - intros p. etransitivity; [apply (in_use_insert a (Z.to_nat j) 1); [done|lia]|]. split.
    + intros [(Hp & Ep & _)|[Hp _]]; [left|by right]. rewrite <- Hc in Ep. by apply (cell_inj a).
    + intros [->|Hp]; [left; split_and!; [done|done|lia]|].
      right. split; [done|]. intros E. destruct Hp as [_ (v & Hv & Hpos)]. rewrite E, Hfree in Hv.
      injection Hv as <-. lia.
Qed.

(** What a successful request leaves. *)
Definition grants (a a' : port_allocator) (port : Z) : Prop :=
  even_ok a' /\ same_ports a a' /\ in_range a port /\ ~ in_use a port /\
  forall p, in_use a' p <-> p = port \/ in_use a p.

Lemma grants_aged a track a' port : grants (a <| pa_track := track |>) a' port ->
  (forall p, in_use (a <| pa_track := track |>) p <-> in_use a p) -> grants a a' port.
Proof.
  intros (Ha & Hs & Hr & Hn & Hall) Hin. split_and!; [done|done|done|by rewrite <- Hin|].
  intros p. by rewrite Hall, Hin.
Qed.

(** Requests without socket tests. *)
Lemma request_ok d : forall fuel env k a c v, even_ok a -> no_tests a -> (forall n, 0 <= rand_at env n) ->
  pa_track_used a < pa_track_len a -> (c < Z.to_nat (pa_track_len a))%nat ->
  pa_track a !! c = Some v -> - Z.of_nat d <= v <= 0 -> (d < fuel)%nat ->
  exists a' port, request_loop fuel env k a = Ret (Some (a', port, SWITCH_STATUS_SUCCESS)) /\
    grants a a' port.
Proof.
  induction d as [d IH] using lt_wf_ind; intros fuel env k a c v Ha Hnt Hrand Hu Hc Hv Hd Hf.
  destruct fuel as [|fuel]; [lia|]. cbn [request_loop]. rewrite (proj2 (Z.ltb_lt _ _)) by done.
  destruct (round_spec env k a Ha (Hrand k) Hu) as (track & j & m & -> & Ha1 & Hin1 & Hj & Hz & Hage).
  cbn [rbind]. destruct m as [|m].
  - destruct (Hage eq_refl c v Hc Hv) as [Hne Hc'].
    assert (Hage' : age v = v + 1).
    { unfold age. rewrite (proj2 (Z.ltb_lt _ _)) by lia. unfold i8. rewrite Z.mod_small; [lia|].
      pose proof (eo_cells _ Ha c v Hv). lia. }
    destruct d as [|d]; [lia|].
    destruct (IH d (Nat.lt_succ_diag_r d) fuel env (S k) (a <| pa_track := track |>) c (v + 1))
      as (a' & port & -> & Hg); [done..|by rewrite <- Hage'|lia|lia|].
    exists a', port. split; [done|]. by eapply grants_aged.
  - destruct (take_port (a <| pa_track := track |>) j Ha1 Hj) as (Ha' & Hr & Hn & Hall);
      [apply Hz; lia|done|].
    unfold port_usable. change (pa_flags (a <| pa_track := track |>)) with (pa_flags a).
    rewrite (proj1 Hnt), (proj2 Hnt). eexists _, _. split; [reflexivity|].
    apply (grants_aged a track); [by split_and!|done].
Qed.

(** Some port is free when fewer are used than there are. *)
Lemma free_cell a : even_ok a -> pa_track_used a < pa_track_len a ->
  exists c v, (c < Z.to_nat (pa_track_len a))%nat /\ pa_track a !! c = Some v /\ -4 <= v <= 0.
Proof.
  intros Ha Hu. destruct (even_len a Ha) as [Hlen _].
  destruct (decide (Exists (fun v => v <= 0) (take (Z.to_nat (pa_track_len a)) (pa_track a)))) as [He|Hne].
  - apply Exists_exists in He as (v & Hin & Hv). apply list_elem_of_lookup in Hin as [c Hc].
    apply lookup_take_Some in Hc as [Hc Hlt]. exists c, v.
    destruct (eo_cells _ Ha c v Hc) as [Hb _]. split; [done|]. split; [done|]. lia.
  - exfalso. pose proof (count_pos_full (Z.to_nat (pa_track_len a)) (pa_track a)) as Hfull.
    rewrite (eo_used _ Ha) in Hu. assert (Z.to_nat (pa_track_len a) <= count_pos (pa_track a))%nat; [|lia].
    apply Hfull; [rewrite (eo_track _ Ha); lia|]. intros k Hk.
    destruct (lookup_lt_is_Some_2 (pa_track a) k) as [v Hv]; [rewrite (eo_track _ Ha); lia|].
    exists v. split; [done|]. destruct (Z.lt_ge_cases 0 v); [done|]. destruct Hne.
    apply Exists_exists. exists v. split; [|lia]. apply list_elem_of_lookup. exists k.
    by apply lookup_take_Some.
Qed.

(** No port is free when all are used. *)
Lemma all_used a p : even_ok a -> pa_track_len a <= pa_track_used a -> in_range a p -> in_use a p.
Proof.
  intros Ha Hu Hp. split; [done|]. destruct (cell_port a p Ha Hp) as [_ Hi].
  destruct (lookup_lt_is_Some_2 (pa_track a) (cell_of a p)) as [v Hv].
  { rewrite (eo_track _ Ha). unfold cell_of. lia. }
  exists v. split; [done|]. destruct (Z.lt_ge_cases 0 v); [done|]. exfalso.
  (* with this cell at 1, more cells would be positive than there are *)
  destruct (insert_cell_ok a (cell_of a p) 1 Ha) as [Hl Hc]; [unfold cell_of; lia|lia|].
  pose proof (count_pos_insert _ _ _ 1 Hv) as Hcount.
  rewrite (proj2 (Z.ltb_ge 0 v)) in Hcount by done. simpl in Hcount.
  set (t := <[cell_of a p := 1]> (pa_track a)) in *.
  assert (Hle : (count_pos t <= Z.to_nat (pa_track_len a))%nat).
  { rewrite <- (take_drop (Z.to_nat (pa_track_len a)) t), count_pos_app, (count_pos_zero (drop _ t)).
    - rewrite Nat.add_0_r. etransitivity; [apply List.filter_length_le|]. rewrite length_take. lia.
    - intros k w Hk. rewrite lookup_drop in Hk. destruct (Hc _ _ Hk) as [_ Hz]. rewrite Hz; lia. }
  rewrite (eo_used _ Ha) in Hu. lia.
Qed.

Lemma free_port_ok a p : even_ok a -> in_range a p ->
  exists a' st, switch_core_port_allocator_free_port a p = Ret (a', st) /\ even_ok a' /\ same_ports a a' /\
    (in_use a p -> st = SWITCH_STATUS_SUCCESS /\ forall q, in_use a' q <-> in_use a q /\ q <> p) /\
    (~ in_use a p -> st = SWITCH_STATUS_FALSE /\ a' = a).
Proof.
  intros Ha Hp. destruct (cell_port a p Ha Hp) as [_ Hi]. destruct (even_len a Ha) as [Hlen _].
  unfold switch_core_port_allocator_free_port, free_index. rewrite (eo_odd _ Ha), andb_false_r. simpl.
  rewrite (proj2 (Z.ltb_ge _ _)) by (destruct Hp; lia).
  rewrite Z.quot_div_nonneg by (destruct Hp; lia). fold (cell_of a p).
  destruct (lookup_lt_is_Some_2 (pa_track a) (cell_of a p)) as [v Hv].
  { rewrite (eo_track _ Ha). unfold cell_of. lia. }
  rewrite Hv. simpl. rewrite Z.gtb_ltb. destruct (Z.ltb_spec 0 v) as [Hpos|Hneg].
  - eexists _, _. split; [reflexivity|].
    pose proof (count_pos_insert _ _ _ (-4) Hv) as Hcount. rewrite (proj2 (Z.ltb_lt 0 v)) in Hcount by done.
    simpl in Hcount. pose proof (eo_used _ Ha) as Hused.
    destruct (insert_cell_ok a (cell_of a p) (-4) Ha) as [Hl Hcells]; [unfold cell_of; lia|lia|].
    assert (Hle : (count_pos (pa_track a) <= length (pa_track a))%nat) by apply List.filter_length_le.
    rewrite (eo_track _ Ha) in Hle.
    split; [|split; [done|split]].
    + change (even_ok (a <| pa_track := <[cell_of a p := -4]> (pa_track a) |>
        <| pa_track_used := u32 (pa_track_used a - 1) |>)).
      apply even_ok_cells; [done..|]. rewrite Hcount, Hused, u32_small; lia.
    + intros Hu. split; [done|]. intros q.
      etransitivity; [apply (in_use_insert a (cell_of a p) (-4)); [done|unfold cell_of; lia]|]. split.
      * intros [(_ & _ & ?)|[Hq Hne]]; [lia|]. split; [done|]. by intros ->.
      * intros [Hq Hne]. right. split; [done|]. intros E. apply Hne.
        apply (cell_inj a); [done|apply Hq|done|done].
    + intros Hn. destruct Hn. split; [done|]. by exists v.
  - eexists _, _. split; [reflexivity|]. split; [done|]. split; [done|]. split; [|done].
    intros [_ (v' & Hv' & Hpos)]. rewrite Hv in Hv'. injection Hv' as <-. lia.
Qed.

(** The two ports of a cell are freed alike. *)
Lemma free_port_pair a p : even_ok a -> pa_start a <= p ->
  switch_core_port_allocator_free_port a p = switch_core_port_allocator_free_port a (p - p mod 2).
Proof.
  intros Ha Hp. pose proof (Z.mod_pos_bound p 2 ltac:(lia)) as Hm. pose proof (Z.div_mod p 2 ltac:(lia)) as Hd.
  destruct (eo_parity _ Ha) as [Hs _]. pose proof (Z.div_mod (pa_start a) 2 ltac:(lia)) as Hds. rewrite Hs in Hds.
  unfold switch_core_port_allocator_free_port, free_index. rewrite (eo_odd _ Ha), andb_false_r. simpl.
  rewrite !(proj2 (Z.ltb_ge _ _)) by lia. rewrite !Z.quot_div_nonneg by lia.
  replace (p - p mod 2 - pa_start a) with ((p / 2 - pa_start a / 2) * 2) by lia.
  replace (p - pa_start a) with ((p / 2 - pa_start a / 2) * 2 + p mod 2) by lia.
  by rewrite Z.div_mul, Z.div_add_l, (Z.div_small (p mod 2)), Z.add_0_r by lia.
Qed.

(** The cells behind that of the last port are never used. *)
Lemma free_port_behind a p : even_ok a -> pa_end a + 1 < p <= pa_end a + 5 ->
  switch_core_port_allocator_free_port a p = Ret (a, SWITCH_STATUS_FALSE).
Proof.
  intros Ha Hp. destruct (even_len a Ha) as [Hlen Hend]. pose proof (eo_range _ Ha).
  pose proof (Z.div_mod (p - pa_start a) 2 ltac:(lia)). pose proof (Z.mod_pos_bound (p - pa_start a) 2 ltac:(lia)).
  unfold switch_core_port_allocator_free_port, free_index. rewrite (eo_odd _ Ha), andb_false_r. simpl.
  rewrite (proj2 (Z.ltb_ge _ _)) by lia. rewrite Z.quot_div_nonneg by lia.
  destruct (lookup_lt_is_Some_2 (pa_track a) (Z.to_nat ((p - pa_start a) / 2))) as [v Hv]; [rewrite (eo_track _ Ha); lia|].
  rewrite Hv. simpl. destruct (eo_cells _ Ha _ _ Hv) as [_ Hz]. by rewrite Hz by lia.
Qed.

Lemma test_flag_lor f g b : test_flag (Z.lor f g) b = test_flag f b || test_flag g b.
Proof.
  unfold test_flag. rewrite Z.land_lor_distr_l.
  destruct (Z.eqb_spec (Z.land f b) 0) as [->|Hf], (Z.eqb_spec (Z.land g b) 0) as [->|Hg]; simpl; try done.
  - by rewrite Z.lor_0_l, (proj2 (Z.eqb_neq _ _)).
  - by rewrite Z.lor_0_r, (proj2 (Z.eqb_neq _ _)).
  - rewrite (proj2 (Z.eqb_neq _ _)); [done|]. intros [? ?]%Z.lor_eq_0_iff. done.
Qed.

Lemma new_even_ok start end_ flags runtime_flags :
  0 <= start -> end_ < 65536 -> start + start mod 2 <= end_ - end_ mod 2 ->
  test_flag flags SPF_EVEN = true -> test_flag (Z.lor flags runtime_flags) SPF_ODD = false ->
  let a := switch_core_port_allocator_new start end_ flags runtime_flags in
  even_ok a /\ pa_start a = start + start mod 2 /\ pa_end a = end_ - end_ mod 2 /\
  pa_flags a = Z.lor flags runtime_flags /\ forall p, ~ in_use a p.
Proof.
  intros Hs He Hr Hev Hod. pose proof (Z.mod_pos_bound start 2). pose proof (Z.mod_pos_bound end_ 2).
  assert (Hod' : test_flag flags SPF_ODD = false).
  { rewrite test_flag_lor in Hod. by apply orb_false_iff in Hod as [? _]. }
  set (s := start + start mod 2) in *. set (e := end_ - end_ mod 2) in *.
  assert (Hsm : s mod 2 = 0) by (unfold s; rewrite <- Zplus_mod_idemp_l; destruct (Z.eq_dec (start mod 2) 0) as [->|];
    [done|by replace (start mod 2) with 1 by lia]).
  assert (Hem : e mod 2 = 0) by (unfold e; rewrite <- Zminus_mod_idemp_l, Z.sub_diag; done).
  assert (Hss : (if negb (start mod 2 =? 0) then u16 (start + 1) else start) = s).
  { unfold s. destruct (Z.eqb_spec (start mod 2) 0) as [->|]; simpl; [lia|]. rewrite u16_small; lia. }
  assert (Hee : (if negb (end_ mod 2 =? 0) then u16 (end_ - 1) else end_) = e).
  { unfold e. destruct (Z.eqb_spec (end_ mod 2) 0) as [->|]; simpl; [lia|]. rewrite u16_small; lia. }
  assert (Hn : switch_core_port_allocator_new start end_ flags runtime_flags =
    mk_allocator s e s (replicate (Z.to_nat ((e - s) / 2 + 3)) 0) ((e - s) / 2 + 1) 0
      (Z.lor flags runtime_flags)).
  { unfold switch_core_port_allocator_new. rewrite Hev, Hod'. simpl. rewrite Hss, Hee.
    rewrite (u32_small (e - s + 2)) by lia. replace (e - s + 2) with (e - s + 1 * 2) by lia.
    rewrite Z.div_add by lia. rewrite u32_small by (pose proof (Z.div_le_upper_bound (e - s) 2 65536);
      pose proof (Z.div_pos (e - s) 2); lia).
    by replace ((e - s) / 2 + 1 + 2) with ((e - s) / 2 + 3) by lia. }
  cbv zeta. rewrite Hn. pose proof (Z.div_pos (e - s) 2).
  assert (Hzero : forall k v, replicate (Z.to_nat ((e - s) / 2 + 3)) 0 !! k = Some v -> v = 0).
  { intros k v [-> _]%lookup_replicate. done. }
  split_and!; try done.
  - split; simpl; try done; try lia.
    + by rewrite test_flag_lor, Hev.
    + rewrite length_replicate. lia.
    + intros k v ->%Hzero. lia.
    + rewrite count_pos_zero; [done|]. intros k v ->%Hzero. lia.
  - intros p [_ (v & Hv & Hpos)]. simpl in Hv. apply Hzero in Hv. lia.
Qed.

(** ** Refinement of a set of ports *)
Inductive port_op := PRequest (env : port_env) | PFree (port : Z).

Definition exec_port_op (a : port_allocator) (op : port_op)
    : option (port_allocator * (Z * switch_status)) :=
  match op with
  | PRequest env =>
    match switch_core_port_allocator_request_port 5 env a with
    | Ret (Some (a, port, st)) => Some (a, (port, st))
    | _ => None
    end
  | PFree port =>
    match switch_core_port_allocator_free_port a port with
    | Ret (a, st) => Some (a, (port, st))
    | _ => None
    end
  end.

Inductive port_step (lo hi : Z) : gset Z -> port_op -> Z * switch_status -> gset Z -> Prop :=
| ps_grant U env p : lo <= p <= hi -> p mod 2 = 0 -> p ∉ U ->
    port_step lo hi U (PRequest env) (p, SWITCH_STATUS_SUCCESS) ({[p]} ∪ U)
| ps_exhausted U env : (forall p, lo <= p <= hi -> p mod 2 = 0 -> p ∈ U) ->
    port_step lo hi U (PRequest env) (0, SWITCH_STATUS_FALSE) U
| ps_free U p : lo <= p -> p - p mod 2 ∈ U ->
    port_step lo hi U (PFree p) (p, SWITCH_STATUS_SUCCESS) (U ∖ {[p - p mod 2]})
| ps_not_used U p : lo <= p -> p - p mod 2 ∉ U -> port_step lo hi U (PFree p) (p, SWITCH_STATUS_FALSE) U
| ps_below U p : p < lo -> port_step lo hi U (PFree p) (p, SWITCH_STATUS_GENERR) U.

Fixpoint exec_port_ops (a : port_allocator) (ops : list port_op)
    : option (port_allocator * list (Z * switch_status)) :=
  match ops with
  | [] => Some (a, [])
  | op :: ops =>
    '(a, o) ← exec_port_op a op; '(a, os) ← exec_port_ops a ops; Some (a, o :: os)
  end.

Inductive port_run (lo hi : Z) : gset Z -> list port_op -> list (Z * switch_status) -> gset Z -> Prop :=
| pr_nil U : port_run lo hi U [] [] U
| pr_cons U op o U' ops os U'' : port_step lo hi U op o U' -> port_run lo hi U' ops os U'' ->
    port_run lo hi U (op :: ops) (o :: os) U''.

(** The ports that may be freed: all of which the cell lies in the table, which
    has two cells more than ports, and those below the range. *)
Definition port_op_ok (lo hi : Z) (op : port_op) : Prop :=
  match op with
  | PRequest env => forall n, 0 <= rand_at env n
  | PFree p => p <= hi + 5
  end.

Definition ports_are (a : port_allocator) (U : gset Z) : Prop := forall p, p ∈ U <-> in_use a p.

Lemma exec_port_op_ok a U op : even_ok a -> no_tests a -> ports_are a U ->
  port_op_ok (pa_start a) (pa_end a) op ->
  exists a' o U', exec_port_op a op = Some (a', o) /\ even_ok a' /\ same_ports a a' /\ ports_are a' U' /\
    port_step (pa_start a) (pa_end a) U op o U'.
Proof.
  unfold ports_are. intros Ha Hnt HU Hop. destruct op as [env|p]; simpl in *.
  - destruct (Z.lt_ge_cases (pa_track_used a) (pa_track_len a)) as [Hlt|Hge].
    + destruct (free_cell a Ha Hlt) as (c & v & Hc & Hv & Hr).
      destruct (request_ok 4 5 env 0 a c v) as (a' & port & E & Ha' & Hs & Hin & Hn & Hall); try done; [lia|].
      unfold switch_core_port_allocator_request_port. rewrite E. eexists a', _, ({[port]} ∪ U).
      split; [reflexivity|]. split_and!; [done|done| |].
      * intros q. rewrite elem_of_union, elem_of_singleton, Hall, HU. done.
      * destruct Hin. constructor; [done|done|]. by rewrite HU.
    + unfold switch_core_port_allocator_request_port. cbn [request_loop].
      rewrite (proj2 (Z.ltb_ge _ _)) by done. eexists a, _, U. split; [reflexivity|].
      split_and!; try done. constructor. intros p Hp Hm. apply HU. by apply all_used.
  - destruct (Z.lt_ge_cases p (pa_start a)) as [Hlow|Hlow].
    { unfold switch_core_port_allocator_free_port. rewrite (proj2 (Z.ltb_lt _ _)) by done.
      eexists a, _, U. split; [reflexivity|]. split_and!; try done. by constructor. }
    destruct (Z.lt_ge_cases (pa_end a + 1) p) as [Hhi|Hhi].
    { rewrite free_port_behind by (done || lia). eexists a, _, U. split; [reflexivity|].
      split_and!; try done. constructor; [done|]. intros [[[_ H] _] _]%HU. pose proof (Z.mod_pos_bound p 2). lia. }
    rewrite free_port_pair by done. set (q := p - p mod 2).
    assert (Hq : in_range a q).
    { unfold q. destruct (eo_parity _ Ha) as [Hs He]. split; [|rewrite Zminus_mod_idemp_r, Z.sub_diag; done].
      pose proof (Z.mod_pos_bound p 2). pose proof (Z.div_mod p 2). pose proof (Z.div_mod (pa_start a) 2).
      pose proof (Z.div_mod (pa_end a) 2). lia. }
    destruct (free_port_ok a q Ha Hq) as (a' & st & E & Ha' & Hs & Hused & Hfree).
    rewrite E. destruct (decide (q ∈ U)) as [Hin|Hout].
    + destruct Hused as [-> Hall]; [by apply HU|]. eexists a', _, (U ∖ {[q]}). split; [reflexivity|].
      split_and!; [done|done| |by constructor]. intros r.
      by rewrite elem_of_difference, elem_of_singleton, Hall, HU.
    + destruct Hfree as [-> ->]; [by rewrite <- HU|]. eexists a, _, U. split; [reflexivity|].
      split_and!; try done. by constructor.
Qed.

Lemma exec_port_ops_ok ops : forall a U, even_ok a -> no_tests a -> ports_are a U ->
  Forall (port_op_ok (pa_start a) (pa_end a)) ops ->
  exists a' os U', exec_port_ops a ops = Some (a', os) /\ even_ok a' /\ ports_are a' U' /\
    port_run (pa_start a) (pa_end a) U ops os U'.
Proof.
  induction ops as [|op ops IH]; intros a U Ha Hnt HU Hops.
  - exists a, [], U. split_and!; try done. constructor.
  - apply Forall_cons in Hops as [Hop Hops].
    destruct (exec_port_op_ok a U op Ha Hnt HU Hop) as (a1 & o & U1 & E & Ha1 & (Hs & He & _ & Hf) & HU1 & Hst).
    rewrite <- Hs, <- He in Hops. destruct (IH a1 U1) as (a' & os & U' & E' & Ha' & HU' & Hrun); try done.
    { unfold no_tests in *. by rewrite Hf. }
    exists a', (o :: os), U'. split; [simpl; by rewrite E; simpl; rewrite E'|].
    split_and!; [done|done|]. econstructor; [exact Hst|]. by rewrite <- Hs, <- He.
Qed.

(** C14: an allocator for even ports, without socket tests, implements a set of
    ports.  Every request ends within five rounds; it grants an even port of
    the range that is not in use, and fails exactly when all of them are.  A port
    of the range that is freed is available again; with it frees the odd port
    behind it.  Freeing a port below the range, and one of which the even port is
    not in use, is refused and changes nothing, up to the end of the table, five
    ports behind the range (behind it the code reads out of bounds). *)
Theorem port_allocator_refines_set (start end_ flags runtime_flags : Z) (ops : list port_op) :
  0 <= start -> end_ < 65536 -> start + start mod 2 <= end_ - end_ mod 2 ->
  test_flag flags SPF_EVEN = true -> test_flag (Z.lor flags runtime_flags) SPF_ODD = false ->
  test_flag (Z.lor flags runtime_flags) SPF_ROBUST_UDP = false ->
  test_flag (Z.lor flags runtime_flags) SPF_ROBUST_TCP = false ->
  Forall (port_op_ok (start + start mod 2) (end_ - end_ mod 2)) ops ->
  exists a os U, exec_port_ops (switch_core_port_allocator_new start end_ flags runtime_flags) ops
      = Some (a, os) /\ ports_are a U /\
    port_run (start + start mod 2) (end_ - end_ mod 2) ∅ ops os U.
Proof.
  intros Hs He Hr Hev Hod Hu Ht Hops.
  destruct (new_even_ok start end_ flags runtime_flags Hs He Hr Hev Hod) as (Ha & Es & Ee & Hf & Hnone).
  rewrite <- Es, <- Ee in Hops |- *.
  destruct (exec_port_ops_ok ops _ ∅ Ha) as (a & os & U & E & _ & HU & Hrun); [|..|done|].
  - split; by rewrite Hf.
  - intros p. split; [by intros ?%elem_of_empty|]. by intros ?%Hnone.
  - by exists a, os, U.
Qed.

Definition any_env : port_env :=
  {| rand_at := fun k => 7 * Z.of_nat k; udp_binds _ _ := true; tcp_binds _ _ := true |}.

(** Three ports, four requests, a release and the requests it allows. *)
Definition port_demo : list port_op :=
  [PRequest any_env; PRequest any_env; PRequest any_env; PRequest any_env; PFree 10002;
   PFree 10002; PFree 9000; PRequest any_env; PFree 10001; PFree 10009].

Lemma port_allocator_refines_set_witness :
  snd <$> exec_port_ops (switch_core_port_allocator_new 9999 10005 SPF_EVEN 0) port_demo =
    Some [(10000, SWITCH_STATUS_SUCCESS); (10002, SWITCH_STATUS_SUCCESS); (10004, SWITCH_STATUS_SUCCESS);
          (0, SWITCH_STATUS_FALSE); (10002, SWITCH_STATUS_SUCCESS); (10002, SWITCH_STATUS_FALSE);
          (9000, SWITCH_STATUS_GENERR); (10002, SWITCH_STATUS_SUCCESS); (10001, SWITCH_STATUS_SUCCESS);
          (10009, SWITCH_STATUS_FALSE)] /\
  exists a os U, exec_port_ops (switch_core_port_allocator_new 9999 10005 SPF_EVEN 0) port_demo
      = Some (a, os) /\ ports_are a U /\
    port_run (9999 + 9999 mod 2) (10005 - 10005 mod 2) ∅ port_demo os U.
Proof.
  split; [vm_compute; reflexivity|].
  apply port_allocator_refines_set; try (vm_compute; reflexivity); try (vm_compute; discriminate).
  unfold port_demo. repeat (apply Forall_cons; split); simpl; try (intros; lia); try done.
Defined.

(** ** Departures *)

(** A release does not test the end of the range: for a port more than five
    behind it the cell lies outside the table. *)
Theorem free_port_leaves_table (a : port_allocator) (p : Z) : even_ok a -> pa_end a + 5 < p ->
  switch_core_port_allocator_free_port a p = Ub.
Proof.
  intros Ha Hp. destruct (even_len a Ha) as [Hlen Hend]. pose proof (eo_range _ Ha).
  pose proof (Z.div_mod (p - pa_start a) 2 ltac:(lia)). pose proof (Z.mod_pos_bound (p - pa_start a) 2 ltac:(lia)).
  unfold switch_core_port_allocator_free_port, free_index. rewrite (eo_odd _ Ha), andb_false_r. simpl.
  rewrite (proj2 (Z.ltb_ge _ _)) by lia. rewrite Z.quot_div_nonneg by lia.
  rewrite lookup_ge_None_2; [done|]. rewrite (eo_track _ Ha). lia.
Qed.

(** The odd port behind a port in use releases it. *)
Theorem odd_port_releases_even :
  switch_core_port_allocator_free_port
    ((switch_core_port_allocator_new 10000 10004 SPF_EVEN 0) <| pa_track := [1; 0; 0; 0; 0] |> <| pa_track_used := 1 |>) 10001 =
  Ret ((switch_core_port_allocator_new 10000 10004 SPF_EVEN 0) <| pa_track := [-4; 0; 0; 0; 0] |>, SWITCH_STATUS_SUCCESS).
Proof. vm_compute. reflexivity. Qed.

(** An allocator for odd ports hands out even ones.  The first cell of
    the range 10001..10009 stands for port 10000, which lies below the range,
    and which [switch_core_port_allocator_free_port] refuses to take back. *)
Theorem odd_allocator_grants_even_port :
  exists a, switch_core_port_allocator_request_port 1 any_env
      (switch_core_port_allocator_new 10001 10009 SPF_ODD 0)
      = Ret (Some (a, 10000, SWITCH_STATUS_SUCCESS)) /\ pa_start a = 10001 /\
    switch_core_port_allocator_free_port a 10000 = Ret (a, SWITCH_STATUS_GENERR).
Proof. eexists. split; [vm_compute; reflexivity|]. split; vm_compute; reflexivity. Qed.

(** An allocator for ports of both parities has one cell too many: it grants
    the port after the end of its range. *)
Theorem both_parities_grant_past_end :
  exists a, switch_core_port_allocator_request_port 1
      {| rand_at _ := 2; udp_binds _ _ := true; tcp_binds _ _ := true |}
      (switch_core_port_allocator_new 10000 10001 (Z.lor SPF_EVEN SPF_ODD) 0)
      = Ret (Some (a, 10002, SWITCH_STATUS_SUCCESS)) /\ pa_end a = 10001.
Proof. eexists. split; vm_compute; reflexivity. Qed.

(** With a socket test that no port passes, a request never returns: each
    failed port is only set aside, and the loop tests for used ports alone. *)
Theorem request_port_never_returns (fuel : nat) (env : port_env) (a : port_allocator) :
  even_ok a -> pa_track_used a < pa_track_len a -> (forall n, 0 <= rand_at env n) ->
  test_flag (pa_flags a) SPF_ROBUST_UDP = true -> test_flag (pa_flags a) SPF_ROBUST_TCP = false ->
  (forall n p, udp_binds env n p = false) ->
  switch_core_port_allocator_request_port fuel env a = Ret None.
Proof.
  unfold switch_core_port_allocator_request_port. generalize 0%nat as k. revert a.
  induction fuel as [|fuel IH]; intros a k Ha Hu Hrand Hudp Htcp Hno; cbn [request_loop];
    rewrite (proj2 (Z.ltb_lt _ _)) by done; [done|].
  destruct (round_spec env k a Ha (Hrand k) Hu) as (track & j & m & -> & Ha1 & _ & Hj & Hz & _).
  cbn [rbind]. destruct m as [|m]; [by apply IH|].
  unfold port_usable. change (pa_flags (a <| pa_track := track |>)) with (pa_flags a).
  rewrite Hudp, Htcp, Hno. apply IH; try done.
  assert (Hfree : track !! Z.to_nat j = Some 0) by (apply Hz; lia).
  destruct (insert_cell_ok (a <| pa_track := track |>) (Z.to_nat j) (-4) Ha1) as [Hl Hc];
    [simpl; lia|lia|]. simpl in Hl, Hc.
  assert (Hok : even_ok ((a <| pa_track := track |>) <| pa_track := <[Z.to_nat j := -4]> track |>
    <| pa_track_used := pa_track_used a |>)).
  { apply even_ok_cells; try done. pose proof (eo_used _ Ha1) as Hused. simpl in Hused. rewrite Hused.
    pose proof (count_pos_insert _ _ _ (-4) Hfree) as Hcount. simpl in Hcount. lia. }
  by destruct a.
Qed.

Lemma request_port_never_returns_witness :
  switch_core_port_allocator_request_port 50
    {| rand_at := Z.of_nat; udp_binds _ _ := false; tcp_binds _ _ := false |}
    (switch_core_port_allocator_new 10000 10010 SPF_EVEN SPF_ROBUST_UDP) = Ret None.
Proof.
  apply request_port_never_returns; try (vm_compute; reflexivity); try (intros; simpl; lia); try done.
  apply (new_even_ok 10000 10010 SPF_EVEN SPF_ROBUST_UDP); try (vm_compute; reflexivity);
    vm_compute; discriminate.
Defined.
