(* ===== verification/Scheduler.v ===== *)
(** * Scheduler: timed tasks, src/switch_scheduler.c

    A list of task containers, a thread that runs the due ones and removes the
    finished ones, threads of their own for some tasks, and callers that add
    and delete tasks.  The blocks the code runs under [task_mutex] are functions
    of the state; their interleaving is a step relation in which a container is
    identified by its address.  A callback may change the task it is given: the
    new [runtime] and [repeat] are chosen by the step.  Log output is left out;
    the events pushed to the queue are kept. *)
From S2P Require Import Prelude CoreHash.
From Stdlib Require Import ZArith Lia.
From stdpp Require Import base numbers option list.

Local Open Scope Z_scope.

Definition SSHF_OWN_THREAD : Z := Z.shiftl 1 0.
Definition SSHF_FREE_ARG : Z := Z.shiftl 1 1.
Definition SSHF_NO_DEL : Z := Z.shiftl 1 2.

(** [switch_ci_hashfunc_default] of src/switch_apr.c: by string length when
    [klen] is -1, over [klen] bytes otherwise. *)
Definition ci_hash_bytes (s : cstring) : Z :=
  fold_left (fun hash c => u32 (hash * 33 + ascii_lower (byte_Z c))) s 0.
Definition switch_ci_hashfunc_default (char_key : cstring) (klen : Z) : Z * Z :=
  if klen =? -1 then (ci_hash_bytes (cstr char_key), zlen (cstr char_key))
  else (ci_hash_bytes (take (Z.to_nat klen) char_key), klen).

(** [struct switch_scheduler_task_container] with the [switch_scheduler_task_t]
    inside it. *)
Record task_container := mk_task {
  t_addr : nat;
  t_created : Z;
  t_runtime : Z;
  t_cmd_id : Z;
  t_repeat : Z;
  t_group : cstring;
  t_cmd_arg : option Z;
  t_task_id : Z;
  t_hash : Z;
  t_executed : Z;
  t_in_thread : bool;
  t_destroyed : Z;
  t_running : bool;
  t_func : nat;
  t_flags : Z;
  t_desc : cstring
}.
#[export] Instance eta_task : Eta task_container := fun t =>
  mk_task (t_addr t) (t_created t) (t_runtime t) (t_cmd_id t) (t_repeat t) (t_group t)
    (t_cmd_arg t) (t_task_id t) (t_hash t) (t_executed t) (t_in_thread t) (t_destroyed t)
    (t_running t) (t_func t) (t_flags t) (t_desc t).

Inductive sched_event :=
| AddSchedule (task_id runtime : Z)
| ReSchedule (task_id runtime : Z)
| DelSchedule (task_id runtime : Z).

(** ** Atomic blocks *)

(** [switch_scheduler_execute]; the callback left [runtime] and [repeat] as
    given, and [now] is the time after it returned. *)
Definition switch_scheduler_execute (runtime repeat now : Z) (tp : task_container)
    : task_container * list sched_event :=
  let tp := tp <| t_runtime := runtime |> <| t_repeat := repeat |> in
  let tp := if negb (t_repeat tp =? 0) then tp <| t_runtime := now + t_repeat tp |> else tp in
  if t_runtime tp >? t_executed tp
  then (tp <| t_executed := 0 |>, [ReSchedule (t_task_id tp) (t_runtime tp)])
  else (tp <| t_destroyed := 1 |>, []).

(** The body of the first loop of [task_thread_loop] for one task. *)
Inductive scan_result :=
| ScanNext (tp : task_container)
| ScanSpawn (tp : task_container)
| ScanRun (tp : task_container).

Definition scan_one (done : bool) (now : Z) (tp : task_container) : scan_result :=
  if done then ScanNext (tp <| t_destroyed := 1 |>)
  else if t_destroyed tp =? 0 then
    if (now >=? t_runtime tp) && negb (t_in_thread tp) then
      let tp := tp <| t_executed := now |> in
      if test_flag (t_flags tp) SSHF_OWN_THREAD
      then ScanSpawn (tp <| t_in_thread := true |>)
      else ScanRun (tp <| t_running := true |>)
    else ScanNext tp
  else ScanNext tp.

(** The second loop of [task_thread_loop]: the tasks that stay and those that
    are freed. *)
Definition deletable (tp : task_container) : bool := negb (t_destroyed tp =? 0) && negb (t_in_thread tp).
Definition delete_phase (l : list task_container)
    : list task_container * list task_container * list sched_event :=
  (List.filter (fun tp => negb (deletable tp)) l, List.filter deletable l,
   map (fun tp => DelSchedule (t_task_id tp) (t_runtime tp)) (List.filter deletable l)).

(** [for (id = 0; !id; id = ++globals.task_id)]: the counter after the loop; it
    skips 0. *)
Definition next_task_id (task_id : Z) : Z :=
  let id := u32 (task_id + 1) in if id =? 0 then u32 (id + 1) else id.

Definition none_string : cstring := [Byte.x6e; Byte.x6f; Byte.x6e; Byte.x65].

(** The container [switch_scheduler_add_task] builds and appends. *)
Definition new_container (addr : nat) (now task_runtime : Z) (func : nat) (desc group : option cstring)
    (cmd_id : Z) (cmd_arg : option Z) (flags task_id : Z) : task_container :=
  let '(repeat, runtime) :=
    if task_runtime <? now then (u32 task_runtime, task_runtime + now) else (0, task_runtime) in
  let group := cstr (default none_string group) in
  mk_task addr now runtime cmd_id repeat group cmd_arg task_id
    (switch_ci_hashfunc_default group (-1)).1 0 false 0 false func flags
    (cstr (default none_string desc)).

(** [switch_scheduler_del_task_id]: the first task with the number. *)
Fixpoint switch_scheduler_del_task_id (l : list task_container) (task_id : Z)
    : list task_container * Z :=
  match l with
  | [] => ([], 0)
  | tp :: l =>
    if t_task_id tp =? task_id then
      if test_flag (t_flags tp) SSHF_NO_DEL then (tp :: l, 0)
      else if t_running tp then (tp :: l, 0)
      else (tp <| t_destroyed ::= fun d => d + 1 |> :: l, 1)
    else let '(l, n) := switch_scheduler_del_task_id l task_id in (tp :: l, n)
  end.

Definition strcmp_eq (a b : cstring) : bool := switch_hash_equalkeys a b.

(** [switch_scheduler_del_task_group] *)
Definition group_hit (group : cstring) (hash : Z) (tp : task_container) : bool :=
  (t_destroyed tp =? 0) && (hash =? t_hash tp) && strcmp_eq (t_group tp) group
  && negb (test_flag (t_flags tp) SSHF_NO_DEL).
Definition switch_scheduler_del_task_group (l : list task_container) (group : option cstring)
    : list task_container * Z :=
  match group with
  | Some g =>
    if zlen (cstr g) =? 0 then (l, 0)
    else
      let hash := (switch_ci_hashfunc_default g (-1)).1 in
      (map (fun tp => if group_hit g hash tp then tp <| t_destroyed ::= fun d => d + 1 |> else tp) l,
       zlen (List.filter (group_hit g hash) l))
  | None => (l, 0)
  end.

(** ** The system *)

(** Where the scheduler thread is.  It holds [task_mutex] in [Scan] only. *)
Inductive sched_pc :=
| Idle
| Scan (done : bool) (tp : option nat)
| Run (tp : nat)
| Purge (done : bool)
| Stopped.

(** A thread started for one task: before and after its callback. *)
Inductive thread_pc := Pending | Finished.

Record sched := mk_sched {
  s_tasks : list task_container;
  s_task_id : Z;
  s_pc : sched_pc;
  (** threads of their own, by the address of their task *)
  s_threads : list (nat * thread_pc);
  (** callers of [switch_scheduler_add_task] that released the mutex *)
  s_adding : list nat;
  s_events : list sched_event;
  (** addresses of the callbacks started, oldest first *)
  s_starts : list nat;
  (** number of containers allocated *)
  s_next_addr : nat;
  (** accesses to freed containers by the threads that run tasks, and by
      callers of [switch_scheduler_add_task] *)
  s_bad_reads : list nat;
  s_bad_returns : list nat
}.
#[export] Instance eta_sched : Eta sched := fun s =>
  mk_sched (s_tasks s) (s_task_id s) (s_pc s) (s_threads s) (s_adding s) (s_events s) (s_starts s)
    (s_next_addr s) (s_bad_reads s) (s_bad_returns s).

Definition addrs (l : list task_container) : list nat := map t_addr l.
Definition task_at (l : list task_container) (a : nat) : option task_container :=
  List.find (fun tp => (t_addr tp =? a)%nat) l.
Definition upd_task (a : nat) (f : task_container -> task_container) (l : list task_container) :=
  map (fun tp => if (t_addr tp =? a)%nat then f tp else tp) l.

(** [tp->next] *)
Fixpoint next_addr (a : nat) (l : list task_container) : option nat :=
  match l with
  | [] => None
  | tp :: l => if (t_addr tp =? a)%nat then t_addr <$> head l else next_addr a l
  end.

(** [switch_scheduler_add_task] up to the release of the mutex. *)
Definition add_task_locked (s : sched) (now task_runtime : Z) (func : nat) (desc group : option cstring)
    (cmd_id : Z) (cmd_arg : option Z) (flags : Z) : sched :=
  let id := next_task_id (s_task_id s) in
  let tp := new_container (s_next_addr s) now task_runtime func desc group cmd_id cmd_arg flags id in
  s <| s_tasks ::= fun l => l ++ [tp] |> <| s_task_id := id |>
    <| s_adding ::= fun l => s_next_addr s :: l |> <| s_next_addr ::= S |>.

(** The rest of [switch_scheduler_add_task]: it reads the container again. *)
Definition add_task_return (s : sched) (a : nat) : sched * option Z :=
  let s := s <| s_adding ::= List.filter (fun b => negb (b =? a)%nat) |> in
  match task_at (s_tasks s) a with
  | Some tp => (s <| s_events ::= fun e => e ++ [AddSchedule (t_task_id tp) (t_runtime tp)] |>, Some (t_task_id tp))
  | None => (s <| s_bad_returns ::= fun b => a :: b |>, None)
  end.

(** A callback runs to its end and [switch_scheduler_execute] with it. *)
Definition run_task (s : sched) (a : nat) (runtime repeat now : Z) : sched :=
  match task_at (s_tasks s) a with
  | Some tp =>
    let '(tp', ev) := switch_scheduler_execute runtime repeat now tp in
    s <| s_tasks ::= upd_task a (fun _ => tp') |> <| s_events ::= fun e => e ++ ev |>
  | None => s <| s_bad_reads ::= fun b => a :: b |>
  end.

Definition set_in_thread (s : sched) (a : nat) (b : bool) : sched :=
  match task_at (s_tasks s) a with
  | Some _ => s <| s_tasks ::= upd_task a (fun tp => tp <| t_in_thread := b |>) |>
  | None => s <| s_bad_reads ::= fun l => a :: l |>
  end.

Definition unlocked (pc : sched_pc) : Prop := forall done tp, pc <> Scan done tp.

Inductive sched_step : sched -> sched -> Prop :=
| st_loop s done : s_pc s = Idle ->
    sched_step s (s <| s_pc := Scan done (t_addr <$> head (s_tasks s)) |>)
| st_scan_next s done a now tp tp' : s_pc s = Scan done (Some a) -> task_at (s_tasks s) a = Some tp ->
    scan_one done now tp = ScanNext tp' ->
    sched_step s (s <| s_tasks ::= upd_task a (fun _ => tp') |>
                    <| s_pc := Scan done (next_addr a (s_tasks s)) |>)
| st_scan_spawn s done a now tp tp' : s_pc s = Scan done (Some a) -> task_at (s_tasks s) a = Some tp ->
    scan_one done now tp = ScanSpawn tp' ->
    sched_step s (s <| s_tasks ::= upd_task a (fun _ => tp') |>
                    <| s_threads ::= cons (a, Pending) |> <| s_starts ::= fun l => l ++ [a] |>
                    <| s_pc := Scan done (next_addr a (s_tasks s)) |>)
| st_scan_run s done a now tp tp' : s_pc s = Scan done (Some a) -> task_at (s_tasks s) a = Some tp ->
    scan_one done now tp = ScanRun tp' ->
    sched_step s (s <| s_tasks ::= upd_task a (fun _ => tp') |>
                    <| s_starts ::= fun l => l ++ [a] |> <| s_pc := Run a |>)
| st_run_end s a runtime repeat now : s_pc s = Run a ->
    let s1 := run_task s a runtime repeat now in
    sched_step s (s1 <| s_tasks ::= upd_task a (fun tp => tp <| t_running := false |>) |>
                     <| s_pc := Scan false (next_addr a (s_tasks s1)) |>)
| st_scan_end s done : s_pc s = Scan done None -> sched_step s (s <| s_pc := Purge done |>)
| st_purge s done : s_pc s = Purge done ->
    let '(l, freed, ev) := delete_phase (s_tasks s) in
    sched_step s (s <| s_tasks := l |> <| s_events ::= fun e => e ++ ev |>
                    <| s_pc := if done then Stopped else Idle |>)
| st_thread_run s a l1 l2 runtime repeat now : s_threads s = l1 ++ (a, Pending) :: l2 ->
    sched_step s ((run_task s a runtime repeat now) <| s_threads := l1 ++ (a, Finished) :: l2 |>)
| st_thread_end s a l1 l2 : s_threads s = l1 ++ (a, Finished) :: l2 ->
    sched_step s ((set_in_thread s a false) <| s_threads := l1 ++ l2 |>)
| st_add s now runtime func desc group cmd_id cmd_arg flags : unlocked (s_pc s) ->
    sched_step s (add_task_locked s now runtime func desc group cmd_id cmd_arg flags)
| st_add_return s a : a ∈ s_adding s -> sched_step s (add_task_return s a).1
| st_del_id s id : unlocked (s_pc s) ->
    sched_step s (s <| s_tasks := (switch_scheduler_del_task_id (s_tasks s) id).1 |>)
| st_del_group s group : unlocked (s_pc s) ->
    sched_step s (s <| s_tasks := (switch_scheduler_del_task_group (s_tasks s) group).1 |>).

Definition sched_init : sched := mk_sched [] 0 Idle [] [] [] [] 0 [] [].

Inductive reachable : sched -> Prop :=
| reach_init : reachable sched_init
| reach_step s s' : reachable s -> sched_step s s' -> reachable s'.

(** ** Invariant *)

(** What the invariant is about: address, [in_thread], [running] and number. *)
Record profile := mk_profile { p_addr : nat; p_in_thread : bool; p_running : bool; p_id : Z }.
Definition prof (tp : task_container) : profile :=
  mk_profile (t_addr tp) (t_in_thread tp) (t_running tp) (t_task_id tp).

Definition pc_addr (pc : sched_pc) : option nat :=
  match pc with Scan _ tp => tp | Run a => Some a | _ => None end.

Record profs_ok (ps : list profile) (pc : sched_pc) (th : list (nat * thread_pc)) (next : nat) : Prop := {
  po_nodup : NoDup (map p_addr ps);
  po_fresh : forall p, p ∈ ps -> (p_addr p < next)%nat /\ p_id p <> 0;
  po_pc : forall a, pc_addr pc = Some a -> a ∈ map p_addr ps;
  po_running : forall p, p ∈ ps -> p_running p = true <-> pc = Run (p_addr p);
  po_threads : NoDup (map fst th);
  po_in_thread : forall a, a ∈ map fst th <-> exists p, p ∈ ps /\ p_addr p = a /\ p_in_thread p = true
}.

Definition sched_ok (s : sched) : Prop :=
  profs_ok (map prof (s_tasks s)) (s_pc s) (s_threads s) (s_next_addr s) /\ s_bad_reads s = [].

Definition upd_prof (a : nat) (f : profile -> profile) (l : list profile) : list profile :=
  map (fun p => if (p_addr p =? a)%nat then f p else p) l.

Lemma prof_upd a f g l : (forall tp, prof (f tp) = g (prof tp)) ->
  map prof (upd_task a f l) = upd_prof a g (map prof l).
Proof.
  intros Hf. unfold upd_task, upd_prof. rewrite !map_map. apply map_ext. intros tp.
  simpl. case_if E; [apply Hf|done].
Qed.

Lemma prof_addrs l : map p_addr (map prof l) = addrs l.
Proof. unfold addrs. by rewrite map_map. Qed.

Lemma upd_prof_addr a f l : (forall p, p_addr (f p) = p_addr p) ->
  map p_addr (upd_prof a f l) = map p_addr l.
Proof. intros Hf. unfold upd_prof. rewrite map_map. apply map_ext. intros p. case_if E; [apply Hf|done]. Qed.

Lemma elem_upd_prof a f l q : q ∈ upd_prof a f l <->
  exists p, p ∈ l /\ q = if (p_addr p =? a)%nat then f p else p.
Proof.
  unfold upd_prof. rewrite list_elem_of_In, in_map_iff. split.
  - intros (p & <- & Hp). exists p. by rewrite list_elem_of_In.
  - intros (p & Hp & ->). exists p. by rewrite <- list_elem_of_In.
Qed.

Lemma task_at_elem l a : a ∈ addrs l -> exists tp, task_at l a = Some tp /\ t_addr tp = a /\ tp ∈ l.
Proof.
  intros Hin. unfold task_at. destruct (List.find _ l) as [tp|] eqn:E.
  - apply List.find_some in E as [Hl Ha]. apply Nat.eqb_eq in Ha. exists tp.
    by rewrite list_elem_of_In.
  - exfalso. unfold addrs in Hin. apply list_elem_of_In, in_map_iff in Hin as (tp & <- & Hin).
    apply (List.find_none _ _ E) in Hin. simpl in Hin. by rewrite Nat.eqb_refl in Hin.
Qed.

Lemma task_at_Some l a tp : task_at l a = Some tp -> t_addr tp = a /\ tp ∈ l.
Proof. intros [Hin Ha]%List.find_some. apply Nat.eqb_eq in Ha. by rewrite list_elem_of_In. Qed.

(** The successor of a task is a task. *)
Lemma next_addr_elem a l b : next_addr a l = Some b -> b ∈ addrs l.
Proof.
  induction l as [|tp l IH]; simpl; [done|]. case_if E.
  - destruct l as [|t l]; simpl; [done|]. intros [= <-]. rewrite !elem_of_cons. by right; left.
  - intros Hn%IH. apply elem_of_cons. by right.
Qed.

Lemma head_addr l b : t_addr <$> head l = Some b -> b ∈ addrs l.
Proof. destruct l as [|tp l]; simpl; [done|]. intros [= <-]. apply elem_of_cons. by left. Qed.

(** A move of the scheduler thread that is not the start of a callback. *)
Lemma profs_ok_pc ps pc pc' th next : profs_ok ps pc th next ->
  (forall a, pc <> Run a) -> (forall a, pc' <> Run a) ->
  (forall a, pc_addr pc' = Some a -> a ∈ map p_addr ps) -> profs_ok ps pc' th next.
Proof.
  intros [H1 H2 H3 H4 H5 H6] Hn Hn' Hp. split; try done. intros p Hin. rewrite (H4 p Hin).
  split; intros E; exfalso; [by apply Hn in E|by apply Hn' in E].
Qed.

(** Marking the running task. *)
Definition set_running (b : bool) (p : profile) : profile := mk_profile (p_addr p) (p_in_thread p) b (p_id p).
Definition set_thread (b : bool) (p : profile) : profile := mk_profile (p_addr p) b (p_running p) (p_id p).

Lemma profs_ok_run ps pc th next a : profs_ok ps pc th next -> (forall b, pc <> Run b) ->
  a ∈ map p_addr ps -> profs_ok (upd_prof a (set_running true) ps) (Run a) th next.
Proof.
  intros [H1 H2 H3 H4 H5 H6] Hn Ha. split; rewrite ?upd_prof_addr by done; try done.
  - intros q (p & Hp & ->)%elem_upd_prof. specialize (H2 p Hp). by case_if E.
  - intros b [= <-]. done.
  - intros q (p & Hp & ->)%elem_upd_prof. destruct (Nat.eqb_spec (p_addr p) a) as [<-|Hne]; simpl.
    + done.
    + rewrite (H4 p Hp). split; intros E; exfalso; [by eapply Hn|]. injection E as ->. done.
  - intros b. rewrite H6. split.
    + intros (p & Hp & Hb & Hi). exists (if (p_addr p =? a)%nat then set_running true p else p).
      split; [apply elem_upd_prof; eauto|]. by case_if E.
    + intros (q & (p & Hp & ->)%elem_upd_prof & Hb & Hi). exists p. split; [done|]. by case_if_in Hb E.
Qed.

Lemma profs_ok_run_end ps th next a pc' : profs_ok ps (Run a) th next -> (forall b, pc' <> Run b) ->
  (forall b, pc_addr pc' = Some b -> b ∈ map p_addr ps) ->
  profs_ok (upd_prof a (set_running false) ps) pc' th next.
Proof.
  intros [H1 H2 H3 H4 H5 H6] Hn Hp. split; rewrite ?upd_prof_addr by done; try done.
  - intros q (p & Hp' & ->)%elem_upd_prof. specialize (H2 p Hp'). by case_if E.
  - intros q (p & Hp' & ->)%elem_upd_prof. destruct (Nat.eqb_spec (p_addr p) a) as [<-|Hne]; simpl.
    + split; [done|]. intros E. by apply Hn in E.
    + rewrite (H4 p Hp'). split; intros E; exfalso; [injection E as ->; done|by apply Hn in E].
  - intros b. rewrite H6. split.
    + intros (p & Hp' & Hb & Hi). exists (if (p_addr p =? a)%nat then set_running false p else p).
      split; [apply elem_upd_prof; eauto|]. by case_if E.
    + intros (q & (p & Hp' & ->)%elem_upd_prof & Hb & Hi). exists p. split; [done|]. by case_if_in Hb E.
Qed.

(** Starting and ending the thread of a task. *)
Lemma profs_ok_thread ps pc th th' next a b : profs_ok ps pc th next -> a ∈ map p_addr ps ->
  NoDup (map fst th') ->
  (forall c, c ∈ map fst th' <-> if decide (c = a) then b = true else c ∈ map fst th) ->
  profs_ok (upd_prof a (set_thread b) ps) pc th' next.
Proof.
  intros [H1 H2 H3 H4 H5 H6] Ha Hnd Hth. split; rewrite ?upd_prof_addr by done; try done.
  - intros q (p & Hp & ->)%elem_upd_prof. specialize (H2 p Hp). by case_if E.
  - intros q (p & Hp & ->)%elem_upd_prof. specialize (H4 p Hp). by case_if E.
  - intros c. rewrite Hth. case_decide as Ec.
    + subst c. split.
      * intros ->. apply list_elem_of_In, in_map_iff in Ha as (p & Ep & Hp%list_elem_of_In).
        exists (set_thread true p). split; [|done]. apply elem_upd_prof. exists p. split; [done|].
        by rewrite Ep, Nat.eqb_refl.
      * intros (q & (p & Hp & ->)%elem_upd_prof & Hb & Hi).
        destruct (Nat.eqb_spec (p_addr p) a) as [E|Hne]; [done|]. done.
    + rewrite H6. split.
      * intros (p & Hp & Hb & Hi). exists p. split; [|done]. apply elem_upd_prof. exists p.
        split; [done|]. by rewrite (proj2 (Nat.eqb_neq _ _)) by congruence.
      * intros (q & (p & Hp & ->)%elem_upd_prof & Hb & Hi). exists p. split; [done|].
        destruct (Nat.eqb_spec (p_addr p) a) as [E|Hne]; [|done]. simpl in Hb. congruence.
Qed.

Lemma profs_ok_add ps pc th next p : profs_ok ps pc th next ->
  p_addr p = next -> p_in_thread p = false -> p_running p = false -> p_id p <> 0 ->
  profs_ok (ps ++ [p]) pc th (S next).
Proof.
  intros [H1 H2 H3 H4 H5 H6] Ea Ei Er Hid.
  assert (Hnew : next ∉ map p_addr ps).
  { intros Hin. apply list_elem_of_In, in_map_iff in Hin as (q & Eq & Hq%list_elem_of_In).
    destruct (H2 q Hq) as [? _]. lia. }
  split; try done.
  - rewrite map_app. apply NoDup_app. split; [done|]. split; [|apply NoDup_singleton].
    intros a Ha Hs. simpl in Hs. apply list_elem_of_singleton in Hs. subst. done.
  - intros q [Hq| ->%list_elem_of_singleton]%elem_of_app; [|split; [lia|done]].
    destruct (H2 q Hq). split; [lia|done].
  - intros a Ha. rewrite map_app, elem_of_app. left. by apply H3.
  - intros q [Hq| ->%list_elem_of_singleton]%elem_of_app; [by apply H4|].
    rewrite Er. split; [done|]. intros E. exfalso. apply Hnew. rewrite <- Ea. apply H3. by rewrite E.
  - intros a. rewrite H6. split.
    + intros (q & Hq & ?). exists q. split; [apply elem_of_app; by left|done].
    + intros (q & [Hq| ->%list_elem_of_singleton]%elem_of_app & Hb & Hi); [by exists q|congruence].
Qed.

Lemma NoDup_map_filter {A B} (g : A -> B) (f : A -> bool) l :
  NoDup (map g l) -> NoDup (map g (List.filter f l)).
Proof.
  induction l as [|x l IH]; simpl; [done|]. intros [Hx Hl]%NoDup_cons. case_if E; [|by apply IH].
  simpl. apply NoDup_cons. split; [|by apply IH]. intros Hin. apply Hx.
  apply list_elem_of_In, in_map_iff in Hin as (y & <- & [Hy _]%filter_In).
  by apply list_elem_of_In, in_map.
Qed.

(** Removing tasks that have no thread. *)
Lemma profs_ok_sub ps ps' th next pc' : profs_ok ps Idle th next ->
  pc_addr pc' = None -> (forall a, pc' <> Run a) -> NoDup (map p_addr ps') ->
  (forall p, p ∈ ps' -> p ∈ ps) -> (forall p, p ∈ ps -> p_in_thread p = true -> p ∈ ps') ->
  profs_ok ps' pc' th next.
Proof.
  intros [H1 H2 H3 H4 H5 H6] Hpc Hn Hnd Hsub Hk. split; try done.
  - intros p Hp%Hsub. by apply H2.
  - intros a. by rewrite Hpc.
  - intros p Hp%Hsub. rewrite (H4 p Hp). split; [done|]. intros E. by apply Hn in E.
  - intros a. rewrite H6. split.
    + intros (p & Hp & Hb & Hi). exists p. split; [by apply Hk|done].
    + intros (p & Hp%Hsub & ?). by exists p.
Qed.

(** Blocks that change neither of these fields. *)
Lemma execute_prof runtime repeat now tp : prof (switch_scheduler_execute runtime repeat now tp).1 = prof tp.
Proof. unfold switch_scheduler_execute. cbv zeta. repeat case_match; done. Qed.

Lemma upd_task_prof_at a f tp' tp l : NoDup (addrs l) -> task_at l a = Some tp -> prof tp' = f (prof tp) ->
  map prof (upd_task a (fun _ => tp') l) = upd_prof a f (map prof l).
Proof.
  intros Hnd Hat Hp. destruct (task_at_Some l a tp Hat) as [Ha Hin].
  unfold upd_task, upd_prof. rewrite !map_map. apply map_ext_in. intros t Ht%list_elem_of_In. simpl.
  destruct (Nat.eqb_spec (t_addr t) a) as [E|]; [|done]. rewrite Hp. f_equal. f_equal.
  apply list_elem_of_lookup in Hin as [i Hi]. apply list_elem_of_lookup in Ht as [j Hj].
  assert (i = j) as ->; [|congruence]. apply (NoDup_lookup (addrs l) i j a); [done|..];
    unfold addrs; change (map t_addr l) with (t_addr <$> l); rewrite list_lookup_fmap.
  - rewrite Hi. simpl. by rewrite Ha.
  - rewrite Hj. simpl. by rewrite E.
Qed.

Lemma upd_task_same a tp' tp l : NoDup (addrs l) -> task_at l a = Some tp -> prof tp' = prof tp ->
  map prof (upd_task a (fun _ => tp') l) = map prof l.
Proof.
  intros Hnd Hat Hp. rewrite (upd_task_prof_at a (fun p => p) tp' tp l) by done.
  unfold upd_prof. rewrite <- (map_id (map prof l)) at 2. apply map_ext. intros p. by case_if E.
Qed.

Lemma del_task_id_prof l id : map prof (switch_scheduler_del_task_id l id).1 = map prof l.
Proof.
  induction l as [|tp l IH]; [done|]. cbn [switch_scheduler_del_task_id].
  destruct (switch_scheduler_del_task_id l id) as [l' n]. cbn [fst] in IH.
  case_if E1; [|simpl; by rewrite IH]. case_if E2; [done|]. by case_if E3.
Qed.

Lemma del_task_group_prof l group : map prof (switch_scheduler_del_task_group l group).1 = map prof l.
Proof.
  unfold switch_scheduler_del_task_group. destruct group as [g|]; [|done]. case_if E; [done|].
  simpl. rewrite map_map. apply map_ext. intros tp. by case_if E2.
Qed.

Lemma next_task_id_nonzero id : next_task_id id <> 0.
Proof.
  unfold next_task_id. cbv zeta. destruct (Z.eqb_spec (u32 (id + 1)) 0) as [->|]; done.
Qed.

Lemma sched_addrs s : sched_ok s -> NoDup (addrs (s_tasks s)).
Proof. intros [[H1 _ _ _ _ _] _]. by rewrite prof_addrs in H1. Qed.

Lemma run_task_ok s a runtime repeat now : sched_ok s -> a ∈ addrs (s_tasks s) ->
  let s' := run_task s a runtime repeat now in
  map prof (s_tasks s') = map prof (s_tasks s) /\ addrs (s_tasks s') = addrs (s_tasks s) /\
  s_pc s' = s_pc s /\ s_threads s' = s_threads s /\ s_next_addr s' = s_next_addr s /\
  s_bad_reads s' = s_bad_reads s /\ s_starts s' = s_starts s.
Proof.
  intros Hok Ha. unfold run_task. destruct (task_at_elem _ _ Ha) as (tp & Hat & _). rewrite Hat.
  pose proof (execute_prof runtime repeat now tp) as Hp.
  destruct (switch_scheduler_execute runtime repeat now tp) as [tp' ev]. simpl in *.
  pose proof (upd_task_same a tp' tp (s_tasks s) (sched_addrs s Hok) Hat Hp) as Hm.
  split_and!; try done. rewrite <- !prof_addrs. by rewrite Hm.
Qed.

Lemma scan_one_prof done now tp :
  match scan_one done now tp with
  | ScanNext tp' => prof tp' = prof tp
  | ScanSpawn tp' => prof tp' = set_thread true (prof tp) /\ t_in_thread tp = false /\ t_destroyed tp = 0
  | ScanRun tp' => prof tp' = set_running true (prof tp) /\ t_destroyed tp = 0 /\ done = false
  end.
Proof.
  unfold scan_one. destruct done; [done|]. destruct (Z.eqb_spec (t_destroyed tp) 0); [|done].
  destruct (now >=? t_runtime tp); [|done]. destruct (t_in_thread tp) eqn:Ei; [done|]. simpl.
  case_if E; unfold prof, set_thread, set_running; simpl; by rewrite ?Ei.
Qed.


Lemma set_in_thread_ok s a b : a ∈ addrs (s_tasks s) ->
  set_in_thread s a b = s <| s_tasks ::= upd_task a (fun tp => tp <| t_in_thread := b |>) |>.
Proof. intros Ha. unfold set_in_thread. by destruct (task_at_elem _ _ Ha) as (tp & -> & _). Qed.

Lemma thread_addr s a ph l1 l2 : sched_ok s -> s_threads s = l1 ++ (a, ph) :: l2 -> a ∈ addrs (s_tasks s).
Proof.
  intros [Hp _] Ht. rewrite <- prof_addrs.
  destruct (proj1 (po_in_thread _ _ _ _ Hp a)) as (p & Hin & <- & _).
  - rewrite Ht, map_app. apply elem_of_app. right. apply elem_of_cons. by left.
  - apply list_elem_of_In, in_map. by apply list_elem_of_In.
Qed.

Lemma step_scan_ok s done a now tp : sched_ok s -> s_pc s = Scan done (Some a) ->
  task_at (s_tasks s) a = Some tp ->
  match scan_one done now tp with
  | ScanNext tp' =>
      sched_ok (s <| s_tasks ::= upd_task a (fun _ => tp') |>
                  <| s_pc := Scan done (next_addr a (s_tasks s)) |>)
  | ScanSpawn tp' =>
      sched_ok (s <| s_tasks ::= upd_task a (fun _ => tp') |>
                  <| s_threads ::= cons (a, Pending) |> <| s_starts ::= fun l => l ++ [a] |>
                  <| s_pc := Scan done (next_addr a (s_tasks s)) |>)
  | ScanRun tp' =>
      sched_ok (s <| s_tasks ::= upd_task a (fun _ => tp') |>
                  <| s_starts ::= fun l => l ++ [a] |> <| s_pc := Run a |>)
  end.
Proof.
  intros Hok Hpc Hat. pose proof (sched_addrs s Hok) as Hnd. destruct Hok as [Hp Hb].
  destruct (task_at_Some _ _ _ Hat) as [Ha Hin]. pose proof (scan_one_prof done now tp) as Hs.
  assert (Haddr : a ∈ map p_addr (map prof (s_tasks s))).
  { rewrite prof_addrs, <- Ha. apply list_elem_of_In, in_map. by apply list_elem_of_In. }
  assert (Hmove : profs_ok (map prof (s_tasks s)) (Scan done (next_addr a (s_tasks s))) (s_threads s) (s_next_addr s)).
  { eapply profs_ok_pc; [exact Hp|by rewrite Hpc|done|]. simpl. intros b Hn. rewrite prof_addrs.
    by eapply next_addr_elem. }
  destruct (scan_one done now tp) as [tp'|tp'|tp'].
  - split; [|done]. simpl. by rewrite (upd_task_same a tp' tp).
  - destruct Hs as (Hs & Hni & _). split; [|done]. simpl.
    rewrite (upd_task_prof_at a (set_thread true) tp' tp) by done.
    apply (profs_ok_thread _ _ (s_threads s)); [done|done|..]; simpl.
    + apply NoDup_cons. split; [|apply (po_threads _ _ _ _ Hp)].
      intros (p & Hpin & Hpa & Hpi)%(po_in_thread _ _ _ _ Hp).
      assert (p = prof tp) as ->; [|by simpl in Hpi; congruence].
      assert (Hq : prof tp ∈ map prof (s_tasks s)) by (apply list_elem_of_In, in_map; by apply list_elem_of_In).
      apply list_elem_of_lookup in Hpin as [i Hi]. apply list_elem_of_lookup in Hq as [j Hj].
      assert (i = j) as ->; [|congruence].
      apply (NoDup_lookup (map p_addr (map prof (s_tasks s))) i j a); [by rewrite prof_addrs|..];
        rewrite (list_lookup_fmap p_addr).
      * rewrite Hi. simpl. by rewrite Hpa.
      * rewrite Hj. simpl. by rewrite Ha.
    + intros c. rewrite elem_of_cons. case_decide; [by split; [|left]|]. split; [intros [?|?]; done|by right].
  - destruct Hs as (Hs & _). split; [|done]. simpl.
    rewrite (upd_task_prof_at a (set_running true) tp' tp) by done.
    eapply profs_ok_run; [exact Hp|by rewrite Hpc|done].
Qed.

Lemma step_ok s s' : sched_ok s -> sched_step s s' -> sched_ok s'.
Proof.
  intros Hok Hstep. pose proof Hok as [Hp Hb]. destruct Hstep.
  - split; [|done]. simpl. eapply profs_ok_pc; [exact Hp|by rewrite H|done|].
    simpl. intros a Ha. rewrite prof_addrs. by apply head_addr.
  - pose proof (step_scan_ok s done a now tp Hok H H0) as Hs. by rewrite H1 in Hs.
  - pose proof (step_scan_ok s done a now tp Hok H H0) as Hs. by rewrite H1 in Hs.
  - pose proof (step_scan_ok s done a now tp Hok H H0) as Hs. by rewrite H1 in Hs.
  - assert (Ha : a ∈ addrs (s_tasks s)).
    { rewrite <- prof_addrs. apply (po_pc _ _ _ _ Hp). by rewrite H. }
    destruct (run_task_ok s a runtime repeat now Hok Ha) as (Hm & Had & Hpc & Hth & Hnx & Hbr & _).
    fold s1 in Hm, Had, Hpc, Hth, Hnx, Hbr. clearbody s1. split; [|simpl; by rewrite Hbr].
    simpl. rewrite (prof_upd a _ (set_running false)) by done. rewrite Hm, Hth, Hnx.
    apply profs_ok_run_end; [by rewrite <- H|done|]. simpl. intros b Hn. rewrite prof_addrs, <- Had.
    by eapply next_addr_elem.
  - split; [|done]. simpl. eapply profs_ok_pc; [exact Hp|by rewrite H|done|done].
  - split; [|done]. simpl.
    assert (Hidle : profs_ok (map prof (s_tasks s)) Idle (s_threads s) (s_next_addr s))
      by (eapply profs_ok_pc; [exact Hp|by rewrite H|done|done]).
    apply (profs_ok_sub (map prof (s_tasks s))); [done|by destruct done|by destruct done|..].
    + rewrite prof_addrs. by apply NoDup_map_filter, sched_addrs.
    + intros p (tp & <- & [Htp _]%filter_In)%list_elem_of_In%in_map_iff.
      by apply list_elem_of_In, in_map.
    + intros p (tp & <- & Htp)%list_elem_of_In%in_map_iff Hi. apply list_elem_of_In, in_map, filter_In.
      split; [done|]. simpl in Hi. unfold deletable. by rewrite Hi, andb_false_r.
  - assert (Ha : a ∈ addrs (s_tasks s)) by (by eapply thread_addr).
    destruct (run_task_ok s a runtime repeat now Hok Ha) as (Hm & _ & Hpc & Hth & Hnx & Hbr & _).
    split; [|simpl; by rewrite Hbr]. simpl. rewrite Hm, Hpc, Hnx.
    destruct Hp as [P1 P2 P3 P4 P5 P6]. rewrite H, !map_app in *. by split; rewrite ?map_app.
  - assert (Ha : a ∈ addrs (s_tasks s)) by (by eapply thread_addr).
    rewrite set_in_thread_ok by done. split; [|done]. simpl.
    rewrite (prof_upd a _ (set_thread false)) by done.
    pose proof (po_threads _ _ _ _ Hp) as Hnd. rewrite H, map_app in Hnd. simpl in Hnd.
    assert (Hnd' : NoDup (a :: map fst l1 ++ map fst l2)) by (by rewrite Permutation_middle).
    apply NoDup_cons in Hnd' as [Hna Hnd'].
    apply (profs_ok_thread _ _ (s_threads s)); [done|by rewrite prof_addrs|by rewrite map_app|].
    intros c. rewrite H, !map_app. simpl. case_decide as Ec.
    + subst. split; [by intros|done].
    + rewrite !elem_of_app, elem_of_cons. split; [intros [?|?]|intros [?|[?|?]]]; auto. done.
  - split; [|done]. simpl. rewrite map_app. simpl. apply profs_ok_add; try done.
    + unfold new_container. by case_match.
    + unfold new_container. by case_match.
    + unfold new_container. by case_match.
    + unfold new_container. case_match. apply next_task_id_nonzero.
  - unfold add_task_return. simpl. destruct (task_at (s_tasks s) a) as [tp|]; done.
  - split; [|done]. simpl. by rewrite del_task_id_prof.
  - split; [|done]. simpl. by rewrite del_task_group_prof.
Qed.

Lemma reachable_ok s : reachable s -> sched_ok s.
Proof.
  induction 1 as [|s s' _ IH Hstep]; [|by eapply step_ok].
  split; [|done]. split; simpl; try done; try apply NoDup_nil_2.
  - intros p Hp. by apply elem_of_nil in Hp.
  - intros p Hp. by apply elem_of_nil in Hp.
  - intros a. split; [by intros ?%elem_of_nil|]. by intros (p & ?%elem_of_nil & _).
Qed.

(** C16: whatever the interleaving of the scheduler thread, the threads of single
    tasks and callers that add and delete tasks, neither kind of thread reads a
    freed container: the task the scheduler looks at or runs, and every task
    with a thread, is in the list; a task is marked running exactly while the
    scheduler thread runs it; no task has the number 0. *)
Theorem scheduler_threads_hold_live_tasks (s : sched) : reachable s ->
  s_bad_reads s = [] /\
  (forall a, pc_addr (s_pc s) = Some a -> a ∈ addrs (s_tasks s)) /\
  (forall a ph, (a, ph) ∈ s_threads s ->
     exists tp, tp ∈ s_tasks s /\ t_addr tp = a /\ t_in_thread tp = true) /\
  (forall tp, tp ∈ s_tasks s -> t_task_id tp <> 0 /\ (t_running tp = true <-> s_pc s = Run (t_addr tp))).
Proof.
  intros [[H1 H2 H3 H4 H5 H6] Hb]%reachable_ok. rewrite prof_addrs in H3. split_and!; [done|done|..].
  - intros a ph Hin. destruct (proj1 (H6 a)) as (p & Hp & Ha & Hi).
    { apply list_elem_of_In, in_map_iff. exists (a, ph). by rewrite <- list_elem_of_In. }
    apply list_elem_of_In, in_map_iff in Hp as (tp & <- & Htp%list_elem_of_In). by exists tp.
  - intros tp Htp. assert (Hp : prof tp ∈ map prof (s_tasks s)).
    { apply list_elem_of_In, in_map. by apply list_elem_of_In. }
    split; [apply (H2 _ Hp)|apply (H4 _ Hp)].
Qed.

(** A run: one task is added, run and removed before its adder returns. *)
Definition one_task : sched := add_task_locked sched_init 100 100 0 None None 0 None 0.
Definition demo_tp : task_container := new_container 0 100 100 0 None None 0 None 0 1.

Lemma one_task_reachable : reachable one_task.
Proof. eapply reach_step; [apply reach_init|]. by apply st_add. Qed.

Definition after_scan : sched := one_task <| s_pc := Scan false (Some 0%nat) |>.
Definition running_tp : task_container := demo_tp <| t_executed := 100 |> <| t_running := true |>.
Definition while_running : sched :=
  after_scan <| s_tasks := [running_tp] |> <| s_starts := [0%nat] |> <| s_pc := Run 0 |>.

Lemma while_running_reachable : reachable while_running.
Proof.
  eapply reach_step; [eapply reach_step; [exact one_task_reachable|apply (st_loop one_task false); reflexivity]|].
  apply (st_scan_run after_scan false 0 100 demo_tp); reflexivity.
Qed.

Lemma scheduler_threads_hold_live_tasks_witness :
  reachable while_running /\ s_pc while_running = Run 0 /\
  (forall a, pc_addr (s_pc while_running) = Some a -> a ∈ addrs (s_tasks while_running)).
Proof.
  split; [exact while_running_reachable|]. split; [reflexivity|].
  apply scheduler_threads_hold_live_tasks. exact while_running_reachable.
Defined.

(** ** Destroyed tasks *)
Lemma execute_destroyed runtime repeat now tp : 0 < t_destroyed tp ->
  0 < t_destroyed (switch_scheduler_execute runtime repeat now tp).1.
Proof. intros Hd. unfold switch_scheduler_execute. cbv zeta. repeat case_match; simpl; lia. Qed.

Lemma scan_one_destroyed done now tp : 0 < t_destroyed tp ->
  exists tp', scan_one done now tp = ScanNext tp' /\ 0 < t_destroyed tp'.
Proof.
  intros Hd. unfold scan_one. destruct done; [by eexists|].
  rewrite (proj2 (Z.eqb_neq _ _)) by lia. by eexists.
Qed.

Lemma del_task_id_destroyed l id tp' : tp' ∈ (switch_scheduler_del_task_id l id).1 ->
  exists tp, tp ∈ l /\ t_addr tp' = t_addr tp /\ t_destroyed tp <= t_destroyed tp'.
Proof.
  induction l as [|tp l IH]; cbn [switch_scheduler_del_task_id]; [by intros ?%elem_of_nil|].
  assert (Hkeep : forall x, x ∈ tp :: l -> exists y, y ∈ tp :: l /\ t_addr x = t_addr y /\ t_destroyed y <= t_destroyed x).
  { intros x Hx. exists x. split; [done|]. split; [done|lia]. }
  case_if E1; [case_if E2; [by apply Hkeep|]; case_if E3; [by apply Hkeep|]|].
  - simpl. intros [->|Hin]%elem_of_cons; [|apply Hkeep; apply elem_of_cons; by right].
    exists tp. split; [apply elem_of_cons; by left|]. simpl. split; [done|lia].
  - destruct (switch_scheduler_del_task_id l id) as [l' n]. simpl in *.
    intros [->|Hin]%elem_of_cons; [apply Hkeep; apply elem_of_cons; by left|].
    destruct (IH Hin) as (y & Hy & ?). exists y. split; [apply elem_of_cons; by right|done].
Qed.

Lemma del_task_group_destroyed l g tp' : tp' ∈ (switch_scheduler_del_task_group l g).1 ->
  exists tp, tp ∈ l /\ t_addr tp' = t_addr tp /\ t_destroyed tp <= t_destroyed tp'.
Proof.
  unfold switch_scheduler_del_task_group.
  assert (Hkeep : forall x, x ∈ l -> exists y, y ∈ l /\ t_addr x = t_addr y /\ t_destroyed y <= t_destroyed x).
  { intros x Hx. exists x. split; [done|]. split; [done|lia]. }
  destruct g as [g|]; [|apply Hkeep]. case_if E; [apply Hkeep|]. simpl.
  intros (y & <- & Hy%list_elem_of_In)%list_elem_of_In%in_map_iff. exists y. split; [done|].
  case_if E2; simpl; (split; [done|lia]).
Qed.

(** All containers of [l'] at address [a] are destroyed. *)
Definition gone (a : nat) (l' : list task_container) : Prop :=
  forall tp', tp' ∈ l' -> t_addr tp' = a -> 0 < t_destroyed tp'.

Lemma gone_upd a b f l : gone a l -> (b = a -> forall tp, tp ∈ l -> 0 < t_destroyed tp -> 0 < t_destroyed (f tp)) ->
  (forall tp, tp ∈ l -> t_addr tp = b -> t_addr (f tp) = b) -> gone a (upd_task b f l).
Proof.
  intros Hg Hf Hb tp' (tp & <- & Htp%list_elem_of_In)%list_elem_of_In%in_map_iff.
  destruct (Nat.eqb_spec (t_addr tp) b) as [E|E]; [|by apply Hg].
  intros Ea. specialize (Hb tp Htp E). assert (b = a) by congruence. apply Hf; [done|done|].
  apply Hg; [done|congruence].
Qed.

Lemma gone_unique l a tp : NoDup (addrs l) -> tp ∈ l -> t_addr tp = a -> 0 < t_destroyed tp -> gone a l.
Proof.
  intros Hnd Hin Ha Hd tp' Hin' Ha'.
  apply list_elem_of_lookup in Hin as [i Hi]. apply list_elem_of_lookup in Hin' as [j Hj].
  assert (i = j) as ->; [|congruence]. apply (NoDup_lookup (addrs l) i j a); [done|..];
    unfold addrs; change (map t_addr l) with (t_addr <$> l); rewrite list_lookup_fmap.
  - rewrite Hi. simpl. by rewrite Ha.
  - rewrite Hj. simpl. by rewrite Ha'.
Qed.

Lemma run_task_gone s a b runtime repeat now : gone a (s_tasks s) ->
  gone a (s_tasks (run_task s b runtime repeat now)) /\ s_starts (run_task s b runtime repeat now) = s_starts s.
Proof.
  intros Hg. unfold run_task. destruct (task_at (s_tasks s) b) as [tp|] eqn:E; [|done].
  destruct (task_at_Some _ _ _ E) as [Hb Hin]. pose proof (execute_prof runtime repeat now tp) as Hp.
  pose proof (execute_destroyed runtime repeat now tp) as Hd.
  destruct (switch_scheduler_execute runtime repeat now tp) as [tp' ev]. simpl in *. split; [|done].
  assert (Ha' : t_addr tp' = b) by (rewrite <- Hb; exact (f_equal p_addr Hp)).
  apply gone_upd; [done| |done]. intros -> _ _ _. apply Hd. by apply Hg.
Qed.

Lemma scan_gone l a0 done a now t : gone a0 l -> task_at l a = Some t ->
  match scan_one done now t with
  | ScanNext u => gone a0 (upd_task a (fun _ => u) l)
  | ScanSpawn u | ScanRun u => a <> a0 /\ gone a0 (upd_task a (fun _ => u) l)
  end.
Proof.
  intros Hg Hat. destruct (task_at_Some _ _ _ Hat) as [Ha Ht].
  pose proof (scan_one_prof done now t) as Hp. pose proof (scan_one_destroyed done now t) as Hsd.
  assert (Hne : t_destroyed t = 0 -> a <> a0).
  { intros Hz ->. specialize (Hg t Ht Ha). lia. }
  destruct (scan_one done now t) as [u|u|u].
  - assert (Hu : t_addr u = a) by (rewrite <- Ha; exact (f_equal p_addr Hp)).
    apply gone_upd; [done| |done]. intros -> _ _ _. destruct Hsd as (u' & [= <-] & ?); [by apply Hg|done].
  - destruct Hp as (Hp & _ & Hz). specialize (Hne Hz). split; [done|].
    apply gone_upd; [done|by intros ->|]. intros _ _ _. rewrite <- Ha. exact (f_equal p_addr Hp).
  - destruct Hp as (Hp & Hz & _). specialize (Hne Hz). split; [done|].
    apply gone_upd; [done|by intros ->|]. intros _ _ _. rewrite <- Ha. exact (f_equal p_addr Hp).
Qed.

(** A task that was deleted or has finished never starts again, and stays
    deleted until it is freed. *)
Theorem destroyed_task_never_starts (s s' : sched) (tp : task_container) :
  reachable s -> sched_step s s' -> tp ∈ s_tasks s -> 0 < t_destroyed tp ->
  gone (t_addr tp) (s_tasks s') /\
  count_occ Nat.eq_dec (s_starts s') (t_addr tp) = count_occ Nat.eq_dec (s_starts s) (t_addr tp).
Proof.
  intros Hr Hstep Hin Hd. pose proof (reachable_ok s Hr) as Hok. pose proof (sched_addrs s Hok) as Hnd.
  pose proof (gone_unique _ _ tp Hnd Hin eq_refl Hd) as Hg. set (a0 := t_addr tp) in *.
  pose proof (fun done a now t => scan_gone (s_tasks s) a0 done a now t Hg) as Hscan.
  assert (Hcount : forall a, a <> a0 -> count_occ Nat.eq_dec (s_starts s ++ [a]) a0 = count_occ Nat.eq_dec (s_starts s) a0).
  { intros a Ha. rewrite count_occ_app. simpl. destruct (Nat.eq_dec a a0); [done|lia]. }
  destruct Hstep as [s done Hpc|s done a now t t' Hpc Hat Hs|s done a now t t' Hpc Hat Hs|s done a now t t' Hpc Hat Hs
    |s a runtime repeat now Hpc s1|s done Hpc|s done Hpc|s a l1 l2 runtime repeat now Ht|s a l1 l2 Ht
    |s now runtime func desc group cmd_id cmd_arg flags Hu|s a Ha|s id Hu|s group Hu]; simpl.
  - done.
  - specialize (Hscan done a now t Hat). rewrite Hs in Hscan. done.
  - specialize (Hscan done a now t Hat). rewrite Hs in Hscan. destruct Hscan. split; [done|]. by apply Hcount.
  - specialize (Hscan done a now t Hat). rewrite Hs in Hscan. destruct Hscan. split; [done|]. by apply Hcount.
  - subst s1. destruct (run_task_gone s a0 a runtime repeat now Hg) as [Hg1 ->]. split; [|done].
    apply gone_upd; done.
  - done.
  - split; [|done]. intros t [Ht _]%list_elem_of_In%filter_In. apply Hg. by apply list_elem_of_In.
  - by destruct (run_task_gone s a0 a runtime repeat now Hg) as [Hg1 ->].
  - unfold set_in_thread. destruct (task_at (s_tasks s) a); [|done]. simpl. split; [|done].
    apply gone_upd; done.
  - split; [|done]. intros t [Ht| ->%list_elem_of_singleton]%elem_of_app; [by apply Hg|].
    unfold new_container. case_match. simpl. intros E. exfalso.
    destruct Hok as [[_ Hf _ _ _ _] _]. destruct (Hf (prof tp)) as [Hlt _].
    { apply list_elem_of_In, in_map. by apply list_elem_of_In. }
    simpl in Hlt. fold a0 in Hlt. lia.
  - unfold add_task_return. simpl. by destruct (task_at (s_tasks s) a).
  - split; [|done]. intros t (u & Hu' & -> & Hle)%del_task_id_destroyed E. specialize (Hg u Hu' E). lia.
  - split; [|done]. intros t (u & Hu' & -> & Hle)%del_task_group_destroyed E. specialize (Hg u Hu' E). lia.
Qed.

Definition finished_tp : task_container := running_tp <| t_destroyed := 1 |>.
Definition after_run : sched :=
  while_running <| s_tasks := [finished_tp <| t_running := false |>] |> <| s_pc := Scan false None |>.

Lemma after_run_reachable : reachable after_run.
Proof.
  eapply reach_step; [exact while_running_reachable|].
  apply (st_run_end while_running 0 100 0 100). reflexivity.
Qed.

Lemma destroyed_task_never_starts_witness :
  gone 0 (s_tasks (after_run <| s_pc := Purge false |>)) /\
  count_occ Nat.eq_dec (s_starts (after_run <| s_pc := Purge false |>)) 0%nat
    = count_occ Nat.eq_dec (s_starts after_run) 0%nat.
Proof.
  assert (Hin : finished_tp <| t_running := false |> ∈ s_tasks after_run) by (apply elem_of_cons; by left).
  exact (destroyed_task_never_starts after_run (after_run <| s_pc := Purge false |>)
    (finished_tp <| t_running := false |>) after_run_reachable (st_scan_end after_run false eq_refl)
    Hin eq_refl).
Defined.

(** ** Deletion *)

(** [switch_scheduler_del_task_id] marks the first task with the number and
    returns 1, unless that task is protected or running, or there is none: then
    it returns 0 and changes nothing.  Deleting a group leaves protected tasks
    alone, too. *)
Theorem deletion_spares_protected_tasks (l : list task_container) (id : Z) (group : option cstring) :
  match List.find (fun tp => t_task_id tp =? id) l with
  | Some tp =>
    if test_flag (t_flags tp) SSHF_NO_DEL || t_running tp
    then switch_scheduler_del_task_id l id = (l, 0)
    else exists l1 l2, l = l1 ++ tp :: l2 /\
      switch_scheduler_del_task_id l id = (l1 ++ tp <| t_destroyed ::= fun d => d + 1 |> :: l2, 1)
  | None => switch_scheduler_del_task_id l id = (l, 0)
  end /\
  forall tp, tp ∈ l -> test_flag (t_flags tp) SSHF_NO_DEL = true ->
    tp ∈ (switch_scheduler_del_task_group l group).1.
Proof.
  split.
  - induction l as [|t l IH]; [done|]. cbn [List.find switch_scheduler_del_task_id].
    destruct (t_task_id t =? id).
    + destruct (test_flag (t_flags t) SSHF_NO_DEL); [done|]. destruct (t_running t); [done|].
      by exists [], l.
    + destruct (List.find _ l) as [tp|]; [|by rewrite IH]. case_if E; [by rewrite IH|].
      destruct IH as (l1 & l2 & -> & ->). by exists (t :: l1), l2.
  - intros tp Hin Hp. unfold switch_scheduler_del_task_group. destruct group as [g|]; [|done].
    case_if E; [done|]. simpl. apply list_elem_of_In, in_map_iff. exists tp.
    split; [|by apply list_elem_of_In]. unfold group_hit. by rewrite Hp, andb_false_r.
Qed.

(** A container as [switch_scheduler_add_task] makes it keeps its group and the
    hash of the group. *)
Definition hashed (tp : task_container) : Prop :=
  cstr (t_group tp) = t_group tp /\ t_hash tp = ci_hash_bytes (t_group tp).

Lemma cstr_idem s : cstr (cstr s) = cstr s.
Proof. induction s as [|c s IH]; simpl; [done|]. case_if E; [done|]. simpl. by rewrite E, IH. Qed.

Lemma new_container_hashed addr now rt func desc group cmd arg flags id :
  hashed (new_container addr now rt func desc group cmd arg flags id).
Proof. unfold hashed, new_container. case_match. simpl. by rewrite !cstr_idem. Qed.

Lemma ci_hash_map s s' : map byte_Z s = map byte_Z s' -> ci_hash_bytes s = ci_hash_bytes s'.
Proof.
  unfold ci_hash_bytes. generalize 0 as h. revert s'.
  induction s as [|c s IH]; intros [|c' s'] h E; simpl in E; try done.
  injection E as Ec E. simpl. rewrite Ec. by apply IH.
Qed.

(** Comparing hashes first does not change what a group deletion deletes:
    the tasks it marks are those of the group, by name, that are not marked yet
    and not protected, and it returns their number. *)
Theorem del_task_group_by_name (l : list task_container) (g : cstring) :
  Forall hashed l -> cstr g <> [] ->
  let hit tp := (t_destroyed tp =? 0) && strcmp_eq (t_group tp) g
                && negb (test_flag (t_flags tp) SSHF_NO_DEL) in
  switch_scheduler_del_task_group l (Some g) =
    (map (fun tp => if hit tp then tp <| t_destroyed ::= fun d => d + 1 |> else tp) l,
     zlen (List.filter hit l)).
Proof.
  intros Hl Hg. cbv zeta. unfold switch_scheduler_del_task_group.
  assert (E : (zlen (cstr g) =? 0) = false).
  { apply Z.eqb_neq. unfold zlen. destruct (cstr g); [done|simpl; lia]. }
  rewrite E. set (h := (switch_ci_hashfunc_default g (-1)).1).
  assert (Hhit : forall tp, In tp l -> group_hit g h tp =
    ((t_destroyed tp =? 0) && strcmp_eq (t_group tp) g && negb (test_flag (t_flags tp) SSHF_NO_DEL))).
  { intros tp Hin. rewrite Forall_forall in Hl. destruct (Hl tp) as [Hc Hh]; [by apply list_elem_of_In|].
    unfold group_hit, strcmp_eq, switch_hash_equalkeys, h. rewrite Hh, Hc. simpl.
    case_bool_decide as Es; [|by rewrite !andb_false_r].
    rewrite (ci_hash_map _ _ Es), Z.eqb_refl. by rewrite andb_true_r. }
  f_equal.
  - apply map_ext_in. intros tp Hin. by rewrite Hhit.
  - f_equal. by apply filter_ext_in.
Qed.

Lemma del_task_group_by_name_witness :
  Forall hashed [demo_tp] /\
  switch_scheduler_del_task_group [demo_tp] (Some none_string) =
    ([demo_tp <| t_destroyed := 1 |>], 1).
Proof.
  assert (Hh : Forall hashed [demo_tp]).
  { apply Forall_cons. split; [apply new_container_hashed|apply Forall_nil_2]. }
  split; [exact Hh|]. rewrite (del_task_group_by_name [demo_tp] none_string Hh); [|discriminate].
  vm_compute. reflexivity.
Defined.

(** ** Departure *)

(** [switch_scheduler_add_task] reads its container after it released the
    mutex, to log it, to announce it and to return its number.  In between, the
    scheduler thread may run a task that is already due, find it finished and
    free it: the adder then reads freed memory. *)
Theorem add_task_reads_freed_container :
  exists s a, reachable s /\ a ∈ s_adding s /\ (a ∉ addrs (s_tasks s)) /\
    (add_task_return s a).2 = None /\ s_bad_returns (fst (add_task_return s a)) = [a].
Proof.
  exists (after_run <| s_pc := Idle |> <| s_tasks := [] |> <| s_events := [DelSchedule 1 100] |>), 0%nat.
  split.
  - eapply reach_step; [eapply reach_step; [exact after_run_reachable|]|].
    + apply (st_scan_end after_run false). reflexivity.
    + exact (st_purge (after_run <| s_pc := Purge false |>) false eq_refl).
  - split; [apply elem_of_cons; by left|]. split; [by intros ?%elem_of_nil|]. done.
Qed.
