(* ===== verification/AprQueue.v ===== *)
(** * AprQueue: the bounded queue of libs/apr-util/misc/apr_queue.c

    A ring of [bounds] cells, a write position [in], a read position [out] and
    the number of elements.  The channel queues digits through the two
    operations that do not block, which src/switch_apr.c passes on unchanged
    (they never return the code its loop retries on).  The mutex, the condition
    variables and their counts of waiters are left out. *)
From S2P Require Import Prelude.
From Stdlib Require Import ZArith Lia.
From stdpp Require Import base numbers option list.

Local Open Scope Z_scope.

Inductive apr_status := APR_SUCCESS | APR_EOF | APR_EAGAIN.

#[export] Instance apr_status_eq_dec : EqDecision apr_status.
Proof. solve_decision. Defined.

(** [struct apr_queue_t]; a cell that was never written holds NULL. *)
Record apr_queue (A : Type) := mk_queue {
  q_data : list (option A);
  q_nelts : Z;
  q_in : Z;
  q_out : Z;
  q_bounds : Z;
  q_terminated : bool
}.
Arguments mk_queue {A}.
Arguments q_data {A}.
Arguments q_nelts {A}.
Arguments q_in {A}.
Arguments q_out {A}.
Arguments q_bounds {A}.
Arguments q_terminated {A}.
#[export] Instance eta_queue {A} : Eta (apr_queue A) := fun q =>
  mk_queue (q_data q) (q_nelts q) (q_in q) (q_out q) (q_bounds q) (q_terminated q).

Section Queue.
Context {A : Type}.
Implicit Types (q : apr_queue A) (l : list A).

Definition apr_queue_create (queue_capacity : Z) : apr_queue A :=
  mk_queue (replicate (Z.to_nat queue_capacity) None) 0 0 0 queue_capacity false.

Definition apr_queue_size q : Z := q_nelts q.

Definition apr_queue_trypush q (data : A) : res (apr_queue A * apr_status) :=
  if q_terminated q then Ret (q, APR_EOF)
  else if q_nelts q =? q_bounds q then Ret (q, APR_EAGAIN)
  else
    _ <-! or_ub (q_data q !! Z.to_nat (q_in q));;
    Ret (q <| q_data ::= <[Z.to_nat (q_in q) := Some data]> |>
           <| q_in := u32 (q_in q + 1) mod q_bounds q |> <| q_nelts := u32 (q_nelts q + 1) |>,
         APR_SUCCESS).

(** The element is only meaningful with [APR_SUCCESS]. *)
Definition apr_queue_trypop q : res (apr_queue A * option A * apr_status) :=
  if q_terminated q then Ret (q, None, APR_EOF)
  else if q_nelts q =? 0 then Ret (q, None, APR_EAGAIN)
  else
    v <-! or_ub (q_data q !! Z.to_nat (q_out q));;
    Ret (q <| q_nelts := u32 (q_nelts q - 1) |> <| q_out := u32 (q_out q + 1) mod q_bounds q |>,
         v, APR_SUCCESS).

(** ** The ring represents a list *)
Record queue_is q l : Prop := {
  qi_term : q_terminated q = false;
  qi_bounds : 0 < q_bounds q < 4294967296;
  qi_data : zlen (q_data q) = q_bounds q;
  qi_out : 0 <= q_out q < q_bounds q;
  qi_in : q_in q = (q_out q + zlen l) mod q_bounds q;
  qi_len : q_nelts q = zlen l;
  qi_fits : zlen l <= q_bounds q;
  qi_cells : forall k x, l !! k = Some x ->
    q_data q !! Z.to_nat ((q_out q + Z.of_nat k) mod q_bounds q) = Some (Some x)
}.

Lemma queue_create_is n : 0 < n < 4294967296 -> queue_is (apr_queue_create n) [].
Proof.
  intros Hn. split; simpl; try done; try lia.
  - unfold zlen. rewrite length_replicate. lia.
  - unfold zlen. simpl. lia.
Qed.

(** Distinct distances from the read position are distinct cells. *)
Lemma ring_inj b o i j : 0 < b -> 0 <= o -> 0 <= i < b -> 0 <= j < b ->
  (o + i) mod b = (o + j) mod b -> i = j.
Proof.
  intros Hb Ho Hi Hj E.
  pose proof (Z.div_mod (o + i) b ltac:(lia)). pose proof (Z.div_mod (o + j) b ltac:(lia)).
  set (p := (o + i) / b) in *. set (q := (o + j) / b) in *. rewrite E in *.
  assert (b * (p - q) = i - j) by lia. assert (p = q) by nia. subst p. lia.
Qed.

Lemma trypush_full q l x : queue_is q l -> zlen l = q_bounds q ->
  apr_queue_trypush q x = Ret (q, APR_EAGAIN).
Proof.
  intros Hq Hl. unfold apr_queue_trypush. rewrite (qi_term _ _ Hq), (qi_len _ _ Hq), Hl.
  by rewrite Z.eqb_refl.
Qed.

Lemma trypush_room q l x : queue_is q l -> zlen l < q_bounds q ->
  exists q', apr_queue_trypush q x = Ret (q', APR_SUCCESS) /\ queue_is q' (l ++ [x]) /\
    q_bounds q' = q_bounds q.
Proof.
  intros Hq Hl. destruct Hq as [Ht Hb Hd Ho Hi Hn Hf Hc].
  pose proof (zlen_nonneg l).
  assert (0 <= q_in q < q_bounds q) by (rewrite Hi; apply Z.mod_pos_bound; lia).
  unfold apr_queue_trypush. rewrite Ht, Hn, (proj2 (Z.eqb_neq _ _)) by lia.
  destruct (lookup_lt_is_Some_2 (q_data q) (Z.to_nat (q_in q))) as [c Hcell]; [unfold zlen in *; lia|].
  rewrite Hcell. cbn [or_ub rbind]. eexists. split; [done|]. split; [|done].
  split; simpl; try done.
  - unfold zlen in *. rewrite length_insert. lia.
  - rewrite u32_small by lia. rewrite Hi, Z.add_mod_idemp_l by lia.
    f_equal. rewrite zlen_app. unfold zlen. simpl. lia.
  - rewrite u32_small by lia. rewrite zlen_app. unfold zlen. simpl. lia.
  - rewrite zlen_app. unfold zlen in *. simpl. lia.
  - intros k y Hk. destruct (decide (k = length l)) as [->|Hne].
    + rewrite lookup_app_r, Nat.sub_diag in Hk by lia. injection Hk as [= ->].
      assert ((q_out q + Z.of_nat (length l)) mod q_bounds q = q_in q) as -> by (rewrite Hi; done).
      rewrite list_lookup_insert_eq by (unfold zlen in *; lia). done.
    + pose proof (lookup_lt_Some _ _ _ Hk) as Hlt. rewrite length_app in Hlt. simpl in Hlt.
      rewrite lookup_app_l in Hk by lia.
      rewrite list_lookup_insert_ne; [by apply Hc|].
      intros E. apply Z2Nat.inj in E; [|lia|apply Z.mod_pos_bound; lia].
      rewrite Hi in E. apply ring_inj in E; unfold zlen in *; lia.
Qed.

Lemma trypop_empty q : queue_is q [] -> apr_queue_trypop q = Ret (q, None, APR_EAGAIN).
Proof. intros Hq. unfold apr_queue_trypop. by rewrite (qi_term _ _ Hq), (qi_len _ _ Hq). Qed.

Lemma trypop_cons q x l : queue_is q (x :: l) ->
  exists q', apr_queue_trypop q = Ret (q', Some x, APR_SUCCESS) /\ queue_is q' l /\
    q_bounds q' = q_bounds q.
Proof.
  intros [Ht Hb Hd Ho Hi Hn Hf Hc].
  assert (Hlen : zlen (x :: l) = zlen l + 1) by (unfold zlen; simpl; lia).
  pose proof (zlen_nonneg l).
  unfold apr_queue_trypop. rewrite Ht, (proj2 (Z.eqb_neq _ _)) by lia.
  pose proof (Hc 0%nat x eq_refl) as H0. rewrite Z.add_0_r, Z.mod_small in H0 by lia.
  rewrite H0. cbn [or_ub rbind]. eexists. split; [done|]. split; [|done].
  split; simpl; try done; try lia.
  - rewrite u32_small by lia. apply Z.mod_pos_bound. lia.
  - rewrite u32_small by lia. rewrite Z.add_mod_idemp_l by lia. rewrite Hi. f_equal. lia.
  - rewrite u32_small; lia.
  - intros k y Hk. rewrite u32_small, Z.add_mod_idemp_l by lia.
    specialize (Hc (S k) y Hk).
    by replace (q_out q + 1 + Z.of_nat k) with (q_out q + Z.of_nat (S k)) by lia.
Qed.
End Queue.
