(* ===== verification/ChannelDtmf.v ===== *)
(** * ChannelDtmf: the digit queue of a channel, src/switch_channel.c

    Received digits wait in [dtmf_queue]; what was read moves on to
    [dtmf_log_queue].  Both hold pointers to digits allocated on the heap, which
    is part of the state: freeing what is not allocated is undefined.  The
    bounds of a digit's duration are the settings of src/switch_core.c.  What
    the session says about a digit ([switch_core_session_recv_dtmf]) and the
    channel variable that marks digits as sensitive are arguments. *)
From S2P Require Import Prelude AprQueue.
From Stdlib Require Import ZArith Lia.
From stdpp Require Import base numbers option list gmap.

Local Open Scope Z_scope.

Definition SWITCH_DEFAULT_DTMF_DURATION : Z := 2000.
Definition SWITCH_MIN_DTMF_DURATION : Z := 400.
Definition SWITCH_MAX_DTMF_DURATION : Z := 192000.
Definition SWITCH_DTMF_LOG_LEN : Z := 1000.
Definition DTMF_FLAG_SENSITIVE : Z := Z.shiftl 1 1.

(** ** Durations: the three settings of [runtime] in src/switch_core.c *)
Record dtmf_runtime := mk_runtime {
  max_dtmf_duration : Z;
  default_dtmf_duration : Z;
  min_dtmf_duration : Z
}.
#[export] Instance eta_runtime : Eta dtmf_runtime := fun r =>
  mk_runtime (max_dtmf_duration r) (default_dtmf_duration r) (min_dtmf_duration r).

Definition dtmf_runtime_init : dtmf_runtime :=
  mk_runtime SWITCH_MAX_DTMF_DURATION SWITCH_DEFAULT_DTMF_DURATION SWITCH_MIN_DTMF_DURATION.

Definition switch_core_max_dtmf_duration (runtime : dtmf_runtime) (duration : Z) : dtmf_runtime * Z :=
  let runtime :=
    if negb (duration =? 0) then
      let duration := if duration >? SWITCH_MAX_DTMF_DURATION then SWITCH_MAX_DTMF_DURATION else duration in
      let duration := if duration <? SWITCH_MIN_DTMF_DURATION then SWITCH_MIN_DTMF_DURATION else duration in
      let runtime := runtime <| max_dtmf_duration := duration |> in
      if duration <? min_dtmf_duration runtime then runtime <| min_dtmf_duration := duration |> else runtime
    else runtime in
  (runtime, max_dtmf_duration runtime).

Definition switch_core_default_dtmf_duration (runtime : dtmf_runtime) (duration : Z) : dtmf_runtime * Z :=
  let runtime :=
    if negb (duration =? 0) then
      let duration := if duration <? SWITCH_MIN_DTMF_DURATION then SWITCH_MIN_DTMF_DURATION else duration in
      let duration := if duration >? SWITCH_MAX_DTMF_DURATION then SWITCH_MAX_DTMF_DURATION else duration in
      let runtime := runtime <| default_dtmf_duration := duration |> in
      let runtime :=
        if duration <? min_dtmf_duration runtime then runtime <| min_dtmf_duration := duration |> else runtime in
      if duration >? max_dtmf_duration runtime then runtime <| max_dtmf_duration := duration |> else runtime
    else runtime in
  (runtime, default_dtmf_duration runtime).

Definition switch_core_min_dtmf_duration (runtime : dtmf_runtime) (duration : Z) : dtmf_runtime * Z :=
  let runtime :=
    if negb (duration =? 0) then
      let duration := if duration <? SWITCH_MIN_DTMF_DURATION then SWITCH_MIN_DTMF_DURATION else duration in
      let duration := if duration >? SWITCH_MAX_DTMF_DURATION then SWITCH_MAX_DTMF_DURATION else duration in
      let runtime := runtime <| min_dtmf_duration := duration |> in
      if duration >? max_dtmf_duration runtime then runtime <| max_dtmf_duration := duration |> else runtime
    else runtime in
  (runtime, min_dtmf_duration runtime).

(** ** Digits *)
Inductive switch_dtmf_source :=
| SWITCH_DTMF_UNKNOWN
| SWITCH_DTMF_INBAND_AUDIO
| SWITCH_DTMF_RTP
| SWITCH_DTMF_ENDPOINT
| SWITCH_DTMF_APP.

Record switch_dtmf := mk_dtmf {
  digit : Z;
  duration : Z;
  dtmf_flags : Z;
  dtmf_source : switch_dtmf_source
}.
#[export] Instance eta_dtmf : Eta switch_dtmf := fun d =>
  mk_dtmf (digit d) (duration d) (dtmf_flags d) (dtmf_source d).
Definition blank_dtmf : switch_dtmf := mk_dtmf 0 0 0 SWITCH_DTMF_UNKNOWN.

(** [is_dtmf] of include/switch_utils.h *)
Definition is_dtmf (key : Z) : bool :=
  ((key >? 47) && (key <? 58)) || ((key >? 64) && (key <? 69)) || ((key >? 96) && (key <? 101))
  || (key =? 35) || (key =? 42) || (key =? 87) || (key =? 119) || (key =? 70) || (key =? 102).

(** [switch_channel_dequeue_dtmf] announces a digit with its duration and
    source, to the session when events are diverted and to the system
    otherwise. *)
Inductive dtmf_event := DtmfEvent (diverted : bool) (d : switch_dtmf).

Record dtmf_state := mk_dstate {
  dtmf_queue : apr_queue nat;
  dtmf_log_queue : apr_queue nat;
  heap : gmap nat switch_dtmf;
  next_ptr : nat;
  dtmf_events : list dtmf_event
}.
#[export] Instance eta_dstate : Eta dtmf_state := fun s =>
  mk_dstate (dtmf_queue s) (dtmf_log_queue s) (heap s) (next_ptr s) (dtmf_events s).

(** The queues [switch_channel_alloc] creates. *)
Definition dtmf_alloc : dtmf_state :=
  mk_dstate (apr_queue_create SWITCH_DTMF_LOG_LEN) (apr_queue_create SWITCH_DTMF_LOG_LEN) ∅ 0 [].

Definition dfree (p : nat) (s : dtmf_state) : res dtmf_state :=
  _ <-! or_ub (heap s !! p);; Ret (s <| heap ::= delete p |>).
Definition dalloc (d : switch_dtmf) (s : dtmf_state) : nat * dtmf_state :=
  (next_ptr s, s <| heap ::= insert (next_ptr s) d |> <| next_ptr ::= S |>).

Definition switch_channel_has_dtmf (s : dtmf_state) : Z := apr_queue_size (dtmf_queue s).

(** What [switch_channel_queue_dtmf] makes of the duration. *)
Definition queue_duration (runtime : dtmf_runtime) (d : switch_dtmf) : switch_dtmf :=
  let d :=
    if negb (digit d =? 119) && negb (digit d =? 87) then
      if duration d >? max_dtmf_duration runtime then d <| duration := max_dtmf_duration runtime |>
      else if duration d <? min_dtmf_duration runtime then d <| duration := min_dtmf_duration runtime |>
      else d
    else d in
  if duration d =? 0 then d <| duration := default_dtmf_duration runtime |> else d.

(** The loop that pushes a digit and drops the oldest while there is no room;
    [n] is [100 - x]. *)
Fixpoint push_loop (n : nat) (dt : nat) (s : dtmf_state) : res (dtmf_state * bool) :=
  '(q, st) <-! apr_queue_trypush (dtmf_queue s) dt;;
  let s := s <| dtmf_queue := q |> in
  if decide (st = APR_SUCCESS) then Ret (s, true)
  else
    '(q, pop, st) <-! apr_queue_trypop (dtmf_queue s);;
    let s := s <| dtmf_queue := q |> in
    s <-! (if decide (st = APR_SUCCESS) then p <-! or_ub pop;; dfree p s else Ret s);;
    match n with
    | S n => push_loop n dt s
    | O => s <-! dfree dt s;; Ret (s, false)
    end.

(** [recv] is what [switch_core_session_recv_dtmf] returned. *)
Definition switch_channel_queue_dtmf (runtime : dtmf_runtime) (recv : switch_status) (sensitive : bool)
    (dtmf : switch_dtmf) (s : dtmf_state) : res (dtmf_state * switch_status) :=
  let new_dtmf := if sensitive then dtmf <| dtmf_flags ::= fun f => set_flag f DTMF_FLAG_SENSITIVE |> else dtmf in
  if decide (recv <> SWITCH_STATUS_SUCCESS) then Ret (s, SWITCH_STATUS_FALSE)
  else if is_dtmf (digit new_dtmf) then
    let '(dt, s) := dalloc (queue_duration runtime new_dtmf) s in
    '(s, ok) <-! push_loop 100 dt s;;
    Ret (s, if ok then SWITCH_STATUS_SUCCESS else SWITCH_STATUS_FALSE)
  else Ret (s, SWITCH_STATUS_SUCCESS).

(** What [switch_channel_dequeue_dtmf] makes of the duration. *)
Definition dequeue_duration (runtime : dtmf_runtime) (d : switch_dtmf) : switch_dtmf :=
  if duration d >? max_dtmf_duration runtime then d <| duration := max_dtmf_duration runtime |>
  else if duration d <? min_dtmf_duration runtime then d <| duration := min_dtmf_duration runtime |>
  else if duration d =? 0 then d <| duration := default_dtmf_duration runtime |>
  else d.

(** [if (switch_queue_trypush(channel->dtmf_log_queue, dt) != SWITCH_STATUS_SUCCESS) free(dt)] *)
Definition log_or_free (dt : nat) (s : dtmf_state) : res dtmf_state :=
  '(q, st) <-! apr_queue_trypush (dtmf_log_queue s) dt;;
  let s := s <| dtmf_log_queue := q |> in
  if decide (st <> APR_SUCCESS) then dfree dt s else Ret s.

Definition switch_channel_dequeue_dtmf (runtime : dtmf_runtime) (divert : bool) (s : dtmf_state)
    : res (dtmf_state * option switch_dtmf * switch_status) :=
  '(q, pop, st) <-! apr_queue_trypop (dtmf_queue s);;
  let s := s <| dtmf_queue := q |> in
  if decide (st = APR_SUCCESS) then
    dt <-! or_ub pop;;
    dtmf <-! or_ub (heap s !! dt);;
    let sensitive := test_flag (dtmf_flags dtmf) DTMF_FLAG_SENSITIVE in
    s <-! (if negb sensitive then log_or_free dt s else Ret s);;
    let dtmf := dequeue_duration runtime dtmf in
    let s := if negb sensitive then s <| dtmf_events ::= fun e => e ++ [DtmfEvent divert dtmf] |> else s in
    Ret (s, Some dtmf, SWITCH_STATUS_SUCCESS)
  else Ret (s, None, SWITCH_STATUS_FALSE).

(** [switch_channel_dequeue_dtmf_string] into [len] bytes: the digits it wrote;
    [n] is [len - 1 - x]. *)
Fixpoint dequeue_loop (runtime : dtmf_runtime) (divert : bool) (n : nat) (s : dtmf_state)
    : res (dtmf_state * list Z) :=
  match n with
  | O => Ret (s, [])
  | S n =>
    '(s, d, st) <-! switch_channel_dequeue_dtmf runtime divert s;;
    match d with
    | Some d => '(s, ds) <-! dequeue_loop runtime divert n s;; Ret (s, digit d :: ds)
    | None => Ret (s, [])
    end
  end.
Definition switch_channel_dequeue_dtmf_string (runtime : dtmf_runtime) (divert : bool) (len : Z)
    (s : dtmf_state) : res (dtmf_state * list Z) :=
  dequeue_loop runtime divert (Z.to_nat (u64 (len - 1))) s.

(** [switch_channel_flush_dtmf]; [hungup] is [state >= CS_HANGUP].  Every round
    takes an element: [fuel] is the number of elements. *)
Fixpoint flush_loop (fuel : nat) (hungup : bool) (s : dtmf_state) : res (option dtmf_state) :=
  '(q, pop, st) <-! apr_queue_trypop (dtmf_queue s);;
  let s := s <| dtmf_queue := q |> in
  if decide (st = APR_SUCCESS) then
    match fuel with
    | O => Ret None
    | S fuel =>
      dt <-! or_ub pop;;
      s <-! (if hungup then dfree dt s else log_or_free dt s);;
      flush_loop fuel hungup s
    end
  else Ret (Some s).
Definition switch_channel_flush_dtmf (hungup : bool) (s : dtmf_state) : res (option dtmf_state) :=
  flush_loop (Z.to_nat (apr_queue_size (dtmf_queue s))) hungup s.

(** The part of [switch_channel_uninit] that empties the queues. *)
Fixpoint drain_log (fuel : nat) (s : dtmf_state) : res (option dtmf_state) :=
  '(q, pop, st) <-! apr_queue_trypop (dtmf_log_queue s);;
  let s := s <| dtmf_log_queue := q |> in
  if decide (st = APR_SUCCESS) then
    match fuel with
    | O => Ret None
    | S fuel => dt <-! or_ub pop;; s <-! dfree dt s;; drain_log fuel s
    end
  else Ret (Some s).
Definition uninit_dtmf (hungup : bool) (s : dtmf_state) : res (option dtmf_state) :=
  s <-! switch_channel_flush_dtmf hungup s;;
  match s with
  | Some s => drain_log (Z.to_nat (apr_queue_size (dtmf_log_queue s))) s
  | None => Ret None
  end.

(** ** The contract: two bounded queues of digits *)
Record adtmf := mk_adtmf {
  a_wait : list switch_dtmf;
  a_log : list switch_dtmf;
  (** digits whose memory is lost *)
  a_lost : nat;
  a_events : list dtmf_event
}.
Definition capacity : nat := Z.to_nat SWITCH_DTMF_LOG_LEN.

(** The newest [capacity] of the digits. *)
Definition newest (l : list switch_dtmf) : list switch_dtmf := drop (length l - capacity) l.
Definition mark (sensitive : bool) (d : switch_dtmf) : switch_dtmf :=
  if sensitive then d <| dtmf_flags ::= fun f => set_flag f DTMF_FLAG_SENSITIVE |> else d.
Definition is_sensitive (d : switch_dtmf) : bool := test_flag (dtmf_flags d) DTMF_FLAG_SENSITIVE.

Definition a_queue (runtime : dtmf_runtime) (recv : switch_status) (sensitive : bool) (d : switch_dtmf)
    (a : adtmf) : adtmf * switch_status :=
  if decide (recv <> SWITCH_STATUS_SUCCESS) then (a, SWITCH_STATUS_FALSE)
  else if is_dtmf (digit d)
  then (mk_adtmf (newest (a_wait a ++ [queue_duration runtime (mark sensitive d)])) (a_log a) (a_lost a)
          (a_events a), SWITCH_STATUS_SUCCESS)
  else (a, SWITCH_STATUS_SUCCESS).

Definition a_dequeue (runtime : dtmf_runtime) (divert : bool) (a : adtmf) : adtmf * option switch_dtmf :=
  match a_wait a with
  | [] => (a, None)
  | d :: ds =>
    let r := dequeue_duration runtime d in
    (if is_sensitive d then mk_adtmf ds (a_log a) (S (a_lost a)) (a_events a)
     else mk_adtmf ds (take capacity (a_log a ++ [d])) (a_lost a) (a_events a ++ [DtmfEvent divert r]),
     Some r)
  end.

Definition a_flush (hungup : bool) (a : adtmf) : adtmf :=
  mk_adtmf [] (if hungup then a_log a else take capacity (a_log a ++ a_wait a)) (a_lost a) (a_events a).

(** ** The code keeps the contract *)

(** [ps] and [ls] are the pointers in the queue and in the log, [hs] those in
    neither: in the hands of the code, or lost. *)
Definition cells (h : gmap nat switch_dtmf) (ps : list nat) : list (option switch_dtmf) :=
  map (fun p => h !! p) ps.
Record owns (s : dtmf_state) (ds gs : list switch_dtmf) (ps ls hs : list nat) : Prop := {
  ow_queue : queue_is (dtmf_queue s) ps;
  ow_logq : queue_is (dtmf_log_queue s) ls;
  ow_bounds : q_bounds (dtmf_queue s) = SWITCH_DTMF_LOG_LEN;
  ow_log_bounds : q_bounds (dtmf_log_queue s) = SWITCH_DTMF_LOG_LEN;
  ow_nodup : NoDup (hs ++ ps ++ ls);
  ow_heap : forall p, is_Some (heap s !! p) <-> p ∈ hs ++ ps ++ ls;
  ow_next : forall p, p ∈ hs ++ ps ++ ls -> (p < next_ptr s)%nat;
  ow_wait : cells (heap s) ps = map Some ds;
  ow_log : cells (heap s) ls = map Some gs
}.

Lemma cells_delete h p ps : p ∉ ps -> cells (delete p h) ps = cells h ps.
Proof.
  intros Hp. apply map_ext_in. intros x Hx%list_elem_of_In.
  apply lookup_delete_ne. intros ->. done.
Qed.
Lemma cells_insert h p d ps : p ∉ ps -> cells (<[p := d]> h) ps = cells h ps.
Proof.
  intros Hp. apply map_ext_in. intros x Hx%list_elem_of_In.
  apply lookup_insert_ne. intros ->. done.
Qed.
Lemma cells_length h ps ds : cells h ps = map Some ds -> length ps = length ds.
Proof. intros H%(f_equal length). unfold cells in H. by rewrite !length_map in H. Qed.
Lemma cells_app h ps ps' : cells h (ps ++ ps') = cells h ps ++ cells h ps'.
Proof. apply map_app. Qed.

Lemma dtmf_alloc_owns : owns dtmf_alloc [] [] [] [] [].
Proof.
  split; try done; try (apply queue_create_is; done).
  - constructor.
  - intros p. simpl. split; [by intros [? ?]|by intros ?%elem_of_nil].
  - by intros p ?%elem_of_nil.
Qed.

Lemma owns_lengths s ds gs ps ls hs : owns s ds gs ps ls hs ->
  length ps = length ds /\ length ls = length gs /\ (length ds <= capacity)%nat /\ (length gs <= capacity)%nat.
Proof.
  intros H. pose proof (cells_length _ _ _ (ow_wait _ _ _ _ _ _ H)).
  pose proof (cells_length _ _ _ (ow_log _ _ _ _ _ _ H)).
  pose proof (qi_fits _ _ (ow_queue _ _ _ _ _ _ H)). pose proof (qi_fits _ _ (ow_logq _ _ _ _ _ _ H)).
  rewrite (ow_bounds _ _ _ _ _ _ H), (ow_log_bounds _ _ _ _ _ _ H) in *.
  unfold zlen, capacity in *. lia.
Qed.

Lemma owns_heap_size s ds gs ps ls hs : owns s ds gs ps ls hs ->
  size (heap s) = (length ds + length gs + length hs)%nat.
Proof.
  intros H. rewrite <- size_dom.
  assert (dom (heap s) = list_to_set (hs ++ ps ++ ls)) as ->.
  { apply set_eq. intros p. by rewrite elem_of_dom, (ow_heap _ _ _ _ _ _ H), elem_of_list_to_set. }
  rewrite size_list_to_set by apply H. rewrite !length_app.
  destruct (owns_lengths _ _ _ _ _ _ H) as (-> & -> & _). lia.
Qed.

(** *** Moves of one pointer *)
Lemma owns_alloc s ds gs ps ls hs d : owns s ds gs ps ls hs ->
  owns (dalloc d s).2 ds gs ps ls (next_ptr s :: hs) /\ heap (dalloc d s).2 !! next_ptr s = Some d /\
  dtmf_events (dalloc d s).2 = dtmf_events s.
Proof.
  intros [Hq Hl Hb Hb' Hn Hh Hx Hw Hg].
  assert (Hnew : next_ptr s ∉ hs ++ ps ++ ls) by (intros E%Hx; lia).
  split; [|split; [apply lookup_insert_eq|done]].
  split; simpl; try done.
  - apply NoDup_cons. by split.
  - intros p. rewrite elem_of_cons, <- Hh. destruct (decide (p = next_ptr s)) as [->|Hne].
    + rewrite lookup_insert_eq. split; [by left|by eexists].
    + rewrite lookup_insert_ne by done. split; [by right|]. by intros [?|?].
  - intros p [->|Hp%Hx]%elem_of_cons; lia.
  - rewrite cells_insert; [done|]. intros E. apply Hnew. rewrite !elem_of_app. auto.
  - rewrite cells_insert; [done|]. intros E. apply Hnew. rewrite !elem_of_app. auto.
Qed.

Lemma owns_free s ds gs ps ls hs p : owns s ds gs ps ls (p :: hs) ->
  exists s', dfree p s = Ret s' /\ owns s' ds gs ps ls hs /\ dtmf_events s' = dtmf_events s.
Proof.
  intros [Hq Hl Hb Hb' Hn Hh Hx Hw Hg].
  simpl in Hn. apply NoDup_cons in Hn as [Hp Hn].
  destruct (proj2 (Hh p)) as [d Hd]; [apply elem_of_cons; by left|].
  unfold dfree. rewrite Hd. cbn [or_ub rbind]. eexists. split; [done|]. split; [|done].
  split; simpl; try done.
  - intros x. destruct (decide (x = p)) as [->|Hne].
    + rewrite lookup_delete_eq. split; [by intros [? ?]|done].
    + rewrite lookup_delete_ne, Hh by done. simpl. rewrite elem_of_cons. split; [by intros [?|?]|auto].
  - intros x Hx'. apply Hx. apply elem_of_cons. by right.
  - rewrite cells_delete; [done|]. intros E. apply Hp. rewrite !elem_of_app. auto.
  - rewrite cells_delete; [done|]. intros E. apply Hp. rewrite !elem_of_app. auto.
Qed.

(** The owned pointers in another arrangement. *)
Lemma owns_move s s' ds gs ps ls hs ds' gs' ps' ls' hs' : owns s ds gs ps ls hs ->
  heap s' = heap s -> next_ptr s' = next_ptr s ->
  queue_is (dtmf_queue s') ps' -> q_bounds (dtmf_queue s') = SWITCH_DTMF_LOG_LEN ->
  queue_is (dtmf_log_queue s') ls' -> q_bounds (dtmf_log_queue s') = SWITCH_DTMF_LOG_LEN ->
  hs' ++ ps' ++ ls' ≡ₚ hs ++ ps ++ ls ->
  cells (heap s) ps' = map Some ds' -> cells (heap s) ls' = map Some gs' ->
  owns s' ds' gs' ps' ls' hs'.
Proof.
  intros H Eh En Hq Hb Hl Hb' Hperm Hw Hg. split; try done.
  - rewrite Hperm. apply H.
  - intros p. rewrite Hperm, Eh. apply H.
  - intros p. rewrite Hperm, En. apply H.
  - by rewrite Eh.
  - by rewrite Eh.
Qed.

Lemma owns_pop_empty s gs ls hs : owns s [] gs [] ls hs ->
  apr_queue_trypop (dtmf_queue s) = Ret (dtmf_queue s, None, APR_EAGAIN).
Proof. intros H. by apply trypop_empty, H. Qed.

Lemma owns_pop s d ds gs ps ls hs : owns s (d :: ds) gs ps ls hs ->
  exists q p ps', ps = p :: ps' /\ apr_queue_trypop (dtmf_queue s) = Ret (q, Some p, APR_SUCCESS) /\
    heap s !! p = Some d /\ owns (s <| dtmf_queue := q |>) ds gs ps' ls (p :: hs).
Proof.
  intros H. pose proof (ow_wait _ _ _ _ _ _ H) as Hw. destruct ps as [|p ps]; [done|].
  simpl in Hw. injection Hw as Hp Hw.
  destruct (trypop_cons _ _ _ (ow_queue _ _ _ _ _ _ H)) as (q & Epop & Hq & Eb).
  exists q, p, ps. split_and!; try done.
  eapply owns_move; [exact H|..]; try done; try apply H.
  - simpl. rewrite Eb. apply H.
  - simpl. by rewrite Permutation_middle.
Qed.

Lemma owns_push s ds gs ps ls hs p d : owns s ds gs ps ls (p :: hs) -> heap s !! p = Some d ->
  (length ds < capacity)%nat ->
  exists q, apr_queue_trypush (dtmf_queue s) p = Ret (q, APR_SUCCESS) /\
    owns (s <| dtmf_queue := q |>) (ds ++ [d]) gs (ps ++ [p]) ls hs.
Proof.
  intros H Hp Hlt. destruct (owns_lengths _ _ _ _ _ _ H) as (El & _).
  destruct (trypush_room (dtmf_queue s) ps p) as (q & E & Hq & Eb); [apply H|..].
  { rewrite (ow_bounds _ _ _ _ _ _ H). unfold zlen, capacity, SWITCH_DTMF_LOG_LEN in *. lia. }
  exists q. split; [done|]. eapply owns_move; [exact H|..]; try done; try apply H.
  - simpl. rewrite Eb. apply H.
  - rewrite <- app_assoc. simpl. rewrite <- (Permutation_middle ps). by rewrite <- (Permutation_middle hs).
  - rewrite cells_app, map_app. f_equal; [apply H|]. simpl. by rewrite Hp.
Qed.

Lemma owns_push_log s ds gs ps ls hs p d : owns s ds gs ps ls (p :: hs) -> heap s !! p = Some d ->
  (length gs < capacity)%nat ->
  exists q, apr_queue_trypush (dtmf_log_queue s) p = Ret (q, APR_SUCCESS) /\
    owns (s <| dtmf_log_queue := q |>) ds (gs ++ [d]) ps (ls ++ [p]) hs.
Proof.
  intros H Hp Hlt. destruct (owns_lengths _ _ _ _ _ _ H) as (_ & El & _).
  destruct (trypush_room (dtmf_log_queue s) ls p) as (q & E & Hq & Eb); [apply H|..].
  { rewrite (ow_log_bounds _ _ _ _ _ _ H). unfold zlen, capacity, SWITCH_DTMF_LOG_LEN in *. lia. }
  exists q. split; [done|]. eapply owns_move; [exact H|..]; try done; try apply H.
  - simpl. rewrite Eb. apply H.
  - rewrite (app_assoc ps ls). rewrite <- Permutation_cons_append. simpl.
    by rewrite <- (Permutation_middle hs).
  - rewrite cells_app, map_app. f_equal; [apply H|]. simpl. by rewrite Hp.
Qed.

(** Pushing a pointer to the log, or freeing it when the log is full. *)
Lemma owns_log_or_free s ds gs ps ls hs p d : owns s ds gs ps ls (p :: hs) -> heap s !! p = Some d ->
  exists s' ls', log_or_free p s = Ret s' /\
    owns s' ds (take capacity (gs ++ [d])) ps ls' hs /\ dtmf_events s' = dtmf_events s.
Proof.
  intros H Hp. destruct (owns_lengths _ _ _ _ _ _ H) as (_ & El & _ & Hcap).
  unfold log_or_free.
  destruct (decide (length gs = capacity)) as [Efull|Hroom].
  - rewrite (trypush_full _ ls); [|apply H|].
    2: { rewrite (ow_log_bounds _ _ _ _ _ _ H). unfold zlen, capacity, SWITCH_DTMF_LOG_LEN in *. lia. }
    cbn [rbind]. rewrite decide_True by done.
    assert (H' : owns (s <| dtmf_log_queue := dtmf_log_queue s |>) ds gs ps ls (p :: hs)) by (by destruct s).
    destruct (owns_free _ _ _ _ _ _ _ H') as (s' & E & Hs & Ev).
    exists s', ls. split; [done|]. split; [|by rewrite Ev].
    by rewrite take_app_length' by done.
  - destruct (owns_push_log _ _ _ _ _ _ _ _ H Hp) as (q & E & Hs); [lia|].
    rewrite E. cbn [rbind]. rewrite decide_False by (intros F; by apply F).
    eexists _, _. split; [done|]. split; [|done].
    rewrite take_ge by (rewrite length_app; simpl; lia). exact Hs.
Qed.

(** What does not fit is forgotten at once or later, alike. *)
Lemma take_take_app {A} n (l k : list A) : take n (take n l ++ k) = take n (l ++ k).
Proof.
  destruct (decide (length l <= n)%nat) as [Hle|Hgt]; [by rewrite (take_ge l) by done|].
  rewrite (take_app_le l k) by lia. rewrite take_app_le by (rewrite length_take; lia).
  by rewrite take_take, Nat.min_id.
Qed.

(** *** Operations *)

Lemma newest_full d0 ds d : length (d0 :: ds) = capacity -> newest ((d0 :: ds) ++ [d]) = ds ++ [d].
Proof.
  intros E. unfold newest. rewrite length_app, E.
  replace (capacity + length [d] - capacity)%nat with 1%nat by (simpl; lia). done.
Qed.
Lemma newest_room ds d : (length ds < capacity)%nat -> newest (ds ++ [d]) = ds ++ [d].
Proof.
  intros E. unfold newest. rewrite length_app.
  replace (length ds + length [d] - capacity)%nat with 0%nat by (simpl length; lia). done.
Qed.

(** The loop of [switch_channel_queue_dtmf] takes at most two rounds. *)
Lemma push_loop_ok s ds gs ps ls hs p d n : owns s ds gs ps ls (p :: hs) -> heap s !! p = Some d ->
  exists s' ps', push_loop (S n) p s = Ret (s', true) /\
    owns s' (newest (ds ++ [d])) gs ps' ls hs /\ dtmf_events s' = dtmf_events s.
Proof.
  intros H Hp. destruct (owns_lengths _ _ _ _ _ _ H) as (El & _ & Hcap & _).
  destruct (decide (length ds = capacity)) as [Efull|Hroom].
  - cbn [push_loop]. rewrite (trypush_full _ ps); [|apply H|].
    2: { rewrite (ow_bounds _ _ _ _ _ _ H). unfold zlen, capacity, SWITCH_DTMF_LOG_LEN in *. lia. }
    cbn [rbind]. rewrite decide_False by done.
    assert (H' : owns (s <| dtmf_queue := dtmf_queue s |>) ds gs ps ls (p :: hs)) by (by destruct s).
    destruct ds as [|d0 ds]; [done|].
    destruct (owns_pop _ _ _ _ _ _ _ H') as (q & p0 & ps' & -> & Epop & _ & H1).
    rewrite Epop. cbn [rbind]. rewrite decide_True by done. cbn [or_ub rbind].
    destruct (owns_free _ _ _ _ _ _ _ H1) as (s2 & Efree & H2 & Ev).
    rewrite Efree. cbn [rbind].
    assert (Hp2 : heap s2 !! p = Some d).
    { unfold dfree in Efree. simpl in Efree. destruct (heap s !! p0); [|done]. simpl in Efree.
      injection Efree as <-. simpl. rewrite lookup_delete_ne; [done|].
      pose proof (ow_nodup _ _ _ _ _ _ H1) as Hn. simpl in Hn. apply NoDup_cons in Hn as [Hn _].
      intros ->. apply Hn, elem_of_cons. by left. }
    destruct (owns_push _ _ _ _ _ _ _ _ H2 Hp2) as (q3 & E3 & H3);
      [cbn [length] in Efull; lia|].
    destruct n as [|n]; cbn [push_loop]; rewrite E3; cbn [rbind]; rewrite decide_True by done.
    + eexists _, _. split; [done|]. split; [|exact Ev].
      by rewrite newest_full.
    + eexists _, _. split; [done|]. split; [|exact Ev].
      by rewrite newest_full.
  - destruct (owns_push _ _ _ _ _ _ _ _ H Hp) as (q & E & H1); [lia|].
    cbn [push_loop]. rewrite E. cbn [rbind]. rewrite decide_True by done.
    eexists _, _. split; [done|]. split; [|done].
    by rewrite newest_room by lia.
Qed.

Definition dtmf_is (s : dtmf_state) (a : adtmf) : Prop :=
  exists ps ls hs, owns s (a_wait a) (a_log a) ps ls hs /\ length hs = a_lost a /\
    dtmf_events s = a_events a.

Lemma queue_dtmf_ok s a runtime recv sensitive d : dtmf_is s a ->
  exists s', switch_channel_queue_dtmf runtime recv sensitive d s =
      Ret (s', (a_queue runtime recv sensitive d a).2) /\
    dtmf_is s' (a_queue runtime recv sensitive d a).1.
Proof.
  intros (ps & ls & hs & H & El & Ev).
  unfold switch_channel_queue_dtmf, a_queue.
  destruct (decide (recv <> SWITCH_STATUS_SUCCESS)); [by exists s; split; [|exists ps, ls, hs]|].
  fold (mark sensitive d).
  assert (digit (mark sensitive d) = digit d) as -> by (by destruct sensitive).
  destruct (is_dtmf (digit d)); [|by exists s; split; [|exists ps, ls, hs]].
  destruct (owns_alloc _ _ _ _ _ _ (queue_duration runtime (mark sensitive d)) H) as (H1 & Hp & Ev1).
  destruct (dalloc (queue_duration runtime (mark sensitive d)) s) as [p s1] eqn:Ea.
  assert (next_ptr s = p) as <- by (by injection Ea).
  destruct (push_loop_ok _ _ _ _ _ _ _ _ 99 H1 Hp) as (s2 & ps2 & E2 & H2 & Ev2).
  cbn [snd] in E2. rewrite E2. cbn [rbind fst snd]. exists s2. split; [done|].
  exists ps2, ls, hs. simpl in *. split_and!; try done. congruence.
Qed.

Lemma dequeue_dtmf_ok s a runtime divert : dtmf_is s a ->
  exists s', switch_channel_dequeue_dtmf runtime divert s =
      Ret (s', (a_dequeue runtime divert a).2,
           match (a_dequeue runtime divert a).2 with
           | Some _ => SWITCH_STATUS_SUCCESS
           | None => SWITCH_STATUS_FALSE
           end) /\
    dtmf_is s' (a_dequeue runtime divert a).1.
Proof.
  intros (ps & ls & hs & H & El & Ev). unfold switch_channel_dequeue_dtmf, a_dequeue.
  destruct (a_wait a) as [|d ds] eqn:Ew.
  - assert (ps = []) as ->.
    { destruct (owns_lengths _ _ _ _ _ _ H) as (Hl & _). by destruct ps. }
    rewrite (owns_pop_empty _ _ _ _ H). cbn [rbind]. rewrite decide_False by done.
    eexists. split; [done|]. exists [], ls, hs. simpl. rewrite Ew. split_and!; [by destruct s|done..].
  - destruct (owns_pop _ _ _ _ _ _ _ H) as (q & p & ps' & -> & Epop & Hd & H1).
    rewrite Epop. cbn [rbind]. rewrite decide_True by done. cbn [or_ub rbind].
    set (s1 := s <| dtmf_queue := q |>) in *.
    assert (heap s1 !! p = Some d) as Hd1 by done. rewrite Hd1. cbn [or_ub rbind]. fold (is_sensitive d).
    destruct (is_sensitive d) eqn:Es; cbn [negb].
    + cbn [rbind]. eexists. split; [done|]. exists ps', ls, (p :: hs). simpl. split_and!; try done. lia.
    + destruct (owns_log_or_free _ _ _ _ _ _ _ _ H1 Hd1) as (s2 & ls2 & E2 & H2 & Ev2).
      rewrite E2. cbn [rbind]. eexists. split; [done|].
      exists ps', ls2, hs. simpl. split_and!; try done.
      * by destruct H2; split.
      * simpl. rewrite Ev2. simpl. by rewrite Ev.
Qed.

Fixpoint a_string (runtime : dtmf_runtime) (divert : bool) (n : nat) (a : adtmf) : adtmf * list Z :=
  match n with
  | O => (a, [])
  | S n =>
    let '(a, d) := a_dequeue runtime divert a in
    match d with
    | Some d => let '(a, ds) := a_string runtime divert n a in (a, digit d :: ds)
    | None => (a, [])
    end
  end.

Lemma dequeue_loop_ok runtime divert n : forall s a, dtmf_is s a ->
  exists s', dequeue_loop runtime divert n s = Ret (s', (a_string runtime divert n a).2) /\
    dtmf_is s' (a_string runtime divert n a).1.
Proof.
  induction n as [|n IH]; intros s a H; simpl; [by exists s|].
  destruct (dequeue_dtmf_ok s a runtime divert H) as (s1 & -> & H1).
  destruct (a_dequeue runtime divert a) as [a1 [d|]]; cbn [rbind fst snd] in *; [|by exists s1].
  destruct (IH s1 a1 H1) as (s2 & -> & H2).
  destruct (a_string runtime divert n a1) as [a2 ds]. cbn [rbind fst snd] in *. by exists s2.
Qed.

Lemma flush_loop_ok hungup ds : forall s gs ps ls hs, owns s ds gs ps ls hs ->
  exists s' ls', flush_loop (length ds) hungup s = Ret (Some s') /\
    owns s' [] (if hungup then gs else take capacity (gs ++ ds)) [] ls' hs /\
    dtmf_events s' = dtmf_events s.
Proof.
  induction ds as [|d ds IH]; intros s gs ps ls hs H.
  - assert (ps = []) as -> by (destruct (owns_lengths _ _ _ _ _ _ H) as (Hl & _); by destruct ps).
    cbn [length flush_loop]. rewrite (owns_pop_empty _ _ _ _ H). cbn [rbind]. rewrite decide_False by done.
    eexists _, ls. split; [done|]. split; [|done]. rewrite app_nil_r.
    destruct (owns_lengths _ _ _ _ _ _ H) as (_ & _ & _ & Hg). rewrite take_ge by done.
    destruct hungup; by destruct s.
  - destruct (owns_pop _ _ _ _ _ _ _ H) as (q & p & ps' & -> & Epop & Hd & H1).
    cbn [length flush_loop]. rewrite Epop. cbn [rbind]. rewrite decide_True by done. cbn [or_ub rbind].
    set (s1 := s <| dtmf_queue := q |>) in *.
    destruct hungup.
    + destruct (owns_free _ _ _ _ _ _ _ H1) as (s2 & -> & H2 & Ev). cbn [rbind].
      destruct (IH _ _ _ _ _ H2) as (s3 & ls3 & E3 & H3 & Ev3).
      exists s3, ls3. split; [done|]. split; [done|]. by rewrite Ev3, Ev.
    + destruct (owns_log_or_free _ _ _ _ _ _ _ d H1 Hd) as (s2 & ls2 & -> & H2 & Ev). cbn [rbind].
      destruct (IH _ _ _ _ _ H2) as (s3 & ls3 & E3 & H3 & Ev3).
      exists s3, ls3. split; [done|]. split; [|by rewrite Ev3, Ev].
      by rewrite take_take_app, <- app_assoc in H3.
Qed.

Lemma owns_size s ds gs ps ls hs : owns s ds gs ps ls hs ->
  apr_queue_size (dtmf_queue s) = zlen ds /\ apr_queue_size (dtmf_log_queue s) = zlen gs.
Proof.
  intros H. destruct (owns_lengths _ _ _ _ _ _ H) as (E1 & E2 & _).
  unfold apr_queue_size. rewrite (qi_len _ _ (ow_queue _ _ _ _ _ _ H)), (qi_len _ _ (ow_logq _ _ _ _ _ _ H)).
  unfold zlen. lia.
Qed.

Lemma flush_dtmf_ok s a hungup : dtmf_is s a ->
  exists s', switch_channel_flush_dtmf hungup s = Ret (Some s') /\ dtmf_is s' (a_flush hungup a).
Proof.
  intros (ps & ls & hs & H & El & Ev). unfold switch_channel_flush_dtmf.
  rewrite (proj1 (owns_size _ _ _ _ _ _ H)). unfold zlen. rewrite Nat2Z.id.
  destruct (flush_loop_ok hungup _ _ _ _ _ _ H) as (s1 & ls1 & E1 & H1 & Ev1).
  exists s1. split; [done|]. exists [], ls1, hs. split_and!; try done. by rewrite Ev1.
Qed.

Lemma drain_log_ok gs : forall s ls hs, owns s [] gs [] ls hs ->
  exists s', drain_log (length gs) s = Ret (Some s') /\ owns s' [] [] [] [] hs.
Proof.
  induction gs as [|d gs IH]; intros s ls hs H.
  - assert (ls = []) as -> by (destruct (owns_lengths _ _ _ _ _ _ H) as (_ & Hl & _); by destruct ls).
    cbn [length drain_log]. rewrite trypop_empty by apply H. cbn [rbind]. rewrite decide_False by done.
    eexists. split; [done|]. by destruct s.
  - pose proof (ow_log _ _ _ _ _ _ H) as Hg. destruct ls as [|p ls]; [done|]. simpl in Hg. injection Hg as Hp Hg.
    destruct (trypop_cons _ _ _ (ow_logq _ _ _ _ _ _ H)) as (q & Epop & Hq & Eb).
    cbn [length drain_log]. rewrite Epop. cbn [rbind]. rewrite decide_True by done. cbn [or_ub rbind].
    assert (H1 : owns (s <| dtmf_log_queue := q |>) [] gs [] ls (p :: hs)).
    { eapply owns_move; [exact H|..]; try done; try apply H.
      - simpl. rewrite Eb. apply H.
      - simpl. by rewrite Permutation_middle. }
    destruct (owns_free _ _ _ _ _ _ _ H1) as (s2 & -> & H2 & _). cbn [rbind]. by eapply IH.
Qed.

(** ** Sequences of operations *)
Inductive dtmf_op :=
| QueueDtmf (runtime : dtmf_runtime) (recv : switch_status) (sensitive : bool) (d : switch_dtmf)
| DequeueDtmf (runtime : dtmf_runtime) (divert : bool)
| DequeueString (runtime : dtmf_runtime) (divert : bool) (len : Z)
| FlushDtmf (hungup : bool).

Inductive dtmf_out := OStatus (st : switch_status) | ODigit (d : option switch_dtmf) | OString (ds : list Z) | ONone.

Definition exec_dtmf (op : dtmf_op) (s : dtmf_state) : res (option (dtmf_state * dtmf_out)) :=
  match op with
  | QueueDtmf rt recv sens d => '(s, st) <-! switch_channel_queue_dtmf rt recv sens d s;; Ret (Some (s, OStatus st))
  | DequeueDtmf rt divert => '(s, d, _) <-! switch_channel_dequeue_dtmf rt divert s;; Ret (Some (s, ODigit d))
  | DequeueString rt divert len =>
    '(s, ds) <-! switch_channel_dequeue_dtmf_string rt divert len s;; Ret (Some (s, OString ds))
  | FlushDtmf hungup => s <-! switch_channel_flush_dtmf hungup s;; Ret ((fun s => (s, ONone)) <$> s)
  end.

Definition a_exec (op : dtmf_op) (a : adtmf) : adtmf * dtmf_out :=
  match op with
  | QueueDtmf rt recv sens d => let '(a, st) := a_queue rt recv sens d a in (a, OStatus st)
  | DequeueDtmf rt divert => let '(a, d) := a_dequeue rt divert a in (a, ODigit d)
  | DequeueString rt divert len =>
    let '(a, ds) := a_string rt divert (Z.to_nat (u64 (len - 1))) a in (a, OString ds)
  | FlushDtmf hungup => (a_flush hungup a, ONone)
  end.

Fixpoint exec_dtmf_ops (ops : list dtmf_op) (s : dtmf_state) : res (option (dtmf_state * list dtmf_out)) :=
  match ops with
  | [] => Ret (Some (s, []))
  | op :: ops =>
    r <-! exec_dtmf op s;;
    match r with
    | Some (s, o) =>
      r <-! exec_dtmf_ops ops s;; Ret ((fun '(s, os) => (s, o :: os)) <$> r)
    | None => Ret None
    end
  end.
Fixpoint a_exec_ops (ops : list dtmf_op) (a : adtmf) : adtmf * list dtmf_out :=
  match ops with
  | [] => (a, [])
  | op :: ops => let '(a, o) := a_exec op a in let '(a, os) := a_exec_ops ops a in (a, o :: os)
  end.

Lemma exec_dtmf_ok op s a : dtmf_is s a ->
  exists s', exec_dtmf op s = Ret (Some (s', (a_exec op a).2)) /\ dtmf_is s' (a_exec op a).1.
Proof.
  intros H. destruct op as [rt recv sens d|rt divert|rt divert len|hungup]; simpl.
  - destruct (queue_dtmf_ok s a rt recv sens d H) as (s1 & -> & H1).
    destruct (a_queue rt recv sens d a). by exists s1.
  - destruct (dequeue_dtmf_ok s a rt divert H) as (s1 & -> & H1).
    destruct (a_dequeue rt divert a). by exists s1.
  - unfold switch_channel_dequeue_dtmf_string.
    destruct (dequeue_loop_ok rt divert (Z.to_nat (u64 (len - 1))) s a H) as (s1 & -> & H1).
    destruct (a_string rt divert (Z.to_nat (u64 (len - 1))) a). by exists s1.
  - destruct (flush_dtmf_ok s a hungup H) as (s1 & -> & H1). by exists s1.
Qed.

Lemma exec_dtmf_ops_ok ops : forall s a, dtmf_is s a ->
  exists s', exec_dtmf_ops ops s = Ret (Some (s', (a_exec_ops ops a).2)) /\ dtmf_is s' (a_exec_ops ops a).1.
Proof.
  induction ops as [|op ops IH]; intros s a H; simpl; [by exists s|].
  destruct (exec_dtmf_ok op s a H) as (s1 & -> & H1). destruct (a_exec op a) as [a1 o]. cbn [rbind fst snd] in *.
  destruct (IH s1 a1 H1) as (s2 & -> & H2). destruct (a_exec_ops ops a1) as [a2 os]. by exists s2.
Qed.

Definition a_init : adtmf := mk_adtmf [] [] 0 [].
Lemma a_init_is : dtmf_is dtmf_alloc a_init.
Proof. exists [], [], []. split; [apply dtmf_alloc_owns|done]. Qed.

(** The digits an operation moves on to the log: those it reads, but for
    sensitive ones, and those a flush of a channel that did not hang up finds. *)
Definition for_log (ds : list switch_dtmf) : list switch_dtmf := List.filter (fun d => negb (is_sensitive d)) ds.
Definition moved_on (op : dtmf_op) (a : adtmf) : list switch_dtmf :=
  match op with
  | QueueDtmf _ _ _ _ => []
  | DequeueDtmf _ _ => for_log (take 1 (a_wait a))
  | DequeueString _ _ len => for_log (take (Z.to_nat (u64 (len - 1))) (a_wait a))
  | FlushDtmf hungup => if hungup then [] else a_wait a
  end.
Fixpoint all_moved_on (ops : list dtmf_op) (a : adtmf) : list switch_dtmf :=
  match ops with
  | [] => []
  | op :: ops => moved_on op a ++ all_moved_on ops (a_exec op a).1
  end.

Lemma a_string_log rt divert n : forall a, (length (a_log a) <= capacity)%nat ->
  a_log (a_string rt divert n a).1 = take capacity (a_log a ++ for_log (take n (a_wait a))).
Proof.
  induction n as [|n IH]; intros a Ha; simpl; [by rewrite app_nil_r, take_ge|].
  unfold a_dequeue. destruct (a_wait a) as [|d ds] eqn:Ew; simpl; [by rewrite app_nil_r, take_ge|].
  destruct (is_sensitive d) eqn:Es; simpl.
  - pose proof (IH (mk_adtmf ds (a_log a) (S (a_lost a)) (a_events a)) Ha) as E.
    destruct (a_string rt divert n _). exact E.
  - match goal with |- context [a_string rt divert n ?b] => pose proof (IH b) as E end.
    destruct (a_string rt divert n _). simpl in *. rewrite E by (rewrite length_take; lia).
    by rewrite take_take_app, <- app_assoc.
Qed.

Lemma a_exec_log op a : (length (a_log a) <= capacity)%nat ->
  a_log (a_exec op a).1 = take capacity (a_log a ++ moved_on op a).
Proof.
  intros Ha. destruct op as [rt recv sens d|rt divert|rt divert len|hungup]; simpl.
  - unfold a_queue. repeat case_match; simpl; simplify_eq; by rewrite app_nil_r, take_ge.
  - pose proof (a_string_log rt divert 1 a Ha) as E. simpl in E.
    destruct (a_dequeue rt divert a) as [a1 [d|]]; exact E.
  - pose proof (a_string_log rt divert (Z.to_nat (u64 (len - 1))) a Ha) as E.
    destruct (a_string rt divert _ a). exact E.
  - destruct hungup; [by rewrite app_nil_r, take_ge|done].
Qed.

Lemma a_exec_ops_log ops : forall a, (length (a_log a) <= capacity)%nat ->
  a_log (a_exec_ops ops a).1 = take capacity (a_log a ++ all_moved_on ops a).
Proof.
  induction ops as [|op ops IH]; intros a Ha; simpl; [by rewrite app_nil_r, take_ge|].
  pose proof (a_exec_log op a Ha) as E. destruct (a_exec op a) as [a1 o]. simpl in *.
  pose proof (IH a1) as E2. destruct (a_exec_ops ops a1) as [a2 os]. simpl in *.
  rewrite E2, E, take_take_app, <- app_assoc; [done|]. rewrite E, length_take. lia.
Qed.

(** The digits a queue of the channel holds, in their order. *)
Definition holds_digits (s : dtmf_state) (q : apr_queue nat) (ds : list switch_dtmf) : Prop :=
  exists ps, queue_is q ps /\ cells (heap s) ps = map Some ds.

(** C15: the digit queue of a channel is a queue that keeps the newest 1000
    digits, and the log one that keeps the oldest 1000.  Any sequence of
    operations on a new channel ends, never frees a digit twice or reads a
    freed one, and answers and announces as a queue does that forgets its oldest
    digit when it holds 1000 and another one comes.  The digit queue holds the
    digits of that queue, and [switch_channel_has_dtmf] is their number; the log
    holds the first 1000 of all digits that were moved on to it: the digits read,
    but for sensitive ones, and the digits flushed before a hangup. *)
Theorem dtmf_queue_refines (ops : list dtmf_op) :
  let a := (a_exec_ops ops a_init).1 in
  exists s, exec_dtmf_ops ops dtmf_alloc = Ret (Some (s, (a_exec_ops ops a_init).2)) /\
    switch_channel_has_dtmf s = zlen (a_wait a) /\ zlen (a_wait a) <= SWITCH_DTMF_LOG_LEN /\
    dtmf_events s = a_events a /\
    holds_digits s (dtmf_queue s) (a_wait a) /\
    holds_digits s (dtmf_log_queue s) (take (Z.to_nat SWITCH_DTMF_LOG_LEN) (all_moved_on ops a_init)).
Proof.
  cbv zeta. destruct (exec_dtmf_ops_ok ops _ _ a_init_is) as (s & E & ps & ls & hs & H & _ & Ev).
  exists s. split; [done|]. split; [apply (owns_size _ _ _ _ _ _ H)|].
  destruct (owns_lengths _ _ _ _ _ _ H) as (_ & _ & Hc & _). split_and!.
  - unfold zlen, capacity, SWITCH_DTMF_LOG_LEN in *. lia.
  - done.
  - exists ps. split; apply H.
  - exists ls. split; [apply H|]. rewrite (ow_log _ _ _ _ _ _ H), a_exec_ops_log by (simpl; lia). done.
Qed.

(** Memory: at any time the digits on the heap are those that wait, those
    in the log, and one for each sensitive digit that was read, which
    [switch_channel_dequeue_dtmf] neither logs nor frees.  After
    [switch_channel_uninit] the latter are all that is left. *)
Theorem dtmf_memory (ops : list dtmf_op) (hungup : bool) :
  exists s os s', exec_dtmf_ops ops dtmf_alloc = Ret (Some (s, os)) /\
    (let a := (a_exec_ops ops a_init).1 in
     size (heap s) = (length (a_wait a) + length (a_log a) + a_lost a)%nat /\
     uninit_dtmf hungup s = Ret (Some s') /\ size (heap s') = a_lost a).
Proof.
  destruct (exec_dtmf_ops_ok ops _ _ a_init_is) as (s & E & Hs).
  destruct (flush_dtmf_ok s _ hungup Hs) as (s1 & E1 & ps1 & ls1 & hs1 & H1 & El1 & _).
  destruct Hs as (ps & ls & hs & H & El & _).
  assert (ps1 = []) as -> by (destruct (owns_lengths _ _ _ _ _ _ H1) as (Hl & _); by destruct ps1).
  destruct (drain_log_ok _ _ _ _ H1) as (s2 & E2 & H2).
  exists s, (a_exec_ops ops a_init).2, s2. split; [done|]. cbv zeta. split_and!.
  - rewrite <- El. by apply (owns_heap_size _ _ _ _ _ _ H).
  - unfold uninit_dtmf. rewrite E1. cbn [rbind]. rewrite (proj2 (owns_size _ _ _ _ _ _ H1)).
    unfold zlen. by rewrite Nat2Z.id.
  - rewrite (owns_heap_size _ _ _ _ _ _ H2), El1. done.
Qed.

(** ** Durations *)
Inductive duration_call := CallMax (d : Z) | CallDefault (d : Z) | CallMin (d : Z).
Definition set_duration (runtime : dtmf_runtime) (c : duration_call) : dtmf_runtime :=
  match c with
  | CallMax d => (switch_core_max_dtmf_duration runtime (u32 d)).1
  | CallDefault d => (switch_core_default_dtmf_duration runtime (u32 d)).1
  | CallMin d => (switch_core_min_dtmf_duration runtime (u32 d)).1
  end.
Definition set_durations (cs : list duration_call) : dtmf_runtime :=
  fold_left set_duration cs dtmf_runtime_init.

Record durations_ok (r : dtmf_runtime) : Prop := {
  dr_min : SWITCH_MIN_DTMF_DURATION <= min_dtmf_duration r;
  dr_order : min_dtmf_duration r <= max_dtmf_duration r;
  dr_max : max_dtmf_duration r <= SWITCH_MAX_DTMF_DURATION;
  dr_default : SWITCH_MIN_DTMF_DURATION <= default_dtmf_duration r <= SWITCH_MAX_DTMF_DURATION
}.

Lemma set_duration_ok r c : durations_ok r -> durations_ok (set_duration r c).
Proof.
  intros [H1 H2 H3 H4].
  destruct c; unfold set_duration, switch_core_max_dtmf_duration, switch_core_default_dtmf_duration,
    switch_core_min_dtmf_duration, SWITCH_MIN_DTMF_DURATION, SWITCH_MAX_DTMF_DURATION in *;
    rewrite ?Z.gtb_ltb; simpl;
    repeat (case_inner_if; boolify; simpl in * ); split;
    unfold SWITCH_MIN_DTMF_DURATION, SWITCH_MAX_DTMF_DURATION; simpl; lia.
Qed.

(** Whatever durations are configured, the minimum never exceeds the
    maximum, all three settings stay within the fixed limits, and the duration
    of every digit read from a channel lies between minimum and maximum. *)
Theorem dtmf_duration_bounds (cs : list duration_call) (d : switch_dtmf) :
  let r := set_durations cs in
  durations_ok r /\
  min_dtmf_duration r <= duration (dequeue_duration r d) <= max_dtmf_duration r.
Proof.
  intros r. assert (Hr : durations_ok r).
  { subst r. unfold set_durations. assert (H : durations_ok dtmf_runtime_init) by done.
    revert H. generalize dtmf_runtime_init.
    induction cs as [|c cs IH]; intros r H; simpl; [done|]. by apply IH, set_duration_ok. }
  split; [done|]. destruct Hr as [H1 H2 H3 H4]. unfold dequeue_duration. rewrite Z.gtb_ltb.
  repeat (case_inner_if; boolify); simpl; unfold SWITCH_MIN_DTMF_DURATION in *; lia.
Qed.

(** The default may be left above the maximum: lowering the maximum does not
    touch it, and a pause digit without a duration is then queued with more
    than the maximum. *)
Lemma default_duration_above_max :
  let r := set_durations [CallMax 1000] in
  max_dtmf_duration r < default_dtmf_duration r /\
  duration (queue_duration r (mk_dtmf 119 0 0 SWITCH_DTMF_APP)) = 2000.
Proof. split; vm_compute; reflexivity. Qed.

(** 1001 digits leave the newest 1000; the digit read comes back with the
    shortest duration; a sensitive one is not announced. *)
Lemma dtmf_queue_example :
  let rt := dtmf_runtime_init in
  let ops := replicate 1001 (QueueDtmf rt SWITCH_STATUS_SUCCESS false (mk_dtmf 49 100 0 SWITCH_DTMF_RTP))
    ++ [QueueDtmf rt SWITCH_STATUS_GENERR false (mk_dtmf 50 100 0 SWITCH_DTMF_RTP); DequeueDtmf rt false] in
  (length (a_wait (a_exec_ops ops a_init).1) = 999%nat) /\
  last (a_exec_ops ops a_init).2 = Some (ODigit (Some (mk_dtmf 49 400 0 SWITCH_DTMF_RTP))).
Proof. split; vm_compute; reflexivity. Qed.
