(* ===== verification/ChannelNames.v ===== *)
(** * ChannelNames: names of causes, call states and channel states

    The tables of src/switch_channel.c and the functions that search them, with
    the enumerations of include/switch_types.h.  A string is the list of its
    bytes; comparison is [strcasecmp] in the C locale. *)
From S2P Require Import Prelude HashTable CoreHash.
From Stdlib Require Import ZArith Lia Init.Byte.
From stdpp Require Import base numbers option strings list.

Local Open Scope Z_scope.

(** ** Data *)
Definition str (s : String.string) : cstring := String.list_byte_of_string s.
Arguments str s%_string_scope.

(** [switch_call_cause_t] *)
Definition SWITCH_CAUSE_NONE : Z := 0.
Definition SWITCH_CAUSE_UNALLOCATED_NUMBER : Z := 1.
Definition SWITCH_CAUSE_NO_ROUTE_TRANSIT_NET : Z := 2.
Definition SWITCH_CAUSE_NO_ROUTE_DESTINATION : Z := 3.
Definition SWITCH_CAUSE_CHANNEL_UNACCEPTABLE : Z := 6.
Definition SWITCH_CAUSE_CALL_AWARDED_DELIVERED : Z := 7.
Definition SWITCH_CAUSE_NORMAL_CLEARING : Z := 16.
Definition SWITCH_CAUSE_USER_BUSY : Z := 17.
Definition SWITCH_CAUSE_NO_USER_RESPONSE : Z := 18.
Definition SWITCH_CAUSE_NO_ANSWER : Z := 19.
Definition SWITCH_CAUSE_SUBSCRIBER_ABSENT : Z := 20.
Definition SWITCH_CAUSE_CALL_REJECTED : Z := 21.
Definition SWITCH_CAUSE_NUMBER_CHANGED : Z := 22.
Definition SWITCH_CAUSE_REDIRECTION_TO_NEW_DESTINATION : Z := 23.
Definition SWITCH_CAUSE_EXCHANGE_ROUTING_ERROR : Z := 25.
Definition SWITCH_CAUSE_DESTINATION_OUT_OF_ORDER : Z := 27.
Definition SWITCH_CAUSE_INVALID_NUMBER_FORMAT : Z := 28.
Definition SWITCH_CAUSE_FACILITY_REJECTED : Z := 29.
Definition SWITCH_CAUSE_RESPONSE_TO_STATUS_ENQUIRY : Z := 30.
Definition SWITCH_CAUSE_NORMAL_UNSPECIFIED : Z := 31.
Definition SWITCH_CAUSE_NORMAL_CIRCUIT_CONGESTION : Z := 34.
Definition SWITCH_CAUSE_NETWORK_OUT_OF_ORDER : Z := 38.
Definition SWITCH_CAUSE_NORMAL_TEMPORARY_FAILURE : Z := 41.
Definition SWITCH_CAUSE_SWITCH_CONGESTION : Z := 42.
Definition SWITCH_CAUSE_ACCESS_INFO_DISCARDED : Z := 43.
Definition SWITCH_CAUSE_REQUESTED_CHAN_UNAVAIL : Z := 44.
Definition SWITCH_CAUSE_PRE_EMPTED : Z := 45.
Definition SWITCH_CAUSE_FACILITY_NOT_SUBSCRIBED : Z := 50.
Definition SWITCH_CAUSE_OUTGOING_CALL_BARRED : Z := 52.
Definition SWITCH_CAUSE_INCOMING_CALL_BARRED : Z := 54.
Definition SWITCH_CAUSE_BEARERCAPABILITY_NOTAUTH : Z := 57.
Definition SWITCH_CAUSE_BEARERCAPABILITY_NOTAVAIL : Z := 58.
Definition SWITCH_CAUSE_SERVICE_UNAVAILABLE : Z := 63.
Definition SWITCH_CAUSE_BEARERCAPABILITY_NOTIMPL : Z := 65.
Definition SWITCH_CAUSE_CHAN_NOT_IMPLEMENTED : Z := 66.
Definition SWITCH_CAUSE_FACILITY_NOT_IMPLEMENTED : Z := 69.
Definition SWITCH_CAUSE_SERVICE_NOT_IMPLEMENTED : Z := 79.
Definition SWITCH_CAUSE_INVALID_CALL_REFERENCE : Z := 81.
Definition SWITCH_CAUSE_INCOMPATIBLE_DESTINATION : Z := 88.
Definition SWITCH_CAUSE_INVALID_MSG_UNSPECIFIED : Z := 95.
Definition SWITCH_CAUSE_MANDATORY_IE_MISSING : Z := 96.
Definition SWITCH_CAUSE_MESSAGE_TYPE_NONEXIST : Z := 97.
Definition SWITCH_CAUSE_WRONG_MESSAGE : Z := 98.
Definition SWITCH_CAUSE_IE_NONEXIST : Z := 99.
Definition SWITCH_CAUSE_INVALID_IE_CONTENTS : Z := 100.
Definition SWITCH_CAUSE_WRONG_CALL_STATE : Z := 101.
Definition SWITCH_CAUSE_RECOVERY_ON_TIMER_EXPIRE : Z := 102.
Definition SWITCH_CAUSE_MANDATORY_IE_LENGTH_ERROR : Z := 103.
Definition SWITCH_CAUSE_PROTOCOL_ERROR : Z := 111.
Definition SWITCH_CAUSE_INTERWORKING : Z := 127.
Definition SWITCH_CAUSE_SUCCESS : Z := 142.
Definition SWITCH_CAUSE_ORIGINATOR_CANCEL : Z := 487.
Definition SWITCH_CAUSE_CRASH : Z := 500.
Definition SWITCH_CAUSE_SYSTEM_SHUTDOWN : Z := 501.
Definition SWITCH_CAUSE_LOSE_RACE : Z := 502.
Definition SWITCH_CAUSE_MANAGER_REQUEST : Z := 503.
Definition SWITCH_CAUSE_BLIND_TRANSFER : Z := 600.
Definition SWITCH_CAUSE_ATTENDED_TRANSFER : Z := 601.
Definition SWITCH_CAUSE_ALLOTTED_TIMEOUT : Z := 602.
Definition SWITCH_CAUSE_USER_CHALLENGE : Z := 603.
Definition SWITCH_CAUSE_MEDIA_TIMEOUT : Z := 604.
Definition SWITCH_CAUSE_PICKED_OFF : Z := 605.
Definition SWITCH_CAUSE_USER_NOT_REGISTERED : Z := 606.
Definition SWITCH_CAUSE_PROGRESS_TIMEOUT : Z := 607.
Definition SWITCH_CAUSE_INVALID_GATEWAY : Z := 608.
Definition SWITCH_CAUSE_GATEWAY_DOWN : Z := 609.
Definition SWITCH_CAUSE_INVALID_URL : Z := 610.
Definition SWITCH_CAUSE_INVALID_PROFILE : Z := 611.
Definition SWITCH_CAUSE_NO_PICKUP : Z := 612.
Definition SWITCH_CAUSE_SRTP_READ_ERROR : Z := 613.
Definition SWITCH_CAUSE_BOWOUT : Z := 614.
Definition SWITCH_CAUSE_BUSY_EVERYWHERE : Z := 615.
Definition SWITCH_CAUSE_DECLINE : Z := 616.
Definition SWITCH_CAUSE_DOES_NOT_EXIST_ANYWHERE : Z := 617.
Definition SWITCH_CAUSE_NOT_ACCEPTABLE : Z := 618.
Definition SWITCH_CAUSE_UNWANTED : Z := 619.

Definition call_causes : list Z :=
  [SWITCH_CAUSE_NONE;
   SWITCH_CAUSE_UNALLOCATED_NUMBER;
   SWITCH_CAUSE_NO_ROUTE_TRANSIT_NET;
   SWITCH_CAUSE_NO_ROUTE_DESTINATION;
   SWITCH_CAUSE_CHANNEL_UNACCEPTABLE;
   SWITCH_CAUSE_CALL_AWARDED_DELIVERED;
   SWITCH_CAUSE_NORMAL_CLEARING;
   SWITCH_CAUSE_USER_BUSY;
   SWITCH_CAUSE_NO_USER_RESPONSE;
   SWITCH_CAUSE_NO_ANSWER;
   SWITCH_CAUSE_SUBSCRIBER_ABSENT;
   SWITCH_CAUSE_CALL_REJECTED;
   SWITCH_CAUSE_NUMBER_CHANGED;
   SWITCH_CAUSE_REDIRECTION_TO_NEW_DESTINATION;
   SWITCH_CAUSE_EXCHANGE_ROUTING_ERROR;
   SWITCH_CAUSE_DESTINATION_OUT_OF_ORDER;
   SWITCH_CAUSE_INVALID_NUMBER_FORMAT;
   SWITCH_CAUSE_FACILITY_REJECTED;
   SWITCH_CAUSE_RESPONSE_TO_STATUS_ENQUIRY;
   SWITCH_CAUSE_NORMAL_UNSPECIFIED;
   SWITCH_CAUSE_NORMAL_CIRCUIT_CONGESTION;
   SWITCH_CAUSE_NETWORK_OUT_OF_ORDER;
   SWITCH_CAUSE_NORMAL_TEMPORARY_FAILURE;
   SWITCH_CAUSE_SWITCH_CONGESTION;
   SWITCH_CAUSE_ACCESS_INFO_DISCARDED;
   SWITCH_CAUSE_REQUESTED_CHAN_UNAVAIL;
   SWITCH_CAUSE_PRE_EMPTED;
   SWITCH_CAUSE_FACILITY_NOT_SUBSCRIBED;
   SWITCH_CAUSE_OUTGOING_CALL_BARRED;
   SWITCH_CAUSE_INCOMING_CALL_BARRED;
   SWITCH_CAUSE_BEARERCAPABILITY_NOTAUTH;
   SWITCH_CAUSE_BEARERCAPABILITY_NOTAVAIL;
   SWITCH_CAUSE_SERVICE_UNAVAILABLE;
   SWITCH_CAUSE_BEARERCAPABILITY_NOTIMPL;
   SWITCH_CAUSE_CHAN_NOT_IMPLEMENTED;
   SWITCH_CAUSE_FACILITY_NOT_IMPLEMENTED;
   SWITCH_CAUSE_SERVICE_NOT_IMPLEMENTED;
   SWITCH_CAUSE_INVALID_CALL_REFERENCE;
   SWITCH_CAUSE_INCOMPATIBLE_DESTINATION;
   SWITCH_CAUSE_INVALID_MSG_UNSPECIFIED;
   SWITCH_CAUSE_MANDATORY_IE_MISSING;
   SWITCH_CAUSE_MESSAGE_TYPE_NONEXIST;
   SWITCH_CAUSE_WRONG_MESSAGE;
   SWITCH_CAUSE_IE_NONEXIST;
   SWITCH_CAUSE_INVALID_IE_CONTENTS;
   SWITCH_CAUSE_WRONG_CALL_STATE;
   SWITCH_CAUSE_RECOVERY_ON_TIMER_EXPIRE;
   SWITCH_CAUSE_MANDATORY_IE_LENGTH_ERROR;
   SWITCH_CAUSE_PROTOCOL_ERROR;
   SWITCH_CAUSE_INTERWORKING;
   SWITCH_CAUSE_SUCCESS;
   SWITCH_CAUSE_ORIGINATOR_CANCEL;
   SWITCH_CAUSE_CRASH;
   SWITCH_CAUSE_SYSTEM_SHUTDOWN;
   SWITCH_CAUSE_LOSE_RACE;
   SWITCH_CAUSE_MANAGER_REQUEST;
   SWITCH_CAUSE_BLIND_TRANSFER;
   SWITCH_CAUSE_ATTENDED_TRANSFER;
   SWITCH_CAUSE_ALLOTTED_TIMEOUT;
   SWITCH_CAUSE_USER_CHALLENGE;
   SWITCH_CAUSE_MEDIA_TIMEOUT;
   SWITCH_CAUSE_PICKED_OFF;
   SWITCH_CAUSE_USER_NOT_REGISTERED;
   SWITCH_CAUSE_PROGRESS_TIMEOUT;
   SWITCH_CAUSE_INVALID_GATEWAY;
   SWITCH_CAUSE_GATEWAY_DOWN;
   SWITCH_CAUSE_INVALID_URL;
   SWITCH_CAUSE_INVALID_PROFILE;
   SWITCH_CAUSE_NO_PICKUP;
   SWITCH_CAUSE_SRTP_READ_ERROR;
   SWITCH_CAUSE_BOWOUT;
   SWITCH_CAUSE_BUSY_EVERYWHERE;
   SWITCH_CAUSE_DECLINE;
   SWITCH_CAUSE_DOES_NOT_EXIST_ANYWHERE;
   SWITCH_CAUSE_NOT_ACCEPTABLE;
   SWITCH_CAUSE_UNWANTED].

(** [CAUSE_CHART], less the terminating entry *)
Definition CAUSE_CHART : list (cstring * Z) :=
  [(str "NONE", SWITCH_CAUSE_NONE);
   (str "UNALLOCATED_NUMBER", SWITCH_CAUSE_UNALLOCATED_NUMBER);
   (str "NO_ROUTE_TRANSIT_NET", SWITCH_CAUSE_NO_ROUTE_TRANSIT_NET);
   (str "NO_ROUTE_DESTINATION", SWITCH_CAUSE_NO_ROUTE_DESTINATION);
   (str "CHANNEL_UNACCEPTABLE", SWITCH_CAUSE_CHANNEL_UNACCEPTABLE);
   (str "CALL_AWARDED_DELIVERED", SWITCH_CAUSE_CALL_AWARDED_DELIVERED);
   (str "NORMAL_CLEARING", SWITCH_CAUSE_NORMAL_CLEARING);
   (str "USER_BUSY", SWITCH_CAUSE_USER_BUSY);
   (str "NO_USER_RESPONSE", SWITCH_CAUSE_NO_USER_RESPONSE);
   (str "NO_ANSWER", SWITCH_CAUSE_NO_ANSWER);
   (str "SUBSCRIBER_ABSENT", SWITCH_CAUSE_SUBSCRIBER_ABSENT);
   (str "CALL_REJECTED", SWITCH_CAUSE_CALL_REJECTED);
   (str "NUMBER_CHANGED", SWITCH_CAUSE_NUMBER_CHANGED);
   (str "REDIRECTION_TO_NEW_DESTINATION", SWITCH_CAUSE_REDIRECTION_TO_NEW_DESTINATION);
   (str "EXCHANGE_ROUTING_ERROR", SWITCH_CAUSE_EXCHANGE_ROUTING_ERROR);
   (str "DESTINATION_OUT_OF_ORDER", SWITCH_CAUSE_DESTINATION_OUT_OF_ORDER);
   (str "INVALID_NUMBER_FORMAT", SWITCH_CAUSE_INVALID_NUMBER_FORMAT);
   (str "FACILITY_REJECTED", SWITCH_CAUSE_FACILITY_REJECTED);
   (str "RESPONSE_TO_STATUS_ENQUIRY", SWITCH_CAUSE_RESPONSE_TO_STATUS_ENQUIRY);
   (str "NORMAL_UNSPECIFIED", SWITCH_CAUSE_NORMAL_UNSPECIFIED);
   (str "NORMAL_CIRCUIT_CONGESTION", SWITCH_CAUSE_NORMAL_CIRCUIT_CONGESTION);
   (str "NETWORK_OUT_OF_ORDER", SWITCH_CAUSE_NETWORK_OUT_OF_ORDER);
   (str "NORMAL_TEMPORARY_FAILURE", SWITCH_CAUSE_NORMAL_TEMPORARY_FAILURE);
   (str "SWITCH_CONGESTION", SWITCH_CAUSE_SWITCH_CONGESTION);
   (str "ACCESS_INFO_DISCARDED", SWITCH_CAUSE_ACCESS_INFO_DISCARDED);
   (str "REQUESTED_CHAN_UNAVAIL", SWITCH_CAUSE_REQUESTED_CHAN_UNAVAIL);
   (str "PRE_EMPTED", SWITCH_CAUSE_PRE_EMPTED);
   (str "FACILITY_NOT_SUBSCRIBED", SWITCH_CAUSE_FACILITY_NOT_SUBSCRIBED);
   (str "OUTGOING_CALL_BARRED", SWITCH_CAUSE_OUTGOING_CALL_BARRED);
   (str "INCOMING_CALL_BARRED", SWITCH_CAUSE_INCOMING_CALL_BARRED);
   (str "BEARERCAPABILITY_NOTAUTH", SWITCH_CAUSE_BEARERCAPABILITY_NOTAUTH);
   (str "BEARERCAPABILITY_NOTAVAIL", SWITCH_CAUSE_BEARERCAPABILITY_NOTAVAIL);
   (str "SERVICE_UNAVAILABLE", SWITCH_CAUSE_SERVICE_UNAVAILABLE);
   (str "BEARERCAPABILITY_NOTIMPL", SWITCH_CAUSE_BEARERCAPABILITY_NOTIMPL);
   (str "CHAN_NOT_IMPLEMENTED", SWITCH_CAUSE_CHAN_NOT_IMPLEMENTED);
   (str "FACILITY_NOT_IMPLEMENTED", SWITCH_CAUSE_FACILITY_NOT_IMPLEMENTED);
   (str "SERVICE_NOT_IMPLEMENTED", SWITCH_CAUSE_SERVICE_NOT_IMPLEMENTED);
   (str "INVALID_CALL_REFERENCE", SWITCH_CAUSE_INVALID_CALL_REFERENCE);
   (str "INCOMPATIBLE_DESTINATION", SWITCH_CAUSE_INCOMPATIBLE_DESTINATION);
   (str "INVALID_MSG_UNSPECIFIED", SWITCH_CAUSE_INVALID_MSG_UNSPECIFIED);
   (str "MANDATORY_IE_MISSING", SWITCH_CAUSE_MANDATORY_IE_MISSING);
   (str "MESSAGE_TYPE_NONEXIST", SWITCH_CAUSE_MESSAGE_TYPE_NONEXIST);
   (str "WRONG_MESSAGE", SWITCH_CAUSE_WRONG_MESSAGE);
   (str "IE_NONEXIST", SWITCH_CAUSE_IE_NONEXIST);
   (str "INVALID_IE_CONTENTS", SWITCH_CAUSE_INVALID_IE_CONTENTS);
   (str "WRONG_CALL_STATE", SWITCH_CAUSE_WRONG_CALL_STATE);
   (str "RECOVERY_ON_TIMER_EXPIRE", SWITCH_CAUSE_RECOVERY_ON_TIMER_EXPIRE);
   (str "MANDATORY_IE_LENGTH_ERROR", SWITCH_CAUSE_MANDATORY_IE_LENGTH_ERROR);
   (str "PROTOCOL_ERROR", SWITCH_CAUSE_PROTOCOL_ERROR);
   (str "INTERWORKING", SWITCH_CAUSE_INTERWORKING);
   (str "SUCCESS", SWITCH_CAUSE_SUCCESS);
   (str "ORIGINATOR_CANCEL", SWITCH_CAUSE_ORIGINATOR_CANCEL);
   (str "CRASH", SWITCH_CAUSE_CRASH);
   (str "SYSTEM_SHUTDOWN", SWITCH_CAUSE_SYSTEM_SHUTDOWN);
   (str "LOSE_RACE", SWITCH_CAUSE_LOSE_RACE);
   (str "MANAGER_REQUEST", SWITCH_CAUSE_MANAGER_REQUEST);
   (str "BLIND_TRANSFER", SWITCH_CAUSE_BLIND_TRANSFER);
   (str "ATTENDED_TRANSFER", SWITCH_CAUSE_ATTENDED_TRANSFER);
   (str "ALLOTTED_TIMEOUT", SWITCH_CAUSE_ALLOTTED_TIMEOUT);
   (str "USER_CHALLENGE", SWITCH_CAUSE_USER_CHALLENGE);
   (str "MEDIA_TIMEOUT", SWITCH_CAUSE_MEDIA_TIMEOUT);
   (str "PICKED_OFF", SWITCH_CAUSE_PICKED_OFF);
   (str "USER_NOT_REGISTERED", SWITCH_CAUSE_USER_NOT_REGISTERED);
   (str "PROGRESS_TIMEOUT", SWITCH_CAUSE_PROGRESS_TIMEOUT);
   (str "INVALID_GATEWAY", SWITCH_CAUSE_INVALID_GATEWAY);
   (str "GATEWAY_DOWN", SWITCH_CAUSE_GATEWAY_DOWN);
   (str "INVALID_URL", SWITCH_CAUSE_INVALID_URL);
   (str "INVALID_PROFILE", SWITCH_CAUSE_INVALID_PROFILE);
   (str "NO_PICKUP", SWITCH_CAUSE_NO_PICKUP);
   (str "SRTP_READ_ERROR", SWITCH_CAUSE_SRTP_READ_ERROR);
   (str "BOWOUT", SWITCH_CAUSE_BOWOUT);
   (str "BUSY_EVERYWHERE", SWITCH_CAUSE_BUSY_EVERYWHERE);
   (str "DECLINE", SWITCH_CAUSE_DECLINE);
   (str "DOES_NOT_EXIST_ANYWHERE", SWITCH_CAUSE_DOES_NOT_EXIST_ANYWHERE);
   (str "NOT_ACCEPTABLE", SWITCH_CAUSE_NOT_ACCEPTABLE);
   (str "UNWANTED", SWITCH_CAUSE_UNWANTED)].

(** [switch_channel_state_t] *)
Inductive channel_state :=
| CS_NEW
| CS_INIT
| CS_ROUTING
| CS_SOFT_EXECUTE
| CS_EXECUTE
| CS_EXCHANGE_MEDIA
| CS_PARK
| CS_CONSUME_MEDIA
| CS_HIBERNATE
| CS_RESET
| CS_HANGUP
| CS_REPORTING
| CS_DESTROY
| CS_NONE.
#[export] Instance channel_state_eq_dec : EqDecision channel_state.
Proof. solve_decision. Defined.

Definition channel_states : list channel_state :=
  [CS_NEW; CS_INIT; CS_ROUTING; CS_SOFT_EXECUTE; CS_EXECUTE; CS_EXCHANGE_MEDIA; CS_PARK;
   CS_CONSUME_MEDIA; CS_HIBERNATE; CS_RESET; CS_HANGUP; CS_REPORTING; CS_DESTROY; CS_NONE].

(** The number of a state; the code compares states by it. *)
Definition cs_num (s : channel_state) : Z :=
  match s with
  | CS_NEW => 0 | CS_INIT => 1 | CS_ROUTING => 2 | CS_SOFT_EXECUTE => 3 | CS_EXECUTE => 4
  | CS_EXCHANGE_MEDIA => 5 | CS_PARK => 6 | CS_CONSUME_MEDIA => 7 | CS_HIBERNATE => 8
  | CS_RESET => 9 | CS_HANGUP => 10 | CS_REPORTING => 11 | CS_DESTROY => 12 | CS_NONE => 13
  end.

(** [switch_channel_callstate_t] *)
Inductive callstate :=
| CCS_DOWN
| CCS_DIALING
| CCS_RINGING
| CCS_EARLY
| CCS_ACTIVE
| CCS_HELD
| CCS_RING_WAIT
| CCS_HANGUP
| CCS_UNHELD.
#[export] Instance callstate_eq_dec : EqDecision callstate.
Proof. solve_decision. Defined.
Definition ccs_num (s : callstate) : Z :=
  match s with
  | CCS_DOWN => 0 | CCS_DIALING => 1 | CCS_RINGING => 2 | CCS_EARLY => 3 | CCS_ACTIVE => 4
  | CCS_HELD => 5 | CCS_RING_WAIT => 6 | CCS_HANGUP => 7 | CCS_UNHELD => 8
  end.

(** [CALLSTATE_CHART] and [DEVICE_STATE_CHART], less the terminating entries. *)
Definition CALLSTATE_CHART : list (cstring * Z) :=
  [(str "DOWN", ccs_num CCS_DOWN); (str "DIALING", ccs_num CCS_DIALING);
   (str "RINGING", ccs_num CCS_RINGING); (str "EARLY", ccs_num CCS_EARLY);
   (str "ACTIVE", ccs_num CCS_ACTIVE); (str "HELD", ccs_num CCS_HELD);
   (str "RING_WAIT", ccs_num CCS_RING_WAIT); (str "HANGUP", ccs_num CCS_HANGUP);
   (str "UNHELD", ccs_num CCS_UNHELD)].

Definition SDS_DOWN : Z := 0.
Definition SDS_RINGING : Z := 1.
Definition SDS_ACTIVE : Z := 2.
Definition SDS_ACTIVE_MULTI : Z := 3.
Definition SDS_HELD : Z := 4.
Definition SDS_UNHELD : Z := 5.
Definition SDS_HANGUP : Z := 6.
Definition DEVICE_STATE_CHART : list (cstring * Z) :=
  [(str "DOWN", SDS_DOWN); (str "RINGING", SDS_RINGING); (str "ACTIVE", SDS_ACTIVE);
   (str "ACTIVE_MULTI", SDS_ACTIVE_MULTI); (str "HELD", SDS_HELD); (str "UNHELD", SDS_UNHELD);
   (str "HANGUP", SDS_HANGUP)].

(** ** Searches *)

(** The first entry with the number; "UNKNOWN" without one. *)
Definition name_of (chart : list (cstring * Z)) (v : Z) : cstring :=
  match List.find (fun e => snd e =? v) chart with
  | Some e => fst e
  | None => str "UNKNOWN"
  end.

(** The first entry with the name. *)
Definition named (chart : list (cstring * Z)) (s : cstring) : option Z :=
  snd <$> List.find (fun e => switch_hash_equalkeys_ci (fst e) s) chart.

Definition is_digit (c : Byte.byte) : bool := (byte_Z c >? 47) && (byte_Z c <? 58).

(** [atoi] of a string that starts with a digit: the digits up to the first
    other byte; a value that is no [int] is undefined. *)
Fixpoint atoi_digits (s : cstring) (acc : Z) : Z :=
  match s with
  | [] => acc
  | c :: s => if is_digit c then atoi_digits s (acc * 10 + (byte_Z c - 48)) else acc
  end.
Definition atoi (s : cstring) : res Z :=
  let v := atoi_digits s 0 in if v <? 2147483648 then Ret v else Ub.

(** [*str > 47 && *str < 58] *)
Definition starts_with_digit (s : cstring) : bool :=
  match cstr s with [] => false | c :: _ => is_digit c end.

Definition switch_channel_cause2str (cause : Z) : cstring := name_of CAUSE_CHART cause.

Definition switch_channel_str2cause (s : option cstring) : res Z :=
  match s with
  | None => Ret SWITCH_CAUSE_NORMAL_CLEARING
  | Some s =>
    if zlen (cstr s) =? 0 then Ret SWITCH_CAUSE_NORMAL_CLEARING
    else if starts_with_digit s then atoi s
    else Ret (default SWITCH_CAUSE_NORMAL_CLEARING (named CAUSE_CHART s))
  end.

Definition switch_channel_cause_q850 (cause : Z) : Z :=
  if cause <=? SWITCH_CAUSE_INTERWORKING then cause else SWITCH_CAUSE_NORMAL_CLEARING.

Definition switch_channel_callstate2str (cs : callstate) : cstring := name_of CALLSTATE_CHART (ccs_num cs).
Definition switch_channel_device_state2str (ds : Z) : cstring := name_of DEVICE_STATE_CHART ds.

(** A null pointer is read. *)
Definition switch_channel_str2callstate (s : option cstring) : res Z :=
  s <-! or_ub s;;
  if starts_with_digit s then atoi s
  else Ret (default SWITCH_CAUSE_NONE (named CALLSTATE_CHART s)).

(** [state_names], less the terminating entry. *)
Definition state_names : list cstring :=
  [str "CS_NEW"; str "CS_INIT"; str "CS_ROUTING"; str "CS_SOFT_EXECUTE"; str "CS_EXECUTE";
   str "CS_EXCHANGE_MEDIA"; str "CS_PARK"; str "CS_CONSUME_MEDIA"; str "CS_HIBERNATE";
   str "CS_RESET"; str "CS_HANGUP"; str "CS_REPORTING"; str "CS_DESTROY"; str "CS_NONE"].

Definition switch_channel_state_name (state : channel_state) : res cstring :=
  or_ub (state_names !! Z.to_nat (cs_num state)).

(** The states as the loop meets them. *)
Definition switch_channel_name_state (name : cstring) : channel_state :=
  match List.find (fun e => switch_hash_equalkeys_ci (fst e) name) (zip state_names channel_states) with
  | Some e => snd e
  | None => CS_DESTROY
  end.

(** ** Facts *)
Definition folded (s : cstring) : list Z := map (fun c => ascii_lower (byte_Z c)) (cstr s).

Lemma equalkeys_ci_folded a b : switch_hash_equalkeys_ci a b = true <-> folded a = folded b.
Proof. apply bool_decide_eq_true. Qed.

(** In a table with distinct names, a name finds its own entry. *)
Lemma find_named {B} (chart : list (cstring * B)) name v s :
  NoDup (map (fun e => folded (fst e)) chart) -> (name, v) ∈ chart -> folded name = folded s ->
  List.find (fun e => switch_hash_equalkeys_ci (fst e) s) chart = Some (name, v).
Proof.
  intros Hnd Hin Hs. induction chart as [|[n w] chart IH]; [by apply elem_of_nil in Hin|].
  simpl in Hnd |- *. apply NoDup_cons in Hnd as [Hn Hnd].
  apply elem_of_cons in Hin as [[= -> ->]|Hin].
  - by rewrite (proj2 (equalkeys_ci_folded n s) Hs).
  - destruct (switch_hash_equalkeys_ci n s) eqn:E; [|by apply IH].
    apply equalkeys_ci_folded in E. exfalso. apply Hn. rewrite E, <- Hs.
    apply list_elem_of_In, (in_map (fun e => folded (fst e)) chart (name, v)), list_elem_of_In, Hin.
Qed.

Lemma find_numbered (chart : list (cstring * Z)) name v :
  NoDup (map snd chart) -> (name, v) ∈ chart -> name_of chart v = name.
Proof.
  unfold name_of. intros Hnd Hin. induction chart as [|[n w] chart IH]; [by apply elem_of_nil in Hin|].
  simpl in Hnd |- *. apply NoDup_cons in Hnd as [Hn Hnd].
  apply elem_of_cons in Hin as [[= -> ->]|Hin]; [by rewrite Z.eqb_refl|].
  destruct (Z.eqb_spec w v) as [->|_]; [|by apply IH].
  exfalso. apply Hn. apply list_elem_of_In, (in_map snd chart (name, v)), list_elem_of_In, Hin.
Qed.

Lemma is_digit_folded c : is_digit c = ((ascii_lower (byte_Z c) >? 47) && (ascii_lower (byte_Z c) <? 58)).
Proof.
  unfold is_digit, ascii_lower. case_if E; [|done]. boolify.
  rewrite (proj2 (Z.ltb_ge (byte_Z c) 58)) by lia. rewrite (proj2 (Z.ltb_ge (byte_Z c + 32) 58)) by lia.
  by rewrite !andb_false_r.
Qed.

Lemma starts_with_digit_folded a b : folded a = folded b -> starts_with_digit a = starts_with_digit b.
Proof.
  unfold folded, starts_with_digit. destruct (cstr a) as [|c a'], (cstr b) as [|d b']; try done.
  simpl. intros [= E _]. by rewrite !is_digit_folded, E.
Qed.

Lemma folded_zlen a b : folded a = folded b -> zlen (cstr a) = zlen (cstr b).
Proof. intros E%(f_equal length). unfold folded in E. rewrite !length_map in E. unfold zlen. lia. Qed.

(** The tables have distinct names and distinct numbers, all names are
    non-empty and none starts with a digit. *)
Definition chart_ok (chart : list (cstring * Z)) : bool :=
  bool_decide (NoDup (map (fun e => folded (fst e)) chart)) && bool_decide (NoDup (map snd chart))
  && forallb (fun e => negb (zlen (cstr (fst e)) =? 0) && negb (starts_with_digit (fst e))) chart.

Lemma chart_ok_spec chart : chart_ok chart = true ->
  NoDup (map (fun e => folded (fst e)) chart) /\ NoDup (map snd chart) /\
  (forall name v, (name, v) ∈ chart -> (zlen (cstr name) =? 0) = false /\ starts_with_digit name = false).
Proof.
  unfold chart_ok. intros [[H1 H2]%andb_prop H3]%andb_prop.
  split; [by eapply bool_decide_eq_true_1|]. split; [by eapply bool_decide_eq_true_1|].
  intros name v Hin. rewrite forallb_forall in H3.
  pose proof (H3 (name, v) (proj1 (list_elem_of_In _ _) Hin)) as H. cbn [fst] in H.
  apply andb_prop in H as [?%negb_true_iff ?%negb_true_iff]. done.
Qed.

Lemma cause_chart_ok : chart_ok CAUSE_CHART = true.
Proof. vm_compute. reflexivity. Qed.
Lemma callstate_chart_ok : chart_ok CALLSTATE_CHART = true.
Proof. vm_compute. reflexivity. Qed.

(** Names and numbers of hangup causes convert back and forth: every
    enumerated cause is in the table, its name, in any letter case, is read as
    the cause, and the cause is printed as that name; a number that is no cause
    is printed as UNKNOWN, which reads as NORMAL_CLEARING. *)
Theorem cause_roundtrip :
  map snd CAUSE_CHART = call_causes /\
  (forall name cause s, (name, cause) ∈ CAUSE_CHART -> switch_hash_equalkeys_ci name s = true ->
    switch_channel_cause2str cause = name /\ switch_channel_str2cause (Some s) = Ret cause) /\
  (forall v, v ∉ call_causes -> switch_channel_cause2str v = str "UNKNOWN") /\
  switch_channel_str2cause (Some (str "UNKNOWN")) = Ret SWITCH_CAUSE_NORMAL_CLEARING.
Proof.
  destruct (chart_ok_spec _ cause_chart_ok) as (Hn & Hv & Hs).
  split; [reflexivity|]. split_and!.
  - intros name cause s Hin Hci. pose proof (proj1 (equalkeys_ci_folded _ _) Hci) as E.
    split; [by apply find_numbered|]. destruct (Hs _ _ Hin) as [H1 H2].
    unfold switch_channel_str2cause. rewrite <- (folded_zlen _ _ E), H1.
    rewrite <- (starts_with_digit_folded _ _ E), H2.
    unfold named. by rewrite (find_named _ name cause).
  - intros v Hv'. unfold switch_channel_cause2str, name_of.
    destruct (List.find _ _) as [e|] eqn:E; [|done].
    apply find_some in E as [Hin E2%Z.eqb_eq]. subst v. exfalso. apply Hv'.
    change call_causes with (map snd CAUSE_CHART). apply list_elem_of_In. by apply in_map.
  - vm_compute. reflexivity.
Qed.

(** The same for channel states and call states: a state's name reads, in
    any letter case, as the state; an unknown name reads as [CS_DESTROY]. *)
Theorem state_name_roundtrip :
  (forall st s, exists name, switch_channel_state_name st = Ret name /\
    (switch_hash_equalkeys_ci name s = true -> switch_channel_name_state s = st)) /\
  (forall s, (forall name, name ∈ state_names -> switch_hash_equalkeys_ci name s = false) ->
    switch_channel_name_state s = CS_DESTROY) /\
  (forall cs s, switch_hash_equalkeys_ci (switch_channel_callstate2str cs) s = true ->
    switch_channel_str2callstate (Some s) = Ret (ccs_num cs)).
Proof.
  split_and!.
  - intros st s.
    assert (Hn : NoDup (map (fun e => folded (fst e)) (zip state_names channel_states))).
    { apply (bool_decide_eq_true_1 _). vm_compute. reflexivity. }
    destruct (state_names !! Z.to_nat (cs_num st)) as [name|] eqn:En; [|by destruct st].
    exists name. unfold switch_channel_state_name. rewrite En. split; [done|]. intros Hci.
    unfold switch_channel_name_state. apply equalkeys_ci_folded in Hci.
    rewrite (find_named _ name st); [done|done| |done].
    apply (list_elem_of_lookup_2 _ (Z.to_nat (cs_num st))). by destruct st; injection En as <-.
  - intros s H. unfold switch_channel_name_state.
    destruct (List.find _ _) as [[n st]|] eqn:E; [|done]. apply find_some in E as [Hin E].
    simpl in E. rewrite H in E; [done|]. apply list_elem_of_In. by eapply in_combine_l.
  - intros cs s Hci. destruct (chart_ok_spec _ callstate_chart_ok) as (Hn & Hv & Hs).
    pose proof (proj1 (equalkeys_ci_folded _ _) Hci) as E.
    assert (Hin : (switch_channel_callstate2str cs, ccs_num cs) ∈ CALLSTATE_CHART).
    { apply list_elem_of_In. destruct cs; vm_compute; tauto. }
    destruct (Hs _ _ Hin) as [_ H2].
    unfold switch_channel_str2callstate. cbn [or_ub rbind].
    rewrite <- (starts_with_digit_folded _ _ E), H2.
    unfold named. by rewrite (find_named _ (switch_channel_callstate2str cs) (ccs_num cs)).
Qed.

(** Letter case does not matter; a decimal number is taken as it is. *)
Lemma cause_examples :
  switch_channel_str2cause (Some (str "user_busy")) = Ret SWITCH_CAUSE_USER_BUSY /\
  switch_channel_str2cause (Some (str "17")) = Ret 17 /\
  switch_channel_str2cause (Some (str "4x")) = Ret 4 /\
  switch_channel_cause2str 4 = str "UNKNOWN" /\
  switch_channel_cause_q850 487 = 16.
Proof. split_and!; vm_compute; reflexivity. Qed.
