(* ===== verification/ChannelState.v ===== *)
(** * ChannelState: states, flags and hangup of a channel, src/switch_channel.c

    The state of a channel, its call state, its flags and its hold record, with
    the operations that change them.  Each operation is one function of the
    channel record; what it asks of the session, of the event system and of the
    channel variables is appended to [ch_fx], and what it reads from them comes
    with a [chan_env].  The clock is read through [clock], by the number of the
    reading.  Flags are numbered as in include/switch_types.h; a flag is in the
    range of its table by its type.  A null [caller_profile] that is read is
    undefined. *)
From S2P Require Import Prelude CoreHash ChannelNames.
From Stdlib Require Import ZArith Lia Init.Byte.
From stdpp Require Import base numbers option strings list.

Local Open Scope Z_scope.

(** ** Data *)

(** The flags of [switch_channel_flag_t] the code treats specially. *)
Definition CF_ANSWERED : Z := 1.
Definition CF_OUTBOUND : Z := 2.
Definition CF_EARLY_MEDIA : Z := 3.
Definition CF_BRIDGE_ORIGINATOR : Z := 4.
Definition CF_TRANSFER : Z := 6.
Definition CF_BRIDGED : Z := 9.
Definition CF_TAGGED : Z := 13.
Definition CF_PROXY_MODE : Z := 16.
Definition CF_VIDEO : Z := 25.
Definition CF_BLOCK_STATE : Z := 37.
Definition CF_ORIGINATOR : Z := 42.
Definition CF_NOT_READY : Z := 47.
Definition CF_LEG_HOLDING : Z := 51.
Definition CF_RECOVERED : Z := 58.
Definition CF_DIALPLAN : Z := 61.
Definition CF_RECOVERING : Z := 87.
Definition CF_VIDEO_PASSIVE : Z := 116.
Definition CF_VIDEO_ECHO : Z := 119.
Definition CF_VIDEO_BLANK : Z := 120.
Definition CF_HANGUP_HELD : Z := 129.
Definition CF_VIDEO_DECODED_READ : Z := 131.
Definition CF_VIDEO_READY : Z := 135.
Definition CF_FLAG_MAX : Z := 167.

Definition OCF_HANGUP : Z := Z.shiftl 1 0.

Inductive call_direction := SWITCH_CALL_DIRECTION_INBOUND | SWITCH_CALL_DIRECTION_OUTBOUND.
#[export] Instance call_direction_eq_dec : EqDecision call_direction.
Proof. solve_decision. Defined.

(** Requests to the rest of the system. *)
Inductive chan_fx :=
| CheckDeviceState (cs : callstate)
| EventCallstate (old new : callstate)
| EventState
| EventHold (on : bool)
| EventHangup
| SetVariable (name : cstring) (value : option cstring)
| SetVariablePartner (name value : cstring)
| VideoRefresh
| StartVideoThread
| WakeVideoThread
| RecoveryTrack
| TransferRecordings
| SignalStateChange
| ThreadLaunch
| KillChannel
| HangupState.

(** [switch_hold_record_t]: [uuid] is the partner's name, when there is one. *)
Record hold_record := mk_hold { hr_on : Z; hr_off : Z; hr_uuid : option cstring }.

(** The fields of [caller_profile->times] used here. *)
Record timetable := mk_times { last_hold : Z; hold_accum : Z }.

Record device_node := mk_device { dn_callstate : callstate; dn_direction : call_direction }.

(** [struct switch_channel]: the fields these operations use. *)
Record channel := mk_channel {
  ch_direction : call_direction;
  ch_logical_direction : call_direction;
  ch_state : channel_state;
  ch_running_state : channel_state;
  ch_callstate : callstate;
  ch_flags : list Z;
  ch_state_flags : list Z;
  ch_private_flags : Z;
  ch_opaque_flags : Z;
  ch_hangup_cause : Z;
  ch_times : option timetable;
  ch_hold_record : list hold_record;
  ch_device_node : option device_node;
  ch_queued_extension : option Z;
  (** number of times the clock was read *)
  ch_ticks : nat;
  ch_fx : list chan_fx
}.
#[export] Instance eta_channel : Eta channel := fun c =>
  mk_channel (ch_direction c) (ch_logical_direction c) (ch_state c) (ch_running_state c)
    (ch_callstate c) (ch_flags c) (ch_state_flags c) (ch_private_flags c) (ch_opaque_flags c)
    (ch_hangup_cause c) (ch_times c) (ch_hold_record c) (ch_device_node c) (ch_queued_extension c)
    (ch_ticks c) (ch_fx c).

(** What the operations read from elsewhere. *)
Record chan_env := mk_env {
  clock : nat -> Z;
  partner_uuid : option cstring;
  in_thread : bool;
  has_codecs : bool;
  session_running : bool;
  session_started : bool;
  proto_specific_hangup_cause : option cstring;
  flip_record_on_hold : bool;
  has_partner : bool;
  (** whether [switch_mutex_trylock] gets the thread mutex, and the session
      mutex at the n-th attempt *)
  thread_mutex_free : bool;
  session_mutex_free : nat -> bool
}.

Definition emit (e : chan_fx) (c : channel) : channel := c <| ch_fx ::= fun l => l ++ [e] |>.
Definition emit_if (b : bool) (e : chan_fx) (c : channel) : channel := if b then emit e c else c.
Definition tick (c : channel) : channel := c <| ch_ticks ::= S |>.

(** ** Flags *)
Definition flag (c : channel) (f : Z) : Z := default 0 (ch_flags c !! Z.to_nat f).
Definition switch_channel_test_flag (c : channel) (f : Z) : bool := negb (flag c f =? 0).
Definition put_flag (f v : Z) (c : channel) : channel := c <| ch_flags ::= <[Z.to_nat f := v]> |>.

(** [switch_channel_alloc]: the memory of the pool is zero, and 0 is [CS_NEW]. *)
Definition switch_channel_alloc (direction : call_direction) : channel :=
  mk_channel direction direction CS_NEW CS_NEW CCS_DOWN (replicate (Z.to_nat CF_FLAG_MAX) 0)
    (replicate (Z.to_nat CF_FLAG_MAX) 0) 0 0 SWITCH_CAUSE_NONE None [] None None 0
    [SetVariable (str "direction")
       (Some (if decide (direction = SWITCH_CALL_DIRECTION_OUTBOUND) then str "outbound" else str "inbound"))].

Definition up_nosig (c : channel) : bool := cs_num (ch_state c) <? cs_num CS_HANGUP.
Definition down_nosig (c : channel) : bool := cs_num (ch_state c) >=? cs_num CS_HANGUP.

Definition switch_channel_perform_set_callstate (cs : callstate) (c : channel) : channel :=
  let o := ch_callstate c in
  if decide (o = cs \/ o = CCS_HANGUP) then c
  else
    let c := c <| ch_callstate := cs |> in
    let c := match ch_device_node c with
             | Some d => c <| ch_device_node := Some (mk_device cs (dn_direction d)) |>
             | None => c
             end in
    emit (EventCallstate o cs) (emit (CheckDeviceState cs) c).

Definition set_device_direction (d : call_direction) (c : channel) : channel :=
  match ch_device_node c with
  | Some n => c <| ch_device_node := Some (mk_device (dn_callstate n) d) |>
  | None => c
  end.

(** The part of [switch_channel_set_flag_value] for [CF_DIALPLAN]. *)
Definition set_dialplan (c : channel) : channel :=
  if decide (ch_direction c = SWITCH_CALL_DIRECTION_INBOUND)
  then set_device_direction SWITCH_CALL_DIRECTION_INBOUND
         (c <| ch_logical_direction := SWITCH_CALL_DIRECTION_OUTBOUND |>)
  else set_device_direction SWITCH_CALL_DIRECTION_OUTBOUND
         (c <| ch_logical_direction := SWITCH_CALL_DIRECTION_INBOUND |>).

(** The part for a leg that is put on hold. *)
Definition start_hold (env : chan_env) (c : channel) : res channel :=
  let c := switch_channel_perform_set_callstate CCS_HELD c in
  t <-! or_ub (ch_times c);;
  let c := (tick c) <| ch_times := Some (mk_times (clock env (ch_ticks c)) (hold_accum t)) |> in
  let hr := mk_hold (clock env (ch_ticks c)) 0 (partner_uuid env) in
  Ret ((tick c) <| ch_hold_record ::= cons hr |>).

Definition switch_channel_set_flag_value (env : chan_env) (f value : Z) (c : channel) : res channel :=
  let held := (f =? CF_LEG_HOLDING) && (flag c f =? 0) && switch_channel_test_flag c CF_ANSWERED in
  let just_set := negb (flag c f =? value) in
  let c := if just_set then put_flag f value c else c in
  let c := emit_if ((f =? CF_VIDEO_READY) && just_set) VideoRefresh c in
  let c := if (f =? CF_ORIGINATOR) && switch_channel_test_flag c CF_ANSWERED && up_nosig c
           then switch_channel_perform_set_callstate CCS_RING_WAIT c else c in
  let c := if f =? CF_DIALPLAN then set_dialplan c else c in
  c <-! (if held then start_hold env c else Ret c);;
  let c := emit_if (f =? CF_OUTBOUND) (SetVariable (str "is_outbound") (Some (str "true"))) c in
  let c := emit_if (f =? CF_RECOVERED) (SetVariable (str "recovered") (Some (str "true"))) c in
  let c := emit_if ((f =? CF_VIDEO_ECHO) || (f =? CF_VIDEO_BLANK) || (f =? CF_VIDEO_DECODED_READ)
                    || (f =? CF_VIDEO_PASSIVE)) StartVideoThread c in
  Ret (emit_if ((f =? CF_VIDEO_DECODED_READ) && switch_channel_test_flag c CF_VIDEO) VideoRefresh c).

Definition switch_channel_set_flag (env : chan_env) (f : Z) (c : channel) : res channel :=
  switch_channel_set_flag_value env f 1 c.

Definition switch_channel_init (env : chan_env) (state : channel_state) (f : Z) (c : channel) : res channel :=
  c <-! switch_channel_set_flag env f (c <| ch_state := state |>);;
  Ret (c <| ch_running_state := CS_NONE |>).

Definition switch_channel_set_flag_recursive (f : Z) (c : channel) : channel :=
  let c := put_flag f (u32 (flag c f + 1)) c in
  let c := emit_if (f =? CF_OUTBOUND) (SetVariable (str "is_outbound") (Some (str "true"))) c in
  emit_if (f =? CF_RECOVERED) (SetVariable (str "recovered") (Some (str "true"))) c.

Definition switch_channel_set_private_flag (flags : Z) (c : channel) : channel :=
  c <| ch_private_flags ::= fun p => Z.lor p flags |>.
Definition switch_channel_clear_private_flag (flags : Z) (c : channel) : channel :=
  c <| ch_private_flags ::= fun p => Z.land p (Z.lnot flags) |>.
Definition switch_channel_test_private_flag (flags : Z) (c : channel) : Z :=
  Z.land (ch_private_flags c) flags.

(** Entry 0 of [state_flags] says that some entry is set. *)
Definition switch_channel_set_state_flag (f : Z) (c : channel) : channel :=
  c <| ch_state_flags ::= fun l => <[Z.to_nat f := 1]> (<[0%nat := 1]> l) |>.
Definition switch_channel_clear_state_flag (f : Z) (c : channel) : channel :=
  c <| ch_state_flags ::= <[Z.to_nat f := 0]> |>.

(** The part of [switch_channel_clear_flag] for a leg that leaves hold. *)
Definition end_hold (env : chan_env) (c : channel) : res channel :=
  let c := switch_channel_perform_set_callstate CCS_UNHELD c in
  t <-! or_ub (ch_times c);;
  let c := if last_hold t =? 0 then c
           else (tick c) <| ch_times := Some (mk_times (last_hold t)
                  (hold_accum t + (clock env (ch_ticks c) - last_hold t))) |> in
  let c := match ch_hold_record c with
           | hr :: hrs => (tick c) <| ch_hold_record :=
               mk_hold (hr_on hr) (clock env (ch_ticks c)) (hr_uuid hr) :: hrs |>
           | [] => c
           end in
  Ret (if switch_channel_test_flag c CF_PROXY_MODE && switch_channel_test_flag c CF_BRIDGED
       then switch_channel_perform_set_callstate CCS_ACTIVE c else c).

Definition switch_channel_clear_flag (env : chan_env) (f : Z) (c : channel) : res channel :=
  let active := (f =? CF_LEG_HOLDING) && switch_channel_test_flag c f && switch_channel_test_flag c CF_ANSWERED in
  let passive := (f =? CF_VIDEO_PASSIVE) && switch_channel_test_flag c CF_VIDEO in
  let clear := passive && switch_channel_test_flag (put_flag CF_VIDEO_READY 1 c) f in
  let c := if passive then put_flag CF_VIDEO_READY 1 c else c in
  let c := put_flag f 0 c in
  let c := if (f =? CF_DIALPLAN) && bool_decide (ch_direction c = SWITCH_CALL_DIRECTION_OUTBOUND)
           then set_device_direction SWITCH_CALL_DIRECTION_INBOUND
                  (c <| ch_logical_direction := SWITCH_CALL_DIRECTION_OUTBOUND |>)
           else c in
  c <-! (if active then end_hold env c else Ret c);;
  let c := if (f =? CF_ORIGINATOR) && switch_channel_test_flag c CF_ANSWERED && up_nosig c
           then switch_channel_perform_set_callstate CCS_ACTIVE c else c in
  let c := emit_if (f =? CF_OUTBOUND) (SetVariable (str "is_outbound") None) c in
  let c := emit_if (f =? CF_RECOVERED) (SetVariable (str "recovered") None) c in
  let c := emit_if ((f =? CF_VIDEO_PASSIVE) && clear) WakeVideoThread c in
  Ret (emit_if ((f =? CF_RECOVERING) && (ch_hangup_cause c =? 0)) RecoveryTrack c).

Definition switch_channel_clear_flag_recursive (f : Z) (c : channel) : channel :=
  let c := if switch_channel_test_flag c f then put_flag f (flag c f - 1) c else c in
  emit_if (f =? CF_OUTBOUND) (SetVariable (str "is_outbound") None) c.

(** ** States *)
Definition switch_channel_state_change_pending (env : chan_env) (c : channel) : bool :=
  if down_nosig c || negb (in_thread env) then false
  else bool_decide (ch_running_state c <> ch_state c).

(** [switch_channel_test_ready] after the signals of the session were handled. *)
Definition switch_channel_test_ready (env : chan_env) (check_ready check_media : bool) (c : channel) : bool :=
  let media := (switch_channel_test_flag c CF_ANSWERED || switch_channel_test_flag c CF_EARLY_MEDIA)
               && negb (switch_channel_test_flag c CF_PROXY_MODE) && has_codecs env in
  if check_media && negb media then false
  else if negb check_ready then check_media && media
  else (ch_hangup_cause c =? 0) && (cs_num (ch_state c) >? cs_num CS_ROUTING)
       && (cs_num (ch_state c) <? cs_num CS_HANGUP) && negb (bool_decide (ch_state c = CS_RESET))
       && negb (switch_channel_test_flag c CF_TRANSFER) && negb (switch_channel_test_flag c CF_NOT_READY)
       && negb (switch_channel_state_change_pending env c).

(** The hundred attempts of [careful_set] at the session mutex: whether one
    succeeded and stored the value. *)
Fixpoint careful_attempts (n : nat) (x : nat) (free : nat -> bool) : bool :=
  match n with
  | O => false
  | S n => if free x then true else careful_attempts n (S x) free
  end.
Definition careful_set (env : chan_env) (old val : channel_state) : channel_state :=
  if thread_mutex_free env then val
  else
    let stored := careful_attempts 100 0 (session_mutex_free env) in
    let state := if stored then val else old in
    if negb stored then val else state.

(** The flags put aside for the next state take effect. *)
Definition apply_state_flags (c : channel) : channel :=
  if negb (default 0 (ch_state_flags c !! 0%nat) =? 0) then
    c <| ch_flags := imap (fun x v => if negb (x =? 0)%nat && negb (default 0 (ch_state_flags c !! x) =? 0)
                                      then 1 else v) (ch_flags c) |>
      <| ch_state_flags ::= map (fun _ => 0) |>
  else c.

Definition switch_channel_perform_set_running_state (env : chan_env) (state : channel_state) (c : channel)
    : res channel :=
  let c := apply_state_flags c in
  c <-! switch_channel_clear_flag env CF_TAGGED c;;
  let c := c <| ch_running_state := careful_set env (ch_running_state c) state |> in
  Ret (if cs_num state <=? cs_num CS_DESTROY then
         let c :=
           if bool_decide (ch_direction c = SWITCH_CALL_DIRECTION_INBOUND) && (cs_num state <? cs_num CS_HANGUP)
           then if decide (state = CS_ROUTING) then switch_channel_perform_set_callstate CCS_RINGING c
                else if switch_channel_test_flag c CF_ANSWERED then switch_channel_perform_set_callstate CCS_ACTIVE c
                else if switch_channel_test_flag c CF_EARLY_MEDIA then switch_channel_perform_set_callstate CCS_EARLY c
                else c
           else c in
         emit EventState c
       else c).

(** The table of [switch_channel_perform_set_state]. *)
Definition transition_ok (last_state state : channel_state) : bool :=
  match last_state with
  | CS_NEW | CS_RESET => true
  | CS_INIT =>
    match state with
    | CS_EXCHANGE_MEDIA | CS_SOFT_EXECUTE | CS_ROUTING | CS_EXECUTE | CS_PARK | CS_CONSUME_MEDIA
    | CS_HIBERNATE | CS_RESET => true
    | _ => false
    end
  | CS_EXCHANGE_MEDIA =>
    match state with
    | CS_SOFT_EXECUTE | CS_ROUTING | CS_EXECUTE | CS_PARK | CS_CONSUME_MEDIA | CS_HIBERNATE | CS_RESET => true
    | _ => false
    end
  | CS_SOFT_EXECUTE =>
    match state with
    | CS_EXCHANGE_MEDIA | CS_ROUTING | CS_EXECUTE | CS_PARK | CS_CONSUME_MEDIA | CS_HIBERNATE | CS_RESET => true
    | _ => false
    end
  | CS_PARK =>
    match state with
    | CS_EXCHANGE_MEDIA | CS_ROUTING | CS_EXECUTE | CS_SOFT_EXECUTE | CS_HIBERNATE | CS_RESET
    | CS_CONSUME_MEDIA => true
    | _ => false
    end
  | CS_CONSUME_MEDIA =>
    match state with
    | CS_EXCHANGE_MEDIA | CS_ROUTING | CS_EXECUTE | CS_SOFT_EXECUTE | CS_HIBERNATE | CS_RESET | CS_PARK => true
    | _ => false
    end
  | CS_HIBERNATE =>
    match state with
    | CS_EXCHANGE_MEDIA | CS_INIT | CS_ROUTING | CS_EXECUTE | CS_SOFT_EXECUTE | CS_PARK | CS_CONSUME_MEDIA
    | CS_RESET => true
    | _ => false
    end
  | CS_ROUTING =>
    match state with
    | CS_EXCHANGE_MEDIA | CS_EXECUTE | CS_SOFT_EXECUTE | CS_PARK | CS_CONSUME_MEDIA | CS_HIBERNATE | CS_RESET => true
    | _ => false
    end
  | CS_EXECUTE =>
    match state with
    | CS_EXCHANGE_MEDIA | CS_SOFT_EXECUTE | CS_ROUTING | CS_PARK | CS_CONSUME_MEDIA | CS_HIBERNATE | CS_RESET => true
    | _ => false
    end
  | CS_HANGUP => match state with CS_REPORTING | CS_DESTROY => true | _ => false end
  | CS_REPORTING => match state with CS_DESTROY => true | _ => false end
  | _ => false
  end.

Definition switch_channel_perform_set_state (env : chan_env) (state : channel_state) (c : channel) : res channel :=
  rassert (cs_num state <=? cs_num CS_DESTROY)
  (let last_state := ch_state c in
   rassert (cs_num last_state <=? cs_num CS_DESTROY)
   (if decide (last_state = state) then Ret c
    else if (cs_num last_state >=? cs_num CS_HANGUP) && (cs_num state <? cs_num last_state) then Ret c
    else if transition_ok last_state state then
      let c := c <| ch_state := careful_set env last_state state |> in
      let c := if bool_decide (state = CS_HANGUP) && (ch_hangup_cause c =? 0)
               then c <| ch_hangup_cause := SWITCH_CAUSE_NORMAL_CLEARING |> else c in
      Ret (emit_if (cs_num state <=? cs_num CS_DESTROY) SignalStateChange c)
    else rassert (cs_num (ch_state c) >=? cs_num CS_HANGUP) (Ret c))).

(** ** Hold, transfer and hangup *)
Definition switch_channel_mark_hold (env : chan_env) (on : bool) (c : channel) : res channel :=
  c <-! (if eqb on (switch_channel_test_flag c CF_LEG_HOLDING) then Ret c
         else
           c <-! (if on then switch_channel_set_flag env CF_LEG_HOLDING c
                  else switch_channel_clear_flag env CF_LEG_HOLDING c);;
           Ret (emit (EventHold on) c));;
  Ret (emit_if (on && flip_record_on_hold env && has_partner env) TransferRecordings c).

Definition switch_channel_get_queued_extension (c : channel) : channel * option Z :=
  (c <| ch_queued_extension := None |>, ch_queued_extension c).

Definition switch_channel_transfer_to_extension (env : chan_env) (extension : Z) (c : channel) : res channel :=
  let c := c <| ch_queued_extension := Some extension |> in
  c <-! switch_channel_set_flag env CF_TRANSFER c;;
  switch_channel_perform_set_state env CS_ROUTING c.

(** [switch_channel_perform_hangup], in the pieces between which other threads
    may run.  First, under the state mutex, one caller is chosen. *)
Definition hangup_claim (c : channel) : channel * bool :=
  if test_flag (ch_opaque_flags c) OCF_HANGUP then (c, false)
  else (c <| ch_opaque_flags ::= fun o => Z.lor o OCF_HANGUP |>, true).

Definition hangup_unhold (env : chan_env) (c : channel) : res channel :=
  if switch_channel_test_flag c CF_LEG_HOLDING then
    c <-! switch_channel_mark_hold env false c;; switch_channel_set_flag env CF_HANGUP_HELD c
  else Ret c.

(** The hold record of the leg ends. *)
Definition end_hold_record (env : chan_env) (c : channel) : channel :=
  match ch_hold_record c with
  | hr :: hrs =>
    if hr_off hr =? 0
    then (tick c) <| ch_hold_record := mk_hold (hr_on hr) (clock env (ch_ticks c)) (hr_uuid hr) :: hrs |>
    else c
  | [] => c
  end.

(** The chosen caller, when it found the channel alive. *)
Definition hangup_commit (env : chan_env) (hangup_cause : Z) (c : channel) : channel :=
  let c := end_hold_record env c in
  let c := c <| ch_state := CS_HANGUP |> in
  let c := c <| ch_hangup_cause := hangup_cause |> in
  let c := emit (SetVariablePartner (str "last_bridge_hangup_cause") (switch_channel_cause2str hangup_cause)) c in
  let c := match proto_specific_hangup_cause env with
           | Some var => emit (SetVariablePartner (str "last_bridge_proto_specific_hangup_cause") var) c
           | None => c
           end in
  let c := if switch_channel_test_flag c CF_BRIDGE_ORIGINATOR
           then emit (SetVariable (str "last_bridge_role") (Some (str "originator"))) c
           else if switch_channel_test_flag c CF_BRIDGED
           then emit (SetVariable (str "last_bridge_role") (Some (str "originatee"))) c else c in
  let c := emit_if (negb (session_running env) && negb (session_started env)) ThreadLaunch c in
  emit HangupState (emit SignalStateChange (emit KillChannel (emit EventHangup c))).

Definition switch_channel_perform_hangup (env : chan_env) (hangup_cause : Z) (c : channel) : res channel :=
  let '(c, ok) := hangup_claim c in
  c <-! hangup_unhold env c;;
  if negb ok then Ret c
  else
    c <-! switch_channel_clear_flag env CF_BLOCK_STATE c;;
    Ret (if cs_num (ch_state c) <? cs_num CS_HANGUP then hangup_commit env hangup_cause c else c).
