(* ===== verification/ChannelLife.v ===== *)
(** * ChannelLife: the life of a channel

    Properties of the operations of ChannelState: the transitions the state
    table allows, what is final once a channel hung up, that one caller hangs up
    however many try, flags that wait for the next state, and hold times. *)
From S2P Require Import Prelude CoreHash ChannelNames ChannelState.
From Stdlib Require Import ZArith Lia Init.Byte.
From stdpp Require Import base numbers option strings list.

Local Open Scope Z_scope.

(** ** What most operations leave alone *)
Definition is_kill (e : chan_fx) : bool := match e with KillChannel => true | _ => false end.
Definition kills (c : channel) : nat := length (List.filter is_kill (ch_fx c)).

(** From [c] to [c'] the channel did not change its state, was not hung up, and
    kept its timetable; a call state that is final stayed. *)
Record quiet (c c' : channel) : Prop := {
  q_state : ch_state c' = ch_state c;
  q_cause : ch_hangup_cause c' = ch_hangup_cause c;
  q_opaque : ch_opaque_flags c' = ch_opaque_flags c;
  q_kills : kills c' = kills c;
  q_times : is_Some (ch_times c) -> is_Some (ch_times c');
  q_final : ch_callstate c = CCS_HANGUP -> ch_callstate c' = CCS_HANGUP
}.

#[export] Instance quiet_preorder : PreOrder quiet.
Proof.
  split; [by intros c; split|].
  intros a b c [A1 A2 A3 A4 A5 A6] [B1 B2 B3 B4 B5 B6]. split; try congruence; auto.
Qed.

Lemma kills_emit e c : kills (emit e c) = (kills c + if is_kill e then 1 else 0)%nat.
Proof.
  unfold kills, emit. simpl. rewrite List.filter_app, length_app. f_equal. simpl. by destruct (is_kill e).
Qed.
Lemma quiet_emit e c : is_kill e = false -> quiet c (emit e c).
Proof. intros He. split; try done. rewrite kills_emit, He. lia. Qed.
Lemma quiet_emit_if b e c : is_kill e = false -> quiet c (emit_if b e c).
Proof. intros He. destruct b; [by apply quiet_emit|reflexivity]. Qed.
Lemma quiet_put_flag f v c : quiet c (put_flag f v c).
Proof. by split. Qed.
Lemma quiet_device d c : quiet c (set_device_direction d c).
Proof. unfold set_device_direction. destruct (ch_device_node c); [by split|reflexivity]. Qed.

Lemma quiet_callstate cs c : quiet c (switch_channel_perform_set_callstate cs c).
Proof.
  unfold switch_channel_perform_set_callstate. destruct (decide _) as [_|Hn]; [reflexivity|].
  etrans; [|apply quiet_emit; done]. etrans; [|apply quiet_emit; done].
  assert (ch_callstate c <> CCS_HANGUP) by (intros E; apply Hn; by right).
  destruct (ch_device_node c) eqn:E; simpl; rewrite E; by split.
Qed.

#[export] Hint Resolve quiet_emit quiet_emit_if quiet_put_flag quiet_device quiet_callstate : cdb.

Lemma quiet_dialplan c : quiet c (set_dialplan c).
Proof.
  unfold set_dialplan. destruct (decide _); (etrans; [|apply quiet_device]); by split.
Qed.

Lemma quiet_start_hold env c : is_Some (ch_times c) -> exists c', start_hold env c = Ret c' /\ quiet c c'.
Proof.
  intros Ht. unfold start_hold. pose proof (quiet_callstate CCS_HELD c) as Q.
  set (c1 := switch_channel_perform_set_callstate CCS_HELD c) in *. clearbody c1.
  destruct (q_times _ _ Q Ht) as [t Et]. rewrite Et. cbn [or_ub rbind].
  eexists. split; [done|]. etrans; [exact Q|]. by split.
Qed.

Lemma quiet_end_hold env c : is_Some (ch_times c) -> exists c', end_hold env c = Ret c' /\ quiet c c'.
Proof.
  intros Ht. unfold end_hold. pose proof (quiet_callstate CCS_UNHELD c) as Q.
  set (c1 := switch_channel_perform_set_callstate CCS_UNHELD c) in *. clearbody c1.
  destruct (q_times _ _ Q Ht) as [t Et]. rewrite Et. cbn [or_ub rbind].
  eexists. split; [done|]. etrans; [exact Q|].
  match goal with |- quiet _ (if _ then _ _ ?c3 else _) =>
    assert (Q3 : quiet c1 c3); [|destruct (_ && _); [etrans; [exact Q3|apply quiet_callstate]|exact Q3]] end.
  destruct (last_hold t =? 0), (ch_hold_record c1) eqn:Eh; simpl; rewrite ?Eh; by split.
Qed.

Lemma quiet_set_flag_value env f v c : is_Some (ch_times c) ->
  exists c', switch_channel_set_flag_value env f v c = Ret c' /\ quiet c c'.
Proof.
  intros Ht. unfold switch_channel_set_flag_value. cbv zeta.
  match goal with |- exists _, rbind (if _ then start_hold env ?c3 else _) _ = _ /\ _ =>
    assert (Q3 : quiet c c3); [|set (c1 := c3) in *; clearbody c1] end.
  { etrans; [|case_if E4; [apply quiet_dialplan|reflexivity]].
    etrans; [|case_if E3; [apply quiet_callstate|reflexivity]].
    etrans; [|by apply quiet_emit_if]. case_if E1; [apply quiet_put_flag|reflexivity]. }
  assert (H : exists c2, (if (f =? CF_LEG_HOLDING) && (flag c f =? 0) && switch_channel_test_flag c CF_ANSWERED
                          then start_hold env c1 else Ret c1) = Ret c2 /\ quiet c1 c2).
  { case_if E; [by apply quiet_start_hold, (q_times _ _ Q3)|by exists c1]. }
  destruct H as (c2 & -> & Q2). cbn [rbind]. eexists. split; [done|].
  etrans; [exact Q3|]. etrans; [exact Q2|].
  etrans; [|by apply quiet_emit_if]. etrans; [|by apply quiet_emit_if]. etrans; by apply quiet_emit_if.
Qed.

Lemma quiet_clear_flag env f c : is_Some (ch_times c) ->
  exists c', switch_channel_clear_flag env f c = Ret c' /\ quiet c c'.
Proof.
  intros Ht. unfold switch_channel_clear_flag. cbv zeta.
  match goal with |- exists _, rbind (if _ then end_hold env ?c3 else _) _ = _ /\ _ =>
    assert (Q3 : quiet c c3); [|set (c1 := c3) in *; clearbody c1] end.
  { assert (Q : quiet c (put_flag f 0 (if (f =? CF_VIDEO_PASSIVE) && switch_channel_test_flag c CF_VIDEO
                                        then put_flag CF_VIDEO_READY 1 c else c))).
    { etrans; [|apply quiet_put_flag]. case_if E1; [apply quiet_put_flag|reflexivity]. }
    etrans; [exact Q|]. clear Q.
    match goal with |- quiet ?c0 _ => generalize c0 end. intros c0. case_if E2; [|reflexivity]. etrans; [|apply quiet_device]. by split. }
  assert (H : exists c2, (if (f =? CF_LEG_HOLDING) && switch_channel_test_flag c f
                             && switch_channel_test_flag c CF_ANSWERED
                          then end_hold env c1 else Ret c1) = Ret c2 /\ quiet c1 c2).
  { case_if E; [by apply quiet_end_hold, (q_times _ _ Q3)|by exists c1]. }
  destruct H as (c2 & -> & Q2). cbn [rbind]. eexists. split; [done|].
  etrans; [exact Q3|]. etrans; [exact Q2|].
  etrans; [|by apply quiet_emit_if]. etrans; [|by apply quiet_emit_if]. etrans; [|by apply quiet_emit_if].
  etrans; [|by apply quiet_emit_if]. case_if E; [apply quiet_callstate|reflexivity].
Qed.

Lemma quiet_mark_hold env on c : is_Some (ch_times c) ->
  exists c', switch_channel_mark_hold env on c = Ret c' /\ quiet c c'.
Proof.
  intros Ht. unfold switch_channel_mark_hold.
  assert (H : exists c1, (if on then switch_channel_set_flag env CF_LEG_HOLDING c
                          else switch_channel_clear_flag env CF_LEG_HOLDING c) = Ret c1 /\ quiet c c1).
  { destruct on; [by apply quiet_set_flag_value|by apply quiet_clear_flag]. }
  destruct H as (c1 & -> & Q1). cbn [rbind].
  case_if E; cbn [rbind]; (eexists; split; [done|]).
  - by apply quiet_emit_if.
  - etrans; [exact Q1|]. etrans; [|by apply quiet_emit_if]. by apply quiet_emit.
Qed.

Lemma quiet_unhold env c : is_Some (ch_times c) ->
  exists c', hangup_unhold env c = Ret c' /\ quiet c c'.
Proof.
  intros Ht. unfold hangup_unhold. case_if E; [|by exists c].
  destruct (quiet_mark_hold env false c Ht) as (c1 & -> & Q1). cbn [rbind].
  destruct (quiet_set_flag_value env CF_HANGUP_HELD 1 c1) as (c2 & E2 & Q2); [by apply (q_times _ _ Q1)|].
  exists c2. split; [done|]. by etrans.
Qed.

(** ** Transitions *)
Definition live (s : channel_state) : Prop := cs_num s < cs_num CS_HANGUP.
Definition down (s : channel_state) : Prop := cs_num CS_HANGUP <= cs_num s.
#[export] Instance live_dec s : Decision (live s).
Proof. unfold live. apply _. Defined.
#[export] Instance down_dec s : Decision (down s).
Proof. unfold down. apply _. Defined.

(** What the table amounts to: a new or a reset channel may go anywhere; a live
    one to any live state but [CS_NEW], to [CS_INIT] only out of hibernation,
    and to no state of a channel that hung up; after hangup only forward. *)
Definition may_follow (last next : channel_state) : Prop :=
  last = CS_NEW \/ last = CS_RESET \/
  (live last /\ live next /\ next <> CS_NEW /\ (next = CS_INIT -> last = CS_HIBERNATE)) \/
  (down last /\ cs_num last < cs_num next).

Lemma transition_ok_spec last next :
  last <> next -> last <> CS_NONE -> next <> CS_NONE ->
  transition_ok last next = true <-> may_follow last next.
Proof.
  intros Hd H1 H2. unfold may_follow, live, down.
  destruct last, next; simpl; try done; split; intros H; try done;
    (repeat destruct H as [H|H]); try done; try (destruct H as (Ha & Hb & Hc & Hd')); try done; try lia;
    try (by auto); try (right; right; left; split_and!; (done || lia)); try (right; right; right; lia);
    try (by specialize (Hd' eq_refl)).
Qed.

Lemma careful_set_sets env old val : careful_set env old val = val.
Proof. unfold careful_set. case_if E; [done|]. by destruct (careful_attempts _ _ _). Qed.

(** What [switch_channel_perform_set_state] does to a channel that moves. *)
Definition moved (c c' : channel) (next : channel_state) : Prop :=
  ch_state c' = next /\
  ch_hangup_cause c' = (if decide (next = CS_HANGUP /\ ch_hangup_cause c = 0)
                        then SWITCH_CAUSE_NORMAL_CLEARING else ch_hangup_cause c) /\
  ch_fx c' = ch_fx c ++ [SignalStateChange] /\
  ch_opaque_flags c' = ch_opaque_flags c /\ ch_times c' = ch_times c /\ ch_callstate c' = ch_callstate c /\
  ch_flags c' = ch_flags c /\ ch_running_state c' = ch_running_state c.

Lemma cs_num_le s : (cs_num s <=? cs_num CS_DESTROY) = negb (bool_decide (s = CS_NONE)).
Proof. by destruct s. Qed.
Lemma cs_num_inj s t : cs_num s = cs_num t -> s = t.
Proof. by destruct s, t. Qed.

Lemma set_state_cases env next c : next <> CS_NONE -> ch_state c <> CS_NONE ->
  (switch_channel_perform_set_state env next c = Ret c /\
     (ch_state c = next \/ (down (ch_state c) /\ cs_num next < cs_num (ch_state c)))) \/
  (exists c', switch_channel_perform_set_state env next c = Ret c' /\ moved c c' next /\
     ch_state c <> next /\ may_follow (ch_state c) next) \/
  (switch_channel_perform_set_state env next c = Abort /\ live (ch_state c) /\
     ch_state c <> next /\ ~ may_follow (ch_state c) next).
Proof.
  intros Hn Hc. unfold switch_channel_perform_set_state. rewrite !cs_num_le.
  rewrite !bool_decide_eq_false_2 by done. cbn [negb rassert].
  destruct (decide (ch_state c = next)) as [E|E]; [left; by auto|].
  rewrite Z.geb_leb. unfold live, down.
  destruct (_ && _) eqn:Eb; [left; boolify; by auto|].
  destruct (transition_ok (ch_state c) next) eqn:Et.
  - right; left. pose proof (proj1 (transition_ok_spec _ _ E Hc Hn) Et) as Hm.
    eexists. split; [done|]. split; [|done]. rewrite careful_set_sets. unfold moved.
    destruct (bool_decide (next = CS_HANGUP)) eqn:Eh; simpl.
    + apply bool_decide_eq_true in Eh. destruct (Z.eqb_spec (ch_hangup_cause c) 0) as [E0|E0].
      * rewrite decide_True by done. by split_and!.
      * rewrite decide_False by (by intros [? ?]). by split_and!.
    + apply bool_decide_eq_false in Eh. rewrite decide_False by (by intros [? ?]). by split_and!.
  - right; right. assert (Hm : ~ may_follow (ch_state c) next).
    { intros Hm%(transition_ok_spec _ _ E Hc Hn). congruence. }
    destruct (Z.leb_spec (cs_num CS_HANGUP) (cs_num (ch_state c))) as [Hd|Hl]; [|done].
    exfalso. apply Hm. right; right; right. split; [done|]. boolify.
    assert (cs_num (ch_state c) <> cs_num next) by (intros ?%cs_num_inj; done).
    destruct Eb as [Eb|Eb]; boolify; lia.
Qed.

(** ** Operations *)
Inductive chan_op :=
| SetState (st : channel_state)
| SetRunningState (st : channel_state)
| SetFlagValue (f v : Z)
| ClearFlag (f : Z)
| SetFlagRecursive (f : Z)
| ClearFlagRecursive (f : Z)
| SetStateFlag (f : Z)
| ClearStateFlag (f : Z)
| SetPrivateFlag (v : Z)
| ClearPrivateFlag (v : Z)
| SetCallstate (cs : callstate)
| MarkHold (on : bool)
| TransferTo (extension : Z)
| GetQueuedExtension.

Definition exec_chan (env : chan_env) (op : chan_op) (c : channel) : res channel :=
  match op with
  | SetState st => switch_channel_perform_set_state env st c
  | SetRunningState st => switch_channel_perform_set_running_state env st c
  | SetFlagValue f v => switch_channel_set_flag_value env f v c
  | ClearFlag f => switch_channel_clear_flag env f c
  | SetFlagRecursive f => Ret (switch_channel_set_flag_recursive f c)
  | ClearFlagRecursive f => Ret (switch_channel_clear_flag_recursive f c)
  | SetStateFlag f => Ret (switch_channel_set_state_flag f c)
  | ClearStateFlag f => Ret (switch_channel_clear_state_flag f c)
  | SetPrivateFlag v => Ret (switch_channel_set_private_flag v c)
  | ClearPrivateFlag v => Ret (switch_channel_clear_private_flag v c)
  | SetCallstate cs => Ret (switch_channel_perform_set_callstate cs c)
  | MarkHold on => switch_channel_mark_hold env on c
  | TransferTo ext => switch_channel_transfer_to_extension env ext c
  | GetQueuedExtension => Ret (switch_channel_get_queued_extension c).1
  end.

(** [CS_NONE] is not a state to go to. *)
Definition chan_op_ok (op : chan_op) : Prop := match op with SetState st => st <> CS_NONE | _ => True end.

(** A channel that has a caller profile and a state. *)
Record settled (c : channel) : Prop := {
  st_times : is_Some (ch_times c);
  st_state : ch_state c <> CS_NONE
}.

(** What an operation other than a hangup does to the life of a channel. *)
Record steady (c c' : channel) : Prop := {
  sd_opaque : ch_opaque_flags c' = ch_opaque_flags c;
  sd_kills : kills c' = kills c;
  sd_settled : settled c';
  sd_down : down (ch_state c) -> cs_num (ch_state c) <= cs_num (ch_state c') /\
              ch_hangup_cause c' = ch_hangup_cause c;
  sd_final : ch_callstate c = CCS_HANGUP -> ch_callstate c' = CCS_HANGUP
}.

Lemma quiet_steady c c' : settled c -> quiet c c' -> steady c c'.
Proof.
  intros [Ht Hs] [Q1 Q2 Q3 Q4 Q5 Q6]. split; try done.
  - split; [by apply Q5|congruence].
  - intros _. rewrite Q1, Q2. split; [lia|done].
Qed.

Lemma set_state_steady env st c : settled c -> st <> CS_NONE ->
  (exists c', switch_channel_perform_set_state env st c = Ret c' /\ steady c c') \/
  (switch_channel_perform_set_state env st c = Abort /\ live (ch_state c)).
Proof.
  intros [Ht Hs] Hn.
  destruct (set_state_cases env st c Hn Hs) as [[E _]|[(c' & E & Hm & Hne & Hf)|(E & Hl & _)]];
    [left|left|by right].
  - exists c. split; [done|]. apply quiet_steady; [by split|reflexivity].
  - exists c'. split; [done|]. destruct Hm as (M1 & M2 & M3 & M4 & M5 & M6 & _).
    split; try done.
    + unfold kills. rewrite M3, List.filter_app, length_app. simpl. lia.
    + split; [by rewrite M5|by rewrite M1].
    + intros Hd. rewrite M1, M2. unfold may_follow, live, down in *.
      assert (cs_num (ch_state c) < cs_num st).
      { destruct Hf as [E1|[E1|[[Hl _]|[_ Hlt]]]]; [rewrite E1 in Hd; simpl in Hd; lia..|lia|done]. }
      rewrite decide_False; [split; [lia|done]|]. intros [-> _]. lia.
    + by rewrite M6.
Qed.

Lemma running_state_ok env st c : settled c ->
  exists c', switch_channel_perform_set_running_state env st c = Ret c' /\ quiet c c'.
Proof.
  intros [Ht _]. unfold switch_channel_perform_set_running_state.
  assert (Q0 : quiet c (apply_state_flags c)) by (unfold apply_state_flags; case_if E; [by split|reflexivity]).
  destruct (quiet_clear_flag env CF_TAGGED (apply_state_flags c)) as (c1 & -> & Q1);
    [by apply (q_times _ _ Q0)|].
  cbn [rbind]. eexists. split; [done|]. etrans; [exact Q0|]. etrans; [exact Q1|].
  set (c2 := c1 <| ch_running_state := careful_set env (ch_running_state c1) st |>).
  assert (Q2 : quiet c1 c2) by (by split). clearbody c2.
  case_if E1; [|exact Q2]. etrans; [exact Q2|]. etrans; [|by apply quiet_emit].
  repeat (case_inner_if; [auto with cdb|]); auto with cdb; try reflexivity.
Qed.

Lemma exec_steady env op c : settled c -> chan_op_ok op ->
  (exists c', exec_chan env op c = Ret c' /\ steady c c') \/
  (exec_chan env op c = Abort /\ live (ch_state c)).
Proof.
  intros Hc Hop. pose proof (st_times _ Hc) as Ht.
  assert (Hq : forall r, (exists c', r = Ret c' /\ quiet c c') ->
    (exists c', r = Ret c' /\ steady c c') \/ (r = Abort /\ live (ch_state c))).
  { intros r (c' & -> & Q). left. exists c'. split; [done|]. by apply quiet_steady. }
  destruct op; simpl in *; try (apply Hq; eexists; split; [reflexivity|by split]).
  - by apply set_state_steady.
  - by apply Hq, running_state_ok.
  - by apply Hq, quiet_set_flag_value.
  - by apply Hq, quiet_clear_flag.
  - apply Hq. eexists. split; [done|]. unfold switch_channel_set_flag_recursive.
    etrans; [|by apply quiet_emit_if]. etrans; [|by apply quiet_emit_if]. apply quiet_put_flag.
  - apply Hq. eexists. split; [done|]. unfold switch_channel_clear_flag_recursive.
    etrans; [|by apply quiet_emit_if]. case_if E; [apply quiet_put_flag|reflexivity].
  - apply Hq. eexists. split; [done|]. apply quiet_callstate.
  - by apply Hq, quiet_mark_hold.
  - unfold switch_channel_transfer_to_extension.
    set (c0 := c <| ch_queued_extension := Some extension |>).
    assert (Q0 : quiet c c0) by (by split). clearbody c0.
    destruct (quiet_set_flag_value env CF_TRANSFER 1 c0) as (c1 & E1 & Q1); [by apply (q_times _ _ Q0)|].
    unfold switch_channel_set_flag. rewrite E1. cbn [rbind].
    assert (Q : quiet c c1) by (by etrans).
    destruct (set_state_steady env CS_ROUTING c1) as [(c2 & -> & S2)|[-> Hl]]; [|done| |].
    + apply (quiet_steady c c1 Hc Q).
    + left. exists c2. split; [done|]. destruct Q as [A1 A2 A3 A4 A5 A6], S2 as [B1 B2 B3 B4 B5].
      rewrite A1, A2, A3, A4 in *. split; try done. auto.
    + right. split; [done|]. by rewrite <- (q_state _ _ Q).
Qed.

(** ** Hanging up *)
Definition claimed (c : channel) : bool := test_flag (ch_opaque_flags c) OCF_HANGUP.

Lemma claim_cases c : settled c ->
  (claimed c = true /\ hangup_claim c = (c, false)) \/
  (claimed c = false /\ exists c', hangup_claim c = (c', true) /\ claimed c' = true /\
     c' = c <| ch_opaque_flags := ch_opaque_flags c' |>).
Proof.
  intros Hc. unfold hangup_claim. fold (claimed c). destruct (claimed c) eqn:E; [by left|].
  right. split; [done|]. eexists. split; [done|]. split; [|done].
  unfold claimed, test_flag. simpl. apply negb_true_iff, Z.eqb_neq. intros E0.
  apply (f_equal (fun z => Z.testbit z 0)) in E0.
  rewrite Z.land_spec, Z.lor_spec, orb_true_r in E0 by done. done.
Qed.

Lemma commit_spec env cause c : settled c ->
  let c' := hangup_commit env cause c in
  ch_state c' = CS_HANGUP /\ ch_hangup_cause c' = cause /\ ch_opaque_flags c' = ch_opaque_flags c /\
  kills c' = S (kills c) /\ settled c' /\
  (ch_callstate c = CCS_HANGUP -> ch_callstate c' = CCS_HANGUP).
Proof.
  intros Hc. unfold hangup_commit.
  assert (Q0 : quiet c (end_hold_record env c)).
  { unfold end_hold_record. destruct (ch_hold_record c) as [|hr hrs]; [reflexivity|].
    case_if E; [by split|reflexivity]. }
  set (c0 := end_hold_record env c) in *. clearbody c0.
  set (c1 := c0 <| ch_state := CS_HANGUP |> <| ch_hangup_cause := cause |>).
  match goal with |- context [emit KillChannel (emit EventHangup ?x)] => assert (Q1 : quiet c1 x); [|set (c2 := x) in *] end.
  { etrans; [|by apply quiet_emit_if].
    destruct (proto_specific_hangup_cause env);
      (etrans; [|case_if Ea; [by apply quiet_emit|case_if Eb; [by apply quiet_emit|reflexivity]]]).
    - etrans; [|by apply quiet_emit]. by apply quiet_emit.
    - by apply quiet_emit. }
  clearbody c2. destruct Q0 as [A1 A2 A3 A4 A5 A6], Q1 as [B1 B2 B3 B4 B5 B6].
  assert (C1 : ch_state c1 = CS_HANGUP /\ ch_hangup_cause c1 = cause /\
    ch_opaque_flags c1 = ch_opaque_flags c0 /\ kills c1 = kills c0 /\ ch_times c1 = ch_times c0 /\
    ch_callstate c1 = ch_callstate c0) by done.
  destruct C1 as (C1 & C2 & C3 & C4 & C5 & C6). clearbody c1. cbv zeta.
  split; [simpl; congruence|]. split; [simpl; congruence|]. split; [simpl; congruence|]. split_and!.
  - rewrite !kills_emit. simpl. lia.
  - split; simpl; [|congruence]. apply B5. rewrite C5. apply A5, Hc.
  - intros E. apply B6. rewrite C6. by apply A6.
Qed.

(** What a hangup did, by what it found. *)
Record hung (cause : Z) (c c' : channel) : Prop := {
  hu_claimed : claimed c' = true;
  hu_settled : settled c';
  hu_final : ch_callstate c = CCS_HANGUP -> ch_callstate c' = CCS_HANGUP;
  hu_kept : claimed c = true \/ down (ch_state c) ->
    ch_state c' = ch_state c /\ ch_hangup_cause c' = ch_hangup_cause c /\ kills c' = kills c;
  hu_first : claimed c = false -> live (ch_state c) ->
    ch_state c' = CS_HANGUP /\ ch_hangup_cause c' = cause /\ kills c' = S (kills c)
}.

Lemma hangup_ok env cause c : settled c ->
  exists c', switch_channel_perform_hangup env cause c = Ret c' /\ hung cause c c'.
Proof.
  intros Hc. unfold switch_channel_perform_hangup.
  destruct (claim_cases c Hc) as [[E ->]|[E (c0 & -> & E0 & Hc0)]].
  - destruct (quiet_unhold env c (st_times _ Hc)) as (c1 & -> & Q1). cbn [rbind negb].
    exists c1. split; [done|]. pose proof (quiet_steady _ _ Hc Q1) as S1.
    destruct Q1 as [A1 A2 A3 A4 A5 A6]. split; try done.
    + unfold claimed. by rewrite A3.
    + apply S1.
    + congruence.
  - assert (H0 : settled c0) by (rewrite Hc0; split; apply Hc).
    assert (K0 : ch_state c0 = ch_state c /\ ch_hangup_cause c0 = ch_hangup_cause c /\ kills c0 = kills c /\
                 ch_callstate c0 = ch_callstate c) by (by rewrite Hc0).
    destruct K0 as (K1 & K2 & K3 & K4). clear Hc0.
    destruct (quiet_unhold env c0 (st_times _ H0)) as (c1 & -> & Q1). cbn [rbind negb].
    pose proof (quiet_steady _ _ H0 Q1) as S1.
    destruct (quiet_clear_flag env CF_BLOCK_STATE c1 (st_times _ (sd_settled _ _ S1))) as (c2 & -> & Q2).
    cbn [rbind]. eexists. split; [done|].
    assert (Q : quiet c0 c2) by (by etrans). pose proof (quiet_steady _ _ H0 Q) as S2.
    destruct Q as [A1 A2 A3 A4 A5 A6].
    destruct (commit_spec env cause c2 (sd_settled _ _ S2)) as (B1 & B2 & B3 & B4 & B5 & B6).
    assert (claimed c2 = true) by (unfold claimed; rewrite A3; exact E0).
    assert (Es : ch_state c = ch_state c2) by congruence.
    destruct (Z.ltb_spec (cs_num (ch_state c2)) (cs_num CS_HANGUP)) as [Hl|Hd]; split; try done.
    + unfold claimed. by rewrite B3.
    + intros F. apply B6, A6. congruence.
    + intros [F|F]; [congruence|]. unfold down in F. rewrite Es in F. lia.
    + intros _ _. split_and!; try done. lia.
    + apply S2.
    + intros F. apply A6. congruence.
    + intros _. split_and!; try done; congruence.
    + intros _ F. unfold live in F. rewrite Es in F. lia.
Qed.

(** Operations and hangups, each with what it read from the environment. *)
Inductive life_op := Op (op : chan_op) | Hangup (cause : Z).
Definition exec_life (env : chan_env) (op : life_op) (c : channel) : res channel :=
  match op with
  | Op op => exec_chan env op c
  | Hangup cause => switch_channel_perform_hangup env cause c
  end.
Fixpoint run_life (ops : list (chan_env * life_op)) (c : channel) : res channel :=
  match ops with
  | [] => Ret c
  | (env, op) :: ops => c <-! exec_life env op c;; run_life ops c
  end.
Definition life_ok (ops : list (chan_env * life_op)) : Prop :=
  Forall (fun '(_, op) => match op with Op op => chan_op_ok op | Hangup _ => True end) ops.

Lemma run_down ops : forall c, settled c -> down (ch_state c) -> life_ok ops ->
  exists c', run_life ops c = Ret c' /\ settled c' /\ cs_num (ch_state c) <= cs_num (ch_state c') /\
    ch_hangup_cause c' = ch_hangup_cause c /\ kills c' = kills c /\
    (ch_callstate c = CCS_HANGUP -> ch_callstate c' = CCS_HANGUP).
Proof.
  induction ops as [|[env op] ops IH]; intros c Hc Hd Hok; simpl.
  - exists c. by split_and!.
  - apply Forall_cons in Hok as [Hop Hok].
    assert (H : exists c1, exec_life env op c = Ret c1 /\ settled c1 /\
      cs_num (ch_state c) <= cs_num (ch_state c1) /\ ch_hangup_cause c1 = ch_hangup_cause c /\
      kills c1 = kills c /\ (ch_callstate c = CCS_HANGUP -> ch_callstate c1 = CCS_HANGUP)).
    { destruct op as [op|cause]; simpl.
      - destruct (exec_steady env op c Hc Hop) as [(c1 & E & S1)|[_ Hl]].
        + exists c1. destruct S1 as [B1 B2 B3 B4 B5]. destruct (B4 Hd). by split_and!.
        + unfold live, down in *. lia.
      - destruct (hangup_ok env cause c Hc) as (c1 & E & S1). exists c1.
        destruct S1 as [B1 B2 B3 B4 _]. destruct (B4 (or_intror Hd)) as (-> & -> & ->). split_and!; try done. }
    destruct H as (c1 & -> & S1 & L1 & C1 & K1 & F1). cbn [rbind].
    destruct (IH c1 S1) as (c2 & -> & S2 & L2 & C2 & K2 & F2); [unfold down in *; lia|done|].
    exists c2. split_and!; try done; try congruence; [lia|auto].
Qed.

Lemma down_not_ready env m c : down (ch_state c) -> switch_channel_test_ready env true m c = false.
Proof.
  unfold down, switch_channel_test_ready. intros Hd. case_if E1; [done|]. simpl.
  rewrite (proj2 (Z.ltb_ge _ _)) by (simpl; simpl in Hd; lia). by rewrite andb_false_r.
Qed.

(** ** Claims *)

(** [switch_channel_perform_set_state] moves a channel exactly along
    [may_follow], storing the new state however its mutexes are contended; it
    leaves the channel alone when it is there already or when a channel that
    hung up is asked to go back; every other request stops the process. *)
Theorem set_state_spec (env : chan_env) (next : channel_state) (c : channel) :
  next <> CS_NONE -> ch_state c <> CS_NONE ->
  let back := down (ch_state c) /\ cs_num next < cs_num (ch_state c) in
  (ch_state c = next \/ back -> switch_channel_perform_set_state env next c = Ret c) /\
  (ch_state c <> next -> may_follow (ch_state c) next ->
     exists c', switch_channel_perform_set_state env next c = Ret c' /\ moved c c' next) /\
  (ch_state c <> next -> ~ back -> ~ may_follow (ch_state c) next ->
     switch_channel_perform_set_state env next c = Abort).
Proof.
  intros Hn Hc back.
  assert (Hx : back -> ~ may_follow (ch_state c) next).
  { intros [F1 F2] Hf. unfold may_follow, live, down in *.
    destruct Hf as [E1|[E1|[[Hl _]|[_ Hlt]]]]; [rewrite E1 in F1; simpl in F1; lia..|lia|lia]. }
  destruct (set_state_cases env next c Hn Hc) as [[E H]|[(c' & E & Hm & Hne & Hf)|(E & Hl & Hne & Hf)]].
  - split_and!; [done|..].
    + intros Hne Hf. destruct H as [H|H]; [done|]. by destruct (Hx H).
    + intros Hne Hb. by destruct H.
  - split_and!; [|by exists c'|done]. intros [F|F]; [done|]. by destruct (Hx F).
  - split_and!; [|done|done]. intros [F|[F1 F2]]; [done|]. unfold live, down in *. lia.
Qed.

Definition demo_env : chan_env :=
  mk_env (fun n => 100 + 10 * Z.of_nat n) (Some (str "partner")) true true true true None false false false (fun _ => false).
(** A new inbound channel as [switch_core_session_request] makes it, which was
    given a caller profile. *)
Definition demo_channel : channel :=
  match switch_channel_init demo_env CS_NEW 0 (switch_channel_alloc SWITCH_CALL_DIRECTION_INBOUND) with
  | Ret c => c <| ch_times := Some (mk_times 0 0) |>
  | _ => switch_channel_alloc SWITCH_CALL_DIRECTION_INBOUND
  end.

Lemma set_state_spec_witness :
  switch_channel_perform_set_state demo_env CS_HANGUP (demo_channel <| ch_state := CS_EXECUTE |>) = Abort /\
  (let c := demo_channel <| ch_state := CS_EXECUTE |> in
   CS_EXECUTE <> CS_PARK -> may_follow CS_EXECUTE CS_PARK ->
     exists c', switch_channel_perform_set_state demo_env CS_PARK c = Ret c' /\ moved c c' CS_PARK).
Proof.
  split; [vm_compute; reflexivity|].
  refine (proj1 (proj2 (set_state_spec demo_env CS_PARK (demo_channel <| ch_state := CS_EXECUTE |>) _ _)));
    discriminate.
Defined.

(** C33: hanging up is final.  Whatever is done to a channel that hung up, no
    operation fails, the state only advances towards [CS_DESTROY], the hangup
    cause and a final call state stay, the channel is not killed again, and it
    is never ready. *)
Theorem hangup_is_final (ops : list (chan_env * life_op)) (c : channel) :
  settled c -> down (ch_state c) -> life_ok ops ->
  exists c', run_life ops c = Ret c' /\ cs_num (ch_state c) <= cs_num (ch_state c') <= cs_num CS_DESTROY /\
    ch_hangup_cause c' = ch_hangup_cause c /\ kills c' = kills c /\
    (ch_callstate c = CCS_HANGUP -> ch_callstate c' = CCS_HANGUP) /\
    (forall env media, switch_channel_test_ready env true media c' = false).
Proof.
  intros Hc Hd Hok. destruct (run_down ops c Hc Hd Hok) as (c' & E & Hs & Hle & Hcause & Hk & Hf).
  exists c'. split_and!; try done.
  - pose proof (st_state _ Hs). by destruct (ch_state c').
  - intros env m. apply down_not_ready. unfold down in *. lia.
Qed.

Definition hungup_channel : channel := demo_channel <| ch_state := CS_HANGUP |> <| ch_hangup_cause := 17 |>.
Definition after_life : list (chan_env * life_op) :=
  [(demo_env, Op (SetState CS_EXECUTE)); (demo_env, Op (SetState CS_REPORTING)); (demo_env, Hangup 16);
   (demo_env, Op (SetState CS_HANGUP)); (demo_env, Op (SetRunningState CS_REPORTING))].

Lemma hangup_is_final_witness :
  (ch_state <$> match run_life after_life hungup_channel with Ret c => Some c | _ => None end) = Some CS_REPORTING /\
  exists c', run_life after_life hungup_channel = Ret c' /\
    cs_num CS_HANGUP <= cs_num (ch_state c') <= cs_num CS_DESTROY /\
    ch_hangup_cause c' = 17 /\ kills c' = kills hungup_channel /\
    (ch_callstate hungup_channel = CCS_HANGUP -> ch_callstate c' = CCS_HANGUP) /\
    (forall env media, switch_channel_test_ready env true media c' = false).
Proof.
  split; [vm_compute; reflexivity|].
  apply (hangup_is_final after_life hungup_channel).
  - split; [by eexists|done].
  - done.
  - unfold after_life, life_ok. repeat (apply Forall_cons; split; [done|]). apply Forall_nil. done.
Defined.

(** The first hangup of a live channel decides: it sets the state and the
    cause and kills the channel once; later hangups and other operations change
    none of this. *)
Theorem first_hangup_wins (env : chan_env) (cause : Z) (ops : list (chan_env * life_op)) (c : channel) :
  settled c -> live (ch_state c) -> claimed c = false -> life_ok ops ->
  exists c', run_life ((env, Hangup cause) :: ops) c = Ret c' /\ down (ch_state c') /\
    ch_hangup_cause c' = cause /\ kills c' = S (kills c).
Proof.
  intros Hc Hl Hcl Hok. destruct (hangup_ok env cause c Hc) as (c1 & E1 & H1).
  destruct H1 as [_ S1 _ _ H1]. destruct (H1 Hcl Hl) as (Hs & Hcause & Hk).
  destruct (run_down ops c1 S1) as (c2 & E2 & _ & Hle & Hcause2 & Hk2 & _); [by rewrite Hs|done|].
  exists c2. simpl. rewrite E1. cbn [rbind]. rewrite Hs in Hle. split_and!; try done; congruence.
Qed.

Lemma first_hangup_wins_witness :
  exists c', run_life ((demo_env, Hangup 17) :: after_life) (demo_channel <| ch_state := CS_EXECUTE |>) = Ret c' /\
    down (ch_state c') /\ ch_hangup_cause c' = 17 /\ kills c' = 1%nat.
Proof.
  refine (first_hangup_wins demo_env 17 after_life (demo_channel <| ch_state := CS_EXECUTE |>) _ _ _ _).
  - split; [by eexists|done].
  - vm_compute. reflexivity.
  - vm_compute. reflexivity.
  - unfold after_life, life_ok. repeat (apply Forall_cons; split; [done|]). apply Forall_nil. done.
Defined.

(** ** Flags *)
Lemma flag_put f v c : (Z.to_nat f < length (ch_flags c))%nat -> flag (put_flag f v c) f = v.
Proof. intros H. unfold flag, put_flag. simpl. by rewrite list_lookup_insert_eq. Qed.
Lemma flag_put_ne f g v c : Z.to_nat f <> Z.to_nat g -> flag (put_flag f v c) g = flag c g.
Proof. intros H. unfold flag, put_flag. simpl. by rewrite list_lookup_insert_ne. Qed.
Lemma flag_emit_if b e c f : flag (emit_if b e c) f = flag c f.
Proof. by destruct b. Qed.

Lemma set_callstate_flags cs c : let c' := switch_channel_perform_set_callstate cs c in
  ch_flags c' = ch_flags c /\ ch_state_flags c' = ch_state_flags c /\ ch_running_state c' = ch_running_state c.
Proof.
  unfold switch_channel_perform_set_callstate. destruct (decide _); [done|].
  cbn [ch_device_node set]. by destruct (ch_device_node c).
Qed.

Lemma clear_tagged env c : switch_channel_clear_flag env CF_TAGGED c = Ret (put_flag CF_TAGGED 0 c).
Proof. reflexivity. Qed.

(** The entries set by a sequence of [switch_channel_set_state_flag]. *)
Lemma set_state_flags_spec fs c : fs <> [] -> Forall (fun f => 0 < f < CF_FLAG_MAX) fs ->
  length (ch_state_flags c) = Z.to_nat CF_FLAG_MAX ->
  let c' := fold_right switch_channel_set_state_flag c fs in
  ch_flags c' = ch_flags c /\ length (ch_state_flags c') = Z.to_nat CF_FLAG_MAX /\
  ch_state_flags c' !! 0%nat = Some 1 /\
  (forall f, 0 < f < CF_FLAG_MAX ->
     ch_state_flags c' !! Z.to_nat f = if decide (f ∈ fs) then Some 1 else ch_state_flags c !! Z.to_nat f).
Proof.
  intros Hne Hfs Hl. simpl. induction fs as [|g fs IH]; [done|].
  apply Forall_cons in Hfs as [Hg Hfs]. cbn [fold_right].
  assert (IH' : let c' := fold_right switch_channel_set_state_flag c fs in
    ch_flags c' = ch_flags c /\ length (ch_state_flags c') = Z.to_nat CF_FLAG_MAX /\
    (forall f, 0 < f < CF_FLAG_MAX ->
     ch_state_flags c' !! Z.to_nat f = if decide (f ∈ fs) then Some 1 else ch_state_flags c !! Z.to_nat f)).
  { destruct fs as [|h fs]; [|destruct (IH ltac:(done) Hfs) as (? & ? & _ & ?); by split_and!].
    cbv zeta. cbn [fold_right]. split_and!; [done|done|]. intros f _.
    rewrite decide_False; [done|]. apply not_elem_of_nil. }
  clear IH. destruct IH' as (E & El & Hall). unfold CF_FLAG_MAX in *.
  set (c1 := fold_right switch_channel_set_state_flag c fs) in *. clearbody c1.
  unfold switch_channel_set_state_flag. simpl. split_and!.
  - done.
  - by rewrite !length_insert.
  - rewrite list_lookup_insert_ne by lia. rewrite list_lookup_insert_eq by lia. done.
  - intros f Hf. destruct (decide (f = g)) as [->|Hn].
    + rewrite list_lookup_insert_eq by (rewrite length_insert; lia).
      rewrite decide_True by (apply elem_of_cons; by left). done.
    + rewrite !list_lookup_insert_ne by lia. rewrite Hall by lia.
      destruct (decide (f ∈ fs)) as [Hin|Hin].
      * rewrite decide_True by (apply elem_of_cons; by right). done.
      * rewrite decide_False; [done|]. by intros [?|?]%elem_of_cons.
Qed.

Lemma apply_state_flags_spec c : length (ch_flags c) = Z.to_nat CF_FLAG_MAX ->
  default 0 (ch_state_flags c !! 0%nat) <> 0 ->
  let c' := apply_state_flags c in
  length (ch_flags c') = Z.to_nat CF_FLAG_MAX /\ Forall (fun v => v = 0) (ch_state_flags c') /\
  (forall f, 0 < f < CF_FLAG_MAX ->
     flag c' f = if default 0 (ch_state_flags c !! Z.to_nat f) =? 0 then flag c f else 1).
Proof.
  intros Hl H0. unfold apply_state_flags. rewrite (proj2 (Z.eqb_neq _ _) H0). cbn [negb]. simpl. split_and!.
  - by rewrite length_imap.
  - apply Forall_forall. by intros x (y & -> & _)%list_elem_of_fmap.
  - intros f Hf. unfold flag, CF_FLAG_MAX in *. simpl. rewrite list_lookup_imap.
    destruct (ch_flags c !! Z.to_nat f) as [v|] eqn:E; [|apply lookup_ge_None in E; lia].
    cbn [fmap option_fmap option_map default from_option id].
    rewrite (proj2 (Nat.eqb_neq (Z.to_nat f) 0)) by lia. cbn [negb andb].
    by destruct (default 0 (ch_state_flags c !! Z.to_nat f) =? 0).
Qed.

(** A flag put aside for the next state takes effect, together with all
    others put aside, when the running state changes, and only once: afterwards
    nothing is put aside.  Flags that were not put aside keep their value, but
    for [CF_TAGGED], which a change of the running state clears. *)
Theorem state_flags_wait (env : chan_env) (fs : list Z) (st : channel_state) (c : channel) :
  length (ch_flags c) = Z.to_nat CF_FLAG_MAX -> length (ch_state_flags c) = Z.to_nat CF_FLAG_MAX ->
  Forall (fun v => v = 0) (ch_state_flags c) -> Forall (fun f => 0 < f < CF_FLAG_MAX) fs -> fs <> [] ->
  exists c', switch_channel_perform_set_running_state env st (fold_right switch_channel_set_state_flag c fs) = Ret c' /\
    ch_running_state c' = st /\ Forall (fun v => v = 0) (ch_state_flags c') /\
    (forall f, 0 < f < CF_FLAG_MAX ->
       flag c' f = if decide (f = CF_TAGGED) then 0 else if decide (f ∈ fs) then 1 else flag c f).
Proof.
  intros Hl Hls Hz Hfs Hne.
  destruct (set_state_flags_spec fs c Hne Hfs Hls) as (E1 & E2 & E3 & E4).
  set (c1 := fold_right switch_channel_set_state_flag c fs) in *. clearbody c1.
  destruct (apply_state_flags_spec c1) as (F1 & F2 & F3); [by rewrite E1|by rewrite E3|].
  unfold switch_channel_perform_set_running_state. rewrite clear_tagged. cbn [rbind].
  set (c2 := apply_state_flags c1) in *. clearbody c2. rewrite careful_set_sets.
  set (c3 := (put_flag CF_TAGGED 0 c2) <| ch_running_state := st |>).
  assert (G : forall f, 0 < f < CF_FLAG_MAX ->
    flag c3 f = if decide (f = CF_TAGGED) then 0 else if decide (f ∈ fs) then 1 else flag c f).
  { intros f Hf. change (flag c3 f) with (flag (put_flag CF_TAGGED 0 c2) f).
    destruct (decide (f = CF_TAGGED)) as [->|Hn].
    - rewrite flag_put; [done|]. rewrite F1. unfold CF_TAGGED, CF_FLAG_MAX. lia.
    - rewrite flag_put_ne by (unfold CF_TAGGED in *; lia). rewrite F3, E4 by done.
      destruct (decide (f ∈ fs)); [done|]. rewrite Forall_lookup in Hz.
      destruct (ch_state_flags c !! Z.to_nat f) as [v|] eqn:Ev.
      + rewrite (Hz _ _ Ev). simpl. unfold flag. by rewrite E1.
      + simpl. unfold flag. by rewrite E1. }
  assert (R : ch_running_state c3 = st /\ Forall (fun v => v = 0) (ch_state_flags c3)) by done.
  destruct R as [R1 R2]. clearbody c3. eexists. split; [done|].
  assert (K : forall c4, ch_flags c4 = ch_flags c3 /\ ch_state_flags c4 = ch_state_flags c3 /\
                ch_running_state c4 = ch_running_state c3 ->
    ch_running_state c4 = st /\ Forall (fun v => v = 0) (ch_state_flags c4) /\
    forall f, 0 < f < CF_FLAG_MAX ->
      flag c4 f = if decide (f = CF_TAGGED) then 0 else if decide (f ∈ fs) then 1 else flag c f).
  { intros c4 (K1 & K2 & K3). rewrite K2, K3. split_and!; try done. intros f Hf. unfold flag at 1. rewrite K1. by apply G. }
  apply K. case_if Ea; [|done]. cbn [emit set ch_flags ch_state_flags ch_running_state].
  repeat (case_inner_if; [apply set_callstate_flags|]); try done; try apply set_callstate_flags.
  repeat (case_inner_if; try done; try apply set_callstate_flags).
Qed.

Lemma state_flags_wait_witness :
  exists c', switch_channel_perform_set_running_state demo_env CS_EXECUTE
      (fold_right switch_channel_set_state_flag demo_channel [CF_TRANSFER; CF_BRIDGED]) = Ret c' /\
    ch_running_state c' = CS_EXECUTE /\ Forall (fun v => v = 0) (ch_state_flags c') /\
    (forall f, 0 < f < CF_FLAG_MAX ->
       flag c' f = if decide (f = CF_TAGGED) then 0
                   else if decide (f ∈ [CF_TRANSFER; CF_BRIDGED]) then 1 else flag demo_channel f).
Proof.
  apply (state_flags_wait demo_env [CF_TRANSFER; CF_BRIDGED] CS_EXECUTE demo_channel).
  - vm_compute. reflexivity.
  - vm_compute. reflexivity.
  - by apply (Forall_replicate (fun v => v = 0) (Z.to_nat CF_FLAG_MAX) 0).
  - repeat (apply Forall_cons; split; [vm_compute; split; reflexivity|]). by apply Forall_nil.
  - discriminate.
Defined.

(** ** Hold *)
Lemma set_callstate_spec cs c : let c' := switch_channel_perform_set_callstate cs c in
  ch_callstate c' = (if decide (ch_callstate c = CCS_HANGUP) then CCS_HANGUP else cs) /\
  ch_times c' = ch_times c /\ ch_hold_record c' = ch_hold_record c /\ ch_ticks c' = ch_ticks c /\
  ch_flags c' = ch_flags c.
Proof.
  unfold switch_channel_perform_set_callstate. destruct (decide (_ \/ _)) as [H|H].
  - split_and!; try done. destruct (decide (ch_callstate c = CCS_HANGUP)) as [->|Hn]; [done|]. by destruct H.
  - rewrite decide_False by (intros E; apply H; by right). cbn [ch_device_node set].
    by destruct (ch_device_node c).
Qed.

(** A leg goes on hold. *)
Lemma mark_hold_on env c t : length (ch_flags c) = Z.to_nat CF_FLAG_MAX ->
  flag c CF_LEG_HOLDING = 0 -> switch_channel_test_flag c CF_ANSWERED = true -> ch_times c = Some t ->
  exists c', switch_channel_mark_hold env true c = Ret c' /\
    ch_callstate c' = (if decide (ch_callstate c = CCS_HANGUP) then CCS_HANGUP else CCS_HELD) /\
    ch_times c' = Some (mk_times (clock env (ch_ticks c)) (hold_accum t)) /\
    ch_hold_record c' = mk_hold (clock env (S (ch_ticks c))) 0 (partner_uuid env) :: ch_hold_record c /\
    ch_ticks c' = S (S (ch_ticks c)) /\ ch_flags c' = ch_flags (put_flag CF_LEG_HOLDING 1 c).
Proof.
  intros Hl Hf Ha Ht. unfold switch_channel_mark_hold. unfold switch_channel_test_flag at 1. rewrite Hf.
  cbn [Z.eqb negb eqb]. unfold switch_channel_set_flag, switch_channel_set_flag_value. rewrite Hf, Ha.
  change (CF_LEG_HOLDING =? CF_LEG_HOLDING) with true. change (0 =? 0) with true. change (0 =? 1) with false.
  cbn [andb negb]. change (CF_LEG_HOLDING =? CF_ORIGINATOR) with false.
  change (CF_LEG_HOLDING =? CF_DIALPLAN) with false. change (CF_LEG_HOLDING =? CF_VIDEO_READY) with false.
  cbn [andb emit_if]. unfold start_hold.
  destruct (set_callstate_spec CCS_HELD (put_flag CF_LEG_HOLDING 1 c)) as (S1 & S2 & S3 & S4 & S5).
  set (c1 := switch_channel_perform_set_callstate CCS_HELD (put_flag CF_LEG_HOLDING 1 c)) in *.
  clearbody c1. simpl in S1, S2, S3, S4. rewrite S2, Ht. cbn [or_ub rbind].
  eexists. split; [done|].
  destruct (flip_record_on_hold env && has_partner env); simpl; rewrite ?S1, ?S3, ?S4, ?S5; by split_and!.
Qed.

(** A leg leaves hold. *)
Lemma mark_hold_off env c t hr hrs : length (ch_flags c) = Z.to_nat CF_FLAG_MAX ->
  flag c CF_LEG_HOLDING <> 0 -> switch_channel_test_flag c CF_ANSWERED = true -> ch_times c = Some t ->
  last_hold t <> 0 -> ch_hold_record c = hr :: hrs ->
  exists c', switch_channel_mark_hold env false c = Ret c' /\
    ch_callstate c' = (if decide (ch_callstate c = CCS_HANGUP) then CCS_HANGUP
       else if switch_channel_test_flag c CF_PROXY_MODE && switch_channel_test_flag c CF_BRIDGED
            then CCS_ACTIVE else CCS_UNHELD) /\
    ch_times c' = Some (mk_times (last_hold t) (hold_accum t + (clock env (ch_ticks c) - last_hold t))) /\
    ch_hold_record c' = mk_hold (hr_on hr) (clock env (S (ch_ticks c))) (hr_uuid hr) :: hrs /\
    ch_flags c' = ch_flags (put_flag CF_LEG_HOLDING 0 c).
Proof.
  intros Hl Hf Ha Ht Hh Hr. unfold switch_channel_mark_hold.
  assert (Hset : switch_channel_test_flag c CF_LEG_HOLDING = true)
    by (unfold switch_channel_test_flag; by rewrite (proj2 (Z.eqb_neq _ _) Hf)).
  rewrite Hset. cbn [eqb]. unfold switch_channel_clear_flag. rewrite Hset, Ha.
  change (CF_LEG_HOLDING =? CF_LEG_HOLDING) with true. change (CF_LEG_HOLDING =? CF_VIDEO_PASSIVE) with false.
  change (CF_LEG_HOLDING =? CF_DIALPLAN) with false. change (CF_LEG_HOLDING =? CF_ORIGINATOR) with false.
  cbn [andb emit_if]. unfold end_hold.
  destruct (set_callstate_spec CCS_UNHELD (put_flag CF_LEG_HOLDING 0 c)) as (S1 & S2 & S3 & S4 & S5).
  assert (T : forall g, g = CF_PROXY_MODE \/ g = CF_BRIDGED ->
    forall c1, ch_flags c1 = ch_flags (put_flag CF_LEG_HOLDING 0 c) ->
    switch_channel_test_flag c1 g = switch_channel_test_flag c g).
  { intros g Hg c1 E. unfold switch_channel_test_flag, flag. rewrite E.
    change (default 0 (ch_flags (put_flag CF_LEG_HOLDING 0 c) !! Z.to_nat g)) with (flag (put_flag CF_LEG_HOLDING 0 c) g).
    rewrite flag_put_ne; [done|]. destruct Hg as [-> | ->]; vm_compute; discriminate. }
  set (c1 := switch_channel_perform_set_callstate CCS_UNHELD (put_flag CF_LEG_HOLDING 0 c)) in *.
  clearbody c1. simpl in S1, S2, S3, S4. rewrite S2, Ht. cbn [or_ub rbind].
  rewrite (proj2 (Z.eqb_neq _ _) Hh).
  match goal with |- context [ch_hold_record ?x] => change (ch_hold_record x) with (ch_hold_record c1) end.
  rewrite S3, Hr.
  match goal with |- context [switch_channel_test_flag ?x CF_PROXY_MODE] => set (c2 := x) end.
  rewrite (T CF_PROXY_MODE), (T CF_BRIDGED) by (try exact S5; auto).
  match goal with |- context [if ?b then switch_channel_perform_set_callstate CCS_ACTIVE c2 else c2] =>
    set (c3 := if b then switch_channel_perform_set_callstate CCS_ACTIVE c2 else c2) end.
  assert (H3 : ch_callstate c3 = (if decide (ch_callstate c = CCS_HANGUP) then CCS_HANGUP
       else if switch_channel_test_flag c CF_PROXY_MODE && switch_channel_test_flag c CF_BRIDGED
            then CCS_ACTIVE else CCS_UNHELD) /\
    ch_times c3 = ch_times c2 /\ ch_hold_record c3 = ch_hold_record c2 /\ ch_flags c3 = ch_flags c2).
  { subst c3. destruct (_ && _).
    - destruct (set_callstate_spec CCS_ACTIVE c2) as (R1 & R2 & R3 & _ & R5). rewrite R1, R2, R3, R5.
      subst c2. simpl. rewrite S1. split_and!; try done. by destruct (decide (ch_callstate c = CCS_HANGUP)).
    - subst c2. simpl. by rewrite S1. }
  destruct H3 as (R1 & R2 & R3 & R5). clearbody c3.
  change (CF_LEG_HOLDING =? CF_OUTBOUND) with false. change (CF_LEG_HOLDING =? CF_RECOVERED) with false.
  change (CF_LEG_HOLDING =? CF_RECOVERING) with false. cbn [andb emit_if rbind].
  eexists. split; [done|]. simpl. rewrite R1, R2, R3, R5. subst c2. simpl. by rewrite S4, S5.
Qed.

(** Hold times.  When an answered leg is put on hold and taken off it, the
    time between the two readings of the clock is added to the hold time, a hold
    record with both ends and the partner's name is in front, the flag is clear
    again, and the call state is unheld, or active for a bridged leg without
    media. *)
Theorem hold_accounting (e1 e2 : chan_env) (c : channel) (t : timetable) :
  length (ch_flags c) = Z.to_nat CF_FLAG_MAX ->
  flag c CF_LEG_HOLDING = 0 -> switch_channel_test_flag c CF_ANSWERED = true ->
  ch_callstate c <> CCS_HANGUP -> ch_times c = Some t -> clock e1 (ch_ticks c) <> 0 ->
  exists c1 c2, switch_channel_mark_hold e1 true c = Ret c1 /\ ch_callstate c1 = CCS_HELD /\
    switch_channel_mark_hold e2 false c1 = Ret c2 /\
    (let now k := (ch_ticks c + k)%nat in
     hold_accum <$> ch_times c2 = Some (hold_accum t + (clock e2 (now 2%nat) - clock e1 (now 0%nat))) /\
     ch_hold_record c2 = mk_hold (clock e1 (now 1%nat)) (clock e2 (now 3%nat)) (partner_uuid e1) :: ch_hold_record c) /\
    ch_callstate c2 = (if switch_channel_test_flag c CF_PROXY_MODE && switch_channel_test_flag c CF_BRIDGED
                       then CCS_ACTIVE else CCS_UNHELD) /\
    flag c2 CF_LEG_HOLDING = 0.
Proof.
  intros Hl Hf Ha Hc Ht Hck.
  destruct (mark_hold_on e1 c t Hl Hf Ha Ht) as (c1 & E1 & A1 & A2 & A3 & A4 & A5).
  assert (Hl1 : length (ch_flags c1) = Z.to_nat CF_FLAG_MAX) by (rewrite A5; simpl; by rewrite length_insert).
  assert (F1 : forall g, flag c1 g = flag (put_flag CF_LEG_HOLDING 1 c) g) by (intros g; unfold flag; by rewrite A5).
  assert (Hf1 : flag c1 CF_LEG_HOLDING = 1).
  { rewrite F1, flag_put; [done|]. rewrite Hl. unfold CF_LEG_HOLDING, CF_FLAG_MAX. lia. }
  assert (T1 : forall g, g = CF_ANSWERED \/ g = CF_PROXY_MODE \/ g = CF_BRIDGED ->
    switch_channel_test_flag c1 g = switch_channel_test_flag c g).
  { intros g Hg. unfold switch_channel_test_flag. rewrite F1, flag_put_ne; [done|].
    destruct Hg as [-> | [-> | ->]]; vm_compute; discriminate. }
  destruct (mark_hold_off e2 c1 _ _ _ Hl1 ltac:(by rewrite Hf1) ltac:(by rewrite T1; auto) A2 Hck A3)
    as (c2 & E2 & B1 & B2 & B3 & B4).
  rewrite decide_False in A1 by done.
  exists c1, c2. split; [done|]. split; [done|]. split; [done|]. cbv zeta.
  rewrite !Nat.add_0_r, !Nat.add_succ_r, !Nat.add_0_r. rewrite A4 in B2, B3. split_and!.
  - by rewrite B2.
  - by rewrite B3.
  - rewrite B1, A1. by rewrite !T1 by auto.
  - unfold flag. rewrite B4. change (default 0 _) with (flag (put_flag CF_LEG_HOLDING 0 c1) CF_LEG_HOLDING).
    rewrite flag_put; [done|]. rewrite Hl1. unfold CF_LEG_HOLDING, CF_FLAG_MAX. lia.
Qed.

Lemma hold_accounting_witness :
  exists c1 c2, switch_channel_mark_hold demo_env true (put_flag CF_ANSWERED 1 demo_channel) = Ret c1 /\
    ch_callstate c1 = CCS_HELD /\ switch_channel_mark_hold demo_env false c1 = Ret c2 /\
    (hold_accum <$> ch_times c2 = Some (0 + (120 - 100)) /\
     ch_hold_record c2 = [mk_hold 110 130 (Some (str "partner"))]) /\
    ch_callstate c2 = CCS_UNHELD /\ flag c2 CF_LEG_HOLDING = 0.
Proof.
  refine (hold_accounting demo_env demo_env (put_flag CF_ANSWERED 1 demo_channel) (mk_times 0 0) _ _ _ _ _ _);
    try (vm_compute; reflexivity); vm_compute; discriminate.
Defined.
