(* ===== verification/ChannelRace.v ===== *)
(** * ChannelRace: threads that hang up a channel at the same time

    [switch_channel_perform_hangup] takes the state mutex to choose one caller,
    releases it, and later reads the state without it.  Here the pieces of the
    function run one at a time, interleaved with each other, for any number of
    threads, and with the other operations of the channel. *)
From S2P Require Import Prelude ChannelNames ChannelState ChannelLife.
From Stdlib Require Import ZArith Lia.
From stdpp Require Import base numbers option list.

Local Open Scope Z_scope.

(** Where a thread is in [switch_channel_perform_hangup].  [HDone won killed]:
    it was the one chosen, and it found the channel alive. *)
Inductive hpc :=
| HStart
| HClaimed (ok : bool)
| HUnheld
| HCleared
| HCommit
| HDone (won killed : bool).

Record hthread := mk_hthread { h_env : chan_env; h_cause : Z; h_pc : hpc }.
Record race := mk_race { r_chan : channel; r_threads : list hthread }.

Definition at_pc (t : hthread) (pc : hpc) : hthread := mk_hthread (h_env t) (h_cause t) pc.

Inductive race_step : race -> race -> Prop :=
| rs_claim c l1 t l2 : h_pc t = HStart ->
    race_step (mk_race c (l1 ++ t :: l2))
      (mk_race (hangup_claim c).1 (l1 ++ at_pc t (HClaimed (hangup_claim c).2) :: l2))
| rs_unhold c c' l1 t l2 ok : h_pc t = HClaimed ok -> hangup_unhold (h_env t) c = Ret c' ->
    race_step (mk_race c (l1 ++ t :: l2))
      (mk_race c' (l1 ++ at_pc t (if ok then HUnheld else HDone false false) :: l2))
| rs_clear c c' l1 t l2 : h_pc t = HUnheld -> switch_channel_clear_flag (h_env t) CF_BLOCK_STATE c = Ret c' ->
    race_step (mk_race c (l1 ++ t :: l2)) (mk_race c' (l1 ++ at_pc t HCleared :: l2))
| rs_check c l1 t l2 : h_pc t = HCleared ->
    race_step (mk_race c (l1 ++ t :: l2))
      (mk_race c (l1 ++ at_pc t (if cs_num (ch_state c) <? cs_num CS_HANGUP then HCommit else HDone true false) :: l2))
| rs_commit c l1 t l2 : h_pc t = HCommit ->
    race_step (mk_race c (l1 ++ t :: l2))
      (mk_race (hangup_commit (h_env t) (h_cause t) c) (l1 ++ at_pc t (HDone true true) :: l2))
| rs_other c c' l env op : chan_op_ok op -> exec_chan env op c = Ret c' ->
    race_step (mk_race c l) (mk_race c' l).

Inductive race_steps : race -> race -> Prop :=
| race_refl r : race_steps r r
| race_next r1 r2 r3 : race_steps r1 r2 -> race_step r2 r3 -> race_steps r1 r3.

(** ** One winner *)
Definition wins (pc : hpc) : bool :=
  match pc with HClaimed true | HUnheld | HCleared | HCommit | HDone true _ => true | _ => false end.
Definition started (pc : hpc) : bool := match pc with HStart => false | _ => true end.
Definition killed (pc : hpc) : bool := match pc with HDone _ true => true | _ => false end.
Definition finished (pc : hpc) : bool := match pc with HDone _ _ => true | _ => false end.

Definition count (p : hpc -> bool) (l : list hthread) : nat := length (List.filter (fun t => p (h_pc t)) l).

Lemma count_app p l1 l2 : count p (l1 ++ l2) = (count p l1 + count p l2)%nat.
Proof. unfold count. by rewrite List.filter_app, length_app. Qed.
Lemma count_cons p t l : count p (t :: l) = ((if p (h_pc t) then 1 else 0) + count p l)%nat.
Proof. unfold count. simpl. by destruct (p (h_pc t)). Qed.

(** Only a winner kills the channel. *)
Definition sane (t : hthread) : Prop := killed (h_pc t) = true -> wins (h_pc t) = true.
Lemma sane_count l : Forall sane l -> (count killed l <= count wins l)%nat.
Proof.
  induction 1 as [|t l Ht _ IH]; [done|]. rewrite !count_cons. unfold sane in Ht.
  destruct (killed (h_pc t)); [rewrite Ht by done; lia|]. lia.
Qed.
Lemma sane_swap l1 t t' l2 : Forall sane (l1 ++ t :: l2) -> sane t' -> Forall sane (l1 ++ t' :: l2).
Proof.
  intros [H1 [_ H2]%Forall_cons]%Forall_app Ht. apply Forall_app. split; [done|]. by apply Forall_cons.
Qed.

(** [k0] is how often the channel was killed before. *)
Record race_ok (k0 : nat) (r : race) : Prop := {
  ra_settled : settled (r_chan r);
  (** the flag is set exactly when there is a winner, of which there is one *)
  ra_claimed : count wins (r_threads r) = if claimed (r_chan r) then 1%nat else 0%nat;
  ra_started : (0 < count started (r_threads r))%nat -> claimed (r_chan r) = true;
  ra_kills : kills (r_chan r) = (k0 + count killed (r_threads r))%nat;
  ra_killed : Forall sane (r_threads r);
  (** a winner that is done left the channel down *)
  ra_down : (exists t, t ∈ r_threads r /\ wins (h_pc t) = true /\ finished (h_pc t) = true) ->
            down (ch_state (r_chan r))
}.

(** The operations of a thread that only touch flags. *)
Lemma race_ok_quiet k0 c c' l l' : race_ok k0 (mk_race c l) -> quiet c c' ->
  count wins l' = count wins l -> count started l' = count started l -> count killed l' = count killed l ->
  Forall sane l' ->
  (forall t, t ∈ l' -> wins (h_pc t) = true -> finished (h_pc t) = true ->
     t ∈ l \/ down (ch_state c)) ->
  race_ok k0 (mk_race c' l').
Proof.
  intros [R1 R2 R3 R4 R5 R6] Q E1 E2 E3 Hsane Hfin. simpl in *.
  pose proof (quiet_steady _ _ R1 Q) as S. destruct Q as [Q1 Q2 Q3 Q4 Q5 Q6].
  assert (Ec : claimed c' = claimed c) by (unfold claimed; by rewrite Q3).
  split; simpl; rewrite ?E1, ?E2, ?E3, ?Ec, ?Q4, ?Q1; try done; [apply S|].
  intros (t & Ht & Hw & Hf). destruct (Hfin t Ht Hw Hf) as [Hl|Hd]; [|done]. apply R6. by exists t.
Qed.

Lemma race_fin l1 t t' l2 c : finished (h_pc t') = false \/ wins (h_pc t') = false \/ down (ch_state c) ->
  forall u, u ∈ l1 ++ t' :: l2 -> wins (h_pc u) = true -> finished (h_pc u) = true ->
  u ∈ l1 ++ t :: l2 \/ down (ch_state c).
Proof.
  intros Ht u Hu Hw Hf. apply elem_of_app in Hu as [Hu|[-> |Hu]%elem_of_cons].
  - left. apply elem_of_app. by left.
  - destruct Ht as [Ht|[Ht|Ht]]; [congruence|congruence|by right].
  - left. apply elem_of_app. right. apply elem_of_cons. by right.
Qed.

Ltac count_steps E := rewrite ?count_app, ?count_cons; simpl; rewrite E; simpl; lia.

Lemma race_step_ok k0 r r' : race_ok k0 r -> race_step r r' -> race_ok k0 r'.
Proof.
  intros R Hs. destruct Hs as [c l1 t l2 E|c c' l1 t l2 ok E Hu|c c' l1 t l2 E Hc|c l1 t l2 E|c l1 t l2 E|c c' l env op Hop Hx].
  - pose proof (ra_settled _ _ R) as Hset. simpl in Hset.
    destruct (claim_cases c Hset) as [[Hcl ->]|[Hcl (c' & -> & Hcl' & Hc')]]; simpl.
    + destruct R as [R1 R2 R3 R4 R5 R6]. simpl in *.
      rewrite !count_app, !count_cons, E in *. simpl in *. split; simpl; rewrite ?count_app, ?count_cons; simpl; try done; try lia;
        [by eapply sane_swap|]. intros (u & Hu & Hw & Hf).
      destruct (race_fin l1 t (at_pc t (HClaimed false)) l2 c ltac:(by left) u Hu Hw Hf); [|done]. apply R6. by exists u.
    + destruct R as [R1 R2 R3 R4 R5 R6]. simpl in *.
      rewrite !count_app, !count_cons, E in *. rewrite Hcl in *. simpl in *.
      assert (Hk : kills c' = kills c) by (by rewrite Hc').
      split; simpl; rewrite ?count_app, ?count_cons, ?Hcl', ?Hk; simpl; try done; try lia.
      * rewrite Hc'. split; apply R1.
      * by eapply sane_swap.
      * intros (u & Hu & Hw & Hf). rewrite Hc'. simpl.
        destruct (race_fin l1 t (at_pc t (HClaimed true)) l2 c ltac:(by left) u Hu Hw Hf); [|done]. apply R6. by exists u.
  - destruct (quiet_unhold (h_env t) c (st_times _ (ra_settled _ _ R))) as (c2 & E2 & Q).
    rewrite Hu in E2. injection E2 as <-.
    eapply race_ok_quiet; [exact R|exact Q|..]; [destruct ok; count_steps E..| |].
    { eapply sane_swap; [apply R|]. by destruct ok. }
    apply race_fin. destruct ok; [by left|by right; left].
  - destruct (quiet_clear_flag (h_env t) CF_BLOCK_STATE c (st_times _ (ra_settled _ _ R))) as (c2 & E2 & Q).
    rewrite Hc in E2. injection E2 as <-.
    eapply race_ok_quiet; [exact R|exact Q|..]; [count_steps E..| |].
    { eapply sane_swap; [apply R|done]. }
    apply race_fin. by left.
  - eapply race_ok_quiet; [exact R|reflexivity|..]; [case_if F; count_steps E..| |].
    { eapply sane_swap; [apply R|]. by case_if F. }
    destruct (Z.ltb_spec (cs_num (ch_state c)) (cs_num CS_HANGUP)) as [Hl|Hd]; apply race_fin; [by left|].
    by right; right.
  - destruct (commit_spec (h_env t) (h_cause t) c (ra_settled _ _ R)) as (B1 & B2 & B3 & B4 & B5 & _).
    set (c' := hangup_commit (h_env t) (h_cause t) c) in *. clearbody c'.
    destruct R as [R1 R2 R3 R4 R5 R6]. simpl in *.
    assert (Ec : claimed c' = claimed c) by (unfold claimed; by rewrite B3).
    rewrite !count_app, !count_cons, E in *. simpl in *.
    split; simpl; rewrite ?count_app, ?count_cons, ?Ec; simpl; try done; try lia.
    + by eapply sane_swap.
    + intros _. by rewrite B1.
  - destruct (exec_steady env op c (ra_settled _ _ R) Hop) as [(c2 & E2 & S)|[E2 _]]; [|congruence].
    rewrite Hx in E2. injection E2 as <-. destruct R as [R1 R2 R3 R4 R5 R6], S as [S1 S2 S3 S4 S5]. simpl in *.
    assert (Ec : claimed c' = claimed c) by (unfold claimed; by rewrite S1).
    split; simpl; rewrite ?Ec, ?S2; try done.
    intros Hw. pose proof (R6 Hw) as Hd. destruct (S4 Hd) as [Hle _]. unfold down in *. lia.
Qed.

Definition waiting (ts : list (chan_env * Z)) : list hthread := map (fun t => mk_hthread t.1 t.2 HStart) ts.

Lemma waiting_count p ts : p HStart = false -> count p (waiting ts) = 0%nat.
Proof.
  intros Hp. unfold waiting. induction ts as [|t ts IH]; [done|]. cbn [map]. rewrite count_cons. simpl.
  rewrite Hp. exact IH.
Qed.

Lemma race_start_ok c ts : settled c -> claimed c = false -> race_ok (kills c) (mk_race c (waiting ts)).
Proof.
  intros Hc Hcl. split; simpl; rewrite ?waiting_count, ?Hcl by done; try done; try lia.
  - apply Forall_forall. by intros t (x & -> & _)%list_elem_of_fmap.
  - by intros (t & (x & -> & _)%list_elem_of_fmap & Hw & _).
Qed.

Lemma race_steps_ok k0 r r' : race_ok k0 r -> race_steps r r' -> race_ok k0 r'.
Proof. intros R Hs. induction Hs as [|r1 r2 r3 _ IH Hs]; [done|]. eapply race_step_ok; [by apply IH|done]. Qed.

(** C11: however many threads hang up a channel at once, and whatever else
    happens to it meanwhile, at most one of them is chosen and at most one kills
    the channel; when all of them are done, one was chosen and the channel is
    down. *)
Theorem one_hangup_per_channel (c : channel) (ts : list (chan_env * Z)) (r : race) :
  settled c -> claimed c = false -> race_steps (mk_race c (waiting ts)) r ->
  (count wins (r_threads r) <= 1)%nat /\ (kills (r_chan r) <= kills c + 1)%nat /\
  (ts <> [] -> Forall (fun t => finished (h_pc t) = true) (r_threads r) ->
     count wins (r_threads r) = 1%nat /\ down (ch_state (r_chan r))).
Proof.
  intros Hc Hcl Hs. pose proof (race_steps_ok _ _ _ (race_start_ok c ts Hc Hcl) Hs) as R.
  assert (Hlen : length (r_threads r) = length ts).
  { remember (mk_race c (waiting ts)) as r0 eqn:E0. clear R.
    induction Hs as [r0|r0 r1 r2 Hs1 IH Hs2]; [subst; apply length_map|].
    rewrite <- (IH E0). destruct Hs2; simpl; rewrite ?length_app; simpl; lia. }
  destruct R as [R1 R2 R3 R4 R5 R6]. pose proof (sane_count _ R5).
  assert (count wins (r_threads r) <= 1)%nat by (rewrite R2; destruct (claimed (r_chan r)); lia).
  split_and!; [done|lia|]. intros Hne Hfin.
  assert (Hstart : (0 < count started (r_threads r))%nat).
  { destruct (r_threads r) as [|t l]; [by destruct ts|]. apply Forall_cons in Hfin as [Hf _].
    rewrite count_cons. destruct (h_pc t); simpl in *; (done || lia). }
  rewrite (R3 Hstart) in R2. split; [done|]. apply R6.
  assert (Hw : exists t, t ∈ r_threads r /\ wins (h_pc t) = true).
  { unfold count in R2. destruct (List.filter _ _) as [|t l] eqn:E; [done|].
    assert (Hin : In t (List.filter (fun t => wins (h_pc t)) (r_threads r))) by (rewrite E; by left).
    apply filter_In in Hin as [Hin Hw]. exists t. split; [by apply list_elem_of_In|done]. }
  destruct Hw as (t & Ht & Hw). exists t. split_and!; try done.
  rewrite Forall_forall in Hfin. by apply Hfin.
Qed.

(** ** A late hangup *)

(** Two threads hang up a channel that is executing; the first is chosen, the
    second returns at once. *)
Definition race_channel : channel := demo_channel <| ch_state := CS_EXECUTE |>.

Lemma race_channel_settled : settled race_channel.
Proof. split; [by eexists|done]. Qed.

Lemma one_hangup_per_channel_witness :
  let r := mk_race (hangup_claim race_channel).1
             [mk_hthread demo_env 16 (HClaimed true); mk_hthread demo_env 17 HStart] in
  (count wins (r_threads r) <= 1)%nat /\ (kills (r_chan r) <= kills race_channel + 1)%nat /\
  ([(demo_env, 16); (demo_env, 17)] <> [] -> Forall (fun t => finished (h_pc t) = true) (r_threads r) ->
     count wins (r_threads r) = 1%nat /\ down (ch_state (r_chan r))).
Proof.
  intros r. apply (one_hangup_per_channel race_channel [(demo_env, 16); (demo_env, 17)] r).
  - exact race_channel_settled.
  - vm_compute. reflexivity.
  - eapply race_next; [apply race_refl|].
    apply (rs_claim race_channel [] (mk_hthread demo_env 16 HStart) [mk_hthread demo_env 17 HStart]).
    reflexivity.
Defined.

(** The state is read before it is written, without the mutex.  A thread
    that found the channel alive writes [CS_HANGUP] even if the channel went
    down in between: here a reset channel is set to [CS_HANGUP] and then to
    [CS_REPORTING] by others, and the late hangup takes it back to [CS_HANGUP],
    which [switch_channel_perform_set_state] never does. *)
Theorem late_hangup_goes_back :
  exists c0 env cause c1 t c2, settled c0 /\ claimed c0 = false /\
    race_steps (mk_race c0 (waiting [(env, cause)])) (mk_race c1 [t]) /\ ch_state c1 = CS_REPORTING /\
    race_step (mk_race c1 [t]) (mk_race c2 [at_pc t (HDone true true)]) /\ ch_state c2 = CS_HANGUP /\
    switch_channel_perform_set_state env CS_HANGUP c1 = Ret c1.
Proof.
  pose (c0 := demo_channel <| ch_state := CS_RESET |>).
  pose (t := mk_hthread demo_env 17 HStart).
  pose (ca := (hangup_claim c0).1).
  pose (get r := match r with Ret c => c | _ => c0 end).
  pose (cb := get (switch_channel_clear_flag demo_env CF_BLOCK_STATE ca)).
  pose (cc := get (switch_channel_perform_set_state demo_env CS_HANGUP cb)).
  pose (cd := get (switch_channel_perform_set_state demo_env CS_REPORTING cc)).
  exists c0, demo_env, 17, cd, (at_pc t HCommit), (hangup_commit demo_env 17 cd).
  split; [split; [by eexists|done]|]. split; [vm_compute; reflexivity|]. split_and!.
  - eapply race_next; [|apply (rs_other cc cd _ demo_env (SetState CS_REPORTING)); [done|vm_compute; reflexivity]].
    eapply race_next; [|apply (rs_other cb cc _ demo_env (SetState CS_HANGUP)); [done|vm_compute; reflexivity]].
    eapply race_next; [|apply (rs_check cb [] (at_pc t HCleared) []); reflexivity].
    eapply race_next; [|apply (rs_clear ca cb [] (at_pc t HUnheld) []); [reflexivity|vm_compute; reflexivity]].
    eapply race_next; [|apply (rs_unhold ca ca [] (at_pc t (HClaimed true)) [] true); [reflexivity|vm_compute; reflexivity]].
    eapply race_next; [apply race_refl|]. apply (rs_claim c0 [] t []). reflexivity.
  - vm_compute. reflexivity.
  - apply (rs_commit cd [] (at_pc t HCommit) []). reflexivity.
  - vm_compute. reflexivity.
  - vm_compute. reflexivity.
Qed.
