(* ===== verification/Utf8.v ===== *)
(** * Utf8: the UTF-8 routines of src/switch_utf8.c

    A text is the C object that holds it: a list of bytes, with the terminating
    zero and what lies behind it.  A read outside the list is undefined, so the
    model shows which routines look past the terminator.  Characters are
    [uint32_t].  Destination buffers are returned as the bytes written. *)
From S2P Require Import Prelude.
From Stdlib Require Import ZArith Lia.
From stdpp Require Import base numbers option list.

Local Open Scope Z_scope.

(** ** Tables and characters *)
Definition offsetsFromUTF8 : list Z :=
  [0x00000000; 0x00003080; 0x000E2080; 0x03C82080; 0xFA082080; 0x82082080].

Definition trailingBytesForUTF8 : list Z :=
  replicate 192 0 ++ replicate 32 1 ++ replicate 16 2 ++ replicate 8 3 ++ replicate 4 4 ++ replicate 4 5.

(** [isutf] of include/switch_utf8.h: not a continuation byte. *)
Definition isutf (c : Z) : bool := negb (Z.land c 0xC0 =? 0x80).

(** [s[i]] *)
Definition rd (s : list Z) (i : Z) : res Z := if i <? 0 then Ub else or_ub (s !! Z.to_nat i).

Definition trailing (c : Z) : Z := default 0 (trailingBytesForUTF8 !! Z.to_nat c).

Definition switch_u8_seqlen (s : list Z) : res Z := c <-! rd s 0;; Ret (trailing c + 1).

(** [ch += *src++; ch <<= 6; ...] for [nb] trailing bytes. *)
Fixpoint take_bytes (nb : nat) (s : list Z) (p ch : Z) : res (Z * Z) :=
  b <-! rd s p;;
  match nb with
  | O => Ret (u32 (ch + b), p + 1)
  | S nb => take_bytes nb s (p + 1) (u32 (Z.shiftl (u32 (ch + b)) 6))
  end.

(** The loop of [switch_u8_toucs]: [n] is [sz - 1 - i] and [p] the position of
    [src].  For 4 and 5 trailing bytes the switch has no case. *)
Fixpoint toucs_loop (n : nat) (s : list Z) (srcsz p : Z) : res (list Z) :=
  match n with
  | O => Ret []
  | S n =>
    c <-! rd s p;;
    let nb := trailing c in
    if (if srcsz =? -1 then c =? 0 else p + nb >=? srcsz) then Ret []
    else
      '(ch, p) <-! (if nb <=? 3 then take_bytes (Z.to_nat nb) s p 0 else Ret (0, p));;
      off <-! or_ub (offsetsFromUTF8 !! Z.to_nat nb);;
      l <-! toucs_loop n s srcsz p;;
      Ret (u32 (ch - off) :: l)
  end.
(** The characters stored; a zero is stored behind them. *)
Definition switch_u8_toucs (sz : Z) (s : list Z) (srcsz : Z) : res (list Z) :=
  l <-! toucs_loop (Z.to_nat (sz - 1)) s srcsz 0;;
  if zlen l <? sz then Ret l else Ub.

Definition switch_u8_wc_toutf8 (ch : Z) : list Z :=
  if ch <? 0x80 then [ch]
  else if ch <? 0x800 then [Z.lor (Z.shiftr ch 6) 0xC0; Z.lor (Z.land ch 0x3F) 0x80]
  else if ch <? 0x10000 then
    [Z.lor (Z.shiftr ch 12) 0xE0; Z.lor (Z.land (Z.shiftr ch 6) 0x3F) 0x80; Z.lor (Z.land ch 0x3F) 0x80]
  else if ch <? 0x110000 then
    [Z.lor (Z.shiftr ch 18) 0xF0; Z.lor (Z.land (Z.shiftr ch 12) 0x3F) 0x80;
     Z.lor (Z.land (Z.shiftr ch 6) 0x3F) 0x80; Z.lor (Z.land ch 0x3F) 0x80]
  else [].

(** The loop of [switch_u8_toutf8] from character [i] on, with [room] bytes left:
    the characters converted, the bytes stored, and whether a zero follows. *)
Fixpoint toutf8_loop (src : list Z) (srcsz i room : Z) : res (Z * list Z * bool) :=
  match src with
  | [] => if (srcsz <? 0) || (i <? srcsz) then Ub else Ret (i, [], 0 <? room)
  | ch :: src =>
    if (if srcsz <? 0 then negb (ch =? 0) else i <? srcsz) then
      let out := switch_u8_wc_toutf8 ch in
      if (ch <? 0x110000) && (room <? zlen out) then Ret (i, [], false)
      else '(n, l, z) <-! toutf8_loop src srcsz (i + 1) (room - zlen out);; Ret (n, out ++ l, z)
    else Ret (i, [], 0 <? room)
  end.
Definition switch_u8_toutf8 (sz : Z) (src : list Z) (srcsz : Z) : res (Z * list Z * bool) :=
  toutf8_loop src srcsz 0 sz.

(** ** Positions *)
Definition switch_u8_inc (s : list Z) (i : Z) : res Z :=
  c <-! rd s (i + 1);;
  if isutf c then Ret (i + 1)
  else
    c <-! rd s (i + 2);;
    if isutf c then Ret (i + 2)
    else c <-! rd s (i + 3);; if isutf c then Ret (i + 3) else Ret (i + 4).

Definition switch_u8_dec (s : list Z) (i : Z) : res Z :=
  c <-! rd s (i - 1);;
  if isutf c then Ret (i - 1)
  else
    c <-! rd s (i - 2);;
    if isutf c then Ret (i - 2)
    else c <-! rd s (i - 3);; if isutf c then Ret (i - 3) else Ret (i - 4).

Fixpoint offset_loop (charnum : nat) (s : list Z) (offs : Z) : res Z :=
  match charnum with
  | O => Ret offs
  | S n => c <-! rd s offs;; if c =? 0 then Ret offs else offs <-! switch_u8_inc s offs;; offset_loop n s offs
  end.
Definition switch_u8_offset (s : list Z) (charnum : Z) : res Z := offset_loop (Z.to_nat charnum) s 0.

(** Every round moves forward: [offset] rounds are enough. *)
Fixpoint charnum_loop (fuel : nat) (s : list Z) (offset offs charnum : Z) : res (option Z) :=
  if offs <? offset then
    c <-! rd s offs;;
    if c =? 0 then Ret (Some charnum)
    else
      match fuel with
      | O => Ret None
      | S fuel => offs <-! switch_u8_inc s offs;; charnum_loop fuel s offset offs (charnum + 1)
      end
  else Ret (Some charnum).
Definition switch_u8_charnum (s : list Z) (offset : Z) : res (option Z) :=
  charnum_loop (Z.to_nat offset) s offset 0 0.

(** The loop of [switch_u8_nextchar] (and of [switch_u8_get_char], which is the
    same) on what is left of the text: the character and the bytes it took. *)
Fixpoint nextchar_loop (s : list Z) (ch sz : Z) : res (Z * Z) :=
  match s with
  | b :: ((b2 :: _) as s) =>
    let ch := u32 (u32 (Z.shiftl ch 6) + b) in
    let sz := sz + 1 in
    if negb (b2 =? 0) && negb (isutf b2) then nextchar_loop s ch sz
    else off <-! or_ub (offsetsFromUTF8 !! Z.to_nat (sz - 1));; Ret (u32 (ch - off), sz)
  | _ => Ub
  end.
Definition switch_u8_nextchar (s : list Z) (i : Z) : res (Z * Z) :=
  if i <? 0 then Ub
  else '(ch, n) <-! nextchar_loop (drop (Z.to_nat i) s) 0 0;; Ret (ch, i + n).
Definition switch_u8_get_char := switch_u8_nextchar.

(** Every call moves forward, and past the end of the object it is undefined. *)
Fixpoint strlen_loop (fuel : nat) (s : list Z) (i count : Z) : res Z :=
  '(ch, i) <-! switch_u8_nextchar s i;;
  if ch =? 0 then Ret count
  else match fuel with O => Ub | S fuel => strlen_loop fuel s i (count + 1) end.
Definition switch_u8_strlen (s : list Z) : res Z := strlen_loop (length s) s 0 0.

(** The position of the character and its number. *)
Fixpoint strchr_loop (fuel : nat) (s : list Z) (ch i charn : Z) : res (option Z * Z) :=
  c <-! rd s i;;
  if c =? 0 then Ret (None, charn)
  else
    '(c, i') <-! switch_u8_nextchar s i;;
    if c =? ch then Ret (Some i, charn)
    else match fuel with O => Ub | S fuel => strchr_loop fuel s ch i' (charn + 1) end.
Definition switch_u8_strchr (s : list Z) (ch : Z) : res (option Z * Z) := strchr_loop (length s) s ch 0 0.

(** The inner loop of [switch_u8_memchr] stops at [sz]. *)
Fixpoint memchar_loop (fuel : nat) (s : list Z) (sz i c csz : Z) : res (Z * Z) :=
  b <-! rd s i;;
  let c := u32 (u32 (Z.shiftl c 6) + b) in
  let i := i + 1 in
  let csz := csz + 1 in
  more <-! (if i <? sz then b <-! rd s i;; Ret (negb (isutf b)) else Ret false);;
  match more, fuel with
  | true, S fuel => memchar_loop fuel s sz i c csz
  | true, O => Ub
  | false, _ => off <-! or_ub (offsetsFromUTF8 !! Z.to_nat (csz - 1));; Ret (u32 (c - off), i)
  end.
Fixpoint memchr_loop (fuel : nat) (s : list Z) (ch sz i charn : Z) : res (option Z * Z) :=
  if i <? sz then
    '(c, i') <-! memchar_loop (length s) s sz i 0 0;;
    if c =? ch then Ret (Some i, charn)
    else match fuel with O => Ub | S fuel => memchr_loop fuel s ch sz i' (charn + 1) end
  else Ret (None, charn).
Definition switch_u8_memchr (s : list Z) (ch sz : Z) : res (option Z * Z) :=
  memchr_loop (length s) s ch sz 0 0.

(** ** Escapes *)
Definition octal_digit (c : Z) : bool := (48 <=? c) && (c <=? 55).
Definition hex_digit (c : Z) : bool :=
  ((48 <=? c) && (c <=? 57)) || ((65 <=? c) && (c <=? 70)) || ((97 <=? c) && (c <=? 102)).

Definition digit_value (c : Z) : Z :=
  if c <=? 57 then c - 48 else if c <=? 70 then c - 55 else c - 87.
(** [strtol] of a string of digits of the base. *)
Definition strtol (base : Z) (digs : list Z) : Z := fold_left (fun v c => v * base + digit_value c) digs 0.

(** [while (is_digit(str[i]) && dno < max) digs[dno++] = str[i++]]; [n] is
    [max - dno]. *)
Fixpoint digits (is_digit : Z -> bool) (n : nat) (s : list Z) (i : Z) : res (list Z) :=
  c <-! rd s i;;
  match n with
  | S n => if is_digit c then l <-! digits is_digit n s (i + 1);; Ret (c :: l) else Ret []
  | O => Ret []
  end.

(** [(uint32_t) c] for a [char]. *)
Definition sext (c : Z) : Z := if c <? 128 then c else u32 (c - 256).

(** The character and the number of bytes it took, behind a backslash at [p]. *)
Definition switch_u8_read_escape_sequence (s : list Z) (p : Z) : res (Z * Z) :=
  c <-! rd s p;;
  if c =? 110 then Ret (10, 1)
  else if c =? 116 then Ret (9, 1)
  else if c =? 114 then Ret (13, 1)
  else if c =? 98 then Ret (8, 1)
  else if c =? 102 then Ret (12, 1)
  else if c =? 118 then Ret (11, 1)
  else if c =? 97 then Ret (7, 1)
  else if octal_digit c then
    l <-! digits octal_digit 2 s (p + 1);;
    Ret (strtol 8 (c :: l), 1 + zlen l)
  else
    let max := if c =? 120 then 2%nat else if c =? 117 then 4%nat else if c =? 85 then 8%nat else 0%nat in
    if (0 <? max)%nat then
      l <-! digits hex_digit max s (p + 1);;
      Ret (if zlen l >? 0 then u32 (strtol 16 l) else sext c, 1 + zlen l)
    else Ret (sext c, 1).

(** [switch_u8_unescape] from position [p] of the source, with [room] bytes
    left: the bytes stored. *)
Fixpoint unescape_loop (fuel : nat) (s : list Z) (p room : Z) : res (list Z) :=
  c <-! rd s p;;
  if negb (c =? 0) && (0 <? room) then
    '(ch, p) <-! (if c =? 92 then '(ch, amt) <-! switch_u8_read_escape_sequence s (p + 1);; Ret (ch, p + 1 + amt)
                  else Ret (sext c, p + 1));;
    let temp := switch_u8_wc_toutf8 ch in
    if zlen temp >? room then Ret []
    else
      match fuel with
      | O => Ub
      | S fuel => l <-! unescape_loop fuel s p (room - zlen temp);; Ret (temp ++ l)
      end
  else Ret [].
Definition switch_u8_unescape (sz : Z) (s : list Z) : res (list Z) := unescape_loop (length s) s 0 sz.

(** [%X] with at least [n] digits: the digits of the value, highest first. *)
Definition hex_char (v : Z) : Z := if v <? 10 then v + 48 else v + 55.
Fixpoint hex_pad (n : nat) (v : Z) : list Z :=
  match n with O => [] | S n => hex_pad n (v / 16) ++ [hex_char (v mod 16)] end.
(** A value below 256 without leading zeros. *)
Definition hex_byte (v : Z) : list Z := if v <? 16 then hex_pad 1 v else hex_pad 2 v.

(** What [switch_u8_escape_wchar] prints, before [snprintf] cuts it. *)
Definition switch_u8_escape_wchar (ch : Z) : list Z :=
  if ch =? 10 then [92; 110]
  else if ch =? 9 then [92; 116]
  else if ch =? 13 then [92; 114]
  else if ch =? 8 then [92; 98]
  else if ch =? 12 then [92; 102]
  else if ch =? 11 then [92; 118]
  else if ch =? 7 then [92; 97]
  else if ch =? 92 then [92; 92]
  else if (ch <? 32) || (ch =? 0x7f) then 92 :: 120 :: hex_byte (u8 ch)
  else if ch >? 0xFFFF then 92 :: 85 :: hex_pad 8 ch
  else if (0x80 <=? ch) && (ch <=? 0xFFFF) then 92 :: 117 :: hex_pad 4 (u16 ch)
  else [u8 ch].

(** [switch_u8_escape] from position [i], with [c] bytes printed so far: what is
    printed from there on. *)
Fixpoint escape_loop (fuel : nat) (s : list Z) (escape_quotes : bool) (sz i c : Z) : res (list Z) :=
  b <-! rd s i;;
  if negb (b =? 0) && (c <? sz) then
    '(out, i) <-! (if escape_quotes && (b =? 34) then Ret ([92; 34], i + 1)
                   else '(ch, i) <-! switch_u8_nextchar s i;; Ret (switch_u8_escape_wchar ch, i));;
    match fuel with
    | O => Ub
    | S fuel => l <-! escape_loop fuel s escape_quotes sz i (c + zlen out);; Ret (out ++ l)
    end
  else Ret [].
(** The length returned, and the text in the buffer: [snprintf] keeps the last
    byte for the zero. *)
Definition switch_u8_escape (sz : Z) (s : list Z) (escape_quotes : bool) : res (Z * list Z) :=
  l <-! escape_loop (length s) s escape_quotes sz 0 0;;
  Ret (zlen l, if zlen l <? sz then l else take (Z.to_nat (sz - 1)) l).

(** ** Locale *)
Definition locale_stop (c : Z) : bool := (c =? 0) || (c =? 64) || (c =? 43) || (c =? 44).
Fixpoint locale_span (s : list Z) : res (list Z) :=
  match s with
  | [] => Ub
  | c :: s => if locale_stop c then Ret [] else l <-! locale_span s;; Ret (c :: l)
  end.
Fixpoint switch_u8_is_locale_utf8 (s : list Z) : res bool :=
  match s with
  | [] => Ub
  | c :: s =>
    if locale_stop c then Ret false
    else if c =? 46 then
      encoding <-! locale_span s;;
      Ret (bool_decide (encoding = [85; 84; 70; 45; 56]) || bool_decide (encoding = [117; 116; 102; 56]))
    else switch_u8_is_locale_utf8 s
  end.

(** ** Bytes of a character *)
Lemma lor_lead x k c n : 0 <= k -> 0 <= x < 2 ^ k -> c * 2 ^ k = n -> Z.lor x n = n + x.
Proof. intros Hk Hx <-. rewrite lor_add by done. lia. Qed.

Lemma isutf_spec c : 0 <= c < 256 -> isutf c = negb ((128 <=? c) && (c <? 192)).
Proof.
  intros Hc. apply eqb_prop, (byte_forall (fun c => eqb (isutf c) (negb ((128 <=? c) && (c <? 192)))));
    [vm_compute; reflexivity|done].
Qed.
Lemma trailing_spec c : 0 <= c < 256 -> trailing c =
  if c <? 192 then 0 else if c <? 224 then 1 else if c <? 240 then 2 else if c <? 248 then 3
  else if c <? 252 then 4 else 5.
Proof.
  intros Hc. apply Z.eqb_eq, (byte_forall (fun c => trailing c =?
    if c <? 192 then 0 else if c <? 224 then 1 else if c <? 240 then 2 else if c <? 248 then 3
    else if c <? 252 then 4 else 5)); [vm_compute; reflexivity|done].
Qed.

Definition character (ch : Z) : Prop := 0 <= ch < 0x110000.

Lemma wc_toutf8_arith ch : character ch -> switch_u8_wc_toutf8 ch =
  if ch <? 128 then [ch]
  else if ch <? 2048 then [192 + ch / 64; 128 + ch mod 64]
  else if ch <? 65536 then [224 + ch / 4096; 128 + ch / 64 mod 64; 128 + ch mod 64]
  else [240 + ch / 262144; 128 + ch / 4096 mod 64; 128 + ch / 64 mod 64; 128 + ch mod 64].
Proof.
  unfold character. intros Hch.
  assert (Hc : forall z, Z.lor (Z.land z 0x3F) 0x80 = 128 + z mod 64).
  { intros z. change 0x3F with (Z.ones 6). rewrite Z.land_ones by lia.
    apply (lor_lead _ 6 2); [lia|apply Z.mod_pos_bound; lia|done]. }
  assert (Hd : forall a k, 0 < a -> ch < a * 2 ^ k -> 0 <= ch / a < 2 ^ k).
  { intros a k Ha Hlt. split; [apply Z.div_pos; lia|]. by apply Z.div_lt_upper_bound. }
  unfold switch_u8_wc_toutf8. rewrite !Hc, !Z.shiftr_div_pow2 by lia.
  change (2 ^ 6) with 64. change (2 ^ 12) with 4096. change (2 ^ 18) with 262144.
  change 0x80 with 128. change 0x800 with 2048. change 0x10000 with 65536.
  destruct (Z.ltb_spec ch 128); [done|]. destruct (Z.ltb_spec ch 2048).
  { by rewrite (lor_lead _ 5 6) by (try done; apply Hd; lia). }
  destruct (Z.ltb_spec ch 65536).
  { by rewrite (lor_lead _ 4 14) by (try done; apply Hd; lia). }
  rewrite (proj2 (Z.ltb_lt _ _)) by lia.
  by rewrite (lor_lead _ 3 30) by (try done; apply Hd; lia).
Qed.

Ltac div_facts ch :=
  pose proof (Z.div_mod ch 64 ltac:(lia)); pose proof (Z.mod_pos_bound ch 64 ltac:(lia));
  pose proof (Z.div_mod (ch / 64) 64 ltac:(lia)); pose proof (Z.mod_pos_bound (ch / 64) 64 ltac:(lia));
  pose proof (Z.div_mod (ch / 4096) 64 ltac:(lia)); pose proof (Z.mod_pos_bound (ch / 4096) 64 ltac:(lia));
  pose proof (Z.div_div ch 64 64 ltac:(lia) ltac:(lia)); pose proof (Z.div_div ch 4096 64 ltac:(lia) ltac:(lia));
  change (64 * 64) with 4096 in *; change (4096 * 64) with 262144 in *.

(** The shape of an encoded character: a lead byte that tells the length and
    continuation bytes. *)
Record encoding_of (ch : Z) (e : list Z) : Prop := {
  en_len : 1 <= zlen e <= 4;
  en_bytes : Forall (fun b => 0 <= b < 256) e;
  en_lead : exists b l, e = b :: l /\ trailing b = zlen l /\ isutf b = true /\ (b = 0 <-> ch = 0) /\
              Forall (fun b => 0 < b /\ isutf b = false) l;
  en_sum : fold_left (fun v b => v * 64 + b) e 0 = ch + default 0 (offsetsFromUTF8 !! Z.to_nat (zlen e - 1))
}.

Lemma wc_toutf8_encodes ch : character ch -> encoding_of ch (switch_u8_wc_toutf8 ch).
Proof.
  intros Hch. rewrite wc_toutf8_arith by done. unfold character in Hch. div_facts ch.
  assert (Hcont : forall m, 0 <= m < 64 -> 0 < 128 + m /\ isutf (128 + m) = false).
  { intros m Hm. split; [lia|]. rewrite isutf_spec by lia.
    by rewrite (proj2 (Z.leb_le _ _)), (proj2 (Z.ltb_lt _ _)) by lia. }
  destruct (Z.ltb_spec ch 128); [|destruct (Z.ltb_spec ch 2048); [|destruct (Z.ltb_spec ch 65536)]].
  - split; unfold zlen; simpl; [lia|repeat constructor; lia| |lia].
    exists ch, []. rewrite trailing_spec, isutf_spec by lia.
    rewrite (proj2 (Z.ltb_lt ch 192)) by lia. rewrite (proj2 (Z.leb_gt 128 ch)) by lia. by split_and!.
  - split; unfold zlen; simpl; [lia|repeat constructor; lia| |lia].
    exists (192 + ch / 64), [128 + ch mod 64]. rewrite trailing_spec, isutf_spec by lia.
    rewrite (proj2 (Z.ltb_ge _ 192)), (proj2 (Z.ltb_lt _ 224)) by lia. rewrite andb_false_r.
    split_and!; try done; try lia. by repeat constructor; apply Hcont.
  - split; unfold zlen; simpl; [lia|repeat constructor; lia| |lia].
    exists (224 + ch / 4096), [128 + ch / 64 mod 64; 128 + ch mod 64]. rewrite trailing_spec, isutf_spec by lia.
    rewrite (proj2 (Z.ltb_ge _ 192)), (proj2 (Z.ltb_ge _ 224)), (proj2 (Z.ltb_lt _ 240)) by lia.
    rewrite andb_false_r.
    split_and!; try done; try lia. by repeat constructor; apply Hcont.
  - split; unfold zlen; simpl; [lia|repeat constructor; lia| |lia].
    exists (240 + ch / 262144), [128 + ch / 4096 mod 64; 128 + ch / 64 mod 64; 128 + ch mod 64].
    rewrite trailing_spec, isutf_spec by lia.
    rewrite (proj2 (Z.ltb_ge _ 192)), (proj2 (Z.ltb_ge _ 224)), (proj2 (Z.ltb_ge _ 240)),
      (proj2 (Z.ltb_lt _ 248)) by lia.
    rewrite andb_false_r.
    split_and!; try done; try lia. by repeat constructor; apply Hcont.
Qed.

(** ** Encoded texts *)
Definition encode (chs : list Z) : list Z := concat (map switch_u8_wc_toutf8 chs).
Definition text (chs : list Z) : Prop := Forall (fun ch => 0 < ch < 0x110000) chs.

Lemma encode_cons ch chs : encode (ch :: chs) = switch_u8_wc_toutf8 ch ++ encode chs.
Proof. done. Qed.
Lemma encode_app a b : encode (a ++ b) = encode a ++ encode b.
Proof. unfold encode. by rewrite map_app, concat_app. Qed.
Lemma text_character ch : 0 < ch < 0x110000 -> character ch.
Proof. unfold character. lia. Qed.
Lemma encode_length chs : text chs -> zlen chs <= zlen (encode chs).
Proof.
  induction 1 as [|ch chs Hch _ IH]; [done|]. rewrite encode_cons, zlen_app.
  pose proof (en_len _ _ (wc_toutf8_encodes ch (text_character _ Hch))). unfold zlen in *. simpl. lia.
Qed.

Lemma rd_app pre s i : 0 <= i -> rd (pre ++ s) (zlen pre + i) = rd s i.
Proof.
  intros Hi. unfold rd, zlen. rewrite !(proj2 (Z.ltb_ge _ _)) by lia.
  rewrite lookup_app_r by lia. f_equal. f_equal. lia.
Qed.
Lemma rd_app_0 pre s : rd (pre ++ s) (zlen pre) = rd s 0.
Proof. rewrite <- (rd_app pre s 0) by lia. f_equal. lia. Qed.

Lemma take_bytes_app pre s nb : forall p ch, 0 <= p ->
  take_bytes nb (pre ++ s) (zlen pre + p) ch = ('(c, q) <-! take_bytes nb s p ch;; Ret (c, zlen pre + q)).
Proof.
  induction nb as [|nb IH]; intros p ch Hp; simpl; rewrite rd_app by done;
    destruct (rd s p) as [b| |]; simpl; try done.
  - do 2 f_equal. lia.
  - replace (zlen pre + p + 1) with (zlen pre + (p + 1)) by lia. apply IH. lia.
Qed.

(** Reading an encoded character at the front, in the two ways of the code. *)
Lemma read_encoded ch e rest : encoding_of ch e -> character ch ->
  take_bytes (Z.to_nat (zlen e - 1)) (e ++ rest) 0 0 =
    Ret (ch + default 0 (offsetsFromUTF8 !! Z.to_nat (zlen e - 1)), zlen e).
Proof.
  intros [Hlen Hb _ Hsum] Hch. unfold character in Hch.
  destruct e as [|b0 [|b1 [|b2 [|b3 [|b4 e]]]]]; try (unfold zlen in Hlen; simpl in Hlen; lia);
    repeat (apply Forall_cons in Hb as [? Hb]); cbn [fold_left] in Hsum;
    unfold zlen in *; simpl in *; rewrite ?Z.shiftl_mul_pow2 by lia; change (2 ^ 6) with 64;
    small_u32; do 2 f_equal; lia.
Qed.

Lemma nextchar_encoded ch e b rest : encoding_of ch e -> character ch -> b = 0 \/ isutf b = true ->
  nextchar_loop (e ++ b :: rest) 0 0 = Ret (ch, zlen e).
Proof.
  intros [Hlen Hb (b' & l & El & _ & _ & _ & Hcont) Hsum] Hch Hend. unfold character in Hch.
  assert (Hstop : negb (b =? 0) && negb (isutf b) = false).
  { destruct Hend as [-> | ->]; [done|]. by rewrite andb_false_r. }
  destruct e as [|b0 e]; [done|]. injection El as -> ->.
  destruct l as [|b1 [|b2 [|b3 [|b4 l]]]]; try (unfold zlen in Hlen; simpl in Hlen; lia);
    apply Forall_cons in Hb as [? Hb];
    repeat (apply Forall_cons in Hb as [? Hb]);
    repeat (apply Forall_cons in Hcont as [[? ?] Hcont]);
    cbn [fold_left] in Hsum; unfold zlen in *; simpl in *;
    repeat match goal with
    | H : isutf ?x = false |- context [isutf ?x] => rewrite H
    | H : 0 < ?x |- context [?x =? 0] => rewrite (proj2 (Z.eqb_neq x 0)) by lia
    end; cbn [negb andb]; rewrite ?Hstop; simpl; rewrite ?Z.shiftl_mul_pow2 by lia; change (2 ^ 6) with 64;
    small_u32; do 2 f_equal; lia.
Qed.

Lemma toutf8_text chs : forall i room, Forall character chs -> zlen (encode chs) <= room -> 0 <= i ->
  toutf8_loop chs (i + zlen chs) i room = Ret (i + zlen chs, encode chs, zlen (encode chs) <? room).
Proof.
  induction chs as [|ch chs IH]; intros i room Hc Hr Hi.
  - unfold zlen. simpl. rewrite Z.add_0_r, (proj2 (Z.ltb_ge i 0)), (proj2 (Z.ltb_ge i i)) by lia. done.
  - apply Forall_cons in Hc as [Hch Hc]. rewrite encode_cons, zlen_app in Hr.
    pose proof (zlen_nonneg (encode chs)). cbn [toutf8_loop].
    assert (E : zlen (ch :: chs) = 1 + zlen chs) by (unfold zlen; simpl; lia). rewrite E.
    pose proof (zlen_nonneg chs).
    rewrite (proj2 (Z.ltb_ge (i + _) 0)), (proj2 (Z.ltb_lt i (i + _))) by lia.
    rewrite (proj2 (Z.ltb_ge room _)), andb_false_r by lia.
    replace (i + (1 + zlen chs)) with (i + 1 + zlen chs) by lia.
    rewrite IH by (done || lia). cbn [rbind]. rewrite encode_cons, zlen_app.
    do 2 f_equal. apply Bool.eq_iff_eq_true. rewrite !Z.ltb_lt. lia.
Qed.

Lemma toucs_text chs tail : forall pre n srcsz, text chs -> (length chs <= n)%nat ->
  srcsz = -1 \/ srcsz = zlen pre + zlen (encode chs) ->
  toucs_loop n (pre ++ encode chs ++ 0 :: tail) srcsz (zlen pre) = Ret chs.
Proof.
  induction chs as [|ch chs IH]; intros pre n srcsz Ht Hn Hs.
  - destruct n as [|n]; [done|]. cbn [toucs_loop]. rewrite rd_app_0. cbn [encode concat map app rd].
    change (rd (0 :: tail) 0) with (@Ret Z 0). cbn [rbind]. pose proof (zlen_nonneg pre).
    destruct (Z.eqb_spec srcsz (-1)) as [->|Hne]; [done|].
    destruct Hs as [->|Hs]; [done|]. change (zlen (encode [])) with 0 in Hs.
    change (trailing 0) with 0. by rewrite Z.geb_leb, (proj2 (Z.leb_le _ _)) by lia.
  - apply Forall_cons in Ht as [Hch Ht]. destruct n as [|n]; [simpl in Hn; lia|].
    pose proof (wc_toutf8_encodes ch (text_character _ Hch)) as He.
    destruct (en_lead _ _ He) as (b & l & El & Htr & _ & Hz & _).
    rewrite encode_cons in Hs |- *. rewrite zlen_app in Hs.
    set (e := switch_u8_wc_toutf8 ch) in *.
    assert (Hl : zlen e = zlen l + 1) by (rewrite El; unfold zlen; simpl; lia).
    cbn [toucs_loop]. rewrite rd_app_0.
    assert (E0 : rd ((e ++ encode chs) ++ 0 :: tail) 0 = Ret b) by (rewrite El; done).
    rewrite E0. cbn [rbind]. pose proof (zlen_nonneg pre). pose proof (zlen_nonneg (encode chs)).
    assert (Hgo : (if srcsz =? -1 then b =? 0 else zlen pre + trailing b >=? srcsz) = false).
    { destruct (Z.eqb_spec srcsz (-1)) as [->|Hne].
      - apply Z.eqb_neq. rewrite Hz. lia.
      - destruct Hs as [->|Hs]; [done|]. rewrite Z.geb_leb. apply Z.leb_gt. lia. }
    rewrite Hgo, Htr. pose proof (en_len _ _ He).
    rewrite (proj2 (Z.leb_le (zlen l) 3)) by lia.
    replace (zlen l) with (zlen e - 1) by lia.
    replace (zlen pre) with (zlen pre + 0) at 1 by lia. rewrite take_bytes_app by lia.
    rewrite <- app_assoc, (read_encoded ch) by (done || by apply text_character). cbn [rbind].
    destruct (offsetsFromUTF8 !! Z.to_nat (zlen e - 1)) as [off|] eqn:Eo.
    2: { apply lookup_ge_None in Eo. change (length offsetsFromUTF8) with 6%nat in Eo. lia. }
    cbn [or_ub rbind default from_option id].
    replace (zlen pre + zlen e) with (zlen (pre ++ e)) by (rewrite zlen_app; lia).
    rewrite (app_assoc pre e). rewrite IH; [|done|simpl in Hn; lia|].
    2: { rewrite zlen_app. destruct Hs as [Hs|Hs]; [by left|right; lia]. }
    cbn [rbind]. do 2 f_equal. replace (ch + off - off) with ch by lia. apply u32_small. lia.
Qed.

(** C39: encoding and decoding are inverse: the bytes [switch_u8_toutf8] writes
    for a text without zeros, terminated, are read back by [switch_u8_toucs] as
    the same characters, both up to the terminator and by length. *)
Theorem utf8_roundtrip (chs tail : list Z) (sz dsz srcsz : Z) :
  text chs -> zlen (encode chs) < sz -> zlen chs < dsz ->
  srcsz = -1 \/ srcsz = zlen (encode chs) ->
  exists bytes, switch_u8_toutf8 sz chs (zlen chs) = Ret (zlen chs, bytes, true) /\
    Forall (fun b => 0 < b < 256) bytes /\
    switch_u8_toucs dsz (bytes ++ 0 :: tail) srcsz = Ret chs.
Proof.
  intros Ht Hsz Hd Hs. exists (encode chs). split_and!.
  - unfold switch_u8_toutf8. change (zlen chs) with (0 + zlen chs). rewrite toutf8_text.
    + rewrite (proj2 (Z.ltb_lt _ _)) by done. done.
    + eapply Forall_impl; [exact Ht|]. intros ch. apply text_character.
    + lia.
    + done.
  - clear Hsz Hd Hs. induction Ht as [|ch chs Hch _ IH]; [constructor|].
    rewrite encode_cons. apply Forall_app. split; [|done].
    destruct (wc_toutf8_encodes ch (text_character _ Hch)) as [_ Hb (b & l & El & _ & _ & Hz & Hcont) _].
    rewrite El in *. apply Forall_cons in Hb as [Hb0 Hb]. apply Forall_cons. split; [lia|].
    rewrite Forall_forall in Hb, Hcont |- *. intros x Hx. specialize (Hb x Hx). specialize (Hcont x Hx). lia.
  - unfold switch_u8_toucs. pose proof (zlen_nonneg chs).
    pose proof (toucs_text chs tail [] (Z.to_nat (dsz - 1)) srcsz) as E. simpl in E.
    change (zlen []) with 0 in E. rewrite E; [|done|unfold zlen in *; lia|].
    + cbn [rbind]. by rewrite (proj2 (Z.ltb_lt _ _)) by done.
    + destruct Hs as [-> | ->]; [by left|by right].
Qed.

Lemma utf8_roundtrip_witness :
  switch_u8_toutf8 20 [72; 233; 8364; 128512] 4 = Ret (4, [72; 195; 169; 226; 130; 172; 240; 159; 152; 128], true) /\
  exists bytes, switch_u8_toutf8 20 [72; 233; 8364; 128512] (zlen [72; 233; 8364; 128512])
      = Ret (zlen [72; 233; 8364; 128512], bytes, true) /\
    Forall (fun b => 0 < b < 256) bytes /\
    switch_u8_toucs 5 (bytes ++ 0 :: []) (-1) = Ret [72; 233; 8364; 128512].
Proof.
  split; [vm_compute; reflexivity|].
  apply (utf8_roundtrip [72; 233; 8364; 128512] [] 20 5 (-1)).
  - repeat (apply Forall_cons; split; [lia|]). by apply Forall_nil.
  - vm_compute. reflexivity.
  - vm_compute. reflexivity.
  - by left.
Defined.

(** ** Positions of characters *)
Lemma encode_boundary chs tail : text chs -> exists b l, encode chs ++ 0 :: tail = b :: l /\ isutf b = true /\ (b = 0 <-> chs = []).
Proof.
  intros Ht. destruct Ht as [|ch chs Hch _]; [by exists 0, tail|].
  destruct (wc_toutf8_encodes ch (text_character _ Hch)) as [_ _ (b & l & El & _ & Hu & Hz & _) _].
  exists b, (l ++ encode chs ++ 0 :: tail). rewrite encode_cons, El. split_and!; [by rewrite <- app_assoc|done|].
  split; [lia|done].
Qed.

Lemma inc_encoded ch e pre b rest : encoding_of ch e -> isutf b = true ->
  switch_u8_inc (pre ++ e ++ b :: rest) (zlen pre) = Ret (zlen (pre ++ e)).
Proof.
  intros [Hlen _ (b' & l & El & _ & _ & _ & Hcont) _] Hb. rewrite zlen_app. unfold switch_u8_inc.
  rewrite !rd_app by lia. rewrite El in *. clear El e.
  destruct l as [|b1 [|b2 [|b3 [|b4 l]]]]; try (unfold zlen in Hlen; simpl in Hlen; lia);
    repeat (apply Forall_cons in Hcont as [[? ?] Hcont]); simpl;
    repeat match goal with
    | H : isutf ?x = _ |- context [isutf ?x] => rewrite H; simpl
    end; done.
Qed.

(** At the start of a character that is not the last, the text reads as one
    character and a boundary. *)
Lemma at_character pre ch chs tail : text (ch :: chs) ->
  let s := pre ++ encode (ch :: chs) ++ 0 :: tail in
  (exists b, rd s (zlen pre) = Ret b /\ b <> 0) /\
  switch_u8_inc s (zlen pre) = Ret (zlen (pre ++ switch_u8_wc_toutf8 ch)) /\
  switch_u8_nextchar s (zlen pre) = Ret (ch, zlen (pre ++ switch_u8_wc_toutf8 ch)).
Proof.
  intros Ht. pose proof (encode_boundary _ tail Ht) as (b0 & l0 & E0 & _ & Hz0).
  apply Forall_cons in Ht as [Hch Ht]. pose proof (text_character _ Hch) as Hc.
  pose proof (wc_toutf8_encodes _ Hc) as He.
  destruct (encode_boundary chs tail Ht) as (b & l & E & Hb & _). cbv zeta. split_and!.
  - exists b0. rewrite rd_app_0, E0. split; [done|]. by rewrite Hz0.
  - rewrite encode_cons, <- app_assoc, E. by apply (inc_encoded ch).
  - unfold switch_u8_nextchar. rewrite (proj2 (Z.ltb_ge _ _)) by apply zlen_nonneg.
    unfold zlen at 1. rewrite Nat2Z.id, drop_app_length, encode_cons, <- app_assoc, E.
    rewrite (nextchar_encoded ch) by auto. cbn [rbind]. by rewrite zlen_app.
Qed.

Lemma offset_text n : forall pre chs tail, text chs -> (n <= length chs)%nat ->
  offset_loop n (pre ++ encode chs ++ 0 :: tail) (zlen pre) = Ret (zlen (pre ++ encode (take n chs))).
Proof.
  induction n as [|n IH]; intros pre chs tail Ht Hn; [by rewrite app_nil_r|].
  destruct chs as [|ch chs]; [simpl in Hn; lia|].
  destruct (at_character pre ch chs tail Ht) as ((b & Hr & Hb) & Hi & _).
  cbn [offset_loop]. rewrite Hr. cbn [rbind]. rewrite (proj2 (Z.eqb_neq _ _)) by done. rewrite Hi. cbn [rbind].
  apply Forall_cons in Ht as [_ Ht].
  rewrite encode_cons, <- app_assoc, (app_assoc pre), IH by (simpl in Hn; done || lia).
  simpl. by rewrite encode_cons, <- !app_assoc.
Qed.

Lemma charnum_text n : forall fuel pre chs tail k, text chs -> (n <= length chs)%nat ->
  zlen (pre ++ encode (take n chs)) - zlen pre <= Z.of_nat fuel ->
  charnum_loop fuel (pre ++ encode chs ++ 0 :: tail) (zlen (pre ++ encode (take n chs))) (zlen pre) k
  = Ret (Some (k + Z.of_nat n)).
Proof.
  induction n as [|n IH]; intros fuel pre chs tail k Ht Hn Hf.
  - simpl. rewrite app_nil_r, Z.add_0_r. destruct fuel; cbn [charnum_loop]; by rewrite Z.ltb_irrefl.
  - destruct chs as [|ch chs]; [simpl in Hn; lia|].
    destruct (at_character pre ch chs tail Ht) as ((b & Hr & Hb) & Hi & _).
    apply Forall_cons in Ht as [Hch Ht].
    pose proof (en_len _ _ (wc_toutf8_encodes ch (text_character _ Hch))).
    cbn [take] in *. rewrite !encode_cons in Hf |- *. rewrite !zlen_app in Hf.
    pose proof (zlen_nonneg (encode (take n chs))).
    destruct fuel as [|fuel]; [lia|]. cbn [charnum_loop].
    rewrite (proj2 (Z.ltb_lt _ _)) by (rewrite ?encode_cons, !zlen_app; lia).
    cbn [rbind] in *. rewrite encode_cons in Hr, Hi. rewrite Hr. cbn [rbind].
    rewrite (proj2 (Z.eqb_neq _ _)) by done. rewrite Hi. cbn [rbind].
    rewrite ?encode_cons, <- !app_assoc, !(app_assoc pre (switch_u8_wc_toutf8 ch)).
    rewrite IH; [do 2 f_equal; lia|done|simpl in Hn; lia|].
    rewrite !zlen_app. lia.
Qed.

(** The character index and the byte index of a text are inverse:
    [switch_u8_offset] of [n] is the length of the first [n] characters,
    [switch_u8_charnum] maps it back, and [switch_u8_nextchar] there reads the
    [n]-th character and moves to the next one. *)
Theorem utf8_positions (chs tail : list Z) (n : nat) :
  text chs -> (n <= length chs)%nat ->
  exists o, switch_u8_offset (encode chs ++ 0 :: tail) (Z.of_nat n) = Ret o /\
    o = zlen (encode (take n chs)) /\
    switch_u8_charnum (encode chs ++ 0 :: tail) o = Ret (Some (Z.of_nat n)) /\
    (forall ch, chs !! n = Some ch ->
       exists o', switch_u8_nextchar (encode chs ++ 0 :: tail) o = Ret (ch, o') /\
         switch_u8_offset (encode chs ++ 0 :: tail) (Z.of_nat (S n)) = Ret o').
Proof.
  intros Ht Hn. exists (zlen (encode (take n chs))). unfold switch_u8_offset. rewrite !Nat2Z.id. split_and!.
  - exact (offset_text n [] chs tail Ht Hn).
  - done.
  - unfold switch_u8_charnum. rewrite (charnum_text n _ [] chs tail 0 Ht Hn); [done|].
    change (zlen []) with 0. simpl. pose proof (zlen_nonneg (encode (take n chs))). lia.
  - intros ch Hl. exists (zlen (encode (take (S n) chs))). split.
    + rewrite <- (take_drop_middle _ _ _ Hl) at 1. rewrite encode_app, <- app_assoc.
      destruct (at_character (encode (take n chs)) ch (drop (S n) chs) tail) as (_ & _ & ->).
      { rewrite <- (take_drop n chs) in Ht. apply Forall_app in Ht as [_ Ht]. by rewrite (drop_S _ _ _ Hl) in Ht. }
      rewrite (take_S_r _ _ _ Hl), encode_app. cbn. by rewrite app_nil_r.
    + apply (offset_text (S n) [] chs tail Ht). apply lookup_lt_Some in Hl. lia.
Qed.

Lemma utf8_positions_witness :
  switch_u8_offset (encode [72; 233; 8364; 128512] ++ [0]) 3 = Ret 6 /\
  exists o, switch_u8_offset (encode [72; 233; 8364; 128512] ++ [0]) (Z.of_nat 3) = Ret o /\
    o = zlen (encode (take 3 [72; 233; 8364; 128512])) /\
    switch_u8_charnum (encode [72; 233; 8364; 128512] ++ [0]) o = Ret (Some (Z.of_nat 3)) /\
    (forall ch, [72; 233; 8364; 128512] !! 3%nat = Some ch ->
       exists o', switch_u8_nextchar (encode [72; 233; 8364; 128512] ++ [0]) o = Ret (ch, o') /\
         switch_u8_offset (encode [72; 233; 8364; 128512] ++ [0]) (Z.of_nat 4) = Ret o').
Proof.
  split; [vm_compute; reflexivity|].
  apply (utf8_positions [72; 233; 8364; 128512] [] 3).
  - repeat (apply Forall_cons; split; [lia|]). by apply Forall_nil.
  - simpl. lia.
Defined.

Lemma strlen_text chs : forall fuel pre tail k, text chs -> (length chs <= fuel)%nat ->
  strlen_loop fuel (pre ++ encode chs ++ 0 :: tail) (zlen pre) k =
  strlen_loop (fuel - length chs) (pre ++ encode chs ++ 0 :: tail) (zlen (pre ++ encode chs)) (k + zlen chs).
Proof.
  induction chs as [|ch chs IH]; intros fuel pre tail k Ht Hf.
  - simpl. change (zlen []) with 0. by rewrite Nat.sub_0_r, app_nil_r, Z.add_0_r.
  - destruct fuel as [|fuel]; [simpl in Hf; lia|].
    destruct (at_character pre ch chs tail Ht) as (_ & _ & Hn).
    apply Forall_cons in Ht as [Hch Ht]. cbn [strlen_loop]. rewrite Hn. cbn [rbind].
    rewrite (proj2 (Z.eqb_neq _ _)) by lia.
    rewrite encode_cons, <- app_assoc, !(app_assoc pre), IH by (simpl in Hf; done || lia).
    cbn [length Nat.sub]. f_equal. unfold zlen. simpl. lia.
Qed.

(** [switch_u8_strlen] counts the characters of a text, but looks at the
    byte behind the terminator to do so: an object that ends with its terminator
    is read out of bounds. *)
Theorem strlen_reads_past_terminator (chs tail : list Z) (b : Z) :
  text chs -> b = 0 \/ isutf b = true ->
  switch_u8_strlen (encode chs ++ [0]) = Ub /\
  switch_u8_strlen (encode chs ++ 0 :: b :: tail) = Ret (zlen chs).
Proof.
  intros Ht Hb. pose proof (encode_length chs Ht) as Hl. unfold zlen in Hl. unfold switch_u8_strlen.
  rewrite (strlen_text chs _ [] [] 0), (strlen_text chs _ [] (b :: tail) 0)
    by (try done; rewrite length_app; lia).
  simpl app. assert (Hd : forall s, drop (Z.to_nat (zlen (encode chs))) (encode chs ++ s) = s)
    by (intros s; unfold zlen; by rewrite Nat2Z.id, drop_app_length).
  split; match goal with |- strlen_loop ?f _ _ _ = _ => destruct f; cbn [strlen_loop] end;
    unfold switch_u8_nextchar; rewrite (proj2 (Z.ltb_ge _ _)) by apply zlen_nonneg; rewrite Hd; try done.
  all: change (0 :: b :: tail) with ([0] ++ b :: tail);
    rewrite (nextchar_encoded 0 [0]) by (first [done|apply (wc_toutf8_encodes 0); done]); done.
Qed.

Lemma strlen_reads_past_terminator_witness :
  switch_u8_strlen (encode [72; 233] ++ [0]) = Ub /\
  switch_u8_strlen (encode [72; 233] ++ 0 :: 255 :: []) = Ret (zlen [72; 233]).
Proof.
  apply (strlen_reads_past_terminator [72; 233] [] 255).
  - repeat (apply Forall_cons; split; [lia|]). by apply Forall_nil.
  - by right.
Defined.

(** ** Unescaping *)
Lemma sext_toutf8 c : 0 < c < 256 -> switch_u8_wc_toutf8 (sext c) = if c <? 128 then [c] else [].
Proof.
  intros Hc. unfold sext. destruct (Z.ltb_spec c 128) as [Hl|Hl].
  - unfold switch_u8_wc_toutf8. by rewrite (proj2 (Z.ltb_lt c 0x80)) by lia.
  - assert (E : u32 (c - 256) = c - 256 + 2 ^ 32).
    { unfold u32. symmetry. apply (Z.mod_unique _ _ (-1)); lia. }
    rewrite E. unfold switch_u8_wc_toutf8. rewrite !(proj2 (Z.ltb_ge _ _)) by lia. done.
Qed.

Lemma unescape_plain_loop s : forall fuel pre tail room,
  Forall (fun b => 0 < b < 256 /\ b <> 92) s -> (length s <= fuel)%nat -> zlen s <= room ->
  unescape_loop fuel (pre ++ s ++ 0 :: tail) (zlen pre) room = Ret (filter (fun b => b < 128) s).
Proof.
  induction s as [|b s IH]; intros fuel pre tail room Hs Hf Hr.
  - destruct fuel; cbn [unescape_loop]; by rewrite rd_app_0.
  - apply Forall_cons in Hs as [[Hb Hb'] Hs]. destruct fuel as [|fuel]; [simpl in Hf; lia|].
    assert (El : zlen (b :: s) = 1 + zlen s) by (unfold zlen; simpl; lia). rewrite El in Hr.
    pose proof (zlen_nonneg s). cbn [unescape_loop]. rewrite rd_app_0.
    change (rd ((b :: s) ++ 0 :: tail) 0) with (@Ret Z b). cbn [rbind].
    rewrite (proj2 (Z.eqb_neq b 0)), (proj2 (Z.ltb_lt 0 room)), (proj2 (Z.eqb_neq b 92)) by lia. cbn [negb andb rbind].
    rewrite sext_toutf8 by done.
    assert (Hz : 0 <= zlen (if b <? 128 then [b] else []) <= 1) by (destruct (b <? 128); unfold zlen; simpl; lia).
    rewrite Z.gtb_ltb, (proj2 (Z.ltb_ge _ _)) by lia.
    replace (zlen pre + 1) with (zlen (pre ++ [b])) by (rewrite zlen_app; done).
    change ((b :: s) ++ 0 :: tail) with ([b] ++ s ++ 0 :: tail). rewrite (app_assoc pre).
    rewrite IH by (first [done | simpl in Hf; lia]). cbn [rbind]. rewrite filter_cons.
    by destruct (Z.ltb_spec b 128), (decide (b < 128)); try lia.
Qed.

(** On a text without backslashes [switch_u8_unescape] keeps the ASCII
    characters and loses every byte of the others, which the conversion from
    [char] turns into a value above the last character. *)
Theorem unescape_keeps_ascii_only (s tail : list Z) (sz : Z) :
  Forall (fun b => 0 < b < 256 /\ b <> 92) s -> zlen s <= sz ->
  switch_u8_unescape sz (s ++ 0 :: tail) = Ret (filter (fun b => b < 128) s).
Proof.
  intros Hs Hz. apply (unescape_plain_loop s _ [] tail); [done| |done]. rewrite length_app. lia.
Qed.

Lemma unescape_keeps_ascii_only_witness :
  switch_u8_unescape 10 ([99; 97; 102; 195; 169] ++ 0 :: []) = Ret (filter (fun b => b < 128) [99; 97; 102; 195; 169])
  /\ filter (fun b => b < 128) [99; 97; 102; 195; 169] = [99; 97; 102].
Proof.
  split; [|vm_compute; reflexivity].
  apply (unescape_keeps_ascii_only [99; 97; 102; 195; 169] [] 10).
  - repeat (apply Forall_cons; split; [lia|]). by apply Forall_nil.
  - vm_compute. discriminate.
Defined.
