(* ===== verification/Base64.v ===== *)
(** * Base64: switch_b64_encode and switch_b64_decode of src/switch_utils.c

    The accumulators keep their width: [b] is [unsigned int] in the encoder and
    [int] in the decoder, where the shift wraps around (the C standard leaves
    that overflow undefined; the usual compilers wrap).  Destination buffers are
    the bytes stored in front of the terminator, so the bounds are statements
    about their length.  The line counter [y] of the encoder is left out: the
    line break it was for is commented out in the source. *)
From S2P Require Import Prelude.
From Stdlib Require Import ZArith Lia.
From stdpp Require Import base numbers option list.

Local Open Scope Z_scope.

Definition switch_b64_table : list Z := seqZ 65 26 ++ seqZ 97 26 ++ seqZ 48 10 ++ [43; 47].
Definition b64_char (v : Z) : Z := default 0 (switch_b64_table !! Z.to_nat v).

(** ** Encoder *)
(** [while (l >= 6)]: the bytes stored, the bits left, and whether the buffer is
    full ([goto end]).  [l] itself is enough fuel. *)
Fixpoint b64_flush (fuel : nat) (b l olen : Z) (out : list Z) : list Z * Z * bool :=
  match fuel with
  | O => (out, l, false)
  | S fuel =>
    if 6 <=? l then
      let l := l - 6 in
      let out := out ++ [b64_char (Z.shiftr b l mod 64)] in
      if zlen out >=? i32 olen - 1 then (out, l, true) else b64_flush fuel b l olen out
    else (out, l, false)
  end.

(** [while (l < 6 && bytes < (int)olen - 1) out[bytes++] = '=', l += 2] *)
Fixpoint b64_pad (fuel : nat) (l olen : Z) (out : list Z) : list Z :=
  match fuel with
  | O => out
  | S fuel => if (l <? 6) && (zlen out <? i32 olen - 1) then b64_pad fuel (l + 2) olen (out ++ [61]) else out
  end.

Fixpoint b64_encode_loop (inp : list Z) (b l olen : Z) (out : list Z) : list Z :=
  match inp with
  | x :: inp =>
    let b := u32 (u32 (Z.shiftl b 8) + x) in
    let l := l + 8 in
    let '(out, l, full) := b64_flush (Z.to_nat l) b l olen out in
    if full then out else b64_encode_loop inp b l olen out
  | [] =>
    let out := if l >? 0 then out ++ [b64_char (u32 (Z.shiftl (b mod 16) (6 - l)) mod 64)] else out in
    if l =? 0 then out else b64_pad (Z.to_nat (6 - l)) l olen out
  end.
Definition switch_b64_encode (inp : list Z) (olen : Z) : list Z := b64_encode_loop inp 0 0 olen [].

(** ** Decoder *)
Definition l64 : list Z :=
  foldl (fun t i => <[Z.to_nat (b64_char i) := i]> t) (replicate 256 (-1)) (seqZ 0 64).

Fixpoint b64_emit (fuel : nat) (b l olen : Z) (out : list Z) : list Z * Z * bool :=
  match fuel with
  | O => (out, l, false)
  | S fuel =>
    if 8 <=? l then
      let l := l - 8 in
      let out := out ++ [u8 (Z.rem (Z.shiftr b l) 256)] in
      if zlen out >=? u64 (olen - 2) then (out, l, true) else b64_emit fuel b l olen out
    else (out, l, false)
  end.

(** The source is a C string; [l64[(int) *ip]] is outside the table when the
    [char] is negative. *)
Fixpoint b64_decode_loop (s : list Z) (b l olen : Z) (out : list Z) : res (list Z) :=
  match s with
  | [] => Ub
  | ch :: s =>
    if ch =? 0 then Ret out
    else if 128 <=? ch then Ub
    else
      c <-! or_ub (l64 !! Z.to_nat ch);;
      if c =? -1 then b64_decode_loop s b l olen out
      else
        let b := i32 (i32 (Z.shiftl b 6) + c) in
        let l := l + 6 in
        let '(out, l, full) := b64_emit (Z.to_nat l) b l olen out in
        if full then Ret out else b64_decode_loop s b l olen out
  end.
(** The value returned and the bytes stored before the terminator. *)
Definition switch_b64_decode (s : list Z) (olen : Z) : res (Z * list Z) :=
  out <-! b64_decode_loop s 0 0 olen [];; Ret (zlen out + 1, out).

(** ** Reference: groups of three bytes *)
Fixpoint b64_ref (l : list Z) : list Z :=
  match l with
  | [] => []
  | [x] => [b64_char (x / 4); b64_char (x mod 4 * 16); 61; 61]
  | [x; y] => [b64_char (x / 4); b64_char (x mod 4 * 16 + y / 16); b64_char (y mod 16 * 4); 61]
  | x :: y :: z :: l =>
    b64_char (x / 4) :: b64_char (x mod 4 * 16 + y / 16) :: b64_char (y mod 16 * 4 + z / 64) ::
    b64_char (z mod 64) :: b64_ref l
  end.
Definition byte (x : Z) : Prop := 0 <= x < 256.

(** Induction by groups. *)
Lemma group_ind (P : list Z -> Prop) :
  P [] -> (forall x, P [x]) -> (forall x y, P [x; y]) -> (forall x y z l, P l -> P (x :: y :: z :: l)) ->
  forall l, P l.
Proof.
  intros H0 H1 H2 H3. fix go 1. intros [|x [|y [|z l]]]; [done..|]. apply H3, go.
Qed.

Example encode_foob : switch_b64_encode [102; 111; 111; 98] 20 = [90; 109; 57; 118; 89; 103; 61; 61].
Proof. reflexivity. Qed.
Example decode_foob : switch_b64_decode ([90; 109; 57; 118; 89; 103; 61; 61] ++ [0]) 20 = Ret (5, [102; 111; 111; 98]).
Proof. reflexivity. Qed.

(** ** Bits of the accumulators *)
(** [w] is [b << s + v] in some 32-bit type. *)
Definition shifted_in (b s v w : Z) : Prop := exists q, w = b * 2 ^ s + v - 2 ^ 32 * q.

Lemma shifted_u32 b s v : 0 <= s -> shifted_in b s v (u32 (u32 (Z.shiftl b s) + v)).
Proof.
  intros Hs. unfold u32. rewrite Z.shiftl_mul_pow2 by done.
  exists (b * 2 ^ s / 4294967296 + ((b * 2 ^ s) mod 4294967296 + v) / 4294967296).
  rewrite (Z.mod_eq (_ + v)), (Z.mod_eq (b * 2 ^ s)) by done. lia.
Qed.
Lemma i32_shift z : exists q, i32 z = z - 2 ^ 32 * q.
Proof. unfold i32. rewrite Z.mod_eq by done. exists ((z + 2147483648) / 4294967296). lia. Qed.
Lemma shifted_i32 b s v : 0 <= s -> shifted_in b s v (i32 (i32 (Z.shiftl b s) + v)).
Proof.
  intros Hs. destruct (i32_shift (Z.shiftl b s)) as [q Hq].
  destruct (i32_shift (i32 (Z.shiftl b s) + v)) as [q' Hq'].
  exists (q + q'). rewrite Hq', Hq, Z.shiftl_mul_pow2 by done. lia.
Qed.

(** The low bits of the accumulator are those pending before with the new ones
    behind them. *)
Lemma shifted_low b s v w k : shifted_in b s v w -> 0 <= k -> 0 <= s -> k + s <= 32 -> 0 <= v < 2 ^ s ->
  w mod 2 ^ (k + s) = b mod 2 ^ k * 2 ^ s + v.
Proof.
  intros [q ->] Hk Hs Hks Hv. symmetry.
  assert (0 < 2 ^ k) by (apply Z.pow_pos_nonneg; lia). assert (0 < 2 ^ s) by (apply Z.pow_pos_nonneg; lia).
  pose proof (Z.mod_pos_bound b (2 ^ k) ltac:(lia)). pose proof (Z.div_mod b (2 ^ k) ltac:(lia)) as E.
  apply (Z.mod_unique_pos _ _ (b / 2 ^ k - 2 ^ (32 - (k + s)) * q)); rewrite Z.pow_add_r by lia; [nia|].
  rewrite E at 1. replace (2 ^ 32) with (2 ^ k * 2 ^ s * 2 ^ (32 - (k + s))) by (rewrite <- !Z.pow_add_r by lia; f_equal; lia).
  ring.
Qed.

(** The [n] bits above the lowest [a], and the lowest [a]. *)
Lemma low_slice w a n P : 0 <= a -> 0 <= n -> w mod 2 ^ (a + n) = P -> Z.shiftr w a mod 2 ^ n = P / 2 ^ a.
Proof.
  intros Ha Hn <-. rewrite Z.shiftr_div_pow2, Z.pow_add_r by done.
  assert (0 < 2 ^ a) by (apply Z.pow_pos_nonneg; lia). assert (0 < 2 ^ n) by (apply Z.pow_pos_nonneg; lia).
  rewrite Z.rem_mul_r by lia. rewrite (Z.mul_comm (2 ^ a)), Z.div_add by lia.
  by rewrite (Z.div_small (w mod _)), Z.add_0_l by (apply Z.mod_pos_bound; lia).
Qed.
Lemma low_low w a n P : 0 <= a -> 0 <= n -> w mod 2 ^ (a + n) = P -> w mod 2 ^ a = P mod 2 ^ a.
Proof.
  intros Ha Hn <-. symmetry. rewrite Z.pow_add_r by done.
  assert (0 < 2 ^ a) by (apply Z.pow_pos_nonneg; lia). assert (0 < 2 ^ n) by (apply Z.pow_pos_nonneg; lia).
  rewrite Z.rem_mul_r by lia. rewrite (Z.mul_comm (2 ^ a)), Z.mod_add by lia. by apply Z.mod_mod; lia.
Qed.

(** ** One byte into the encoder *)
Lemma flush_digit fuel b l olen out : 6 <= l -> zlen out + 1 < i32 olen - 1 ->
  b64_flush (S fuel) b l olen out = b64_flush fuel b (l - 6) olen (out ++ [b64_char (Z.shiftr b (l - 6) mod 64)]).
Proof.
  intros Hl Ho. cbn [b64_flush]. rewrite (proj2 (Z.leb_le _ _)) by done. rewrite zlen_app.
  change (zlen [_]) with 1. by rewrite Z.geb_leb, (proj2 (Z.leb_gt _ _)) by lia.
Qed.
Lemma flush_done fuel b l olen out : l < 6 -> b64_flush fuel b l olen out = (out, l, false).
Proof. intros Hl. destruct fuel; [done|]. cbn [b64_flush]. by rewrite (proj2 (Z.leb_gt _ _)) by done. Qed.

(** The accumulator after a byte, in the words of the loop. *)
Definition acc (b x : Z) : Z := u32 (u32 (Z.shiftl b 8) + x).
Lemma acc_low b x k P : byte x -> 0 <= k <= 24 -> b mod 2 ^ k = P -> acc b x mod 2 ^ (k + 8) = P * 256 + x.
Proof.
  intros Hx Hk <-. change 256 with (2 ^ 8). apply shifted_low; [apply shifted_u32; lia|lia..|]. done.
Qed.

Lemma encode_first x inp b olen out : byte x -> zlen out + 2 < olen < 2147483648 ->
  b64_encode_loop (x :: inp) b 0 olen out = b64_encode_loop inp (acc b x) 2 olen (out ++ [b64_char (x / 4)]).
Proof.
  intros Hx Ho. cbn [b64_encode_loop]. fold (acc b x).
  change (Z.to_nat (0 + 8)) with 8%nat. rewrite flush_digit by (rewrite ?i32_small; pose proof (zlen_nonneg out); lia).
  rewrite flush_done by lia. pose proof (acc_low b x 0 0 Hx ltac:(lia) (Z.mod_1_r b)) as E.
  change (2 ^ (0 + 8)) with (2 ^ (2 + 6)) in E. change (0 + 8 - 6) with 2. change 64 with (2 ^ 6).
  by rewrite (low_slice _ 2 6 _ ltac:(lia) ltac:(lia) E).
Qed.

Lemma encode_second x y inp b olen out : byte x -> byte y -> zlen out + 2 < olen < 2147483648 ->
  b64_encode_loop (y :: inp) (acc b x) 2 olen out =
  b64_encode_loop inp (acc (acc b x) y) 4 olen (out ++ [b64_char (x mod 4 * 16 + y / 16)]).
Proof.
  intros Hx Hy Ho. cbn [b64_encode_loop]. fold (acc (acc b x) y).
  change (Z.to_nat (2 + 8)) with 10%nat. rewrite flush_digit by (rewrite ?i32_small; pose proof (zlen_nonneg out); lia).
  rewrite flush_done by lia. pose proof (acc_low b x 0 0 Hx ltac:(lia) (Z.mod_1_r b)) as E.
  apply (low_low _ 2 6) in E; [|lia..]. change (2 ^ 2) with 4 in E at 2.
  apply (acc_low _ y) in E; [|done|lia]. change (2 + 8) with (4 + 6) in E. change (2 + 8 - 6) with 4.
  change 64 with (2 ^ 6). rewrite (low_slice _ 4 6 _ ltac:(lia) ltac:(lia) E).
  do 4 f_equal. change (2 ^ 4) with 16. change (0 * 256 + x) with x.
  replace (x mod 4 * 256 + y) with (y + x mod 4 * 16 * 16) by lia. rewrite Z.div_add by done. lia.
Qed.

Lemma pending_one b x : byte x -> acc b x mod 4 = x mod 4.
Proof.
  intros Hx. pose proof (acc_low b x 0 0 Hx ltac:(lia) (Z.mod_1_r b)) as E.
  by apply (low_low _ 2 6) in E.
Qed.
Lemma pending_two b x y : byte x -> byte y -> acc (acc b x) y mod 16 = y mod 16.
Proof.
  intros Hx Hy. pose proof (acc_low (acc b x) y 0 0 Hy ltac:(lia) (Z.mod_1_r _)) as E.
  by apply (low_low _ 4 4) in E.
Qed.

Lemma encode_third x y z inp b olen out : byte x -> byte y -> byte z -> zlen out + 2 < olen < 2147483648 ->
  let out' := out ++ [b64_char (y mod 16 * 4 + z / 64); b64_char (z mod 64)] in
  b64_encode_loop (z :: inp) (acc (acc b x) y) 4 olen out =
  if zlen out + 2 =? olen - 1 then out' else b64_encode_loop inp (acc (acc (acc b x) y) z) 0 olen out'.
Proof.
  intros Hx Hy Hz Ho. cbn [b64_encode_loop]. fold (acc (acc (acc b x) y) z). pose proof (zlen_nonneg out).
  change (Z.to_nat (4 + 8)) with 12%nat. rewrite flush_digit by (rewrite ?i32_small; lia).
  cbn [b64_flush]. change (6 <=? 4 + 8 - 6) with true. cbv match. rewrite !zlen_app.
  change (zlen [_]) with 1. rewrite i32_small by lia.
  pose proof (acc_low _ z 4 _ Hz ltac:(lia) (pending_two b x y Hx Hy)) as E.
  change (4 + 8 - 6 - 6) with 0. change (4 + 8 - 6) with 6. change (4 + 8) with (6 + 6) in E.
  change 64 with (2 ^ 6). rewrite (low_slice _ 6 6 _ ltac:(lia) ltac:(lia) E).
  apply (low_low _ 6 6) in E; [|lia..]. rewrite Z.shiftr_0_r, E.
  replace ((y mod 16 * 256 + z) / 2 ^ 6) with (y mod 16 * 4 + z / 2 ^ 6).
  2: { change (2 ^ 6) with 64. replace (y mod 16 * 256 + z) with (z + y mod 16 * 4 * 64) by lia.
       rewrite Z.div_add by done. lia. }
  replace ((y mod 16 * 256 + z) mod 2 ^ 6) with (z mod 2 ^ 6).
  2: { change (2 ^ 6) with 64. replace (y mod 16 * 256 + z) with (z + y mod 16 * 4 * 64) by lia.
       by rewrite Z.mod_add. }
  rewrite <- app_assoc. cbn [app].
  destruct (Z.eqb_spec (zlen out + 2) (olen - 1)) as [Eq|Ne].
  - by rewrite Z.geb_leb, (proj2 (Z.leb_le _ _)) by lia.
  - rewrite Z.geb_leb, (proj2 (Z.leb_gt _ _)) by lia. done.
Qed.

Lemma low_shift_one m : (m mod 16 * 16) mod 64 = m mod 4 * 16.
Proof.
  change 64 with (4 * 16). rewrite Z.mul_mod_distr_r by done. f_equal.
  change 16 with (4 * 4). rewrite Z.rem_mul_r by done. rewrite (Z.mul_comm 4), Z.mod_add by done. by apply Z.mod_mod.
Qed.

Lemma encode_ref l : forall b olen out, Forall byte l -> zlen out + zlen (b64_ref l) < olen < 2147483648 ->
  b64_encode_loop l b 0 olen out = out ++ b64_ref l.
Proof.
  induction l as [|x|x y|x y z l IH] using group_ind; intros b olen out Hl Ho; pose proof (zlen_nonneg out);
    repeat (apply Forall_cons in Hl as [? Hl]).
  - by rewrite app_nil_r.
  - change (zlen (b64_ref [x])) with 4 in Ho. rewrite encode_first by (done || lia). cbn [b64_encode_loop].
    change (2 >? 0) with true. change (2 =? 0) with false. change (Z.to_nat (6 - 2)) with 4%nat. cbv match.
    cbn [b64_pad]. rewrite !zlen_app. change (zlen [_]) with 1. rewrite i32_small by lia.
    rewrite !(proj2 (Z.ltb_lt (_ + 1) _)) by lia. cbn. rewrite <- !app_assoc. cbn [app b64_ref].
    do 4 f_equal. f_equal. rewrite u32_small, Z.shiftl_mul_pow2; [|lia|].
    + change (2 ^ (6 - 2)) with 16. by rewrite low_shift_one, pending_one.
    + pose proof (Z.mod_pos_bound (acc b x) 16). rewrite Z.shiftl_mul_pow2 by lia. change (2 ^ (6 - 2)) with 16. lia.
  - change (zlen (b64_ref [x; y])) with 4 in Ho. rewrite encode_first by (done || lia).
    rewrite encode_second by (try done; rewrite zlen_app; change (zlen [_]) with 1; lia). cbn [b64_encode_loop].
    change (4 >? 0) with true. change (4 =? 0) with false. change (Z.to_nat (6 - 4)) with 2%nat. cbv match.
    cbn [b64_pad]. rewrite !zlen_app. change (zlen [_]) with 1. rewrite i32_small by lia.
    rewrite !(proj2 (Z.ltb_lt (_ + 1) _)) by lia. cbn. rewrite <- !app_assoc. cbn [app b64_ref].
    do 5 f_equal. f_equal. rewrite u32_small, Z.shiftl_mul_pow2; [|lia|].
    + rewrite (pending_two b x y) by done. change (2 ^ (6 - 4)) with 4. apply Z.mod_small.
      pose proof (Z.mod_pos_bound y 16). lia.
    + pose proof (Z.mod_pos_bound (acc (acc b x) y) 16). rewrite Z.shiftl_mul_pow2 by lia. change (2 ^ (6 - 4)) with 4. lia.
  - cbn [b64_ref] in Ho |- *.
    assert (E : zlen (b64_char (x / 4) :: b64_char (x mod 4 * 16 + y / 16) :: b64_char (y mod 16 * 4 + z / 64)
                :: b64_char (z mod 64) :: b64_ref l) = 4 + zlen (b64_ref l)) by (unfold zlen; cbn [length]; lia).
    rewrite E in Ho. pose proof (zlen_nonneg (b64_ref l)).
    rewrite encode_first by (done || lia).
    rewrite encode_second by (try done; rewrite zlen_app; change (zlen [_]) with 1; lia).
    rewrite encode_third by (try done; rewrite !zlen_app; change (zlen [_]) with 1; lia).
    rewrite <- !app_assoc. cbn [app]. rewrite !zlen_app. change (zlen [_; _]) with 2.
    destruct (Z.eqb_spec (zlen out + 2 + 2) (olen - 1)).
    + destruct l as [|x' l]; [done|]. exfalso.
      assert (1 <= zlen (b64_ref (x' :: l))) by (destruct l as [|? [|? ?]]; unfold zlen; cbn [b64_ref length]; lia). lia.
    + rewrite IH; [by rewrite <- app_assoc|done|]. rewrite zlen_app. change (zlen [_; _; _; _]) with 4. lia.
Qed.

(** ** One digit into the decoder *)
Lemma l64_digit v : 0 <= v < 64 ->
  0 < b64_char v < 128 /\ l64 !! Z.to_nat (b64_char v) = Some v.
Proof.
  intros Hv. assert (H : forallb (fun v => (0 <? b64_char v) && (b64_char v <? 128) &&
    bool_decide (l64 !! Z.to_nat (b64_char v) = Some v)) (seqZ 0 64) = true) by (vm_compute; reflexivity).
  rewrite forallb_forall in H. specialize (H v). rewrite <- list_elem_of_In, elem_of_seqZ in H.
  specialize (H ltac:(lia)). rewrite !andb_true_iff, bool_decide_eq_true, !Z.ltb_lt in H. tauto.
Qed.

Lemma u8_rem z : u8 (Z.rem z 256) = z mod 256.
Proof.
  unfold u8. rewrite (Z.quot_rem' z 256) at 2. by rewrite Z.add_comm, Z.mul_comm, Z.mod_add.
Qed.

Definition dacc (b v : Z) : Z := i32 (i32 (Z.shiftl b 6) + v).
Lemma dacc_low b v k P : 0 <= v < 64 -> 0 <= k <= 26 -> b mod 2 ^ k = P -> dacc b v mod 2 ^ (k + 6) = P * 64 + v.
Proof.
  intros Hv Hk <-. change 64 with (2 ^ 6). apply shifted_low; [apply shifted_i32; lia|lia..|]. done.
Qed.

Lemma decode_digit v s b l olen out : 0 <= v < 64 ->
  b64_decode_loop (b64_char v :: s) b l olen out =
  let '(out, l, full) := b64_emit (Z.to_nat (l + 6)) (dacc b v) (l + 6) olen out in
  if full then Ret out else b64_decode_loop s (dacc b v) l olen out.
Proof.
  intros Hv. destruct (l64_digit v Hv) as [Hc Hl]. cbn [b64_decode_loop].
  rewrite (proj2 (Z.eqb_neq _ 0)), (proj2 (Z.leb_gt 128 _)) by lia. rewrite Hl. cbn [or_ub rbind].
  by rewrite (proj2 (Z.eqb_neq v (-1))) by lia.
Qed.

Lemma decode_first v s b olen out : 0 <= v < 64 ->
  b64_decode_loop (b64_char v :: s) b 0 olen out = b64_decode_loop s (dacc b v) 6 olen out.
Proof. intros Hv. by rewrite decode_digit. Qed.

(** A digit that completes a byte. *)
Lemma decode_next v s b l P olen out : 0 <= v < 64 -> l = 2 \/ l = 4 \/ l = 6 -> b mod 2 ^ l = P ->
  let out' := out ++ [(P * 64 + v) / 2 ^ (l - 2)] in
  dacc b v mod 2 ^ (l - 2) = (P * 64 + v) mod 2 ^ (l - 2) /\
  b64_decode_loop (b64_char v :: s) b l olen out =
    if zlen out + 1 >=? u64 (olen - 2) then Ret out' else b64_decode_loop s (dacc b v) (l - 2) olen out'.
Proof.
  intros Hv Hl HP. pose proof (dacc_low b v l P Hv ltac:(lia) HP) as E.
  replace (l + 6) with (l - 2 + 8) in E by lia. split; [apply (low_low _ _ 8); lia || done|].
  rewrite decode_digit by done. destruct (Z.to_nat (l + 6)) as [|fuel] eqn:Ef; [lia|]. cbn [b64_emit].
  rewrite (proj2 (Z.leb_le 8 _)) by lia. replace (l + 6 - 8) with (l - 2) by lia. rewrite u8_rem.
  change 256 with (2 ^ 8). rewrite (low_slice _ (l - 2) 8 _ ltac:(lia) ltac:(lia) E).
  rewrite zlen_app. change (zlen [_]) with 1.
  destruct (zlen out + 1 >=? u64 (olen - 2)); [done|].
  destruct fuel as [|fuel]; [done|]. cbn [b64_emit]. by rewrite (proj2 (Z.leb_gt 8 _)) by lia.
Qed.

(** Padding is skipped. *)
Lemma decode_pad s b l olen out : b64_decode_loop (61 :: s) b l olen out = b64_decode_loop s b l olen out.
Proof. done. Qed.

Lemma group_digits x y z : byte x -> byte y -> byte z ->
  let u := x / 4 in let v := x mod 4 * 16 + y / 16 in let w := y mod 16 * 4 + z / 64 in
  (0 <= u < 64 /\ 0 <= v < 64 /\ 0 <= w < 64 /\ 0 <= z mod 64 < 64) /\
  u * 4 + v / 16 = x /\ v mod 16 * 16 + w / 4 = y /\ w mod 4 * 64 + z mod 64 = z.
Proof.
  unfold byte. intros Hx Hy Hz. cbv zeta.
  pose proof (Z.div_mod x 4 ltac:(done)). pose proof (Z.div_mod y 16 ltac:(done)). pose proof (Z.div_mod z 64 ltac:(done)).
  pose proof (Z.mod_pos_bound x 4 ltac:(done)). pose proof (Z.mod_pos_bound y 16 ltac:(done)).
  pose proof (Z.mod_pos_bound z 64 ltac:(done)).
  assert (y / 16 < 16) by lia. assert (z / 64 < 4) by lia. assert (x / 4 < 64) by lia.
  assert (0 <= y / 16 /\ 0 <= z / 64 /\ 0 <= x / 4) by lia.
  split_and!; try lia.
  - rewrite Z.div_add_l, (Z.div_small (y / 16)) by lia. lia.
  - rewrite Z.div_add_l, (Z.div_small (z / 64)), Z.add_comm, (Z.add_comm (x mod 4 * 16)), Z.mod_add by lia.
    rewrite (Z.mod_small (y / 16)) by lia. lia.
  - rewrite Z.add_comm, (Z.add_comm (y mod 16 * 4)), Z.mod_add by lia. rewrite (Z.mod_small (z / 64)) by lia. lia.
Qed.

(** The first two digits give the first byte; the other digits one each. *)
Section Digits.
Context (b olen : Z) (s out : list Z) (x y z : Z).
Context (Hx : byte x) (Hy : byte y) (Hz : byte z).
Let u := x / 4.
Let v := x mod 4 * 16 + y / 16.
Let w := y mod 16 * 4 + z / 64.
Let b2 := dacc (dacc b u) v.
Let b3 := dacc b2 w.

Lemma two_digits :
  b2 mod 2 ^ 4 = v mod 16 /\
  b64_decode_loop (b64_char u :: b64_char v :: s) b 0 olen out =
    if zlen out + 1 >=? u64 (olen - 2) then Ret (out ++ [x]) else b64_decode_loop s b2 4 olen (out ++ [x]).
Proof.
  destruct (group_digits x y z Hx Hy Hz) as [(Hu & Hv & _) (E1 & _)]. fold u v in Hu, Hv, E1.
  rewrite decode_first by done.
  pose proof (dacc_low b u 0 0 Hu ltac:(lia) (Z.mod_1_r b)) as E. change (0 + 6) with 6 in E.
  destruct (decode_next v s _ 6 _ olen out Hv ltac:(auto) E) as [El ->]. fold b2 in El |- *.
  change (0 * 64 + u) with u in *. change (6 - 2) with 4 in *. change (2 ^ 4) with 16 in *.
  replace (u * 64 + v) with (v + u * 4 * 16) in * by lia. rewrite Z.mod_add in El by done.
  rewrite Z.div_add by done. split; [done|]. by replace (v / 16 + u * 4) with x by lia.
Qed.

Lemma third_digit : b2 mod 2 ^ 4 = v mod 16 ->
  b3 mod 2 ^ 2 = w mod 4 /\
  b64_decode_loop (b64_char w :: s) b2 4 olen out =
    if zlen out + 1 >=? u64 (olen - 2) then Ret (out ++ [y]) else b64_decode_loop s b3 2 olen (out ++ [y]).
Proof.
  destruct (group_digits x y z Hx Hy Hz) as [(_ & Hv & Hw & _) (_ & E2 & _)]. fold v w in Hv, Hw, E2. intros E.
  destruct (decode_next w s _ 4 _ olen out Hw ltac:(auto) E) as [El ->]. fold b3 in El |- *.
  change (4 - 2) with 2 in *. change (2 ^ 2) with 4 in *.
  replace (v mod 16 * 64 + w) with (w + v mod 16 * 16 * 4) in * by lia. rewrite Z.mod_add in El by done.
  rewrite Z.div_add by done. split; [done|]. by replace (w / 4 + v mod 16 * 16) with y by lia.
Qed.

Lemma fourth_digit : b3 mod 2 ^ 2 = w mod 4 ->
  b64_decode_loop (b64_char (z mod 64) :: s) b3 2 olen out =
    if zlen out + 1 >=? u64 (olen - 2) then Ret (out ++ [z])
    else b64_decode_loop s (dacc b3 (z mod 64)) 0 olen (out ++ [z]).
Proof.
  destruct (group_digits x y z Hx Hy Hz) as [(_ & _ & _ & Ht) (_ & _ & E3)]. fold w in E3. intros E.
  destruct (decode_next (z mod 64) s _ 2 _ olen out Ht ltac:(auto) E) as [_ ->].
  change (2 - 2) with 0. change (2 ^ 0) with 1. by rewrite Z.div_1_r, E3.
Qed.
End Digits.

Lemma decode_ref l : forall b olen out tail, Forall byte l ->
  zlen out + zlen l + 2 <= olen < 18446744073709551616 ->
  b64_decode_loop (b64_ref l ++ 0 :: tail) b 0 olen out = Ret (out ++ l).
Proof.
  assert (Hb0 : byte 0) by (unfold byte; lia).
  induction l as [|x|x y|x y z l IH] using group_ind; intros b olen out tail Hl Ho; pose proof (zlen_nonneg out);
    repeat (apply Forall_cons in Hl as [? Hl]).
  - by rewrite app_nil_r.
  - change (zlen [x]) with 1 in Ho. cbn [b64_ref app].
    destruct (two_digits b olen (61 :: 61 :: 0 :: tail) out x 0 0) as [_ E]; [done..|].
    change (0 / 16) with 0 in E. rewrite Z.add_0_r in E. rewrite E. by case_if Ef.
  - change (zlen [x; y]) with 2 in Ho. cbn [b64_ref app].
    destruct (two_digits b olen (b64_char (y mod 16 * 4) :: 61 :: 0 :: tail) out x y 0) as [E2 ->]; [done..|].
    rewrite u64_small, Z.geb_leb, (proj2 (Z.leb_gt _ _)) by lia.
    destruct (third_digit b olen (61 :: 0 :: tail) (out ++ [x]) x y 0) as [_ E]; [done..|].
    change (0 / 64) with 0 in E. rewrite Z.add_0_r in E. rewrite E, <- app_assoc. by case_if Ef.
  - assert (El : zlen (x :: y :: z :: l) = 3 + zlen l) by (unfold zlen; cbn [length]; lia). rewrite El in Ho.
    pose proof (zlen_nonneg l). cbn [b64_ref app].
    set (rest := b64_ref l ++ 0 :: tail). set (w := b64_char (y mod 16 * 4 + z / 64)).
    destruct (two_digits b olen (w :: b64_char (z mod 64) :: rest) out x y z) as [E2 ->]; [done..|].
    rewrite u64_small, Z.geb_leb, (proj2 (Z.leb_gt _ _)) by lia.
    destruct (third_digit b olen (b64_char (z mod 64) :: rest) (out ++ [x]) x y z) as [E3 E]; [done..|].
    unfold w. rewrite E. rewrite u64_small, Z.geb_leb, (proj2 (Z.leb_gt _ _)) by (rewrite ?zlen_app; change (zlen [_]) with 1; lia).
    rewrite (fourth_digit b olen _ _ x y z) by done. rewrite <- !app_assoc. cbn [app]. rewrite zlen_app.
    change (zlen [_; _]) with 2. rewrite u64_small, Z.geb_leb by lia.
    destruct (Z.leb_spec (olen - 2) (zlen out + 2 + 1)).
    + destruct l as [|x' l]; [done|]. unfold zlen in *. cbn [length] in *. lia.
    + unfold rest. rewrite IH; [by rewrite <- app_assoc|done|]. rewrite zlen_app. change (zlen [_; _; _]) with 3. lia.
Qed.

(** C38: [switch_b64_encode] into a buffer that has room writes the standard
    encoding of its input, and [switch_b64_decode] reads it back with one byte
    for its terminator, into a buffer two bytes longer than the data. *)
Theorem b64_roundtrip (l tail : list Z) (olen dlen : Z) :
  Forall byte l -> 4 * ((zlen l + 2) / 3) < olen < 2147483648 -> zlen l + 2 <= dlen < 18446744073709551616 ->
  switch_b64_encode l olen = b64_ref l /\
  switch_b64_decode (switch_b64_encode l olen ++ 0 :: tail) dlen = Ret (zlen l + 1, l).
Proof.
  intros Hl Ho Hd. assert (El : zlen (b64_ref l) = 4 * ((zlen l + 2) / 3)).
  { clear. unfold zlen. induction l as [|x|x y|x y z l IH] using group_ind; [done..|]. cbn [b64_ref length].
    rewrite !Nat2Z.inj_succ, IH.
    replace (Z.succ (Z.succ (Z.succ (Z.of_nat (length l)))) + 2) with (Z.of_nat (length l) + 2 + 1 * 3) by lia.
    rewrite Z.div_add by done. lia. }
  assert (E : switch_b64_encode l olen = b64_ref l).
  { unfold switch_b64_encode. rewrite encode_ref; [done|done|]. change (zlen []) with 0. lia. }
  rewrite E. split; [done|]. unfold switch_b64_decode. rewrite decode_ref; [done|done|]. change (zlen []) with 0. lia.
Qed.

Lemma b64_roundtrip_witness :
  switch_b64_encode [102; 111; 255; 0] 9 = b64_ref [102; 111; 255; 0] /\
  switch_b64_decode (switch_b64_encode [102; 111; 255; 0] 9 ++ 0 :: []) 6 = Ret (zlen [102; 111; 255; 0] + 1, [102; 111; 255; 0]).
Proof.
  apply (b64_roundtrip [102; 111; 255; 0] [] 9 6).
  - repeat (apply Forall_cons; split; [unfold byte; lia|]). by apply Forall_nil.
  - vm_compute. done.
  - vm_compute. done.
Defined.

(** ** Bounds *)
Lemma flush_bound fuel b olen : forall l out, zlen out < i32 olen - 1 ->
  forall out' l' full, b64_flush fuel b l olen out = (out', l', full) ->
  if full : bool then zlen out' = i32 olen - 1 else zlen out' < i32 olen - 1.
Proof.
  induction fuel as [|fuel IH]; intros l out Ho out' l' full E; cbn [b64_flush] in E; [by simplify_eq|].
  destruct (6 <=? l); [|by simplify_eq].
  destruct (Z.geb_spec (zlen (out ++ [b64_char (Z.shiftr b (l - 6) mod 64)])) (i32 olen - 1)) as [H|H].
  - simplify_eq. rewrite zlen_app in *. change (zlen [_]) with 1 in *. lia.
  - apply IH in E; [done|lia].
Qed.
Lemma pad_bound fuel olen : forall l out, zlen out < i32 olen -> zlen (b64_pad fuel l olen out) < i32 olen.
Proof.
  induction fuel as [|fuel IH]; intros l out Ho; [done|]. cbn [b64_pad].
  destruct (l <? 6); [|done]. destruct (Z.ltb_spec (zlen out) (i32 olen - 1)); [|done]. cbn [andb].
  apply IH. rewrite zlen_app. change (zlen [_]) with 1. lia.
Qed.
Lemma encode_bound inp : forall b l olen out, zlen out < i32 olen - 1 ->
  zlen (b64_encode_loop inp b l olen out) < i32 olen.
Proof.
  induction inp as [|x inp IH]; intros b l olen out Ho; cbn [b64_encode_loop].
  - assert (H : zlen (if l >? 0 then out ++ [b64_char (u32 (Z.shiftl (b mod 16) (6 - l)) mod 64)] else out) < i32 olen).
    { destruct (l >? 0); [rewrite zlen_app; change (zlen [_]) with 1|]; lia. }
    destruct (l =? 0); [done|by apply pad_bound].
  - destruct (b64_flush _ _ _ _ _) as [[out' l'] full] eqn:E. apply flush_bound in E; [|done].
    destruct full; [lia|by apply IH].
Qed.

Lemma emit_bound fuel b olen : forall l out, zlen out < Z.max 1 (olen - 2) -> 2 <= olen < 18446744073709551616 ->
  forall out' l' full, b64_emit fuel b l olen out = (out', l', full) ->
  zlen out' <= Z.max 1 (olen - 2) /\ (full = false -> zlen out' < Z.max 1 (olen - 2)).
Proof.
  induction fuel as [|fuel IH]; intros l out Ho Hl out' l' full E; cbn [b64_emit] in E; [simplify_eq; lia|].
  destruct (8 <=? l); [|simplify_eq; lia]. rewrite u64_small in E by lia.
  destruct (Z.geb_spec (zlen (out ++ [u8 (Z.rem (Z.shiftr b (l - 8)) 256)])) (olen - 2)) as [H|H].
  - simplify_eq. rewrite zlen_app in *. change (zlen [_]) with 1 in *. split; [lia|done].
  - apply IH in E; [done|lia|done].
Qed.
Lemma decode_bound s : forall b l olen out r, zlen out < Z.max 1 (olen - 2) -> 2 <= olen < 18446744073709551616 ->
  b64_decode_loop s b l olen out = Ret r -> zlen r <= Z.max 1 (olen - 2).
Proof.
  induction s as [|c s IH]; intros b l olen out r Ho Hl E; cbn [b64_decode_loop] in E; [done|].
  destruct (c =? 0); [simplify_eq; lia|]. destruct (128 <=? c); [done|].
  destruct (l64 !! Z.to_nat c) as [v|]; [|done]. cbn [or_ub rbind] in E.
  destruct (v =? -1); [by apply IH in E|].
  destruct (b64_emit _ _ _ _ _) as [[out' l'] full] eqn:Ee. apply emit_bound in Ee as [H1 H2]; [|done..].
  destruct full; [by simplify_eq|]. apply IH in E; auto.
Qed.

(** Both directions stay within a destination of two bytes or more, on any
    input, terminator included. *)
Theorem b64_bounds (inp s : list Z) (olen : Z) :
  2 <= olen < 2147483648 ->
  zlen (switch_b64_encode inp olen) + 1 <= olen /\
  (forall n out, switch_b64_decode s olen = Ret (n, out) -> n = zlen out + 1 /\ n <= olen).
Proof.
  intros Ho. split.
  - pose proof (encode_bound inp 0 0 olen []) as H. rewrite i32_small in H by lia.
    change (zlen []) with 0 in H. unfold switch_b64_encode. lia.
  - unfold switch_b64_decode. intros n out (out' & E & [= <- <-])%rbind_Ret.
    apply decode_bound in E; [lia|change (zlen []) with 0; lia|lia].
Qed.

Lemma b64_bounds_witness :
  zlen (switch_b64_encode [1; 2; 3; 4; 5] 4) + 1 <= 4 /\
  (forall n out, switch_b64_decode [90; 109; 57; 118; 89; 103; 0] 4 = Ret (n, out) -> n = zlen out + 1 /\ n <= 4).
Proof. apply (b64_bounds [1; 2; 3; 4; 5] [90; 109; 57; 118; 89; 103; 0] 4). lia. Defined.

(** A destination of one byte is overrun: the limits [olen - 1] and [olen - 2]
    are only looked at after a byte was stored, and the latter wraps around. *)
Example encode_overruns_one_byte : zlen (switch_b64_encode [1] 1) = 1.
Proof. reflexivity. Qed.
Example decode_overruns_one_byte : switch_b64_decode [90; 109; 57; 118; 0] 1 = Ret (4, [102; 111; 111]).
Proof. reflexivity. Qed.
