(* ===== verification/UrlCode.v ===== *)
(** * UrlCode: URL encoding and decoding of src/switch_utils.c

    Texts are the bytes before the terminator; comparisons of [char] are signed,
    as on the platforms the program is built for.  A destination is the bytes
    stored in front of its terminator. *)
From S2P Require Import Prelude.
From Stdlib Require Import ZArith Lia.
From stdpp Require Import base numbers option list.

Local Open Scope Z_scope.

Definition schar (c : Z) : Z := if c <? 128 then c else c - 256.

(** [SWITCH_URL_UNSAFE] of include/switch_utils.h: carriage return, line feed,
    space, # % & + : ; < = > ? @ [ \ ] ^ ` { | } and the double quote. *)
Definition SWITCH_URL_UNSAFE : list Z :=
  [13; 10; 32; 35; 37; 38; 43; 58; 59; 60; 61; 62; 63; 64; 91; 92; 93; 94; 96; 123; 124; 125; 34].
(** [const char hex[] = "0123456789ABCDEF"] *)
Definition hex : list Z := seqZ 48 10 ++ seqZ 65 6.
(** [strchr(s, c)] as a condition: the terminator is found, too. *)
Definition strchr (s : list Z) (c : Z) : bool := (c =? 0) || existsb (Z.eqb c) s.

(** ** Encoding *)
(** [!double_encode && *p == '%' && e-p > 1 && strchr(hex, *(p+1)) && strchr(hex, *(p+2))];
    [r] is the text behind [p], and [e] points at its last byte. *)
Definition already_encoded (double_encode : bool) (c : Z) (r : list Z) : bool :=
  negb double_encode && (c =? 37) && (zlen r >? 1) &&
  match r with a :: b :: _ => strchr hex a && strchr hex b | _ => false end.
Definition must_encode (c : Z) : bool := (schar c <? 32) || (schar c >? 126) || strchr SWITCH_URL_UNSAFE c.
Definition hex_at (v : Z) : Z := default 0 (hex !! Z.to_nat v).
Definition percent (c : Z) : list Z :=
  [37; hex_at (Z.land (Z.shiftr (schar c) 4) 15); hex_at (Z.land (schar c) 15)].

Fixpoint url_encode_loop (double_encode : bool) (s : list Z) (x len : Z) : list Z :=
  match s with
  | [] => []
  | c :: r =>
    if x >=? len then []
    else if negb (already_encoded double_encode c r) && must_encode c then
      if x + 3 >? len then [] else percent c ++ url_encode_loop double_encode r (x + 3) len
    else c :: url_encode_loop double_encode r (x + 1) len
  end.
(** [end_of_p(url)] reads [*url] before the tests for NULL. *)
Definition switch_url_encode_opt (url : option (list Z)) (buf : bool) (len : Z) (double_encode : bool)
  : res (option (list Z)) :=
  match url with
  | None => Ub
  | Some s => if buf then Ret (Some (url_encode_loop double_encode s 0 (u64 (len - 1)))) else Ret None
  end.
Definition switch_url_encode (url : option (list Z)) (buf : bool) (len : Z) : res (option (list Z)) :=
  switch_url_encode_opt url buf len false.

(** The loop that measures the encoded text. *)
Fixpoint url_measure (double_encode : bool) (s : list Z) (len : Z) : Z :=
  match s with
  | [] => len
  | c :: r =>
    url_measure double_encode r
      (if negb (already_encoded double_encode c r) && must_encode c then len + 1 + 2 else len + 1)
  end.
Definition switch_core_url_encode_opt (pool : bool) (url : option (list Z)) (double_encode : bool)
  : res (option (list Z)) :=
  match url with
  | None => Ub
  | Some s =>
    if pool then
      let slen := zlen s + 1 in
      let len := url_measure double_encode s 0 + 1 in
      if slen =? len then Ret (Some s) else switch_url_encode_opt url true len double_encode
    else Ret None
  end.
Definition switch_core_url_encode (pool : bool) (url : option (list Z)) : res (option (list Z)) :=
  switch_core_url_encode_opt pool url false.

(** [switch_needs_url_encode] of include/switch_utils.h: behind an escape the
    loop goes on at its second digit. *)
Fixpoint switch_needs_url_encode (s : list Z) : bool :=
  match s with
  | [] => false
  | c :: r =>
    match already_encoded false c r, r with
    | true, _ :: r' => switch_needs_url_encode r'
    | _, _ => strchr SWITCH_URL_UNSAFE c || switch_needs_url_encode r
    end
  end.

(** ** Decoding *)
Definition xdigit (c : Z) : option Z :=
  if (48 <=? c) && (c <=? 57) then Some (c - 48)
  else if (65 <=? c) && (c <=? 70) then Some (c - 55)
  else if (97 <=? c) && (c <=? 102) then Some (c - 87) else None.
Definition isspace (c : Z) : bool := (c =? 32) || ((9 <=? c) && (c <=? 13)).
(** [sscanf(s, "%2x", &tmp)]: white space, then a sign and a digit or one or two
    digits; a prefix 0x alone is no number. *)
Fixpoint sscanf_2x (s : list Z) : option Z :=
  match s with
  | [] => None
  | c :: r =>
    if isspace c then sscanf_2x r
    else if (c =? 43) || (c =? 45) then
      match r with
      | d :: _ => option_map (fun v => if c =? 45 then u32 (- v) else v) (xdigit d)
      | [] => None
      end
    else
      match xdigit c, r with
      | None, _ => None
      | Some v, [] => Some v
      | Some v, d :: _ =>
        match xdigit d with
        | Some w => Some (16 * v + w)
        | None => if (v =? 0) && ((d =? 120) || (d =? 88)) then None else Some v
        end
      end
  end.

(** The bytes stored, in place behind the position read. *)
Fixpoint url_decode_loop (s : list Z) : list Z :=
  match s with
  | [] => []
  | c :: r =>
    match r with
    | _ :: _ :: r' =>
      match (if c =? 37 then sscanf_2x r else None) with
      | Some tmp => u8 tmp :: url_decode_loop r'
      | None => c :: url_decode_loop r
      end
    | _ => c :: url_decode_loop r
    end
  end.
(** The bytes stored and the position returned: [s] has moved to the end. *)
Definition switch_url_decode (s : list Z) : list Z * Z := (url_decode_loop s, zlen s).

Example encode_query : switch_core_url_encode true (Some [97; 32; 37; 50; 48; 37; 122]) =
  Ret (Some [97; 37; 50; 48; 37; 50; 48; 37; 50; 53; 122]).
Proof. reflexivity. Qed.

(** ** Reference: the text encoded without a limit *)
Fixpoint url_escape (double_encode : bool) (s : list Z) : list Z :=
  match s with
  | [] => []
  | c :: r =>
    (if negb (already_encoded double_encode c r) && must_encode c then percent c else [c]) ++ url_escape double_encode r
  end.
Definition char (c : Z) : Prop := 0 < c < 256.

(** ** Bytes and their escapes *)
Definition digit_is (h v : Z) : bool := match xdigit h with Some w => w =? v | None => false end.
Lemma digit_is_spec h v : digit_is h v = true -> xdigit h = Some v.
Proof. unfold digit_is. destruct (xdigit h); [|done]. by intros ->%Z.eqb_eq. Qed.

Lemma percent_spec c : 0 < c < 256 ->
  exists h l, percent c = [37; h; l] /\ xdigit h = Some (c / 16) /\ xdigit l = Some (c mod 16) /\
    strchr hex h = true /\ strchr hex l = true.
Proof.
  intros Hc. eexists _, _. split; [reflexivity|].
  pose proof (byte_forall (fun c =>
    let h := hex_at (Z.land (Z.shiftr (schar c) 4) 15) in let l := hex_at (Z.land (schar c) 15) in
    digit_is h (c / 16) && digit_is l (c mod 16) && strchr hex h && strchr hex l)
    ltac:(vm_compute; reflexivity) c ltac:(lia)) as H.
  cbv beta zeta in H. rewrite !andb_true_iff in H. destruct H as [[[?%digit_is_spec ?%digit_is_spec] ?] ?]. done.
Qed.

(** A byte that stays: printable, and not the percent sign. *)
Lemma plain_spec c : 0 < c < 256 -> must_encode c = false -> c <> 37 /\ 32 < c < 127 /\ strchr SWITCH_URL_UNSAFE c = false.
Proof.
  intros Hc. pose proof (byte_forall (fun c => (c =? 0) || must_encode c ||
    (negb (c =? 37) && (32 <? c) && (c <? 127) && negb (strchr SWITCH_URL_UNSAFE c)))
    ltac:(vm_compute; reflexivity) c ltac:(lia)) as H.
  cbv beta in H. rewrite (proj2 (Z.eqb_neq c 0)) in H by lia. intros E. rewrite E in H. cbn [orb] in H.
  rewrite !andb_true_iff, !negb_true_iff, !Z.ltb_lt, Z.eqb_neq in H. tauto.
Qed.
Lemma hex_plain c : 0 < c < 256 -> strchr hex c = true ->
  must_encode c = false /\ isspace c = false /\ c <> 43 /\ c <> 45.
Proof.
  intros Hc. pose proof (byte_forall (fun c => (c =? 0) || negb (strchr hex c) ||
    (negb (must_encode c) && negb (isspace c) && negb (c =? 43) && negb (c =? 45)))
    ltac:(vm_compute; reflexivity) c ltac:(lia)) as H.
  cbv beta in H. rewrite (proj2 (Z.eqb_neq c 0)) in H by lia. intros E. rewrite E in H. cbn [orb negb] in H.
  rewrite !andb_true_iff, !negb_true_iff, !Z.eqb_neq in H. tauto.
Qed.
Lemma xdigit_char h v : xdigit h = Some v -> 0 < h < 256 /\ isspace h = false /\ h <> 43 /\ h <> 45.
Proof.
  unfold xdigit, isspace. intros H.
  assert (48 <= h <= 102) by (cases; lia). split_and!; lia.
Qed.

Lemma already_double c r : already_encoded true c r = false.
Proof. done. Qed.
Lemma already_plain d c r : c <> 37 -> already_encoded d c r = false.
Proof. intros H. unfold already_encoded. rewrite (proj2 (Z.eqb_neq _ _)) by done. by rewrite andb_false_r. Qed.
Lemma already_hex a b r : strchr hex a = true -> strchr hex b = true -> already_encoded false 37 (a :: b :: r) = true.
Proof.
  intros Ha Hb. unfold already_encoded. rewrite Ha, Hb. unfold zlen. cbn [length].
  by rewrite Z.gtb_ltb, (proj2 (Z.ltb_lt _ _)) by lia.
Qed.

(** ** Length *)
Lemma percent_length c : zlen (percent c) = 3.
Proof. done. Qed.

Lemma escape_length d s : zlen s <= zlen (url_escape d s) <= 3 * zlen s /\
  (zlen (url_escape d s) = zlen s -> url_escape d s = s).
Proof.
  induction s as [|c s [IH IH']]; [done|]. cbn [url_escape]. rewrite zlen_app, zlen_cons.
  destruct (_ && _); rewrite ?percent_length; change (zlen [c]) with 1; (split; [lia|]); intros E; [lia|].
  cbn [app]. f_equal. apply IH'. lia.
Qed.
Lemma measure_escape d s : forall len, url_measure d s len = len + zlen (url_escape d s).
Proof.
  induction s as [|c s IH]; intros len; cbn [url_measure url_escape]; [change (zlen []) with 0; lia|].
  rewrite IH, zlen_app. destruct (_ && _); rewrite ?percent_length; change (zlen [c]) with 1; lia.
Qed.

Lemma encode_fits d s : forall x len, x + zlen (url_escape d s) <= len -> url_encode_loop d s x len = url_escape d s.
Proof.
  induction s as [|c s IH]; intros x len Hx; [done|]. cbn [url_encode_loop url_escape] in *.
  rewrite zlen_app in Hx. pose proof (zlen_nonneg (url_escape d s)).
  destruct (_ && _); rewrite ?percent_length in Hx; change (zlen [c]) with 1 in *.
  - rewrite Z.geb_leb, Z.gtb_ltb, (proj2 (Z.leb_gt _ _)), (proj2 (Z.ltb_ge _ _)) by lia. rewrite IH by lia. done.
  - rewrite Z.geb_leb, (proj2 (Z.leb_gt _ _)) by lia. rewrite IH by lia. done.
Qed.
Lemma core_encode_escape d s : zlen s < 2 ^ 62 ->
  switch_core_url_encode_opt true (Some s) d = Ret (Some (url_escape d s)).
Proof.
  intros Hs. unfold switch_core_url_encode_opt, switch_url_encode_opt. rewrite measure_escape.
  destruct (escape_length d s) as [Hl He]. pose proof (zlen_nonneg s).
  destruct (Z.eqb_spec (zlen s + 1) (0 + zlen (url_escape d s) + 1)); [by rewrite He by lia|].
  rewrite u64_small by lia. rewrite encode_fits by lia. done.
Qed.

(** ** Decoding an escape *)
Lemma decode_percent c t : 0 < c < 256 -> url_decode_loop (percent c ++ t) = c :: url_decode_loop t.
Proof.
  intros Hc. destruct (percent_spec c Hc) as (h & l & -> & Hh & Hl & _).
  destruct (xdigit_char h _ Hh) as (_ & Hs & Hp & Hm). cbn [app url_decode_loop].
  change (37 =? 37) with true. cbv match. cbn [sscanf_2x].
  rewrite Hs, (proj2 (Z.eqb_neq h 43)), (proj2 (Z.eqb_neq h 45)) by done. cbn [orb]. rewrite Hh, Hl.
  rewrite <- Z.div_mod by done. by rewrite u8_small by lia.
Qed.
Lemma decode_plain c t : c <> 37 -> url_decode_loop (c :: t) = c :: url_decode_loop t.
Proof. intros Hc. cbn [url_decode_loop]. rewrite (proj2 (Z.eqb_neq c 37)) by done. by destruct t as [|? [|? ?]]. Qed.

Lemma decode_escape s : Forall char s -> url_decode_loop (url_escape true s) = s.
Proof.
  induction 1 as [|c s Hc _ IH]; [done|]. cbn [url_escape]. rewrite already_double. cbn [negb andb].
  destruct (must_encode c) eqn:E.
  - by rewrite decode_percent, IH.
  - cbn [app]. rewrite decode_plain by (by apply plain_spec). by rewrite IH.
Qed.

(** The encoder with a memory pool measures the encoded text exactly, so
    nothing is cut off; with double encoding the decoder gives back any text. *)
Theorem url_roundtrip (s : list Z) :
  Forall char s -> zlen s < 2 ^ 62 ->
  exists e, switch_core_url_encode_opt true (Some s) true = Ret (Some e) /\ zlen e <= 3 * zlen s /\
    Forall (fun c => 32 < c < 127) e /\ switch_url_decode e = (s, zlen e).
Proof.
  intros Hs Hl. exists (url_escape true s). split_and!.
  - by apply core_encode_escape.
  - apply escape_length.
  - clear Hl. induction Hs as [|c s Hc _ IH]; [constructor|]. cbn [url_escape]. apply Forall_app. split; [|done].
    rewrite already_double. cbn [negb andb]. destruct (must_encode c) eqn:E.
    + destruct (percent_spec c Hc) as (h & l & -> & Hh & Hl & Hh' & Hl').
      apply xdigit_char in Hh as [Hh _], Hl as [Hl _]. apply hex_plain in Hh' as [Hh' _], Hl' as [Hl' _]; [|done..].
      apply plain_spec in Hh' as (_ & Hh' & _), Hl' as (_ & Hl' & _); [|done..].
      repeat (apply Forall_cons; split; [lia|]). constructor.
    + apply plain_spec in E as (_ & E & _); [|done]. apply Forall_cons. by split.
  - unfold switch_url_decode. by rewrite decode_escape.
Qed.

Lemma url_roundtrip_witness :
  switch_core_url_encode_opt true (Some [97; 32; 37; 195]) true = Ret (Some [97; 37; 50; 48; 37; 50; 53; 37; 67; 51]) /\
  exists e, switch_core_url_encode_opt true (Some [97; 32; 37; 195]) true = Ret (Some e) /\ zlen e <= 3 * zlen [97; 32; 37; 195] /\
    Forall (fun c => 32 < c < 127) e /\ switch_url_decode e = ([97; 32; 37; 195], zlen e).
Proof.
  split; [reflexivity|]. apply (url_roundtrip [97; 32; 37; 195]).
  - repeat (apply Forall_cons; split; [unfold char; lia|]). by apply Forall_nil.
  - vm_compute. reflexivity.
Defined.

(** ** Encoding twice *)
Lemma escape_plain d c s : 0 < c < 256 -> must_encode c = false -> url_escape d (c :: s) = c :: url_escape d s.
Proof. intros Hc E. cbn [url_escape]. by rewrite E, andb_false_r. Qed.
Lemma escape_hex a b t : 0 < a < 256 -> 0 < b < 256 -> strchr hex a = true -> strchr hex b = true ->
  url_escape false (37 :: a :: b :: t) = 37 :: a :: b :: url_escape false t.
Proof.
  intros Ha Hb Ea Eb. cbn [url_escape]. rewrite already_hex by done. cbn [negb andb app].
  apply hex_plain in Ea as [-> _], Eb as [-> _]; [|done..]. by rewrite !andb_false_r.
Qed.
Lemma already_inv c r : already_encoded false c r = true ->
  exists a b r', c = 37 /\ r = a :: b :: r' /\ strchr hex a = true /\ strchr hex b = true.
Proof.
  unfold already_encoded. rewrite !andb_true_iff, Z.eqb_eq. intros [[[_ ->] _] H].
  destruct r as [|a [|b r]]; [done..|]. apply andb_true_iff in H as [? ?]. by exists a, b, r.
Qed.

Lemma escape_twice s : Forall char s ->
  url_escape false (url_escape false s) = url_escape false s /\
  switch_needs_url_encode (url_escape false s) = false.
Proof.
  intros Hs. revert s Hs. induction s as [s IH] using (induction_ltof1 _ (@length Z)). unfold ltof in IH. intros Hs.
  destruct Hs as [|c s Hc Hs]; [done|]. destruct (already_encoded false c s) eqn:Ea.
  - apply already_inv in Ea as (a & b & r & -> & -> & Ha & Hb).
    apply Forall_cons in Hs as [Hca Hs]. apply Forall_cons in Hs as [Hcb Hs].
    destruct (IH r ltac:(cbn [length]; lia) Hs) as [IH1 IH2]. rewrite escape_hex by done. split.
    + rewrite escape_hex by done. by rewrite IH1.
    + cbn [switch_needs_url_encode]. rewrite already_hex by done.
      apply hex_plain in Hb as (Eb & _); [|done]. apply plain_spec in Eb as (Hn & _ & Eb); [|done].
      rewrite already_plain by done. by rewrite Eb, IH2.
  - destruct (IH s ltac:(cbn [length]; lia) Hs) as [IH1 IH2]. cbn [url_escape]. rewrite Ea. cbn [negb andb].
    destruct (must_encode c) eqn:E.
    + destruct (percent_spec c Hc) as (h & l & -> & Hh%xdigit_char & Hl%xdigit_char & Eh & El). cbn [app]. split.
      * rewrite escape_hex by (done || tauto). by rewrite IH1.
      * cbn [switch_needs_url_encode]. rewrite already_hex by done.
        apply hex_plain in El as (El & _); [|tauto]. apply plain_spec in El as (Hn & _ & El); [|tauto].
        rewrite already_plain by done. by rewrite El, IH2.
    + cbn [app]. split; [by rewrite escape_plain, IH1|]. cbn [switch_needs_url_encode].
      apply plain_spec in E as (Hn & _ & E); [|done]. rewrite already_plain by done. by rewrite E, IH2.
Qed.

(** Encoding without double encoding changes an encoded text no further, and
    [switch_needs_url_encode] says so of it. *)
Theorem url_encode_idempotent (s : list Z) :
  Forall char s -> zlen s < 2 ^ 60 ->
  exists e, switch_core_url_encode true (Some s) = Ret (Some e) /\
    switch_core_url_encode true (Some e) = Ret (Some e) /\ switch_needs_url_encode e = false.
Proof.
  intros Hs Hl. exists (url_escape false s). unfold switch_core_url_encode.
  destruct (escape_twice s Hs) as [E1 E2]. destruct (escape_length false s) as [He _].
  rewrite !core_encode_escape by lia. by rewrite E1.
Qed.

Lemma url_encode_idempotent_witness :
  switch_core_url_encode true (Some [97; 32; 37; 50; 48; 37]) = Ret (Some [97; 37; 50; 48; 37; 50; 48; 37; 50; 53]) /\
  exists e, switch_core_url_encode true (Some [97; 32; 37; 50; 48; 37]) = Ret (Some e) /\
    switch_core_url_encode true (Some e) = Ret (Some e) /\ switch_needs_url_encode e = false.
Proof.
  split; [reflexivity|]. apply (url_encode_idempotent [97; 32; 37; 50; 48; 37]).
  - repeat (apply Forall_cons; split; [unfold char; lia|]). by apply Forall_nil.
  - vm_compute. reflexivity.
Defined.

(** ** Short destinations *)
(** A short destination holds the encoding of some first bytes of the text and is never
    overrun. *)
Lemma encode_prefix d s : forall x len, 0 <= x <= len ->
  zlen (url_encode_loop d s x len) <= len - x /\
  exists rest, url_escape d s = url_encode_loop d s x len ++ rest.
Proof.
  induction s as [|c s IH]; intros x len Hx; cbn [url_encode_loop url_escape].
  { split; [change (zlen []) with 0; lia|by exists []]. }
  assert (Hnil : zlen (@nil Z) <= len - x) by (change (zlen (@nil Z)) with 0; lia).
  destruct (Z.geb_spec x len); [split; [done|by eexists]|].
  destruct (_ && _).
  - rewrite Z.gtb_ltb. destruct (Z.ltb_spec len (x + 3)); [split; [done|by eexists]|].
    destruct (IH (x + 3) len ltac:(lia)) as [Hl [rest ->]]. rewrite zlen_app, percent_length.
    split; [lia|]. exists rest. by rewrite app_assoc.
  - destruct (IH (x + 1) len ltac:(lia)) as [Hl [rest ->]]. rewrite zlen_cons. split; [lia|by exists rest].
Qed.

(** Whatever the size of the destination, [switch_url_encode_opt] stays within
    it, terminator included, and stores a prefix of the encoded text. *)
Theorem url_encode_bounds (s : list Z) (len : Z) (double_encode : bool) :
  1 <= len < 18446744073709551616 ->
  exists out rest, switch_url_encode_opt (Some s) true len double_encode = Ret (Some out) /\
    zlen out + 1 <= len /\ url_escape double_encode s = out ++ rest.
Proof.
  intros Hl. destruct (encode_prefix double_encode s 0 (len - 1) ltac:(lia)) as [H [rest E]].
  exists (url_encode_loop double_encode s 0 (len - 1)), rest. unfold switch_url_encode_opt.
  rewrite u64_small by lia. split_and!; [done|lia|done].
Qed.

Lemma url_encode_bounds_witness :
  switch_url_encode_opt (Some [97; 32; 98]) true 4 false = Ret (Some [97]) /\
  exists out rest, switch_url_encode_opt (Some [97; 32; 98]) true 4 false = Ret (Some out) /\
    zlen out + 1 <= 4 /\ url_escape false [97; 32; 98] = out ++ rest.
Proof. split; [reflexivity|]. apply (url_encode_bounds [97; 32; 98] 4 false). lia. Defined.
