(* ===== verification/Separate.v ===== *)
(** * Separate: splitting a text into arguments (src/switch_utils.c)

    A text is the bytes in front of its terminator, in a block of exactly that
    size (the callers duplicate the text they split).  The separators put
    terminators into the text and point at its parts; here they return the
    parts.  A scan that steps over the terminator is undefined. *)
From S2P Require Import Prelude.
From Stdlib Require Import ZArith Lia.
From stdpp Require Import base numbers option list.

Local Open Scope Z_scope.

Definition ESCAPE_META : Z := 92.
Definition quote : Z := 39.
Definition blank : Z := 32.

(** ** Escapes *)
Definition unescape_char (escaped : Z) : Z :=
  if escaped =? 110 then 10 else if escaped =? 114 then 13 else if escaped =? 116 then 9
  else if escaped =? 115 then 32 else escaped.

(** The bytes stored in front of the terminator; [outlen] is not looked at. *)
Definition escape_one (c : Z) : list Z :=
  if c =? 10 then [92; 110] else if c =? 13 then [92; 114] else if c =? 9 then [92; 116]
  else if c =? 32 then [92; 115] else if c =? 36 then [92; 36] else [c].
Fixpoint switch_escape_string (inp : list Z) : list Z :=
  match inp with [] => [] | c :: inp => escape_one c ++ switch_escape_string inp end.
(** With the block it allocates: whether the text and its terminator fit. *)
Definition switch_escape_string_pool (inp : list Z) : res (list Z) :=
  let len := zlen inp * 2 + 1 in
  let out := switch_escape_string inp in
  if zlen out + 1 <=? len then Ret out else Ub.

(** [switch_escape_char]: the counting pass sizes the block, then each byte is
    preceded by [esc] once for every time it occurs in [delim]. *)
Definition occurrences (c : Z) (delim : list Z) : nat := length (filter (fun d => c = d) delim).
Definition switch_escape_char (inp delim : list Z) (esc : Z) : res (list Z) :=
  let count := 1 + Z.of_nat (sum_list (map (fun c => occurrences c delim) inp)) in
  if count =? 1 then Ret inp
  else
    let data := concat (map (fun c => replicate (occurrences c delim) esc ++ [c]) inp) in
    if zlen data + 1 <=? zlen inp + count then Ret data else Ub.

(** [inside_quotes || strchr(ptr+1, '\'')] *)
Definition has_quote (s : list Z) : bool := existsb (Z.eqb quote) s.

(** ** Cleaning up a part *)
(** One turn of the loop of [cleanup_separated_string]: [e = ptr[1]] when the
    byte is an escape that is taken. *)
Definition taken_escape (delim : Z) (r : list Z) : option Z :=
  let e := default 0 (head r) in
  if (e =? quote) || (e =? 34) || (negb (delim =? 0) && (e =? delim)) || (e =? ESCAPE_META) then Some e
  else if negb (unescape_char e =? e) then Some (unescape_char e) else None.

(** [dest] is the bytes stored so far and [fin] the length up to [end]. *)
Fixpoint cleanup_loop (delim : Z) (s : list Z) (inside_quotes : bool) (dest : list Z) (fin : option nat)
  : list Z * option nat :=
  match s with
  | [] => (dest, fin)
  | c :: r =>
    let plain :=
      if (c =? quote) && (inside_quotes || has_quote r) then
        cleanup_loop delim r (negb inside_quotes) dest (if inside_quotes then fin else Some (length dest))
      else
        let dest := dest ++ [c] in
        cleanup_loop delim r inside_quotes dest (if negb (c =? blank) || inside_quotes then Some (length dest) else fin) in
    match (if c =? ESCAPE_META then taken_escape delim r else None), r with
    | Some e, _ :: r' =>
      let dest := dest ++ [e] in
      cleanup_loop delim r' inside_quotes dest (Some (length dest))
    | _, _ => plain
    end
  end.
Fixpoint skip_blanks (s : list Z) : list Z :=
  match s with c :: r => if c =? blank then skip_blanks r else s | [] => [] end.
(** The text at [start]: cut at [end] when it is set, otherwise what the block
    holds there, which is the part itself without its first blanks. *)
Definition cleanup_separated_string (s : list Z) (delim : Z) : list Z :=
  let s := skip_blanks s in
  match cleanup_loop delim s false [] None with
  | (dest, Some n) => take n dest
  | (dest, None) => dest ++ drop (length dest) s
  end.

(** ** Separators *)
(** [FIND_DELIM] of [separate_string_char_delim]: the part that is being scanned
    and the parts behind it; [n] is [arraylen - count], and with 0 the loop has
    ended and the part is the rest of the text. *)
Fixpoint find_char_delim (delim : Z) (n : nat) (s : list Z) (inside_quotes : bool) : res (list Z * list (list Z)) :=
  match n with
  | O => Ret (s, [])
  | S n' =>
    match s with
    | [] => Ret ([], [])
    | c :: r =>
      if c =? ESCAPE_META then
        match r with
        | [] => Ub
        | c' :: r' => '(p, ps) <-! find_char_delim delim n r' inside_quotes;; Ret (c :: c' :: p, ps)
        end
      else if (c =? quote) && (inside_quotes || has_quote r) then
        '(p, ps) <-! find_char_delim delim n r (negb inside_quotes);; Ret (c :: p, ps)
      else if (c =? delim) && negb inside_quotes then
        match r with
        | [] => Ret ([], [])
        | _ => '(p, ps) <-! find_char_delim delim n' r inside_quotes;; Ret ([], p :: ps)
        end
      else '(p, ps) <-! find_char_delim delim n r inside_quotes;; Ret (c :: p, ps)
    end
  end.
Definition separate_string_char_delim (buf : list Z) (delim : Z) (arraylen : nat) : res (list (list Z)) :=
  match buf, arraylen with
  | [], _ | _, O => Ret []
  | _, S n =>
    '(p, ps) <-! find_char_delim delim n buf false;;
    Ret (map (fun s => cleanup_separated_string s delim) (p :: ps))
  end.

(** The states of [separate_string_blank_delim].  The initial blanks of a part
    stay in it and are cut by the clean up; blanks behind it are skipped. *)
Inductive blank_state := SKIP_INITIAL_SPACE | FIND_DELIM | SKIP_ENDING_SPACE.
Fixpoint blank_scan (st : blank_state) (n : nat) (s : list Z) (inside_quotes : bool) {struct s}
  : res (list Z * list (list Z)) :=
  let find n :=
    match n, s with
    | O, _ => Ret (s, [])
    | _, [] => Ret ([], [])
    | S n', c :: r =>
      if c =? ESCAPE_META then
        match r with
        | [] => Ub
        | c' :: r' => '(p, ps) <-! blank_scan FIND_DELIM n r' inside_quotes;; Ret (c :: c' :: p, ps)
        end
      else if c =? quote then
        '(p, ps) <-! blank_scan FIND_DELIM n r (negb inside_quotes);; Ret (c :: p, ps)
      else if (c =? blank) && negb inside_quotes then
        '(_, ps) <-! blank_scan SKIP_ENDING_SPACE n r inside_quotes;; Ret ([], ps)
      else '(p, ps) <-! blank_scan FIND_DELIM n r inside_quotes;; Ret (c :: p, ps)
    end in
  let initial n :=
    match n, s with
    | S _, c :: r =>
      if c =? blank then '(p, ps) <-! blank_scan SKIP_INITIAL_SPACE n r inside_quotes;; Ret (c :: p, ps)
      else find n
    | _, _ => find n
    end in
  match st with
  | FIND_DELIM => find n
  | SKIP_INITIAL_SPACE => initial n
  | SKIP_ENDING_SPACE =>
    match n, s with
    | S n', c :: r =>
      if c =? blank then blank_scan SKIP_ENDING_SPACE n r inside_quotes
      else '(p, ps) <-! initial n';; Ret ([], p :: ps)
    | _, _ => Ret ([], [])
    end
  end.
Definition separate_string_blank_delim (buf : list Z) (arraylen : nat) : res (list (list Z)) :=
  match buf, arraylen with
  | [], _ | _, O => Ret []
  | _, S n =>
    '(p, ps) <-! blank_scan SKIP_INITIAL_SPACE n buf false;;
    Ret (map (fun s => cleanup_separated_string s 0) (p :: ps))
  end.

(** A text that begins with ^^ names its delimiter. *)
Definition switch_separate_string (buf : list Z) (delim : Z) (arraylen : nat) : res (list (list Z)) :=
  let '(buf, delim) :=
    match buf with
    | c1 :: c2 :: d :: ((_ :: _) as r) => if (c1 =? 94) && (c2 =? 94) then (r, d) else (buf, delim)
    | _ => (buf, delim)
    end in
  if (0 <? arraylen)%nat then
    if delim =? blank then separate_string_blank_delim buf arraylen
    else separate_string_char_delim buf delim arraylen
  else Ret [].

(** [switch_separate_string_string] with a whole string between the parts. *)
Fixpoint starts_with (delim s : list Z) : option (list Z) :=
  match delim, s with
  | [], _ => Some s
  | d :: delim, c :: s => if d =? c then starts_with delim s else None
  | _, [] => None
  end.
(** [strstr]: what is before and behind the first occurrence. *)
Fixpoint strstr_split (delim s : list Z) : option (list Z * list Z) :=
  match starts_with delim s with
  | Some r => Some ([], r)
  | None => match s with c :: s => option_map (fun '(a, b) => (c :: a, b)) (strstr_split delim s) | [] => None end
  end.
Fixpoint separate_by (delim : list Z) (n : nat) (s : list Z) : list (list Z) :=
  match n with
  | O => [s]
  | S n => match strstr_split delim s with Some (a, b) => a :: separate_by delim n b | None => [s] end
  end.
(** The first part is stored before [arraylen] is looked at. *)
Definition switch_separate_string_string (buf delim : list Z) (arraylen : nat) : res (list (list Z)) :=
  match arraylen with O => Ub | S n => Ret (separate_by delim n buf) end.

Example sep1 : switch_separate_string [97; 44; 39; 98; 44; 99; 39; 44; 100; 92; 44; 101] 44 10 =
  Ret [[97]; [98; 44; 99]; [100; 44; 101]].
Proof. reflexivity. Qed.
Example sep2 : switch_separate_string [32; 97; 32; 32; 39; 98; 32; 99; 39; 32] 32 10 = Ret [[97]; [98; 32; 99]].
Proof. reflexivity. Qed.
Example sep3 : switch_separate_string [94; 94; 59; 97; 59; 98] 44 10 = Ret [[97]; [98]].
Proof. reflexivity. Qed.

(** ** Joined fields *)
Fixpoint joined (delim : Z) (f : list Z) (fs : list (list Z)) : list Z :=
  match fs with [] => f | g :: gs => f ++ delim :: joined delim g gs end.

(** Bytes of a field that [switch_escape_string] makes safe: the blank is escaped,
    the delimiter is not. *)
Definition field_char (delim c : Z) : Prop := c <> quote /\ c <> ESCAPE_META /\ c <> 36 /\ (c = blank \/ c <> delim).
(** Delimiters that are neither part of an escape nor the letter of one. *)
Definition plain_delim (delim : Z) : Prop :=
  delim <> 0 /\ delim <> quote /\ delim <> ESCAPE_META /\ delim <> 110 /\ delim <> 114 /\ delim <> 116 /\ delim <> 115.

Lemma escape_one_spec delim c : plain_delim delim -> field_char delim c ->
  (escape_one c = [c] /\ c <> blank /\ c <> quote /\ c <> ESCAPE_META /\ c <> delim) \/
  exists e, escape_one c = [ESCAPE_META; e] /\
    forall k r, k = delim \/ k = 0 -> taken_escape k (e :: r) = Some c.
Proof.
  unfold plain_delim, field_char, escape_one, blank, quote, ESCAPE_META. intros Hd Hc.
  assert (Ht : forall e, e = 110 \/ e = 114 \/ e = 116 \/ e = 115 ->
    forall k r, k = delim \/ k = 0 -> taken_escape k (e :: r) = Some (unescape_char e)).
  { intros e He k r Hk. unfold taken_escape, quote, ESCAPE_META. cbn [head default from_option id].
    rewrite (proj2 (Z.eqb_neq e 39)), (proj2 (Z.eqb_neq e 34)), (proj2 (Z.eqb_neq e k)), (proj2 (Z.eqb_neq e 92)) by lia.
    rewrite andb_false_r. by destruct He as [-> | [-> | [-> | ->]]]. }
  destruct (Z.eqb_spec c 10) as [->|]; [right; exists 110; split; [done|by apply Ht; auto]|].
  destruct (Z.eqb_spec c 13) as [->|]; [right; exists 114; split; [done|by apply Ht; auto]|].
  destruct (Z.eqb_spec c 9) as [->|]; [right; exists 116; split; [done|by apply Ht; auto]|].
  destruct (Z.eqb_spec c 32) as [->|]; [right; exists 115; split; [done|by apply Ht; auto]|].
  rewrite (proj2 (Z.eqb_neq c 36)) by lia. left. split_and!; try done; lia.
Qed.

Lemma escape_string_cons c f : switch_escape_string (c :: f) = escape_one c ++ switch_escape_string f.
Proof. done. Qed.
Lemma escape_string_nil f : switch_escape_string f = [] <-> f = [].
Proof. destruct f as [|c f]; [done|]. rewrite escape_string_cons. unfold escape_one. by split; cases. Qed.

Section Fields.
Context (delim : Z) (Hd : plain_delim delim).

(** An escaped field cleans up to the field. *)
Lemma cleanup_field k f : k = delim \/ k = 0 -> Forall (field_char delim) f -> forall dest fin,
  cleanup_loop k (switch_escape_string f) false dest fin =
    (dest ++ f, if bool_decide (f = []) then fin else Some (length (dest ++ f))).
Proof.
  intros Hk. induction 1 as [|c f Hc _ IH]; intros dest fin; [by rewrite app_nil_r|].
  rewrite (bool_decide_false (c :: f = [])) by done. rewrite escape_string_cons.
  assert (Hend : (dest ++ [c]) ++ f = dest ++ c :: f) by (by rewrite <- app_assoc).
  destruct (escape_one_spec delim c Hd Hc) as [(-> & Hb & Hq & Hm & _)|(e & -> & He)].
  - cbn [app cleanup_loop]. rewrite (proj2 (Z.eqb_neq c ESCAPE_META)), (proj2 (Z.eqb_neq c quote)),
      (proj2 (Z.eqb_neq c blank)) by done. cbn [andb negb orb]. rewrite IH, Hend.
    case_bool_decide as E; [|done]. by subst f.
  - cbn [app cleanup_loop]. change (ESCAPE_META =? ESCAPE_META) with true. cbv match. rewrite He by done.
    rewrite IH, Hend. case_bool_decide as E; [|done]. by subst f.
Qed.
Lemma escape_first f r : Forall (field_char delim) f -> switch_escape_string f = r ->
  match r with c :: _ => c <> blank | [] => f = [] end.
Proof.
  intros Hf <-. destruct Hf as [|c f Hc Hf]; [done|]. rewrite escape_string_cons.
  by destruct (escape_one_spec delim c Hd Hc) as [(-> & Hb & _)|(e & -> & _)].
Qed.
Lemma cleanup_escaped k f : k = delim \/ k = 0 -> Forall (field_char delim) f ->
  cleanup_separated_string (switch_escape_string f) k = f.
Proof.
  intros Hk Hf. unfold cleanup_separated_string.
  assert (E : skip_blanks (switch_escape_string f) = switch_escape_string f).
  { pose proof (escape_first f _ Hf eq_refl). destruct (switch_escape_string f) as [|c r]; [done|].
    cbn [skip_blanks]. by rewrite (proj2 (Z.eqb_neq c blank)). }
  rewrite E, cleanup_field by done. cbn [app]. case_bool_decide as Ef; [by subst f|]. apply firstn_all.
Qed.

(** A scan passes over an escaped field. *)
Lemma char_scan_field n f rest : Forall (field_char delim) f -> delim <> blank ->
  find_char_delim delim (S n) (switch_escape_string f ++ rest) false =
  ('(p, ps) <-! find_char_delim delim (S n) rest false;; Ret (switch_escape_string f ++ p, ps)).
Proof.
  intros Hf Hb. assert (Hid : forall m : res (list Z * list (list Z)), ('(p, ps) <-! m;; Ret ([] ++ p, ps)) = m)
    by (by intros [[? ?]| |]).
  induction Hf as [|c f Hc _ IH]; [by rewrite Hid|]. rewrite escape_string_cons, <- app_assoc.
  destruct (escape_one_spec delim c Hd Hc) as [(-> & _ & Hq & Hm & Hdl)|(e & -> & _)]; cbn [app].
  - cbn [find_char_delim]. rewrite (proj2 (Z.eqb_neq c ESCAPE_META)), (proj2 (Z.eqb_neq c quote)),
      (proj2 (Z.eqb_neq c delim)) by done. cbn [andb]. fold (find_char_delim delim). rewrite IH.
    by destruct (find_char_delim delim (S n) rest false) as [[? ?]| |].
  - cbn [find_char_delim]. change (ESCAPE_META =? ESCAPE_META) with true. cbv match. fold (find_char_delim delim).
    rewrite IH. by destruct (find_char_delim delim (S n) rest false) as [[? ?]| |].
Qed.
Lemma char_scan_joined fs : forall n f, Forall (Forall (field_char delim)) (f :: fs) -> delim <> blank ->
  last (f :: fs) <> Some [] -> (length fs <= n)%nat ->
  find_char_delim delim n (joined delim (switch_escape_string f) (map switch_escape_string fs)) false =
    Ret (switch_escape_string f, map switch_escape_string fs).
Proof.
  induction fs as [|g fs IH]; intros n f Hf Hb Hl Hn; apply Forall_cons in Hf as [Hf Hfs]; cbn [map joined].
  - destruct n as [|n]; [by destruct (switch_escape_string f)|]. rewrite <- (app_nil_r (switch_escape_string f)) at 1.
    rewrite char_scan_field by done. cbn [find_char_delim rbind]. by rewrite app_nil_r.
  - destruct n as [|n]; [simpl in Hn; lia|]. rewrite char_scan_field by done.
    cbn [find_char_delim]. rewrite (proj2 (Z.eqb_neq delim ESCAPE_META)), (proj2 (Z.eqb_neq delim quote)) by apply Hd.
    rewrite Z.eqb_refl. cbn [andb negb]. fold (find_char_delim delim).
    destruct (joined delim (switch_escape_string g) (map switch_escape_string fs)) as [|c r] eqn:Ej.
    + exfalso. destruct fs as [|h fs]; cbn [map joined] in Ej; [|by apply app_eq_nil in Ej as [_ ?]].
      apply (proj1 (escape_string_nil _)) in Ej. by subst g.
    + rewrite <- Ej. rewrite IH; [|done..|cbn [length] in Hn; lia]. cbn [rbind]. by rewrite app_nil_r.
Qed.
End Fields.

Lemma plain_blank : plain_delim blank.
Proof. by unfold plain_delim. Qed.

Lemma blank_scan_field n f rest : Forall (field_char blank) f ->
  blank_scan FIND_DELIM (S n) (switch_escape_string f ++ rest) false =
  ('(p, ps) <-! blank_scan FIND_DELIM (S n) rest false;; Ret (switch_escape_string f ++ p, ps)).
Proof.
  intros Hf. assert (Hid : forall m : res (list Z * list (list Z)), ('(p, ps) <-! m;; Ret ([] ++ p, ps)) = m)
    by (by intros [[? ?]| |]).
  induction Hf as [|c f Hc _ IH]; [by rewrite Hid|]. rewrite escape_string_cons, <- app_assoc.
  destruct (escape_one_spec blank c plain_blank Hc) as [(-> & Hb & Hq & Hm & _)|(e & -> & _)]; cbn [app].
  - cbn [blank_scan]. rewrite (proj2 (Z.eqb_neq c ESCAPE_META)), (proj2 (Z.eqb_neq c quote)),
      (proj2 (Z.eqb_neq c blank)) by done. cbn [andb]. rewrite IH.
    by destruct (blank_scan FIND_DELIM (S n) rest false) as [[? ?]| |].
  - cbn [blank_scan]. change (ESCAPE_META =? ESCAPE_META) with true. cbv match. rewrite IH.
    by destruct (blank_scan FIND_DELIM (S n) rest false) as [[? ?]| |].
Qed.

(** In front of a field that is not empty nothing is skipped. *)
Lemma blank_scan_start st n f rest : Forall (field_char blank) f -> f <> [] -> st <> SKIP_ENDING_SPACE ->
  blank_scan st n (switch_escape_string f ++ rest) false = blank_scan FIND_DELIM n (switch_escape_string f ++ rest) false.
Proof.
  intros Hf Hne Hst. pose proof (escape_first blank plain_blank f _ Hf eq_refl) as Hfst.
  destruct (switch_escape_string f) as [|c r]; [done|]. destruct st; [|done..].
  cbn [app blank_scan]. destruct n as [|n]; [done|]. by rewrite (proj2 (Z.eqb_neq c blank)) by done.
Qed.
Lemma blank_scan_resume n f rest : Forall (field_char blank) f -> f <> [] ->
  blank_scan SKIP_ENDING_SPACE (S n) (switch_escape_string f ++ rest) false =
  ('(p, ps) <-! blank_scan FIND_DELIM n (switch_escape_string f ++ rest) false;; Ret ([], p :: ps)).
Proof.
  intros Hf Hne. rewrite <- (blank_scan_start SKIP_INITIAL_SPACE) by done.
  pose proof (escape_first blank plain_blank f _ Hf eq_refl) as Hfst.
  destruct (switch_escape_string f) as [|c r]; [done|].
  cbn [app blank_scan]. by rewrite (proj2 (Z.eqb_neq c blank)) by done.
Qed.

Lemma blank_scan_joined fs : forall n f, Forall (fun f => Forall (field_char blank) f /\ f <> []) (f :: fs) ->
  (length fs <= n)%nat ->
  blank_scan FIND_DELIM n (joined blank (switch_escape_string f) (map switch_escape_string fs)) false =
    Ret (switch_escape_string f, map switch_escape_string fs).
Proof.
  induction fs as [|g fs IH]; intros n f Hf Hn; apply Forall_cons in Hf as [[Hf Hne] Hfs]; cbn [map joined].
  - destruct n as [|n]; [by destruct (switch_escape_string f)|]. rewrite <- (app_nil_r (switch_escape_string f)) at 1.
    rewrite blank_scan_field by done. cbn [blank_scan rbind]. by rewrite app_nil_r.
  - destruct n as [|n]; [simpl in Hn; lia|]. rewrite blank_scan_field by done. cbn [blank_scan].
    change (blank =? ESCAPE_META) with false. change (blank =? quote) with false. change (blank =? blank) with true.
    cbn [andb negb]. pose proof Hfs as Hfs'. apply Forall_cons in Hfs' as [[Hg Hgne] _].
    assert (Ej : exists rest, joined blank (switch_escape_string g) (map switch_escape_string fs) = switch_escape_string g ++ rest).
    { destruct fs; cbn [map joined]; [exists []; by rewrite app_nil_r|by eexists]. }
    destruct Ej as [rest Ej]. rewrite Ej, blank_scan_resume, <- Ej by done.
    rewrite IH by (done || (cbn [length] in Hn; lia)). cbn [rbind]. by rewrite app_nil_r.
Qed.

(** Fields that are escaped with [switch_escape_string] and joined with a
    delimiter are separated again: by a blank when no field is empty, by another
    character when the last one is not (an empty last field is dropped). *)
Theorem separate_escaped (delim : Z) (f : list Z) (fs : list (list Z)) (arraylen : nat) :
  plain_delim delim -> Forall (Forall (field_char delim)) (f :: fs) ->
  (if delim =? blank then Forall (fun g => g <> []) (f :: fs) else last (f :: fs) <> Some []) ->
  (length (f :: fs) <= arraylen)%nat ->
  let buf := joined delim (switch_escape_string f) (map switch_escape_string fs) in
  (forall r, buf <> 94 :: 94 :: r) ->
  switch_separate_string buf delim arraylen = Ret (f :: fs).
Proof.
  intros Hd Hf Hne Hn buf Hp.
  assert (E : switch_separate_string buf delim arraylen =
    if (0 <? arraylen)%nat then
      if delim =? blank then separate_string_blank_delim buf arraylen else separate_string_char_delim buf delim arraylen
    else Ret []).
  { unfold switch_separate_string. clearbody buf. clear -Hp.
    destruct buf as [|a [|b [|d [|d' r]]]]; [done..|].
    destruct (Z.eqb_spec a 94) as [->|]; [|done]. destruct (Z.eqb_spec b 94) as [->|]; [|done]. by edestruct Hp. }
  rewrite E. destruct arraylen as [|n]; [simpl in Hn; lia|]. cbn [length] in Hn.
  change (0 <? S n)%nat with true. cbv match.
  assert (Hmap : forall k, k = delim \/ k = 0 ->
    map (fun s => cleanup_separated_string s k) (switch_escape_string f :: map switch_escape_string fs) = f :: fs).
  { intros k Hk. change (switch_escape_string f :: map switch_escape_string fs) with (map switch_escape_string (f :: fs)).
    rewrite map_map. transitivity (map id (f :: fs)); [|apply map_id]. apply map_ext_in. intros g Hg%list_elem_of_In.
    apply (cleanup_escaped delim); [done..|]. rewrite Forall_forall in Hf. by apply Hf. }
  assert (Hbuf : buf <> []).
  { unfold buf. intros Eb. destruct fs as [|g fs]; cbn [map joined] in Eb; [|by apply app_eq_nil in Eb as [_ ?]].
    apply (proj1 (escape_string_nil _)) in Eb. subst f.
    destruct (delim =? blank); [by apply Forall_cons in Hne as [? _]|done]. }
  destruct (Z.eqb_spec delim blank) as [->|Hb].
  - unfold separate_string_blank_delim. destruct buf as [|c r] eqn:Eb; [done|]. rewrite <- Eb. unfold buf.
    assert (Ht : Forall (fun f => Forall (field_char blank) f /\ f <> []) (f :: fs)) by (by apply Forall_and).
    pose proof Ht as Hf1. apply Forall_cons in Hf1 as [[Hf1 Hf2] _].
    assert (Ej : exists rest, joined blank (switch_escape_string f) (map switch_escape_string fs) = switch_escape_string f ++ rest).
    { destruct fs; cbn [map joined]; [exists []; by rewrite app_nil_r|by eexists]. }
    destruct Ej as [rest Ej]. rewrite Ej, blank_scan_start, <- Ej by done.
    rewrite blank_scan_joined by (done || lia). cbn [rbind]. by rewrite Hmap by auto.
  - unfold separate_string_char_delim. destruct buf as [|c r] eqn:Eb; [done|]. rewrite <- Eb. unfold buf.
    rewrite char_scan_joined by (done || lia). cbn [rbind]. by rewrite Hmap by auto.
Qed.

Lemma separate_escaped_witness :
  switch_escape_string [98; 32; 99] = [98; 92; 115; 99] /\
  switch_separate_string [97; 44; 98; 92; 115; 99; 44; 44; 100] 44 4 = Ret [[97]; [98; 32; 99]; []; [100]].
Proof.
  split; [reflexivity|]. apply (separate_escaped 44 [97] [[98; 32; 99]; []; [100]] 4).
  - by unfold plain_delim, quote, ESCAPE_META.
  - repeat (apply Forall_cons; split); try (by apply Forall_nil); unfold field_char, quote, ESCAPE_META, blank; lia.
  - vm_compute. discriminate.
  - simpl. lia.
  - intros r. vm_compute. discriminate.
Defined.

(** ** A backslash at the end *)
Definition unremarkable (delim c : Z) : Prop :=
  c <> ESCAPE_META /\ c <> quote /\ c <> delim /\ c <> blank.

Lemma char_scan_backslash delim n s : Forall (unremarkable delim) s ->
  find_char_delim delim (S n) (s ++ [ESCAPE_META]) false = Ub.
Proof.
  induction 1 as [|c s (Hm & Hq & Hd & _) _ IH]; [done|]. cbn [app find_char_delim].
  rewrite (proj2 (Z.eqb_neq c ESCAPE_META)), (proj2 (Z.eqb_neq c quote)), (proj2 (Z.eqb_neq c delim)) by done.
  cbn [andb]. by rewrite IH.
Qed.
Lemma blank_scan_backslash n s : forall st, Forall (unremarkable blank) s -> st <> SKIP_ENDING_SPACE ->
  blank_scan st (S n) (s ++ [ESCAPE_META]) false = Ub.
Proof.
  induction s as [|c s IH]; intros st Hs Hst; [by destruct st|].
  apply Forall_cons in Hs as [(Hm & Hq & _ & Hb) Hs]. destruct st; [| |done]; cbn [app blank_scan];
    rewrite (proj2 (Z.eqb_neq c ESCAPE_META)), (proj2 (Z.eqb_neq c quote)), (proj2 (Z.eqb_neq c blank)) by done;
    cbn [andb]; by rewrite IH.
Qed.

(** A backslash that ends a text makes the scan step over the terminator and
    read on behind the block, whatever the delimiter is. *)
Theorem separate_trailing_backslash (s : list Z) (delim : Z) (arraylen : nat) :
  (2 <= arraylen)%nat -> Forall (unremarkable delim) s -> hd_error s <> Some 94 ->
  switch_separate_string (s ++ [ESCAPE_META]) delim arraylen = Ub.
Proof.
  intros Hn Hs Hh.
  assert (E : switch_separate_string (s ++ [ESCAPE_META]) delim arraylen =
    if (0 <? arraylen)%nat then
      if delim =? blank then separate_string_blank_delim (s ++ [ESCAPE_META]) arraylen
      else separate_string_char_delim (s ++ [ESCAPE_META]) delim arraylen
    else Ret []).
  { unfold switch_separate_string. destruct s as [|c s]; [done|]. cbn [app].
    destruct (s ++ [ESCAPE_META]) as [|? [|? [|? ?]]]; [done..|].
    destruct (Z.eqb_spec c 94) as [->|]; [by destruct Hh|done]. }
  rewrite E. destruct arraylen as [|[|n]]; [lia..|]. change (0 <? S (S n))%nat with true. cbv match.
  assert (Hb : exists c r, s ++ [ESCAPE_META] = c :: r) by (destruct s; by eexists _, _).
  destruct Hb as (c & r & Eb). destruct (Z.eqb_spec delim blank) as [->|Hd].
  - unfold separate_string_blank_delim. rewrite Eb, <- Eb. by rewrite blank_scan_backslash.
  - unfold separate_string_char_delim. rewrite Eb, <- Eb. by rewrite char_scan_backslash.
Qed.

Lemma separate_trailing_backslash_witness : switch_separate_string ([97; 98] ++ [ESCAPE_META]) 44 10 = Ub.
Proof.
  apply (separate_trailing_backslash [97; 98] 44 10).
  - lia.
  - repeat (apply Forall_cons; split; [by unfold unremarkable|]). by apply Forall_nil.
  - vm_compute. discriminate.
Defined.

(** ** Blocks that are measured *)
Lemma escape_string_length s : zlen (switch_escape_string s) <= 2 * zlen s.
Proof.
  unfold zlen. induction s as [|c s IH]; [done|]. rewrite escape_string_cons, length_app. cbn [length].
  assert (length (escape_one c) <= 2)%nat by (unfold escape_one; cases; simpl; lia). lia.
Qed.
Lemma escape_string_pool_fits s : switch_escape_string_pool s = Ret (switch_escape_string s).
Proof.
  unfold switch_escape_string_pool. pose proof (escape_string_length s). by rewrite (proj2 (Z.leb_le _ _)) by lia.
Qed.
(** The count of [switch_escape_char] is exact. *)
Lemma escape_char_fits inp delim esc : exists data, switch_escape_char inp delim esc = Ret data.
Proof.
  unfold switch_escape_char. case_if E; [by eexists|]. rewrite (proj2 (Z.leb_le _ _)); [by eexists|].
  unfold zlen. clear E. induction inp as [|c inp IH]; [done|]. cbn [map concat sum_list length].
  rewrite length_app, length_app, length_replicate. cbn [length]. simpl. lia.
Qed.
