(* ===== verification/TextUtil.v ===== *)
(** * TextUtil: searching, replacing, quoting and stripping texts

    The routines of src/switch_utils.c that work on a single text, and the case
    conversions of include/switch_utils.h.  A text is the bytes before its
    terminator.  Where a routine writes to a buffer of its caller, the bytes it
    stores are the result; where it moves a pointer in front of the text, the
    result is undefined. *)
From S2P Require Import Prelude HashTable CoreHash UrlCode Separate.
From Stdlib Require Import ZArith Lia.
From Stdlib Require String Ascii.
From stdpp Require Import base numbers option list strings.

Local Open Scope Z_scope.

(** ** Replacing *)
(** [switch_string_match]: whether [search] is at the front of [s]. *)
Fixpoint switch_string_match (s search : list Z) {struct search} : bool :=
  match search, s with
  | [], _ => true
  | c :: search, d :: s => (d =? c) && switch_string_match s search
  | _, [] => false
  end.

(** The loop of [switch_string_replace] from position [i]: [i += search_len - 1]
    in [size_t], then [i++].  [None]: out of fuel. *)
Fixpoint replace_loop (fuel : nat) (s search replace : list Z) (i : Z) : option (list Z) :=
  if i <? zlen s then
    match fuel with
    | O => None
    | S fuel =>
      if switch_string_match (drop (Z.to_nat i) s) search then
        option_map (app replace) (replace_loop fuel s search replace (u64 (u64 (i + (zlen search - 1)) + 1)))
      else
        match s !! Z.to_nat i with
        | Some c => option_map (cons c) (replace_loop fuel s search replace (u64 (i + 1)))
        | None => None
        end
    end
  else Some [].
Definition switch_string_replace (s search replace : list Z) : option (list Z) :=
  replace_loop (length s) s search replace 0.

(** ** Quoting for a shell *)
Definition quoted (c : Z) : list Z := if c =? 39 then [39; 92; 39; 39] else [c].
(** The second component of the measuring pass is [dest_len]. *)
Fixpoint quote_measure (s : list Z) (dest_len : Z) : Z :=
  match s with [] => dest_len | c :: s => quote_measure s (if c =? 39 then dest_len + 3 else dest_len) end.
Definition switch_util_quote_shell_arg_pool (s : list Z) : res (list Z) :=
  let dest_len := quote_measure s (zlen s + 1 + 1) + 1 in
  let dest := 39 :: concat (map quoted s) ++ [39] in
  let n := zlen dest + 1 in
  if n <=? dest_len then rassert (n =? dest_len) (Ret dest) else Ub.
Definition switch_util_quote_shell_arg (s : list Z) : res (list Z) := switch_util_quote_shell_arg_pool s.

(** ** Searching without case *)
(** [switch_toupper(c)] of a [char], which is sign-extended. *)
Definition upper_char (c : Z) : Z := switch_toupper (u32 (schar c)).

(** The loop that compares: [Some true] the pattern was found, [Some false] the text
    ended, [None] they differ. *)
Fixpoint stristr_compare (pat s : list Z) : option bool :=
  match pat, s with
  | p :: pat, c :: s =>
    if upper_char c =? upper_char p then
      match pat, s with [], _ => Some true | _, [] => Some false | _, _ => stristr_compare pat s end
    else None
  | _, _ => None
  end.
(** The position of the match; [start] moves on while the first bytes differ. *)
Fixpoint stristr_loop (pat s : list Z) (start : Z) : option Z :=
  match s with
  | [] => None
  | c :: r =>
    if upper_char c =? upper_char (default 0 (head pat)) then
      match stristr_compare pat s with
      | Some true => Some start
      | Some false => None
      | None => stristr_loop pat r (start + 1)
      end
    else stristr_loop pat r (start + 1)
  end.
Definition switch_stristr (instr str : option (list Z)) : option Z :=
  match instr, str with Some pat, Some s => stristr_loop pat s 0 | _, _ => None end.

(** ** Parentheses *)
(** The loop behind the first [open]: the position of [e] when it stops. *)
Fixpoint end_paren_loop (s : list Z) (open close depth e : Z) : option Z :=
  match s with
  | [] => None
  | c :: s =>
    if (c =? open) && negb (open =? close) then end_paren_loop s open close (depth + 1) (e + 1)
    else if c =? close then
      if depth - 1 =? 0 then Some e else end_paren_loop s open close (depth - 1) (e + 1)
    else end_paren_loop s open close depth (e + 1)
  end.
Fixpoint end_paren_start (s : list Z) (open close i : Z) : option Z :=
  match s with
  | [] => None
  | c :: r =>
    if c =? 32 then end_paren_start r open close (i + 1)
    else if c =? open then end_paren_loop r open close 1 (i + 1) else None
  end.
(** A blank is skipped even when it is the opening character. *)
Definition switch_find_end_paren (s : list Z) (open close : Z) : option Z := end_paren_start s open close 0.

(** [switch_separate_paren_args]: the text before and the arguments.  The blanks
    before the parenthesis are removed backwards, without looking for the
    beginning of the text. *)
Fixpoint split_at (c : Z) (s : list Z) : option (list Z * list Z) :=
  match s with
  | [] => None
  | d :: s => if d =? c then Some ([], s) else option_map (fun '(a, b) => (d :: a, b)) (split_at c s)
  end.
Fixpoint strip_back (rev_s : list Z) : res (list Z) :=
  match rev_s with
  | [] => Ub
  | c :: r => if c =? 32 then strip_back r else Ret (rev r ++ [c])
  end.
Fixpoint paren_args (s : list Z) (br : Z) : list Z :=
  match s with
  | [] => []
  | c :: s =>
    if c =? 40 then c :: paren_args s (br + 1)
    else if (br >? 1) && (c =? 41) then c :: paren_args s (br - 1)
    else if (br =? 1) && (c =? 41) then []
    else c :: paren_args s br
  end.
Definition switch_separate_paren_args (s : list Z) : res (list Z * option (list Z)) :=
  match split_at 40 s with
  | None => Ret (s, None)
  | Some (a, b) => a' <-! strip_back (rev a);; Ret (a', Some (paren_args b 1))
  end.

(** ** Stripping *)
Definition whitespace (c : Z) : bool := (c =? 13) || (c =? 10) || (c =? 9) || (c =? 32) || (c =? 11).
Fixpoint skip_front (p : Z -> bool) (s : list Z) : list Z :=
  match s with c :: r => if p c then skip_front p r else s | [] => [] end.
(** [while (p >= s && ...) *p-- = '\0'] *)
Definition strip_end (p : Z -> bool) (s : list Z) : list Z := rev (skip_front p (rev s)).
Definition switch_strip_whitespace (str : option (list Z)) : list Z :=
  match str with None => [] | Some s => strip_end whitespace (skip_front whitespace s) end.
Definition switch_pool_strip_whitespace := switch_strip_whitespace.
Definition is_blank (c : Z) : bool := c =? 32.
(** The result: for a text of its caller its end is cut in place.  A text of
    blanks is empty before its end is looked at. *)
Definition switch_strip_spaces (str : option (list Z)) (dup : bool) : option (list Z) :=
  match str with
  | None => if dup then Some [] else None
  | Some s => Some (strip_end is_blank (skip_front is_blank s))
  end.

Definition digit_char (c : Z) : bool := (schar c >? 47) && (schar c <? 58).
(** The bytes stored and whether the buffer is returned ([ret]). *)
Fixpoint switch_strip_commas (s : list Z) (len x : Z) : list Z * bool :=
  match s with
  | [] => ([], true)
  | c :: s =>
    if digit_char c then
      if x + 1 >? len then ([c], false)
      else let '(out, ret) := switch_strip_commas s len (x + 1) in (c :: out, ret)
    else if c =? 44 then switch_strip_commas s len x else ([], false)
  end.
Definition numeric_char (c : Z) : bool := digit_char c || (c =? 46) || (c =? 45) || (c =? 43).
Fixpoint switch_strip_nonnumerics (s : list Z) (len x : Z) : list Z * bool :=
  match s with
  | [] => ([], true)
  | c :: s =>
    if numeric_char c then
      if x + 1 >? len then ([c], false)
      else let '(out, ret) := switch_strip_nonnumerics s len (x + 1) in (c :: out, ret)
    else switch_strip_nonnumerics s len x
  end.

Definition skip_sign (s : list Z) : list Z :=
  match s with c :: r => if (c =? 45) || (c =? 43) then r else s | [] => [] end.
Definition switch_is_number (s : list Z) : bool := forallb (fun c => (c =? 46) || digit_char c) (skip_sign s).
Definition switch_is_leading_number (s : list Z) : bool := existsb (fun c => (c =? 46) || digit_char c) (skip_sign s).

Definition switch_replace_char (s : list Z) (from to : Z) : list Z := map (fun c => if c =? from then to else c) s.

(** ** File names *)
(** [while ((p = strchr(p, i)) != 0) ret = ++p]: what is behind the last [i]. *)
Fixpoint behind_last (i : Z) (s : list Z) : option (list Z) :=
  match s with
  | [] => None
  | c :: r => match behind_last i r with Some x => Some x | None => if c =? i then Some r else None end
  end.
Definition switch_cut_path (s : list Z) : list Z :=
  let ret := default s (behind_last 47 s) in default ret (behind_last 92 s).

(** ** Entities *)
Definition amp_entity (c : Z) : list Z :=
  if c =? 34 then [38; 113; 117; 111; 116; 59] else if c =? 39 then [38; 97; 112; 111; 115; 59]
  else if c =? 38 then [38; 97; 109; 112; 59] else if c =? 60 then [38; 108; 116; 59]
  else if c =? 62 then [38; 103; 116; 59] else [c].
(** The bytes stored, the terminator included when it was reached; the text [s]
    is followed by its terminator. *)
Fixpoint amp_loop (s : list Z) (x len : Z) : list Z :=
  if x <? len then
    match s with
    | [] => if x + 1 >? u64 (len - 1) then [] else [0]
    | c :: s =>
      let out := amp_entity c in
      if x + zlen out >? u64 (len - 1) then [] else out ++ amp_loop s (x + zlen out) len
    end
  else [].
Definition switch_amp_encode (s : list Z) (len : Z) : list Z := amp_loop s 0 len.

(** ** Private addresses *)
Definition text (s : String.string) : list Z := map (fun a => Z.of_N (Ascii.N_of_ascii a)) (String.list_ascii_of_string s).
Definition lan_prefixes : list (list Z) := map text
  ["10."; "192.168."; "127."; "255."; "0."; "1."; "2."; "172.16."; "172.17."; "172.18."; "172.19."; "172.20.";
   "172.21."; "172.22."; "172.23."; "172.24."; "172.25."; "172.26."; "172.27."; "172.28."; "172.29."; "172.30.";
   "172.31."; "192.0.2."; "169.254."]%string.
Definition switch_is_lan_addr (ip : option (list Z)) : bool :=
  match ip with
  | None | Some [] => false
  | Some s => existsb (switch_string_match s) lan_prefixes
  end.

(** ** Replacing: the leftmost occurrences *)
Inductive replaced (search rep : list Z) : list Z -> list Z -> Prop :=
| replaced_none s : strstr_split search s = None -> replaced search rep s s
| replaced_first s a b b' : strstr_split search s = Some (a, b) -> replaced search rep b b' ->
    replaced search rep s (a ++ rep ++ b').

(** Splitting at a character. *)
Lemma split_at_app c a b : c ∉ a -> split_at c (a ++ c :: b) = Some (a, b).
Proof.
  induction a as [|x a IH]; intros Hn; cbn [app split_at]; [by rewrite Z.eqb_refl|].
  apply not_elem_of_cons in Hn as [Hx Hn]. rewrite (proj2 (Z.eqb_neq x c)) by congruence. by rewrite IH.
Qed.
Lemma split_at_none c s : c ∉ s -> split_at c s = None.
Proof.
  induction s as [|x s IH]; intros Hn; [done|]. apply not_elem_of_cons in Hn as [Hx Hn]. cbn [split_at].
  rewrite (proj2 (Z.eqb_neq x c)) by congruence. by rewrite IH.
Qed.

Lemma match_starts s search : switch_string_match s search = true -> starts_with search s = Some (drop (length search) s).
Proof.
  revert s. induction search as [|c search IH]; intros s H; [done|].
  destruct s as [|d s]; [done|]. cbn in H |- *. apply andb_true_iff in H as [->%Z.eqb_eq H].
  rewrite Z.eqb_refl. auto.
Qed.
Lemma match_not_starts s search : switch_string_match s search = false -> starts_with search s = None.
Proof.
  revert s. induction search as [|c search IH]; intros s H; [done|].
  destruct s as [|d s]; [done|]. cbn in H |- *. rewrite (Z.eqb_sym c d). destruct (d =? c); [|done]. auto.
Qed.
Lemma match_length s search : switch_string_match s search = true -> (length search <= length s)%nat.
Proof.
  revert s. induction search as [|c search IH]; intros s H; [simpl; lia|].
  destruct s as [|d s]; [done|]. cbn in H |- *. apply andb_true_iff in H as [_ H]. apply IH in H. lia.
Qed.
Lemma replaced_cons search rep c t r : search <> [] -> starts_with search (c :: t) = None ->
  replaced search rep t r -> replaced search rep (c :: t) (c :: r).
Proof.
  intros Hne Hs Hr. inversion Hr as [s E|s a b b' E H]; subst.
  - apply replaced_none. cbn [strstr_split]. by rewrite Hs, E.
  - change (c :: a ++ rep ++ b') with ((c :: a) ++ rep ++ b'). apply (replaced_first _ _ _ _ b); [|done].
    cbn [strstr_split]. by rewrite Hs, E.
Qed.

Lemma replace_suffix s search rep : search <> [] -> zlen s < 2 ^ 63 -> forall n fuel i, 0 <= i -> i + Z.of_nat n = zlen s ->
  (n <= fuel)%nat -> exists r, replace_loop fuel s search rep i = Some r /\ replaced search rep (drop (Z.to_nat i) s) r.
Proof.
  intros Hne Hs n. induction n as [n IH] using lt_wf_ind. intros fuel i Hi Hin Hf.
  destruct n as [|n].
  - exists []. rewrite drop_ge by (unfold zlen in Hin; lia). split.
    + destruct fuel; cbn [replace_loop]; by rewrite (proj2 (Z.ltb_ge _ _)) by lia.
    + apply replaced_none. by destruct search.
  - destruct fuel as [|fuel]; [lia|]. cbn [replace_loop]. rewrite (proj2 (Z.ltb_lt _ _)) by lia.
    destruct (lookup_lt_is_Some_2 s (Z.to_nat i)) as [c Hc]; [unfold zlen in Hin; lia|].
    rewrite (drop_S _ _ _ Hc). destruct (switch_string_match _ search) eqn:Em.
    + pose proof (match_length _ _ Em) as Hl. pose proof (match_starts _ _ Em) as Es.
      rewrite <- (drop_S _ _ _ Hc), length_drop in Hl. unfold zlen in Hin.
      assert (Hpos : (0 < length search)%nat) by (destruct search; [done|simpl; lia]).
      assert (E : u64 (u64 (i + (zlen search - 1)) + 1) = i + zlen search).
      { unfold zlen in *. rewrite (u64_small (i + _)) by lia. rewrite u64_small; lia. }
      rewrite E. destruct (IH (S n - length search)%nat ltac:(lia) fuel (i + zlen search)) as (r & -> & Hr);
        [unfold zlen; lia..|].
      exists (rep ++ r). split; [done|]. change (rep ++ r) with ([] ++ rep ++ r).
      apply (replaced_first _ _ _ _ (drop (length search) (c :: drop (S (Z.to_nat i)) s))).
      * cbn [strstr_split]. by rewrite Es.
      * rewrite <- (drop_S _ _ _ Hc), drop_drop.
        by replace (Z.to_nat i + length search)%nat with (Z.to_nat (i + zlen search)) by (unfold zlen; lia).
    + rewrite Hc. rewrite u64_small by lia.
      destruct (IH n ltac:(lia) fuel (i + 1)) as (r & -> & Hr); [lia..|].
      exists (c :: r). split; [done|]. apply replaced_cons; [done|by apply match_not_starts|].
      by replace (S (Z.to_nat i)) with (Z.to_nat (i + 1)) by lia.
Qed.

Lemma replace_empty_spins s rep fuel : s <> [] -> replace_loop fuel s [] rep 0 = None.
Proof.
  intros Hs. assert (E : (0 <? zlen s) = true).
  { apply Z.ltb_lt. unfold zlen. destruct s; [done|simpl; lia]. }
  induction fuel as [|fuel IH]; cbn [replace_loop]; rewrite E; [done|]. cbn [switch_string_match].
  change (u64 (u64 (0 + (zlen [] - 1)) + 1)) with 0. by rewrite IH.
Qed.

(** [switch_string_replace] ends and replaces the leftmost occurrences, each
    searched behind the one before; for an empty search text it never ends. *)
Theorem string_replace_spec (s search rep : list Z) :
  zlen s < 2 ^ 63 ->
  (search <> [] -> exists r, switch_string_replace s search rep = Some r /\ replaced search rep s r) /\
  (search = [] -> s <> [] -> forall fuel, replace_loop fuel s search rep 0 = None).
Proof.
  intros Hs. split.
  - intros Hne. by apply (replace_suffix s search rep Hne Hs (length s) (length s) 0).
  - intros -> Hne fuel. by apply replace_empty_spins.
Qed.

Lemma string_replace_spec_witness :
  switch_string_replace [97; 97; 97; 98] [97; 97] [99] = Some [99; 97; 98] /\
  ([97; 97] <> [] -> exists r, switch_string_replace [97; 97; 97; 98] [97; 97] [99] = Some r /\
     replaced [97; 97] [99] [97; 97; 97; 98] r) /\
  ([97; 97] = [] -> [97; 97; 97; 98] <> [] -> forall fuel, replace_loop fuel [97; 97; 97; 98] [97; 97] [99] 0 = None).
Proof.
  split; [vm_compute; reflexivity|]. apply (string_replace_spec [97; 97; 97; 98] [97; 97] [99]). vm_compute. reflexivity.
Defined.

(** ** Quoting: what a shell makes of it *)
(** One word of a POSIX shell line: quoted by apostrophes, where everything is
    literal, or a backslash and the character it quotes. *)
Fixpoint sh_word (in_quotes : bool) (s : list Z) : option (list Z) :=
  match s with
  | [] => if in_quotes then None else Some []
  | c :: s =>
    if in_quotes then if c =? 39 then sh_word false s else option_map (cons c) (sh_word true s)
    else if c =? 39 then sh_word true s
    else if c =? 92 then match s with d :: s => option_map (cons d) (sh_word false s) | [] => None end
    else None
  end.

Lemma quoted_word s : sh_word true (concat (map quoted s) ++ [39]) = Some s.
Proof.
  induction s as [|c s IH]; [done|]. cbn [map concat]. rewrite <- app_assoc. unfold quoted at 1.
  destruct (Z.eqb_spec c 39) as [->|Hc]; cbn [app sh_word].
  - change (39 =? 39) with true. change (92 =? 39) with false. change (92 =? 92) with true. cbv match. by rewrite IH.
  - rewrite (proj2 (Z.eqb_neq c 39)) by done. by rewrite IH.
Qed.
Lemma quote_measure_exact s : forall k, quote_measure s k = k + (zlen (concat (map quoted s)) - zlen s).
Proof.
  induction s as [|c s IH]; intros k; [change (zlen []) with 0; simpl; change (zlen []) with 0; lia|].
  cbn [quote_measure map concat]. rewrite IH, zlen_app, zlen_cons. unfold quoted at 2.
  destruct (c =? 39); [change (zlen [39; 92; 39; 39]) with 4|change (zlen [c]) with 1]; lia.
Qed.

(** A quoted argument fills its block exactly, so the assertion holds, and a
    shell reads it back as one word, the text itself. *)
Theorem quote_shell_arg_roundtrip (s : list Z) :
  exists d, switch_util_quote_shell_arg s = Ret d /\ sh_word false d = Some s.
Proof.
  exists (39 :: concat (map quoted s) ++ [39]). split; [|by apply quoted_word].
  unfold switch_util_quote_shell_arg, switch_util_quote_shell_arg_pool.
  rewrite quote_measure_exact, zlen_cons, zlen_app. change (zlen [39]) with 1.
  rewrite (proj2 (Z.leb_le _ _)), (proj2 (Z.eqb_eq _ _)) by lia. done.
Qed.

(** ** Searching: the first occurrence in any case *)
Lemma upper_char_eq a b : 0 <= a < 256 -> 0 <= b < 256 -> (upper_char a =? upper_char b) = (ascii_upper a =? ascii_upper b).
Proof.
  intros Ha Hb.
  assert (H : forall c, 0 <= c < 256 -> upper_char c = u32 (schar (ascii_upper c)) /\ 0 <= ascii_upper c < 256).
  { intros c Hc. pose proof (byte_forall (fun c => (upper_char c =? u32 (schar (ascii_upper c))) && (0 <=? ascii_upper c) &&
      (ascii_upper c <? 256)) ltac:(vm_compute; reflexivity) c Hc) as H. cbv beta in H.
    rewrite !andb_true_iff, Z.eqb_eq, Z.leb_le, Z.ltb_lt in H. tauto. }
  destruct (H a Ha) as [-> Ha'], (H b Hb) as [-> Hb'].
  assert (Hu : forall c, 0 <= c < 256 -> u32 (schar c) = if c <? 128 then c else c + 4294967040).
  { intros c Hc. unfold schar. destruct (Z.ltb_spec c 128); [by rewrite u32_small by lia|].
    unfold u32. symmetry. apply (Z.mod_unique _ _ (-1)); lia. }
  rewrite !Hu by done. apply Bool.eq_iff_eq_true. rewrite !Z.eqb_eq.
  destruct (Z.ltb_spec (ascii_upper a) 128), (Z.ltb_spec (ascii_upper b) 128); lia.
Qed.

Definition occurs_at (pat s : list Z) (i : nat) : Prop :=
  map ascii_upper (take (length pat) (drop i s)) = map ascii_upper pat.
Definition bytes (s : list Z) : Prop := Forall (fun c => 0 <= c < 256) s.

Lemma occurs_cons p pat c s : 0 <= p < 256 -> 0 <= c < 256 ->
  occurs_at (p :: pat) (c :: s) 0 <-> (upper_char c =? upper_char p) = true /\ occurs_at pat s 0.
Proof.
  intros Hp Hc. rewrite upper_char_eq, Z.eqb_eq by done. unfold occurs_at. cbn [length drop take map].
  rewrite !drop_0. split; [by intros [= ? ?]|intros [E1 E2]; by f_equal].
Qed.
Lemma occurs_short pat s i : (length s < i + length pat)%nat -> pat <> [] -> ~ occurs_at pat s i.
Proof.
  unfold occurs_at. intros Hl Hne E. apply (f_equal length) in E. rewrite !length_map, length_take, length_drop in E.
  destruct pat; [done|]. cbn [length] in *. lia.
Qed.

Lemma compare_spec pat : forall s, bytes pat -> bytes s -> pat <> [] ->
  match stristr_compare pat s with
  | Some true => occurs_at pat s 0
  | Some false => (length s < length pat)%nat
  | None => ~ occurs_at pat s 0
  end.
Proof.
  induction pat as [|p pat IH]; intros s Hp Hs Hne; [done|]. apply Forall_cons in Hp as [Hp Hpat].
  destruct s as [|c s]; [apply occurs_short; [simpl; lia|done]|]. apply Forall_cons in Hs as [Hc Hs].
  cbn [stristr_compare]. destruct (upper_char c =? upper_char p) eqn:E.
  - destruct pat as [|p' pat]; [by apply occurs_cons|]. destruct s as [|c' s]; [simpl; lia|].
    specialize (IH (c' :: s) Hpat Hs ltac:(done)). destruct (stristr_compare (p' :: pat) (c' :: s)) as [[]|].
    + by apply occurs_cons.
    + cbn [length] in *. lia.
    + by intros [_ ?]%occurs_cons.
  - intros [E' _]%occurs_cons; [congruence|done..].
Qed.

Lemma stristr_loop_spec pat : bytes pat -> pat <> [] -> forall s start, bytes s ->
  match stristr_loop pat s start with
  | Some i => exists k, i = start + Z.of_nat k /\ occurs_at pat s k /\ forall j, (j < k)%nat -> ~ occurs_at pat s j
  | None => forall j, ~ occurs_at pat s j
  end.
Proof.
  intros Hp Hne s. induction s as [|c s IH]; intros start Hs.
  { intros j. apply occurs_short; [|done]. destruct pat; [done|simpl; lia]. }
  apply Forall_cons in Hs as [Hc Hs]. specialize (IH (start + 1) Hs). cbn [stristr_loop].
  assert (Hmove : ~ occurs_at pat (c :: s) 0 ->
    match stristr_loop pat s (start + 1) with
    | Some i => exists k, i = start + Z.of_nat k /\ occurs_at pat (c :: s) k /\ forall j, (j < k)%nat -> ~ occurs_at pat (c :: s) j
    | None => forall j, ~ occurs_at pat (c :: s) j
    end).
  { intros H0. destruct (stristr_loop pat s (start + 1)) as [i|].
    - destruct IH as (k & -> & Hk & Hj). exists (S k). split_and!; [lia|done|].
      intros [|j] Hlt; [done|]. apply (Hj j). lia.
    - intros [|j]; [done|]. apply (IH j). }
  assert (Hs' : bytes (c :: s)) by (by apply Forall_cons).
  destruct pat as [|p pat]; [done|]. pose proof (compare_spec (p :: pat) (c :: s) Hp Hs' ltac:(done)) as Hcmp.
  cbn [head default from_option id]. destruct (upper_char c =? upper_char p) eqn:E.
  - destruct (stristr_compare (p :: pat) (c :: s)) as [[]|]; [|intros j; apply occurs_short; [lia|done]|by apply Hmove].
    exists 0%nat. split_and!; [lia|done|lia].
  - apply Hmove. apply Forall_cons in Hp as [Hp1 _]. intros [E' _]%occurs_cons; [congruence|done..].
Qed.

(** [switch_stristr] finds the first occurrence of a text in another in any
    letter case, and nothing exactly when there is none. *)
Theorem stristr_finds_first (pat s : list Z) :
  bytes pat -> bytes s -> pat <> [] ->
  match switch_stristr (Some pat) (Some s) with
  | Some i => exists k, i = Z.of_nat k /\ occurs_at pat s k /\ forall j, (j < k)%nat -> ~ occurs_at pat s j
  | None => forall j, ~ occurs_at pat s j
  end.
Proof. intros Hp Hs Hne. exact (stristr_loop_spec pat Hp Hne s 0 Hs). Qed.

Lemma stristr_finds_first_witness :
  switch_stristr (Some [66; 67]) (Some [97; 98; 98; 99]) = Some 2 /\
  match switch_stristr (Some [66; 67]) (Some [97; 98; 98; 99]) with
  | Some i => exists k, i = Z.of_nat k /\ occurs_at [66; 67] [97; 98; 98; 99] k /\
      forall j, (j < k)%nat -> ~ occurs_at [66; 67] [97; 98; 98; 99] j
  | None => forall j, ~ occurs_at [66; 67] [97; 98; 98; 99] j
  end.
Proof.
  split; [reflexivity|]. apply (stristr_finds_first [66; 67] [97; 98; 98; 99]).
  - repeat (apply Forall_cons; split; [lia|]). by apply Forall_nil.
  - repeat (apply Forall_cons; split; [lia|]). by apply Forall_nil.
  - discriminate.
Defined.

(** ** Parentheses: the one that closes *)
Inductive balanced (open close : Z) : list Z -> Prop :=
| balanced_nil : balanced open close []
| balanced_char c s : c <> open -> c <> close -> balanced open close s -> balanced open close (c :: s)
| balanced_nest s t : balanced open close s -> balanced open close t -> balanced open close (open :: s ++ close :: t).

Lemma end_paren_balanced open close b : open <> close -> balanced open close b ->
  forall t depth e, 1 <= depth -> end_paren_loop (b ++ t) open close depth e = end_paren_loop t open close depth (e + zlen b).
Proof.
  intros Hne. induction 1 as [|c s Ho Hc _ IH|s u _ IHs _ IHu]; intros t depth e Hd.
  - change (zlen []) with 0. by rewrite Z.add_0_r.
  - cbn [app end_paren_loop]. rewrite (proj2 (Z.eqb_neq c open)), (proj2 (Z.eqb_neq c close)) by done. cbn [andb].
    rewrite IH by done. f_equal. rewrite zlen_cons. lia.
  - cbn [app end_paren_loop]. rewrite Z.eqb_refl, (proj2 (Z.eqb_neq open close)) by done. cbn [andb negb].
    rewrite <- app_assoc, IHs by lia. cbn [app end_paren_loop].
    rewrite (proj2 (Z.eqb_neq close open)), Z.eqb_refl by done. cbn [andb].
    rewrite (proj2 (Z.eqb_neq _ 0)) by lia. rewrite IHu by lia. f_equal; [lia|].
    rewrite zlen_cons, zlen_app, zlen_cons. lia.
Qed.
(** The parenthesis found closes the first one, behind any blanks. *)
Lemma find_end_paren_balanced open close b rest k : open <> close -> open <> 32 -> balanced open close b ->
  switch_find_end_paren (replicate k 32 ++ open :: b ++ close :: rest) open close = Some (Z.of_nat k + 1 + zlen b).
Proof.
  intros Hne H32 Hb. unfold switch_find_end_paren. replace (Z.of_nat k) with (0 + Z.of_nat k) by lia. generalize 0 as i.
  induction k as [|k IH]; intros i.
  - cbn [replicate app end_paren_start]. rewrite (proj2 (Z.eqb_neq open 32)), Z.eqb_refl by done.
    rewrite end_paren_balanced by (done || lia). cbn [end_paren_loop].
    rewrite (proj2 (Z.eqb_neq close open)), Z.eqb_refl by done. cbn [andb]. cbn. f_equal. lia.
  - cbn [replicate app end_paren_start]. change (32 =? 32) with true. cbv match. rewrite IH. f_equal. lia.
Qed.

(** ** Stripping: nothing but the margins *)
Lemma skip_front_spec p s : exists a, s = a ++ skip_front p s /\ Forall (fun c => p c = true) a /\
  match skip_front p s with c :: _ => p c = false | [] => True end.
Proof.
  induction s as [|c s (a & E & Ha & H)]; [by exists []|]. cbn [skip_front]. destruct (p c) eqn:Ep.
  - exists (c :: a). split_and!; [cbn; by rewrite <- E|by apply Forall_cons|done].
  - by exists [].
Qed.
Lemma strip_end_spec p s : exists b, s = strip_end p s ++ b /\ Forall (fun c => p c = true) b /\
  match last (strip_end p s) with Some c => p c = false | None => True end.
Proof.
  destruct (skip_front_spec p (rev s)) as (a & E & Ha & H). exists (rev a). unfold strip_end. split_and!.
  - by rewrite <- rev_app_distr, <- E, rev_involutive.
  - by apply Forall_rev.
  - destruct (skip_front p (rev s)) as [|c r]; [done|]. cbn [rev]. by rewrite last_snoc.
Qed.
Lemma strip_whitespace_spec s : exists a b, s = a ++ switch_strip_whitespace (Some s) ++ b /\
  Forall (fun c => whitespace c = true) (a ++ b) /\
  match last (switch_strip_whitespace (Some s)) with Some c => whitespace c = false | None => True end.
Proof.
  cbn [switch_strip_whitespace]. destruct (skip_front_spec whitespace s) as (a & E & Ha & _).
  destruct (strip_end_spec whitespace (skip_front whitespace s)) as (b & E' & Hb & H).
  exists a, b. split_and!; [by rewrite <- E'|by apply Forall_app|done].
Qed.

(** ** What short buffers get *)
(** One byte more than [len] is stored before the limit is noticed. *)
Example strip_commas_overruns : switch_strip_commas [49; 44; 50; 51; 52] 2 0 = ([49; 50; 51], false).
Proof. reflexivity. Qed.
Example strip_nonnumerics_overruns : switch_strip_nonnumerics [49; 120; 50; 51] 2 0 = ([49; 50; 51], false).
Proof. reflexivity. Qed.
(** A text that does not fit is left without a terminator. *)
Example amp_encode_unterminated : switch_amp_encode [97; 60] 4 = [97].
Proof. reflexivity. Qed.
(** A slash behind a backslash is not cut. *)
Example cut_path_mixed : switch_cut_path [97; 92; 98; 47; 99] = [98; 47; 99].
Proof. reflexivity. Qed.
(** Nothing but blanks before the parenthesis: the text is left to the front. *)
Example paren_args_underrun : switch_separate_paren_args [32; 40; 97; 41] = Ub.
Proof. reflexivity. Qed.
Example paren_args_nested :
  switch_separate_paren_args [102; 32; 40; 97; 40; 98; 41; 41; 99] = Ret ([102], Some [97; 40; 98; 41]).
Proof. reflexivity. Qed.
