(* ===== verification/CaseLanes.v ===== *)
(** * CaseLanes: upper and lower case eight bytes at a time

    [switch_toupper_max] and [switch_tolower_max] of include/switch_utils.h
    convert words of eight bytes with additions and masks and the rest of the
    text byte by byte.  They agree with the character tables on every byte. *)
From S2P Require Import Prelude HashTable CoreHash UrlCode.
From Stdlib Require Import ZArith Lia.
From stdpp Require Import base numbers option list.

Local Open Scope Z_scope.

Definition switch_toupper64 (eax : Z) : Z :=
  let ebx := u64 (Z.land 0x7f7f7f7f7f7f7f7f eax + 0x0505050505050505) in
  let ebx := u64 (Z.land 0x7f7f7f7f7f7f7f7f ebx + 0x1a1a1a1a1a1a1a1a) in
  let ebx := Z.land (Z.shiftr (Z.land ebx (u64 (Z.lnot eax))) 2) 0x2020202020202020 in
  u64 (eax - ebx).
Definition switch_tolower64 (eax : Z) : Z :=
  let ebx := u64 (Z.land 0x7f7f7f7f7f7f7f7f eax + 0x2525252525252525) in
  let ebx := u64 (Z.land 0x7f7f7f7f7f7f7f7f ebx + 0x1a1a1a1a1a1a1a1a) in
  let ebx := Z.land (Z.shiftr (Z.land ebx (u64 (Z.lnot eax))) 2) 0x2020202020202020 in
  u64 (eax + ebx).

(** The word at the front of a text, lowest byte first, and its bytes. *)
Definition word_of (bs : list Z) : Z := foldr (fun b w => b + 256 * w) 0 bs.
Fixpoint bytes_of (n : nat) (w : Z) : list Z :=
  match n with O => [] | S n => w mod 256 :: bytes_of n (w / 256) end.

(** [while (l > 8)] a word, then [while (l > 0)] a byte. *)
Fixpoint case_max (fuel : nat) (conv64 conv : Z -> Z) (s : list Z) : list Z :=
  match fuel with
  | S fuel =>
    if zlen s >? 8 then bytes_of 8 (conv64 (word_of (take 8 s))) ++ case_max fuel conv64 conv (drop 8 s)
    else map (fun c => u8 (conv (u32 (schar c)))) s
  | O => map (fun c => u8 (conv (u32 (schar c)))) s
  end.
Definition switch_toupper_max (s : list Z) : list Z := case_max (length s) switch_toupper64 switch_toupper s.
Definition switch_tolower_max (s : list Z) : list Z := case_max (length s) switch_tolower64 switch_tolower s.

(** ** Lanes *)
Definition byte (b : Z) : Prop := 0 <= b < 256.
Definition bytewise (f : Z -> Z) : Prop := forall b, byte b -> byte (f b).

Lemma testbit_lane a A n : byte a -> 0 <= n ->
  Z.testbit (a + 256 * A) n = if n <? 8 then Z.testbit a n else Z.testbit A (n - 8).
Proof.
  unfold byte. intros Ha Hn. rewrite Z.mul_comm. change 256 with (2 ^ 8). rewrite <- lor_add by (done || lia).
  rewrite Z.lor_spec, <- Z.shiftl_mul_pow2, Z.shiftl_spec by done.
  destruct (Z.ltb_spec n 8).
  - by rewrite (Z.testbit_neg_r A) by lia; rewrite orb_false_r.
  - rewrite <- (Z.mod_small a (2 ^ 8)) by (change (2 ^ 8) with 256; lia). by rewrite Z.mod_pow2_bits_high by lia.
Qed.
Lemma byte_land a c : byte a -> byte c -> byte (Z.land a c).
Proof.
  unfold byte. intros Ha Hc. assert (0 <= Z.land a c) by (apply Z.land_nonneg; lia).
  split; [done|]. replace (Z.land a c) with (Z.land a c mod 2 ^ 8); [apply Z.mod_pos_bound; lia|].
  rewrite <- Z.land_ones, <- Z.land_assoc, Z.land_ones, (Z.mod_small c) by lia. done.
Qed.
Lemma land_lane a A c C : byte a -> byte c -> Z.land (a + 256 * A) (c + 256 * C) = Z.land a c + 256 * Z.land A C.
Proof.
  intros Ha Hc. apply Z.bits_inj'. intros n Hn.
  rewrite Z.land_spec, !testbit_lane by (done || by apply byte_land).
  destruct (n <? 8); by rewrite Z.land_spec.
Qed.
(** Some bits to the right: those that come in from the next lane are masked. *)
Lemma shift_lane k m a A C : 0 <= k < 8 -> 0 <= m < 2 ^ (8 - k) -> byte a ->
  Z.land (Z.shiftr (a + 256 * A) k) (m + 256 * C) = Z.land (Z.shiftr a k) m + 256 * Z.land (Z.shiftr A k) C.
Proof.
  intros Hk Hm Ha. assert (Hmb : byte m).
  { unfold byte. change 256 with (2 ^ 8). pose proof (Z.pow_le_mono_r 2 (8 - k) 8). lia. }
  assert (Hb : byte (Z.land (Z.shiftr a k) m)).
  { apply byte_land; [|done]. unfold byte in *. rewrite Z.shiftr_div_pow2 by lia.
    assert (0 < 2 ^ k) by (apply Z.pow_pos_nonneg; lia).
    split; [apply Z.div_pos; lia|apply Z.div_lt_upper_bound; nia]. }
  apply Z.bits_inj'. intros n Hn.
  rewrite Z.land_spec, Z.shiftr_spec, !testbit_lane by (done || lia).
  destruct (Z.ltb_spec n 8) as [H8|H8].
  - rewrite Z.land_spec, Z.shiftr_spec by done. destruct (Z.ltb_spec (n + k) 8); [done|].
    assert (E : Z.testbit m n = false).
    { rewrite <- (Z.mod_small m (2 ^ (8 - k))) by done. apply Z.mod_pow2_bits_high. lia. }
    by rewrite E, !andb_false_r.
  - rewrite Z.land_spec, Z.shiftr_spec by lia. rewrite (proj2 (Z.ltb_ge (n + k) 8)) by lia. do 2 f_equal. lia.
Qed.

(** A word whose lanes are computed from those of another. *)
Lemma W_ext bs : Forall byte bs -> forall f g, (forall b, byte b -> f b = g b) -> word_of (map f bs) = word_of (map g bs).
Proof.
  intros Hbs f g H. unfold word_of. induction Hbs as [|b l Hb _ IH]; [done|]. cbn [map foldr]. by rewrite (H b Hb), IH.
Qed.
Lemma W_land bs : Forall byte bs -> forall f g, bytewise f -> bytewise g ->
  Z.land (word_of (map f bs)) (word_of (map g bs)) = word_of (map (fun b => Z.land (f b) (g b)) bs).
Proof.
  intros Hbs f g Hf Hg. unfold word_of. induction Hbs as [|b l Hb _ IH]; [done|]. cbn [map foldr].
  rewrite land_lane by auto. by rewrite IH.
Qed.
Lemma W_shift k m bs : 0 <= k < 8 -> 0 <= m < 2 ^ (8 - k) -> Forall byte bs -> forall f, bytewise f ->
  Z.land (Z.shiftr (word_of (map f bs)) k) (word_of (map (fun _ => m) bs)) =
  word_of (map (fun b => Z.land (Z.shiftr (f b) k) m) bs).
Proof.
  intros Hk Hm Hbs f Hf. unfold word_of. induction Hbs as [|b l Hb _ IH].
  { cbn [map foldr]. by rewrite Z.land_0_r. }
  cbn [map foldr]. rewrite shift_lane by auto. by rewrite IH.
Qed.
Lemma W_add (bs : list Z) (f g : Z -> Z) : word_of (map f bs) + word_of (map g bs) = word_of (map (fun b => f b + g b) bs).
Proof. unfold word_of. induction bs as [|b l IH]; [done|]. cbn [map foldr]. lia. Qed.
Lemma W_sub (bs : list Z) (f g : Z -> Z) : word_of (map f bs) - word_of (map g bs) = word_of (map (fun b => f b - g b) bs).
Proof. unfold word_of. induction bs as [|b l IH]; [done|]. cbn [map foldr]. lia. Qed.
Lemma W_range bs : Forall byte bs -> forall f, bytewise f -> 0 <= word_of (map f bs) < 256 ^ zlen bs.
Proof.
  intros Hbs f Hf. unfold zlen, word_of. induction Hbs as [|b l Hb _ IH]; [cbn; lia|]. cbn [map foldr length].
  rewrite Nat2Z.inj_succ, Z.pow_succ_r by lia. specialize (Hf b Hb). unfold byte in *. lia.
Qed.
Lemma W_u64 bs : Forall byte bs -> forall f, bytewise f -> zlen bs = 8 -> u64 (word_of (map f bs)) = word_of (map f bs).
Proof. intros Hbs f Hf Hl. apply u64_small. pose proof (W_range bs Hbs f Hf) as H. rewrite Hl in H. exact H. Qed.

(** ** The conversions, lane by lane *)
Definition upper_mask (add : Z) (b : Z) : Z :=
  Z.land (Z.shiftr (Z.land (Z.land 0x7f (Z.land 0x7f b + add) + 0x1a) (255 - b)) 2) 0x20.

(** Every intermediate lane is a byte, so that nothing is carried over. *)
Definition lanes_ok (add b : Z) : bool :=
  let in_byte x := (0 <=? x) && (x <? 256) in
  in_byte (Z.land 0x7f b) && in_byte (Z.land 0x7f b + add) && in_byte (Z.land 0x7f (Z.land 0x7f b + add)) &&
  in_byte (Z.land 0x7f (Z.land 0x7f b + add) + 0x1a) && in_byte (255 - b) &&
  in_byte (Z.land (Z.land 0x7f (Z.land 0x7f b + add) + 0x1a) (255 - b)).

Lemma mask64 add bs : Forall byte bs -> zlen bs = 8 -> (forall b, byte b -> lanes_ok add b = true) ->
  let eax := word_of bs in
  let ebx := u64 (Z.land 0x7f7f7f7f7f7f7f7f eax + word_of (map (fun _ => add) bs)) in
  let ebx := u64 (Z.land 0x7f7f7f7f7f7f7f7f ebx + 0x1a1a1a1a1a1a1a1a) in
  Z.land (Z.shiftr (Z.land ebx (u64 (Z.lnot eax))) 2) 0x2020202020202020 = word_of (map (upper_mask add) bs).
Proof.
  intros Hbs Hl Hok. cbv zeta.
  assert (Hlane : forall b, byte b -> byte (Z.land 0x7f b) /\ byte (Z.land 0x7f b + add) /\
    byte (Z.land 0x7f (Z.land 0x7f b + add)) /\ byte (Z.land 0x7f (Z.land 0x7f b + add) + 0x1a) /\ byte (255 - b) /\
    byte (Z.land (Z.land 0x7f (Z.land 0x7f b + add) + 0x1a) (255 - b))).
  { intros b Hb. specialize (Hok b Hb). unfold lanes_ok in Hok. cbv zeta in Hok. unfold byte.
    rewrite !andb_true_iff, !Z.leb_le, !Z.ltb_lt in Hok. tauto. }
  assert (Hk : forall k, 0 <= k < 256 -> bytewise (fun _ => k)) by (intros k Hk b _; exact Hk).
  assert (Hc : forall k, word_of (map (fun _ => k) bs) = word_of (replicate 8 k)).
  { intros k. f_equal. replace 8%nat with (length bs) by (unfold zlen in Hl; lia). symmetry.
    clear. induction bs; [done|]. cbn [length replicate map]. by f_equal. }
  assert (E7 : 0x7f7f7f7f7f7f7f7f = word_of (map (fun _ => 0x7f) bs)) by (rewrite Hc; reflexivity).
  assert (E1a : 0x1a1a1a1a1a1a1a1a = word_of (map (fun _ => 0x1a) bs)) by (rewrite Hc; reflexivity).
  assert (E20 : 0x2020202020202020 = word_of (map (fun _ => 0x20) bs)) by (rewrite Hc; reflexivity).
  assert (Eid : word_of bs = word_of (map id bs)) by (by rewrite map_id).
  assert (Enot : u64 (Z.lnot (word_of bs)) = word_of (map (fun b => 255 - b) bs)).
  { change (word_of (map (fun b => 255 - b) bs)) with (word_of (map (fun b => 255 - id b) bs)).
    rewrite <- (W_sub bs (fun _ => 255) id), Hc, map_id. change (word_of (replicate 8 255)) with 18446744073709551615.
    pose proof (W_range bs Hbs id (fun b Hb => Hb)) as Hr. rewrite map_id, Hl in Hr. change (256 ^ 8) with 18446744073709551616 in Hr.
    unfold u64, Z.lnot. symmetry. apply (Z.mod_unique _ _ (-1)); lia. }
  rewrite Enot, E7, E1a, E20. rewrite Eid at 1.
  rewrite (W_land bs Hbs) by first [exact (Hk 0x7f ltac:(lia))|intros b Hb; exact Hb]. rewrite (W_add bs).
  rewrite (W_u64 bs Hbs) by (done || (intros b Hb; unfold id; by apply Hlane)).
  rewrite (W_land bs Hbs) by first [exact (Hk 0x7f ltac:(lia))|intros b Hb; unfold id; by apply Hlane]. rewrite (W_add bs).
  rewrite (W_u64 bs Hbs) by (done || (intros b Hb; unfold id; by apply Hlane)).
  rewrite (W_land bs Hbs) by (intros b Hb; unfold id; by apply Hlane).
  rewrite (W_shift 2 0x20 bs ltac:(lia) ltac:(done) Hbs) by (intros b Hb; unfold id; by apply Hlane). done.
Qed.

Lemma lanes_upper b : byte b -> lanes_ok 5 b = true /\ b - upper_mask 5 b = ascii_upper b /\ byte (ascii_upper b) /\
  u8 (switch_toupper (u32 (schar b))) = ascii_upper b.
Proof.
  intros Hb. pose proof (byte_forall (fun b => lanes_ok 5 b && (b - upper_mask 5 b =? ascii_upper b) &&
    (0 <=? ascii_upper b) && (ascii_upper b <? 256) && (u8 (switch_toupper (u32 (schar b))) =? ascii_upper b))
    ltac:(vm_compute; reflexivity) b Hb) as H.
  cbv beta in H. rewrite !andb_true_iff, !Z.eqb_eq, Z.leb_le, Z.ltb_lt in H. unfold byte. tauto.
Qed.
Lemma lanes_lower b : byte b -> lanes_ok 0x25 b = true /\ b + upper_mask 0x25 b = ascii_lower b /\ byte (ascii_lower b) /\
  u8 (switch_tolower (u32 (schar b))) = ascii_lower b.
Proof.
  intros Hb. pose proof (byte_forall (fun b => lanes_ok 0x25 b && (b + upper_mask 0x25 b =? ascii_lower b) &&
    (0 <=? ascii_lower b) && (ascii_lower b <? 256) && (u8 (switch_tolower (u32 (schar b))) =? ascii_lower b))
    ltac:(vm_compute; reflexivity) b Hb) as H.
  cbv beta in H. rewrite !andb_true_iff, !Z.eqb_eq, Z.leb_le, Z.ltb_lt in H. unfold byte. tauto.
Qed.

Lemma bytes_of_word bs : Forall byte bs -> bytes_of (length bs) (word_of bs) = bs.
Proof.
  induction 1 as [|b l Hb _ IH]; [done|]. unfold byte in Hb. cbn [length bytes_of word_of foldr].
  fold (word_of l). rewrite (Z.mul_comm 256), Z.mod_add, Z.div_add, Z.mod_small, Z.div_small by lia.
  by rewrite Z.add_0_l, IH.
Qed.

Lemma case_max_spec conv64 conv f : (forall b, byte b -> u8 (conv (u32 (schar b))) = f b /\ byte (f b)) ->
  (forall bs, Forall byte bs -> length bs = 8%nat -> conv64 (word_of bs) = word_of (map f bs)) ->
  forall fuel s, Forall byte s -> (length s <= fuel)%nat -> case_max fuel conv64 conv s = map f s.
Proof.
  intros Hc H64. induction fuel as [|fuel IH]; intros s Hs Hf.
  - destruct s; [done|simpl in Hf; lia].
  - cbn [case_max]. rewrite Z.gtb_ltb. destruct (Z.ltb_spec 8 (zlen s)) as [Hl|Hl]; unfold zlen in Hl.
    + pose proof (Forall_take _ 8 _ Hs) as Ht. pose proof (Forall_drop _ 8 _ Hs) as Hd.
      assert (El : length (take 8 s) = 8%nat) by (rewrite length_take; lia).
      rewrite H64 by done. rewrite IH by (done || (rewrite length_drop; lia)).
      replace 8%nat with (length (map f (take 8 s))) at 1 by (by rewrite length_map).
      rewrite bytes_of_word; [by rewrite <- map_app, take_drop|].
      apply Forall_map. eapply Forall_impl; [exact Ht|]. intros b Hb. cbn. by apply Hc.
    + apply map_ext_in. intros b Hb%list_elem_of_In. apply Hc. rewrite Forall_forall in Hs. by apply Hs.
Qed.

(** Converting a text eight bytes at a time is converting each byte with the
    tables of the C locale: no carry leaves its lane, and bytes that are not
    letters, those above 127 included, stay. *)
Theorem case_lanes_bytewise (s : list Z) :
  Forall byte s ->
  switch_toupper_max s = map ascii_upper s /\ switch_tolower_max s = map ascii_lower s.
Proof.
  intros Hs. split; (apply case_max_spec; [|intros bs Hbs Hl|done|lia]).
  - intros b Hb. by destruct (lanes_upper b Hb) as (_ & _ & ? & ?).
  - assert (Hz : zlen bs = 8) by (unfold zlen; lia).
    pose proof (mask64 5 bs Hbs Hz (fun b Hb => proj1 (lanes_upper b Hb))) as H. cbv zeta in H.
    replace (word_of (map (fun _ => 5) bs)) with 0x0505050505050505 in H
      by (do 9 (destruct bs as [|? bs]; try done); reflexivity).
    unfold switch_toupper64. cbv zeta. rewrite H. rewrite <- (map_id bs) at 1. rewrite W_sub.
    rewrite W_u64; [|done|intros b Hb; unfold id; destruct (lanes_upper b Hb) as (_ & -> & ? & _); done|done].
    apply (W_ext bs Hbs). intros b Hb. by destruct (lanes_upper b Hb) as (_ & ? & _).
  - intros b Hb. by destruct (lanes_lower b Hb) as (_ & _ & ? & ?).
  - assert (Hz : zlen bs = 8) by (unfold zlen; lia).
    pose proof (mask64 0x25 bs Hbs Hz (fun b Hb => proj1 (lanes_lower b Hb))) as H. cbv zeta in H.
    replace (word_of (map (fun _ => 0x25) bs)) with 0x2525252525252525 in H
      by (do 9 (destruct bs as [|? bs]; try done); reflexivity).
    unfold switch_tolower64. cbv zeta. rewrite H. rewrite <- (map_id bs) at 1. rewrite W_add.
    rewrite W_u64; [|done|intros b Hb; unfold id; destruct (lanes_lower b Hb) as (_ & -> & ? & _); done|done].
    apply (W_ext bs Hbs). intros b Hb. by destruct (lanes_lower b Hb) as (_ & ? & _).
Qed.

Lemma case_lanes_bytewise_witness :
  switch_toupper_max [104; 233; 108; 108; 111; 44; 32; 119; 111; 114; 91] = map ascii_upper [104; 233; 108; 108; 111; 44; 32; 119; 111; 114; 91] /\
  switch_tolower_max [104; 233; 108; 108; 111; 44; 32; 119; 111; 114; 91] = map ascii_lower [104; 233; 108; 108; 111; 44; 32; 119; 111; 114; 91].
Proof.
  apply (case_lanes_bytewise [104; 233; 108; 108; 111; 44; 32; 119; 111; 114; 91]).
  repeat (apply Forall_cons; split; [unfold byte; lia|]). by apply Forall_nil.
Defined.
