(* ===== verification/NetList.v ===== *)
(** * NetList: network lists (access control) of src/switch_utils.c

    An address is the union [ip_t]: sixteen bytes of which the first four are the
    IPv4 address, a [uint32_t] in host order on a little-endian machine.
    [inet_pton] for IPv4 is modelled; for IPv6 it is a parameter.  Where the code
    goes on with an address that [inet_pton] did not write, the result is
    undefined. *)
From S2P Require Import Prelude HashTable CoreHash UrlCode Separate TextUtil CaseLanes.
From Stdlib Require Import ZArith Lia.
From stdpp Require Import base numbers option list strings.

Local Open Scope Z_scope.

(** ** Data *)
Definition ip_t : Type := list Z.
Definition v4 (ip : ip_t) : Z := word_of (take 4 ip).
(** The union with [v4] set in a block of zeros. *)
Definition of_v4 (w : Z) : ip_t := bytes_of 4 w ++ replicate 12 0.

Definition AF_INET : Z := 2.
Definition AF_INET6 : Z := 10.
Definition MAX_NETWORK_PORTS : nat := 10.

Record switch_network_port_range := {
  port : Z;
  ports : list Z;
  min_port : Z;
  max_port : Z
}.
Definition no_ports : switch_network_port_range :=
  {| port := 0; ports := replicate MAX_NETWORK_PORTS 0; min_port := 0; max_port := 0 |}.

Record switch_network_node := {
  nd_ip : ip_t;
  nd_mask : ip_t;
  nd_bits : Z;
  nd_family : Z;
  nd_ok : bool;
  nd_token : option (list Z);
  nd_str : list Z;
  nd_ports : switch_network_port_range
}.
Record switch_network_list := {
  node_head : list switch_network_node;
  default_type : bool;
  list_name : list Z
}.
Definition switch_network_list_create (name : list Z) (dflt : bool) : switch_network_list :=
  {| node_head := []; default_type := dflt; list_name := name |}.
Definition push_node (l : switch_network_list) (n : switch_network_node) : switch_network_list :=
  {| node_head := n :: node_head l; default_type := default_type l; list_name := list_name l |}.

(** ** Tests *)
(** [switch_test_subnet] of include/switch_utils.h *)
Definition switch_test_subnet (ip net mask : Z) : bool :=
  if negb (mask =? 0) then Z.land net mask =? Z.land ip mask
  else if negb (net =? 0) then net =? ip else true.

Definition unspecified (ip : ip_t) : bool := forallb (Z.eqb 0) ip.
Definition in6_and_mask (ip mask : ip_t) : ip_t := zip_with Z.land ip mask.
Definition switch_testv6_subnet (ip net mask : ip_t) : bool :=
  if negb (unspecified mask) then bool_decide (in6_and_mask net mask = in6_and_mask ip mask)
  else if negb (unspecified net) then bool_decide (net = ip) else true.

Fixpoint port_listed (p : Z) (l : list Z) : bool :=
  match l with [] => false | x :: l => if x =? 0 then false else (p =? x) || port_listed p l end.
Definition is_port_in_node (p : Z) (r : switch_network_port_range) : bool :=
  if p =? 0 then true
  else if negb (port r =? 0) && negb (port r =? p) then false
  else if negb (default 0 (head (ports r)) =? 0) then port_listed p (take MAX_NETWORK_PORTS (ports r))
  else if negb (min_port r =? 0) || negb (max_port r =? 0) then (min_port r <=? p) && (p <=? max_port r)
  else true.

(** ** Validation *)
(** The verdict and the token of the rule that gave it. *)
Fixpoint validate_loop (matches : switch_network_node -> bool) (nodes : list switch_network_node) (bits : Z) (ok : bool)
  (token : option (list Z)) : bool * option (list Z) :=
  match nodes with
  | [] => (ok, token)
  | n :: nodes =>
    if (bits <=? nd_bits n) && matches n then validate_loop matches nodes (nd_bits n) (nd_ok n) (nd_token n)
    else validate_loop matches nodes bits ok token
  end.
Definition matches_ip (ip p : Z) (n : switch_network_node) : bool :=
  negb (nd_family n =? AF_INET6) && switch_test_subnet ip (v4 (nd_ip n)) (v4 (nd_mask n)) && is_port_in_node p (nd_ports n).
Definition matches_ip6 (ip : ip_t) (n : switch_network_node) : bool :=
  negb (nd_family n =? AF_INET) && switch_testv6_subnet ip (nd_ip n) (nd_mask n).
Definition switch_network_list_validate_ip_port_token (l : switch_network_list) (ip p : Z) : bool * option (list Z) :=
  validate_loop (matches_ip ip p) (node_head l) 0 (default_type l) None.
(** The port is not looked at. *)
Definition switch_network_list_validate_ip6_port_token (l : switch_network_list) (ip : ip_t) (p : Z) : bool * option (list Z) :=
  validate_loop (matches_ip6 ip) (node_head l) 0 (default_type l) None.
Definition switch_network_list_validate_ip_token (l : switch_network_list) (ip : Z) : bool * option (list Z) :=
  switch_network_list_validate_ip_port_token l ip 0.
Definition switch_network_list_validate_ip6_token (l : switch_network_list) (ip : ip_t) : bool * option (list Z) :=
  switch_network_list_validate_ip6_port_token l ip 0.

(** ** Library routines *)
(** [inet_pton(AF_INET)]: four decimal numbers up to 255 without leading zeros. *)
Fixpoint dotted (s : list Z) (octet : option Z) (n acc : Z) : option Z :=
  match s with
  | [] => match octet with Some v => if n =? 4 then Some (acc * 256 + v) else None | None => None end
  | c :: s =>
    if (48 <=? c) && (c <=? 57) then
      match octet with
      | None => if n =? 4 then None else dotted s (Some (c - 48)) (n + 1) acc
      | Some v =>
        if (v =? 0) || (v * 10 + (c - 48) >? 255) then None else dotted s (Some (v * 10 + (c - 48))) n acc
      end
    else if c =? 46 then
      match octet with Some v => if n =? 4 then None else dotted s None n (acc * 256 + v) | None => None end
    else None
  end.
Definition inet_pton4 (s : list Z) : option Z := dotted s None 0 0.

(** [atoi]: blanks, a sign, digits; the value is that of [strtol], cut to [int]. *)
Fixpoint digits_value (s : list Z) (v : Z) : Z :=
  match s with c :: s => if (48 <=? c) && (c <=? 57) then digits_value s (v * 10 + (c - 48)) else v | [] => v end.
Definition clamp64 (v : Z) : Z := Z.max (- 9223372036854775808) (Z.min 9223372036854775807 v).
Definition atoi (s : list Z) : Z :=
  match skip_front isspace s with
  | c :: r =>
    if c =? 45 then i32 (clamp64 (- digits_value r 0))
    else if c =? 43 then i32 (clamp64 (digits_value r 0)) else i32 (clamp64 (digits_value (c :: r) 0))
  | [] => 0
  end.

Section Lists.
(** [inet_pton(AF_INET6)]: the sixteen bytes written. *)
Context (inet_pton6 : list Z -> option ip_t).

(** ** Parsing *)
(** A shift of an [unsigned int]: undefined from its width on, which [/32] leads to. *)
Definition shift_right32 (x n : Z) : res Z := if (0 <=? n) && (n <? 32) then Ret (Z.shiftr x n) else Ub.
Definition mask4 (bits : Z) : res Z :=
  host <-! shift_right32 0xFFFFFFFF bits;; Ret (Z.land 0xFFFFFFFF (u32 (Z.lnot host))).
Fixpoint mask6 (i : nat) (n : Z) : list Z :=
  match i with
  | O => []
  | S i => if n >=? 8 then 0xFF :: mask6 i (n - 8) else Z.land 0xFF (Z.lnot (Z.shiftr 0xFF n)) :: mask6 i (n - n)
  end.

(** The negative result, or address, mask and bits. *)
Definition switch_parse_cidr (string : list Z) : res (Z + ip_t * ip_t * Z) :=
  let host := take 126 string in
  match split_at 47 host with
  | None => Ret (inl (-1))
  | Some (host, bit_str) =>
    let bits := atoi bit_str in
    if existsb (Z.eqb 58) string then
      if (bits <? 0) || (bits >? 128) then Ret (inl (-2))
      else ip <-! or_ub (inet_pton6 host);; Ret (inr (ip, mask6 16 bits, bits))
    else if (bits <? 0) || (bits >? 32) then Ret (inl (-2))
    else ip <-! or_ub (inet_pton4 host);; mask <-! mask4 bits;; Ret (inr (of_v4 ip, of_v4 mask, bits))
  end.

Definition switch_network_ipv4_mapped_ipv6_addr (ip_str : list Z) : option (list Z) :=
  if bool_decide (map ascii_lower (take 7 ip_str) = text "::ffff:") then Some (drop 7 ip_str) else None.

(** ** Adding rules *)
Definition switch_network_list_perform_add_cidr_token (l : switch_network_list) (cidr_str : list Z) (ok : bool)
  (token : option (list Z)) (p : option switch_network_port_range) : res (switch_network_list * switch_status) :=
  let cidr_str := default cidr_str (switch_network_ipv4_mapped_ipv6_addr cidr_str) in
  r <-! switch_parse_cidr cidr_str;;
  match r with
  | inl _ => Ret (l, SWITCH_STATUS_GENERR)
  | inr (ip, mask, bits) =>
    let node := {| nd_ip := ip; nd_mask := mask; nd_bits := bits;
      nd_family := if existsb (Z.eqb 58) cidr_str then AF_INET6 else AF_INET; nd_ok := ok;
      nd_token := match token with Some (c :: t) => Some (c :: t) | _ => None end;
      nd_str := cidr_str; nd_ports := default no_ports p |} in
    Ret (push_node l node, SWITCH_STATUS_SUCCESS)
  end.

Fixpoint add_each (l : switch_network_list) (argv : list (list Z)) (ok : bool) (token : option (list Z))
  (p : option switch_network_port_range) (status : switch_status) : res (switch_network_list * switch_status) :=
  match argv with
  | [] => Ret (l, status)
  | a :: argv =>
    '(l, this_status) <-! switch_network_list_perform_add_cidr_token l a ok token p;;
    add_each l argv ok token p (if bool_decide (this_status = SWITCH_STATUS_SUCCESS) then status else this_status)
  end.
Definition switch_network_list_add_cidr_port_token (l : switch_network_list) (cidr_str : list Z) (ok : bool)
  (token : option (list Z)) (p : option switch_network_port_range) : res (switch_network_list * switch_status) :=
  if existsb (Z.eqb 44) cidr_str then
    argv <-! switch_separate_string cidr_str 44 32;;
    add_each l argv ok token p SWITCH_STATUS_SUCCESS
  else switch_network_list_perform_add_cidr_token l cidr_str ok token p.
Definition switch_network_list_add_cidr_token (l : switch_network_list) (cidr_str : list Z) (ok : bool)
  (token : option (list Z)) : res (switch_network_list * switch_status) :=
  switch_network_list_add_cidr_port_token l cidr_str ok token None.
End Lists.

(** The bits set in a word, counted in parallel. *)
Definition count_bits (m : Z) : Z :=
  let m := u32 (m - Z.land (Z.shiftr m 1) 0x55555555) in
  let m := u32 (Z.land m 0x33333333 + Z.land (Z.shiftr m 2) 0x33333333) in
  Z.shiftr (u32 (Z.land (u32 (m + Z.shiftr m 4)) 0xF0F0F0F * 0x1010101)) 24.
Definition ntohl (w : Z) : Z := word_of (rev (bytes_of 4 w)).
(** [ip] and [mask] as [inet_pton] leaves them are in network order; the family of
    the node stays 0. *)
Definition switch_network_list_add_host_port_mask (l : switch_network_list) (host mask_str : list Z) (ok : bool)
  (p : option switch_network_port_range) : res (switch_network_list * switch_status) :=
  ip <-! or_ub (inet_pton4 host);;
  m <-! or_ub (inet_pton4 mask_str);;
  let ip := ntohl ip in
  let m := ntohl m in
  let node := {| nd_ip := of_v4 (ntohl ip); nd_mask := of_v4 (ntohl m); nd_bits := count_bits m; nd_family := 0; nd_ok := ok;
    nd_token := None; nd_str := host ++ 58 :: mask_str; nd_ports := default no_ports p |} in
  Ret (push_node l node, SWITCH_STATUS_SUCCESS).
Definition switch_network_list_add_host_mask (l : switch_network_list) (host mask_str : list Z) (ok : bool)
  : res (switch_network_list * switch_status) :=
  switch_network_list_add_host_port_mask l host mask_str ok None.

Example pton1 : inet_pton4 (text "192.168.1.20") = Some (192 * 2 ^ 24 + 168 * 2 ^ 16 + 256 + 20).
Proof. reflexivity. Qed.
Example pton2 : inet_pton4 (text "192.168.1") = None /\ inet_pton4 (text "1.2.3.256") = None /\ inet_pton4 (text "1.2.3.04") = None.
Proof. done. Qed.
Example bits1 : count_bits (ntohl (255 * 2 ^ 24 + 240 * 2 ^ 16)) = 12.
Proof. reflexivity. Qed.

(** ** The most specific rule *)
(** [n] gives the verdict among [nodes]: it matches, no rule before it in the list
    that matches is more specific, and every matching rule behind it, that is,
    added earlier, is less specific. *)
Definition decides (m : switch_network_node -> bool) (nodes : list switch_network_node) (n : switch_network_node) : Prop :=
  exists l1 l2, nodes = l1 ++ n :: l2 /\ m n = true /\
    Forall (fun x => m x = true -> nd_bits x <= nd_bits n) l1 /\
    Forall (fun x => m x = true -> nd_bits x < nd_bits n) l2.

Lemma validate_loop_spec m nodes : forall bits ok token,
  (exists n, decides m nodes n /\ bits <= nd_bits n /\ validate_loop m nodes bits ok token = (nd_ok n, nd_token n)) \/
  (Forall (fun x => m x = true -> nd_bits x < bits) nodes /\ validate_loop m nodes bits ok token = (ok, token)).
Proof.
  induction nodes as [|x nodes IH]; intros bits ok token; cbn [validate_loop]; [by right|].
  destruct (Z.leb_spec bits (nd_bits x)) as [Hb|Hb]; cbn [andb]; [destruct (m x) eqn:Em|].
  - left. destruct (IH (nd_bits x) (nd_ok x) (nd_token x)) as [(n & (l1 & l2 & -> & Hn & H1 & H2) & Hge & ->)|[Hall ->]].
    + exists n. split_and!; [|lia|done]. exists (x :: l1), l2. split_and!; [done|done| |done]. apply Forall_cons. by split; [lia|].
    + exists x. split_and!; [|done|done]. exists [], nodes. by split_and!.
  - destruct (IH bits ok token) as [(n & (l1 & l2 & -> & Hn & H1 & H2) & Hge & ->)|[Hall ->]].
    + left. exists n. split_and!; [|lia|done]. exists (x :: l1), l2. split_and!; [done|done| |done]. apply Forall_cons. split; [congruence|done].
    + right. split; [|done]. apply Forall_cons. split; [congruence|done].
  - destruct (IH bits ok token) as [(n & (l1 & l2 & -> & Hn & H1 & H2) & Hge & ->)|[Hall ->]].
    + left. exists n. split_and!; [|lia|done]. exists (x :: l1), l2. split_and!; [done|done| |done].
      apply Forall_cons. split; [lia|done].
    + right. split; [|done]. apply Forall_cons. split; [lia|done].
Qed.

(** C5: an address gets the verdict and the token of the most specific rule that
    matches address and port, of equally specific ones that of the rule added
    first, and the default of the list exactly when none matches. *)
Theorem acl_most_specific_rule (l : switch_network_list) (ip p : Z) :
  Forall (fun n => 0 <= nd_bits n) (node_head l) ->
  (exists n, decides (matches_ip ip p) (node_head l) n /\
     switch_network_list_validate_ip_port_token l ip p = (nd_ok n, nd_token n)) \/
  (Forall (fun n => matches_ip ip p n = false) (node_head l) /\
     switch_network_list_validate_ip_port_token l ip p = (default_type l, None)).
Proof.
  intros Hbits. unfold switch_network_list_validate_ip_port_token.
  destruct (validate_loop_spec (matches_ip ip p) (node_head l) 0 (default_type l) None) as [(n & Hn & _ & ->)|[Hall ->]].
  - left. by exists n.
  - right. split; [|done]. rewrite Forall_forall in Hall, Hbits |- *. intros n Hin.
    specialize (Hall n Hin). specialize (Hbits n Hin). destruct (matches_ip ip p n); [|done]. specialize (Hall eq_refl). lia.
Qed.

(** ** Prefixes *)
Definition prefix_mask (bits : Z) : Z := Z.land (Z.ones 32) (Z.lnot (Z.ones (32 - bits))).
Lemma mask4_ones bits : 0 <= bits < 32 -> mask4 bits = Ret (prefix_mask bits).
Proof.
  intros Hb. unfold mask4, shift_right32, prefix_mask. rewrite (proj2 (Z.leb_le _ _)), (proj2 (Z.ltb_lt _ _)) by lia.
  cbn [andb rbind]. f_equal. change 0xFFFFFFFF with (Z.ones 32). unfold u32. change 4294967296 with (2 ^ 32).
  rewrite <- Z.land_ones, (Z.land_comm (Z.lnot _)), Z.land_assoc, Z.land_diag by lia. do 2 f_equal.
  apply Z.bits_inj'. intros n Hn. rewrite Z.shiftr_spec, !Z.testbit_ones by lia.
  apply Bool.eq_iff_eq_true. rewrite !andb_true_iff, !Z.leb_le, !Z.ltb_lt. lia.
Qed.
Lemma prefix_mask_range bits : 0 <= prefix_mask bits < 2 ^ 32.
Proof.
  unfold prefix_mask. split; [apply Z.land_nonneg; left; done|].
  rewrite Z.land_comm, Z.land_ones by lia. apply Z.mod_pos_bound. lia.
Qed.
Lemma land_prefix x k : 0 <= x < 2 ^ 32 -> 0 <= k -> Z.land x (Z.land (Z.ones 32) (Z.lnot (Z.ones k))) = x / 2 ^ k * 2 ^ k.
Proof.
  intros Hx Hk. rewrite Z.land_assoc, Z.land_ones, Z.mod_small by lia.
  rewrite <- Z.ldiff_land, Z.ldiff_ones_r, Z.shiftl_mul_pow2, Z.shiftr_div_pow2 by done. done.
Qed.
(** The addresses a network of [bits] bits names; one of 0 bits that is not 0.0.0.0
    names only its own address. *)
Definition in_network (ip net bits : Z) : bool :=
  if (bits =? 0) && negb (net =? 0) then ip =? net else ip / 2 ^ (32 - bits) =? net / 2 ^ (32 - bits).
Lemma test_subnet_prefix ip net bits : 0 <= ip < 2 ^ 32 -> 0 <= net < 2 ^ 32 -> 0 <= bits < 32 ->
  switch_test_subnet ip net (prefix_mask bits) = in_network ip net bits.
Proof.
  intros Hip Hnet Hb. unfold switch_test_subnet, in_network, prefix_mask.
  destruct (Z.eqb_spec bits 0) as [->|Hn0]; cbn [andb].
  { change (Z.land (Z.ones 32) (Z.lnot (Z.ones (32 - 0)))) with 0. cbn [negb Z.eqb].
    destruct (Z.eqb_spec net 0) as [->|Hn]; cbn [negb]; [|apply Z.eqb_sym].
    by rewrite !Z.div_small by (change (32 - 0) with 32; lia). }
  assert (Hn32 : bits <> 32) by lia.
  assert (0 < 2 ^ (32 - bits)) by (apply Z.pow_pos_nonneg; lia).
  assert (Hm : Z.land (Z.ones 32) (Z.lnot (Z.ones (32 - bits))) <> 0).
  { intros E. assert (Hbit : Z.testbit (Z.land (Z.ones 32) (Z.lnot (Z.ones (32 - bits)))) 31 = true).
    { rewrite Z.land_spec, Z.lnot_spec, !Z.testbit_ones by lia. apply andb_true_iff. split; [done|].
      apply negb_true_iff, andb_false_iff. right. apply Z.ltb_ge. lia. }
    by rewrite E in Hbit. }
  rewrite (proj2 (Z.eqb_neq _ 0)) by done. cbn [negb]. rewrite !land_prefix by lia.
  apply Bool.eq_iff_eq_true. rewrite !Z.eqb_eq. nia.
Qed.

(** ** Addresses in their union *)
Lemma word_of_bytes n : forall w, word_of (bytes_of n w) = w mod 256 ^ Z.of_nat n.
Proof.
  induction n as [|n IH]; intros w; cbn [bytes_of word_of foldr]; [by rewrite Z.mod_1_r|].
  fold (word_of (bytes_of n (w / 256))). rewrite IH, Nat2Z.inj_succ, Z.pow_succ_r by lia.
  assert (0 < 256 ^ Z.of_nat n) by (apply Z.pow_pos_nonneg; lia). by rewrite Z.rem_mul_r by lia.
Qed.
Lemma v4_of_v4 w : 0 <= w < 2 ^ 32 -> v4 (of_v4 w) = w.
Proof.
  intros Hw. unfold v4, of_v4. change (take 4 (bytes_of 4 w ++ replicate 12 0)) with (bytes_of 4 w).
  rewrite word_of_bytes. change (256 ^ Z.of_nat 4) with (2 ^ 32). by apply Z.mod_small.
Qed.

Lemma dotted_spec s : forall octet n acc r, dotted s octet n acc = Some r ->
  Forall (fun c => 46 <= c <= 57 /\ c <> 47) s /\
  (0 <= n <= 4 -> match octet with Some v => 0 <= v < 256 /\ 1 <= n | None => True end ->
   0 <= acc < 256 ^ (match octet with Some _ => n - 1 | None => n end) -> 0 <= r < 2 ^ 32).
Proof.
  induction s as [|c s IH]; intros octet n acc r; cbn [dotted].
  - destruct octet as [v|]; [|done]. destruct (Z.eqb_spec n 4) as [->|]; [|done]. intros [= <-]. split; [done|].
    intros _ [Hv _] Ha. change (256 ^ (4 - 1)) with 16777216 in Ha. lia.
  - destruct ((48 <=? c) && (c <=? 57)) eqn:Ed.
    + apply andb_true_iff in Ed as [Ed1%Z.leb_le Ed2%Z.leb_le]. destruct octet as [v|].
      * destruct ((v =? 0) || _) eqn:Ev; [done|]. apply orb_false_iff in Ev as [Ev1%Z.eqb_neq Ev2]. rewrite Z.gtb_ltb, Z.ltb_ge in Ev2.
        intros H. apply IH in H as [H1 H2]. split; [apply Forall_cons; split; [lia|done]|].
        intros Hn [Hv Hn1] Ha. apply H2; [done|split; lia|done].
      * destruct (Z.eqb_spec n 4); [done|]. intros H. apply IH in H as [H1 H2]. split; [apply Forall_cons; split; [lia|done]|].
        intros Hn _ Ha. apply H2; [lia|split; lia|]. by replace (n + 1 - 1) with n by lia.
    + destruct (Z.eqb_spec c 46) as [->|]; [|done]. destruct octet as [v|]; [|done]. destruct (Z.eqb_spec n 4); [done|].
      intros H. apply IH in H as [H1 H2]. split; [apply Forall_cons; split; [lia|done]|].
      intros Hn [Hv Hn1] Ha. apply H2; [done|done|].
      assert (E : 256 ^ n = 256 * 256 ^ (n - 1)) by (rewrite <- Z.pow_succ_r by lia; f_equal; lia). lia.
Qed.
Lemma inet_pton4_spec s v : inet_pton4 s = Some v ->
  0 <= v < 2 ^ 32 /\ s <> [] /\ Forall (fun c => 46 <= c <= 57 /\ c <> 47) s.
Proof.
  unfold inet_pton4. intros H. pose proof (dotted_spec _ _ _ _ _ H) as [H1 H2].
  split; [apply H2; [lia|done|cbn; lia]|split; [by intros ->|done]].
Qed.

(** ** A rule for a prefix *)
Lemma existsb_not c s : c ∉ s -> existsb (Z.eqb c) s = false.
Proof.
  induction s as [|x s IH]; intros Hn; [done|]. apply not_elem_of_cons in Hn as [Hx Hn]. cbn [existsb].
  rewrite (proj2 (Z.eqb_neq c x)) by done. by rewrite IH.
Qed.

Section Rules.
Context (inet_pton6 : list Z -> option ip_t).

Lemma parse_cidr_v4 host bit_str net : inet_pton4 host = Some net -> 0 <= atoi bit_str <= 32 -> 58 ∉ bit_str ->
  (length (host ++ 47%Z :: bit_str) <= 126)%nat ->
  switch_parse_cidr inet_pton6 (host ++ 47 :: bit_str) =
    mask <-! mask4 (atoi bit_str);; Ret (inr (of_v4 net, of_v4 mask, atoi bit_str)).
Proof.
  intros Hp Hb Hc Hl. destruct (inet_pton4_spec _ _ Hp) as (_ & _ & Hs). rewrite Forall_forall in Hs.
  assert (Hnot : forall c, c = 47 \/ c > 57 -> c ∉ host) by (intros c Hx Hin; specialize (Hs c Hin); lia).
  unfold switch_parse_cidr. rewrite take_ge by done. rewrite split_at_app by (apply Hnot; auto).
  rewrite existsb_not by (rewrite elem_of_app, elem_of_cons; intros [H|[H|H]]; [by apply (Hnot 58); [lia|]|lia|done]).
  rewrite (proj2 (Z.ltb_ge _ 0)) by lia. rewrite Z.gtb_ltb, (proj2 (Z.ltb_ge 32 _)) by lia. cbn [orb].
  by rewrite Hp.
Qed.

(** The text of an IPv4 rule is taken as one rule, and not as a mapped address. *)
Lemma add_cidr_v4 l host bit_str net ok token p : inet_pton4 host = Some net -> 58 ∉ bit_str -> 44 ∉ bit_str ->
  (forall c, c = 58 \/ c = 44 -> existsb (Z.eqb c) (host ++ 47 :: bit_str) = false) /\
  switch_network_list_add_cidr_port_token inet_pton6 l (host ++ 47 :: bit_str) ok token p =
    r <-! switch_parse_cidr inet_pton6 (host ++ 47 :: bit_str);;
    match r with
    | inl _ => Ret (l, SWITCH_STATUS_GENERR)
    | inr (ip, mask, bits) =>
      Ret (push_node l {| nd_ip := ip; nd_mask := mask; nd_bits := bits; nd_family := AF_INET; nd_ok := ok;
        nd_token := match token with Some (c :: t) => Some (c :: t) | _ => None end;
        nd_str := host ++ 47 :: bit_str; nd_ports := default no_ports p |}, SWITCH_STATUS_SUCCESS)
    end.
Proof.
  intros Hp Hc58 Hc44. destruct (inet_pton4_spec _ _ Hp) as (_ & Hne & Hs). rewrite Forall_forall in Hs.
  assert (Hin : forall c, c = 58 \/ c = 44 -> existsb (Z.eqb c) (host ++ 47 :: bit_str) = false).
  { intros c Hx. apply existsb_not. rewrite elem_of_app, elem_of_cons.
    intros [H|[H|H]]; [specialize (Hs c H); lia|lia|by destruct Hx as [-> | ->]]. }
  split; [done|]. unfold switch_network_list_add_cidr_port_token. rewrite (Hin 44) by auto.
  unfold switch_network_list_perform_add_cidr_token.
  assert (Em : switch_network_ipv4_mapped_ipv6_addr (host ++ 47 :: bit_str) = None).
  { unfold switch_network_ipv4_mapped_ipv6_addr. rewrite bool_decide_false; [done|].
    destruct host as [|c h]; [done|]. cbn [app take map]. intros [= E _]. specialize (Hs c ltac:(by constructor)).
    unfold ascii_lower in E. rewrite (proj2 (Z.leb_gt 65 c)) in E by lia. cbn [andb] in E. cbv in E. lia. }
  rewrite Em. cbn [default from_option id]. by rewrite (Hin 58) by auto.
Qed.

(** C32: a rule [a.b.c.d/n] for an IPv4 network with [0 <= n < 32] (and at most 126
    characters) is taken and pushed in front of the list; it matches exactly the
    addresses that agree with the network in the first [n] bits, on the ports it
    names, and no IPv6 address; only, with 0 bits, a network other than 0.0.0.0
    matches its own address and no other.  For [n = 32] the mask is computed by a
    shift that C leaves undefined. *)
Theorem cidr_rule_matches_prefix (l : switch_network_list) (host bit_str : list Z) (net : Z) (ok : bool)
  (token : option (list Z)) (p : option switch_network_port_range) :
  let bits := atoi bit_str in
  inet_pton4 host = Some net -> 58 ∉ bit_str -> 44 ∉ bit_str -> (length (host ++ 47%Z :: bit_str) <= 126)%nat ->
  (0 <= bits < 32 ->
   exists n, switch_network_list_add_cidr_port_token inet_pton6 l (host ++ 47 :: bit_str) ok token p =
      Ret (push_node l n, SWITCH_STATUS_SUCCESS) /\ nd_bits n = bits /\ nd_ok n = ok /\
    (forall ip q, 0 <= ip < 2 ^ 32 -> matches_ip ip q n =
       (if (bits =? 0) && negb (net =? 0) then ip =? net else ip / 2 ^ (32 - bits) =? net / 2 ^ (32 - bits))
       && is_port_in_node q (default no_ports p)) /\
    (forall ip6, matches_ip6 ip6 n = false)) /\
  (bits = 32 -> switch_network_list_add_cidr_port_token inet_pton6 l (host ++ 47 :: bit_str) ok token p = Ub).
Proof.
  intros bits Hp Hc58 Hc44 Hl. destruct (inet_pton4_spec _ _ Hp) as (Hnet & _ & _).
  destruct (add_cidr_v4 l host bit_str net ok token p Hp Hc58 Hc44) as [Hin ->]. fold bits. split; intros Hb.
  - rewrite (parse_cidr_v4 _ _ _ Hp), mask4_ones by (fold bits; done || lia). cbn [rbind]. fold bits.
    eexists. split; [reflexivity|]. split_and!; [done|done| |done].
    intros ip q Hip. unfold matches_ip. cbn [nd_family nd_ip nd_mask nd_ports].
    change (negb (AF_INET =? AF_INET6)) with true. cbn [andb].
    rewrite !v4_of_v4 by (done || apply prefix_mask_range). by rewrite test_subnet_prefix.
  - rewrite (parse_cidr_v4 _ _ _ Hp) by (fold bits; done || lia). fold bits. by rewrite Hb.
Qed.
End Rules.

(** What the two masks a machine may compute for a rule of 32 bits lead to: a network
    other than 0.0.0.0 names its own address under both; 0.0.0.0 names every address
    under the mask 0. *)
Theorem host_rule_machines (ip net mask : Z) : 0 <= ip < 2 ^ 32 -> 0 <= net < 2 ^ 32 -> mask = 0 \/ mask = 0xFFFFFFFF ->
  switch_test_subnet ip net mask = if (mask =? 0) && (net =? 0) then true else net =? ip.
Proof.
  intros Hip Hnet [-> | ->]; unfold switch_test_subnet; cbn [Z.eqb negb andb]; [by destruct (net =? 0)|].
  change 0xFFFFFFFF with (Z.ones 32). by rewrite !Z.land_ones, !Z.mod_small by lia.
Qed.

Lemma cidr_rule_matches_prefix_witness : exists n,
  switch_network_list_add_cidr_port_token (fun _ => None) (switch_network_list_create (text "lan") false)
      (text "10.1.0.0" ++ 47 :: text "16") true None None =
    Ret (push_node (switch_network_list_create (text "lan") false) n, SWITCH_STATUS_SUCCESS) /\ nd_bits n = 16 /\
  nd_ok n = true /\
  (forall ip q, 0 <= ip < 2 ^ 32 -> matches_ip ip q n =
     (ip / 2 ^ 16 =? (10 * 2 ^ 24 + 2 ^ 16) / 2 ^ 16) && is_port_in_node q (default no_ports None)) /\
  (forall ip6, matches_ip6 ip6 n = false).
Proof.
  refine (proj1 (cidr_rule_matches_prefix (fun _ => None) (switch_network_list_create (text "lan") false)
    (text "10.1.0.0") (text "16") (10 * 2 ^ 24 + 2 ^ 16) true None None _ _ _ _) _).
  - reflexivity.
  - apply (bool_decide_unpack _). vm_compute. exact I.
  - apply (bool_decide_unpack _). vm_compute. exact I.
  - vm_compute. lia.
  - vm_compute. by split.
Defined.

Lemma acl_most_specific_rule_witness :
  let l := push_node (push_node (switch_network_list_create [] false)
    {| nd_ip := of_v4 0; nd_mask := of_v4 0; nd_bits := 0; nd_family := AF_INET; nd_ok := true; nd_token := None; nd_str := []; nd_ports := no_ports |})
    {| nd_ip := of_v4 167772160; nd_mask := of_v4 4278190080; nd_bits := 8; nd_family := AF_INET; nd_ok := false; nd_token := None; nd_str := []; nd_ports := no_ports |} in
  switch_network_list_validate_ip_port_token l 167772161 0 = (false, None) /\
  ((exists n, decides (matches_ip 167772161 0) (node_head l) n /\
     switch_network_list_validate_ip_port_token l 167772161 0 = (nd_ok n, nd_token n)) \/
   (Forall (fun n => matches_ip 167772161 0 n = false) (node_head l) /\
     switch_network_list_validate_ip_port_token l 167772161 0 = (default_type l, None))).
Proof.
  cbv zeta. split; [vm_compute; reflexivity|]. apply acl_most_specific_rule.
  repeat (apply Forall_cons; split; [cbn; lia|]). by apply Forall_nil.
Defined.

(** ** Counting the bits of a mask *)
Fixpoint popcount (n : nat) (m : Z) : Z := match n with O => 0 | S n => m mod 2 + popcount n (m / 2) end.

Lemma popcount_app k : forall n a A, 0 <= a < 2 ^ Z.of_nat k -> popcount (k + n) (a + 2 ^ Z.of_nat k * A) = popcount k a + popcount n A.
Proof.
  induction k as [|k IH]; intros n a A Ha.
  - cbn [Nat.add popcount]. change (2 ^ Z.of_nat 0) with 1 in *. replace a with 0 by lia. by rewrite !Z.add_0_l, Z.mul_1_l.
  - cbn [Nat.add popcount]. rewrite Nat2Z.inj_succ, Z.pow_succ_r in * by lia.
    assert (0 < 2 ^ Z.of_nat k) by (apply Z.pow_pos_nonneg; lia).
    replace (a + 2 * 2 ^ Z.of_nat k * A) with (a + 2 ^ Z.of_nat k * A * 2) by lia.
    rewrite Z.mod_add, Z.div_add by lia. rewrite IH; [lia|].
    split; [apply Z.div_pos; lia|apply Z.div_lt_upper_bound; lia].
Qed.
Lemma popcount_word a b c d : byte a -> byte b -> byte c -> byte d ->
  popcount 32 (word_of [a; b; c; d]) = popcount 8 a + (popcount 8 b + (popcount 8 c + popcount 8 d)).
Proof.
  unfold byte. intros Ha Hb Hc Hd. cbn [word_of foldr].
  rewrite (popcount_app 8 24 a), (popcount_app 8 16 b), (popcount_app 8 8 c) by (cbn; lia).
  do 3 f_equal. f_equal. lia.
Qed.

(** The three steps on one byte: pairs, nibbles, and their sum. *)
Definition pairs (b : Z) : Z := b - Z.land (Z.shiftr b 1) 0x55.
Definition nibbles (b : Z) : Z := Z.land (pairs b) 0x33 + Z.land (Z.shiftr (pairs b) 2) 0x33.
Lemma byte_steps b : byte b -> byte (pairs b) /\ byte (nibbles b) /\ 0 <= nibbles b / 16 <= 4 /\ 0 <= nibbles b mod 16 <= 4 /\
  nibbles b mod 16 + nibbles b / 16 = popcount 8 b /\
  byte (Z.land (pairs b) 0x33) /\ byte (Z.land (Z.shiftr (pairs b) 2) 0x33) /\ byte (Z.land (Z.shiftr b 1) 0x55).
Proof.
  intros Hb. pose proof (byte_forall (fun b => let in_byte x := (0 <=? x) && (x <? 256) in
    in_byte (pairs b) && in_byte (nibbles b) && ((0 <=? nibbles b / 16) && (nibbles b / 16 <=? 4)) &&
    ((0 <=? nibbles b mod 16) && (nibbles b mod 16 <=? 4)) && (nibbles b mod 16 + nibbles b / 16 =? popcount 8 b) &&
    in_byte (Z.land (pairs b) 0x33) && in_byte (Z.land (Z.shiftr (pairs b) 2) 0x33) && in_byte (Z.land (Z.shiftr b 1) 0x55))
    ltac:(vm_compute; reflexivity) b Hb) as H.
  cbv beta zeta in H. rewrite !andb_true_iff, !Z.leb_le, !Z.ltb_lt, Z.eqb_eq in H. unfold byte. tauto.
Qed.

(** A word of four nibble pairs: the fold and the multiplication add them up. *)
Lemma fold_nibbles a b c d : (forall x, x = a \/ x = b \/ x = c \/ x = d -> 0 <= x / 16 <= 4 /\ 0 <= x mod 16 <= 4) ->
  let m := word_of [a; b; c; d] in
  Z.shiftr (u32 (Z.land (u32 (m + Z.shiftr m 4)) 0xF0F0F0F * 0x1010101)) 24 =
  (a mod 16 + a / 16) + (b mod 16 + b / 16) + (c mod 16 + c / 16) + (d mod 16 + d / 16).
Proof.
  intros H. cbv zeta.
  pose proof (H a ltac:(auto)) as [Ha1 Ha2]. pose proof (H b ltac:(auto)) as [Hb1 Hb2].
  pose proof (H c ltac:(auto)) as [Hc1 Hc2]. pose proof (H d ltac:(auto)) as [Hd1 Hd2]. clear H.
  pose proof (Z.div_mod a 16 ltac:(lia)) as Ea. pose proof (Z.div_mod b 16 ltac:(lia)) as Eb.
  pose proof (Z.div_mod c 16 ltac:(lia)) as Ec. pose proof (Z.div_mod d 16 ltac:(lia)) as Ed.
  set (a1 := a / 16) in *. set (a0 := a mod 16) in *. set (b1 := b / 16) in *. set (b0 := b mod 16) in *.
  set (c1 := c / 16) in *. set (c0 := c mod 16) in *. set (d1 := d / 16) in *. set (d0 := d mod 16) in *.
  clearbody a0 a1 b0 b1 c0 c1 d0 d1. subst a b c d.
  assert (E : word_of [16 * a1 + a0; 16 * b1 + b0; 16 * c1 + c0; 16 * d1 + d0] +
    Z.shiftr (word_of [16 * a1 + a0; 16 * b1 + b0; 16 * c1 + c0; 16 * d1 + d0]) 4 =
    word_of [a0 + a1 + 16 * (a1 + b0); b0 + b1 + 16 * (b1 + c0); c0 + c1 + 16 * (c1 + d0); d0 + d1 + 16 * d1]).
  { rewrite Z.shiftr_div_pow2 by lia. change (2 ^ 4) with 16. cbn [word_of foldr].
    match goal with |- ?x + ?y / 16 = _ => replace y with (a0 + (a1 + 16 * (16 * b1 + b0) + 4096 * (16 * c1 + c0) + 1048576 * (16 * d1 + d0)) * 16) by lia end.
    rewrite Z.div_add, Z.div_small by lia. lia. }
  rewrite E, (u32_small (word_of _)) by (cbn [word_of foldr]; lia).
  assert (El : Z.land (word_of [a0 + a1 + 16 * (a1 + b0); b0 + b1 + 16 * (b1 + c0); c0 + c1 + 16 * (c1 + d0); d0 + d1 + 16 * d1]) 0xF0F0F0F
    = word_of [a0 + a1; b0 + b1; c0 + c1; d0 + d1]).
  { assert (Hn : forall x y, 0 <= x <= 8 -> Z.land (x + 16 * y) 15 = x).
    { intros x y Hx. change 15 with (Z.ones 4). rewrite Z.land_ones by lia. change (2 ^ 4) with 16.
      rewrite (Z.mul_comm 16), Z.mod_add by lia. apply Z.mod_small. lia. }
    change 0xF0F0F0F with (15 + 256 * (15 + 256 * (15 + 256 * (15 + 256 * 0)))). cbn [word_of foldr].
    rewrite !land_lane by (unfold byte; lia). rewrite !Hn by lia. by rewrite Z.land_0_r. }
  rewrite El. cbn [word_of foldr]. rewrite Z.shiftr_div_pow2 by lia. change (2 ^ 24) with 16777216. unfold u32.
  set (p := a0 + a1) in *. set (q := b0 + b1) in *. set (r := c0 + c1) in *. set (t := d0 + d1) in *.
  assert (0 <= p <= 8 /\ 0 <= q <= 8 /\ 0 <= r <= 8 /\ 0 <= t <= 8) by (unfold p, q, r, t; lia). clearbody p q r t.
  replace ((p + 256 * (q + 256 * (r + 256 * (t + 256 * 0)))) * 0x1010101) with
    (p + 256 * (p + q) + 65536 * (p + q + r) + 16777216 * (p + q + r + t) + ((q + r + t) + 256 * (r + t) + 65536 * t) * 4294967296) by lia.
  rewrite Z.mod_add, Z.mod_small by lia.
  replace (p + 256 * (p + q) + 65536 * (p + q + r) + 16777216 * (p + q + r + t)) with
    (p + 256 * (p + q) + 65536 * (p + q + r) + (p + q + r + t) * 16777216) by lia.
  rewrite Z.div_add, Z.div_small by lia. lia.
Qed.

Lemma count_bits_word a b c d : byte a -> byte b -> byte c -> byte d ->
  count_bits (word_of [a; b; c; d]) = popcount 32 (word_of [a; b; c; d]).
Proof.
  intros Ha Hb Hc Hd. rewrite popcount_word by done.
  assert (Hbs : Forall byte [a; b; c; d]) by (repeat (apply Forall_cons; split; [done|]); by apply Forall_nil).
  assert (Hk : forall k, 0 <= k < 256 -> bytewise (fun _ => k)) by (intros k Hk x _; exact Hk).
  assert (Hu : forall f, bytewise f -> u32 (word_of (map f [a; b; c; d])) = word_of (map f [a; b; c; d])).
  { intros f Hf. apply u32_small. exact (W_range _ Hbs f Hf). }
  unfold count_bits. cbv zeta.
  assert (E1 : u32 (word_of [a; b; c; d] - Z.land (Z.shiftr (word_of [a; b; c; d]) 1) 0x55555555) = word_of (map pairs [a; b; c; d])).
  { change 0x55555555 with (word_of (map (fun _ => 0x55) [a; b; c; d])).
    change (word_of [a; b; c; d]) with (word_of (map id [a; b; c; d])).
    rewrite (W_shift 1 0x55 _ ltac:(lia) ltac:(done) Hbs id) by (intros x Hx; exact Hx). rewrite W_sub.
    apply (Hu (fun b => id b - Z.land (Z.shiftr (id b) 1) 0x55)). intros x Hx. by apply byte_steps. }
  rewrite E1.
  assert (E2 : u32 (Z.land (word_of (map pairs [a; b; c; d])) 0x33333333 +
    Z.land (Z.shiftr (word_of (map pairs [a; b; c; d])) 2) 0x33333333) = word_of (map nibbles [a; b; c; d])).
  { change 0x33333333 with (word_of (map (fun _ => 0x33) [a; b; c; d])).
    rewrite (W_shift 2 0x33 _ ltac:(lia) ltac:(done) Hbs pairs) by (intros x Hx; by apply byte_steps).
    rewrite (W_land _ Hbs pairs) by first [exact (Hk 0x33 ltac:(lia))|intros x Hx; by apply byte_steps]. rewrite W_add.
    apply (Hu nibbles). intros x Hx. by apply byte_steps. }
  rewrite E2. cbn [map]. rewrite fold_nibbles.
  - destruct (byte_steps a Ha) as (_ & _ & _ & _ & Ea & _), (byte_steps b Hb) as (_ & _ & _ & _ & Eb & _),
      (byte_steps c Hc) as (_ & _ & _ & _ & Ec & _), (byte_steps d Hd) as (_ & _ & _ & _ & Ed & _).
    rewrite Ea, Eb, Ec, Ed. lia.
  - intros x [-> | [-> | [-> | ->]]]; split; by apply byte_steps.
Qed.

Lemma bytes_of_4 w : bytes_of 4 w = [w mod 256; w / 256 mod 256; w / 256 / 256 mod 256; w / 256 / 256 / 256 mod 256].
Proof. done. Qed.
Lemma word_of_rev w : 0 <= w < 2 ^ 32 ->
  exists a b c d, byte a /\ byte b /\ byte c /\ byte d /\ w = word_of [a; b; c; d] /\ ntohl w = word_of [d; c; b; a].
Proof.
  intros Hw. unfold ntohl. rewrite bytes_of_4. cbn [rev app].
  eexists _, _, _, _. assert (Hm : forall x, byte (x mod 256)) by (intros x; apply Z.mod_pos_bound; lia).
  split_and!; [| | | | |reflexivity]; try apply Hm.
  rewrite <- bytes_of_4, word_of_bytes. symmetry. by apply Z.mod_small.
Qed.
Lemma ntohl_range w : 0 <= w < 2 ^ 32 -> 0 <= ntohl w < 2 ^ 32 /\ ntohl (ntohl w) = w.
Proof.
  intros Hw. destruct (word_of_rev w Hw) as (a & b & c & d & Ha & Hb & Hc & Hd & -> & ->). unfold byte in *.
  split; [cbn [word_of foldr]; lia|]. unfold ntohl.
  assert (E : bytes_of 4 (word_of [d; c; b; a]) = [d; c; b; a]).
  { apply (bytes_of_word [d; c; b; a]). repeat (apply Forall_cons; split; [unfold byte; lia|]). by apply Forall_nil. }
  by rewrite E.
Qed.

(** A rule given by address and mask counts the bits of the mask in parallel
    correctly, whatever the mask, and matches the addresses that agree with the
    network under a mask that is not zero. *)
Theorem host_mask_rule (l : switch_network_list) (host mask_str : list Z) (net mask : Z) (ok : bool) :
  inet_pton4 host = Some net -> inet_pton4 mask_str = Some mask ->
  exists n, switch_network_list_add_host_mask l host mask_str ok = Ret (push_node l n, SWITCH_STATUS_SUCCESS) /\
    nd_bits n = popcount 32 mask /\ nd_ok n = ok /\
    (mask <> 0 -> forall ip q, matches_ip ip q n = (Z.land net mask =? Z.land ip mask)).
Proof.
  intros Hp Hm. destruct (inet_pton4_spec _ _ Hp) as (Hnet & _ & _). destruct (inet_pton4_spec _ _ Hm) as (Hmask & _ & _).
  unfold switch_network_list_add_host_mask, switch_network_list_add_host_port_mask. rewrite Hp, Hm. cbn [or_ub rbind].
  destruct (ntohl_range net Hnet) as [_ ->]. destruct (ntohl_range mask Hmask) as [Hr ->].
  eexists. split; [reflexivity|]. cbn [nd_bits nd_ok]. split_and!; [|done|].
  - destruct (word_of_rev mask Hmask) as (a & b & c & d & Ha & Hb & Hc & Hd & Ew & ->). rewrite Ew.
    rewrite count_bits_word by done. rewrite !popcount_word by done. lia.
  - intros Hne ip q. unfold matches_ip. cbn [nd_family nd_ip nd_mask nd_ports]. rewrite !v4_of_v4 by done.
    unfold switch_test_subnet. rewrite (proj2 (Z.eqb_neq mask 0)) by done. cbn [negb].
    change (negb (0 =? AF_INET6)) with true. cbn [andb]. unfold is_port_in_node. cbn.
    destruct (q =? 0); by rewrite andb_true_r.
Qed.

Lemma host_mask_rule_witness : exists n,
  switch_network_list_add_host_mask (switch_network_list_create [] false) (text "10.0.0.0") (text "255.240.0.0") true =
    Ret (push_node (switch_network_list_create [] false) n, SWITCH_STATUS_SUCCESS) /\
  nd_bits n = popcount 32 4293918720 /\ nd_ok n = true /\
  (4293918720 <> 0 -> forall ip q, matches_ip ip q n = (Z.land 167772160 4293918720 =? Z.land ip 4293918720)).
Proof. apply (host_mask_rule _ (text "10.0.0.0") (text "255.240.0.0") 167772160 4293918720 true); reflexivity. Defined.

(** ** Rules that are refused, and rules that should be *)
(** C40: a rule without a prefix length, or with one that is negative or too long,
    is refused and leaves the list alone; an address that does not parse is used
    although nothing was stored in it. *)
Theorem cidr_errors (inet_pton6 : list Z -> option ip_t) (l : switch_network_list) (s host bit_str : list Z) (ok : bool)
  (token : option (list Z)) (p : option switch_network_port_range) :
  58 ∉ s -> (length s <= 126)%nat ->
  (47 ∉ s -> switch_network_list_perform_add_cidr_token inet_pton6 l s ok token p = Ret (l, SWITCH_STATUS_GENERR)) /\
  (s = host ++ 47 :: bit_str -> 47 ∉ host ->
    (~ 0 <= atoi bit_str <= 32 ->
       switch_network_list_perform_add_cidr_token inet_pton6 l s ok token p = Ret (l, SWITCH_STATUS_GENERR)) /\
    (0 <= atoi bit_str <= 32 -> inet_pton4 host = None ->
       switch_network_list_perform_add_cidr_token inet_pton6 l s ok token p = Ub)).
Proof.
  intros H58 Hl.
  assert (Em : switch_network_ipv4_mapped_ipv6_addr s = None).
  { unfold switch_network_ipv4_mapped_ipv6_addr. rewrite bool_decide_false; [done|].
    destruct s as [|c s]; [done|]. cbn [take map]. intros [= E _]. apply not_elem_of_cons in H58 as [H58 _].
    assert (E' : ascii_lower c = 58) by exact E. unfold ascii_lower in E'.
    destruct ((65 <=? c) && (c <=? 90)) eqn:Ec; [|congruence].
    apply andb_true_iff in Ec as [?%Z.leb_le ?%Z.leb_le]. lia. }
  unfold switch_network_list_perform_add_cidr_token, switch_parse_cidr. rewrite Em. cbn [default from_option id].
  rewrite take_ge by done. rewrite existsb_not by done. split.
  - intros H47. assert (E : split_at 47 s = None).
    { clear -H47. induction s as [|c s IH]; [done|]. apply not_elem_of_cons in H47 as [Hc H47]. cbn [split_at].
      rewrite (proj2 (Z.eqb_neq c 47)) by congruence. by rewrite IH. }
    by rewrite E.
  - intros -> H47. rewrite split_at_app by done. split.
    + intros Hb. assert (E : (atoi bit_str <? 0) || (atoi bit_str >? 32) = true); [|by rewrite E].
      rewrite Z.gtb_ltb. apply orb_true_iff. rewrite !Z.ltb_lt. lia.
    + intros Hb Hp. rewrite (proj2 (Z.ltb_ge _ 0)) by lia. rewrite Z.gtb_ltb, (proj2 (Z.ltb_ge 32 _)) by lia. cbn [orb].
      by rewrite Hp.
Qed.

Lemma cidr_errors_witness :
  let s := text "10.0.0.300/8" in
  let l := switch_network_list_create [] false in
  (47 ∉ s -> switch_network_list_perform_add_cidr_token (fun _ => None) l s true None None = Ret (l, SWITCH_STATUS_GENERR)) /\
  (s = text "10.0.0.300" ++ 47 :: text "8" -> 47 ∉ text "10.0.0.300" ->
    (~ 0 <= atoi (text "8") <= 32 ->
       switch_network_list_perform_add_cidr_token (fun _ => None) l s true None None = Ret (l, SWITCH_STATUS_GENERR)) /\
    (0 <= atoi (text "8") <= 32 -> inet_pton4 (text "10.0.0.300") = None ->
       switch_network_list_perform_add_cidr_token (fun _ => None) l s true None None = Ub)).
Proof.
  apply (cidr_errors (fun _ => None) (switch_network_list_create [] false) (text "10.0.0.300/8") (text "10.0.0.300") (text "8")).
  - apply (bool_decide_unpack _). vm_compute. exact I.
  - vm_compute. lia.
Defined.

(** A rule by host and mask has no family, so that IPv6 addresses are compared
    with it, too: the first bytes decide. *)
Example host_mask_matches_ip6 : exists n,
  switch_network_list_add_host_mask (switch_network_list_create [] false) (text "10.0.0.0") (text "255.0.0.0") true =
    Ret (push_node (switch_network_list_create [] false) n, SWITCH_STATUS_SUCCESS) /\
  matches_ip6 ([0x20; 0x01; 0x0d; 10] ++ replicate 12 1) n = true.
Proof. eexists. split; reflexivity. Qed.
(** The network 10.0.0.0 of 0 bits does not match other addresses. *)
Example zero_bits_match_one : mask4 0 = Ret 0 /\ switch_test_subnet 12345 167772160 0 = false.
Proof. done. Qed.
