(* ===== verification/Event.v ===== *)
(** * Event: headers of events, src/switch_event.c

    An event is a singly linked list of headers with a pointer to the last one.
    Here a header carries the address of its block, and the event the pointers
    [headers] (the list) and [last_header] (an address): a header that is linked
    behind [last_header] replaces whatever followed it, and a [last_header] that
    is not in the list is a dangling pointer.  Texts are the bytes before the
    terminator.  Blocks that are lost are not tracked. *)
From S2P Require Import Prelude HashTable CoreHash UrlCode Separate TextUtil CaseLanes NetList.
From Stdlib Require Import ZArith Lia.
From stdpp Require Import base numbers option list strings.

Local Open Scope Z_scope.

(** ** Data *)
Definition SWITCH_STACK_BOTTOM : Z := Z.shiftl 1 0.
Definition SWITCH_STACK_TOP : Z := Z.shiftl 1 1.
Definition SWITCH_STACK_NODUP : Z := Z.shiftl 1 2.
Definition SWITCH_STACK_UNSHIFT : Z := Z.shiftl 1 3.
Definition SWITCH_STACK_PUSH : Z := Z.shiftl 1 4.
Definition has (stack flag : Z) : bool := negb (Z.land stack flag =? 0).

(** [array] has [idx] elements. *)
Record switch_event_header := mk_header {
  h_addr : nat;
  h_name : list Z;
  h_value : list Z;
  h_array : list (list Z);
  h_hash : Z
}.
Definition h_idx (h : switch_event_header) : Z := zlen (h_array h).

Record switch_event := mk_event {
  e_id : Z;
  e_subclass : option (list Z);
  e_headers : list switch_event_header;
  e_last : option nat;
  e_body : option (list Z);
  e_uniq : bool;
  e_fresh : nat
}.
Definition set_links (e : switch_event) (hs : list switch_event_header) (last : option nat) : switch_event :=
  mk_event (e_id e) (e_subclass e) hs last (e_body e) (e_uniq e) (e_fresh e).
Definition set_headers (e : switch_event) (hs : list switch_event_header) : switch_event := set_links e hs (e_last e).
Definition switch_event_set_body (e : switch_event) (body : option (list Z)) : switch_event :=
  mk_event (e_id e) (e_subclass e) (e_headers e) (e_last e) body (e_uniq e) (e_fresh e).
Definition set_subclass (e : switch_event) (s : list Z) : switch_event :=
  mk_event (e_id e) (Some s) (e_headers e) (e_last e) (e_body e) (e_uniq e) (e_fresh e).

(** ** Names *)
(** [switch_ci_hashfunc_default] of a whole text, and [strcasecmp]. *)
Definition name_hash (s : list Z) : Z := fold_left (fun h c => u32 (h * 33 + ascii_lower c)) s 0.
Definition same_name (a b : list Z) : bool := bool_decide (map ascii_lower a = map ascii_lower b).
(** [(!hp->hash || hash == hp->hash) && !strcasecmp(hp->name, header_name)] *)
Definition named (name : list Z) (h : switch_event_header) : bool :=
  ((h_hash h =? 0) || (name_hash name =? h_hash h)) && same_name (h_name h) name.

(** ** Looking up *)
Definition switch_event_get_header_ptr (e : switch_event) (name : list Z) : option switch_event_header :=
  List.find (named name) (e_headers e).
Definition BODY : list Z := text "_body".
Definition switch_event_get_header_idx (e : switch_event) (name : list Z) (idx : Z) : option (list Z) :=
  match switch_event_get_header_ptr e name with
  | Some hp =>
    if idx >? -1 then if idx <? h_idx hp then h_array hp !! Z.to_nat idx else None
    else Some (h_value hp)
  | None => if bool_decide (name = BODY) then e_body e else None
  end.

(** ** Deleting *)
(** The loop of [switch_event_del_header_val]: [kept] are the headers before [hp],
    reversed, and [lp] is the first of them. *)
Fixpoint del_loop (name val : list Z) (kept tp : list switch_event_header) (last : option nat) (x : Z) (found : bool)
  : res (list switch_event_header * option nat * bool) :=
  match tp with
  | [] => Ret (rev kept, last, found)
  | hp :: tp =>
    rassert (x + 1 <? 1000000)
      (if named name hp && (bool_decide (val = []) || bool_decide (h_value hp = val)) then
         let last := if bool_decide (Some (h_addr hp) = last) || bool_decide (tp = []) then option_map h_addr (head kept) else last in
         del_loop name val kept tp last (x + 1) true
       else del_loop name val (hp :: kept) tp last (x + 1) found)
  end.
Definition switch_event_del_header_val (e : switch_event) (name val : list Z) : res (switch_event * switch_status) :=
  '(hs, last, found) <-! del_loop name val [] (e_headers e) (e_last e) 0 false;;
  Ret (set_links e hs last, if found then SWITCH_STATUS_SUCCESS else SWITCH_STATUS_FALSE).
Definition switch_event_del_header (e : switch_event) (name : list Z) : res switch_event :=
  '(e, _) <-! switch_event_del_header_val e name [];; Ret e.

(** ** Renaming *)
Definition switch_event_rename_header (e : switch_event) (name new_name : list Z) : switch_event * switch_status :=
  (set_headers e (map (fun h => if named name h
     then mk_header (h_addr h) new_name (h_value h) (h_array h) (name_hash new_name) else h) (e_headers e)),
   if existsb (named name) (e_headers e) then SWITCH_STATUS_SUCCESS else SWITCH_STATUS_FALSE).

(** ** Adding *)
Definition ARRAY : list Z := text "ARRAY::".
Definition SEP : list Z := text "|:".
Fixpoint join_values (vs : list (list Z)) : list Z :=
  match vs with [] => [] | [v] => v | v :: vs => v ++ SEP ++ join_values vs end.
(** [redraw]: the value that shows an array. *)
Definition redraw (vs : list (list Z)) : list Z := if zlen vs >? 1 then ARRAY ++ join_values vs else join_values vs.

(** The headers up to and with the one at [a]; [None] when there is none. *)
Fixpoint up_to (a : nat) (hs : list switch_event_header) : option (list switch_event_header) :=
  match hs with
  | [] => None
  | h :: hs => if bool_decide (h_addr h = a) then Some [h] else option_map (cons h) (up_to a hs)
  end.
(** The end of [switch_event_base_add_header] for a header that is not in the
    list.  Its hash is computed here. *)
Definition link (e : switch_event) (stack : Z) (h : switch_event_header) : res switch_event :=
  let h := mk_header (h_addr h) (h_name h) (h_value h) (h_array h) (name_hash (h_name h)) in
  let a := h_addr h in
  if has stack SWITCH_STACK_TOP then
    Ret (set_links e (h :: e_headers e) (match e_last e with None => Some a | l => l end))
  else
    match e_last e with
    | Some l => hs <-! or_ub (up_to l (e_headers e));; Ret (set_links e (hs ++ [h]) (Some a))
    | None => Ret (set_links e [h] (Some a))
    end.
Definition update (e : switch_event) (h : switch_event_header) : switch_event :=
  set_headers e (map (fun x => if bool_decide (h_addr x = h_addr h) then h else x) (e_headers e)).
Definition new_header (e : switch_event) (name : list Z) : switch_event * switch_event_header :=
  (mk_event (e_id e) (e_subclass e) (e_headers e) (e_last e) (e_body e) (e_uniq e) (S (e_fresh e)),
   mk_header (e_fresh e) name [] [] 0).
Definition with_array (h : switch_event_header) (vs : list (list Z)) : switch_event_header :=
  mk_header (h_addr h) (h_name h) (redraw vs) vs (h_hash h).
Definition with_value (h : switch_event_header) (v : list Z) : switch_event_header :=
  mk_header (h_addr h) (h_name h) v (h_array h) (h_hash h).

(** The part under [if (index_ptr)]: an element that exists is replaced without a
    redraw. *)
Definition add_index (e : switch_event) (stack : Z) (h : switch_event_header) (fly : bool) (index : Z) (data : list Z)
  : res switch_event :=
  if (index >? -1) && (index <=? 4000) then
    if index <? h_idx h then
      let h' := mk_header (h_addr h) (h_name h) (h_value h) (<[Z.to_nat index := data]> (h_array h)) (h_hash h) in
      Ret (if fly then e else update e h')
    else
      let h' := with_array h (h_array h ++ replicate (Z.to_nat (index - h_idx h)) [] ++ [data]) in
      if fly then link e stack h' else Ret (update e h')
  else Ret e.
(** A value pushed to, or shifted into, a header that exists. *)
Definition add_value (e : switch_event) (stack : Z) (h : switch_event_header) (data : list Z) : switch_event :=
  let vs := if h_idx h =? 0 then [h_value h] else h_array h in
  update e (with_array h (if has stack SWITCH_STACK_PUSH then vs ++ [data] else data :: vs)).

(** [switch_event_add_array]: the values between the separators, each added by
    [add] with [SWITCH_STACK_PUSH]. *)
Definition array_values (val : list Z) : option (list (list Z)) :=
  if zlen val <? 8 then None else Some (separate_by SEP (length val) (drop 7 val)).

(** The name in front of a bracket and the index behind it. *)
Definition parse_name (header_name : list Z) : bool * Z * list Z :=
  match split_at 91 header_name with Some (a, b) => (true, atoi b, a) | None => (false, 0, header_name) end.
Definition pushing (stack : Z) : bool := has stack SWITCH_STACK_PUSH || has stack SWITCH_STACK_UNSHIFT.

(** A header that is not there: [push] adds a value of an array. *)
Definition add_new (push : switch_event -> list Z -> list Z -> res switch_event) (e : switch_event) (stack : Z)
  (name data : list Z) : res switch_event :=
  if bool_decide (data = []) then switch_event_del_header e name
  else
    e <-! (if e_uniq e then switch_event_del_header e name else Ret e);;
    if bool_decide (take 7 data = ARRAY) then
      match array_values data with
      | None => Ret e
      | Some vs => fold_left (fun r v => e <-! r;; push e name v) vs (Ret e)
      end
    else
      let '(e, h) := new_header e name in
      link e stack (if pushing stack then with_array h [data] else with_value h data).

Definition add_step (push : switch_event -> list Z -> list Z -> res switch_event) (e : switch_event) (stack : Z)
  (header_name data : list Z) : res switch_event :=
  let e := if bool_decide (header_name = BODY) then switch_event_set_body e (Some data) else e in
  let '(indexed, index, name) := parse_name header_name in
  match (if indexed || pushing stack then switch_event_get_header_ptr e name else None), indexed with
  | Some h, true => add_index e stack h false index data
  | None, true =>
    let '(e, h) := new_header e name in
    e <-! (if e_uniq e then switch_event_del_header e name else Ret e);;
    add_index e stack h true index data
  | Some h, false => Ret (add_value e stack h data)
  | None, false => add_new push e stack name data
  end.

(** [switch_event_base_add_header]; an array inside an array makes it call itself
    with a shorter text, so the length of the text is enough fuel. *)
Fixpoint base_add_header (fuel : nat) (e : switch_event) (stack : Z) (header_name data : list Z) : res switch_event :=
  match fuel with
  | O => add_step (fun _ _ _ => Ub) e stack header_name data
  | S fuel => add_step (fun e name v => base_add_header fuel e SWITCH_STACK_PUSH name v) e stack header_name data
  end.
Definition switch_event_base_add_header (e : switch_event) (stack : Z) (name data : list Z) : res switch_event :=
  base_add_header (length data) e stack name data.
Definition switch_event_add_header_string (e : switch_event) (stack : Z) (name : list Z) (data : option (list Z))
  : res (switch_event * switch_status) :=
  match data with
  | Some d => e <-! switch_event_base_add_header e stack name d;; Ret (e, SWITCH_STATUS_SUCCESS)
  | None => Ret (e, SWITCH_STATUS_GENERR)
  end.
Definition SUBCLASS : list Z := text "Event-Subclass".
Definition switch_event_set_subclass_name (e : switch_event) (s : list Z) : res (switch_event * switch_status) :=
  e <-! switch_event_del_header (set_subclass e s) SUBCLASS;;
  switch_event_add_header_string e SWITCH_STACK_BOTTOM SUBCLASS (Some s).

(** ** Copying *)
(** The headers [hs] added to [e], those that [skip] and under the name [rename]. *)
Fixpoint add_headers (e : switch_event) (hs : list switch_event_header) (skip : list Z -> bool) (rename : list Z -> list Z)
  : res switch_event :=
  match hs with
  | [] => Ret e
  | hp :: hs =>
    e <-! (if skip (h_name hp) then Ret e
           else if negb (h_idx hp =? 0) then
             fold_left (fun r v => e <-! r;; switch_event_base_add_header e SWITCH_STACK_PUSH (rename (h_name hp)) v)
               (h_array hp) (Ret e)
           else switch_event_base_add_header e SWITCH_STACK_BOTTOM (rename (h_name hp)) (h_value hp));;
    add_headers e hs skip rename
  end.
Definition switch_event_merge (e tomerge : switch_event) : res switch_event :=
  add_headers e (e_headers tomerge) (fun _ => false) id.

(** [switch_event_create_subclass(event, SWITCH_EVENT_CLONE, subclass_name)] *)
Definition create_clone (subclass_name : option (list Z)) : res switch_event :=
  let e := mk_event 0 subclass_name [] None None false 0 in
  match subclass_name with
  | Some s => switch_event_base_add_header e SWITCH_STACK_BOTTOM SUBCLASS s
  | None => Ret e
  end.
Definition copy_fields (e todup : switch_event) : switch_event :=
  mk_event (e_id todup) (e_subclass e) (e_headers e) (e_last e) (e_body e) (e_uniq todup) (e_fresh e).
Definition skip_subclass (todup : switch_event) (name : list Z) : bool :=
  match e_subclass todup with Some _ => bool_decide (name = SUBCLASS) | None => false end.
Definition switch_event_dup (todup : switch_event) : res switch_event :=
  e <-! create_clone (e_subclass todup);;
  e <-! add_headers (copy_fields e todup) (e_headers todup) (skip_subclass todup) id;;
  Ret (match e_body todup with Some b => switch_event_set_body e (Some b) | None => e end).

(** [from] and [to] change places; a name is cut to the size of [hname]. *)
Definition reply_name (name : list Z) : list Z :=
  if same_name (take 5 name) (text "from_") then take 1023 (text "to_" ++ drop 5 name)
  else if same_name (take 3 name) (text "to_") then take 1023 (text "from_" ++ drop 3 name)
  else if same_name name (text "to") then text "from"
  else if same_name name (text "from") then text "to" else name.
Definition switch_event_dup_reply (todup : switch_event) : res switch_event :=
  e <-! create_clone (e_subclass todup);;
  e <-! add_headers (copy_fields e todup) (e_headers todup) (skip_subclass todup) reply_name;;
  e <-! switch_event_base_add_header e SWITCH_STACK_BOTTOM (text "replying") (text "true");;
  match e_body todup with
  | Some b => switch_event_base_add_header e SWITCH_STACK_BOTTOM (text "orig_body") b
  | None => Ret e
  end.

(** ** The invariant *)
Definition addrs (hs : list switch_event_header) : list nat := map h_addr hs.
Definition last_addr (hs : list switch_event_header) : option nat := option_map h_addr (last hs).

Record event_ok (e : switch_event) : Prop := {
  ok_nodup : NoDup (addrs (e_headers e));
  ok_fresh : Forall (fun h => (h_addr h < e_fresh e)%nat) (e_headers e);
  ok_last : e_last e = last_addr (e_headers e);
  ok_hash : Forall (fun h => h_hash h = name_hash (h_name h)) (e_headers e)
}.

Lemma same_name_hash a b : same_name a b = true -> name_hash a = name_hash b.
Proof.
  unfold same_name, name_hash. rewrite bool_decide_eq_true. generalize 0 as h. revert b.
  induction a as [|x a IH]; intros [|y b] h E; try done. cbn in E |- *. injection E as E1 E2. rewrite E1. by apply IH.
Qed.
Lemma same_name_sym a b : same_name a b = same_name b a.
Proof. unfold same_name. by apply bool_decide_ext. Qed.
(** The hash never changes the outcome. *)
Lemma named_same name h : h_hash h = name_hash (h_name h) -> named name h = same_name (h_name h) name.
Proof.
  intros Hh. unfold named. destruct (same_name (h_name h) name) eqn:E; [|by rewrite andb_false_r].
  rewrite andb_true_r, Hh, (same_name_hash _ _ E), Z.eqb_refl. apply orb_true_r.
Qed.
Lemma find_header_named name hs : Forall (fun h => h_hash h = name_hash (h_name h)) hs ->
  List.find (named name) hs = List.find (fun h => same_name (h_name h) name) hs.
Proof. induction 1 as [|h hs Hh _ IH]; [done|]. cbn [List.find]. by rewrite named_same, IH. Qed.

(** *** Deleting *)
Definition deletes (name val : list Z) (h : switch_event_header) : bool :=
  named name h && (bool_decide (val = []) || bool_decide (h_value h = val)).
Definition keep (name val : list Z) (hs : list switch_event_header) : list switch_event_header :=
  List.filter (fun h => negb (deletes name val h)) hs.

Lemma last_addr_rev kept : last_addr (rev kept) = option_map h_addr (head kept).
Proof. unfold last_addr. destruct kept as [|h kept]; [done|]. cbn [rev]. by rewrite last_snoc. Qed.
Lemma last_addr_snoc hs h : last_addr (hs ++ [h]) = Some (h_addr h).
Proof. unfold last_addr. by rewrite last_snoc. Qed.

Lemma del_loop_spec name val tp : forall kept lst x found,
  NoDup (addrs (rev kept ++ tp)) -> lst = last_addr (rev kept ++ tp) -> x + zlen tp < 1000000 ->
  del_loop name val kept tp lst x found =
    Ret (rev kept ++ keep name val tp, last_addr (rev kept ++ keep name val tp), found || existsb (deletes name val) tp).
Proof.
  induction tp as [|hp tp IH]; intros kept lst x found Hnd Hl Hx.
  { cbn. by rewrite !app_nil_r, orb_false_r in *; subst. }
  cbn [del_loop keep List.filter existsb]. rewrite zlen_cons in Hx. pose proof (zlen_nonneg tp).
  fold (keep name val tp). rewrite (proj2 (Z.ltb_lt _ _)) by lia. cbn [rassert]. fold (deletes name val hp).
  destruct (deletes name val hp) eqn:Ed; cbn [negb].
  - rewrite IH; [by rewrite !orb_true_r| | |lia].
    + unfold addrs in *. rewrite map_app in *. cbn [map] in Hnd. apply NoDup_app in Hnd as (H1 & H2 & H3).
      apply NoDup_cons in H3 as [_ H3]. apply NoDup_app. split_and!; [done| |done].
      intros a Ha Ha'. apply (H2 a Ha). by constructor.
    + destruct tp as [|t tp].
      * rewrite (bool_decide_true ([] = [])) by done. rewrite orb_true_r, app_nil_r. by rewrite last_addr_rev.
      * rewrite (bool_decide_false (t :: tp = [])) by done. rewrite orb_false_r.
        assert (El : last_addr (rev kept ++ hp :: t :: tp) = last_addr (rev kept ++ t :: tp)).
        { unfold last_addr. rewrite !last_app. cbn [last]. done. }
        rewrite El in Hl. rewrite bool_decide_false; [done|]. rewrite Hl. intros Eq.
        assert (Hin : h_addr hp ∈ addrs (t :: tp)).
        { unfold last_addr in Eq. rewrite last_app in Eq. destruct (last (t :: tp)) as [z|] eqn:Ez.
          - cbn in Eq. injection Eq as ->. unfold addrs. apply list_elem_of_fmap. exists z. split; [done|].
            apply last_Some in Ez as [l' ->]. apply elem_of_app. right. by constructor.
          - by apply last_None in Ez. }
        unfold addrs in Hnd. rewrite map_app in Hnd. apply NoDup_app in Hnd as (_ & _ & Hnd).
        cbn [map] in Hnd. apply NoDup_cons in Hnd as [Hnd _]. done.
  - rewrite IH; [|by rewrite <- ?app_assoc in *; cbn; rewrite <- app_assoc|by cbn; rewrite <- app_assoc|lia].
    cbn [rev orb]. by rewrite <- !app_assoc.
Qed.

Lemma keep_Forall P name val hs : Forall P hs -> Forall P (keep name val hs).
Proof.
  unfold keep. induction 1 as [|h hs Hh _ IH]; cbn [List.filter]; [done|].
  destruct (negb (deletes name val h)); [by apply Forall_cons|done].
Qed.
Lemma keep_sub name val hs : sublist (addrs (keep name val hs)) (addrs hs).
Proof.
  unfold keep, addrs. induction hs as [|h hs IH]; cbn [List.filter map]; [done|].
  destruct (negb (deletes name val h)); cbn [map]; by constructor.
Qed.
Lemma keep_length name val hs : (length (keep name val hs) <= length hs)%nat.
Proof. unfold keep. induction hs as [|h hs IH]; [done|]. cbn. destruct (negb _); cbn; lia. Qed.

Lemma del_header_val_spec e name val : event_ok e -> zlen (e_headers e) < 1000000 ->
  let hs := keep name val (e_headers e) in
  switch_event_del_header_val e name val =
    Ret (set_links e hs (last_addr hs),
         if existsb (deletes name val) (e_headers e) then SWITCH_STATUS_SUCCESS else SWITCH_STATUS_FALSE) /\
  event_ok (set_links e hs (last_addr hs)).
Proof.
  intros [Hnd Hf Hl Hh] Hx hs. split.
  - unfold switch_event_del_header_val. by rewrite del_loop_spec.
  - split; cbn [e_headers set_links e_fresh e_last]; [|by apply keep_Forall|done|by apply keep_Forall].
    eapply sublist_NoDup; [exact Hnd|apply keep_sub].
Qed.
Lemma del_header_spec e name : event_ok e -> zlen (e_headers e) < 1000000 ->
  let hs := keep name [] (e_headers e) in
  switch_event_del_header e name = Ret (set_links e hs (last_addr hs)) /\ event_ok (set_links e hs (last_addr hs)).
Proof.
  intros Hok Hx hs. destruct (del_header_val_spec e name [] Hok Hx) as [E Hok'].
  unfold switch_event_del_header. by rewrite E.
Qed.

(** *** Linking and updating *)
Lemma up_to_last hs h : NoDup (addrs (hs ++ [h])) -> up_to (h_addr h) (hs ++ [h]) = Some (hs ++ [h]).
Proof.
  induction hs as [|x hs IH]; intros Hnd; cbn [app up_to]; [by rewrite bool_decide_true|].
  cbn [addrs map app] in Hnd. apply NoDup_cons in Hnd as [Hx Hnd]. rewrite bool_decide_false.
  - by rewrite IH.
  - intros E. apply Hx. rewrite E. unfold addrs. rewrite map_app. apply elem_of_app. right. by constructor.
Qed.
Lemma link_spec e stack h : event_ok e -> (h_addr h < e_fresh e)%nat -> h_addr h ∉ addrs (e_headers e) ->
  let h' := mk_header (h_addr h) (h_name h) (h_value h) (h_array h) (name_hash (h_name h)) in
  let hs := if has stack SWITCH_STACK_TOP then h' :: e_headers e else e_headers e ++ [h'] in
  link e stack h = Ret (set_links e hs (last_addr hs)) /\ event_ok (set_links e hs (last_addr hs)).
Proof.
  intros [Hnd Hf Hl Hh] Ha Hn h' hs. split.
  - unfold link, hs. fold h'. destruct (has stack SWITCH_STACK_TOP).
    + rewrite Hl. destruct (e_headers e) as [|x l]; [done|]. unfold last_addr.
      rewrite (last_cons h'). destruct (last (x :: l)) eqn:E; [done|]. by apply last_None in E.
    + rewrite Hl. destruct (last_addr (e_headers e)) as [a|] eqn:El.
      * unfold last_addr in El. destruct (last (e_headers e)) as [z|] eqn:Ez; [|done]. injection El as <-.
        apply last_Some in Ez as [l' Ez]. rewrite Ez in *. rewrite up_to_last by done. cbn [or_ub rbind].
        by rewrite last_addr_snoc.
      * unfold last_addr in El. destruct (last (e_headers e)) as [z|] eqn:Ez; [done|]. apply last_None in Ez. by rewrite Ez.
  - unfold hs. split; cbn [e_headers set_links e_fresh e_last]; [|  |done|]; destruct (has stack SWITCH_STACK_TOP).
    + unfold addrs. cbn [map]. by apply NoDup_cons.
    + unfold addrs. rewrite map_app. apply NoDup_app. split_and!; [done| |by apply NoDup_singleton].
      cbn [map]. intros a Ha' Heq. apply list_elem_of_singleton in Heq. by subst a.
    + by apply Forall_cons.
    + apply Forall_app. split; [done|]. by apply Forall_singleton.
    + by apply Forall_cons.
    + apply Forall_app. split; [done|]. by apply Forall_singleton.
Qed.

Lemma update_addrs h hs : addrs (map (fun x => if bool_decide (h_addr x = h_addr h) then h else x) hs) = addrs hs.
Proof.
  unfold addrs. rewrite map_map. apply map_ext. intros x. case_bool_decide as E; [by rewrite E|done].
Qed.
Lemma last_addr_map f hs : addrs (map f hs) = addrs hs -> last_addr (map f hs) = last_addr hs.
Proof.
  assert (H : forall hs, last_addr hs = last (addrs hs)) by (intros l; unfold last_addr, addrs; by rewrite fmap_last).
  intros E. by rewrite !H, E.
Qed.
Lemma update_ok e h : event_ok e -> (h_addr h < e_fresh e)%nat -> h_hash h = name_hash (h_name h) -> event_ok (update e h).
Proof.
  intros [Hnd Hf Hl Hh] Ha Hhash. unfold update, set_headers.
  split; cbn [e_headers set_links e_fresh e_last].
  - by rewrite update_addrs.
  - apply Forall_map. eapply Forall_impl; [exact Hf|]. intros x Hx. cbn. by case_bool_decide.
  - rewrite last_addr_map by apply update_addrs. done.
  - apply Forall_map. eapply Forall_impl; [exact Hh|]. intros x Hx. cbn. by case_bool_decide.
Qed.
Lemma new_header_ok e name : event_ok e -> event_ok (new_header e name).1.
Proof.
  intros [Hnd Hf Hl Hh]. split; cbn [new_header fst e_headers e_fresh e_last]; try done.
  eapply Forall_impl; [exact Hf|]. cbn. lia.
Qed.
Lemma set_body_ok e b : event_ok e -> event_ok (switch_event_set_body e b).
Proof. by intros [Hnd Hf Hl Hh]. Qed.
Lemma find_in name e h : switch_event_get_header_ptr e name = Some h -> In h (e_headers e).
Proof. unfold switch_event_get_header_ptr. intros E. by apply find_some in E as [? _]. Qed.
Lemma in_ok e h : event_ok e -> In h (e_headers e) -> (h_addr h < e_fresh e)%nat /\ h_hash h = name_hash (h_name h).
Proof.
  intros [_ Hf _ Hh] Hin%list_elem_of_In. rewrite Forall_forall in Hf, Hh. by split; [apply Hf|apply Hh].
Qed.
Lemma fresh_not_in e : event_ok e -> e_fresh e ∉ addrs (e_headers e).
Proof.
  intros [_ Hf _ _] Hin. unfold addrs in Hin. apply list_elem_of_fmap in Hin as (h & E & Hin).
  rewrite Forall_forall in Hf. specialize (Hf h Hin). lia.
Qed.

(** A header with an address of its own, that is not in the list. *)
Definition off_list (e : switch_event) (h : switch_event_header) : Prop :=
  (h_addr h < e_fresh e)%nat /\ h_addr h ∉ addrs (e_headers e).

(** What an operation that adds at most [n] headers leaves. *)
Definition grows (e : switch_event) (n : nat) (r : res switch_event) : Prop :=
  exists e', r = Ret e' /\ event_ok e' /\ (length (e_headers e') <= length (e_headers e) + n)%nat /\ e_uniq e' = e_uniq e.

Lemma grows_update e h n : event_ok e -> In h (e_headers e) -> forall h', h_addr h' = h_addr h -> h_hash h' = h_hash h ->
  h_name h' = h_name h -> grows e n (Ret (update e h')).
Proof.
  intros Hok Hin h' Ea Eh En. destruct (in_ok e h Hok Hin) as [H1 H2]. eexists. split; [reflexivity|]. split_and!.
  - apply update_ok; [done|lia|congruence].
  - cbn. rewrite length_map. lia.
  - done.
Qed.
Lemma grows_link e stack h n : event_ok e -> off_list e h -> (1 <= n)%nat -> grows e n (link e stack h).
Proof.
  intros Hok [H1 H2] Hn. destruct (link_spec e stack h Hok H1 H2) as [-> Hok']. eexists. split; [reflexivity|].
  split_and!; [done| |done]. cbn [set_links e_headers]. destruct (has stack SWITCH_STACK_TOP); [cbn; lia|].
  rewrite length_app. cbn. lia.
Qed.
Lemma grows_del e name : event_ok e -> zlen (e_headers e) < 1000000 -> grows e 0 (switch_event_del_header e name).
Proof.
  intros Hok Hl. destruct (del_header_spec e name Hok Hl) as [-> Hok']. eexists. split; [reflexivity|].
  split_and!; [done| |done]. cbn. pose proof (keep_length name [] (e_headers e)). lia.
Qed.
Lemma grows_uniq_del e name : event_ok e -> zlen (e_headers e) < 1000000 ->
  grows e 0 (if e_uniq e then switch_event_del_header e name else Ret e).
Proof.
  intros Hok Hl. destruct (e_uniq e) eqn:E; [by apply grows_del|]. exists e. split_and!; [done|done|lia|done].
Qed.

Lemma uniq_del e name h : event_ok e -> zlen (e_headers e) < 1000000 -> off_list e h ->
  exists e', (if e_uniq e then switch_event_del_header e name else Ret e) = Ret e' /\ event_ok e' /\ off_list e' h /\
    (length (e_headers e') <= length (e_headers e))%nat /\ e_uniq e' = e_uniq e.
Proof.
  intros Hok Hl [H1 H2]. destruct (e_uniq e) eqn:E; [|by exists e; split_and!].
  destruct (del_header_spec e name Hok Hl) as [-> Hok']. eexists. split; [reflexivity|]. split_and!; [done| | |done].
  - split; [done|]. cbn [set_links e_headers]. intros Hin. apply H2. eapply elem_of_sublist; [exact Hin|apply keep_sub].
  - cbn. apply keep_length.
Qed.
Lemma new_header_off e name : event_ok e -> off_list (new_header e name).1 (new_header e name).2.
Proof. intros Hok. split; cbn; [lia|by apply fresh_not_in]. Qed.

Lemma add_index_grows e stack h fly index data :
  event_ok e -> (if fly : bool then off_list e h else In h (e_headers e)) -> grows e 1 (add_index e stack h fly index data).
Proof.
  intros Hok Hh. assert (Hid : grows e 1 (Ret e)) by (exists e; split_and!; [done|done|lia|done]).
  unfold add_index. destruct (_ && _); [|done]. destruct (index <? h_idx h); destruct fly; try done.
  - by apply (grows_update e h).
  - by apply grows_link.
  - by apply (grows_update e h).
Qed.
Lemma add_value_grows e stack h data : event_ok e -> In h (e_headers e) -> grows e 1 (Ret (add_value e stack h data)).
Proof. intros Hok Hh. by apply (grows_update e h). Qed.

Lemma separate_by_length sep n : forall s, sep <> [] ->
  (sum_list (map length (separate_by sep n s)) + length (separate_by sep n s) <= length s + 1)%nat.
Proof.
  assert (Hst : forall d s r, starts_with d s = Some r -> length s = (length d + length r)%nat).
  { induction d as [|x d IH]; intros s r E; [by injection E as ->|]. destruct s as [|c s]; [done|]. cbn in E.
    destruct (x =? c); [|done]. apply IH in E. cbn. lia. }
  assert (Hsp : forall d s a b, strstr_split d s = Some (a, b) -> length s = (length a + length d + length b)%nat).
  { intros d s. induction s as [|c s IH]; intros a b E; cbn [strstr_split] in E.
    - destruct (starts_with d []) eqn:Es; [|done]. injection E as <- ->. apply Hst in Es. cbn in *. lia.
    - destruct (starts_with d (c :: s)) eqn:Es; [injection E as <- ->; apply Hst in Es; cbn in *; lia|].
      destruct (strstr_split d s) as [[a' b']|]; [|done]. cbn in E. injection E as <- <-. cbn. specialize (IH _ _ eq_refl). lia. }
  induction n as [|n IH]; intros s Hne; cbn [separate_by]; [cbn; lia|].
  destruct (strstr_split sep s) as [[a b]|] eqn:E; [|cbn; lia]. apply Hsp in E. specialize (IH b Hne).
  assert (0 < length sep)%nat by (destruct sep; [done|cbn; lia]). cbn [map length]. cbn. lia.
Qed.

(** Adding a header never fails while there is room for the headers, keeps the
    invariant, and adds at most one header more than the text is long. *)
Definition roomy (push : switch_event -> list Z -> list Z -> res switch_event) (n : nat) : Prop :=
  forall e name v, event_ok e -> (length v <= n)%nat -> Z.of_nat (length (e_headers e) + S (length v)) < 1000000 ->
    grows e (S (length v)) (push e name v).

Lemma grows_weaken e n m r : (n <= m)%nat -> grows e n r -> grows e m r.
Proof. intros Hle (e' & -> & H1 & H2 & H3). exists e'. split_and!; [done|done|lia|done]. Qed.
Lemma grows_bind e n m r k : grows e n r ->
  (forall e', event_ok e' -> (length (e_headers e') <= length (e_headers e) + n)%nat -> grows e' m (k e')) ->
  grows e (n + m) (e' <-! r;; k e').
Proof.
  intros (e' & -> & H1 & H2 & H3) Hk. cbn [rbind]. destruct (Hk e' H1 H2) as (e'' & -> & H1' & H2' & H3').
  exists e''. split_and!; [done|done|lia|congruence].
Qed.

Lemma push_all_grows push n name vs : roomy push n -> forall e, event_ok e -> Forall (fun v => (length v <= n)%nat) vs ->
  Z.of_nat (length (e_headers e) + (sum_list (map length vs) + length vs)) < 1000000 ->
  grows e (sum_list (map length vs) + length vs) (fold_left (fun r v => e <-! r;; push e name v) vs (Ret e)).
Proof.
  intros Hp. induction vs as [|v vs IH]; intros e Hok Hvs Hn.
  { exists e. split_and!; [done|done|lia|done]. }
  apply Forall_cons in Hvs as [Hv Hvs]. cbn [fold_left map length rbind] in Hn |- *. cbn in Hn |- *.
  destruct (Hp e name v Hok Hv ltac:(lia)) as (e1 & -> & H1 & H2 & H3).
  destruct (IH e1 H1 Hvs ltac:(lia)) as (e2 & -> & H1' & H2' & H3'). exists e2. split_and!; [done|done|lia|congruence].
Qed.

Lemma add_new_grows push n e stack name data : data = [] \/ (roomy push n /\ (length data <= S n)%nat) -> event_ok e ->
  Z.of_nat (length (e_headers e) + S (length data)) < 1000000 -> grows e (S (length data)) (add_new push e stack name data).
Proof.
  intros Hp Hok Hn. assert (Hl : zlen (e_headers e) < 1000000) by (unfold zlen; lia). unfold add_new.
  case_bool_decide as Ed; [eapply grows_weaken; [|by apply grows_del]; lia|]. destruct Hp as [|[Hp Hd]]; [done|].
  apply (grows_bind e 0 (S (length data))); [by apply grows_uniq_del|]. intros e1 Hok1 Hl1.
  case_bool_decide as Ea.
  - destruct (array_values data) as [vs|] eqn:Ev; [|exists e1; split_and!; [done|done|lia|done]].
    unfold array_values in Ev. destruct (Z.ltb_spec (zlen data) 8) as [|H8]; [done|]. injection Ev as <-. unfold zlen in H8.
    set (vs := separate_by SEP (length data) (drop 7 data)).
    pose proof (separate_by_length SEP (length data) (drop 7 data) ltac:(done)) as Hs. fold vs in Hs. rewrite length_drop in Hs.
    apply (grows_weaken e1 (sum_list (map length vs) + length vs)); [lia|]. apply (push_all_grows push n); [done|done| |lia].
    apply Forall_forall. intros v Hv. assert (length v <= sum_list (map length vs))%nat; [|lia].
    clear -Hv. induction vs as [|w vs IH]; [by apply not_elem_of_nil in Hv|].
    apply elem_of_cons in Hv as [->|Hv]; cbn; [lia|]. specialize (IH Hv). lia.
  - pose proof (new_header_ok e1 name Hok1) as Hok2. pose proof (new_header_off e1 name Hok1) as Hoff.
    destruct (new_header e1 name) as [e2 h] eqn:En. cbn [fst snd] in *.
    assert (E2 : e_headers e2 = e_headers e1 /\ e_uniq e2 = e_uniq e1) by (injection En as <- _; done). destruct E2 as [Eh Eu].
    assert (Hg : grows e2 (S (length data)) (link e2 stack (if pushing stack then with_array h [data] else with_value h data))).
    { apply grows_link; [done| |lia]. destruct (pushing stack); exact Hoff. }
    unfold grows in *. by rewrite Eh, Eu in Hg.
Qed.

Lemma add_step_grows push n e0 stack name0 data : data = [] \/ (roomy push n /\ (length data <= S n)%nat) -> event_ok e0 ->
  Z.of_nat (length (e_headers e0) + S (length data)) < 1000000 -> grows e0 (S (length data)) (add_step push e0 stack name0 data).
Proof.
  intros Hp Hok0 Hn. unfold add_step.
  set (e := if bool_decide (name0 = BODY) then switch_event_set_body e0 (Some data) else e0).
  assert (Hok : event_ok e) by (unfold e; case_bool_decide; [by apply set_body_ok|done]).
  assert (He : e_headers e = e_headers e0 /\ e_uniq e = e_uniq e0) by (unfold e; by case_bool_decide).
  clearbody e. destruct He as [Eh Eu]. assert (Hback : forall n r, grows e n r -> grows e0 n r) by (intros m r; unfold grows; by rewrite Eh, Eu).
  apply Hback. rewrite <- Eh in Hn. clear Hback. destruct (parse_name name0) as [[indexed index] name].
  destruct (if indexed || pushing stack then switch_event_get_header_ptr e name else None) as [h|] eqn:Efound.
  - assert (Hin : In h (e_headers e)) by (destruct (indexed || pushing stack); [by apply find_in in Efound|done]).
    destruct indexed; (eapply grows_weaken; [|by first [apply add_index_grows|apply add_value_grows]]); lia.
  - destruct indexed; [|by apply (add_new_grows push n)].
    pose proof (new_header_ok e name Hok) as Hok2. pose proof (new_header_off e name Hok) as Hoff.
    destruct (new_header e name) as [e2 h] eqn:En. cbn [fst snd] in *.
    assert (E2 : e_headers e2 = e_headers e /\ e_uniq e2 = e_uniq e) by (injection En as <- _; done). destruct E2 as [Eh2 Eu2].
    destruct (uniq_del e2 name h Hok2 ltac:(rewrite Eh2; unfold zlen; lia) Hoff) as (e3 & -> & Hok3 & Hoff3 & Hl3 & Eu3).
    cbn [rbind]. destruct (add_index_grows e3 stack h true index data Hok3 Hoff3) as (e4 & -> & Hok4 & Hl4 & Eu4).
    exists e4. rewrite Eh2 in Hl3. split_and!; [done|done|lia|congruence].
Qed.

Lemma base_add_grows fuel : forall e stack name data, event_ok e -> (length data <= fuel)%nat ->
  Z.of_nat (length (e_headers e) + S (length data)) < 1000000 ->
  grows e (S (length data)) (base_add_header fuel e stack name data).
Proof.
  induction fuel as [|fuel IH]; intros e stack name data Hok Hf Hn; cbn [base_add_header].
  - destruct data as [|c data]; [|cbn in Hf; lia]. apply (add_step_grows _ 0); [by left|done|done].
  - apply (add_step_grows _ fuel); [|done|done]. right. split; [|done].
    intros e1 n1 v H1 H2 H3. by apply IH.
Qed.

(** *** Copies *)
Definition header_size (h : switch_event_header) : nat :=
  if h_idx h =? 0 then S (length (h_value h)) else (sum_list (map length (h_array h)) + length (h_array h))%nat.
Definition headers_size (hs : list switch_event_header) : nat := sum_list (map header_size hs).

Lemma add_headers_grows skip rename hs : forall e, event_ok e ->
  Z.of_nat (length (e_headers e) + headers_size hs) < 1000000 -> grows e (headers_size hs) (add_headers e hs skip rename).
Proof.
  induction hs as [|h hs IH]; intros e Hok Hn; cbn [add_headers].
  { exists e. split_and!; [done|done|lia|done]. }
  unfold headers_size in *. cbn [map] in *. cbn in Hn |- *.
  apply grows_bind; [|intros e1 Hok1 Hl1; apply IH; [done|lia]].
  destruct (skip (h_name h)); [exists e; split_and!; [done|done|lia|done]|].
  unfold header_size in *. destruct (h_idx h =? 0); cbn [negb].
  - apply base_add_grows; [done|done|lia].
  - apply (push_all_grows (fun e name v => switch_event_base_add_header e SWITCH_STACK_PUSH name v)
      (list_max (map length (h_array h)))); [|done| |lia].
    + intros e1 n1 v H1 _ H3. by apply base_add_grows.
    + apply Forall_forall. intros v Hv. pose proof (list_max_le (map length (h_array h)) (list_max (map length (h_array h)))) as [Hm _].
      specialize (Hm ltac:(lia)). rewrite List.Forall_forall in Hm. apply Hm, in_map. by apply list_elem_of_In.
Qed.

Definition empty_event (id : Z) (subclass : option (list Z)) (uniq : bool) : switch_event :=
  mk_event id subclass [] None None uniq 0.
Lemma empty_ok id subclass uniq : event_ok (empty_event id subclass uniq).
Proof. by split; [constructor| | |]. Qed.

(** ** Programs *)
Inductive event_op :=
| EAdd (stack : Z) (name : list Z) (data : option (list Z))
| EDel (name val : list Z)
| ERename (name new_name : list Z)
| EBody (body : option (list Z))
| ESubclass (s : list Z)
| EMerge (other : switch_event).
Definition event_step (e : switch_event) (op : event_op) : res (switch_event * switch_status) :=
  match op with
  | EAdd stack name data => switch_event_add_header_string e stack name data
  | EDel name val => switch_event_del_header_val e name val
  | ERename name new_name => Ret (switch_event_rename_header e name new_name)
  | EBody body => Ret (switch_event_set_body e body, SWITCH_STATUS_SUCCESS)
  | ESubclass s => switch_event_set_subclass_name e s
  | EMerge other => e <-! switch_event_merge e other;; Ret (e, SWITCH_STATUS_SUCCESS)
  end.
Definition op_size (op : event_op) : nat :=
  match op with
  | EAdd _ _ data => match data with Some d => S (length d) | None => 0%nat end
  | ESubclass s => S (length s)
  | EMerge other => headers_size (e_headers other)
  | _ => 0%nat
  end.
Fixpoint event_run (e : switch_event) (ops : list event_op) : res switch_event :=
  match ops with [] => Ret e | op :: ops => '(e, _) <-! event_step e op;; event_run e ops end.

Lemma rename_ok e name new_name : event_ok e -> event_ok (switch_event_rename_header e name new_name).1.
Proof.
  intros [Hnd Hf Hl Hh]. cbn [switch_event_rename_header fst]. unfold set_headers.
  set (f := fun h => if named name h then _ else h).
  assert (Ha : addrs (map f (e_headers e)) = addrs (e_headers e)).
  { unfold addrs. rewrite map_map. apply map_ext. intros h. unfold f. by destruct (named name h). }
  split; cbn [e_headers set_links e_fresh e_last].
  - by rewrite Ha.
  - apply Forall_map. eapply Forall_impl; [exact Hf|]. intros h Hh'. cbn. unfold f. by destruct (named name h).
  - by rewrite last_addr_map.
  - apply Forall_map. eapply Forall_impl; [exact Hh|]. intros h Hh'. cbn. unfold f. by destruct (named name h).
Qed.

Lemma event_step_ok e op : event_ok e -> Z.of_nat (length (e_headers e) + op_size op) < 1000000 ->
  exists e' st, event_step e op = Ret (e', st) /\ event_ok e' /\ (length (e_headers e') <= length (e_headers e) + op_size op)%nat.
Proof.
  intros Hok Hn. assert (Hl : zlen (e_headers e) < 1000000) by (unfold zlen; lia).
  destruct op as [stack name [d|]|name val|name new_name|body|s|other]; cbn [event_step op_size] in *.
  - destruct (base_add_grows (length d) e stack name d Hok ltac:(lia) ltac:(lia)) as (e' & E & H1 & H2 & _).
    cbn [switch_event_add_header_string]. unfold switch_event_base_add_header. rewrite E. by eexists _, _.
  - eexists _, _. split; [reflexivity|]. by split; [|lia].
  - destruct (del_header_val_spec e name val Hok Hl) as [-> Hok']. eexists _, _. split; [reflexivity|]. split; [done|].
    cbn. pose proof (keep_length name val (e_headers e)). lia.
  - eexists _, _. split; [reflexivity|]. split; [by apply rename_ok|]. cbn. rewrite length_map. lia.
  - eexists _, _. split; [reflexivity|]. by split; [apply set_body_ok|cbn; lia].
  - unfold switch_event_set_subclass_name.
    assert (Hok' : event_ok (set_subclass e s)) by (destruct Hok; by split).
    destruct (grows_del (set_subclass e s) SUBCLASS Hok' Hl) as (e1 & -> & H1 & H2 & _). cbn [rbind switch_event_add_header_string].
    cbn [set_subclass e_headers] in H2.
    destruct (base_add_grows (length s) e1 SWITCH_STACK_BOTTOM SUBCLASS s H1 ltac:(lia) ltac:(lia)) as (e' & E & H1' & H2' & _).
    unfold switch_event_base_add_header. rewrite E. eexists _, _. split; [reflexivity|]. split; [done|lia].
  - unfold switch_event_merge. destruct (add_headers_grows (fun _ => false) id (e_headers other) e Hok Hn) as (e' & -> & H1 & H2 & _).
    by eexists _, _.
Qed.

(** C17: every sequence of operations on an event with fewer than a million headers
    runs through: [last_header] always points at the last header of the list, no
    header is lost or linked twice, and hashes belong to their names. *)
Theorem event_invariant (ops : list event_op) : forall e,
  event_ok e -> Z.of_nat (length (e_headers e) + sum_list (map op_size ops)) < 1000000 ->
  exists e', event_run e ops = Ret e' /\ event_ok e'.
Proof.
  induction ops as [|op ops IH]; intros e Hok Hn; [by exists e|]. cbn [map event_run] in Hn |- *. cbn in Hn.
  destruct (event_step_ok e op Hok ltac:(lia)) as (e1 & st & -> & Hok1 & Hl1). cbn [rbind]. apply IH; [done|lia].
Qed.

Lemma event_invariant_witness : exists e',
  event_run (empty_event 0 None true)
    [EAdd SWITCH_STACK_BOTTOM (text "a") (Some (text "1")); EAdd SWITCH_STACK_TOP (text "b") (Some (text "ARRAY::x|:y"));
     EAdd SWITCH_STACK_PUSH (text "A") (Some (text "2")); EDel (text "b") []; ESubclass (text "s")] = Ret e' /\ event_ok e'.
Proof. apply event_invariant; [apply empty_ok|vm_compute; reflexivity]. Defined.
