(* ===== verification/EventProps.v ===== *)
(** * EventProps: events as maps, arrays and copies

    Events whose headers are unique behave as finite maps from names in any
    letter case to values; a value that shows an array is read back as the array;
    and a copy of an event has its headers. *)
From S2P Require Import Prelude HashTable CoreHash UrlCode Separate TextUtil CaseLanes NetList Event.
From Stdlib Require Import ZArith Lia.
From stdpp Require Import base numbers option list strings gmap.

Local Open Scope Z_scope.

(** ** Unique headers: a map *)
Definition key (name : list Z) : list Z := map ascii_lower name.
Definition plain_name (name : list Z) : Prop := (91 ∉ name) /\ name <> BODY.
Definition plain_data (data : list Z) : Prop := data <> [] /\ take 7 data <> ARRAY.

Lemma same_name_key a b : same_name a b = bool_decide (key a = key b).
Proof. done. Qed.
Lemma parse_plain name : 91 ∉ name -> parse_name name = (false, 0, name).
Proof. intros Hn. unfold parse_name. by rewrite split_at_none. Qed.

(** The value under a name. *)
Definition value_of (e : switch_event) (name : list Z) : option (list Z) :=
  option_map h_value (List.find (fun h => same_name (h_name h) name) (e_headers e)).
Lemma get_header_value e name : event_ok e -> name <> BODY ->
  switch_event_get_header_idx e name (-1) = value_of e name.
Proof.
  intros Hok Hn. unfold switch_event_get_header_idx, switch_event_get_header_ptr, value_of.
  rewrite find_header_named by apply Hok. destruct (List.find _ _) as [h|]; [done|]. by rewrite bool_decide_false.
Qed.

Lemma find_keep name hs n : Forall (fun h => h_hash h = name_hash (h_name h)) hs ->
  List.find (fun h => same_name (h_name h) n) (keep name [] hs) =
  if same_name name n then None else List.find (fun h => same_name (h_name h) n) hs.
Proof.
  intros Hh. unfold keep, deletes. rewrite (bool_decide_true ([] = [])) by done. cbn [orb].
  induction Hh as [|h hs Hh _ IH]; [by destruct (same_name name n)|]. cbn [List.filter List.find].
  rewrite andb_true_r, named_same by done. rewrite !same_name_key in *.
  destruct (bool_decide (key (h_name h) = key name)) eqn:E1; cbn [negb].
  - rewrite IH. apply bool_decide_eq_true in E1. rewrite E1. by destruct (bool_decide (key name = key n)).
  - cbn [List.find]. rewrite same_name_key, IH. apply bool_decide_eq_false in E1.
    destruct (bool_decide (key (h_name h) = key n)) eqn:E2; [|done]. apply bool_decide_eq_true in E2.
    by rewrite (bool_decide_false (key name = key n)) by congruence.
Qed.
Lemma find_app {A} (f : A -> bool) l1 l2 :
  List.find f (l1 ++ l2) = match List.find f l1 with Some x => Some x | None => List.find f l2 end.
Proof. induction l1 as [|x l1 IH]; [done|]. cbn. destruct (f x); [done|apply IH]. Qed.

(** A plain header added to an event with unique headers. *)
Lemma add_plain e (top : bool) name data : event_ok e -> e_uniq e = true -> zlen (e_headers e) < 1000000 ->
  plain_name name -> plain_data data ->
  exists e', switch_event_base_add_header e (if top then SWITCH_STACK_TOP else SWITCH_STACK_BOTTOM) name data = Ret e' /\
    event_ok e' /\ e_uniq e' = true /\ (length (e_headers e') <= S (length (e_headers e)))%nat /\
    forall n, value_of e' n = if same_name name n then Some data else value_of e n.
Proof.
  intros Hok Hu Hl [Hn Hb] [Hd Ha]. unfold switch_event_base_add_header.
  assert (E : base_add_header (length data) e (if top then SWITCH_STACK_TOP else SWITCH_STACK_BOTTOM) name data =
    (e1 <-! switch_event_del_header e name;; let '(e2, h) := new_header e1 name in
     link e2 (if top then SWITCH_STACK_TOP else SWITCH_STACK_BOTTOM) (with_value h data))).
  { destruct data as [|c data]; [done|]. cbn [length base_add_header]. unfold add_step, add_new.
    rewrite (bool_decide_false (name = BODY)), parse_plain by done. cbv match.
    replace (pushing (if top then SWITCH_STACK_TOP else SWITCH_STACK_BOTTOM)) with false by (by destruct top). cbn [orb].
    rewrite (bool_decide_false (c :: data = [])), Hu by done. by rewrite (bool_decide_false (take 7 (c :: data) = ARRAY)). }
  rewrite E. destruct (del_header_spec e name Hok Hl) as [-> Hok1]. cbn [rbind].
  set (e1 := set_links e (keep name [] (e_headers e)) _) in *.
  pose proof (new_header_ok e1 name Hok1) as Hok2. pose proof (new_header_off e1 name Hok1) as [Ho1 Ho2].
  unfold new_header in *. cbn [fst snd h_addr] in Ho1, Ho2.
  set (e2 := mk_event (e_id e1) _ _ _ _ _ _) in *.
  set (h := with_value (mk_header (e_fresh e1) name [] [] 0) data).
  destruct (link_spec e2 (if top then SWITCH_STACK_TOP else SWITCH_STACK_BOTTOM) h Hok2 Ho1 Ho2) as [El Hok3].
  assert (Ht : has (if top then SWITCH_STACK_TOP else SWITCH_STACK_BOTTOM) SWITCH_STACK_TOP = top) by (by destruct top).
  rewrite Ht in El, Hok3. assert (Eh : e_headers e2 = keep name [] (e_headers e)) by done.
  eexists. split; [exact El|]. split_and!; [done|done| |].
  - cbn [set_links e_headers]. rewrite Eh. pose proof (keep_length name [] (e_headers e)).
    destruct top; [cbn [length]|rewrite length_app; cbn [length]]; lia.
  - intros n. unfold value_of. cbn [set_links e_headers]. rewrite Eh.
    pose proof (find_keep name (e_headers e) n ltac:(apply Hok)) as Hf. destruct top.
    + cbn [List.find h_name]. change (h_name h) with name. destruct (same_name name n) eqn:En; [done|]. by rewrite Hf.
    + rewrite find_app, Hf. cbn [List.find h_name]. change (h_name h) with name.
      destruct (same_name name n) eqn:En; [done|]. by destruct (List.find _ (e_headers e)).
Qed.

Inductive map_op :=
| MAdd (top : bool) (name data : list Z)
| MDel (name : list Z)
| MGet (name : list Z).
Definition map_op_ok (op : map_op) : Prop :=
  match op with MAdd _ name data => plain_name name /\ plain_data data | MDel _ => True | MGet name => name <> BODY end.

(** What the operations return: for reads the value, otherwise nothing. *)
Definition event_map_step (e : switch_event) (op : map_op) : res (switch_event * option (list Z)) :=
  match op with
  | MAdd top name data =>
    e <-! switch_event_base_add_header e (if top then SWITCH_STACK_TOP else SWITCH_STACK_BOTTOM) name data;; Ret (e, None)
  | MDel name => e <-! switch_event_del_header e name;; Ret (e, None)
  | MGet name => Ret (e, switch_event_get_header_idx e name (-1))
  end.
Definition gmap_step (m : gmap (list Z) (list Z)) (op : map_op) : gmap (list Z) (list Z) * option (list Z) :=
  match op with
  | MAdd _ name data => (<[key name := data]> m, None)
  | MDel name => (delete (key name) m, None)
  | MGet name => (m, m !! key name)
  end.
Fixpoint event_map_run (e : switch_event) (ops : list map_op) : res (list (option (list Z))) :=
  match ops with
  | [] => Ret []
  | op :: ops => '(e, o) <-! event_map_step e op;; os <-! event_map_run e ops;; Ret (o :: os)
  end.
Fixpoint gmap_run (m : gmap (list Z) (list Z)) (ops : list map_op) : list (option (list Z)) :=
  match ops with [] => [] | op :: ops => let '(m, o) := gmap_step m op in o :: gmap_run m ops end.

Definition abstracts (e : switch_event) (m : gmap (list Z) (list Z)) : Prop := forall n, m !! key n = value_of e n.

Lemma event_map_step_ok e m op : event_ok e -> e_uniq e = true -> abstracts e m -> map_op_ok op ->
  zlen (e_headers e) < 1000000 ->
  exists e', event_map_step e op = Ret (e', (gmap_step m op).2) /\ event_ok e' /\ e_uniq e' = true /\
    abstracts e' (gmap_step m op).1 /\ (length (e_headers e') <= S (length (e_headers e)))%nat.
Proof.
  intros Hok Hu Hm Hop Hl. destruct op as [top name data|name|name]; cbn [event_map_step gmap_step fst snd map_op_ok] in *.
  - destruct Hop as [Hn Hd]. destruct (add_plain e top name data Hok Hu Hl Hn Hd) as (e' & -> & H1 & H2 & H3 & H4).
    exists e'. split_and!; try done. intros n. rewrite H4, same_name_key.
    case_bool_decide as E; [by rewrite E, lookup_insert_eq|]. by rewrite lookup_insert_ne.
  - destruct (del_header_spec e name Hok Hl) as [-> Hok']. eexists. split; [reflexivity|]. split_and!; [done|done| |].
    + intros n. unfold value_of. cbn [set_links e_headers]. rewrite find_keep by apply Hok. rewrite same_name_key.
      case_bool_decide as E; [by rewrite E, lookup_delete_eq|]. rewrite lookup_delete_ne by done. apply Hm.
    + cbn. pose proof (keep_length name [] (e_headers e)). lia.
  - exists e. rewrite get_header_value by done. split_and!; [by rewrite Hm|done|done|done|lia].
Qed.

(** C18: an event with unique headers, fewer than a million in all, answers every
    sequence of additions, deletions and reads of plain headers as a finite map keyed by
    names in any letter case, wherever the headers are put. Plain are names without the
    bracket of the notation of arrays other than [_body], and values that are not empty
    and do not begin with [ARRAY::]. *)
Theorem unique_headers_refine_map (ops : list map_op) : forall e m,
  event_ok e -> e_uniq e = true -> abstracts e m -> Forall map_op_ok ops ->
  Z.of_nat (length (e_headers e) + length ops) < 1000000 ->
  event_map_run e ops = Ret (gmap_run m ops).
Proof.
  induction ops as [|op ops IH]; intros e m Hok Hu Hm Hops Hl; [done|]. apply Forall_cons in Hops as [Hop Hops].
  cbn [event_map_run gmap_run length] in *.
  destruct (event_map_step_ok e m op Hok Hu Hm Hop) as (e' & -> & H1 & H2 & H3 & H4); [unfold zlen; lia|].
  cbn [rbind]. destruct (gmap_step m op) as [m' o]. cbn [fst snd] in *. rewrite (IH e' m') by (done || lia). done.
Qed.

Lemma unique_headers_refine_map_witness :
  event_map_run (empty_event 0 None true)
    [MAdd false (text "Call-ID") (text "1"); MAdd true (text "call-id") (text "2"); MGet (text "CALL-ID"); MDel (text "x")] =
  Ret (gmap_run ∅ [MAdd false (text "Call-ID") (text "1"); MAdd true (text "call-id") (text "2"); MGet (text "CALL-ID"); MDel (text "x")]).
Proof.
  apply unique_headers_refine_map; [apply empty_ok|reflexivity| | |vm_compute; reflexivity].
  - intros n. apply lookup_empty.
  - repeat (apply Forall_cons; split); try (by apply Forall_nil); unfold map_op_ok, plain_name, plain_data;
      repeat match goal with |- _ /\ _ => split end; first [exact I|apply (bool_decide_unpack _); vm_compute; exact I].
Defined.

(** ** Arrays *)
Definition no_sep (v : list Z) : Prop := strstr_split SEP v = None.

Lemma split_first v rest : no_sep v -> strstr_split SEP (v ++ SEP ++ rest) = Some (v, rest).
Proof.
  unfold no_sep. induction v as [|c v IH]; intros Hv; [done|]. cbn [strstr_split] in Hv.
  destruct (starts_with SEP (c :: v)) as [r|] eqn:Es; [done|].
  destruct (strstr_split SEP v) as [[a b]|] eqn:Ev; [done|]. cbn [app strstr_split].
  assert (Es' : starts_with SEP (c :: v ++ SEP ++ rest) = None).
  { change SEP with [124; 58] in *. cbn [starts_with] in *. destruct (124 =? c); [|done].
    destruct v as [|d v]; [done|]. cbn [app starts_with] in *. by destruct (58 =? d). }
  by rewrite Es', IH.
Qed.
Lemma separate_join vs : forall n, vs <> [] -> Forall no_sep vs -> (length vs <= S n)%nat -> separate_by SEP n (join_values vs) = vs.
Proof.
  induction vs as [|v vs IH]; intros n Hne Hs Hn; [done|]. apply Forall_cons in Hs as [Hv Hs].
  destruct vs as [|w vs].
  - destruct n; [done|]. cbn [join_values separate_by]. by rewrite Hv.
  - destruct n as [|n]; [cbn in Hn; lia|]. cbn [join_values separate_by]. rewrite split_first by done.
    f_equal. apply IH; [done|done|cbn in *; lia].
Qed.

(** The last header of [e], behind [hs], is the only one named [name], and holds [vs]. *)
Definition holds (e : switch_event) (hs : list switch_event_header) (name : list Z) (vs : list (list Z)) : Prop :=
  exists h, e_headers e = hs ++ [h] /\ List.find (fun x => same_name (h_name x) name) hs = None /\
    h_name h = name /\ h_array h = vs /\ h_value h = redraw vs.

Lemma holds_ptr e hs name vs : event_ok e -> holds e hs name vs ->
  exists h, switch_event_get_header_ptr e name = Some h /\ In h (e_headers e) /\ h_array h = vs /\ h_value h = redraw vs.
Proof.
  intros Hok (h & E & Hf & Hn & Ha & Hv). exists h. unfold switch_event_get_header_ptr.
  rewrite find_header_named by apply Hok. rewrite E, find_app, Hf. cbn [List.find]. rewrite Hn.
  rewrite same_name_key, bool_decide_true by done. split_and!; [done| |done|done]. apply in_app_iff. right. by left.
Qed.

Lemma keep_absent name hs : Forall (fun h => h_hash h = name_hash (h_name h)) hs ->
  List.find (fun x => same_name (h_name x) name) hs = None -> keep name [] hs = hs.
Proof.
  unfold keep, deletes. rewrite (bool_decide_true ([] = [])) by done. cbn [orb].
  induction 1 as [|h hs Hh _ IH]; intros Hf; [done|]. cbn [List.find List.filter] in *. rewrite andb_true_r, named_same by done.
  destruct (same_name (h_name h) name); [done|]. cbn [negb]. by rewrite IH.
Qed.
Lemma value_of_None e name : value_of e name = None -> List.find (fun x => same_name (h_name x) name) (e_headers e) = None.
Proof. unfold value_of. by destruct (List.find _ _). Qed.

(** Deleting a header that is not there, when headers are unique. *)
Lemma uniq_del_absent e name : event_ok e -> zlen (e_headers e) < 1000000 -> value_of e name = None ->
  exists e', (if e_uniq e then switch_event_del_header e name else Ret e) = Ret e' /\ event_ok e' /\
    e_headers e' = e_headers e /\ e_uniq e' = e_uniq e /\ e_body e' = e_body e /\ e_id e' = e_id e /\ e_subclass e' = e_subclass e.
Proof.
  intros Hok Hl Hn. destruct (e_uniq e) eqn:Eu; [|by exists e]. destruct (del_header_spec e name Hok Hl) as [-> Hok1].
  eexists. split; [reflexivity|]. split; [done|]. cbn [set_links e_headers e_uniq e_body e_id e_subclass].
  rewrite keep_absent by (apply Hok || by apply value_of_None). by split_and!.
Qed.
(** A header linked at the bottom. *)
Lemma link_new e stack name h : event_ok e -> has stack SWITCH_STACK_TOP = false -> h_name h = name -> h_addr h = e_fresh e ->
  exists e', link (new_header e name).1 stack h = Ret e' /\ event_ok e' /\
    e_headers e' = e_headers e ++ [mk_header (e_fresh e) name (h_value h) (h_array h) (name_hash name)] /\
    e_uniq e' = e_uniq e /\ e_body e' = e_body e /\ e_id e' = e_id e /\ e_subclass e' = e_subclass e.
Proof.
  intros Hok Ht En Ea. pose proof (new_header_ok e name Hok) as Hok2. pose proof (new_header_off e name Hok) as [Ho1 Ho2].
  cbn [new_header snd h_addr] in Ho1, Ho2.
  destruct (link_spec (new_header e name).1 stack h Hok2 ltac:(by rewrite Ea) ltac:(by rewrite Ea)) as [El Hok3].
  rewrite Ht in El, Hok3. eexists. split; [exact El|]. split; [done|]. cbn [set_links e_headers new_header fst].
  by rewrite Ea, En.
Qed.

Lemma push_first fuel e name v : event_ok e -> zlen (e_headers e) < 1000000 -> plain_name name -> plain_data v ->
  value_of e name = None ->
  exists e', base_add_header fuel e SWITCH_STACK_PUSH name v = Ret e' /\ event_ok e' /\ holds e' (e_headers e) name [v] /\
    e_uniq e' = e_uniq e /\ e_body e' = e_body e /\ e_id e' = e_id e /\ e_subclass e' = e_subclass e.
Proof.
  intros Hok Hl [Hn Hb] [Hd Ha] Hnone. pose proof (value_of_None _ _ Hnone) as Hf.
  assert (E : base_add_header fuel e SWITCH_STACK_PUSH name v =
    (e1 <-! (if e_uniq e then switch_event_del_header e name else Ret e);; let '(e2, h) := new_header e1 name in
     link e2 SWITCH_STACK_PUSH (with_array h [v]))).
  { destruct fuel; cbn [base_add_header]; unfold add_step, add_new;
      rewrite (bool_decide_false (name = BODY)), parse_plain by done; cbv match;
      change (pushing SWITCH_STACK_PUSH) with true; cbn [orb];
      unfold switch_event_get_header_ptr; rewrite find_header_named, Hf by apply Hok;
      rewrite (bool_decide_false (v = [])) by done; by rewrite (bool_decide_false (take 7 v = ARRAY)). }
  rewrite E. destruct (uniq_del_absent e name Hok Hl Hnone) as (e1 & -> & Hok1 & Eh & Eu & Eb & Ei & Es). cbn [rbind].
  destruct (link_new e1 SWITCH_STACK_PUSH name (with_array (new_header e1 name).2 [v]) Hok1) as (e2 & El & Hok2 & Eh2 & Eu2 & Eb2 & Ei2 & Es2);
    [done..|].
  exists e2. split; [exact El|]. split_and!; [done| |congruence..]. rewrite Eh in Eh2. eexists. split; [exact Eh2|]. by split_and!.
Qed.

Lemma push_next fuel e hs name vs v : event_ok e -> plain_name name -> vs <> [] -> holds e hs name vs ->
  exists e', base_add_header fuel e SWITCH_STACK_PUSH name v = Ret e' /\ event_ok e' /\ holds e' hs name (vs ++ [v]) /\
    e_uniq e' = e_uniq e /\ e_body e' = e_body e /\ e_id e' = e_id e /\ e_subclass e' = e_subclass e.
Proof.
  intros Hok [Hn Hb] Hne Hh. destruct (holds_ptr e hs name vs Hok Hh) as (h & Hp & Hin & Ea & Ev).
  assert (E : base_add_header fuel e SWITCH_STACK_PUSH name v = Ret (add_value e SWITCH_STACK_PUSH h v)).
  { destruct fuel; cbn [base_add_header]; unfold add_step;
      rewrite (bool_decide_false (name = BODY)), parse_plain by done; cbv match;
      change (pushing SWITCH_STACK_PUSH) with true; cbn [orb]; by rewrite Hp. }
  rewrite E. unfold add_value. change (has SWITCH_STACK_PUSH SWITCH_STACK_PUSH) with true. cbv match.
  assert (Ei : (h_idx h =? 0) = false).
  { unfold h_idx, zlen. rewrite Ea. destruct vs; [done|]. apply Z.eqb_neq. cbn. lia. }
  rewrite Ei. destruct (in_ok e h Hok Hin) as [Ha1 Ha2]. eexists. split; [reflexivity|]. split_and!; [| |done..].
  - by apply update_ok.
  - destruct Hh as (h0 & E0 & Hf & Hn0 & Ha0 & Hv0).
    assert (h0 = h) as ->.
    { pose proof Hp as Hp'. unfold switch_event_get_header_ptr in Hp'. rewrite find_header_named in Hp' by apply Hok.
      rewrite E0, find_app, Hf in Hp'. cbn [List.find] in Hp'. rewrite Hn0, same_name_key, bool_decide_true in Hp' by done. by injection Hp'. }
    exists (with_array h (h_array h ++ [v])). rewrite <- Ea. split_and!; [|done..].
    cbn [update set_headers set_links e_headers]. rewrite E0, map_app. cbn [map]. rewrite bool_decide_true by done. f_equal.
    destruct Hok as [Hnd _ _ _]. rewrite E0 in Hnd. unfold addrs in Hnd. rewrite map_app in Hnd. apply NoDup_app in Hnd as (_ & Hnd & _).
    transitivity (map id hs); [|apply map_id]. apply map_ext_in. intros x Hx. rewrite bool_decide_false; [done|].
    cbn [h_addr with_array]. intros Eq. apply (Hnd (h_addr x)); [apply list_elem_of_fmap; exists x; split; [done|by apply list_elem_of_In]|].
    cbn [map]. rewrite Eq. by constructor.
Qed.

(** Values pushed one after the other, each with the fuel its text gives. *)
Definition push_all (fuel : list Z -> nat) (e : switch_event) (name : list Z) (vs : list (list Z)) : res switch_event :=
  fold_left (fun r v => e <-! r;; base_add_header (fuel v) e SWITCH_STACK_PUSH name v) vs (Ret e).

Lemma push_rest fuel name hs vs : forall e ws, event_ok e -> plain_name name -> ws <> [] -> holds e hs name ws ->
  exists e', push_all fuel e name vs = Ret e' /\ event_ok e' /\ holds e' hs name (ws ++ vs) /\
    e_uniq e' = e_uniq e /\ e_body e' = e_body e /\ e_id e' = e_id e /\ e_subclass e' = e_subclass e.
Proof.
  unfold push_all. induction vs as [|v vs IH]; intros e ws Hok Hn Hne Hh; cbn [fold_left rbind].
  { exists e. rewrite app_nil_r. by split_and!. }
  destruct (push_next (fuel v) e hs name ws v Hok Hn Hne Hh) as (e1 & -> & Hok1 & Hh1 & ? & ? & ? & ?).
  destruct (IH e1 (ws ++ [v]) Hok1 Hn ltac:(by destruct ws) Hh1) as (e2 & -> & Hok2 & Hh2 & ? & ? & ? & ?).
  exists e2. rewrite <- app_assoc in Hh2. split_and!; [done|done|done|congruence..].
Qed.
Lemma push_values fuel e name v vs : event_ok e -> zlen (e_headers e) < 1000000 -> plain_name name -> plain_data v ->
  value_of e name = None ->
  exists e', push_all fuel e name (v :: vs) = Ret e' /\ event_ok e' /\ holds e' (e_headers e) name (v :: vs) /\
    e_uniq e' = e_uniq e /\ e_body e' = e_body e /\ e_id e' = e_id e /\ e_subclass e' = e_subclass e.
Proof.
  intros Hok Hl Hn Hd Hnone. unfold push_all. cbn [fold_left rbind].
  destruct (push_first (fuel v) e name v Hok Hl Hn Hd Hnone) as (e1 & -> & Hok1 & Hh1 & ? & ? & ? & ?).
  destruct (push_rest fuel name _ vs e1 [v] Hok1 Hn ltac:(done) Hh1) as (e2 & E & Hok2 & Hh2 & ? & ? & ? & ?).
  unfold push_all in E. rewrite E. exists e2. split_and!; [done|done|done|congruence..].
Qed.

(** The values of an array header, by index and as a whole. *)
Lemma holds_get e hs name vs : event_ok e -> holds e hs name vs ->
  switch_event_get_header_idx e name (-1) = Some (redraw vs) /\
  forall i, switch_event_get_header_idx e name (Z.of_nat i) = vs !! i.
Proof.
  intros Hok Hh. destruct (holds_ptr e hs name vs Hok Hh) as (h & Hp & _ & Ea & Ev).
  unfold switch_event_get_header_idx. rewrite Hp. split; [by rewrite Ev|]. intros i.
  rewrite Z.gtb_ltb, (proj2 (Z.ltb_lt _ _)) by lia. unfold h_idx. rewrite Ea, Nat2Z.id. unfold zlen.
  destruct (Z.ltb_spec (Z.of_nat i) (Z.of_nat (length vs))); [done|]. symmetry. apply lookup_ge_None. lia.
Qed.

(** Values pushed to a header are found by their index, and the value of the
    header as a whole, added to another event under another name, gives the same
    array there.  The values must not contain the separator, and the first one
    must be plain. *)
Theorem array_header_roundtrip (e e' : switch_event) (name name' v w : list Z) (vs : list (list Z)) :
  let all := v :: w :: vs in
  event_ok e -> zlen (e_headers e) < 1000000 -> plain_name name -> value_of e name = None ->
  event_ok e' -> zlen (e_headers e') < 1000000 -> plain_name name' -> value_of e' name' = None ->
  plain_data v -> Forall no_sep all ->
  exists e1 e1' whole, push_all length e name all = Ret e1 /\
    switch_event_get_header_idx e1 name (-1) = Some whole /\
    switch_event_base_add_header e' SWITCH_STACK_BOTTOM name' whole = Ret e1' /\
    event_ok e1' /\ switch_event_get_header_idx e1' name' (-1) = Some whole /\
    forall i, switch_event_get_header_idx e1 name (Z.of_nat i) = all !! i /\
              switch_event_get_header_idx e1' name' (Z.of_nat i) = all !! i.
Proof.
  intros all Hok Hl Hn Hnone Hok' Hl' Hn' Hnone' Hd Hs.
  destruct (push_values length e name v (w :: vs) Hok Hl Hn Hd Hnone) as (e1 & E1 & Hok1 & Hh1 & _).
  assert (Hwhole : redraw all = ARRAY ++ join_values all).
  { unfold redraw. rewrite (proj2 (Z.gtb_lt _ _)); [done|]. unfold all, zlen. cbn [length]. lia. }
  set (data := ARRAY ++ join_values all).
  assert (Hlen : (length all <= length data /\ 8 <= length data)%nat).
  { unfold data. rewrite length_app. change (length ARRAY) with 7%nat. unfold all.
    change (join_values (v :: w :: vs)) with (v ++ SEP ++ join_values (w :: vs)). cbn [length].
    assert (Hj : forall us, (length us <= S (length (join_values us)))%nat).
    { induction us as [|u us IH]; [cbn; lia|]. destruct us as [|u' us]; [cbn; lia|].
      change (join_values (u :: u' :: us)) with (u ++ SEP ++ join_values (u' :: us)). cbn [length] in *.
      rewrite !length_app. change (length SEP) with 2%nat. lia. }
    specialize (Hj (w :: vs)). rewrite !length_app. change (length SEP) with 2%nat. cbn [length] in Hj. lia. }
  assert (Hav : array_values data = Some all).
  { unfold array_values. rewrite (proj2 (Z.ltb_ge _ _)) by (unfold zlen; lia). f_equal.
    change (drop 7 data) with (join_values all). apply separate_join; [done|done|lia]. }
  destruct (uniq_del_absent e' name' Hok' Hl' Hnone') as (e2 & Ed & Hok2 & Eh2 & _).
  assert (Hl2 : zlen (e_headers e2) < 1000000) by (by rewrite Eh2).
  assert (Hnone2 : value_of e2 name' = None) by (unfold value_of in *; by rewrite Eh2).
  destruct (push_values (fun _ => (length data - 1)%nat) e2 name' v (w :: vs) Hok2 Hl2 Hn' Hd Hnone2) as (e1' & E1' & Hok1' & Hh1' & _).
  exists e1, e1', data. destruct (holds_get e1 _ name all Hok1 Hh1) as [G1 G2]. destruct (holds_get e1' _ name' all Hok1' Hh1') as [G1' G2'].
  rewrite Hwhole in G1, G1'. split_and!; [done|done| |done|done|by intros i].
  unfold switch_event_base_add_header. destruct (length data) as [|f] eqn:El; [lia|]. cbn [base_add_header].
  unfold add_step, add_new. destruct Hn' as [Hn' Hb']. rewrite (bool_decide_false (name' = BODY)), parse_plain by done. cbv match.
  change (pushing SWITCH_STACK_BOTTOM) with false. cbn [orb]. rewrite (bool_decide_false (data = [])) by (by intros ->).
  rewrite Ed. cbn [rbind]. rewrite (bool_decide_true (take 7 data = ARRAY)) by done. rewrite Hav.
  replace (S f - 1)%nat with f in E1' by lia. exact E1'.
Qed.

Lemma array_header_roundtrip_witness :
  exists e1 e1' whole, push_all length (empty_event 0 None false) (text "a") [text "x"; text "y|"; text "z"] = Ret e1 /\
    switch_event_get_header_idx e1 (text "a") (-1) = Some whole /\
    switch_event_base_add_header (empty_event 0 None true) SWITCH_STACK_BOTTOM (text "b") whole = Ret e1' /\
    event_ok e1' /\ switch_event_get_header_idx e1' (text "b") (-1) = Some whole /\
    forall i, switch_event_get_header_idx e1 (text "a") (Z.of_nat i) = [text "x"; text "y|"; text "z"] !! i /\
              switch_event_get_header_idx e1' (text "b") (Z.of_nat i) = [text "x"; text "y|"; text "z"] !! i.
Proof.
  apply (array_header_roundtrip (empty_event 0 None false) (empty_event 0 None true) (text "a") (text "b") (text "x") (text "y|") [text "z"]);
    try (apply empty_ok); try reflexivity; unfold plain_name, plain_data;
    repeat match goal with |- _ /\ _ => split end; try (apply (bool_decide_unpack _); vm_compute; exact I).
Defined.

(** ** Replacing an element *)
(** The element is replaced, but the value of the whole header is not drawn again. *)
Example replaced_element_stale : exists e1 e2,
  push_all length (empty_event 0 None false) (text "a") [text "x"; text "y"] = Ret e1 /\
  switch_event_base_add_header e1 SWITCH_STACK_BOTTOM (text "a[0]") (text "new") = Ret e2 /\
  switch_event_get_header_idx e2 (text "a") 0 = Some (text "new") /\
  switch_event_get_header_idx e2 (text "a") (-1) = Some (text "ARRAY::x|:y").
Proof. eexists _, _. split_and!; reflexivity. Qed.

(** ** Copies *)
Definition view (h : switch_event_header) : list Z * list Z * list (list Z) := (h_name h, h_value h, h_array h).
Definition copyable (h : switch_event_header) : Prop :=
  plain_name (h_name h) /\
  match h_array h with [] => plain_data (h_value h) | v :: vs => plain_data v /\ h_value h = redraw (v :: vs) end.
Definition keys (hs : list switch_event_header) : list (list Z) := map (fun h => key (h_name h)) hs.

Lemma add_absent e name data : event_ok e -> zlen (e_headers e) < 1000000 -> plain_name name -> plain_data data ->
  value_of e name = None ->
  exists e' h, switch_event_base_add_header e SWITCH_STACK_BOTTOM name data = Ret e' /\ event_ok e' /\
    e_headers e' = e_headers e ++ [h] /\ view h = (name, data, []) /\
    e_uniq e' = e_uniq e /\ e_body e' = e_body e /\ e_id e' = e_id e /\ e_subclass e' = e_subclass e.
Proof.
  intros Hok Hl [Hn Hb] [Hd Ha] Hnone. unfold switch_event_base_add_header.
  assert (E : base_add_header (length data) e SWITCH_STACK_BOTTOM name data =
    (e1 <-! (if e_uniq e then switch_event_del_header e name else Ret e);; let '(e2, h) := new_header e1 name in
     link e2 SWITCH_STACK_BOTTOM (with_value h data))).
  { destruct (length data); cbn [base_add_header]; unfold add_step, add_new;
      rewrite (bool_decide_false (name = BODY)), parse_plain by done; cbv match;
      change (pushing SWITCH_STACK_BOTTOM) with false; cbn [orb];
      rewrite (bool_decide_false (data = [])) by done; by rewrite (bool_decide_false (take 7 data = ARRAY)). }
  rewrite E. destruct (uniq_del_absent e name Hok Hl Hnone) as (e1 & -> & Hok1 & Eh & Eu & Eb & Ei & Es). cbn [rbind].
  destruct (link_new e1 SWITCH_STACK_BOTTOM name (with_value (new_header e1 name).2 data) Hok1) as (e2 & El & Hok2 & Eh2 & Eu2 & Eb2 & Ei2 & Es2);
    [done..|].
  rewrite Eh in Eh2. eexists e2, _. split; [exact El|]. split; [done|]. split; [exact Eh2|]. split_and!; [done|congruence..].
Qed.
Lemma absent_key e name : key name ∉ keys (e_headers e) -> value_of e name = None.
Proof.
  unfold value_of, keys. induction (e_headers e) as [|h hs IH]; intros Hn; [done|]. cbn [map List.find] in *.
  apply not_elem_of_cons in Hn as [Hk Hn]. rewrite same_name_key, bool_decide_false by congruence. auto.
Qed.

Lemma copy_headers skip hs : (forall n, skip n = false) -> forall e, event_ok e -> Forall copyable hs ->
  NoDup (keys (e_headers e) ++ keys hs) -> Z.of_nat (length (e_headers e) + length hs) < 1000000 ->
  exists e', add_headers e hs skip id = Ret e' /\ event_ok e' /\
    map view (e_headers e') = map view (e_headers e) ++ map view hs /\
    e_uniq e' = e_uniq e /\ e_body e' = e_body e /\ e_id e' = e_id e /\ e_subclass e' = e_subclass e.
Proof.
  intros Hskip. induction hs as [|h hs IH]; intros e Hok Hc Hnd Hl; cbn [add_headers].
  { exists e. rewrite app_nil_r. by split_and!. }
  apply Forall_cons in Hc as [[Hn Hh] Hc]. rewrite Hskip. cbn [length keys map] in *.
  assert (Hnone : value_of e (h_name h) = None).
  { apply absent_key. apply NoDup_app in Hnd as (_ & Hnd & _). intros Hin. apply (Hnd _ Hin). by constructor. }
  assert (Hz : zlen (e_headers e) < 1000000) by (unfold zlen; lia). change (id (h_name h)) with (h_name h).
  assert (Hone : exists e1, (if negb (h_idx h =? 0) then
      fold_left (fun r v => e <-! r;; switch_event_base_add_header e SWITCH_STACK_PUSH (h_name h) v) (h_array h) (Ret e)
      else switch_event_base_add_header e SWITCH_STACK_BOTTOM (h_name h) (h_value h)) = Ret e1 /\ event_ok e1 /\
    (exists h1, e_headers e1 = e_headers e ++ [h1] /\ view h1 = view h) /\
    e_uniq e1 = e_uniq e /\ e_body e1 = e_body e /\ e_id e1 = e_id e /\ e_subclass e1 = e_subclass e).
  { unfold h_idx, view. destruct (h_array h) as [|v vs] eqn:Ea.
    - cbn [negb]. destruct (add_absent e (h_name h) (h_value h) Hok Hz Hn Hh Hnone) as (e1 & h1 & -> & Hok1 & Eh & Ev & Hf).
      exists e1. split_and!; [done|done|by exists h1|apply Hf..].
    - destruct Hh as [Hd Hv]. rewrite zlen_cons. pose proof (zlen_nonneg vs). rewrite (proj2 (Z.eqb_neq _ 0)) by lia. cbn [negb].
      destruct (push_values length e (h_name h) v vs Hok Hz Hn Hd Hnone) as (e1 & E & Hok1 & (h1 & Eh & _ & E1 & E2 & E3) & Hf).
      exists e1. split_and!; [exact E|done|exists h1; split; [done|by rewrite E1, E2, E3, Hv]|apply Hf..]. }
  destruct Hone as (e1 & -> & Hok1 & (h1 & Eh1 & Ev1) & Eu & Eb & Ei & Es). cbn [rbind].
  destruct (IH e1 Hok1 Hc) as (e2 & -> & Hok2 & Ev2 & Eu2 & Eb2 & Ei2 & Es2).
  - unfold keys. rewrite Eh1, map_app, <- app_assoc. cbn [map app].
    assert (En : h_name h1 = h_name h) by (unfold view in Ev1; congruence). by rewrite En.
  - rewrite Eh1, length_app. cbn [length]. lia.
  - exists e2. split_and!; [done|done| |congruence..]. rewrite Ev2, Eh1, map_app, <- app_assoc. cbn [map app]. by rewrite Ev1.
Qed.

(** A copy of an event without subclass whose header names differ has the same
    headers in the same order, arrays included, the same body and the same flags. *)
Theorem dup_copies (e : switch_event) :
  e_subclass e = None -> Forall copyable (e_headers e) -> NoDup (keys (e_headers e)) -> zlen (e_headers e) < 1000000 ->
  exists e', switch_event_dup e = Ret e' /\ event_ok e' /\ map view (e_headers e') = map view (e_headers e) /\
    e_body e' = e_body e /\ e_uniq e' = e_uniq e /\ e_id e' = e_id e.
Proof.
  intros Hs Hc Hnd Hl. unfold switch_event_dup, create_clone. rewrite Hs. cbn [rbind].
  set (e0 := copy_fields _ e). assert (Hok0 : event_ok e0) by (split; by constructor).
  destruct (copy_headers (skip_subclass e) (e_headers e)) with (e := e0) as (e1 & -> & Hok1 & Ev & Eu & Eb & Ei & _);
    [intros n; unfold skip_subclass; by rewrite Hs|done|done|done|unfold zlen in Hl; cbn; lia|].
  cbn [rbind]. destruct (e_body e) as [b|] eqn:Ebody.
  - exists (switch_event_set_body e1 (Some b)). split_and!; [done|by apply set_body_ok|done|done|done|done].
  - exists e1. by split_and!.
Qed.

Lemma dup_copies_witness :
  let e := mk_event 3 None
    [mk_header 0 (text "a") (text "1") [] (name_hash (text "a"));
     mk_header 4 (text "b") (text "ARRAY::x|:y") [text "x"; text "y"] (name_hash (text "b"))] (Some 4%nat) (Some (text "body")) true 5 in
  exists e', switch_event_dup e = Ret e' /\ event_ok e' /\ map view (e_headers e') = map view (e_headers e) /\
    e_body e' = e_body e /\ e_uniq e' = e_uniq e /\ e_id e' = e_id e.
Proof.
  cbv zeta. apply dup_copies; [reflexivity| | |vm_compute; reflexivity].
  - repeat (apply Forall_cons; split); try (by apply Forall_nil); unfold copyable, plain_name, plain_data; cbn [h_name h_array h_value];
      repeat match goal with |- _ /\ _ => split end; try reflexivity; apply (bool_decide_unpack _); vm_compute; exact I.
  - apply (bool_decide_unpack _). vm_compute. exact I.
Defined.
