(* ===== verification/EventText.v ===== *)
(** * EventText: events as text, and what they select

    [switch_event_serialize], with the sizes of its two buffers, the test whether
    an event matches a subscription, and permission lists, src/switch_event.c. *)
From S2P Require Import Prelude HashTable CoreHash UrlCode Separate TextUtil CaseLanes NetList Event.
From Stdlib Require Import ZArith Lia.
From stdpp Require Import base numbers option list strings.

Local Open Scope Z_scope.

(** ** Printing *)
(** [%d] of a number that is not negative: twenty digits are enough. *)
Fixpoint decimal_digits (fuel : nat) (n : Z) : list Z :=
  match fuel with
  | O => []
  | S fuel => if n <? 10 then [48 + n] else decimal_digits fuel (n / 10) ++ [48 + n mod 10]
  end.
Definition decimal (n : Z) : list Z := decimal_digits 20 n.

(** [switch_snprintf(p, room, "%s", s)] keeps the last byte for the terminator. *)
Definition snprintf (room : Z) (s : list Z) : list Z := take (Z.to_nat (room - 1)) s.

(** ** Serializing *)
Definition blocksize : Z := 512.
Definition UNDEF : list Z := text "_undef_".
Definition new_len (h : switch_event_header) : Z :=
  if h_idx h =? 0 then zlen (h_value h) * 3 + 1
  else fold_left (fun n v => n + (zlen v * 3 + 1)) (h_array h) 0.
(** The contents of [encode_buf] for a value. *)
Definition encoded_value (encode : bool) (encode_len : Z) (v : list Z) : list Z :=
  if encode then url_encode_loop false v 0 (u64 (encode_len - 1))
  else snprintf encode_len (91 :: v ++ [93]).
(** [if ((len + llen) > dlen) dlen += blocksize + (len + llen)] *)
Definition grow (len llen dlen : Z) : Z := if len + llen >? dlen then dlen + (blocksize + (len + llen)) else dlen.
(** The text printed so far, [dlen] and [encode_len]. *)
Definition serialize_header (encode : bool) (st : list Z * Z * Z) (hp : switch_event_header) : list Z * Z * Z :=
  let '(buf, dlen, encode_len) := st in
  let encode_len := if encode_len <? new_len hp then new_len hp else encode_len in
  let enc := encoded_value encode encode_len (h_value hp) in
  let llen := zlen (h_name hp) + zlen enc + 8 in
  let dlen := grow (zlen buf) llen dlen in
  let line := h_name hp ++ [58; 32] ++ (if bool_decide (enc = []) then UNDEF else enc) ++ [10] in
  (buf ++ snprintf (dlen - zlen buf) line, dlen, encode_len).
Definition switch_event_serialize (e : switch_event) (encode : bool) : list Z :=
  let '(buf, dlen, _) := fold_left (serialize_header encode) (e_headers e) ([], blocksize * 2, 1536) in
  match e_body e with
  | Some body =>
    let blen := zlen body in
    let llen := if blen =? 0 then blen + 5 else blen + 25 in
    let dlen := grow (zlen buf) llen dlen in
    buf ++ snprintf (dlen - zlen buf)
      (if blen =? 0 then [10] else text "Content-Length: " ++ decimal blen ++ [10; 10] ++ body)
  | None => buf ++ snprintf (dlen - zlen buf) [10]
  end.

(** ** Subscriptions *)
Definition SWITCH_EVENT_ALL : Z := 90.
Definition has_prefix_ci (p s : list Z) : bool := same_name (take (length p) s) p.
Definition switch_events_match (e : switch_event) (node_id : Z) (node_subclass : option (list Z)) : bool :=
  let all := node_id =? SWITCH_EVENT_ALL in
  let sub :=
    match e_subclass e, node_subclass with
    | Some es, Some ns =>
      if has_prefix_ci (text "file:") ns then
        match switch_event_get_header_idx e (text "file") (-1) with Some f => bool_decide (drop 5 ns = f) | None => all end
      else if has_prefix_ci (text "func:") ns then
        match switch_event_get_header_idx e (text "function") (-1) with Some f => bool_decide (drop 5 ns = f) | None => all end
      else bool_decide (es = ns)
    | _, None => true
    | None, Some _ => false
    end in
  match all, node_subclass with
  | true, None => true
  | _, _ => if all || (e_id e =? node_id) then sub else false
  end.

Definition switch_event_check_permission_list (l : option switch_event) (default_allow : bool) (name : list Z) : bool :=
  match l with
  | None => true
  | Some e =>
    match e_headers e with
    | [] => default_allow
    | _ =>
      match switch_event_get_header_idx e name (-1) with
      | Some v => negb (default 0 (head v) =? 100)
      | None => default_allow
      end
    end
  end.

(** ** What is printed *)
Definition printed_line (h : switch_event_header) : list Z := h_name h ++ [58; 32] ++ url_escape false (h_value h) ++ [10].
Definition printed_body (b : option (list Z)) : list Z :=
  match b with
  | Some (c :: body) => text "Content-Length: " ++ decimal (zlen (c :: body)) ++ [10; 10] ++ c :: body
  | _ => [10]
  end.

Lemma snprintf_fits room s : zlen s < room -> snprintf room s = s.
Proof. intros H. unfold snprintf. apply take_ge. unfold zlen in H. lia. Qed.
Lemma grow_room len llen dlen : 0 <= len -> 0 <= llen -> 0 <= dlen -> len + llen <= grow len llen dlen /\ dlen <= grow len llen dlen.
Proof. unfold grow, blocksize. intros. rewrite Z.gtb_ltb. destruct (Z.ltb_spec dlen (len + llen)); lia. Qed.

Lemma decimal_length n : 0 <= n < 1000000 -> zlen (decimal n) <= 6.
Proof.
  assert (H : forall k fuel n, (0 < k)%nat -> 0 <= n < 10 ^ Z.of_nat k -> zlen (decimal_digits fuel n) <= Z.of_nat k).
  { intros k fuel. revert k. induction fuel as [|fuel IH]; intros k m Hk Hm; [change (zlen (decimal_digits 0 m)) with 0; lia|].
    cbn [decimal_digits]. destruct (Z.ltb_spec m 10); [change (zlen [48 + m]) with 1; lia|].
    rewrite zlen_app. change (zlen [48 + m mod 10]) with 1. destruct k as [|[|k]]; [lia|cbn in Hm; lia|].
    assert (Hk' : zlen (decimal_digits fuel (m / 10)) <= Z.of_nat (S k)); [|lia]. apply IH; [lia|].
    rewrite (Nat2Z.inj_succ (S k)), Z.pow_succ_r in Hm by lia. split; [apply Z.div_pos; lia|apply Z.div_lt_upper_bound; lia]. }
  intros Hn. exact (H 6%nat 20%nat n ltac:(lia) Hn).
Qed.

Lemma serialize_header_plain buf dlen encode_len h : 0 <= dlen -> zlen buf + 5 <= dlen -> 1536 <= encode_len < 2 ^ 62 ->
  h_array h = [] -> h_value h <> [] -> zlen (h_value h) < 2 ^ 60 ->
  exists dlen' encode_len', serialize_header true (buf, dlen, encode_len) h = (buf ++ printed_line h, dlen', encode_len') /\
    dlen <= dlen' /\ zlen (buf ++ printed_line h) + 5 <= dlen' /\ 1536 <= encode_len' < 2 ^ 62.
Proof.
  intros Hd Hb He Ha Hv Hl. unfold serialize_header, new_len, h_idx. rewrite Ha. change (zlen [] =? 0) with true. cbv match.
  pose proof (zlen_nonneg (h_value h)). set (n := zlen (h_value h) * 3 + 1).
  set (el := if encode_len <? n then n else encode_len).
  assert (Hel : n <= el /\ 1536 <= el < 2 ^ 62) by (unfold el, n; destruct (Z.ltb_spec encode_len (zlen (h_value h) * 3 + 1)); lia).
  assert (Ee : encoded_value true el (h_value h) = url_escape false (h_value h)).
  { unfold encoded_value. rewrite u64_small by lia. apply encode_fits. destruct (escape_length false (h_value h)). unfold n in Hel. lia. }
  rewrite Ee. destruct (escape_length false (h_value h)) as [He1 _].
  assert (Hne : url_escape false (h_value h) <> []).
  { intros E. rewrite E in He1. change (zlen []) with 0 in He1. destruct (h_value h) as [|c v]; [done|].
    pose proof (zlen_nonneg v). rewrite zlen_cons in He1. lia. }
  rewrite (bool_decide_false (url_escape false (h_value h) = [])) by done.
  set (llen := zlen (h_name h) + zlen (url_escape false (h_value h)) + 8).
  pose proof (zlen_nonneg (h_name h)). pose proof (zlen_nonneg buf).
  destruct (grow_room (zlen buf) llen dlen ltac:(lia) ltac:(unfold llen; lia) Hd) as [Hg1 Hg2].
  assert (Hpl : zlen (printed_line h) = zlen (h_name h) + zlen (url_escape false (h_value h)) + 3).
  { unfold printed_line. rewrite !zlen_app. change (zlen [58; 32]) with 2. change (zlen [10]) with 1. lia. }
  change (h_name h ++ [58; 32] ++ url_escape false (h_value h) ++ [10]) with (printed_line h).
  rewrite snprintf_fits by (unfold llen in *; lia).
  eexists _, _. split; [reflexivity|]. rewrite zlen_app, Hpl. unfold llen in *. lia.
Qed.

(** An event whose headers are plain and not empty is printed with URL
    encoding as one line for each header in their order, with nothing cut off in
    either buffer, followed by the body and its length, or an empty line. *)
Theorem serialize_prints_all (e : switch_event) :
  Forall (fun h => h_array h = [] /\ h_value h <> [] /\ zlen (h_value h) < 2 ^ 60) (e_headers e) ->
  match e_body e with Some b => zlen b < 1000000 | None => True end ->
  switch_event_serialize e true = concat (map printed_line (e_headers e)) ++ printed_body (e_body e).
Proof.
  intros Hh Hb.
  assert (H : forall hs buf dlen el, Forall (fun h => h_array h = [] /\ h_value h <> [] /\ zlen (h_value h) < 2 ^ 60) hs ->
    1024 <= dlen -> zlen buf + 5 <= dlen -> 1536 <= el < 2 ^ 62 ->
    exists dlen' el', fold_left (serialize_header true) hs (buf, dlen, el) = (buf ++ concat (map printed_line hs), dlen', el') /\
      1024 <= dlen' /\ zlen (buf ++ concat (map printed_line hs)) + 5 <= dlen').
  { induction hs as [|h hs IH]; intros buf dlen el Hhs Hd Hbuf Hel.
    - exists dlen, el. cbn [map concat fold_left]. by rewrite app_nil_r.
    - apply Forall_cons in Hhs as [(Ha & Hv & Hl) Hhs]. cbn [fold_left].
      destruct (serialize_header_plain buf dlen el h ltac:(lia) Hbuf Hel Ha Hv Hl) as (d1 & el1 & -> & H1 & H2 & H3).
      destruct (IH _ d1 el1 Hhs ltac:(lia) H2 H3) as (d2 & el2 & -> & H4 & H5). exists d2, el2.
      cbn [map concat]. rewrite app_assoc. by split_and!. }
  destruct (H (e_headers e) [] (blocksize * 2) 1536 Hh) as (dlen & el & E & Hd & Hl); [unfold blocksize; change (zlen []) with 0; lia..|].
  unfold switch_event_serialize. rewrite E. cbn [app] in *. set (buf := concat (map printed_line (e_headers e))) in *.
  pose proof (zlen_nonneg buf). unfold printed_body. destruct (e_body e) as [[|c body]|].
  - destruct (grow_room (zlen buf) 5 dlen) as [Hg _]; [lia..|]. change (zlen []) with 0. cbn [Z.eqb].
    rewrite snprintf_fits; [done|]. change (zlen [10]) with 1. change (0 + 5) with 5. lia.
  - pose proof (zlen_nonneg (c :: body)) as Hn. assert (Hn0 : zlen (c :: body) <> 0) by (rewrite zlen_cons; pose proof (zlen_nonneg body); lia).
    rewrite (proj2 (Z.eqb_neq _ 0)) by done.
    destruct (grow_room (zlen buf) (zlen (c :: body) + 25) dlen) as [Hg _]; [lia..|].
    rewrite snprintf_fits; [done|]. rewrite !zlen_app. change (zlen (text "Content-Length: ")) with 16. rewrite ?(zlen_cons 10).
    pose proof (decimal_length (zlen (c :: body)) ltac:(lia)). lia.
  - rewrite snprintf_fits; [done|]. change (zlen [10]) with 1. lia.
Qed.

Lemma serialize_prints_all_witness :
  let e := mk_event 3 None [mk_header 0 (text "Call-ID") (text "a b") [] 1; mk_header 1 (text "x") (text "1") [] 1] (Some 1%nat)
    (Some (text "hello")) true 2 in
  switch_event_serialize e true = concat (map printed_line (e_headers e)) ++ printed_body (e_body e) /\
  switch_event_serialize e true = text "Call-ID: a%20b" ++ [10] ++ text "x: 1" ++ [10] ++ text "Content-Length: 5" ++ [10; 10] ++ text "hello".
Proof.
  cbv zeta. split; [|vm_compute; reflexivity]. apply serialize_prints_all; [|vm_compute; reflexivity].
  repeat (apply Forall_cons; split); try (by apply Forall_nil); split_and!; try done; vm_compute; reflexivity.
Defined.

(** An array of many short values is cut: its buffer is measured without the
    separators, which take six bytes each when they are encoded. *)
Example serialize_cuts_arrays :
  let vs := replicate 400 (text "a") in
  let e := mk_event 3 None [mk_header 0 (text "x") (redraw vs) vs 1] (Some 0%nat) None true 1 in
  bool_decide (switch_event_serialize e true = text "x: " ++ url_escape false (redraw vs) ++ [10; 10]) = false /\
  zlen (switch_event_serialize e true) = 1602.
Proof. vm_compute. by split. Qed.
