(* ===== verification/Stun.v ===== *)
(** * Stun: building and parsing STUN packets, src/switch_stun.c

    A packet is a block of bytes, and so is what the routines read and write:
    every access names its offset and is checked against the block.  Fields are
    words of a little-endian machine; [switch_stun_packet_parse] converts them in
    place.  [rand()] and the HMAC of OpenSSL are parameters, and so is
    [inet_pton] for IPv6. *)
From S2P Require Import HashTable TextUtil NetList Prelude Crc32.
From Stdlib Require Import ZArith Lia.
From stdpp Require Import base numbers option list strings.

Local Open Scope Z_scope.

(** ** Words in memory *)
Definition rd8 (m : list Z) (off : Z) : res Z :=
  bs <-! or_ub (mem_read m off 1);; match bs with [a] => Ret a | _ => Ub end.
Definition rd16 (m : list Z) (off : Z) : res Z :=
  bs <-! or_ub (mem_read m off 2);; match bs with [a; b] => Ret (a + 256 * b) | _ => Ub end.
Definition word32 (bs : list Z) : Z := foldr (fun b v => b + 256 * v) 0 bs.
Definition rd32 (m : list Z) (off : Z) : res Z :=
  bs <-! or_ub (mem_read m off 4);; Ret (word32 bs).
Definition bytes16 (v : Z) : list Z := [v mod 256; v / 256 mod 256].
Definition bytes32 (v : Z) : list Z := [v mod 256; v / 256 mod 256; v / 65536 mod 256; v / 16777216 mod 256].
Definition wr (m : list Z) (off : Z) (bs : list Z) : res (list Z) := or_ub (mem_write m off bs).
Definition wr16 (m : list Z) (off v : Z) : res (list Z) := wr m off (bytes16 v).
Definition wr32 (m : list Z) (off v : Z) : res (list Z) := wr m off (bytes32 v).

(** ** Constants of include/switch_stun.h *)
Definition SWITCH_STUN_PACKET_MIN_LEN : Z := 20.
Definition SWITCH_STUN_ATTRIBUTE_MIN_LEN : Z := 8.
Definition STUN_MAGIC_COOKIE : Z := 0x2112A442.

Definition SWITCH_STUN_BINDING_REQUEST : Z := 0x0001.
Definition SWITCH_STUN_BINDING_RESPONSE : Z := 0x0101.
Definition PACKET_TYPES : list (Z * String.string) :=
  [ (SWITCH_STUN_BINDING_REQUEST, "BINDING_REQUEST"); (SWITCH_STUN_BINDING_RESPONSE, "BINDING_RESPONSE");
    (0x0111, "BINDING_ERROR_RESPONSE"); (0x0002, "SHARED_SECRET_REQUEST"); (0x0102, "SHARED_SECRET_RESPONSE");
    (0x0112, "SHARED_SECRET_ERROR_RESPONSE"); (0x0003, "ALLOCATE_REQUEST"); (0x0103, "ALLOCATE_RESPONSE");
    (0x0113, "ALLOCATE_ERROR_RESPONSE"); (0x0004, "SEND_REQUEST"); (0x0104, "SEND_RESPONSE");
    (0x0114, "SEND_ERROR_RESPONSE"); (0x0115, "DATA_INDICATION") ]%string.

Definition ATTR_MAPPED_ADDRESS : Z := 0x0001.
Definition ATTR_RESPONSE_ADDRESS : Z := 0x0002.
Definition ATTR_CHANGE_REQUEST : Z := 0x0003.
Definition ATTR_SOURCE_ADDRESS : Z := 0x0004.
Definition ATTR_CHANGED_ADDRESS : Z := 0x0005.
Definition ATTR_USERNAME : Z := 0x0006.
Definition ATTR_PASSWORD : Z := 0x0007.
Definition ATTR_MESSAGE_INTEGRITY : Z := 0x0008.
Definition ATTR_ERROR_CODE : Z := 0x0009.
Definition ATTR_UNKNOWN_ATTRIBUTES : Z := 0x000a.
Definition ATTR_REFLECTED_FROM : Z := 0x000b.
Definition ATTR_TRANSPORT_PREFERENCES : Z := 0x000c.
Definition ATTR_LIFETIME : Z := 0x000d.
Definition ATTR_ALTERNATE_SERVER : Z := 0x000e.
Definition ATTR_MAGIC_COOKIE : Z := 0x000f.
Definition ATTR_BANDWIDTH : Z := 0x0010.
Definition ATTR_DESTINATION_ADDRESS : Z := 0x0011.
Definition ATTR_SOURCE_ADDRESS2 : Z := 0x0012.
Definition ATTR_DATA : Z := 0x0013.
Definition ATTR_OPTIONS : Z := 0x8001.
Definition ATTR_XOR_MAPPED_ADDRESS : Z := 0x0020.
Definition ATTR_PRIORITY : Z := 0x0024.
Definition ATTR_USE_CAND : Z := 0x0025.
Definition ATTR_PADDING : Z := 0x0026.
Definition ATTR_RESP_PORT : Z := 0x0027.
Definition ATTR_SOFTWARE : Z := 0x8022.
Definition ATTR_ALT_SERVER : Z := 0x8023.
Definition ATTR_FINGERPRINT : Z := 0x8028.
Definition ATTR_CONTROLLED : Z := 0x8029.
Definition ATTR_CONTROLLING : Z := 0x802a.
Definition ATTR_RESP_ORIGIN : Z := 0x802b.
Definition ATTR_OTHER_ADDR : Z := 0x802c.
Definition ATTR_TYPES : list (Z * String.string) :=
  [ (ATTR_MAPPED_ADDRESS, "MAPPED_ADDRESS"); (ATTR_XOR_MAPPED_ADDRESS, "XOR_MAPPED_ADDRESS");
    (ATTR_RESPONSE_ADDRESS, "RESPONSE_ADDRESS"); (ATTR_CHANGE_REQUEST, "CHANGE_REQUEST");
    (ATTR_SOURCE_ADDRESS, "SOURCE_ADDRESS"); (ATTR_CHANGED_ADDRESS, "CHANGED_ADDRESS"); (ATTR_USERNAME, "USERNAME");
    (ATTR_PASSWORD, "PASSWORD"); (ATTR_MESSAGE_INTEGRITY, "MESSAGE_INTEGRITY"); (ATTR_ERROR_CODE, "ERROR_CODE");
    (ATTR_UNKNOWN_ATTRIBUTES, "UNKNOWN_ATTRIBUTES"); (ATTR_REFLECTED_FROM, "REFLECTED_FROM");
    (ATTR_TRANSPORT_PREFERENCES, "TRANSPORT_PREFERENCES"); (ATTR_LIFETIME, "LIFETIME");
    (ATTR_ALTERNATE_SERVER, "ALTERNATE_SERVER"); (ATTR_MAGIC_COOKIE, "MAGIC_COOKIE"); (ATTR_BANDWIDTH, "BANDWIDTH");
    (ATTR_DESTINATION_ADDRESS, "DESTINATION_ADDRESS"); (ATTR_SOURCE_ADDRESS2, "SOURCE_ADDRESS2"); (ATTR_DATA, "DATA");
    (ATTR_OPTIONS, "OPTIONS"); (ATTR_PRIORITY, "PRIORITY"); (ATTR_USE_CAND, "USE_CAND"); (ATTR_PADDING, "PADDING");
    (ATTR_RESP_PORT, "RESP_PORT"); (ATTR_SOFTWARE, "SOFTWARE"); (ATTR_ALT_SERVER, "ALT_SERVER");
    (ATTR_FINGERPRINT, "FINGERPRINT"); (ATTR_CONTROLLED, "CONTROLLED"); (ATTR_CONTROLLING, "CONTROLLING");
    (ATTR_RESP_ORIGIN, "RESP_ORIGIN"); (ATTR_OTHER_ADDR, "OTHER_ADDR") ]%string.
Definition ERROR_TYPES : list (Z * String.string) :=
  [ (400, "BAD_REQUEST"); (401, "UNAUTHORIZED"); (420, "UNKNOWN_ATTRIBUTE"); (430, "STALE_CREDENTIALS");
    (431, "INTEGRITY_CHECK_FAILURE"); (432, "MISSING_USERNAME"); (433, "USE_TLS"); (500, "SERVER_ERROR");
    (600, "GLOBAL_FAILURE") ]%string.
Inductive stun_type := SWITCH_STUN_TYPE_PACKET_TYPE | SWITCH_STUN_TYPE_ATTRIBUTE | SWITCH_STUN_TYPE_ERROR.
Definition switch_stun_value_to_name (type : option stun_type) (value : Z) : String.string :=
  let map := match type with
    | Some SWITCH_STUN_TYPE_PACKET_TYPE => PACKET_TYPES
    | Some SWITCH_STUN_TYPE_ATTRIBUTE => ATTR_TYPES
    | Some SWITCH_STUN_TYPE_ERROR => ERROR_TYPES
    | None => []
    end in
  match List.find (fun e => e.1 =? value) map with Some e => e.2 | None => "INVALID"%string end.

(** ** Parsing *)
Definition memb (x : Z) (l : list Z) : bool := existsb (Z.eqb x) l.
Definition valid_type (t : Z) : bool := memb t (map fst PACKET_TYPES).

(** [switch_stun_attribute_padded_length], of a length in host order. *)
Definition padded_length (length : Z) : Z :=
  i16 (if negb (Z.land length 3 =? 0) then 4 + Z.land length (Z.lnot 3) else length).

Definition swap16 (m : list Z) (off : Z) : res (list Z) := v <-! rd16 m off;; wr16 m off (ntohs v).
Definition swap32 (m : list Z) (off : Z) : res (list Z) := v <-! rd32 m off;; wr32 m off (ntohl v).

Definition ADDRESSES : list Z :=
  [ATTR_MAPPED_ADDRESS; ATTR_XOR_MAPPED_ADDRESS; ATTR_RESPONSE_ADDRESS; ATTR_SOURCE_ADDRESS; ATTR_CHANGED_ADDRESS;
   ATTR_REFLECTED_FROM; ATTR_ALTERNATE_SERVER; ATTR_DESTINATION_ADDRESS; ATTR_PRIORITY].
Definition NUMBERS : list Z := [ATTR_CHANGE_REQUEST; ATTR_LIFETIME; ATTR_BANDWIDTH; ATTR_OPTIONS].

(** The [switch] over the type of an attribute: the block and whether the packet
    is still taken. *)
Definition parse_value (m : list Z) (attr type length : Z) : res (list Z * bool) :=
  let value := attr + 4 in
  if memb type ADDRESSES then m <-! swap16 m (value + 2);; Ret (m, true)
  else if type =? ATTR_SOURCE_ADDRESS2 then
    family <-! rd8 m (value + 1);;
    match (if family =? 1 then Some 4 else if family =? 2 then Some 16 else None) with
    | None => Ret (m, false)
    | Some addr_length =>
      if negb (length =? addr_length + 4) then Ret (m, false)
      else m <-! swap16 m (value + 2);; Ret (m, true)
    end
  else if memb type NUMBERS then
    if negb (length =? 4) then Ret (m, false) else m <-! swap32 m value;; Ret (m, true)
  else if type =? ATTR_ERROR_CODE then m <-! swap32 m value;; Ret (m, true)
  else if type =? ATTR_MESSAGE_INTEGRITY then Ret (m, length =? 20)
  else if type =? ATTR_MAGIC_COOKIE then Ret (m, length =? 4)
  else if type =? ATTR_UNKNOWN_ATTRIBUTES then Ret (m, length mod 2 =? 0)
  else Ret (m, true).

(** The loop over the attributes, at the offset [attr]: the block, and
    [bytes_left] unless the packet is refused. *)
Fixpoint parse_loop (fuel : nat) (len : Z) (m : list Z) (attr bytes_left xlen : Z) : res (list Z * option Z) :=
  match fuel with
  | O => Ub
  | S fuel =>
    if bytes_left <? 4 then Ret (m, None) else
    m <-! swap16 m (attr + 2);;
    m <-! swap16 m attr;;
    let bytes_left := u32 (bytes_left - 4) in
    length <-! rd16 m (attr + 2);;
    type <-! rd16 m attr;;
    let alen := padded_length length in
    if (alen >? i32 bytes_left) || (alen <? 0) then Ret (m, None) else
    '(m, taken) <-! parse_value m attr type length;;
    if negb taken then Ret (m, None) else
    let bytes_left := u32 (bytes_left - alen) in
    let xlen := i32 (xlen + (4 + alen)) in
    let attr := attr + 4 + alen in
    if attr >? len then Ret (m, Some bytes_left) else
    header_length <-! rd16 m 2;;
    if xlen <? header_length then parse_loop fuel len m attr bytes_left xlen else Ret (m, Some bytes_left)
  end.

Definition switch_stun_packet_parse (m : list Z) (len : Z) : res (list Z * bool) :=
  if len <? SWITCH_STUN_PACKET_MIN_LEN then Ret (m, false) else
  m <-! swap16 m 0;;
  m <-! swap16 m 2;;
  header_length <-! rd16 m 2;;
  let bytes_left := u32 (len - 20) in
  if header_length >? bytes_left then Ret (m, false) else
  type <-! rd16 m 0;;
  if negb (valid_type type) then Ret (m, false) else
  if bytes_left <=? 0 then Ret (m, false) else
  if header_length =? 0 then Ret (m, false) else
  if bytes_left <? SWITCH_STUN_ATTRIBUTE_MIN_LEN then Ret (m, false) else
  '(m, rest) <-! parse_loop (Z.to_nat len) len m 20 bytes_left 0;;
  match rest with
  | None => Ret (m, false)
  | Some bytes_left =>
    header_length <-! rd16 m 2;;
    if u32 (header_length + 20) >? u32 (len - bytes_left)
    then m <-! wr16 m 2 (u16 (u32 (len - bytes_left) - 20));; Ret (m, true)
    else Ret (m, true)
  end.

(** ** Reading attributes *)
(** [sprintf("%u")] of a byte. *)
Definition decimal (x : Z) : list Z :=
  if x <? 10 then [48 + x] else if x <? 100 then [48 + x / 10; 48 + x mod 10]
  else [48 + x / 100; 48 + x / 10 mod 10; 48 + x mod 10].
Definition print_ip (a b c d : Z) : list Z := decimal a ++ [46] ++ decimal b ++ [46] ++ decimal c ++ [46] ++ decimal d.
Definition address_text (m : list Z) (off : Z) : res (list Z) :=
  bs <-! or_ub (mem_read m off 4);; match bs with [a; b; c; d] => Ret (print_ip a b c d) | _ => Ub end.

Definition switch_stun_packet_attribute_get_mapped_address (m : list Z) (attr : Z) : res (list Z * Z) :=
  ipstr <-! address_text m (attr + 8);; port <-! rd16 m (attr + 6);; Ret (ipstr, port).

Definition lxor_bytes (a b : list Z) : list Z := zip_with Z.lxor a b.
(** [v6_xor]; the identity of the transaction is at offset 8 of a packet. *)
Definition v6_xor (addr transaction_id : list Z) : list Z :=
  lxor_bytes addr ([0x21; 0x12; 0xa4; 0x42] ++ transaction_id).

Section Packets.
Context (inet_ntop6 : list Z -> list Z).
(** The text of the address, its port, and the block, in which both are converted. *)
Definition switch_stun_packet_attribute_get_xor_mapped_address (m : list Z) (attr : Z) : res (list Z * Z * list Z) :=
  family <-! rd8 m (attr + 5);;
  '(ipstr, m) <-!
    (if family =? 2 then
       addr <-! or_ub (mem_read m (attr + 8) 16);;
       id <-! or_ub (mem_read m 8 12);;
       m <-! wr m (attr + 8) (v6_xor addr id);; Ret (inet_ntop6 (v6_xor addr id), m)
     else
       address <-! rd32 m (attr + 8);;
       cookie <-! rd32 m 4;;
       m <-! wr32 m (attr + 8) (Z.lxor address cookie);;
       ipstr <-! address_text m (attr + 8);; Ret (ipstr, m));;
  port <-! rd16 m (attr + 6);;
  cookie <-! rd32 m 4;;
  let port := u16 (Z.lxor port (Z.shiftr (ntohl cookie) 16)) in
  m <-! wr16 m (attr + 6) port;; Ret (ipstr, port, m).

Definition switch_stun_packet_attribute_get_username (m : list Z) (attr len : Z) : res (list Z) :=
  length <-! rd16 m (attr + 2);; or_ub (mem_read m (attr + 4) (if length <? len then length else len)).

(** ** Building *)
(** The [n]-th call of [rand()] gives [rand n]; the division by [RAND_MAX + 1] is
    exact. *)
Context (rand : nat -> Z).
Definition RAND_MAX : Z := 0x7FFFFFFF.
Definition CHARS : list Z := text "abcdefghijklmnopqrstuvwxyzABCDEFGHIJKLMNOPQRSTUVWXYZ0123456789".
Definition switch_stun_random_string (first len : nat) : list Z :=
  map (fun x => nth (Z.to_nat (zlen CHARS * rand x / (RAND_MAX + 1))) CHARS 0) (seq first len).

Definition switch_stun_packet_build_header (m : list Z) (type : Z) (id : option (list Z)) : res (list Z) :=
  m <-! wr16 m 0 (htons type);;
  m <-! wr16 m 2 0;;
  m <-! wr32 m 4 (htonl STUN_MAGIC_COOKIE);;
  id <-! (match id with Some id => or_ub (mem_read id 0 12) | None => Ret (switch_stun_random_string 0 12) end);;
  wr m 8 id.

(** The part the [switch_stun_packet_attribute_add_*] share: the attribute behind
    the others, its value, and the length of the packet, which is added up in
    network order. *)
Definition put_value (m : list Z) (type length : Z) (value : list Z -> res (list Z)) (padding : Z) : res (list Z) :=
  header_length <-! rd16 m 2;;
  let attr := 20 + ntohs header_length in
  m <-! wr16 m attr (htons type);;
  m <-! wr16 m (attr + 2) (htons length);;
  bs <-! value m;;
  m <-! wr m (attr + 4) bs;;
  header_length <-! rd16 m 2;;
  alength <-! rd16 m (attr + 2);;
  wr16 m 2 (u16 (header_length + (htons (u16 (4 + padding)) + alength))).
Definition put_bytes (m : list Z) (type : Z) (bs : list Z) (padding : Z) : res (list Z) :=
  put_value m type (zlen bs) (fun _ => Ret bs) padding.

Context (inet_pton6 : list Z -> option (list Z)).
(** The value of a [switch_stun_ip_t]: its first byte is not written, and the
    address is what the block held when [inet_pton] fails. *)
Definition ip_value (attr : Z) (ipstr : list Z) (port family : Z) (xor4 : list Z -> list Z) (xor6 : list Z -> list Z -> list Z)
  (m : list Z) : res (list Z) :=
  wasted <-! rd8 m (attr + 4);;
  addr <-! (if family =? AF_INET6 then
              old <-! or_ub (mem_read m (attr + 8) 16);; id <-! or_ub (mem_read m 8 12);;
              Ret (xor6 (default old (inet_pton6 ipstr)) id)
            else old <-! or_ub (mem_read m (attr + 8) 4);;
              Ret (xor4 (default old (option_map (fun a => rev (bytes32 a)) (inet_pton4 ipstr)))));;
  Ret ([wasted; if family =? AF_INET6 then 2 else 1] ++
       bytes16 (htons (Z.lxor port (Z.shiftr STUN_MAGIC_COOKIE 16))) ++ addr).
Definition put_ip (m ipstr : list Z) (port family : Z) (xor4 : list Z -> list Z) (xor6 : list Z -> list Z -> list Z) : res (list Z) :=
  header_length <-! rd16 m 2;;
  put_value m ATTR_XOR_MAPPED_ADDRESS (if family =? AF_INET6 then 20 else 8)
    (ip_value (20 + ntohs header_length) ipstr port family xor4 xor6) 0.
Definition switch_stun_packet_attribute_add_binded_address (m ipstr : list Z) (port family : Z) : res (list Z) :=
  put_ip m ipstr port family id (fun a _ => a).
(** [htonl(ntohl(ip->address) ^ STUN_MAGIC_COOKIE)] *)
Definition xor_cookie (a : list Z) : list Z := bytes32 (htonl (Z.lxor (ntohl (word32 a)) STUN_MAGIC_COOKIE)).
Definition switch_stun_packet_attribute_add_xor_binded_address (m ipstr : list Z) (port family : Z) : res (list Z) :=
  put_ip m ipstr port family xor_cookie v6_xor.

Definition switch_stun_packet_attribute_add_priority (m : list Z) (priority : Z) : res (list Z) :=
  put_bytes m ATTR_PRIORITY (bytes32 (htonl priority)) 0.
Definition switch_stun_packet_attribute_add_use_candidate (m : list Z) : res (list Z) := put_bytes m ATTR_USE_CAND [] 0.
Definition switch_stun_packet_attribute_add_controlling (m : list Z) : res (list Z) :=
  put_bytes m ATTR_CONTROLLING (switch_stun_random_string 0 8) 0.
Definition switch_stun_packet_attribute_add_controlled (m : list Z) : res (list Z) :=
  put_bytes m ATTR_CONTROLLED (switch_stun_random_string 0 8) 0.

Definition padding_of (ulen : Z) : Z := if ulen mod 4 =? 0 then 0 else 4 - ulen mod 4.
Definition given_or_random (value : option (list Z)) (ulen : Z) : res (list Z) :=
  match value with
  | Some v => or_ub (mem_read v 0 ulen)
  | None => Ret (switch_stun_random_string 0 (Z.to_nat ulen))
  end.
Definition switch_stun_packet_attribute_add_username (m : list Z) (username : option (list Z)) (ulen : Z) : res (list Z) :=
  bs <-! given_or_random username ulen;; put_bytes m ATTR_USERNAME bs (padding_of ulen).
Definition switch_stun_packet_attribute_add_software (m : list Z) (software : option (list Z)) (ulen : Z) : res (list Z) :=
  bs <-! given_or_random software ulen;; put_bytes m ATTR_SOFTWARE bs (padding_of ulen).
Definition switch_stun_packet_attribute_add_password (m : list Z) (password : option (list Z)) (ulen : Z) : res (list Z) :=
  bs <-! given_or_random password ulen;; put_bytes m ATTR_PASSWORD bs (padding_of ulen).

(** The attributes that are computed from the packet in front of them: its length
    counts them already. *)
Definition put_digest (m : list Z) (type length : Z) (digest : list Z -> list Z) : res (list Z) :=
  header_length <-! rd16 m 2;;
  let attr := 20 + ntohs header_length in
  m <-! wr16 m attr (htons type);;
  m <-! wr16 m (attr + 2) (htons length);;
  let xlen := u16 (ntohs header_length + 20) in
  alength <-! rd16 m (attr + 2);;
  m <-! wr16 m 2 (u16 (header_length + (htons 4 + alength)));;
  packet <-! or_ub (mem_read m 0 xlen);;
  wr m (attr + 4) (digest packet).
(** [hmac pass bytes]: the twenty bytes of [HMAC(EVP_sha1())]. *)
Context (hmac : list Z -> list Z -> list Z).
Definition switch_stun_packet_attribute_add_integrity (m pass : list Z) : res (list Z) :=
  put_digest m ATTR_MESSAGE_INTEGRITY 20 (hmac pass).
Definition fingerprint (packet : list Z) : list Z :=
  bytes32 (htonl (Z.lxor (switch_crc32_8bytes packet) 0x5354554e)).
Definition switch_stun_packet_attribute_add_fingerprint (m : list Z) : res (list Z) :=
  put_digest m ATTR_FINGERPRINT 4 fingerprint.
End Packets.
