(* ===== verification/StunProps.v ===== *)
(** * StunProps: STUN packets are parsed safely, and as they were built

    Parsing a block of arbitrary bytes ends, and leaves the packet by at most four
    bytes; what it accepts is a chain of attributes inside the packet.  A packet
    that was built is parsed into the attributes that were added. *)
From S2P Require Import HashTable TextUtil NetList Prelude Crc32 Stun.
From Stdlib Require Import ZArith Lia.
From stdpp Require Import base numbers option list.

Local Open Scope Z_scope.

(** ** Accesses *)
Lemma mem_read_at {A} (a b c : list A) off n : off = zlen a -> n = zlen b -> mem_read (a ++ b ++ c) off n = Some b.
Proof.
  intros -> ->. rewrite mem_read_Some.
  - unfold zlen. rewrite !Nat2Z.id, drop_app_length, take_app_length. done.
  - apply zlen_nonneg.
  - apply zlen_nonneg.
  - rewrite !zlen_app. pose proof (zlen_nonneg c). lia.
Qed.
Lemma mem_write_at {A} (a b c : list A) off b' : off = zlen a -> length b' = length b ->
  mem_write (a ++ b ++ c) off b' = Some (a ++ b' ++ c).
Proof.
  intros -> E. rewrite mem_write_Some.
  - unfold zlen. rewrite Nat2Z.id, take_app_length, E. by rewrite <- drop_drop, !drop_app_length.
  - apply zlen_nonneg.
  - rewrite !zlen_app. unfold zlen. rewrite E. lia.
Qed.

(** [m'] is [m] but for the cells from [lo] to [hi]. *)
Record changed (m m' : list Z) (lo hi : Z) : Prop := {
  ch_len : zlen m' = zlen m;
  ch_front : take (Z.to_nat lo) m' = take (Z.to_nat lo) m;
  ch_back : drop (Z.to_nat hi) m' = drop (Z.to_nat hi) m
}.
Lemma changed_refl m lo hi : changed m m lo hi.
Proof. done. Qed.
Lemma changed_weaken m m' lo hi lo' hi' : changed m m' lo hi -> lo' <= lo -> hi <= hi' -> changed m m' lo' hi'.
Proof.
  intros [H1 H2 H3] Hl Hh. split; [done| |].
  - rewrite <- (Nat.min_l (Z.to_nat lo') (Z.to_nat lo)) by lia. by rewrite <- !take_take, H2.
  - replace (Z.to_nat hi') with (Z.to_nat hi + (Z.to_nat hi' - Z.to_nat hi))%nat by lia. by rewrite <- !drop_drop, H3.
Qed.
Lemma changed_trans m m1 m2 lo hi : changed m m1 lo hi -> changed m1 m2 lo hi -> changed m m2 lo hi.
Proof. intros [H1 H2 H3] [H4 H5 H6]. split; congruence. Qed.

Lemma wr_ok m off bs : 0 <= off -> off + zlen bs <= zlen m ->
  exists m', wr m off bs = Ret m' /\ changed m m' off (off + zlen bs) /\ mem_read m' off (zlen bs) = Some bs.
Proof.
  intros H0 H1. pose proof (zlen_nonneg bs).
  assert (E : exists a b c, m = a ++ b ++ c /\ zlen a = off /\ length b = length bs).
  { exists (take (Z.to_nat off) m), (take (length bs) (drop (Z.to_nat off) m)), (drop (length bs) (drop (Z.to_nat off) m)).
    rewrite !take_drop, zlen_take, length_take, length_drop by lia. unfold zlen in *. split_and!; [done|done|lia]. }
  destruct E as (a & b & c & -> & Ha & Hb). unfold wr. rewrite (mem_write_at a b c) by done. cbn [or_ub].
  eexists. split; [done|]. split; [|by apply mem_read_at]. split.
  - rewrite !zlen_app. unfold zlen. by rewrite Hb.
  - unfold zlen in Ha. by rewrite <- Ha, Nat2Z.id, !take_app_length.
  - replace (Z.to_nat (off + zlen bs)) with (length a + length bs)%nat by (unfold zlen in *; lia).
    rewrite <- !drop_drop, !drop_app_length. by rewrite <- Hb, drop_app_length.
Qed.
Lemma rd16_ok m off : 0 <= off -> off + 2 <= zlen m -> exists v, rd16 m off = Ret v.
Proof.
  intros H0 H1. unfold rd16. rewrite mem_read_Some by lia. cbn [or_ub rbind].
  assert (H : length (take (Z.to_nat 2) (drop (Z.to_nat off) m)) = 2%nat).
  { unfold zlen in H1. rewrite length_take, length_drop. lia. }
  destruct (take _ _) as [|x [|y [|]]]; try done. eauto.
Qed.
Lemma rd8_ok m off : 0 <= off -> off + 1 <= zlen m -> exists v, rd8 m off = Ret v.
Proof.
  intros H0 H1. unfold rd8. rewrite mem_read_Some by lia. cbn [or_ub rbind].
  assert (H : length (take (Z.to_nat 1) (drop (Z.to_nat off) m)) = 1%nat).
  { unfold zlen in H1. rewrite length_take, length_drop. lia. }
  destruct (take _ _) as [|x [|]]; try done. eauto.
Qed.
Lemma rd32_ok m off : 0 <= off -> off + 4 <= zlen m -> exists v, rd32 m off = Ret v.
Proof. intros H0 H1. unfold rd32. rewrite mem_read_Some by lia. cbn [or_ub rbind]. eauto. Qed.

Lemma word_bytes16 v : 0 <= v < 65536 -> v mod 256 + 256 * (v / 256 mod 256) = v.
Proof. intros Hv. rewrite (Z.mod_small (v / 256)); [|split; [apply Z.div_pos; lia|apply Z.div_lt_upper_bound; lia]]. pose proof (Z.div_mod v 256). lia. Qed.
(** After an exchange of two bytes the field holds the converted value. *)
Lemma swap16_ok m off : 0 <= off -> off + 2 <= zlen m ->
  exists m' v, swap16 m off = Ret m' /\ changed m m' off (off + 2) /\ rd16 m' off = Ret v /\ 0 <= v < 65536.
Proof.
  intros H0 H1. unfold swap16. destruct (rd16_ok m off H0 H1) as [v ->]. cbn [rbind].
  destruct (wr_ok m off (bytes16 (ntohs v)) H0 H1) as (m' & E & Hc & Hr).
  unfold wr16. rewrite E. exists m', (ntohs v). split_and!; [done|done| |apply ntohs_range|apply ntohs_range].
  unfold rd16. change (zlen (bytes16 (ntohs v))) with 2 in Hr. rewrite Hr. cbn [or_ub rbind bytes16].
  by rewrite word_bytes16 by apply ntohs_range.
Qed.
Lemma swap32_ok m off : 0 <= off -> off + 4 <= zlen m -> exists m', swap32 m off = Ret m' /\ changed m m' off (off + 4).
Proof.
  intros H0 H1. unfold swap32. destruct (rd32_ok m off H0 H1) as [v ->]. cbn [rbind].
  destruct (wr_ok m off (bytes32 (ntohl v)) H0 H1) as (m' & E & Hc & _). by exists m'.
Qed.
Lemma rd16_front m m' lo hi off : changed m m' lo hi -> 0 <= off -> off + 2 <= lo -> lo <= zlen m -> rd16 m' off = rd16 m off.
Proof.
  intros [H1 H2 _] H0 Hl Hz. unfold rd16. rewrite !mem_read_Some by lia. f_equal. f_equal.
  assert (E : forall l : list Z, take (Z.to_nat 2) (drop (Z.to_nat off) l) = drop (Z.to_nat off) (take (Z.to_nat off + 2) (take (Z.to_nat lo) l))).
  { intros l. rewrite take_take, Nat.min_l by lia. by rewrite take_drop_commute. }
  by rewrite !E, H2.
Qed.

(** ** Parsing arbitrary bytes *)
Lemma parse_value_ok m attr type length : 0 <= attr -> attr + 8 <= zlen m ->
  exists m' t, parse_value m attr type length = Ret (m', t) /\ changed m m' (attr + 4) (attr + 8).
Proof.
  intros H0 H1.
  assert (H16 : exists m', swap16 m (attr + 4 + 2) = Ret m' /\ changed m m' (attr + 4) (attr + 8)).
  { destruct (swap16_ok m (attr + 4 + 2)) as (m' & v & E & Hc & _); [lia..|]. exists m'. split; [done|].
    eapply changed_weaken; [done|lia..]. }
  assert (H32 : exists m', swap32 m (attr + 4) = Ret m' /\ changed m m' (attr + 4) (attr + 8)).
  { destruct (swap32_ok m (attr + 4)) as (m' & E & Hc); [lia..|]. exists m'. split; [done|]. eapply changed_weaken; [done|lia..]. }
  destruct H16 as (m1 & E1 & Hc1), H32 as (m2 & E2 & Hc2). destruct (rd8_ok m (attr + 4 + 1)) as [f Ef]; [lia..|].
  unfold parse_value. rewrite E1, E2, Ef. cbn [rbind]. pose proof (changed_refl m (attr + 4) (attr + 8)).
  repeat case_match; eauto.
Qed.

(** From the offset [off] attributes follow each other up to [fin]: each is a
    header of four bytes and a padded value. *)
Inductive attr_chain (m : list Z) : Z -> Z -> Prop :=
| chain_end off : attr_chain m off off
| chain_attribute off l fin : rd16 m (off + 2) = Ret l -> 0 <= padded_length l ->
    attr_chain m (off + 4 + padded_length l) fin -> attr_chain m off fin.

Lemma padded_lt l : padded_length l < 32768.
Proof.
  unfold padded_length, i16. generalize (if negb (Z.land l 3 =? 0) then 4 + Z.land l (Z.lnot 3) else l) as x. intros x.
  pose proof (Z.mod_pos_bound (x + 32768) 65536). lia.
Qed.

Lemma parse_loop_ok len hl : forall fuel m attr bytes_left xlen,
  20 <= attr -> 0 <= bytes_left -> attr + bytes_left = len -> xlen = attr - 20 -> len < 2147483648 -> len + 4 <= zlen m ->
  bytes_left < Z.of_nat fuel -> rd16 m 2 = Ret hl ->
  exists m' out, parse_loop fuel len m attr bytes_left xlen = Ret (m', out) /\ changed m m' attr (len + 4) /\
    forall lft, out = Some lft -> 0 <= lft /\ attr_chain m' attr (len - lft) /\ 20 + hl <= len - lft.
Proof.
  induction fuel as [|fuel IH]; intros m attr lft xlen Ha Hb El Ex Hlen Hm Hf Hhl; [lia|].
  cbn [parse_loop]. destruct (lft <? 4) eqn:E4; boolify.
  { exists m, None. split_and!; [done|apply changed_refl|done]. }
  destruct (swap16_ok m (attr + 2)) as (m1 & len1 & E1 & C1 & R1 & _); [lia..|]. rewrite E1. cbn [rbind].
  pose proof (ch_len _ _ _ _ C1) as L1.
  destruct (swap16_ok m1 attr) as (m2 & ty & E2 & C2 & R2 & _); [lia..|]. rewrite E2. cbn [rbind].
  pose proof (ch_len _ _ _ _ C2) as L2. destruct (rd16_ok m2 (attr + 2)) as [alen R3]; [lia..|]. rewrite R3, R2. cbn [rbind].
  assert (C12 : changed m m2 attr (len + 4)).
  { eapply changed_trans; [eapply (changed_weaken _ _ _ _ attr (len + 4) C1); lia|].
    eapply (changed_weaken _ _ _ _ attr (len + 4) C2); lia. }
  rewrite u32_small, i32_small by lia. pose proof (padded_lt alen) as Hp.
  destruct ((padded_length alen >? lft - 4) || (padded_length alen <? 0)) eqn:Ep.
  { exists m2, None. split_and!; done. }
  rewrite orb_false_iff, Z.gtb_ltb in Ep. destruct Ep as [Ep1 Ep2]. boolify.
  destruct (parse_value_ok m2 attr ty alen) as (m3 & t & E3 & C3); [lia..|]. rewrite E3. cbn [rbind].
  assert (C13 : changed m m3 attr (len + 4)).
  { eapply changed_trans; [exact C12|]. eapply (changed_weaken _ _ _ _ attr (len + 4) C3); lia. }
  pose proof (ch_len _ _ _ _ C13) as L3.
  destruct t; cbn [negb]; [|exists m3, None; split_and!; done].
  destruct (attr + 4 + padded_length alen >? len) eqn:Eg; [apply Z.gtb_lt in Eg; lia|].
  assert (R4 : rd16 m3 2 = Ret hl) by (rewrite (rd16_front m m3 attr (len + 4)); [done|done|lia..]).
  assert (R5 : rd16 m3 (attr + 2) = Ret alen) by (rewrite (rd16_front m2 m3 (attr + 4) (attr + 8)); [done|done|lia..]).
  rewrite R4. cbn [rbind]. rewrite u32_small, i32_small by lia.
  destruct (_ <? hl) eqn:Eh; boolify.
  - destruct (IH m3 (attr + 4 + padded_length alen) (lft - 4 - padded_length alen) (xlen + (4 + padded_length alen)))
      as (m' & out & E & C & Ho); [try lia; done..|]. rewrite E. exists m', out. split_and!; [done| |].
    + eapply changed_trans; [exact C13|]. eapply (changed_weaken _ _ _ _ attr (len + 4) C); lia.
    + intros l El'. destruct (Ho l El') as (H1 & H2 & H3). split_and!; [done| |done].
      apply (chain_attribute _ _ alen); [|done|done].
      rewrite (rd16_front m3 m' (attr + 4 + padded_length alen) (len + 4)); [done|done|lia..].
  - exists m3, (Some (lft - 4 - padded_length alen)). split_and!; [done|done|]. intros l [= <-].
    split_and!; [lia| |lia]. apply (chain_attribute _ _ alen); [done|done|].
    replace (len - (lft - 4 - padded_length alen)) with (attr + 4 + padded_length alen) by lia. constructor.
Qed.

(** C19: Parsing [len] arbitrary bytes ends; it touches nothing behind the four
    bytes that follow them, and when it accepts the packet, the length of its
    header is covered by a chain of attributes inside those [len] bytes. *)
Theorem stun_parse_safe m len : 0 <= len < 2147483648 -> len + 4 <= zlen m ->
  exists m' ok, switch_stun_packet_parse m len = Ret (m', ok) /\ changed m m' 0 (len + 4) /\
    (ok = true -> exists n fin, rd16 m' 2 = Ret n /\ attr_chain m' 20 fin /\ 20 + n <= fin <= len).
Proof.
  intros Hlen Hm. unfold switch_stun_packet_parse, SWITCH_STUN_PACKET_MIN_LEN, SWITCH_STUN_ATTRIBUTE_MIN_LEN.
  destruct (len <? 20) eqn:E20; boolify. { exists m, false. split_and!; [done|apply changed_refl|done]. }
  destruct (swap16_ok m 0) as (m1 & ty & E1 & C1 & R1 & _); [lia..|]. rewrite E1. cbn [rbind].
  pose proof (ch_len _ _ _ _ C1) as L1.
  destruct (swap16_ok m1 2) as (m2 & hl & E2 & C2 & R2 & Hhl); [lia..|]. rewrite E2. cbn [rbind].
  pose proof (ch_len _ _ _ _ C2) as L2. rewrite R2. cbn [rbind].
  assert (R0 : rd16 m2 0 = Ret ty) by (rewrite (rd16_front m1 m2 2 (2 + 2)); [done|done|lia..]).
  assert (C : changed m m2 0 (len + 4)).
  { eapply changed_trans; [eapply (changed_weaken _ _ _ _ 0 (len + 4) C1); lia|].
    eapply (changed_weaken _ _ _ _ 0 (len + 4) C2); lia. }
  rewrite u32_small, R0 by lia. cbn [rbind].
  assert (Hout : exists m' ok, Ret (m2, false) = Ret (m', ok) /\ changed m m' 0 (len + 4) /\
    (ok = true -> exists n fin, rd16 m' 2 = Ret n /\ attr_chain m' 20 fin /\ 20 + n <= fin <= len)).
  { exists m2, false. split_and!; done. }
  destruct (hl >? len - 20) eqn:Eh; [done|]. rewrite Z.gtb_ltb in Eh. boolify.
  destruct (negb (valid_type ty)); [done|]. destruct (len - 20 <=? 0); [done|]. destruct (hl =? 0); [done|].
  destruct (len - 20 <? 8); [done|]. clear Hout.
  destruct (parse_loop_ok len hl (Z.to_nat len) m2 20 (len - 20) 0) as (m' & out & E & C' & Ho); [try lia; done..|].
  rewrite E. cbn [rbind].
  assert (C'' : changed m m' 0 (len + 4)).
  { eapply changed_trans; [exact C|]. eapply (changed_weaken _ _ _ _ 0 (len + 4) C'); lia. }
  destruct out as [l|]; [|by exists m', false; split_and!]. destruct (Ho l eq_refl) as (Hl & Hw & Hn).
  assert (R' : rd16 m' 2 = Ret hl) by (rewrite (rd16_front m2 m' 20 (len + 4)); [done|done|lia..]).
  rewrite R'. cbn [rbind]. rewrite !u32_small by lia.
  destruct (hl + 20 >? len - l) eqn:Eg; [apply Z.gtb_lt in Eg; lia|].
  exists m', true. split_and!; [done|done|]. intros _. exists hl, (len - l). split_and!; [done|done|lia..].
Qed.
Definition short_error : list Z :=
  [1; 1; 0; 8; 0x21; 0x12; 0xa4; 0x42] ++ replicate 12 7 ++ [0; 0x25; 0; 0] ++ [0; 9; 0; 0].
Lemma stun_parse_safe_witness :
  exists m' ok, switch_stun_packet_parse (short_error ++ [1; 2; 3; 4]) 28 = Ret (m', ok) /\
    changed (short_error ++ [1; 2; 3; 4]) m' 0 (28 + 4) /\
    (ok = true -> exists n fin, rd16 m' 2 = Ret n /\ attr_chain m' 20 fin /\ 20 + n <= fin <= 28).
Proof. apply (stun_parse_safe (short_error ++ [1; 2; 3; 4]) 28); [lia|vm_compute; done]. Defined.
(** The four bytes are used: an error code without a value is converted although
    it lies behind the packet. *)
Lemma parse_leaves_packet :
  switch_stun_packet_parse short_error 28 = Ub /\
  exists m', switch_stun_packet_parse (short_error ++ [1; 2; 3; 4]) 28 = Ret (m', true) /\ drop 28 m' = [4; 3; 2; 1].
Proof. split; [by vm_compute|]. eexists. split; [vm_compute; reflexivity|done]. Qed.

(** ** Fields of a packet *)
Definition be16 (x : Z) : list Z := [x / 256; x mod 256].
Lemma bytes16_htons x : 0 <= x < 65536 -> bytes16 (htons x) = be16 x.
Proof.
  intros Hx. unfold bytes16, be16, htons. rewrite ntohs_eq by done.
  assert (0 <= x / 256 < 256) by (split; [apply Z.div_pos; lia|apply Z.div_lt_upper_bound; lia]).
  rewrite (Z.add_comm (x mod 256 * 256)), Z_mod_plus_full, Z.div_add by lia.
  rewrite (Z.div_small (x / 256)), Z.add_0_l, Z.mod_mod, (Z.mod_small (x / 256)) by lia. done.
Qed.
Lemma rd16_at a b c off v : off = zlen a -> 0 <= v < 65536 -> b = bytes16 v -> rd16 (a ++ b ++ c) off = Ret v.
Proof.
  intros -> Hv ->. unfold rd16. rewrite (mem_read_at a (bytes16 v) c) by done. cbn [or_ub rbind bytes16].
  by rewrite word_bytes16.
Qed.
(** A field in network order is read as its exchanged value. *)
Lemma rd16_be a c off v : off = zlen a -> 0 <= v < 65536 -> rd16 (a ++ be16 v ++ c) off = Ret (htons v).
Proof. intros -> Hv. apply rd16_at; [done|apply ntohs_range|by rewrite bytes16_htons]. Qed.
Lemma wr_at a b c off b' : off = zlen a -> length b' = length b -> wr (a ++ b ++ c) off b' = Ret (a ++ b' ++ c).
Proof. intros -> E. unfold wr. by rewrite mem_write_at. Qed.
Lemma swap16_at a c off v : off = zlen a -> 0 <= v < 65536 -> swap16 (a ++ be16 v ++ c) off = Ret (a ++ bytes16 v ++ c).
Proof.
  intros -> Hv. unfold swap16. rewrite rd16_be by done. cbn [rbind]. unfold wr16, htons. rewrite ntohs_ntohs by done.
  by apply wr_at.
Qed.

(** ** Packets and their attributes *)
Definition attribute : Type := Z * list Z.
Definition pad (v : list Z) : list Z := replicate (Z.to_nat (padding_of (zlen v))) 0.
(** An attribute on the wire, and after parsing. *)
Definition enc (a : attribute) : list Z := be16 a.1 ++ be16 (zlen a.2) ++ a.2 ++ pad a.2.
Definition swap_port (v : list Z) : list Z :=
  match v with w :: f :: p :: q :: r => w :: f :: q :: p :: r | _ => v end.
Definition conv (a : attribute) : list Z := if memb a.1 ADDRESSES then swap_port a.2 else a.2.
Definition hbo (a : attribute) : list Z := bytes16 a.1 ++ bytes16 (zlen a.2) ++ conv a ++ pad a.2.
Definition COOKIE : list Z := [0x21; 0x12; 0xa4; 0x42].
Definition header (type length : Z) (id : list Z) : list Z := be16 type ++ be16 length ++ COOKIE ++ id.
Definition body (attrs : list attribute) : list Z := concat (map enc attrs).
Definition packet (type : Z) (id : list Z) (attrs : list attribute) : list Z := header type (zlen (body attrs)) id ++ body attrs.
Definition parsed (type : Z) (id : list Z) (attrs : list attribute) : list Z :=
  (bytes16 type ++ bytes16 (zlen (body attrs)) ++ COOKIE ++ id) ++ concat (map hbo attrs).

Definition OTHERS : list Z := [ATTR_SOURCE_ADDRESS2; ATTR_ERROR_CODE; ATTR_MAGIC_COOKIE; ATTR_UNKNOWN_ATTRIBUTES] ++ NUMBERS.
(** An attribute of one of the kinds that are built. *)
Definition attr_ok (a : attribute) : Prop :=
  0 <= a.1 < 65536 /\ Forall is_byte a.2 /\ zlen a.2 < 32764 /\ memb a.1 OTHERS = false /\
  (memb a.1 ADDRESSES = true -> 4 <= zlen a.2) /\ (a.1 = ATTR_MESSAGE_INTEGRITY -> zlen a.2 = 20).

Lemma padding_range n : 0 <= padding_of n < 4.
Proof. unfold padding_of. pose proof (Z.mod_pos_bound n 4). case_match; boolify; lia. Qed.
Lemma zlen_pad v : zlen (pad v) = padding_of (zlen v).
Proof. unfold pad, zlen at 1. rewrite length_replicate. pose proof (padding_range (zlen v)). lia. Qed.
Lemma zlen_enc a : zlen (enc a) = 4 + zlen a.2 + padding_of (zlen a.2).
Proof. unfold enc. rewrite !zlen_app, zlen_pad. change (zlen (be16 _)) with 2. lia. Qed.
Lemma padded_length_eq n : 0 <= n < 32764 -> padded_length n = n + padding_of n.
Proof.
  intros Hn. unfold padded_length, padding_of. change 3 with (Z.ones 2).
  rewrite Z.land_ones by lia. change (2 ^ 2) with 4. pose proof (Z.mod_pos_bound n 4 ltac:(lia)).
  rewrite <- Z.ldiff_land, Z.ldiff_ones_r, Z.shiftl_mul_pow2, Z.shiftr_div_pow2 by lia. change (2 ^ 2) with 4.
  pose proof (Z.div_mod n 4). rewrite i16_small; destruct (n mod 4 =? 0) eqn:E; cbn [negb]; boolify; lia.
Qed.
Lemma swap16_bytes a p q c off : off = zlen a -> is_byte p -> is_byte q ->
  swap16 (a ++ [p; q] ++ c) off = Ret (a ++ [q; p] ++ c).
Proof.
  intros -> Hp Hq. unfold is_byte in *. pose proof (swap16_at a c (zlen a) (p * 256 + q) eq_refl ltac:(lia)) as S.
  unfold be16, bytes16 in S.
  rewrite Z.div_add_l, (Z.div_small q), Z.add_0_r, (Z.add_comm (p * 256)), Z_mod_plus_full, !(Z.mod_small q), (Z.mod_small p) in S by lia.
  done.
Qed.
Lemma memb_app x l l' : memb x (l ++ l') = memb x l || memb x l'.
Proof. apply existsb_app. Qed.

(** The value of an attribute that is built is converted like this. *)
Lemma parse_value_at pre a rest : attr_ok a ->
  parse_value (pre ++ (bytes16 a.1 ++ bytes16 (zlen a.2)) ++ a.2 ++ rest) (zlen pre) a.1 (zlen a.2) =
  Ret (pre ++ (bytes16 a.1 ++ bytes16 (zlen a.2)) ++ conv a ++ rest, true).
Proof.
  intros (Ht & Hv & Hz & Ho & Ha & Hi). destruct a as [t v]. cbn [fst snd] in *. unfold parse_value, conv. cbn [fst snd].
  unfold OTHERS in Ho. rewrite memb_app in Ho. apply orb_false_elim in Ho as [Ho Hn].
  unfold memb at 1 in Ho. cbn [existsb] in Ho. rewrite !orb_false_iff in Ho. destruct Ho as (H1 & H2 & H3 & H4 & _).
  rewrite H1, H2, H3, H4, Hn. destruct (memb t ADDRESSES) eqn:E.
  - specialize (Ha eq_refl). destruct v as [|w [|f [|p [|q r]]]]; [unfold zlen in Ha; cbn in Ha; lia..|]. clear Ha.
    rewrite !Forall_cons in Hv. destruct Hv as (_ & _ & Hp & Hq & _).
    set (hd := bytes16 t ++ bytes16 (zlen (w :: f :: p :: q :: r))).
    pose proof (swap16_bytes (pre ++ hd ++ [w; f]) p q (r ++ rest) (zlen pre + 4 + 2)) as S.
    rewrite <- !app_assoc in S. cbn [app] in S |- *. rewrite S; [done| |done..].
    rewrite !zlen_app. change (zlen hd) with 4. change (zlen [w; f]) with 2. lia.
  - destruct (t =? ATTR_MESSAGE_INTEGRITY) eqn:E'; boolify; [|done]. by rewrite (Hi E').
Qed.
Lemma zlen_conv a : zlen (conv a) = zlen a.2.
Proof. unfold conv, swap_port. by repeat case_match. Qed.
Lemma zlen_hbo a : zlen (hbo a) = zlen (enc a).
Proof. unfold hbo. rewrite !zlen_app, zlen_conv, zlen_pad, zlen_enc. change (zlen (bytes16 _)) with 2. lia. Qed.
Lemma body_cons a attrs : body (a :: attrs) = enc a ++ body attrs.
Proof. done. Qed.
Lemma rd16_app pre rest off : 0 <= off -> off + 2 <= zlen pre -> rd16 (pre ++ rest) off = rd16 pre off.
Proof.
  intros H0 H1. unfold rd16. pose proof (zlen_nonneg rest). rewrite !mem_read_Some by (rewrite ?zlen_app; lia). f_equal. f_equal.
  unfold zlen in *. rewrite drop_app_le, take_app_le; [done|rewrite length_drop; lia|lia].
Qed.

Lemma attr_ok_lengths a : attr_ok a -> 0 <= zlen a.2 < 65536 /\ 0 <= a.1 < 65536 /\
  padded_length (zlen a.2) = zlen a.2 + padding_of (zlen a.2) /\ 0 <= zlen a.2 + padding_of (zlen a.2) < 32768.
Proof.
  intros (Ht & _ & Hz & _). pose proof (zlen_nonneg a.2). pose proof (padding_range (zlen a.2)).
  rewrite padded_length_eq by lia. lia.
Qed.

(** One attribute of a built packet. *)
Lemma parse_header_at pre a rest : attr_ok a ->
  (m <-! swap16 (pre ++ enc a ++ rest) (zlen pre + 2);; swap16 m (zlen pre)) =
  Ret (pre ++ (bytes16 a.1 ++ bytes16 (zlen a.2)) ++ a.2 ++ pad a.2 ++ rest).
Proof.
  intros Ha. destruct (attr_ok_lengths a Ha) as (H1 & H2 & _). unfold enc.
  pose proof (swap16_at (pre ++ be16 a.1) (a.2 ++ pad a.2 ++ rest) (zlen pre + 2) (zlen a.2)) as S1.
  pose proof (swap16_at pre (bytes16 (zlen a.2) ++ a.2 ++ pad a.2 ++ rest) (zlen pre) a.1) as S2.
  rewrite <- !app_assoc in *. rewrite S1; [|by rewrite zlen_app|done]. cbn [rbind]. by rewrite S2.
Qed.

Lemma parse_step_built fuel len hl pre a tail more : attr_ok a -> 20 <= zlen pre -> rd16 pre 2 = Ret hl -> 0 <= more ->
  zlen pre + (zlen (enc a) + more) = len -> len < 65556 ->
  parse_loop (S fuel) len (pre ++ enc a ++ tail) (zlen pre) (zlen (enc a) + more) (zlen pre - 20) =
  let pre := pre ++ hbo a in
  if zlen pre - 20 <? hl then parse_loop fuel len (pre ++ tail) (zlen pre) more (zlen pre - 20) else Ret (pre ++ tail, Some more).
Proof.
  intros Ha Hp Hhl Hmore Hlen Hl. destruct (attr_ok_lengths a Ha) as (H1 & H2 & H3 & H4). pose proof (zlen_enc a) as Ez.
  cbn [parse_loop]. rewrite (proj2 (Z.ltb_ge _ 4)) by lia.
  pose proof (parse_header_at pre a tail Ha) as P. apply rbind_Ret in P as (m1 & E1 & E2). rewrite E1. cbn [rbind].
  rewrite E2. cbn [rbind]. clear E1 E2 m1.
  assert (R1 : rd16 (pre ++ (bytes16 a.1 ++ bytes16 (zlen a.2)) ++ a.2 ++ pad a.2 ++ tail) (zlen pre + 2) = Ret (zlen a.2)).
  { pose proof (rd16_at (pre ++ bytes16 a.1) (bytes16 (zlen a.2)) (a.2 ++ pad a.2 ++ tail) (zlen pre + 2) (zlen a.2)) as R.
    rewrite <- !app_assoc in *. apply R; [by rewrite zlen_app|done..]. }
  assert (R2 : rd16 (pre ++ (bytes16 a.1 ++ bytes16 (zlen a.2)) ++ a.2 ++ pad a.2 ++ tail) (zlen pre) = Ret a.1).
  { rewrite <- !app_assoc. by apply rd16_at. }
  rewrite R1, R2. cbn [rbind]. rewrite H3, (parse_value_at pre a (pad a.2 ++ tail) Ha). cbn [rbind].
  rewrite !u32_small, !i32_small by (rewrite ?u32_small; lia).
  rewrite (proj2 (orb_false_iff _ _)) by (rewrite Z.gtb_ltb, !Z.ltb_ge; lia). cbn [negb].
  assert (Em : pre ++ (bytes16 a.1 ++ bytes16 (zlen a.2)) ++ conv a ++ pad a.2 ++ tail = (pre ++ hbo a) ++ tail).
  { unfold hbo. by rewrite <- !app_assoc. }
  rewrite Em, (rd16_app (pre ++ hbo a)), (rd16_app pre), Hhl by (rewrite ?zlen_app, ?zlen_hbo; lia). cbn [rbind].
  replace (zlen pre + 4 + (zlen a.2 + padding_of (zlen a.2))) with (zlen (pre ++ hbo a)) by (rewrite zlen_app, zlen_hbo; lia).
  replace (zlen pre - 20 + (4 + (zlen a.2 + padding_of (zlen a.2)))) with (zlen (pre ++ hbo a) - 20) by (rewrite zlen_app, zlen_hbo; lia).
  replace (zlen (enc a) + more - 4 - (zlen a.2 + padding_of (zlen a.2))) with more by lia.
  rewrite Z.gtb_ltb, (proj2 (Z.ltb_ge _ _)) by (rewrite zlen_app, zlen_hbo; lia). done.
Qed.

Lemma parse_loop_built rest : forall attrs a fuel pre len,
  Forall attr_ok (a :: attrs) -> 20 <= zlen pre -> len = zlen pre + zlen (body (a :: attrs)) -> len < 65556 ->
  rd16 pre 2 = Ret (len - 20) -> (length attrs < fuel)%nat ->
  parse_loop fuel len (pre ++ body (a :: attrs) ++ rest) (zlen pre) (zlen (body (a :: attrs))) (zlen pre - 20) =
  Ret (pre ++ concat (map hbo (a :: attrs)) ++ rest, Some 0).
Proof.
  induction attrs as [|b attrs IH]; intros a fuel pre len Hok Hp Hlen Hl Hhl Hf; (destruct fuel as [|fuel]; [lia|]);
    apply Forall_cons in Hok as [Ha Hok]; rewrite body_cons, zlen_app in *; rewrite <- app_assoc;
    rewrite (parse_step_built fuel len (len - 20) pre a _ _ Ha Hp Hhl) by (lia || apply zlen_nonneg); cbv zeta.
  - rewrite (proj2 (Z.ltb_ge _ _)) by (rewrite zlen_app, zlen_hbo; change (zlen (body [])) with 0 in Hlen; lia).
    cbn [map concat]. by rewrite app_nil_r, <- app_assoc.
  - assert (0 < zlen (body (b :: attrs))).
    { rewrite body_cons, zlen_app, zlen_enc. pose proof (zlen_nonneg b.2). pose proof (zlen_nonneg (body attrs)).
      pose proof (padding_range (zlen b.2)). lia. }
    rewrite (proj2 (Z.ltb_lt _ _)) by (rewrite zlen_app, zlen_hbo; lia).
    rewrite IH; [|done|rewrite zlen_app; pose proof (zlen_nonneg (hbo a)); lia|rewrite zlen_app, zlen_hbo; lia|done| |cbn in Hf; lia].
    + cbn [map concat]. by rewrite <- !app_assoc.
    + rewrite rd16_app by lia. done.
Qed.

Lemma zlen_header type n id : length id = 12%nat -> zlen (header type n id) = 20.
Proof. intros Hid. unfold zlen, header. cbn [be16 COOKIE app length]. by rewrite Hid. Qed.

Lemma valid_type_range type : valid_type type = true -> 0 <= type < 65536.
Proof.
  intros Ht. unfold valid_type, memb in Ht. apply existsb_exists in Ht as (x & Hin & ->%Z.eqb_eq).
  assert (forallb (fun x => (0 <=? x) && (x <? 65536)) (map fst PACKET_TYPES) = true) as Hall by done.
  rewrite forallb_forall in Hall. apply Hall in Hin. boolify. lia.
Qed.
(** A packet of attributes that are built is accepted and converted. *)
Lemma parse_packet type id attrs rest : valid_type type = true -> length id = 12%nat -> Forall attr_ok attrs ->
  8 <= zlen (body attrs) < 65536 ->
  switch_stun_packet_parse (packet type id attrs ++ rest) (zlen (packet type id attrs)) = Ret (parsed type id attrs ++ rest, true).
Proof.
  intros Ht Hid Hok Hb. destruct attrs as [|a attrs]; [change (zlen (body [])) with 0 in Hb; lia|].
  set (n := zlen (body (a :: attrs))) in *.
  pose proof (valid_type_range type Ht) as Hty.
  assert (Hlen : zlen (packet type id (a :: attrs)) = 20 + n).
  { unfold packet. by rewrite zlen_app, zlen_header. }
  rewrite Hlen. unfold switch_stun_packet_parse, SWITCH_STUN_PACKET_MIN_LEN, SWITCH_STUN_ATTRIBUTE_MIN_LEN.
  rewrite (proj2 (Z.ltb_ge _ 20)) by lia. unfold packet, header, parsed. fold n. rewrite <- !app_assoc.
  set (tl := COOKIE ++ id ++ body (a :: attrs) ++ rest).
  pose proof (swap16_at [] (be16 n ++ tl) 0 type eq_refl Hty) as S1. cbn [app] in S1. rewrite S1. cbn [rbind].
  rewrite (swap16_at (bytes16 type) tl 2 n) by (done || lia). cbn [rbind].
  rewrite (rd16_at (bytes16 type) (bytes16 n) tl 2 n) by (done || lia). cbn [rbind].
  rewrite u32_small by lia. replace (20 + n - 20) with n by lia. rewrite Z.gtb_ltb, Z.ltb_irrefl.
  pose proof (rd16_at [] (bytes16 type) (bytes16 n ++ tl) 0 type eq_refl Hty eq_refl) as R0. cbn [app] in R0. rewrite R0. cbn [rbind].
  rewrite Ht. cbn [negb]. rewrite (proj2 (Z.leb_gt n 0)), (proj2 (Z.eqb_neq n 0)), (proj2 (Z.ltb_ge n 8)) by lia.
  set (pre := bytes16 type ++ bytes16 n ++ COOKIE ++ id).
  assert (Hp : zlen pre = 20) by (unfold pre, zlen; cbn [bytes16 COOKIE app length]; by rewrite Hid).
  assert (R2 : rd16 pre 2 = Ret (20 + n - 20)).
  { replace (20 + n - 20) with n by lia. apply (rd16_at (bytes16 type) (bytes16 n)); [done|lia|done]. }
  pose proof (parse_loop_built rest attrs a (Z.to_nat (20 + n)) pre (20 + n) Hok) as L.
  rewrite Hp in L. fold n in L. replace (20 - 20) with 0 in L by lia.
  replace (bytes16 type ++ bytes16 n ++ tl) with (pre ++ body (a :: attrs) ++ rest) by (unfold pre, tl; by rewrite <- !app_assoc).
  assert (Hcount : Z.of_nat (length (a :: attrs)) <= n).
  { unfold n. clear. induction (a :: attrs) as [|x l IH]; [done|]. rewrite body_cons, zlen_app, zlen_enc.
    cbn [length]. pose proof (zlen_nonneg x.2). pose proof (padding_range (zlen x.2)). lia. }
  cbn [length] in Hcount. rewrite L; [|lia|lia|lia|done|lia]. cbn [rbind].
  rewrite rd16_app, R2 by lia. cbn [rbind]. rewrite !u32_small by lia.
  rewrite Z.gtb_ltb, (proj2 (Z.ltb_ge _ _)) by lia. unfold pre. by rewrite <- !app_assoc.
Qed.

(** ** Building *)
Lemma htons_small x : 0 <= x < 256 -> htons x = x * 256.
Proof. intros Hx. unfold htons. rewrite ntohs_eq, Z.mod_small, Z.div_small by lia. lia. Qed.
Lemma ntohs_htons x : 0 <= x < 65536 -> ntohs (htons x) = x.
Proof. apply ntohs_ntohs. Qed.
Definition zeros (k : Z) : list Z := replicate (Z.to_nat k) 0.
Lemma zeros_split a b : 0 <= a -> 0 <= b -> zeros (a + b) = zeros a ++ zeros b.
Proof. intros Ha Hb. unfold zeros. by rewrite Z2Nat.inj_add, replicate_add by lia. Qed.
Lemma zlen_zeros k : 0 <= k -> zlen (zeros k) = k.
Proof. intros Hk. unfold zlen, zeros. rewrite length_replicate. lia. Qed.

Lemma rd_length type n id rest : length id = 12%nat -> 0 <= n < 65536 -> rd16 (header type n id ++ rest) 2 = Ret (htons n).
Proof. intros Hid Hn. unfold header. rewrite <- !app_assoc. by apply (rd16_be (be16 type)). Qed.
(** The length of the packet grows; sums in network order are right while they
    stay below 256. *)
Lemma wr_length type n n' id rest : length id = 12%nat -> 0 <= n' < 65536 ->
  wr16 (header type n id ++ rest) 2 (htons n') = Ret (header type n' id ++ rest).
Proof.
  intros Hid Hn. unfold header, wr16. rewrite <- !app_assoc, bytes16_htons by done. by apply (wr_at (be16 type) (be16 n)).
Qed.
Lemma network_sum n p l : 0 <= n -> 0 <= p -> 0 <= l -> n + (p + l) < 256 ->
  u16 (htons n + (htons (u16 p) + htons l)) = htons (n + (p + l)).
Proof. intros. rewrite (u16_small p), !htons_small, u16_small by lia. lia. Qed.

Lemma put_header type id attrs k t l : length id = 12%nat -> 0 <= t < 65536 -> 0 <= l < 256 -> 0 <= k ->
  let m := packet type id attrs in
  (m <-! wr16 (m ++ zeros (4 + k)) (zlen m) (htons t);; wr16 m (zlen (packet type id attrs) + 2) (htons l)) =
  Ret (m ++ (be16 t ++ be16 l) ++ zeros k).
Proof.
  intros Hid Ht Hl Hk m. unfold wr16. rewrite !bytes16_htons by lia.
  rewrite (zeros_split 4 k) by lia. change (zeros 4) with ([0; 0] ++ [0; 0]). rewrite <- !app_assoc.
  rewrite (wr_at m [0; 0]) by done. cbn [rbind]. fold m.
  pose proof (wr_at (m ++ be16 t) [0; 0] (zeros k) (zlen m + 2) (be16 l)) as W. rewrite <- !app_assoc in W.
  by rewrite W by (rewrite ?zlen_app; done).
Qed.

Definition attrs_room (attrs : list attribute) (v : list Z) (k : Z) : Prop :=
  zlen (body attrs) + zlen (enc (0, v)) < 256 /\ zlen (enc (0, v)) <= k.
Lemma body_snoc attrs a : body (attrs ++ [a]) = body attrs ++ enc a.
Proof. unfold body. rewrite map_app, concat_app. cbn [map concat]. by rewrite app_nil_r. Qed.
Lemma packet_snoc type id attrs t v : 
  packet type id (attrs ++ [(t, v)]) =
  header type (zlen (body attrs) + (4 + padding_of (zlen v) + zlen v)) id ++ body attrs ++ be16 t ++ be16 (zlen v) ++ v ++ pad v.
Proof.
  unfold packet. rewrite body_snoc, zlen_app, zlen_enc. unfold enc. cbn [fst snd].
  f_equal. f_equal. lia.
Qed.

(** An attribute is put behind the others; [value] computes its bytes from the
    block in which its header is already written. *)
Lemma put_value_at type id attrs k t v value : length id = 12%nat -> 0 <= t < 65536 -> attrs_room attrs v k ->
  value (packet type id attrs ++ (be16 t ++ be16 (zlen v)) ++ zeros (k - 4)) = Ret v ->
  put_value (packet type id attrs ++ zeros k) t (zlen v) value (padding_of (zlen v)) =
  Ret (packet type id (attrs ++ [(t, v)]) ++ zeros (k - zlen (enc (0, v)))).
Proof.
  intros Hid Ht [Hr Hk] Hv. rewrite zlen_enc in *. cbn [snd] in *.
  pose proof (zlen_nonneg v). pose proof (zlen_nonneg (body attrs)). pose proof (padding_range (zlen v)).
  set (n := zlen (body attrs)) in *. unfold put_value.
  assert (Hlen : zlen (packet type id attrs) = 20 + n) by (unfold packet; by rewrite zlen_app, zlen_header).
  assert (R : rd16 (packet type id attrs ++ zeros k) 2 = Ret (htons n)).
  { unfold packet. rewrite <- app_assoc. apply rd_length; [done|lia]. }
  rewrite R. cbn [rbind]. rewrite ntohs_htons, <- Hlen by lia.
  pose proof (put_header type id attrs (k - 4) t (zlen v) Hid Ht ltac:(lia) ltac:(lia)) as P. cbv zeta in P.
  replace (4 + (k - 4)) with k in P by lia. apply rbind_Ret in P as (m1 & E1 & E2). rewrite E1. cbn [rbind].
  rewrite E2. cbn [rbind]. rewrite Hv. cbn [rbind]. clear R E1 E2 Hv m1.
  replace (k - 4) with (zlen v + (padding_of (zlen v) + (k - (4 + zlen v + padding_of (zlen v))))) by lia.
  rewrite !zeros_split by lia. set (tail := zeros (padding_of (zlen v)) ++ _).
  pose proof (wr_at (packet type id attrs ++ be16 t ++ be16 (zlen v)) (zeros (zlen v)) tail (zlen (packet type id attrs) + 4) v) as W.
  rewrite <- !app_assoc in *. rewrite W; [|by rewrite !zlen_app|unfold zeros, zlen; rewrite length_replicate; lia]. cbn [rbind]. clear W.
  assert (R1 : rd16 (packet type id attrs ++ be16 t ++ be16 (zlen v) ++ v ++ tail) (zlen (packet type id attrs) + 2) = Ret (htons (zlen v))).
  { pose proof (rd16_be (packet type id attrs ++ be16 t) (v ++ tail) (zlen (packet type id attrs) + 2) (zlen v)) as R.
    rewrite <- !app_assoc in R. apply R; [by rewrite zlen_app|lia]. }
  rewrite R1. unfold packet at 1 2. fold n. rewrite <- !app_assoc, rd_length by (done || lia). cbn [rbind].
  rewrite network_sum, wr_length by (done || lia). rewrite packet_snoc. fold n. unfold tail, pad. by rewrite <- !app_assoc.
Qed.
(** An attribute computed from the packet in front of it, whose length counts it. *)
Definition covered (type : Z) (id : list Z) (attrs : list attribute) (l : Z) : list Z :=
  header type (zlen (body attrs) + (4 + l)) id ++ body attrs.
Lemma put_digest_at type id attrs k t l digest : length id = 12%nat -> 0 <= t < 65536 ->
  let v := digest (covered type id attrs l) in
  zlen v = l -> l mod 4 = 0 -> attrs_room attrs v k ->
  put_digest (packet type id attrs ++ zeros k) t l digest =
  Ret (packet type id (attrs ++ [(t, v)]) ++ zeros (k - zlen (enc (0, v)))).
Proof.
  intros Hid Ht v Hv H4 [Hr Hk]. rewrite zlen_enc in *. cbn [snd] in *.
  assert (Hp : padding_of (zlen v) = 0) by (unfold padding_of; rewrite Hv, H4; done). rewrite Hp in *.
  pose proof (zlen_nonneg v). pose proof (zlen_nonneg (body attrs)). rewrite Hv in *.
  set (n := zlen (body attrs)) in *. unfold put_digest.
  assert (Hlen : zlen (packet type id attrs) = 20 + n) by (unfold packet; by rewrite zlen_app, zlen_header).
  assert (R : rd16 (packet type id attrs ++ zeros k) 2 = Ret (htons n)).
  { unfold packet. rewrite <- app_assoc. apply rd_length; [done|lia]. }
  rewrite R. cbn [rbind]. rewrite ntohs_htons, <- Hlen by lia.
  pose proof (put_header type id attrs (k - 4) t l Hid Ht ltac:(lia) ltac:(lia)) as P. cbv zeta in P.
  replace (4 + (k - 4)) with k in P by lia. apply rbind_Ret in P as (m1 & E1 & E2). rewrite E1. cbn [rbind].
  rewrite E2. cbn [rbind]. clear R E1 E2 m1.
  assert (R1 : rd16 (packet type id attrs ++ (be16 t ++ be16 l) ++ zeros (k - 4)) (zlen (packet type id attrs) + 2) = Ret (htons l)).
  { pose proof (rd16_be (packet type id attrs ++ be16 t) (zeros (k - 4)) (zlen (packet type id attrs) + 2) l) as R.
    rewrite <- !app_assoc in *. apply R; [by rewrite zlen_app|lia]. }
  rewrite R1. cbn [rbind]. unfold packet at 1. fold n. rewrite <- !app_assoc.
  change (htons 4) with (htons (u16 4)). rewrite network_sum, wr_length by (done || lia). cbn [rbind].
  assert (Hc : zlen (covered type id attrs l) = 20 + n) by (unfold covered; rewrite zlen_app, zlen_header; done).
  rewrite (app_assoc (header _ _ _)). change (header type (n + (4 + l)) id ++ body attrs) with (covered type id attrs l).
  pose proof (mem_read_at [] (covered type id attrs l) (be16 t ++ be16 l ++ zeros (k - 4)) 0 (u16 (n + 20)) eq_refl) as M.
  cbn [app] in M. rewrite M by (rewrite u16_small, Hc by lia; lia). cbn [or_ub rbind]. fold v. clear M.
  replace (k - 4) with (l + (k - (4 + l + 0))) by lia. rewrite zeros_split by lia.
  pose proof (wr_at (covered type id attrs l ++ be16 t ++ be16 l) (zeros l) (zeros (k - (4 + l + 0))) (zlen (packet type id attrs) + 4) v) as W.
  rewrite <- !app_assoc in W. rewrite W; [|rewrite !zlen_app, Hc, Hlen; done|].
  - rewrite packet_snoc. fold n. unfold pad. rewrite Hv, Hp. cbn [Z.to_nat replicate]. rewrite app_nil_r, Z.add_0_r.
    unfold covered. by rewrite <- !app_assoc.
  - unfold zeros, zlen in *. rewrite length_replicate. lia.
Qed.
