(* ===== verification/StunBuild.v ===== *)
(** * StunBuild: packets that are built, parsed again

    Every sequence of attributes that fits a packet is found again by the parser,
    with the digests of what precedes them, and a mapped address is read back as
    the address that was put in. *)
From S2P Require Import HashTable TextUtil NetList Prelude Crc32 Stun StunProps.
From Stdlib Require Import ZArith Lia.
From stdpp Require Import base numbers option list.

Local Open Scope Z_scope.

(** ** Words of four bytes *)
Lemma bytes32_lxor x y : bytes32 (Z.lxor x y) = lxor_bytes (bytes32 x) (bytes32 y).
Proof.
  assert (L : forall a b, Z.lxor a b mod 2 ^ 8 = Z.lxor (a mod 2 ^ 8) (b mod 2 ^ 8)).
  { intros a b. apply Z.bits_inj'. intros n Hn. rewrite Z.lxor_spec.
    destruct (Z.lt_ge_cases n 8); [by rewrite !Z.mod_pow2_bits_low, Z.lxor_spec by lia|by rewrite !Z.mod_pow2_bits_high by lia]. }
  unfold bytes32, lxor_bytes. cbn [zip_with]. change 256 with (2 ^ 8). change 65536 with (2 ^ 16). change 16777216 with (2 ^ 24).
  by rewrite <- !Z.shiftr_div_pow2, !Z.shiftr_lxor, !L by lia.
Qed.
Lemma bytes32_range x : Forall is_byte (bytes32 x).
Proof. unfold bytes32, is_byte. rewrite !Forall_cons, Forall_nil. split_and!; try done; apply Z.mod_pos_bound; lia. Qed.
Lemma word32_bytes32 x : 0 <= x < 4294967296 -> word32 (bytes32 x) = x.
Proof. intros Hx. unfold word32, bytes32. cbn [foldr]. Z.to_euclidean_division_equations. lia. Qed.
Lemma bytes32_word32 a b c d : is_byte a -> is_byte b -> is_byte c -> is_byte d -> bytes32 (word32 [a; b; c; d]) = [a; b; c; d].
Proof.
  intros Ha Hb Hc Hd. unfold word32, bytes32, is_byte in *. cbn [foldr]. f_equal; [|f_equal; [|f_equal; [|f_equal]]];
    Z.to_euclidean_division_equations; lia.
Qed.
Lemma word32_range a b c d : is_byte a -> is_byte b -> is_byte c -> is_byte d -> 0 <= word32 [a; b; c; d] < 4294967296.
Proof. intros. unfold word32, is_byte in *. cbn [foldr]. lia. Qed.
Lemma ntohl_word a b c d : is_byte a -> is_byte b -> is_byte c -> is_byte d -> ntohl (word32 [a; b; c; d]) = word32 [d; c; b; a].
Proof.
  intros Ha Hb Hc Hd. unfold is_byte in *. unfold ntohl. rewrite u32_small by (apply word32_range; done).
  unfold word32. cbn [foldr]. change 65535 with (Z.ones 16). rewrite Z.land_ones, Z.shiftr_div_pow2 by lia.
  change (2 ^ 16) with 65536.
  replace ((a + 256 * (b + 256 * (c + 256 * (d + 256 * 0)))) mod 65536) with (a + 256 * b) by (Z.to_euclidean_division_equations; lia).
  replace ((a + 256 * (b + 256 * (c + 256 * (d + 256 * 0)))) / 65536) with (c + 256 * d) by (Z.to_euclidean_division_equations; lia).
  rewrite !ntohs_eq by lia. rewrite shiftl_lor_add; [|lia|change (2 ^ 16) with 65536; Z.to_euclidean_division_equations; lia].
  change (2 ^ 16) with 65536. Z.to_euclidean_division_equations. lia.
Qed.
Lemma bytes32_htonl x : 0 <= x < 4294967296 -> bytes32 (htonl x) = rev (bytes32 x).
Proof.
  intros Hx. pose proof (bytes32_range x) as H. rewrite <- (word32_bytes32 x Hx) at 1. unfold bytes32 in H |- * at 2 3.
  rewrite !Forall_cons in H. destruct H as (H1 & H2 & H3 & H4 & _). unfold htonl. rewrite ntohl_word by done.
  cbn [rev app]. by apply bytes32_word32.
Qed.
Lemma xor_cookie_bytes a b c d : is_byte a -> is_byte b -> is_byte c -> is_byte d ->
  xor_cookie [a; b; c; d] = lxor_bytes [a; b; c; d] COOKIE.
Proof.
  intros Ha Hb Hc Hd. unfold xor_cookie. rewrite ntohl_word by done. rewrite bytes32_htonl.
  - rewrite bytes32_lxor, bytes32_word32 by done. done.
  - change 4294967296 with (2 ^ 32). apply lxor_range; [lia| |done]. by apply word32_range.
Qed.

(** ** Sequences of attributes *)
Definition switch_stun_packet_length (m : list Z) : res Z := n <-! rd16 m 2;; Ret (ntohs n + 20).

Section Building.
Context (rand : nat -> Z) (inet_pton6 : list Z -> option (list Z)) (hmac : list Z -> list Z -> list Z).
Hypothesis hmac_sha1 : forall pass bs, length (hmac pass bs) = 20%nat /\ Forall is_byte (hmac pass bs).

Inductive stun_add :=
| AddUsername (v : list Z)
| AddSoftware (v : list Z)
| AddPassword (v : list Z)
| AddPriority (priority : Z)
| AddUseCandidate
| AddControlling
| AddControlled
| AddAddress (ipstr : list Z) (port : Z)
| AddIntegrity (pass : list Z)
| AddFingerprint.
Definition run_add (m : list Z) (op : stun_add) : res (list Z) :=
  match op with
  | AddUsername v => switch_stun_packet_attribute_add_username rand m (Some v) (zlen v)
  | AddSoftware v => switch_stun_packet_attribute_add_software rand m (Some v) (zlen v)
  | AddPassword v => switch_stun_packet_attribute_add_password rand m (Some v) (zlen v)
  | AddPriority p => switch_stun_packet_attribute_add_priority m p
  | AddUseCandidate => switch_stun_packet_attribute_add_use_candidate m
  | AddControlling => switch_stun_packet_attribute_add_controlling rand m
  | AddControlled => switch_stun_packet_attribute_add_controlled rand m
  | AddAddress ip port => switch_stun_packet_attribute_add_xor_binded_address inet_pton6 m ip port AF_INET
  | AddIntegrity pass => switch_stun_packet_attribute_add_integrity hmac m pass
  | AddFingerprint => switch_stun_packet_attribute_add_fingerprint m
  end.

(** What each of them is meant to add to a packet of [attrs]. *)
Definition be32 (x : Z) : list Z := rev (bytes32 x).
Definition stun_value (type : Z) (id : list Z) (attrs : list attribute) (op : stun_add) : attribute :=
  match op with
  | AddUsername v => (ATTR_USERNAME, v)
  | AddSoftware v => (ATTR_SOFTWARE, v)
  | AddPassword v => (ATTR_PASSWORD, v)
  | AddPriority p => (ATTR_PRIORITY, be32 p)
  | AddUseCandidate => (ATTR_USE_CAND, [])
  | AddControlling => (ATTR_CONTROLLING, switch_stun_random_string rand 0 8)
  | AddControlled => (ATTR_CONTROLLED, switch_stun_random_string rand 0 8)
  | AddAddress ip port =>
    (ATTR_XOR_MAPPED_ADDRESS,
     [0; 1] ++ be16 (Z.lxor port 0x2112) ++ lxor_bytes (be32 (default 0 (inet_pton4 ip))) COOKIE)
  | AddIntegrity pass => (ATTR_MESSAGE_INTEGRITY, hmac pass (covered type id attrs 20))
  | AddFingerprint => (ATTR_FINGERPRINT, be32 (Z.lxor (crc32 (covered type id attrs 4)) 0x5354554e))
  end.
Definition add_ok (op : stun_add) : Prop :=
  match op with
  | AddUsername v | AddSoftware v | AddPassword v => Forall is_byte v
  | AddPriority p => 0 <= p < 4294967296
  | AddAddress ip port => 0 <= port < 65536 /\ exists a, inet_pton4 ip = Some a
  | _ => True
  end.
Definition add_all (type : Z) (id : list Z) (ops : list stun_add) : list attribute :=
  fold_left (fun attrs op => attrs ++ [stun_value type id attrs op]) ops [].

Lemma be32_bytes x : Forall is_byte (be32 x).
Proof. unfold be32. apply Forall_rev, bytes32_range. Qed.
Lemma lxor_bytes_range a b : Forall is_byte a -> Forall is_byte b -> Forall is_byte (lxor_bytes a b).
Proof.
  intros Ha. revert b. unfold lxor_bytes. induction Ha as [|x a Hx Ha IH]; intros b Hb; [by apply Forall_nil|].
  destruct Hb as [|y b Hy Hb]; [by apply Forall_nil|]. cbn [zip_with]. apply Forall_cons. split; [by apply (lxor_range 8)|by apply IH].
Qed.
Lemma random_string_ok n len : length (switch_stun_random_string rand n len) = len /\ Forall is_byte (switch_stun_random_string rand n len).
Proof.
  unfold switch_stun_random_string. rewrite length_map, length_seq. split; [done|]. apply Forall_map, Forall_forall. intros x _.
  set (i := Z.to_nat _). cbn beta. assert (H : Forall is_byte CHARS).
  { apply Forall_forall. intros c Hc. pose proof (forallb_forall (fun c => (0 <=? c) && (c <? 256)) CHARS) as [F _].
    assert (T : forallb (fun c => (0 <=? c) && (c <? 256)) CHARS = true) by done.
    specialize (F T c (proj1 (list_elem_of_In _ _) Hc)). unfold is_byte. boolify. lia. }
  destruct (Nat.lt_ge_cases i (length CHARS)) as [Hi|Hi].
  - rewrite Forall_forall in H. apply H, list_elem_of_In, nth_In. done.
  - rewrite nth_overflow by done. done.
Qed.


Lemma enc_bytes a : attr_ok a -> Forall is_byte (enc a).
Proof.
  intros Ha. destruct (attr_ok_lengths a Ha) as (H1 & H2 & _). destruct Ha as (_ & Hb & _).
  assert (B : forall x, 0 <= x < 65536 -> Forall is_byte (be16 x)).
  { intros x Hx. unfold be16, is_byte. rewrite !Forall_cons, Forall_nil. split_and!; try done;
      Z.to_euclidean_division_equations; lia. }
  unfold enc, pad. rewrite !Forall_app. split_and!; [by apply B..|done|]. by apply Forall_replicate.
Qed.
Lemma body_bytes attrs : Forall attr_ok attrs -> Forall is_byte (body attrs).
Proof.
  unfold body. induction 1 as [|a attrs Ha _ IH]; [by apply Forall_nil|]. cbn [map concat]. apply Forall_app.
  split; [by apply enc_bytes|done].
Qed.
Lemma covered_bytes type id attrs l : 0 <= type < 65536 -> Forall is_byte id -> Forall attr_ok attrs -> 0 <= l ->
  zlen (body attrs) + (4 + l) < 65536 -> Forall is_byte (covered type id attrs l).
Proof.
  intros Ht Hid Ha Hl Hn. pose proof (zlen_nonneg (body attrs)).
  unfold covered, header, be16, COOKIE. rewrite !Forall_app, !Forall_cons, Forall_nil. unfold is_byte at 1 2 3 4 5 6 7 8.
  split_and!; try done; try lia; [Z.to_euclidean_division_equations; lia..|by apply body_bytes].
Qed.

Lemma stun_value_ok type id attrs op : add_ok op -> attrs_room attrs (stun_value type id attrs op).2 (zlen (enc (stun_value type id attrs op))) ->
  attr_ok (stun_value type id attrs op).
Proof.
  intros Hop [Hr _]. rewrite zlen_enc in Hr. cbn [snd] in Hr. pose proof (zlen_nonneg (body attrs)).
  pose proof (padding_range (zlen (stun_value type id attrs op).2)).
  assert (Hl : zlen (stun_value type id attrs op).2 < 32764) by lia.
  assert (B : Forall is_byte (stun_value type id attrs op).2).
  { destruct op as [v|v|v|p| | | |ip port|pass|]; cbn [stun_value snd] in *; try done; try apply be32_bytes; try apply random_string_ok;
      [|apply hmac_sha1].
    destruct Hop as [Hp _]. assert (0 <= Z.lxor port 0x2112 < 2 ^ 16) by (apply lxor_range; lia).
    rewrite Forall_app, Forall_app. unfold be16, is_byte at 1 2. rewrite !Forall_cons, Forall_nil.
    split_and!; try done; try lia; [Z.to_euclidean_division_equations; lia..|].
    apply lxor_bytes_range; [apply be32_bytes|]. unfold COOKIE, is_byte. rewrite !Forall_cons, Forall_nil. lia. }
  split; [by destruct op|]. split; [done|]. split; [done|]. split; [by destruct op|].
  destruct op; cbn [stun_value fst snd]; (split; [done|]); try done. intros _. unfold zlen. by rewrite (proj1 (hmac_sha1 _ _)).
Qed.

Lemma read_zero m k off n : 0 <= n -> zlen m <= off -> off + n <= zlen m + k -> mem_read (m ++ zeros k) off n = Some (zeros n).
Proof.
  intros Hn H1 H2. replace k with ((off - zlen m) + (n + (zlen m + k - (off + n)))) by lia. rewrite !zeros_split by lia.
  rewrite app_assoc. apply mem_read_at; [rewrite zlen_app, zlen_zeros; lia|rewrite zlen_zeros; lia].
Qed.

(** The value of an address. *)
Lemma ip_value_at m k ip port a : 0 <= port < 65536 -> inet_pton4 ip = Some a -> 8 <= k ->
  ip_value inet_pton6 (zlen m - 4) ip port AF_INET xor_cookie v6_xor (m ++ zeros k) =
  Ret ([0; 1] ++ be16 (Z.lxor port 0x2112) ++ lxor_bytes (be32 a) COOKIE).
Proof.
  intros Hp Ha Hk. unfold ip_value, rd8. pose proof (zlen_nonneg m). rewrite (read_zero m k) by lia. cbn [or_ub rbind zeros Z.to_nat].
  change (Pos.to_nat 1) with 1%nat. cbn [replicate rbind]. change (AF_INET =? AF_INET6) with false. cbn iota.
  rewrite (read_zero m k) by lia. cbn [or_ub rbind]. rewrite Ha. cbn [option_map from_option id].
  change (Z.shiftr STUN_MAGIC_COOKIE 16) with 0x2112. pose proof (lxor_range 16 port 0x2112 ltac:(lia) ltac:(lia) ltac:(lia)).
  rewrite bytes16_htons by lia. pose proof (be32_bytes a) as B. unfold be32, bytes32 in B |- *. cbn [rev app] in *.
  rewrite !Forall_cons in B. destruct B as (B1 & B2 & B3 & B4 & _). by rewrite xor_cookie_bytes.
Qed.

(** Each operation adds the attribute it is meant to add. *)
Lemma run_add_at type id attrs k op : 0 <= type < 65536 -> length id = 12%nat -> Forall is_byte id -> Forall attr_ok attrs -> add_ok op ->
  let a := stun_value type id attrs op in
  attrs_room attrs a.2 k ->
  run_add (packet type id attrs ++ zeros k) op = Ret (packet type id (attrs ++ [a]) ++ zeros (k - zlen (enc a))).
Proof.
  intros Hty Hid Hidb Hattrs Hop a Hroom. pose proof (zlen_nonneg (body attrs)) as Hn.
  assert (Hlen : zlen (packet type id attrs) = 20 + zlen (body attrs)) by (unfold packet; by rewrite zlen_app, zlen_header).
  assert (PB : forall t v, 0 <= t < 65536 -> attrs_room attrs v k ->
    put_bytes (packet type id attrs ++ zeros k) t v (padding_of (zlen v)) =
    Ret (packet type id (attrs ++ [(t, v)]) ++ zeros (k - zlen (enc (t, v))))).
  { intros t v Ht Hr. unfold put_bytes. by apply put_value_at. }
  assert (GV : forall v, given_or_random rand (Some v) (zlen v) = Ret v).
  { intros v. unfold given_or_random. pose proof (mem_read_at [] v [] 0 (zlen v) eq_refl eq_refl) as M.
    cbn [app] in M. rewrite app_nil_r in M. by rewrite M. }
  destruct op as [v|v|v|p| | | |ip port|pass|]; cbn [run_add stun_value] in *; subst a; cbn [snd] in *.
  - unfold switch_stun_packet_attribute_add_username. rewrite GV. cbn [rbind]. by apply PB.
  - unfold switch_stun_packet_attribute_add_software. rewrite GV. cbn [rbind]. by apply PB.
  - unfold switch_stun_packet_attribute_add_password. rewrite GV. cbn [rbind]. by apply PB.
  - unfold switch_stun_packet_attribute_add_priority. rewrite bytes32_htonl by done. by apply (PB ATTR_PRIORITY (be32 p)).
  - by apply (PB ATTR_USE_CAND []).
  - destruct (random_string_ok 0 8) as [Hl _]. pose proof (PB ATTR_CONTROLLING _ ltac:(done) Hroom) as P.
    unfold zlen at 1 in P. rewrite Hl in P. exact P.
  - destruct (random_string_ok 0 8) as [Hl _]. pose proof (PB ATTR_CONTROLLED _ ltac:(done) Hroom) as P.
    unfold zlen at 1 in P. rewrite Hl in P. exact P.
  - destruct Hop as (Hp & x & Hx). rewrite Hx in *. cbn [default] in *.
    unfold switch_stun_packet_attribute_add_xor_binded_address, put_ip. destruct Hroom as [Hr Hk].
    rewrite zlen_enc in Hr. cbn [snd] in Hr. change (zlen ([0; 1] ++ _ ++ _)) with 8 in Hr. change (padding_of 8) with 0 in Hr.
    unfold packet at 1. rewrite <- app_assoc, rd_length by (done || lia). cbn [rbind].
    rewrite ntohs_htons by lia. change (if AF_INET =? AF_INET6 then 20 else 8) with 8.
    apply (put_value_at type id attrs k ATTR_XOR_MAPPED_ADDRESS ([0; 1] ++ be16 (Z.lxor port 0x2112) ++ lxor_bytes (be32 x) COOKIE));
      [done|done|split; [exact Hr|exact Hk]|].
    pose proof (ip_value_at (packet type id attrs ++ be16 ATTR_XOR_MAPPED_ADDRESS ++ be16 8) (k - 4) ip port x Hp Hx) as I.
    rewrite !zlen_app, Hlen in I. change (zlen (be16 _)) with 2 in I.
    replace (20 + zlen (body attrs) + (2 + 2) - 4) with (20 + zlen (body attrs)) in I by lia. rewrite <- !app_assoc in *. apply I.
    change (12 <= k) in Hk. lia.
  - apply (put_digest_at type id attrs k ATTR_MESSAGE_INTEGRITY 20 (hmac pass)); try done.
    unfold zlen. by rewrite (proj1 (hmac_sha1 _ _)).
  - unfold switch_stun_packet_attribute_add_fingerprint.
    assert (E : fingerprint (covered type id attrs 4) = be32 (Z.lxor (crc32 (covered type id attrs 4)) 0x5354554e)).
    { destruct Hroom as [Hr _]. change (zlen (enc (0, be32 _))) with 8 in Hr.
      assert (C : Forall is_byte (covered type id attrs 4)) by (apply covered_bytes; (done || lia)).
      unfold fingerprint. rewrite crc_sliced by done. apply bytes32_htonl. change 4294967296 with (2 ^ 32).
      apply lxor_range; [lia|by apply crc32_range|lia]. }
    pose proof (put_digest_at type id attrs k ATTR_FINGERPRINT 4 fingerprint Hid ltac:(done)) as P. cbv zeta in P. rewrite E in P.
    by apply P.
Qed.

Lemma build_header_at k type id : 0 <= k -> 0 <= type < 65536 -> length id = 12%nat ->
  switch_stun_packet_build_header rand (zeros (20 + k)) type (Some id) = Ret (packet type id [] ++ zeros k).
Proof.
  intros Hk Ht Hid. unfold switch_stun_packet_build_header, wr16, wr32. rewrite bytes16_htons by done.
  rewrite zeros_split by lia. change (zeros 20) with ([0; 0] ++ [0; 0] ++ [0; 0; 0; 0] ++ zeros 12). rewrite <- !app_assoc.
  pose proof (wr_at [] [0; 0] ([0; 0] ++ [0; 0; 0; 0] ++ zeros 12 ++ zeros k) 0 (be16 type) eq_refl eq_refl) as W0.
  cbn [app] in W0 |- *. rewrite W0. cbn [rbind].
  pose proof (wr_at (be16 type) [0; 0] ([0; 0; 0; 0] ++ zeros 12 ++ zeros k) 2 (bytes16 0) eq_refl eq_refl) as W1.
  cbn [app be16] in W1 |- *. rewrite W1. cbn [rbind].
  pose proof (wr_at (be16 type ++ [0; 0]) [0; 0; 0; 0] (zeros 12 ++ zeros k) 4 (bytes32 (htonl STUN_MAGIC_COOKIE)) eq_refl eq_refl) as W2.
  cbn [app be16] in W2 |- *. change (bytes16 0) with [0; 0]. cbn [app]. rewrite W2. cbn [rbind].
  pose proof (mem_read_at [] id [] 0 12 eq_refl) as M. cbn [app] in M. rewrite app_nil_r in M. rewrite M by (unfold zlen; by rewrite Hid).
  cbn [or_ub rbind]. change (bytes32 (htonl STUN_MAGIC_COOKIE)) with COOKIE.
  pose proof (wr_at (be16 type ++ [0; 0] ++ COOKIE) (zeros 12) (zeros k) 8 id eq_refl) as W3.
  rewrite <- !app_assoc in W3. cbn [app be16] in W3 |- *. rewrite W3 by (rewrite Hid; done).
  unfold packet, header. cbn [body map concat]. change (be16 (zlen [])) with [0; 0]. rewrite app_nil_r, <- !app_assoc. done.
Qed.

Definition add_one (type : Z) (id : list Z) (attrs : list attribute) (op : stun_add) : list attribute :=
  attrs ++ [stun_value type id attrs op].
Definition run_all (m : list Z) (ops : list stun_add) : res (list Z) := fold_left (fun r op => m <-! r;; run_add m op) ops (Ret m).
Lemma add_all_grows type id ops : forall attrs, zlen (body attrs) <= zlen (body (fold_left (add_one type id) ops attrs)).
Proof.
  induction ops as [|op ops IH]; intros attrs; [cbn [fold_left]; lia|]. cbn [fold_left]. etransitivity; [|apply IH].
  unfold add_one. rewrite body_snoc, zlen_app. pose proof (zlen_nonneg (enc (stun_value type id attrs op))). lia.
Qed.
Lemma add_all_prefix type id ops : forall attrs, exists post, fold_left (add_one type id) ops attrs = attrs ++ post.
Proof.
  induction ops as [|op ops IH]; intros attrs; [exists []; by rewrite app_nil_r|]. cbn [fold_left].
  destruct (IH (add_one type id attrs op)) as [post ->]. unfold add_one. rewrite <- app_assoc. eauto.
Qed.
Lemma run_all_at type id : 0 <= type < 65536 -> length id = 12%nat -> Forall is_byte id -> forall ops attrs k,
  Forall attr_ok attrs -> Forall add_ok ops -> let attrs' := fold_left (add_one type id) ops attrs in
  zlen (body attrs') < 256 -> zlen (body attrs') - zlen (body attrs) <= k ->
  run_all (packet type id attrs ++ zeros k) ops = Ret (packet type id attrs' ++ zeros (k - (zlen (body attrs') - zlen (body attrs)))) /\
  Forall attr_ok attrs'.
Proof.
  intros Hty Hid Hidb. induction ops as [|op ops IH]; intros attrs k Ha Hops; cbn [fold_left]; cbv zeta; intros Hn Hk.
  { unfold run_all. cbn [fold_left]. by rewrite Z.sub_diag, Z.sub_0_r. }
  apply Forall_cons in Hops as [Hop Hops]. set (a := stun_value type id attrs op).
  pose proof (add_all_grows type id ops (add_one type id attrs op)) as G.
  assert (Eb : zlen (body (add_one type id attrs op)) = zlen (body attrs) + zlen (enc a)).
  { unfold add_one. by rewrite body_snoc, zlen_app. }
  assert (Ee : zlen (enc a) = zlen (enc (0, a.2))) by by rewrite !zlen_enc.
  assert (Hok : attr_ok a) by (apply stun_value_ok; [done|split; fold a; lia]).
  unfold run_all. cbn [fold_left rbind]. rewrite (run_add_at type id attrs k op); [|done..|split; fold a; lia]. fold a.
  destruct (IH (add_one type id attrs op) (k - zlen (enc a))) as [E Hall]; [|done|done|lia|].
  { unfold add_one. apply Forall_app. split; [done|]. by apply Forall_cons. }
  split; [|done]. unfold run_all in E. change (attrs ++ [a]) with (add_one type id attrs op). rewrite E. f_equal. f_equal. f_equal. lia.
Qed.

End Building.

(** ** Reading the address back *)
Lemma lxor_cancel a b : Z.lxor (Z.lxor a b) b = a.
Proof. by rewrite Z.lxor_assoc, Z.lxor_nilpotent, Z.lxor_0_r. Qed.
Lemma lxor_bytes_cancel a b : length a = length b -> lxor_bytes (lxor_bytes a b) b = a.
Proof.
  unfold lxor_bytes. revert b. induction a as [|x a IH]; intros [|y b] E; try done. cbn [zip_with].
  rewrite lxor_cancel. f_equal. apply IH. by injection E.
Qed.

Lemma mem_read_front {A} (m r : list A) off n : 0 <= off -> 0 <= n -> off + n <= zlen m -> mem_read (m ++ r) off n = mem_read m off n.
Proof.
  intros H0 H1 H2. pose proof (zlen_nonneg r). rewrite !mem_read_Some by (rewrite ?zlen_app; lia). f_equal.
  unfold zlen in *. rewrite drop_app_le, take_app_le; [done|rewrite length_drop; lia|lia].
Qed.
Lemma get_xor_at inet_ntop6 pre rest x port : 0 <= port < 65536 -> 20 <= zlen pre -> mem_read pre 4 4 = Some COOKIE ->
  let v := [0; 1] ++ be16 (Z.lxor port 0x2112) ++ lxor_bytes (be32 x) COOKIE in
  exists m', switch_stun_packet_attribute_get_xor_mapped_address inet_ntop6 (pre ++ hbo (ATTR_XOR_MAPPED_ADDRESS, v) ++ rest) (zlen pre) =
    Ret (match be32 x with [a; b; c; d] => print_ip a b c d | _ => [] end, port, m').
Proof.
  intros Hp Hpre Hc. cbv zeta. pose proof (lxor_range 16 port 0x2112 ltac:(lia) ltac:(lia) ltac:(lia)) as Hq. set (q := Z.lxor port 0x2112) in *.
  pose proof (be32_bytes x) as B. assert (E : exists a b c d, be32 x = [a; b; c; d]) by (unfold be32, bytes32; cbn; eauto).
  destruct E as (a & b & c & d & E). rewrite E in *. rewrite !Forall_cons in B. destruct B as (Ba & Bb & Bc & Bd & _).
  assert (X : forall y z, is_byte y -> is_byte z -> is_byte (Z.lxor y z)) by (intros; by apply (lxor_range 8)).
  assert (hbo (ATTR_XOR_MAPPED_ADDRESS, [0; 1] ++ be16 q ++ lxor_bytes [a; b; c; d] COOKIE) = bytes16 ATTR_XOR_MAPPED_ADDRESS ++ bytes16 8 ++ [0; 1] ++ bytes16 q ++ lxor_bytes [a; b; c; d] COOKIE) as ->.
  { transitivity (bytes16 ATTR_XOR_MAPPED_ADDRESS ++ bytes16 8 ++ [0; 1; q mod 256; q / 256] ++ lxor_bytes [a; b; c; d] COOKIE); [done|].
    unfold bytes16 at 5. rewrite (Z.mod_small (q / 256)) by (Z.to_euclidean_division_equations; lia). done. }
  set (w := lxor_bytes [a; b; c; d] COOKIE). rewrite <- !app_assoc.
  set (h := pre ++ bytes16 ATTR_XOR_MAPPED_ADDRESS ++ bytes16 8).
  assert (Hh : zlen h = zlen pre + 4) by (unfold h; by rewrite !zlen_app).
  replace (pre ++ _) with (h ++ [0; 1] ++ bytes16 q ++ w ++ rest) by (unfold h; by rewrite <- !app_assoc).
  assert (Hw : exists w0 w1 w2 w3, w = [w0; w1; w2; w3] /\ is_byte w0 /\ is_byte w1 /\ is_byte w2 /\ is_byte w3).
  { do 4 eexists. split; [reflexivity|]. split_and!; apply X; done. }
  assert (R4 : forall r, rd32 (h ++ r) 4 = Ret (word32 COOKIE)).
  { intros r. unfold rd32. unfold h. rewrite <- !app_assoc, mem_read_front, Hc by lia. done. }
  unfold switch_stun_packet_attribute_get_xor_mapped_address, rd8.
  pose proof (mem_read_at (h ++ [0]) [1] (bytes16 q ++ w ++ rest) (zlen pre + 5) 1) as M1.
  rewrite <- !app_assoc in M1. cbn [app] in M1 |- *. rewrite M1 by (rewrite ?zlen_app, ?Hh; done || (change (zlen [0]) with 1; lia)).
  cbn [or_ub rbind]. change (1 =? 2) with false. cbn iota.
  set (h2 := h ++ [0; 1] ++ bytes16 q). assert (Hh2 : zlen h2 = zlen pre + 8) by (unfold h2; rewrite !zlen_app, Hh; change (zlen [0; 1]) with 2; change (zlen (bytes16 q)) with 2; lia).
  change (h ++ 0 :: 1 :: bytes16 q ++ w ++ rest) with (h ++ [0; 1] ++ bytes16 q ++ w ++ rest).
  assert (Em : forall u, h ++ [0; 1] ++ bytes16 q ++ u ++ rest = h2 ++ u ++ rest) by (intros; unfold h2; by rewrite <- !app_assoc).
  rewrite (Em w). unfold rd32 at 1. rewrite (mem_read_at h2 w rest) by done. cbn [or_ub rbind]. rewrite <- (Em w), R4. cbn [rbind].
  destruct Hw as (w0 & w1 & w2 & w3 & Ew & W0 & W1 & W2 & W3).
  assert (Ex : bytes32 (Z.lxor (word32 w) (word32 COOKIE)) = [a; b; c; d]).
  { rewrite bytes32_lxor, Ew, bytes32_word32 by done. rewrite <- Ew. by apply (lxor_bytes_cancel [a; b; c; d] COOKIE). }
  unfold wr32. rewrite Ex, (Em w), (wr_at h2 w rest) by done. cbn [rbind]. unfold address_text.
  rewrite (mem_read_at h2 [a; b; c; d] rest) by done. cbn [or_ub rbind]. rewrite <- (Em [a; b; c; d]), R4.
  pose proof (rd16_at (h ++ [0; 1]) (bytes16 q) ([a; b; c; d] ++ rest) (zlen pre + 6) q) as R6. rewrite <- !app_assoc in R6.
  rewrite R6; [|rewrite zlen_app, Hh; change (zlen [0; 1]) with 2; lia|lia|done]. cbn [rbind].
  change (Z.shiftr (ntohl (word32 COOKIE)) 16) with 0x2112. unfold q. rewrite lxor_cancel, u16_small by lia. fold q. unfold wr16.
  pose proof (wr_at (h ++ [0; 1]) (bytes16 q) ([a; b; c; d] ++ rest) (zlen pre + 6) (bytes16 port)) as W. rewrite <- !app_assoc in W.
  rewrite W; [|rewrite zlen_app, Hh; change (zlen [0; 1]) with 2; lia|done]. cbn [rbind]. eauto.
Qed.

(** [inet_pton] reads what [sprintf] printed. *)
Definition starts_dot (s : list Z) : Prop := s = [] \/ exists r, s = 46 :: r.
Lemma dotted_decimal x s n acc : 0 <= x < 256 -> starts_dot s -> n < 4 -> dotted (decimal x ++ s) None n acc = dotted s (Some x) (n + 1) acc.
Proof.
  intros Hx Hs Hn.
  assert (D : forall c, 0 <= c <= 9 -> (48 <=? 48 + c) && (48 + c <=? 57) = true).
  { intros c Hc. rewrite (proj2 (Z.leb_le _ _)), (proj2 (Z.leb_le _ _)) by lia. done. }
  unfold decimal. destruct (x <? 10) eqn:E1; boolify; [|destruct (x <? 100) eqn:E2; boolify]; cbn [app dotted].
  - rewrite D, (proj2 (Z.eqb_neq n 4)) by lia. by replace (48 + x - 48) with x by lia.
  - pose proof (Z.div_mod x 10). assert (1 <= x / 10 <= 9) by (Z.to_euclidean_division_equations; lia).
    pose proof (Z.mod_pos_bound x 10). rewrite !D, (proj2 (Z.eqb_neq n 4)) by lia.
    rewrite (proj2 (orb_false_iff _ _)); [|rewrite Z.gtb_ltb, Z.ltb_ge, Z.eqb_neq; lia].
    f_equal. f_equal. lia.
  - pose proof (Z.div_mod x 100). assert (1 <= x / 100 <= 2) by (Z.to_euclidean_division_equations; lia).
    assert (0 <= x / 10 mod 10 <= 9 /\ 0 <= x mod 10 <= 9 /\ x = x / 100 * 100 + x / 10 mod 10 * 10 + x mod 10) as (H1 & H2 & H3)
      by (Z.to_euclidean_division_equations; lia).
    rewrite !D, (proj2 (Z.eqb_neq n 4)) by lia.
    rewrite (proj2 (orb_false_iff _ _)); [|rewrite Z.gtb_ltb, Z.ltb_ge, Z.eqb_neq; lia].
    rewrite (proj2 (orb_false_iff _ _)); [|rewrite Z.gtb_ltb, Z.ltb_ge, Z.eqb_neq; lia].
    f_equal. f_equal. lia.
Qed.
Lemma pton_print a b c d : is_byte a -> is_byte b -> is_byte c -> is_byte d ->
  inet_pton4 (print_ip a b c d) = Some (((a * 256 + b) * 256 + c) * 256 + d).
Proof.
  intros Ha Hb Hc Hd. unfold inet_pton4, print_ip.
  assert (Dot : forall s x n acc, n <> 4 -> dotted ([46] ++ s) (Some x) n acc = dotted s None n (acc * 256 + x)).
  { intros s x n acc Hn. cbn [app dotted]. by rewrite (proj2 (Z.eqb_neq n 4)) by lia. }
  assert (S46 : forall s, starts_dot ([46] ++ s)) by (intros s; right; by eexists).
  rewrite dotted_decimal, Dot by (done || lia). rewrite dotted_decimal, Dot by (done || lia).
  rewrite dotted_decimal, Dot by (done || lia). rewrite <- (app_nil_r (decimal d)), dotted_decimal; [|done|by left|lia]. done.
Qed.
Lemma be32_sum a b c d : is_byte a -> is_byte b -> is_byte c -> is_byte d ->
  be32 (((a * 256 + b) * 256 + c) * 256 + d) = [a; b; c; d].
Proof.
  intros. unfold be32. replace (((a * 256 + b) * 256 + c) * 256 + d) with (word32 [d; c; b; a]) by (unfold word32; cbn [foldr]; lia).
  by rewrite bytes32_word32.
Qed.

Lemma parsed_split type id pre a post : parsed type id (pre ++ a :: post) =
  ((bytes16 type ++ bytes16 (zlen (body (pre ++ a :: post))) ++ COOKIE ++ id) ++ concat (map hbo pre)) ++ hbo a ++ concat (map hbo post).
Proof. unfold parsed. rewrite map_app, concat_app. cbn [map concat]. by rewrite <- !app_assoc. Qed.
Lemma zlen_hbos attrs : zlen (concat (map hbo attrs)) = zlen (body attrs).
Proof. unfold body. induction attrs as [|a attrs IH]; [done|]. cbn [map concat]. by rewrite !zlen_app, zlen_hbo, IH. Qed.

(** An address put into a packet with the XOR of the magic cookie is read back
    from the parsed packet: the same text and the same port, whatever attributes
    surround it. *)
Theorem stun_address_roundtrip rand inet_pton6 inet_ntop6 hmac type id before after a b c d port k :
  (forall pass bs, length (hmac pass bs) = 20%nat /\ Forall is_byte (hmac pass bs)) ->
  valid_type type = true -> length id = 12%nat -> Forall is_byte id -> Forall add_ok (before ++ after) ->
  is_byte a -> is_byte b -> is_byte c -> is_byte d -> 0 <= port < 65536 ->
  let ops := before ++ AddAddress (print_ip a b c d) port :: after in
  zlen (body (add_all rand hmac type id ops)) < 256 -> zlen (body (add_all rand hmac type id ops)) <= k ->
  exists m m' m'',
    (m <-! switch_stun_packet_build_header rand (zeros (20 + k)) type (Some id);; run_all rand inet_pton6 hmac m ops) = Ret m /\
    (n <-! switch_stun_packet_length m;; switch_stun_packet_parse m n) = Ret (m', true) /\
    switch_stun_packet_attribute_get_xor_mapped_address inet_ntop6 m' (20 + zlen (body (add_all rand hmac type id before))) =
      Ret (print_ip a b c d, port, m'').
Proof.
  intros Hh Ht Hid Hidb Hops Ha Hb Hc Hd Hp ops Hn Hk. pose proof (pton_print a b c d Ha Hb Hc Hd) as Hpt.
  assert (Hall : Forall add_ok ops).
  { apply Forall_app in Hops as [H1 H2]. apply Forall_app. split; [done|]. apply Forall_cons. split; [|done]. split; [done|eauto]. }
  pose proof (run_all_at rand inet_pton6 hmac Hh type id (valid_type_range _ Ht) Hid Hidb ops [] k) as R.
  assert (E : exists post, add_all rand hmac type id ops =
    add_all rand hmac type id before ++ stun_value rand hmac type id (add_all rand hmac type id before) (AddAddress (print_ip a b c d) port) :: post).
  { unfold add_all, ops. rewrite fold_left_app. cbn [fold_left]. set (pre := fold_left _ before []).
    destruct (add_all_prefix rand hmac type id after (add_one rand hmac type id pre (AddAddress (print_ip a b c d) port)))
      as [post Ep]. exists post. change (fun attrs op => attrs ++ [stun_value rand hmac type id attrs op]) with (add_one rand hmac type id).
    change (pre ++ [_]) with (add_one rand hmac type id pre (AddAddress (print_ip a b c d) port)). rewrite Ep.
    unfold add_one. by rewrite <- app_assoc. }
  destruct E as [post E]. destruct R as [R Hok]; [by apply Forall_nil|done|exact Hn|change (zlen (body (add_all rand hmac type id ops)) - 0 <= k); lia|].
  change (fold_left (add_one rand hmac type id) ops []) with (add_all rand hmac type id ops) in *.
  change (zlen (body [])) with 0 in R. rewrite Z.sub_0_r in R. set (attrs := add_all rand hmac type id ops) in *.
  assert (H8 : 8 <= zlen (body attrs)).
  { rewrite E. unfold body. rewrite map_app, concat_app, zlen_app. cbn [map concat]. rewrite zlen_app, zlen_enc.
    cbn [stun_value snd]. rewrite Hpt. cbn [from_option Datatypes.id]. rewrite be32_sum by done. change (zlen ([0; 1] ++ be16 _ ++ lxor_bytes [a; b; c; d] COOKIE)) with 8.
    change (padding_of 8) with 0.
    pose proof (zlen_nonneg (concat (map enc (add_all rand hmac type id before)))). pose proof (zlen_nonneg (concat (map enc post))). lia. }
  set (z := zeros (k - zlen (body attrs))) in *.
  assert (Hz : zlen ((bytes16 type ++ bytes16 (zlen (body attrs)) ++ COOKIE ++ id) ++ concat (map hbo (add_all rand hmac type id before))) =
      20 + zlen (body (add_all rand hmac type id before))).
  { rewrite zlen_app, zlen_hbos. f_equal. unfold zlen. cbn [bytes16 COOKIE app length]. by rewrite Hid. }
  destruct (get_xor_at inet_ntop6 ((bytes16 type ++ bytes16 (zlen (body attrs)) ++ COOKIE ++ id) ++ concat (map hbo (add_all rand hmac type id before)))
    (concat (map hbo post) ++ z) (((a * 256 + b) * 256 + c) * 256 + d) port) as [m'' G]; [done| | |].
  { rewrite Hz. pose proof (zlen_nonneg (body (add_all rand hmac type id before))). lia. }
  { pose proof (mem_read_at (bytes16 type ++ bytes16 (zlen (body attrs))) COOKIE (id ++ concat (map hbo (add_all rand hmac type id before))) 4 4) as M.
    rewrite <- !app_assoc in *. by apply M. }
  exists (packet type id attrs ++ z), (parsed type id attrs ++ z), m''. split_and!.
  - rewrite build_header_at by (done || lia || by apply valid_type_range). exact R.
  - unfold switch_stun_packet_length, packet at 1. rewrite <- app_assoc, rd_length by (done || lia). cbn [rbind].
    rewrite ntohs_htons by lia. replace (zlen (body attrs) + 20) with (zlen (packet type id attrs))
      by (unfold packet; rewrite zlen_app, zlen_header by done; lia). by apply parse_packet; (done || lia).
  - rewrite Hz, be32_sum in G by done. rewrite <- G. f_equal. rewrite E, parsed_split, <- E. cbn [stun_value]. rewrite Hpt.
    cbn [from_option Datatypes.id]. rewrite be32_sum by done. by rewrite <- !app_assoc.
Qed.

(** *** Instances *)
Definition no_hmac (pass bs : list Z) : list Z := replicate 20 0.
Lemma no_hmac_sha1 pass bs : length (no_hmac pass bs) = 20%nat /\ Forall is_byte (no_hmac pass bs).
Proof. split; [done|]. by apply Forall_replicate. Qed.
Definition sample_ops : list stun_add :=
  [AddUsername [97; 98; 99; 100; 101]; AddAddress (print_ip 10 0 200 1) 5060; AddPriority 7; AddIntegrity [120]; AddFingerprint].
Lemma sample_ok : Forall add_ok sample_ops.
Proof.
  unfold sample_ops. rewrite !Forall_cons, Forall_nil. cbn [add_ok]. split_and!; try lia; try done.
  - unfold is_byte. rewrite !Forall_cons, Forall_nil. lia.
  - eexists. vm_compute. reflexivity.
Qed.
Lemma stun_address_roundtrip_witness :
  exists m m' m'',
    (m <-! switch_stun_packet_build_header (fun _ => 0) (zeros (20 + 100)) SWITCH_STUN_BINDING_RESPONSE (Some (replicate 12 9));;
     run_all (fun _ => 0) (fun _ => None) no_hmac m ([AddUseCandidate] ++ AddAddress (print_ip 192 168 0 7) 3478 :: [AddFingerprint])) = Ret m /\
    (n <-! switch_stun_packet_length m;; switch_stun_packet_parse m n) = Ret (m', true) /\
    switch_stun_packet_attribute_get_xor_mapped_address id m'
      (20 + zlen (body (add_all (fun _ => 0) no_hmac SWITCH_STUN_BINDING_RESPONSE (replicate 12 9) [AddUseCandidate]))) =
      Ret (print_ip 192 168 0 7, 3478, m'').
Proof.
  apply (stun_address_roundtrip (fun _ => 0) (fun _ => None) id no_hmac SWITCH_STUN_BINDING_RESPONSE (replicate 12 9) [AddUseCandidate] [AddFingerprint]);
    try (unfold is_byte; lia).
  - exact no_hmac_sha1.
  - reflexivity.
  - reflexivity.
  - by apply Forall_replicate.
  - by repeat constructor.
  - vm_compute. done.
  - vm_compute. done.
Defined.

(** The sum in network order loses the carry: a packet of 308 bytes of attributes
    claims 52 of them. *)
Lemma network_length_loses_carry :
  (m <-! switch_stun_packet_build_header (fun _ => 0) (zeros 400) SWITCH_STUN_BINDING_REQUEST (Some (replicate 12 9));;
   m <-! run_all (fun _ => 0) (fun _ => None) no_hmac m [AddUsername (replicate 200 65); AddSoftware (replicate 100 66)];;
   switch_stun_packet_length m) = Ret (52 + 20).
Proof. vm_compute. reflexivity. Qed.
(** A packet with nothing but the flag of a candidate is refused: an attribute
    without a value is shorter than the parser expects. *)
Lemma lone_candidate_refused :
  (m <-! switch_stun_packet_build_header (fun _ => 0) (zeros 40) SWITCH_STUN_BINDING_REQUEST (Some (replicate 12 9));;
   m <-! run_all (fun _ => 0) (fun _ => None) no_hmac m [AddUseCandidate];;
   n <-! switch_stun_packet_length m;; '(_, ok) <-! switch_stun_packet_parse m n;; Ret ok) = Ret false.
Proof. vm_compute. reflexivity. Qed.
