(* ===== verification/G711.v ===== *)
(** * G711: companding of samples, include/g711.h and src/g711.c

    Encoding to and decoding from mu-law and A-law, and the tables between the two.
    Samples are signed sixteen-bit numbers, codes are bytes.  [top_bit] is the
    portable routine; on processors where an instruction does the same its result
    is the logarithm, as is shown. *)
From S2P Require Import Prelude.
From Stdlib Require Import ZArith Lia.
From stdpp Require Import base numbers option list.

Local Open Scope Z_scope.

(** ** The highest bit *)
Definition top_step (st : Z * Z) (mask k : Z) : Z * Z :=
  let '(bits, i) := st in if Z.land bits mask =? 0 then (bits, i) else (Z.land bits mask, i + k).
Definition top_bit (bits : Z) : Z :=
  let bits := u32 bits in
  if bits =? 0 then -1 else
  let st := top_step (bits, 0) 0xFFFF0000 16 in
  let st := top_step st 0xFF00FF00 8 in
  let st := top_step st 0xF0F0F0F0 4 in
  let st := top_step st 0xCCCCCCCC 2 in
  (top_step st 0xAAAAAAAA 1).2.

(** ** Mu-law *)
Definition ULAW_BIAS : Z := 0x84.
Definition linear_to_ulaw (linear : Z) : Z :=
  let '(linear, mask) := if linear <? 0 then (ULAW_BIAS - linear, 0x7F) else (ULAW_BIAS + linear, 0xFF) in
  let seg := top_bit (Z.lor linear 0xFF) - 7 in
  if seg >=? 8 then u8 (Z.lxor 0x7F mask)
  else u8 (Z.lxor (Z.lor (Z.shiftl seg 4) (Z.land (Z.shiftr linear (seg + 3)) 0xF)) mask).
Definition ulaw_to_linear (ulaw : Z) : Z :=
  let ulaw := u8 (Z.lnot ulaw) in
  let t := Z.shiftl (Z.shiftl (Z.land ulaw 0x0F) 3 + ULAW_BIAS) (Z.shiftr (Z.land ulaw 0x70) 4) in
  i16 (if negb (Z.land ulaw 0x80 =? 0) then ULAW_BIAS - t else t - ULAW_BIAS).

(** ** A-law *)
Definition ALAW_AMI_MASK : Z := 0x55.
Definition linear_to_alaw (linear : Z) : Z :=
  let '(linear, mask) := if linear >=? 0 then (linear, Z.lor ALAW_AMI_MASK 0x80) else (- linear - 8, ALAW_AMI_MASK) in
  let seg := top_bit (Z.lor linear 0xFF) - 7 in
  if seg >=? 8 then
    if linear >=? 0 then u8 (Z.lxor 0x7F mask) else u8 (Z.lxor 0x00 mask)
  else u8 (Z.lxor (Z.lor (Z.shiftl seg 4) (Z.land (Z.shiftr linear (if negb (seg =? 0) then seg + 3 else 4)) 0x0F)) mask).
Definition alaw_to_linear (alaw : Z) : Z :=
  let alaw := u8 (Z.lxor alaw ALAW_AMI_MASK) in
  let i := Z.shiftl (Z.land alaw 0x0F) 4 in
  let seg := Z.shiftr (Z.land alaw 0x70) 4 in
  let i := if negb (seg =? 0) then Z.shiftl (i + 0x108) (seg - 1) else i + 8 in
  i16 (if negb (Z.land alaw 0x80 =? 0) then i else - i).

(** ** Tables between the codes *)
Definition ulaw_to_alaw_table : list Z := [
    42; 43; 40; 41; 46; 47; 44; 45; 34; 35; 32; 33; 38; 39; 36; 37;
    58; 59; 56; 57; 62; 63; 60; 61; 50; 51; 48; 49; 54; 55; 52; 53;
    10; 11; 8; 9; 14; 15; 12; 13; 2; 3; 0; 1; 6; 7; 4; 26;
    27; 24; 25; 30; 31; 28; 29; 18; 19; 16; 17; 22; 23; 20; 21; 106;
    104; 105; 110; 111; 108; 109; 98; 99; 96; 97; 102; 103; 100; 101; 122; 120;
    126; 127; 124; 125; 114; 115; 112; 113; 118; 119; 116; 117; 75; 73; 79; 77;
    66; 67; 64; 65; 70; 71; 68; 69; 90; 91; 88; 89; 94; 95; 92; 93;
    82; 82; 83; 83; 80; 80; 81; 81; 86; 86; 87; 87; 84; 84; 85; 85;
    170; 171; 168; 169; 174; 175; 172; 173; 162; 163; 160; 161; 166; 167; 164; 165;
    186; 187; 184; 185; 190; 191; 188; 189; 178; 179; 176; 177; 182; 183; 180; 181;
    138; 139; 136; 137; 142; 143; 140; 141; 130; 131; 128; 129; 134; 135; 132; 154;
    155; 152; 153; 158; 159; 156; 157; 146; 147; 144; 145; 150; 151; 148; 149; 234;
    232; 233; 238; 239; 236; 237; 226; 227; 224; 225; 230; 231; 228; 229; 250; 248;
    254; 255; 252; 253; 242; 243; 240; 241; 246; 247; 244; 245; 203; 201; 207; 205;
    194; 195; 192; 193; 198; 199; 196; 197; 218; 219; 216; 217; 222; 223; 220; 221;
    210; 210; 211; 211; 208; 208; 209; 209; 214; 214; 215; 215; 212; 212; 213; 213 ].
Definition alaw_to_ulaw_table : list Z := [
    42; 43; 40; 41; 46; 47; 44; 45; 34; 35; 32; 33; 38; 39; 36; 37;
    57; 58; 55; 56; 61; 62; 59; 60; 49; 50; 47; 48; 53; 54; 51; 52;
    10; 11; 8; 9; 14; 15; 12; 13; 2; 3; 0; 1; 6; 7; 4; 5;
    26; 27; 24; 25; 30; 31; 28; 29; 18; 19; 16; 17; 22; 23; 20; 21;
    98; 99; 96; 97; 102; 103; 100; 101; 93; 93; 92; 92; 95; 95; 94; 94;
    116; 118; 112; 114; 124; 126; 120; 122; 106; 107; 104; 105; 110; 111; 108; 109;
    72; 73; 70; 71; 76; 77; 74; 75; 64; 65; 63; 63; 68; 69; 66; 67;
    86; 87; 84; 85; 90; 91; 88; 89; 79; 79; 78; 78; 82; 83; 80; 81;
    170; 171; 168; 169; 174; 175; 172; 173; 162; 163; 160; 161; 166; 167; 164; 165;
    185; 186; 183; 184; 189; 190; 187; 188; 177; 178; 175; 176; 181; 182; 179; 180;
    138; 139; 136; 137; 142; 143; 140; 141; 130; 131; 128; 129; 134; 135; 132; 133;
    154; 155; 152; 153; 158; 159; 156; 157; 146; 147; 144; 145; 150; 151; 148; 149;
    226; 227; 224; 225; 230; 231; 228; 229; 221; 221; 220; 220; 223; 223; 222; 222;
    244; 246; 240; 242; 252; 254; 248; 250; 234; 235; 232; 233; 238; 239; 236; 237;
    200; 201; 198; 199; 204; 205; 202; 203; 192; 193; 191; 191; 196; 197; 194; 195;
    214; 215; 212; 213; 218; 219; 216; 217; 207; 207; 206; 206; 210; 211; 208; 209 ].
Definition alaw_to_ulaw (alaw : Z) : Z := nth (Z.to_nat alaw) alaw_to_ulaw_table 0.
Definition ulaw_to_alaw (ulaw : Z) : Z := nth (Z.to_nat ulaw) ulaw_to_alaw_table 0.

(** ** [top_bit] is the logarithm *)
(** The positions of the mask of step [j] are those whose bit [j] is set. *)
Definition mask_of (j : Z) (mask : Z) : bool :=
  forallb (fun n => bool_decide (Z.testbit mask n = Z.odd (n / 2 ^ j))) (seqZ 0 32).
Lemma mask_of_spec j mask n : mask_of j mask = true -> 0 <= n < 32 -> Z.testbit mask n = Z.odd (n / 2 ^ j).
Proof.
  intros H Hn. unfold mask_of in H. rewrite forallb_forall in H. eapply bool_decide_eq_true. apply H.
  apply list_elem_of_In, elem_of_seqZ. lia.
Qed.
(** [k] is the highest bit of [bits], all bits agree with it above bit [j], and
    [i] is [k] above bit [j]. *)
Record narrowed (k j : Z) (st : Z * Z) : Prop := {
  nw_top : Z.testbit st.1 k = true;
  nw_bits : forall n, 0 <= n -> Z.testbit st.1 n = true -> n <= k /\ n / 2 ^ j = k / 2 ^ j;
  nw_index : st.2 = k / 2 ^ j * 2 ^ j
}.
Lemma halve n j : 0 <= j -> n / 2 ^ j = 2 * (n / 2 ^ (j + 1)) + (if Z.odd (n / 2 ^ j) then 1 else 0).
Proof.
  intros Hj. rewrite Z.pow_add_r, <- Z.div_div by lia. change (2 ^ 1) with 2. set (x := n / 2 ^ j).
  rewrite <- Zmod_odd. pose proof (Z.div_mod x 2). lia.
Qed.
Lemma top_step_narrows k j mask st : 0 <= j -> 0 <= k < 32 -> mask_of j mask = true -> narrowed k (j + 1) st ->
  narrowed k j (top_step st mask (2 ^ j)).
Proof.
  intros Hj Hk Hm [Ht Hb Hi]. destruct st as [bits i]. cbn [fst snd top_step] in *. pose proof (halve k j Hj) as Ek.
  destruct (Z.land bits mask =? 0) eqn:E; boolify.
  - assert (Eo : Z.odd (k / 2 ^ j) = false).
    { rewrite <- (mask_of_spec j mask k Hm Hk). assert (Z.testbit (Z.land bits mask) k = false) as H by by rewrite E, Z.bits_0.
      rewrite Z.land_spec, Ht in H. done. }
    rewrite Eo in Ek. split; cbn [fst snd]; [done| |].
    + intros n Hn Hbn. destruct (Hb n Hn Hbn) as [Hle Eq]. split; [done|].
      assert (Z.odd (n / 2 ^ j) = false).
      { rewrite <- (mask_of_spec j mask n Hm ltac:(lia)).
        assert (Z.testbit (Z.land bits mask) n = false) as H by by rewrite E, Z.bits_0. rewrite Z.land_spec, Hbn in H. done. }
      rewrite (halve n j Hj), Eq, H, Ek at 1. lia.
    + rewrite Hi, Ek, Z.pow_add_r by lia. change (2 ^ 1) with 2. ring.
  - assert (Eo : Z.odd (k / 2 ^ j) = true).
    { destruct (Z.odd (k / 2 ^ j)) eqn:Eo; [done|]. destruct E. apply Z.bits_inj'. intros n Hn. rewrite Z.bits_0, Z.land_spec.
      destruct (Z.testbit bits n) eqn:Hbn; [|done]. destruct (Hb n Hn Hbn) as [Hle Eq].
      rewrite (mask_of_spec j mask n Hm ltac:(lia)). cbn [andb]. destruct (Z.odd (n / 2 ^ j)) eqn:En; [|done].
      pose proof (halve n j Hj) as En'. rewrite En in En'.
      assert (n / 2 ^ j <= k / 2 ^ j) by (apply Z.div_le_mono; [apply Z.pow_pos_nonneg|]; lia). lia. }
    rewrite Eo in Ek. split; cbn [fst snd].
    + by rewrite Z.land_spec, Ht, (mask_of_spec j mask k Hm Hk).
    + intros n Hn Hbn. rewrite Z.land_spec, andb_true_iff in Hbn. destruct Hbn as [Hbn Hmn].
      destruct (Hb n Hn Hbn) as [Hle Eq]. split; [done|]. rewrite (mask_of_spec j mask n Hm ltac:(lia)) in Hmn.
      pose proof (halve n j Hj) as En'. rewrite Hmn in En'. lia.
    + rewrite Hi, Ek, Z.pow_add_r by lia. change (2 ^ 1) with 2. ring.
Qed.
Lemma top_bit_log2 bits : 0 < bits < 2 ^ 32 -> top_bit bits = Z.log2 bits.
Proof.
  intros Hb. unfold top_bit. rewrite u32_small by (change (2 ^ 32) with 4294967296 in Hb; lia).
  rewrite (proj2 (Z.eqb_neq _ _)) by lia. set (k := Z.log2 bits).
  assert (Hk : 0 <= k < 32) by (split; [apply Z.log2_nonneg|apply Z.log2_lt_pow2; lia]).
  assert (N : narrowed k 5 (bits, 0)).
  { assert (Hz : forall n, 0 <= n < 32 -> n / 2 ^ 5 = 0) by (intros; apply Z.div_small; change (2 ^ 5) with 32; lia).
    split; cbn [fst snd]; [by apply Z.bit_log2; lia| |by rewrite Hz].
    intros n Hn Ht. assert (n <= k). { destruct (Z.le_gt_cases n k); [done|]. rewrite Z.bits_above_log2 in Ht; [done|lia|done]. }
    rewrite !Hz by lia. done. }
  apply (top_step_narrows k 4 0xFFFF0000) in N; [|lia|done|done].
  apply (top_step_narrows k 3 0xFF00FF00) in N; [|lia|done|done].
  apply (top_step_narrows k 2 0xF0F0F0F0) in N; [|lia|done|done].
  apply (top_step_narrows k 1 0xCCCCCCCC) in N; [|lia|done|done].
  apply (top_step_narrows k 0 0xAAAAAAAA) in N; [|lia|done|done].
  destruct N as [_ _ N]. etransitivity; [exact N|]. change (2 ^ 0) with 1. rewrite Z.div_1_r. lia.
Qed.

(** ** Every sample, every code *)
Definition sample (s : Z) : Prop := -32768 <= s < 32768.
(** [P] on the [2 ^ d] numbers from [lo]. *)
Fixpoint range_forall (P : Z -> bool) (d : nat) (lo : Z) : bool :=
  match d with
  | O => P lo
  | S d => range_forall P d lo && range_forall P d (lo + 2 ^ Z.of_nat d)
  end.
Lemma range_forall_spec P d : forall lo, range_forall P d lo = true -> forall s, lo <= s < lo + 2 ^ Z.of_nat d -> P s = true.
Proof.
  induction d as [|d IH]; intros lo H s Hs.
  - change (2 ^ Z.of_nat 0) with 1 in Hs. by replace s with lo by lia.
  - cbn [range_forall] in H. apply andb_prop in H as [H1 H2]. rewrite Nat2Z.inj_succ, Z.pow_succ_r in Hs by lia.
    destruct (Z.lt_ge_cases s (lo + 2 ^ Z.of_nat d)); [apply (IH lo H1); lia|]. apply (IH _ H2). lia.
Qed.
Lemma sample_forall (P : Z -> bool) : range_forall P 16 (-32768) = true -> forall s, sample s -> P s = true.
Proof. intros H s Hs. apply (range_forall_spec P 16 (-32768) H). unfold sample in Hs. change (2 ^ Z.of_nat 16) with 65536. lia. Qed.

Definition through_ulaw (s : Z) : Z := ulaw_to_linear (linear_to_ulaw s).
Definition through_alaw (s : Z) : Z := alaw_to_linear (linear_to_alaw s).
Definition sample_check (s : Z) : bool :=
  let u := through_ulaw s in let a := through_alaw s in
  (u <=? through_ulaw (Z.min 32767 (s + 1))) && (a <=? through_alaw (Z.min 32767 (s + 1))) &&
  (32 * Z.abs (u - s) <=? Z.max (Z.abs s + 132) (32 * (Z.abs s - 32124))) &&
  ((s <? 0) || (32 * Z.abs (a - s) <=? Z.max 256 s)) &&
  ((0 <=? s) || (32 * Z.abs (a - s) <=? Z.max 480 (Z.abs s + 224))).
Lemma all_samples : range_forall sample_check 16 (-32768) = true.
Proof. vm_compute. reflexivity. Qed.
Lemma monotone_samples (f : Z -> Z) : (forall x, sample x -> f x <= f (Z.min 32767 (x + 1))) ->
  forall s s', sample s -> sample s' -> s <= s' -> f s <= f s'.
Proof.
  intros H s s' Hs Hs' Hle. unfold sample in *. replace s' with (s + Z.of_nat (Z.to_nat (s' - s))) in * by lia.
  induction (Z.to_nat (s' - s)) as [|n IH]; [by rewrite Z.add_0_r|].
  etransitivity; [apply IH; lia|]. etransitivity; [apply H; lia|]. rewrite Z.min_r by lia. apply Z.eq_le_incl. f_equal. lia.
Qed.
Definition code_check (c : Z) : bool :=
  (linear_to_ulaw (ulaw_to_linear c) =? (if c =? 0x7F then 0xFF else c)) && (linear_to_alaw (alaw_to_linear c) =? c).
Lemma all_codes : forallb code_check (seqZ 0 256) = true.
Proof. vm_compute. reflexivity. Qed.

(** Mu-law is a monotone quantizer of all sixteen-bit samples whose error is at
    most 1/32 of the magnitude plus bias up to the largest code and the distance to
    that code above; encoding gives back every code that is decoded, except that
    negative zero becomes positive zero. *)
Theorem ulaw_quantizer s s' c : sample s -> sample s' -> s <= s' -> 0 <= c < 256 ->
  through_ulaw s <= through_ulaw s' /\
  32 * Z.abs (through_ulaw s - s) <= Z.max (Z.abs s + 132) (32 * (Z.abs s - 32124)) /\
  linear_to_ulaw (ulaw_to_linear c) = (if c =? 0x7F then 0xFF else c).
Proof.
  intros Hs Hs' Hle Hc. split; [|split].
  - apply (monotone_samples through_ulaw); [|done..]. intros x Hx. pose proof (sample_forall _ all_samples x Hx) as H.
    unfold sample_check in H. boolify. done.
  - pose proof (sample_forall _ all_samples s Hs) as H. unfold sample_check in H. cbv zeta in H. boolify. lia.
  - pose proof (byte_forall _ all_codes c Hc) as H. unfold code_check in H. apply andb_prop in H as [H _]. by apply Z.eqb_eq in H.
Qed.
Lemma ulaw_quantizer_witness : through_ulaw 1000 <= through_ulaw 1001 /\
  32 * Z.abs (through_ulaw 1000 - 1000) <= Z.max (Z.abs 1000 + 132) (32 * (Z.abs 1000 - 32124)) /\
  linear_to_ulaw (ulaw_to_linear 5) = (if 5 =? 0x7F then 0xFF else 5).
Proof. apply (ulaw_quantizer 1000 1001 5); unfold sample; lia. Defined.

(** A-law is a monotone quantizer, too, that gives back every code, and its
    error is at most the larger of 8 and 1/32 of the sample for samples that are
    not negative. *)
Theorem alaw_quantizer s s' c : sample s -> sample s' -> s <= s' -> 0 <= c < 256 ->
  through_alaw s <= through_alaw s' /\
  (0 <= s -> 32 * Z.abs (through_alaw s - s) <= Z.max 256 s) /\
  (s < 0 -> 32 * Z.abs (through_alaw s - s) <= Z.max 480 (Z.abs s + 224)) /\
  linear_to_alaw (alaw_to_linear c) = c.
Proof.
  intros Hs Hs' Hle Hc. split; [|split; [|split]].
  - apply (monotone_samples through_alaw); [|done..]. intros x Hx. pose proof (sample_forall _ all_samples x Hx) as H.
    unfold sample_check in H. boolify. done.
  - intros H0. pose proof (sample_forall _ all_samples s Hs) as H. unfold sample_check in H. cbv zeta in H.
    boolify. destruct H2 as [H2|H2]; boolify; lia.
  - intros H0. pose proof (sample_forall _ all_samples s Hs) as H. unfold sample_check in H. cbv zeta in H.
    boolify. destruct H1 as [H1|H1]; boolify; lia.
  - pose proof (byte_forall _ all_codes c Hc) as H. unfold code_check in H. apply andb_prop in H as [_ H]. by apply Z.eqb_eq in H.
Qed.
Lemma alaw_quantizer_witness : through_alaw (-20) <= through_alaw 1001 /\
  (0 <= -20 -> 32 * Z.abs (through_alaw (-20) - -20) <= Z.max 256 (-20)) /\
  (-20 < 0 -> 32 * Z.abs (through_alaw (-20) - -20) <= Z.max 480 (Z.abs (-20) + 224)) /\
  linear_to_alaw (alaw_to_linear 5) = 5.
Proof. apply (alaw_quantizer (-20) 1001 5); unfold sample; lia. Defined.
(** The offset of negative samples is half a step: -23 is coded as -8, although
    there is a code for -24. *)
Lemma alaw_negative_offset : through_alaw (-23) = -8 /\ alaw_to_linear (linear_to_alaw (-24)) = -24 /\ through_alaw 23 = 24.
Proof. vm_compute. done. Qed.
