(* ===== verification/Vad.v ===== *)
(** * Vad: voice activity detection, src/switch_vad.c

    The detector that is built without libfvad: a frame is loud when its energy
    reaches the threshold, and the detector follows the loud and quiet frames with
    a hangover.  Reads outside the frame and divisions by zero are undefined. *)
From S2P Require Import Prelude.
From Stdlib Require Import ZArith Lia.
From stdpp Require Import base numbers option list strings.

Local Open Scope Z_scope.

(** ** Data *)
Inductive vad_state :=
| SWITCH_VAD_STATE_NONE | SWITCH_VAD_STATE_START_TALKING | SWITCH_VAD_STATE_TALKING | SWITCH_VAD_STATE_STOP_TALKING
| SWITCH_VAD_STATE_ERROR.
#[export] Instance vad_state_eq_dec : EqDecision vad_state.
Proof. solve_decision. Defined.

Record switch_vad := mk_vad {
  talking : bool;
  talked : bool;
  talk_hits : Z;
  listen_hits : Z;
  hangover : Z;
  hangover_len : Z;
  divisor : Z;
  thresh : Z;
  channels : Z;
  sample_rate : Z;
  debug : Z;
  default_hangover_len : Z;
  default_thresh : Z;
  default_listen_hits : Z;
  state : vad_state
}.
#[export] Instance eta_vad : Eta switch_vad := fun v =>
  mk_vad (talking v) (talked v) (talk_hits v) (listen_hits v) (hangover v) (hangover_len v) (divisor v) (thresh v) (channels v)
    (sample_rate v) (debug v) (default_hangover_len v) (default_thresh v) (default_listen_hits v) (state v).

(** ** Operations *)
(** A quotient of C integers is rounded towards zero. *)
Definition switch_vad_reset (v : switch_vad) : switch_vad :=
  v <| talking := false |> <| talked := false |> <| talk_hits := 0 |> <| hangover := 0 |>
    <| listen_hits := default_listen_hits v |> <| hangover_len := default_hangover_len v |>
    <| divisor := Z.quot (sample_rate v) 8000 |> <| thresh := default_thresh v |> <| state := SWITCH_VAD_STATE_NONE |>.
Definition switch_vad_init (rate chans : Z) : switch_vad :=
  switch_vad_reset (mk_vad false false 0 0 0 0 0 0 chans (if negb (rate =? 0) then rate else 8000) 0 25 100 10 SWITCH_VAD_STATE_NONE).

Definition switch_vad_set_mode (v : switch_vad) (mode : Z) : switch_vad * Z := (v, 0).
Definition switch_vad_set_param (v : switch_vad) (key : option string) (val : Z) : switch_vad :=
  match key with
  | None => v
  | Some key =>
    if String.eqb key "hangover_len" then v <| hangover_len := val |> <| default_hangover_len := val |>
    else if String.eqb key "thresh" then v <| thresh := val |> <| default_thresh := val |>
    else if String.eqb key "debug" then v <| debug := val |>
    else if String.eqb key "listen_hits" then v <| listen_hits := val |> <| default_listen_hits := val |>
    else v
  end.
Definition switch_vad_state2str (s : vad_state) : string :=
  match s with
  | SWITCH_VAD_STATE_NONE => "none"
  | SWITCH_VAD_STATE_START_TALKING => "start_talking"
  | SWITCH_VAD_STATE_TALKING => "talking"
  | SWITCH_VAD_STATE_STOP_TALKING => "stop_talking"
  | SWITCH_VAD_STATE_ERROR => "error"
  end.

(** The energy of the samples 0, [channels], 2 [channels], and so on. *)
Fixpoint energy_loop (n : nat) (data : list Z) (channels j energy : Z) : res Z :=
  match n with
  | O => Ret energy
  | S n =>
    x <-! or_ub (if 0 <=? j then data !! Z.to_nat j else None);;
    energy_loop n data channels (j + channels) (i32 (energy + Z.abs x))
  end.
(** [(uint32_t) (energy / (samples / vad->divisor))], assigned to an [int]. *)
Definition vad_score (v : switch_vad) (data : list Z) (samples : Z) : res Z :=
  energy <-! energy_loop (Z.to_nat samples) data (channels v) 0 0;;
  if u32 (divisor v) =? 0 then Ub else
  let n := samples / u32 (divisor v) in
  if n =? 0 then Ub else Ret (i32 (u32 energy / n)).

(** [switch_vad_process] behind the score. *)
Definition settle (s : vad_state) : vad_state :=
  match s with
  | SWITCH_VAD_STATE_STOP_TALKING => SWITCH_VAD_STATE_NONE
  | SWITCH_VAD_STATE_START_TALKING => SWITCH_VAD_STATE_TALKING
  | s => s
  end.
Definition hear (v : switch_vad) (score : Z) : switch_vad :=
  if talking v && (score <? thresh v) then
    if hangover v >? 0 then v <| hangover ::= fun h => h - 1 |>
    else v <| talking := false |> <| talk_hits := 0 |> <| hangover := 0 |>
  else if score >=? thresh v then
    v <| state := (if talking v then SWITCH_VAD_STATE_TALKING else SWITCH_VAD_STATE_START_TALKING) |>
      <| talking := true |> <| hangover := hangover_len v |>
  else v.
Definition count_hits (v : switch_vad) : switch_vad :=
  if talking v then
    let v := v <| talk_hits ::= fun h => i32 (h + 1) |> in
    if talk_hits v >? listen_hits v then v <| talked := true |> <| state := SWITCH_VAD_STATE_TALKING |> else v
  else v <| talk_hits := 0 |>.
Definition finish (v : switch_vad) : switch_vad :=
  if talked v && negb (talking v) then v <| talked := false |> <| state := SWITCH_VAD_STATE_STOP_TALKING |> else v.
Definition process_score (v : switch_vad) (score : Z) : switch_vad :=
  finish (count_hits (hear (v <| state ::= settle |>) score)).
Definition switch_vad_process (v : switch_vad) (data : list Z) (samples : Z) : res (switch_vad * vad_state) :=
  score <-! vad_score v data samples;;
  let v := process_score v score in Ret (v, state v).

(** ** The specification

    A detector with the hangover [H] is talking while one of the last [H + 1]
    frames was loud; the state follows the changes. *)
Definition talking_spec (H : nat) (loud : list bool) : bool := existsb (fun b => b) (take (S H) loud).
Definition state_spec (before now : bool) : vad_state :=
  match before, now with
  | false, false => SWITCH_VAD_STATE_NONE
  | false, true => SWITCH_VAD_STATE_START_TALKING
  | true, true => SWITCH_VAD_STATE_TALKING
  | true, false => SWITCH_VAD_STATE_STOP_TALKING
  end.

(** The frames since the last loud one; [None] before the first. *)
Fixpoint quiet_since (loud : list bool) : option nat :=
  match loud with [] => None | b :: l => if b then Some O else option_map S (quiet_since l) end.
Lemma talking_quiet H loud : talking_spec H loud = match quiet_since loud with Some n => bool_decide (n <= H)%nat | None => false end.
Proof.
  unfold talking_spec. revert H. induction loud as [|b loud IH]; intros H; [done|]. cbn [take existsb quiet_since].
  destruct b; [by rewrite bool_decide_true by lia|]. cbn [orb]. destruct H as [|H].
  - cbn [take existsb]. destruct (quiet_since loud); cbn [option_map]; [by rewrite bool_decide_false by lia|done].
  - rewrite IH. destruct (quiet_since loud); cbn [option_map]; [|done]. apply bool_decide_ext. lia.
Qed.

(** The detector after the frames [loud], the latest first, since it was reset. *)
Record vad_rel (H L : Z) (loud : list bool) (v : switch_vad) : Prop := {
  vr_hangover_len : hangover_len v = H;
  vr_listen_hits : listen_hits v = L;
  vr_talking : talking v = talking_spec (Z.to_nat H) loud;
  vr_hangover : forall n, quiet_since loud = Some n -> talking v = true -> hangover v = H - Z.of_nat n;
  vr_hits : talking v = true -> 1 <= talk_hits v <= zlen loud /\ H + 1 <= talk_hits v + hangover v;
  vr_silent : talking v = false -> talk_hits v = 0;
  vr_talked : talked v = talking v && (L <? talk_hits v);
  vr_state : settle (state v) = if talking v then SWITCH_VAD_STATE_TALKING else SWITCH_VAD_STATE_NONE
}.

Lemma quiet_none H loud : talking_spec H loud = true -> exists n, quiet_since loud = Some n /\ (n <= H)%nat.
Proof. rewrite talking_quiet. destruct (quiet_since loud) as [n|]; [|done]. intros E%bool_decide_eq_true. eauto. Qed.

(** The three outcomes of a frame: it is loud, it is covered by the hangover, or
    there is silence. *)
Lemma process_score_eq tk td th lh ho hl dv thr ch sr db d1 d2 d3 st score :
  process_score (mk_vad tk td th lh ho hl dv thr ch sr db d1 d2 d3 st) score =
  if thr <=? score then
    mk_vad true ((i32 (th + 1) >? lh) || td) (i32 (th + 1)) lh hl hl dv thr ch sr db d1 d2 d3
      (if (i32 (th + 1) >? lh) || tk then SWITCH_VAD_STATE_TALKING else SWITCH_VAD_STATE_START_TALKING)
  else if tk && (ho >? 0) then
    mk_vad true ((i32 (th + 1) >? lh) || td) (i32 (th + 1)) lh (ho - 1) hl dv thr ch sr db d1 d2 d3
      (if i32 (th + 1) >? lh then SWITCH_VAD_STATE_TALKING else settle st)
  else
    mk_vad false false 0 lh (if tk then 0 else ho) hl dv thr ch sr db d1 d2 d3
      (if td then SWITCH_VAD_STATE_STOP_TALKING else settle st).
Proof.
  transitivity (finish (count_hits
    (if tk && negb (thr <=? score) then
       if ho >? 0 then mk_vad tk td th lh (ho - 1) hl dv thr ch sr db d1 d2 d3 (settle st)
       else mk_vad false td 0 lh 0 hl dv thr ch sr db d1 d2 d3 (settle st)
     else if thr <=? score then
       mk_vad true td th lh hl hl dv thr ch sr db d1 d2 d3 (if tk then SWITCH_VAD_STATE_TALKING else SWITCH_VAD_STATE_START_TALKING)
     else mk_vad tk td th lh ho hl dv thr ch sr db d1 d2 d3 (settle st)))).
  { rewrite <- Z.ltb_antisym, <- Z.geb_leb. reflexivity. }
  destruct (thr <=? score), tk; cbn [negb andb].
  all: try destruct (ho >? 0).
  all: unfold count_hits; cbn [talking]; try (destruct td; reflexivity).
  all: cbn [talk_hits listen_hits set]; destruct (i32 (th + 1) >? lh), td; reflexivity.
Qed.

Lemma process_score_rel H L loud v score : 1 <= L <= H -> zlen loud < 2147483647 -> vad_rel H L loud v ->
  let v' := process_score v score in
  vad_rel H L ((score >=? thresh v) :: loud) v' /\ state v' = state_spec (talking v) (talking v') /\
  thresh v' = thresh v /\ channels v' = channels v /\ divisor v' = divisor v.
Proof.
  intros HL Hz [R1 R2 R3 R4 R5 R6 R7 R8]. pose proof (zlen_nonneg loud).
  destruct v as [tk td th lh ho hl dv thr ch sr db d1 d2 d3 st].
  cbn [hangover_len listen_hits talking hangover talk_hits talked state thresh channels divisor] in *. subst hl lh. cbv zeta.
  rewrite process_score_eq, Z.geb_leb. pose proof (zlen_cons true loud). pose proof (zlen_cons false loud).
  destruct (thr <=? score) eqn:Es; [|destruct tk; cbn [andb]].
  - (* a loud frame *)
    assert (Hth : 0 <= th <= zlen loud) by (destruct tk; [pose proof (R5 eq_refl)|rewrite (R6 eq_refl)]; lia).
    rewrite i32_small by lia. assert (Ehit : (th + 1 >? L) || td = (L <? th + 1)).
    { rewrite Z.gtb_ltb, R7. destruct tk; cbn [andb]; [|apply orb_false_r].
      destruct (L <? th) eqn:E; [|apply orb_false_r]. apply Z.ltb_lt in E. rewrite orb_true_r. symmetry. apply Z.ltb_lt. lia. }
    split; [split|split_and!]; cbn [hangover_len listen_hits talking hangover talk_hits talked state thresh channels divisor]; try done; try lia.
    + intros n [= <-] _. lia.
    + by destruct ((th + 1 >? L) || tk).
    + destruct tk; [by rewrite orb_true_r|]. rewrite (R6 eq_refl), Z.gtb_ltb, (proj2 (Z.ltb_ge L (0 + 1))) by lia. done.
  - destruct (R5 eq_refl) as [[Hh1 Hh2] Hh3]. destruct (quiet_none _ _ (eq_sym R3)) as (n & En & Hn). pose proof (R4 n En eq_refl) as Eh.
    assert (Et : talking_spec (Z.to_nat H) (false :: loud) = (ho >? 0)).
    { rewrite talking_quiet. cbn [quiet_since]. rewrite En, Z.gtb_ltb. cbn [option_map]. apply eq_iff_eq_true.
      rewrite bool_decide_eq_true, Z.ltb_lt. lia. }
    destruct (ho >? 0) eqn:Eo; [apply Z.gtb_lt in Eo|rewrite Z.gtb_ltb in Eo; apply Z.ltb_ge in Eo].
    + rewrite i32_small by lia.
      split; [split|split_and!]; cbn [hangover_len listen_hits talking hangover talk_hits talked state thresh channels divisor]; try done; try lia.
      * intros m Em _. cbn [quiet_since] in Em. rewrite En in Em. injection Em as <-. lia.
      * rewrite R7, Z.gtb_ltb. cbn [andb]. destruct (L <? th) eqn:E; [|apply orb_false_r]. apply Z.ltb_lt in E.
        rewrite orb_true_r. symmetry. apply Z.ltb_lt. lia.
      * destruct (th + 1 >? L); [done|]. by rewrite R8.
      * destruct (th + 1 >? L); [done|exact R8].
    + assert (td = true) as -> by (rewrite R7; apply Z.ltb_lt; lia).
      split; [split|split_and!]; cbn [hangover_len listen_hits talking hangover talk_hits talked state thresh channels divisor]; done.
  - assert (Et : talking_spec (Z.to_nat H) (false :: loud) = false).
    { rewrite talking_quiet in R3 |- *. cbn [quiet_since]. destruct (quiet_since loud) as [n|]; [|done]. cbn [option_map].
      symmetry in R3. apply bool_decide_eq_false in R3. apply bool_decide_eq_false. lia. }
    cbn [andb] in R7. subst td.
    split; [split|split_and!]; cbn [hangover_len listen_hits talking hangover talk_hits talked state thresh channels divisor]; try done.
    by rewrite R8.
Qed.

Lemma reset_rel v : 0 <= default_hangover_len v -> vad_rel (default_hangover_len v) (default_listen_hits v) [] (switch_vad_reset v).
Proof. intros Hh. by split. Qed.

(** ** The score *)
(** The samples of the first channel. *)
Definition picked (n : nat) (ch : Z) (data : list Z) : list Z := map (fun i => default 0 (data !! Z.to_nat (Z.of_nat i * ch))) (seq 0 n).
Definition loudness (l : list Z) : Z := foldr (fun x e => Z.abs x + e) 0 l.
Lemma loudness_app l x : loudness (l ++ [x]) = loudness l + Z.abs x.
Proof. unfold loudness. induction l as [|y l IH]; cbn [app foldr]; [lia|]. rewrite IH. lia. Qed.
Lemma picked_S n ch data : picked (S n) ch data = picked n ch data ++ [default 0 (data !! Z.to_nat (Z.of_nat n * ch))].
Proof. unfold picked. by rewrite seq_S, map_app. Qed.
Lemma loudness_bound n ch data : Forall (fun x => -32768 <= x < 32768) data -> 0 <= loudness (picked n ch data) <= 32768 * Z.of_nat n.
Proof.
  intros Hd. induction n as [|n IH]; [done|]. rewrite picked_S, loudness_app.
  assert (Z.abs (default 0 (data !! Z.to_nat (Z.of_nat n * ch))) <= 32768).
  { destruct (data !! _) as [x|] eqn:E; cbn; [|lia]. rewrite Forall_lookup in Hd. apply Hd in E. lia. }
  lia.
Qed.
Lemma energy_loop_spec ch data : 0 <= ch -> Forall (fun x => -32768 <= x < 32768) data -> forall n m,
  Z.of_nat (m + n) <= 65535 -> (n = O \/ Z.of_nat (m + n - 1) * ch < zlen data) ->
  energy_loop n data ch (Z.of_nat m * ch) (loudness (picked m ch data)) = Ret (loudness (picked (m + n) ch data)).
Proof.
  intros Hc Hd. induction n as [|n IH]; intros m Hm Hb; [by rewrite Nat.add_0_r|]. cbn [energy_loop].
  destruct Hb as [Hb|Hb]; [done|]. assert (Hi : Z.of_nat m * ch < zlen data) by nia.
  rewrite (proj2 (Z.leb_le 0 _)) by nia. destruct (data !! Z.to_nat (Z.of_nat m * ch)) as [x|] eqn:E.
  2: { apply lookup_ge_None in E. unfold zlen in Hi. nia. }
  cbn [or_ub rbind]. pose proof (loudness_bound (S m) ch data Hd) as Hl. rewrite picked_S, loudness_app, E in Hl. cbn [default from_option] in Hl.
  unfold Datatypes.id in Hl. rewrite i32_small by lia.
  specialize (IH (S m)). rewrite picked_S, loudness_app, E in IH. cbn [from_option] in IH. unfold Datatypes.id in IH.
  replace (Z.of_nat m * ch + ch) with (Z.of_nat (S m) * ch) by lia. rewrite IH; [by rewrite Nat.add_succ_comm|lia|].
  destruct n; [by left|right]. replace (S m + S n - 1)%nat with (m + S (S n) - 1)%nat by lia. done.
Qed.
(** The mean amplitude of the first channel, at eight thousand samples a second. *)
Definition mean (v : switch_vad) (data : list Z) (samples : Z) : Z :=
  loudness (picked (Z.to_nat samples) (channels v) data) / (samples / divisor v).
Definition frame_ok (v : switch_vad) (fr : list Z * Z) : Prop :=
  Forall (fun x => -32768 <= x < 32768) fr.1 /\ divisor v <= fr.2 <= 65535 /\ (fr.2 - 1) * channels v < zlen fr.1.
Lemma vad_score_spec v fr : 1 <= divisor v -> 0 <= channels v -> frame_ok v fr -> vad_score v fr.1 fr.2 = Ret (mean v fr.1 fr.2).
Proof.
  intros Hd Hc (Hs & Hn & Hb). unfold vad_score, mean. destruct fr as [data samples]. cbn [fst snd] in *.
  pose proof (energy_loop_spec (channels v) data Hc Hs (Z.to_nat samples) 0) as E. cbn [Nat.add] in E.
  change (Z.of_nat 0 * channels v) with 0 in E. change (loudness (picked 0 (channels v) data)) with 0 in E.
  rewrite E; [|lia|right; rewrite Nat2Z.inj_sub, Z2Nat.id by lia; done]. cbn [rbind].
  rewrite (u32_small (divisor v)) by lia. rewrite (proj2 (Z.eqb_neq _ _)) by lia.
  assert (1 <= samples / divisor v) by (apply Z.div_le_lower_bound; lia). rewrite (proj2 (Z.eqb_neq _ _)) by lia.
  pose proof (loudness_bound (Z.to_nat samples) (channels v) data Hs) as Hl. rewrite Z2Nat.id in Hl by lia.
  rewrite u32_small by lia. rewrite i32_small; [done|].
  assert (0 <= loudness (picked (Z.to_nat samples) (channels v) data) / (samples / divisor v)) by (apply Z.div_pos; lia).
  assert (loudness (picked (Z.to_nat samples) (channels v) data) / (samples / divisor v) <= loudness (picked (Z.to_nat samples) (channels v) data)) by (apply Z.div_le_upper_bound; nia).
  lia.
Qed.

(** ** Whole conversations *)
Fixpoint vad_run (v : switch_vad) (frames : list (list Z * Z)) : res (switch_vad * list vad_state) :=
  match frames with
  | [] => Ret (v, [])
  | fr :: frames =>
    '(v, s) <-! switch_vad_process v fr.1 fr.2;; '(v, ss) <-! vad_run v frames;; Ret (v, s :: ss)
  end.
Fixpoint states_spec (H : nat) (past loud : list bool) : list vad_state :=
  match loud with
  | [] => []
  | b :: loud => state_spec (talking_spec H past) (talking_spec H (b :: past)) :: states_spec H (b :: past) loud
  end.
Definition is_loud (v : switch_vad) (fr : list Z * Z) : bool := mean v fr.1 fr.2 >=? thresh v.

Lemma vad_run_spec H L : 1 <= L <= H -> forall frames past v, vad_rel H L past v -> 1 <= divisor v -> 0 <= channels v ->
  Forall (frame_ok v) frames -> zlen past + zlen frames < 2147483648 ->
  exists v', vad_run v frames = Ret (v', states_spec (Z.to_nat H) past (map (is_loud v) frames)).
Proof.
  intros HL. induction frames as [|fr frames IH]; intros past v Hv Hd Hc Hf Hz; [by eexists|].
  apply Forall_cons in Hf as [Hfr Hf]. rewrite zlen_cons in Hz. pose proof (zlen_nonneg frames).
  cbn [vad_run map states_spec]. unfold switch_vad_process. rewrite vad_score_spec by done. cbn [rbind].
  destruct (process_score_rel H L past v (mean v fr.1 fr.2) HL ltac:(lia) Hv) as (Hr & Hs & E1 & E2 & E3).
  set (v1 := process_score v (mean v fr.1 fr.2)) in *. fold (is_loud v fr) in Hr.
  assert (Em : forall fr, is_loud v1 fr = is_loud v fr) by (intros; unfold is_loud, mean; by rewrite E1, E2, E3).
  destruct (IH (is_loud v fr :: past) v1) as [v' E]; [done|by rewrite E3|by rewrite E2| |rewrite zlen_cons; lia|].
  { eapply Forall_impl; [exact Hf|]. intros x Hx. unfold frame_ok in *. by rewrite E2, E3. }
  rewrite E. cbn [rbind]. exists v'. rewrite Hs, (vr_talking _ _ _ _ Hr), (vr_talking _ _ _ _ Hv).
  by rewrite (map_ext _ _ Em).
Qed.

(** C27: while at least one frame and no more frames are demanded to believe in speech
    than the hangover covers ([1 <= listen_hits <= hangover_len]), the detector is in
    speech exactly while one of the last [hangover_len + 1] frames reached the
    threshold; every utterance is reported as one start, a stretch of talking, and one
    stop. This is for fewer than 2^31 frames of 16-bit samples that lie within their
    buffers, with at least as many samples as the divisor, at a rate of 8000 or more.
    When more hits are demanded, the detector may talk for ever
    ([short_sound_talks_for_ever]). *)
Theorem vad_follows_speech v frames :
  let v0 := switch_vad_reset v in
  1 <= default_listen_hits v <= default_hangover_len v -> 1 <= divisor v0 -> 0 <= channels v0 ->
  Forall (frame_ok v0) frames -> zlen frames < 2147483648 ->
  exists v', vad_run v0 frames = Ret (v', states_spec (Z.to_nat (default_hangover_len v)) [] (map (is_loud v0) frames)).
Proof.
  intros v0 HL Hd Hc Hf Hz. apply (vad_run_spec _ (default_listen_hits v)); (done || (apply reset_rel; lia) || idtac).
Qed.
Lemma vad_follows_speech_witness :
  let v := switch_vad_set_param (switch_vad_set_param (switch_vad_init 8000 1) (Some "hangover_len") 1) (Some "listen_hits") 1 in
  let frames := [([1; -2], 2); ([500; -700], 2); ([0; 0], 2); ([0; 0], 2); ([0; 1], 2)] in
  exists v', vad_run (switch_vad_reset v) frames = Ret (v', states_spec 1 [] (map (is_loud (switch_vad_reset v)) frames)).
Proof.
  apply (vad_follows_speech
    (switch_vad_set_param (switch_vad_set_param (switch_vad_init 8000 1) (Some "hangover_len") 1) (Some "listen_hits") 1)
    [([1; -2], 2); ([500; -700], 2); ([0; 0], 2); ([0; 0], 2); ([0; 1], 2)]).
  - cbn. lia.
  - vm_compute. done.
  - vm_compute. done.
  - unfold frame_ok. change (divisor _) with 1. change (channels _) with 1.
    rewrite !Forall_cons, Forall_nil. cbn [fst snd]. unfold zlen. cbn [length]. rewrite !Forall_cons, Forall_nil. lia.
  - vm_compute. done.
Defined.
Example speech_states :
  states_spec 1 [] [false; true; false; false; false] =
  [SWITCH_VAD_STATE_NONE; SWITCH_VAD_STATE_START_TALKING; SWITCH_VAD_STATE_TALKING; SWITCH_VAD_STATE_STOP_TALKING; SWITCH_VAD_STATE_NONE].
Proof. reflexivity. Qed.

(** With more hits demanded than the hangover covers, a short sound leaves the
    detector in the state of talking for ever. *)
Definition stuck_vad : switch_vad := switch_vad_set_param (switch_vad_init 8000 1) (Some "hangover_len"%string) 1.
Lemma short_sound_talks_for_ever :
  let v := fold_left process_score [200; 0; 0; 0] stuck_vad in
  talking v = false /\ state v = SWITCH_VAD_STATE_TALKING /\ process_score v 0 = v.
Proof. vm_compute. done. Qed.
(** A rate below eight thousand is a division by zero. *)
Lemma slow_rate_divides_by_zero : switch_vad_process (switch_vad_init 6000 1) [0; 0] 2 = Ub.
Proof. reflexivity. Qed.
