(* ===== verification/Sln.v ===== *)
(** * Sln: mixing of linear samples, src/switch_resample.c

    Merging and subtracting streams and changing the number of channels, in place
    in a block of sixteen-bit samples.  Every index is checked against the block. *)
From S2P Require Import Prelude.
From Stdlib Require Import ZArith Lia.
From stdpp Require Import base numbers option list.

Local Open Scope Z_scope.

Definition get (m : list Z) (i : nat) : res Z := or_ub (m !! i).
Definition put (m : list Z) (i : nat) (v : Z) : res (list Z) := if decide (i < length m)%nat then Ret (<[i := v]> m) else Ub.
(** [for (i = first; i < first + n; i++)] *)
Fixpoint loop {S} (n first : nat) (f : nat -> S -> res S) (s : S) : res S :=
  match n with O => Ret s | Datatypes.S n => s <-! f first s;; loop n (Datatypes.S first) f s end.

Definition SWITCH_SMAX : Z := 32767.
Definition SWITCH_SMIN : Z := -32768.
Definition switch_normalize_to_16bit (n : Z) : Z :=
  if n >? SWITCH_SMAX then SWITCH_SMAX else if n <? SWITCH_SMIN then SWITCH_SMIN else n.

Definition switch_swap_linear (m : list Z) (len : Z) : res (list Z) :=
  loop (Z.to_nat len) 0 (fun i m => x <-! get m i;;
    put m i (i16 (Z.lor (Z.land (Z.shiftr x 8) 0x00ff) (Z.land (Z.shiftl x 8) 0xff00)))) m.

Definition fewer (samples other_samples : Z) : Z := i32 (if samples >? other_samples then other_samples else samples).
Definition one_if_zero (channels : Z) : Z := if channels =? 0 then 1 else channels.
Definition switch_merge_sln (m : list Z) (samples : Z) (other : list Z) (other_samples channels : Z) : res (list Z * Z) :=
  let x := fewer samples other_samples in
  m <-! loop (Z.to_nat (i32 (x * one_if_zero channels))) 0 (fun i m => a <-! get m i;; b <-! get other i;;
    put m i (i16 (switch_normalize_to_16bit (a + b)))) m;;
  Ret (m, u32 x).
Definition switch_unmerge_sln (m : list Z) (samples : Z) (other : list Z) (other_samples channels : Z) : res (list Z * Z) :=
  let x := fewer samples other_samples in
  m <-! loop (Z.to_nat (i32 (x * one_if_zero channels))) 0 (fun i m => a <-! get m i;; b <-! get other i;; put m i (i16 (a - b))) m;;
  Ret (m, u32 x).

(** The sums of a frame: all of its channels, and the odd and the even ones. *)
Definition frame_sum (m : list Z) (orig_channels i : nat) : res Z :=
  loop orig_channels 0 (fun j z => x <-! get m (i * orig_channels + j);; Ret (i32 (z + x))) 0.
Definition frame_sums (m : list Z) (orig_channels i : nat) : res (Z * Z) :=
  loop orig_channels 0 (fun j '(l, r) => x <-! get m (i * orig_channels + j);;
    Ret (if Nat.odd j then (i32 (l + x), r) else (l, i32 (r + x)))) (0, 0).

Definition switch_mux_channels (m : list Z) (samples orig_channels channels : nat) : res (list Z) :=
  if negb (channels <? 11)%nat then Abort
  else if (channels <? orig_channels)%nat then
    if (channels =? 1)%nat then
      loop samples 0 (fun i m => z <-! frame_sum m orig_channels i;; put m i (i16 (switch_normalize_to_16bit z))) m
    else if (channels =? 2)%nat then
      '(m, _) <-! loop samples 0 (fun i '(m, mark_buf) =>
        '(z_left, z_right) <-! frame_sums m orig_channels i;;
        m <-! put m mark_buf (i16 (switch_normalize_to_16bit z_left));;
        m <-! put m (S mark_buf) (i16 (switch_normalize_to_16bit z_right));; Ret (m, S (S mark_buf))) (m, 0%nat);;
      Ret m
    else Ret m
  else if (orig_channels <? channels)%nat then
    let len := Z.to_nat (u32 (Z.of_nat (samples * orig_channels))) in
    m <-! loop len 0 (fun i m => x <-! get m i;; put m (i + len) x) m;;
    '(m, _) <-! loop samples 0 (fun i '(m, k) =>
      loop channels 0 (fun _ '(m, k) => x <-! get m (i + samples);; m <-! put m k x;; Ret (m, S k)) (m, k)) (m, 0%nat);;
    Ret m
  else Ret m.

(** ** Loops *)
Lemma loop_inv {S} (I : nat -> S -> Prop) f : forall n first s,
  I first s -> (forall i s, (first <= i < first + n)%nat -> I i s -> exists s', f i s = Ret s' /\ I (Datatypes.S i) s') ->
  exists s', loop n first f s = Ret s' /\ I (first + n)%nat s'.
Proof.
  induction n as [|n IH]; intros first s Hs Hf.
  - exists s. rewrite Nat.add_0_r. done.
  - cbn [loop]. destruct (Hf first s) as (s1 & E & Hs1); [lia|done|]. rewrite E. cbn [rbind].
    destruct (IH (Datatypes.S first) s1 Hs1) as (s' & E' & Hs'). { intros. apply Hf; [lia|done]. }
    exists s'. by rewrite <- Nat.add_succ_comm.
Qed.
Lemma get_ok m i x : m !! i = Some x -> get m i = Ret x.
Proof. intros E. unfold get. by rewrite E. Qed.
Lemma put_ok m i v : (i < length m)%nat -> put m i v = Ret (<[i := v]> m).
Proof. intros H. unfold put. by rewrite decide_True. Qed.

(** A prefix of the block has been replaced by [done]. *)
Definition replaced (m0 d m : list Z) : Prop := m = d ++ drop (length d) m0 /\ (length d <= length m0)%nat.
Lemma replaced_nil m : replaced m [] m.
Proof. split; [done|cbn; lia]. Qed.
Lemma replaced_length m0 d m : replaced m0 d m -> length m = length m0.
Proof. intros [-> H]. rewrite length_app, length_drop. lia. Qed.
Lemma replaced_lookup m0 d m i : replaced m0 d m -> (length d <= i)%nat -> m !! i = m0 !! i.
Proof.
  intros [-> H] Hi. rewrite lookup_app_r by lia. rewrite lookup_drop. f_equal. lia.
Qed.
Lemma replaced_put m0 d m v : replaced m0 d m -> (length d < length m0)%nat ->
  exists m', put m (length d) v = Ret m' /\ replaced m0 (d ++ [v]) m'.
Proof.
  intros R Hl. pose proof (replaced_length _ _ _ R) as El. destruct R as [-> Hd].
  rewrite put_ok by lia. eexists. split; [done|]. split; [|rewrite length_app; cbn; lia].
  rewrite insert_app_r_alt, Nat.sub_diag by lia. rewrite length_app. cbn [length].
  destruct (drop (length d) m0) as [|x l] eqn:E.
  { apply (f_equal length) in E. rewrite length_drop in E. cbn in E. lia. }
  rewrite <- drop_drop, E. cbn. by rewrite <- app_assoc.
Qed.

(** ** Mixing down *)
Definition in16 (x : Z) : Prop := -32768 <= x < 32768.
Definition sum (l : list Z) : Z := fold_right Z.add 0 l.
Definition mix (l : list Z) : Z := switch_normalize_to_16bit (sum l).
Fixpoint evens (l : list Z) : list Z := match l with x :: _ :: l => x :: evens l | l => l end.
Definition odds (l : list Z) : list Z := evens (drop 1 l).

Lemma sum_snoc l x : sum (l ++ [x]) = sum l + x.
Proof. unfold sum. rewrite fold_right_app. cbn. induction l as [|y l IH]; cbn; [lia|]. rewrite IH. lia. Qed.
Lemma sum_bound l : Forall in16 l -> -32768 * zlen l <= sum l <= 32768 * zlen l.
Proof. induction 1 as [|x l Hx _ IH]; [done|]. rewrite zlen_cons. unfold in16 in Hx. cbn [sum fold_right]. fold (sum l). lia. Qed.
Lemma normalize_in16 z : in16 (switch_normalize_to_16bit z).
Proof.
  unfold switch_normalize_to_16bit, SWITCH_SMAX, SWITCH_SMIN, in16. rewrite Z.gtb_ltb. repeat case_match; boolify; lia.
Qed.
Lemma mix_i16 l : i16 (mix l) = mix l.
Proof. apply i16_small, normalize_in16. Qed.

(** [f] lies at frame [i] of the block. *)
Definition frame_at (m f : list Z) (i : nat) : Prop := forall j x, f !! j = Some x -> m !! (i * length f + j)%nat = Some x.
Lemma frame_sum_ok m f i : frame_at m f i -> Forall in16 f -> zlen f < 65536 -> frame_sum m (length f) i = Ret (sum f).
Proof.
  intros Hf Hb Hz. unfold frame_sum.
  destruct (loop_inv (fun j z => z = sum (take j f)) (fun j z => x <-! get m (i * length f + j);; Ret (i32 (z + x))) (length f) 0 0)
    as (z & E & Hz'); [done| |].
  - intros j z Hj ->. destruct (lookup_lt_is_Some_2 f j) as [x Hx]; [lia|]. rewrite (get_ok _ _ x) by (by apply Hf). cbn [rbind].
    eexists. split; [done|]. rewrite (take_S_r _ _ _ Hx), sum_snoc. apply i32_small.
    assert (Hb' : Forall in16 (take (S j) f)) by by apply Forall_take. apply sum_bound in Hb'.
    rewrite (take_S_r _ _ _ Hx), sum_snoc in Hb'. unfold zlen in *. rewrite length_app, length_take in Hb'. cbn [length] in Hb'. lia.
  - rewrite E, Hz'. cbn [Nat.add]. by rewrite firstn_all.
Qed.

Definition flat (frames : list (list Z)) : list Z := concat frames.
Lemma flat_lookup (n : nat) frames : Forall (fun f => length f = n) frames -> forall i f j x rest,
  frames !! i = Some f -> f !! j = Some x -> (flat frames ++ rest) !! (i * n + j)%nat = Some x.
Proof.
  intros Hn i f j x rest. revert i. induction Hn as [|g frames Hg _ IH]; intros i Hi Hx; [done|]. cbn [flat concat].
  rewrite <- app_assoc. destruct i as [|i].
  - cbn in Hi. injection Hi as ->. rewrite Nat.mul_0_l, Nat.add_0_l. apply lookup_lt_Some in Hx as Hl.
    by rewrite lookup_app_l.
  - cbn [lookup list_lookup] in Hi. rewrite lookup_app_r by lia. replace (S i * n + j - length g)%nat with (i * n + j)%nat by lia. by apply IH.
Qed.
Lemma flat_length (n : nat) frames : Forall (fun f => length f = n) frames -> length (flat frames) = (length frames * n)%nat.
Proof. induction 1 as [|f frames Hf _ IH]; [done|]. cbn [flat concat length]. rewrite length_app, Hf. unfold flat in IH. rewrite IH. lia. Qed.

Lemma mux_mono frames rest n : (1 < n)%nat -> Z.of_nat n < 65536 -> Forall (fun f => length f = n) frames -> Forall (Forall in16) frames ->
  switch_mux_channels (flat frames ++ rest) (length frames) n 1 = Ret (map mix frames ++ drop (length frames) (flat frames ++ rest)).
Proof.
  intros Hn Hn' Hl Hb. unfold switch_mux_channels. change (negb (1 <? 11)%nat) with false. rewrite (proj2 (Nat.ltb_lt 1 n)) by done.
  change (1 =? 1)%nat with true. cbn iota. set (m0 := flat frames ++ rest).
  assert (Hm : (length frames * n <= length m0)%nat) by (unfold m0; rewrite length_app, (flat_length n) by done; lia).
  destruct (loop_inv (fun i m => replaced m0 (map mix (take i frames)) m)
    (fun i m => z <-! frame_sum m n i;; put m i (i16 (switch_normalize_to_16bit z))) (length frames) 0 m0) as (m & E & R).
  - apply replaced_nil.
  - intros i m Hi R. destruct (lookup_lt_is_Some_2 frames i) as [f Hf]; [lia|].
    rewrite Forall_forall in Hl, Hb. pose proof (list_elem_of_lookup_2 _ _ _ Hf) as Hin. pose proof (Hl f Hin) as Hlf.
    assert (Hlen : length (map mix (take i frames)) = i) by (rewrite length_map, length_take; lia).
    rewrite <- Hlf. rewrite frame_sum_ok; [|..|by apply Hb|unfold zlen; lia].
    2: { intros j x Hx. rewrite (replaced_lookup _ _ _ _ R) by (rewrite Hlen; nia). rewrite Hlf.
         apply (flat_lookup n frames) with (f := f); [by apply Forall_forall|done|done]. }
    cbn [rbind]. destruct (replaced_put m0 _ m (mix f) R) as (m' & E & R'); [rewrite Hlen; nia|]. rewrite Hlen in E.
    exists m'. fold (mix f). rewrite mix_i16. split; [exact E|].
    rewrite (take_S_r _ _ _ Hf), map_app. exact R'.
  - rewrite E. cbn [Nat.add] in R. rewrite firstn_all in R. destruct R as [-> _]. by rewrite length_map.
Qed.

(** Stereo: the sums of the channels with odd and with even numbers. *)
Lemma evens_snoc l x : evens (l ++ [x]) = if Nat.odd (length l) then evens l else evens l ++ [x].
Proof.
  assert (H : forall n l, (length l <= n)%nat -> evens (l ++ [x]) = if Nat.odd (length l) then evens l else evens l ++ [x]).
  { induction n as [|n IH]; intros [|a [|b l']] Hl; cbn in Hl; try done; [lia|].
    cbn [app evens length]. rewrite IH by lia. change (Nat.odd (S (S (length l')))) with (Nat.odd (length l')). by destruct (Nat.odd (length l')). }
  by apply (H (length l)).
Qed.
Lemma odds_snoc l x : odds (l ++ [x]) = if Nat.odd (length l) then odds l ++ [x] else odds l.
Proof.
  unfold odds. destruct l as [|a l]; [done|]. cbn [app drop length]. rewrite ?drop_0, evens_snoc, Nat.odd_succ, <- Nat.negb_odd. by destruct (Nat.odd (length l)).
Qed.
Lemma evens_Forall P l : Forall P l -> Forall P (evens l) /\ zlen (evens l) <= zlen l.
Proof.
  assert (H : forall n l, (length l <= n)%nat -> Forall P l -> Forall P (evens l) /\ zlen (evens l) <= zlen l).
  { induction n as [|n IH]; intros [|a [|b l']] Hl Hf; cbn in Hl; try (split; [done|cbn [evens]; lia]); [lia|].
    rewrite !Forall_cons in Hf. destruct Hf as (Ha & _ & Hf). cbn [evens]. rewrite !zlen_cons, Forall_cons.
    destruct (IH l' ltac:(lia) Hf). split; [done|lia]. }
  by apply (H (length l)).
Qed.
Lemma odds_Forall P l : Forall P l -> Forall P (odds l) /\ zlen (odds l) <= zlen l.
Proof.
  intros Hl. destruct (evens_Forall P (drop 1 l)) as [H1 H2]; [by apply Forall_drop|]. split; [done|].
  unfold odds in *. unfold zlen in *. rewrite length_drop in H2. lia.
Qed.
Lemma frame_sums_ok m f i : frame_at m f i -> Forall in16 f -> zlen f < 65536 ->
  frame_sums m (length f) i = Ret (sum (odds f), sum (evens f)).
Proof.
  intros Hf Hb Hz. unfold frame_sums.
  destruct (loop_inv (fun j z => z = (sum (odds (take j f)), sum (evens (take j f)))) (fun j '(l, r) => x <-! get m (i * length f + j);;
    Ret (if Nat.odd j then (i32 (l + x), r) else (l, i32 (r + x)))) (length f) 0 (0, 0)) as (z & E & Hz'); [done| |].
  - intros j z Hj ->. destruct (lookup_lt_is_Some_2 f j) as [x Hx]; [lia|]. rewrite (get_ok _ _ x) by (by apply Hf). cbn [rbind].
    eexists. split; [done|]. rewrite (take_S_r _ _ _ Hx). 
    assert (Hb' : Forall in16 (take (S j) f)) by by apply Forall_take. rewrite (take_S_r _ _ _ Hx) in Hb'.
    assert (Hlt : length (take j f) = j) by (rewrite length_take; lia).
    assert (Hlz : zlen (take j f ++ [x]) < 65536) by (unfold zlen in *; rewrite length_app, Hlt; cbn [length]; lia).
    destruct (evens_Forall in16 _ Hb') as [He1 He2], (odds_Forall in16 _ Hb') as [Ho1 Ho2]. apply sum_bound in He1, Ho1.
    rewrite evens_snoc, odds_snoc, Hlt in *. destruct (Nat.odd j); rewrite ?sum_snoc in *; by rewrite i32_small by lia.
  - rewrite E, Hz'. cbn [Nat.add]. by rewrite firstn_all.
Qed.
Definition mix2 (f : list Z) : list Z := [mix (odds f); mix (evens f)].
Lemma mux_stereo frames rest n : (2 < n)%nat -> Z.of_nat n < 65536 -> Forall (fun f => length f = n) frames -> Forall (Forall in16) frames ->
  switch_mux_channels (flat frames ++ rest) (length frames) n 2 =
  Ret (flat (map mix2 frames) ++ drop (2 * length frames) (flat frames ++ rest)).
Proof.
  intros Hn Hn' Hl Hb. unfold switch_mux_channels. change (negb (2 <? 11)%nat) with false. rewrite (proj2 (Nat.ltb_lt 2 n)) by done.
  change (2 =? 1)%nat with false. change (2 =? 2)%nat with true. cbn iota. set (m0 := flat frames ++ rest).
  assert (Hm : (length frames * n <= length m0)%nat) by (unfold m0; rewrite length_app, (flat_length n) by done; lia).
  assert (H2 : forall fs, length (flat (map mix2 fs)) = (2 * length fs)%nat).
  { intros fs. rewrite (flat_length 2), length_map by (apply Forall_map, Forall_forall; done). lia. }
  match goal with |- rbind (loop _ _ ?f _) _ = _ => destruct (loop_inv (fun i s => replaced m0 (flat (map mix2 (take i frames))) s.1 /\ s.2 = (2 * i)%nat)
    f (length frames) 0%nat (m0, 0%nat)) as ([m k] & E & R & _) end.
  - split; [apply replaced_nil|done].
  - intros i [m k] Hi [R Hk]. cbn [fst snd] in R, Hk. subst k. destruct (lookup_lt_is_Some_2 frames i) as [f Hf]; [lia|].
    rewrite Forall_forall in Hl, Hb. pose proof (list_elem_of_lookup_2 _ _ _ Hf) as Hin. pose proof (Hl f Hin) as Hlf.
    assert (Hlen : length (flat (map mix2 (take i frames))) = (2 * i)%nat) by (rewrite H2, length_take; lia).
    rewrite <- Hlf. rewrite frame_sums_ok; [|..|by apply Hb|unfold zlen; lia].
    2: { intros j x Hx. rewrite (replaced_lookup _ _ _ _ R) by (rewrite Hlen; nia). rewrite Hlf.
         apply (flat_lookup n frames) with (f := f); [by apply Forall_forall|done|done]. }
    cbn [rbind]. fold (mix (odds f)) (mix (evens f)). rewrite !mix_i16.
    destruct (replaced_put m0 _ m (mix (odds f)) R) as (m1 & E1 & R1); [rewrite Hlen; nia|]. rewrite Hlen in E1. rewrite E1. cbn [rbind].
    destruct (replaced_put m0 _ m1 (mix (evens f)) R1) as (m2 & E2 & R2); [rewrite length_app, Hlen; cbn [length]; nia|].
    rewrite length_app, Hlen in E2. cbn [length] in E2. rewrite Nat.add_1_r in E2. rewrite E2. cbn [rbind].
    eexists. split; [done|]. cbn [fst snd]. split; [|lia]. rewrite (take_S_r _ _ _ Hf), map_app. unfold flat in *. rewrite concat_app.
    cbn [map concat mix2 app]. rewrite <- app_assoc in R2. exact R2.
  - rewrite E. cbn [rbind Nat.add] in *. rewrite firstn_all in R. destruct R as [R _]. cbn [fst] in R. rewrite R, H2. done.
Qed.

(** ** Doubling a channel *)
Definition double (xs : list Z) : list Z := flat (map (fun x => [x; x]) xs).
Lemma double_length xs : length (double xs) = (2 * length xs)%nat.
Proof. unfold double. rewrite (flat_length 2), length_map; [lia|]. by apply Forall_map, Forall_forall. Qed.

(** The samples are copied behind themselves. *)
Lemma copy_behind xs rest : (length xs <= length rest)%nat ->
  loop (length xs) 0 (fun i m => x <-! get m i;; put m (i + length xs) x) (xs ++ rest) = Ret (xs ++ xs ++ drop (length xs) rest).
Proof.
  intros Hr.
  destruct (loop_inv (fun i m => exists r, m = xs ++ r /\ replaced rest (take i xs) r)
    (fun i m => x <-! get m i;; put m (i + length xs) x) (length xs) 0 (xs ++ rest)) as (m & E & r & -> & R).
  - exists rest. split; [done|apply replaced_nil].
  - intros i m Hi (r & -> & R). destruct (lookup_lt_is_Some_2 xs i) as [x Hx]; [lia|].
    rewrite (get_ok _ _ x) by (by rewrite lookup_app_l by lia). cbn [rbind].
    assert (Hl : length (take i xs) = i) by (rewrite length_take; lia).
    destruct (replaced_put rest _ r x R) as (r' & E & R'); [lia|]. rewrite Hl in E.
    unfold put in E |- *. rewrite length_app. case_decide; [|done]. rewrite decide_True by lia. injection E as <-.
    eexists. split; [done|]. exists (<[i := x]> r). split.
    + rewrite insert_app_r_alt by lia. by replace (i + length xs - length xs)%nat with i by lia.
    + by rewrite (take_S_r _ _ _ Hx).
  - rewrite E. cbn [Nat.add] in R. rewrite firstn_all in R. destruct R as [-> _]. done.
Qed.

Lemma mux_double xs rest : (length xs <= length rest)%nat -> zlen xs < 4294967296 ->
  switch_mux_channels (xs ++ rest) (length xs) 1 2 = Ret (double xs ++ drop (length xs) rest).
Proof.
  intros Hr Hz. unfold switch_mux_channels. change (negb (2 <? 11)%nat) with false. change (2 <? 1)%nat with false.
  change (1 <? 2)%nat with true. cbn iota. rewrite Nat.mul_1_r, u32_small, Nat2Z.id by (unfold zlen in Hz; lia). cbv zeta.
  rewrite copy_behind by done. cbn [rbind]. set (n := length xs) in *. set (m1 := xs ++ xs ++ drop n rest).
  assert (Hm1 : length m1 = (n + length rest)%nat) by (unfold m1; rewrite !length_app, length_drop; lia).
  match goal with |- rbind (loop _ _ ?f _) _ = _ => destruct (loop_inv (fun i s => replaced m1 (double (take i xs)) s.1 /\ s.2 = (2 * i)%nat)
    f n 0%nat (m1, 0%nat)) as ([m k] & E & R & _) end.
  - split; [apply replaced_nil|done].
  - intros i [m k] Hi [R Hk]. cbn [fst snd] in R, Hk. subst k. destruct (lookup_lt_is_Some_2 xs i) as [x Hx]; [lia|].
    assert (Hl : length (double (take i xs)) = (2 * i)%nat) by (rewrite double_length, length_take; lia).
    assert (Hg : forall d m', replaced m1 d m' -> (length d <= i + n)%nat -> get m' (i + n) = Ret x).
    { intros d m' R' Hd. apply get_ok. rewrite (replaced_lookup _ _ _ _ R') by done. unfold m1.
      rewrite lookup_app_r, lookup_app_l by lia. fold n. by replace (i + n - n)%nat with i by lia. }
    cbn [loop]. rewrite (Hg _ _ R) by lia. cbn [rbind].
    destruct (replaced_put m1 _ m x R) as (m2 & E2 & R2); [lia|]. rewrite Hl in E2. rewrite E2. cbn [rbind].
    rewrite (Hg _ _ R2) by (rewrite length_app, Hl; cbn [length]; lia). cbn [rbind].
    destruct (replaced_put m1 _ m2 x R2) as (m3 & E3 & R3); [rewrite length_app, Hl; cbn [length]; lia|].
    rewrite length_app, Hl in E3. cbn [length] in E3. rewrite Nat.add_1_r in E3. rewrite E3. cbn [rbind].
    eexists. split; [done|]. cbn [fst snd]. split; [|lia]. rewrite (take_S_r _ _ _ Hx). unfold double, flat in *.
    rewrite map_app, concat_app. cbn [map concat app]. rewrite <- app_assoc in R3. exact R3.
  - rewrite E. cbn [rbind Nat.add fst] in *. unfold n in R at 1. rewrite firstn_all in R. destruct R as [-> _].
    rewrite double_length. f_equal. unfold m1. f_equal. fold n. replace (2 * n)%nat with (n + n)%nat by lia.
    rewrite <- drop_drop. unfold n at 1 2. by rewrite !drop_app_length.
Qed.

(** Changing the number of channels in place: the mix to one channel is the
    saturated sum of each frame, the mix to two the saturated sums of the channels
    with odd and even numbers, and one channel becomes two by doubling each sample;
    the rest of the block is left alone. *)
Theorem mux_channels_spec frames rest n xs rest' :
  (2 < n)%nat -> Z.of_nat n < 65536 -> Forall (fun f => length f = n) frames -> Forall (Forall in16) frames ->
  (length xs <= length rest')%nat -> zlen xs < 4294967296 ->
  let m := flat frames ++ rest in
  switch_mux_channels m (length frames) n 1 = Ret (map mix frames ++ drop (length frames) m) /\
  switch_mux_channels m (length frames) n 2 = Ret (flat (map mix2 frames) ++ drop (2 * length frames) m) /\
  switch_mux_channels (xs ++ rest') (length xs) 1 2 = Ret (double xs ++ drop (length xs) rest').
Proof.
  intros Hn Hn' Hl Hb Hx Hz m. split_and!; [apply mux_mono|apply mux_stereo|by apply mux_double]; (done || lia).
Qed.
Lemma mux_channels_spec_witness :
  let frames := [[1; 2; 3]; [30000; 30000; -5]] in let m := flat frames ++ [9] in
  switch_mux_channels m 2 3 1 = Ret (map mix frames ++ drop 2 m) /\
  switch_mux_channels m 2 3 2 = Ret (flat (map mix2 frames) ++ drop 4 m) /\
  switch_mux_channels ([7; 8] ++ [0; 0; 5]) 2 1 2 = Ret (double [7; 8] ++ drop 2 [0; 0; 5]).
Proof.
  apply (mux_channels_spec [[1; 2; 3]; [30000; 30000; -5]] [9] 3 [7; 8] [0; 0; 5]); try lia.
  - by repeat constructor.
  - unfold in16. rewrite !Forall_cons, !Forall_nil. lia.
  - cbn. lia.
  - vm_compute. done.
Defined.
(** More than two channels are not filled from one: the samples are overwritten
    before they are read, here the fourth one. *)
Lemma mux_three_channels_wrong :
  switch_mux_channels ([1; 2; 3; 4] ++ replicate 8 0) 4 1 3 = Ret [1; 1; 1; 2; 2; 2; 3; 3; 3; 3; 3; 3].
Proof. reflexivity. Qed.

(** ** Merging and taking apart *)
Lemma zip_loop (g : Z -> Z -> Z) other : forall n m, (n <= length m)%nat -> (n <= length other)%nat ->
  loop n 0 (fun i m => a <-! get m i;; b <-! get other i;; put m i (g a b)) m = Ret (zip_with g (take n m) (take n other) ++ drop n m).
Proof.
  intros n m0 Hm Ho.
  destruct (loop_inv (fun i m => replaced m0 (zip_with g (take i m0) (take i other)) m)
    (fun i m => a <-! get m i;; b <-! get other i;; put m i (g a b)) n 0 m0) as (m & E & R).
  - apply replaced_nil.
  - intros i m Hi R. destruct (lookup_lt_is_Some_2 m0 i) as [a Ha]; [lia|]. destruct (lookup_lt_is_Some_2 other i) as [b Hb]; [lia|].
    assert (Hl : length (zip_with g (take i m0) (take i other)) = i) by (rewrite length_zip_with, !length_take; lia).
    rewrite (get_ok m i a) by (rewrite (replaced_lookup _ _ _ _ R) by lia; done). cbn [rbind].
    rewrite (get_ok other i b) by done. cbn [rbind]. destruct (replaced_put m0 _ m (g a b) R) as (m' & E & R'); [lia|].
    rewrite Hl in E. exists m'. split; [done|]. rewrite (take_S_r _ _ _ Ha), (take_S_r _ _ _ Hb), zip_with_app; [exact R'|].
    rewrite !length_take. lia.
  - rewrite E. cbn [Nat.add] in R. destruct R as [-> _]. f_equal. f_equal. rewrite length_zip_with, !length_take. f_equal. lia.
Qed.

(** Merging two streams adds them with saturation on the samples both have;
    what was merged without saturation is taken apart again exactly. *)
Theorem merge_unmerge a b rest : length a = length b -> zlen a < 2147483648 -> Forall in16 a ->
  (forall i x y, a !! i = Some x -> b !! i = Some y -> in16 (x + y)) ->
  exists m, switch_merge_sln (a ++ rest) (zlen a) b (zlen b) 1 = Ret (m, zlen a) /\
    m = zip_with (fun x y => switch_normalize_to_16bit (x + y)) a b ++ rest /\
    switch_unmerge_sln m (zlen a) b (zlen b) 1 = Ret (a ++ rest, zlen a).
Proof.
  intros El Hz Ha Hs. assert (Ez : zlen b = zlen a) by (unfold zlen; by rewrite El). pose proof (zlen_nonneg a).
  assert (Ef : fewer (zlen a) (zlen b) = zlen a) by (unfold fewer; rewrite Ez, Z.gtb_ltb, Z.ltb_irrefl; apply i32_small; lia).
  assert (En : Z.to_nat (i32 (zlen a * one_if_zero 1)) = length a)
    by (change (one_if_zero 1) with 1; rewrite Z.mul_1_r, i32_small by lia; unfold zlen; lia).
  exists (zip_with (fun x y => switch_normalize_to_16bit (x + y)) a b ++ rest).
  unfold switch_merge_sln, switch_unmerge_sln. rewrite Ef, En, u32_small by lia. split; [|split; [done|]].
  - rewrite (zip_loop (fun x y => i16 (switch_normalize_to_16bit (x + y))) b) by (rewrite ?length_app; lia). cbn [rbind].
    rewrite take_app_length, drop_app_length, El, firstn_all. do 3 f_equal. apply zip_with_ext; [|done..].
    intros x y. apply i16_small, normalize_in16.
  - set (c := zip_with _ a b). assert (Hc : length c = length a) by (unfold c; rewrite length_zip_with; lia).
    rewrite (zip_loop (fun x y => i16 (x - y)) b) by (rewrite ?length_app; lia). cbn [rbind]. rewrite <- Hc at 1 3.
    rewrite take_app_length, drop_app_length, El, firstn_all. do 3 f_equal. apply list_eq. intros i.
    rewrite lookup_zip_with. unfold c. rewrite lookup_zip_with. destruct (a !! i) as [x|] eqn:Ex; [|done].
    destruct (lookup_lt_is_Some_2 b i) as [y Ey]; [apply lookup_lt_Some in Ex; lia|]. rewrite Ey. cbn.
    pose proof (Hs i x y Ex Ey) as Hxy. rewrite Forall_lookup in Ha. pose proof (Ha i x Ex) as Hx. unfold in16 in *.
    unfold switch_normalize_to_16bit, SWITCH_SMAX, SWITCH_SMIN. rewrite Z.gtb_ltb.
    rewrite (proj2 (Z.ltb_ge 32767 _)), (proj2 (Z.ltb_ge _ (-32768))) by lia. f_equal. rewrite i16_small by lia. lia.
Qed.
Lemma merge_unmerge_witness : exists m,
  switch_merge_sln ([5; -6] ++ [1]) (zlen [5; -6]) [10; 20] (zlen [10; 20]) 1 = Ret (m, zlen [5; -6]) /\
  m = zip_with (fun x y => switch_normalize_to_16bit (x + y)) [5; -6] [10; 20] ++ [1] /\
  switch_unmerge_sln m (zlen [5; -6]) [10; 20] (zlen [10; 20]) 1 = Ret ([5; -6] ++ [1], zlen [5; -6]).
Proof.
  apply (merge_unmerge [5; -6] [10; 20] [1]).
  - reflexivity.
  - vm_compute. done.
  - unfold in16. rewrite !Forall_cons, Forall_nil. lia.
  - intros i x y Hx Hy. destruct i as [|[|i]]; cbn in Hx, Hy; simplify_eq; unfold in16; lia.
Defined.
