(* ===== verification/StateHandlers.v ===== *)
(** * StateHandlers: the tables of state handlers of a channel and of the core

    [state_handlers] and [state_handler_index] of src/switch_channel.c and of
    [runtime] in src/switch_core.c, with the operations on them.  A handler
    table is known by its address, a number; [None] is a null pointer.  Reads
    and writes outside the arrays are undefined.  The channel's table implements
    a list without duplicates as long as it is asked for at most 29 handlers,
    the core's a list of at most 30. *)
From S2P Require Import Prelude CoreHash.
From Stdlib Require Import ZArith Lia.
From stdpp Require Import base numbers option list.

Local Open Scope Z_scope.

(** ** Data *)
Definition SWITCH_MAX_STATE_HANDLERS : nat := 30.

Record registry := mk_registry {
  state_handlers : list (option nat);
  state_handler_index : nat
}.

Definition no_handlers : list (option nat) := replicate SWITCH_MAX_STATE_HANDLERS None.
Definition empty_registry : registry := mk_registry no_handlers 0.

(** ** The table of a channel *)

(** The search of [switch_channel_add_state_handler]: the first slot that holds
    the handler. *)
Fixpoint find_handler (x : nat) (h : nat) (slots : list (option nat)) : option nat :=
  match slots with
  | [] => None
  | s :: slots => if decide (s = Some h) then Some x else find_handler (S x) h slots
  end.

Definition switch_channel_add_state_handler (h : nat) (r : registry) : res (Z * registry) :=
  match find_handler 0 h (state_handlers r) with
  | Some x => Ret (Z.of_nat x, r)
  | None =>
    let index := state_handler_index r in
    let r := mk_registry (state_handlers r) (S index) in
    if (SWITCH_MAX_STATE_HANDLERS <=? state_handler_index r)%nat then Ret (-1, r)
    else Ret (Z.of_nat index, mk_registry (<[index := Some h]> (state_handlers r)) (state_handler_index r))
  end.

Definition switch_channel_get_state_handler (r : registry) (index : nat) : option nat :=
  if (SWITCH_MAX_STATE_HANDLERS <=? index)%nat || (state_handler_index r <? index)%nat then None
  else mjoin (state_handlers r !! index).

(** The loop that copies the slots to keep: [n] slots are left, from [index];
    [k] are copied to [new] so far. *)
Fixpoint keep_handlers (keep : option nat -> bool) (n index : nat) (slots new : list (option nat)) (k : nat)
    : res (list (option nat) * nat) :=
  match n with
  | O => Ret (new, k)
  | S n =>
    s <-! or_ub (slots !! index);;
    if keep s
    then if (k <? length new)%nat then keep_handlers keep n (S index) slots (<[k := s]> new) (S k) else Ub
    else keep_handlers keep n (S index) slots new k
  end.

(** [sticky h]: the table [h] has the flag [SSH_FLAG_STICKY]. *)
Definition switch_channel_clear_state_handler (sticky : nat -> bool) (state_handler : option nat) (r : registry)
    : res registry :=
  let keep := match state_handler with
              | Some h => fun s => negb (bool_decide (s = Some h))
              | None => fun s => match s with Some x => sticky x | None => false end
              end in
  '(new, k) <-! keep_handlers keep (state_handler_index r) 0 (state_handlers r) no_handlers 0;;
  Ret (mk_registry (take k new ++ drop k (map (fun _ => None) (state_handlers r))) k).

(** ** The table of the core *)
Definition switch_core_add_state_handler (h : nat) (r : registry) : Z * registry :=
  let index := state_handler_index r in
  if (SWITCH_MAX_STATE_HANDLERS - 1 <? index)%nat then (-1, r)
  else (Z.of_nat index, mk_registry (<[index := Some h]> (state_handlers r)) (S index)).

Definition switch_core_get_state_handler (r : registry) (index : nat) : option nat :=
  if (SWITCH_MAX_STATE_HANDLERS <=? index)%nat || (state_handler_index r <? index)%nat then None
  else mjoin (state_handlers r !! index).

(** The first loop of [switch_core_remove_state_handler]: slots move to [tmp],
    which has one slot more. *)
Fixpoint take_out (h : nat) (n index : nat) (slots tmp : list (option nat)) (tmp_index : nat)
    : res (list (option nat) * list (option nat) * nat) :=
  match n with
  | O => Ret (slots, tmp, tmp_index)
  | S n =>
    cur <-! or_ub (slots !! index);;
    let slots := <[index := None]> slots in
    if decide (cur = Some h) then take_out h n (S index) slots tmp tmp_index
    else if (tmp_index <? length tmp)%nat
         then take_out h n (S index) slots (<[tmp_index := cur]> tmp) (S tmp_index) else Ub
  end.

(** The second loop: [n] of the slots put aside move back. *)
Fixpoint put_back (n index : nat) (slots tmp : list (option nat)) : res (list (option nat)) :=
  match n with
  | O => Ret slots
  | S n =>
    cur <-! or_ub (tmp !! index);;
    if (index <? length slots)%nat then put_back n (S index) (<[index := cur]> slots) tmp else Ub
  end.

Definition switch_core_remove_state_handler (h : nat) (r : registry) : res registry :=
  '(slots, tmp, tmp_index) <-! take_out h (state_handler_index r) 0 (state_handlers r)
     (replicate (SWITCH_MAX_STATE_HANDLERS + 1) None) 0;;
  slots <-! put_back tmp_index 0 slots tmp;;
  Ret (mk_registry slots tmp_index).

(** ** What the tables stand for *)

(** The table holds exactly the handlers [hs], in order. *)
Record compact (r : registry) (hs : list nat) : Prop := {
  cp_slots : state_handlers r = map Some hs ++ replicate (SWITCH_MAX_STATE_HANDLERS - length hs) None;
  cp_index : state_handler_index r = length hs;
  cp_room : (length hs <= SWITCH_MAX_STATE_HANDLERS)%nat
}.

(** What a client of a channel's table asks for, and what it means on a list. *)
Inductive reg_op := AddHandler (h : nat) | ClearHandler (h : option nat).

Definition list_op (sticky : nat -> bool) (op : reg_op) (hs : list nat) : list nat :=
  match op with
  | AddHandler h => if decide (h ∈ hs) then hs else hs ++ [h]
  | ClearHandler (Some h) => base.filter (fun x => x <> h) hs
  | ClearHandler None => base.filter (fun x => sticky x = true) hs
  end.

Definition exec_reg (sticky : nat -> bool) (op : reg_op) (r : registry) : res registry :=
  match op with
  | AddHandler h => '(_, r) <-! switch_channel_add_state_handler h r;; Ret r
  | ClearHandler h => switch_channel_clear_state_handler sticky h r
  end.
Fixpoint run_reg (sticky : nat -> bool) (ops : list reg_op) (r : registry) : res registry :=
  match ops with
  | [] => Ret r
  | op :: ops => r <-! exec_reg sticky op r;; run_reg sticky ops r
  end.

(** No prefix of the requests asks for more than 29 handlers at a time. *)
Fixpoint fits (sticky : nat -> bool) (ops : list reg_op) (hs : list nat) : Prop :=
  match ops with
  | [] => True
  | op :: ops => (length (list_op sticky op hs) < SWITCH_MAX_STATE_HANDLERS)%nat /\
                 fits sticky ops (list_op sticky op hs)
  end.

(** ** Lemmas *)
Lemma compact_empty : compact empty_registry [].
Proof. split; [done|done|apply Nat.le_0_l]. Qed.

Lemma compact_length r hs : compact r hs -> length (state_handlers r) = SWITCH_MAX_STATE_HANDLERS.
Proof.
  intros [E _ Hl]. rewrite E, length_app, length_map, length_replicate. lia.
Qed.

Lemma compact_lookup r hs i : compact r hs -> mjoin (state_handlers r !! i) = hs !! i.
Proof.
  intros [E _ Hl]. rewrite E. destruct (decide (i < length hs)%nat) as [Hi|Hi].
  - rewrite lookup_app_l by (by rewrite length_map). rewrite list_lookup_fmap. by destruct (hs !! i).
  - rewrite (proj2 (lookup_ge_None hs i)) by lia. rewrite lookup_app_r by (rewrite length_map; lia).
    destruct (replicate _ _ !! _) as [o|] eqn:Eo; [|done]. by apply lookup_replicate in Eo as [-> _].
Qed.

Lemma get_handler r hs i : compact r hs -> switch_channel_get_state_handler r i = hs !! i.
Proof.
  intros Hc. unfold switch_channel_get_state_handler. rewrite (compact_lookup r hs i Hc).
  destruct Hc as [_ E Hl]. rewrite E. destruct (_ || _) eqn:Eb; [|done].
  symmetry. apply lookup_ge_None. apply orb_true_iff in Eb as [H|H]; [apply Nat.leb_le in H|apply Nat.ltb_lt in H]; lia.
Qed.
Lemma core_get_handler r hs i : compact r hs -> switch_core_get_state_handler r i = hs !! i.
Proof. apply get_handler. Qed.

Lemma find_handler_spec h hs k x :
  find_handler x h (map Some hs ++ replicate k None) =
  (fun i => (x + i)%nat) <$> (fst <$> list_find (eq h) hs).
Proof.
  revert x. induction hs as [|g hs IH]; intros x; simpl.
  - revert x. induction k as [|k IH]; intros x; [done|]. simpl. by rewrite IH.
  - destruct (decide (Some g = Some h)) as [E|E].
    + rewrite decide_True by congruence. simpl. f_equal. lia.
    + rewrite decide_False by congruence. rewrite IH.
      destruct (list_find (eq h) hs) as [[i y]|]; simpl; [|done]. f_equal. lia.
Qed.

Lemma list_find_notin (h : nat) hs : list_find (eq h) hs = None <-> h ∉ hs.
Proof.
  rewrite list_find_None, Forall_forall. split.
  - intros H Hin. by apply (H h).
  - by intros H x Hx <-.
Qed.

(** One more slot is in use. *)
Lemma compact_snoc r hs h i : compact r hs -> i = length hs -> (i < SWITCH_MAX_STATE_HANDLERS)%nat ->
  compact (mk_registry (<[i := Some h]> (state_handlers r)) (S i)) (hs ++ [h]).
Proof.
  intros [E Ei Hl] -> Hr. split; simpl.
  - rewrite E, map_app, length_app, insert_app_r_alt by (by rewrite length_map).
    rewrite length_map, Nat.sub_diag. simpl.
    replace (SWITCH_MAX_STATE_HANDLERS - length hs)%nat
      with (S (SWITCH_MAX_STATE_HANDLERS - (length hs + 1)))%nat by lia.
    simpl. by rewrite <- app_assoc.
  - rewrite length_app. simpl. lia.
  - rewrite length_app. simpl. lia.
Qed.

Lemma register_absent r hs h : compact r hs -> h ∉ hs -> (S (length hs) < SWITCH_MAX_STATE_HANDLERS)%nat ->
  exists r', switch_channel_add_state_handler h r = Ret (Z.of_nat (length hs), r') /\ compact r' (hs ++ [h]).
Proof.
  intros Hc Hin Hl. unfold switch_channel_add_state_handler. pose proof (cp_slots _ _ Hc) as E.
  rewrite E, find_handler_spec, (proj2 (list_find_notin h hs) Hin). cbn [fmap option_fmap option_map].
  cbn [state_handler_index state_handlers]. pose proof (cp_index _ _ Hc) as Ei. rewrite Ei, <- E.
  rewrite (proj2 (Nat.leb_gt _ _)) by lia. eexists. split; [done|].
  by apply compact_snoc; [|lia|lia].
Qed.

Lemma add_present r hs h : compact r hs -> h ∈ hs ->
  exists i, switch_channel_add_state_handler h r = Ret (Z.of_nat i, r) /\ hs !! i = Some h.
Proof.
  intros Hc Hin. unfold switch_channel_add_state_handler. rewrite (cp_slots _ _ Hc), find_handler_spec.
  destruct (list_find (eq h) hs) as [[i y]|] eqn:E; [|by apply list_find_notin in E].
  apply list_find_Some in E as (E & <- & _). exists i. by split.
Qed.

(** The copying loop filters the slots it passes. *)
Lemma keep_handlers_spec keep slots n index new k done_ :
  (index + n <= length slots)%nat -> (length done_ + n <= length new)%nat -> k = length done_ ->
  take k new = done_ ->
  exists new', keep_handlers keep n index slots new k =
    Ret (new', (k + length (List.filter keep (take n (drop index slots))))%nat) /\
    length new' = length new /\
    take (k + length (List.filter keep (take n (drop index slots)))) new' =
      done_ ++ List.filter keep (take n (drop index slots)).
Proof.
  revert index new k done_. induction n as [|n IH]; intros index new k dn Hs Hn -> Ht; simpl.
  - exists new. by rewrite Nat.add_0_r, app_nil_r.
  - destruct (lookup_lt_is_Some_2 slots index ltac:(lia)) as [s Es].
    rewrite (drop_S _ _ _ Es). cbn [take List.filter]. rewrite Es. cbn [or_ub rbind].
    destruct (keep s) eqn:Ek.
    + rewrite (proj2 (Nat.ltb_lt _ _)) by lia.
      destruct (IH (S index) (<[length dn := s]> new) (S (length dn)) (dn ++ [s])) as (new' & E & L & T).
      * lia.
      * rewrite length_app, length_insert. simpl. lia.
      * rewrite length_app. simpl. lia.
      * rewrite (take_S_r _ _ s) by (apply list_lookup_insert_eq; lia).
        rewrite take_insert_ge by lia. by rewrite Ht.
      * exists new'. rewrite E. cbn [length]. rewrite Nat.add_succ_r, <- app_assoc in *.
        rewrite length_insert in L. by split_and!.
    + apply (IH (S index)); [lia|lia|done|done].
Qed.

Lemma filter_map_Some (keep : option nat -> bool) hs :
  List.filter keep (map Some hs) = map Some (List.filter (fun h => keep (Some h)) hs).
Proof. induction hs as [|h hs IH]; simpl; [done|]. destruct (keep (Some h)); simpl; by rewrite IH. Qed.

Lemma List_filter_filter (P : nat -> Prop) `{!forall x, Decision (P x)} (f : nat -> bool) hs :
  (forall x, f x = bool_decide (P x)) -> List.filter f hs = base.filter P hs.
Proof.
  intros Hf. induction hs as [|h hs IH]; [done|]. rewrite filter_cons. cbn [List.filter]. rewrite Hf.
  destruct (decide (P h)) as [Hp|Hp].
  - rewrite bool_decide_eq_true_2 by done. by rewrite IH.
  - by rewrite bool_decide_eq_false_2 by done.
Qed.

Lemma clear_spec sticky op r hs : compact r hs ->
  exists r', switch_channel_clear_state_handler sticky op r = Ret r' /\
    compact r' (list_op sticky (ClearHandler op) hs).
Proof.
  intros Hc. unfold switch_channel_clear_state_handler.
  match goal with |- context [keep_handlers ?k _ _ _ _ _] => set (keep := k) end.
  assert (Hk : List.filter (fun h => keep (Some h)) hs = list_op sticky (ClearHandler op) hs).
  { destruct op as [h|]; simpl; apply List_filter_filter; intros x; subst keep; simpl.
    - rewrite bool_decide_not. f_equal. apply bool_decide_ext. split; congruence.
    - by destruct (sticky x). }
  pose proof (compact_length _ _ Hc) as Hl.
  destruct (keep_handlers_spec keep (state_handlers r) (state_handler_index r) 0 no_handlers 0 [])
    as (new & E & L & T); try done.
  { rewrite Hl, (cp_index _ _ Hc). apply (cp_room _ _ Hc). }
  { rewrite (cp_index _ _ Hc). apply (cp_room _ _ Hc). }
  cbn [plus app] in E, T. rewrite drop_0 in E, T.
  assert (Ef : List.filter keep (take (state_handler_index r) (state_handlers r)) =
               map Some (list_op sticky (ClearHandler op) hs)).
  { rewrite (cp_index _ _ Hc), (cp_slots _ _ Hc), take_app_le by (by rewrite length_map).
    rewrite take_ge by (by rewrite length_map). by rewrite filter_map_Some, Hk. }
  rewrite Ef, length_map in E, T. rewrite E. cbn [rbind]. eexists. split; [done|].
  assert (Hle : (length (list_op sticky (ClearHandler op) hs) <= SWITCH_MAX_STATE_HANDLERS)%nat).
  { etrans; [|apply (cp_room _ _ Hc)]. rewrite <- Hk. apply List.filter_length_le. }
  split; cbn [state_handlers state_handler_index]; [|done|done].
  rewrite T. f_equal. apply list_eq. intros i. rewrite lookup_drop, list_lookup_fmap.
  destruct (decide (i < SWITCH_MAX_STATE_HANDLERS - length (list_op sticky (ClearHandler op) hs))%nat) as [Hi|Hi].
  - rewrite lookup_replicate_2 by done.
    destruct (lookup_lt_is_Some_2 (state_handlers r) (length (list_op sticky (ClearHandler op) hs) + i)) as [s Es];
      [lia|]. by rewrite Es.
  - rewrite (proj2 (lookup_ge_None (replicate _ _) _)) by (rewrite length_replicate; lia).
    by rewrite (proj2 (lookup_ge_None (state_handlers r) _)) by lia.
Qed.

Lemma exec_reg_spec sticky op r hs : compact r hs ->
  (length (list_op sticky op hs) < SWITCH_MAX_STATE_HANDLERS)%nat ->
  exists r', exec_reg sticky op r = Ret r' /\ compact r' (list_op sticky op hs).
Proof.
  intros Hc Hl. destruct op as [h|h]; [|by apply clear_spec]. simpl in *.
  destruct (decide (h ∈ hs)) as [Hin|Hin].
  - destruct (add_present r hs h Hc Hin) as (i & -> & _). by exists r.
  - rewrite length_app in Hl. simpl in Hl.
    destruct (register_absent r hs h Hc Hin) as (r' & -> & Hc'); [lia|]. by exists r'.
Qed.

Lemma list_op_nodup sticky op hs : NoDup hs -> NoDup (list_op sticky op hs).
Proof.
  intros Hn. destruct op as [h|[h|]]; simpl; try by apply NoDup_filter.
  destruct (decide (h ∈ hs)); [done|]. apply NoDup_app. split; [done|]. split; [|apply NoDup_singleton].
  by intros x Hx ->%list_elem_of_singleton.
Qed.

(** The core's table. *)
Lemma core_add_spec r hs h : compact r hs -> (length hs < SWITCH_MAX_STATE_HANDLERS)%nat ->
  exists r', switch_core_add_state_handler h r = (Z.of_nat (length hs), r') /\ compact r' (hs ++ [h]).
Proof.
  intros Hc Hl. unfold switch_core_add_state_handler. rewrite (cp_index _ _ Hc).
  rewrite (proj2 (Nat.ltb_ge _ _)) by (unfold SWITCH_MAX_STATE_HANDLERS in *; lia).
  eexists. split; [done|]. by apply compact_snoc.
Qed.

Lemma core_add_full r hs h : compact r hs -> length hs = SWITCH_MAX_STATE_HANDLERS ->
  switch_core_add_state_handler h r = (-1, r).
Proof. intros Hc Hl. unfold switch_core_add_state_handler. by rewrite (cp_index _ _ Hc), Hl. Qed.

(** The first loop empties the slots it passes and puts aside those to keep. *)
Lemma take_out_spec h n : forall index slots tmp k done_,
  (index + n <= length slots)%nat -> (length done_ + n <= length tmp)%nat -> k = length done_ ->
  take k tmp = done_ ->
  let kept := base.filter (fun s => s <> Some h) (take n (drop index slots)) in
  exists slots' tmp', take_out h n index slots tmp k = Ret (slots', tmp', (k + length kept)%nat) /\
    slots' = take index slots ++ replicate n None ++ drop (index + n) slots /\
    take (k + length kept) tmp' = done_ ++ kept.
Proof.
  induction n as [|n IH]; intros index slots tmp k dn Hs Ht -> Hd.
  - exists slots, tmp. cbn [take_out take base.filter list_filter length replicate app].
    rewrite !Nat.add_0_r, app_nil_r, take_drop. by split_and!.
  - destruct (lookup_lt_is_Some_2 slots index ltac:(lia)) as [s Es].
    cbn [take_out]. rewrite Es. cbn [or_ub rbind]. rewrite (drop_S _ _ _ Es). cbn [take]. cbv zeta.
    assert (Hsl : take (S index) (<[index:=None]> slots) ++ replicate n None ++ drop (S index + n) (<[index:=None]> slots)
                  = take index slots ++ replicate (S n) None ++ drop (index + S n) slots).
    { rewrite (take_S_r _ _ None) by (apply list_lookup_insert_eq; lia).
      rewrite take_insert_ge, drop_insert_lt by lia. rewrite <- app_assoc. cbn [replicate app].
      by rewrite Nat.add_succ_r. }
    assert (Hdr : drop (S index) (<[index:=None]> slots) = drop (S index) slots) by (apply drop_insert_lt; lia).
    destruct (decide (s = Some h)) as [E|E].
    + destruct (IH (S index) (<[index:=None]> slots) tmp (length dn) dn) as (sl & tm & E1 & E2 & E3);
        try done; [rewrite length_insert; lia|lia|].
      rewrite Hdr in E1, E3. rewrite filter_cons_False by naive_solver. exists sl, tm. rewrite E1. split_and!; try done.
      by rewrite E2.
    + rewrite (proj2 (Nat.ltb_lt _ _)) by lia. rewrite filter_cons_True by done.
      destruct (IH (S index) (<[index:=None]> slots) (<[length dn := s]> tmp) (S (length dn)) (dn ++ [s]))
        as (sl & tm & E1 & E2 & E3).
      * rewrite length_insert. lia.
      * rewrite length_app, length_insert. simpl. lia.
      * rewrite length_app. simpl. lia.
      * rewrite (take_S_r _ _ s) by (apply list_lookup_insert_eq; lia).
        rewrite take_insert_ge by lia. by rewrite Hd.
      * rewrite Hdr in E1, E3. exists sl, tm. rewrite E1. cbn [length]. rewrite !(Nat.add_succ_r (length dn)).
        rewrite <- app_assoc in E3. split_and!; try done. by rewrite E2.
Qed.

Lemma put_back_spec n : forall index slots tmp,
  (index + n <= length slots)%nat -> (index + n <= length tmp)%nat ->
  put_back n index slots tmp = Ret (take index slots ++ take n (drop index tmp) ++ drop (index + n) slots).
Proof.
  induction n as [|n IH]; intros index slots tmp Hs Ht; cbn [put_back].
  - rewrite take_0, Nat.add_0_r. cbn [app]. by rewrite take_drop.
  - destruct (lookup_lt_is_Some_2 tmp index ltac:(lia)) as [s Es]. rewrite Es. cbn [or_ub rbind].
    rewrite (proj2 (Nat.ltb_lt _ _)) by lia. rewrite IH by (rewrite ?length_insert; lia). f_equal.
    rewrite (drop_S tmp _ _ Es). cbn [take].
    rewrite (take_S_r _ _ s) by (apply list_lookup_insert_eq; lia).
    rewrite take_insert_ge, drop_insert_lt by lia. rewrite <- app_assoc. cbn [app]. by rewrite Nat.add_succ_r.
Qed.

Lemma filter_slots (h : nat) (hs : list nat) :
  base.filter (fun s => s <> Some h) (map Some hs) = map Some (base.filter (fun x => x <> h) hs).
Proof.
  induction hs as [|g hs IH]; [done|]. cbn [map]. rewrite !filter_cons.
  destruct (decide (g = h)) as [->|Hn].
  - rewrite !decide_False by naive_solver. done.
  - rewrite !decide_True by congruence. cbn [map]. by rewrite IH.
Qed.

Lemma core_remove_spec r hs h : compact r hs ->
  exists r', switch_core_remove_state_handler h r = Ret r' /\ compact r' (base.filter (fun x => x <> h) hs).
Proof.
  intros Hc. unfold switch_core_remove_state_handler. pose proof (compact_length _ _ Hc) as Hl.
  pose proof (cp_index _ _ Hc) as Ei. pose proof (cp_room _ _ Hc) as Hr.
  destruct (take_out_spec h (state_handler_index r) 0 (state_handlers r)
    (replicate (SWITCH_MAX_STATE_HANDLERS + 1) None) 0 []) as (slots & tmp & E1 & E2 & E3);
    [lia|rewrite length_replicate; cbn [length]; lia|done|done|].
  rewrite drop_0 in E1, E3. cbn [plus app] in E1, E3.
  assert (Ef : base.filter (fun s => s <> Some h) (take (state_handler_index r) (state_handlers r)) =
               map Some (base.filter (fun x => x <> h) hs)).
  { rewrite Ei, (cp_slots _ _ Hc), take_app_le, take_ge by (by rewrite length_map). apply filter_slots. }
  rewrite Ef, length_map in E1, E3. rewrite E1. cbn [rbind].
  set (kept := base.filter (fun x => x <> h) hs) in *.
  assert (Hk : (length kept <= length hs)%nat) by apply length_filter.
  assert (Es : slots = no_handlers).
  { rewrite E2, take_0, (cp_slots _ _ Hc), Ei. cbn [app]. rewrite Nat.add_0_l.
    rewrite drop_app_length' by (by rewrite length_map). rewrite <- replicate_add. unfold no_handlers. f_equal. lia. }
  assert (Ht : (length kept <= length tmp)%nat).
  { apply (f_equal length) in E3. rewrite length_take, length_map in E3. lia. }
  rewrite put_back_spec; [|rewrite Es; unfold no_handlers; rewrite length_replicate; lia|lia]. cbn [rbind].
  eexists. split; [done|]. rewrite take_0, drop_0, E3, Es. cbn [app]. split; cbn [state_handlers state_handler_index].
  - f_equal. unfold no_handlers. rewrite drop_replicate. done.
  - done.
  - lia.
Qed.

(** ** Claims *)

(** C31: the table of state handlers of a channel is a list without duplicates.
    As long as a channel is never asked for 30 handlers at a time, registering
    appends a handler that is not yet there, clearing one handler takes it out,
    clearing all keeps exactly those marked sticky, the order of registration
    stays, and [switch_channel_get_state_handler] reads the list by index, so
    that a loop over it passes each handler once and stops at the end. *)
Theorem registry_refines (sticky : nat -> bool) (ops : list reg_op) :
  fits sticky ops [] ->
  let hs := fold_left (fun hs op => list_op sticky op hs) ops [] in
  exists r, run_reg sticky ops empty_registry = Ret r /\ NoDup hs /\
    state_handler_index r = length hs /\
    (forall i, switch_channel_get_state_handler r i = hs !! i).
Proof.
  intros Hf. cbv zeta.
  assert (H : forall ops r hs, compact r hs -> NoDup hs -> fits sticky ops hs ->
    exists r', run_reg sticky ops r = Ret r' /\ NoDup (fold_left (fun hs op => list_op sticky op hs) ops hs) /\
      compact r' (fold_left (fun hs op => list_op sticky op hs) ops hs)).
  { clear ops Hf. induction ops as [|op ops IH]; intros r hs Hc Hn Hf; [by exists r|].
    destruct Hf as [Hl Hf]. destruct (exec_reg_spec sticky op r hs Hc Hl) as (r1 & E1 & Hc1).
    cbn [run_reg fold_left]. rewrite E1. cbn [rbind]. apply IH; [done|by apply list_op_nodup|done]. }
  destruct (H ops empty_registry [] compact_empty (NoDup_nil_2) Hf) as (r & E & Hn & Hc).
  exists r. split_and!; try done; [apply Hc|]. intros i. by apply get_handler.
Qed.

Definition demo_reg_ops : list reg_op :=
  [AddHandler 4; AddHandler 7; AddHandler 4; AddHandler 9; ClearHandler (Some 4%nat); AddHandler 4; ClearHandler None].
Lemma registry_refines_witness :
  exists r, run_reg Nat.odd demo_reg_ops empty_registry = Ret r /\ NoDup [7%nat; 9%nat] /\
    state_handler_index r = 2%nat /\ (forall i, switch_channel_get_state_handler r i = [7%nat; 9%nat] !! i).
Proof.
  apply (registry_refines Nat.odd demo_reg_ops).
  unfold demo_reg_ops. cbn [fits]. repeat (split; [vm_compute; lia|]). exact I.
Defined.

(** A full table counts the handlers it refuses: after 29 handlers the next is
    refused although a slot is free, and after two refusals a clearing reads
    behind the table. *)
Definition full_reg_ops : list reg_op := map AddHandler (seq 1 29).
Theorem refused_handlers_are_counted :
  (exists r, run_reg (fun _ => false) full_reg_ops empty_registry = Ret r /\
     state_handlers r !! 29%nat = Some None /\
     switch_channel_add_state_handler 40 r = Ret (-1, mk_registry (state_handlers r) 30)) /\
  run_reg (fun _ => false) (full_reg_ops ++ [AddHandler 40; AddHandler 41; ClearHandler (Some 3%nat)]) empty_registry = Ub.
Proof.
  split; [|vm_compute; reflexivity].
  eexists. split; [vm_compute; reflexivity|]. split; vm_compute; reflexivity.
Qed.

(** After one refusal, clearing leaves a gap, behind which the next handler is
    registered but never found. *)
Theorem handler_behind_a_gap :
  exists r, run_reg (fun _ => false)
      (full_reg_ops ++ [AddHandler 40; ClearHandler (Some 3%nat); ClearHandler (Some 5%nat); AddHandler 50]) empty_registry
      = Ret r /\
    state_handlers r !! 28%nat = Some (Some 50%nat) /\ switch_channel_get_state_handler r 27 = None /\
    (forall i, (i < 27)%nat -> switch_channel_get_state_handler r i <> Some 50%nat).
Proof.
  eexists. split; [vm_compute; reflexivity|]. split; [reflexivity|]. split; [reflexivity|].
  intros i Hi. do 27 (destruct i as [|i]; [discriminate|]). lia.
Qed.
