(* ===== verification/StateMachine.v ===== *)
(** * StateMachine: the thread of a session, src/switch_core_state_machine.c

    [switch_core_session_run] and what it calls: the macro that offers a state
    to the handlers of the channel, of the core and of the endpoint, and the
    handling of hangup, reporting and destruction.  Handlers, the endpoint and
    the calls into other parts of the system are fields of a [world]; they act
    on the whole session, registries of handlers included.  Every call is
    written down in [ss_calls].  The waits of the thread are such calls: what
    other threads did meanwhile is their effect.  The standard handlers are a
    parameter here and defined in StandardHandlers. *)
From S2P Require Import Prelude CoreHash ChannelNames ChannelState StateHandlers TextUtil Separate EventText.
From Stdlib Require Import ZArith Lia Init.Byte.
From stdpp Require Import base numbers option strings list.

Local Open Scope Z_scope.

(** ** Data *)
Definition CF_REDIRECT : Z := 8.
Definition CF_RESET : Z := 28.
Definition CF_REPORTING : Z := 39.
Definition CF_THREAD_SLEEPING : Z := 45.
Definition CF_SIGNAL_BRIDGE_TTL : Z := 48.
Definition CF_EARLY_HANGUP : Z := 53.
Definition CF_ZOMBIE_EXEC : Z := 69.
Definition CF_CONFIRM_BLIND_TRANSFER : Z := 83.
Definition CF_RECOVERING_BRIDGE : Z := 88.
Definition CF_NO_CDR : Z := 91.
Definition CF_STATE_REPEAT : Z := 165.

(** Calls into the rest of the system. *)
Inductive ext_call :=
| RequestVideoRefresh
| GenKeyFrame
| ParseAllMessages
| StateRun
| ParseAllEvents
| CheckSignal
| WaitBlockState
| Yield
| CondWait
| Presence (rpid status : cstring)
| FireChannelEvent (name : cstring)
| SetHangupTime
| MediaBugRemoveAll
| StopBroadcast
| SetTimestamps
| MediaSetStats
| ApiExecute (cmd : cstring) (arg : option cstring) (use_session : bool)
| ProcessDeviceHangup
| ClearDeviceRecord
| WakeVideo
| RecoveryUntrack
| VideoReset
| IvrMedia
| SessionReset
| IvrPark
| BlindTransferResponse (uuid : cstring)
| RecoverBridge
| SortCid.

(** [switch_caller_application_t]: name and argument. *)
Definition application : Type := cstring * cstring.

(** A call the thread made. *)
Inductive call :=
| HandlerCall (core : bool) (h : nat) (st : channel_state)
| DriverCall (st : channel_state)
| StandardCall (st : channel_state)
| AppCall (app : application)
| HuntCall (name : list Z) (arg : option (list Z))
| ExtCall (e : ext_call).

(** [switch_core_session_t], what it reaches in the channel and the caller
    profile, and [runtime.state_handlers].  [ss_applications] are the
    applications an extension has left, by the extension's address, and
    [ss_extensions] the extensions of the caller profile, the newest first. *)
Record session := mk_session {
  ss_channel : channel;
  ss_env : chan_env;
  ss_handlers : registry;
  ss_core_handlers : registry;
  (** SSF_HANGUP and SSF_THREAD_RUNNING *)
  ss_hangup : bool;
  ss_thread_running : bool;
  ss_variable : cstring -> option cstring;
  ss_has_originator : bool;
  ss_has_originatee : bool;
  ss_dialplan : option cstring;
  ss_extensions : list Z;
  ss_applications : Z -> list application;
  ss_calls : list call
}.
#[export] Instance eta_session : Eta session := fun s =>
  mk_session (ss_channel s) (ss_env s) (ss_handlers s) (ss_core_handlers s) (ss_hangup s) (ss_thread_running s)
    (ss_variable s) (ss_has_originator s) (ss_has_originatee s) (ss_dialplan s) (ss_extensions s)
    (ss_applications s) (ss_calls s).

(** A handler returns whether its status is [SWITCH_STATUS_SUCCESS]. *)
Definition handler : Type := session -> res (bool * session).

(** [switch_state_handler_table_t] *)
Record handler_table := mk_table {
  SSH_FLAG_STICKY : bool;
  SSH_FLAG_PRE_EXEC : bool;
  on_state : channel_state -> option handler
}.

Record world := mk_world {
  w_table : nat -> handler_table;
  (** [endpoint_interface->state_handler] *)
  w_driver : channel_state -> option handler;
  w_ext : ext_call -> session -> res session;
  (** [switch_core_standard_on_...] *)
  w_standard : channel_state -> session -> res session;
  (** SCF_EARLY_HANGUP *)
  w_early_hangup : bool
}.

Definition log_call (c : call) (s : session) : session := s <| ss_calls ::= fun l => l ++ [c] |>.
Definition with_channel (f : chan_env -> channel -> res channel) (s : session) : res session :=
  c <-! f (ss_env s) (ss_channel s);; Ret (s <| ss_channel := c |>).
Definition state_of (s : session) : channel_state := ch_state (ss_channel s).
Definition running_state_of (s : session) : channel_state := ch_running_state (ss_channel s).
Definition has_flag (s : session) (f : Z) : bool := switch_channel_test_flag (ss_channel s) f.

Definition set_state (st : channel_state) : session -> res session :=
  with_channel (fun env => switch_channel_perform_set_state env st).
Definition set_running_state (st : channel_state) : session -> res session :=
  with_channel (fun env => switch_channel_perform_set_running_state env st).
Definition set_flag (f : Z) : session -> res session := with_channel (fun env => switch_channel_set_flag env f).
Definition clear_flag (f : Z) : session -> res session := with_channel (fun env => switch_channel_clear_flag env f).
Definition set_callstate (cs : callstate) : session -> res session :=
  with_channel (fun _ c => Ret (switch_channel_perform_set_callstate cs c)).
Definition set_variable (name : String.string) (value : option cstring) : session -> res session :=
  with_channel (fun _ c => Ret (emit (SetVariable (str name) value) c)).
Arguments set_variable name%_string_scope.

(** ** Texts *)
Definition to_Z (s : cstring) : list Z := map byte_Z (cstr s).
Definition to_cstring (s : list Z) : cstring := map (fun c => default Byte.x00 (Byte.of_N (Z.to_N c))) s.
Definition strcasecmp_eq (s : cstring) (t : String.string) : bool := switch_hash_equalkeys_ci s (str t).
Arguments strcasecmp_eq s t%_string_scope.

(** [atoi] of a text of which [switch_is_number] is true. *)
Definition atoi_number (s : cstring) : res Z :=
  match s with
  | c :: r =>
    if byte_Z c =? 45
    then let v := atoi_digits r 0 in if v <=? 2147483648 then Ret (- v) else Ub
    else atoi (if byte_Z c =? 43 then r else s)
  | [] => Ret 0
  end.
Definition switch_true (expr : option cstring) : res bool :=
  match expr with
  | None => Ret false
  | Some e =>
    if strcasecmp_eq e "yes" || strcasecmp_eq e "on" || strcasecmp_eq e "true" || strcasecmp_eq e "t"
       || strcasecmp_eq e "enabled" || strcasecmp_eq e "active" || strcasecmp_eq e "allow" then Ret true
    else if switch_is_number (to_Z e) then v <-! atoi_number (cstr e);; Ret (negb (v =? 0)) else Ret false
  end.

(** The text before and behind the first [c]. *)
Fixpoint strchr (c : Z) (s : cstring) : option (cstring * cstring) :=
  match s with
  | [] => None
  | b :: s => if byte_Z b =? c then Some ([], s) else match strchr c s with Some (l, r) => Some (b :: l, r) | None => None end
  end.
Definition zstr (s : option cstring) : bool := match s with Some s => bool_decide (cstr s = []) | None => true end.

Section Machine.
Context (w : world).

Definition ext (e : ext_call) (s : session) : res session := w_ext w e (log_call (ExtCall e) s).

(** ** STATE_MACRO *)
Definition get_handler_at (core : bool) (s : session) (index : nat) : option nat :=
  if core then switch_core_get_state_handler (ss_core_handlers s) index
  else switch_channel_get_state_handler (ss_handlers s) index.

(** The four loops of the macro: over the handlers of the channel or of the
    core, over those with or without [SSH_FLAG_PRE_EXEC].  The loops over the
    core's handlers also test [proceed].  The lookup fails from index 30 on. *)
Fixpoint handlers_loop (fuel : nat) (core pre : bool) (st : channel_state) (index : nat) (proceed : Z) (s : session)
    : res (Z * session) :=
  match fuel with
  | O => Ret (proceed, s)
  | S fuel =>
    if core && (proceed =? 0) then Ret (proceed, s)
    else match get_handler_at core s index with
    | None => Ret (proceed, s)
    | Some h =>
      if negb (Bool.eqb (SSH_FLAG_PRE_EXEC (w_table w h)) pre) then handlers_loop fuel core pre st (S index) proceed s
      else match on_state (w_table w h) st with
      | None => handlers_loop fuel core pre st (S index) (proceed + 1) s
      | Some f =>
        '(ok, s) <-! f (log_call (HandlerCall core h st) s);;
        if (ok : bool) then handlers_loop fuel core pre st (S index) (proceed + 1) s else Ret (0, s)
      end
    end
  end.
Definition extra_handlers (do_extra_handlers core pre : bool) (st : channel_state) (proceed : Z) (s : session)
    : res (Z * session) :=
  if do_extra_handlers then handlers_loop (S SWITCH_MAX_STATE_HANDLERS) core pre st 0 proceed s else Ret (proceed, s).

Definition call_driver (st : channel_state) (s : session) : res (bool * session) :=
  match w_driver w st with
  | None => Ret (true, s)
  | Some f => f (log_call (DriverCall st) s)
  end.

(** [STATE_MACRO(st)], with the caller's [state] and [do_extra_handlers]. *)
Definition STATE_MACRO (st state : channel_state) (do_extra_handlers : bool) (s : session) : res session :=
  let midstate := state in
  s <-! (if (cs_num state <? cs_num CS_HANGUP) && bool_decide (ch_callstate (ss_channel s) = CCS_UNHELD)
         then set_callstate CCS_ACTIVE s else Ret s);;
  s <-! ext RequestVideoRefresh s;;
  s <-! ext GenKeyFrame s;;
  '(proceed, s) <-! extra_handlers do_extra_handlers false true st 1 s;;
  let global_proceed := negb (proceed =? 0) in
  '(proceed, s) <-! extra_handlers do_extra_handlers true true st 1 s;;
  let global_proceed := global_proceed && negb (proceed =? 0) in
  '(ok, s) <-! call_driver st s;;
  if (ok : bool) then
    '(proceed, s) <-! extra_handlers do_extra_handlers false false st proceed s;;
    let global_proceed := global_proceed && negb (proceed =? 0) in
    '(proceed, s) <-! extra_handlers do_extra_handlers true false st 1 s;;
    let global_proceed := global_proceed && negb ((proceed =? 0) || negb (bool_decide (midstate = state_of s))) in
    if global_proceed then w_standard w st (log_call (StandardCall st) s) else Ret s
  else Ret s.

(** ** Hooks *)
Definition api_hook (hook_var : cstring) (use_session : bool) (s : session) : res session :=
  if zstr (Some hook_var) then Ret s
  else
    let hook := cstr hook_var in
    let '(cmd, arg) :=
      match strchr 58 hook with
      | Some (l, c :: r) => if byte_Z c =? 58 then (l, Some r)
                            else match strchr 32 hook with Some (l, r) => (l, Some r) | None => (hook, None) end
      | _ => match strchr 32 hook with Some (l, r) => (l, Some r) | None => (hook, None) end
      end in
    ext (ApiExecute cmd arg use_session) s.

(** The hook named by a variable, at hangup and at reporting. *)
Definition run_hook (name : String.string) (s : session) : res session :=
  match ss_variable s (str name) with
  | None => Ret s
  | Some hook_var =>
    use_session <-! switch_true (ss_variable s (str "session_in_hangup_hook"));;
    api_hook hook_var use_session s
  end.
Arguments run_hook name%_string_scope.

(** ** Hangup *)

(** The part of [switch_core_session_hangup_state] behind its guards. *)
Definition hangup_steps (s : session) : res session :=
  let cause := ch_hangup_cause (ss_channel s) in
  let cause_q850 := switch_channel_cause_q850 cause in
  let state := state_of s in
  s <-! ext SetHangupTime s;;
  s <-! ext MediaBugRemoveAll s;;
  s <-! ext StopBroadcast s;;
  s <-! set_variable "hangup_cause" (Some (switch_channel_cause2str cause)) s;;
  s <-! set_variable "hangup_cause_q850" (Some (to_cstring (decimal cause_q850))) s;;
  s <-! ext SetTimestamps s;;
  s <-! set_callstate CCS_HANGUP s;;
  s <-! STATE_MACRO CS_HANGUP state true s;;
  s <-! ext MediaSetStats s;;
  s <-! run_hook "api_hangup_hook" s;;
  ext ProcessDeviceHangup s.

Definition switch_core_session_hangup_state (force : bool) (s : session) : res session :=
  if negb force && negb (has_flag s CF_EARLY_HANGUP) && negb (w_early_hangup w) then Ret s
  else if negb force && negb (in_thread (ss_env s)) then Ret s
  else if ss_hangup s then Ret s
  else
    s <-! hangup_steps s;;
    Ret (s <| ss_hangup := true |>).

(** [switch_channel_hangup]: the channel's part, and when it hung up the
    channel the session's, which it calls last. *)
Definition is_hangup_state (e : chan_fx) : bool := match e with HangupState => true | _ => false end.
Definition hangups (c : channel) : nat := length (List.filter is_hangup_state (ch_fx c)).
Definition switch_channel_hangup (cause : Z) (s : session) : res session :=
  let before := hangups (ss_channel s) in
  s <-! with_channel (fun env => switch_channel_perform_hangup env cause) s;;
  if (before <? hangups (ss_channel s))%nat then switch_core_session_hangup_state false s else Ret s.

(** ** Reporting *)
Fixpoint names_cause (l : list (list Z)) (cause : Z) : res bool :=
  match l with
  | [] => Ret false
  | x :: l => c <-! switch_channel_str2cause (Some (to_cstring x));; if c =? cause then Ret true else names_cause l cause
  end.

(** Whether the handlers of the channel and of the core report the call. *)
Definition reporting_wanted (s : session) : res bool :=
  let var := ss_variable s (str "process_cdr") in
  by_var <-! (if zstr var then Ret true
              else let v := default [] var in
              if strcasecmp_eq v "a_only" then Ret (negb (ss_has_originator s))
              else if strcasecmp_eq v "b_only" then Ret (negb (ss_has_originatee s))
              else switch_true var);;
  let skip_var := ss_variable s (str "skip_cdr_causes") in
  skipped <-! (if zstr skip_var then Ret false
               else l <-! switch_separate_string (to_Z (default [] skip_var)) 124 128;;
                    names_cause l (ch_hangup_cause (ss_channel s)));;
  Ret (by_var && negb skipped && negb (has_flag s CF_NO_CDR)).

Definition switch_core_session_reporting_state (s : session) : res session :=
  let state := state_of s in
  if has_flag s CF_REPORTING then Ret s
  else
    s <-! set_flag CF_REPORTING s;;
    do_extra_handlers <-! reporting_wanted s;;
    s <-! STATE_MACRO CS_REPORTING state do_extra_handlers s;;
    s <-! run_hook "api_reporting_hook" s;;
    ext (FireChannelEvent (str "CHANNEL_HANGUP_COMPLETE")) s.

(** ** Destruction *)
Definition switch_core_session_destroy_state (s : session) : res session :=
  s <-! set_callstate CCS_DOWN s;;
  s <-! set_running_state CS_DESTROY s;;
  s <-! clear_flag CF_TRANSFER s;;
  s <-! clear_flag CF_REDIRECT s;;
  s <-! STATE_MACRO CS_DESTROY CS_DESTROY true s;;
  ext ClearDeviceRecord s.

(** ** The thread of the session *)
Definition check_presence (s : session) : res session :=
  let state := running_state_of s in
  if bool_decide (state = CS_ROUTING \/ state = CS_HANGUP) then
    if ch_hangup_cause (ss_channel s) =? SWITCH_CAUSE_LOSE_RACE then
      s <-! ext (Presence (str "unknown") (str "cancelled")) s;;
      set_variable "presence_call_info" None s
    else
      name <-! switch_channel_state_name state;;
      ext (Presence (str "unknown") name) s
  else Ret s.

(** The body of the switch: whether the thread ends, and the session. *)
Definition run_state (state : channel_state) (s : session) : res (bool * session) :=
  match state with
  | CS_NEW => Ret (false, s)
  | CS_DESTROY => Ret (true, s)
  | CS_REPORTING =>
    s <-! switch_core_session_reporting_state s;;
    s <-! set_state CS_DESTROY s;;
    Ret (true, s)
  | CS_HANGUP =>
    s <-! switch_core_session_hangup_state true s;;
    s <-! (if has_flag s CF_VIDEO then ext WakeVideo s else Ret s);;
    s <-! set_state CS_REPORTING s;;
    Ret (false, s)
  | CS_INIT =>
    s <-! STATE_MACRO CS_INIT state true s;;
    s <-! ext (FireChannelEvent (str "CHANNEL_CREATE")) s;;
    s <-! (if bool_decide (ch_direction (ss_channel s) = SWITCH_CALL_DIRECTION_OUTBOUND)
           then ext (FireChannelEvent (str "CHANNEL_ORIGINATE")) s else Ret s);;
    Ret (false, s)
  | CS_ROUTING | CS_RESET | CS_EXECUTE | CS_EXCHANGE_MEDIA | CS_SOFT_EXECUTE | CS_PARK | CS_CONSUME_MEDIA
  | CS_HIBERNATE =>
    s <-! STATE_MACRO state state true s;; Ret (false, s)
  | CS_NONE => Abort
  end.

(** The part of a round that enters a state. *)
Definition enter_state (state : channel_state) (s : session) : res (bool * session) :=
  s <-! set_running_state state s;;
  s <-! clear_flag CF_TRANSFER s;;
  s <-! clear_flag CF_REDIRECT s;;
  s <-! ext ParseAllMessages s;;
  s <-! ext StateRun s;;
  '(ended, s) <-! run_state state s;;
  if (ended : bool) then Ret (true, s)
  else s <-! check_presence s;; Ret (false, s).

(** The part of a round that waits for something to do. *)
Definition idle (new_loops : Z) (s : session) : res (Z * session) :=
  let endstate := state_of s in
  if decide (endstate = running_state_of s) then
    if decide (endstate = CS_NEW) then
      s <-! ext Yield s;;
      s <-! ext ParseAllEvents s;;
      let new_loops := u32 (new_loops - 1) in
      if new_loops =? 0 then
        s <-! set_flag CF_NO_CDR s;;
        s <-! switch_channel_hangup SWITCH_CAUSE_WRONG_CALL_STATE s;;
        Ret (new_loops, s)
      else Ret (new_loops, s)
    else
      s <-! ext ParseAllEvents s;;
      s <-! (if has_flag s CF_STATE_REPEAT then clear_flag CF_STATE_REPEAT s
             else if decide (state_of s = running_state_of s) then
               s <-! set_flag CF_THREAD_SLEEPING s;;
               s <-! ext CondWait s;;
               clear_flag CF_THREAD_SLEEPING s
             else Ret s);;
      s <-! ext ParseAllEvents s;;
      Ret (new_loops, s)
  else Ret (new_loops, s).

(** One round of the loop, behind the wait for [CF_BLOCK_STATE]: whether it ends
    the loop, and what is left of [new_loops]. *)
Definition round_body (new_loops : Z) (s : session) : res (bool * Z * session) :=
  let state := state_of s in
  if decide (state = CS_DESTROY) then Ret (true, new_loops, s)
  else
    '(ended, s) <-! (if negb (bool_decide (state = running_state_of s)) || (cs_num state >=? cs_num CS_HANGUP)
                     then enter_state state s else Ret (false, s));;
    if (ended : bool) then Ret (true, new_loops, s)
    else '(new_loops, s) <-! idle new_loops s;; Ret (false, new_loops, s).
Definition run_round (new_loops : Z) (s : session) : res (bool * Z * session) :=
  if decide (state_of s = CS_DESTROY) then Ret (true, new_loops, s)
  else
    s <-! (if has_flag s CF_BLOCK_STATE then ext WaitBlockState s else Ret s);;
    round_body new_loops s.

(** At most [fuel] rounds: whether the loop ended. *)
Fixpoint run_loop (fuel : nat) (new_loops : Z) (s : session) : res (bool * session) :=
  match fuel with
  | O => Ret (false, s)
  | S fuel =>
    '(ended, new_loops, s) <-! run_round new_loops s;;
    if (ended : bool) then Ret (true, s) else run_loop fuel new_loops s
  end.

Definition switch_core_session_run (fuel : nat) (s : session) : res (bool * session) :=
  '(ended, s) <-! run_loop fuel 500 (s <| ss_thread_running := true |>);;
  Ret (ended, if (ended : bool) then s <| ss_thread_running := false |> else s).
End Machine.
