(* ===== verification/StateMachineProps.v ===== *)
(** * StateMachineProps: what the thread of a session does

    The macro that offers a state to the handlers is equal to a traversal of the
    lists of handlers; a session that hung up is taken down to [CS_DESTROY] in
    two rounds, with the endpoint's hangup handler called once; and a session
    nobody instructs is abandoned after 500 rounds and ends too. *)
From S2P Require Import Prelude CoreHash ChannelNames ChannelState ChannelLife StateHandlers StateMachine Separate.
From Stdlib Require Import ZArith Lia Init.Byte.
From stdpp Require Import base numbers option strings list.

Local Open Scope Z_scope.

(** ** Traversal of the handlers *)
Section Dispatch.
Context (w : world).

(** The handlers [hs] are offered the state one after the other; the first that
    fails ends it. *)
Fixpoint offer (core : bool) (st : channel_state) (hs : list nat) (s : session) : res (bool * session) :=
  match hs with
  | [] => Ret (true, s)
  | h :: hs =>
    match on_state (w_table w h) st with
    | None => offer core st hs s
    | Some f =>
      '(ok, s) <-! f (log_call (HandlerCall core h st) s);;
      if (ok : bool) then offer core st hs s else Ret (false, s)
    end
  end.

Definition pre_exec (h : nat) : bool := SSH_FLAG_PRE_EXEC (w_table w h).
Definition early (hs : list nat) : list nat := List.filter pre_exec hs.
Definition late (hs : list nat) : list nat := List.filter (fun h => negb (pre_exec h)) hs.

(** What the macro amounts to for handlers [hs] of the channel and [ks] of the
    core. *)
Definition offer_state (st state : channel_state) (hs ks : list nat) (s : session) : res session :=
  s <-! (if (cs_num state <? cs_num CS_HANGUP) && bool_decide (ch_callstate (ss_channel s) = CCS_UNHELD)
         then set_callstate CCS_ACTIVE s else Ret s);;
  s <-! ext w RequestVideoRefresh s;;
  s <-! ext w GenKeyFrame s;;
  '(ok1, s) <-! offer false st (early hs) s;;
  '(ok2, s) <-! offer true st (early ks) s;;
  '(ok, s) <-! call_driver w st s;;
  if (ok : bool) then
    '(ok3, s) <-! offer false st (late hs) s;;
    '(ok4, s) <-! offer true st (late ks) s;;
    if ok1 && ok2 && ok3 && ok4 && bool_decide (state_of s = state)
    then w_standard w st (log_call (StandardCall st) s) else Ret s
  else Ret s.

(** The two tables of handlers. *)
Definition tables (s : session) : registry * registry := (ss_handlers s, ss_core_handlers s).

(** No handler, no call and not the endpoint registers or clears a handler. *)
Class keeps_tables : Prop := {
  kt_table h st f s a s' : on_state (w_table w h) st = Some f -> f s = Ret (a, s') -> tables s' = tables s;
  kt_driver st f s a s' : w_driver w st = Some f -> f s = Ret (a, s') -> tables s' = tables s;
  kt_ext e s s' : w_ext w e s = Ret s' -> tables s' = tables s
}.

Context `{Hkeep : keeps_tables}.

Lemma tables_log c s : tables (log_call c s) = tables s.
Proof. done. Qed.

Lemma tables_ext e s s' : ext w e s = Ret s' -> tables s' = tables s.
Proof. unfold ext. intros E%kt_ext. by rewrite tables_log in E. Qed.

Lemma tables_driver st s a s' : call_driver w st s = Ret (a, s') -> tables s' = tables s.
Proof.
  unfold call_driver. destruct (w_driver w st) as [f|] eqn:Ef.
  - intros E%(kt_driver _ _ _ _ _ Ef). by rewrite tables_log in E.
  - intros [= _ <-]. done.
Qed.

Lemma tables_offer core st hs s a s' : offer core st hs s = Ret (a, s') -> tables s' = tables s.
Proof.
  revert s. induction hs as [|h hs IH]; intros s; simpl; [by intros [= _ <-]|].
  destruct (on_state (w_table w h) st) as [f|] eqn:Ef; [|apply IH].
  intros ([ok s1] & E1 & E2)%rbind_Ret. apply (kt_table _ _ _ _ _ _ Ef) in E1. rewrite tables_log in E1.
  destruct ok; [|injection E2 as _ <-; done]. rewrite <- E1. by apply IH.
Qed.

(** Both tables hold exactly these handlers. *)
Definition registered (hs ks : list nat) (s : session) : Prop :=
  compact (ss_handlers s) hs /\ compact (ss_core_handlers s) ks.

Lemma registered_eq hs ks s s' : tables s' = tables s -> registered hs ks s -> registered hs ks s'.
Proof. unfold registered. intros [= -> ->]. done. Qed.

(** The verdict as the macro's counter. *)
Definition tally (n : Z) (r : res (bool * session)) : res (Z * session) :=
  rbind r (fun x => Ret (if fst x then n else 0, snd x)).

(** One of the loops of the macro, from [index]: it offers the state to the
    handlers with the wanted flag, and [proceed] is zero when one refused. *)
Lemma handlers_loop_spec (hs ks : list nat) (core pre : bool) st fuel : forall index proceed s,
  registered hs ks s -> (length (if (core : bool) then ks else hs) < index + fuel)%nat ->
  0 <= proceed -> (core = true -> 0 < proceed) ->
  let left := List.filter (fun h => Bool.eqb (pre_exec h) pre) (drop index (if core then ks else hs)) in
  handlers_loop w fuel core pre st index proceed s = tally (proceed + zlen left) (offer core st left s).
Proof.
  unfold zlen, tally. induction fuel as [|fuel IH]; intros index proceed s Hr Hf Hp Hc; cbn [handlers_loop].
  - rewrite drop_ge by lia. simpl. by rewrite Z.add_0_r.
  - assert (Ec : core && (proceed =? 0) = false).
    { destruct core; [|done]. specialize (Hc eq_refl). by destruct (Z.eqb_spec proceed 0); [lia|]. }
    rewrite Ec. assert (Hg : get_handler_at core s index = (if core then ks else hs) !! index).
    { destruct Hr as [H1 H2]. destruct core; [by apply core_get_handler|by apply get_handler]. }
    rewrite Hg. destruct ((if core then ks else hs) !! index) as [h|] eqn:Eh.
    + rewrite (drop_S _ _ _ Eh). cbn [List.filter]. fold (pre_exec h).
      destruct (Bool.eqb (pre_exec h) pre); cbn [negb]; [|apply IH; [done|lia|lia|done]].
      cbn [offer length]. rewrite Nat2Z.inj_succ, <- Z.add_1_l, Z.add_assoc.
      destruct (on_state (w_table w h) st) as [f|] eqn:Ef; [|apply IH; [done|lia|lia|intros; lia]].
      destruct (f (log_call (HandlerCall core h st) s)) as [[ok s1]| |] eqn:E1; [|done|done]. cbn [rbind].
      destruct ok; [|done]. apply IH; [eapply registered_eq; [|exact Hr]|lia|lia|intros; lia].
      apply (kt_table _ _ _ _ _ _ Ef) in E1. by rewrite tables_log in E1.
    + apply lookup_ge_None in Eh. rewrite drop_ge by lia. simpl. by rewrite Z.add_0_r.
Qed.

Lemma filter_early hs : List.filter (fun h => Bool.eqb (pre_exec h) true) hs = early hs.
Proof. apply List.filter_ext. intros h. by destruct (pre_exec h). Qed.
Lemma filter_late hs : List.filter (fun h => Bool.eqb (pre_exec h) false) hs = late hs.
Proof. apply List.filter_ext. intros h. by destruct (pre_exec h). Qed.

(** A whole loop, and then what follows it. *)
Lemma extra_handlers_spec {A : Type} (hs ks : list nat) (core pre : bool) st proceed s (k : Z -> session -> res A) :
  registered hs ks s -> 0 <= proceed -> (core = true -> 0 < proceed) ->
  let left := (if pre then early else late) (if core then ks else hs) in
  ('(p, s') <-! extra_handlers w true core pre st proceed s;; k p s') =
  ('(ok, s') <-! offer core st left s;; k (if (ok : bool) then proceed + zlen left else 0) s').
Proof.
  intros Hr Hp Hc. cbv zeta. unfold extra_handlers.
  rewrite (handlers_loop_spec hs ks core pre st _ 0 proceed s Hr); [|destruct Hr as [H1 H2]|done|done].
  - rewrite drop_0. unfold tally. destruct pre; rewrite ?filter_early, ?filter_late;
      by destruct (offer _ _ _ _) as [[[] s1]| |].
  - destruct core; [pose proof (cp_room _ _ H2)|pose proof (cp_room _ _ H1)]; lia.
Qed.

Lemma rbind_ext {A B} (m : res A) (k1 k2 : A -> res B) :
  (forall a, m = Ret a -> k1 a = k2 a) -> rbind m k1 = rbind m k2.
Proof. destruct m; simpl; auto. Qed.

(** The macro offers a state to the handlers of the channel and of the core
    that are [hs] and [ks]. *)
Lemma state_macro_eq st state hs ks s : registered hs ks s ->
  STATE_MACRO w st state true s = offer_state st state hs ks s.
Proof.
  intros Hr. unfold STATE_MACRO, offer_state.
  apply rbind_ext. intros s0 E0. assert (T0 : tables s0 = tables s).
  { destruct (_ && _); [unfold set_callstate, with_channel in E0; simpl in E0|]; by injection E0 as <-. }
  apply rbind_ext. intros s1 T1%tables_ext. apply rbind_ext. intros s2 T2%tables_ext.
  assert (R2 : registered hs ks s2) by (eapply registered_eq; [|exact Hr]; congruence).
  rewrite (extra_handlers_spec hs ks false true st 1 s2) by (done || lia).
  apply rbind_ext. intros [ok1 s3] T3%tables_offer.
  assert (R3 : registered hs ks s3) by (by eapply registered_eq).
  rewrite (extra_handlers_spec hs ks true true st 1 s3) by (done || lia).
  apply rbind_ext. intros [ok2 s4] T4%tables_offer.
  assert (R4 : registered hs ks s4) by (by eapply registered_eq).
  apply rbind_ext. intros [ok s5] T5%tables_driver.
  assert (R5 : registered hs ks s5) by (by eapply registered_eq).
  destruct ok; [|done]. pose proof (zlen_nonneg (early hs)). pose proof (zlen_nonneg (early ks)).
  pose proof (zlen_nonneg (late hs)). pose proof (zlen_nonneg (late ks)).
  rewrite (extra_handlers_spec hs ks false false st _ s5); [|done|destruct ok2; lia|done].
  apply rbind_ext. intros [ok3 s6] T6%tables_offer.
  assert (R6 : registered hs ks s6) by (by eapply registered_eq).
  rewrite (extra_handlers_spec hs ks true false st 1 s6) by (done || lia).
  apply rbind_ext. intros [ok4 s7] T7%tables_offer.
  match goal with |- (if ?a then _ else _) = (if ?b then _ else _) => assert (Eab : a = b); [|by rewrite Eab] end.
  rewrite (bool_decide_ext (state = state_of s7) (state_of s7 = state)) by (split; congruence).
  destruct ok1, ok2, ok3, ok4; cbn [andb negb orb]; repeat match goal with
    | |- context [?x =? 0] => destruct (Z.eqb_spec x 0); [lia|] end; cbn [andb negb orb]; try done;
    try by rewrite ?andb_false_r.
  apply negb_involutive.
Qed.
End Dispatch.

(** ** Taking a session down *)

(** How often the endpoint's handler for [st] was called. *)
Definition is_driver (st : channel_state) (c : call) : bool :=
  match c with DriverCall st' => bool_decide (st' = st) | _ => false end.
Definition driven (st : channel_state) (s : session) : nat := length (List.filter (is_driver st) (ss_calls s)).

(** The applications that were executed. *)
Definition app_of (c : call) : list application := match c with AppCall a => [a] | _ => [] end.
Definition apps_called (s : session) : list application := flat_map app_of (ss_calls s).

(** The variables read at the end of a session hold no number [atoi] is
    undefined for. *)
Record readable (s : session) : Prop := {
  rd_session : is_ret (switch_true (ss_variable s (str "session_in_hangup_hook")));
  rd_stats : is_ret (switch_true (ss_variable s (str "log_audio_stats_on_hangup")));
  rd_process : is_ret (switch_true (ss_variable s (str "process_cdr")));
  rd_skip cause : is_ret (l <-! switch_separate_string (to_Z (default [] (ss_variable s (str "skip_cdr_causes")))) 124 128;;
                          names_cause l cause)
}.

(** A session that hung up. *)
Record going (s : session) : Prop := {
  go_settled : settled (ss_channel s);
  go_down : down (state_of s);
  go_readable : readable s
}.

(** From [s] to [s'] the channel went by channel operations only; [SSF_HANGUP]
    was not touched, the variables stayed readable, and the endpoint's handlers
    were not called. *)
Record stepped (s s' : session) : Prop := {
  sp_ops : exists ops, life_ok ops /\ run_life ops (ss_channel s) = Ret (ss_channel s');
  sp_hangup : ss_hangup s' = ss_hangup s;
  sp_readable : readable s';
  sp_calls : exists l, ss_calls s' = ss_calls s ++ l /\ Forall (fun c => forall st, is_driver st c = false) l
}.

(** The function returns for a session that hung up, and does just this. *)
Definition by_channel_ops {A} (f : session -> res A) (out : A -> session) : Prop :=
  forall s, going s -> exists a, f s = Ret a /\ stepped s (out a).

(** Handlers, endpoint, other calls and standard handlers, when a session has
    hung up. *)
Class channel_client (w : world) : Prop := {
  cc_table h st f : on_state (w_table w h) st = Some f -> by_channel_ops f snd;
  cc_driver st f : w_driver w st = Some f -> by_channel_ops f snd;
  cc_ext e : by_channel_ops (w_ext w e) id;
  cc_standard st : down st -> st <> CS_NONE -> by_channel_ops (w_standard w st) id
}.

(** From [s] to [s'] a session that hung up did not come back; the endpoint was
    called [n] times for [st] and for no other state. *)
Record onward (st : channel_state) (n : nat) (s s' : session) : Prop := {
  on_settled : settled (ss_channel s');
  on_mono : cs_num (state_of s) <= cs_num (state_of s');
  on_hangup : ss_hangup s' = ss_hangup s;
  on_readable : readable s';
  on_cause : ch_hangup_cause (ss_channel s') = ch_hangup_cause (ss_channel s);
  on_log : ss_calls s `prefix_of` ss_calls s';
  on_driven : forall st', driven st' s' = (driven st' s + if decide (st' = st) then n else 0)%nat
}.

Lemma going_onward st n s s' : going s -> onward st n s s' -> going s'.
Proof. intros [_ Hd _] [H1 H2 _ H3 _ _ _]. split; [done| |done]. unfold down in *. lia. Qed.

Lemma onward_refl st s : going s -> onward st 0 s s.
Proof. intros [Hs _ Hr]. split; [done|lia|done|done|done|done|]. intros st'. destruct (decide _); lia. Qed.

Lemma onward_trans st n m s1 s2 s3 : onward st n s1 s2 -> onward st m s2 s3 -> onward st (n + m) s1 s3.
Proof.
  intros [A1 A2 A3 A4 A5 A7 A6] [B1 B2 B3 B4 B5 B7 B6]. split; [done|lia|congruence|done|congruence|by etrans|].
  intros st'. rewrite B6, A6. destruct (decide _); lia.
Qed.

Lemma driven_log st c s : driven st (log_call c s) = (driven st s + if is_driver st c then 1 else 0)%nat.
Proof.
  unfold driven, log_call. simpl. rewrite List.filter_app, length_app. simpl. by destruct (is_driver st c).
Qed.

Lemma apps_log c s : apps_called (log_call c s) = apps_called s ++ app_of c.
Proof. unfold apps_called, log_call. simpl. rewrite flat_map_app. simpl. by rewrite app_nil_r. Qed.

Lemma onward_log st c s : going s -> (forall st', is_driver st' c = false) -> onward st 0 s (log_call c s).
Proof.
  intros [Hs _ Hr] Hc. split; [done|done|done|by destruct Hr|done|by apply prefix_app_r|]. intros st'. rewrite driven_log, Hc. destruct (decide _); lia.
Qed.

Lemma going_log c s : going s -> going (log_call c s).
Proof. intros [Hs Hd Hr]. split; [done|done|by destruct Hr]. Qed.

Lemma onward_driver st s : going s -> onward st 1 s (log_call (DriverCall st) s).
Proof.
  intros [Hs _ Hr]. split; [done|done|done|by destruct Hr|done|by apply prefix_app_r|]. intros st'. rewrite driven_log. simpl.
  destruct (decide (st' = st)) as [->|Hn]; [by rewrite bool_decide_eq_true_2|].
  rewrite bool_decide_eq_false_2 by congruence. lia.
Qed.

(** A function takes a session onward: it returns. *)
Definition moves {A} (st : channel_state) (n : nat) (s : session) (m : res A) (out : A -> session) : Prop :=
  exists a, m = Ret a /\ onward st n s (out a).

Lemma moves_bind {A B} st n m s (x : res A) (k : A -> res B) out out' :
  going s -> moves st n s x out -> (forall a, x = Ret a -> going (out a) -> moves st m (out a) (k a) out') ->
  moves st (n + m) s (rbind x k) out'.
Proof.
  intros Hg (a & E & Ho) Hk. destruct (Hk a E (going_onward _ _ _ _ Hg Ho)) as (b & Eb & Hb).
  exists b. rewrite E. split; [done|]. by eapply onward_trans.
Qed.

Lemma moves_ret {A} st s (a : A) out : going s -> out a = s -> moves st 0 s (Ret a) out.
Proof. intros Hg Ho. exists a. split; [done|]. rewrite Ho. by apply onward_refl. Qed.

Lemma driven_app st s s' l : ss_calls s' = ss_calls s ++ l -> Forall (fun c => forall st, is_driver st c = false) l ->
  driven st s' = driven st s.
Proof.
  intros E Hl. unfold driven. rewrite E, List.filter_app, length_app.
  rewrite (List.filter_ext_in _ (fun _ => false)) with (l := l).
  - clear E. induction l as [|c l IH]; simpl; [lia|]. apply IH. by inversion Hl.
  - intros c Hc%list_elem_of_In. rewrite Forall_forall in Hl. by apply Hl.
Qed.

Lemma stepped_onward st s s' : going s -> stepped s s' -> onward st 0 s s'.
Proof.
  intros [Hs Hd _] [(ops & Hok & E) Hh Hr (l & El & Hl)].
  destruct (run_down ops (ss_channel s) Hs Hd Hok) as (c & E' & Hset & Hle & Hca & _).
  rewrite E in E'. injection E' as <-.
  split; [done|done|done|done|done|rewrite El; by apply prefix_app_r|].
  intros st'. rewrite (driven_app st' s s' l El Hl). destruct (decide _); lia.
Qed.

Lemma stepped_refl s : readable s -> stepped s s.
Proof.
  intros Hr. split; [by exists []; split; [constructor|]|done|done|].
  exists []. split; [by rewrite app_nil_r|constructor].
Qed.

Lemma run_life_app ops1 ops2 c : run_life (ops1 ++ ops2) c = rbind (run_life ops1 c) (run_life ops2).
Proof.
  revert c. induction ops1 as [|[env op] ops1 IH]; intros c; simpl; [done|].
  destruct (exec_life env op c); simpl; [apply IH|done|done].
Qed.

Lemma stepped_trans s1 s2 s3 : stepped s1 s2 -> stepped s2 s3 -> stepped s1 s3.
Proof.
  intros [(o1 & K1 & E1) H1 R1 (l1 & L1 & F1)] [(o2 & K2 & E2) H2 R2 (l2 & L2 & F2)]. split.
  - exists (o1 ++ o2). split; [by apply Forall_app|]. rewrite run_life_app, E1. exact E2.
  - congruence.
  - done.
  - exists (l1 ++ l2). split; [by rewrite L2, L1, app_assoc|]. by apply Forall_app.
Qed.

(** An operation on the channel. *)
Lemma channel_stepped op s : going s -> chan_op_ok op ->
  exists s', with_channel (fun env => exec_chan env op) s = Ret s' /\ stepped s s'.
Proof.
  intros [Hs Hd Hr] Hop. unfold with_channel.
  destruct (exec_steady (ss_env s) op (ss_channel s) Hs Hop) as [(c & E & Hc)|[_ Hl]];
    [|unfold state_of, live, down in *; lia].
  rewrite E. cbn [rbind]. eexists. split; [done|]. split.
  - exists [(ss_env s, Op op)]. split; [by repeat constructor|]. simpl. by rewrite E.
  - done.
  - by destruct Hr.
  - exists []. split; [by rewrite app_nil_r|constructor].
Qed.

Lemma client_moves {A} st n s s0 (f : session -> res A) out :
  by_channel_ops f out -> going s -> onward st n s0 s -> moves st n s0 (f s) out.
Proof.
  intros Hf Hg Ho. destruct (Hf s Hg) as (a & Ea & Hstep). exists a. split; [done|].
  replace n with (n + 0)%nat by lia. eapply onward_trans; [exact Ho|]. by apply stepped_onward.
Qed.

Section Ending.
Context (w : world) `{Hw : !channel_client w}.

Lemma ext_moves st e s : going s -> moves st 0 s (ext w e s) id.
Proof.
  intros Hg. unfold ext. apply (client_moves st 0 (log_call (ExtCall e) s) s (w_ext w e)).
  - apply cc_ext.
  - by apply going_log.
  - by apply onward_log.
Qed.

(** A channel operation of the thread itself. *)
Lemma channel_moves st op s : going s -> chan_op_ok op ->
  moves st 0 s (with_channel (fun env => exec_chan env op) s) id.
Proof.
  intros Hg Hop. destruct (channel_stepped op s Hg Hop) as (s' & -> & Hs'). exists s'. split; [done|].
  by apply stepped_onward.
Qed.

Lemma loop_moves fuel core pre st st' : forall index proceed s, going s ->
  moves st' 0 s (handlers_loop w fuel core pre st index proceed s) snd.
Proof.
  induction fuel as [|fuel IH]; intros index proceed s Hg; cbn [handlers_loop]; [by apply moves_ret|].
  destruct (core && (proceed =? 0)); [by apply moves_ret|].
  destruct (get_handler_at core s index) as [h|]; [|by apply moves_ret].
  destruct (negb _); [by apply IH|].
  destruct (on_state (w_table w h) st) as [f|] eqn:Ef; [|by apply IH].
  apply (moves_bind st' 0 0 s _ _ snd).
  - done.
  - apply (client_moves st' 0 (log_call (HandlerCall core h st) s) s f snd).
    + by eapply cc_table.
    + by apply going_log.
    + by apply onward_log.
  - intros [ok s1] _ Hg1. destruct ok; [by apply IH|by apply moves_ret].
Qed.

Lemma extra_moves b core pre st st' proceed s : going s ->
  moves st' 0 s (extra_handlers w b core pre st proceed s) snd.
Proof. intros Hg. unfold extra_handlers. destruct b; [by apply loop_moves|by apply moves_ret]. Qed.

(** The endpoint is asked once, when it has a handler for the state. *)
Definition asked (st : channel_state) : nat := match w_driver w st with Some _ => 1 | None => 0 end.

Lemma driver_moves st s : going s -> moves st (asked st) s (call_driver w st s) snd.
Proof.
  intros Hg. unfold call_driver, asked. destruct (w_driver w st) as [f|] eqn:Ef; [|by apply moves_ret].
  apply (client_moves st 1 (log_call (DriverCall st) s) s f snd).
  - by eapply cc_driver.
  - by apply going_log.
  - by apply onward_driver.
Qed.

(** Steps that do not ask the endpoint, before and behind one that may. *)
Lemma before {A B} st m s (x : res A) (k : A -> res B) out out' :
  going s -> moves st 0 s x out -> (forall a, going (out a) -> moves st m (out a) (k a) out') ->
  moves st m s (rbind x k) out'.
Proof. intros Hg Hx Hk. apply (moves_bind st 0 m s x k out out' Hg Hx). auto. Qed.
Lemma behind {A B} st n s (x : res A) (k : A -> res B) out out' :
  going s -> moves st n s x out -> (forall a, going (out a) -> moves st 0 (out a) (k a) out') ->
  moves st n s (rbind x k) out'.
Proof.
  intros Hg Hx Hk. replace n with (n + 0)%nat by lia. apply (moves_bind st n 0 s x k out out' Hg Hx). auto.
Qed.

Lemma variable_moves st name value s : going s -> moves st 0 s (set_variable name value s) id.
Proof.
  intros [Hs Hd Hr]. eexists. split; [done|]. split; [by destruct Hs|done|done|by destruct Hr|done|done|].
  intros st'. unfold driven. simpl. destruct (decide _); lia.
Qed.

Lemma macro_moves st state b s : going s -> down st -> st <> CS_NONE ->
  moves st (asked st) s (STATE_MACRO w st state b s) id.
Proof.
  intros Hg Hst Hne. unfold STATE_MACRO. apply (before _ _ _ _ _ id); [done|..].
  { destruct (_ && _); [by apply (channel_moves st (SetCallstate CCS_ACTIVE))|by apply moves_ret]. }
  intros s0 G0. apply (before _ _ _ _ _ id); [done|by apply ext_moves|].
  intros s1 G1. apply (before _ _ _ _ _ id); [done|by apply ext_moves|].
  intros s2 G2. apply (before _ _ _ _ _ snd); [done|by apply extra_moves|].
  intros [p3 s3] G3. apply (before _ _ _ _ _ snd); [done|by apply extra_moves|].
  intros [p4 s4] G4. apply (behind _ _ _ _ _ snd); [done|by apply driver_moves|].
  intros [ok s5] G5. destruct ok; [|by apply moves_ret].
  apply (before _ _ _ _ _ snd); [done|by apply extra_moves|].
  intros [p6 s6] G6. apply (before _ _ _ _ _ snd); [done|by apply extra_moves|].
  intros [p7 s7] G7. destruct (_ && _); [|by apply moves_ret].
  apply (client_moves st 0 (log_call (StandardCall st) s7) s7 (w_standard w st)).
  - by apply cc_standard.
  - by apply going_log.
  - by apply onward_log.
Qed.

Lemma api_hook_moves st hook u s : going s -> moves st 0 s (api_hook w hook u s) id.
Proof.
  intros Hg. unfold api_hook. destruct (zstr _); [by apply moves_ret|].
  match goal with |- context [let '(_, _) := ?p in _] => destruct p as [cmd arg] end. by apply ext_moves.
Qed.

Lemma run_hook_moves st name s : going s -> moves st 0 s (run_hook w name s) id.
Proof.
  intros Hg. unfold run_hook. destruct (ss_variable s (str name)) as [v|]; [|by apply moves_ret].
  destruct (rd_session _ (go_readable _ Hg)) as [u ->]. cbn [rbind]. by apply api_hook_moves.
Qed.

Lemma reporting_wanted_ret s : readable s -> is_ret (reporting_wanted s).
Proof.
  intros [R1 _ R2 R3]. unfold reporting_wanted. set (cause := ch_hangup_cause (ss_channel s)).
  match goal with |- is_ret (rbind ?m _) => assert (H : is_ret m) end.
  { repeat (case_inner_if; [by eexists|]). exact R2. }
  destruct H as [b ->]. cbn [rbind]. case_inner_if; cbn [rbind]; [by eexists|].
  destruct (R3 cause) as [b3 ->]. cbn [rbind]. by eexists.
Qed.

Lemma hangup_steps_moves s : going s -> moves CS_HANGUP (asked CS_HANGUP) s (hangup_steps w s) id.
Proof.
  intros Hg. unfold hangup_steps.
  apply (before _ _ _ _ _ id); [done|by apply ext_moves|intros s1 G1].
  apply (before _ _ _ _ _ id); [done|by apply ext_moves|intros s2 G2].
  apply (before _ _ _ _ _ id); [done|by apply ext_moves|intros s3 G3].
  apply (before _ _ _ _ _ id); [done|by apply variable_moves|intros s4 G4].
  apply (before _ _ _ _ _ id); [done|by apply variable_moves|intros s5 G5].
  apply (before _ _ _ _ _ id); [done|by apply ext_moves|intros s6 G6].
  apply (before _ _ _ _ _ id); [done|by apply (channel_moves _ (SetCallstate CCS_HANGUP))|intros s7 G7].
  apply (behind _ _ _ _ _ id); [done|by apply macro_moves|intros s8 G8].
  apply (before _ _ _ _ _ id); [done|by apply ext_moves|intros s9 G9].
  apply (before _ _ _ _ _ id); [done|by apply run_hook_moves|intros s10 G10].
  by apply ext_moves.
Qed.

(** The handlers for hangup run unless they did before, or, for an early hangup,
    unless they are not wanted; then [SSF_HANGUP] is set. *)
Lemma hangup_state_cases force s : going s ->
  (switch_core_session_hangup_state w force s = Ret s /\ (force = true -> ss_hangup s = true)) \/
  (ss_hangup s = false /\ exists s', onward CS_HANGUP (asked CS_HANGUP) s s' /\
     switch_core_session_hangup_state w force s = Ret (s' <| ss_hangup := true |>)).
Proof.
  intros Hg. unfold switch_core_session_hangup_state.
  case_if E1; [left; split; [done|intros ->; discriminate]|].
  case_if E2; [left; split; [done|intros ->; discriminate]|].
  case_if E3; [by left|]. right. split; [done|].
  destruct (hangup_steps_moves s Hg) as (s' & -> & Ho). by exists s'.
Qed.

Lemma reporting_state_moves s : going s ->
  exists n, (n <= asked CS_REPORTING)%nat /\
    moves CS_REPORTING n s (switch_core_session_reporting_state w s) id.
Proof.
  intros Hg. unfold switch_core_session_reporting_state.
  case_if E; [exists 0%nat; split; [lia|by apply moves_ret]|].
  exists (asked CS_REPORTING). split; [done|].
  apply (before _ _ _ _ _ id); [done|by apply (channel_moves _ (SetFlagValue CF_REPORTING 1))|intros s1 G1].
  destruct (reporting_wanted_ret s1 (go_readable _ G1)) as [b ->]. cbn [rbind].
  apply (behind _ _ _ _ _ id); [done|by apply macro_moves|intros s2 G2].
  apply (before _ _ _ _ _ id); [done|by apply run_hook_moves|intros s3 G3].
  by apply ext_moves.
Qed.

(** [switch_channel_set_state] of a session that hung up gets at least there. *)
Lemma set_state_reaches st next s : going s -> next <> CS_NONE ->
  exists s', set_state next s = Ret s' /\ onward st 0 s s' /\
    cs_num (state_of s') = Z.max (cs_num (state_of s)) (cs_num next).
Proof.
  intros [Hs Hd Hr] Hn. unfold set_state, with_channel, state_of in *.
  assert (Ho : forall c, settled c -> cs_num (ch_state (ss_channel s)) <= cs_num (ch_state c) ->
    ch_hangup_cause c = ch_hangup_cause (ss_channel s) -> onward st 0 s (s <| ss_channel := c |>)).
  { intros c Hc Hle Hca. split; [done|done|done|by destruct Hr|done|done|]. intros st'. unfold driven. simpl.
    destruct (decide _); lia. }
  destruct (set_state_cases (ss_env s) next (ss_channel s) Hn (st_state _ Hs))
    as [[-> Hc]|[(c & -> & Hm & Hne & Hf)|(_ & Hl & _)]]; cbn [rbind].
  - eexists. split; [done|]. split; [by apply Ho|]. cbn [ss_channel set].
    destruct Hc as [<-|[_ Hlt]]; lia.
  - eexists. split; [done|]. destruct Hm as (M1 & M2 & _ & _ & M5 & _).
    assert (cs_num (ch_state (ss_channel s)) < cs_num next).
    { unfold may_follow, live, down in *. destruct Hf as [E|[E|[[Hl _]|[_ Hlt]]]]; [rewrite E in Hd; simpl in Hd; lia..|lia|done]. }
    split; [apply Ho; [split; [rewrite M5; apply Hs|by rewrite M1]|rewrite M1; lia|]|].
    { rewrite M2, decide_False; [done|]. intros [-> _]. unfold down in Hd. lia. }
    cbn [ss_channel set]. rewrite M1. lia.
  - unfold live, down in *. lia.
Qed.

Lemma presence_moves st s : going s -> moves st 0 s (check_presence w s) id.
Proof.
  intros Hg. unfold check_presence. case_if E; [|by apply moves_ret].
  apply bool_decide_eq_true in E. case_if E1.
  - apply (before _ _ _ _ _ id); [done|by apply ext_moves|intros s1 G1]. by apply variable_moves.
  - assert (H : is_ret (switch_channel_state_name (running_state_of s))) by (destruct E as [-> | ->]; by eexists).
    destruct H as [name ->]. cbn [rbind]. by apply ext_moves.
Qed.

Lemma idle_moves st n s : going s -> moves st 0 s (idle w n s) snd.
Proof.
  intros Hg. unfold idle. destruct (decide (state_of s = running_state_of s)); [|by apply moves_ret].
  rewrite decide_False by (intros E; pose proof (go_down _ Hg) as Hd; rewrite E in Hd; by apply Hd).
  apply (before _ _ _ _ _ id); [done|by apply ext_moves|intros s1 G1].
  apply (before _ _ _ _ _ id); [done|..].
  - case_if E1; [by apply (channel_moves _ (ClearFlag CF_STATE_REPEAT))|].
    destruct (decide _); [|by apply moves_ret].
    apply (before _ _ _ _ _ id); [done|by apply (channel_moves _ (SetFlagValue CF_THREAD_SLEEPING 1))|intros s2 G2].
    apply (before _ _ _ _ _ id); [done|by apply ext_moves|intros s3 G3].
    by apply (channel_moves _ (ClearFlag CF_THREAD_SLEEPING)).
  - intros s2 G2. apply (before _ _ _ _ _ id); [done|by apply ext_moves|intros s3 G3]. by apply moves_ret.
Qed.

(** What a round does before the switch. *)
Definition entry (state : channel_state) (s : session) : res session :=
  s <-! set_running_state state s;;
  s <-! clear_flag CF_TRANSFER s;;
  s <-! clear_flag CF_REDIRECT s;;
  s <-! ext w ParseAllMessages s;;
  ext w StateRun s.

Lemma rbind_assoc {A B C} (m : res A) (f : A -> res B) (g : B -> res C) :
  rbind (rbind m f) g = rbind m (fun a => rbind (f a) g).
Proof. by destruct m. Qed.

Lemma enter_state_eq state s : enter_state w state s =
  s <-! entry state s;; '(ended, s) <-! run_state w state s;;
  if (ended : bool) then Ret (true, s) else s <-! check_presence w s;; Ret (false, s).
Proof. unfold enter_state, entry. rewrite !rbind_assoc. repeat (apply rbind_ext; intros; rewrite ?rbind_assoc). done. Qed.

Lemma entry_moves st state s : going s -> moves st 0 s (entry state s) id.
Proof.
  intros Hg. unfold entry.
  apply (before _ _ _ _ _ id); [done|by apply (channel_moves _ (SetRunningState state))|intros s1 G1].
  apply (before _ _ _ _ _ id); [done|by apply (channel_moves _ (ClearFlag CF_TRANSFER))|intros s2 G2].
  apply (before _ _ _ _ _ id); [done|by apply (channel_moves _ (ClearFlag CF_REDIRECT))|intros s3 G3].
  apply (before _ _ _ _ _ id); [done|by apply ext_moves|intros s4 G4]. by apply ext_moves.
Qed.

(** From [s] to [s'], in one or more steps, the endpoint's handlers for hangup
    and for reporting were called [h] and [r] times. *)
Record ending (h r : nat) (s s' : session) : Prop := {
  en_going : going s';
  en_mono : cs_num (state_of s) <= cs_num (state_of s');
  en_cause : ch_hangup_cause (ss_channel s') = ch_hangup_cause (ss_channel s);
  en_hangup : driven CS_HANGUP s' = (driven CS_HANGUP s + h)%nat;
  en_report : driven CS_REPORTING s' = (driven CS_REPORTING s + r)%nat
}.

Lemma ending_refl s : going s -> ending 0 0 s s.
Proof. intros Hg. split; [done|lia|done|lia|lia]. Qed.
Lemma ending_trans h1 r1 h2 r2 s1 s2 s3 : ending h1 r1 s1 s2 -> ending h2 r2 s2 s3 ->
  ending (h1 + h2) (r1 + r2) s1 s3.
Proof. intros [A1 A2 A0 A3 A4] [B1 B2 B0 B3 B4]. split; [done|lia|congruence|lia|lia]. Qed.
Lemma onward_ending st n s s' : going s -> onward st n s s' ->
  ending (if decide (CS_HANGUP = st) then n else 0) (if decide (CS_REPORTING = st) then n else 0) s s'.
Proof.
  intros Hg Ho. pose proof (going_onward _ _ _ _ Hg Ho) as G. destruct Ho as [A1 A2 A3 A4 A5 A7 A6].
  split; [done|done|done|apply A6|apply A6].
Qed.
Lemma quiet_ending st s s' : going s -> onward st 0 s s' -> ending 0 0 s s' /\ ss_hangup s' = ss_hangup s.
Proof.
  intros Hg Ho. split; [|apply Ho]. pose proof (onward_ending st 0 s s' Hg Ho) as E.
  by destruct (decide (CS_HANGUP = st)), (decide (CS_REPORTING = st)).
Qed.

Lemma enter_hangup s : going s ->
  exists s', enter_state w CS_HANGUP s = Ret (false, s') /\
    cs_num CS_REPORTING <= cs_num (state_of s') /\
    ending (if ss_hangup s then 0 else asked CS_HANGUP) 0 s s'.
Proof.
  intros Hg. rewrite enter_state_eq. destruct (entry_moves CS_HANGUP CS_HANGUP s Hg) as (s1 & -> & Ho1).
  destruct (quiet_ending _ _ _ Hg Ho1) as [E1 F1]. cbn [rbind run_state]. change (id s1) with s1 in *.
  assert (H : exists s2, switch_core_session_hangup_state w true s1 = Ret s2 /\
    ending (if ss_hangup s then 0 else asked CS_HANGUP) 0 s1 s2).
  { rewrite <- F1. destruct (hangup_state_cases true s1 (en_going _ _ _ _ E1)) as [[-> H]|[H (s2 & Ho & ->)]].
    - exists s1. split; [done|]. rewrite (H eq_refl). apply ending_refl, E1.
    - eexists. split; [done|]. rewrite H.
      destruct (onward_ending _ _ _ _ (en_going _ _ _ _ E1) Ho) as [[B1 B2 B3] B4 B0 B5 B6].
      split; [split; [done|done|by destruct B3]|done|done|done|done]. }
  destruct H as (s2 & -> & E2). cbn [rbind]. pose proof (en_going _ _ _ _ E2) as G2.
  match goal with |- context [if has_flag s2 CF_VIDEO then ?a else ?b] =>
    assert (H : moves CS_HANGUP 0 s2 (if has_flag s2 CF_VIDEO then a else b) id) end.
  { case_if Ev; [by apply ext_moves|by apply moves_ret]. }
  destruct H as (s3 & -> & Ho3). cbn [rbind]. change (id s3) with s3 in *. destruct (quiet_ending _ _ _ G2 Ho3) as [E3 _].
  destruct (set_state_reaches CS_HANGUP CS_REPORTING s3 (en_going _ _ _ _ E3)) as (s4 & -> & Ho4 & Hs4); [done|].
  cbn [rbind]. destruct (quiet_ending _ _ _ (en_going _ _ _ _ E3) Ho4) as [E4 _].
  destruct (presence_moves CS_HANGUP s4 (en_going _ _ _ _ E4)) as (s5 & -> & Ho5). cbn [rbind].
  destruct (quiet_ending _ _ _ (en_going _ _ _ _ E4) Ho5) as [E5 _].
  exists s5. split; [done|]. split; [pose proof (en_mono _ _ _ _ E5); cbn [id] in *; lia|].
  pose proof (ending_trans _ _ _ _ _ _ _ E1 (ending_trans _ _ _ _ _ _ _ E2
    (ending_trans _ _ _ _ _ _ _ E3 (ending_trans _ _ _ _ _ _ _ E4 E5)))) as E.
  rewrite !Nat.add_0_r, !Nat.add_0_l in E. exact E.
Qed.

Lemma enter_reporting s : going s -> cs_num CS_REPORTING <= cs_num (state_of s) ->
  exists s' n, enter_state w CS_REPORTING s = Ret (true, s') /\ state_of s' = CS_DESTROY /\
    (n <= asked CS_REPORTING)%nat /\ ending 0 n s s'.
Proof.
  intros Hg Hs. rewrite enter_state_eq. destruct (entry_moves CS_REPORTING CS_REPORTING s Hg) as (s1 & -> & Ho1).
  destruct (quiet_ending _ _ _ Hg Ho1) as [E1 _]. cbn [rbind run_state]. change (id s1) with s1 in *.
  destruct (reporting_state_moves s1 (en_going _ _ _ _ E1)) as (n & Hn & s2 & -> & Ho2). cbn [rbind].
  pose proof (onward_ending _ _ _ _ (en_going _ _ _ _ E1) Ho2) as E2. cbn [decide] in E2. change (id s2) with s2 in *.
  destruct (set_state_reaches CS_REPORTING CS_DESTROY s2 (en_going _ _ _ _ E2)) as (s3 & -> & Ho3 & Hs3); [done|].
  cbn [rbind]. destruct (quiet_ending _ _ _ (en_going _ _ _ _ E2) Ho3) as [E3 _].
  exists s3, n. split; [done|]. split; [|split; [done|]].
  - pose proof (st_state _ (go_settled _ (en_going _ _ _ _ E3))) as Hne.
    unfold state_of in *. destruct (ch_state (ss_channel s3)); simpl in *; try done; lia.
  - pose proof (ending_trans _ _ _ _ _ _ _ E1 (ending_trans _ _ _ _ _ _ _ E2 E3)) as E.
    change (if decide (CS_HANGUP = CS_REPORTING) then n else 0%nat) with 0%nat in E.
    change (if decide (CS_REPORTING = CS_REPORTING) then n else 0%nat) with n in E.
    rewrite !Nat.add_0_r, !Nat.add_0_l in E. exact E.
Qed.

Lemma wait_moves st s : going s ->
  moves st 0 s (if has_flag s CF_BLOCK_STATE then ext w WaitBlockState s else Ret s) id.
Proof. intros Hg. case_if E; [by apply ext_moves|by apply moves_ret]. Qed.

Lemma down_cases s : going s ->
  state_of s = CS_HANGUP \/ (cs_num CS_REPORTING <= cs_num (state_of s) /\
                             (state_of s = CS_REPORTING \/ state_of s = CS_DESTROY)).
Proof.
  intros [Hs Hd _]. pose proof (st_state _ Hs) as Hne. unfold state_of, down in *.
  destruct (ch_state (ss_channel s)); simpl in *; try done;
    [by left|right; split; [lia|by left]|right; split; [lia|by right]].
Qed.

(** A round from [CS_REPORTING] on is the last. *)
Lemma last_body n s : going s -> cs_num CS_REPORTING <= cs_num (state_of s) ->
  exists s' r, round_body w n s = Ret (true, n, s') /\ state_of s' = CS_DESTROY /\
    (r <= asked CS_REPORTING)%nat /\ ending 0 r s s'.
Proof.
  intros Hg Hs. unfold round_body. destruct (down_cases s Hg) as [E|[_ [E|E]]].
  - rewrite E in Hs. simpl in Hs. lia.
  - rewrite decide_False by (rewrite E; discriminate).
    assert (Eb : negb (bool_decide (state_of s = running_state_of s)) || (cs_num (state_of s) >=? cs_num CS_HANGUP) = true)
      by (rewrite E; apply orb_true_r).
    rewrite Eb, E. destruct (enter_reporting s Hg Hs) as (s' & r & -> & Hd & Hr & He). cbn [rbind].
    by exists s', r.
  - rewrite decide_True by done. exists s, 0%nat. split_and!; try done; try lia; by apply ending_refl.
Qed.

Lemma last_round n s : going s -> cs_num CS_REPORTING <= cs_num (state_of s) ->
  exists s' r, run_round w n s = Ret (true, n, s') /\ state_of s' = CS_DESTROY /\
    (r <= asked CS_REPORTING)%nat /\ ending 0 r s s'.
Proof.
  intros Hg Hs. unfold run_round. destruct (decide (state_of s = CS_DESTROY)) as [Ed|_].
  - exists s, 0%nat. split_and!; try done; try lia; by apply ending_refl.
  - destruct (wait_moves CS_NEW s Hg) as (s1 & -> & Ho). cbn [rbind]. change (id s1) with s1 in *.
    destruct (quiet_ending _ _ _ Hg Ho) as [E1 _].
    destruct (last_body n s1 (en_going _ _ _ _ E1)) as (s2 & r & -> & Hd & Hr & E2);
      [pose proof (en_mono _ _ _ _ E1); lia|].
    exists s2, r. split_and!; try done. by apply (ending_trans _ _ _ _ _ _ _ E1 E2).
Qed.

(** A round in [CS_HANGUP]. *)
Lemma hangup_body n s : going s -> state_of s = CS_HANGUP ->
  exists n' s', round_body w n s = Ret (false, n', s') /\ cs_num CS_REPORTING <= cs_num (state_of s') /\
    ending (if ss_hangup s then 0 else asked CS_HANGUP) 0 s s'.
Proof.
  intros Hg Es. unfold round_body. rewrite decide_False by (rewrite Es; discriminate).
  assert (Eb : negb (bool_decide (state_of s = running_state_of s)) || (cs_num (state_of s) >=? cs_num CS_HANGUP) = true)
    by (rewrite Es; apply orb_true_r).
  rewrite Eb, Es. destruct (enter_hangup s Hg) as (s1 & -> & Hs1 & E1). cbn [rbind].
  destruct (idle_moves CS_NEW n s1 (en_going _ _ _ _ E1)) as ([n' s2] & -> & Ho). cbn [rbind].
  destruct (quiet_ending _ _ _ (en_going _ _ _ _ E1) Ho) as [E2 _]. cbn [snd] in *.
  exists n', s2. split; [done|]. split; [pose proof (en_mono _ _ _ _ E2); lia|].
  pose proof (ending_trans _ _ _ _ _ _ _ E1 E2) as E. by rewrite !Nat.add_0_r in E.
Qed.

Lemma loop_ends n s fuel : going s -> (2 <= fuel)%nat ->
  exists s' h r, run_loop w fuel n s = Ret (true, s') /\ state_of s' = CS_DESTROY /\ ending h r s s' /\
    (h <= asked CS_HANGUP)%nat /\ (r <= asked CS_REPORTING)%nat /\
    (state_of s = CS_HANGUP -> has_flag s CF_BLOCK_STATE = false ->
     h = if ss_hangup s then 0%nat else asked CS_HANGUP).
Proof.
  intros Hg Hf. destruct fuel as [|[|fuel]]; [lia..|]. cbn [run_loop].
  destruct (down_cases s Hg) as [Es|[Es _]].
  - unfold run_round at 1. rewrite decide_False by (rewrite Es; discriminate).
    destruct (wait_moves CS_NEW s Hg) as (s1 & Ew & Ho). rewrite Ew. cbn [rbind]. change (id s1) with s1 in *.
    destruct (quiet_ending _ _ _ Hg Ho) as [E1 F1]. pose proof (en_going _ _ _ _ E1) as G1.
    destruct (down_cases s1 G1) as [Es1|[Es1 _]].
    + destruct (hangup_body n s1 G1 Es1) as (n' & s2 & -> & Hs2 & E2). cbn [rbind]. rewrite F1 in E2.
      destruct (last_round n' s2 (en_going _ _ _ _ E2) Hs2) as (s3 & r & -> & Hd & Hr & E3). cbn [rbind].
      pose proof (ending_trans _ _ _ _ _ _ _ E1 (ending_trans _ _ _ _ _ _ _ E2 E3)) as E.
      rewrite !Nat.add_0_r, !Nat.add_0_l in E. eexists s3, _, r. split_and!; try done. destruct (ss_hangup s); lia.
    + destruct (last_body n s1 G1 Es1) as (s2 & r & -> & Hd & Hr & E2). cbn [rbind].
      pose proof (ending_trans _ _ _ _ _ _ _ E1 E2) as E. exists s2, 0%nat, r. split_and!; try done; [lia|].
      intros _ Hb. rewrite Hb in Ew. injection Ew as <-. rewrite Es in Es1. simpl in Es1. lia.
  - destruct (last_round n s Hg Es) as (s2 & r & -> & Hd & Hr & E2). cbn [rbind].
    exists s2, 0%nat, r. split_and!; try done; [lia|]. intros E _. rewrite E in Es. simpl in Es. lia.
Qed.
End Ending.

(** Hanging up a live session. *)
Lemma hangup_going w `{!channel_client w} cause s :
  settled (ss_channel s) -> live (state_of s) -> claimed (ss_channel s) = false -> readable s ->
  exists s', switch_channel_hangup w cause s = Ret s' /\ going s' /\
    ch_hangup_cause (ss_channel s') = cause /\ ss_calls s `prefix_of` ss_calls s'.
Proof.
  intros Hs Hl Hc Hr. unfold switch_channel_hangup, with_channel.
  destruct (hangup_ok (ss_env s) cause (ss_channel s) Hs) as (c2 & -> & Hu2). cbn [rbind].
  destruct (hu_first _ _ _ Hu2 Hc Hl) as (H1 & H2 & _). set (s2 := s <| ss_channel := c2 |>).
  assert (G2 : going s2).
  { split; [apply (hu_settled _ _ _ Hu2)|unfold state_of; simpl; by rewrite H1|by destruct Hr]. }
  assert (C2 : ch_hangup_cause (ss_channel s2) = cause /\ ss_calls s2 = ss_calls s) by done.
  destruct C2 as [C2 L2]. clearbody s2. case_if Eh; [|exists s2; rewrite L2; by split_and!].
  destruct (hangup_state_cases w false s2 G2) as [[-> _]|[_ (s3 & Ho & ->)]];
    [exists s2; rewrite L2; by split_and!|].
  eexists. split; [done|]. pose proof (going_onward _ _ _ _ G2 Ho) as [B1 B2 B3].
  split; [split; [done|done|by destruct B3]|]. cbn [ss_channel ss_calls set].
  rewrite <- C2, <- L2. split; apply Ho.
Qed.

(** ** Sessions nobody instructs *)
Section Abandoned.
Context (w : world) `{Hw : !channel_client w}.

(** While the session is new, the calls of the thread find nothing to do. *)
Class uninstructed : Prop := {
  un_ext e s : state_of s = CS_NEW ->
    exists s', w_ext w e s = Ret s' /\ ss_channel s' = ss_channel s /\ (readable s -> readable s')
}.
Context `{Hu : uninstructed}.

(** A session in [CS_NEW] with a caller profile; [running] is its running state. *)
Record unused (running : channel_state) (s : session) : Prop := {
  un_settled : settled (ss_channel s);
  un_new : state_of s = CS_NEW;
  un_running : running_state_of s = running;
  un_unblocked : has_flag s CF_BLOCK_STATE = false;
  un_unclaimed : claimed (ss_channel s) = false;
  un_readable : readable s
}.

(** A session as it is created: nothing has run, no flag was put aside. *)
Definition fresh (s : session) : Prop := unused CS_NONE s /\ default 0 (ch_state_flags (ss_channel s) !! 0%nat) = 0.
(** A session that has entered [CS_NEW] and waits. *)
Definition waiting (s : session) : Prop := unused CS_NEW s.

Lemma unused_ext r e s : unused r s -> exists s', ext w e s = Ret s' /\ unused r s'.
Proof.
  intros [F1 F2 F3 F4 F5 F6]. destruct (un_ext e (log_call (ExtCall e) s) F2) as (s' & E & Ec & Hr).
  exists s'. split; [done|]. change (ss_channel (log_call (ExtCall e) s)) with (ss_channel s) in Ec.
  unfold state_of, running_state_of, has_flag in *.
  split; unfold state_of, running_state_of, has_flag; rewrite ?Ec; try done. apply Hr. by destruct F6.
Qed.

Lemma unused_clear r f s : f = CF_TRANSFER \/ f = CF_REDIRECT -> unused r s ->
  exists s', clear_flag f s = Ret s' /\ unused r s'.
Proof.
  intros Hf [F1 F2 F3 F4 F5 F6].
  assert (E : clear_flag f s = Ret (s <| ss_channel ::= put_flag f 0 |>)) by (destruct Hf as [-> | ->]; reflexivity).
  eexists. split; [exact E|]. split; try done; [by destruct F1| |by destruct F6].
  unfold has_flag, switch_channel_test_flag in *.
  change (ss_channel (s <| ss_channel ::= put_flag f 0 |>)) with (put_flag f 0 (ss_channel s)).
  rewrite flag_put_ne; [done|by destruct Hf as [-> | ->]].
Qed.

(** The first round of a new session enters [CS_NEW]. *)
Lemma set_running_new s : fresh s -> exists s', set_running_state CS_NEW s = Ret s' /\ waiting s'.
Proof.
  intros [[F1 F2 F3 F4 F5 F6] Fl]. unfold set_running_state, with_channel.
  destruct (running_state_ok (ss_env s) CS_NEW (ss_channel s) F1) as (c' & E & Q). rewrite E. cbn [rbind].
  eexists. split; [done|]. unfold state_of, claimed in F2, F5.
  assert (K : ch_running_state c' = CS_NEW /\ ch_flags c' = ch_flags (put_flag CF_TAGGED 0 (ss_channel s))).
  { unfold switch_channel_perform_set_running_state, apply_state_flags in E. rewrite Fl in E.
    cbn [Z.eqb negb] in E. rewrite clear_tagged in E. cbn [rbind] in E. rewrite careful_set_sets in E. injection E as <-.
    change (cs_num CS_NEW <=? cs_num CS_DESTROY) with true. cbv iota. cbn [emit set ch_running_state ch_flags].
    repeat case_match; try done;
      match goal with |- context [switch_channel_perform_set_callstate ?cs ?c] =>
        destruct (set_callstate_flags cs c) as (-> & _ & ->) end; done. }
  destruct K as [K1 K2]. split; unfold state_of, running_state_of, has_flag, claimed; cbn.
  - split; [apply (q_times _ _ Q), F1|rewrite (q_state _ _ Q); apply F1].
  - by rewrite (q_state _ _ Q).
  - done.
  - unfold has_flag, switch_channel_test_flag in *. rewrite <- F4. unfold flag at 1. rewrite K2.
    change (default 0 (ch_flags (put_flag CF_TAGGED 0 (ss_channel s)) !! Z.to_nat CF_BLOCK_STATE)) with
      (flag (put_flag CF_TAGGED 0 (ss_channel s)) CF_BLOCK_STATE). by rewrite flag_put_ne.
  - by rewrite (q_opaque _ _ Q).
  - by destruct F6.
Qed.

Lemma enter_new s : fresh s -> exists s', enter_state w CS_NEW s = Ret (false, s') /\ waiting s'.
Proof.
  intros Hf. rewrite enter_state_eq. unfold entry.
  destruct (set_running_new s Hf) as (s1 & -> & F1). cbn [rbind].
  destruct (unused_clear CS_NEW CF_TRANSFER s1 (or_introl eq_refl) F1) as (s2 & -> & F2). cbn [rbind].
  destruct (unused_clear CS_NEW CF_REDIRECT s2 (or_intror eq_refl) F2) as (s3 & -> & F3). cbn [rbind].
  destruct (unused_ext CS_NEW ParseAllMessages s3 F3) as (s4 & -> & F4). cbn [rbind].
  destruct (unused_ext CS_NEW StateRun s4 F4) as (s5 & -> & F5). cbn [rbind run_state].
  exists s5. split; [|done]. unfold check_presence. rewrite (un_running _ _ F5). done.
Qed.

(** The last of the 500 rounds hangs up. *)
Lemma left_alone s : waiting s ->
  exists s', (s <-! set_flag CF_NO_CDR s;; switch_channel_hangup w SWITCH_CAUSE_WRONG_CALL_STATE s) = Ret s' /\
    going s' /\ ch_hangup_cause (ss_channel s') = SWITCH_CAUSE_WRONG_CALL_STATE.
Proof.
  intros [F1 F2 F3 F4 F5 F6]. unfold set_flag, with_channel, switch_channel_set_flag.
  destruct (quiet_set_flag_value (ss_env s) CF_NO_CDR 1 (ss_channel s) (st_times _ F1)) as (c1 & -> & Q).
  cbn [rbind]. set (s1 := s <| ss_channel := c1 |>). unfold state_of in F2.
  destruct (hangup_going w SWITCH_CAUSE_WRONG_CALL_STATE s1) as (s2 & -> & G2 & C2 & _).
  - apply (quiet_steady _ _ F1 Q).
  - unfold state_of. cbn. rewrite (q_state _ _ Q), F2. done.
  - unfold claimed in *. cbn. by rewrite (q_opaque _ _ Q).
  - by destruct F6.
  - by exists s2.
Qed.

(** With [k] rounds left the session waits on, with one it is hung up. *)
Lemma idle_new (k : nat) s : waiting s -> (1 <= k <= 500)%nat ->
  exists s', idle w (Z.of_nat k) s = Ret (Z.of_nat k - 1, s') /\
    if decide (k = 1%nat) then going s' /\ ch_hangup_cause (ss_channel s') = SWITCH_CAUSE_WRONG_CALL_STATE
    else waiting s'.
Proof.
  intros Hf Hk. unfold idle. rewrite decide_True by (by rewrite (un_new _ _ Hf), (un_running _ _ Hf)).
  rewrite decide_True by apply Hf.
  destruct (unused_ext _ Yield s Hf) as (s1 & -> & F1). cbn [rbind].
  destruct (unused_ext _ ParseAllEvents s1 F1) as (s2 & -> & F2). cbn [rbind].
  rewrite u32_small by lia. destruct (Z.eqb_spec (Z.of_nat k - 1) 0) as [E0|E0].
  - destruct (left_alone s2 F2) as (s3 & (sa & -> & Es)%rbind_Ret & G3 & C3). cbn [rbind]. rewrite Es. cbn [rbind].
    exists s3. rewrite decide_True by lia. done.
  - exists s2. rewrite decide_False by lia. done.
Qed.

Lemma after_idle k s : (forall s, waiting s -> (1 <= k <= 500)%nat ->
    exists s', run_loop w (k + 2) (Z.of_nat k) s = Ret (true, s') /\ state_of s' = CS_DESTROY /\
      ch_hangup_cause (ss_channel s') = SWITCH_CAUSE_WRONG_CALL_STATE) ->
  waiting s -> (S k <= 500)%nat ->
  exists s', ('(ended, n, s) <-! ('(n, s) <-! idle w (Z.of_nat (S k)) s;; Ret (false, n, s));;
              if (ended : bool) then Ret (true, s) else run_loop w (k + 2) n s) = Ret (true, s') /\
    state_of s' = CS_DESTROY /\ ch_hangup_cause (ss_channel s') = SWITCH_CAUSE_WRONG_CALL_STATE.
Proof.
  intros IH Hf Hk. destruct (idle_new (S k) s Hf ltac:(lia)) as (s1 & -> & H1). cbn [rbind].
  replace (Z.of_nat (S k) - 1) with (Z.of_nat k) by lia. destruct (decide (S k = 1%nat)) as [E|E].
  - destruct H1 as [G1 C1]. assert (k = 0)%nat by lia. subst k.
    destruct (loop_ends w (Z.of_nat 0) s1 2 G1 ltac:(lia)) as (s4 & h & r & E4 & Hd & He & _).
    exists s4. split; [exact E4|]. split; [done|]. rewrite <- C1. apply He.
  - apply IH; [done|lia].
Qed.

(** [k] rounds are left. *)
Lemma abandon_loop k : forall s, waiting s -> (1 <= k <= 500)%nat ->
  exists s', run_loop w (k + 2) (Z.of_nat k) s = Ret (true, s') /\ state_of s' = CS_DESTROY /\
    ch_hangup_cause (ss_channel s') = SWITCH_CAUSE_WRONG_CALL_STATE.
Proof.
  induction k as [|k IH]; [lia|]. intros s Hf Hk. cbn [Nat.add run_loop]. unfold run_round, round_body.
  rewrite (un_unblocked _ _ Hf). cbn [rbind]. rewrite !decide_False by (rewrite (un_new _ _ Hf); discriminate).
  assert (Eb : negb (bool_decide (state_of s = running_state_of s)) || (cs_num (state_of s) >=? cs_num CS_HANGUP) = false).
  { rewrite (un_new _ _ Hf), (un_running _ _ Hf). done. }
  rewrite Eb. cbn [rbind]. by apply after_idle; [|done|lia].
Qed.

Lemma fresh_loop s : fresh s ->
  exists s', run_loop w 502 500 s = Ret (true, s') /\ state_of s' = CS_DESTROY /\
    ch_hangup_cause (ss_channel s') = SWITCH_CAUSE_WRONG_CALL_STATE.
Proof.
  intros Hf. pose proof Hf as [Hu0 _]. change 502%nat with (S (499 + 2)). cbn [run_loop]. unfold run_round, round_body.
  rewrite (un_unblocked _ _ Hu0). cbn [rbind]. rewrite !decide_False by (rewrite (un_new _ _ Hu0); discriminate).
  assert (Eb : negb (bool_decide (state_of s = running_state_of s)) || (cs_num (state_of s) >=? cs_num CS_HANGUP) = true).
  { rewrite (un_new _ _ Hu0), (un_running _ _ Hu0). done. }
  rewrite Eb, (un_new _ _ Hu0). destruct (enter_new s Hf) as (s1 & -> & F1). cbn [rbind].
  change 500 with (Z.of_nat (S 499)). apply (after_idle 499 s1); [apply abandon_loop|done|lia].
Qed.
End Abandoned.

(** ** Claims *)

(** C13: the order in which a state is offered, as long as no handler, endpoint or other
    call changes the tables of handlers (a handler that takes itself out of the table
    hides the next one, [clearing_hides_the_next]). The macro of the state machine asks
    the channel's handlers that want to be first, then the core's, each in the order of
    registration up to the first that refuses; the endpoint is asked in any case, behind
    them, and when it accepts the other handlers of the channel and of the core; the
    standard handler runs when nobody refused and the channel is still in the state the
    round began with. *)
Theorem state_macro_offers (w : world) (st state : channel_state) (hs ks : list nat) (s : session) :
  keeps_tables w -> registered hs ks s ->
  STATE_MACRO w st state true s = offer_state w st state hs ks s.
Proof. intros Hk Hr. by apply state_macro_eq. Qed.

(** C12: a session that hung up ends.  As long as handlers act on the channel by
    channel operations only, the thread of a session that is in [CS_HANGUP] or
    behind it returns within two rounds, the channel is in [CS_DESTROY], and the
    endpoint's reporting handler was called at most once; from [CS_HANGUP] its
    hangup handler was called exactly once, unless the hangup had been handled
    before. *)
Theorem hungup_session_ends (w : world) (fuel : nat) (s : session) :
  channel_client w -> settled (ss_channel s) -> down (state_of s) -> readable s -> (2 <= fuel)%nat ->
  exists s', switch_core_session_run w fuel s = Ret (true, s') /\
    state_of s' = CS_DESTROY /\ ss_thread_running s' = false /\
    (driven CS_REPORTING s' <= driven CS_REPORTING s + 1)%nat /\
    (w_driver w CS_HANGUP <> None -> state_of s = CS_HANGUP -> has_flag s CF_BLOCK_STATE = false ->
     driven CS_HANGUP s' = (driven CS_HANGUP s + if ss_hangup s then 0 else 1)%nat).
Proof.
  intros Hw Hs Hd Hr Hf. unfold switch_core_session_run.
  set (s0 := s <| ss_thread_running := true |>).
  assert (G0 : going s0) by (split; [done|done|by destruct Hr]).
  destruct (loop_ends w 500 s0 fuel G0 Hf) as (s1 & h & r & -> & Hd1 & [E1 E2 E0 E3 E4] & Hh & Hr1 & Hex). cbn [rbind].
  eexists. split; [done|]. split; [done|]. split; [done|]. split.
  - change (driven CS_REPORTING s1 <= driven CS_REPORTING s + 1)%nat. rewrite E4. unfold asked in Hr1.
    change (driven CS_REPORTING s0) with (driven CS_REPORTING s). destruct (w_driver w CS_REPORTING); lia.
  - intros Hdr Es Hb. change (driven CS_HANGUP s1 = driven CS_HANGUP s + if ss_hangup s then 0 else 1)%nat.
    rewrite E3, (Hex Es Hb). unfold asked. change (ss_hangup s0) with (ss_hangup s).
    by destruct (w_driver w CS_HANGUP), (ss_hangup s).
Qed.

(** C30: a session nobody instructs ends.  A session as it is created (in [CS_NEW]
    with the running state [CS_NONE] that [switch_channel_init] gives it, without
    [CF_BLOCK_STATE] and flags put aside, with a caller profile and variables the
    hangup can read) whose thread runs, and for which the calls of the thread to
    other parts of the system change nothing of the channel while it is new, enters
    [CS_NEW], is given up in the 500th round, and the thread returns within 502: the
    channel is in [CS_DESTROY] and was hung up with the cause WRONG_CALL_STATE. *)
Theorem abandoned_session_ends (w : world) (s : session) :
  channel_client w -> uninstructed w -> fresh s ->
  exists s', switch_core_session_run w 502 s = Ret (true, s') /\ state_of s' = CS_DESTROY /\
    ch_hangup_cause (ss_channel s') = SWITCH_CAUSE_WRONG_CALL_STATE /\ ss_thread_running s' = false.
Proof.
  intros Hw Hu Hf. unfold switch_core_session_run.
  destruct (fresh_loop w (s <| ss_thread_running := true |>)) as (s' & E & Hd & Hc).
  { destruct Hf as [[F1 F2 F3 F4 F5 F6] Fl]. split; [split; try done; by destruct F6|done]. }
  rewrite E. cbn [rbind]. eexists. split; [done|]. by split_and!.
Qed.

(** ** A world to evaluate *)
Definition do_op (op : chan_op) (s : session) : res session := with_channel (fun env => exec_chan env op) s.
Definition accept (op : chan_op) : handler := fun s => s <-! do_op op s;; Ret (true, s).
Definition refuse (op : chan_op) : handler := fun s => s <-! do_op op s;; Ret (false, s).

(** Handler tables: the odd ones come first; 2 refuses to report. *)
Definition demo_tables (h : nat) : handler_table :=
  mk_table false (Nat.odd h) (fun st =>
    if decide (h = 2%nat /\ st = CS_REPORTING) then Some (refuse (SetFlagValue CF_TAGGED 1))
    else Some (accept (MarkHold false))).
(** An endpoint that goes on to reporting by itself. *)
Definition demo_driver (st : channel_state) : option handler :=
  match st with
  | CS_HANGUP => Some (accept (SetState CS_REPORTING))
  | CS_REPORTING | CS_DESTROY => Some (accept (SetCallstate CCS_DOWN))
  | _ => None
  end.
Definition demo_world : world :=
  mk_world demo_tables demo_driver (fun _ s => Ret s) (fun _ s => Ret s) true.

Definition demo_registry (hs : list nat) : registry :=
  mk_registry (map Some hs ++ replicate (SWITCH_MAX_STATE_HANDLERS - length hs) None) (length hs).
Definition demo_session (c : channel) : session :=
  mk_session c demo_env (demo_registry [1%nat; 2%nat]) (demo_registry [3%nat; 4%nat]) false false
    (fun _ => None) false false None [] (fun _ => []) [].

Lemma do_op_ops op : chan_op_ok op -> by_channel_ops (do_op op) id.
Proof. intros Hop s Hg. by apply channel_stepped. Qed.
Lemma then_ops b op : chan_op_ok op -> by_channel_ops (fun s => s <-! do_op op s;; Ret (b : bool, s)) snd.
Proof.
  intros Hop s Hg. destruct (do_op_ops op Hop s Hg) as (s' & -> & H'). cbn [rbind]. by eexists.
Qed.
Lemma ret_ops : by_channel_ops (fun s => Ret s) id.
Proof. intros s Hg. exists s. split; [done|]. apply stepped_refl, Hg. Qed.

#[export] Instance demo_client : channel_client demo_world.
Proof.
  split.
  - intros h st f. simpl. destruct (decide _); intros [= <-]; by apply then_ops.
  - intros st f. destruct st; try discriminate; intros [= <-]; by apply then_ops.
  - intros e. apply ret_ops.
  - intros st _ _. apply ret_ops.
Qed.

Lemma do_op_tables op s s' : do_op op s = Ret s' -> tables s' = tables s.
Proof. unfold do_op, with_channel. intros (c & _ & [= <-])%rbind_Ret. done. Qed.

#[export] Instance demo_keeps : keeps_tables demo_world.
Proof.
  assert (H : forall b op s a s', (s <-! do_op op s;; Ret (b : bool, s)) = Ret (a, s') -> tables s' = tables s).
  { intros b op s a s' (s1 & E & [= _ <-])%rbind_Ret. by apply (do_op_tables op). }
  split.
  - intros h st f s a s'. simpl. destruct (decide _); intros [= <-]; apply H.
  - intros st f s a s'. destruct st; try discriminate; intros [= <-]; apply H.
  - by intros e s s' [= <-].
Qed.

#[export] Instance demo_uninstructed : uninstructed demo_world.
Proof. split. intros e s _. by exists s. Qed.

Lemma demo_readable c : readable (demo_session c).
Proof. split; [by eexists..|]. intros cause. by eexists. Qed.

Lemma demo_registered c : registered [1%nat; 2%nat] [3%nat; 4%nat] (demo_session c).
Proof. split; (split; [done|done|vm_compute; lia]). Qed.

(** The calls that are not into other parts of the system. *)
Definition is_ext (c : call) : bool := match c with ExtCall _ => true | _ => false end.
Definition asked_calls (r : res session) : list call :=
  match r with Ret s => List.filter (fun c => negb (is_ext c)) (ss_calls s) | _ => [] end.

Definition reporting_session : session := demo_session (demo_channel <| ch_state := CS_REPORTING |>).

Lemma state_macro_offers_witness :
  STATE_MACRO demo_world CS_REPORTING CS_REPORTING true reporting_session =
    offer_state demo_world CS_REPORTING CS_REPORTING [1%nat; 2%nat] [3%nat; 4%nat] reporting_session /\
  asked_calls (STATE_MACRO demo_world CS_REPORTING CS_REPORTING true reporting_session) =
    [HandlerCall false 1 CS_REPORTING; HandlerCall true 3 CS_REPORTING; DriverCall CS_REPORTING;
     HandlerCall false 2 CS_REPORTING; HandlerCall true 4 CS_REPORTING].
Proof.
  split; [|vm_compute; reflexivity].
  apply (state_macro_offers demo_world CS_REPORTING CS_REPORTING [1%nat; 2%nat] [3%nat; 4%nat] reporting_session).
  - exact demo_keeps.
  - apply demo_registered.
Defined.

Lemma hungup_session_ends_witness :
  exists s', switch_core_session_run demo_world 2 (demo_session hungup_channel) = Ret (true, s') /\
    state_of s' = CS_DESTROY /\ ss_thread_running s' = false /\
    (driven CS_REPORTING s' <= 1)%nat /\
    (w_driver demo_world CS_HANGUP <> None -> CS_HANGUP = CS_HANGUP ->
     has_flag (demo_session hungup_channel) CF_BLOCK_STATE = false -> driven CS_HANGUP s' = 1%nat).
Proof.
  apply (hungup_session_ends demo_world 2 (demo_session hungup_channel)).
  - exact demo_client.
  - split; [by eexists|done].
  - done.
  - apply demo_readable.
  - lia.
Defined.

Lemma abandoned_session_ends_witness :
  exists s', switch_core_session_run demo_world 502 (demo_session demo_channel) = Ret (true, s') /\
    state_of s' = CS_DESTROY /\ ch_hangup_cause (ss_channel s') = SWITCH_CAUSE_WRONG_CALL_STATE /\
    ss_thread_running s' = false.
Proof.
  apply (abandoned_session_ends demo_world (demo_session demo_channel)).
  - exact demo_client.
  - exact demo_uninstructed.
  - split; [split; [split; [by eexists|done]|done|done|done|done|apply demo_readable]|done].
Defined.

(** A handler that takes itself out of the channel's table while it runs hides
    the handler behind it from this round. *)
Definition clear_self (h : nat) : handler := fun s =>
  r <-! switch_channel_clear_state_handler (fun _ => false) (Some h) (ss_handlers s);;
  Ret (true, s <| ss_handlers := r |>).
Definition clearing_world : world :=
  mk_world (fun h => mk_table false false (fun _ => Some (if decide (h = 1%nat) then clear_self 1 else accept GetQueuedExtension)))
    (fun _ => None) (fun _ s => Ret s) (fun _ s => Ret s) false.
Theorem clearing_hides_the_next :
  asked_calls (STATE_MACRO clearing_world CS_EXCHANGE_MEDIA CS_EXCHANGE_MEDIA true
    ((demo_session (demo_channel <| ch_state := CS_EXCHANGE_MEDIA |>)) <| ss_core_handlers := empty_registry |>)) =
  [HandlerCall false 1 CS_EXCHANGE_MEDIA; StandardCall CS_EXCHANGE_MEDIA].
Proof. vm_compute. reflexivity. Qed.

(** A handler of the channel that wants to be first is asked before the endpoint,
    which does not get the first crack at the state. *)
Theorem endpoint_is_not_first :
  take 2 (asked_calls (STATE_MACRO demo_world CS_REPORTING CS_REPORTING true
    (reporting_session <| ss_core_handlers := empty_registry |>))) =
  [HandlerCall false 1 CS_REPORTING; DriverCall CS_REPORTING].
Proof. vm_compute. reflexivity. Qed.
