(* ===== verification/StandardHandlers.v ===== *)
(** * StandardHandlers: what a session does in a state by default

    The functions [switch_core_standard_on_...] of
    src/switch_core_state_machine.c.  Applications, dialplans and the search for
    other sessions are fields of an [app_world]; the loops over the applications
    of an extension take fuel, as an application may add others or ask for the
    extension to be read again, and return [None] when it does not suffice. *)
From S2P Require Import Prelude CoreHash ChannelNames ChannelState ChannelLife StateHandlers StateMachine StateMachineProps TextUtil Separate.
From Stdlib Require Import ZArith Lia Init.Byte.
From stdpp Require Import base numbers option strings list.

Local Open Scope Z_scope.

(** ** Data *)
Record app_world := mk_app_world {
  (** [switch_core_session_execute_application] *)
  aw_execute : application -> session -> res (switch_status * session);
  (** [switch_loadable_module_get_dialplan_interface] with its hunt function *)
  aw_dialplan : list Z -> option (option (list Z) -> session -> res (option Z * session));
  (** [switch_channel_expand_variables] *)
  aw_expand : session -> cstring -> list Z;
  (** [switch_ivr_blind_transfer_ack], whether it succeeds *)
  aw_blind_transfer_ack : session -> res (bool * session);
  (** [switch_core_session_locate], whether there is such a session *)
  aw_locate : cstring -> session -> bool;
  (** the name of this session *)
  aw_uuid : cstring
}.

Section Standard.
Context (w : world) (aw : app_world).

Definition hangup := switch_channel_hangup w.
Definition set_call_uuid : session -> res session := set_variable "call_uuid" (Some (aw_uuid aw)).
(** [switch_channel_ready] and [switch_channel_up]: signals are handled first. *)
Definition switch_channel_ready (s : session) : res (bool * session) :=
  s <-! ext w CheckSignal s;; Ret (switch_channel_test_ready (ss_env s) true false (ss_channel s), s).
Definition switch_channel_up (s : session) : res (bool * session) :=
  s <-! ext w CheckSignal s;; Ret (up_nosig (ss_channel s), s).

(** A caller profile is there. *)
Definition has_profile (s : session) : bool := bool_decide (is_Some (ch_times (ss_channel s))).
Definition switch_channel_get_caller_extension (s : session) : option Z :=
  if has_profile s then head (ss_extensions s) else None.
(** [switch_channel_sort_cid] changes only the names of the caller, which are not
    part of the session here.  A null [caller_profile] is written to. *)
Definition switch_channel_set_caller_extension (extension : Z) (s : session) : res session :=
  let s := log_call (ExtCall SortCid) s in
  if has_profile s then Ret (s <| ss_extensions ::= cons extension |>) else Ub.

(** [extension->current_application = current_application->next] *)
Definition pop_application (extension : Z) (rest : list application) (s : session) : session :=
  s <| ss_applications ::= fun apps x => if x =? extension then rest else apps x |>.
Definition execute_application (app : application) (s : session) : res (switch_status * session) :=
  aw_execute aw app (log_call (AppCall app) s).

(** ** INIT *)
Definition switch_core_standard_on_init (s : session) : res session :=
  s <-! (if has_flag s CF_RECOVERING_BRIDGE then set_state CS_RESET s
         else if has_flag s CF_RECOVERING then set_state CS_EXECUTE s
         else set_state CS_ROUTING s);;
  clear_flag CF_RECOVERING s.

(** ** HANGUP: a zombie executes the applications that are left *)
Fixpoint zombie_loop (fuel : nat) (extension : Z) (s : session) : res (option session) :=
  match fuel with
  | O => Ret None
  | S fuel =>
    match ss_applications s extension with
    | [] => Ret (Some s)
    | current_application :: next =>
      '(status, s) <-! execute_application current_application (pop_application extension next s);;
      if bool_decide (status <> SWITCH_STATUS_SUCCESS /\ status <> SWITCH_STATUS_IGNORE) then Ret (Some s)
      else zombie_loop fuel extension s
    end
  end.
Definition switch_core_standard_on_hangup (fuel : nat) (s : session) : res (option session) :=
  log_stats <-! switch_true (ss_variable s (str "log_audio_stats_on_hangup"));;
  s <-! (if (log_stats : bool) then ext w MediaSetStats s else Ret s);;
  let rec := has_flag s CF_RECOVERING in
  s <-! clear_flag CF_RECOVERING s;;
  s <-! (if rec then Ret s else ext w RecoveryUntrack s);;
  if negb (has_flag s CF_ZOMBIE_EXEC) then Ret (Some s)
  else match switch_channel_get_caller_extension s with
       | None => Ret (Some s)
       | Some extension => zombie_loop fuel extension s
       end.

(** ** RESET: a recovered bridge is put together again *)

(** The search for the partner, at most [n] more times. *)
Fixpoint locate_partner (n : nat) (other_uuid : cstring) (s : session) : res (bool * session) :=
  match n with
  | O => Ret (false, s)
  | S n =>
    '(up, s) <-! switch_channel_up s;;
    if negb up then Ret (false, s)
    else
      let found := aw_locate aw other_uuid s in
      s <-! ext w Yield s;;
      if found then Ret (true, s) else locate_partner n other_uuid s
  end.
Definition switch_core_standard_on_reset (s : session) : res session :=
  s <-! set_call_uuid s;;
  if has_flag s CF_RECOVERING_BRIDGE then
    s <-! (if has_flag s CF_BRIDGE_ORIGINATOR then
             '(found, s) <-! match partner_uuid (ss_env s) with
                             | Some other_uuid => locate_partner 20 other_uuid s
                             | None => Ret (false, s)
                             end;;
             if (found : bool) then
               s <-! clear_flag CF_BRIDGE_ORIGINATOR s;;
               ext w RecoverBridge s
             else Ret s
           else Ret s);;
    clear_flag CF_RECOVERING_BRIDGE s
  else Ret s.

(** ** ROUTING *)

(** A name and, behind the first colon, an argument. *)
Definition split_name (dpname : list Z) : list Z * option (list Z) :=
  match split_at 58 dpname with Some (l, r) => (l, Some r) | None => (dpname, None) end.

(** The dialplans are asked one after the other; [count] of them exist. *)
Fixpoint hunt_loop (dp : list (list Z)) (count : Z) (s : session) : res (Z * option Z * session) :=
  match dp with
  | [] => Ret (count, None, s)
  | name :: dp =>
    let '(dpname, dparg) := split_name name in
    match aw_dialplan aw dpname with
    | None => hunt_loop dp count s
    | Some hunt_function =>
      '(extension, s) <-! hunt_function dparg (log_call (HuntCall dpname dparg) s);;
      match extension with
      | Some e => Ret (count + 1, Some e, s)
      | None => hunt_loop dp (count + 1) s
      end
    end
  end.

Definition route_to (extension : Z) (s : session) : res session :=
  s <-! switch_channel_set_caller_extension extension s;;
  set_state CS_EXECUTE s.

(** Nobody knows the call. *)
Definition no_route (s : session) : res session :=
  '(acked, s) <-! aw_blind_transfer_ack aw s;;
  if (acked : bool) then Ret s else hangup SWITCH_CAUSE_NO_ROUTE_DESTINATION s.

Definition switch_core_standard_on_routing (s : session) : res session :=
  s <-! set_call_uuid s;;
  s <-! (if (has_flag s CF_ANSWERED || has_flag s CF_EARLY_MEDIA || has_flag s CF_SIGNAL_BRIDGE_TTL)
            && has_flag s CF_PROXY_MODE then ext w IvrMedia s else Ret s);;
  if negb (has_profile s) then hangup SWITCH_CAUSE_DESTINATION_OUT_OF_ORDER s
  else
    let '(c, queued) := switch_channel_get_queued_extension (ss_channel s) in
    let s := s <| ss_channel := c |> in
    match queued with
    | Some extension => route_to extension s
    | None =>
      '(count, extension, s) <-!
        (if zstr (ss_dialplan s) then Ret (0, None, s)
         else dp <-! switch_separate_string (aw_expand aw s (default [] (ss_dialplan s))) 44 25;; hunt_loop dp 0 s);;
      match extension with
      | Some extension => route_to extension s
      | None =>
        if (count =? 0) && bool_decide (ch_direction (ss_channel s) = SWITCH_CALL_DIRECTION_OUTBOUND) then
          if has_flag s CF_ANSWERED then hangup SWITCH_CAUSE_NO_ROUTE_DESTINATION s
          else set_state CS_CONSUME_MEDIA s
        else no_route s
      end
    end.

(** ** EXECUTE *)

(** From the label [top] to the loop: the extension to execute. *)
Definition execute_top (s : session) : res (option Z * session) :=
  s <-! clear_flag CF_RESET s;;
  s <-! ext w VideoReset s;;
  match switch_channel_get_caller_extension s with
  | Some extension => Ret (Some extension, s)
  | None => s <-! hangup SWITCH_CAUSE_NORMAL_CLEARING s;; Ret (None, s)
  end.

(** The loop: whether the function returns from inside it. *)
Fixpoint execute_loop (fuel : nat) (extension : Z) (s : session) : res (option (bool * session)) :=
  match fuel with
  | O => Ret None
  | S fuel =>
    if decide (state_of s = CS_EXECUTE) then
      match ss_applications s extension with
      | [] => Ret (Some (false, s))
      | current_application :: next =>
        '(status, s) <-! execute_application current_application (pop_application extension next s);;
        if decide (status <> SWITCH_STATUS_SUCCESS) then Ret (Some (true, s))
        else if has_flag s CF_RESET then
          '(extension, s) <-! execute_top s;;
          match extension with Some extension => execute_loop fuel extension s | None => Ret (Some (true, s)) end
        else execute_loop fuel extension s
      end
    else Ret (Some (false, s))
  end.

(** Behind the loop. *)
Definition confirm_blind_transfer (s : session) : res session :=
  '(ready, s) <-! switch_channel_ready s;;
  if ready && bool_decide (state_of s = CS_EXECUTE) && has_flag s CF_CONFIRM_BLIND_TRANSFER then
    match ss_variable s (str "blind_transfer_uuid") with
    | Some uuid =>
      if aw_locate aw uuid s then
        s <-! ext w (BlindTransferResponse uuid) s;;
        s <-! set_variable "park_timeout" (Some (str "10:blind_transfer")) s;;
        s <-! set_state CS_PARK s;;
        clear_flag CF_CONFIRM_BLIND_TRANSFER s
      else Ret s
    | None => Ret s
    end
  else Ret s.
Definition execute_end (s : session) : res session :=
  s <-! confirm_blind_transfer s;;
  '(ready, s) <-! switch_channel_ready s;;
  if ready && bool_decide (state_of s = CS_EXECUTE)
  then hangup SWITCH_CAUSE_NORMAL_CLEARING s else Ret s.

Definition switch_core_standard_on_execute (fuel : nat) (s : session) : res (option session) :=
  s <-! clear_flag CF_RECOVERING s;;
  s <-! set_call_uuid s;;
  s <-! (if bool_decide (is_Some (ss_variable s (str "recovered"))) && negb (has_flag s CF_RECOVERED)
         then set_flag CF_RECOVERED s else Ret s);;
  '(extension, s) <-! execute_top s;;
  match extension with
  | None => Ret (Some s)
  | Some extension =>
    r <-! execute_loop fuel extension s;;
    match r with
    | None => Ret None
    | Some (true, s) => Ret (Some s)
    | Some (false, s) => s <-! execute_end s;; Ret (Some s)
    end
  end.

(** ** The other states *)
Definition switch_core_standard_on_park (s : session) : res session :=
  s <-! ext w SessionReset s;; ext w IvrPark s.
Definition switch_core_standard_on_reporting (s : session) : res session := Ret s.
Definition switch_core_standard_on_destroy (s : session) : res session := Ret s.
Definition switch_core_standard_on_exchange_media (s : session) : res session := Ret s.
Definition switch_core_standard_on_soft_execute (s : session) : res session := Ret s.
Definition switch_core_standard_on_consume_media (s : session) : res session := Ret s.
Definition switch_core_standard_on_hibernate (s : session) : res session := Ret s.
End Standard.

(** ** The end of a session with the standard handlers *)
Section Zombie.
Context (w : world) (aw : app_world).

(** The standard handlers of [w] are those of this file, whatever fuel they
    need. *)
Class standard_world : Prop := {
  sw_hangup fuel s s' :
    switch_core_standard_on_hangup w aw fuel s = Ret (Some s') -> w_standard w CS_HANGUP s = Ret s';
  sw_reporting s : w_standard w CS_REPORTING s = switch_core_standard_on_reporting s;
  sw_destroy s : w_standard w CS_DESTROY s = switch_core_standard_on_destroy s
}.

(** Handlers, endpoint and other calls act by channel operations, and so do
    applications, which do not add applications either. *)
Class tame_world : Prop := {
  tw_table h st f : on_state (w_table w h) st = Some f -> by_channel_ops f snd;
  tw_driver st f : w_driver w st = Some f -> by_channel_ops f snd;
  tw_ext e : by_channel_ops (w_ext w e) id;
  tw_app app : by_channel_ops (aw_execute aw app) snd;
  tw_shrink app s status s' e : aw_execute aw app s = Ret (status, s') ->
    (length (ss_applications s' e) <= length (ss_applications s e))%nat
}.

Context `{Hstd : standard_world} `{Htame : tame_world}.

Lemma going_stepped s s' : going s -> stepped s s' -> going s'.
Proof. intros Hg Hs. by apply (going_onward CS_NEW 0 s), stepped_onward. Qed.

Lemma log_stepped c s : going s -> (forall st, is_driver st c = false) -> stepped s (log_call c s).
Proof.
  intros [_ _ Hr] Hc. split; [by exists []; split; [constructor|]|done|by destruct Hr|].
  exists [c]. split; [done|]. by repeat constructor.
Qed.

Lemma ext_stepped e s : going s -> exists s', ext w e s = Ret s' /\ stepped s s'.
Proof.
  intros Hg. pose proof (log_stepped (ExtCall e) s Hg (fun _ => eq_refl)) as Hl.
  destruct (tw_ext e _ (going_stepped _ _ Hg Hl)) as (s' & E & Hs'). exists s'. split; [done|]. by eapply stepped_trans.
Qed.

Lemma pop_stepped e rest s : going s -> stepped s (pop_application e rest s).
Proof.
  intros [_ _ Hr]. split; [by exists []; split; [constructor|]|done|by destruct Hr|].
  exists []. split; [by rewrite app_nil_r|constructor].
Qed.

Lemma app_stepped app s : going s ->
  exists status s', execute_application aw app s = Ret (status, s') /\ stepped s s' /\
    (forall e, (length (ss_applications s' e) <= length (ss_applications s e))%nat).
Proof.
  intros Hg. pose proof (log_stepped (AppCall app) s Hg (fun _ => eq_refl)) as Hl.
  destruct (tw_app app _ (going_stepped _ _ Hg Hl)) as ([status s'] & E & Hs'). exists status, s'.
  split; [done|]. split; [by eapply stepped_trans|]. intros e. apply (tw_shrink _ _ _ _ e E).
Qed.

(** As much fuel as the extension has applications, and one, is enough. *)
Lemma zombie_stepped fuel e : forall s, going s -> (length (ss_applications s e) < fuel)%nat ->
  exists s', zombie_loop aw fuel e s = Ret (Some s') /\ stepped s s'.
Proof.
  induction fuel as [|fuel IH]; intros s Hg Hf; [lia|]. cbn [zombie_loop].
  destruct (ss_applications s e) as [|app rest] eqn:Ea.
  - exists s. split; [done|]. apply stepped_refl, Hg.
  - pose proof (pop_stepped e rest s Hg) as Hp. pose proof (going_stepped _ _ Hg Hp) as Gp.
    destruct (app_stepped app _ Gp) as (status & s1 & -> & Hs1 & Hle). cbn [rbind].
    pose proof (stepped_trans _ _ _ Hp Hs1) as Hs. case_if Eb; [by exists s1|].
    destruct (IH s1) as (s2 & -> & Hs2).
    + by eapply going_stepped.
    + specialize (Hle e). cbn [pop_application ss_applications set] in Hle. rewrite Z.eqb_refl in Hle.
      simpl in Hf. lia.
    + exists s2. split; [done|]. by eapply stepped_trans.
Qed.

Lemma hangup_stepped s : going s ->
  exists fuel s', switch_core_standard_on_hangup w aw fuel s = Ret (Some s') /\ stepped s s'.
Proof.
  intros Hg. unfold switch_core_standard_on_hangup.
  destruct (rd_stats _ (go_readable _ Hg)) as [b ->]. cbn [rbind].
  assert (H : exists s1, (if b then ext w MediaSetStats s else Ret s) = Ret s1 /\ stepped s s1).
  { destruct b; [by apply ext_stepped|]. exists s. split; [done|apply stepped_refl, Hg]. }
  destruct H as (s1 & -> & H1). cbn [rbind]. pose proof (going_stepped _ _ Hg H1) as G1.
  destruct (channel_stepped (ClearFlag CF_RECOVERING) s1 G1 I) as (s2 & E2 & H2).
  change (with_channel _ s1) with (clear_flag CF_RECOVERING s1) in E2. rewrite E2. cbn [rbind].
  pose proof (going_stepped _ _ G1 H2) as G2.
  assert (H : exists s3, (if has_flag s1 CF_RECOVERING then Ret s2 else ext w RecoveryUntrack s2) = Ret s3 /\ stepped s2 s3).
  { case_if E; [|by apply ext_stepped]. exists s2. split; [done|apply stepped_refl, G2]. }
  destruct H as (s3 & -> & H3). cbn [rbind]. pose proof (going_stepped _ _ G2 H3) as G3.
  pose proof (stepped_trans _ _ _ H1 (stepped_trans _ _ _ H2 H3)) as H.
  case_if Ez; [by exists 0%nat, s3|]. destruct (switch_channel_get_caller_extension s3) as [e|]; [|by exists 0%nat, s3].
  destruct (zombie_stepped (S (length (ss_applications s3 e))) e s3 G3) as (s4 & E4 & H4); [lia|].
  exists (S (length (ss_applications s3 e))), s4. split; [done|]. by eapply stepped_trans.
Qed.

(** The interface of the state machine holds. *)
#[export] Instance standard_client : channel_client w.
Proof.
  split; [apply tw_table|apply tw_driver|apply tw_ext|].
  intros st Hst Hne s Hg. unfold down in Hst. destruct st; simpl in Hst; try lia; try done.
  - destruct (hangup_stepped s Hg) as (fuel & s' & E & Hs'). exists s'. split; [by eapply sw_hangup|done].
  - exists s. split; [apply sw_reporting|]. apply stepped_refl, Hg.
  - exists s. split; [apply sw_destroy|]. apply stepped_refl, Hg.
Qed.
End Zombie.

(** ** Executing a dialplan *)

(** A session that executes a dialplan and is not asked for anything else. *)
Record executing (s : session) : Prop := {
  ex_settled : settled (ss_channel s);
  ex_state : state_of s = CS_EXECUTE;
  ex_running : running_state_of s = CS_EXECUTE;
  ex_cause : ch_hangup_cause (ss_channel s) = 0;
  ex_flags : Forall (fun f => flag (ss_channel s) f = 0)
               [CF_TRANSFER; CF_NOT_READY; CF_CONFIRM_BLIND_TRANSFER; CF_RESET];
  ex_unclaimed : claimed (ss_channel s) = false;
  ex_readable : readable s
}.

(** The extensions and what is left of them, and the applications executed. *)
Record same_dialplan (s s' : session) : Prop := {
  sm_apps e : ss_applications s' e = ss_applications s e;
  sm_extensions : ss_extensions s' = ss_extensions s;
  sm_calls : apps_called s' = apps_called s
}.

Lemma flag_put_zero f c : flag (put_flag f 0 c) f = 0.
Proof.
  unfold flag, put_flag. simpl. rewrite list_lookup_insert. case_decide as H; [done|].
  by rewrite (proj2 (lookup_ge_None (ch_flags c) (Z.to_nat f))) by lia.
Qed.

(** What [executing] says of a channel stays when another flag is written. *)
Lemma executing_channel s c : executing s -> quiet (ss_channel s) c -> ch_running_state c = running_state_of s ->
  (forall f, f ∈ [CF_TRANSFER; CF_NOT_READY; CF_CONFIRM_BLIND_TRANSFER; CF_RESET] ->
     flag c f = 0 \/ flag c f = flag (ss_channel s) f) ->
  executing (s <| ss_channel := c |>).
Proof.
  intros [E1 E2 E3 E4 E5 E6 E7] Q Hr Hf. pose proof (quiet_steady _ _ E1 Q) as S1.
  destruct Q as [Q1 Q2 Q3 _ _ _]. unfold state_of in *. split.
  - apply S1.
  - unfold state_of. cbn. congruence.
  - unfold running_state_of in *. cbn. congruence.
  - cbn. congruence.
  - apply Forall_forall. intros f Hin. rewrite Forall_forall in E5. cbn [ss_channel set].
    destruct (Hf f Hin) as [H|H]; [exact H|]. etrans; [exact H|]. by apply E5.
  - unfold claimed in *. cbn. by rewrite Q3.
  - by destruct E7.
Qed.

Lemma ready_executing env c : ch_state c = CS_EXECUTE -> ch_running_state c = CS_EXECUTE -> ch_hangup_cause c = 0 ->
  flag c CF_TRANSFER = 0 -> flag c CF_NOT_READY = 0 -> switch_channel_test_ready env true false c = true.
Proof.
  intros E1 E2 E3 E4 E5. unfold switch_channel_test_ready, switch_channel_state_change_pending, down_nosig,
    switch_channel_test_flag. rewrite E1, E2, E3, E4, E5. cbn [Z.eqb negb andb].
  by destruct (in_thread env).
Qed.

Section Execute.
Context (w : world) (aw : app_world) `{Hw : !channel_client w}.

(** The applications [plain] succeed and leave the session executing; the calls of the
    handler find nothing else to do, and signals do not bring a session back that has
    left the state. *)
Class plain_apps (plain : list application) : Prop := {
  pa_app app s : app ∈ plain -> executing s ->
    exists s', aw_execute aw app s = Ret (SWITCH_STATUS_SUCCESS, s') /\ executing s' /\ same_dialplan s s';
  pa_ext e s : e = VideoReset \/ e = CheckSignal -> executing s ->
    exists s', w_ext w e s = Ret s' /\ executing s' /\ same_dialplan s s';
  pa_away s : state_of s <> CS_EXECUTE ->
    exists s', w_ext w CheckSignal s = Ret s' /\ state_of s' <> CS_EXECUTE /\ apps_called s' = apps_called s
}.
Context {plain : list application} `{Hp : !plain_apps plain}.

(** An application that ends the dialplan: it fails, or takes the session out of
    [CS_EXECUTE], as a transfer or a hangup does. *)
Definition stops (app : application) : Prop := forall s, executing s ->
  exists status s', aw_execute aw app s = Ret (status, s') /\ apps_called s' = apps_called s /\
    (status = SWITCH_STATUS_SUCCESS -> has_flag s' CF_RESET = false /\ state_of s' <> CS_EXECUTE).

Lemma executing_log c s : executing s -> executing (log_call c s).
Proof. intros [E1 E2 E3 E4 E5 E6 E7]. split; try done. by destruct E7. Qed.
Lemma executing_pop e rest s : executing s -> executing (pop_application e rest s).
Proof. intros [E1 E2 E3 E4 E5 E6 E7]. split; try done. by destruct E7. Qed.

Lemma has_flag_zero s f : flag (ss_channel s) f = 0 -> has_flag s f = false.
Proof. intros H. unfold has_flag, switch_channel_test_flag. by rewrite H. Qed.

Lemma executing_flag s f : executing s -> f ∈ [CF_TRANSFER; CF_NOT_READY; CF_CONFIRM_BLIND_TRANSFER; CF_RESET] ->
  flag (ss_channel s) f = 0.
Proof. intros Hs Hf. pose proof (ex_flags _ Hs) as H. rewrite Forall_forall in H. by apply H. Qed.

Ltac in_list := repeat (apply elem_of_cons; first [left; reflexivity|right]).

(** Plain applications are executed one after the other. *)
Lemma execute_plain e rest l : (forall app, app ∈ l -> app ∈ plain) -> forall s, executing s -> ss_applications s e = l ++ rest ->
  exists s', (forall fuel, execute_loop w aw (length l + fuel) e s = execute_loop w aw fuel e s') /\ executing s' /\
    ss_applications s' e = rest /\ apps_called s' = apps_called s ++ l.
Proof.
  induction l as [|app l IH]; intros Hl s Hs El; [by exists s; rewrite app_nil_r|].
  pose proof (executing_log (AppCall app) _ (executing_pop e (l ++ rest) s Hs)) as Hs1.
  destruct (pa_app app _ (Hl app ltac:(left)) Hs1) as (s2 & E2 & Hs2 & [A1 A2 A3]).
  destruct (IH (fun x Hx => Hl x ltac:(by right)) s2 Hs2) as (s3 & Hf & Hs3 & Er & Ea).
  { rewrite A1. cbn. by rewrite Z.eqb_refl. }
  exists s3. split.
  { intros fuel. cbn [length Nat.add execute_loop]. rewrite decide_True by apply Hs. rewrite El. cbn [List.app]. unfold execute_application.
    rewrite E2. cbn [rbind]. rewrite decide_False by naive_solver. rewrite has_flag_zero by (apply executing_flag; [done|in_list]). apply Hf. }
  split; [done|]. split; [done|]. rewrite Ea, A3, apps_log. rewrite <- app_assoc. done.
Qed.

(** A step of the handler that executes no application. *)
Record keeps (s s' : session) : Prop := {
  kp_executing : executing s';
  kp_apps e : ss_applications s' e = ss_applications s e;
  kp_extensions : ss_extensions s' = ss_extensions s;
  kp_called : apps_called s' = apps_called s
}.
Definition keeping (s : session) (m : res session) : Prop := exists s', m = Ret s' /\ keeps s s'.

Lemma kept_trans s1 s2 s3 : keeps s1 s2 -> keeps s2 s3 -> keeps s1 s3.
Proof. intros [A1 A2 A3 A4] [B1 B2 B3 B4]. split; [done|congruence|congruence|congruence]. Qed.

Lemma keeping_refl s : executing s -> keeping s (Ret s).
Proof. intros Hs. by exists s. Qed.

Lemma keeping_bind s m k : keeping s m -> (forall s', executing s' -> keeping s' (k s')) -> keeping s (rbind m k).
Proof.
  intros (s1 & -> & H1) Hk. destruct (Hk s1 (kp_executing _ _ H1)) as (s2 & E2 & H2). exists s2.
  split; [done|]. by eapply kept_trans.
Qed.

Lemma keeping_channel s c m : executing s -> m = Ret (s <| ss_channel := c |>) -> quiet (ss_channel s) c ->
  ch_running_state c = running_state_of s ->
  (forall f, f ∈ [CF_TRANSFER; CF_NOT_READY; CF_CONFIRM_BLIND_TRANSFER; CF_RESET] ->
     flag c f = 0 \/ flag c f = flag (ss_channel s) f) -> keeping s m.
Proof.
  intros Hs -> Q Hr Hf. eexists. split; [done|]. split; [by apply executing_channel|done|done|done].
Qed.

Lemma keeping_ext e s : e = VideoReset \/ e = CheckSignal -> executing s -> keeping s (ext w e s).
Proof.
  intros He Hs. destruct (pa_ext e _ He (executing_log (ExtCall e) s Hs)) as (s' & E & Hs' & [A1 A2 A3]).
  exists s'. split; [done|]. split; [done|intros x; by rewrite A1|done|].
  by rewrite A3, apps_log, app_nil_r.
Qed.

(** The handler up to the loop. *)
Definition execute_prologue (s : session) : res session :=
  s <-! clear_flag CF_RECOVERING s;;
  s <-! set_call_uuid aw s;;
  s <-! (if bool_decide (is_Some (ss_variable s (str "recovered"))) && negb (has_flag s CF_RECOVERED)
         then set_flag CF_RECOVERED s else Ret s);;
  s <-! clear_flag CF_RESET s;;
  ext w VideoReset s.

Lemma in_listed f : f ∈ [CF_TRANSFER; CF_NOT_READY; CF_CONFIRM_BLIND_TRANSFER; CF_RESET] ->
  f = CF_TRANSFER \/ f = CF_NOT_READY \/ f = CF_CONFIRM_BLIND_TRANSFER \/ f = CF_RESET.
Proof. rewrite !elem_of_cons, elem_of_nil. tauto. Qed.

Lemma prologue_keeps s : executing s -> keeping s (execute_prologue s).
Proof.
  intros Hs. unfold execute_prologue. apply keeping_bind.
  { eapply keeping_channel; [done|reflexivity|etrans; [apply quiet_put_flag|by apply quiet_emit_if]|by destruct (_ =? 0)|].
    intros f Hf. right. rewrite flag_emit_if. apply flag_put_ne.
    destruct (in_listed f Hf) as [-> | [-> | [-> | ->]]]; vm_compute; discriminate. }
  clear s Hs. intros s Hs. apply keeping_bind.
  { eapply keeping_channel; [done|reflexivity|by apply quiet_emit|done|]. intros f _. by right. }
  clear s Hs. intros s Hs. apply keeping_bind.
  { case_if E; [|by apply keeping_refl].
    eapply (keeping_channel s (emit (SetVariable (str "recovered") (Some (str "true")))
      (if negb (flag (ss_channel s) CF_RECOVERED =? 1) then put_flag CF_RECOVERED 1 (ss_channel s) else ss_channel s)));
      [done|reflexivity| |by destruct (flag (ss_channel s) CF_RECOVERED =? 1)|].
    - etrans; [|by apply quiet_emit]. case_if E1; [apply quiet_put_flag|reflexivity].
    - intros f Hf. right. change (flag (emit _ ?c) f) with (flag c f). case_if E1; [|done]. apply flag_put_ne.
      destruct (in_listed f Hf) as [-> | [-> | [-> | ->]]]; vm_compute; discriminate. }
  clear s Hs. intros s Hs. apply keeping_bind.
  { eapply keeping_channel; [done|reflexivity|apply quiet_put_flag|done|].
    intros f Hf. destruct (decide (f = CF_RESET)) as [->|Hn]; [left; apply flag_put_zero|right].
    apply flag_put_ne. destruct (in_listed f Hf) as [-> | [-> | [-> | ->]]]; try done; vm_compute; discriminate. }
  clear s Hs. intros s Hs. apply keeping_ext; [by left|done].
Qed.

Lemma execute_eq fuel s : switch_core_standard_on_execute w aw fuel s =
  s <-! execute_prologue s;;
  '(extension, s) <-! match switch_channel_get_caller_extension s with
                      | Some extension => Ret (Some extension, s)
                      | None => s <-! hangup w SWITCH_CAUSE_NORMAL_CLEARING s;; Ret (None, s)
                      end;;
  match extension with
  | None => Ret (Some s)
  | Some extension =>
    r <-! execute_loop w aw fuel extension s;;
    match r with
    | None => Ret None
    | Some (true, s) => Ret (Some s)
    | Some (false, s) => s <-! execute_end w aw s;; Ret (Some s)
    end
  end.
Proof.
  unfold switch_core_standard_on_execute, execute_prologue, execute_top. rewrite !rbind_assoc.
  repeat (apply rbind_ext; intros; rewrite ?rbind_assoc). done.
Qed.

Lemma ready_keeps s : executing s ->
  exists s', switch_channel_ready w s = Ret (true, s') /\ keeps s s'.
Proof.
  intros Hs. unfold switch_channel_ready. destruct (keeping_ext CheckSignal s) as (s' & -> & Hk); [by right|done|].
  cbn [rbind]. exists s'. split; [|done]. pose proof (kp_executing _ _ Hk) as Hs'. f_equal. f_equal.
  apply ready_executing; [apply Hs'|apply Hs'|apply Hs'|apply executing_flag; [done|in_list]..].
Qed.

(** Behind the loop, the session is hung up. *)
Lemma execute_end_hangs_up s : executing s ->
  exists s', execute_end w aw s = Ret s' /\ going s' /\
    ch_hangup_cause (ss_channel s') = SWITCH_CAUSE_NORMAL_CLEARING /\
    apps_called s `prefix_of` apps_called s'.
Proof.
  intros Hs. unfold execute_end, confirm_blind_transfer.
  destruct (ready_keeps s Hs) as (s1 & -> & K1). cbn [rbind]. pose proof (kp_executing _ _ K1) as Hs1.
  rewrite (has_flag_zero s1 CF_CONFIRM_BLIND_TRANSFER) by (apply executing_flag; [done|in_list]).
  rewrite andb_false_r. cbn [rbind].
  destruct (ready_keeps s1 Hs1) as (s2 & -> & K2). cbn [rbind]. pose proof (kp_executing _ _ K2) as Hs2.
  rewrite bool_decide_eq_true_2 by apply Hs2. cbn [andb].
  destruct (hangup_going w SWITCH_CAUSE_NORMAL_CLEARING s2) as (s3 & E3 & G3 & C3 & (l & Hl)).
  - apply Hs2.
  - rewrite (ex_state _ Hs2). done.
  - apply Hs2.
  - apply Hs2.
  - exists s3. split; [done|]. split; [done|]. split; [done|]. rewrite <- (kp_called _ _ K1), <- (kp_called _ _ K2).
    unfold apps_called. rewrite Hl, flat_map_app. by apply prefix_app_r.
Qed.

(** A session that has left the state is left alone behind the loop. *)
Lemma ready_away s : state_of s <> CS_EXECUTE ->
  exists b s', switch_channel_ready w s = Ret (b, s') /\ state_of s' <> CS_EXECUTE /\ apps_called s' = apps_called s.
Proof.
  intros Hs. unfold switch_channel_ready, ext. destruct (pa_away (log_call (ExtCall CheckSignal) s) Hs) as (s' & -> & Hs' & Hc).
  cbn [rbind]. eexists _, s'. split; [done|]. split; [done|]. by rewrite Hc, apps_log, app_nil_r.
Qed.
Lemma execute_end_away s : state_of s <> CS_EXECUTE ->
  exists s', execute_end w aw s = Ret s' /\ state_of s' <> CS_EXECUTE /\ apps_called s' = apps_called s.
Proof.
  intros Hs. unfold execute_end, confirm_blind_transfer.
  destruct (ready_away s Hs) as (b & s1 & -> & Hs1 & C1). cbn [rbind].
  rewrite bool_decide_eq_false_2, andb_false_r by done. cbn [andb rbind].
  destruct (ready_away s1 Hs1) as (b2 & s2 & -> & Hs2 & C2). cbn [rbind].
  rewrite bool_decide_eq_false_2, andb_false_r by done. exists s2. split; [done|]. split; [done|congruence].
Qed.

(** The loop at an application that ends the dialplan, and behind it. *)
Lemma execute_stop e x rest fuel s : stops x -> executing s -> ss_applications s e = x :: rest ->
  exists s0 status s1 s', executing s0 /\ aw_execute aw x s0 = Ret (status, s1) /\
    (r <-! execute_loop w aw (S (S fuel)) e s;;
     match r with
     | None => Ret None
     | Some (true, s) => Ret (Some s)
     | Some (false, s) => s <-! execute_end w aw s;; Ret (Some s)
     end) = Ret (Some s') /\
    apps_called s' = apps_called s ++ [x] /\
    (if decide (status = SWITCH_STATUS_SUCCESS) then state_of s' <> CS_EXECUTE else s' = s1).
Proof.
  intros Hx Hs El. pose (s0 := log_call (AppCall x) (pop_application e rest s)).
  assert (Hs0 : executing s0) by (apply executing_log, executing_pop, Hs).
  destruct (Hx s0 Hs0) as (status & s1 & E & Hc & Hok). exists s0, status, s1.
  assert (Ha : apps_called s1 = apps_called s ++ [x]).
  { rewrite Hc. unfold s0. by rewrite apps_log. }
  cbn [execute_loop]. rewrite decide_True by apply Hs. rewrite El. unfold execute_application. fold s0. rewrite E. cbn [rbind].
  destruct (decide (status = SWITCH_STATUS_SUCCESS)) as [->|Hne].
  - destruct (Hok eq_refl) as [Hr Hst]. rewrite decide_False by naive_solver. rewrite Hr. rewrite decide_False by done. cbn [rbind].
    destruct (execute_end_away s1 Hst) as (s' & -> & Hs' & Hcalled). cbn [rbind]. exists s'. split_and!; try done. congruence.
  - rewrite decide_True by done. cbn [rbind]. by exists s1.
Qed.
End Execute.

(** ** Routing *)

Lemma set_state_next next s : settled (ss_channel s) -> live (state_of s) -> state_of s <> next -> live next ->
  next <> CS_NEW -> next <> CS_INIT ->
  exists c, set_state next s = Ret (s <| ss_channel := c |>) /\ ch_state c = next /\ ch_flags c = ch_flags (ss_channel s).
Proof.
  intros Hs Hl Hne Hn H1 H2. unfold set_state, with_channel, state_of in *.
  assert (Hnone : next <> CS_NONE) by (intros ->; vm_compute in Hn; discriminate).
  destruct (set_state_cases (ss_env s) next (ss_channel s) Hnone (st_state _ Hs))
    as [[_ [E|[Hd _]]]|[(c & -> & Hm & _)|(_ & _ & _ & Hf)]].
  - done.
  - unfold live, down in *. lia.
  - exists c. split; [done|]. split; apply Hm.
  - destruct Hf. right; right; left. by split_and!.
Qed.

Section Routing.
Context (w : world) (aw : app_world) `{Hw : !channel_client w}.

(** A session that is being routed. *)
Record routing (s : session) : Prop := {
  ro_settled : settled (ss_channel s);
  ro_state : state_of s = CS_ROUTING;
  ro_unclaimed : claimed (ss_channel s) = false;
  ro_readable : readable s
}.

(** Hunt functions may change the session and answer as they like, but return and leave
    it routing; so does a blind transfer acknowledgement that is refused, and bringing
    the media back, which also leaves the queue and the dialplans alone. *)
Class routing_world : Prop := {
  rw_hunt name f arg s : aw_dialplan aw name = Some f -> routing s ->
    exists e s', f arg s = Ret (e, s') /\ routing s';
  rw_ack s : routing s -> exists acked s', aw_blind_transfer_ack aw s = Ret (acked, s') /\ (acked = false -> routing s');
  rw_media s : routing s -> exists s', w_ext w IvrMedia s = Ret s' /\ routing s' /\ ss_dialplan s' = ss_dialplan s /\
    ch_queued_extension (ss_channel s') = ch_queued_extension (ss_channel s)
}.
Context `{Hl : routing_world}.

(** [asks dp s target asked s']: the dialplans named in [dp] are asked one after the
    other, the first on the session [s] and each other one on the session the one before
    it left; names nobody knows are passed over.  [target] is the first answer, behind
    which nobody is asked; [asked] tells whether anybody was, [s'] is what is left. *)
Inductive asks : list (list Z) -> session -> option Z -> bool -> session -> Prop :=
| asks_nobody s : asks [] s None false s
| asks_unknown name dp s target asked s' :
    aw_dialplan aw (split_name name).1 = None -> asks dp s target asked s' -> asks (name :: dp) s target asked s'
| asks_answered name dp s f e s' :
    aw_dialplan aw (split_name name).1 = Some f ->
    f (split_name name).2 (log_call (HuntCall (split_name name).1 (split_name name).2) s) = Ret (Some e, s') ->
    asks (name :: dp) s (Some e) true s'
| asks_next name dp s f s1 target asked s' :
    aw_dialplan aw (split_name name).1 = Some f ->
    f (split_name name).2 (log_call (HuntCall (split_name name).1 (split_name name).2) s) = Ret (None, s1) ->
    asks dp s1 target asked s' -> asks (name :: dp) s target true s'.

Lemma routing_log c s : routing s -> routing (log_call c s).
Proof. intros [R1 R2 R3 R4]. split; try done. by destruct R4. Qed.

Lemma hunt_asks dp : forall count s, 0 <= count -> routing s -> exists count' target asked s',
  hunt_loop aw dp count s = Ret (count', target, s') /\ asks dp s target asked s' /\ routing s' /\
  (target = None -> (count' =? 0) = (count =? 0) && negb asked).
Proof.
  induction dp as [|name dp IH]; intros count s Hc Hs; cbn [hunt_loop].
  - exists count, None, false, s. split; [done|]. split; [constructor|]. split; [done|]. intros _. by rewrite andb_true_r.
  - destruct (split_name name) as [n arg] eqn:En.
    destruct (aw_dialplan aw n) as [f|] eqn:Ef.
    + destruct (rw_hunt n f arg (log_call (HuntCall n arg) s) Ef (routing_log _ _ Hs)) as ([e|] & s1 & E1 & H1); rewrite E1; cbn [rbind].
      * exists (count + 1), (Some e), true, s1. split; [done|]. split; [|done].
        apply (asks_answered name dp s f e s1); by rewrite En.
      * destruct (IH (count + 1) s1) as (c' & target & asked & s' & -> & Ha & Hs' & H); [lia|done|].
        exists c', target, true, s'. split; [done|]. split; [|split; [done|]].
        -- apply (asks_next name dp s f s1 target asked s'); by rewrite ?En.
        -- intros Ht. rewrite (H Ht), andb_false_r. by rewrite (proj2 (Z.eqb_neq (count + 1) 0)) by lia.
    + destruct (IH count s Hc Hs) as (c' & target & asked & s' & -> & Ha & H). exists c', target, asked, s'.
      split; [done|]. split; [|done]. apply asks_unknown; [by rewrite En|done].
Qed.

(** The session the search begins with: it has the name of the call, its media back if
    it gave them away, and no extension in its queue. *)
Definition prepared (s s0 : session) : Prop := exists s1 s2, set_call_uuid aw s = Ret s1 /\
  (if (has_flag s CF_ANSWERED || has_flag s CF_EARLY_MEDIA || has_flag s CF_SIGNAL_BRIDGE_TTL) && has_flag s CF_PROXY_MODE
   then ext w IvrMedia s1 = Ret s2 else s2 = s1) /\
  s0 = s2 <| ss_channel := (ss_channel s2) <| ch_queued_extension := None |> |>.

(** [consults s d target asked s']: what the dialplans [d] of the profile say. *)
Definition consults (s : session) (d : option cstring) (target : option Z) (asked : bool) (s' : session) : Prop :=
  if zstr d then target = None /\ asked = false /\ s' = s
  else exists dp, switch_separate_string (aw_expand aw s (default [] d)) 44 25 = Ret dp /\ asks dp s target asked s'.

Lemma dialplans_asked d s : routing s ->
  (zstr d = false -> is_ret (switch_separate_string (aw_expand aw s (default [] d)) 44 25)) ->
  exists count target asked s',
    (if zstr d then Ret (0, None, s)
     else dp <-! switch_separate_string (aw_expand aw s (default [] d)) 44 25;; hunt_loop aw dp 0 s) =
    Ret (count, target, s') /\ consults s d target asked s' /\ routing s' /\ (target = None -> (count =? 0) = negb asked).
Proof.
  intros Hs Hd. unfold consults. case_if Ez; [by exists 0, None, false, s|].
  destruct (Hd eq_refl) as [dp ->]. cbn [rbind].
  destruct (hunt_asks dp 0 s) as (count & target & asked & s' & -> & Ha & Hs' & H); [lia|done|].
  exists count, target, asked, s'. split; [done|]. split; [by exists dp|done].
Qed.

(** The handler up to the search. *)
Lemma prepared_ok s : routing s -> exists s1 s2, set_call_uuid aw s = Ret s1 /\ (forall f, has_flag s1 f = has_flag s f) /\
  (if (has_flag s CF_ANSWERED || has_flag s CF_EARLY_MEDIA || has_flag s CF_SIGNAL_BRIDGE_TTL) && has_flag s CF_PROXY_MODE
   then ext w IvrMedia s1 else Ret s1) = Ret s2 /\ routing s2 /\ ss_dialplan s2 = ss_dialplan s /\
  ch_queued_extension (ss_channel s2) = ch_queued_extension (ss_channel s).
Proof.
  intros Hs. set (c1 := emit (SetVariable (str "call_uuid") (Some (aw_uuid aw))) (ss_channel s)).
  assert (H1 : routing (s <| ss_channel := c1 |>)).
  { destruct Hs as [[R1 R2] R3 R4 R5]. split; [by split|done|done|by destruct R5]. }
  exists (s <| ss_channel := c1 |>). case_if E; [|by eexists].
  destruct (rw_media (log_call (ExtCall IvrMedia) (s <| ss_channel := c1 |>)) (routing_log _ _ H1)) as (s2 & E2 & K). by exists s2.
Qed.

(** Where a call goes from the session [s] the dialplans left. *)
Definition routed (s : session) (target : option Z) (asked : bool) (s' : session) : Prop :=
  match target with
  | Some e => state_of s' = CS_EXECUTE /\ ss_extensions s' = e :: ss_extensions s
  | None =>
    let no_route s' := down (state_of s') /\ ch_hangup_cause (ss_channel s') = SWITCH_CAUSE_NO_ROUTE_DESTINATION in
    if negb asked && bool_decide (ch_direction (ss_channel s) = SWITCH_CALL_DIRECTION_OUTBOUND) then
      if has_flag s CF_ANSWERED then no_route s' else state_of s' = CS_CONSUME_MEDIA
    else exists acked s2, aw_blind_transfer_ack aw s = Ret (acked, s2) /\ if (acked : bool) then s' = s2 else no_route s'
  end.

Lemma route_to_spec e s : routing s ->
  exists s', route_to e s = Ret s' /\ state_of s' = CS_EXECUTE /\ ss_extensions s' = e :: ss_extensions s.
Proof.
  intros [Hs Es _ _]. unfold route_to, switch_channel_set_caller_extension, has_profile.
  rewrite bool_decide_eq_true_2 by apply Hs. cbn [rbind].
  assert (E2 : state_of ((log_call (ExtCall SortCid) s) <| ss_extensions ::= cons e |>) = CS_ROUTING) by done.
  destruct (set_state_next CS_EXECUTE ((log_call (ExtCall SortCid) s) <| ss_extensions ::= cons e |>)) as (c & -> & Ec & _);
    try done; rewrite ?E2; try done.
  by eexists.
Qed.

Lemma hangup_routed cause s : routing s ->
  exists s', hangup w cause s = Ret s' /\ down (state_of s') /\ ch_hangup_cause (ss_channel s') = cause.
Proof.
  intros [Hs Es Hc Hr]. destruct (hangup_going w cause s) as (s' & E & G & C & _); try done; [by rewrite Es|].
  exists s'. split; [done|]. split; [apply G|done].
Qed.

(** The decision behind the search. *)
Lemma decision target asked count s : routing s -> (target = None -> (count =? 0) = negb asked) ->
  exists s', (match target with
    | Some extension => route_to extension s
    | None =>
      if (count =? 0) && bool_decide (ch_direction (ss_channel s) = SWITCH_CALL_DIRECTION_OUTBOUND) then
        if has_flag s CF_ANSWERED then hangup w SWITCH_CAUSE_NO_ROUTE_DESTINATION s
        else set_state CS_CONSUME_MEDIA s
      else no_route w aw s
    end) = Ret s' /\ routed s target asked s'.
Proof.
  intros Hs Hcount. destruct target as [e|]; [by apply route_to_spec|]. rewrite (Hcount eq_refl). cbn [routed]. case_if Eb.
  - case_if Ea; [by apply hangup_routed|]. pose proof (ro_state _ Hs) as Es.
    destruct (set_state_next CS_CONSUME_MEDIA s) as (c & -> & Ec & _); try done; [apply Hs|by rewrite Es|by rewrite Es|].
    by eexists.
  - unfold no_route. destruct (rw_ack s Hs) as (acked & s1 & E & H). rewrite E. cbn [rbind]. destruct acked.
    + exists s1. split; [done|]. by exists true, s1.
    + destruct (hangup_routed SWITCH_CAUSE_NO_ROUTE_DESTINATION s1 (H eq_refl)) as (s' & E' & H'). exists s'. split; [done|]. by exists false, s1.
Qed.
End Routing.

(** ** Claims *)

(** C28: a dialplan is executed.  The standard handler of a session that executes
    (with the state and the running state [CS_EXECUTE], no cause, and no transfer, reset
    or blind transfer pending) executes the applications of its extension in their
    order.  As long as they succeed and leave the session executing and its extensions
    as they are, the next one follows; behind the last one the channel is hung up with
    the cause NORMAL_CLEARING.  The first one that fails, or that succeeds and takes the
    session out of [CS_EXECUTE], as a transfer or a hangup does, is the last that is
    executed: nothing behind it is, and the handler returns with the session as the
    application failed, or in the state it went to.  As many steps as there are
    applications up to there, and one, are enough. *)
Theorem dialplan_is_executed (w : world) (aw : app_world) (s : session) (e : Z) (plain rest : list application) :
  channel_client w -> plain_apps w aw plain -> executing s ->
  head (ss_extensions s) = Some e -> ss_applications s e = plain ++ rest ->
  match rest with
  | [] => exists s', switch_core_standard_on_execute w aw (length plain + 1) s = Ret (Some s') /\
      (apps_called s ++ plain) `prefix_of` apps_called s' /\
      down (state_of s') /\ ch_hangup_cause (ss_channel s') = SWITCH_CAUSE_NORMAL_CLEARING
  | x :: _ => stops aw x ->
      exists s0 status s1 s', executing s0 /\ aw_execute aw x s0 = Ret (status, s1) /\
        switch_core_standard_on_execute w aw (length plain + 2) s = Ret (Some s') /\
        apps_called s' = apps_called s ++ plain ++ [x] /\
        (if decide (status = SWITCH_STATUS_SUCCESS) then state_of s' <> CS_EXECUTE else s' = s1)
  end.
Proof.
  intros Hw Hp Hs He Ha.
  assert (H : exists s2, executing s2 /\ ss_applications s2 e = rest /\ apps_called s2 = apps_called s ++ plain /\
    forall fuel, switch_core_standard_on_execute w aw (length plain + fuel) s =
      r <-! execute_loop w aw fuel e s2;;
      match r with
      | None => Ret None
      | Some (true, s) => Ret (Some s)
      | Some (false, s) => s <-! execute_end w aw s;; Ret (Some s)
      end).
  { destruct (prologue_keeps w aw s Hs) as (s1 & E1 & [K1 K2 K3 K4]).
    destruct (execute_plain w aw e rest plain (fun _ H => H) s1 K1) as (s2 & Hf & Hs2 & Er & Ec); [by rewrite K2|].
    exists s2. split; [done|]. split; [done|]. split; [by rewrite Ec, K4|]. intros fuel. rewrite execute_eq, E1. cbn [rbind].
    unfold switch_channel_get_caller_extension, has_profile. rewrite bool_decide_eq_true_2 by apply K1. rewrite K3, He. cbn [rbind]. by rewrite Hf. }
  destruct H as (s2 & Hs2 & Er & Ec & Hf). destruct rest as [|x rest].
  - rewrite Hf. cbn [execute_loop]. rewrite decide_True by apply Hs2. rewrite Er. cbn [rbind].
    destruct (execute_end_hangs_up w aw s2 Hs2) as (s3 & -> & G3 & C3 & H3). cbn [rbind].
    exists s3. split; [done|]. rewrite <- Ec. split; [done|]. split; [apply G3|done].
  - intros Hx. rewrite Hf. destruct (execute_stop w aw e x rest 0 s2 Hx Hs2 Er) as (s0 & status & s1 & s' & H0 & E & El & Hc & H).
    exists s0, status, s1, s'. split_and!; try done. by rewrite Hc, Ec, <- app_assoc.
Qed.

(** C34: the standard handlers keep a session going down.  When handlers,
    endpoint, other calls and applications act on the channel by channel
    operations, and applications add no applications, the state machine with
    the standard handlers of hangup, reporting and destruction, zombie execution
    of the remaining applications included, takes a session that hung up to
    [CS_DESTROY] in two rounds. *)
Theorem standard_session_ends (w : world) (aw : app_world) (s : session) :
  standard_world w aw -> tame_world w aw ->
  settled (ss_channel s) -> down (state_of s) -> readable s ->
  exists s', switch_core_session_run w 2 s = Ret (true, s') /\ state_of s' = CS_DESTROY.
Proof.
  intros Hstd Htame Hs Hd Hr. pose proof (standard_client w aw) as Hw. unfold switch_core_session_run.
  destruct (loop_ends w 500 (s <| ss_thread_running := true |>) 2) as (s1 & h & r & -> & Hd1 & _); [|lia|].
  { split; [done|done|by destruct Hr]. }
  cbn [rbind]. by eexists.
Qed.

(** C29: where a call is routed.  The standard handler of a session in [CS_ROUTING]
    (settled, not hung up) takes a queued extension; else it asks the dialplans named in
    the caller profile, in their order, each on the session the one before it left, and
    takes the first answer; the extension is put in front of those of the session, which
    goes to [CS_EXECUTE].  Without an answer an outbound call about which nobody could be
    asked waits for media when it is not answered, and is hung up with
    NO_ROUTE_DESTINATION when it is; every other call is left to the acknowledgement of a
    blind transfer, and hung up with that cause when this refuses.  Hunt functions may
    change the session and depend on it; that they return and leave it in [CS_ROUTING],
    not hung up, is asked of them, of the acknowledgement that refuses and of bringing
    the media back, and that the text of the dialplans, expanded, can be separated (it
    does not end in a backslash). *)
Theorem routing_decides (w : world) (aw : app_world) (s : session) :
  channel_client w -> routing_world w aw -> routing s ->
  (zstr (ss_dialplan s) = false ->
   forall s0, routing s0 -> is_ret (switch_separate_string (aw_expand aw s0 (default [] (ss_dialplan s))) 44 25)) ->
  exists s0 target asked s1 s',
    switch_core_standard_on_routing w aw s = Ret s' /\ prepared w aw s s0 /\ routing s0 /\
    match ch_queued_extension (ss_channel s) with
    | Some e => target = Some e /\ s1 = s0
    | None => consults aw s0 (ss_dialplan s) target asked s1
    end /\ routed aw s1 target asked s'.
Proof.
  intros Hw Hl Hs Hd. unfold switch_core_standard_on_routing.
  destruct (prepared_ok w aw s Hs) as (s1 & s2 & E1 & F1 & E2 & R2 & D2 & Q2). rewrite E1. cbn [rbind]. rewrite !F1, E2. cbn [rbind].
  set (s3 := s2 <| ss_channel := (ss_channel s2) <| ch_queued_extension := None |> |>).
  assert (H0 : prepared w aw s s3).
  { exists s1, s2. split; [done|]. split; [|done]. destruct (_ && _); [done|by injection E2]. }
  destruct R2 as [S2 T2 C2 R2]. assert (H3 : routing s3) by (split; [by destruct S2|done|done|by destruct R2]).
  unfold has_profile. rewrite bool_decide_eq_true_2 by apply S2. cbn [negb]. unfold switch_channel_get_queued_extension.
  rewrite Q2. cbv beta iota zeta. fold s3. exists s3. destruct (ch_queued_extension (ss_channel s)) as [e|].
  { destruct (route_to_spec e s3 H3) as (s' & -> & H). by exists (Some e), false, s3, s'. }
  change (ss_dialplan s3) with (ss_dialplan s2). rewrite D2.
  destruct (dialplans_asked w aw (ss_dialplan s) s3 H3 (fun Hz => Hd Hz s3 H3)) as (count & target & asked & s4 & -> & Ha & H4 & Hc).
  cbn [rbind]. destruct (decision w aw target asked count s4 H4 Hc) as (s' & E' & H). by exists target, asked, s4, s'.
Qed.

(** ** Concrete worlds *)
Definition play (app : application) (s : session) : res (switch_status * session) :=
  s <-! do_op (SetPrivateFlag 1) s;; Ret (SWITCH_STATUS_SUCCESS, s).
Definition demo_apps : app_world :=
  mk_app_world play (fun _ => None) (fun _ d => to_Z d) (fun s => Ret (false, s)) (fun _ _ => false) (str "a-leg").
Definition demo_plan : list application := [(str "answer", []); (str "playback", str "tone.wav"); (str "echo", [])].

(** The standard handlers with the fuel they need. *)
Definition zombie_fuel (s : session) : nat :=
  match switch_channel_get_caller_extension s with Some e => S (length (ss_applications s e)) | None => 0 end.
Definition zombie_driver (st : channel_state) : option handler :=
  match st with CS_HANGUP => Some (accept (SetPrivateFlag 2)) | _ => None end.
Definition zombie_world : world :=
  mk_world demo_tables zombie_driver (fun _ s => Ret s)
    (fun st s => match st with
                 | CS_HANGUP => r <-! switch_core_standard_on_hangup demo_world demo_apps (zombie_fuel s) s;;
                                match r with Some s => Ret s | None => Abort end
                 | _ => Ret s
                 end) true.

Lemma play_eq app s : play app s = Ret (SWITCH_STATUS_SUCCESS, s <| ss_channel := switch_channel_set_private_flag 1 (ss_channel s) |>).
Proof. done. Qed.

(** Fuel that suffices gives the result any other fuel gives. *)
Lemma zombie_determined e fuel : forall fuel' s s', zombie_loop demo_apps fuel' e s = Ret (Some s') ->
  (length (ss_applications s e) < fuel)%nat -> zombie_loop demo_apps fuel e s = Ret (Some s').
Proof.
  induction fuel as [|fuel IH]; intros [|fuel'] s s' E Hf; try lia; [done|]. cbn [zombie_loop] in *.
  destruct (ss_applications s e) as [|app rest] eqn:Ea; [done|].
  unfold execute_application in *. cbn [aw_execute demo_apps] in *. rewrite play_eq in *. cbn [rbind] in *.
  rewrite bool_decide_eq_false_2 in * by (by intros [? _]). apply (IH fuel'); [done|].
  cbn. rewrite Z.eqb_refl. simpl in Hf. lia.
Qed.

(** The extensions stay. *)
Definition same_extensions (s s' : session) : Prop :=
  ss_applications s' = ss_applications s /\ ss_extensions s' = ss_extensions s /\
  ch_times (ss_channel s') = ch_times (ss_channel s).
Lemma demo_ext_same e s s' : ext demo_world e s = Ret s' -> same_extensions s s'.
Proof. by intros [= <-]. Qed.
Lemma clear_recovering_same s s' : clear_flag CF_RECOVERING s = Ret s' -> same_extensions s s'.
Proof.
  unfold clear_flag, with_channel. intros (c & [= <-] & [= <-])%rbind_Ret. split_and!; try done.
  cbn [ss_channel set]. unfold emit_if. by case_if E.
Qed.
Lemma same_extension s s' : same_extensions s s' ->
  switch_channel_get_caller_extension s' = switch_channel_get_caller_extension s /\ zombie_fuel s' = zombie_fuel s.
Proof.
  intros (H1 & H2 & H3). unfold zombie_fuel, switch_channel_get_caller_extension, has_profile. by rewrite H1, H2, H3.
Qed.
Lemma same_extensions_trans s1 s2 s3 : same_extensions s1 s2 -> same_extensions s2 s3 -> same_extensions s1 s3.
Proof. unfold same_extensions. intros (?&?&?) (?&?&?). split_and!; congruence. Qed.

Lemma zombie_hangup fuel s s' : switch_core_standard_on_hangup demo_world demo_apps fuel s = Ret (Some s') ->
  switch_core_standard_on_hangup demo_world demo_apps (zombie_fuel s) s = Ret (Some s').
Proof.
  unfold switch_core_standard_on_hangup. intros (b & -> & E)%rbind_Ret. cbn [rbind].
  apply rbind_Ret in E as (s1 & E1 & E). rewrite E1. cbn [rbind].
  apply rbind_Ret in E as (s2 & E2 & E). rewrite E2. cbn [rbind].
  apply rbind_Ret in E as (s3 & E3 & E). rewrite E3. cbn [rbind].
  assert (K : same_extensions s s3).
  { apply (same_extensions_trans _ s1); [destruct b; [by apply (demo_ext_same MediaSetStats)|by injection E1 as <-]|].
    apply (same_extensions_trans _ s2); [by apply clear_recovering_same|].
    case_if_in E3 E0; [by injection E3 as <-|by apply (demo_ext_same RecoveryUntrack)]. }
  destruct (same_extension _ _ K) as [K1 K2]. case_if E0; [done|]. rewrite <- K2. unfold zombie_fuel.
  destruct (switch_channel_get_caller_extension s3) as [e|]; [|done].
  eapply zombie_determined; [exact E|lia].
Qed.

#[export] Instance zombie_standard : standard_world zombie_world demo_apps.
Proof.
  split; [|done|done]. intros fuel s s' E. cbn [w_standard zombie_world].
  change (switch_core_standard_on_hangup zombie_world) with (switch_core_standard_on_hangup demo_world) in E.
  by rewrite (zombie_hangup _ _ _ E).
Qed.

#[export] Instance zombie_tame : tame_world zombie_world demo_apps.
Proof.
  split; [apply (cc_table (w := demo_world))| |intros e; apply ret_ops|..].
  - intros st f. destruct st; try discriminate. intros [= <-]. by apply then_ops.
  - intros app s Hg. destruct (channel_stepped (SetPrivateFlag 1) s Hg I) as (s' & E & Hs).
    exists (SWITCH_STATUS_SUCCESS, s'). split; [|done]. cbn [aw_execute demo_apps]. unfold play, do_op. by rewrite E.
  - intros app s status s' e. cbn [aw_execute demo_apps]. rewrite play_eq. intros [= _ <-]. done.
Qed.

Definition planned_session (c : channel) : session :=
  (demo_session c) <| ss_extensions := [7] |> <| ss_applications := fun e => if e =? 7 then demo_plan else [] |>.

Lemma planned_readable c : readable (planned_session c).
Proof. by destruct (demo_readable c). Qed.

Lemma standard_session_ends_witness :
  exists s', switch_core_session_run zombie_world 2 (planned_session (put_flag CF_ZOMBIE_EXEC 1 hungup_channel))
      = Ret (true, s') /\ state_of s' = CS_DESTROY.
Proof.
  apply (standard_session_ends zombie_world demo_apps (planned_session (put_flag CF_ZOMBIE_EXEC 1 hungup_channel))).
  - exact zombie_standard.
  - exact zombie_tame.
  - split; [by eexists|done].
  - done.
  - apply planned_readable.
Defined.

(** The zombie executes its plan. *)
Example zombie_plan :
  match switch_core_session_run zombie_world 2 (planned_session (put_flag CF_ZOMBIE_EXEC 1 hungup_channel)) with
  | Ret (true, s) => apps_called s
  | _ => []
  end = demo_plan.
Proof. vm_compute. reflexivity. Qed.

(** A transfer leaves the state; everything else plays. *)
Definition transfer_execute (app : application) (s : session) : res (switch_status * session) :=
  if decide (to_Z app.1 = text "transfer") then s <-! set_state CS_ROUTING s;; Ret (SWITCH_STATUS_SUCCESS, s) else play app s.
Definition transfer_apps : app_world :=
  mk_app_world transfer_execute (fun _ => None) (fun _ d => to_Z d) (fun s => Ret (false, s)) (fun _ _ => false) (str "a-leg").
Definition transfer_plan : list application := demo_plan ++ [(str "transfer", str "1000"); (str "echo", [])].
Definition transfer_session (c : channel) : session :=
  (planned_session c) <| ss_applications := fun e => if e =? 7 then transfer_plan else [] |>.

#[export] Instance demo_plain : plain_apps demo_world transfer_apps demo_plan.
Proof.
  split.
  - intros app s Happ Hs. cbn [aw_execute transfer_apps]. unfold transfer_execute. rewrite decide_False.
    2: { unfold demo_plan in Happ. rewrite !elem_of_cons, elem_of_nil in Happ. destruct Happ as [->|[->|[->|[]]]]; vm_compute; discriminate. }
    rewrite play_eq. eexists. split; [done|]. split; [|done].
    apply executing_channel; [done|by split|done|]. intros f _. by right.
  - intros e s _ Hs. by exists s.
  - intros s Hs. by exists s.
Qed.

Lemma transfer_stops : stops transfer_apps (str "transfer", str "1000").
Proof.
  intros s Hs. destruct (set_state_next CS_ROUTING s) as (c & E & Ec & Hm); [apply Hs|rewrite (ex_state _ Hs); done|rewrite (ex_state _ Hs); done|done|done|done|].
  exists SWITCH_STATUS_SUCCESS, (s <| ss_channel := c |>). cbn [aw_execute transfer_apps]. unfold transfer_execute.
  rewrite decide_True, E by done. split; [done|]. split; [done|]. intros _. split; [|by unfold state_of; cbn; rewrite Ec].
  apply has_flag_zero. cbn [ss_channel set]. unfold flag. rewrite Hm. apply executing_flag; [done|].
  repeat (apply elem_of_cons; first [left; reflexivity|right]).
Qed.

Definition execute_channel : channel := demo_channel <| ch_state := CS_EXECUTE |> <| ch_running_state := CS_EXECUTE |>.
Lemma planned_executing : executing (planned_session execute_channel).
Proof. split; [split; [by eexists|done]|done|done|done|by repeat constructor|done|apply planned_readable]. Qed.

(** A plan that is executed to its end, and one with a transfer in its middle. *)
Lemma dialplan_is_executed_witness :
  (exists s', switch_core_standard_on_execute demo_world transfer_apps (length demo_plan + 1) (planned_session execute_channel)
      = Ret (Some s') /\
    (apps_called (planned_session execute_channel) ++ demo_plan) `prefix_of` apps_called s' /\
    down (state_of s') /\ ch_hangup_cause (ss_channel s') = SWITCH_CAUSE_NORMAL_CLEARING) /\
  (exists s', switch_core_standard_on_execute demo_world transfer_apps (length demo_plan + 2) (transfer_session execute_channel)
      = Ret (Some s') /\
    apps_called s' = demo_plan ++ [(str "transfer", str "1000")]).
Proof.
  split.
  - apply (dialplan_is_executed demo_world transfer_apps (planned_session execute_channel) 7 demo_plan []).
    + exact demo_client.
    + exact demo_plain.
    + exact planned_executing.
    + reflexivity.
    + reflexivity.
  - destruct (dialplan_is_executed demo_world transfer_apps (transfer_session execute_channel) 7 demo_plan
      [(str "transfer", str "1000"); (str "echo", [])]) as (s0 & status & s1 & s' & _ & _ & E & C & _).
    + exact demo_client.
    + exact demo_plain.
    + split; [split; [by eexists|done]|done|done|done|by repeat constructor|done|by destruct (planned_readable execute_channel)].
    + reflexivity.
    + reflexivity.
    + exact transfer_stops.
    + exists s'. split; [exact E|exact C].
Defined.

(** Two dialplans: one notes that it was asked and finds extension 7 for the argument 1,
    the other notes it too and knows nothing. *)
Definition demo_hunt (name : list Z) : option (option (list Z) -> session -> res (option Z * session)) :=
  if decide (name = text "XML") then
    Some (fun arg s => s <-! do_op (SetPrivateFlag 1) s;; Ret (if decide (arg = Some (text "1")) then Some 7 else None, s))
  else if decide (name = text "enum") then Some (fun _ s => s <-! do_op (SetPrivateFlag 2) s;; Ret (None, s))
  else None.
Definition routing_apps : app_world :=
  mk_app_world play demo_hunt (fun _ d => to_Z d) (fun s => Ret (false, s)) (fun _ _ => false) (str "a-leg").

Lemma routing_flag n s : routing s ->
  routing (s <| ss_channel := switch_channel_set_private_flag n (ss_channel s) |>).
Proof. intros [R1 R2 R3 R4]. split; [by destruct R1|done|done|by destruct R4]. Qed.
#[export] Instance demo_routing : routing_world demo_world routing_apps.
Proof.
  split.
  - intros name f arg s. cbn [aw_dialplan routing_apps]. unfold demo_hunt.
    repeat case_decide; try discriminate; intros [= <-] Hs; eexists _, _; (split; [reflexivity|by apply routing_flag]).
  - intros s Hs. by exists false, s.
  - intros s Hs. by exists s.
Qed.

Definition routing_session : session :=
  (demo_session (demo_channel <| ch_state := CS_ROUTING |>)) <| ss_dialplan := Some (str "lua,enum,XML:1,inline") |>.
Lemma routing_session_ok : routing routing_session.
Proof. split; [split; [by eexists|done]|done|done|by destruct (demo_readable (demo_channel <| ch_state := CS_ROUTING |>))]. Qed.

Lemma routing_decides_witness : exists s0 target asked s1 s',
  switch_core_standard_on_routing demo_world routing_apps routing_session = Ret s' /\
  prepared demo_world routing_apps routing_session s0 /\
  consults routing_apps s0 (ss_dialplan routing_session) target asked s1 /\ routed routing_apps s1 target asked s'.
Proof.
  destruct (routing_decides demo_world routing_apps routing_session) as (s0 & target & asked & s1 & s' & E & Hp & _ & Hc & H).
  - exact demo_client.
  - exact demo_routing.
  - exact routing_session_ok.
  - intros _ s0 _. eexists. vm_compute. reflexivity.
  - exists s0, target, asked, s1, s'. split; [exact E|]. split; [exact Hp|]. split; [exact Hc|exact H].
Defined.

(** The session executes extension 7; the dialplan behind it was not asked. *)
Example routing_finds :
  match switch_core_standard_on_routing demo_world routing_apps routing_session with
  | Ret s => Some (state_of s, ss_extensions s)
  | _ => None
  end = Some (CS_EXECUTE, [7]).
Proof. vm_compute. reflexivity. Qed.
