(* ===== verification/XmlText.v ===== *)
(** * XmlText: entities in XML texts, src/switch_xml.c

    [switch_xml_ampencode], which writes a text with its special characters and
    its UTF-8 sequences as references, and [switch_xml_decode], which reads them.
    A text is the list of the bytes before its terminating zero.  The output
    buffer of the encoder is its content and its size; writing behind it is
    undefined, as is looking behind the terminating zero. *)
From S2P Require Import Prelude Utf8.
From Stdlib Require Import ZArith Lia.
From stdpp Require Import base numbers option list.

Local Open Scope Z_scope.

(** ** Encoding *)
Definition SWITCH_XML_BUFSIZE : Z := 1024.

(** The output, its size, and the variables of the loop. *)
Record amp_state := mk_amp {
  am_dst : list Z;
  am_max : Z;
  am_immune : bool;
  am_expecting : Z;
  am_unicode : Z
}.
#[export] Instance eta_amp : Eta amp_state := fun s =>
  mk_amp (am_dst s) (am_max s) (am_immune s) (am_expecting s) (am_unicode s).

(** [while ( *dlen + 10 > *max) *max += SWITCH_XML_BUFSIZE] *)
Definition amp_room (s : amp_state) : amp_state :=
  let need := zlen (am_dst s) + 10 in
  if need >? am_max s
  then s <| am_max := am_max s + SWITCH_XML_BUFSIZE * ((need - am_max s + (SWITCH_XML_BUFSIZE - 1)) / SWITCH_XML_BUFSIZE) |>
  else s.

(** One byte, and a [sprintf], which writes a zero behind its text. *)
Definition put_byte (c : Z) (s : amp_state) : res amp_state :=
  if zlen (am_dst s) + 1 <=? am_max s then Ret (s <| am_dst ::= fun d => d ++ [c] |>) else Ub.
Definition put_text (l : list Z) (s : amp_state) : res amp_state :=
  if zlen (am_dst s) + zlen l + 1 <=? am_max s then Ret (s <| am_dst ::= fun d => d ++ l |>) else Ub.

(** [%X] *)
Fixpoint hex_digits (fuel : nat) (v : Z) : list Z :=
  match fuel with
  | O => []
  | S fuel => if v <? 16 then [hex_char v] else hex_digits fuel (v / 16) ++ [hex_char (v mod 16)]
  end.
Definition hex_number (v : Z) : list Z := hex_digits 8 v.

Definition AMP : Z := 38.
Definition SEMI : Z := 59.
Definition amp_ref (v : Z) : list Z := [AMP; 35; 120] ++ hex_number v ++ [SEMI].
Definition amp_name (l : list Z) : list Z := AMP :: l ++ [SEMI].
Definition lt_name : list Z := [108; 116].
Definition gt_name : list Z := [103; 116].
Definition amp_amp : list Z := [97; 109; 112].
Definition quot_name : list Z := [113; 117; 111; 116].

(** The number of bytes of a sequence, by its first byte. *)
Fixpoint lead_bytes (n : nat) (num c : Z) : Z :=
  match n with
  | O => num
  | S n => if Z.land (Z.shiftr c (7 - num)) 1 =? 0 then num else lead_bytes n (num + 1) c
  end.

(** The bytes without a name: UTF-8 sequences become references. *)
Definition amp_default (c : Z) (s : amp_state) : res amp_state :=
  if (am_expecting s =? 0) && (128 <=? c) then
    let num := lead_bytes 3 1 c in
    let u := if num =? 2 then Z.land c 0x1F else if num =? 3 then Z.land c 0x0F
             else if num =? 4 then Z.land c 0x07 else am_unicode s in
    Ret (s <| am_unicode := u |> <| am_expecting := num - 1 |>)
  else if am_expecting s >? 0 then
    if Z.land (Z.shiftr c 6) 3 =? 2 then
      let s := s <| am_unicode := Z.lor (Z.shiftl (am_unicode s) 6) (Z.land c 0x3F) |>
                 <| am_expecting := am_expecting s - 1 |> in
      if am_expecting s =? 0 then put_text (amp_ref (am_unicode s)) s else Ret s
    else Ret (s <| am_expecting := 0 |>)
  else put_byte c s.

(** The body of the loop for the byte [c]; [next] is the byte behind it. *)
Definition amp_step (a : bool) (c next : Z) (s : amp_state) : res amp_state :=
  let s := amp_room s in
  if am_immune s then put_byte c s
  else if c =? 38 then put_text (amp_name amp_amp) s
  else if c =? 60 then
    if next =? 33 then s <-! put_byte c s;; Ret (s <| am_immune := true |>)
    else put_text (amp_name lt_name) s
  else if c =? 62 then put_text (amp_name gt_name) s
  else if c =? 34 then put_text (if a then amp_name quot_name else [34]) s
  else if c =? 10 then put_text (if a then amp_ref 10 else [10]) s
  else if c =? 9 then put_text (if a then amp_ref 9 else [9]) s
  else if c =? 13 then put_text (amp_ref 13) s
  else amp_default c s.

(** [n] more bytes of the text. *)
Fixpoint ampencode_loop (a : bool) (n : nat) (s : list Z) (st : amp_state) : res amp_state :=
  match n, s with
  | O, _ | _, [] => Ret st
  | S n, c :: s => st <-! amp_step a c (default 0 (head s)) st;; ampencode_loop a n s st
  end.
(** The new output and its size. *)
Definition switch_xml_ampencode (s : list Z) (len : Z) (dst : list Z) (max : Z) (a : bool) : res (list Z * Z) :=
  st <-! ampencode_loop a (if len =? 0 then length s else Z.to_nat len) s (mk_amp dst max false 0 0);;
  Ret (am_dst st, am_max st).

(** ** Decoding *)
Definition is_space (c : Z) : bool := ((9 <=? c) && (c <=? 13)) || (c =? 32).

(** Line endings become newlines.  When a text ends in a carriage return, or in
    one with a newline, the loop goes on behind the terminating zero. *)
Fixpoint normalize (s : list Z) : res (list Z) :=
  match s with
  | [] => Ret []
  | c :: r =>
    if c =? 13 then
      match r with
      | [] => Ub
      | d :: r' =>
        if d =? 10 then
          match r' with
          | [] => Ub
          | _ :: _ => t <-! normalize r';; Ret (10 :: t)
          end
        else t <-! normalize r;; Ret (10 :: t)
      end
    else t <-! normalize r;; Ret (c :: t)
  end.

(** [strtoul] in base 10 or 16: the value and what follows the digits. *)
Definition base_digit (base c : Z) : bool := if base =? 16 then hex_digit c else (48 <=? c) && (c <=? 57).
Fixpoint number_loop (base : Z) (s : list Z) (v : Z) : Z * list Z :=
  match s with
  | c :: r => if base_digit base c then number_loop base r (v * base + digit_value c) else (v, s)
  | [] => (v, [])
  end.
Definition strtoul (base : Z) (s : list Z) : Z * list Z :=
  match s with
  | z :: x :: ((d :: _) as r) =>
    if (base =? 16) && (z =? 48) && ((x =? 120) || (x =? 88)) && hex_digit d then number_loop base r 0
    else number_loop base s 0
  | _ => number_loop base s 0
  end.

(** The bytes written for a character, of up to six. *)
Fixpoint bit_count (fuel : nat) (d b : Z) : Z :=
  match fuel with O => b | S fuel => if d =? 0 then b else bit_count fuel (d / 2) (b + 1) end.
Fixpoint payload (n : nat) (c : Z) : list Z :=
  match n with
  | O => []
  | S n => u8 (Z.lor 0x80 (Z.land (Z.shiftr c (6 * Z.of_nat n)) 0x3F)) :: payload n c
  end.
Definition char_bytes (c : Z) : list Z :=
  if c <? 0x80 then [c]
  else
    let b := (bit_count 64 c 0 - 2) / 5 in
    u8 (Z.lor (Z.shiftl 0xFF (7 - b)) (Z.shiftr c (6 * b))) :: payload (Z.to_nat b) c.

(** A character reference at the text behind [&#]: the character's bytes and the
    rest. *)
Definition char_ref (code : list Z) : option (list Z * list Z) :=
  let '(base, code) := match code with x :: r => if x =? 120 then (16, r) else (10, code) | [] => (10, code) end in
  if match code with d :: _ => hex_digit d | [] => false end then
    let '(c, e) := strtoul base code in
    if c =? 0 then None
    else match e with
         | d :: rest => if d =? SEMI then if c >? 0x7FFFFFFF then None else Some (char_bytes c, rest) else None
         | [] => None
         end
  else None.

Fixpoint strip_text (p s : list Z) : option (list Z) :=
  match p, s with
  | [], _ => Some s
  | a :: p, b :: s => if a =? b then strip_text p s else None
  | _, [] => None
  end.
(** The value of the first entity whose name the text begins with. *)
Definition find_entity (ent : list (list Z * list Z)) (s : list Z) : option (list Z) :=
  snd <$> List.find (fun e => bool_decide (is_Some (strip_text (fst e) s))) ent.
(** The text behind the first semicolon. *)
Fixpoint behind_semicolon (s : list Z) : option (list Z) :=
  match s with [] => None | c :: s => if c =? SEMI then Some s else behind_semicolon s end.

(** [isref t c]: a reference to an entity may start here. *)
Definition starts_ref (t c : Z) : bool :=
  ((c =? 38) && ((t =? 38) || (t =? 32) || (t =? 42))) || ((c =? 37) && (t =? 37)).

(** The main loop of [switch_xml_decode] on the text that is left.  A value that
    replaces an entity is decoded again; [None]: the fuel is used up. *)
Fixpoint decode_loop (fuel : nat) (ent : list (list Z * list Z)) (t : Z) (s : list Z) : res (option (list Z)) :=
  match fuel with
  | O => Ret None
  | S fuel =>
    let keep c r := x <-! decode_loop fuel ent t r;; Ret (option_map (cons c) x) in
    match s with
    | [] => Ret (Some [])
    | c :: r =>
      if negb ((c =? 38) || ((c =? 37) && (t =? 37)) || is_space c) then keep c r
      else
        let hash := (c =? 38) && match r with h :: _ => h =? 35 | [] => false end in
        if negb (t =? 99) && hash then
          match char_ref (drop 1 r) with
          | Some (bs, rest) => x <-! decode_loop fuel ent t rest;; Ret (option_map (app bs) x)
          | None => keep c r
          end
        else if starts_ref t c then
          match find_entity ent r with
          | Some v => rest <-! or_ub (behind_semicolon r);; decode_loop fuel ent t (v ++ rest)
          | None => keep c r
          end
        else if ((t =? 32) || (t =? 42)) && is_space c then keep 32 r
        else keep c r
    end
  end.

(** For attributes that are not character data, runs of blanks become one and
    those at the ends vanish.  The loop is at its head, or has taken out blanks,
    or is in a word; a text that ends in the latter two is left behind its
    terminating zero. *)
Inductive squeeze_at := AtHead | Skipping | InWord.
Fixpoint squeeze (mode : squeeze_at) (s : list Z) : res (list Z) :=
  match s with
  | [] => match mode with AtHead => Ret [] | _ => Ub end
  | c :: r =>
    if c =? 32 then
      match mode with
      | AtHead | Skipping => squeeze Skipping r
      | InWord => t <-! squeeze AtHead r;; Ret (32 :: t)
      end
    else t <-! squeeze InWord r;; Ret (c :: t)
  end.
Definition trim_end (s : list Z) : list Z :=
  match rev s with c :: r => if c =? 32 then rev r else s | [] => s end.

Definition switch_xml_decode (fuel : nat) (s : list Z) (ent : list (list Z * list Z)) (t : Z) : res (option (list Z)) :=
  s <-! normalize s;;
  x <-! decode_loop fuel ent t s;;
  match x with
  | None => Ret None
  | Some s => if t =? 42 then s <-! squeeze AtHead s;; Ret (Some (trim_end s)) else Ret (Some s)
  end.

(** The entities of [switch_xml_new]. *)
Definition dec_ref (l : list Z) : list Z := [AMP; 35] ++ l ++ [SEMI].
Definition std_ent : list (list Z * list Z) :=
  [(lt_name ++ [SEMI], dec_ref [54; 48]); (gt_name ++ [SEMI], dec_ref [54; 50]);
   (quot_name ++ [SEMI], dec_ref [51; 52]); ([97; 112; 111; 115] ++ [SEMI], dec_ref [51; 57]);
   (amp_amp ++ [SEMI], dec_ref [51; 56])].

(** ** Fuel *)
Section Decode.
Context (t : Z).

Lemma rbind_some {A B} (m : res (option A)) (f : A -> B) y :
  (x <-! m;; Ret (option_map f x)) = Ret (Some y) <-> exists x, m = Ret (Some x) /\ y = f x.
Proof.
  split.
  - intros ([x|] & E & E1)%rbind_Ret; [|done]. injection E1 as <-. by exists x.
  - by intros (x & -> & ->).
Qed.

(** More fuel gives the same result. *)
Lemma decode_mono ent n : forall m s y, decode_loop n ent t s = Ret (Some y) -> (n <= m)%nat ->
  decode_loop m ent t s = Ret (Some y).
Proof.
  induction n as [|n IH]; intros [|m] s y E Hm; try lia; [done..|]. cbn [decode_loop] in *.
  destruct s as [|c r]; [done|].
  assert (K : forall c r, (x <-! decode_loop n ent t r;; Ret (option_map (cons c) x)) = Ret (Some y) ->
    (x <-! decode_loop m ent t r;; Ret (option_map (cons c) x)) = Ret (Some y)).
  { intros c0 r0 (x & Ex & ->)%rbind_some. apply rbind_some. exists x. split; [|done]. apply IH; [done|lia]. }
  destruct (negb _); [by apply K|]. destruct (_ && (_ && _)).
  - destruct (char_ref (drop 1 r)) as [[bs rest]|]; [|by apply K].
    apply rbind_some in E as (x & Ex & ->). apply rbind_some. exists x. split; [|done]. apply IH; [done|lia].
  - destruct (starts_ref t c).
    + destruct (find_entity ent r) as [v|]; [|by apply K].
      apply rbind_Ret in E as (rest & E1 & E2). rewrite E1. cbn [rbind]. apply IH; [done|lia].
    + destruct (_ && _); by apply K.
Qed.

Lemma strip_text_app p s rest : strip_text p s = Some rest <-> s = p ++ rest.
Proof.
  revert s. induction p as [|a p IH]; intros [|b s]; simpl; try (split; [done|discriminate]).
  - split; intros H; congruence.
  - split; intros H; congruence.
  - destruct (Z.eqb_spec a b) as [->|Hn]; [rewrite IH; split; intros H; congruence|]. split; intros H; congruence.
Qed.

Lemma behind_app l rest : forallb (fun c => negb (c =? SEMI)) l = true ->
  behind_semicolon (l ++ SEMI :: rest) = Some rest.
Proof.
  induction l as [|c l IH]; [done|]. cbn [forallb app behind_semicolon]. intros [Hc Hl]%andb_prop.
  destruct (c =? SEMI); [done|by apply IH].
Qed.

(** The standard entities are references of two digits. *)
Lemma std_entity r v : find_entity std_ent r = Some v ->
  exists c rest v1, behind_semicolon r = Some rest /\ (length rest + 3 <= length r)%nat /\
    v = 38 :: 35 :: v1 /\ char_ref (v1 ++ rest) = Some ([c], rest).
Proof.
  unfold find_entity. intros (e & He & ->)%fmap_Some. apply List.find_some in He as [Hin Hp].
  apply bool_decide_eq_true in Hp as [rest ->%strip_text_app].
  assert (Hn : exists name v1 c, fst e = name ++ [SEMI] /\ (2 <= length name)%nat /\
    forallb (fun c => negb (c =? SEMI)) name = true /\ snd e = 38 :: 35 :: v1 /\
    forall rest, char_ref (v1 ++ rest) = Some ([c], rest)).
  { repeat destruct Hin as [<-|Hin]; try done;
      (eexists _, _, _; split; [reflexivity|]; split; [simpl; lia|]; split; [reflexivity|]; split; reflexivity). }
  destruct Hn as (name & v1 & c & -> & Hl & Hs & -> & Hc). exists c, rest, v1. rewrite <- app_assoc. cbn [app].
  rewrite behind_app by done. split_and!; try done. rewrite length_app. simpl. lia.
Qed.

Lemma number_loop_length base s v : (length (snd (number_loop base s v)) <= length s)%nat.
Proof.
  revert v. induction s as [|c s IH]; intros v; simpl; [lia|]. destruct (base_digit base c); simpl; [|lia].
  specialize (IH (v * base + digit_value c)). lia.
Qed.

Lemma strtoul_length base s : (length (snd (strtoul base s)) <= length s)%nat.
Proof.
  unfold strtoul. destruct s as [|z [|x [|d r]]]; try apply number_loop_length.
  destruct (_ && _); [|apply number_loop_length].
  pose proof (number_loop_length base (d :: r) 0). simpl in *. lia.
Qed.

Lemma char_ref_length code bs rest : char_ref code = Some (bs, rest) -> (length rest < length code)%nat.
Proof.
  unfold char_ref. intros H.
  destruct (match code with x :: r => if x =? 120 then (16, r) else (10, code) | [] => (10, code) end) as [base code'] eqn:Ec.
  assert (Hl : (length code' <= length code)%nat).
  { destruct code as [|x r]; [by injection Ec as _ <-|]. destruct (x =? 120); injection Ec as _ <-; simpl; lia. }
  destruct (match code' with d :: _ => hex_digit d | [] => false end); [|done].
  pose proof (strtoul_length base code') as Hs. destruct (strtoul base code') as [c e]. simpl in Hs.
  destruct (c =? 0); [done|]. destruct e as [|d e]; [done|]. destruct (d =? SEMI); [|done].
  destruct (c >? 0x7FFFFFFF); [done|]. injection H as _ <-. simpl in Hs. lia.
Qed.

(** With the standard entities the loop ends within two steps for each byte. *)
Lemma decode_total n : forall s, (2 * length s < n)%nat -> exists y, decode_loop n std_ent t s = Ret (Some y).
Proof.
  induction n as [n IH] using lt_wf_ind. intros s Hn. destruct n as [|n]; [lia|]. cbn [decode_loop].
  destruct s as [|c r]; [by eexists|]. simpl in Hn.
  assert (K : forall c m r, (m <= n)%nat -> (2 * length r < m)%nat ->
    exists y, (x <-! decode_loop m std_ent t r;; Ret (option_map (cons c) x)) = Ret (Some y)).
  { intros c0 m r0 Hm Hr. destruct (IH m ltac:(lia) r0 Hr) as [y ->]. by eexists. }
  case_if E1; [apply K; lia|]. case_if Eh.
  - destruct (char_ref (drop 1 r)) as [[bs rest]|] eqn:Er; [|apply K; lia].
    apply char_ref_length in Er. rewrite length_drop in Er.
    destruct (IH n ltac:(lia) rest) as [y ->]; [lia|]. by eexists.
  - destruct (starts_ref t c) eqn:Es.
    + destruct (find_entity std_ent r) as [v|] eqn:Ef; [|apply K; lia].
      destruct (std_entity r v Ef) as (ch & rest & v1 & -> & Hl & -> & Hc). cbn [or_ub rbind].
      destruct n as [|n]; [lia|]. cbn [decode_loop app drop]. rewrite drop_0, Hc. cbn [orb negb andb].
      change (38 =? 38) with true. change (35 =? 35) with true. cbn [orb negb andb].
      destruct (t =? 99) eqn:Et; cbn [negb andb].
      * boolify. unfold starts_ref in Es. subst t. by destruct (c =? 38), (c =? 37).
      * destruct (IH n ltac:(lia) rest) as [y ->]; [lia|]. by eexists.
    + case_if E4; apply K; lia.
Qed.

(** [dec s y]: the loop makes [y] of [s]. *)
Definition dec (s y : list Z) : Prop := exists n, decode_loop n std_ent t s = Ret (Some y).

Lemma dec_nil : dec [] [].
Proof. by exists 1%nat. Qed.

(** A byte that stays. *)
Lemma dec_plain c s y : c <> 38 -> (c = 37 -> t <> 37) -> (is_space c = true -> t <> 32 /\ t <> 42) -> dec s y ->
  dec (c :: s) (c :: y).
Proof.
  intros H1 H2 H3 [n E]. exists (S n). cbn [decode_loop]. rewrite E. cbn [rbind option_map].
  rewrite (proj2 (Z.eqb_neq c 38)) by done. cbn [andb orb]. unfold starts_ref.
  rewrite (proj2 (Z.eqb_neq c 38)) by done. cbn [andb orb]. rewrite andb_false_r.
  destruct ((c =? 37) && (t =? 37)) eqn:E37; [boolify; subst; by specialize (H2 eq_refl)|]. cbn [orb].
  destruct (is_space c) eqn:Es; [|done]. cbn [negb]. destruct (H3 eq_refl) as [Ha Hb].
  rewrite (proj2 (Z.eqb_neq t 32)), (proj2 (Z.eqb_neq t 42)) by done. done.
Qed.

(** A character reference. *)
Lemma dec_char_ref code bs rest y : t <> 99 -> char_ref code = Some (bs, rest) -> dec rest y ->
  dec (38 :: 35 :: code) (bs ++ y).
Proof.
  intros Ht Hc [n E]. exists (S n). cbn [decode_loop drop]. rewrite drop_0, Hc.
  change (38 =? 38) with true. change (35 =? 35) with true. rewrite (proj2 (Z.eqb_neq t 99)) by done.
  cbn [orb negb andb]. rewrite E. done.
Qed.

(** A standard entity. *)
Lemma dec_entity r v rest y : starts_ref t 38 = true -> (forall r', r <> 35 :: r') -> find_entity std_ent r = Some v ->
  behind_semicolon r = Some rest -> dec (v ++ rest) y -> dec (38 :: r) y.
Proof.
  intros Hs Hh Hf Hb [n E]. exists (S n). cbn [decode_loop]. rewrite Hs, Hf, Hb.
  change (38 =? 38) with true. cbn [orb negb andb or_ub rbind].
  assert (Eh : match r with h :: _ => h =? 35 | [] => false end = false).
  { destruct r as [|h r]; [done|]. apply Z.eqb_neq. intros ->. by apply (Hh r). }
  rewrite Eh, andb_false_r. exact E.
Qed.
End Decode.

(** ** The encoder on a character *)

(** What the encoder makes of a character. *)
Definition amp_spec (a : bool) (ch : Z) : list Z :=
  if ch =? 38 then amp_name amp_amp
  else if ch =? 60 then amp_name lt_name
  else if ch =? 62 then amp_name gt_name
  else if ch =? 34 then if a then amp_name quot_name else [34]
  else if ch =? 10 then if a then amp_ref 10 else [10]
  else if ch =? 9 then if a then amp_ref 9 else [9]
  else if ch =? 13 then amp_ref 13
  else if ch <? 128 then [ch] else amp_ref ch.

Lemma room_spec s : zlen (am_dst s) + 10 <= am_max (amp_room s) /\ am_dst (amp_room s) = am_dst s /\
  am_immune (amp_room s) = am_immune s /\ am_expecting (amp_room s) = am_expecting s /\
  am_unicode (amp_room s) = am_unicode s.
Proof.
  unfold amp_room. set (need := zlen (am_dst s) + 10). rewrite Z.gtb_ltb. case_if E; boolify; [|by split_and!].
  split_and!; try done. simpl. unfold SWITCH_XML_BUFSIZE.
  pose proof (Z.div_mod (need - am_max s + (1024 - 1)) 1024 ltac:(lia)).
  pose proof (Z.mod_pos_bound (need - am_max s + (1024 - 1)) 1024 ltac:(lia)). lia.
Qed.

(** Between characters; [d] is the output. *)
Record amp_between (s : amp_state) (d : list Z) : Prop := {
  ab_dst : am_dst s = d;
  ab_immune : am_immune s = false;
  ab_expecting : am_expecting s = 0
}.

Lemma put_text_fits l s d : amp_between s d -> zlen l <= 9 ->
  exists s', put_text l (amp_room s) = Ret s' /\ amp_between s' (d ++ l) /\ zlen d + 10 <= am_max s'.
Proof.
  intros [H1 H2 H3] Hl. destruct (room_spec s) as (R1 & R2 & R3 & R4 & _). unfold put_text.
  rewrite R2, H1 in *. rewrite (proj2 (Z.leb_le _ _)) by lia. eexists. split; [done|]. split; [|done].
  split; simpl; congruence.
Qed.

Lemma put_byte_fits c s d : amp_between s d ->
  exists s', put_byte c (amp_room s) = Ret s' /\ amp_between s' (d ++ [c]) /\ zlen d + 10 <= am_max s'.
Proof.
  intros [H1 H2 H3]. destruct (room_spec s) as (R1 & R2 & R3 & R4 & _). unfold put_byte.
  rewrite R2, H1 in *. rewrite (proj2 (Z.leb_le _ _)) by lia. eexists. split; [done|]. split; [|done].
  split; simpl; congruence.
Qed.

Lemma amp_ascii a c next s d : amp_between s d -> 0 < c < 128 -> (c = 60 -> next <> 33) ->
  exists s', amp_step a c next s = Ret s' /\ amp_between s' (d ++ amp_spec a c) /\ zlen d + 10 <= am_max s'.
Proof.
  intros Hs Hc Hn. unfold amp_step, amp_spec. destruct (room_spec s) as (R1 & R2 & R3 & R4 & _).
  rewrite R3, (ab_immune _ _ Hs).
  repeat (case_if E; [boolify; subst; try (rewrite (proj2 (Z.eqb_neq next 33)) by auto);
    (apply put_text_fits; [done|]; try destruct a; vm_compute; discriminate)|clear E]).
  rewrite (proj2 (Z.ltb_lt c 128)) by lia. unfold amp_default.
  rewrite R4, (ab_expecting _ _ Hs), (proj2 (Z.leb_gt 128 c)) by lia. cbn [andb].
  change (0 =? 0) with true. change (0 >? 0) with false. cbn [andb]. by apply put_byte_fits.
Qed.

(** A lead byte of a sequence of [num] bytes. *)
Definition lead_of (c : Z) : Z := if c <? 224 then 2 else if c <? 240 then 3 else 4.
Definition lead_value (c : Z) : Z := if c <? 224 then c - 192 else if c <? 240 then c - 224 else c - 240.
Lemma lead_bits c : 192 <= c < 248 ->
  lead_bytes 3 1 c = lead_of c /\
  (if lead_of c =? 2 then Z.land c 0x1F else if lead_of c =? 3 then Z.land c 0x0F
   else if lead_of c =? 4 then Z.land c 0x07 else 0) = lead_value c.
Proof.
  intros Hc.
  assert (H : (c <? 192) || (248 <=? c) || ((lead_bytes 3 1 c =? lead_of c) &&
    ((if lead_of c =? 2 then Z.land c 0x1F else if lead_of c =? 3 then Z.land c 0x0F
      else if lead_of c =? 4 then Z.land c 0x07 else 0) =? lead_value c)) = true).
  { apply (byte_forall (fun c => (c <? 192) || (248 <=? c) || ((lead_bytes 3 1 c =? lead_of c) &&
    ((if lead_of c =? 2 then Z.land c 0x1F else if lead_of c =? 3 then Z.land c 0x0F
      else if lead_of c =? 4 then Z.land c 0x07 else 0) =? lead_value c)))); [vm_compute; reflexivity|lia]. }
  rewrite (proj2 (Z.ltb_ge c 192)), (proj2 (Z.leb_gt 248 c)) in H by lia. cbn [orb] in H. boolify. done.
Qed.

(** Inside a sequence: [u] is the value so far, [k] bytes are to come. *)
Record amp_inside (s : amp_state) (d : list Z) (k u : Z) : Prop := {
  ai_dst : am_dst s = d;
  ai_immune : am_immune s = false;
  ai_expecting : am_expecting s = k;
  ai_unicode : am_unicode s = u
}.

(** No special character. *)
Lemma high_plain a c next s : 128 <= c -> am_immune (amp_room s) = false ->
  amp_step a c next s = amp_default c (amp_room s).
Proof.
  intros Hc Hi. unfold amp_step. rewrite Hi.
  rewrite (proj2 (Z.eqb_neq c 38)), (proj2 (Z.eqb_neq c 60)), (proj2 (Z.eqb_neq c 62)), (proj2 (Z.eqb_neq c 34)),
    (proj2 (Z.eqb_neq c 10)), (proj2 (Z.eqb_neq c 9)), (proj2 (Z.eqb_neq c 13)) by lia. done.
Qed.

Lemma amp_lead a c next s d : amp_between s d -> 192 <= c < 248 ->
  exists s', amp_step a c next s = Ret s' /\ amp_inside s' d (lead_of c - 1) (lead_value c).
Proof.
  intros [H1 H2 H3] Hc. destruct (room_spec s) as (R1 & R2 & R3 & R4 & _).
  rewrite high_plain by (lia || congruence). unfold amp_default. rewrite R4, H3, (proj2 (Z.leb_le 128 c)) by lia.
  change (0 =? 0) with true. cbn [andb]. destruct (lead_bits c Hc) as [-> L2].
  eexists. split; [done|]. split; simpl; try congruence. rewrite <- L2.
  assert (Hl : lead_of c = 2 \/ lead_of c = 3 \/ lead_of c = 4) by (unfold lead_of; cases; auto).
  by destruct Hl as [-> | [-> | ->]].
Qed.

Lemma cont_bits c : 128 <= c < 192 -> Z.land (Z.shiftr c 6) 3 = 2 /\ Z.land c 0x3F = c - 128.
Proof.
  intros Hc.
  assert (H : (c <? 128) || (192 <=? c) || ((Z.land (Z.shiftr c 6) 3 =? 2) && (Z.land c 0x3F =? c - 128)) = true).
  { apply (byte_forall (fun c => (c <? 128) || (192 <=? c) || ((Z.land (Z.shiftr c 6) 3 =? 2) && (Z.land c 0x3F =? c - 128))));
      [vm_compute; reflexivity|lia]. }
  rewrite (proj2 (Z.ltb_ge c 128)), (proj2 (Z.leb_gt 192 c)) in H by lia. cbn [orb] in H. boolify. done.
Qed.

Lemma hex_digits_length n : forall v k, 0 <= v < 16 ^ k -> 0 < k -> zlen (hex_digits n v) <= k.
Proof.
  induction n as [|n IH]; intros v k Hv Hk; cbn [hex_digits]; [unfold zlen; simpl; lia|].
  destruct (Z.ltb_spec v 16); [unfold zlen; simpl; lia|]. rewrite zlen_app.
  assert (1 < k). { destruct (Z.lt_ge_cases 1 k); [done|]. assert (k = 1) by lia. subst. change (16 ^ 1) with 16 in Hv. lia. }
  specialize (IH (v / 16) (k - 1)). unfold zlen in *. simpl. enough (Z.of_nat (length (hex_digits n (v / 16))) <= k - 1) by lia.
  apply IH; [|lia]. split; [apply Z.div_pos; lia|]. apply Z.div_lt_upper_bound; [lia|].
  replace (16 * 16 ^ (k - 1)) with (16 ^ k); [lia|]. rewrite <- Z.pow_succ_r by lia. f_equal. lia.
Qed.

Lemma amp_ref_length v : 0 <= v < 0x100000 -> zlen (amp_ref v) <= 9.
Proof.
  intros Hv. unfold amp_ref, hex_number. rewrite !zlen_app. pose proof (hex_digits_length 8 v 5).
  change (16 ^ 5) with 0x100000 in *. unfold zlen in *. simpl in *. lia.
Qed.

Lemma amp_cont a c next s d k u : amp_inside s d k u -> 128 <= c < 192 -> 0 < k -> 0 <= u ->
  (k = 1 -> u * 64 + (c - 128) < 0x100000) ->
  exists s', amp_step a c next s = Ret s' /\
    (if k =? 1 then amp_between s' (d ++ amp_ref (u * 64 + (c - 128))) /\ zlen d + 10 <= am_max s'
     else amp_inside s' d (k - 1) (u * 64 + (c - 128))).
Proof.
  intros [H1 H2 H3 H4] Hc Hk Hu Hb. destruct (room_spec s) as (R1 & R2 & R3 & R4 & R5).
  rewrite high_plain by (lia || congruence). unfold amp_default. rewrite R4, R5, H3, H4.
  rewrite (proj2 (Z.eqb_neq k 0)) by lia. cbn [andb]. rewrite Z.gtb_ltb, (proj2 (Z.ltb_lt 0 k)) by lia.
  destruct (cont_bits c Hc) as [-> ->]. change (2 =? 2) with true. cbv zeta iota.
  rewrite shiftl_lor_add by lia. change (2 ^ 6) with 64. cbn [am_expecting am_unicode set].
  destruct (Z.eqb_spec k 1) as [->|Hn].
  - change (1 - 1 =? 0) with true. cbv iota. unfold put_text. cbn [am_dst am_max set].
    rewrite R2, H1. pose proof (amp_ref_length (u * 64 + (c - 128))).
    rewrite (proj2 (Z.leb_le _ _)) by (rewrite H1 in R1; lia). eexists. split; [done|].
    rewrite H1 in R1. split; [|done]. split; simpl; first [congruence|done].
  - rewrite (proj2 (Z.eqb_neq (k - 1) 0)) by lia. eexists. split; [done|]. split; simpl; congruence.
Qed.

(** A whole character. *)
Lemma amp_char a ch m rest s d : amp_between s d -> 0 < ch < 0x100000 -> (ch = 60 -> default 0 (head rest) <> 33) ->
  exists s', ampencode_loop a (length (switch_u8_wc_toutf8 ch) + m) (switch_u8_wc_toutf8 ch ++ rest) s = ampencode_loop a m rest s' /\
    amp_between s' (d ++ amp_spec a ch) /\ zlen d + 10 <= am_max s'.
Proof.
  intros Hs Hch Hn. rewrite wc_toutf8_arith by (unfold character; lia).
  assert (Hspec : 128 <= ch -> amp_spec a ch = amp_ref ch).
  { intros Hc. unfold amp_spec. rewrite (proj2 (Z.eqb_neq ch 38)), (proj2 (Z.eqb_neq ch 60)), (proj2 (Z.eqb_neq ch 62)),
      (proj2 (Z.eqb_neq ch 34)), (proj2 (Z.eqb_neq ch 10)), (proj2 (Z.eqb_neq ch 9)), (proj2 (Z.eqb_neq ch 13)),
      (proj2 (Z.ltb_ge ch 128)) by lia. done. }
  div_facts ch.
  destruct (Z.ltb_spec ch 128); [|destruct (Z.ltb_spec ch 2048); [|destruct (Z.ltb_spec ch 65536)]];
    cbn [length Nat.add app ampencode_loop].
  - destruct (amp_ascii a ch (default 0 (head rest)) s d Hs) as (s1 & -> & J1); [lia|done|]. cbn [rbind]. by exists s1.
  - destruct (amp_lead a (192 + ch / 64) (default 0 (head ((128 + ch mod 64) :: rest))) s d Hs) as (s1 & -> & J1); [lia|].
    cbn [rbind]. unfold lead_of, lead_value in J1. rewrite (proj2 (Z.ltb_lt _ 224)) in J1 by lia.
    destruct (amp_cont a (128 + ch mod 64) (default 0 (head rest)) s1 d _ _ J1) as (s2 & -> & J2); [lia..|].
    cbn [rbind]. exists s2. split; [done|]. rewrite Hspec by lia. simpl in J2.
    by replace ch with ((192 + ch / 64 - 192) * 64 + (128 + ch mod 64 - 128)) at 1 by lia.
  - destruct (amp_lead a (224 + ch / 4096) (default 0 (head ((128 + ch / 64 mod 64) :: (128 + ch mod 64) :: rest))) s d Hs)
      as (s1 & -> & J1); [lia|]. cbn [rbind]. unfold lead_of, lead_value in J1.
    rewrite (proj2 (Z.ltb_ge _ 224)), (proj2 (Z.ltb_lt _ 240)) in J1 by lia.
    destruct (amp_cont a (128 + ch / 64 mod 64) (default 0 (head ((128 + ch mod 64) :: rest))) s1 d _ _ J1)
      as (s2 & -> & J2); [lia..|]. cbn [rbind]. change (3 - 1 =? 1) with false in J2.
    destruct (amp_cont a (128 + ch mod 64) (default 0 (head rest)) s2 d _ _ J2) as (s3 & -> & J3); [lia..|].
    cbn [rbind]. exists s3. split; [done|]. rewrite Hspec by lia. change (3 - 1 - 1 =? 1) with true in J3.
    replace ch with (((224 + ch / 4096 - 224) * 64 + (128 + ch / 64 mod 64 - 128)) * 64 + (128 + ch mod 64 - 128)) at 1 by lia.
    done.
  - destruct (amp_lead a (240 + ch / 262144) (default 0 (head ((128 + ch / 4096 mod 64) :: (128 + ch / 64 mod 64) :: (128 + ch mod 64) :: rest))) s d Hs)
      as (s1 & -> & J1); [lia|]. cbn [rbind]. unfold lead_of, lead_value in J1.
    rewrite (proj2 (Z.ltb_ge _ 224)), (proj2 (Z.ltb_ge _ 240)) in J1 by lia.
    destruct (amp_cont a (128 + ch / 4096 mod 64) (default 0 (head ((128 + ch / 64 mod 64) :: (128 + ch mod 64) :: rest))) s1 d _ _ J1)
      as (s2 & -> & J2); [lia..|]. cbn [rbind]. change (4 - 1 =? 1) with false in J2.
    destruct (amp_cont a (128 + ch / 64 mod 64) (default 0 (head ((128 + ch mod 64) :: rest))) s2 d _ _ J2)
      as (s3 & -> & J3); [lia..|]. cbn [rbind]. change (4 - 1 - 1 =? 1) with false in J3.
    destruct (amp_cont a (128 + ch mod 64) (default 0 (head rest)) s3 d _ _ J3) as (s4 & -> & J4); [lia..|].
    cbn [rbind]. exists s4. split; [done|]. rewrite Hspec by lia. change (4 - 1 - 1 - 1 =? 1) with true in J4.
    replace ch with ((((240 + ch / 262144 - 240) * 64 + (128 + ch / 4096 mod 64 - 128)) * 64
      + (128 + ch / 64 mod 64 - 128)) * 64 + (128 + ch mod 64 - 128)) at 1 by lia.
    done.
Qed.

(** A text in which no exclamation mark follows a less-than sign. *)
Fixpoint no_markup (chs : list Z) : bool :=
  match chs with
  | [] => true
  | c :: r => negb ((c =? 60) && (default 0 (head r) =? 33)) && no_markup r
  end.

Definition amp_text (a : bool) (chs : list Z) : list Z := concat (map (amp_spec a) chs).
Definition xml_text (chs : list Z) : Prop := Forall (fun ch => 0 < ch < 0x100000) chs.

Lemma head_encode chs : xml_text chs -> default 0 (head (encode chs)) = 33 -> default 0 (head chs) = 33.
Proof.
  destruct 1 as [|ch chs Hch _]; [done|]. rewrite encode_cons, wc_toutf8_arith by (unfold character; lia).
  pose proof (Z.div_pos ch 64 ltac:(lia) ltac:(lia)). pose proof (Z.div_pos ch 4096 ltac:(lia) ltac:(lia)).
  pose proof (Z.div_pos ch 262144 ltac:(lia) ltac:(lia)). cases; lia.
Qed.

Lemma amp_loop_text a chs : forall s d, amp_between s d -> xml_text chs -> no_markup chs = true ->
  exists s', ampencode_loop a (length (encode chs)) (encode chs) s = Ret s' /\ amp_between s' (d ++ amp_text a chs) /\
    forall m, Forall (fun ch => zlen (amp_spec a ch) <= m) chs -> zlen d + (10 - m) <= am_max s ->
      zlen (d ++ amp_text a chs) + (10 - m) <= am_max s'.
Proof.
  induction chs as [|ch chs IH]; intros s d Hs Ht Hn.
  - exists s. split; [done|]. unfold amp_text. simpl. by rewrite app_nil_r.
  - apply Forall_cons in Ht as [Hch Ht]. cbn [no_markup] in Hn. apply andb_prop in Hn as [Hn1 Hn].
    rewrite encode_cons, length_app.
    destruct (amp_char a ch (length (encode chs)) (encode chs) s d Hs Hch) as (s1 & -> & H1 & R1).
    { intros -> E. apply head_encode in E; [|done]. by rewrite E in Hn1. }
    destruct (IH s1 _ H1 Ht Hn) as (s2 & -> & H2 & R2). exists s2. split; [done|].
    unfold amp_text in *. cbn [map concat]. rewrite app_assoc. split; [done|]. intros m Hm _.
    apply Forall_cons in Hm as [Hc Hm]. apply R2; [done|]. rewrite zlen_app. lia.
Qed.

(** ** The decoder on an encoded character *)
Lemma hex_digit_char v : 0 <= v < 16 -> hex_digit (hex_char v) = true /\ digit_value (hex_char v) = v.
Proof.
  intros Hv. assert (H : v ∈ seqZ 0 16) by (apply elem_of_seqZ; lia).
  assert (K : forallb (fun v => hex_digit (hex_char v) && (digit_value (hex_char v) =? v)) (seqZ 0 16) = true) by reflexivity.
  rewrite forallb_forall in K. specialize (K v (proj1 (list_elem_of_In _ _) H)). boolify. done.
Qed.

Lemma number_hex n : forall v acc rest, 0 <= v < 16 ^ Z.of_nat n ->
  number_loop 16 (hex_digits n v ++ rest) acc = number_loop 16 rest (acc * 16 ^ zlen (hex_digits n v) + v).
Proof.
  induction n as [|n IH]; intros v acc rest Hv; cbn [hex_digits].
  { simpl in Hv. assert (v = 0) by lia. subst. unfold zlen. simpl. f_equal. lia. }
  destruct (Z.ltb_spec v 16).
  - cbn [app number_loop]. destruct (hex_digit_char v) as [E1 E2]; [lia|]. unfold base_digit.
    change (16 =? 16) with true. cbv iota. rewrite E1, E2. done.
  - rewrite <- app_assoc, IH.
    + cbn [app number_loop]. pose proof (Z.mod_pos_bound v 16 ltac:(lia)) as Hm.
      destruct (hex_digit_char (v mod 16) Hm) as [E1 E2]. unfold base_digit.
      change (16 =? 16) with true. cbv iota. rewrite E1, E2. f_equal. rewrite zlen_app.
      change (zlen [hex_char (v mod 16)]) with 1. rewrite Z.pow_add_r by (unfold zlen; lia).
      change (16 ^ 1) with 16. pose proof (Z.div_mod v 16 ltac:(lia)). lia.
    + rewrite Nat2Z.inj_succ, Z.pow_succ_r in Hv by lia. split; [apply Z.div_pos; lia|].
      apply Z.div_lt_upper_bound; lia.
Qed.

Lemma number_stop base v rest : base = 16 -> number_loop base (SEMI :: rest) v = (v, SEMI :: rest).
Proof. by intros ->. Qed.

(** The digits of a number above zero: the first is not a zero. *)
Lemma hex_digits_first n v : 0 < v < 16 ^ Z.of_nat n ->
  exists d l, hex_digits n v = d :: l /\ hex_digit d = true /\ d <> 48.
Proof.
  revert v. induction n as [|n IH]; intros v Hv; [simpl in Hv; lia|]. cbn [hex_digits].
  destruct (Z.ltb_spec v 16).
  - exists (hex_char v), []. split; [done|]. split; [apply hex_digit_char; lia|]. unfold hex_char. cases; lia.
  - destruct (IH (v / 16)) as (d & l & -> & Hd).
    + rewrite Nat2Z.inj_succ, Z.pow_succ_r in Hv by lia. split; [apply Z.div_str_pos; lia|].
      apply Z.div_lt_upper_bound; lia.
    + by exists d, (l ++ [hex_char (v mod 16)]).
Qed.

Lemma strtoul_hex v rest : 0 < v < 16 ^ 8 -> strtoul 16 (hex_number v ++ SEMI :: rest) = (v, SEMI :: rest).
Proof.
  intros Hv. unfold hex_number. pose proof (number_hex 8 v 0 (SEMI :: rest) ltac:(simpl; lia)) as E.
  rewrite number_stop, Z.mul_0_l, Z.add_0_l in E by done.
  destruct (hex_digits_first 8 v) as (d & l & Ed & Hd & Hne); [simpl; lia|]. rewrite Ed in *. cbn [app] in *.
  unfold strtoul. destruct (l ++ SEMI :: rest) as [|x [|y r]] eqn:El; try done.
  rewrite (proj2 (Z.eqb_neq d 48)) by done. cbn [andb]. exact E.
Qed.

Lemma bit_count_log2 n : forall d b, 0 <= d < 2 ^ Z.of_nat n -> bit_count n d b = b + if d =? 0 then 0 else Z.log2 d + 1.
Proof.
  induction n as [|n IH]; intros d b Hd; cbn [bit_count].
  - simpl in Hd. assert (d = 0) by lia. subst. simpl. lia.
  - destruct (Z.eqb_spec d 0) as [->|Hn]; [lia|].
    rewrite Nat2Z.inj_succ, Z.pow_succ_r in Hd by lia.
    rewrite IH by (split; [apply Z.div_pos; lia|apply Z.div_lt_upper_bound; lia]).
    destruct (Z.eqb_spec (d / 2) 0) as [E|E].
    + assert (d = 1) by (pose proof (Z.div_mod d 2 ltac:(lia)); pose proof (Z.mod_pos_bound d 2 ltac:(lia)); lia).
      subst. simpl. lia.
    + rewrite <- Z.div2_div. assert (Hl : Z.log2 d = Z.succ (Z.log2 (Z.div2 d))); [|lia].
      pose proof (Z.div2_odd d) as Ho. rewrite Z.div2_div in *.
      assert (0 < d / 2) by (pose proof (Z.div_pos d 2); lia).
      rewrite Ho at 1. destruct (Z.odd d); simpl Z.b2z; [by rewrite Z.log2_succ_double|].
      rewrite Z.add_0_r. by rewrite Z.log2_double.
Qed.

Lemma payload_byte c k : 0 <= c -> 0 <= k -> u8 (Z.lor 0x80 (Z.land (Z.shiftr c k) 0x3F)) = 128 + c / 2 ^ k mod 64.
Proof.
  intros Hc Hk. rewrite Z.shiftr_div_pow2 by done. change 0x3F with (Z.ones 6). rewrite Z.land_ones by lia.
  change (2 ^ 6) with 64. pose proof (Z.mod_pos_bound (c / 2 ^ k) 64 ltac:(lia)).
  rewrite Z.lor_comm, (lor_lead _ 6 2) by (try done; simpl; lia). apply u8_small. lia.
Qed.

(** The head of a sequence of [b] more bytes. *)
Lemma head_byte c b lead k : 0 < b < 4 -> k = 6 - b -> lead = 2 ^ 8 - 2 ^ (7 - b) -> 0 <= c / 2 ^ (6 * b) < 2 ^ k ->
  u8 (Z.lor (Z.shiftl 0xFF (7 - b)) (Z.shiftr c (6 * b))) = lead + c / 2 ^ (6 * b).
Proof.
  intros Hb -> -> Hc. rewrite Z.shiftr_div_pow2, Z.shiftl_mul_pow2 by lia.
  assert (Hp : 2 ^ (7 - b) = 2 * 2 ^ (6 - b)) by (rewrite <- Z.pow_succ_r by lia; f_equal; lia).
  rewrite Z.lor_comm, lor_add by lia. unfold u8.
  assert (Hbb : b = 1 \/ b = 2 \/ b = 3) by lia.
  destruct Hbb as [-> | [-> | ->]]; simpl in *; [set (x := c / 64) in *|set (x := c / 4096) in *|set (x := c / 262144) in *].
  - symmetry. apply (Z.mod_unique _ _ 63); lia.
  - symmetry. apply (Z.mod_unique _ _ 31); lia.
  - symmetry. apply (Z.mod_unique _ _ 15); lia.
Qed.

Lemma log2_between c a b : 2 ^ a <= c < 2 ^ b -> 0 <= a -> a <= Z.log2 c < b.
Proof.
  intros [H1 H2] Ha. assert (0 < 2 ^ a) by (apply Z.pow_pos_nonneg; lia). split.
  - apply Z.log2_le_pow2; lia.
  - apply Z.log2_lt_pow2; lia.
Qed.

(** Powers of two with their values. *)
Ltac powers := repeat match goal with |- context [2 ^ ?k] =>
  let v := eval vm_compute in (2 ^ k) in progress change (2 ^ k) with v end.

(** The decoder writes a character as [switch_u8_wc_toutf8] does. *)
Lemma char_bytes_utf8 c : 0 < c < 0x110000 -> char_bytes c = switch_u8_wc_toutf8 c.
Proof.
  intros Hc. rewrite wc_toutf8_arith by (unfold character; lia). unfold char_bytes. change 0x80 with 128.
  destruct (Z.ltb_spec c 128); [done|]. rewrite bit_count_log2 by (split; [lia|change (2 ^ Z.of_nat 64) with 18446744073709551616; lia]).
  rewrite (proj2 (Z.eqb_neq c 0)) by lia. div_facts c.
  assert (Hb : forall b lo hi, 0 < b < 4 -> 5 * b + 1 <= lo -> hi <= 5 * b + 6 -> 2 ^ lo <= c < 2 ^ hi ->
    (0 + (Z.log2 c + 1) - 2) / 5 = b).
  { intros b lo hi Hb Hlo Hhi Hr. pose proof (log2_between c lo hi Hr ltac:(lia)).
    symmetry. apply (Z.div_unique _ 5 b (Z.log2 c - 1 - 5 * b)); lia. }
  destruct (Z.ltb_spec c 2048); [|destruct (Z.ltb_spec c 65536)].
  - rewrite (Hb 1 7 11) by (powers; lia). change (Z.to_nat 1) with 1%nat. cbn [payload].
    rewrite (head_byte c 1 192 5) by (powers; lia). rewrite payload_byte by lia. powers. by rewrite Z.div_1_r.
  - rewrite (Hb 2 11 16) by (powers; lia). change (Z.to_nat 2) with 2%nat. cbn [payload].
    rewrite (head_byte c 2 224 4) by (powers; lia). rewrite !payload_byte by lia. powers. by rewrite Z.div_1_r.
  - rewrite (Hb 3 16 21) by (powers; lia). change (Z.to_nat 3) with 3%nat. cbn [payload].
    rewrite (head_byte c 3 240 3) by (powers; lia). rewrite !payload_byte by lia. powers. by rewrite Z.div_1_r.
Qed.

Lemma char_ref_hex v rest : 0 < v < 0x110000 ->
  char_ref (120 :: hex_number v ++ SEMI :: rest) = Some (switch_u8_wc_toutf8 v, rest).
Proof.
  intros Hv. unfold char_ref. change (120 =? 120) with true. cbv iota.
  destruct (hex_digits_first 8 v) as (d & l & Ed & Hd & _); [simpl; lia|].
  pose proof (strtoul_hex v rest ltac:(simpl; lia)) as Es. unfold hex_number in *. rewrite Ed in *. cbn [app] in *.
  rewrite Hd, Es. rewrite (proj2 (Z.eqb_neq v 0)) by lia. change (SEMI =? SEMI) with true. cbv iota.
  rewrite Z.gtb_ltb, (proj2 (Z.ltb_ge _ v)) by lia. by rewrite char_bytes_utf8.
Qed.

(** ** Round trip *)

(** The mode in which the parser decodes an attribute, or a text. *)
Definition decode_mode (a : bool) : Z := if a then 32 else 38.

(** A blank of an attribute. *)
Lemma dec_blank t s y : dec t s y -> dec t (32 :: s) (32 :: y).
Proof.
  intros [n E]. exists (S n). cbn [decode_loop]. rewrite E. cbn [rbind option_map]. unfold starts_ref.
  change (32 =? 38) with false. change (32 =? 37) with false. change (is_space 32) with true.
  cbn [andb orb negb]. rewrite !andb_false_r, andb_true_r. by destruct (_ || _).
Qed.

Lemma dec_name a name code c r y :
  In (name ++ [SEMI], dec_ref code) std_ent -> forallb (fun c => negb (c =? SEMI)) name = true ->
  find_entity std_ent (name ++ SEMI :: r) = Some (dec_ref code) -> default 0 (head name) <> 35 -> name <> [] ->
  char_ref (code ++ SEMI :: r) = Some ([c], r) -> dec (decode_mode a) r y ->
  dec (decode_mode a) (amp_name name ++ r) (c :: y).
Proof.
  intros Hin Hn Hf Hh Hne Hc Hy. unfold amp_name. cbn [app]. rewrite <- app_assoc. cbn [app].
  apply (dec_entity _ _ (dec_ref code) r); [by destruct a|..|done|by apply behind_app|].
  - intros r' E. destruct name as [|h name]; [done|]. injection E as -> _. by apply Hh.
  - unfold dec_ref. rewrite <- !app_assoc. cbn [app]. apply (dec_char_ref _ _ [c] r); [by destruct a|done|done].
Qed.

Lemma dec_reference a v r y : 0 < v < 0x110000 -> dec (decode_mode a) r y ->
  dec (decode_mode a) (amp_ref v ++ r) (switch_u8_wc_toutf8 v ++ y).
Proof.
  intros Hv Hy. unfold amp_ref. rewrite <- !app_assoc. cbn [app]. apply (dec_char_ref _ _ _ r); [by destruct a| |done].
  by apply char_ref_hex.
Qed.

(** The characters that are white space but written as they are become blanks
    in an attribute. *)
Definition no_feeds (chs : list Z) : bool := forallb (fun ch => negb ((ch =? 11) || (ch =? 12))) chs.

Lemma dec_amp a ch r y : 0 < ch < 0x100000 -> (a = true -> ch <> 11 /\ ch <> 12) -> dec (decode_mode a) r y ->
  dec (decode_mode a) (amp_spec a ch ++ r) (switch_u8_wc_toutf8 ch ++ y).
Proof.
  intros Hch Ha Hy. unfold amp_spec.
  case_if E0; boolify; [subst; apply (dec_name a amp_amp [51; 56] 38); try done; simpl; tauto|].
  case_if E1; boolify; [subst; apply (dec_name a lt_name [54; 48] 60); try done; simpl; tauto|].
  case_if E2; boolify; [subst; apply (dec_name a gt_name [54; 50] 62); try done; simpl; tauto|].
  case_if E3; boolify.
  { subst. destruct a; [apply (dec_name true quot_name [51; 52] 34); try done; simpl; tauto|by apply dec_plain]. }
  case_if E4; boolify; [subst; destruct a; [by apply dec_reference|by apply dec_plain]|].
  case_if E5; boolify; [subst; destruct a; [by apply dec_reference|by apply dec_plain]|].
  case_if E6; boolify; [subst; by apply dec_reference|].
  case_if E7; boolify; [|by apply dec_reference; [lia|]].
  rewrite wc_toutf8_arith by (unfold character; lia). rewrite (proj2 (Z.ltb_lt ch 128)) by lia. cbn [app].
  destruct (Z.eq_dec ch 32) as [->|Hn]; [by apply dec_blank|].
  apply dec_plain; [done|by destruct a| |done]. unfold is_space. intros Hs. boolify.
  destruct a; [|done]. destruct (Ha eq_refl). lia.
Qed.

Lemma dec_text a chs : xml_text chs -> (a = true -> no_feeds chs = true) ->
  dec (decode_mode a) (amp_text a chs) (encode chs).
Proof.
  induction 1 as [|ch chs Hch _ IH]; intros Ha; [apply dec_nil|].
  unfold amp_text. cbn [map concat]. rewrite encode_cons. apply dec_amp; [done|..].
  - intros E. specialize (Ha E). cbn [no_feeds forallb] in Ha. boolify. lia.
  - apply IH. intros E. specialize (Ha E). cbn [no_feeds forallb] in Ha. by apply andb_prop in Ha as [_ Ha].
Qed.

(** Two steps for each byte are enough. *)
Lemma dec_fuel t s y n : dec t s y -> (2 * length s < n)%nat -> decode_loop n std_ent t s = Ret (Some y).
Proof.
  intros [m E] Hn. destruct (decode_total t n s Hn) as [y' E'].
  pose proof (decode_mono t std_ent n (n + m) s y' E' ltac:(lia)) as E1.
  pose proof (decode_mono t std_ent m (n + m) s y E ltac:(lia)) as E2. congruence.
Qed.

Lemma normalize_plain s : Forall (fun c => c <> 13) s -> normalize s = Ret s.
Proof.
  induction 1 as [|c s Hc _ IH]; [done|]. cbn [normalize]. by rewrite (proj2 (Z.eqb_neq c 13)), IH by done.
Qed.

Lemma hex_digits_plain n v : 0 <= v -> Forall (fun c => c <> 13) (hex_digits n v).
Proof.
  assert (H : forall v, hex_char v <> 13 \/ v < 0) by (intros w; unfold hex_char; cases; lia).
  revert v. induction n as [|n IH]; intros v Hv; cbn [hex_digits]; [done|].
  case_if E; [apply Forall_singleton; destruct (H v); lia|]. apply Forall_app. split; [apply IH, Z.div_pos; lia|].
  apply Forall_singleton. pose proof (Z.mod_pos_bound v 16 ltac:(lia)). destruct (H (v mod 16)); lia.
Qed.

Lemma amp_text_plain a chs : xml_text chs -> Forall (fun c => c <> 13) (amp_text a chs).
Proof.
  assert (Hr : forall v, 0 <= v -> Forall (fun c => c <> 13) (amp_ref v)).
  { intros v Hv. unfold amp_ref. rewrite !Forall_app. split; [by repeat constructor|].
    split; [by apply hex_digits_plain|by repeat constructor]. }
  induction 1 as [|ch chs Hch _ IH]; [done|]. unfold amp_text. cbn [map concat]. apply Forall_app. split; [|done].
  unfold amp_spec.
  destruct (Z.eqb_spec ch 13) as [->|Hn]; [by apply Hr|].
  repeat (case_if E; [boolify; try (apply Hr; lia); try destruct a; try (apply Hr; lia); by repeat constructor|clear E]).
  apply Hr. lia.
Qed.

Lemma decode_amp a chs : xml_text chs -> (a = true -> no_feeds chs = true) ->
  switch_xml_decode (2 * length (amp_text a chs) + 1) (amp_text a chs) std_ent (decode_mode a) = Ret (Some (encode chs)).
Proof.
  intros Ht Ha. unfold switch_xml_decode. rewrite normalize_plain by (by apply amp_text_plain). cbn [rbind].
  rewrite (dec_fuel _ _ (encode chs)) by (by apply dec_text || lia). cbn [rbind]. by destruct a.
Qed.

(** How many bytes a character takes. *)
Lemma amp_ref_digits v k : 0 <= v < 16 ^ k -> 0 < k -> zlen (amp_ref v) <= 4 + k.
Proof.
  intros Hv Hk. unfold amp_ref, hex_number. rewrite !zlen_app. pose proof (hex_digits_length 8 v k Hv Hk).
  unfold zlen in *. simpl in *. lia.
Qed.

Lemma amp_spec_length a ch k : 0 < ch < 16 ^ k -> 2 <= k -> zlen (amp_spec a ch) <= 4 + k.
Proof.
  intros Hch Hk. unfold amp_spec, zlen.
  repeat (case_if E; [try destruct a; cbn [length amp_name amp_ref amp_amp lt_name gt_name quot_name app hex_number hex_digits]; simpl; lia|clear E]).
  apply amp_ref_digits; lia.
Qed.

(** What the encoder appends, and how much room it leaves when no character takes
    more than [m] bytes. *)
Lemma ampencode_text a chs dst max m : xml_text chs -> no_markup chs = true ->
  Forall (fun ch => zlen (amp_spec a ch) <= m) chs -> zlen dst + (10 - m) <= max ->
  exists max', switch_xml_ampencode (encode chs) 0 dst max a = Ret (dst ++ amp_text a chs, max') /\
    zlen (dst ++ amp_text a chs) + (10 - m) <= max'.
Proof.
  intros Ht Hn Hm Hr. destruct (amp_loop_text a chs (mk_amp dst max false 0 0) dst) as (s & E & Hs & R); [done..|].
  exists (am_max s). split; [|by apply R]. unfold switch_xml_ampencode. change (0 =? 0) with true. cbv iota. rewrite E.
  cbn [rbind]. by rewrite (ab_dst _ _ Hs).
Qed.

(** A text of characters below 0x100000, without "<!", that
    [switch_xml_ampencode] appends to a buffer never leaves the buffer, becomes
    the texts of its characters one after the other, and [switch_xml_decode]
    makes of what was appended the same bytes again within two steps for each
    byte: as a text for any characters, as an attribute when there is no
    vertical tab or form feed among them. *)
Theorem xml_text_roundtrip a chs dst max :
  xml_text chs -> no_markup chs = true -> (a = true -> no_feeds chs = true) ->
  exists max', switch_xml_ampencode (encode chs) 0 dst max a = Ret (dst ++ amp_text a chs, max') /\
    switch_xml_decode (2 * length (amp_text a chs) + 1) (amp_text a chs) std_ent (decode_mode a)
      = Ret (Some (encode chs)).
Proof.
  intros Ht Hn Ha. destruct (amp_loop_text a chs (mk_amp dst max false 0 0) dst) as (s & E & Hs & _); [done..|].
  exists (am_max s). split; [|by apply decode_amp].
  unfold switch_xml_ampencode. change (0 =? 0) with true. cbv iota. rewrite E. cbn [rbind]. by rewrite (ab_dst _ _ Hs).
Qed.

(** ["a<b", a euro sign and a newline] as an attribute. *)
Lemma xml_text_roundtrip_witness :
  exists max', switch_xml_ampencode (encode [97; 60; 98; 0x20AC; 10]) 0 [34] 1024 true
      = Ret ([34] ++ amp_text true [97; 60; 98; 0x20AC; 10], max') /\
    switch_xml_decode (2 * length (amp_text true [97; 60; 98; 0x20AC; 10]) + 1)
      (amp_text true [97; 60; 98; 0x20AC; 10]) std_ent (decode_mode true)
      = Ret (Some (encode [97; 60; 98; 0x20AC; 10])).
Proof.
  apply (xml_text_roundtrip true [97; 60; 98; 0x20AC; 10] [34] 1024);
    [repeat constructor; lia|reflexivity|intros _; reflexivity].
Defined.

(** ** What the code does at the edges *)

(** A character from 0x100000 on is a reference of ten bytes, for which, with the
    terminating zero, eleven are needed; ten are reserved. *)
Theorem last_plane_overflows : switch_xml_ampencode (encode [0x10FFFF]) 0 (repeat 97 1014) 1024 false = Ub.
Proof. vm_compute. reflexivity. Qed.

(** A text that ends in a carriage return is read behind its end. *)
Theorem normalize_leaves : switch_xml_decode 100 [97; 13] std_ent 38 = Ub /\
  switch_xml_decode 100 [97; 13; 10] std_ent 38 = Ub /\
  switch_xml_decode 100 [97; 13; 10; 98] std_ent 38 = Ret (Some [97; 10; 98]).
Proof. vm_compute. done. Qed.

(** A value that is not character data is read behind its end unless it is empty
    or ends in a single blank. *)
Theorem squeeze_leaves : switch_xml_decode 100 [97] std_ent 42 = Ub /\
  switch_xml_decode 100 [97; 32; 32] std_ent 42 = Ub /\
  switch_xml_decode 100 [32; 97; 32; 98; 32] std_ent 42 = Ret (Some [97; 32; 98]).
Proof. vm_compute. done. Qed.

(** Behind "<!" nothing is encoded: the ampersand is lost in the round trip. *)
Theorem markup_is_immune : exists max, switch_xml_ampencode [60; 33; 38; 108; 116; 59] 0 [] 1024 false
    = Ret ([60; 33; 38; 108; 116; 59], max) /\
  switch_xml_decode 100 [60; 33; 38; 108; 116; 59] std_ent 38 = Ret (Some [60; 33; 60]).
Proof. eexists. vm_compute. done. Qed.
