(* ===== verification/XmlTree.v ===== *)
(** * XmlTree: the tags of an XML document, src/switch_xml.c

    A tag has up to five links: to its parent, to its first subtag, to the next
    tag of the same parent, to the next of the same name, and from the first of a
    name to the first of another name.  Tags lie in a heap; the operations walk
    along the links and change them.  The links may form circles, so that the
    walks are given fuel. *)
From S2P Require Import Prelude.
From Stdlib Require Import ZArith Lia.
From stdpp Require Import base numbers option list sorting functions gmap.

Local Open Scope Z_scope.

(** ** Tags and the heap *)
Abbreviation loc := positive (only parsing).
(** An attribute with its value; [None] is the one empty text that all attributes
    written without a value share. *)
Abbreviation attribute := (list Z * option (list Z))%type (only parsing).
Record tag := mk_tag {
  x_name : list Z;
  x_attr : list attribute;
  x_txt : list Z;
  x_off : Z;
  x_next : option loc;
  x_sibling : option loc;
  x_ordered : option loc;
  x_child : option loc;
  x_parent : option loc
}.
#[export] Instance eta_tag : Eta tag := fun t =>
  mk_tag (x_name t) (x_attr t) (x_txt t) (x_off t) (x_next t) (x_sibling t) (x_ordered t) (x_child t) (x_parent t).
Abbreviation heap := (gmap positive tag).

(** What a command does to the heap: it is done, it uses what is not there, or it
    used up its fuel. *)
Inductive outcome (A : Type) := Done (a : A) (h : heap) | Fault | Spin.
Arguments Done {A} a h.
Arguments Fault {A}.
Arguments Spin {A}.
Definition cmd (A : Type) : Type := heap -> outcome A.
Definition ret {A} (a : A) : cmd A := fun h => Done a h.
Definition spin {A} : cmd A := fun _ => Spin.
Definition cbind {A B} (m : cmd A) (k : A -> cmd B) : cmd B := fun h =>
  match m h with Done a h => k a h | Fault => Fault | Spin => Spin end.
Declare Scope xml_scope.
Notation "x <- m ;; k" := (cbind m (fun x => k)) (at level 20, m at level 99, k at level 200, only parsing) : xml_scope.
Notation "' p <- m ;; k" := (cbind m (fun x => match x with p => k end))
  (at level 20, p pattern, m at level 99, k at level 200, only parsing) : xml_scope.
Notation "m ;;! k" := (cbind m (fun _ => k)) (at level 100, k at level 200, only parsing) : xml_scope.
Local Open Scope xml_scope.

(** [p->...] and [p->... = ...] *)
Definition rd (p : loc) : cmd tag := fun h => match h !! p with Some t => Done t h | None => Fault end.
Definition wr (p : loc) (f : tag -> tag) : cmd unit := fun h =>
  match h !! p with Some _ => Done tt (alter f p h) | None => Fault end.
Definition rd_opt (p : option loc) : cmd (option tag) :=
  match p with Some p => t <- rd p;; ret (Some t) | None => ret None end.

(** ** Inserting *)

(** [for (; cur->link && cur->link->off <= off; cur = cur->link);] *)
Fixpoint last_upto (link : tag -> option loc) (off : Z) (fuel : nat) (cur : loc) : cmd loc :=
  match fuel with
  | O => spin
  | S fuel =>
    c <- rd cur;;
    match link c with
    | None => ret cur
    | Some n => t <- rd n;; if x_off t <=? off then last_upto link off fuel n else ret cur
    end
  end.

(** [for (; cur && go(cur); prev = cur, cur = cur->sibling);] *)
Fixpoint siblings_while (go : tag -> bool) (fuel : nat) (cur prev : option loc) : cmd (option loc * option loc) :=
  match fuel with
  | O => spin
  | S fuel =>
    match cur with
    | None => ret (cur, prev)
    | Some p => t <- rd p;; if go t then siblings_while go fuel (x_sibling t) cur else ret (cur, prev)
    end
  end.
Definition other_name (name : list Z) (t : tag) : bool := negb (bool_decide (x_name t = name)).

Definition insert_ordered (fuel : nat) (xml dest head : loc) (off : Z) : cmd unit :=
  h <- rd head;;
  if x_off h <=? off then
    cur <- last_upto x_ordered off fuel head;;
    c <- rd cur;;
    wr xml (set x_ordered (fun _ => x_ordered c)) ;;!
    wr cur (set x_ordered (fun _ => Some xml))
  else
    wr xml (set x_ordered (fun _ => Some head)) ;;!
    wr dest (set x_child (fun _ => Some xml)).

(** Behind another tag of its name. *)
Definition link_behind (fuel : nat) (xml cu : loc) (off : Z) : cmd unit :=
  cu <- last_upto x_next off fuel cu;;
  c <- rd cu;;
  wr xml (set x_next (fun _ => x_next c)) ;;!
  wr cu (set x_next (fun _ => Some xml)).

(** The place among the first tags of the names. *)
Definition link_first (fuel : nat) (xml head : loc) (off : Z) : cmd unit :=
  '(cur, prev) <- siblings_while (fun t => x_off t <=? off) fuel (Some head) None;;
  wr xml (set x_sibling (fun _ => cur)) ;;!
  match prev with Some pr => wr pr (set x_sibling (fun _ => Some xml)) | None => ret tt end.

(** The first tag of its name; [cur] was the first before, behind [prev]. *)
Definition insert_first (fuel : nat) (xml head : loc) (off : Z) (cur prev : option loc) : cmd unit :=
  c <- rd_opt cur;;
  match prev, c with
  | Some pr, Some c => wr pr (set x_sibling (fun _ => x_sibling c))
  | _, _ => ret tt
  end ;;!
  wr xml (set x_next (fun _ => cur)) ;;!
  link_first fuel xml head off.

Definition insert_type (fuel : nat) (xml head : loc) (off : Z) : cmd unit :=
  x <- rd xml;;
  '(cur, prev) <- siblings_while (other_name (x_name x)) fuel (Some head) None;;
  c <- rd_opt cur;;
  match cur, c with
  | Some cu, Some c =>
    if x_off c <=? off then link_behind fuel xml cu off else insert_first fuel xml head off cur prev
  | _, _ => insert_first fuel xml head off cur prev
  end.

Definition switch_xml_insert (fuel : nat) (xml dest : loc) (off : Z) : cmd loc :=
  wr xml (fun t => t <| x_next := None |> <| x_sibling := None |> <| x_ordered := None |>
                     <| x_off := off |> <| x_parent := Some dest |>) ;;!
  d <- rd dest;;
  match x_child d with
  | Some head => insert_ordered fuel xml dest head off ;;! insert_type fuel xml head off
  | None => wr dest (set x_child (fun _ => Some xml))
  end ;;!
  ret xml.

(** [child] is the block [malloc] gave. *)
Definition switch_xml_add_child (fuel : nat) (child : loc) (xml : option loc) (name : list Z) (off : Z) : cmd (option loc) :=
  match xml with
  | None => ret None
  | Some xml =>
    (fun h => Done tt (<[child := mk_tag name [] [] off None None None None (Some xml)]> h)) ;;!
    c <- switch_xml_insert fuel child xml off;; ret (Some c)
  end.

(** ** Taking out *)
Fixpoint tag_before (link : tag -> option loc) (xml : loc) (fuel : nat) (cur : loc) : cmd loc :=
  match fuel with
  | O => spin
  | S fuel =>
    c <- rd cur;;
    match link c with
    | None => fun _ => Fault
    | Some n => if decide (n = xml) then ret cur else tag_before link xml fuel n
    end
  end.
(** [while (strcmp(cur->sibling->name, xml->name)) cur = cur->sibling;] *)
Fixpoint before_name (name : list Z) (fuel : nat) (cur : loc) : cmd loc :=
  match fuel with
  | O => spin
  | S fuel =>
    c <- rd cur;;
    match x_sibling c with
    | None => fun _ => Fault
    | Some n => s <- rd n;; if other_name name s then before_name name fuel n else ret cur
    end
  end.
(** [while (cur->next && cur->next != xml) cur = cur->next;] *)
Fixpoint next_before (xml : loc) (fuel : nat) (cur : loc) : cmd loc :=
  match fuel with
  | O => spin
  | S fuel =>
    c <- rd cur;;
    match x_next c with
    | None => ret cur
    | Some n => if decide (n = xml) then ret cur else next_before xml fuel n
    end
  end.

Definition cut_sibling (fuel : nat) (xml cur : loc) : cmd loc :=
  x <- rd xml;;
  c <- rd cur;;
  if other_name (x_name x) c then
    cur <- before_name (x_name x) fuel cur;;
    c <- rd cur;;
    if decide (x_sibling c = Some xml) then
      wr cur (set x_sibling (fun _ => match x_next x with Some n => Some n | None => x_sibling x end)) ;;! ret cur
    else match x_sibling c with Some s => ret s | None => fun _ => Fault end
  else ret cur.
Definition cut_next (fuel : nat) (xml cur : loc) : cmd unit :=
  cur <- next_before xml fuel cur;;
  c <- rd cur;;
  match x_next c with
  | Some n => t <- rd n;; wr cur (set x_next (fun _ => x_next t))
  | None => ret tt
  end.

Definition switch_xml_cut (fuel : nat) (xml : option loc) : cmd (option loc) :=
  match xml with
  | None => ret None
  | Some xml =>
    x <- rd xml;;
    match x_next x with Some n => wr n (set x_sibling (fun _ => x_sibling x)) | None => ret tt end ;;!
    match x_parent x with
    | None => ret tt
    | Some p =>
      d <- rd p;;
      match x_child d with
      | None => fun _ => Fault
      | Some cur =>
        if decide (cur = xml) then wr p (set x_child (fun _ => x_ordered x))
        else
          cu <- tag_before x_ordered xml fuel cur;;
          wr cu (set x_ordered (fun _ => x_ordered x)) ;;!
          cu <- cut_sibling fuel xml cur;;
          cut_next fuel xml cu
      end
    end ;;!
    wr xml (fun t => t <| x_ordered := None |> <| x_sibling := None |> <| x_next := None |>) ;;!
    ret (Some xml)
  end.

Definition switch_xml_move (fuel : nat) (xml dest : loc) (off : Z) : cmd loc :=
  x <- switch_xml_cut fuel (Some xml);;
  match x with Some x => switch_xml_insert fuel x dest off | None => fun _ => Fault end.

(** ** Finding *)
Fixpoint child_loop (name : list Z) (fuel : nat) (xml : option loc) : cmd (option loc) :=
  match fuel with
  | O => spin
  | S fuel =>
    match xml with
    | None => ret None
    | Some p => t <- rd p;; if other_name name t then child_loop name fuel (x_sibling t) else ret (Some p)
    end
  end.
Definition switch_xml_child (fuel : nat) (xml : option loc) (name : list Z) : cmd (option loc) :=
  t <- rd_opt xml;; child_loop name fuel (t ≫= x_child).

Fixpoint switch_xml_idx (fuel : nat) (xml : option loc) (idx : Z) : cmd (option loc) :=
  match fuel with
  | O => spin
  | S fuel =>
    match xml with
    | None => ret None
    | Some p => if idx =? 0 then ret xml else t <- rd p;; switch_xml_idx fuel (x_next t) (idx - 1)
    end
  end.

(** The arguments are names with indices; behind them comes a null pointer. *)
Fixpoint switch_xml_get (fuel : nat) (xml : option loc) (args : list (list Z * Z)) : cmd (option loc) :=
  match args with
  | [] | ([], _) :: _ => ret xml
  | (name, idx) :: args =>
    xml <- switch_xml_child fuel xml name;;
    if idx <? 0 then ret xml
    else xml <- switch_xml_idx fuel xml idx;; switch_xml_get fuel xml args
  end.

Definition switch_xml_set_txt (xml : option loc) (txt : list Z) : cmd (option loc) :=
  match xml with Some p => wr p (set x_txt (fun _ => txt)) ;;! ret xml | None => ret None end.

(** ** Chains of links *)

Lemma nil_or_last {X} (l : list X) : l = [] \/ exists l0 a, l = l0 ++ [a].
Proof. destruct l as [|y l]; [by left|]. right. destruct (exists_last (l := y :: l)) as (? & ? & ?); [done|by eauto]. Qed.

(** In a list without duplicates the parts around an element are without it. *)
Lemma around {X} (l1 : list X) a l2 y : NoDup (l1 ++ a :: l2) -> y ∈ l1 ++ l2 -> y <> a.
Proof.
  intros Hnd Hy ->. apply NoDup_app in Hnd as (_ & H1 & H2). apply NoDup_cons in H2 as [H2 _].
  apply elem_of_app in Hy as [Hy|Hy]; [|done]. apply (H1 a Hy). by left.
Qed.

(** A part of a tag after a change elsewhere, or of something else. *)
Section Parts.
Context {T : Type} (part : tag -> T).

Lemma part_same f x (h : heap) y : (forall t, part (f t) = part t) -> part <$> alter f x h !! y = part <$> h !! y.
Proof.
  intros E. destruct (decide (y = x)) as [->|Hn]; [|by rewrite lookup_alter_ne].
  rewrite lookup_alter_eq. destruct (h !! x); simpl; [by rewrite E|done].
Qed.

Lemma part_ne f x (h : heap) y : y <> x -> part <$> alter f x h !! y = part <$> h !! y.
Proof. intros Hn. by rewrite lookup_alter_ne. Qed.

Lemma part_eq f x (h : heap) v : is_Some (h !! x) -> (forall t, part (f t) = v) -> part <$> alter f x h !! x = Some v.
Proof. intros [t E] Hv. rewrite lookup_alter_eq, E. simpl. by rewrite Hv. Qed.

(** The part is the same in all tags. *)
Definition agrees (h h' : heap) : Prop := forall y, part <$> h !! y = part <$> h' !! y.

Lemma agrees_alter f x (h h' : heap) : (forall t, part (f t) = part t) -> agrees h h' -> agrees h (alter f x h').
Proof. intros E H y. by rewrite H, part_same. Qed.

Lemma agrees_lookup (h h' : heap) y t : agrees h h' -> h !! y = Some t -> exists t', h' !! y = Some t' /\ part t' = part t.
Proof.
  intros H Ht. specialize (H y). rewrite Ht in H. destruct (h' !! y) as [t'|]; [|done]. exists t'. split; [done|].
  simpl in H. congruence.
Qed.
End Parts.

Lemma agrees_part {T U} (part : tag -> T) (g : T -> U) h h' : agrees part h h' -> agrees (fun t => g (part t)) h h'.
Proof. intros H y. specialize (H y). destruct (h !! y), (h' !! y); simpl in *; congruence. Qed.

Lemma agrees_some {T} (part : tag -> T) h h' y : agrees part h h' -> is_Some (h !! y) -> is_Some (h' !! y).
Proof. intros H [t Ht]. destruct (agrees_lookup part h h' y t H Ht) as (t' & -> & _). by eexists. Qed.

Section Chain.
Context (link : tag -> option loc).

(** From [p] the links lead along [l] to a null pointer. *)
Fixpoint chain (h : heap) (p : option loc) (l : list loc) : Prop :=
  match l with
  | [] => p = None
  | x :: l => p = Some x /\ exists v, link <$> h !! x = Some v /\ chain h v l
  end.

Lemma chain_head h p l : chain h p l -> p = head l.
Proof. destruct l; simpl; [done|by intros [-> _]]. Qed.

(** What does not change the links of the chain leaves it. *)
Lemma chain_frame h h' p l : (forall y, y ∈ l -> link <$> h !! y = link <$> h' !! y) -> chain h p l -> chain h' p l.
Proof.
  revert p. induction l as [|x l IH]; intros p Hf; [done|]. intros [-> (v & Hv & Hc)]. split; [done|].
  exists v. rewrite <- Hf by left. split; [done|]. apply IH; [|done]. intros y Hy. apply Hf. by right.
Qed.

Lemma chain_agrees h h' p l : agrees link h h' -> chain h p l -> chain h' p l.
Proof. intros H. apply chain_frame. intros y _. apply H. Qed.

Lemma chain_app h p l1 x l2 : chain h p (l1 ++ x :: l2) -> link <$> h !! x = Some (head l2) /\ chain h (head l2) l2.
Proof.
  revert p. induction l1 as [|y l1 IH]; intros p; simpl.
  - intros [-> (v & Hv & Hc)]. pose proof (chain_head _ _ _ Hc) as ->. done.
  - intros [-> (v & _ & H)]. by apply IH in H.
Qed.

Lemma chain_some h p l x : chain h p l -> x ∈ l -> is_Some (h !! x).
Proof.
  intros Hc Hx. apply list_elem_of_split in Hx as (l1 & l2 & ->). apply chain_app in Hc as [Hv _].
  destruct (h !! x); [by eexists|done].
Qed.

(** What follows [x] is replaced. *)
Lemma chain_replace h h' p l1 x l2 l3 :
  chain h p (l1 ++ x :: l2) -> (forall y, y ∈ l1 -> link <$> h !! y = link <$> h' !! y) ->
  link <$> h' !! x = Some (head l3) -> chain h' (head l3) l3 -> chain h' p (l1 ++ x :: l3).
Proof.
  intros Hc Hf Hx H3. revert p Hc Hf. induction l1 as [|y l1 IH]; intros p Hc Hf; simpl in *.
  - destruct Hc as [-> _]. split; [done|]. by eexists.
  - destruct Hc as [-> (v & Hv & Hc)]. split; [done|]. exists v. rewrite <- Hf by left. split; [done|].
    apply IH; [done|]. intros z Hz. apply Hf. by right.
Qed.

(** [x] is put before a chain. *)
Lemma chain_push h h' x p l : chain h p l -> (forall y, y ∈ l -> link <$> h !! y = link <$> h' !! y) ->
  link <$> h' !! x = Some p -> chain h' (Some x) (x :: l).
Proof. intros Hc Hf Hx. split; [done|]. exists p. split; [done|]. by apply (chain_frame h). Qed.

(** [x] is put behind [a]. *)
Lemma chain_insert h h' p l1 a x l2 : chain h p (l1 ++ a :: l2) ->
  (forall y, y ∈ l1 ++ l2 -> link <$> h !! y = link <$> h' !! y) ->
  link <$> h' !! a = Some (Some x) -> link <$> h' !! x = Some (head l2) -> chain h' p (l1 ++ a :: x :: l2).
Proof.
  intros Hc Hf Ha Hx. destruct (chain_app _ _ _ _ _ Hc) as [_ H2].
  apply (chain_replace h h' p l1 a l2); [done|..].
  - intros y Hy. apply Hf, elem_of_app. by left.
  - done.
  - apply (chain_push h _ _ (head l2)); [done|..|done]. intros y Hy. apply Hf, elem_of_app. by right.
Qed.

(** [x] is taken out behind [a]. *)
Lemma chain_remove h h' p l1 a x l2 : chain h p (l1 ++ a :: x :: l2) ->
  (forall y, y ∈ l1 ++ l2 -> link <$> h !! y = link <$> h' !! y) ->
  link <$> h' !! a = Some (head l2) -> chain h' p (l1 ++ a :: l2).
Proof.
  intros Hc Hf Ha. destruct (chain_app h p (l1 ++ [a]) x l2) as [_ H2]; [by rewrite <- app_assoc|].
  apply (chain_replace h h' p l1 a (x :: l2)); [done|..|done|].
  - intros y Hy. apply Hf, elem_of_app. by left.
  - apply (chain_frame h); [|done]. intros y Hy. apply Hf, elem_of_app. by right.
Qed.
End Chain.

(** All but the links among the tags of a parent. *)
Definition no_ordered (t : tag) := (x_name t, x_attr t, x_txt t, x_off t, x_next t, x_sibling t, x_parent t).
Definition no_type (t : tag) := (x_name t, x_attr t, x_txt t, x_off t, x_ordered t, x_child t, x_parent t).
Definition fixed (t : tag) := (x_name t, x_off t, x_parent t).
Definition content (t : tag) := (x_name t, x_attr t, x_txt t).

(** ** The walks *)
Definition each (h : heap) (P : tag -> Prop) (l : list loc) : Prop := Forall (fun p => forall t, h !! p = Some t -> P t) l.

Lemma last_upto_spec link off h : forall A a B p fuel, chain link h (Some p) (A ++ a :: B) ->
  each h (fun t => x_off t <= off) (A ++ [a]) -> each h (fun t => off < x_off t) B -> (length A < fuel)%nat ->
  last_upto link off fuel p h = Done a h.
Proof.
  induction A as [|y A IH]; intros a B p [|fuel] Hc HA HB Hf; try (simpl in Hf; lia);
    simpl in Hc; destruct Hc as [E (v & Ht & Hc)]; injection E as ->; apply fmap_Some in Ht as (t & Ht & ->);
    cbn [last_upto]; unfold cbind, rd; rewrite Ht.
  - destruct B as [|b B]; simpl in Hc; [by rewrite Hc|]. destruct Hc as [-> (v & (u & Hu & _)%fmap_Some & _)]. rewrite Hu.
    apply Forall_cons in HB as [Hb _]. specialize (Hb u Hu). by rewrite (proj2 (Z.leb_gt _ _)).
  - apply Forall_cons in HA as [_ HA].
    assert (Hn : exists n u, link t = Some n /\ h !! n = Some u /\ x_off u <= off).
    { destruct A as [|z A]; simpl in Hc, HA; destruct Hc as [E (v & (u & Hu & _)%fmap_Some & _)]; apply Forall_cons in HA as [Hz _];
        eexists _, u; (split; [done|]); (split; [done|]); by apply Hz. }
    destruct Hn as (n & u & E & Hu & Ho). rewrite E, Hu, (proj2 (Z.leb_le _ _)) by done.
    rewrite E in Hc. apply (IH a B n fuel Hc HA HB). simpl in Hf. lia.
Qed.

Lemma siblings_while_spec go h : forall A B p prev fuel, chain x_sibling h p (A ++ B) ->
  each h (fun t => go t = true) A -> each h (fun t => go t = false) (take 1 B) -> (length A < fuel)%nat ->
  siblings_while go fuel p prev h = Done (head B, match last A with Some a => Some a | None => prev end) h.
Proof.
  induction A as [|y A IH]; intros B p prev [|fuel] Hc HA HB Hf; try (simpl in Hf; lia); cbn [siblings_while].
  - destruct B as [|b B]; simpl in Hc; [by rewrite Hc|]. destruct Hc as [-> (v & (t & Ht & _)%fmap_Some & _)]. simpl in HB.
    apply Forall_cons in HB as [Hb _]. unfold cbind, rd. by rewrite Ht, (Hb t Ht).
  - simpl in Hc. destruct Hc as [-> (v & (t & Ht & ->)%fmap_Some & Hc)]. apply Forall_cons in HA as [Hy HA].
    unfold cbind, rd. rewrite Ht, (Hy t Ht). rewrite (IH B _ (Some y) fuel Hc HA HB) by (simpl in Hf; lia).
    rewrite last_cons. by destruct (last A).
Qed.

(** ** Subtags as lists *)
Record kid := mk_kid { k_loc : loc; k_name : list Z; k_off : Z }.

(** In the order of their positions, behind those at the same one. *)
Fixpoint insert_kid (k : kid) (K : list kid) : list kid :=
  match K with
  | [] => [k]
  | a :: K' => if k_off a <=? k_off k then a :: insert_kid k K' else k :: K
  end.
(** Those of a name, and the first of each name. *)
Definition of_name (n : list Z) (K : list kid) : list kid := filter (fun k => k_name k = n) K.
Fixpoint firsts_from (seen : list (list Z)) (K : list kid) : list kid :=
  match K with
  | [] => []
  | k :: K => if decide (k_name k ∈ seen) then firsts_from seen K else k :: firsts_from (k_name k :: seen) K
  end.
Definition firsts : list kid -> list kid := firsts_from [].

Definition tags (h : heap) (d : loc) (K : list kid) : Prop :=
  Forall (fun k => exists t, h !! k_loc k = Some t /\ fixed t = (k_name k, k_off k, Some d)) K.

Record children (h : heap) (d : loc) (K : list kid) : Prop := {
  ch_tags : tags h d K;
  ch_nodup : NoDup (k_loc <$> K);
  ch_self : d ∉ k_loc <$> K;
  ch_sorted : StronglySorted (fun a b => k_off a <= k_off b) K;
  ch_dest : exists t, h !! d = Some t /\ chain x_ordered h (x_child t) (k_loc <$> K) /\
    chain x_sibling h (x_child t) (k_loc <$> firsts K);
  ch_next n : chain x_next h (head (k_loc <$> of_name n K)) (k_loc <$> of_name n K)
}.

(** Every tag of the heap has the subtags that [kids] gives. *)
Definition forest (h : heap) (kids : loc -> list kid) : Prop := forall d, is_Some (h !! d) -> children h d (kids d).

Lemma insert_kid_split k K : StronglySorted (fun a b => k_off a <= k_off b) K -> exists A B, K = A ++ B /\
  insert_kid k K = A ++ k :: B /\ Forall (fun a => k_off a <= k_off k) A /\ Forall (fun b => k_off k < k_off b) B.
Proof.
  induction 1 as [|a K Hs IH Ha]; simpl; [by exists [], []|]. destruct (Z.leb_spec (k_off a) (k_off k)).
  - destruct IH as (A & B & -> & -> & HA & HB). exists (a :: A), B. split_and!; try done. by constructor.
  - exists [], (a :: K). split_and!; try done. constructor; [done|]. apply (Forall_impl _ _ _ Ha). lia.
Qed.

Lemma insert_kid_sorted k K : StronglySorted (fun a b => k_off a <= k_off b) K ->
  StronglySorted (fun a b => k_off a <= k_off b) (insert_kid k K).
Proof.
  intros Hs. destruct (insert_kid_split k K Hs) as (A & B & -> & -> & HA & HB).
  induction A as [|a A IH]; simpl in *.
  - constructor; [done|]. apply (Forall_impl _ _ _ HB). lia.
  - apply StronglySorted_inv in Hs as [Hs Ha]. apply Forall_cons in HA as [Hk HA]. constructor; [by apply IH|].
    apply Forall_app in Ha as [H1 H2]. apply Forall_app. split; [done|]. by constructor.
Qed.

Lemma firsts_ext K : forall s1 s2, (forall n, n ∈ s1 <-> n ∈ s2) -> firsts_from s1 K = firsts_from s2 K.
Proof.
  induction K as [|k K IH]; intros s1 s2 H; cbn [firsts_from]; [done|].
  destruct (decide (k_name k ∈ s1)) as [H1|H1]; [rewrite decide_True by (by apply H)|rewrite decide_False by (by rewrite <- H)].
  - by apply IH.
  - f_equal. apply IH. intros n. by rewrite !elem_of_cons, H.
Qed.

Lemma firsts_app seen A B : firsts_from seen (A ++ B) = firsts_from seen A ++ firsts_from ((k_name <$> A) ++ seen) B.
Proof.
  revert seen. induction A as [|k A IH]; intros seen; [done|]. cbn [app firsts_from fmap list_fmap].
  destruct (decide (k_name k ∈ seen)) as [Hin|Hn]; rewrite IH; cbn [app]; [f_equal|do 2 f_equal];
    apply firsts_ext; intros n; rewrite ?elem_of_cons, !elem_of_app, ?elem_of_cons; [|tauto].
  split; [tauto|]. intros [->|]; tauto.
Qed.

Lemma firsts_filter n seen K : firsts_from (n :: seen) K = filter (fun k => k_name k <> n) (firsts_from seen K).
Proof.
  revert seen. induction K as [|k K IH]; intros seen; [done|]. cbn [firsts_from].
  destruct (decide (k_name k ∈ seen)) as [Hs|Hs].
  - rewrite decide_True by set_solver. apply IH.
  - destruct (decide (k_name k = n)) as [<-|E].
    + rewrite decide_True by set_solver. rewrite filter_cons_False by (intros X; by apply X). rewrite <- IH.
      apply firsts_ext. set_solver.
    + rewrite decide_False by set_solver. rewrite filter_cons_True by done. f_equal. rewrite <- IH.
      apply firsts_ext. set_solver.
Qed.

Lemma firsts_subset seen K k : k ∈ firsts_from seen K -> k ∈ K /\ k_name k ∉ seen.
Proof.
  revert seen. induction K as [|a K IH]; intros seen; cbn [firsts_from]; [set_solver|].
  destruct (decide (k_name a ∈ seen)).
  - intros []%IH. set_solver.
  - rewrite elem_of_cons. intros [->|[]%IH]; set_solver.
Qed.

(** The first of a name among the firsts. *)
Lemma firsts_find n K : forall seen, n ∉ seen ->
  match of_name n K with
  | [] => Forall (fun k => k_name k <> n) (firsts_from seen K)
  | c :: _ => exists S1 S2, firsts_from seen K = S1 ++ c :: S2 /\ Forall (fun k => k_name k <> n) S1 /\
      Forall (fun k => k_name k <> n) S2
  end.
Proof.
  induction K as [|k K IH]; intros seen Hn; [by constructor|]. unfold of_name. cbn [firsts_from].
  destruct (decide (k_name k = n)) as [E|E].
  - rewrite filter_cons_True by done. rewrite decide_False by (by rewrite E). exists [], (firsts_from (k_name k :: seen) K).
    split_and!; try done. apply Forall_forall. intros a [_ Ha]%firsts_subset. rewrite E in Ha. set_solver.
  - rewrite filter_cons_False by done. destruct (decide (k_name k ∈ seen)); [by apply IH|].
    specialize (IH (k_name k :: seen) ltac:(set_solver)). unfold of_name in IH.
    destruct (filter _ K) as [|c R]; [by constructor|]. destruct IH as (S1 & S2 & -> & H1 & H2).
    exists (k :: S1), S2. split_and!; try done. by constructor.
Qed.

Lemma tags_each h d K (P : tag -> Prop) : tags h d K ->
  Forall (fun k => forall t, x_name t = k_name k -> x_off t = k_off k -> P t) K -> each h P (k_loc <$> K).
Proof.
  intros Ht HP. apply Forall_fmap, Forall_forall. intros k Hk t E. unfold tags in Ht. rewrite Forall_forall in Ht, HP.
  destruct (Ht k Hk) as (t' & E' & Hf). rewrite E in E'. injection E' as <-. injection Hf as H1 H2 H3. by apply (HP k Hk).
Qed.

Lemma tags_agrees h h' d K : agrees fixed h h' -> tags h d K -> tags h' d K.
Proof.
  intros Ha Hk. apply (Forall_impl _ _ _ Hk). intros k (t & Ht & Hf). destruct (agrees_lookup _ _ _ _ _ Ha Ht) as (t' & H1 & H2).
  exists t'. by rewrite H2.
Qed.

Lemma done_wr x f h : is_Some (h !! x) -> wr x f h = Done tt (alter f x h).
Proof. intros [t E]. unfold wr. by rewrite E. Qed.
Lemma done_rd x t h : h !! x = Some t -> rd x h = Done t h.
Proof. intros E. unfold rd. by rewrite E. Qed.

(** The links from tag to tag in their order. *)
Lemma insert_ordered_spec fuel h x d hd n off K :
  tags h d K -> NoDup (k_loc <$> K) -> StronglySorted (fun a b => k_off a <= k_off b) K ->
  is_Some (h !! x) -> x ∉ k_loc <$> K -> is_Some (h !! d) ->
  chain x_ordered h (Some hd) (k_loc <$> K) -> x_child <$> h !! d = Some (Some hd) -> (length K <= fuel)%nat ->
  exists h' c, insert_ordered fuel x d hd off h = Done tt h' /\ agrees no_ordered h h' /\
    x_child <$> h' !! d = Some c /\ chain x_ordered h' c (k_loc <$> insert_kid (mk_kid x n off) K) /\
    (forall y, y ∉ k_loc <$> K -> y <> x -> x_ordered <$> h !! y = x_ordered <$> h' !! y) /\
    (forall y, y <> d -> x_child <$> h !! y = x_child <$> h' !! y).
Proof.
  intros Ht Hnd Hs Hx Hxk Hd Hc Hcd Hf.
  destruct (insert_kid_split (mk_kid x n off) K Hs) as (A & B & -> & -> & HA & HB). simpl in HA, HB.
  rewrite fmap_app in *. unfold tags in Ht. apply Forall_app in Ht as [HtA HtB]. unfold insert_ordered, cbind.
  assert (Hh : exists t, h !! hd = Some t /\ x_off t = match A, B with a :: _, _ | [], a :: _ => k_off a | [], [] => 0 end).
  { destruct A as [|a A], B as [|b B]; try done; destruct Hc as [E _]; injection E as ->;
      [apply Forall_cons in HtB as [(t & E & Hfx) _]|apply Forall_cons in HtA as [(t & E & Hfx) _]..];
      exists t; by injection Hfx as Hfx1 Hfx2 Hfx3. }
  destruct Hh as (th & Hth & Eo). rewrite (done_rd _ th), Eo by done. destruct A as [|a0 A0].
  - destruct B as [|b B]; [done|]. apply Forall_cons in HB as [Hb _]. rewrite (proj2 (Z.leb_gt _ _)) by lia.
    rewrite !done_wr by (try apply (agrees_some x_child h); try done; by apply agrees_alter).
    eexists _, (Some x). split; [done|]. split_and!.
    + by repeat apply agrees_alter.
    + apply part_eq; [by apply (agrees_some x_child h); [apply agrees_alter|]|done].
    + apply (chain_push x_ordered h _ _ (Some hd)); [done|..].
      * intros y Hy. rewrite part_same, part_ne by (done || set_solver). done.
      * rewrite part_same by done. by apply part_eq.
    + intros y Hy Hyx. by rewrite part_same, part_ne.
    + intros y Hy. by rewrite part_ne, part_same.
  - destruct (exists_last (l := a0 :: A0)) as (A & a & EA); [done|].
    assert (Ha0 : k_off a0 <= off) by (by apply Forall_cons in HA as [? _]). rewrite (proj2 (Z.leb_le _ _)) by done.
    rewrite EA in *. clear EA a0 A0 Ha0 Eo.
    rewrite fmap_app, <- app_assoc in *. cbn [fmap list_fmap app] in *.
    rewrite (last_upto_spec x_ordered off h (k_loc <$> A) (k_loc a) (k_loc <$> B)); [|done|..].
    2: { change [k_loc a] with (k_loc <$> [a]). rewrite <- fmap_app. apply (tags_each h d); [done|].
         apply (Forall_impl _ _ _ HA). intros k Hk t _ ->. done. }
    2: { apply (tags_each h d); [done|]. apply (Forall_impl _ _ _ HB). intros k Hk t _ ->. done. }
    2: { rewrite length_fmap. rewrite !length_app in Hf. simpl in Hf. lia. }
    destruct (chain_app _ _ _ _ _ _ Hc) as [Ea Hcb]. apply fmap_Some in Ea as (ta & Hta & Ea).
    rewrite (done_rd _ ta), <- Ea by done.
    rewrite !done_wr by (try apply (agrees_some x_child h); try done; by (apply agrees_alter || eexists)).
    assert (Hxa : x <> k_loc a) by set_solver.
    eexists _, (Some hd). split; [done|]. split_and!.
    + by repeat apply agrees_alter.
    + by rewrite !part_same.
    + 
      apply (chain_insert x_ordered h); [done|..].
      * intros y Hy. rewrite !part_ne; [done|..].
        -- intros ->. apply Hxk. apply elem_of_app in Hy. set_solver.
        -- by apply (around (k_loc <$> A) (k_loc a) (k_loc <$> B)).
      * apply part_eq; [by apply (agrees_some x_child h); [apply agrees_alter|eexists]|done].
      * rewrite part_ne by done. by apply part_eq.
    + intros y Hy Hyx. rewrite !part_ne; [done|..]; set_solver.
    + intros y Hy. by rewrite !part_same.
Qed.

(** ** Inserting among the tags of a name *)
Definition types (t : tag) := (x_next t, x_sibling t).
(** The chains of the subtags [K] from tag to tag of a name. *)
Definition nexts (h : heap) (K : list kid) : Prop :=
  forall n, chain x_next h (head (k_loc <$> of_name n K)) (k_loc <$> of_name n K).

Lemma of_name_app n A B : of_name n (A ++ B) = of_name n A ++ of_name n B.
Proof. apply filter_app. Qed.
Lemma of_name_in n K k : k ∈ of_name n K <-> k_name k = n /\ k ∈ K.
Proof. unfold of_name. by rewrite list_elem_of_filter. Qed.
Lemma of_name_other n k A B : k_name k <> n -> of_name n (A ++ k :: B) = of_name n (A ++ B).
Proof. intros Hk. rewrite !of_name_app. unfold of_name at 2. by rewrite filter_cons_False. Qed.
Lemma of_name_same k A B : of_name (k_name k) (A ++ k :: B) = of_name (k_name k) A ++ k :: of_name (k_name k) B.
Proof. rewrite of_name_app. unfold of_name at 2. by rewrite filter_cons_True. Qed.

(** Tags of different names are different. *)
Lemma kid_unique K k k' : NoDup (k_loc <$> K) -> k ∈ K -> k' ∈ K -> k_loc k = k_loc k' -> k = k'.
Proof.
  intros Hnd Hk Hk' E. apply list_elem_of_lookup in Hk as [i Hi], Hk' as [j Hj].
  assert (i = j); [|congruence]. eapply (NoDup_lookup _ _ _ (k_loc k)); [done|..]; rewrite list_lookup_fmap, ?Hi, ?Hj; simpl; congruence.
Qed.

(** A chain of another name stays when tags of a name change. *)
Lemma nexts_other h h' K m : NoDup (k_loc <$> K) ->
  (forall k, k ∈ K -> k_name k = m -> x_next <$> h !! k_loc k = x_next <$> h' !! k_loc k) ->
  chain x_next h (head (k_loc <$> of_name m K)) (k_loc <$> of_name m K) ->
  chain x_next h' (head (k_loc <$> of_name m K)) (k_loc <$> of_name m K).
Proof.
  intros Hnd Hf. apply chain_frame. intros y (k & -> & Hk)%list_elem_of_fmap. apply of_name_in in Hk as [Hn Hk].
  by apply Hf.
Qed.

Definition all_upto (off : Z) (A B : list kid) : Prop :=
  Forall (fun a => k_off a <= off) A /\ Forall (fun b => off < k_off b) B.

Lemma of_name_sub (P : kid -> Prop) n K : Forall P K -> Forall P (of_name n K).
Proof. intros H. apply Forall_forall. intros k [_ Hk]%of_name_in. rewrite Forall_forall in H. by apply H. Qed.

Lemma of_name_nodup n K : NoDup (k_loc <$> K) -> NoDup (k_loc <$> of_name n K).
Proof. intros H. eapply sublist_NoDup; [exact H|]. apply fmap_sublist, sublist_filter. Qed.
Lemma of_name_locs n K y : y ∈ k_loc <$> of_name n K -> y ∈ k_loc <$> K.
Proof. intros (k & -> & [_ Hk]%of_name_in)%list_elem_of_fmap. by apply list_elem_of_fmap_2. Qed.

(** Behind another tag of its name. *)
Lemma insert_behind fuel h x c R d off n A B :
  tags h d (A ++ B) -> NoDup (k_loc <$> A ++ B) -> is_Some (h !! x) -> x ∉ k_loc <$> A ++ B -> nexts h (A ++ B) ->
  all_upto off A B -> of_name n A = c :: R -> (length A <= fuel)%nat ->
  exists h', link_behind fuel x (k_loc c) off h = Done tt h' /\ agrees no_type h h' /\ agrees x_sibling h h' /\
    nexts h' (A ++ mk_kid x n off :: B) /\
    (forall y, y ∉ k_loc <$> A ++ B -> y <> x -> x_next <$> h !! y = x_next <$> h' !! y).
Proof.
  intros Ht Hnd Hx Hxk Hn [HA HB] Ec Hf.
  destruct (exists_last (l := of_name n A)) as (A1 & a & EA); [by rewrite Ec|].
  assert (Ha : a ∈ of_name n A) by (rewrite EA; set_solver). apply of_name_in in Ha as [Han Ha].
  pose proof (Hn n) as Hc. rewrite of_name_app, EA in Hc.
  assert (Eh : head (k_loc <$> (A1 ++ [a]) ++ of_name n B) = Some (k_loc c)) by (by rewrite <- EA, Ec).
  assert (EL : k_loc <$> of_name n (A ++ B) = (k_loc <$> A1) ++ k_loc a :: (k_loc <$> of_name n B)).
  { by rewrite of_name_app, EA, <- app_assoc, fmap_app. }
  rewrite Eh in Hc. rewrite <- app_assoc, fmap_app in Hc. cbn [app fmap list_fmap] in Hc.
  unfold tags in Ht. apply Forall_app in Ht as [HtA HtB].
  unfold link_behind, cbind. rewrite (last_upto_spec x_next off h (k_loc <$> A1) (k_loc a) (k_loc <$> of_name n B)); [|done|..].
  2: { change [k_loc a] with (k_loc <$> [a]). rewrite <- fmap_app, <- EA. apply (tags_each h d).
       - by apply of_name_sub.
       - apply of_name_sub, (Forall_impl _ _ _ HA). intros k Hk t _ ->. done. }
  2: { apply (tags_each h d); [by apply of_name_sub|]. apply of_name_sub, (Forall_impl _ _ _ HB).
       intros k Hk t _ ->. done. }
  2: { rewrite length_fmap. assert (Hl : (length (of_name n A) <= length A)%nat) by apply length_filter.
       rewrite EA, length_app in Hl. simpl in Hl. lia. }
  destruct (chain_app _ _ _ _ _ _ Hc) as [Ea _]. apply fmap_Some in Ea as (ta & Hta & Ea).
  rewrite (done_rd _ ta), <- Ea by done.
  rewrite !done_wr by (try apply (agrees_some x_child h); try done; by (apply agrees_alter || eexists)).
  assert (Hak : k_loc a ∈ k_loc <$> A ++ B) by (apply list_elem_of_fmap_2; set_solver).
  assert (Hxa : x <> k_loc a) by (intros ->; done).
  eexists. split; [done|]. split; [by repeat apply agrees_alter|]. split; [by repeat apply agrees_alter|]. split.
  - intros m. destruct (decide (n = m)) as [<-|Hm].
    + rewrite (of_name_same (mk_kid x n off)). cbn [k_name]. rewrite EA, <- app_assoc. cbn [app].
      rewrite fmap_app. cbn [fmap list_fmap k_loc].
      replace (head ((k_loc <$> A1) ++ k_loc a :: x :: (k_loc <$> of_name n B))) with (Some (k_loc c)).
      2: { rewrite <- Eh, <- app_assoc, fmap_app. by destruct A1. }
      apply (chain_insert x_next h); [done|..].
      * intros y Hy. rewrite !part_ne; [done|..].
        -- intros ->. apply Hxk, (of_name_locs n). rewrite EL. apply elem_of_app in Hy. set_solver.
        -- apply (around (k_loc <$> A1) (k_loc a) (k_loc <$> of_name n B)); [|done]. rewrite <- EL. by apply of_name_nodup.
      * apply part_eq; [by apply (agrees_some x_child h); [apply agrees_alter|eexists]|done].
      * rewrite part_ne by done. by apply part_eq.
    + rewrite of_name_other by done. apply (nexts_other h); [done|..|apply Hn]. intros k Hk Hkm.
      rewrite !part_ne; [done|..].
      * intros E. apply Hxk. rewrite <- E. by apply list_elem_of_fmap_2.
      * intros E. apply Hm. apply (kid_unique (A ++ B)) in E; [congruence|done..|set_solver].
  - intros y Hy Hyx. rewrite !part_ne; [done|..]; congruence.
Qed.

Lemma link_first_spec fuel h x hd off d S1 R :
  tags h d (S1 ++ R) -> NoDup (k_loc <$> S1 ++ R) -> is_Some (h !! x) -> x ∉ k_loc <$> S1 ++ R ->
  chain x_sibling h (Some hd) (k_loc <$> S1 ++ R) -> all_upto off S1 R -> (length S1 < fuel)%nat ->
  exists h', link_first fuel x hd off h = Done tt h' /\ agrees no_type h h' /\ agrees x_next h h' /\
    chain x_sibling h' (match S1 with [] => Some x | _ => Some hd end) ((k_loc <$> S1) ++ x :: (k_loc <$> R)) /\
    (forall y, y ∉ k_loc <$> S1 ++ R -> y <> x -> x_sibling <$> h !! y = x_sibling <$> h' !! y).
Proof.
  intros Ht Hnd Hx Hxk Hc [H1 H2] Hf. rewrite fmap_app in *. unfold tags in Ht. apply Forall_app in Ht as [Ht1 Ht2].
  unfold link_first, cbind. rewrite (siblings_while_spec _ h (k_loc <$> S1) (k_loc <$> R)); [|done|..].
  2: { apply (tags_each h d); [done|]. apply (Forall_impl _ _ _ H1). intros k Hk t _ ->. by apply Z.leb_le. }
  2: { apply Forall_take, (tags_each h d); [done|]. apply (Forall_impl _ _ _ H2). intros k Hk t _ ->. by apply Z.leb_gt. }
  2: { by rewrite length_fmap. }
  rewrite done_wr by done. destruct S1 as [|s0 S0].
  - eexists. split; [done|]. split; [by apply agrees_alter|]. split; [by apply agrees_alter|]. cbn [fmap list_fmap app] in *.
    pose proof (chain_head _ _ _ _ Hc) as Eh. split.
    + apply (chain_push x_sibling h _ _ (Some hd)); [done|..].
      * intros y Hy. rewrite part_ne; [done|]. intros ->. done.
      * rewrite Eh. by apply part_eq.
    + intros y _ Hy. by rewrite part_ne.
  - destruct (exists_last (l := s0 :: S0)) as (S1 & s & ES); [done|]. rewrite ES in *. clear ES s0 S0.
    rewrite fmap_app in *. cbn [fmap list_fmap] in *. rewrite last_snoc. rewrite <- app_assoc in *. cbn [app] in *.
    rewrite done_wr by (apply (agrees_some x_child h); [by apply agrees_alter|]; eapply (chain_some _ _ _ _ _ Hc); set_solver).
    assert (Hxs : x <> k_loc s) by set_solver.
    eexists. split; [done|]. split; [by repeat apply agrees_alter|]. split; [by repeat apply agrees_alter|]. split.
    + replace (match S1 ++ [s] with [] => Some x | _ => Some hd end) with (Some hd) by (by destruct S1).
      apply (chain_insert x_sibling h); [done|..].
      * intros y Hy. rewrite !part_ne; [done|..]; [intros ->; set_solver|].
        by apply (around (k_loc <$> S1) (k_loc s) (k_loc <$> R)).
      * apply part_eq; [apply (agrees_some x_child h); [by apply agrees_alter|]; eapply (chain_some _ _ _ _ _ Hc); set_solver|done].
      * rewrite part_ne by done. by apply part_eq.
    + intros y Hy Hyx. rewrite !part_ne; [done|..]; set_solver.
Qed.

Lemma filter_all {X} (P : X -> Prop) `{!forall x, Decision (P x)} l : Forall P l -> filter P l = l.
Proof. induction 1 as [|x l Hx _ IH]; [done|]. rewrite filter_cons_True by done. by rewrite IH. Qed.

(** The firsts without those of the name of a new tag, and with the new tag. *)
Lemma firsts_without n A B : of_name n A = [] ->
  filter (fun k => k_name k <> n) (firsts (A ++ B)) = firsts A ++ firsts_from (n :: (k_name <$> A) ++ []) B.
Proof.
  intros E. unfold firsts. rewrite firsts_app, filter_app, <- (firsts_filter n _ B). f_equal.
  apply filter_all. apply Forall_forall. intros k [Hk _]%firsts_subset Hn.
  assert (Hx : k ∈ of_name n A) by (by apply of_name_in). rewrite E in Hx. by apply not_elem_of_nil in Hx.
Qed.

Lemma firsts_with k A B : of_name (k_name k) A = [] ->
  firsts (A ++ k :: B) = firsts A ++ k :: firsts_from (k_name k :: (k_name <$> A) ++ []) B.
Proof.
  intros E. unfold firsts. rewrite firsts_app. cbn [firsts_from]. rewrite decide_False; [done|].
  rewrite app_nil_r. intros (a & Ea & Ha)%list_elem_of_fmap.
  assert (Hx : a ∈ of_name (k_name k) A) by (by apply of_name_in). rewrite E in Hx. by apply not_elem_of_nil in Hx.
Qed.

Lemma firsts_seen k A B c R : of_name (k_name k) A = c :: R -> firsts (A ++ k :: B) = firsts (A ++ B).
Proof.
  intros E. unfold firsts. rewrite !firsts_app. cbn [firsts_from]. rewrite decide_True; [done|].
  assert (Hc : c ∈ of_name (k_name k) A) by (rewrite E; left). apply of_name_in in Hc as [Hn Hc].
  rewrite <- Hn, app_nil_r. by apply list_elem_of_fmap_2.
Qed.

Lemma firsts_tags h d K seen : tags h d K -> tags h d (firsts_from seen K).
Proof.
  intros H. apply Forall_forall. intros k [Hk _]%firsts_subset. unfold tags in H. rewrite Forall_forall in H. by apply H.
Qed.

Lemma firsts_sublist K : forall seen, firsts_from seen K `sublist_of` K.
Proof.
  induction K as [|k K IH]; intros seen; cbn [firsts_from]; [done|]. destruct (decide (k_name k ∈ seen)).
  - by apply sublist_cons.
  - by apply sublist_skip.
Qed.

Lemma firsts_forall (P : kid -> Prop) K seen : Forall P K -> Forall P (firsts_from seen K).
Proof. intros H. apply Forall_forall. intros k [Hk _]%firsts_subset. rewrite Forall_forall in H. by apply H. Qed.

(** The first of its name, when the one that was first is out of the way. *)
Lemma first_type fuel h x hd off n d A B :
  let k := mk_kid x n off in let R := firsts_from (n :: (k_name <$> A) ++ []) B in
  tags h d (A ++ B) -> NoDup (k_loc <$> A ++ B) -> is_Some (h !! x) -> x ∉ k_loc <$> A ++ B -> of_name n A = [] ->
  chain x_sibling h (Some hd) (k_loc <$> firsts A ++ R) -> nexts h (A ++ B) -> all_upto off A B -> (length A < fuel)%nat ->
  exists h', (wr x (set x_next (fun _ => head (k_loc <$> of_name n B))) ;;! link_first fuel x hd off) h = Done tt h' /\
    agrees no_type h h' /\ nexts h' (A ++ k :: B) /\
    chain x_sibling h' (match A with [] => Some x | _ => Some hd end) (k_loc <$> firsts (A ++ k :: B)) /\
    (forall y, y ∉ k_loc <$> A ++ B -> y <> x -> types <$> h !! y = types <$> h' !! y).
Proof.
  intros k R Ht Hnd Hx Hxk EA Hc Hn [HA HB] Hf.
  assert (Hsub : firsts A ++ R `sublist_of` A ++ B) by (apply sublist_app; apply firsts_sublist).
  assert (Hin : forall y, y ∈ k_loc <$> firsts A ++ R -> y ∈ k_loc <$> A ++ B).
  { intros y (a & -> & Ha)%list_elem_of_fmap. apply list_elem_of_fmap_2, elem_of_app.
    apply elem_of_app in Ha as [[Ha _]%firsts_subset|[Ha _]%firsts_subset]; tauto. }
  unfold cbind at 1. rewrite done_wr by done. set (h1 := alter _ x h).
  assert (Hag : agrees fixed h h1) by (by apply agrees_alter).
  destruct (link_first_spec fuel h1 x hd off d (firsts A) R) as (h' & -> & G1 & G2 & G3 & G4).
  - apply (tags_agrees h h1 _ _ Hag). unfold tags in *. apply Forall_app in Ht as [Ht1 Ht2]. apply Forall_app.
    split; by apply firsts_tags.
  - eapply sublist_NoDup; [exact Hnd|]. by apply fmap_sublist.
  - apply (agrees_some x_off h); [by apply agrees_alter|done].
  - intros Hy%Hin. done.
  - by apply (chain_agrees x_sibling h); [apply agrees_alter|].
  - split; by apply firsts_forall.
  - pose proof (sublist_length _ _ (firsts_sublist A [])). unfold firsts. lia.
  - exists h'. split; [done|]. assert (E1 : of_name n (A ++ k :: B) = k :: of_name n B).
    { rewrite (of_name_same k). cbn [k k_name]. by rewrite EA. }
    split; [|split; [|split]].
    + intros y. rewrite <- G1. unfold h1. by rewrite part_same.
    + intros m. destruct (decide (n = m)) as [<-|Hm].
      * rewrite E1. cbn [fmap list_fmap head k k_loc].
        apply (chain_push x_next h _ _ (head (k_loc <$> of_name n B))).
        -- specialize (Hn n). by rewrite of_name_app, EA in Hn.
        -- intros y Hy. rewrite <- G2. unfold h1. rewrite part_ne; [done|]. intros ->. apply Hxk.
           apply (of_name_locs n). by rewrite of_name_app, EA.
        -- rewrite <- G2. by apply part_eq.
      * rewrite of_name_other by done. apply (nexts_other h); [done|..|apply Hn]. intros a Ha Han.
        rewrite <- G2. unfold h1. rewrite part_ne; [done|]. intros <-. apply Hxk. by apply list_elem_of_fmap_2.
    + rewrite (firsts_with k) by done. rewrite fmap_app. cbn [fmap list_fmap k k_loc k_name].
      replace (match A with [] => Some x | _ => Some hd end) with (match firsts A with [] => Some x | _ => Some hd end); [done|].
      by destruct A.
    + intros y Hy Hyx. assert (Hs : x_sibling <$> h !! y = x_sibling <$> h' !! y).
      { rewrite <- G4; [|by intros Hz%Hin|done]. unfold h1. by rewrite part_same. }
      assert (Hnx : x_next <$> h !! y = x_next <$> h' !! y) by (rewrite <- G2; unfold h1; by rewrite part_ne).
      destruct (h !! y), (h' !! y); simpl in *; try done. unfold types. congruence.
Qed.

Lemma other_name_true n t : other_name n t = true <-> x_name t <> n.
Proof. unfold other_name. by rewrite negb_true_iff, bool_decide_eq_false. Qed.
Lemma other_name_false n t : other_name n t = false <-> x_name t = n.
Proof. unfold other_name. by rewrite negb_false_iff, bool_decide_eq_true. Qed.

(** Where the first tag of a name is found. *)
Lemma find_type_spec fuel h hd d n K : tags h d K -> chain x_sibling h (Some hd) (k_loc <$> firsts K) -> (length K < fuel)%nat ->
  match of_name n K with
  | [] => siblings_while (other_name n) fuel (Some hd) None h = Done (None, last (k_loc <$> firsts K)) h
  | c :: _ => exists S1 S2, firsts K = S1 ++ c :: S2 /\ filter (fun k => k_name k <> n) (firsts K) = S1 ++ S2 /\
      siblings_while (other_name n) fuel (Some hd) None h = Done (Some (k_loc c), last (k_loc <$> S1)) h
  end.
Proof.
  intros Ht Hc Hf. pose proof (firsts_find n K [] (not_elem_of_nil _)) as H. fold firsts in H.
  assert (Hl : (length (firsts K) <= length K)%nat) by apply sublist_length, firsts_sublist.
  pose proof (firsts_tags h d K [] Ht) as Htf. fold firsts in Htf.
  destruct (of_name n K) as [|c R] eqn:E.
  - rewrite (siblings_while_spec _ h (k_loc <$> firsts K) []); [by destruct (last _)|by rewrite app_nil_r|..].
    + apply (tags_each h d); [done|]. apply (Forall_impl _ _ _ H). intros k Hk t Hn _. by rewrite other_name_true, Hn.
    + constructor.
    + rewrite length_fmap. lia.
  - destruct H as (S1 & S2 & ES & H1 & H2). exists S1, S2. split; [done|].
    assert (Hcn : k_name c = n) by (assert (Hx : c ∈ of_name n K) by (rewrite E; left); by apply of_name_in in Hx as [? _]).
    rewrite ES in *. split.
    + rewrite filter_app, filter_cons_False by (intros X; by apply X). by rewrite !filter_all.
    + unfold tags in Htf. apply Forall_app in Htf as [Ht1 Ht2].
      rewrite fmap_app in Hc. rewrite (siblings_while_spec _ h (k_loc <$> S1) (k_loc <$> c :: S2)); [by destruct (last _)|done|..].
      * apply (tags_each h d); [done|]. apply (Forall_impl _ _ _ H1). intros k Hk t Hn _. by rewrite other_name_true, Hn.
      * cbn [fmap list_fmap take]. apply (tags_each h d [c]); [by apply Forall_cons in Ht2 as [? _]; constructor|].
        constructor; [|done]. intros t Hn _. by rewrite other_name_false, Hn.
      * rewrite length_fmap. rewrite length_app in Hl. lia.
Qed.

Lemma insert_type_spec fuel h x tx hd off n d A B :
  let k := mk_kid x n off in
  tags h d (A ++ B) -> NoDup (k_loc <$> A ++ B) -> h !! x = Some tx -> x_name tx = n -> x ∉ k_loc <$> A ++ B ->
  chain x_sibling h (Some hd) (k_loc <$> firsts (A ++ B)) -> nexts h (A ++ B) -> all_upto off A B ->
  (forall a R, A ++ B = a :: R -> k_off a <= off \/ k_name a <> n) -> (length (A ++ B) < fuel)%nat ->
  exists h', insert_type fuel x hd off h = Done tt h' /\ agrees no_type h h' /\ nexts h' (A ++ k :: B) /\
    chain x_sibling h' (match A with [] => Some x | _ => Some hd end) (k_loc <$> firsts (A ++ k :: B)) /\
    (forall y, y ∉ k_loc <$> A ++ B -> y <> x -> types <$> h !! y = types <$> h' !! y).
Proof.
  intros k Ht Hnd Hx En Hxk Hc Hn [HA HB] Hp Hf.
  pose proof (find_type_spec fuel h hd d n (A ++ B) Ht Hc Hf) as Hfind. rewrite of_name_app in Hfind.
  unfold insert_type. unfold cbind at 1. rewrite (done_rd _ tx), En by done. unfold cbind at 1.
  assert (Hlen : (length A < fuel)%nat) by (rewrite length_app in Hf; lia).
  destruct (of_name n A) as [|c R] eqn:EA; cbn [app] in Hfind.
  - destruct (of_name n B) as [|c R] eqn:EB.
    + assert (ER : firsts A ++ firsts_from (n :: (k_name <$> A) ++ []) B = firsts (A ++ B)).
      { rewrite <- firsts_without by done. apply filter_all. pose proof (firsts_find n (A ++ B) [] (not_elem_of_nil _)) as H.
        by rewrite of_name_app, EA, EB in H. }
      destruct (first_type fuel h x hd off n d A B) as (h' & E & G1 & G2 & G3 & G4);
        [done|done|by eexists|done|done|by rewrite ER|done|done|lia|]. rewrite EB in E.
      exists h'. split_and!; try done. rewrite Hfind. unfold insert_first. rewrite <- E.
      by destruct (last (k_loc <$> firsts (A ++ B))).
    + destruct Hfind as (S1 & S2 & ES & EF & Hw).
      assert (Hcb : c ∈ B /\ k_name c = n).
      { assert (Hx' : c ∈ of_name n B) by (rewrite EB; left). apply of_name_in in Hx' as [? ?]. done. }
      destruct Hcb as [Hcb Hcn].
      assert (HS1 : exists S0 s, S1 = S0 ++ [s]).
      { destruct S1 as [|s0 S0]; [|destruct (exists_last (l := s0 :: S0)) as (? & ? & ?); [done|by eauto]]. exfalso.
        destruct (A ++ B) as [|a L] eqn:EAB; [done|]. injection ES as Ea _. subst a. destruct (Hp c L) as [Ho|Ho]; [done|..|done].
        rewrite Forall_forall in HB. specialize (HB c Hcb). lia. }
      destruct HS1 as (S0 & s & ->). rewrite fmap_app in Hw. cbn [fmap list_fmap] in Hw. rewrite last_snoc in Hw.
      assert (Htc : exists t, h !! k_loc c = Some t /\ x_off t = k_off c).
      { unfold tags in Ht. rewrite Forall_forall in Ht. destruct (Ht c) as (t & E & Hfx); [set_solver|].
        exists t. by injection Hfx as Hfx1 Hfx2 Hfx3. }
      destruct Htc as (tc & Htc & Eo).
      rewrite firsts_without in EF by done. rewrite ES, <- app_assoc, fmap_app in Hc. cbn [app fmap list_fmap] in Hc.
      set (h1 := alter (set x_sibling (fun _ => x_sibling tc)) (k_loc s) h).
      assert (Hs : is_Some (h !! k_loc s)) by (apply (chain_some _ _ _ _ _ Hc); set_solver).
      assert (Hndf : NoDup (k_loc <$> firsts (A ++ B))) by (eapply sublist_NoDup; [exact Hnd|]; apply fmap_sublist, firsts_sublist).
      destruct (first_type fuel h1 x hd off n d A B) as (h' & E & G1 & G2 & G3 & G4); try done.
      * apply (tags_agrees h); [by apply agrees_alter|done].
      * apply (agrees_some x_off h); [by apply agrees_alter|by eexists].
      * rewrite EF, <- app_assoc, fmap_app. cbn [app fmap list_fmap].
        apply (chain_remove x_sibling h h1 _ (k_loc <$> S0) (k_loc s) (k_loc c)); [done|..].
        -- intros y Hy. unfold h1. rewrite part_ne; [done|]. rewrite ES in Hndf.
           apply (around (k_loc <$> S0) (k_loc s) (k_loc c :: (k_loc <$> S2))); [by rewrite <- app_assoc, fmap_app in Hndf|].
           apply elem_of_app in Hy. set_solver.
        -- unfold h1. apply part_eq; [done|]. intros t. simpl.
           destruct (chain_app x_sibling h (Some hd) ((k_loc <$> S0) ++ [k_loc s]) (k_loc c) (k_loc <$> S2)) as [E _];
             [by rewrite <- app_assoc|]. rewrite Htc in E. by injection E.
      * intros m. apply (chain_agrees x_next h); [by apply agrees_alter|apply Hn].
      * exists h'. rewrite EB in E. split_and!; try done.
        -- rewrite Hw. cbn [rd_opt]. unfold cbind at 1 2. rewrite (done_rd _ tc) by done. cbn [ret].
           rewrite Eo, (proj2 (Z.leb_gt _ _)) by (rewrite Forall_forall in HB; by apply HB).
           unfold insert_first. cbn [rd_opt]. unfold cbind at 1 2. rewrite (done_rd _ tc) by done. cbn [ret].
           unfold cbind at 1. rewrite done_wr by done. exact E.
        -- intros y. rewrite <- G1. unfold h1. by rewrite part_same.
        -- intros y Hy Hyx. rewrite <- G4 by done. unfold h1. rewrite part_ne; [done|]. intros ->. apply Hy.
           apply list_elem_of_fmap_2. apply (firsts_subset [] (A ++ B) s). fold firsts. rewrite ES. set_solver.
  - destruct Hfind as (S1 & S2 & ES & _ & ->). cbn [rd_opt].
    assert (Hca : c ∈ A /\ k_name c = n).
    { assert (Hx' : c ∈ of_name n A) by (rewrite EA; left). apply of_name_in in Hx' as [? ?]. done. }
    destruct Hca as [Hca Hcn].
    assert (Htc : exists t, h !! k_loc c = Some t /\ x_off t = k_off c).
    { unfold tags in Ht. rewrite Forall_forall in Ht. destruct (Ht c) as (t & E & Hfx); [set_solver|].
      exists t. by injection Hfx as Hfx1 Hfx2 Hfx3. }
    destruct Htc as (tc & Htc & Eo). unfold cbind at 1 2. rewrite (done_rd _ tc) by done. cbn [ret].
    rewrite Eo, (proj2 (Z.leb_le _ _)) by (rewrite Forall_forall in HA; by apply HA).
    destruct (insert_behind fuel h x c R d off n A B) as (h' & -> & G1 & G2 & G3 & G4);
      [done|done|by eexists|done|done|done|done|lia|].
    exists h'. split_and!; try done.
    + rewrite (firsts_seen k A B c R) by done. destruct A; [done|]. by apply (chain_agrees x_sibling h).
    + intros y Hy Hyx. specialize (G2 y). specialize (G4 y Hy Hyx). destruct (h !! y), (h' !! y); simpl in *; try done.
      unfold types. congruence.
Qed.

(** ** The forest *)

(** What a parent needs of its subtags. *)
Definition links (t : tag) := (fixed t, x_ordered t, types t).

Lemma same_part {T U} (part : tag -> T) (g : T -> U) (h h' : heap) y :
  part <$> h !! y = part <$> h' !! y -> (fun t => g (part t)) <$> h !! y = (fun t => g (part t)) <$> h' !! y.
Proof. intros E. destruct (h !! y), (h' !! y); simpl in *; congruence. Qed.

(** No list of subtags is longer than the heap. *)
Lemma children_size h d K : children h d K -> (length K <= size h)%nat.
Proof.
  intros Hc. rewrite <- (length_fmap k_loc K). rewrite <- size_dom.
  rewrite <- (size_list_to_set (C := gset positive) (k_loc <$> K)) by apply Hc.
  apply subseteq_size. intros y Hy%elem_of_list_to_set. apply elem_of_dom.
  destruct (ch_dest _ _ _ Hc) as (t & _ & Ho & _). by apply (chain_some x_ordered _ _ _ _ Ho).
Qed.

Lemma children_keep h h' d K : children h d K -> (forall y, y ∈ k_loc <$> K -> links <$> h !! y = links <$> h' !! y) ->
  x_child <$> h !! d = x_child <$> h' !! d -> children h' d K.
Proof.
  intros [H1 H2 H3 H4 (t & Ht & H5 & H6) H7] Hl Hd.
  assert (Hin : forall k, k ∈ K -> links <$> h !! k_loc k = links <$> h' !! k_loc k) by (intros k Hk; by apply Hl, list_elem_of_fmap_2).
  assert (Ho : forall y, y ∈ k_loc <$> K -> x_ordered <$> h !! y = x_ordered <$> h' !! y).
  { intros y Hy. apply (same_part links (fun l => snd (fst l)) h h' y (Hl y Hy)). }
  assert (Hn : forall y, y ∈ k_loc <$> K -> x_next <$> h !! y = x_next <$> h' !! y).
  { intros y Hy. apply (same_part links (fun l => fst (snd l)) h h' y (Hl y Hy)). }
  assert (Hs : forall y, y ∈ k_loc <$> K -> x_sibling <$> h !! y = x_sibling <$> h' !! y).
  { intros y Hy. apply (same_part links (fun l => snd (snd l)) h h' y (Hl y Hy)). }
  constructor; try done.
  - apply Forall_forall. intros k Hk. unfold tags in H1. rewrite Forall_forall in H1. destruct (H1 k Hk) as (u & Hu & Hfx).
    specialize (Hin k Hk). rewrite Hu in Hin. destruct (h' !! k_loc k) as [u'|]; [|done]. exists u'. split; [done|].
    injection Hin as Hin1 Hin2. unfold fixed in *. congruence.
  - rewrite Ht in Hd. destruct (h' !! d) as [t'|]; [|done]. exists t'. split; [done|]. injection Hd as Hd. rewrite <- Hd.
    split; [by apply (chain_frame x_ordered h)|]. apply (chain_frame x_sibling h); [|done].
    intros y (k & -> & [Hk _]%firsts_subset)%list_elem_of_fmap. by apply Hs, list_elem_of_fmap_2.
  - intros n. apply (chain_frame x_next h); [|done]. intros y Hy%of_name_locs. by apply Hn.
Qed.

(** Subtags of different parents are different. *)
Lemma kids_apart h kids d d' y : forest h kids -> is_Some (h !! d) -> is_Some (h !! d') -> d <> d' ->
  y ∈ k_loc <$> kids d -> y ∉ k_loc <$> kids d'.
Proof.
  intros Hfo Hd Hd' Hne (k & -> & Hk)%list_elem_of_fmap (k' & E & Hk')%list_elem_of_fmap.
  pose proof (ch_tags _ _ _ (Hfo d Hd)) as H1. pose proof (ch_tags _ _ _ (Hfo d' Hd')) as H2.
  unfold tags in *. rewrite Forall_forall in H1, H2. destruct (H1 k Hk) as (t & Ht & F1).
  destruct (H2 k' Hk') as (t' & Ht' & F2). rewrite <- E, Ht in Ht'. injection Ht' as <-. unfold fixed in *. congruence.
Qed.

(** The place of a new tag: before the first tag only one of another name. *)
Definition good_place (n : list Z) (off : Z) (K : list kid) : Prop :=
  forall a R, K = a :: R -> k_off a <= off \/ k_name a <> n.
#[export] Instance good_place_dec n off K : Decision (good_place n off K).
Proof.
  destruct K as [|a K]; [by left|]. destruct (decide (k_off a <= off \/ k_name a <> n)) as [H|H].
  - left. intros b R E. by injection E as -> ->.
  - right. intros G. apply H. by apply (G a K).
Defined.

(** A tag that is nobody's subtag. *)
Definition detached (h : heap) (kids : loc -> list kid) (x : loc) : Prop := forall d, is_Some (h !! d) -> x ∉ k_loc <$> kids d.

Lemma combine_links (h h' : heap) y : fixed <$> h !! y = fixed <$> h' !! y -> x_ordered <$> h !! y = x_ordered <$> h' !! y ->
  types <$> h !! y = types <$> h' !! y -> links <$> h !! y = links <$> h' !! y.
Proof. destruct (h !! y), (h' !! y); simpl; try done. unfold links. congruence. Qed.

Lemma insert_links fuel h x tx dest off hd n K :
  let k := mk_kid x n off in
  tags h dest K -> NoDup (k_loc <$> K) -> StronglySorted (fun a b => k_off a <= k_off b) K ->
  h !! x = Some tx -> x_name tx = n -> x ∉ k_loc <$> K -> x <> dest ->
  x_child <$> h !! dest = Some (Some hd) -> chain x_ordered h (Some hd) (k_loc <$> K) ->
  chain x_sibling h (Some hd) (k_loc <$> firsts K) -> nexts h K -> good_place n off K -> (length K < fuel)%nat ->
  exists h' c, (insert_ordered fuel x dest hd off ;;! insert_type fuel x hd off) h = Done tt h' /\ agrees fixed h h' /\ agrees content h h' /\
    x_child <$> h' !! dest = Some c /\ chain x_ordered h' c (k_loc <$> insert_kid k K) /\
    chain x_sibling h' c (k_loc <$> firsts (insert_kid k K)) /\ nexts h' (insert_kid k K) /\
    (forall y, y <> x -> y ∉ k_loc <$> K -> links <$> h !! y = links <$> h' !! y) /\
    (forall y, y <> dest -> x_child <$> h !! y = x_child <$> h' !! y).
Proof.
  intros k Ht Hnd Hs Hx En HxK Hxd Hcd Ho Hsb Hn Hp Hf.
  assert (Hd : is_Some (h !! dest)) by (destruct (h !! dest); [by eexists|done]).
  destruct (insert_ordered_spec fuel h x dest hd n off K) as (h1 & c & E1 & G1 & G2 & G3 & G4 & G5);
    [done|done|done|by eexists|done|done|done|done|lia|].
  assert (Hfx : agrees fixed h h1) by (apply (agrees_part no_ordered (fun '(a, _, _, o, _, _, p) => (a, o, p))), G1).
  assert (Hty : agrees types h h1) by (apply (agrees_part no_ordered (fun '(_, _, _, _, a, b, _) => (a, b))), G1).
  destruct (insert_kid_split k K Hs) as (A & B & EK & EI & HA & HB). cbn [k k_off] in HA, HB. fold k in G3. rewrite EI in *.
  destruct (agrees_lookup fixed h h1 x tx Hfx Hx) as (tx1 & Hx1 & En1).
  destruct (insert_type_spec fuel h1 x tx1 hd off n dest A B) as (h2 & E2 & J1 & J2 & J3 & J4); rewrite <- ?EK; try done.
  - by apply (tags_agrees h).
  - unfold fixed in En1. congruence.
  - apply (chain_agrees x_sibling h); [|done]. apply (agrees_part types snd), Hty.
  - intros m. apply (chain_agrees x_next h); [|apply Hn]. apply (agrees_part types fst), Hty.
  - assert (Ec : c = match A with [] => Some x | _ => Some hd end).
    { apply chain_head in G3. apply chain_head in Ho. rewrite EK in Ho. destruct A; simpl in *; congruence. }
    exists h2, c. split; [|split; [|split; [|split; [|split; [|split; [|split; [|split]]]]]]].
    + unfold cbind. by rewrite E1.
    + intros y. rewrite Hfx. apply (agrees_part no_type (fun '(a, _, _, o, _, _, p) => (a, o, p))), J1.
    + intros y. etransitivity; [apply (agrees_part no_ordered (fun '(a, b, c, _, _, _, _) => (a, b, c))), G1|].
      apply (agrees_part no_type (fun '(a, b, c, _, _, _, _) => (a, b, c))), J1.
    + rewrite <- G2. symmetry. apply (agrees_part no_type (fun '(_, _, _, _, _, c, _) => c)), J1.
    + apply (chain_agrees x_ordered h1); [|done]. apply (agrees_part no_type (fun '(_, _, _, _, o, _, _) => o)), J1.
    + by rewrite Ec.
    + done.
    + intros y Hy HyK. apply combine_links.
      * rewrite Hfx. apply (agrees_part no_type (fun '(a, _, _, o, _, _, p) => (a, o, p))), J1.
      * rewrite G4 by done. apply (agrees_part no_type (fun '(_, _, _, _, o, _, _) => o)), J1.
      * rewrite Hty. apply J4; [by rewrite <- EK|done].
    + intros y Hy. rewrite G5 by done. apply (agrees_part no_type (fun '(_, _, _, _, _, c, _) => c)), J1.
Qed.

Lemma insert_kid_in k K a : a ∈ insert_kid k K <-> a = k \/ a ∈ K.
Proof.
  induction K as [|b K IH]; cbn [insert_kid]; [set_solver|]. destruct (k_off b <=? k_off k); [|set_solver].
  rewrite !elem_of_cons, IH. tauto.
Qed.

Lemma insert_kid_nodup k K : NoDup (k_loc <$> K) -> k_loc k ∉ k_loc <$> K -> NoDup (k_loc <$> insert_kid k K).
Proof.
  induction K as [|b K IH]; intros Hnd Hk; cbn [insert_kid]; [apply NoDup_singleton|].
  destruct (k_off b <=? k_off k); cbn [fmap list_fmap] in *.
  - apply NoDup_cons in Hnd as [Hb Hnd]. apply not_elem_of_cons in Hk as [Hkb Hk]. apply NoDup_cons.
    split; [|by apply IH]. intros (a & E & [->|Ha]%insert_kid_in)%list_elem_of_fmap; [done|].
    apply Hb. rewrite E. by apply list_elem_of_fmap_2.
  - by apply NoDup_cons.
Qed.

(** What the insertion does, in terms of the subtags of [dest]. *)
Lemma insert_children fuel h x tx dest off kids :
  let k := mk_kid x (x_name tx) off in
  forest h kids -> h !! x = Some tx -> detached h kids x -> is_Some (h !! dest) -> x <> dest ->
  good_place (x_name tx) off (kids dest) -> (length (kids dest) < fuel)%nat ->
  exists h', switch_xml_insert fuel x dest off h = Done x h' /\ children h' dest (insert_kid k (kids dest)) /\ agrees content h h' /\
    (forall y, y <> x -> x_parent <$> h !! y = x_parent <$> h' !! y) /\
    (forall y, y <> x -> y ∉ k_loc <$> kids dest -> links <$> h !! y = links <$> h' !! y) /\
    (forall y, y <> dest -> x_child <$> h !! y = x_child <$> h' !! y).
Proof.
  intros k Hfo Hx Hdet Hd Hxd Hp Hf. destruct (Hfo dest Hd) as [H1 H2 H3 H4 (td & Htd & H5 & H6) H7].
  set (K := kids dest) in *. assert (HxK : x ∉ k_loc <$> K) by (by apply Hdet).
  unfold switch_xml_insert. unfold cbind at 1. rewrite done_wr by (by eexists).
  match goal with |- context [alter ?f x h] => set (reset := f) end. set (h0 := alter reset x h).
  assert (E0 : forall y, y <> x -> h0 !! y = h !! y) by (intros y Hy; by apply lookup_alter_ne).
  assert (Hx0 : h0 !! x = Some (reset tx)) by (unfold h0; by rewrite lookup_alter_eq, Hx).
  assert (Hcf : forall link p l, (forall y, y ∈ l -> y ∈ k_loc <$> K) -> chain link h p l -> chain link h0 p l).
  { intros link p l Hl. apply chain_frame. intros y Hy. rewrite E0; [done|]. intros ->. by apply HxK, Hl. }
  assert (H1' : tags h0 dest K).
  { apply Forall_forall. intros a Ha. unfold tags in H1. rewrite Forall_forall in H1. rewrite E0; [by apply H1|].
    intros E. apply HxK. rewrite <- E. by apply list_elem_of_fmap_2. }
  assert (H6' : chain x_sibling h0 (x_child td) (k_loc <$> firsts K)).
  { apply Hcf; [|done]. intros y (a & -> & [Ha _]%firsts_subset)%list_elem_of_fmap. by apply list_elem_of_fmap_2. }
  assert (H7' : nexts h0 K) by (intros n; apply Hcf; [|apply H7]; intros y; apply of_name_locs).
  assert (HL : exists h' c, (match x_child td with
      | Some head => insert_ordered fuel x dest head off ;;! insert_type fuel x head off
      | None => wr dest (set x_child (fun _ => Some x)) end) h0 = Done tt h' /\ agrees fixed h0 h' /\ agrees content h0 h' /\
    x_child <$> h' !! dest = Some c /\ chain x_ordered h' c (k_loc <$> insert_kid k K) /\
    chain x_sibling h' c (k_loc <$> firsts (insert_kid k K)) /\ nexts h' (insert_kid k K) /\
    (forall y, y <> x -> y ∉ k_loc <$> K -> links <$> h0 !! y = links <$> h' !! y) /\
    (forall y, y <> dest -> x_child <$> h0 !! y = x_child <$> h' !! y)).
  { destruct (x_child td) as [hd|] eqn:Eh.
    - apply (insert_links fuel h0 x (reset tx) dest off hd (x_name tx) K); try done; [by rewrite E0, Htd, <- Eh|].
      by apply Hcf.
    - apply chain_head in H5. destruct K as [|a K']; [|done]. rewrite done_wr by (by rewrite E0).
      assert (Hxx : forall (link : tag -> option loc), (forall t, link (reset t) = None) -> (forall t, link (set x_child (fun _ => Some x) t) = link t) ->
        chain link (alter (set x_child (fun _ => Some x)) dest h0) (Some x) [x]).
      { intros link E1 E2. split; [done|]. exists None. split; [|done]. rewrite part_same by done. rewrite Hx0. simpl. by rewrite E1. }
      eexists _, (Some x). split; [done|]. do 2 (split; [by apply agrees_alter|]). split; [by apply part_eq; [rewrite E0|]|].
      split; [by apply Hxx|]. split; [by apply Hxx|]. split; [|split].
      + intros n. unfold of_name. cbn [insert_kid]. destruct (decide (k_name k = n)).
        * rewrite filter_cons_True by done. by apply Hxx.
        * by rewrite filter_cons_False.
      + intros y _ _. by rewrite part_same.
      + intros y Hy. by rewrite part_ne. }
  destruct HL as (h' & c & E & G1 & GC & G2 & G3 & G4 & G5 & G6 & G7).
  unfold cbind at 1. rewrite (done_rd _ td) by (by rewrite E0). unfold cbind at 1. rewrite E. cbn [ret].
  exists h'. split; [done|]. split; [|split; [|split; [|split]]].
  - constructor.
    + apply (tags_agrees h0); [done|]. apply Forall_forall. intros a [->|Ha]%insert_kid_in; [by exists (reset tx)|].
      unfold tags in H1'. rewrite Forall_forall in H1'. by apply H1'.
    + by apply insert_kid_nodup.
    + intros (a & E' & [->|Ha]%insert_kid_in)%list_elem_of_fmap; [by apply Hxd|].
      apply H3. rewrite E'. by apply list_elem_of_fmap_2.
    + by apply insert_kid_sorted.
    + destruct (h' !! dest) as [t|]; [|done]. injection G2 as <-. by exists t.
    + apply G5.
  - intros y. rewrite <- GC. unfold h0. by rewrite part_same.
  - intros y Hy. etransitivity; [|apply (agrees_part fixed (fun '(_, _, a) => a)), G1]. by rewrite E0.
  - intros y Hy HyK. rewrite <- G6 by done. by rewrite E0.
  - intros y Hy. rewrite <- G7 by done. unfold h0. by rewrite part_same.
Qed.

(** The tags of the heap stay, so that a forest stays but for one parent. *)
Lemma forest_update h h' kids d K : forest h kids -> is_Some (h !! d) -> children h' d K ->
  (forall p, is_Some (h' !! p) -> is_Some (h !! p)) ->
  (forall p y, p <> d -> is_Some (h !! p) -> y ∈ k_loc <$> kids p -> links <$> h !! y = links <$> h' !! y) ->
  (forall p, p <> d -> x_child <$> h !! p = x_child <$> h' !! p) -> forest h' (<[d := K]> kids).
Proof.
  intros Hfo Hd Hc Hdom Hl Hch p Hp. destruct (decide (p = d)) as [->|Hn].
  - by rewrite fn_lookup_insert.
  - rewrite fn_lookup_insert_ne by done. apply (children_keep h); [by apply Hfo, Hdom|..|by apply Hch].
    intros y Hy. apply (Hl p); auto.
Qed.

(** A tag that is nobody's subtag is put into the subtags of another behind all
    that are at the same position or before it. *)
Lemma insert_refines fuel h kids x tx dest off :
  forest h kids -> h !! x = Some tx -> detached h kids x -> is_Some (h !! dest) -> x <> dest ->
  good_place (x_name tx) off (kids dest) -> (length (kids dest) < fuel)%nat ->
  exists h', switch_xml_insert fuel x dest off h = Done x h' /\ agrees content h h' /\
    (forall y, y <> x -> x_parent <$> h !! y = x_parent <$> h' !! y) /\
    forest h' (<[dest := insert_kid (mk_kid x (x_name tx) off) (kids dest)]> kids).
Proof.
  intros Hfo Hx Hdet Hd Hxd Hp Hf.
  destruct (insert_children fuel h x tx dest off kids) as (h' & E & G1 & GN & GP & G2 & G3); try done.
  exists h'. split; [done|]. split; [done|]. split; [done|]. apply (forest_update h); try done.
  - intros p Hp'. destruct (decide (p = dest)) as [->|Hn]; [done|]. specialize (G3 p Hn).
    destruct (h !! p); [by eexists|]. destruct Hp' as [t E']. by rewrite E' in G3.
  - intros p y Hn Hp' Hy. apply G2; [intros ->; by apply (Hdet p)|]. by apply (kids_apart h kids p).
Qed.

(** ** Finding *)
Lemma child_loop_spec fuel h p n : child_loop n fuel p h = match siblings_while (other_name n) fuel p None h with
  | Done (cur, _) h => Done cur h | Fault => Fault | Spin => Spin end.
Proof.
  generalize (@None positive) as prev. revert p. induction fuel as [|fuel IH]; intros [p|] prev; try done.
  cbn [child_loop siblings_while]. unfold cbind. destruct (rd p h) as [t h1| |] eqn:E; try done.
  unfold rd in E. destruct (h !! p); [|done]. injection E as _ <-. destruct (other_name n t); [apply IH|done].
Qed.

Lemma child_children fuel h d K n : children h d K -> (length K < fuel)%nat ->
  switch_xml_child fuel (Some d) n h = Done (head (k_loc <$> of_name n K)) h.
Proof.
  intros [H1 H2 H3 H4 (td & Htd & H5 & H6) H7] Hf.
  unfold switch_xml_child, cbind, rd_opt, cbind. rewrite (done_rd _ td) by done. cbn [ret mbind option_bind].
  rewrite child_loop_spec. destruct (x_child td) as [hd|] eqn:Eh.
  - pose proof (find_type_spec fuel h hd d n K H1 H6 Hf) as H.
    destruct (of_name n K) as [|c R]; [by rewrite H|]. by destruct H as (S1 & S2 & _ & _ & ->).
  - apply chain_head in H5. destruct K; [|done]. destruct fuel; [simpl in Hf; lia|done].
Qed.
Lemma child_spec fuel h kids d n : forest h kids -> is_Some (h !! d) -> (length (kids d) < fuel)%nat ->
  switch_xml_child fuel (Some d) n h = Done (head (k_loc <$> of_name n (kids d))) h.
Proof. intros Hfo Hd Hf. by apply child_children; [apply Hfo|]. Qed.

(** Along the tags of a name. *)
Lemma idx_chain h : forall l p fuel (i : nat), chain x_next h p l -> (length l < fuel)%nat ->
  switch_xml_idx fuel p (Z.of_nat i) h = Done (l !! i) h.
Proof.
  induction l as [|x l IH]; intros p [|fuel] i Hc Hf; try (simpl in Hf; lia); cbn [switch_xml_idx].
  - simpl in Hc. by subst.
  - destruct Hc as [-> (v & (t & Ht & ->)%fmap_Some & Hc)]. destruct i as [|i]; [done|].
    rewrite (proj2 (Z.eqb_neq _ 0)) by lia. unfold cbind. rewrite (done_rd _ t) by done.
    replace (Z.of_nat (S i) - 1) with (Z.of_nat i) by lia. apply IH; [done|]. simpl in Hf. lia.
Qed.

Lemma idx_spec fuel h kids d n (i : nat) : forest h kids -> is_Some (h !! d) -> (length (kids d) < fuel)%nat ->
  switch_xml_idx fuel (head (k_loc <$> of_name n (kids d))) (Z.of_nat i) h = Done ((k_loc <$> of_name n (kids d)) !! i) h.
Proof.
  intros Hfo Hd Hf. apply idx_chain; [apply (Hfo d Hd)|]. rewrite length_fmap.
  pose proof (length_filter (fun k => k_name k = n) (kids d)). unfold of_name. lia.
Qed.

(** The tag at a path of names and positions among the subtags of a name. *)
Fixpoint get_spec (kids : loc -> list kid) (d : option loc) (args : list (list Z * Z)) : option loc :=
  match args with
  | [] | ([], _) :: _ => d
  | (name, idx) :: args =>
    let same := d ≫= fun d => Some (k_loc <$> of_name name (kids d)) in
    if idx <? 0 then same ≫= head else get_spec kids (same ≫= fun l => l !! Z.to_nat idx) args
  end.

Lemma kid_some h kids d n i x : forest h kids -> is_Some (h !! d) -> (k_loc <$> of_name n (kids d)) !! i = Some x ->
  is_Some (h !! x).
Proof. intros Hfo Hd Hx. apply (chain_some _ _ _ _ _ (ch_next _ _ _ (Hfo d Hd) n)). by apply list_elem_of_lookup_2 in Hx. Qed.

(** [switch_xml_get] follows a path of names and indices: each name with an
    index leads to the subtag of that name at that position in the document, a
    name with a negative index to the first one of the name, and a path that
    leads nowhere to a null pointer. *)
Lemma get_follows_path fuel h kids d args : forest h kids -> (forall p, length (kids p) < fuel)%nat ->
  (forall p, d = Some p -> is_Some (h !! p)) ->
  switch_xml_get fuel d args h = Done (get_spec kids d args) h.
Proof.
  intros Hfo Hf. revert d. induction args as [|[[|c name] idx] args IH]; intros d Hd; [done..|].
  cbn [switch_xml_get get_spec]. set (nm := c :: name). unfold cbind at 1.
  assert (E1 : switch_xml_child fuel d nm h = Done (d ≫= fun d => head (k_loc <$> of_name nm (kids d))) h).
  { destruct d as [p|]; [by apply child_spec; [done|apply Hd|]|]. destruct fuel; [specialize (Hf 1%positive); lia|done]. }
  rewrite E1. destruct (Z.ltb_spec idx 0); [by destruct d|]. unfold cbind at 1.
  assert (E2 : switch_xml_idx fuel (d ≫= fun d => head (k_loc <$> of_name nm (kids d))) idx h =
    Done ((d ≫= fun d => Some (k_loc <$> of_name nm (kids d))) ≫= fun l => l !! Z.to_nat idx) h).
  { rewrite <- (Z2Nat.id idx) at 1 by done. destruct d as [p|]; [by apply idx_spec; [done|apply Hd|]|].
    destruct fuel; [specialize (Hf 1%positive); lia|done]. }
  rewrite E2. apply IH. intros p Hp. destruct d as [q|]; [|done]. cbn [mbind option_bind] in Hp.
  by apply (kid_some h kids q nm (Z.to_nat idx)); [done|apply Hd|].
Qed.
