(* ===== verification/XmlCut.v ===== *)
(** * XmlCut: taking tags out of an XML document, src/switch_xml.c

    [switch_xml_cut] and [switch_xml_move] on the subtags as lists, what they do
    when the conditions of the theorems fail, and documents built step by step. *)
From S2P Require Import Prelude XmlTree.
From Stdlib Require Import ZArith Lia.
From stdpp Require Import base numbers option list sorting functions gmap.

Local Open Scope Z_scope.
Local Open Scope xml_scope.

(** ** The walks *)
Lemma tag_before_spec link x h : forall A a B p fuel, chain link h (Some p) (A ++ a :: x :: B) -> x ∉ A -> x <> a ->
  (length A < fuel)%nat -> tag_before link x fuel p h = Done a h.
Proof.
  induction A as [|y A IH]; intros a B p [|fuel] Hc HA Ha Hf; try (simpl in Hf; lia); cbn [tag_before]; unfold cbind, rd;
    cbn [app chain] in Hc; destruct Hc as [E (v & (t & Ht & ->)%fmap_Some & Hc)]; injection E as ->; rewrite Ht.
  - destruct Hc as [-> _]. by rewrite decide_True.
  - pose proof (chain_head _ _ _ _ Hc) as E. rewrite E in Hc |- *. apply not_elem_of_cons in HA as [_ HA].
    destruct A as [|z A]; cbn [app head] in *.
    + rewrite decide_False by done. apply (IH a B); [done|done|done|simpl in *; lia].
    + rewrite decide_False by set_solver. apply (IH a B); [done|done|done|simpl in *; lia].
Qed.

Lemma before_name_spec n h : forall A a c B p fuel, chain x_sibling h (Some p) (A ++ a :: c :: B) ->
  each h (fun t => x_name t <> n) (A ++ [a]) -> each h (fun t => x_name t = n) [c] -> (length A < fuel)%nat ->
  before_name n fuel p h = Done a h.
Proof.
  induction A as [|y A IH]; intros a c B p [|fuel] Hc HA Hn Hf; try (simpl in Hf; lia); cbn [before_name]; unfold cbind, rd;
    cbn [app chain] in Hc; destruct Hc as [E (v & (t & Ht & ->)%fmap_Some & Hc)]; injection E as ->; rewrite Ht.
  - destruct Hc as [-> (v & (u & Hu & _)%fmap_Some & _)]. rewrite Hu. apply Forall_cons in Hn as [Hn _].
    by rewrite (proj2 (other_name_false n u)) by (by apply Hn).
  - apply Forall_cons in HA as [_ HA]. pose proof (chain_head _ _ _ _ Hc) as E. rewrite E in Hc |- *.
    destruct A as [|z A]; cbn [app head] in *; destruct (proj2 Hc) as (v & (u & Hu & _)%fmap_Some & _); rewrite Hu;
      apply Forall_cons in HA as [Hz HA0]; rewrite (proj2 (other_name_true n u)) by (by apply Hz);
      (apply (IH a c B); [done|by constructor|done|simpl in *; lia]).
Qed.

Lemma next_before_spec x h : forall A a B p fuel, chain x_next h (Some p) (A ++ a :: B) -> x ∉ A -> x <> a ->
  (B = [] \/ head B = Some x) -> (length A < fuel)%nat -> next_before x fuel p h = Done a h.
Proof.
  induction A as [|y A IH]; intros a B p [|fuel] Hc HA Ha HB Hf; try (simpl in Hf; lia); cbn [next_before]; unfold cbind, rd;
    cbn [app chain] in Hc; destruct Hc as [E (v & (t & Ht & ->)%fmap_Some & Hc)]; injection E as ->; rewrite Ht.
  - pose proof (chain_head _ _ _ _ Hc) as E. rewrite E. destruct HB as [-> | ->]; [done|]. by rewrite decide_True.
  - pose proof (chain_head _ _ _ _ Hc) as E. rewrite E in Hc |- *. apply not_elem_of_cons in HA as [_ HA].
    destruct A as [|z A]; cbn [app head] in *.
    + rewrite decide_False by done. apply (IH a B); [done|done|done|done|simpl in *; lia].
    + rewrite decide_False by set_solver. apply (IH a B); [done|done|done|done|simpl in *; lia].
Qed.

(** ** When the lists stay in order *)

(** The tag that follows one of the name [n] in the list of the first tags stands
    behind no other first tag. *)
Fixpoint follows (seen : list (list Z)) (n : list Z) (B : list kid) : bool :=
  match B with
  | [] => true
  | b :: B => if decide (k_name b = n) then true
              else if decide (k_name b ∈ seen) then follows seen n B
              else bool_decide (of_name n B = [])
  end.
(** The first subtag of a name may be taken out when it is the only one, or when
    no other name comes up for the first time before the next one. *)
Fixpoint cut_ok (seen : list (list Z)) (x : loc) (K : list kid) : bool :=
  match K with
  | [] => true
  | k :: K => if decide (k_loc k = x) then bool_decide (k_name k ∈ seen) || follows seen (k_name k) K
              else cut_ok (k_name k :: seen) x K
  end.

Lemma follows_spec seen n B : follows seen n B = true -> of_name n B = [] \/
  exists M y B', B = M ++ y :: B' /\ k_name y = n /\ Forall (fun m => k_name m <> n /\ k_name m ∈ seen) M.
Proof.
  induction B as [|b B IH]; cbn [follows]; [by left|]. destruct (decide (k_name b = n)) as [E|E].
  - intros _. right. by exists [], b, B.
  - destruct (decide (k_name b ∈ seen)) as [Hs|Hs].
    + intros [H|(M & y & B' & -> & Hy & HM)]%IH.
      * left. unfold of_name. by rewrite filter_cons_False.
      * right. exists (b :: M), y, B'. split_and!; try done. by constructor.
    + intros H%bool_decide_eq_true. left. unfold of_name. by rewrite filter_cons_False.
Qed.

Lemma cut_ok_spec x A k B : k_loc k = x -> x ∉ k_loc <$> A -> forall seen, cut_ok seen x (A ++ k :: B) = true ->
  exists s, (forall n, n ∈ s <-> n ∈ (k_name <$> A) ++ seen) /\ (k_name k ∈ s \/ follows s (k_name k) B = true).
Proof.
  intros Ek. induction A as [|a A IH]; intros HA seen; cbn [app cut_ok].
  - rewrite decide_True by done. rewrite orb_true_iff, bool_decide_eq_true. by exists seen.
  - cbn [fmap list_fmap] in HA. apply not_elem_of_cons in HA as [Ha HA]. rewrite decide_False by done.
    intros (s & Hs & H)%IH; [|done]. exists s. split; [|done]. intros n. rewrite Hs. cbn [fmap list_fmap].
    cbn [app]. rewrite elem_of_cons, !elem_of_app, elem_of_cons. tauto.
Qed.

(** The first tags without [k], and those behind it. *)
Lemma firsts_cut x A k B : k_loc k = x -> x ∉ k_loc <$> A -> cut_ok [] x (A ++ k :: B) = true ->
  of_name (k_name k) A = [] ->
  firsts (A ++ B) = firsts A ++ take 1 (of_name (k_name k) B) ++ firsts_from (k_name k :: (k_name <$> A) ++ []) B.
Proof.
  intros Ek Hx Hok EA. apply cut_ok_spec in Hok as (s & Hs & Hok); [|done|done]. unfold firsts at 1. rewrite firsts_app. f_equal.
  assert (HkA : k_name k ∉ (k_name <$> A) ++ []).
  { rewrite app_nil_r. intros (a & Ea & Ha)%list_elem_of_fmap.
    assert (Hin : a ∈ of_name (k_name k) A) by (by apply of_name_in). rewrite EA in Hin. by apply not_elem_of_nil in Hin. }
  destruct Hok as [Hin|Hok].
  { exfalso. by apply HkA, Hs. }
  apply follows_spec in Hok as [E|(M & y & B' & -> & Hy & HM)].
  - rewrite E. cbn [take app]. symmetry. rewrite firsts_filter. apply filter_all.
    pose proof (firsts_find (k_name k) B _ HkA) as H. by rewrite E in H.
  - assert (EM : forall s, (forall n, n ∈ (k_name <$> A) ++ [] -> n ∈ s) -> firsts_from s M = []).
    { intros s' Hs'. apply elem_of_nil_inv. intros m [Hm Hns]%firsts_subset. rewrite Forall_forall in HM.
      destruct (HM m Hm) as [_ Hi]. by apply Hns, Hs', Hs. }
    rewrite of_name_app. replace (of_name (k_name k) M) with (@nil kid).
    2: { symmetry. apply elem_of_nil_inv. intros m [Hn Hm]%of_name_in. rewrite Forall_forall in HM. by destruct (HM m Hm). }
    unfold of_name. rewrite filter_cons_True by done. cbn [app take]. rewrite !firsts_app, !EM by set_solver. cbn [app firsts_from].
    rewrite decide_False, decide_True.
    + cbn [app]. f_equal. apply firsts_ext. rewrite Hy. set_solver.
    + rewrite Hy. set_solver.
    + rewrite Hy. rewrite elem_of_app. intros [(m & Em & Hm)%list_elem_of_fmap|]; [|done].
      rewrite Forall_forall in HM. by destruct (HM m Hm).
Qed.

(** ** Taking a tag out *)
Section Cut.
Context (fuel : nat) (h : heap) (d x hd : loc) (tx : tag) (k : kid) (A B : list kid).
Context (Ht : tags h d (A ++ k :: B)) (Hnd : NoDup (k_loc <$> A ++ k :: B)) (Hd : d ∉ k_loc <$> A ++ k :: B).
Context (Hk : k_loc k = x) (Hx : h !! x = Some tx) (Hfuel : (length (A ++ k :: B) < fuel)%nat).
Context (Hcd : x_child <$> h !! d = Some (Some hd)) (Ho : chain x_ordered h (Some hd) (k_loc <$> A ++ k :: B)).
Context (Hs : chain x_sibling h (Some hd) (k_loc <$> firsts (A ++ k :: B))) (Hn : nexts h (A ++ k :: B)).
Context (Hok : cut_ok [] x (A ++ k :: B) = true).
Notation n := (k_name k).
Notation R := (firsts_from (k_name k :: (k_name <$> A) ++ []) B).

Lemma cut_fixed : x_name tx = n /\ x_parent tx = Some d.
Proof.
  unfold tags in Ht. rewrite Forall_forall in Ht. destruct (Ht k) as (t & E & Hfx); [set_solver|].
  rewrite Hk, Hx in E. injection E as <-. unfold fixed in Hfx. by injection Hfx as ? ? ?.
Qed.

Lemma cut_notin : x ∉ (k_loc <$> A) ++ (k_loc <$> B).
Proof.
  rewrite fmap_app in Hnd. cbn [fmap list_fmap] in Hnd. rewrite Hk in Hnd. intros Hin.
  by apply (around _ _ _ _ Hnd) in Hin.
Qed.

Lemma cut_x_ordered : x_ordered tx = head (k_loc <$> B).
Proof.
  pose proof Ho as H. rewrite fmap_app in H. cbn [fmap list_fmap] in H. rewrite Hk in H. apply chain_app in H as [E _].
  rewrite Hx in E. by injection E.
Qed.

Lemma cut_x_next : x_next tx = head (k_loc <$> of_name n B).
Proof.
  pose proof (Hn n) as H. rewrite of_name_same, fmap_app in H. cbn [fmap list_fmap] in H. rewrite Hk in H.
  apply chain_app in H as [E _]. rewrite Hx in E. by injection E.
Qed.

Lemma cut_x_sibling : of_name n A = [] -> x_sibling tx = head (k_loc <$> R) /\ chain x_sibling h (head (k_loc <$> R)) (k_loc <$> R).
Proof.
  intros EA. pose proof Hs as H. rewrite firsts_with, fmap_app in H by done. cbn [fmap list_fmap] in H. rewrite Hk in H.
  apply chain_app in H as [E H]. rewrite Hx in E. by injection E.
Qed.

(** The next of its name takes over the link to the other names. *)
Definition patched : heap :=
  match x_next tx with Some y => alter (set x_sibling (fun _ => x_sibling tx)) y h | None => h end.
Definition no_sibling (t : tag) := (fixed t, x_ordered t, x_next t, x_child t).

Lemma patched_agrees {T} (part : tag -> T) : (forall f t, part (set x_sibling f t) = part t) -> agrees part h patched.
Proof. intros E. unfold patched. destruct (x_next tx); [by apply agrees_alter|done]. Qed.

Lemma patched_run :
  (match x_next tx with Some y => wr y (set x_sibling (fun _ => x_sibling tx)) | None => ret tt end) h = Done tt patched.
Proof.
  unfold patched. destruct (x_next tx) as [y|] eqn:E; [|done]. apply done_wr. rewrite cut_x_next in E.
  apply (chain_some _ _ _ _ _ (Hn n)). rewrite of_name_same, fmap_app. cbn [fmap list_fmap].
  destruct (k_loc <$> of_name n B); [done|]. injection E as ->. set_solver.
Qed.

Lemma patched_sibling y : x_next tx <> Some y -> x_sibling <$> patched !! y = x_sibling <$> h !! y.
Proof. unfold patched. intros Hy. destruct (x_next tx) as [z|]; [|done]. rewrite part_ne; [done|]. congruence. Qed.

(** The next of its name was not the first of it. *)
Lemma next_not_first y : x_next tx = Some y -> y ∉ k_loc <$> firsts (A ++ k :: B) /\ y ∉ k_loc <$> R /\ y ∈ k_loc <$> B.
Proof.
  rewrite cut_x_next. intros Ey. destruct (of_name n B) as [|b L] eqn:EB; [done|]. injection Ey as <-.
  assert (Hb : b ∈ of_name n B) by (rewrite EB; left). apply of_name_in in Hb as [Hbn Hb].
  assert (Hnf : k_loc b ∉ k_loc <$> firsts (A ++ k :: B)).
  { intros (c & Ec & Hc)%list_elem_of_fmap.
    assert (c = b) as ->.
    { apply (kid_unique (A ++ k :: B)); [done| |set_solver|done]. by apply firsts_subset in Hc as [? _]. }
    rewrite (firsts_app [] A), elem_of_app in Hc. destruct Hc as [[Hc _]%firsts_subset|Hc].
    - assert (NoDup (k_loc <$> A ++ k :: B)) as Hnd' by done. rewrite fmap_app in Hnd'. apply NoDup_app in Hnd' as (_ & Hab & _).
      apply (Hab (k_loc b)); [by apply list_elem_of_fmap_2|]. apply list_elem_of_fmap_2. by right.
    - cbn [firsts_from] in Hc. destruct (decide (n ∈ (k_name <$> A) ++ [])) as [Hin|Hin].
      + apply firsts_subset in Hc as [_ Hc]. by rewrite Hbn in Hc.
      + apply elem_of_cons in Hc as [->|[_ Hc]%firsts_subset].
        * apply cut_notin. rewrite <- Hk. apply elem_of_app. right. by apply list_elem_of_fmap_2.
        * rewrite Hbn in Hc. apply Hc. by left. }
  split; [done|]. split; [|by apply list_elem_of_fmap_2].
  intros (c & Ec & [Hc Hcn]%firsts_subset)%list_elem_of_fmap.
  assert (c = b) as -> by (apply (kid_unique (A ++ k :: B)); [done|set_solver|set_solver|done]).
  apply Hcn. rewrite Hbn. by left.
Qed.

Lemma patched_firsts : chain x_sibling patched (Some hd) (k_loc <$> firsts (A ++ k :: B)).
Proof.
  apply (chain_frame x_sibling h); [|done]. intros y Hy. rewrite patched_sibling; [done|]. intros E.
  by apply next_not_first in E as [E _].
Qed.

(** What stands for the name behind [k]. *)
Lemma patched_rest : of_name n A = [] ->
  chain x_sibling patched (head (k_loc <$> take 1 (of_name n B) ++ R)) (k_loc <$> take 1 (of_name n B) ++ R).
Proof.
  intros EA. destruct (cut_x_sibling EA) as [Es HR].
  assert (HRp : chain x_sibling patched (head (k_loc <$> R)) (k_loc <$> R)).
  { apply (chain_frame x_sibling h); [|done]. intros y Hy. rewrite patched_sibling; [done|]. intros E.
    by apply next_not_first in E as (_ & E & _). }
  pose proof cut_x_next as En. destruct (of_name n B) as [|b L] eqn:EB; cbn [take app fmap list_fmap head] in *; [done|].
  split; [done|]. exists (head (k_loc <$> R)). split; [|done]. unfold patched. rewrite En.
  apply part_eq; [|intros t; simpl; congruence].
  apply (chain_some _ _ _ _ _ (Hn n)). rewrite of_name_same, EB, fmap_app. cbn [fmap list_fmap]. set_solver.
Qed.
(** What is wanted. *)
Record cut_result (h' : heap) (c : option loc) : Prop := {
  cr_fixed : agrees fixed h h';
  cr_child : x_child <$> h' !! d = Some c;
  cr_ordered : chain x_ordered h' c (k_loc <$> A ++ B);
  cr_sibling : chain x_sibling h' c (k_loc <$> firsts (A ++ B));
  cr_nexts : nexts h' (A ++ B);
  cr_others y : y ∉ k_loc <$> A ++ k :: B -> links <$> h !! y = links <$> h' !! y;
  cr_children y : y <> d -> x_child <$> h !! y = x_child <$> h' !! y
}.

Definition no_links (t : tag) : tag := t <| x_ordered := None |> <| x_sibling := None |> <| x_next := None |>.

Lemma cut_notin' y : y ∈ k_loc <$> A ++ B -> y <> x.
Proof. rewrite fmap_app. intros Hy ->. by apply cut_notin. Qed.

(** The tag itself loses its links in the end. *)
Lemma reset_result h' c : cut_result h' c -> cut_result (alter no_links x h') c.
Proof.
  intros [H1 H2 H3 H4 H5 H6 H7]. constructor.
  - by apply agrees_alter.
  - by rewrite part_same.
  - apply (chain_frame _ h'); [|done]. intros y Hy. by rewrite part_ne by (by apply cut_notin').
  - apply (chain_frame _ h'); [|done]. intros y (a & -> & [Ha _]%firsts_subset)%list_elem_of_fmap.
    by rewrite part_ne by (by apply cut_notin', list_elem_of_fmap_2).
  - intros m. apply (chain_frame _ h'); [|apply H5]. intros y Hy%of_name_locs. by rewrite part_ne by (by apply cut_notin').
  - intros y Hy. rewrite H6 by done. rewrite part_ne; [done|]. intros ->. apply Hy. rewrite <- Hk.
    apply list_elem_of_fmap_2. set_solver.
  - intros y Hy. rewrite H7 by done. by rewrite part_same.
Qed.

Lemma nexts_cut_head : A = [] -> nexts h B.
Proof.
  intros EA m. pose proof (Hn m) as H. rewrite EA in H. cbn [app] in H. unfold of_name in H |- *.
  destruct (decide (k_name k = m)) as [<-|Hm].
  - rewrite filter_cons_True in H by done. cbn [fmap list_fmap head] in H. destruct H as [_ (v & _ & Hc)].
    pose proof (chain_head _ _ _ _ Hc) as ->. done.
  - by rewrite filter_cons_False in H.
Qed.

(** The first subtag. *)
Lemma cut_head : A = [] ->
  exists h' c, wr d (set x_child (fun _ => x_ordered tx)) patched = Done tt h' /\ cut_result h' c.
Proof.
  intros EA. assert (Hdp : is_Some (patched !! d)).
  { apply (agrees_some x_off h); [by apply patched_agrees|]. destruct (h !! d); [by eexists|done]. }
  rewrite done_wr by done. eexists _, (x_ordered tx). split; [done|].
  assert (EB : firsts (A ++ B) = take 1 (of_name n B) ++ R).
  { rewrite (firsts_cut x A k B Hk); [by rewrite EA|by rewrite EA; apply not_elem_of_nil|done|by rewrite EA]. }
  constructor.
  - apply agrees_alter; [done|]. by apply patched_agrees.
  - by apply part_eq.
  - rewrite EA. cbn [app]. rewrite cut_x_ordered. pose proof Ho as H. rewrite EA in H. cbn [app fmap list_fmap] in H.
    destruct H as [_ (v & _ & Hc)]. pose proof (chain_head _ _ _ _ Hc) as ->.
    apply (chain_agrees _ h); [|done]. apply agrees_alter; [done|]. by apply patched_agrees.
  - rewrite EB. assert (Eh : x_ordered tx = head (k_loc <$> take 1 (of_name n B) ++ R)).
    { rewrite cut_x_ordered, <- EB, EA. cbn [app]. by destruct B. }
    rewrite Eh. apply (chain_agrees _ patched); [by apply agrees_alter|]. apply patched_rest. by rewrite EA.
  - rewrite EA. cbn [app]. intros m. apply (chain_agrees _ h); [|by apply nexts_cut_head].
    apply agrees_alter; [done|]. by apply patched_agrees.
  - intros y Hy. apply combine_links.
    + rewrite part_same by done. by apply patched_agrees.
    + rewrite part_same by done. by apply patched_agrees.
    + rewrite part_same by done. pose proof (patched_agrees x_next ltac:(done) y) as E1.
      assert (E2 : x_sibling <$> h !! y = x_sibling <$> patched !! y).
      { rewrite patched_sibling; [done|]. intros E. apply next_not_first in E as (_ & _ & E). apply Hy.
        rewrite fmap_app. set_solver. }
      unfold types. destruct (h !! y), (patched !! y); simpl in *; try done. congruence.
  - intros y Hy. rewrite part_ne by done. by apply patched_agrees.
Qed.
Lemma patched_x : patched !! x = Some tx.
Proof.
  unfold patched. destruct (x_next tx) as [y|] eqn:E; [|done]. rewrite lookup_alter_ne; [done|]. intros ->.
  apply next_not_first in E as (_ & _ & E). apply cut_notin, elem_of_app. by right.
Qed.

(** Behind the first subtag: the list in the order of the document. *)
Definition unordered (a : kid) : heap := alter (set x_ordered (fun _ => x_ordered tx)) (k_loc a) patched.

Lemma unordered_run A0 a : A = A0 ++ [a] ->
  (cu <- tag_before x_ordered x fuel hd;; wr cu (set x_ordered (fun _ => x_ordered tx))) patched = Done tt (unordered a).
Proof.
  intros EA. pose proof Ho as H. rewrite EA, <- app_assoc, fmap_app in H. cbn [app fmap list_fmap] in H. rewrite Hk in H.
  pose proof cut_notin as Hni. rewrite EA, fmap_app in Hni. cbn [fmap list_fmap] in Hni.
  unfold cbind. rewrite (tag_before_spec x_ordered x patched (k_loc <$> A0) (k_loc a) (k_loc <$> B)).
  - apply done_wr. apply (agrees_some x_off h); [by apply patched_agrees|]. apply (chain_some _ _ _ _ _ H). set_solver.
  - apply (chain_agrees _ h); [by apply patched_agrees|done].
  - set_solver.
  - set_solver.
  - rewrite length_fmap. rewrite EA, !length_app in Hfuel. simpl in Hfuel. lia.
Qed.

Lemma unordered_chain A0 a : A = A0 ++ [a] -> chain x_ordered (unordered a) (Some hd) (k_loc <$> A ++ B).
Proof.
  intros EA. pose proof Ho as H. rewrite EA, <- app_assoc, fmap_app in H. cbn [app fmap list_fmap] in H.
  rewrite EA, <- app_assoc, fmap_app. cbn [app fmap list_fmap].
  apply (chain_agrees _ h) with (h' := patched) in H; [|by apply patched_agrees].
  apply (chain_remove _ _ _ _ _ _ _ _ H).
  - intros y Hy. unfold unordered. rewrite part_ne; [done|].
    pose proof Hnd as Hnd'. rewrite EA, <- app_assoc, fmap_app in Hnd'. cbn [app fmap list_fmap] in Hnd'.
    apply (around _ _ _ _ Hnd'). apply elem_of_app in Hy. set_solver.
  - unfold unordered. apply part_eq; [apply (chain_some _ _ _ _ _ H); set_solver|]. intros t. simpl. by rewrite cut_x_ordered.
Qed.

Lemma a_not_x A0 a : A = A0 ++ [a] -> x <> k_loc a /\ k_loc a ∈ k_loc <$> A.
Proof.
  intros EA. assert (Hin : k_loc a ∈ k_loc <$> A) by (apply list_elem_of_fmap_2; rewrite EA; set_solver).
  split; [|done]. intros E. apply cut_notin, elem_of_app. left. by rewrite E.
Qed.

Lemma unordered_x A0 a : A = A0 ++ [a] -> unordered a !! x = Some tx.
Proof. intros EA. unfold unordered. rewrite lookup_alter_ne; [apply patched_x|]. apply not_eq_sym, (a_not_x A0 a EA). Qed.

(** Parts other than the two lists changed so far. *)
Lemma unordered_agrees {T} (part : tag -> T) a : (forall f t, part (set x_sibling f t) = part t) ->
  (forall f t, part (set x_ordered f t) = part t) -> agrees part h (unordered a).
Proof. intros E1 E2. apply agrees_alter; [done|]. by apply patched_agrees. Qed.

Lemma unordered_sibling a y : x_next tx <> Some y -> x_sibling <$> unordered a !! y = x_sibling <$> h !! y.
Proof. intros Hy. unfold unordered. rewrite part_same by done. by apply patched_sibling. Qed.

(** The links of the other tags. *)
Lemma unordered_others A0 a h' : A = A0 ++ [a] -> agrees fixed (unordered a) h' -> agrees x_ordered (unordered a) h' ->
  (forall y, y ∉ k_loc <$> A ++ k :: B -> types <$> unordered a !! y = types <$> h' !! y) ->
  forall y, y ∉ k_loc <$> A ++ k :: B -> links <$> h !! y = links <$> h' !! y.
Proof.
  intros EA H1 H2 H3 y Hy. apply combine_links.
  - rewrite <- H1. by apply unordered_agrees.
  - rewrite <- H2. unfold unordered. rewrite part_ne; [by apply patched_agrees|]. intros ->. apply Hy.
    rewrite fmap_app, elem_of_app. left. by apply (a_not_x A0 a EA).
  - rewrite <- H3 by done. pose proof (unordered_agrees x_next a ltac:(done) ltac:(done) y) as E1.
    assert (E2 : x_sibling <$> h !! y = x_sibling <$> unordered a !! y).
    { rewrite unordered_sibling; [done|]. intros E. apply next_not_first in E as (_ & _ & E). apply Hy.
      rewrite fmap_app. set_solver. }
    unfold types. destruct (h !! y), (unordered a !! y); simpl in *; try done. congruence.
Qed.

Lemma nexts_without m : m <> n -> of_name m (A ++ B) = of_name m (A ++ k :: B).
Proof. intros Hm. symmetry. apply of_name_other. congruence. Qed.
(** The tag of a kid. *)
Lemma kid_tag c : c ∈ A ++ k :: B -> exists t, h !! k_loc c = Some t /\ x_name t = k_name c.
Proof.
  intros Hc. unfold tags in Ht. rewrite Forall_forall in Ht. destruct (Ht c Hc) as (t & E & Hfx). exists t.
  split; [done|]. unfold fixed in Hfx. congruence.
Qed.

(** The first of its name among the subtags. *)
Lemma first_heads K c : c ∈ firsts K -> exists L, of_name (k_name c) K = c :: L.
Proof.
  intros Hc. pose proof (firsts_find (k_name c) K [] (not_elem_of_nil _)) as H. fold firsts in H.
  destruct (of_name (k_name c) K) as [|c' L].
  - rewrite Forall_forall in H. by apply H in Hc.
  - destruct H as (S1 & S2 & E & H1 & H2). rewrite E, elem_of_app, elem_of_cons in Hc. rewrite Forall_forall in H1, H2.
    destruct Hc as [Hc|[->|Hc]]; [by apply H1 in Hc|by eexists|by apply H2 in Hc].
Qed.

(** The tag before the first subtags of [k]'s name, and the first subtag. *)
Lemma first_subtag A0 a : A = A0 ++ [a] -> exists a0 A1, A = a0 :: A1 /\ hd = k_loc a0.
Proof.
  intros EA. pose proof (chain_head _ _ _ _ Ho) as E. destruct A as [|a0 A1]; [by destruct A0|]. injection E as ->. by eauto.
Qed.

(** The list of the names before and behind the first subtag. *)
Definition passed (s : kid) (h1 : heap) : heap :=
  alter (set x_sibling (fun _ => match x_next tx with Some y => Some y | None => x_sibling tx end)) (k_loc s) h1.

Lemma cut_sibling_first A0 a S0 s : A = A0 ++ [a] -> of_name n A = [] -> firsts A = S0 ++ [s] ->
  cut_sibling fuel x hd (unordered a) = Done (k_loc s) (passed s (unordered a)).
Proof.
  intros EA EN ES. set (h1 := unordered a). destruct (first_subtag A0 a EA) as (a0 & A1 & EA1 & Ehd).
  pose proof patched_firsts as HS. rewrite firsts_with, ES, <- app_assoc, fmap_app in HS by done. cbn [app fmap list_fmap] in HS.
  rewrite Hk in HS. apply (chain_agrees _ patched) with (h' := h1) in HS; [|by apply agrees_alter].
  assert (Hag : agrees fixed h h1) by (by apply unordered_agrees).
  unfold cut_sibling. unfold cbind at 1. rewrite (done_rd _ tx) by (by apply (unordered_x A0)). unfold cbind at 1.
  destruct (kid_tag a0) as (t0 & Ht0 & En0); [rewrite EA1; set_solver|]. rewrite <- Ehd in Ht0.
  destruct (agrees_lookup fixed h h1 hd t0 Hag Ht0) as (t1 & Ht1 & En1). rewrite (done_rd _ t1) by done.
  destruct cut_fixed as [Exn _]. rewrite Exn.
  assert (HnA : Forall (fun c => k_name c <> n) A).
  { apply Forall_forall. intros c Hc E. assert (Hin : c ∈ of_name n A) by (by apply of_name_in).
    rewrite EN in Hin. by apply not_elem_of_nil in Hin. }
  rewrite (proj2 (other_name_true n t1)).
  2: { unfold fixed in En1. rewrite EA1 in HnA. apply Forall_cons in HnA as [Hna _]. congruence. }
  assert (HtS : tags h1 d (S0 ++ [s])).
  { rewrite <- ES. apply firsts_tags, (tags_agrees h); [done|]. unfold tags in Ht. by apply Forall_app in Ht as [? _]. }
  unfold cbind at 1. rewrite (before_name_spec n h1 (k_loc <$> S0) (k_loc s) x (k_loc <$> R)); [|done|..].
  - destruct (chain_app _ _ _ _ _ _ HS) as [(ts & Hts & Es)%fmap_Some _]. unfold cbind at 1. rewrite (done_rd _ ts) by done.
    rewrite decide_True by done. unfold cbind. by rewrite done_wr by (by eexists).
  - change [k_loc s] with (k_loc <$> [s]). rewrite <- fmap_app. apply (tags_each h1 d); [done|]. rewrite <- ES.
    apply firsts_forall, (Forall_impl _ _ _ HnA). intros c Hc t -> _. done.
  - constructor; [|constructor]. intros t Et. unfold h1 in Et. rewrite (unordered_x A0 a EA) in Et. by injection Et as <-.
  - rewrite length_fmap. pose proof (sublist_length _ _ (firsts_sublist A [])) as Hl. fold firsts in Hl.
    rewrite ES, length_app in Hl. rewrite length_app in Hfuel. lia.
Qed.

Lemma cut_next_first a S0 s : of_name n A = [] -> firsts A = S0 ++ [s] ->
  cut_next fuel x (k_loc s) (passed s (unordered a)) = Done tt (passed s (unordered a)).
Proof.
  intros EN ES. set (h2 := passed s (unordered a)).
  assert (Hag : agrees x_next h h2) by (apply agrees_alter; [done|by apply unordered_agrees]).
  assert (Hsf : s ∈ firsts (A ++ k :: B)) by (rewrite firsts_with, ES by done; set_solver).
  destruct (first_heads _ _ Hsf) as (L & EL).
  assert (Hsn : k_name s <> n).
  { intros E. assert (Hin : s ∈ of_name n A); [|rewrite EN in Hin; by apply not_elem_of_nil in Hin].
    apply of_name_in. split; [done|]. apply (firsts_subset []). fold firsts. rewrite ES. set_solver. }
  pose proof (Hn (k_name s)) as Hc. rewrite EL in Hc. cbn [fmap list_fmap head] in Hc.
  assert (Hxl : x ∉ k_loc s :: (k_loc <$> L)).
  { change (x ∉ k_loc <$> s :: L). rewrite <- EL. intros (c & E & [Hcn Hc']%of_name_in)%list_elem_of_fmap.
    assert (c = k) as -> by (apply (kid_unique (A ++ k :: B)); [done|done|set_solver|congruence]). done. }
  destruct (exists_last (l := k_loc s :: (k_loc <$> L))) as (l & z & El); [done|]. rewrite El in Hc, Hxl.
  apply (chain_agrees _ h) with (h' := h2) in Hc; [|done].
  unfold cut_next, cbind. rewrite (next_before_spec x h2 l z []); [|done|set_solver|set_solver|by left|].
  - destruct (chain_app _ _ _ _ _ _ Hc) as [(tz & Htz & Ez)%fmap_Some _]. rewrite (done_rd _ tz), <- Ez by done. done.
  - assert (Hl : (length (s :: L) <= length (A ++ k :: B))%nat) by (rewrite <- EL; apply length_filter).
    assert (Hl' : length (k_loc s :: (k_loc <$> L)) = length (l ++ [z])) by (by rewrite El).
    rewrite length_app in Hl'. simpl in *. rewrite length_fmap in Hl'. lia.
Qed.
(** The chains of the names without the first of one. *)
Lemma nexts_first h' : of_name n A = [] -> agrees x_next h h' -> nexts h' (A ++ B).
Proof.
  intros EN Hag m. apply (chain_agrees _ h); [done|]. destruct (decide (m = n)) as [->|Hm].
  - rewrite of_name_app, EN. cbn [app]. pose proof (Hn n) as H. rewrite of_name_same, EN in H. cbn [app fmap list_fmap head] in H.
    destruct H as [_ (v & _ & Hc)]. pose proof (chain_head _ _ _ _ Hc) as ->. done.
  - rewrite nexts_without by done. apply Hn.
Qed.

Lemma cut_first A0 a : A = A0 ++ [a] -> of_name n A = [] ->
  exists h', (cu <- cut_sibling fuel x hd;; cut_next fuel x cu) (unordered a) = Done tt h' /\ cut_result h' (Some hd).
Proof.
  intros EA EN.
  assert (HfA : exists S0 s, firsts A = S0 ++ [s]).
  { destruct A as [|a0 A1]; [by destruct A0|]. destruct (exists_last (l := firsts (a0 :: A1))) as (? & ? & ?); [done|by eauto]. }
  destruct HfA as (S0 & s & ES). exists (passed s (unordered a)). split.
  { unfold cbind. rewrite (cut_sibling_first A0 a S0 s) by done. by apply (cut_next_first a S0). }
  assert (HsA : s ∈ A) by (apply (firsts_subset []); fold firsts; rewrite ES; set_solver).
  assert (HxA : x ∉ k_loc <$> A) by (intros Hin; apply cut_notin, elem_of_app; by left).
  pose proof (firsts_cut x A k B Hk HxA Hok EN) as EF. rewrite ES, <- app_assoc in EF. cbn [app] in EF.
  constructor.
  - apply agrees_alter; [done|]. by apply unordered_agrees.
  - unfold passed. rewrite part_same by done. rewrite <- Hcd. symmetry. by apply unordered_agrees.
  - apply (chain_agrees _ (unordered a)); [by apply agrees_alter|]. by apply (unordered_chain A0).
  - pose proof patched_firsts as HS. rewrite firsts_with, ES, <- app_assoc, fmap_app in HS by done. cbn [app fmap list_fmap] in HS.
    rewrite EF, fmap_app. cbn [fmap list_fmap].
    assert (Hns : forall y, y ∈ (k_loc <$> S0) ++ (k_loc <$> take 1 (of_name n B) ++ R) -> y <> k_loc s).
    { intros y. apply around. assert (H : NoDup (k_loc <$> A ++ B)).
      { pose proof Hnd as H. rewrite fmap_app in H |- *. cbn [fmap list_fmap] in H. apply NoDup_app in H as (H1 & H2 & H3).
        apply NoDup_cons in H3 as [_ H3]. apply NoDup_app. split_and!; try done. intros y' Hy'. specialize (H2 y' Hy'). set_solver. }
      assert (H' : NoDup (k_loc <$> firsts (A ++ B))) by (eapply sublist_NoDup; [exact H|]; apply fmap_sublist, firsts_sublist).
      by rewrite EF, fmap_app in H'. }
    assert (Hother : forall y, y ∈ (k_loc <$> S0) ++ (k_loc <$> take 1 (of_name n B) ++ R) ->
      x_sibling <$> patched !! y = x_sibling <$> passed s (unordered a) !! y).
    { intros y Hy. unfold passed, unordered. rewrite part_ne by (by apply Hns). by rewrite part_same. }
    apply (chain_replace _ _ _ _ _ _ _ _ HS).
    + intros y Hy. apply Hother. set_solver.
    + unfold passed. apply part_eq.
      * destruct (kid_tag s) as (t & Et & _); [set_solver|]. apply (agrees_some x_off h); [by apply unordered_agrees|by eexists].
      * intros t. cbn [set]. pose proof (proj1 (cut_x_sibling EN)) as E. pose proof cut_x_next as E'.
        destruct (of_name n B) as [|b L]; cbn [take app fmap list_fmap head] in *; rewrite E'; [|done]. exact E.
    + apply (chain_frame _ patched); [|by apply patched_rest]. intros y Hy. apply Hother. set_solver.
  - apply nexts_first; [done|]. apply agrees_alter; [done|]. by apply unordered_agrees.
  - apply (unordered_others A0 a); [done|by apply agrees_alter|by apply agrees_alter|].
    intros y Hy. unfold passed. rewrite part_ne; [done|]. intros ->. apply Hy. apply list_elem_of_fmap_2. set_solver.
  - intros y Hy. unfold passed. rewrite part_same by done. by apply unordered_agrees.
Qed.
(** Not the first of its name: the first one is found. *)
Lemma cut_sibling_later A0 a c L : A = A0 ++ [a] -> of_name n A = c :: L ->
  cut_sibling fuel x hd (unordered a) = Done (k_loc c) (unordered a).
Proof.
  intros EA EN. set (h1 := unordered a). destruct (first_subtag A0 a EA) as (a0 & A1 & EA1 & Ehd).
  assert (Hcin : c ∈ of_name n A) by (rewrite EN; left). apply of_name_in in Hcin as [Hcn HcA].
  assert (Hag : agrees fixed h h1) by (by apply unordered_agrees).
  assert (HS : chain x_sibling h1 (Some hd) (k_loc <$> firsts (A ++ k :: B))).
  { apply (chain_agrees _ patched); [by apply agrees_alter|apply patched_firsts]. }
  unfold cut_sibling. unfold cbind at 1. rewrite (done_rd _ tx) by (by apply (unordered_x A0)). unfold cbind at 1.
  destruct (kid_tag a0) as (t0 & Ht0 & En0); [rewrite EA1; set_solver|]. rewrite <- Ehd in Ht0.
  destruct (agrees_lookup fixed h h1 hd t0 Hag Ht0) as (t1 & Ht1 & En1). rewrite (done_rd _ t1) by done.
  destruct cut_fixed as [Exn _]. rewrite Exn.
  pose proof (firsts_find n (A ++ k :: B) [] (not_elem_of_nil _)) as Hff. fold firsts in Hff.
  rewrite of_name_app, EN in Hff. cbn [app] in Hff. destruct Hff as (S1 & S2 & ES & HS1 & HS2).
  destruct (decide (k_name a0 = n)) as [E0|E0].
  - rewrite (proj2 (other_name_false n t1)) by (unfold fixed in En1; congruence). rewrite Ehd. do 2 f_equal.
    unfold of_name in EN. rewrite EA1, filter_cons_True in EN by done. congruence.
  - rewrite (proj2 (other_name_true n t1)) by (unfold fixed in En1; congruence).
    assert (HSl : exists S0 s, S1 = S0 ++ [s]).
    { destruct S1 as [|s0 S0]; [|destruct (exists_last (l := s0 :: S0)) as (? & ? & ?); [done|by eauto]].
      exfalso. rewrite EA1 in ES. injection ES as -> _. done. }
    destruct HSl as (S0 & s & ->). rewrite ES, <- app_assoc, fmap_app in HS. cbn [app fmap list_fmap] in HS.
    assert (HtS : tags h1 d (firsts (A ++ k :: B))) by (by apply firsts_tags, (tags_agrees h)).
    rewrite ES in HtS. unfold tags in HtS. apply Forall_app in HtS as [HtS Htc]. apply Forall_cons in Htc as [Htc _].
    unfold cbind at 1. rewrite (before_name_spec n h1 (k_loc <$> S0) (k_loc s) (k_loc c) (k_loc <$> S2)); [|done|..].
    + destruct (chain_app _ _ _ _ _ _ HS) as [(ts & Hts & Es)%fmap_Some _]. unfold cbind at 1. rewrite (done_rd _ ts) by done.
      rewrite decide_False; [by rewrite <- Es|]. rewrite <- Es. cbn [head]. intros [= Ex]. apply cut_notin, elem_of_app. left.
      rewrite <- Ex. by apply list_elem_of_fmap_2.
    + change [k_loc s] with (k_loc <$> [s]). rewrite <- fmap_app. apply (tags_each h1 d); [done|].
      apply (Forall_impl _ _ _ HS1). intros b Hb t -> _. done.
    + apply (tags_each h1 d [c]); [by constructor|]. constructor; [|done]. intros t -> _. done.
    + rewrite length_fmap. pose proof (sublist_length _ _ (firsts_sublist (A ++ k :: B) [])) as Hl. fold firsts in Hl.
      rewrite ES, !length_app in Hl. rewrite length_app in Hfuel. simpl in *. lia.
Qed.

Definition unlinked (b : kid) (h1 : heap) : heap := alter (set x_next (fun _ => x_next tx)) (k_loc b) h1.

Lemma cut_next_later A0 a c L C0 b : A = A0 ++ [a] -> of_name n A = c :: L -> of_name n A = C0 ++ [b] ->
  cut_next fuel x (k_loc c) (unordered a) = Done tt (unlinked b (unordered a)).
Proof.
  intros EA EN EC. set (h1 := unordered a).
  pose proof (Hn n) as Hc. rewrite of_name_same, EC, <- app_assoc, fmap_app in Hc. cbn [app fmap list_fmap] in Hc. rewrite Hk in Hc.
  replace (head _) with (Some (k_loc c)) in Hc.
  2: { rewrite EC in EN. destruct C0 as [|c0 C0]; simpl in *; congruence. }
  apply (chain_agrees _ h) with (h' := h1) in Hc; [|by apply unordered_agrees].
  assert (Hxl : x ∉ (k_loc <$> C0) ++ [k_loc b]).
  { change [k_loc b] with (k_loc <$> [b]). rewrite <- fmap_app, <- EC. intros Hin%of_name_locs.
    apply cut_notin, elem_of_app. by left. }
  unfold cut_next. unfold cbind at 1. rewrite (next_before_spec x h1 (k_loc <$> C0) (k_loc b) (x :: (k_loc <$> of_name n B)));
    [|done|set_solver|set_solver|by right|].
  - destruct (chain_app _ _ _ _ _ _ Hc) as [(tb & Htb & Eb)%fmap_Some _]. unfold cbind. rewrite (done_rd _ tb), <- Eb by done.
    cbn [head]. rewrite (done_rd _ tx) by (by apply (unordered_x A0)). by rewrite done_wr by (by eexists).
  - assert (Hl : (length (of_name n A) <= length A)%nat) by apply length_filter. rewrite EC, length_app in Hl.
    rewrite length_fmap. rewrite length_app in Hfuel. simpl in *. lia.
Qed.

Lemma cut_later A0 a c L : A = A0 ++ [a] -> of_name n A = c :: L ->
  exists h', (cu <- cut_sibling fuel x hd;; cut_next fuel x cu) (unordered a) = Done tt h' /\ cut_result h' (Some hd).
Proof.
  intros EA EN. destruct (exists_last (l := of_name n A)) as (C0 & b & EC); [by rewrite EN|].
  assert (HbA : b ∈ of_name n A) by (rewrite EC; set_solver). apply of_name_in in HbA as [Hbn HbA].
  exists (unlinked b (unordered a)). split.
  { unfold cbind. rewrite (cut_sibling_later A0 a c L) by done. by apply (cut_next_later A0 a c L C0). }
  constructor.
  - apply agrees_alter; [done|]. by apply unordered_agrees.
  - unfold unlinked. rewrite part_same by done. rewrite <- Hcd. symmetry. by apply unordered_agrees.
  - apply (chain_agrees _ (unordered a)); [by apply agrees_alter|]. by apply (unordered_chain A0).
  - rewrite <- (firsts_seen k A B c L) by done. apply (chain_agrees _ patched); [apply agrees_alter; [done|by apply agrees_alter]|]. apply patched_firsts.
  - intros m. destruct (decide (m = n)) as [->|Hm].
    + pose proof (Hn n) as H. rewrite of_name_same, EC, <- app_assoc, fmap_app in H. cbn [app fmap list_fmap] in H.
      rewrite of_name_app, EC, <- app_assoc, fmap_app. cbn [app fmap list_fmap].
      replace (head ((k_loc <$> C0) ++ k_loc b :: k_loc k :: (k_loc <$> of_name n B)))
        with (head ((k_loc <$> C0) ++ k_loc b :: (k_loc <$> of_name n B))) in H by (by destruct C0).
      apply (chain_agrees _ h) with (h' := unordered a) in H; [|by apply unordered_agrees].
      apply (chain_remove _ _ _ _ _ _ _ _ H).
      * intros y Hy. unfold unlinked. rewrite part_ne; [done|].
        apply (around (k_loc <$> C0) (k_loc b) (k_loc k :: (k_loc <$> of_name n B))); [|set_solver].
        pose proof (of_name_nodup n _ Hnd) as Hd'. rewrite of_name_same, EC, <- app_assoc, fmap_app in Hd'. done.
      * unfold unlinked. apply part_eq; [|intros t; simpl; apply cut_x_next].
        apply (chain_some _ _ _ _ _ H). set_solver.
    + rewrite nexts_without by done. apply (chain_frame _ (unordered a)).
      * intros y (e & -> & [Hen He]%of_name_in)%list_elem_of_fmap. unfold unlinked. rewrite part_ne; [done|]. intros E.
        apply (kid_unique (A ++ k :: B)) in E; [congruence|done|done|set_solver].
      * apply (chain_agrees _ h); [by apply unordered_agrees|apply Hn].
  - apply (unordered_others A0 a); [done|by apply agrees_alter|by apply agrees_alter|].
    intros y Hy. unfold unlinked. rewrite part_ne; [done|]. intros ->. apply Hy. apply list_elem_of_fmap_2. set_solver.
  - intros y Hy. unfold unlinked. rewrite part_same by done. by apply unordered_agrees.
Qed.
Lemma cut_runs : exists h' c, switch_xml_cut fuel (Some x) h = Done (Some x) h' /\ cut_result h' c.
Proof.
  assert (HL : exists h' c, (d0 <- rd d;; match x_child d0 with
      | None => fun _ => Fault
      | Some cur => if decide (cur = x) then wr d (set x_child (fun _ => x_ordered tx))
        else cu <- tag_before x_ordered x fuel cur;; wr cu (set x_ordered (fun _ => x_ordered tx)) ;;!
             cu <- cut_sibling fuel x cur;; cut_next fuel x cu end) patched = Done tt h' /\ cut_result h' c).
  { pose proof Hcd as Hcp. rewrite (patched_agrees x_child ltac:(done) d) in Hcp. apply fmap_Some in Hcp as (td & Htd & Ec).
    unfold cbind at 1. rewrite (done_rd _ td), <- Ec by done. destruct (nil_or_last A) as [EA|(A0 & a & EA)].
    - pose proof (chain_head _ _ _ _ Ho) as E. rewrite EA in E. cbn in E. injection E as E. rewrite decide_True by congruence.
      by apply cut_head.
    - destruct (first_subtag A0 a EA) as (b & A2 & EA2 & Ehd). rewrite decide_False.
      2: { intros Ex. apply cut_notin, elem_of_app. left. rewrite <- Ex, Ehd. apply list_elem_of_fmap_2. rewrite EA2. by left. }
      pose proof (unordered_run A0 a EA) as Hrun. unfold cbind in Hrun. unfold cbind at 1.
      destruct (tag_before x_ordered x fuel hd patched) as [cu hb| |]; [|done..]. unfold cbind at 1. rewrite Hrun.
      destruct (of_name n A) as [|c L] eqn:EN.
      + destruct (cut_first A0 a EA EN) as (h' & E & Hr). by exists h', (Some hd).
      + destruct (cut_later A0 a c L EA EN) as (h' & E & Hr). by exists h', (Some hd). }
  destruct HL as (h' & c & E & Hr). exists (alter no_links x h'), c. split; [|by apply reset_result].
  unfold switch_xml_cut. unfold cbind at 1. rewrite (done_rd _ tx) by done. unfold cbind at 1. rewrite patched_run.
  destruct cut_fixed as [_ ->]. unfold cbind at 1. rewrite E. unfold cbind. rewrite done_wr; [done|].
  apply (agrees_some fixed h); [apply Hr|by eexists].
Qed.
End Cut.

(** The subtags without [x]. *)
Definition without (x : loc) (K : list kid) : list kid := filter (fun k => k_loc k <> x) K.

Lemma without_split A k B : NoDup (k_loc <$> A ++ k :: B) -> without (k_loc k) (A ++ k :: B) = A ++ B.
Proof.
  intros Hnd. rewrite fmap_app in Hnd. cbn [fmap list_fmap] in Hnd. unfold without.
  rewrite filter_app, filter_cons_False by (intros X; by apply X). f_equal; apply filter_all, Forall_forall; intros a Ha;
    apply (around _ _ _ _ Hnd), elem_of_app; [left|right]; by apply list_elem_of_fmap_2.
Qed.

Lemma sorted_without {X} (le : X -> X -> Prop) A k B : StronglySorted le (A ++ k :: B) -> StronglySorted le (A ++ B).
Proof.
  induction A as [|a A IH]; cbn [app]; intros H; apply StronglySorted_inv in H as [H Ha]; [done|].
  constructor; [by apply IH|]. rewrite Forall_app, Forall_cons in Ha. rewrite Forall_app. tauto.
Qed.

(** [switch_xml_cut] takes a subtag out of its parent with all three lists of
    links and leaves all other subtags: what is left are the subtags without it,
    in their order, and nobody's links lead to it.  When it is the first of its
    name and others follow, no other name may come up before the next one. *)
Lemma cut_refines fuel h kids x tx d :
  forest h kids -> h !! x = Some tx -> is_Some (h !! d) -> x ∈ k_loc <$> kids d -> cut_ok [] x (kids d) = true ->
  (length (kids d) < fuel)%nat ->
  exists h', switch_xml_cut fuel (Some x) h = Done (Some x) h' /\ agrees x_name h h' /\
    forest h' (<[d := without x (kids d)]> kids) /\ detached h' (<[d := without x (kids d)]> kids) x.
Proof.
  intros Hfo Hx Hd (k & Hk & Hin)%list_elem_of_fmap Hok Hf.
  destruct (Hfo d Hd) as [H1 H2 H3 H4 (td & Htd & H5 & H6) H7].
  apply list_elem_of_split in Hin as (A & B & EK). rewrite EK in *.
  assert (Hhd : exists hd, x_child td = Some hd).
  { apply chain_head in H5. rewrite fmap_app in H5. destruct A; simpl in H5; by eexists. }
  destruct Hhd as (hd & Ehd). rewrite Ehd in *.
  destruct (cut_runs fuel h d x hd tx k A B) as (h' & c & E & [C1 C2 C3 C4 C5 C6 C7]); try done; [by rewrite Htd, <- Ehd|].
  exists h'. split; [done|]. split; [apply (agrees_part fixed (fun '(a, _, _) => a)), C1|]. rewrite Hk, without_split by done.
  assert (Hnd : NoDup (k_loc <$> A ++ B)) by (eapply sublist_NoDup; [exact H2|]; apply fmap_sublist, sublist_app, sublist_cons; done).
  assert (Hxn : x ∉ k_loc <$> A ++ B).
  { rewrite fmap_app in *. cbn [fmap list_fmap] in H2. rewrite Hk. intros Hin. by apply (around _ _ _ _ H2) in Hin. }
  assert (Hdom : forall p, is_Some (h' !! p) -> is_Some (h !! p)).
  { intros p [t Et]. specialize (C1 p). rewrite Et in C1. destruct (h !! p); [by eexists|done]. }
  split.
  - apply (forest_update h); try done.
    + constructor; try done.
      * apply (tags_agrees h); [done|]. unfold tags in *. rewrite Forall_app, Forall_cons in H1. rewrite Forall_app. tauto.
      * set_solver.
      * by apply (sorted_without _ A k).
      * apply fmap_Some in C2 as (t & Et & ->). by exists t.
    + intros p y Hn Hp Hy. apply C6. rewrite <- EK. by apply (kids_apart h kids p).
  - intros p Hp. destruct (decide (p = d)) as [->|Hn]; [by rewrite fn_lookup_insert, <- Hk|]. rewrite fn_lookup_insert_ne by done.
    intros Hin. apply (kids_apart h kids p d (k_loc k)) in Hin; try done; [|by apply Hdom]. apply Hin. rewrite EK.
    apply list_elem_of_fmap_2. set_solver.
Qed.

(** ** A document step by step *)
Definition nm (c : Z) : list Z := [c].
(** [switch_xml_new] for the tree: a root without subtags. *)
Definition root_tag (name : list Z) : tag := mk_tag name [] [] 0 None None None None None.
Definition new_root (p : loc) (name : list Z) : heap := {[p := root_tag name]}.

Lemma new_root_forest p name : forest (new_root p name) (fun _ => []).
Proof.
  unfold new_root. intros d [t Ht]. apply lookup_singleton_Some in Ht as [<- <-]. constructor; try constructor.
  - apply not_elem_of_nil.
  - exists (root_tag name). split; [by rewrite lookup_singleton_eq|done].
Qed.

(** A new tag without subtags. *)
Lemma forest_new h kids p t : forest h kids -> h !! p = None -> x_child t = None -> kids p = [] ->
  (forall d, is_Some (h !! d) -> p ∉ k_loc <$> kids d) -> forest (<[p := t]> h) kids /\ detached (<[p := t]> h) kids p.
Proof.
  intros Hfo Hp Hc Hk Hn. split.
  - intros d Hd. destruct (decide (d = p)) as [->|Hne].
    + rewrite Hk. constructor; try constructor; [apply not_elem_of_nil|]. exists t. by rewrite lookup_insert_eq.
    + rewrite lookup_insert_ne in Hd by done. apply (children_keep h); [by apply Hfo|..].
      * intros y Hy. rewrite lookup_insert_ne; [done|]. intros <-. by apply (Hn d).
      * by rewrite lookup_insert_ne.
  - intros d Hd. destruct (decide (d = p)) as [->|Hne]; [rewrite Hk; apply not_elem_of_nil|].
    apply Hn. by rewrite lookup_insert_ne in Hd.
Qed.

(** The addresses of tags are in the heap. *)
Lemma kids_in h kids d y : forest h kids -> is_Some (h !! d) -> y ∈ k_loc <$> kids d -> is_Some (h !! y).
Proof.
  intros Hfo Hd Hy. destruct (Hfo d Hd) as [_ _ _ _ (td & _ & H5 & _) _]. by apply (chain_some x_ordered _ _ _ _ H5).
Qed.

(** ** Histories of a document *)

(** Steps of a program that builds and changes a document. *)
Inductive xml_op :=
| OpAdd (p d : loc) (name : list Z) (off : Z)
| OpInsert (x d : loc) (off : Z)
| OpCut (x : loc)
| OpMove (x d : loc) (off : Z).

Definition run_op (fuel : nat) (o : xml_op) : cmd unit :=
  match o with
  | OpAdd p d name off => _ <- switch_xml_add_child fuel p (Some d) name off;; ret tt
  | OpInsert x d off => _ <- switch_xml_insert fuel x d off;; ret tt
  | OpCut x => _ <- switch_xml_cut fuel (Some x);; ret tt
  | OpMove x d off => _ <- switch_xml_move fuel x d off;; ret tt
  end.
Fixpoint run_ops (fuel : nat) (os : list xml_op) : cmd unit :=
  match os with [] => ret tt | o :: os => run_op fuel o ;;! run_ops fuel os end.

(** The documents as they are meant: the names of the tags and their subtags. *)
Record doc := mk_doc { dc_names : gmap loc (list Z); dc_kids : gmap loc (list kid) }.
Definition subtags (D : doc) (p : loc) : list kid := default [] (dc_kids D !! p).
(** The tag whose subtag [x] is. *)
Definition parent_of (D : doc) (x : loc) : option loc :=
  fst <$> List.find (fun '(_, K) => bool_decide (x ∈ k_loc <$> K)) (map_to_list (dc_kids D)).

Definition put (D : doc) (x d : loc) (off : Z) : doc :=
  mk_doc (dc_names D) (<[d := insert_kid (mk_kid x (default [] (dc_names D !! x)) off) (subtags D d)]> (dc_kids D)).
Definition cut_out (D : doc) (x : loc) : doc :=
  match parent_of D x with
  | Some d => mk_doc (dc_names D) (<[d := without x (subtags D d)]> (dc_kids D))
  | None => D
  end.
Definition spec_op (D : doc) (o : xml_op) : doc :=
  match o with
  | OpAdd p d name off => put (mk_doc (<[p := name]> (dc_names D)) (dc_kids D)) p d off
  | OpInsert x d off => put D x d off
  | OpCut x => cut_out D x
  | OpMove x d off => put (cut_out D x) x d off
  end.

(** Steps that keep the lists of links in order. *)
Definition can_put (fuel : nat) (D : doc) (x d : loc) (off : Z) : bool :=
  bool_decide (is_Some (dc_names D !! x)) && bool_decide (is_Some (dc_names D !! d)) && negb (bool_decide (x = d)) &&
  bool_decide (parent_of D x = None) && bool_decide (good_place (default [] (dc_names D !! x)) off (subtags D d)) &&
  (length (subtags D d) <? fuel)%nat.
Definition can_take (fuel : nat) (D : doc) (x : loc) : bool :=
  match parent_of D x with
  | Some d => cut_ok [] x (subtags D d) && (length (subtags D d) <? fuel)%nat
  | None => false
  end.
Definition legal (fuel : nat) (D : doc) (o : xml_op) : bool :=
  match o with
  | OpAdd p d name off => bool_decide (dc_names D !! p = None) &&
      can_put fuel (mk_doc (<[p := name]> (dc_names D)) (dc_kids D)) p d off
  | OpInsert x d off => can_put fuel D x d off
  | OpCut x => can_take fuel D x
  | OpMove x d off => can_take fuel D x && can_put fuel (cut_out D x) x d off
  end.
Fixpoint legal_ops (fuel : nat) (D : doc) (os : list xml_op) : bool :=
  match os with [] => true | o :: os => legal fuel D o && legal_ops fuel (spec_op D o) os end.

(** The fuel is enough for the walks along the subtags. *)
Definition enough (fuel : nat) (D : doc) : bool :=
  (0 <? fuel)%nat && forallb (fun '(_, K) => (length K <? fuel)%nat) (map_to_list (dc_kids D)).

(** The heap stands for the document. *)
Record stands (h : heap) (D : doc) : Prop := {
  st_names p : x_name <$> h !! p = dc_names D !! p;
  st_forest : forest h (subtags D);
  st_dom p : is_Some (dc_kids D !! p) -> is_Some (h !! p)
}.

Lemma parent_some D x d : parent_of D x = Some d -> exists K, dc_kids D !! d = Some K /\ x ∈ k_loc <$> K.
Proof.
  unfold parent_of. intros ([d' K] & E & ->)%fmap_Some. apply List.find_some in E as [E1 E2].
  apply bool_decide_eq_true in E2. exists K. split; [|done]. by apply elem_of_map_to_list, list_elem_of_In.
Qed.

Lemma parent_none D x d : parent_of D x = None -> x ∉ k_loc <$> subtags D d.
Proof.
  unfold parent_of, subtags. intros E%fmap_None Hx. destruct (dc_kids D !! d) as [K|] eqn:EK; [|by apply not_elem_of_nil in Hx].
  assert (Hin : In (d, K) (map_to_list (dc_kids D))) by (by apply list_elem_of_In, elem_of_map_to_list).
  apply (List.find_none _ _ E) in Hin. by apply bool_decide_eq_false in Hin.
Qed.

Lemma subtags_insert D d K names : forall p, subtags (mk_doc names (<[d := K]> (dc_kids D))) p = (<[d := K]> (subtags D)) p.
Proof.
  intros p. unfold subtags. cbn [dc_kids]. destruct (decide (p = d)) as [->|Hn].
  - by rewrite lookup_insert_eq, fn_lookup_insert.
  - by rewrite lookup_insert_ne, fn_lookup_insert_ne.
Qed.

Lemma forest_ext h kids kids' : (forall p, kids' p = kids p) -> forest h kids -> forest h kids'.
Proof. intros E H d Hd. rewrite E. by apply H. Qed.

Lemma stands_some h D p : stands h D -> is_Some (dc_names D !! p) <-> is_Some (h !! p).
Proof. intros [H _ _]. rewrite <- H, fmap_is_Some. done. Qed.

Lemma stands_update h h' D d K : stands h D -> agrees x_name h h' -> is_Some (h !! d) ->
  forest h' (<[d := K]> (subtags D)) -> stands h' (mk_doc (dc_names D) (<[d := K]> (dc_kids D))).
Proof.
  intros [H1 H2 H3] Ha Hd Hf. constructor; cbn [dc_names dc_kids].
  - intros p. rewrite <- Ha. apply H1.
  - apply (forest_ext _ (<[d := K]> (subtags D))); [|done]. intros p. by apply subtags_insert.
  - intros p. intros Hp. apply (agrees_some x_name h); [done|]. destruct (decide (p = d)) as [->|Hn]; [done|].
    apply H3. by rewrite lookup_insert_ne in Hp.
Qed.

Lemma put_stands fuel h D x d off : stands h D -> can_put fuel D x d off = true ->
  exists h', switch_xml_insert fuel x d off h = Done x h' /\ stands h' (put D x d off).
Proof.
  intros Hst H. unfold can_put in H. rewrite !andb_true_iff, negb_true_iff, !bool_decide_eq_true, bool_decide_eq_false in H.
  destruct H as [[[[[Hx Hd] Hxd] Hp] Hg] Hf]. apply Nat.ltb_lt in Hf.
  rewrite (stands_some h) in Hd by done. pose proof (st_names _ _ Hst x) as En.
  destruct Hx as [name Hx]. rewrite Hx in En, Hg. apply fmap_Some in En as (tx & Htx & ->). cbn [default] in Hg.
  destruct (insert_refines fuel h (subtags D) x tx d off) as (h' & E & Ha & _ & Hfo); try done; [apply Hst|..].
  { intros p _. by apply parent_none. }
  exists h'. split; [done|]. unfold put. rewrite Hx. apply (stands_update h); try done. apply (agrees_part content (fun '(a, _, _) => a)), Ha.
Qed.

Lemma take_stands fuel h D x : stands h D -> can_take fuel D x = true ->
  exists h', switch_xml_cut fuel (Some x) h = Done (Some x) h' /\ stands h' (cut_out D x).
Proof.
  intros Hst H. unfold can_take, cut_out in *. destruct (parent_of D x) as [d|] eqn:Ep; [|done].
  apply andb_prop in H as [Hok Hf]. apply Nat.ltb_lt in Hf. apply parent_some in Ep as (K & EK & Hx).
  assert (Hd : is_Some (h !! d)) by (apply (st_dom _ _ Hst); by eexists).
  assert (ES : subtags D d = K) by (unfold subtags; by rewrite EK).
  destruct (kids_in h (subtags D) d x) as [tx Htx]; [apply Hst|done|by rewrite ES|].
  destruct (cut_refines fuel h (subtags D) x tx d) as (h' & E & Ha & Hfo & _); try done; [apply Hst|by rewrite ES|].
  exists h'. split; [done|]. by apply (stands_update h).
Qed.

Lemma op_stands fuel h D o : stands h D -> legal fuel D o = true ->
  exists h', run_op fuel o h = Done tt h' /\ stands h' (spec_op D o).
Proof.
  intros Hst Hl. destruct o as [p d name off|x d off|x|x d off]; cbn [legal run_op spec_op] in *; unfold cbind.
  - apply andb_prop in Hl as [Hp Hl]. apply bool_decide_eq_true in Hp. unfold switch_xml_add_child, cbind.
    set (t := mk_tag _ _ _ _ _ _ _ _ _).
    assert (Hhp : h !! p = None) by (pose proof (st_names _ _ Hst p) as E; rewrite Hp in E; by destruct (h !! p)).
    assert (Hkp : subtags D p = []).
    { unfold subtags. destruct (dc_kids D !! p) as [K|] eqn:E; [|done].
      destruct (st_dom _ _ Hst p) as [u Hu]; [by eexists|]. congruence. }
    destruct (forest_new h (subtags D) p t) as [Hfo _]; try done; [apply Hst|..].
    { intros d' Hd' Hin. apply (kids_in h) in Hin as [u Hu]; [congruence|apply Hst|done]. }
    destruct (put_stands fuel (<[p := t]> h) (mk_doc (<[p := name]> (dc_names D)) (dc_kids D)) p d off) as (h' & -> & H'); try done.
    + constructor; cbn [dc_names dc_kids].
      * intros q. destruct (decide (q = p)) as [->|Hn]; [by rewrite !lookup_insert_eq|]. rewrite !lookup_insert_ne by done.
        apply Hst.
      * done.
      * intros q Hq. apply (st_dom _ _ Hst) in Hq. destruct (decide (q = p)) as [->|Hn]; [by rewrite lookup_insert_eq|].
        by rewrite lookup_insert_ne.
    + by exists h'.
  - destruct (put_stands fuel h D x d off) as (h' & -> & H'); try done. by exists h'.
  - destruct (take_stands fuel h D x) as (h' & -> & H'); try done. by exists h'.
  - apply andb_prop in Hl as [H1 H2]. destruct (take_stands fuel h D x) as (h1 & E1 & S1); try done.
    destruct (put_stands fuel h1 (cut_out D x) x d off) as (h' & E2 & H'); try done. exists h'.
    unfold switch_xml_move, cbind. by rewrite E1, E2.
Qed.

Lemma enough_spec fuel D : enough fuel D = true -> forall p, (length (subtags D p) < fuel)%nat.
Proof.
  intros [H0 H]%andb_prop p. apply Nat.ltb_lt in H0. unfold subtags. destruct (dc_kids D !! p) as [K|] eqn:E; [|done].
  rewrite forallb_forall in H. apply Nat.ltb_lt, (H (p, K)). by apply list_elem_of_In, elem_of_map_to_list.
Qed.

(** C26: Whatever tags are added, inserted, cut and moved in whatever order, as
    long as no tag comes before a first subtag of its own name and no first of a
    name is taken out that has another name before its next, the three lists of
    links are those of the document as it is meant: the program never uses a
    wrong link, and [switch_xml_get] finds on every path of names and positions
    the tag that the document has there. *)
Theorem xml_tree_refines fuel h D os :
  stands h D -> legal_ops fuel D os = true -> enough fuel (foldl spec_op D os) = true ->
  exists h', run_ops fuel os h = Done tt h' /\ stands h' (foldl spec_op D os) /\
    forall p args, is_Some (dc_names (foldl spec_op D os) !! p) ->
      switch_xml_get fuel (Some p) args h' = Done (get_spec (subtags (foldl spec_op D os)) (Some p) args) h'.
Proof.
  intros Hst Hl Hf. assert (HR : exists h', run_ops fuel os h = Done tt h' /\ stands h' (foldl spec_op D os)).
  { clear Hf. revert h D Hst Hl. induction os as [|o os IH]; intros h D Hst Hl; cbn [run_ops foldl legal_ops] in *; [by exists h|].
    apply andb_prop in Hl as [Ho Hl]. destruct (op_stands fuel h D o Hst Ho) as (h1 & E1 & S1).
    destruct (IH h1 (spec_op D o) S1 Hl) as (h' & E & S'). exists h'. split; [|done]. unfold cbind. by rewrite E1. }
  destruct HR as (h' & E & S'). exists h'. split; [done|]. split; [done|]. intros p args Hp.
  apply get_follows_path; [apply S'|by apply enough_spec|]. intros q [= <-]. by rewrite <- (stands_some h').
Qed.

Lemma new_root_stands p name : stands (new_root p name) (mk_doc {[p := name]} ∅).
Proof.
  constructor; cbn [dc_names dc_kids].
  - intros q. unfold new_root. destruct (decide (q = p)) as [->|Hn].
    + by rewrite !lookup_singleton_eq.
    + by rewrite !lookup_singleton_ne.
  - apply (forest_ext _ (fun _ => [])); [|apply new_root_forest]. intros q. done.
  - intros q [t Ht]. done.
Qed.

(** Tags [a], [b], [a] below the root; the second is taken out, and the third
    moved into the first. *)
Definition demo_ops : list xml_op :=
  [OpAdd 2 1 (nm 97) 0; OpAdd 3 1 (nm 98) 1; OpAdd 4 1 (nm 97) 2; OpCut 3; OpMove 4 2 0].

Lemma xml_tree_refines_witness : exists h', run_ops 10 demo_ops (new_root 1 (nm 114)) = Done tt h' /\
  stands h' (foldl spec_op (mk_doc {[1%positive := nm 114]} ∅) demo_ops) /\
  switch_xml_get 10 (Some 1%positive) [(nm 97, 0); (nm 97, 0)] h' = Done (Some 4%positive) h'.
Proof.
  destruct (xml_tree_refines 10 (new_root 1 (nm 114)) (mk_doc {[1%positive := nm 114]} ∅) demo_ops) as (h' & E & S' & G);
    [apply new_root_stands|vm_compute; reflexivity|vm_compute; reflexivity|].
  exists h'. split; [done|]. split; [done|]. rewrite G; [vm_compute; reflexivity|vm_compute; by eexists].
Defined.

(** ** Outside the conditions *)
Definition heap_after (os : list xml_op) : heap :=
  match run_ops 10 os (new_root 1 (nm 114)) with Done _ h => h | _ => ∅ end.

(** Tags [a], [b], [a]: when the first one is taken out, the second [a] is still
    there in the order of the document, but no longer found by its name. *)
Definition lost_ops : list xml_op := [OpAdd 2 1 (nm 97) 0; OpAdd 3 1 (nm 98) 1; OpAdd 4 1 (nm 97) 2; OpCut 2].
Theorem cut_loses_next : let h := heap_after lost_ops in
  run_ops 10 lost_ops (new_root 1 (nm 114)) = Done tt h /\
  chain x_ordered h (h !! 1%positive ≫= x_child) [3%positive; 4%positive] /\
  switch_xml_child 10 (Some 1%positive) (nm 97) h = Done None h.
Proof.
  split; [vm_compute; reflexivity|]. split; [|vm_compute; reflexivity].
  vm_compute. split; [done|]. eexists. split; [done|]. split; [done|]. by eexists.
Qed.

(** A tag before a first subtag of its own name: when it is taken out again, the
    list of the names becomes a circle, and the search for another name never
    ends. *)
Definition circle_ops : list xml_op := [OpAdd 2 1 (nm 98) 5; OpAdd 3 1 (nm 98) 3; OpCut 3].
Theorem cut_makes_circle fuel : let h := heap_after circle_ops in
  run_ops 10 circle_ops (new_root 1 (nm 114)) = Done tt h /\
  switch_xml_child fuel (Some 1%positive) (nm 122) h = Spin.
Proof.
  split; [vm_compute; reflexivity|]. set (h := heap_after circle_ops).
  assert (H2 : exists t, h !! 2%positive = Some t /\ x_name t = nm 98 /\ x_sibling t = Some 2%positive)
    by (eexists; vm_compute; done).
  assert (H1 : exists t, h !! 1%positive = Some t /\ x_child t = Some 2%positive) by (eexists; vm_compute; done).
  destruct H1 as (t1 & H1 & E1), H2 as (t2 & H2 & E2 & E3).
  unfold switch_xml_child, rd_opt, cbind. rewrite (done_rd _ t1) by done. cbn [ret mbind option_bind]. rewrite E1.
  induction fuel as [|fuel IH]; [done|]. cbn [child_loop]. unfold cbind. rewrite (done_rd _ t2) by done.
  rewrite (proj2 (other_name_true (nm 122) t2)) by (by rewrite E2). by rewrite E3.
Qed.
