(* ===== verification/XmlParse.v ===== *)
(** * XmlParse: reading XML documents, src/switch_xml.c

    [switch_xml_parse_str] with the functions it calls for tags, texts and
    processing instructions.  The parser puts zeros into the document where a
    name or a text ends and keeps pointers into it; here these are texts of their
    own.  The document is the bytes before its last one or a zero, and the last
    byte.  Blocks for tags are numbered in the order in which they are allocated.
    An internal document type is recognized, but not read. *)
From S2P Require Import Prelude XmlText XmlTree.
From Stdlib Require Import ZArith Lia.
From stdpp Require Import base numbers option list gmap.

Local Open Scope Z_scope.

(** ** Errors and state *)
Inductive xml_error :=
| ErrRootMissing
| ErrOutsideRoot
| ErrMissing (q : Z)
| ErrMissingEnd
| ErrClosingTag (name : list Z)
| ErrComment
| ErrCdata
| ErrDoctype
| ErrInstruction
| ErrMarkup
| ErrUnclosed (name : list Z)
| ErrDtd.

(** The root structure: the tags, the current one, whether the root has its name,
    the next block, and the processing instructions, for each target those before
    and behind the start of the root. *)
Record parser := mk_parser {
  ps_heap : heap;
  ps_cur : option positive;
  ps_named : bool;
  ps_new : positive;
  ps_pi : list (list Z * list (list Z * bool));
  ps_standalone : bool
}.
#[export] Instance eta_parser : Eta parser := fun s =>
  mk_parser (ps_heap s) (ps_cur s) (ps_named s) (ps_new s) (ps_pi s) (ps_standalone s).

Definition ROOT : positive := 1%positive.
Definition switch_xml_new (name : option (list Z)) : parser :=
  mk_parser {[ROOT := mk_tag (default [] name) [] [] 0 None None None None None]} (Some ROOT)
    (bool_decide (is_Some name)) 2%positive [] false.

(** ** Bytes *)
Definition SWITCH_XML_WS : list Z := [9; 13; 10; 32].
Definition any_of (l : list Z) (c : Z) : bool := existsb (Z.eqb c) l.
Definition isalpha (c : Z) : bool := ((65 <=? c) && (c <=? 90)) || ((97 <=? c) && (c <=? 122)).
Definition GT : Z := 62.
Definition SLASH : Z := 47.
(** A byte of a tag's name at its beginning. *)
Definition name_start (c : Z) : bool := isalpha c || (c =? 95) || (c =? 58) || (128 <=? c).

(** The longest start of a text whose bytes satisfy [p], and the rest. *)
Fixpoint span (p : Z -> bool) (s : list Z) : list Z * list Z :=
  match s with
  | c :: r => if p c then let '(a, b) := span p r in (c :: a, b) else ([], s)
  | [] => ([], [])
  end.
Definition skip (p : Z -> bool) (s : list Z) : list Z := snd (span p s).
(** [strstr]: what comes before the pattern, and the text from there. *)
Fixpoint strstr (pat s : list Z) : option (list Z * list Z) :=
  match strip_text pat s with
  | Some _ => Some ([], s)
  | None => match s with c :: r => option_map (fun '(a, b) => (c :: a, b)) (strstr pat r) | [] => None end
  end.

(** ** Markup *)
Inductive markup :=
| MOpen (name : list Z) (attrs : list attribute) (closed : bool)
| MClose (name : list Z)
| MText (s : list Z)
| MInstruction (s : list Z)
| MSkip
| MError (e : xml_error).

(** [switch_xml_decode] with the standard entities. *)
Definition decode_text (t : Z) (s : list Z) : res (list Z) :=
  x <-! switch_xml_decode (2 * length s + 1) s std_ent t;; or_ub x.

(** An attribute: its name, its value, and what follows. *)
Definition scan_value (s : list Z) : res (option (list Z) * list Z + xml_error) :=
  match s with
  | q :: r =>
    if (q =? 34) || (q =? 39) then
      let '(v, r) := span (fun c => negb (c =? q)) r in
      match r with
      | _ :: r => v <-! decode_text 32 v;; Ret (inl (Some v, r))
      | [] => Ret (inr (ErrMissing q))
      end
    else Ret (inl (None, s))
  | [] => Ret (inl (None, s))
  end.
Definition scan_attr (s : list Z) : res (list Z * option (list Z) * list Z + xml_error) :=
  let '(an, s) := span (fun c => negb (any_of (SWITCH_XML_WS ++ [61; SLASH; GT]) c)) s in
  match s with
  | c :: r =>
    if (c =? 61) || is_space c then
      v <-! scan_value (skip (any_of (SWITCH_XML_WS ++ [61])) r);;
      match v with
      | inl (v, r) => Ret (inl (an, v, skip is_space r))
      | inr e => Ret (inr e)
      end
    else Ret (inl (an, None, s))
  | [] => Ret (inl (an, None, []))
  end.
Definition tag_ends (s : list Z) : bool := match s with c :: _ => (c =? SLASH) || (c =? GT) | [] => true end.
Fixpoint scan_attrs (fuel : nat) (s : list Z) (attrs : list attribute) : res (list attribute * list Z + xml_error) :=
  if tag_ends s then Ret (inl (attrs, s))
  else match fuel with
       | O => Ub
       | S fuel =>
         a <-! scan_attr s;;
         match a with
         | inl (an, v, s) => scan_attrs fuel s (attrs ++ [(an, v)])
         | inr e => Ret (inr e)
         end
       end.

(** [e] is the last byte of the document. *)
Definition scan_tag (e : Z) (s : list Z) : res (markup * list Z) :=
  let '(name, r) := span (fun c => negb (any_of (SWITCH_XML_WS ++ [SLASH; GT]) c)) s in
  a <-! scan_attrs (length r) (skip is_space r) [];;
  match a with
  | inr err => Ret (MError err, [])
  | inl (attrs, r) =>
    match r with
    | [] => if e =? GT then Ret (MOpen name attrs false, []) else Ret (MError ErrMissingEnd, [])
    | c :: r' =>
      if c =? SLASH then
        match r' with
        | g :: _ => if g =? GT then Ret (MOpen name attrs true, r') else Ret (MError ErrMissingEnd, [])
        | [] => if e =? GT then Ret (MOpen name attrs true, []) else Ret (MError ErrMissingEnd, [])
        end
      else Ret (MOpen name attrs false, r)
    end
  end.

Definition scan_close (e : Z) (s : list Z) : markup * list Z :=
  let '(name, r) := span (fun c => negb (any_of (SWITCH_XML_WS ++ [GT]) c)) s in
  match r with
  | [] => if e =? GT then (MClose name, []) else (MError ErrMissingEnd, [])
  | c :: _ => (MClose name, if is_space c then skip (any_of SWITCH_XML_WS) r else r)
  end.

(** [s] is the text behind ["!--"]. *)
Definition scan_comment (e : Z) (s : list Z) : markup * list Z :=
  match strstr [45; 45] s with
  | Some (_, _ :: _ :: r) =>
    match r with
    | g :: _ => if g =? GT then (MSkip, r) else (MError ErrComment, [])
    | [] => if e =? GT then (MSkip, []) else (MError ErrComment, [])
    end
  | _ => (MError ErrComment, [])
  end.

Definition CDATA : list Z := [33; 91; 67; 68; 65; 84; 65; 91].
Definition DOCTYPE : list Z := [33; 68; 79; 67; 84; 89; 80; 69].
(** [s] is the text behind ["![CDATA["]. *)
Definition scan_cdata (s : list Z) : markup * list Z :=
  match strstr [93; 93; GT] s with
  | Some (txt, _ :: _ :: r) => (MText txt, r)
  | _ => (MError ErrCdata, [])
  end.

(** The end of a document type: [internal] when a bracket was opened. *)
Fixpoint scan_doctype (fuel : nat) (internal : bool) (s : list Z) : option (bool * list Z) :=
  match s with
  | [] => Some (internal, [])
  | c :: r =>
    let stop := if internal then (c =? 93) && (match skip (any_of SWITCH_XML_WS) r with g :: _ => g =? GT | [] => false end)
                else c =? GT in
    if stop then Some (internal, s)
    else match fuel with
         | O => None
         | S fuel =>
           let s := skip (fun c => negb (any_of [91; 93; GT] c)) r in
           scan_doctype fuel (match s with b :: _ => if b =? 91 then true else internal | [] => internal end) s
         end
  end.

(** The end of an instruction: [s] is at a question mark or behind it.  In [<?>] the
    first question mark is the last one, and the length of the instruction is -1. *)
Fixpoint scan_instruction (s : list Z) : option (list Z * list Z) :=
  match s with
  | [] => None
  | c :: r =>
    if c =? 63 then
      match r with
      | [] => Some ([], [])
      | g :: _ => if g =? GT then Some ([], r) else option_map (fun '(a, b) => (c :: a, b)) (scan_instruction r)
      end
    else option_map (fun '(a, b) => (c :: a, b)) (scan_instruction r)
  end.

(** The markup behind a less-than sign, and the text at its end. *)
Definition scan (e : Z) (s : list Z) : res (markup * list Z) :=
  match s with
  | [] => Ret (MError ErrMarkup, [])
  | c :: r =>
    if name_start c then scan_tag e s
    else if c =? SLASH then Ret (scan_close e r)
    else match strip_text [33; 45; 45] s with
    | Some r => Ret (scan_comment e r)
    | None =>
      match strip_text CDATA s with
      | Some r => Ret (scan_cdata r)
      | None =>
        match strip_text DOCTYPE s with
        | Some _ =>
          match scan_doctype (length s) false s with
          | Some (internal, r) =>
            if bool_decide (r = []) && negb (e =? GT) then Ret (MError ErrDoctype, [])
            else if internal then Ret (MError ErrDtd, []) else Ret (MSkip, r)
          | None => Ub
          end
        | None =>
          if c =? 63 then
            match scan_instruction s with
            | Some (txt, r) =>
              if bool_decide (r = []) && negb (e =? GT) then Ret (MError ErrInstruction, [])
              else match txt with
                   | _ :: txt => Ret (MInstruction txt, r)
                   | [] => Ub
                   end
            | None => Ret (MError ErrInstruction, [])
            end
          else Ret (MError ErrMarkup, [])
        end
      end
    end
  end.

(** ** What the parser does with markup *)
Definition on_heap {A} (m : cmd A) (st : parser) : res (A * parser) :=
  match m (ps_heap st) with
  | Done a h => Ret (a, st <| ps_heap := h |>)
  | Fault | Spin => Ub
  end.
(** No list of subtags is longer than the heap. *)
Definition heap_bound (st : parser) : nat := S (size (ps_heap st)).

Definition switch_xml_open_tag (st : parser) (name : list Z) (attr : list attribute) : res parser :=
  match ps_cur st with
  | None => Ret st
  | Some xml =>
    if ps_named st then
      '(t, st) <-! on_heap (rd xml) st;;
      '(c, st) <-! on_heap (switch_xml_add_child (heap_bound st) (ps_new st) (Some xml) name (zlen (x_txt t))) st;;
      c <-! or_ub c;;
      '(_, st) <-! on_heap (wr c (set x_attr (fun _ => attr))) st;;
      Ret (st <| ps_cur := Some c |> <| ps_new ::= Pos.succ |>)
    else
      '(_, st) <-! on_heap (wr xml (set x_name (fun _ => name))) st;;
      '(_, st) <-! on_heap (wr xml (set x_attr (fun _ => attr))) st;;
      Ret (st <| ps_named := true |>)
  end.

Definition switch_xml_char_content (st : parser) (s : list Z) (t : Z) : res parser :=
  match ps_cur st with
  | None => Ret st
  | Some xml =>
    if negb (ps_named st) || bool_decide (s = []) then Ret st
    else
      s <-! decode_text t s;;
      '(_, st) <-! on_heap (wr xml (set x_txt (fun txt => txt ++ s))) st;;
      Ret st
  end.

(** [None]: the tag is not the current one. *)
Definition switch_xml_close_tag (st : parser) (name : list Z) : option parser :=
  xml ← ps_cur st;
  t ← ps_heap st !! xml;
  if ps_named st && bool_decide (x_name t = name) then Some (st <| ps_cur := x_parent t |>) else None.

Definition STANDALONE : list Z := [115; 116; 97; 110; 100; 97; 108; 111; 110; 101].
Fixpoint add_pi (target instr : list Z) (behind : bool) (l : list (list Z * list (list Z * bool))) :=
  match l with
  | [] => [(target, [(instr, behind)])]
  | (t, il) :: l => if bool_decide (t = target) then (t, il ++ [(instr, behind)]) :: l else (t, il) :: add_pi target instr behind l
  end.
Definition switch_xml_proc_inst (st : parser) (s : list Z) : parser :=
  let '(target, r) := span (fun c => negb (any_of SWITCH_XML_WS c)) s in
  let r := skip (any_of SWITCH_XML_WS) r in
  if bool_decide (target = [120; 109; 108]) then
    match strstr STANDALONE r with
    | Some (_, r) =>
      match strip_text [121; 101; 115] (skip (any_of (SWITCH_XML_WS ++ [61; 39; 34])) (drop 10 r)) with
      | Some _ => st <| ps_standalone := true |>
      | None => st
      end
    | None => st
    end
  else st <| ps_pi ::= add_pi target r (ps_named st) |>.

Inductive parsed := Parsed (st : parser) | Failed (e : xml_error) (st : parser).

Definition apply_markup (m : markup) (st : parser) : res (parser + xml_error) :=
  match m with
  | MOpen name attrs closed =>
    st <-! switch_xml_open_tag st name attrs;;
    Ret (inl (if closed then default st (switch_xml_close_tag st name) else st))
  | MClose name =>
    match switch_xml_close_tag st name with Some st => Ret (inl st) | None => Ret (inr (ErrClosingTag name)) end
  | MText s => st <-! switch_xml_char_content st s 99;; Ret (inl st)
  | MInstruction s => Ret (inl (switch_xml_proc_inst st s))
  | MSkip => Ret (inl st)
  | MError e => Ret (inr e)
  end.

Definition parse_end (st : parser) : parsed :=
  match ps_cur st with
  | None => Parsed st
  | Some xml => if ps_named st then Failed (ErrUnclosed (default [] (x_name <$> ps_heap st !! xml))) st
                else Failed ErrRootMissing st
  end.

(** Behind markup: the text up to the next markup, where [next] goes on. *)
Definition parse_text (next : list Z -> parser -> res parsed) (s : list Z) (st : parser) : res parsed :=
  match s with
  | [] => Ret (parse_end st)
  | _ :: s =>
    let '(txt, s) := span (fun c => negb (c =? 60)) s in
    match s with
    | [] => Ret (parse_end st)
    | _ :: s => st <-! switch_xml_char_content st txt 38;; next s st
    end
  end.

(** [s] is the text behind a less-than sign. *)
Fixpoint parse_markup (fuel : nat) (e : Z) (s : list Z) (st : parser) : res parsed :=
  match fuel with
  | O => Ub
  | S fuel =>
    if match s with c :: _ => name_start c | [] => false end && bool_decide (ps_cur st = None)
    then Ret (Failed ErrOutsideRoot st)
    else
      '(m, s) <-! scan e s;;
      r <-! apply_markup m st;;
      match r with
      | inr err => Ret (Failed err st)
      | inl st => parse_text (parse_markup fuel e) s st
      end
  end.

(** ** UTF-16 *)
Fixpoint utf16_bytes (be : bool) (s : list Z) : list Z :=
  match s with
  | a :: b :: r =>
    let c := if be then a * 256 + b else b * 256 + a in
    if (0xD800 <=? c) && (c <=? 0xDFFF) then
      match r with
      | a :: b :: r =>
        let d := if be then a * 256 + b else b * 256 + a in
        char_bytes (Z.lor (Z.shiftl (Z.land c 0x3FF) 10) (Z.land d 0x3FF) + 0x10000) ++ utf16_bytes be r
      | _ => char_bytes c
      end
    else char_bytes c ++ utf16_bytes be r
  | _ => []
  end.
Definition switch_xml_str2utf8 (s : list Z) : list Z :=
  match s with
  | c :: _ => if c =? 0xFE then utf16_bytes true (drop 2 s) else if c =? 0xFF then utf16_bytes false (drop 2 s) else s
  | [] => s
  end.

Definition switch_xml_parse_str (s : list Z) : res parsed :=
  let st := switch_xml_new None in
  if bool_decide (s = []) then Ret (Failed ErrRootMissing st)
  else
    let s := switch_xml_str2utf8 s in
    e <-! or_ub (last s);;
    let body := fst (span (fun c => negb (c =? 0)) (removelast s)) in
    match skip (fun c => negb (c =? 60)) body with
    | [] => Ret (Failed ErrRootMissing st)
    | _ :: r => parse_markup (S (length r)) e r st
    end.
