(* ===== verification/XmlPrint.v ===== *)
(** * XmlPrint: writing XML documents, src/switch_xml.c

    [switch_xml_toxml] with the recursion over the tags and the growing buffer,
    and what it makes of a document whose texts are in tags without subtags.
    Every tag has a text, which may be empty; documents with an internal type,
    and so default attributes, are not considered. *)
From Stdlib Require Import ZArith Lia.
From stdpp Require Import base numbers option list sorting gmap.
From S2P Require Import Prelude Utf8 XmlText XmlTree XmlParse.

Local Open Scope Z_scope.

(** ** The buffer *)
Record out := mk_out { o_dst : list Z; o_max : Z }.

(** [while ( *len + n > *max) *max += SWITCH_XML_BUFSIZE] *)
Definition reserve (n : Z) (o : out) : out :=
  let need := zlen (o_dst o) + n in
  if need >? o_max o
  then mk_out (o_dst o) (o_max o + SWITCH_XML_BUFSIZE * ((need - o_max o + (SWITCH_XML_BUFSIZE - 1)) / SWITCH_XML_BUFSIZE))
  else o.
(** [*len += sprintf( *s + *len, ...)] *)
Definition print (l : list Z) (o : out) : res out :=
  if zlen (o_dst o) + zlen l + 1 <=? o_max o then Ret (mk_out (o_dst o ++ l) (o_max o)) else Ub.
Definition ampencode (s : list Z) (len : Z) (a : bool) (o : out) : res out :=
  '(d, m) <-! switch_xml_ampencode s len (o_dst o) (o_max o) a;; Ret (mk_out d m).

(** ** Tags *)
Definition XML_INDENT : list Z := [32; 32].
Fixpoint print_indent (count : nat) (o : out) : res out :=
  match count with O => Ret o | S count => o <-! print XML_INDENT o;; print_indent count o end.

(** [switch_xml_attr]: the value of the first attribute with a name. *)
Fixpoint switch_xml_attr (attrs : list attribute) (an : list Z) : option (option (list Z)) :=
  match attrs with
  | [] => None
  | (n, v) :: attrs => if bool_decide (n = an) then Some v else switch_xml_attr attrs an
  end.
(** An attribute is skipped when its value is not that of the first with its name,
    which [seen], those before it, may have: all but the first, unless both have no
    value. *)
Definition duplicate (seen : list attribute) (an : list Z) (v : option (list Z)) : bool :=
  match switch_xml_attr seen an with
  | None => false
  | Some w => bool_decide (is_Some v) || bool_decide (is_Some w)
  end.
Fixpoint print_attrs (seen : list attribute) (attrs : list attribute) (count : nat) (o : out) : res out :=
  match attrs with
  | [] => Ret o
  | (an, v) :: attrs =>
    if duplicate seen an v then print_attrs (seen ++ [(an, v)]) attrs count o
    else
      let o := reserve (zlen an + 7 + 2 * Z.of_nat count) o in
      o <-! print (32 :: an ++ [61; 34]) o;;
      o <-! ampencode (default [] v) 0 true o;;
      o <-! print [34] o;;
      print_attrs (seen ++ [(an, v)]) attrs count o
  end.

Definition last_is (c : Z) (o : out) : bool := bool_decide (last (o_dst o) = Some c).

Definition open_tag (t : tag) (count : nat) (o : out) : res out :=
  let o := reserve (zlen (x_name t) + 5 + 2 * Z.of_nat count + 1) o in
  o <-! (if last_is GT o then print [10] o else Ret o);;
  o <-! print_indent count o;;
  o <-! print (60 :: x_name t) o;;
  o <-! print_attrs [] (x_attr t) count o;;
  print [GT] o.
Definition close_tag (t : tag) (count : nat) (o : out) : res out :=
  let o := reserve (zlen (x_name t) + 5 + 2 * Z.of_nat count) o in
  o <-! (if last_is 10 o then print_indent count o else Ret o);;
  print ([60; SLASH] ++ x_name t ++ [GT; 10]) o.

(** A tag with its subtags, which [sub] writes, or its text. *)
Definition print_tag (sub : positive -> out -> res (out * nat)) (t : tag) (count : nat) (o : out) : res (out * nat) :=
  o <-! open_tag t count o;;
  '(o, count) <-! match x_child t with
                  | Some c => sub c o
                  | None => o <-! ampencode (x_txt t) 0 false o;; Ret (o, count)
                  end;;
  o <-! close_tag t count o;;
  Ret (o, count).

(** The result is the buffer and the depth. *)
Fixpoint switch_xml_toxml_r (fuel : nat) (h : heap) (p : positive) (start : Z) (count : nat) (isroot : bool) (o : out)
  : res (out * nat) :=
  match fuel with
  | O => Ub
  | S fuel =>
    t <-! or_ub (h !! p);;
    txt <-! (if isroot then Ret [] else
             match x_parent t with None => Ret [] | Some q => x <-! or_ub (h !! q);; Ret (x_txt x) end);;
    o <-! ampencode (drop (Z.to_nat start) txt) (u64 (x_off t - start)) false o;;
    '(o, count) <-! print_tag (fun c => switch_xml_toxml_r fuel h c 0 (S count) false) t count o;;
    let off := Z.of_nat (Nat.min (length txt) (Z.to_nat (x_off t))) in
    match (if isroot then None else x_ordered t) with
    | Some n => switch_xml_toxml_r fuel h n off count false o
    | None => o <-! ampencode (drop (Z.to_nat off) txt) 0 false o;; Ret (o, Nat.pred count)
    end
  end.

(** The instructions of the document, before or behind the root. *)
Definition PI_OPEN : list Z := [60; 63].
Definition PI_CLOSE : list Z := [63; 62].
Fixpoint print_pi (behind : bool) (l : list (list Z * (list Z * bool))) (o : out) : res out :=
  match l with
  | [] => Ret o
  | (t, (n, b)) :: l =>
    if Bool.eqb b behind then
      let o := reserve (zlen t + zlen n + 7) o in
      o <-! print ((if behind then [10] else []) ++ PI_OPEN ++ t ++ (if n then [] else [32]) ++ n ++ PI_CLOSE) o;;
      print_pi behind l o
    else print_pi behind l o
  end.
Definition pi_list (pi : list (list Z * list (list Z * bool))) : list (list Z * (list Z * bool)) :=
  concat (map (fun '(t, l) => map (pair t) l) pi).

Definition HEADER : list Z :=
  [60; 63; 120; 109; 108; 32; 118; 101; 114; 115; 105; 111; 110; 61; 34; 49; 46; 48; 34; 63; 62; 10].

(** [root] is the document; a root without a name is one that could not be read.
    The [offset] zeros stand for what the caller puts before the text. *)
Definition switch_xml_toxml_buf (fuel : nat) (root : parser) (xml : option positive)
    (buflen : Z) (offset : nat) (prn_header : bool) : res (list Z) :=
  let o := mk_out (repeat 0 offset) buflen in
  o <-! (if prn_header then print HEADER o else Ret o);;
  match xml with
  | None => Ret (o_dst o)
  | Some xml =>
    if negb (ps_named root) && bool_decide (xml = ROOT) then Ret (o_dst o)
    else
      t <-! or_ub (ps_heap root !! xml);;
      let pi := match x_parent t with None => pi_list (ps_pi root) | Some _ => [] end in
      o <-! print_pi false pi o;;
      '(o, _) <-! switch_xml_toxml_r fuel (ps_heap root) xml 0 0 true o;;
      o <-! print_pi true pi o;;
      Ret (o_dst o)
  end.
Definition switch_xml_toxml (fuel : nat) (root : parser) (xml : option positive) (prn_header : bool) : res (list Z) :=
  switch_xml_toxml_buf fuel root xml SWITCH_XML_BUFSIZE 0 prn_header.
Definition switch_xml_tohtml (fuel : nat) (root : parser) (xml : option positive) (prn_header : bool) : res (list Z) :=
  r <-! switch_xml_toxml_buf fuel root xml SWITCH_XML_BUFSIZE 0 prn_header;;
  o <-! ampencode r 0 true (mk_out [] SWITCH_XML_BUFSIZE);;
  Ret (o_dst o).

(** ** Documents as trees *)
Inductive tree := Tree (name : list Z) (attrs : list attribute) (txt : list Z) (subs : list tree).

Section TreeInd.
Context (P : tree -> Prop) (HP : forall name attrs txt subs, Forall P subs -> P (Tree name attrs txt subs)).
Fixpoint tree_induction (t : tree) : P t :=
  match t with
  | Tree name attrs txt subs => HP name attrs txt subs
      ((fix go (l : list tree) : Forall P l := match l with [] => @List.Forall_nil _ P | u :: l => @List.Forall_cons _ P u l (tree_induction u) (go l) end) subs)
  end.
End TreeInd.

(** The tag at [p] and the tags below it. *)
Inductive rep (h : heap) : positive -> tree -> Prop :=
| Rep p t K ts : h !! p = Some t -> children h p K -> Forall2 (fun k u => rep h (k_loc k) u) K ts ->
    rep h p (Tree (x_name t) (x_attr t) (x_txt t) ts).

(** Names, attributes and texts that can be written and read. *)
Definition name_char (c : Z) : bool := (0 <? c) && (c <? 256) && negb (any_of (SWITCH_XML_WS ++ [SLASH; GT]) c).
Definition valid_name (n : list Z) : Prop := forallb name_char n = true /\ match n with c :: _ => name_start c = true | [] => False end.
Definition attr_char (c : Z) : bool := (0 <? c) && (c <? 256) && negb (is_space c) && negb (any_of [61; SLASH; GT] c).
Definition valid_attr (av : attribute) : Prop :=
  forallb attr_char (fst av) = true /\
  exists chs, snd av = Some (encode chs) /\ Forall (fun ch => 0 < ch < 0x1000) chs /\ no_markup chs = true /\ no_feeds chs = true.
Definition valid_text (s : list Z) : Prop :=
  exists chs, s = encode chs /\ xml_text chs /\ no_markup chs = true.
(** Texts are in tags without subtags and do not end in a newline. *)
Inductive valid : tree -> Prop :=
| Valid name attrs txt subs : valid_name name -> NoDup (fst <$> attrs) -> Forall valid_attr attrs ->
    (subs = [] -> valid_text txt /\ last txt <> Some 10) -> (subs <> [] -> txt = []) -> Forall valid subs ->
    valid (Tree name attrs txt subs).

(** How a document is written. *)
Definition enc (a : bool) (s : list Z) : list Z :=
  match switch_xml_ampencode s 0 [] 0 a with Ret (d, _) => d | _ => [] end.
Definition indent (count : nat) : list Z := concat (repeat XML_INDENT count).
Definition print_attr (av : attribute) : list Z := 32 :: fst av ++ [61; 34] ++ enc true (default [] (snd av)) ++ [34].
Fixpoint print_tree (t : tree) (count : nat) : list Z :=
  match t with
  | Tree name attrs txt subs =>
    indent count ++ [60] ++ name ++ concat (map print_attr attrs) ++ [GT] ++
    match subs with
    | [] => enc false txt
    | _ => 10 :: concat (map (fun u => print_tree u (S count)) subs) ++ indent count
    end ++ [60; SLASH] ++ name ++ [GT; 10]
  end.
Fixpoint weight (t : tree) : nat := match t with Tree _ _ _ subs => S (list_sum (map weight subs)) end.

(** Texts side by side, without inner brackets. *)
Ltac flat_app := repeat (progress (rewrite <- ?app_assoc; cbn [app])).

(** ** The buffer *)
Definition room (o : out) (n : Z) : Prop := zlen (o_dst o) + n <= o_max o.

Lemma reserve_room n o : o_dst (reserve n o) = o_dst o /\ room (reserve n o) n.
Proof.
  unfold reserve, room. rewrite Z.gtb_ltb. set (need := zlen (o_dst o) + n). case_if E; boolify; [|done]. simpl. split; [done|].
  unfold SWITCH_XML_BUFSIZE. pose proof (Z.div_mod (need - o_max o + (1024 - 1)) 1024 ltac:(lia)).
  pose proof (Z.mod_pos_bound (need - o_max o + (1024 - 1)) 1024 ltac:(lia)). lia.
Qed.

Lemma print_room l o n : room o (zlen l + n) -> 1 <= n ->
  exists o', print l o = Ret o' /\ o_dst o' = o_dst o ++ l /\ room o' n.
Proof.
  unfold room, print. intros Hr Hn. rewrite (proj2 (Z.leb_le _ _)) by lia. eexists. split; [done|]. simpl. split; [done|].
  rewrite zlen_app. lia.
Qed.

Lemma room_less o m n : room o m -> n <= m -> room o n.
Proof. unfold room. lia. Qed.

Lemma indent_length count : zlen (indent count) = 2 * Z.of_nat count.
Proof. induction count as [|c IH]; [done|]. unfold indent. cbn [repeat concat]. rewrite zlen_app. fold (indent c). unfold zlen at 1. simpl. lia. Qed.

Lemma print_indent_room count : forall o n, room o (2 * Z.of_nat count + n) -> 1 <= n ->
  exists o', print_indent count o = Ret o' /\ o_dst o' = o_dst o ++ indent count /\ room o' n.
Proof.
  induction count as [|c IH]; intros o n Hr Hn; cbn [print_indent].
  - exists o. rewrite app_nil_r. split_and!; try done.
  - destruct (print_room XML_INDENT o (2 * Z.of_nat c + n)) as (o1 & -> & D1 & R1); [|lia|].
    { unfold room in *. change (zlen XML_INDENT) with 2. lia. }
    cbn [rbind]. destruct (IH o1 n R1 Hn) as (o2 & -> & D2 & R2). exists o2. split_and!; try done.
    rewrite D2, D1, <- app_assoc. done.
Qed.

(** A valid text with the room it leaves. *)
Lemma enc_text a chs : xml_text chs -> no_markup chs = true -> enc a (encode chs) = amp_text a chs.
Proof.
  intros Ht Hn. unfold enc. destruct (ampencode_text a chs [] 0 10) as (m & -> & _); try done.
  apply (Forall_impl _ _ _ Ht). intros ch Hch. pose proof (amp_spec_length a ch 5). change (16 ^ 5) with 0x100000 in *. lia.
Qed.

Lemma ampencode_room a chs o k : xml_text chs -> no_markup chs = true -> Forall (fun ch => 0 < ch < 16 ^ k) chs -> 2 <= k ->
  room o (6 - k) ->
  exists o', ampencode (encode chs) 0 a o = Ret o' /\ o_dst o' = o_dst o ++ enc a (encode chs) /\ room o' (6 - k).
Proof.
  intros Ht Hn Hk Hk2 Hr. unfold ampencode. destruct (ampencode_text a chs (o_dst o) (o_max o) (4 + k)) as (m & -> & R); try done.
  - apply (Forall_impl _ _ _ Hk). intros ch Hch. by apply amp_spec_length.
  - unfold room in Hr. lia.
  - cbn [rbind]. eexists. split; [done|]. unfold room. simpl. rewrite enc_text by done. split; [done|]. lia.
Qed.

(** ** Writing tags *)
Lemma attr_snoc seen an v b : switch_xml_attr seen b = None ->
  switch_xml_attr (seen ++ [(an, v)]) b = if bool_decide (an = b) then Some v else None.
Proof. induction seen as [|[n w] seen IH]; [done|]. cbn [switch_xml_attr app]. by destruct (bool_decide (n = b)). Qed.

Lemma print_attrs_room attrs : forall seen count o, NoDup (fst <$> attrs) -> (forall av, av ∈ attrs -> switch_xml_attr seen (fst av) = None) ->
  Forall valid_attr attrs -> room o 2 ->
  exists o', print_attrs seen attrs count o = Ret o' /\ o_dst o' = o_dst o ++ concat (map print_attr attrs) /\ room o' 2.
Proof.
  induction attrs as [|[an v] attrs IH]; intros seen count o Hnd Hs Hv Hr; cbn [print_attrs].
  { exists o. by rewrite app_nil_r. }
  cbn [fmap list_fmap fst] in Hnd. apply NoDup_cons in Hnd as [Han Hnd].
  apply Forall_cons in Hv as [(Hc & chs & Ev & Hchs & Hm & Hfd) Hv]. cbn [fst snd] in *.
  pose proof (Hs (an, v) ltac:(left)) as Es. cbn [fst] in Es. unfold duplicate. rewrite Es. set (o0 := reserve _ o).
  destruct (reserve_room (zlen an + 7 + 2 * Z.of_nat count) o) as [D0 R0]. fold o0 in D0, R0.
  destruct (print_room (32 :: an ++ [61; 34]) o0 (4 + 2 * Z.of_nat count)) as (o1 & -> & D1 & R1); [|lia|].
  { rewrite zlen_cons, zlen_app. change (zlen [61; 34]) with 2. apply (room_less _ _ _ R0). lia. }
  cbn [rbind]. subst v. change (default [] (Some (encode chs))) with (encode chs).
  assert (Hx : xml_text chs) by (apply (Forall_impl _ _ _ Hchs); lia).
  destruct (ampencode_room true chs o1 3) as (o2 & -> & D2 & R2); try done; [apply (room_less _ _ _ R1); lia|].
  cbn [rbind]. destruct (print_room [34] o2 2) as (o3 & -> & D3 & R3); [exact R2|lia|]. cbn [rbind].
  destruct (IH (seen ++ [(an, Some (encode chs))]) count o3) as (o4 & -> & D4 & R4); try done.
  { intros av Hav. rewrite attr_snoc by (apply Hs; by right). rewrite bool_decide_false; [done|].
    intros ->. apply Han. by apply list_elem_of_fmap_2. }
  exists o4. split; [done|]. split; [|done]. rewrite D4, D3, D2, D1, D0. cbn [map concat]. unfold print_attr at 2. cbn [fst snd].
  by flat_app.
Qed.

Lemma open_tag_room t count o : NoDup (fst <$> x_attr t) -> Forall valid_attr (x_attr t) ->
  exists o', open_tag t count o = Ret o' /\ room o' 1 /\
    o_dst o' = o_dst o ++ (if last_is GT o then [10] else []) ++ indent count ++ [60] ++ x_name t ++
      concat (map print_attr (x_attr t)) ++ [GT].
Proof.
  intros Hnd Hv. unfold open_tag. destruct (reserve_room (zlen (x_name t) + 5 + 2 * Z.of_nat count + 1) o) as [D0 R0].
  set (o0 := reserve _ o) in *. assert (E0 : last_is GT o0 = last_is GT o) by (unfold last_is; by rewrite D0). rewrite E0.
  assert (H1 : exists o1, (if last_is GT o then print [10] o0 else Ret o0) = Ret o1 /\
    o_dst o1 = o_dst o ++ (if last_is GT o then [10] else []) /\ room o1 (2 * Z.of_nat count + (zlen (x_name t) + 5))).
  { destruct (last_is GT o).
    - destruct (print_room [10] o0 (2 * Z.of_nat count + (zlen (x_name t) + 5))) as (o1 & -> & D1 & R1).
      + change (zlen [10]) with 1. apply (room_less _ _ _ R0). lia.
      + pose proof (zlen_nonneg (x_name t)). lia.
      + exists o1. by rewrite D1, D0.
    - exists o0. rewrite app_nil_r. split_and!; try done. apply (room_less _ _ _ R0). lia. }
  destruct H1 as (o1 & -> & D1 & R1). cbn [rbind]. pose proof (zlen_nonneg (x_name t)).
  destruct (print_indent_room count o1 (zlen (x_name t) + 5) R1) as (o2 & -> & D2 & R2); [lia|]. cbn [rbind].
  destruct (print_room (60 :: x_name t) o2 4) as (o3 & -> & D3 & R3); [rewrite zlen_cons; apply (room_less _ _ _ R2); lia|lia|].
  cbn [rbind]. destruct (print_attrs_room (x_attr t) [] count o3) as (o4 & -> & D4 & R4); try done.
  { apply (room_less _ _ _ R3). lia. }
  cbn [rbind]. destruct (print_room [GT] o4 1) as (o5 & -> & D5 & R5); [exact R4|lia|]. exists o5. split; [done|].
  split; [done|]. rewrite D5, D4, D3, D2, D1, <- !app_assoc. done.
Qed.

Lemma close_tag_room t count o :
  exists o', close_tag t count o = Ret o' /\ room o' 1 /\
    o_dst o' = o_dst o ++ (if last_is 10 o then indent count else []) ++ [60; SLASH] ++ x_name t ++ [GT; 10].
Proof.
  unfold close_tag. destruct (reserve_room (zlen (x_name t) + 5 + 2 * Z.of_nat count) o) as [D0 R0].
  set (o0 := reserve _ o) in *. assert (E0 : last_is 10 o0 = last_is 10 o) by (unfold last_is; by rewrite D0). rewrite E0.
  pose proof (zlen_nonneg (x_name t)).
  assert (H1 : exists o1, (if last_is 10 o then print_indent count o0 else Ret o0) = Ret o1 /\
    o_dst o1 = o_dst o ++ (if last_is 10 o then indent count else []) /\ room o1 (zlen (x_name t) + 5)).
  { destruct (last_is 10 o).
    - destruct (print_indent_room count o0 (zlen (x_name t) + 5)) as (o1 & -> & D1 & R1); [apply (room_less _ _ _ R0); lia|lia|].
      exists o1. by rewrite D1, D0.
    - exists o0. rewrite app_nil_r. split_and!; try done. apply (room_less _ _ _ R0). lia. }
  destruct H1 as (o1 & -> & D1 & R1). cbn [rbind].
  destruct (print_room ([60; SLASH] ++ x_name t ++ [GT; 10]) o1 1) as (o2 & -> & D2 & R2); [|lia|].
  { rewrite !zlen_app. change (zlen [60; SLASH]) with 2. change (zlen [GT; 10]) with 2. apply (room_less _ _ _ R1). lia. }
  exists o2. split; [done|]. split; [done|]. by rewrite D2, D1, <- !app_assoc.
Qed.

(** Nothing of an empty text. *)
Lemma ampencode_nil len o : ampencode [] len false o = Ret o.
Proof. unfold ampencode, switch_xml_ampencode. cbn [length]. destruct o. by destruct (len =? 0), (Z.to_nat len). Qed.

(** The last byte of an encoded character. *)
Lemma amp_spec_last ch : exists l z, amp_spec false ch = l ++ [z] /\ (z = SEMI \/ z = ch).
Proof.
  unfold amp_spec.
  repeat (case_if E; [boolify; subst; first [by exists []; eexists; split; [done|right] | eexists (_ :: _ :: _), _; split; [|by left]; done |
    eexists (_ :: _ :: _ :: _), _; split; [|by left]; done]|clear E]).
  exists ([AMP; 35; 120] ++ hex_number ch), SEMI. split; [|by left]. unfold amp_ref. by rewrite app_assoc.
Qed.

Lemma amp_text_app a A B : amp_text a (A ++ B) = amp_text a A ++ amp_text a B.
Proof. unfold amp_text. by rewrite map_app, concat_app. Qed.

(** A text that does not end in a newline is not written as one that does. *)
Lemma enc_last d chs : xml_text chs -> no_markup chs = true -> last (encode chs) <> Some 10 ->
  last (d ++ [GT] ++ enc false (encode chs)) <> Some 10.
Proof.
  intros Hx Hn Hl. rewrite enc_text by done. destruct (nil_or_last chs) as [->|(cs & ch & ->)].
  - rewrite app_nil_r, last_snoc. done.
  - rewrite amp_text_app. destruct (amp_spec_last ch) as (l & z & E & Hz). unfold amp_text at 2. cbn [map concat].
    rewrite E, app_nil_r, !app_assoc, last_snoc. intros [= ->]. destruct Hz as [|<-]; [done|].
    apply Hl. rewrite encode_app. change (encode [10]) with [10]. apply last_snoc.
Qed.

Lemma last_is_snoc d c o b : o_dst o = d ++ [c] -> last_is b o = bool_decide (c = b).
Proof.
  intros E. unfold last_is. rewrite E, last_snoc. apply bool_decide_ext. split; [by intros [= ->]|by intros ->].
Qed.

Lemma print_tree_last t count : exists d, print_tree t count = d ++ [10].
Proof.
  destruct t as [name attrs txt subs]. cbn [print_tree].
  match goal with |- exists d, _ ++ _ ++ _ ++ _ ++ _ ++ ?M ++ _ = _ =>
    exists (indent count ++ [60] ++ name ++ concat (map print_attr attrs) ++ [GT] ++ M ++ [60; SLASH] ++ name ++ [GT]) end.
  by flat_app.
Qed.
Lemma print_trees_last ts count : ts <> [] -> exists d, concat (map (fun u => print_tree u count) ts) = d ++ [10].
Proof.
  intros Hn. destruct (nil_or_last ts) as [->|(ts' & t & ->)]; [done|]. destruct (print_tree_last t count) as [d E].
  exists (concat (map (fun u => print_tree u count) ts') ++ d). rewrite map_app, concat_app. cbn [map concat].
  by rewrite E, app_nil_r, app_assoc.
Qed.

(** One tag, when its subtags are written as they should. *)
Lemma print_tag_spec sub t subs count o : valid (Tree (x_name t) (x_attr t) (x_txt t) subs) ->
  (x_child t = None <-> subs = []) ->
  (forall c o1, x_child t = Some c -> last_is GT o1 = true -> exists o', sub c o1 = Ret (o', count) /\ room o' 1 /\
     o_dst o' = o_dst o1 ++ [10] ++ concat (map (fun u => print_tree u (S count)) subs)) ->
  exists o', print_tag sub t count o = Ret (o', count) /\ room o' 1 /\
    o_dst o' = o_dst o ++ (if last_is GT o then [10] else []) ++ print_tree (Tree (x_name t) (x_attr t) (x_txt t) subs) count.
Proof.
  intros Hv Hc Hsub. inversion Hv as [name attrs txt ts Hname Hnd Hattr Hleaf Hinner Hts]; subst.
  unfold print_tag. destruct (open_tag_room t count o) as (o1 & -> & R1 & D1); [done|done|]. cbn [rbind].
  assert (E1 : last_is GT o1 = true).
  { rewrite !app_assoc in D1. rewrite (last_is_snoc _ GT o1 GT D1). done. }
  assert (H2 : exists o2, match x_child t with Some c => sub c o1
      | None => o2 <-! ampencode (x_txt t) 0 false o1;; Ret (o2, count) end = Ret (o2, count) /\
    o_dst o2 = o_dst o1 ++ match subs with [] => enc false (x_txt t) | _ => [10] ++ concat (map (fun u => print_tree u (S count)) subs) end /\
    last_is 10 o2 = match subs with [] => false | _ => true end).
  { destruct (x_child t) as [c|] eqn:Ec.
    - destruct subs as [|u us] eqn:Eu; [by assert (Some c = None) by (by apply Hc)|]. rewrite <- Eu in *.
      destruct (Hsub c o1) as (o2 & -> & R2 & D2); [done|done|]. exists o2. split; [done|].
      replace (match subs with [] => false | _ => true end) with true by (by rewrite Eu).
      split; [by rewrite Eu in *|].
      destruct (print_trees_last subs (S count)) as [d Ed]; [by rewrite Eu|].
      rewrite (last_is_snoc (o_dst o1 ++ [10] ++ d) 10 o2 10); [done|]. rewrite D2, Ed. by flat_app.
    - destruct subs as [|u us]; [|by assert (u :: us = []) by (by apply Hc)]. destruct (Hleaf eq_refl) as [(chs & Et & Hx & Hm) Hl].
      rewrite Et in *. destruct (ampencode_room false chs o1 5) as (o2 & -> & D2 & R2); try done. cbn [rbind].
      exists o2. split; [done|]. split; [done|]. unfold last_is. apply bool_decide_eq_false. rewrite D2, D1, <- !app_assoc.
      rewrite !(app_assoc _ _ ([GT] ++ _)). by apply enc_last. }
  destruct H2 as (o2 & -> & D2 & L2). cbn [rbind]. destruct (close_tag_room t count o2) as (o3 & -> & R3 & D3). cbn [rbind].
  exists o3. split; [done|]. split; [done|]. rewrite D3, D2, D1, L2. cbn [print_tree]. destruct subs; flat_app; done.
Qed.

Lemma rep_inv h p name attrs txt ts : rep h p (Tree name attrs txt ts) -> exists t K, h !! p = Some t /\ x_name t = name /\
  x_attr t = attrs /\ x_txt t = txt /\ children h p K /\ Forall2 (fun k u => rep h (k_loc k) u) K ts /\
  chain x_ordered h (x_child t) (k_loc <$> K) /\ (x_child t = None <-> ts = []).
Proof.
  inversion 1 as [p' t K ts' Ht Hch Hsub]; subst. exists t, K. destruct (ch_dest _ _ _ Hch) as (t' & Ht' & Ho & _).
  rewrite Ht in Ht'. injection Ht' as <-. split_and!; try done. apply chain_head in Ho. rewrite Ho.
  destruct Hsub; simpl; split; done.
Qed.

(** The subtags from [p] on; their parent has no text of its own. *)
Lemma toxml_list h : forall fuel ts K p q count o, (exists tq, h !! q = Some tq /\ x_txt tq = []) -> tags h q K ->
  chain x_ordered h (Some p) (k_loc <$> K) -> Forall2 (fun k u => rep h (k_loc k) u) K ts -> Forall valid ts ->
  (list_sum (map weight ts) <= fuel)%nat ->
  exists o', switch_xml_toxml_r fuel h p 0 (S count) false o = Ret (o', count) /\ room o' 1 /\
    o_dst o' = o_dst o ++ (if last_is GT o then [10] else []) ++ concat (map (fun u => print_tree u (S count)) ts).
Proof.
  induction fuel as [|fuel IH]; intros ts K p q count o (tq & Hq & Eq) Htg Hc Hr Hv Hf.
  { destruct Hr as [|k u K ts]; [by apply chain_head in Hc|]. destruct u. cbn [map list_sum fold_right weight] in Hf. simpl in Hf. lia. }
  destruct Hr as [|k u K ts Hu Hr]; [by apply chain_head in Hc|]. destruct u as [name attrs txt subs].
  destruct (rep_inv _ _ _ _ _ _ Hu) as (t & Ks & Ht & En & Ea & Ex & Hch & Hsub & Ho & Hnone).
  cbn [fmap list_fmap chain] in Hc. destruct Hc as [E (v & Hv' & Hc)]. injection E as ->. rewrite Ht in Hv'. injection Hv' as <-.
  apply Forall_cons in Htg as [(t' & Ht' & Hfx) Htg]. rewrite Ht in Ht'. injection Ht' as <-. injection Hfx as _ _ Epar.
  apply Forall_cons in Hv as [Hvu Hv]. cbn [map] in Hf. simpl in Hf.
  cbn [switch_xml_toxml_r]. rewrite Ht. cbn [or_ub rbind]. rewrite Epar, Hq. cbn [or_ub rbind]. rewrite Eq, drop_nil, ampencode_nil.
  cbn [rbind]. rewrite <- En, <- Ea, <- Ex in Hvu.
  destruct (print_tag_spec (fun c => switch_xml_toxml_r fuel h c 0 (S (S count)) false) t subs (S count) o) as (o1 & -> & R1 & D1);
    [done|done|..].
  { intros c o1 Ec El. rewrite Ec in Ho.
    destruct (IH subs Ks c (k_loc k) (S count) o1) as (o2 & E2 & R2 & D2); try done.
    - exists t. split; [done|]. inversion Hvu as [? ? ? ? _ _ _ _ Hinner _]; subst. apply Hinner. intros ->.
      by rewrite (proj2 Hnone) in Ec.
    - apply (ch_tags _ _ _ Hch).
    - inversion Hvu; by subst.
    - lia.
    - exists o2. split_and!; try done. by rewrite D2, El. }
  cbn [rbind]. rewrite Ex in *. rewrite Ea, En in D1. destruct ts as [|u' ts].
  - inversion Hr; subst. cbn [fmap list_fmap] in Hc. simpl in Hc. rewrite Hc. rewrite drop_nil, ampencode_nil. cbn [rbind].
    exists o1. split; [done|]. split; [done|]. rewrite D1. cbn [map concat]. by rewrite app_nil_r.
  - pose proof (chain_head _ _ _ _ Hc) as Eh. inversion Hr as [|k' ? K' ? Hk' HK']; subst. cbn [fmap list_fmap head] in Eh. rewrite Eh in *.
    change (Z.of_nat (Nat.min (length (@nil Z)) (Z.to_nat (x_off t)))) with 0.
    destruct (IH (u' :: ts) (k' :: K') (k_loc k') q count o1) as (o2 & -> & R2 & D2); try done; [by exists tq|simpl in *; lia|].
    exists o2. split; [done|]. split; [done|]. rewrite D2, D1.
    assert (El : last_is GT o1 = false).
    { destruct (print_tree_last (Tree (x_name t) (x_attr t) (x_txt t) subs) (S count)) as [d Ed]. rewrite Ed, !app_assoc in D1.
      by rewrite (last_is_snoc _ 10 o1 GT D1). }
    rewrite El. cbn [map concat]. by flat_app.
Qed.

(** The whole document. *)
Lemma toxml_root h fuel p t o : rep h p t -> valid t -> (weight t <= fuel)%nat ->
  exists o', switch_xml_toxml_r fuel h p 0 0 true o = Ret (o', 0%nat) /\ room o' 1 /\
    o_dst o' = o_dst o ++ (if last_is GT o then [10] else []) ++ print_tree t 0.
Proof.
  intros Hu Hv Hf. destruct t as [name attrs txt subs].
  destruct (rep_inv _ _ _ _ _ _ Hu) as (t & Ks & Ht & En & Ea & Ex & Hch & Hsub & Ho & Hnone).
  rewrite <- En, <- Ea, <- Ex in *. destruct fuel as [|fuel]; [simpl in Hf; lia|]. cbn [switch_xml_toxml_r]. rewrite Ht.
  cbn [or_ub rbind]. rewrite drop_nil, ampencode_nil. cbn [rbind].
  destruct (print_tag_spec (fun c => switch_xml_toxml_r fuel h c 0 1 false) t subs 0 o) as (o1 & -> & R1 & D1); [done|done|..].
  { intros c o1 Ec El. rewrite Ec in Ho. destruct (toxml_list h fuel subs Ks c p 0 o1) as (o2 & E2 & R2 & D2); try done.
    - exists t. split; [done|]. inversion Hv as [? ? ? ? _ _ _ _ Hinner _]; subst. apply Hinner. intros ->.
      by rewrite (proj2 Hnone) in Ec.
    - apply (ch_tags _ _ _ Hch).
    - inversion Hv; by subst.
    - simpl in Hf. lia.
    - exists o2. split_and!; try done. by rewrite D2, El. }
  cbn [rbind]. rewrite drop_nil, ampencode_nil. by exists o1.
Qed.

(** [switch_xml_toxml] never leaves its buffer, however often that has to
    grow, and writes a document tag by tag: for every tree of tags in the heap
    whose texts are in tags without subtags, the result is the header and the
    tags with their attributes, indented by their depth. *)
Lemma toxml_prints d p t header fuel : ps_named d = true -> ps_pi d = [] -> rep (ps_heap d) p t -> valid t ->
  (weight t <= fuel)%nat -> switch_xml_toxml fuel d (Some p) header = Ret ((if header then HEADER else []) ++ print_tree t 0).
Proof.
  intros Hd Hp Hu Hv Hf. unfold switch_xml_toxml, switch_xml_toxml_buf. cbn [repeat].
  assert (H0 : (if header then print HEADER (mk_out [] SWITCH_XML_BUFSIZE) else Ret (mk_out [] SWITCH_XML_BUFSIZE)) =
    Ret (mk_out (if header then HEADER else []) SWITCH_XML_BUFSIZE)) by (by destruct header).
  rewrite H0, Hd, Hp. cbn [rbind negb andb].
  assert (Htag : exists tg, ps_heap d !! p = Some tg) by (inversion Hu; by eexists). destruct Htag as [tg Htg]. rewrite Htg.
  cbn [or_ub rbind]. replace (match x_parent tg with Some _ => [] | None => pi_list [] end) with (@nil (list Z * (list Z * bool)))
    by (by destruct (x_parent tg)).
  cbn [rbind print_pi]. destruct (toxml_root (ps_heap d) fuel p t (mk_out (if header then HEADER else []) SWITCH_XML_BUFSIZE))
    as (o' & -> & _ & D); try done. cbn [rbind print_pi]. rewrite D. by destruct header.
Qed.
