(* ===== verification/XmlRound.v ===== *)
(** * XmlRound: documents that are written and read again, src/switch_xml.c

    What [switch_xml_parse_str] makes of the text that [switch_xml_toxml] wrote. *)
From Stdlib Require Import ZArith Lia.
From stdpp Require Import base numbers option list sorting functions gmap.
From S2P Require Import Prelude Utf8 XmlText XmlTree XmlCut XmlParse XmlPrint.

Local Open Scope Z_scope.

(** ** Scanning *)
Lemma span_stop p a c r : forallb p a = true -> p c = false -> span p (a ++ c :: r) = (a, c :: r).
Proof.
  intros Ha Hc. induction a as [|x a IH]; cbn [app span].
  - by rewrite Hc.
  - cbn [forallb] in Ha. apply andb_prop in Ha as [Hx Ha]. by rewrite Hx, IH.
Qed.

Lemma skip_stop p a c r : forallb p a = true -> p c = false -> skip p (a ++ c :: r) = c :: r.
Proof. intros Ha Hc. unfold skip. by rewrite span_stop. Qed.

Lemma forallb_imp {X} (p q : X -> bool) l : (forall x, p x = true -> q x = true) -> forallb p l = true -> forallb q l = true.
Proof. intros H. rewrite !forallb_forall. auto. Qed.

Ltac byte_cases := unfold attr_char, name_char, is_space, any_of, SWITCH_XML_WS, SLASH, GT in *; cbn [app existsb] in *; intros;
  repeat match goal with
  | H : _ && _ = true |- _ => apply andb_prop in H as [? ?]
  | H : negb _ = true |- _ => apply negb_true_iff in H
  | H : _ || _ = false |- _ => apply orb_false_iff in H as [? ?]
  end;
  repeat match goal with |- context [?x =? ?y] => destruct (Z.eqb_spec x y) end; subst; try done; try lia.

Lemma attr_char_stops c : attr_char c = true -> negb (any_of (SWITCH_XML_WS ++ [61; SLASH; GT]) c) = true.
Proof. byte_cases. Qed.
Lemma attr_char_space c : attr_char c = true -> is_space c = false.
Proof. byte_cases. Qed.
Lemma name_char_open c : name_char c = true -> negb (any_of (SWITCH_XML_WS ++ [SLASH; GT]) c) = true.
Proof. unfold name_char. by intros [_ H]%andb_prop. Qed.
Lemma name_char_close c : name_char c = true -> negb (any_of (SWITCH_XML_WS ++ [GT]) c) = true.
Proof. byte_cases. Qed.

(** The bytes of an encoded text: no less-than sign, and in an attribute no
    quotation mark. *)
Lemma amp_text_bytes (P : Z -> Prop) a chs : xml_text chs -> P AMP -> P SEMI -> P 35 -> P 120 ->
  (forall v, 0 <= v < 16 -> P (hex_char v)) -> Forall P (lt_name ++ gt_name ++ amp_amp ++ quot_name) ->
  (forall c, 0 < c < 128 -> c <> 60 -> (a = true -> c <> 34) -> P c) -> Forall P (amp_text a chs).
Proof.
  intros Hx HA HS H35 H120 Hhex Hnames Hplain.
  rewrite !Forall_app in Hnames. destruct Hnames as (Hlt & Hgt & Hamp & Hquot).
  assert (Hname : forall l, Forall P l -> Forall P (amp_name l)).
  { intros l Hl. unfold amp_name. constructor; [done|]. apply Forall_app. split; [done|by constructor]. }
  assert (Hdig : forall n v, 0 <= v -> Forall P (hex_digits n v)).
  { induction n as [|n IH]; intros v Hv; cbn [hex_digits]; [done|]. destruct (Z.ltb_spec v 16).
    - constructor; [by apply Hhex|done].
    - apply Forall_app. split; [apply IH, Z.div_pos; lia|]. constructor; [|done]. apply Hhex. apply Z.mod_pos_bound. lia. }
  assert (Href : forall v, 0 <= v -> Forall P (amp_ref v)).
  { intros v Hv. unfold amp_ref, hex_number. rewrite !Forall_app. split; [by repeat constructor|]. split; [by apply Hdig|by constructor]. }
  assert (Hone : forall c, 0 < c < 128 -> c <> 60 -> (a = true -> c <> 34) -> Forall P [c]) by (intros; constructor; auto).
  induction Hx as [|ch chs Hch _ IH]; [done|]. unfold amp_text. cbn [map concat]. apply Forall_app. split; [|done].
  unfold amp_spec. destruct (Z.eqb_spec ch 38); [by apply Hname|]. destruct (Z.eqb_spec ch 60); [by apply Hname|].
  destruct (Z.eqb_spec ch 62); [by apply Hname|].
  destruct (Z.eqb_spec ch 34); [destruct a; [by apply Hname|by apply Hone]|].
  destruct (Z.eqb_spec ch 10); [destruct a; [by apply Href|by apply Hone]|].
  destruct (Z.eqb_spec ch 9); [destruct a; [by apply Href|by apply Hone]|].
  destruct (Z.eqb_spec ch 13); [by apply Href|]. destruct (Z.ltb_spec ch 128); [apply Hone; auto; lia|apply Href; lia].
Qed.

Lemma hex_char_range v : 0 <= v < 16 -> 48 <= hex_char v <= 70.
Proof. unfold hex_char. intros. cases; lia. Qed.

Lemma amp_text_no_lt a chs : xml_text chs -> forallb (fun c => negb (c =? 60)) (amp_text a chs) = true.
Proof.
  intros Hx. apply forallb_forall. intros c Hc%list_elem_of_In.
  assert (H : Forall (fun c => c <> 60) (amp_text a chs)).
  { apply amp_text_bytes; try done; [|by repeat constructor]. intros v Hv. pose proof (hex_char_range v Hv). unfold hex_char in *. cases; lia. }
  rewrite Forall_forall in H. specialize (H c Hc). by rewrite (proj2 (Z.eqb_neq c 60)).
Qed.
Lemma amp_text_no_quote chs : xml_text chs -> forallb (fun c => negb (c =? 34)) (amp_text true chs) = true.
Proof.
  intros Hx. apply forallb_forall. intros c Hc%list_elem_of_In.
  assert (H : Forall (fun c => c <> 34) (amp_text true chs)).
  { apply amp_text_bytes; try done; [|by repeat constructor|]; [|intros c' _ _ Hq; by apply Hq].
    intros v Hv. pose proof (hex_char_range v Hv). lia. }
  rewrite Forall_forall in H. specialize (H c Hc). by rewrite (proj2 (Z.eqb_neq c 34)).
Qed.

Lemma decode_enc a chs : xml_text chs -> no_markup chs = true -> (a = true -> no_feeds chs = true) ->
  decode_text (decode_mode a) (enc a (encode chs)) = Ret (encode chs).
Proof. intros Hx Hn Hf. rewrite enc_text by done. unfold decode_text. by rewrite decode_amp. Qed.

(** An attribute, at its name. *)
Lemma scan_attr_spec av rest : valid_attr av ->
  scan_attr (drop 1 (print_attr av) ++ rest) = Ret (inl (fst av, snd av, skip is_space rest)).
Proof.
  destruct av as [an v]. intros (Hc & chs & Ev & Hchs & Hm & Hfd). cbn [fst snd] in *. subst v.
  assert (Hx : xml_text chs) by (apply (Forall_impl _ _ _ Hchs); lia).
  unfold scan_attr, print_attr. cbn [fst snd drop]. change (default [] (Some (encode chs))) with (encode chs). rewrite drop_0. flat_app.
  rewrite span_stop; [|by apply (forallb_imp attr_char _ _ attr_char_stops)|done].
  change (61 =? 61) with true. cbn [orb]. cbv iota.
  assert (Es : skip (any_of (SWITCH_XML_WS ++ [61])) (34 :: enc true (encode chs) ++ 34 :: rest) = 34 :: enc true (encode chs) ++ 34 :: rest) by done.
  rewrite Es. unfold scan_value. change (34 =? 34) with true. cbn [orb]. cbv iota.
  rewrite enc_text, span_stop by (try done; by apply amp_text_no_quote). rewrite <- enc_text by done.
  change 32 with (decode_mode true). by rewrite decode_enc.
Qed.

(** The blank before an attribute is skipped. *)
Lemma skip_attr av rest : valid_attr av -> skip is_space (print_attr av ++ rest) = drop 1 (print_attr av) ++ rest.
Proof.
  intros [Hc _]. unfold print_attr. cbn [app drop]. rewrite drop_0. unfold skip. cbn [span]. change (is_space 32) with true. cbv iota.
  assert (H : forall s, match s with c :: _ => is_space c = false | [] => True end -> span is_space s = ([], s)).
  { intros [|c s] Hs; [done|]. cbn [span]. by rewrite Hs. }
  rewrite H; [done|]. destruct (fst av) as [|c an]; [done|]. cbn [app]. cbn [forallb] in Hc. apply andb_prop in Hc as [Hc _].
  by apply attr_char_space.
Qed.

Lemma scan_attrs_spec attrs r : Forall valid_attr attrs -> forall acc fuel, (length attrs <= fuel)%nat ->
  scan_attrs fuel (skip is_space (concat (map print_attr attrs) ++ GT :: r)) acc = Ret (inl (acc ++ attrs, GT :: r)).
Proof.
  induction 1 as [|av attrs Hav _ IH]; intros acc fuel Hf.
  - rewrite app_nil_r. cbn [map concat app]. by destruct fuel.
  - destruct fuel as [|fuel]; [simpl in Hf; lia|]. cbn [map concat]. rewrite <- app_assoc, skip_attr by done. cbn [scan_attrs].
    assert (Et : tag_ends (drop 1 (print_attr av) ++ concat (map print_attr attrs) ++ GT :: r) = false).
    { destruct Hav as [Hc _]. unfold print_attr. cbn [drop]. rewrite drop_0. destruct (fst av) as [|c an]; [done|]. cbn [app tag_ends].
      cbn [forallb] in Hc. apply andb_prop in Hc as [Hc _]. apply attr_char_stops in Hc. unfold any_of in Hc.
      apply negb_true_iff in Hc. rewrite existsb_app in Hc. apply orb_false_iff in Hc as [_ Hc]. cbn [existsb] in Hc.
      apply orb_false_iff in Hc as [_ Hc]. by rewrite orb_false_r in Hc. }
    rewrite Et, scan_attr_spec by done. cbn [rbind]. rewrite IH by (simpl in Hf; lia). by rewrite <- app_assoc, <- surjective_pairing.
Qed.

Lemma scan_open e name attrs r : valid_name name -> Forall valid_attr attrs ->
  scan e (name ++ concat (map print_attr attrs) ++ GT :: r) = Ret (MOpen name attrs false, GT :: r).
Proof.
  intros [Hn Hs] Ha. destruct name as [|c name]; [done|]. cbn [app scan]. rewrite Hs. change (c :: name ++ ?x) with ((c :: name) ++ x).
  unfold scan_tag. assert (Hspan : span (fun c => negb (any_of (SWITCH_XML_WS ++ [SLASH; GT]) c))
      ((c :: name) ++ concat (map print_attr attrs) ++ GT :: r) = (c :: name, concat (map print_attr attrs) ++ GT :: r)).
  { destruct attrs as [|av attrs]; cbn [map concat app];
      (apply (span_stop _ (c :: name)); [by apply (forallb_imp name_char _ _ name_char_open)|done]). }
  rewrite Hspan, scan_attrs_spec.
  - cbn [rbind app]. done.
  - done.
  - rewrite length_app. assert (length attrs <= length (concat (map print_attr attrs)))%nat; [|lia].
    clear. induction attrs as [|av attrs IH]; [done|]. cbn [map concat]. rewrite length_app. simpl. lia.
Qed.

Lemma scan_close_spec e name r : valid_name name -> scan e (SLASH :: name ++ GT :: r) = Ret (MClose name, GT :: r).
Proof.
  intros [Hn _]. cbn [scan]. change (name_start SLASH) with false. change (SLASH =? SLASH) with true. cbv iota. unfold scan_close.
  by rewrite span_stop by (try done; by apply (forallb_imp name_char _ _ name_char_close)).
Qed.

(** ** The heap of the parser *)
Record node := mk_node {
  nd_name : list Z;
  nd_attr : list attribute;
  nd_txt : list Z;
  nd_kids : list kid;
  nd_parent : option positive
}.
Definition kids_of (N : gmap positive node) (p : positive) : list kid := default [] (nd_kids <$> N !! p).
Definition tag_data (t : tag) := (x_name t, x_attr t, x_txt t, x_parent t).
Definition node_data (n : node) := (nd_name n, nd_attr n, nd_txt n, nd_parent n).

Record holds (h : heap) (N : gmap positive node) : Prop := {
  hd_data p : tag_data <$> h !! p = node_data <$> N !! p;
  hd_forest : forest h (kids_of N);
  hd_offs p n : N !! p = Some n -> Forall (fun k => k_off k <= zlen (nd_txt n)) (nd_kids n)
}.

Lemma holds_lookup h N p n : holds h N -> N !! p = Some n ->
  exists t, h !! p = Some t /\ x_name t = nd_name n /\ x_txt t = nd_txt n /\ x_parent t = nd_parent n /\ children h p (nd_kids n).
Proof.
  intros H Hn. pose proof (hd_data _ _ H p) as E. rewrite Hn in E. destruct (h !! p) as [t|] eqn:Ht; [|done]. exists t.
  injection E as E1 E2 E3 E4. split_and!; try done. pose proof (hd_forest _ _ H p ltac:(by eexists)) as Hc.
  unfold kids_of in Hc. by rewrite Hn in Hc.
Qed.

Lemma holds_none h N p : holds h N -> N !! p = None -> h !! p = None.
Proof. intros H Hn. pose proof (hd_data _ _ H p) as E. rewrite Hn in E. by destruct (h !! p). Qed.

Lemma insert_kid_last k K : Forall (fun a => k_off a <= k_off k) K -> insert_kid k K = K ++ [k].
Proof. induction 1 as [|a K Ha _ IH]; [done|]. cbn [insert_kid app]. by rewrite (proj2 (Z.leb_le _ _)), IH. Qed.

(** A change of a tag that leaves its links. *)
Lemma forest_alter h kids f x : (forall t, links (f t) = links t) -> (forall t, x_child (f t) = x_child t) ->
  forest h kids -> forest (alter f x h) kids.
Proof.
  intros E1 E2 Hfo d Hd. apply (children_keep h).
  - apply Hfo. destruct (decide (d = x)) as [->|Hn]; [|by rewrite lookup_alter_ne in Hd].
    rewrite lookup_alter_eq in Hd. by apply fmap_is_Some in Hd.
  - intros y _. by rewrite part_same.
  - by rewrite part_same.
Qed.

Definition add_kid (n : node) (k : kid) : node := mk_node (nd_name n) (nd_attr n) (nd_txt n) (nd_kids n ++ [k]) (nd_parent n).
Definition add_txt (n : node) (s : list Z) : node := mk_node (nd_name n) (nd_attr n) (nd_txt n ++ s) (nd_kids n) (nd_parent n).
Definition node_added (N : gmap positive node) (p c : positive) (n : node) (name : list Z) (attrs : list attribute) :=
  <[c := mk_node name attrs [] [] (Some p)]> (<[p := add_kid n (mk_kid c name (zlen (nd_txt n)))]> N).

(** A new tag, below the current one. *)
Lemma add_child_holds h N p c n name attrs : holds h N -> N !! p = Some n -> N !! c = None ->
  exists h2, switch_xml_add_child (S (size h)) c (Some p) name (zlen (nd_txt n)) h = Done (Some c) h2 /\
    is_Some (h2 !! c) /\ holds (alter (set x_attr (fun _ => attrs)) c h2) (node_added N p c n name attrs).
Proof.
  intros H Hp Hc. destruct (holds_lookup h N p n H Hp) as (t & Ht & E1 & E2 & E3 & Hch).
  assert (Hpc : p <> c) by congruence. pose proof (holds_none h N c H Hc) as Hhc.
  set (k := mk_kid c name (zlen (nd_txt n))). set (t0 := mk_tag name [] [] (zlen (nd_txt n)) None None None None (Some p)).
  destruct (forest_new h (kids_of N) c t0) as [Hfo Hdet]; [apply H|done|done|unfold kids_of; by rewrite Hc|..].
  { intros d Hd Hin. apply (kids_in h (kids_of N) d c) in Hin as [u Hu]; [congruence|apply H|done]. }
  assert (Ek : kids_of N p = nd_kids n) by (unfold kids_of; by rewrite Hp).
  destruct (insert_refines (S (size h)) (<[c := t0]> h) (kids_of N) c t0 p (zlen (nd_txt n))) as (h2 & E & GC & GP & GF).
  { done. } { by rewrite lookup_insert_eq. } { done. } { rewrite lookup_insert_ne by done. by eexists. } { done. }
  { intros a R Ea. left. pose proof (hd_offs _ _ H p n Hp) as Ho. rewrite <- Ek, Ea in Ho. by apply Forall_cons in Ho as [? _]. }
  { rewrite Ek. pose proof (children_size _ _ _ Hch). lia. }
  exists h2. split; [unfold switch_xml_add_child, cbind; fold t0; by rewrite E|].
  assert (Hc2 : is_Some (h2 !! c)) by (apply (agrees_some content (<[c := t0]> h)); [done|by rewrite lookup_insert_eq]).
  split; [done|]. rewrite Ek in GF. cbn [x_name t0] in GF. fold k in GF.
  rewrite insert_kid_last in GF by apply (hd_offs _ _ H p n Hp).
  assert (Hkids : forall q, kids_of (node_added N p c n name attrs) q = (<[p := nd_kids n ++ [k]]> (kids_of N)) q).
  { intros q. unfold kids_of, node_added. destruct (decide (q = c)) as [->|Hqc].
    - rewrite lookup_insert_eq, fn_lookup_insert_ne by done. by rewrite Hc.
    - rewrite lookup_insert_ne by done. destruct (decide (q = p)) as [->|Hqp].
      + by rewrite lookup_insert_eq, fn_lookup_insert.
      + by rewrite lookup_insert_ne, fn_lookup_insert_ne. }
  constructor.
  - intros q. destruct (decide (q = c)) as [->|Hqc].
    + unfold node_added. rewrite lookup_insert_eq, lookup_alter_eq. destruct Hc2 as [u Hu]. rewrite Hu. cbn [fmap option_fmap option_map].
      pose proof (GC c) as Ec. rewrite lookup_insert_eq, Hu in Ec. injection Ec as F1 F2 F3.
      assert (Hpar : x_parent u = Some p).
      { pose proof (GF p) as Hch2. rewrite fn_lookup_insert in Hch2. specialize (Hch2 ltac:(apply (agrees_some content (<[c := t0]> h)); [done|by rewrite lookup_insert_ne by done; eexists])).
        pose proof (ch_tags _ _ _ Hch2) as Htg. unfold tags in Htg. rewrite Forall_forall in Htg.
        destruct (Htg k) as (u' & Hu' & Hfx); [set_solver|]. cbn [k k_loc] in Hu'. rewrite Hu in Hu'. injection Hu' as <-.
        unfold fixed in Hfx. congruence. }
      unfold tag_data, node_data. cbn. congruence.
    + rewrite lookup_alter_ne by done. pose proof (GC q) as Ec. pose proof (GP q Hqc) as Ep. rewrite lookup_insert_ne in Ec, Ep by done.
      assert (Eq : tag_data <$> h2 !! q = tag_data <$> h !! q).
      { unfold content, tag_data in *. destruct (h !! q), (h2 !! q); simpl in *; try done. congruence. }
      rewrite Eq, (hd_data _ _ H). unfold node_added. rewrite lookup_insert_ne by done.
      destruct (decide (q = p)) as [->|Hqp]; [by rewrite lookup_insert_eq, Hp|by rewrite lookup_insert_ne].
  - apply (forest_ext _ _ _ Hkids). by apply forest_alter.
  - intros q m. unfold node_added. destruct (decide (q = c)) as [->|Hqc]; [rewrite lookup_insert_eq; by intros [= <-]|].
    rewrite lookup_insert_ne by done. destruct (decide (q = p)) as [->|Hqp]; [|rewrite lookup_insert_ne by done; apply H].
    rewrite lookup_insert_eq. intros [= <-]. cbn [add_kid nd_kids nd_txt]. apply Forall_app. split; [by apply (hd_offs _ _ H p)|].
    by constructor.
Qed.

(** ** The actions of the parser *)

(** Inside the document: [p] is the current tag, [c] the next block. *)
Record inside (st : parser) (N : gmap positive node) (p c : positive) : Prop := {
  in_holds : holds (ps_heap st) N;
  in_cur : ps_cur st = Some p;
  in_named : ps_named st = true;
  in_new : ps_new st = c;
  in_fresh q : is_Some (N !! q) -> (q < c)%positive
}.

Lemma open_inside st N p c n name attrs : inside st N p c -> N !! p = Some n ->
  exists st', switch_xml_open_tag st name attrs = Ret st' /\ inside st' (node_added N p c n name attrs) c (Pos.succ c).
Proof.
  intros [H1 H2 H3 H4 H5] Hp.
  assert (Hc : N !! c = None) by (destruct (N !! c) eqn:E; [specialize (H5 c ltac:(by eexists)); lia|done]).
  destruct (holds_lookup _ _ _ _ H1 Hp) as (t & Ht & E1 & E2 & E3 & _).
  destruct (add_child_holds _ N p c n name attrs H1 Hp Hc) as (h2 & E & Hs & Hh).
  unfold switch_xml_open_tag. rewrite H2, H3. unfold on_heap at 1. rewrite (done_rd _ t) by done. cbn [rbind].
  unfold on_heap at 1. unfold heap_bound. cbn [ps_heap set ps_new]. rewrite H4, E2. change (ps_heap (st <| ps_heap := ps_heap st |>)) with (ps_heap st).
  rewrite E. cbn [rbind or_ub]. unfold on_heap. cbn [ps_heap set]. rewrite done_wr by done. cbn [rbind]. eexists. split; [done|].
  constructor; cbn; try done. intros q. unfold node_added. destruct (decide (q = c)) as [->|Hqc]; [lia|].
  rewrite lookup_insert_ne by done. destruct (decide (q = p)) as [->|Hqp].
  - intros _. specialize (H5 p ltac:(by eexists)). lia.
  - rewrite lookup_insert_ne by done. intros Hq%H5. lia.
Qed.

Lemma text_inside st N p c n s s' t : inside st N p c -> N !! p = Some n -> decode_text t s = Ret s' ->
  exists st', switch_xml_char_content st s t = Ret st' /\ inside st' (<[p := add_txt n s']> N) p c.
Proof.
  intros [H1 H2 H3 H4 H5] Hp Hd. unfold switch_xml_char_content. rewrite H2, H3. cbn [negb orb].
  destruct (bool_decide (s = [])) eqn:Es.
  - apply bool_decide_eq_true in Es. subst s. assert (s' = []) as -> by (unfold decode_text, switch_xml_decode in Hd; cbn in Hd; destruct (t =? 42); by injection Hd).
    exists st. split; [done|]. rewrite insert_id; [done|]. rewrite Hp. unfold add_txt. rewrite app_nil_r. by destruct n.
  - rewrite Hd. cbn [rbind]. destruct (holds_lookup _ _ _ _ H1 Hp) as (t0 & Ht & E1 & E2 & E3 & Hch).
    unfold on_heap. rewrite done_wr by (by eexists). cbn [rbind]. eexists. split; [done|]. constructor; cbn; try done.
    + constructor.
      * intros q. destruct (decide (q = p)) as [->|Hqp].
        -- rewrite lookup_alter_eq, lookup_insert_eq, Ht. pose proof (hd_data _ _ H1 p) as E. rewrite Ht, Hp in E.
           unfold tag_data, node_data in *. cbn in *. congruence.
        -- rewrite lookup_alter_ne, lookup_insert_ne by done. apply H1.
      * apply (forest_ext _ (kids_of N)); [|by apply forest_alter, H1]. intros q. unfold kids_of.
        destruct (decide (q = p)) as [->|Hqp]; [by rewrite lookup_insert_eq, Hp|by rewrite lookup_insert_ne].
      * intros q m. destruct (decide (q = p)) as [->|Hqp]; [|rewrite lookup_insert_ne by done; apply H1].
        rewrite lookup_insert_eq. intros [= <-]. cbn [add_txt nd_kids nd_txt]. rewrite zlen_app. pose proof (zlen_nonneg s').
        apply (Forall_impl _ _ _ (hd_offs _ _ H1 p n Hp)). lia.
    + intros q. destruct (decide (q = p)) as [->|Hqp]; [intros _; apply H5; by eexists|rewrite lookup_insert_ne by done; apply H5].
Qed.

Lemma close_inside st N p c n q : inside st N p c -> N !! p = Some n -> nd_parent n = Some q ->
  exists st', switch_xml_close_tag st (nd_name n) = Some st' /\ inside st' N q c.
Proof.
  intros [H1 H2 H3 H4 H5] Hp Hq. destruct (holds_lookup _ _ _ _ H1 Hp) as (t & Ht & E1 & E2 & E3 & _).
  unfold switch_xml_close_tag. rewrite H2. cbn [mbind option_bind]. rewrite Ht. cbn [mbind option_bind]. rewrite H3, E1.
  rewrite bool_decide_true by done. cbn [andb]. eexists. split; [done|]. constructor; cbn; try done. by rewrite E3.
Qed.

(** ** Trees in the heap of the parser *)

(** What is read again: between subtags there are newlines and blanks now. *)
Definition spaces (count k : nat) : list Z := concat (repeat (10 :: indent (S count)) k) ++ 10 :: indent count.
Fixpoint reread (t : tree) (count : nat) : tree :=
  match t with
  | Tree name attrs txt subs =>
    Tree name attrs (match subs with [] => txt | _ => spaces count (length subs) end) (map (fun u => reread u (S count)) subs)
  end.

(** The tree at [p], all of whose tags have addresses from [lo] to below [hi]. *)
Inductive repN (N : gmap positive node) (lo hi : positive) : positive -> tree -> Prop :=
| RepN p n ts : N !! p = Some n -> (lo <= p < hi)%positive -> Forall2 (fun k u => repN N lo hi (k_loc k) u) (nd_kids n) ts ->
    repN N lo hi p (Tree (nd_name n) (nd_attr n) (nd_txt n) ts).

Lemma repN_frame N N' lo hi lo' hi' t : (forall q, (lo <= q < hi)%positive -> N' !! q = N !! q) -> (lo' <= lo)%positive ->
  (hi <= hi')%positive -> forall p, repN N lo hi p t -> repN N' lo' hi' p t.
Proof.
  intros HN Hl Hh. induction t as [name attrs txt subs IH] using tree_induction. intros p H.
  inversion H as [p' n ts Hn Hr Hk]; subst. constructor; [by rewrite HN|lia|]. clear - IH Hk.
  induction Hk as [|k u K us Hu Hk IHk]; [done|]. apply Forall_cons in IH as [Hu' IH]. constructor; [by apply Hu'|by apply IHk].
Qed.

Lemma repN_rep h N lo hi t : holds h N -> forall p, repN N lo hi p t -> rep h p t.
Proof.
  intros H. induction t as [name attrs txt subs IH] using tree_induction. intros p Hr. inversion Hr as [p' n ts Hn Hb Hk]; subst.
  destruct (holds_lookup h N p n H Hn) as (tg & Ht & E1 & E2 & E3 & Hc). rewrite <- E1, <- E2.
  assert (E4 : x_attr tg = nd_attr n) by (pose proof (hd_data _ _ H p) as E; rewrite Ht, Hn in E; by injection E).
  rewrite <- E4. apply (Rep h p tg (nd_kids n)); [done|done|]. clear - IH Hk.
  induction Hk as [|k u K us Hu Hk IHk]; [done|]. apply Forall_cons in IH as [Hu' IH]. constructor; [by apply Hu'|by apply IHk].
Qed.

(** ** Reading what was written *)
Definition inner (t : tree) (count : nat) : list Z :=
  match t with
  | Tree name attrs txt subs =>
    name ++ concat (map print_attr attrs) ++ GT ::
    match subs with
    | [] => enc false txt
    | _ => 10 :: concat (map (fun u => print_tree u (S count)) subs) ++ indent count
    end ++ 60 :: SLASH :: name ++ [GT; 10]
  end.
Lemma print_inner t count : print_tree t count = indent count ++ 60 :: inner t count.
Proof. destruct t. cbn [print_tree inner]. by flat_app. Qed.

Lemma indent_blank k : Forall (fun c => c = 32) (indent k).
Proof. induction k as [|k IH]; [constructor|]. unfold indent. cbn [repeat concat]. by repeat constructor. Qed.

Lemma decode_spaces k : decode_text 38 (10 :: indent k) = Ret (10 :: indent k).
Proof.
  set (ws := 10 :: indent k). assert (Hw : Forall (fun c => c = 10 \/ c = 32) ws).
  { constructor; [by left|]. apply (Forall_impl _ _ _ (indent_blank k)). by right. }
  assert (E1 : encode ws = ws) by (clearbody ws; induction Hw as [|c ws [-> | ->] _ IH]; [done|rewrite encode_cons, IH; done..]).
  assert (E2 : amp_text false ws = ws).
  { clear E1. clearbody ws. induction Hw as [|c ws [-> | ->] _ IH]; [done|unfold amp_text in *; cbn [map concat]; rewrite IH; done..]. }
  pose proof (decode_amp false ws) as H. rewrite E1, E2 in H. change (decode_mode false) with 38 in H. unfold decode_text. rewrite H; [done|..|done].
  apply (Forall_impl _ _ _ Hw). lia.
Qed.

Lemma spaces_no_lt k : forallb (fun c => negb (c =? 60)) (10 :: indent k) = true.
Proof.
  cbn [forallb]. apply forallb_forall. intros c Hc%list_elem_of_In. pose proof (indent_blank k) as H.
  rewrite Forall_forall in H. by rewrite (H c Hc).
Qed.

(** Newline and blanks up to the next markup. *)
Lemma parse_spaces next k tail st N p c n : inside st N p c -> N !! p = Some n ->
  exists st', parse_text next (GT :: 10 :: indent k ++ 60 :: tail) st = next tail st' /\
    inside st' (<[p := add_txt n (10 :: indent k)]> N) p c.
Proof.
  intros Hin Hn. unfold parse_text. change (10 :: indent k ++ 60 :: tail) with ((10 :: indent k) ++ 60 :: tail).
  rewrite span_stop by (done || apply spaces_no_lt).
  destruct (text_inside st N p c n (10 :: indent k) (10 :: indent k) 38) as (st' & -> & H'); try done; [apply decode_spaces|].
  cbn [rbind]. by exists st'.
Qed.

(** A closing tag. *)
Lemma parse_close fuel e name k tail st N p c m n q : valid_name name -> inside st N p c -> N !! p = Some m -> nd_name m = name ->
  nd_parent m = Some q -> N !! q = Some n ->
  exists st', parse_markup (S fuel) e (SLASH :: name ++ [GT; 10] ++ indent k ++ 60 :: tail) st = parse_markup fuel e tail st' /\
    inside st' (<[q := add_txt n (10 :: indent k)]> N) q c.
Proof.
  intros Hv Hin Hm <- Hq Hn. destruct (close_inside st N p c m q Hin Hm Hq) as (st1 & E1 & H1). cbn [parse_markup].
  change (name_start SLASH) with false. cbn [andb app]. rewrite scan_close_spec by done. cbn [rbind apply_markup]. rewrite E1.
  cbn [rbind]. by apply (parse_spaces _ _ _ _ N q c n).
Qed.

(** What the reading of a subtag comes to. *)
Definition reads (t : tree) : Prop := forall count fuel e k tail st N p c n, valid t -> inside st N p c -> N !! p = Some n ->
  exists st' N' c', parse_markup (2 * weight t + fuel) e (inner t count ++ indent k ++ 60 :: tail) st = parse_markup fuel e tail st' /\
    inside st' N' p c' /\ (c < c')%positive /\
    (exists name, N' !! p = Some (add_txt (add_kid n (mk_kid c name (zlen (nd_txt n)))) (10 :: indent k))) /\
    (forall q, q <> p -> (q < c)%positive -> N' !! q = N !! q) /\ repN N' c c' c (reread t count).

(** Subtags one after the other, from behind the first less-than sign. *)
Fixpoint row (count : nat) (us : list tree) (tail : list Z) : list Z :=
  match us with
  | [] => tail
  | u :: us => inner u (S count) ++ indent (match us with [] => count | _ => S count end) ++ 60 :: row count us tail
  end.
Lemma row_print count us tail : us <> [] ->
  concat (map (fun u => print_tree u (S count)) us) ++ indent count ++ 60 :: tail = indent (S count) ++ 60 :: row count us tail.
Proof.
  induction us as [|u us IH]; [done|]. intros _. cbn [map concat row]. rewrite print_inner. flat_app.
  destruct us as [|u' us]; [by cbn [map concat app row]|]. by rewrite IH.
Qed.

Lemma pos_le_trans_lt (a b c q : positive) : (a < b)%positive -> (b <= c)%positive -> (q < a)%positive -> (q < c)%positive.
Proof. lia. Qed.

Lemma parse_row us : Forall reads us -> forall count fuel e tail st N p c n, Forall valid us -> inside st N p c -> N !! p = Some n ->
  exists st' N' c' Ks, parse_markup (2 * list_sum (map weight us) + fuel) e (row count us tail) st = parse_markup fuel e tail st' /\
    inside st' N' p c' /\ (c <= c')%positive /\
    N' !! p = Some (mk_node (nd_name n) (nd_attr n)
      (nd_txt n ++ match us with [] => [] | _ => spaces count (pred (length us)) end) (nd_kids n ++ Ks) (nd_parent n)) /\
    (forall q, q <> p -> (q < c)%positive -> N' !! q = N !! q) /\
    Forall2 (fun k u => repN N' c c' (k_loc k) (reread u (S count))) Ks us.
Proof.
  induction 1 as [|u us Hu Hus IH]; intros count fuel e tail st N p c n Hv Hin Hn.
  - exists st, N, c, []. cbn [row]. rewrite !app_nil_r. split_and!; first [done|lia|by destruct n].
  - apply Forall_cons in Hv as [Hvu Hv]. cbn [row map]. simpl list_sum.
    replace (2 * (weight u + list_sum (map weight us)) + fuel)%nat with (2 * weight u + (2 * list_sum (map weight us) + fuel))%nat by lia.
    destruct (Hu (S count) (2 * list_sum (map weight us) + fuel)%nat e (match us with [] => count | _ => S count end) (row count us tail) st N p c n Hvu Hin Hn)
      as (st1 & N1 & c1 & -> & I1 & L1 & (name & P1) & F1 & R1).
    destruct (IH count fuel e tail st1 N1 p c1 _ Hv I1 P1) as (st2 & N2 & c2 & Ks & E2 & I2 & L2 & P2 & F2 & R2).
    assert (Hpc : (p < c)%positive) by (apply (in_fresh _ _ _ _ Hin); by eexists).
    exists st2, N2, c2, (mk_kid c name (zlen (nd_txt n)) :: Ks). split; [done|]. split; [done|]. split; [lia|]. split; [|split].
    + rewrite P2. cbn [nd_name nd_attr nd_txt nd_kids nd_parent add_txt add_kid]. f_equal. f_equal.
      * rewrite <- app_assoc. f_equal. destruct us as [|u' us]; [by rewrite app_nil_r|]. cbn [length pred]. unfold spaces.
        cbn [repeat concat]. by flat_app.
      * by rewrite <- app_assoc.
    + intros q Hq Hqc. rewrite F2 by (done || lia). by apply F1.
    + constructor.
      * apply (repN_frame N1 N2 c c1); [|lia|lia|done]. intros q Hq. apply F2; [|lia]. intros ->. lia.
      * apply (Forall2_impl _ _ _ _ R2). intros k v Hk. apply (repN_frame N2 N2 c1 c2); [done|lia|lia|done].
Qed.

(** From the end of an opening tag to the closing one. *)
Lemma parse_content subs : Forall reads subs -> forall txt count fuel e tail st N p c name attrs par,
  (subs = [] -> valid_text txt) -> Forall valid subs -> inside st N p c -> N !! p = Some (mk_node name attrs [] [] par) ->
  exists st' N' c' Ks,
    parse_text (parse_markup (2 * list_sum (map weight subs) + fuel) e) (GT :: match subs with
      | [] => enc false txt
      | _ => 10 :: concat (map (fun u => print_tree u (S count)) subs) ++ indent count end ++ 60 :: tail) st = parse_markup fuel e tail st' /\
    inside st' N' p c' /\ (c <= c')%positive /\
    N' !! p = Some (mk_node name attrs (match subs with [] => txt | _ => spaces count (length subs) end) Ks par) /\
    (forall q, q <> p -> (q < c)%positive -> N' !! q = N !! q) /\
    Forall2 (fun k u => repN N' c c' (k_loc k) (reread u (S count))) Ks subs.
Proof.
  intros Hr txt count fuel e tail st N p c name attrs par Ht Hv Hin Hp. destruct subs as [|u us].
  - destruct (Ht eq_refl) as (chs & -> & Hx & Hm). unfold parse_text. rewrite enc_text by done.
    rewrite span_stop by (done || by apply amp_text_no_lt). rewrite <- enc_text by done.
    destruct (text_inside st N p c _ (enc false (encode chs)) (encode chs) 38 Hin Hp) as (st' & -> & I'); [by apply decode_enc|].
    cbn [rbind]. exists st', (<[p := mk_node name attrs (encode chs) [] par]> N), c, []. split; [done|]. split; [done|]. split; [lia|].
    split; [by rewrite lookup_insert_eq|]. split; [|done]. intros q Hq _. by rewrite lookup_insert_ne.
  - rewrite <- app_comm_cons, <- app_assoc, row_print by done.
    destruct (parse_spaces (parse_markup (2 * list_sum (map weight (u :: us)) + fuel) e) (S count) (row count (u :: us) tail) st N p c _ Hin Hp)
      as (st1 & E1 & I1).
    match type of I1 with inside _ (<[p := ?m]> N) _ _ => assert (Hn1 : <[p := m]> N !! p = Some m) by apply lookup_insert_eq end.
    destruct (parse_row (u :: us) Hr count fuel e tail st1 _ p c _ Hv I1 Hn1) as (st2 & N2 & c2 & Ks & E2 & I2 & L2 & P2 & F2 & R2).
    exists st2, N2, c2, Ks. split; [by rewrite <- E2, <- E1|]. split; [done|]. split; [done|]. split; [|split; [|done]].
    + rewrite P2. cbn [nd_name nd_attr nd_txt nd_kids nd_parent add_txt]. do 2 f_equal. cbn [length pred app]. unfold spaces.
      cbn [repeat concat]. by flat_app.
    + intros q Hq Hqc. rewrite F2 by done. by rewrite lookup_insert_ne.
Qed.

(** A subtag is read as it was written. *)
Lemma reads_all t : reads t.
Proof.
  induction t as [name attrs txt subs IH] using tree_induction. intros count fuel e k tail st N p c n Hv Hin Hn.
  inversion Hv as [? ? ? ? Hname Hnd Hattr Hleaf Hinner Hvs]; subst.
  assert (Hpc : (p < c)%positive) by (apply (in_fresh _ _ _ _ Hin); by eexists).
  cbn [inner weight]. replace (2 * S (list_sum (map weight subs)) + fuel)%nat with (S (2 * list_sum (map weight subs) + S fuel)) by lia.
  destruct (open_inside st N p c n name attrs Hin Hn) as (st1 & E1 & I1).
  assert (P1 : node_added N p c n name attrs !! c = Some (mk_node name attrs [] [] (Some p))) by apply lookup_insert_eq.
  destruct (parse_content subs IH txt count (S fuel) e (SLASH :: name ++ [GT; 10] ++ indent k ++ 60 :: tail) st1 _ c (Pos.succ c) name attrs (Some p)
    (fun E => proj1 (Hleaf E)) Hvs I1 P1) as (st2 & N2 & c2 & Ks & E2 & I2 & L2 & P2 & F2 & R2).
  assert (Hp2 : N2 !! p = Some (add_kid n (mk_kid c name (zlen (nd_txt n))))).
  { rewrite F2 by lia. unfold node_added. rewrite lookup_insert_ne by lia. apply lookup_insert_eq. }
  destruct (parse_close fuel e name k tail st2 N2 c c2 _ _ p Hname I2 P2 eq_refl eq_refl Hp2) as (st3 & E3 & I3).
  eexists st3, _, c2. split; [|split; [exact I3|]].
  - rewrite <- E3, <- E2. flat_app. cbn [parse_markup]. rewrite (in_cur _ _ _ _ Hin), bool_decide_false, andb_false_r by done.
    rewrite scan_open by done. cbn [rbind apply_markup]. rewrite E1. cbn [rbind]. done.
  - split; [lia|]. split; [exists name; apply lookup_insert_eq|]. split.
    + intros q Hq Hqc. rewrite lookup_insert_ne by done. rewrite F2 by lia. unfold node_added. by rewrite !lookup_insert_ne by lia.
    + cbn [reread].
      assert (P3 : (<[p := add_txt (add_kid n (mk_kid c name (zlen (nd_txt n)))) (10 :: indent k)]> N2) !! c =
        Some (mk_node name attrs (match subs with [] => txt | _ => spaces count (length subs) end) Ks (Some p)))
        by (by rewrite lookup_insert_ne by lia).
      refine (RepN _ c c2 c _ (map (fun u => reread u (S count)) subs) P3 _ _); [lia|]. cbn [nd_kids].
      apply Forall2_fmap_r. apply (Forall2_impl _ _ _ _ R2). intros kd u Hu.
      apply (repN_frame N2 _ (Pos.succ c) c2); [|lia|lia|done]. intros q Hq. by rewrite lookup_insert_ne by lia.
Qed.

(** ** The whole document *)
Lemma nonzero_enc a chs : xml_text chs -> no_markup chs = true -> Forall (fun c => c <> 0) (enc a (encode chs)).
Proof.
  intros Hx Hm. rewrite enc_text by done. apply amp_text_bytes; try done; [|by repeat constructor|lia].
  intros v Hv. pose proof (hex_char_range v Hv). lia.
Qed.

Lemma nonzero_attr av : valid_attr av -> Forall (fun c => c <> 0) (print_attr av).
Proof.
  intros (Hc & chs & Ev & Hchs & Hm & _). unfold print_attr. rewrite Ev.
  change (default [] (Some (encode chs))) with (encode chs).
  assert (Hx : xml_text chs) by (apply (Forall_impl _ _ _ Hchs); lia).
  constructor; [done|]. rewrite !Forall_app. split_and!; [|by repeat constructor|by apply nonzero_enc|by repeat constructor].
  apply Forall_forall. intros c Hin. rewrite forallb_forall in Hc. specialize (Hc c ltac:(by apply list_elem_of_In)).
  unfold attr_char in Hc. boolify. lia.
Qed.

Lemma nonzero_name n : forallb name_char n = true -> Forall (fun c => c <> 0) n.
Proof.
  intros Hn. apply Forall_forall. intros c Hin. rewrite forallb_forall in Hn. specialize (Hn c ltac:(by apply list_elem_of_In)).
  unfold name_char in Hn. boolify. lia.
Qed.

Lemma nonzero_indent k : Forall (fun c => c <> 0) (indent k).
Proof. apply (Forall_impl _ _ _ (indent_blank k)). by intros c ->. Qed.

Lemma nonzero_concat {X} (f : X -> list Z) l : Forall (fun x => Forall (fun c => c <> 0) (f x)) l ->
  Forall (fun c => c <> 0) (concat (map f l)).
Proof. induction 1 as [|x l Hx _ IH]; [done|]. cbn [map concat]. by apply Forall_app. Qed.

Lemma nonzero_tree t : forall count, valid t -> Forall (fun c => c <> 0) (print_tree t count).
Proof.
  induction t as [name attrs txt subs IH] using tree_induction. intros count Hv.
  inversion Hv as [? ? ? ? [Hname _] Hnd Hattr Hleaf Hinner Hvs]; subst. cbn [print_tree].
  rewrite !Forall_app. split_and!; try (by repeat constructor); try apply nonzero_indent; try (by apply nonzero_name).
  - apply nonzero_concat. apply (Forall_impl _ _ _ Hattr). apply nonzero_attr.
  - destruct subs as [|u us].
    + destruct (Hleaf eq_refl) as [(chs & -> & Hx & Hm) _]. by apply nonzero_enc.
    + constructor; [done|]. apply Forall_app. split; [|apply nonzero_indent]. apply nonzero_concat.
      apply Forall_forall. intros x Hx. rewrite Forall_forall in IH, Hvs. by apply IH, Hvs.
Qed.

(** Every tag takes two steps and more than two bytes. *)
Lemma weight_length t : forall count, (2 * weight t <= length (inner t count))%nat.
Proof.
  induction t as [name attrs txt subs IH] using tree_induction. intros count. cbn [weight inner].
  rewrite !length_app. cbn [length]. rewrite !length_app. cbn [length].
  assert (2 * list_sum (map weight subs) <= length (match subs with [] => enc false txt
    | _ => 10%Z :: concat (map (fun u => print_tree u (S count)) subs) ++ indent count end))%nat; [|rewrite ?length_app; simpl in *; lia].
  assert (H : (2 * list_sum (map weight subs) <= length (concat (map (fun u => print_tree u (S count)) subs)))%nat).
  { clear -IH. induction IH as [|u us Hu _ IHu]; [done|]. cbn [map concat]. rewrite length_app, print_inner, length_app. cbn [length].
    specialize (Hu (S count)). simpl list_sum. lia. }
  destruct subs as [|u us]; [simpl; lia|]. cbn [length]. rewrite length_app. lia.
Qed.

Lemma forest_single p t : x_child t = None -> forest {[p := t]} (fun _ => []).
Proof.
  intros Ec d [u Hu]. apply lookup_singleton_Some in Hu as [<- <-]. constructor; try constructor.
  - apply not_elem_of_nil.
  - exists t. by rewrite lookup_singleton_eq.
Qed.

(** The first tag gives the root its name. *)
Lemma open_root name attrs : exists st, switch_xml_open_tag (switch_xml_new None) name attrs = Ret st /\
  inside st {[ROOT := mk_node name attrs [] [] None]} ROOT 2.
Proof.
  unfold switch_xml_open_tag. cbn [switch_xml_new ps_cur ps_named]. rewrite bool_decide_false by (intros [? ?]; done).
  unfold on_heap at 1. cbn [ps_heap switch_xml_new]. rewrite done_wr by (by rewrite lookup_singleton_eq). cbn [rbind].
  unfold on_heap. cbn [ps_heap set]. rewrite done_wr by (by rewrite lookup_alter_eq, lookup_singleton_eq). cbn [rbind].
  eexists. split; [done|]. constructor; cbn [ps_heap ps_cur ps_named ps_new set]; try done.
  - rewrite !alter_singleton_eq. constructor.
    + intros q. destruct (decide (q = ROOT)) as [->|Hn]; [by rewrite !lookup_singleton_eq|by rewrite !lookup_singleton_ne].
    + apply (forest_ext _ (fun _ => [])); [|by apply forest_single]. intros q. unfold kids_of.
      destruct (decide (q = ROOT)) as [->|Hn]; [by rewrite lookup_singleton_eq|by rewrite lookup_singleton_ne].
    + intros q n [<- <-]%lookup_singleton_Some. constructor.
  - intros q [n Hq]. apply lookup_singleton_Some in Hq as [<- _]. done.
Qed.

Lemma finish_root fuel e name st N c m : valid_name name -> inside st N ROOT c -> N !! ROOT = Some m -> nd_name m = name ->
  nd_parent m = None ->
  exists st', parse_markup (S fuel) e (SLASH :: name ++ [GT]) st = Ret (Parsed st') /\ holds (ps_heap st') N.
Proof.
  intros Hv Hin Hm En Ep. destruct Hin as [H1 H2 H3 H4 H5].
  destruct (holds_lookup _ _ _ _ H1 Hm) as (t & Ht & E1 & E2 & E3 & _). cbn [parse_markup].
  change (name_start SLASH) with false. cbn [andb app]. rewrite scan_close_spec by done. cbn [rbind apply_markup].
  unfold switch_xml_close_tag. rewrite H2. cbn [mbind option_bind]. rewrite Ht. cbn [mbind option_bind].
  rewrite H3, bool_decide_true by congruence. cbn [andb rbind parse_text span]. unfold parse_end. cbn [ps_cur set]. rewrite E3, Ep.
  eexists. split; [done|]. done.
Qed.

(** Without its last byte, a document from behind the first less-than sign. *)
Lemma parse_root t fuel e : valid t -> exists st,
  parse_markup (2 * weight t + fuel) e (removelast (inner t 0)) (switch_xml_new None) = Ret (Parsed st) /\
  rep (ps_heap st) ROOT (reread t 0).
Proof.
  destruct t as [name attrs txt subs]. intros Hv. inversion Hv as [? ? ? ? Hname Hnd Hattr Hleaf Hinner Hvs]; subst.
  destruct (open_root name attrs) as (st1 & E1 & I1).
  destruct (parse_content subs (Forall_true _ _ reads_all) txt 0 (S fuel) e (SLASH :: name ++ [GT]) st1 _ ROOT 2 name attrs None
    (fun E => proj1 (Hleaf E)) Hvs I1 (lookup_singleton_eq _ _)) as (st2 & N2 & c2 & Ks & E2 & I2 & L2 & P2 & F2 & R2).
  destruct (finish_root fuel e name st2 N2 c2 _ Hname I2 P2 eq_refl eq_refl) as (st3 & E3 & H3). exists st3. split.
  - cbn [weight]. replace (2 * S (list_sum (map weight subs)) + fuel)%nat with (S (2 * list_sum (map weight subs) + S fuel)) by lia.
    assert (Er : removelast (inner (Tree name attrs txt subs) 0) = name ++ concat (map print_attr attrs) ++ GT ::
      match subs with [] => enc false txt | _ => 10 :: concat (map (fun u => print_tree u 1) subs) ++ indent 0 end ++
      60 :: SLASH :: name ++ [GT]).
    { cbn [inner]. match goal with |- _ = ?R => rewrite <- (removelast_last R 10) end. f_equal. by flat_app. }
    rewrite Er, <- E3, <- E2. cbn [parse_markup]. rewrite bool_decide_false, andb_false_r by done.
    rewrite scan_open by done. cbn [rbind apply_markup]. rewrite E1. cbn [rbind]. done.
  - apply (repN_rep _ N2 1 c2 _ H3). cbn [reread].
    refine (RepN _ 1 c2 ROOT _ (map (fun u => reread u 1) subs) P2 _ _); [unfold ROOT; lia|]. cbn [nd_kids].
    apply Forall2_fmap_r. apply (Forall2_impl _ _ _ _ R2). intros kd u Hu. apply (repN_frame N2 _ 2 c2); [done|lia|lia|done].
Qed.

Lemma span_nonzero s : Forall (fun c => c <> 0) s -> fst (span (fun c => negb (c =? 0)) s) = s.
Proof.
  induction 1 as [|c s Hc _ IH]; [done|]. cbn [span]. rewrite (proj2 (Z.eqb_neq c 0)) by done. cbn [negb].
  destruct (span _ s) as [a b]. simpl in *. by rewrite IH.
Qed.

(** The header is an instruction before the root. *)
Lemma parse_header fuel e r : parse_markup (S fuel) e (tl HEADER ++ 60 :: r) (switch_xml_new None) = parse_markup fuel e r (switch_xml_new None).
Proof. reflexivity. Qed.

Lemma inner_last t : exists d, inner t 0 = d ++ [10].
Proof.
  destruct (print_tree_last t 0) as [d E]. rewrite print_inner in E. change (indent 0 ++ 60 :: inner t 0) with (60 :: inner t 0) in E.
  destruct d as [|x d]; [done|]. injection E as _ ->. by exists d.
Qed.

Lemma parse_printed t (header : bool) : valid t -> exists st,
  switch_xml_parse_str ((if header then HEADER else []) ++ print_tree t 0) = Ret (Parsed st) /\
  rep (ps_heap st) ROOT (reread t 0).
Proof.
  intros Hv. rewrite print_inner. change (indent 0 ++ 60 :: inner t 0) with (60 :: inner t 0).
  destruct (inner_last t) as [d Ed].
  assert (Er : removelast (inner t 0) = d) by (rewrite Ed; apply removelast_last).
  set (r := if header then tl HEADER ++ 60 :: d else d).
  assert (Es : (if header then HEADER else []) ++ 60 :: inner t 0 = (60 :: r) ++ [10]).
  { rewrite Ed. subst r. destruct header; [|done]. cbn [app tl HEADER]. done. }
  rewrite Es. unfold switch_xml_parse_str. rewrite bool_decide_false by done.
  change (switch_xml_str2utf8 ((60 :: r) ++ [10])) with ((60 :: r) ++ [10]). rewrite last_snoc. cbn [or_ub rbind].
  rewrite removelast_last, span_nonzero.
  2: { assert (H : Forall (fun c => c <> 0) ((60 :: r) ++ [10])); [|by apply Forall_app in H as [? _]].
       rewrite <- Es. apply Forall_app. split; [destruct header; by repeat constructor|].
       pose proof (nonzero_tree t 0 Hv) as H. by rewrite print_inner in H. }
  unfold skip. cbn [span]. change (negb (60 =? 60)) with false. cbv iota. cbn [snd].
  assert (Hl : (2 * weight t <= S (length d))%nat).
  { pose proof (weight_length t 0) as H. rewrite Ed, length_app in H. simpl in H. lia. }
  subst r. destruct header.
  - destruct (parse_root t (length (tl HEADER ++ 60 :: d) - 2 * weight t) 10 Hv) as (st & E & Hrep). exists st. split; [|done].
    rewrite parse_header, <- Er, <- E, Er. f_equal. rewrite length_app. simpl. lia.
  - destruct (parse_root t (S (length d) - 2 * weight t) 10 Hv) as (st & E & Hrep). exists st. split; [|done].
    rewrite <- E, Er. f_equal. lia.
Qed.

(** C25: a document that is written and read again is the same but for white space
    between tags: for every tree of tags of a document without processing instructions,
    with any depth and any number of tags, [switch_xml_toxml] returns a text, never
    leaving its buffer, and [switch_xml_parse_str] makes a tree of that text without an
    error, which has the same tags in the same order with the same names, attributes and
    texts. The tree is writable ([valid]): tags have names that can be read and
    attributes of different names; the values of attributes are UTF-8 of characters
    below 0x1000, without an opening of a markup declaration, vertical tabs and form
    feeds; texts are in tags without subtags, UTF-8 of characters below 0x100000, without such an opening, and do not end in a newline. The conditions
    are needed: [attribute_overflows], [newline_text_grows] and [mixed_text_repeats] are
    documents outside them. *)
Theorem xml_document_roundtrip d p t header fuel : ps_named d = true -> ps_pi d = [] -> rep (ps_heap d) p t ->
  valid t -> (weight t <= fuel)%nat ->
  exists s st, switch_xml_toxml fuel d (Some p) header = Ret s /\ switch_xml_parse_str s = Ret (Parsed st) /\
    rep (ps_heap st) ROOT (reread t 0).
Proof.
  intros Hd Hp Hr Hv Hf. destruct (parse_printed t header Hv) as (st & E & Hrep).
  exists ((if header then HEADER else []) ++ print_tree t 0), st. split; [by apply toxml_prints|done].
Qed.

(** ** A document *)
Definition demo_tree : tree :=
  Tree [114] [] [] [Tree [97] [([120], Some [38])] [104; 105] []; Tree [98] [] [] []].

Lemma demo_valid : valid demo_tree.
Proof.
  assert (Hname : forall c, name_char c = true -> name_start c = true -> valid_name [c]) by (intros c H1 H2; split; [cbn; by rewrite H1|done]).
  assert (Hempty : valid_text []) by (exists []; split_and!; [done|constructor|done]).
  constructor; [by apply Hname|constructor|constructor|done|done|]. repeat apply Forall_cons_2; [..|constructor].
  - constructor; [by apply Hname|apply NoDup_singleton|..|done|constructor].
    + apply Forall_singleton. split; [done|]. exists [38]. split_and!; try done. apply Forall_singleton. lia.
    + intros _. split; [|done]. exists [104; 105]. split_and!; try done. repeat constructor; lia.
  - constructor; [by apply Hname|constructor|constructor|by split|done|constructor].
Qed.

(** The tags in a heap. *)
Lemma demo_rep : exists h, rep h ROOT demo_tree.
Proof.
  destruct (open_root [114] []) as (st1 & _ & I1).
  destruct (open_inside st1 _ ROOT 2 (mk_node [114] [] [] [] None) [97] [([120], Some [38])] I1) as (st2 & _ & I2); [done|].
  destruct (text_inside st2 _ 2 3 (mk_node [97] [([120], Some [38])] [] [] (Some ROOT)) [104; 105] [104; 105] 38 I2) as (st3 & _ & I3); [done|done|].
  destruct (close_inside st3 _ 2 3 (mk_node [97] [([120], Some [38])] [104; 105] [] (Some ROOT)) ROOT I3) as (st4 & _ & I4); [done|done|].
  destruct (open_inside st4 _ ROOT 3 (mk_node [114] [] [] [mk_kid 2 [97] 0] None) [98] [] I4) as (st5 & _ & I5); [done|].
  exists (ps_heap st5). apply (repN_rep _ _ 1 4 _ (in_holds _ _ _ _ I5)).
  refine (RepN _ 1 4 ROOT (mk_node [114] [] [] [mk_kid 2 [97] 0; mk_kid 3 [98] 0] None) _ _ _ _); [done|done|].
  constructor; [|constructor; [|constructor]].
  - refine (RepN _ 1 4 2 (mk_node [97] [([120], Some [38])] [104; 105] [] (Some ROOT)) [] _ _ _); [done|done|constructor].
  - refine (RepN _ 1 4 3 (mk_node [98] [] [] [] (Some ROOT)) [] _ _ _); [done|done|constructor].
Qed.

Lemma xml_document_roundtrip_witness : exists d s st, switch_xml_toxml 3 d (Some ROOT) true = Ret s /\
  switch_xml_parse_str s = Ret (Parsed st) /\ rep (ps_heap st) ROOT (reread demo_tree 0).
Proof.
  destruct demo_rep as [h Hh]. exists (mk_parser h None true 4 [] false).
  apply (xml_document_roundtrip (mk_parser h None true 4 [] false) ROOT demo_tree true 3); [done|done|exact Hh|exact demo_valid|vm_compute; lia].
Defined.

(** ** Documents that change *)

(** A text behind a subtag at the same position as the one before is written
    before the subtag, too: of length zero, its part is taken for all of it.
    [<a><b/>hi</a>] becomes [<a>hi  <b></b>] and another [hi]. *)
Definition mixed : list Z := [60; 97; 62; 60; 98; 47; 62; 104; 105; 60; 47; 97; 62; 10].
Theorem mixed_text_repeats : match switch_xml_parse_str mixed with
  | Ret (Parsed st) => switch_xml_toxml 5 st (Some ROOT) false =
      Ret [60; 97; 62; 104; 105; 32; 32; 60; 98; 62; 60; 47; 98; 62; 10; 104; 105; 60; 47; 97; 62; 10]
  | _ => False
  end.
Proof. vm_compute. reflexivity. Qed.

(** A text that ends in a newline gets the blanks of the closing tag. *)
Definition lines : list Z := [60; 114; 62; 60; 97; 62; 120; 10; 60; 47; 97; 62; 60; 47; 114; 62; 10].
Definition text_of_first (h : heap) : list Z := match h !! 2%positive with Some g => x_txt g | None => [] end.
Theorem newline_text_grows : match switch_xml_parse_str lines with
  | Ret (Parsed st) => text_of_first (ps_heap st) = [120; 10] /\
      match switch_xml_toxml 5 st (Some ROOT) false with
      | Ret s => match switch_xml_parse_str s with
                 | Ret (Parsed st') => text_of_first (ps_heap st') = [120; 10; 32; 32]
                 | _ => False
                 end
      | _ => False
      end
  | _ => False
  end.
Proof. vm_compute. split; reflexivity. Qed.

(** An attribute that ends in a character of eight bytes at the end of the
    buffer: no room is left for the quotation mark, the end of the tag and the
    zero. *)
Definition long_attr : tag :=
  mk_tag [97] [([120], Some (repeat 97 1008 ++ switch_u8_wc_toutf8 0x20AC))] [] 0 None None None None None.
Theorem attribute_overflows : switch_xml_toxml 1 (mk_parser {[ROOT := long_attr]} None true 2 [] false) (Some ROOT) false = Ub.
Proof. vm_compute. reflexivity. Qed.

(** An instruction without anything has the length -1. *)
Theorem empty_instruction_leaves : switch_xml_parse_str [60; 63; 62; 60; 97; 47; 62; 10] = Ub.
Proof. vm_compute. reflexivity. Qed.
