(* ===== verification/Regex.v ===== *)
(** * Regex: regular expressions and what is made of their matches

    src/switch_regex.c, and [switch_ast2regex] of src/switch_utils.c.  Compiling
    and executing an expression is PCRE's work: a class with the operations the
    code uses, and one with what it relies on.  A match is a vector of offsets
    into the text, as in the code, which may be read with another text.  Texts
    have no zeros. *)
From S2P Require Import Prelude UrlCode TextUtil NetList.
From Stdlib Require Import ZArith Lia.
From stdpp Require Import base numbers option list.

Local Open Scope Z_scope.

(** ** PCRE *)
Class pcre := {
  regex : Type;
  (** The expression and [PCRE_CASELESS], [PCRE_DOTALL]; [None] is an error. *)
  pcre_compile : list Z -> Z -> option regex;
  (** The expression, the text and the vector: the number of groups that were set,
      with that of the whole match, and the vector.  Zero or less: no match, or a
      vector that is too small. *)
  pcre_exec : regex -> list Z -> list Z -> Z * list Z;
  (** The text, the vector, the number of groups and a number: [None] when there is
      no such group. *)
  pcre_get_substring : list Z -> list Z -> Z -> Z -> res (option (list Z))
}.

(** The vector gives the groups of a text. *)
Definition matched {P : pcre} (subject ovector : list Z) (groups : list (list Z)) : Prop :=
  forall n g, groups !! n = Some g ->
    pcre_get_substring subject ovector (zlen groups) (Z.of_nat n) = Ret (Some g).

(** What PCRE promises of a vector for ten groups: those it counts are set, and
    there are no others. *)
Class pcre_laws (P : pcre) : Prop := {
  pcre_exec_count re subject ov : fst (pcre_exec re subject ov) <= 10;
  pcre_exec_groups re subject ov n : 0 <= n < fst (pcre_exec re subject ov) ->
    exists g, pcre_get_substring subject (snd (pcre_exec re subject ov)) (fst (pcre_exec re subject ov)) n = Ret (Some g);
  pcre_no_substring subject ov count n : n < 0 \/ count <= n -> pcre_get_substring subject ov count n = Ret None
}.
(** The groups of a match. *)
Definition group {P : pcre} (subject ovector : list Z) (count : Z) (i : nat) : list Z :=
  match pcre_get_substring subject ovector count (Z.of_nat i) with Ret (Some g) => g | _ => [] end.
Definition groups_of {P : pcre} (subject ovector : list Z) (count : Z) : list (list Z) :=
  map (group subject ovector count) (seq 0 (Z.to_nat count)).
Lemma groups_matched {P : pcre} (L : pcre_laws P) re subject ov : let '(count, ov') := pcre_exec re subject ov in
  0 < count -> zlen (groups_of subject ov' count) = count /\ matched subject ov' (groups_of subject ov' count).
Proof.
  destruct (pcre_exec re subject ov) as [count ov'] eqn:E. intros Hc.
  assert (Hz : zlen (groups_of subject ov' count) = count) by (unfold groups_of, zlen; rewrite length_map, length_seq; lia).
  split; [done|]. intros n g Hg. rewrite Hz. unfold groups_of in Hg. apply list_lookup_fmap_Some in Hg as (i & -> & Hi).
  apply lookup_seq in Hi as [-> Hi]. destruct (pcre_exec_groups re subject ov (Z.of_nat n)) as [g Hg]; [rewrite E; simpl; lia|].
  rewrite E in Hg. cbn [fst snd] in Hg. unfold group. simpl. by rewrite Hg.
Qed.

(** ** Patterns of another kind *)
Definition CARET : Z := 94.
Definition DOLLAR : Z := 36.

(** [strncat(rbuf, s, len - strlen(rbuf))] *)
Definition strncat_rest (len : Z) (rbuf s : list Z) : res (list Z) :=
  let r := rbuf ++ take (Z.to_nat (len - zlen rbuf)) s in
  if zlen r <? len then Ret r else Ub.
Definition ast_char (len : Z) (rbuf : list Z) (c : Z) : res (list Z) :=
  if c =? 78 then strncat_rest len rbuf [91; 50; 45; 57; 93]
  else if c =? 88 then strncat_rest len rbuf [91; 48; 45; 57; 93]
  else if c =? 90 then strncat_rest len rbuf [91; 49; 45; 57; 93]
  else if c =? 46 then strncat_rest len rbuf [46; 42]
  else if zlen rbuf <? len - 1 then Ret (rbuf ++ [c]) else Ret rbuf.
Fixpoint ast_loop (len : Z) (p rbuf : list Z) : res (list Z) :=
  match p with
  | [] => Ret rbuf
  | c :: p => rbuf <-! ast_char len rbuf c;; ast_loop len p rbuf
  end.
(** Whether the text changed, and the buffer. *)
Definition switch_ast2regex (pat : list Z) (len : Z) : res (bool * list Z) :=
  if len <? 1 then Ub
  else
    rbuf <-! ast_loop len pat [CARET];;
    let rbuf := rbuf ++ [DOLLAR] in
    if zlen rbuf <? len then Ret (negb (bool_decide (pat = rbuf)), rbuf) else Ub.

(** ** Matching *)
Definition PCRE_CASELESS : Z := 1.
Definition PCRE_DOTALL : Z := 4.
Definition has_char (c : Z) (s : list Z) : bool := existsb (Z.eqb c) s.

(** [strrchr]: what is before the last [c] and behind it. *)
Fixpoint split_last (c : Z) (s : list Z) : option (list Z * list Z) :=
  match s with
  | [] => None
  | b :: s =>
    match split_last c s with
    | Some (l, r) => Some (b :: l, r)
    | None => if b =? c then Some ([], s) else None
    end
  end.

(** The expression and its flags; [None]: the slash at the end is missing. *)
Definition regex_flags (expression : list Z) : option (list Z * Z) :=
  match expression with
  | c :: tmp =>
    if c =? 47 then
      match split_last 47 tmp with
      | None => None
      | Some (e, opts) =>
        Some (e, Z.lor (if has_char 105 opts then PCRE_CASELESS else 0) (if has_char 115 opts then PCRE_DOTALL else 0))
      end
    else Some (expression, 0)
  | [] => Some (expression, 0)
  end.

Section Matching.
Context {P : pcre}.

(** The number of groups, what becomes of [re], and the vector. *)
Definition switch_regex_perform (field expression : list Z) (re : option regex) (ovector : list Z)
    : res (Z * option regex * list Z) :=
  expression <-! match expression with
                 | c :: pat =>
                   if c =? 95 then '(b, abuf) <-! switch_ast2regex pat 256;; Ret (if (b : bool) then abuf else expression)
                   else Ret expression
                 | [] => Ret expression
                 end;;
  match regex_flags expression with
  | None => Ret (0, re, ovector)
  | Some (expression, flags) =>
    match pcre_compile expression flags with
    | None => Ret (0, re, ovector)
    | Some r =>
      let '(match_count, ovector) := pcre_exec r field ovector in
      if match_count <=? 0 then Ret (0, None, ovector) else Ret (match_count, Some r, ovector)
    end
  end.

(** The callback gets the text of each group. *)
Fixpoint capture_loop {S : Type} (callback : list Z -> S -> res S) (subject ovector : list Z) (match_count : Z) (i : nat) (n : nat) (s : S) : res S :=
  match n with
  | O => Ret s
  | Datatypes.S n =>
    replace <-! pcre_get_substring subject ovector match_count (Z.of_nat i);;
    s <-! match replace with Some t => callback t s | None => Ret s end;;
    capture_loop callback subject ovector match_count (Datatypes.S i) n s
  end.
Definition switch_capture_regex {S : Type} (match_count : Z) (field_data ovector : list Z) (callback : list Z -> S -> res S) (s : S) : res S :=
  capture_loop callback field_data ovector match_count 0 (Z.to_nat match_count) s.

End Matching.

(** ** Substitution *)
Definition is_digit (c : Z) : bool := (47 <? c) && (c <? 58).
(** [data[x]], with the zero at the end. *)
Definition char_at (data : list Z) (x : Z) : res Z := or_ub ((data ++ [0]) !! Z.to_nat x).

(** Digits go into [index], which has ten bytes, and stay there when a brace is
    not closed. *)
Fixpoint read_digits (s index : list Z) : list Z * list Z :=
  match s with
  | c :: r => if is_digit c && (zlen index <? 9) then read_digits r (index ++ [c]) else (index, s)
  | [] => (index, [])
  end.

(** [out] has [y] bytes; the buffer has [len], and the loops compare with
    [len - 1], an unsigned number. *)
Definition put (len : Z) (out : list Z) (c : Z) : res (list Z) := if zlen out <? len then Ret (out ++ [c]) else Ub.
Fixpoint put_all (len : Z) (out replace : list Z) : res (list Z) :=
  match replace with
  | [] => Ret out
  | c :: r => if zlen out <? u64 (len - 1) then out <-! put len out c;; put_all len out r else Ret out
  end.
(** The byte before [x]. *)
Definition char_before (data : list Z) (x : Z) : res Z := if x <? 1 then Ub else char_at data (x - 1).

Section Substitution.
Context {P : pcre}.

(** A reference at [x], which is behind a dollar sign: the position behind it, the
    text and the digits that are left over. *)
Definition subst_ref (field_data ovector : list Z) (match_count : Z) (data : list Z) (len x : Z) (out index : list Z)
    : res (Z * list Z * list Z) :=
  c <-! char_at data x;;
  let brace := c =? 123 in
  let x := if brace then x + 1 else x in
  c <-! char_at data x;;
  if negb (is_digit c) then
    let x := if brace then x - 1 else x in
    c <-! char_before data x;; out <-! put len out c;; Ret (x, out, index)
  else
    let '(index, rest) := read_digits (drop (Z.to_nat x) data) index in
    let x := zlen data - zlen rest in
    c <-! char_at data x;;
    if brace && negb (c =? 125) then
      let x := x - (zlen index - 1) in
      c <-! char_before data x;; out <-! put len out c;; Ret (x, out, index)
    else
      let x := if brace then x + 1 else x in
      let num := atoi index in
      let num := if (num <? 0) || (num >? 256) then -1 else num in
      replace <-! pcre_get_substring field_data ovector match_count num;;
      out <-! put_all len out (default [] replace);;
      Ret (x, out, []).

Fixpoint subst_loop (fuel : nat) (field_data ovector : list Z) (match_count : Z) (data : list Z) (len x : Z) (out index : list Z)
    : res (list Z) :=
  if (zlen out <? u64 (len - 1)) && (x <? zlen data) then
    match fuel with
    | O => Ub
    | S fuel =>
      c <-! char_at data x;;
      if c =? DOLLAR then
        '(x, out, index) <-! subst_ref field_data ovector match_count data len (x + 1) out index;;
        subst_loop fuel field_data ovector match_count data len x out index
      else
        out <-! put len out c;; subst_loop fuel field_data ovector match_count data len (x + 1) out index
    end
  else Ret out.

(** The text in the buffer, which is terminated by a zero.  Every round moves on
    in [data] or adds a byte. *)
Definition switch_perform_substitution (match_count : Z) (data field_data : list Z) (len : Z) (ovector : list Z) : res (list Z) :=
  let rounds := Z.to_nat (Z.max 1 len * (zlen data + 1)) in
  out <-! subst_loop rounds field_data ovector match_count data len 0 [] [];;
  if zlen out <? len then Ret out else Ub.

End Substitution.

(** ** Templates *)

(** A character, or a reference to a group by its digits, in braces or not. *)
Inductive piece := Lit (c : Z) | Ref (ds : list Z) (braced : bool).
Definition piece_text (p : piece) : list Z :=
  match p with
  | Lit c => [c]
  | Ref ds false => DOLLAR :: ds
  | Ref ds true => DOLLAR :: 123 :: ds ++ [125]
  end.
Definition template (ps : list piece) : list Z := concat (map piece_text ps).
Definition digit_next (s : list Z) : bool := is_digit (hd 0 s).
(** A text behind a dollar sign that is no reference. *)
Definition no_ref (s : list Z) : bool :=
  match s with 123 :: r => negb (digit_next r) | _ => negb (digit_next s) end.
(** No reference is made by what follows, and every brace is closed. *)
Fixpoint tidy (ps : list piece) : bool :=
  match ps with
  | [] => true
  | Lit c :: ps => (negb (c =? DOLLAR) || no_ref (template ps)) && tidy ps
  | Ref ds braced :: ps =>
    negb (bool_decide (ds = [])) && (zlen ds <=? 9) && forallb is_digit ds && (braced || negb (digit_next (template ps))) && tidy ps
  end.
Definition piece_value (groups : list (list Z)) (p : piece) : list Z :=
  match p with
  | Lit c => [c]
  | Ref ds _ => if atoi ds <=? 256 then default [] (groups !! Z.to_nat (atoi ds)) else []
  end.

Lemma char_at_app pre r : char_at (pre ++ r) (zlen pre) = Ret (hd 0 r).
Proof.
  unfold char_at, zlen. rewrite Nat2Z.id, <- app_assoc, lookup_app_r by lia. rewrite Nat.sub_diag. by destruct r.
Qed.
Lemma char_before_app pre c r : char_before (pre ++ [c] ++ r) (zlen pre + 1) = Ret c.
Proof.
  unfold char_before. pose proof (zlen_nonneg pre). rewrite (proj2 (Z.ltb_ge _ _)) by lia.
  replace (zlen pre + 1 - 1) with (zlen pre) by lia. apply char_at_app.
Qed.

Lemma read_digits_app ds : forall index r, forallb is_digit ds = true -> zlen index + zlen ds <= 9 -> digit_next r = false ->
  read_digits (ds ++ r) index = (index ++ ds, r).
Proof.
  induction ds as [|d ds IH]; intros index r Hd Hz Hr.
  - rewrite app_nil_r. destruct r as [|c r]; [done|]. cbn [app read_digits]. unfold digit_next in Hr. cbn in Hr. by rewrite Hr.
  - cbn [forallb] in Hd. boolify. cbn [app read_digits]. rewrite zlen_cons in Hz. pose proof (zlen_nonneg ds).
    rewrite (proj2 (Z.ltb_lt _ _)) by lia. match goal with H : is_digit d = true |- _ => rewrite H end. cbn [andb].
    rewrite IH by (try done; rewrite zlen_app; change (zlen [d]) with 1; lia). by rewrite <- app_assoc.
Qed.


Lemma digits_value_bound ds : forall v, 0 <= v -> forallb is_digit ds = true ->
  0 <= digits_value ds v < (v + 1) * 10 ^ zlen ds.
Proof.
  induction ds as [|d ds IH]; intros v Hv Hd; cbn [digits_value].
  - unfold zlen. simpl. lia.
  - cbn [forallb] in Hd. apply andb_prop in Hd as [Hc Hd]. unfold is_digit in Hc. boolify.
    rewrite (proj2 (Z.leb_le 48 d)), (proj2 (Z.leb_le d 57)) by lia. cbn [andb].
    specialize (IH (v * 10 + (d - 48)) ltac:(lia) Hd). rewrite zlen_cons.
    assert (10 ^ (1 + zlen ds) = 10 * 10 ^ zlen ds) as -> by (rewrite Z.pow_add_r by (unfold zlen; lia); lia).
    assert (0 <= 10 ^ zlen ds) by (apply Z.pow_nonneg; lia). nia.
Qed.

Lemma atoi_nonneg ds : forallb is_digit ds = true -> zlen ds <= 9 -> 0 <= atoi ds.
Proof.
  intros Hd Hz. pose proof (digits_value_bound ds 0 ltac:(lia) Hd) as Hb.
  assert (10 ^ zlen ds <= 10 ^ 9) by (apply Z.pow_le_mono_r; [lia|done]). change (10 ^ 9) with 1000000000 in *.
  destruct ds as [|d ds]; [done|]. pose proof Hd as Hd'. cbn [forallb] in Hd'. apply andb_prop in Hd' as [Hc _]. unfold is_digit in Hc. boolify.
  unfold atoi. cbn [skip_front]. unfold isspace. rewrite (proj2 (Z.eqb_neq d 32)), (proj2 (Z.leb_gt d 13)), andb_false_r by lia. cbn [orb].
  rewrite (proj2 (Z.eqb_neq d 45)), (proj2 (Z.eqb_neq d 43)) by lia. unfold clamp64. rewrite Z.min_r, Z.max_r by lia.
  rewrite i32_small; lia.
Qed.

(** Copying stops when the buffer is full. *)
Lemma put_all_take len t : forall out, 1 <= len < 2 ^ 63 -> zlen out <= len - 1 ->
  put_all len out t = Ret (take (Z.to_nat (len - 1)) (out ++ t)).
Proof.
  assert (H63 : 2 ^ 63 = 9223372036854775808) by done.
  induction t as [|c t IH]; intros out Hl Ho; cbn [put_all].
  - rewrite app_nil_r, take_ge; [done|unfold zlen in Ho; lia].
  - rewrite u64_small by lia. destruct (Z.ltb_spec (zlen out) (len - 1)) as [Hlt|Hge].
    + unfold put. rewrite (proj2 (Z.ltb_lt _ _)) by lia. cbn [rbind]. rewrite IH; [by rewrite <- app_assoc|lia|].
      rewrite zlen_app. change (zlen [c]) with 1. lia.
    + rewrite take_app_le, take_ge by (unfold zlen in *; lia). done.
Qed.

Section Templates.
Context {P : pcre} {L : pcre_laws P}.
Context (subject ovector : list Z) (groups : list (list Z)) (Hm : matched subject ovector groups).

Lemma matched_group ds : forallb is_digit ds = true -> zlen ds <= 9 ->
  let num := if (atoi ds <? 0) || (atoi ds >? 256) then -1 else atoi ds in
  exists r, pcre_get_substring subject ovector (zlen groups) num = Ret r /\
    default [] r = if atoi ds <=? 256 then default [] (groups !! Z.to_nat (atoi ds)) else [].
Proof.
  intros Hd Hz. pose proof (atoi_nonneg ds Hd Hz) as Ha. cbv zeta. rewrite (proj2 (Z.ltb_ge (atoi ds) 0)), Z.gtb_ltb by lia. cbn [orb].
  destruct (Z.ltb_spec 256 (atoi ds)) as [Hlt|Hge].
  - exists None. rewrite (proj2 (Z.leb_gt (atoi ds) 256)), pcre_no_substring by lia. done.
  - rewrite (proj2 (Z.leb_le (atoi ds) 256)) by lia. destruct (groups !! Z.to_nat (atoi ds)) as [g|] eqn:E.
    + exists (Some g). specialize (Hm _ _ E). rewrite Z2Nat.id in Hm by lia. done.
    + exists None. split; [|done]. apply lookup_ge_None in E. apply pcre_no_substring. right. unfold zlen. lia.
Qed.

(** A reference behind its dollar sign. *)
Lemma subst_ref_piece pre ds braced rest len out : 1 <= len < 2 ^ 63 -> zlen out <= len - 1 ->
  ds <> [] -> zlen ds <= 9 -> forallb is_digit ds = true -> braced = true \/ digit_next rest = false ->
  let data := pre ++ piece_text (Ref ds braced) ++ rest in
  subst_ref subject ovector (zlen groups) data len (zlen pre + 1) out [] =
    Ret (zlen (pre ++ piece_text (Ref ds braced)), take (Z.to_nat (len - 1)) (out ++ piece_value groups (Ref ds braced)), []).
Proof.
  intros Hl Ho Hn Hz Hd Hb. cbv zeta. destruct (matched_group ds Hd Hz) as (r & Hr & Hv). cbv zeta in Hr.
  assert (Hhd : is_digit (hd 0 ds) = true) by (destruct ds; [done|]; cbn [forallb] in Hd; by boolify).
  assert (Hhd' : forall t, hd 0 (ds ++ t) = hd 0 ds) by (by destruct ds).
  unfold subst_ref. destruct braced.
  - set (data := pre ++ _ ++ rest). assert (E1 : data = (pre ++ [DOLLAR]) ++ 123 :: ds ++ 125 :: rest)
      by (unfold data; cbn [piece_text]; rewrite <- !app_assoc; cbn [app]; by rewrite <- app_assoc).
    assert (E2 : data = (pre ++ [DOLLAR; 123]) ++ ds ++ 125 :: rest) by (rewrite E1, <- !app_assoc; done).
    assert (E3 : data = (pre ++ [DOLLAR; 123] ++ ds) ++ 125 :: rest) by (rewrite E2, <- !app_assoc; done).
    replace (zlen pre + 1) with (zlen (pre ++ [DOLLAR])) by (rewrite zlen_app; done).
    rewrite E1, char_at_app, <- E1. cbn [hd rbind]. change (123 =? 123) with true. cbv iota zeta.
    replace (zlen (pre ++ [DOLLAR]) + 1) with (zlen (pre ++ [DOLLAR; 123])) by (rewrite !zlen_app; unfold zlen; simpl; lia).
    rewrite E2, char_at_app, <- E2. cbn [rbind]. rewrite Hhd', Hhd. cbn [negb].
    rewrite E2 at 1. rewrite drop_app_length' by (unfold zlen; lia).
    rewrite read_digits_app by (done || (change (zlen []) with 0; lia)). cbn [app].
    replace (zlen data - zlen (125 :: rest)) with (zlen (pre ++ [DOLLAR; 123] ++ ds)) by (rewrite E3, (zlen_app _ (125 :: rest)); lia).
    rewrite E3, char_at_app. cbn [hd rbind]. change (125 =? 125) with true. cbn [negb andb]. cbv zeta. rewrite Hr. cbn [rbind].
    rewrite put_all_take by done. cbn [rbind piece_value]. rewrite Hv. f_equal. f_equal. f_equal. cbn [piece_text].
    rewrite !zlen_app. change (DOLLAR :: 123 :: ds ++ [125]) with ([DOLLAR; 123] ++ ds ++ [125]). rewrite !zlen_app. change (zlen [125]) with 1. lia.
  - destruct Hb as [|Hb]; [done|]. set (data := pre ++ _ ++ rest).
    assert (E1 : data = (pre ++ [DOLLAR]) ++ ds ++ rest) by (unfold data; cbn [piece_text]; by rewrite <- !app_assoc).
    assert (E2 : data = (pre ++ [DOLLAR] ++ ds) ++ rest) by (rewrite E1, <- !app_assoc; done).
    replace (zlen pre + 1) with (zlen (pre ++ [DOLLAR])) by (rewrite zlen_app; done).
    assert (E3 : char_at data (zlen (pre ++ [DOLLAR])) = Ret (hd 0 ds)) by (rewrite E1, char_at_app; by rewrite Hhd').
    rewrite E3. cbn [rbind]. assert (Hne : (hd 0 ds =? 123) = false) by (unfold is_digit in Hhd; boolify; apply Z.eqb_neq; lia).
    rewrite Hne. cbv iota zeta. rewrite E3. cbn [rbind]. rewrite Hhd. cbn [negb].
    rewrite E1 at 1. rewrite drop_app_length' by (unfold zlen; lia).
    rewrite read_digits_app by (done || (change (zlen []) with 0; lia)). cbn [app].
    replace (zlen data - zlen rest) with (zlen (pre ++ [DOLLAR] ++ ds)) by (rewrite E2, (zlen_app _ rest); lia).
    rewrite E2, char_at_app. cbn [rbind andb]. cbv zeta. rewrite Hr. cbn [rbind].
    rewrite put_all_take by done. cbn [rbind piece_value]. by rewrite Hv.
Qed.
End Templates.

(** A text cut to [n] bytes before and after more is added. *)
Lemma take_app_take {A} (l k : list A) n : take n (take n l ++ k) = take n (l ++ k).
Proof.
  destruct (decide (n <= length l)%nat).
  - rewrite (take_app_le (take n l)), take_app_le, take_take, Nat.min_id by (rewrite ?length_take; lia). done.
  - by rewrite (take_ge l n) by lia.
Qed.

Lemma put_room len out c : zlen out < len - 1 -> put len out c = Ret (out ++ [c]).
Proof. intros H. unfold put. by rewrite (proj2 (Z.ltb_lt _ _)) by lia. Qed.

(** A dollar sign that is no reference. *)
Lemma subst_ref_dollar {P : pcre} subject ovector n pre rest len out : zlen out < len - 1 -> no_ref rest = true ->
  subst_ref subject ovector n (pre ++ DOLLAR :: rest) len (zlen pre + 1) out [] = Ret (zlen pre + 1, out ++ [DOLLAR], []).
Proof.
  intros Ho Hn. pose proof (zlen_nonneg pre).
  assert (E1 : zlen pre + 1 = zlen (pre ++ [DOLLAR])) by (rewrite zlen_app; done).
  assert (Ed : pre ++ DOLLAR :: rest = (pre ++ [DOLLAR]) ++ rest) by (by rewrite <- app_assoc).
  assert (Eb : char_before (pre ++ DOLLAR :: rest) (zlen pre + 1) = Ret DOLLAR) by apply (char_before_app pre DOLLAR rest).
  unfold subst_ref. rewrite E1 at 1. rewrite Ed, char_at_app, <- Ed. cbn [rbind]. cbv zeta.
  destruct (hd 0 rest =? 123) eqn:Eh.
  - destruct rest as [|c rest]; [done|]. cbn in Eh. apply Z.eqb_eq in Eh as ->. cbn in Hn.
    replace (zlen pre + 1 + 1) with (zlen (pre ++ [DOLLAR; 123])) by (rewrite zlen_app; unfold zlen; simpl; lia).
    replace (pre ++ DOLLAR :: 123 :: rest) with ((pre ++ [DOLLAR; 123]) ++ rest) at 1 by (by rewrite <- app_assoc).
    rewrite char_at_app. cbn [rbind]. unfold digit_next in Hn. rewrite Hn.
    replace (zlen (pre ++ [DOLLAR; 123]) - 1) with (zlen pre + 1) by (rewrite zlen_app; unfold zlen; simpl; lia).
    rewrite Eb. cbn [rbind]. by rewrite put_room.
  - rewrite E1 at 1. rewrite Ed, char_at_app, <- Ed. cbn [rbind].
    assert (Hd : is_digit (hd 0 rest) = false).
    { destruct rest as [|c rest]; [done|]. cbn in Eh. unfold no_ref, digit_next in Hn. cbn [hd] in *.
      destruct (is_digit c) eqn:E; [|done]. exfalso. revert Hn. repeat case_match; simplify_eq; done. }
    rewrite Hd. cbn [negb]. rewrite Eb. cbn [rbind]. by rewrite put_room.
Qed.

Lemma subst_loop_tidy {P : pcre} {L : pcre_laws P} subject ovector groups len : matched subject ovector groups -> 1 <= len < 2 ^ 63 ->
  forall ps pre out fuel, tidy ps = true -> zlen out <= len - 1 -> (length ps < fuel)%nat ->
  subst_loop fuel subject ovector (zlen groups) (pre ++ template ps) len (zlen pre) out [] =
    Ret (take (Z.to_nat (len - 1)) (out ++ concat (map (piece_value groups) ps))).
Proof.
  intros Hm Hl. assert (H63 : 2 ^ 63 = 9223372036854775808) by done.
  induction ps as [|p ps IH]; intros pre out fuel Ht Ho Hf; (destruct fuel as [|fuel]; [simpl in Hf; lia|]); cbn [subst_loop].
  { rewrite !app_nil_r, (proj2 (Z.ltb_ge (zlen pre) (zlen pre))), andb_false_r by lia. rewrite take_ge; [done|unfold zlen in Ho; lia]. }
  rewrite u64_small by lia. destruct (Z.ltb_spec (zlen out) (len - 1)) as [Hlt|Hge]; cbn [andb].
  2: { rewrite take_app_le, take_ge by (unfold zlen in *; lia). done. }
  assert (Hx : zlen pre < zlen (pre ++ template (p :: ps))).
  { unfold template. cbn [map concat]. rewrite !zlen_app. pose proof (zlen_nonneg (concat (map piece_text ps))).
    assert (1 <= zlen (piece_text p)); [|lia]. destruct p as [c|ds []]; cbn [piece_text]; rewrite ?zlen_cons, ?zlen_app; unfold zlen; simpl; lia. }
  rewrite (proj2 (Z.ltb_lt _ _) Hx), char_at_app. cbn [rbind].
  assert (Etpl : pre ++ template (p :: ps) = (pre ++ piece_text p) ++ template ps) by (by rewrite <- app_assoc).
  destruct p as [c|ds braced].
  - cbn [tidy] in Ht. apply andb_prop in Ht as [Hc Ht]. change (hd 0 (template (Lit c :: ps))) with c.
    assert (Hnext : forall o, o = out ++ [c] -> subst_loop fuel subject ovector (zlen groups) (pre ++ template (Lit c :: ps)) len (zlen pre + 1) o [] =
      Ret (take (Z.to_nat (len - 1)) (out ++ concat (map (piece_value groups) (Lit c :: ps))))).
    { intros o ->. rewrite Etpl. replace (zlen pre + 1) with (zlen (pre ++ [c])) by (rewrite zlen_app; done). cbn [piece_text].
      rewrite IH; [by rewrite <- app_assoc|done|rewrite zlen_app; unfold zlen in *; simpl; lia|simpl in Hf; lia]. }
    destruct (Z.eqb_spec c DOLLAR) as [->|Hne].
    + cbn [negb orb] in Hc. change (pre ++ template (Lit DOLLAR :: ps)) with (pre ++ DOLLAR :: template ps) at 1.
      rewrite subst_ref_dollar by done. cbn [rbind]. by apply Hnext.
    + rewrite put_room by done. cbn [rbind]. by apply Hnext.
  - cbn [tidy] in Ht. repeat apply andb_prop in Ht as [Ht ?].
    match goal with H : braced || _ = true |- _ => apply orb_prop in H; rename H into Hb end.
    match goal with H : (zlen ds <=? 9) = true |- _ => apply Z.leb_le in H end.
    apply negb_true_iff, bool_decide_eq_false in Ht.
    assert (Eh : (hd 0 (template (Ref ds braced :: ps)) =? DOLLAR) = true) by (by destruct braced).
    rewrite Eh. change (pre ++ template (Ref ds braced :: ps)) with (pre ++ piece_text (Ref ds braced) ++ template ps) at 1.
    rewrite (subst_ref_piece subject ovector groups Hm) by
      (first [done | lia | destruct Hb as [|Hb]; [by left|right; by apply negb_true_iff]]).
    cbn [rbind]. rewrite Etpl, IH; [|done|unfold zlen; rewrite length_take; lia|simpl in Hf; lia].
    cbn [map concat]. by rewrite app_assoc, take_app_take.
Qed.

(** The whole substitution. *)
Lemma substitution_tidy {P : pcre} {L : pcre_laws P} subject ovector groups ps len : matched subject ovector groups -> tidy ps = true ->
  1 <= len < 2 ^ 63 ->
  switch_perform_substitution (zlen groups) (template ps) subject len ovector =
    Ret (take (Z.to_nat (len - 1)) (concat (map (piece_value groups) ps))).
Proof.
  intros Hm Ht Hl. unfold switch_perform_substitution.
  pose proof (subst_loop_tidy subject ovector groups len Hm Hl ps [] [] (Z.to_nat (Z.max 1 len * (zlen (template ps) + 1))) Ht) as E.
  change (zlen []) with 0 in E. cbn [app] in E. rewrite E; [|lia|].
  - cbn [rbind]. rewrite (proj2 (Z.ltb_lt _ _)); [done|]. unfold zlen. rewrite length_take. lia.
  - rewrite Z.max_r by lia. assert (Z.of_nat (length ps) <= zlen (template ps)); [|nia].
    clear. induction ps as [|p ps IH]; [done|]. unfold template in *. cbn [map concat length]. rewrite zlen_app.
    assert (1 <= zlen (piece_text p)); [|lia]. destruct p as [c|ds []]; cbn [piece_text]; rewrite ?zlen_cons, ?zlen_app; unfold zlen; simpl; lia.
Qed.

(** C21: what [switch_perform_substitution] makes of a template: for every sequence of
    characters and of references [$n] and [${n}] of one to nine digits, in which every
    brace of a reference is closed, no other dollar sign is followed by a digit or by a
    brace and a digit, and no digit follows an unbraced reference, and every size of the
    buffer from one byte on, the result is the sequence with each reference replaced by
    the text of its group (by nothing when there is no such group), cut to the size of
    the buffer without the zero at the end. Nothing is written outside the buffer and
    nothing read outside the template. A template with an open brace is not of this
    kind: see [open_brace_joins] and [open_braces_leave]. *)
Theorem substitution_expands {P : pcre} {L : pcre_laws P} subject ovector groups ps len : matched subject ovector groups -> tidy ps = true ->
  1 <= len < 2 ^ 63 ->
  switch_perform_substitution (zlen groups) (template ps) subject len ovector =
    Ret (take (Z.to_nat (len - 1)) (concat (map (piece_value groups) ps))).
Proof. apply substitution_tidy. Qed.

(** A matcher that never matches; texts are taken from the vector. *)
Definition vector_substring (subject ovector : list Z) (count n : Z) : res (option (list Z)) :=
  if (n <? 0) || (count <=? n) then Ret None
  else
    a <-! or_ub (ovector !! Z.to_nat (2 * n));;
    b <-! or_ub (ovector !! Z.to_nat (2 * n + 1));;
    s <-! or_ub (mem_read subject a (b - a));; Ret (Some s).
Lemma vector_no_substring subject ov count n : n < 0 \/ count <= n -> vector_substring subject ov count n = Ret None.
Proof.
  intros H. unfold vector_substring. destruct (Z.ltb_spec n 0); [done|]. by rewrite (proj2 (Z.leb_le count n)) by lia.
Qed.
Definition no_pcre : pcre := {| regex := Empty_set; pcre_compile := fun _ _ => None; pcre_exec := fun _ _ ov => (0, ov);
  pcre_get_substring := vector_substring |}.
#[local] Instance no_pcre_laws : pcre_laws no_pcre.
Proof. split; intros; cbn in *; [lia|lia|by apply vector_no_substring]. Qed.

(** [x-$1-${2}$$] with the groups of [555 42]. *)
Definition demo_subject : list Z := [53; 53; 53; 32; 52; 50].
Definition demo_vector : list Z := [0; 6; 0; 3; 4; 6].
Definition demo_groups : list (list Z) := [demo_subject; [53; 53; 53]; [52; 50]].
Definition demo_pieces : list piece := [Lit 120; Lit 45; Ref [49] false; Lit 45; Ref [50] true; Lit DOLLAR; Lit DOLLAR].

Lemma demo_matched : matched (P := no_pcre) demo_subject demo_vector demo_groups.
Proof. intros n g. do 3 (destruct n as [|n]; [by intros [= <-]|]). done. Qed.

Lemma substitution_expands_witness :
  switch_perform_substitution (P := no_pcre) 3 (template demo_pieces) demo_subject 100 demo_vector =
    Ret [120; 45; 53; 53; 53; 45; 52; 50; 36; 36].
Proof. apply (@substitution_expands no_pcre no_pcre_laws demo_subject demo_vector demo_groups demo_pieces 100 demo_matched); [reflexivity|lia]. Defined.

(** ** Where the code leaves its objects *)

(** A buffer of no bytes, which a condition without a match asks for, is written to. *)
Theorem substitution_of_nothing : forall P ov s, switch_perform_substitution (P := P) 0 [104; 105] s 0 ov = Ub.
Proof. done. Qed.

(** Digits of a brace that is not closed are added to those of the next reference:
    [${1 $2] asks for group 12. *)
Theorem open_brace_joins : switch_perform_substitution (P := no_pcre) 3 [36; 123; 49; 32; 36; 50] demo_subject 100 demo_vector =
  Ret [49; 32].
Proof. done. Qed.

(** Two open braces move the position before the beginning of the template:
    [${1234${56789]. *)
Theorem open_braces_leave P : switch_perform_substitution (P := P) 3
  [36; 123; 49; 50; 51; 52; 36; 123; 53; 54; 55; 56; 57] demo_subject 100 demo_vector = Ub.
Proof. done. Qed.

(** A pattern that fills the buffer is written behind it. *)
Theorem ast2regex_overflows : switch_ast2regex (repeat 78 51) 256 = Ub.
Proof. done. Qed.
