(* ===== verification/DateTime.v ===== *)
(** * DateTime: conditions on the date and the time

    [switch_number_cmp], [switch_dow_cmp], [switch_tod_cmp], [switch_fulldate_cmp]
    and [switch_str_time] of src/switch_utils.c, and the check of the attributes of
    a tag in src/switch_xml.c that uses them.  The clock and the conversion of
    times (src/switch_time.c) are a class; a text with a date is taken apart by
    PCRE. *)
From S2P Require Import Prelude CoreHash ChannelNames StateMachine TextUtil UrlCode NetList Regex XmlText XmlTree XmlParse XmlPrint.
From Stdlib Require Import ZArith Lia Init.Byte.
From stdpp Require Import base numbers option list strings gmap.

Local Open Scope Z_scope.

(** ** Texts and times *)
Definition chars (s : String.string) : list Z := map byte_Z (str s).
Arguments chars s%_string_scope.
Definition strcasecmp (a b : list Z) : bool := bool_decide (map switch_tolower a = map switch_tolower b).

(** [switch_time_exp_t] *)
Record time_exp := mk_time {
  tm_usec : Z; tm_sec : Z; tm_min : Z; tm_hour : Z; tm_mday : Z; tm_mon : Z; tm_year : Z;
  tm_wday : Z; tm_yday : Z; tm_isdst : Z; tm_gmtoff : Z
}.
#[export] Instance eta_time_exp : Eta time_exp := fun t =>
  mk_time (tm_usec t) (tm_sec t) (tm_min t) (tm_hour t) (tm_mday t) (tm_mon t) (tm_year t) (tm_wday t) (tm_yday t)
    (tm_isdst t) (tm_gmtoff t).

(** A time zone may not be known, and [tm] is not written then. *)
Class clock := {
  switch_micro_time_now : Z;
  switch_time_exp_lt : Z -> time_exp;
  switch_time_exp_tz : Z -> Z -> time_exp;
  switch_time_exp_tz_name : list Z -> Z -> option time_exp;
  switch_time_exp_get : time_exp -> Z;
  switch_time_exp_gmt_get : time_exp -> Z
}.

(** [strtol] with base ten: the value and the text behind it, which is the whole
    text when there is no number. *)
Fixpoint digits_rest (s : list Z) : list Z :=
  match s with c :: r => if is_digit c then digits_rest r else s | [] => [] end.
Definition strtol (s : list Z) : Z * list Z :=
  let r := skip_front isspace s in
  let '(neg, r) := match r with
                   | c :: q => if c =? 45 then (true, q) else if c =? 43 then (false, q) else (false, r)
                   | [] => (false, r)
                   end in
  if is_digit (hd 0 r) then
    let v := digits_value r 0 in (clamp64 (if neg then - v else v), digits_rest r)
  else (0, s).
Definition atol (s : list Z) : Z := fst (strtol s).

(** The parts of a text between the separators. *)
Fixpoint parts (c : Z) (s : list Z) : list (list Z) :=
  match s with
  | [] => [[]]
  | b :: s =>
    match parts c s with
    | p :: ps => if b =? c then [] :: p :: ps else (b :: p) :: ps
    | [] => [[b]]
    end
  end.

(** ** Numbers and ranges *)

(** From [a] to [b]; when [b] is smaller, the range goes over the end. *)
Definition between (a b val : Z) : bool :=
  if a <=? b then (a <=? val) && (val <=? b) else (a <=? val) || (val <=? b).

Fixpoint number_loop (fuel : nat) (exp : list Z) (val : Z) : res bool :=
  match fuel with
  | O => Ub
  | S fuel =>
    let '(v, exp) := strtol exp in
    let a := i32 v in
    let '(hit, exp) :=
      match exp with
      | c :: r =>
        if c =? 45 then let '(v, exp) := strtol r in (between a (i32 v) val, exp) else (a =? val, exp)
      | [] => (a =? val, exp)
      end in
    if hit then Ret true
    else match exp with
         | c :: exp => if c =? 44 then number_loop fuel exp val else Ret false
         | [] => Ret false
         end
  end.
Definition switch_number_cmp (exp : list Z) (val : Z) : res bool := number_loop (S (length exp)) exp val.

(** ** Days of the week *)
Definition DOW : list (list Z) := map chars ["sun"; "mon"; "tue"; "wed"; "thu"; "fri"; "sat"]%string.
Definition switch_dow_int2str (val : Z) : res (list Z) :=
  or_ub (if val <? 0 then None else DOW !! Z.to_nat (if val >=? 7 then val mod 7 else val)).
(** [strncasecmp(DOW[x], exp, 3)] for one day after the other. *)
Fixpoint dow_search (days : list (list Z)) (x : Z) (exp : list Z) : Z :=
  match days with
  | [] => -1
  | d :: days => if strcasecmp d (take 3 exp) then x + 1 else dow_search days (x + 1) exp
  end.
Definition switch_dow_str2int (exp : list Z) : Z := dow_search DOW 0 exp.

(** [dow_t]: days from 1 to 7, and characters. *)
Definition DOW_ERR : Z := -2.
Definition DOW_EOF : Z := -1.
Definition DOW_HYPHEN : Z := 45.
Definition DOW_COMA : Z := 44.

Definition dow_read_token (s : list Z) : Z * list Z :=
  match s with
  | [] => (DOW_EOF, [])
  | c :: r =>
    if c =? 45 then (DOW_HYPHEN, r)
    else if c =? 44 then (DOW_COMA, r)
    else if (49 <=? c) && (c <=? 55) then (c - 48, r)
    else let i := switch_dow_str2int s in if negb (i =? -1) then (i, drop 3 s) else (DOW_ERR, s)
  end.

Fixpoint dow_loop (fuel : nat) (p : list Z) (prev range_start val : Z) : res bool :=
  match fuel with
  | O => Ub
  | S fuel =>
    let '(cur, p) := dow_read_token p in
    if cur =? DOW_EOF then Ret false
    else if cur =? DOW_COMA then dow_loop fuel p DOW_EOF range_start val
    else if cur =? DOW_HYPHEN then dow_loop fuel p cur prev val
    else if cur =? DOW_ERR then Ret false
    else if negb (range_start =? DOW_EOF) then
      if between range_start cur val then Ret true else dow_loop fuel p cur DOW_EOF val
    else if val =? cur then Ret true
    else dow_loop fuel p cur range_start val
  end.
Definition switch_dow_cmp (exp : list Z) (val : Z) : res bool := dow_loop (S (length exp)) exp DOW_EOF DOW_EOF val.

(** ** Times of the day *)

(** Seconds, computed in [long] and kept in [int]. *)
Definition in_long (v : Z) : res Z := if (- 2 ^ 63 <=? v) && (v <? 2 ^ 63) then Ret v else Ub.
Definition seconds (h m s : list Z) : res Z :=
  h <-! in_long (atol h * 60);; h <-! in_long (h * 60);; m <-! in_long (atol m * 60);;
  v <-! in_long (h + m);; v <-! in_long (v + atol s);; Ret (i32 v).
(** Up to the separator and behind it. *)
Definition with_default (c : Z) (s d : list Z) : list Z * list Z := default (s, d) (split_at c s).
Definition tod_part (cur : list Z) (val : Z) : res bool :=
  match split_at 58 cur with
  | None => Ret false
  | Some (minh, minm) =>
    match split_at 45 minm with
    | None => Ret false
    | Some (minm, maxh) =>
      match split_at 58 maxh with
      | None => Ret false
      | Some (maxh, maxm) =>
        let '(minm, mins) := with_default 58 minm [48; 48] in
        let '(maxm, maxs) := with_default 58 maxm [48; 48] in
        range_start <-! seconds minh minm mins;;
        range_end <-! seconds maxh maxm maxs;;
        Ret (between range_start range_end val)
      end
    end
  end.
Fixpoint tod_loop (ps : list (list Z)) (val : Z) : res bool :=
  match ps with
  | [] => Ret false
  | cur :: ps => b <-! tod_part cur val;; if (b : bool) then Ret true else tod_loop ps val
  end.
Definition switch_tod_cmp (exp : list Z) (val : Z) : res bool := tod_loop (parts 44 exp) val.

(** ** Dates *)
Section Dates.
Context {P : pcre} {C : clock}.

(** [switch_regex_copy_substring] into [replace], which keeps its text when there
    is no such group or no room. *)
Definition copy_substring (s ovector : list Z) (stringcount n : Z) (replace : list Z) : res (list Z) :=
  g <-! pcre_get_substring s ovector stringcount n;;
  Ret (match g with Some g => if zlen g <? 1024 then g else replace | None => replace end).

Definition DATE_PATTERN : list Z := chars "^(\d+)-(\d+)-(\d+)\s*(\d*):{0,1}(\d*):{0,1}(\d*)".
Definition DIGITS_PATTERN : list Z := chars "^(\d{4})(\d{2})(\d{2})(\d{2})(\d{2})(\d{2})".
Definition TIME_PATTERN : list Z := chars "^(\d*):{0,1}(\d*):{0,1}(\d*)$".

(** The numbers of the groups go into the fields, one after the other. *)
Fixpoint copy_groups (fields : list (Z -> time_exp -> time_exp)) (s ovector : list Z) (count n : Z) (replace : list Z) (tm : time_exp)
    : res (list Z * time_exp) :=
  match fields with
  | [] => Ret (replace, tm)
  | f :: fields =>
    if count >? n then
      replace <-! copy_substring s ovector count n replace;;
      copy_groups fields s ovector count (n + 1) replace (f (NetList.atoi replace) tm)
    else copy_groups fields s ovector count (n + 1) replace tm
  end.
Definition time_fields : list (Z -> time_exp -> time_exp) :=
  [fun v => set tm_hour (fun _ => v); fun v => set tm_min (fun _ => v); fun v => set tm_sec (fun _ => v)].
Definition date_fields : list (Z -> time_exp -> time_exp) :=
  [fun v => set tm_year (fun _ => v - 1900); fun v => set tm_mon (fun _ => v - 1); fun v => set tm_mday (fun _ => v)] ++ time_fields.

(** [ovector] is not initialized. *)
Definition switch_str_time (ovector s : list Z) : res Z :=
  let tm := switch_time_exp_lt switch_micro_time_now in
  '(time_only, re, ovector) <-! switch_regex_perform s TIME_PATTERN None ovector;;
  '(proceed, ovector, tm) <-!
    (if negb (time_only =? 0)
     then Ret (0, ovector, tm <| tm_hour := 0 |> <| tm_min := 0 |> <| tm_sec := 0 |>)
     else
       let tm := tm <| tm_year := 0 |> <| tm_mon := 0 |> <| tm_mday := 0 |> <| tm_hour := 0 |> <| tm_min := 0 |>
                    <| tm_sec := 0 |> <| tm_usec := 0 |> in
       '(proceed, re, ovector) <-! switch_regex_perform s DATE_PATTERN re ovector;;
       if negb (proceed =? 0) then Ret (proceed, ovector, tm)
       else '(proceed, _, ovector) <-! switch_regex_perform s DIGITS_PATTERN None ovector;; Ret (proceed, ovector, tm));;
  if negb (proceed =? 0) || negb (time_only =? 0) then
    '(replace, tm) <-! copy_groups time_fields s ovector time_only 1 [] tm;;
    '(_, tm) <-! copy_groups date_fields s ovector proceed 1 replace tm;;
    let local_tm := switch_time_exp_lt (switch_time_exp_get tm) in
    Ret (switch_time_exp_gmt_get (tm <| tm_isdst := tm_isdst local_tm |> <| tm_gmtoff := tm_gmtoff local_tm |>))
  else Ret 0.

Fixpoint fulldate_loop (ovector : list Z) (ps : list (list Z)) (ts : Z) : res bool :=
  match ps with
  | [] => Ret false
  | cur :: ps =>
    match split_at 126 cur with
    | None => fulldate_loop ovector ps ts
    | Some (sStart, sEnd) =>
      tsStart <-! switch_str_time ovector sStart;;
      tsEnd <-! switch_str_time ovector sEnd;;
      if (tsStart =? 0) || (tsEnd =? 0) then Ret false
      else if (tsStart <=? ts) && (tsEnd >? ts) then Ret true
      else fulldate_loop ovector ps ts
    end
  end.
Definition switch_fulldate_cmp (ovector exp : list Z) (ts : Z) : res bool := fulldate_loop ovector (parts 44 exp) ts.

(** ** The attributes of a tag *)
Definition attr_of (t : tag) (an : String.string) : option (list Z) :=
  option_map (default []) (switch_xml_attr (x_attr t) (chars an)).
Arguments attr_of t an%_string_scope.
Definition zstr_Z (s : option (list Z)) : bool := match s with Some s => bool_decide (s = []) | None => true end.
Definition true_Z (s : list Z) : res bool := switch_true (Some (to_cstring s)).

(** [if (time_match && attr) time_match = ...] *)
Definition check (attr : option (list Z)) (cmp : list Z -> res bool) (time_match : Z) : res Z :=
  match attr with
  | Some a => if time_match =? 0 then Ret 0 else b <-! cmp a;; Ret (if (b : bool) then 1 else 0)
  | None => Ret time_match
  end.
Definition week_of_month (tm : time_exp) : Z :=
  let firstdow := Z.rem (7 - Z.rem (tm_mday tm - (tm_wday tm + 1)) 7) 7 in
  (* ceil of the quotient, which is not negative *)
  (tm_mday tm + firstdow + 6) / 7.
Definition unset : Z := -1000.

(** The time in the zone asked for. *)
Definition chosen_time (offset : option Z) (tzname : option (list Z)) (ts : Z) : res time_exp :=
  match offset with
  | Some o => Ret (switch_time_exp_tz ts (o * 3600))
  | None => if negb (zstr_Z tzname) then or_ub (switch_time_exp_tz_name (default [] tzname) ts) else Ret (switch_time_exp_lt ts)
  end.

(** [offset] is that of the caller; [ovector] is what the vector of
    [switch_str_time] holds before it is written. *)
Definition switch_xml_std_datetime_check (xcond : tag) (offset : option Z) (tzname : option (list Z)) (ovector : list Z) : res Z :=
  let attr := attr_of xcond in
  let ts := switch_micro_time_now in
  dst <-! (if negb (zstr_Z (attr "dst"))
           then b <-! true_Z (default [] (attr "dst"));; Ret (if (b : bool) then 1 else 0) else Ret unset);;
  let loffset := match attr "tz-offset" with
                 | Some o => if negb (bool_decide (o = [])) && switch_is_number o then NetList.atoi o else unset
                 | None => unset
                 end in
  let tm2 := switch_time_exp_lt ts in
  tm <-! chosen_time offset tzname ts;;
  let eoffset := default unset offset in
  let eoffset := if eoffset =? unset then Z.quot (tm_gmtoff tm) 3600 else eoffset in
  let loffset := if loffset =? unset then eoffset else loffset in
  m <-! check (attr "tz-offset") (fun _ => Ret (loffset =? eoffset)) (-1);;
  let m := if negb (m =? 0) && (dst >? -1) then if (tm_isdst tm2 >? 0) && (dst >? 0) then 1 else 0 else m in
  m <-! check (attr "date-time") (fun x => switch_fulldate_cmp ovector x ts) m;;
  m <-! check (attr "year") (fun x => switch_number_cmp x (tm_year tm + 1900)) m;;
  m <-! check (attr "yday") (fun x => switch_number_cmp x (tm_yday tm + 1)) m;;
  m <-! check (attr "mon") (fun x => switch_number_cmp x (tm_mon tm + 1)) m;;
  m <-! check (attr "mday") (fun x => switch_number_cmp x (tm_mday tm)) m;;
  m <-! check (attr "week") (fun x => switch_number_cmp x (Z.quot (tm_yday tm) 7 + 1)) m;;
  m <-! check (attr "mweek") (fun x => switch_number_cmp x (week_of_month tm)) m;;
  m <-! check (attr "wday") (fun x => switch_dow_cmp x (tm_wday tm + 1)) m;;
  m <-! check (attr "hour") (fun x => switch_number_cmp x (tm_hour tm)) m;;
  m <-! check (attr "minute") (fun x => switch_number_cmp x (tm_min tm)) m;;
  m <-! check (attr "minute-of-day") (fun x => switch_number_cmp x (tm_hour tm * 60 + (tm_min tm + 1))) m;;
  check (attr "time-of-day") (fun x => switch_tod_cmp x (tm_hour tm * 60 * 60 + tm_min tm * 60 + tm_sec tm)) m.
End Dates.

(** ** Conditions that are written down *)

Definition good (k : Z) (ds : list Z) : Prop := ds <> [] /\ forallb is_digit ds = true /\ zlen ds <= k.
Definition number (ds : list Z) : Z := digits_value ds 0.
Fixpoint join (ls : list (list Z)) : list Z :=
  match ls with [] => [] | [l] => l | l :: ls => l ++ 44 :: join ls end.

(** Numbers and ranges of numbers. *)
Inductive num_item := One (ds : list Z) | Range (a b : list Z).
Definition num_text (i : num_item) : list Z := match i with One ds => ds | Range a b => a ++ 45 :: b end.
Definition num_good (i : num_item) : Prop := match i with One ds => good 9 ds | Range a b => good 9 a /\ good 9 b end.
Definition num_holds (val : Z) (i : num_item) : bool :=
  match i with One ds => number ds =? val | Range a b => between (number a) (number b) val end.

(** Days and ranges of days, in words that are read as the days. *)
Inductive day_item := Day (w : list Z) (d : Z) | Days (w1 : list Z) (d1 : Z) (w2 : list Z) (d2 : Z).
Definition day_word (w : list Z) (d : Z) : Prop := dow_read_token w = (d, []) /\ 1 <= d <= 7.
Definition day_text (i : day_item) : list Z := match i with Day w _ => w | Days w1 _ w2 _ => w1 ++ 45 :: w2 end.
Definition day_good (i : day_item) : Prop :=
  match i with Day w d => day_word w d | Days w1 d1 w2 d2 => day_word w1 d1 /\ day_word w2 d2 end.
Definition day_holds (val : Z) (i : day_item) : bool :=
  match i with Day _ d => val =? d | Days _ d1 _ d2 => between d1 d2 val end.

(** Times with or without seconds, and ranges of them. *)
Record tod := mk_tod { tod_h : list Z; tod_m : list Z; tod_s : option (list Z) }.
Definition tod_text (t : tod) : list Z := tod_h t ++ 58 :: tod_m t ++ match tod_s t with Some s => 58 :: s | None => [] end.
Definition tod_good (t : tod) : Prop := good 5 (tod_h t) /\ good 5 (tod_m t) /\ match tod_s t with Some s => good 5 s | None => True end.
Definition tod_seconds (t : tod) : Z :=
  number (tod_h t) * 3600 + number (tod_m t) * 60 + match tod_s t with Some s => number s | None => 0 end.
Definition span_text (i : tod * tod) : list Z := tod_text (fst i) ++ 45 :: tod_text (snd i).
Definition span_holds (val : Z) (i : tod * tod) : bool := between (tod_seconds (fst i)) (tod_seconds (snd i)) val.

(** *** Reading numbers *)
Definition no_digit (r : list Z) : Prop := is_digit (hd 0 r) = false.

Lemma digits_value_app ds : forall v r, forallb is_digit ds = true -> no_digit r -> digits_value (ds ++ r) v = digits_value ds v.
Proof.
  induction ds as [|d ds IH]; intros v r Hd Hr; cbn [app digits_value].
  - destruct r as [|c r]; [done|]. unfold no_digit, is_digit in Hr. cbn [hd] in Hr. cbn [digits_value].
    case_if E; [|done]. boolify; lia.
  - cbn [forallb] in Hd. apply andb_prop in Hd as [Hc Hd]. case_if E; [by apply IH|done].
Qed.
Lemma digits_rest_app ds r : forallb is_digit ds = true -> no_digit r -> digits_rest (ds ++ r) = r.
Proof.
  intros Hd Hr. induction ds as [|d ds IH]; cbn [app digits_rest].
  - destruct r as [|c r]; [done|]. unfold no_digit in Hr. cbn in *. by rewrite Hr.
  - cbn [forallb] in Hd. apply andb_prop in Hd as [Hc Hd]. rewrite Hc. auto.
Qed.

Lemma number_range k ds : good k ds -> 0 <= number ds < 10 ^ k.
Proof.
  intros (Hn & Hd & Hz). pose proof (digits_value_bound ds 0 ltac:(lia) Hd) as Hb. unfold number. split; [lia|].
  eapply Z.lt_le_trans; [apply Hb|]. rewrite Z.mul_1_l. apply Z.pow_le_mono_r; lia.
Qed.

Lemma strtol_digits k ds r : good k ds -> k <= 9 -> no_digit r -> strtol (ds ++ r) = (number ds, r).
Proof.
  intros Hg Hk Hr. pose proof (number_range k ds Hg) as Hb.
  assert (10 ^ k <= 10 ^ 9) by (apply Z.pow_le_mono_r; lia). change (10 ^ 9) with 1000000000 in *.
  destruct Hg as (Hn & Hd & _). destruct ds as [|d ds]; [done|].
  assert (Hc : is_digit d = true) by (cbn [forallb] in Hd; by apply andb_prop in Hd as [? _]).
  assert (Hc' : 47 < d < 58) by (unfold is_digit in Hc; boolify; lia).
  unfold strtol. cbn [app skip_front]. unfold isspace. rewrite (proj2 (Z.eqb_neq d 32)), (proj2 (Z.leb_gt d 13)), andb_false_r by lia.
  cbn [orb]. rewrite (proj2 (Z.eqb_neq d 45)), (proj2 (Z.eqb_neq d 43)) by lia. cbn [hd]. rewrite Hc.
  change (d :: ds ++ r) with ((d :: ds) ++ r). rewrite digits_value_app, digits_rest_app by done. fold (number (d :: ds)).
  unfold clamp64. by rewrite Z.min_r, Z.max_r by lia.
Qed.

Lemma number_i32 ds : good 9 ds -> i32 (number ds) = number ds.
Proof. intros Hg. pose proof (number_range 9 ds Hg). change (10 ^ 9) with 1000000000 in *. apply i32_small. lia. Qed.

(** *** Lists of items *)
Lemma join_cons l ls : ls <> [] -> join (l :: ls) = l ++ 44 :: join ls.
Proof. by destruct ls. Qed.
Lemma join_length l ls : (length l + length (join ls) <= length (join (l :: ls)))%nat.
Proof. destruct ls; simpl; rewrite ?length_app; simpl; lia. Qed.

Lemma number_loop_items val items : forall fuel, items <> [] -> Forall num_good items ->
  (length (join (map num_text items)) < fuel)%nat ->
  number_loop fuel (join (map num_text items)) val = Ret (existsb (num_holds val) items).
Proof.
  induction items as [|i items IH]; intros fuel Hn Hg Hf; [done|]. clear Hn. apply Forall_cons in Hg as [Hi Hg].
  destruct fuel as [|fuel]; [lia|]. cbn [number_loop existsb].
  assert (Hrest : exists r, join (map num_text (i :: items)) = num_text i ++ r /\ no_digit r /\ r <> 45 :: tl r /\
    match r with c :: exp => if c =? 44 then number_loop fuel exp val else Ret false | [] => Ret false end = Ret (existsb (num_holds val) items)).
  { destruct items as [|i' items].
    - exists []. cbn [map join]. by rewrite app_nil_r.
    - exists (44 :: join (map num_text (i' :: items))). split; [done|]. split; [done|]. split; [done|].
      change (44 =? 44) with true. cbv iota. apply IH; [done|done|]. cbn [map] in *.
      rewrite join_cons, length_app in Hf by done. simpl in Hf. simpl. lia. }
  destruct Hrest as (r & -> & Hr & Hr' & E). destruct i as [ds|a b]; cbn [num_text num_holds].
  - rewrite (strtol_digits 9) by (done || lia). rewrite number_i32 by done.
    assert (E2 : match r with c :: r0 => if c =? 45 then let '(v, exp) := strtol r0 in (between (number ds) (i32 v) val, exp) else (number ds =? val, r)
      | [] => (number ds =? val, r) end = (number ds =? val, r)).
    { destruct r as [|c r]; [done|]. destruct (Z.eqb_spec c 45) as [->|]; [done|done]. }
    rewrite E2. destruct (number ds =? val); [done|]. exact E.
  - destruct Hi as [Ha Hb]. rewrite <- app_assoc. cbn [app]. rewrite (strtol_digits 9) by (done || lia).
    change (45 =? 45) with true. cbv iota. rewrite (strtol_digits 9) by (done || lia). rewrite !number_i32 by done.
    destruct (between _ _ _); [done|]. exact E.
Qed.

Lemma number_cmp_items val items : items <> [] -> Forall num_good items ->
  switch_number_cmp (join (map num_text items)) val = Ret (existsb (num_holds val) items).
Proof. intros Hn Hg. apply number_loop_items; [done|done|lia]. Qed.

(** *** Days *)
Lemma dow_search_spec days : forall x exp, dow_search days x exp = -1 \/ exists d, d ∈ days /\ strcasecmp d (take 3 exp) = true.
Proof.
  induction days as [|d days IH]; intros x exp; cbn [dow_search]; [by left|].
  destruct (strcasecmp d (take 3 exp)) eqn:E; [right; exists d; split; [left|done]|].
  destruct (IH (x + 1) exp) as [|(d' & Hd & E')]; [by left|right; exists d'; split; [by right|done]].
Qed.
Lemma strcasecmp_length a b : strcasecmp a b = true -> length a = length b.
Proof. unfold strcasecmp. intros E%bool_decide_eq_true. by rewrite <- (length_map switch_tolower a), E, length_map. Qed.

(** A word is read with whatever follows. *)
Lemma day_word_app w d r : day_word w d -> dow_read_token (w ++ r) = (d, r).
Proof.
  intros [E Hd]. destruct w as [|c w]; [injection E; intros; subst d; unfold DOW_EOF in Hd; lia|].
  cbn [app dow_read_token] in *.
  case_if_in E E1; [injection E; intros; subst; unfold DOW_HYPHEN in Hd; lia|].
  case_if_in E E2; [injection E; intros; subst; unfold DOW_COMA in Hd; lia|].
  case_if_in E E3; [injection E as <- ->; done|].
  cbv zeta in *. destruct (dow_search_spec DOW 0 (c :: w)) as [E4|(day & Hday & E4)].
  { unfold switch_dow_str2int in E. rewrite E4 in E. injection E; intros; subst; unfold DOW_ERR in Hd; lia. }
  assert (Hl : length (c :: w) = 3%nat).
  { apply strcasecmp_length in E4. assert (length day = 3%nat).
    { unfold DOW in Hday. repeat (apply elem_of_cons in Hday as [->|Hday]; [done|]). by apply not_elem_of_nil in Hday. }
    case_if_in E E5; [|injection E; intros; subst; unfold DOW_ERR in Hd; lia].
    apply (f_equal snd) in E. cbn [snd] in E. rewrite length_take in E4. apply (f_equal length) in E. rewrite length_drop in E. cbn [length] in *. lia. }
  change (c :: w ++ r) with ((c :: w) ++ r). rewrite drop_app_length' by done.
  assert (Es : forall x, dow_search DOW x ((c :: w) ++ r) = dow_search DOW x (c :: w)).
  { intros x. generalize DOW. intros days. revert x. induction days as [|day' days IH]; intros x; [done|]. cbn [dow_search].
    rewrite take_app_le by lia. by rewrite IH. }
  unfold switch_dow_str2int in *. rewrite Es. case_if_in E E5; injection E; intros; subst; [done|unfold DOW_ERR in Hd; lia].
Qed.

(** A step of the loop that reads a day, a hyphen or a comma. *)
Lemma dow_loop_day fuel w d r prev range_start val : day_word w d ->
  dow_loop (S fuel) (w ++ r) prev range_start val =
    if negb (range_start =? DOW_EOF) then if between range_start d val then Ret true else dow_loop fuel r d DOW_EOF val
    else if val =? d then Ret true else dow_loop fuel r d range_start val.
Proof.
  intros Hw. cbn [dow_loop]. rewrite (day_word_app w d r Hw). destruct Hw as [_ Hd].
  unfold DOW_EOF at 1, DOW_COMA, DOW_HYPHEN, DOW_ERR. by rewrite !(proj2 (Z.eqb_neq d _)) by lia.
Qed.

Lemma day_word_length w d : day_word w d -> (0 < length w)%nat.
Proof. intros [E Hd]. destruct w; [injection E; intros; subst d; unfold DOW_EOF in Hd; lia|simpl; lia]. Qed.

Lemma dow_loop_items val items : forall fuel, Forall day_good items ->
  (length (join (map day_text items)) < fuel)%nat ->
  dow_loop fuel (join (map day_text items)) DOW_EOF DOW_EOF val = Ret (existsb (day_holds val) items).
Proof.
  induction items as [|i items IH]; intros fuel Hg Hf; [by destruct fuel; [simpl in Hf; lia|]|].
  apply Forall_cons in Hg as [Hi Hg]. cbn [existsb].
  assert (Hrest : exists r, join (map day_text (i :: items)) = day_text i ++ r /\
    forall fuel prev, (length r < fuel)%nat -> dow_loop fuel r prev DOW_EOF val = Ret (existsb (day_holds val) items)).
  { destruct items as [|i' items].
    - exists []. cbn [map join]. rewrite app_nil_r. split; [done|]. intros [|f] prev Hl; [simpl in Hl; lia|done].
    - exists (44 :: join (map day_text (i' :: items))). split; [done|]. intros [|f] prev Hl; [simpl in Hl; lia|].
      cbn [dow_loop dow_read_token]. apply IH; [done|simpl in *; lia]. }
  destruct Hrest as (r & Er & Hr). rewrite Er in *. rewrite length_app in Hf. destruct i as [w d|w1 d1 w2 d2]; cbn [day_text day_holds] in *.
  - pose proof (day_word_length w d Hi). destruct fuel as [|fuel]; [lia|]. rewrite (dow_loop_day fuel w d) by done. change (DOW_EOF =? DOW_EOF) with true. cbn [negb].
    destruct (val =? d); [done|]. apply Hr. lia.
  - destruct Hi as [H1 H2]. pose proof (day_word_length w1 d1 H1). pose proof (day_word_length w2 d2 H2).
    rewrite length_app in Hf. cbn [length] in Hf. do 3 (destruct fuel as [|fuel]; [lia|]). rewrite <- app_assoc, (dow_loop_day _ w1 d1) by done.
    change (DOW_EOF =? DOW_EOF) with true. cbn [negb app].
    assert (Hrange : dow_loop (S (S fuel)) (45 :: w2 ++ r) d1 DOW_EOF val = Ret (between d1 d2 val || existsb (day_holds val) items)).
    { change (dow_loop (S (S fuel)) (45 :: w2 ++ r) d1 DOW_EOF val) with (dow_loop (S fuel) (w2 ++ r) DOW_HYPHEN d1 val).
      rewrite (dow_loop_day _ w2 d2) by done. rewrite (proj2 (Z.eqb_neq d1 DOW_EOF)) by (destruct H1 as [_ ?]; unfold DOW_EOF; lia). cbn [negb].
      destruct (between d1 d2 val); [done|]. apply Hr. lia. }
    rewrite Hrange. destruct (Z.eqb_spec val d1) as [->|]; [|done]. f_equal. unfold between. destruct H1 as [_ ?], H2 as [_ ?].
    case_if E; boolify; rewrite ?(proj2 (Z.leb_le _ _)) by lia; try done.
Qed.

Lemma dow_cmp_items val items : Forall day_good items ->
  switch_dow_cmp (join (map day_text items)) val = Ret (existsb (day_holds val) items).
Proof. intros Hg. apply dow_loop_items; [done|lia]. Qed.

(** *** Times of the day *)
Lemma parts_app c l r : c ∉ l -> parts c (l ++ c :: r) = l :: parts c r.
Proof.
  intros Hl. induction l as [|b l IH]; cbn [app parts].
  - destruct (parts c r) as [|p ps] eqn:E; [|by rewrite Z.eqb_refl]. destruct r as [|b r]; [done|]. cbn [parts] in E. by repeat case_match.
  - apply not_elem_of_cons in Hl as [Hb Hl]. rewrite IH by done. by rewrite (proj2 (Z.eqb_neq b c)) by congruence.
Qed.
Lemma parts_single c l : c ∉ l -> parts c l = [l].
Proof.
  intros Hl. induction l as [|b l IH]; [done|]. apply not_elem_of_cons in Hl as [Hb Hl]. cbn [parts]. rewrite IH by done.
  by rewrite (proj2 (Z.eqb_neq b c)) by congruence.
Qed.
Lemma parts_join ls : ls <> [] -> Forall (fun l => 44 ∉ l) ls -> parts 44 (join ls) = ls.
Proof.
  intros Hn Hl. induction Hl as [|l ls Hc Hl IH]; [done|]. destruct ls as [|l' ls]; [by apply parts_single|].
  rewrite join_cons, parts_app by done. by rewrite IH.
Qed.

Lemma good_not_in k ds c : good k ds -> is_digit c = false -> c ∉ ds.
Proof.
  intros (_ & Hd & _) Hc Hin. rewrite forallb_forall in Hd. rewrite Hd in Hc; [done|]. by apply list_elem_of_In.
Qed.
Lemma atol_number k ds : good k ds -> k <= 9 -> atol ds = number ds.
Proof. intros Hg Hk. unfold atol. rewrite <- (app_nil_r ds) at 1. by rewrite (strtol_digits k). Qed.
Lemma in_long_small v : - 1000000000000 <= v < 1000000000000 -> in_long v = Ret v.
Proof.
  intros Hv. unfold in_long. change (2 ^ 63) with 9223372036854775808. by rewrite (proj2 (Z.leb_le _ _)), (proj2 (Z.ltb_lt _ _)) by lia.
Qed.

Lemma tod_seconds_range t : tod_good t -> 0 <= tod_seconds t < 2147483648.
Proof.
  intros (Hh & Hm & Hs). apply number_range in Hh, Hm. change (10 ^ 5) with 100000 in *. unfold tod_seconds.
  destruct (tod_s t); [apply number_range in Hs; change (10 ^ 5) with 100000 in *|]; lia.
Qed.
Lemma seconds_tod t : tod_good t -> seconds (tod_h t) (tod_m t) (default [48; 48] (tod_s t)) = Ret (tod_seconds t).
Proof.
  intros Ht. pose proof (tod_seconds_range t Ht) as Hr. destruct Ht as (Hh & Hm & Hs). unfold tod_seconds in *.
  pose proof (number_range 5 _ Hh). pose proof (number_range 5 _ Hm). change (10 ^ 5) with 100000 in *.
  assert (Es : atol (default [48; 48] (tod_s t)) = match tod_s t with Some s => number s | None => 0 end)
    by (destruct (tod_s t); [by apply (atol_number 5)|done]).
  assert (0 <= match tod_s t with Some s => number s | None => 0 end < 100000)
    by (destruct (tod_s t); [apply (number_range 5) in Hs; change (10 ^ 5) with 100000 in *; lia|lia]).
  unfold seconds. rewrite !(atol_number 5), Es by (done || lia). repeat (rewrite in_long_small by lia; cbn [rbind]).
  rewrite i32_small by lia. f_equal. lia.
Qed.

(** The minutes and the seconds of a time. *)
Lemma with_default_tod t : tod_good t ->
  with_default 58 (tod_m t ++ match tod_s t with Some s => 58 :: s | None => [] end) [48; 48] =
    (tod_m t, default [48; 48] (tod_s t)).
Proof.
  intros (_ & Hm & _). pose proof (good_not_in 5 _ 58 Hm eq_refl). unfold with_default. destruct (tod_s t) as [s|].
  - by rewrite split_at_app.
  - by rewrite app_nil_r, split_at_none.
Qed.
Lemma tod_rest_not_in t c : tod_good t -> is_digit c = false -> c <> 58 -> c ∉ tod_m t ++ match tod_s t with Some s => 58 :: s | None => [] end.
Proof.
  intros (_ & Hm & Hs) Hc Hne. rewrite elem_of_app. intros [Hin|Hin]; [by apply (good_not_in 5 _ c Hm)|].
  destruct (tod_s t) as [s|]; [|by apply not_elem_of_nil in Hin]. apply elem_of_cons in Hin as [|Hin]; [done|by apply (good_not_in 5 _ c Hs)].
Qed.
Lemma tod_text_not_in t c : tod_good t -> is_digit c = false -> c <> 58 -> c ∉ tod_text t.
Proof.
  intros Ht Hc Hne. unfold tod_text. rewrite elem_of_app, elem_of_cons. intros [Hin|[|Hin]]; [|done|by apply (tod_rest_not_in t c)].
  destruct Ht as (Hh & _). by apply (good_not_in 5 _ c Hh).
Qed.

Lemma tod_part_span i val : tod_good (fst i) -> tod_good (snd i) -> tod_part (span_text i) val = Ret (span_holds val i).
Proof.
  destruct i as [t u]. cbn [fst snd]. intros Ht Hu. unfold tod_part, span_text, span_holds. cbn [fst snd].
  pose proof (tod_rest_not_in t 45 Ht eq_refl ltac:(done)) as N1. pose proof Ht as (Hh & _). pose proof Hu as (Hh' & _).
  unfold tod_text at 1. rewrite <- app_assoc. cbn [app]. rewrite split_at_app by (by apply (good_not_in 5)).
  rewrite split_at_app by done. unfold tod_text. rewrite split_at_app by (by apply (good_not_in 5)).
  rewrite !with_default_tod by done. rewrite !seconds_tod by done. done.
Qed.

Lemma tod_cmp_items val items : items <> [] -> Forall (fun i => tod_good (fst i) /\ tod_good (snd i)) items ->
  switch_tod_cmp (join (map span_text items)) val = Ret (existsb (span_holds val) items).
Proof.
  intros Hn Hg. unfold switch_tod_cmp. rewrite parts_join.
  - induction Hg as [|i items [H1 H2] Hg IH]; [done|]. cbn [map tod_loop existsb]. rewrite tod_part_span by done. cbn [rbind].
    destruct (span_holds val i); [done|]. destruct items; [done|by apply IH].
  - by destruct items.
  - apply Forall_map, (Forall_impl _ _ _ Hg). intros i [H1 H2]. unfold span_text. rewrite elem_of_app, elem_of_cons.
    intros [Hin|[|Hin]]; [by apply (tod_text_not_in _ 44) in Hin|done|by apply (tod_text_not_in _ 44) in Hin].
Qed.

(** *** The whole condition *)
Record condition := mk_condition {
  c_year : list num_item; c_yday : list num_item; c_mon : list num_item; c_mday : list num_item; c_week : list num_item;
  c_mweek : list num_item; c_wday : list day_item; c_hour : list num_item; c_minute : list num_item;
  c_minday : list num_item; c_tod : list (tod * tod)
}.
Definition items_text {A} (text : A -> list Z) (items : list A) : option (list Z) :=
  match items with [] => None | _ => Some (join (map text items)) end.
(** The attributes of a tag are those of a condition. *)
Record written (t : tag) (c : condition) : Prop := {
  w_dst : attr_of t "dst" = None;
  w_offset : attr_of t "tz-offset" = None;
  w_date : attr_of t "date-time" = None;
  w_year : attr_of t "year" = items_text num_text (c_year c);
  w_yday : attr_of t "yday" = items_text num_text (c_yday c);
  w_mon : attr_of t "mon" = items_text num_text (c_mon c);
  w_mday : attr_of t "mday" = items_text num_text (c_mday c);
  w_week : attr_of t "week" = items_text num_text (c_week c);
  w_mweek : attr_of t "mweek" = items_text num_text (c_mweek c);
  w_wday : attr_of t "wday" = items_text day_text (c_wday c);
  w_hour : attr_of t "hour" = items_text num_text (c_hour c);
  w_minute : attr_of t "minute" = items_text num_text (c_minute c);
  w_minday : attr_of t "minute-of-day" = items_text num_text (c_minday c);
  w_tod : attr_of t "time-of-day" = items_text span_text (c_tod c)
}.
Definition all_good (c : condition) : Prop :=
  Forall (Forall num_good) [c_year c; c_yday c; c_mon c; c_mday c; c_week c; c_mweek c; c_hour c; c_minute c; c_minday c] /\
  Forall day_good (c_wday c) /\ Forall (fun i => tod_good (fst i) /\ tod_good (snd i)) (c_tod c).

(** What each part says of a time: nothing when it is not there. *)
Definition says {A} (holds : Z -> A -> bool) (items : list A) (v : Z) : option bool :=
  match items with [] => None | _ => Some (existsb (holds v) items) end.
Definition sayings (c : condition) (tm : time_exp) : list (option bool) :=
  [says num_holds (c_year c) (tm_year tm + 1900); says num_holds (c_yday c) (tm_yday tm + 1);
   says num_holds (c_mon c) (tm_mon tm + 1); says num_holds (c_mday c) (tm_mday tm);
   says num_holds (c_week c) (Z.quot (tm_yday tm) 7 + 1); says num_holds (c_mweek c) (week_of_month tm);
   says day_holds (c_wday c) (tm_wday tm + 1); says num_holds (c_hour c) (tm_hour tm);
   says num_holds (c_minute c) (tm_min tm); says num_holds (c_minday c) (tm_hour tm * 60 + (tm_min tm + 1));
   says span_holds (c_tod c) (tm_hour tm * 60 * 60 + tm_min tm * 60 + tm_sec tm)].
Definition verdict (l : list (option bool)) : Z :=
  if forallb (fun o => match o with None => true | _ => false end) l then -1
  else if forallb (fun o => default true o) l then 1 else 0.

Definition step (m : Z) (o : option bool) : Z :=
  match o with None => m | Some b => if m =? 0 then 0 else if b then 1 else 0 end.
Lemma steps_fail l : fold_left step l 0 = 0.
Proof. induction l as [|[b|] l IH]; done. Qed.
Lemma steps_pass l : fold_left step l 1 = if forallb (fun o => default true o) l then 1 else 0.
Proof. induction l as [|[[]|] l IH]; [done|exact IH|apply steps_fail|exact IH]. Qed.
Lemma steps_verdict l : fold_left step l (-1) = verdict l.
Proof. unfold verdict. induction l as [|[[]|] l IH]; [done|exact (steps_pass l)|exact (steps_fail l)|exact IH]. Qed.

Lemma check_items {A} (text : A -> list Z) (holds : Z -> A -> bool) attr cmp (items : list A) v m :
  attr = items_text text items -> (items <> [] -> cmp (join (map text items)) = Ret (existsb (holds v) items)) ->
  check attr cmp m = Ret (step m (says holds items v)).
Proof.
  intros -> Hc. destruct items as [|i items]; [done|]. unfold check, items_text, says, step. destruct (m =? 0); [done|].
  rewrite Hc by done. done.
Qed.
Lemma check_numbers t an cmp items v m : attr_of t an = items_text num_text items -> Forall num_good items ->
  (forall x, cmp x = switch_number_cmp x v) -> check (attr_of t an) cmp m = Ret (step m (says num_holds items v)).
Proof. intros E Hg Hc. apply (check_items num_text); [done|]. intros Hn. rewrite Hc. by apply number_cmp_items. Qed.

(** The check of a tag with the attributes of a condition. *)
Lemma check_written {P : pcre} {C : clock} t c offset tzname ovector tm :
  written t c -> all_good c -> chosen_time offset tzname switch_micro_time_now = Ret tm ->
  switch_xml_std_datetime_check t offset tzname ovector = Ret (verdict (sayings c tm)).
Proof.
  intros W (Hg & Hdays & Htod) Ht. unfold switch_xml_std_datetime_check. rewrite Ht, (w_dst _ _ W), (w_offset _ _ W), (w_date _ _ W).
  cbn [zstr_Z negb rbind]. cbn [check rbind]. change (unset >? -1) with false. rewrite andb_false_r.
  repeat apply Forall_cons in Hg as [? Hg].
  rewrite (check_numbers t "year" _ (c_year c) (tm_year tm + 1900)) by (done || apply W). cbn [rbind].
  rewrite (check_numbers t "yday" _ (c_yday c) (tm_yday tm + 1)) by (done || apply W). cbn [rbind].
  rewrite (check_numbers t "mon" _ (c_mon c) (tm_mon tm + 1)) by (done || apply W). cbn [rbind].
  rewrite (check_numbers t "mday" _ (c_mday c) (tm_mday tm)) by (done || apply W). cbn [rbind].
  rewrite (check_numbers t "week" _ (c_week c) (Z.quot (tm_yday tm) 7 + 1)) by (done || apply W). cbn [rbind].
  rewrite (check_numbers t "mweek" _ (c_mweek c) (week_of_month tm)) by (done || apply W). cbn [rbind].
  rewrite (check_items day_text day_holds _ _ (c_wday c) (tm_wday tm + 1)) by (apply W || (intros; by apply dow_cmp_items)). cbn [rbind].
  rewrite (check_numbers t "hour" _ (c_hour c) (tm_hour tm)) by (done || apply W). cbn [rbind].
  rewrite (check_numbers t "minute" _ (c_minute c) (tm_min tm)) by (done || apply W). cbn [rbind].
  rewrite (check_numbers t "minute-of-day" _ (c_minday c) (tm_hour tm * 60 + (tm_min tm + 1))) by (done || apply W). cbn [rbind].
  rewrite (check_items span_text span_holds _ _ (c_tod c) (tm_hour tm * 60 * 60 + tm_min tm * 60 + tm_sec tm))
    by (apply W || (intros; by apply tod_cmp_items)).
  by rewrite <- steps_verdict.
Qed.

(** C20: A condition on the date and the time means what it says: when the
    attributes of a tag are lists of numbers, of days (in any form the parser
    reads) and of times of the day, with ranges that may go over the end of the
    year, the week, the day, then for every time zone and every time in it
    [switch_xml_std_datetime_check] returns without leaving its texts, -1 when the
    tag has no such attribute, 1 when each attribute has an item that covers the
    time, and 0 otherwise. *)
Theorem datetime_condition_holds {P : pcre} {C : clock} t c offset tzname ovector tm :
  written t c -> all_good c -> chosen_time offset tzname switch_micro_time_now = Ret tm ->
  switch_xml_std_datetime_check t offset tzname ovector = Ret (verdict (sayings c tm)).
Proof. apply check_written. Qed.

(** Monday to Friday from 9:00 to 17:30, but in the night from 22:00 to 6:00 every
    day; at a Tuesday, 23:15:00. *)
Definition demo_time : time_exp := mk_time 0 0 15 23 4 6 126 2 184 0 0.
#[local] Instance demo_clock : clock := {| switch_micro_time_now := 1; switch_time_exp_lt := fun _ => demo_time;
  switch_time_exp_tz := fun _ _ => demo_time; switch_time_exp_tz_name := fun _ _ => None;
  switch_time_exp_get := fun _ => 0; switch_time_exp_gmt_get := fun _ => 0 |}.
Definition demo_condition : condition :=
  mk_condition [] [] [] [] [] [] [Days (chars "Mon") 2 (chars "fri") 6; Day (chars "7") 7] [] [] []
    [(mk_tod (chars "09") (chars "00") None, mk_tod (chars "17") (chars "30") (Some (chars "59")));
     (mk_tod (chars "22") (chars "00") None, mk_tod (chars "6") (chars "0") None)].
Definition demo_tag : tag :=
  mk_tag (chars "condition") [(chars "wday", Some (chars "Mon-fri,7"));
    (chars "time-of-day", Some (chars "09:00-17:30:59,22:00-6:0"))] [] 0 None None None None None.

Lemma demo_written : written demo_tag demo_condition.
Proof. constructor; vm_compute; reflexivity. Qed.
Ltac good_digits := split; [discriminate|split; [reflexivity|vm_compute; discriminate]].
Ltac good_word := split; [vm_compute; reflexivity|lia].
Lemma demo_good : all_good demo_condition.
Proof.
  split; [|split].
  - repeat constructor.
  - apply Forall_cons. split; [split; good_word|]. apply Forall_singleton. good_word.
  - apply Forall_cons. split.
    + split; (split; [good_digits|split; [good_digits|]]); [done|good_digits].
    + apply Forall_singleton. split; (split; [good_digits|split; [good_digits|done]]).
Qed.

Lemma datetime_condition_holds_witness :
  switch_xml_std_datetime_check (P := no_pcre) demo_tag None None [] = Ret 1 /\ verdict (sayings demo_condition demo_time) = 1.
Proof.
  split; [|reflexivity].
  exact (@datetime_condition_holds no_pcre demo_clock demo_tag demo_condition None None [] demo_time demo_written demo_good eq_refl).
Defined.

(** ** Where a condition is not what it says *)

Definition dst_tag (v : list Z) : tag := mk_tag (chars "condition") [(chars "dst", Some v)] [] 0 None None None None None.
(** The condition [dst="false"] never holds, in whatever time. *)
Theorem dst_false_never_holds {P : pcre} {C : clock} tzname ovector tm : chosen_time None tzname switch_micro_time_now = Ret tm ->
  switch_xml_std_datetime_check (dst_tag (chars "false")) None tzname ovector = Ret 0.
Proof.
  intros Ht. unfold switch_xml_std_datetime_check. rewrite Ht.
  assert (Ed : attr_of (dst_tag (chars "false")) "dst" = Some (chars "false")) by reflexivity.
  assert (En : forall an, bool_decide (chars an = chars "dst") = false -> attr_of (dst_tag (chars "false")) an = None).
  { intros an Han. unfold attr_of, dst_tag. cbn [x_attr switch_xml_attr]. rewrite bool_decide_false; [done|].
    apply bool_decide_eq_false in Han. congruence. }
  rewrite Ed, !En by reflexivity.
  change (true_Z (default [] (Some (chars "false")))) with (Ret (A := bool) false).
  change (negb (zstr_Z (Some (chars "false")))) with true. cbn [rbind check]. cbv iota zeta.
  change (0 >? -1) with true. change (negb (-1 =? 0)) with true. cbn [andb]. change (0 >? 0) with false. by rewrite andb_false_r.
Qed.

(** A hyphen before a comma makes a range of what follows: [mon-,fri] holds on a
    Wednesday. *)
Theorem range_survives_comma : switch_dow_cmp (chars "mon-,fri") 4 = Ret true.
Proof. reflexivity. Qed.

(** Behind [sunday] nothing is read any more. *)
Theorem long_names_end : switch_dow_cmp (chars "sunday,monday") 2 = Ret false.
Proof. reflexivity. Qed.

(** An empty attribute is the number zero. *)
Theorem empty_is_zero : switch_number_cmp [] 0 = Ret true.
Proof. reflexivity. Qed.
