(* ===== verification/Caller.v ===== *)
(** * Caller: caller profiles and extensions, src/switch_caller.c

    The text and number fields of a profile are tables by the field's name; a
    null pointer is [None].  Memory pools are not modelled: every copy is a value
    of its own.  An extension is its list of applications and the position of the
    current one, which is the length of the list for a null pointer. *)
From S2P Require Import Prelude CoreHash ChannelNames UrlCode TextUtil EventText DateTime.
From Stdlib Require Import ZArith Lia.
From stdpp Require Import base numbers option list strings.

Local Open Scope Z_scope.

(** ** Texts from outside *)
Definition switch_clean_string (s : list Z) : list Z :=
  map (fun x => if (x <? 32) && negb (x =? 10) && negb (x =? 13) then 32 else x) s.

(** [switch_string_var_check_const]: is there a reference to a variable?  [dol]: a
    dollar sign is open. *)
Fixpoint var_check_loop (s : list Z) (dol : bool) : bool :=
  match s with
  | [] => false
  | c :: s =>
    if c =? 36 then var_check_loop s true
    else if dol then
      if c =? 123 then true else var_check_loop s (c =? 92)
    else var_check_loop s false
  end.
Definition switch_string_var_check_const (s : list Z) : bool := var_check_loop s false.

(** [switch_string_var_check] with [disable]: the dollar sign of a reference becomes
    a percent sign.  [dol] is the text from the open dollar sign on, before [s]. *)
Fixpoint var_clean_loop (s : list Z) (dol : option (list Z)) : list Z :=
  match s with
  | [] => default [] dol
  | c :: s =>
    if c =? 36 then default [] dol ++ var_clean_loop s (Some [c])
    else match dol with
         | Some d =>
           if c =? 123 then (37 :: tl d) ++ c :: var_clean_loop s None
           else if c =? 92 then var_clean_loop s (Some (d ++ [c]))
           else d ++ c :: var_clean_loop s None
         | None => c :: var_clean_loop s None
         end
  end.
Definition switch_var_clean_string (s : list Z) : list Z := var_clean_loop s None.

(** ** Profiles *)
Inductive text_field :=
| username | dialplan | caller_id_name | caller_id_number | orig_caller_id_name | orig_caller_id_number
| callee_id_name | callee_id_number | network_addr | ani | aniii | rdnis | destination_number | source
| chan_name | uuid | context | profile_index | transfer_source | uuid_str | clone_of.
Inductive number_field :=
| caller_ton | caller_numplan | ani_ton | ani_numplan | rdnis_ton | rdnis_numplan
| destination_number_ton | destination_number_numplan.
#[export] Instance text_field_eq : EqDecision text_field.
Proof. solve_decision. Defined.

(** [switch_channel_timetable_t] *)
Record timetable := mk_timetable {
  profile_created : Z; created : Z; answered : Z; progress : Z; progress_media : Z; hungup : Z; transferred : Z;
  resurrected : Z; bridged : Z; last_hold : Z; hold_accum : Z
}.
Definition no_times : timetable := mk_timetable 0 0 0 0 0 0 0 0 0 0 0.

Record caller_profile := mk_profile {
  p_text : text_field -> option (list Z);
  p_number : number_field -> Z;
  p_flags : Z;
  p_times : option timetable;
  p_old_times : option timetable;
  p_direction : Z;
  p_logical_direction : Z;
  p_soft : list (list Z * list Z)
}.
#[export] Instance eta_profile : Eta caller_profile := fun p =>
  mk_profile (p_text p) (p_number p) (p_flags p) (p_times p) (p_old_times p) (p_direction p) (p_logical_direction p) (p_soft p).

Definition SWITCH_CPF_SCREEN : Z := 1.
Definition SWITCH_CPF_HIDE_NAME : Z := 2.
Definition SWITCH_CPF_HIDE_NUMBER : Z := 4.
Definition SWITCH_CPF_SOFT_PREFIX : Z := 8.
Definition SWITCH_CPF_SOFT_LOOKUP : Z := 16.
Definition SWITCH_TON_UNDEF : Z := 255.

(** [profile_dup] and [profile_dup_clean] *)
Definition profile_dup (a : option (list Z)) : option (list Z) := Some (default [] a).
Definition profile_dup_clean (a : option (list Z)) : option (list Z) :=
  Some (match a with Some a => if bool_decide (a = []) then [] else switch_var_clean_string (switch_clean_string a) | None => [] end).

(** The arguments of [switch_caller_profile_new]. *)
Record profile_args := mk_args {
  a_username : option (list Z); a_dialplan : option (list Z); a_caller_id_name : option (list Z);
  a_caller_id_number : option (list Z); a_network_addr : option (list Z); a_ani : option (list Z);
  a_aniii : option (list Z); a_rdnis : option (list Z); a_source : option (list Z); a_context : option (list Z);
  a_destination_number : option (list Z)
}.
Definition or_when_zstr (a : option (list Z)) (d : option (list Z)) : option (list Z) := if zstr_Z a then d else a.

(** [soft_prefix], [soft_lookup]: the flags of the core; [id]: a new UUID. *)
Definition switch_caller_profile_new (id : list Z) (soft_prefix soft_lookup : bool) (a : profile_args) : caller_profile :=
  let ctx := match a_context a with None => Some (chars "default") | c => c end in
  let cid_name := or_when_zstr (a_caller_id_name a) (Some []) in
  let cid_number := or_when_zstr (a_caller_id_number a) (Some (chars "0000000000")) in
  let ani_ := or_when_zstr (a_ani a) cid_number in
  mk_profile
    (fun f => match f with
     | username => profile_dup_clean (a_username a)
     | dialplan => profile_dup_clean (a_dialplan a)
     | caller_id_name | orig_caller_id_name => profile_dup_clean cid_name
     | caller_id_number | orig_caller_id_number => profile_dup_clean cid_number
     | network_addr => profile_dup_clean (a_network_addr a)
     | ani => profile_dup_clean ani_
     | aniii => profile_dup_clean (a_aniii a)
     | rdnis => profile_dup_clean (a_rdnis a)
     | source => profile_dup_clean (a_source a)
     | context => profile_dup_clean ctx
     | destination_number => profile_dup_clean (a_destination_number a)
     | uuid | chan_name | callee_id_name | callee_id_number => Some []
     | uuid_str => Some id
     | profile_index | transfer_source | clone_of => None
     end)
    (fun _ => SWITCH_TON_UNDEF)
    (Z.lor SWITCH_CPF_SCREEN (Z.lor (if soft_prefix then SWITCH_CPF_SOFT_PREFIX else 0) (if soft_lookup then SWITCH_CPF_SOFT_LOOKUP else 0)))
    None None 0 0 [].

(** The copy, and the profile it was made from, which gets times when it has none. *)
Definition switch_caller_profile_dup (id : list Z) (tocopy : caller_profile) : caller_profile * caller_profile :=
  (mk_profile
    (fun f => match f with
     | uuid_str => Some id
     | clone_of => p_text tocopy uuid_str
     | profile_index | transfer_source => None
     | _ => profile_dup (p_text tocopy f)
     end)
    (p_number tocopy) (p_flags tocopy) None (p_times tocopy) (p_direction tocopy) 0 (p_soft tocopy),
   match p_times tocopy with Some _ => tocopy | None => tocopy <| p_times := Some no_times |> end).

(** ** Fields by name *)
Definition text_names : list (list Z * text_field) :=
  [(chars "dialplan", dialplan); (chars "username", username); (chars "caller_id_name", caller_id_name);
   (chars "caller_id_number", caller_id_number); (chars "orig_caller_id_name", orig_caller_id_name);
   (chars "orig_caller_id_number", orig_caller_id_number); (chars "callee_id_name", callee_id_name);
   (chars "callee_id_number", callee_id_number); (chars "ani", ani); (chars "aniii", aniii);
   (chars "network_addr", network_addr); (chars "rdnis", rdnis); (chars "destination_number", destination_number);
   (chars "uuid", uuid); (chars "source", source); (chars "transfer_source", transfer_source);
   (chars "context", context); (chars "chan_name", chan_name); (chars "profile_index", profile_index)].
Definition number_names : list (list Z * number_field) :=
  [(chars "caller_ton", caller_ton); (chars "caller_numplan", caller_numplan);
   (chars "destination_number_ton", destination_number_ton); (chars "destination_number_numplan", destination_number_numplan);
   (chars "ani_ton", ani_ton); (chars "ani_numplan", ani_numplan); (chars "rdnis_ton", rdnis_ton);
   (chars "rdnis_numplan", rdnis_numplan)].
Definition flag_names : list (list Z * Z) :=
  [(chars "screen_bit", SWITCH_CPF_SCREEN); (chars "privacy_hide_name", SWITCH_CPF_HIDE_NAME);
   (chars "privacy_hide_number", SWITCH_CPF_HIDE_NUMBER)].
Definition time_names : list (list Z * (timetable -> Z)) :=
  [(chars "profile_created_time", profile_created); (chars "created_time", created); (chars "answered_time", answered);
   (chars "progress_time", progress); (chars "progress_media_time", progress_media); (chars "hungup_time", hungup);
   (chars "transferred_time", transferred)].

Fixpoint by_name {A} (l : list (list Z * A)) (name : list Z) : option A :=
  match l with (n, a) :: l => if strcasecmp name n then Some a else by_name l name | [] => None end.
Definition print_number (v : Z) : list Z := if v <? 0 then 45 :: decimal (- v) else decimal v.

(** Times are read through a pointer that may be null. *)
Definition switch_caller_get_field_by_name (p : caller_profile) (name : list Z) : res (option (list Z)) :=
  match by_name text_names name with
  | Some f => Ret (p_text p f)
  | None =>
    match by_name number_names name with
    | Some f => Ret (Some (print_number (p_number p f)))
    | None =>
      match by_name flag_names name with
      | Some f => Ret (Some (if test_flag (p_flags p) f then chars "true" else chars "false"))
      | None =>
        match by_name time_names name with
        | Some f => t <-! or_ub (p_times p);; Ret (Some (print_number (f t)))
        | None => Ret (if test_flag (p_flags p) SWITCH_CPF_SOFT_LOOKUP then by_name (p_soft p) name else None)
        end
      end
    end
  end.

(** ** Extensions *)
Record extension := mk_extension {
  e_name : list Z;
  e_number : option (list Z);
  e_applications : list (list Z * list Z);
  e_current : nat
}.
#[export] Instance eta_extension : Eta extension := fun e => mk_extension (e_name e) (e_number e) (e_applications e) (e_current e).

Definition switch_caller_extension_new (name : list Z) (number : option (list Z)) : extension := mk_extension name number [] 0.
(** A backslash before a quotation mark. *)
Fixpoint has_escaped_quote (s : list Z) : bool :=
  match s with
  | 92 :: (39 :: _) => true
  | _ :: r => has_escaped_quote r
  | [] => false
  end.
(** An application whose argument has a quotation mark with a backslash is not
    added.  Adding makes the first application the current one. *)
Definition switch_caller_extension_add_application (e : extension) (name data : list Z) : extension :=
  if has_escaped_quote data then e else e <| e_applications ::= fun l => l ++ [(name, data)] |> <| e_current := O |>.
(** The copy has the applications from the current one on. *)
Definition switch_caller_extension_clone (e : extension) : extension :=
  mk_extension (e_name e) (e_number e) (drop (e_current e) (e_applications e)) 0.

(** ** Headers of an event *)

(** Which field decides about a header, and which is its value. *)
Definition event_texts : list (list Z * (text_field * text_field)) :=
  [(chars "Username", (username, username)); (chars "Dialplan", (dialplan, dialplan));
   (chars "Caller-ID-Name", (caller_id_name, caller_id_name)); (chars "Caller-ID-Number", (caller_id_number, caller_id_number));
   (chars "Orig-Caller-ID-Name", (caller_id_name, orig_caller_id_name));
   (chars "Orig-Caller-ID-Number", (caller_id_number, orig_caller_id_number));
   (chars "Callee-ID-Name", (callee_id_name, callee_id_name)); (chars "Callee-ID-Number", (callee_id_number, callee_id_number));
   (chars "Network-Addr", (network_addr, network_addr)); (chars "ANI", (ani, ani)); (chars "ANI-II", (aniii, aniii));
   (chars "Destination-Number", (destination_number, destination_number)); (chars "Unique-ID", (uuid, uuid));
   (chars "Source", (source, source)); (chars "Transfer-Source", (transfer_source, transfer_source));
   (chars "Context", (context, context)); (chars "RDNIS", (rdnis, rdnis)); (chars "Channel-Name", (chan_name, chan_name));
   (chars "Profile-Index", (profile_index, profile_index))].
Definition event_times : list (list Z * (timetable -> Z)) :=
  [(chars "Profile-Created-Time", profile_created); (chars "Channel-Created-Time", created);
   (chars "Channel-Answered-Time", answered); (chars "Channel-Progress-Time", progress);
   (chars "Channel-Progress-Media-Time", progress_media); (chars "Channel-Hangup-Time", hungup);
   (chars "Channel-Transfer-Time", transferred); (chars "Channel-Resurrect-Time", resurrected);
   (chars "Channel-Bridged-Time", bridged); (chars "Channel-Last-Hold", last_hold); (chars "Channel-Hold-Accum", hold_accum)].
Definition event_flags : list (list Z * Z) :=
  [(chars "Screen-Bit", SWITCH_CPF_SCREEN); (chars "Privacy-Hide-Name", SWITCH_CPF_HIDE_NAME);
   (chars "Privacy-Hide-Number", SWITCH_CPF_HIDE_NUMBER)].

(** [header_name], in a buffer of 1024 bytes. *)
Definition prefixed (prefix name : list Z) : list Z := take 1023 (prefix ++ 45 :: name).
(** The headers that are added to an event, in this order; a null pointer is
    [None]. *)
Definition switch_caller_profile_event_set_data (p : caller_profile) (prefix : list Z) : list (list Z * option (list Z)) :=
  let add name v := (prefixed prefix name, Some v) in
  let side d := if d =? 0 then chars "inbound" else chars "outbound" in
  [add (chars "Direction") (side (p_direction p)); add (chars "Logical-Direction") (side (p_logical_direction p))] ++
  concat (map (fun '(name, (test, value)) =>
    if negb (zstr_Z (p_text p test)) then [(prefixed prefix name, p_text p value)] else []) event_texts) ++
  map (fun '(var, val) =>
    (if test_flag (p_flags p) SWITCH_CPF_SOFT_PREFIX then prefixed prefix var else var, Some val)) (p_soft p) ++
  match match p_times p with Some t => Some t | None => p_old_times p end with
  | Some t => map (fun '(name, f) => add name (print_number (f t))) event_times
  | None => []
  end ++
  map (fun '(name, f) => add name (if test_flag (p_flags p) f then chars "true" else chars "false")) event_flags.

(** ** Nothing from outside is a reference *)

(** A text that is open at a dollar sign, for the test. *)
Definition open_text (d : list Z) : Prop := exists n, d = 36 :: repeat 92 n.

Lemma var_check_open d s : open_text d -> var_check_loop (d ++ s) false = var_check_loop s true.
Proof.
  intros [n ->]. cbn [app var_check_loop]. change (36 =? 36) with true. cbv iota. induction n as [|n IH]; [done|]. cbn [repeat app var_check_loop].
  exact IH.
Qed.
(** The slashes behind a dollar sign that was taken away. *)
Lemma var_check_slashes n s : var_check_loop (repeat 92 n ++ s) false = var_check_loop s false.
Proof. induction n as [|n IH]; [done|exact IH]. Qed.

(** The dollar sign is there or has become a percent sign. *)
Lemma var_clean_head s : forall d, exists b t, var_clean_loop s (Some (36 :: d)) = b :: t /\ (b = 36 \/ b = 37).
Proof.
  induction s as [|c s IH]; intros d; cbn [var_clean_loop].
  - exists 36, d. split; [done|by left].
  - case_if E1; [eexists _, _; split; [done|by left]|]. case_if E2; [eexists _, _; split; [done|by right]|].
    case_if E3; [exact (IH (d ++ [c]))|]. eexists _, _. split; [done|by left].
Qed.

Lemma var_clean_none s : forall dol, match dol with Some d => open_text d | None => True end ->
  var_check_loop (var_clean_loop s dol) false = false.
Proof.
  induction s as [|c s IH]; intros dol Hd; cbn [var_clean_loop].
  - destruct dol as [d|]; [|done]. change (default [] (Some d)) with d. rewrite <- (app_nil_r d). by apply (var_check_open d []).
  - destruct (Z.eqb_spec c 36) as [->|Hc].
    + assert (Hs : var_check_loop (var_clean_loop s (Some [36])) false = false) by (apply IH; by exists 0%nat).
      destruct dol as [d|]; [|exact Hs]. change (default [] (Some d)) with d. rewrite var_check_open by done.
      destruct (var_clean_head s []) as (b & t & E & [-> | ->]); rewrite E in *; exact Hs.
    + destruct dol as [d|].
      2: { cbn [var_check_loop]. rewrite (proj2 (Z.eqb_neq c 36)) by done. by apply (IH None). }
      destruct Hd as [n ->]. cbn [tl]. destruct (Z.eqb_spec c 123) as [->|Hb].
      { cbn [app var_check_loop]. change (37 =? 36) with false. cbv iota. rewrite var_check_slashes. cbn [var_check_loop]. by apply (IH None). }
      destruct (Z.eqb_spec c 92) as [->|Hs].
      { apply (IH (Some _)). exists (S n). cbn [app]. f_equal. change (repeat 92 n ++ [92] = 92 :: repeat 92 n). by rewrite repeat_cons. }
      rewrite var_check_open by (by exists n). cbn [var_check_loop].
      rewrite (proj2 (Z.eqb_neq c 36)), (proj2 (Z.eqb_neq c 123)), (proj2 (Z.eqb_neq c 92)) by done. by apply (IH None).
Qed.

(** No text a caller supplies is taken for a reference to a variable: every text
    field of a new profile other than the identifier passes the test for
    references. *)
Lemma new_profile_inert id soft_prefix soft_lookup a f t : f <> uuid_str ->
  p_text (switch_caller_profile_new id soft_prefix soft_lookup a) f = Some t -> switch_string_var_check_const t = false.
Proof.
  intros Hf E. assert (Hdup : forall o, profile_dup_clean o = Some t -> switch_string_var_check_const t = false).
  { intros o. unfold profile_dup_clean. intros [= <-]. destruct o as [o|]; [|done]. case_bool_decide; [done|]. by apply (var_clean_none _ None). }
  destruct f; cbn in E; try done; try (by apply (Hdup _ E)); by injection E as <-.
Qed.
Definition demo_args : profile_args :=
  mk_args None None (Some (chars "$${${hook}")) (Some (chars "$\{x}")) None None None None None None None.
Lemma new_profile_cleaned :
  p_text (switch_caller_profile_new [] false false demo_args) caller_id_name = Some (chars "$%{%{hook}") /\
  switch_string_var_check_const (chars "$%{%{hook}") = false.
Proof.
  split; [reflexivity|].
  apply (new_profile_inert [] false false demo_args caller_id_name); [discriminate|reflexivity].
Qed.

(** A copy has the same fields. *)
Lemma dup_field id p name : by_name text_names name <> Some transfer_source -> by_name text_names name <> Some profile_index ->
  by_name time_names name = None ->
  (forall f, p_text p f <> None) ->
  switch_caller_get_field_by_name (fst (switch_caller_profile_dup id p)) name = switch_caller_get_field_by_name p name.
Proof.
  intros H1 H2 Ht Hn. unfold switch_caller_get_field_by_name. rewrite Ht. cbn [switch_caller_profile_dup fst p_number p_flags p_soft].
  destruct (by_name text_names name) as [f|] eqn:E; [|done]. f_equal. cbn [p_text]. unfold profile_dup.
  assert (Hd : Some (default [] (p_text p f)) = p_text p f) by (destruct (p_text p f) eqn:Ef; [done|by destruct (Hn f)]).
  assert (Hnames : f <> uuid_str /\ f <> clone_of).
  { assert (Hin : exists n, (n, f) ∈ text_names).
    { revert E. generalize text_names. intros l. induction l as [|[n g] l IH]; [done|]. cbn [by_name]. case_if E; [intros [= <-]; exists n; left|].
      intros Hl. destruct (IH Hl) as [n' Hin]. exists n'. by right. }
    destruct Hin as [n Hin]. unfold text_names in Hin. split; intros ->; repeat (apply elem_of_cons in Hin as [Hin|Hin]; [done|]);
      by apply not_elem_of_nil in Hin. }
  destruct Hnames as [N1 N2]. destruct f; try done; by destruct (Hn transfer_source).
Qed.

(** ** Where a copy differs *)

(** The times of a copy are not there yet: to ask for one of them is to follow a
    null pointer; where a transfer came from is not copied. *)
Theorem copy_has_no_times id p : switch_caller_get_field_by_name (fst (switch_caller_profile_dup id p)) (chars "created_time") = Ub.
Proof. reflexivity. Qed.
Theorem copy_forgets_transfer id p :
  switch_caller_get_field_by_name (fst (switch_caller_profile_dup id p)) (chars "transfer_source") = Ret None.
Proof. reflexivity. Qed.

(** A caller that came with a name and has none now: the header with the first name
    is left out. *)
Definition renamed : caller_profile :=
  let p := switch_caller_profile_new [] false false demo_args in
  p <| p_text ::= fun t f => match f with caller_id_name => Some [] | _ => t f end |>.
Theorem first_name_is_left_out : p_text renamed orig_caller_id_name = Some (chars "$%{%{hook}") /\
  existsb (fun hd => bool_decide (fst hd = chars "Caller-Orig-Caller-ID-Name"))
    (switch_caller_profile_event_set_data renamed (chars "Caller")) = false.
Proof. by vm_compute. Qed.
