(* ===== verification/ChannelVars.v ===== *)
(** * ChannelVars: the variables of a channel, src/switch_channel.c

    Variables are headers of events: those of the scopes, from the innermost, those
    of the channel, behind them the fields of the caller profile and of the profiles
    it points to, and the variables of the core.  Copies in memory pools are
    values.  The mutex of the profile is left out, and so is the profile of a hunt,
    which [switch_channel_get_caller_profile] would prefer. *)
From S2P Require Import Prelude HashTable CoreHash UrlCode Separate TextUtil CaseLanes NetList Event EventProps EventText DateTime Caller.
From Stdlib Require Import ZArith Lia.
From stdpp Require Import base numbers option list strings.

Local Open Scope Z_scope.

Record channel_vars := mk_vars {
  cv_scopes : list switch_event;
  cv_variables : option switch_event;
  cv_profile : option caller_profile;
  cv_originator : option caller_profile;
  cv_originatee : option caller_profile;
  cv_globals : switch_event
}.
#[export] Instance eta_vars : Eta channel_vars := fun c =>
  mk_vars (cv_scopes c) (cv_variables c) (cv_profile c) (cv_originator c) (cv_originatee c) (cv_globals c).

(** An event that [switch_event_create_plain] makes for SWITCH_EVENT_CHANNEL_DATA. *)
Definition SWITCH_EVENT_CHANNEL_DATA : Z := 63.
Definition plain_event : switch_event := mk_event SWITCH_EVENT_CHANNEL_DATA None [] None None true 0.

(** ** Looking up *)
Definition begins (p s : list Z) : bool := bool_decide (take (length p) s = p).
Fixpoint scope_variable (scopes : list switch_event) (varname : list Z) (idx : Z) : option (list Z) :=
  match scopes with
  | [] => None
  | ep :: scopes =>
    match switch_event_get_header_idx ep varname idx with Some v => Some v | None => scope_variable scopes varname idx end
  end.
Definition switch_core_get_variable_pdup (globals : switch_event) (varname : list Z) : option (list Z) :=
  switch_event_get_header_idx globals varname (-1).
(** The profile that is asked, and the name it is asked for. *)
Definition leg (c : channel_vars) (varname : list Z) : option caller_profile * list Z :=
  match cv_profile c with
  | Some cp =>
    if begins (chars "aleg_") varname then (cv_originator c, drop 5 varname)
    else if begins (chars "bleg_") varname then (cv_originatee c, drop 5 varname)
    else (Some cp, varname)
  | None => (None, varname)
  end.
Definition switch_channel_get_variable_dup (c : channel_vars) (varname : list Z) (idx : Z) : res (option (list Z)) :=
  if bool_decide (varname = []) then Ret None
  else
    let v := match scope_variable (cv_scopes c) varname idx with
             | Some v => Some v
             | None => match cv_variables c with Some e => switch_event_get_header_idx e varname idx | None => None end
             end in
    match v with
    | Some v => Ret (Some v)
    | None =>
      let '(cp, name) := leg c varname in
      v <-! match cp with Some cp => switch_caller_get_field_by_name cp name | None => Ret None end;;
      Ret (match v with Some v => Some v | None => switch_core_get_variable_pdup (cv_globals c) name end)
    end.
Definition switch_channel_get_variable (c : channel_vars) (varname : list Z) : res (option (list Z)) :=
  switch_channel_get_variable_dup c varname (-1).

(** ** Setting *)
(** A value that refers to a variable is refused, if that is checked. *)
Definition switch_channel_add_variable_var_check (c : channel_vars) (varname : list Z) (value : option (list Z)) (var_check : bool) (stack : Z)
    : res (channel_vars * switch_status) :=
  match cv_variables c with
  | Some e =>
    if bool_decide (varname = []) then Ret (c, SWITCH_STATUS_FALSE)
    else
      e <-! match value with
            | None | Some [] => switch_event_del_header e varname
            | Some v =>
              if negb (var_check && switch_string_var_check_const v)
              then '(e, _) <-! switch_event_add_header_string e stack varname (Some v);; Ret e else Ret e
            end;;
      Ret (c <| cv_variables := Some e |>, SWITCH_STATUS_SUCCESS)
  | None => Ret (c, SWITCH_STATUS_FALSE)
  end.
Definition switch_channel_set_variable_var_check (c : channel_vars) (varname : list Z) (value : option (list Z)) (var_check : bool)
    : res (channel_vars * switch_status) :=
  switch_channel_add_variable_var_check c varname value var_check SWITCH_STACK_BOTTOM.
Definition switch_channel_set_variable (c : channel_vars) (varname : list Z) (value : option (list Z)) : res channel_vars :=
  '(c, _) <-! switch_channel_set_variable_var_check c varname value true;; Ret c.

(** ** Prefixes *)

(** [switch_channel_get_variables]; an event of its own when there are none, of
    which only the headers matter here: none. *)
Definition variable_headers (c : channel_vars) : res (list switch_event_header) :=
  match cv_variables c with Some e => e <-! switch_event_dup e;; Ret (e_headers e) | None => Ret [] end.
Definition matches_prefix (prefix : option (list Z)) (name : list Z) : bool :=
  match prefix with None | Some [] => true | Some p => has_prefix_ci p name end.
Fixpoint del_headers (c : channel_vars) (prefix : option (list Z)) (hs : list switch_event_header) : res channel_vars :=
  match hs with
  | [] => Ret c
  | hp :: hs =>
    c <-! (if matches_prefix prefix (h_name hp) then switch_channel_set_variable c (h_name hp) None else Ret c);;
    del_headers c prefix hs
  end.
Definition switch_channel_del_variable_prefix (c : channel_vars) (prefix : option (list Z)) : res channel_vars :=
  hs <-! variable_headers c;; del_headers c prefix hs.

Fixpoint transfer_headers (new : channel_vars) (prefix : option (list Z)) (hs : list switch_event_header) (x : Z) : res (channel_vars * Z) :=
  match hs with
  | [] => Ret (new, x)
  | hi :: hs =>
    if matches_prefix prefix (h_name hi) then
      new <-! switch_channel_set_variable new (h_name hi) (Some (h_value hi));; transfer_headers new prefix hs (x + 1)
    else transfer_headers new prefix hs x
  end.
Definition switch_channel_transfer_variable_prefix (orig new : channel_vars) (prefix : option (list Z)) : res (channel_vars * switch_status) :=
  '(new, x) <-! transfer_headers new prefix (match cv_variables orig with Some e => e_headers e | None => [] end) 0;;
  Ret (new, if x =? 0 then SWITCH_STATUS_FALSE else SWITCH_STATUS_SUCCESS).

(** ** Scopes *)
(** An event is pushed, no event pops the innermost one. *)
Definition switch_channel_set_scope_variables (c : channel_vars) (event : option switch_event) : channel_vars :=
  match event with
  | Some e => c <| cv_scopes ::= cons e |>
  | None => c <| cv_scopes ::= tail |>
  end.
(** A header is added unless there is one whose name is its value. *)
Fixpoint gather_headers (new : switch_event) (hs : list switch_event_header) : res switch_event :=
  match hs with
  | [] => Ret new
  | hp :: hs =>
    new <-! match switch_event_get_header_idx new (h_value hp) (-1) with
            | Some _ => Ret new
            | None => '(new, _) <-! switch_event_add_header_string new SWITCH_STACK_BOTTOM (h_name hp) (Some (h_value hp));; Ret new
            end;;
    gather_headers new hs
  end.
Definition switch_channel_get_scope_variables (c : channel_vars) : res (option switch_event) :=
  match cv_scopes c with
  | [] => Ret None
  | scopes => e <-! gather_headers plain_event (concat (map e_headers scopes));; Ret (Some e)
  end.

(** ** Variables of the profile *)
Definition profile_texts : list (list Z * text_field) :=
  [(chars "dialplan", dialplan); (chars "username", username); (chars "caller_id_name", caller_id_name);
   (chars "caller_id_number", caller_id_number); (chars "callee_id_name", callee_id_name);
   (chars "callee_id_number", callee_id_number); (chars "ani", ani); (chars "aniii", aniii);
   (chars "network_addr", network_addr); (chars "rdnis", rdnis); (chars "destination_number", destination_number);
   (chars "uuid", uuid); (chars "source", source); (chars "context", context); (chars "chan_name", chan_name)].
Definition profile_numbers : list (list Z * number_field) :=
  [(chars "caller_ton", caller_ton); (chars "caller_numplan", caller_numplan);
   (chars "destination_number_ton", destination_number_ton); (chars "destination_number_numplan", destination_number_numplan)].

Definition number_field_eqb (a b : number_field) : bool :=
  match a, b with
  | caller_ton, caller_ton | caller_numplan, caller_numplan | ani_ton, ani_ton | ani_numplan, ani_numplan
  | rdnis_ton, rdnis_ton | rdnis_numplan, rdnis_numplan | destination_number_ton, destination_number_ton
  | destination_number_numplan, destination_number_numplan => true
  | _, _ => false
  end.
(** A variable of another name is replaced or put behind the others. *)
Fixpoint set_soft (soft : list (list Z * list Z)) (var val : list Z) : list (list Z * list Z) :=
  match soft with
  | [] => [(var, val)]
  | (n, v) :: soft => if strcasecmp n var then (n, val) :: soft else (n, v) :: set_soft soft var val
  end.
(** [set_device_id]: [switch_channel_set_device_id], which works once. *)
Definition switch_channel_set_profile_var (set_device_id : list Z -> option (list Z)) (c : channel_vars) (name : list Z) (val : option (list Z))
    : res channel_vars :=
  let device := strcasecmp name (chars "device_id") && negb (zstr_Z val) in
  match (if device then set_device_id (default [] val) else val) with
  | None => if device then Ret c else
    p <-! or_ub (cv_profile c);;
    Ret (c <| cv_profile := Some (match by_name profile_texts name with
      | Some f => p <| p_text ::= fun t g => if bool_decide (g = f) then Some [] else t g |>
      | None => p <| p_soft ::= fun l => set_soft l name [] |>
      end) |>)
  | Some v =>
    p <-! or_ub (cv_profile c);;
    Ret (c <| cv_profile := Some (match by_name profile_texts name with
      | Some f => p <| p_text ::= fun t g => if bool_decide (g = f) then Some v else t g |>
      | None =>
        match by_name profile_numbers name with
        | Some f => p <| p_number ::= fun t g => if number_field_eqb g f then u8 (atoi v) else t g |>
        | None => p <| p_soft ::= fun l => set_soft l name v |>
        end
      end) |>)
  end.

(** ** A variable and the others *)

(** The headers of a name and the others. *)
Definition own (name : list Z) (hs : list switch_event_header) : list switch_event_header := List.filter (named name) hs.
Definition others (name : list Z) (hs : list switch_event_header) : list switch_event_header :=
  List.filter (fun h => negb (named name h)) hs.
(** There is room for one header of the name. *)
Definition room (name : list Z) (e : switch_event) : Prop :=
  event_ok e /\ Z.of_nat (length (others name (e_headers e)) + Nat.max 1 (length (own name (e_headers e)))) < 1000000.
(** An operation on one name. *)
Definition touches (name : list Z) (e : switch_event) (r : res switch_event) : Prop :=
  exists e', r = Ret e' /\ event_ok e' /\ others name (e_headers e') = others name (e_headers e) /\
    (length (own name (e_headers e')) <= Nat.max 1 (length (own name (e_headers e))))%nat /\ e_body e' = e_body e.

Lemma own_others name hs : length hs = (length (others name hs) + length (own name hs))%nat.
Proof. unfold own, others. induction hs as [|h hs IH]; [done|]. cbn. destruct (named name h); cbn; lia. Qed.
Lemma room_length name e : room name e -> zlen (e_headers e) < 1000000.
Proof. intros [_ H]. unfold zlen. rewrite (own_others name). lia. Qed.
Lemma touches_room name e e' : room name e -> touches name e (Ret e') -> room name e'.
Proof. intros [_ H] (e1 & [= <-] & Hok & Ho & Hl & _). split; [done|]. rewrite Ho. lia. Qed.
Lemma touches_bind name e r k : room name e -> touches name e r ->
  (forall e', room name e' -> touches name e' (k e')) -> touches name e (e' <-! r;; k e').
Proof.
  intros Hr (e' & -> & H) Hk. assert (Hr' : room name e') by (apply (touches_room name e); [done|by exists e']). cbn [rbind].
  destruct (Hk e' Hr') as (e2 & -> & H1 & H2 & H3 & H4), H as (H5 & H6 & H7 & H8). exists e2. split_and!; [done|done|congruence|lia|congruence].
Qed.
Lemma touches_same name e : event_ok e -> touches name e (Ret e).
Proof. intros H. exists e. split_and!; [done|done|done|lia|done]. Qed.

Lemma keep_others name hs : keep name [] hs = others name hs.
Proof.
  unfold keep, others. induction hs as [|h hs IH]; [done|]. cbn [List.filter]. unfold deletes at 1. rewrite bool_decide_true by done.
  cbn [orb]. rewrite andb_true_r, IH. done.
Qed.
Lemma others_others name hs : others name (others name hs) = others name hs.
Proof. unfold others. induction hs as [|h hs IH]; [done|]. cbn. destruct (named name h) eqn:E; cbn; [done|]. by rewrite E, IH. Qed.
Lemma own_of_others name hs : own name (others name hs) = [].
Proof. unfold own, others. induction hs as [|h hs IH]; [done|]. cbn. destruct (named name h) eqn:E; cbn; [done|]. by rewrite E. Qed.

Lemma del_touches name e : room name e -> exists e', switch_event_del_header e name = Ret e' /\ event_ok e' /\
  e_headers e' = others name (e_headers e) /\ e_body e' = e_body e.
Proof.
  intros Hr. destruct (del_header_spec e name (proj1 Hr) (room_length _ _ Hr)) as [-> Hok]. eexists. split; [reflexivity|].
  split; [done|]. split; [apply keep_others|done].
Qed.
Lemma uniq_touches name e : room name e -> touches name e (if e_uniq e then switch_event_del_header e name else Ret e).
Proof.
  intros Hr. destruct (e_uniq e); [|by apply touches_same, Hr]. destruct (del_touches name e Hr) as (e' & -> & Hok & Hh & Hb).
  exists e'. split_and!; [done|done|by rewrite Hh, others_others|rewrite Hh, own_of_others; cbn; lia|done].
Qed.

(** *** Adding to a name *)
Lemma find_own name hs h : List.find (named name) hs = Some h -> In h hs /\ named name h = true.
Proof. apply find_some. Qed.

Lemma update_touches name e h h' : room name e -> In h (e_headers e) -> named name h = true -> h_addr h' = h_addr h ->
  h_name h' = h_name h -> h_hash h' = h_hash h -> touches name e (Ret (update e h')).
Proof.
  intros [Hok Hn] Hin Hnm Ea En Eh. destruct (in_ok e h Hok Hin) as [H1 H2]. eexists. split; [reflexivity|].
  assert (Hnm' : named name h' = true) by (unfold named in *; by rewrite En, Eh).
  split; [apply update_ok; [done|lia|congruence]|]. cbn [update set_headers set_links e_headers e_body].
  assert (Hall : forall x, In x (e_headers e) -> h_addr x = h_addr h' -> named name x = true).
  { intros x Hx Ex. assert (x = h) as ->; [|done]. rewrite Ea in Ex. pose proof (ok_nodup _ Hok) as Hd. revert Hin Hx Hd. clear -Ex.
    induction (e_headers e) as [|y l IH]; [done|]. unfold addrs. cbn [map]. intros [->|Hin] [->|Hx] Hd; try done.
    - apply NoDup_cons in Hd as [Hd _]. exfalso. apply Hd. rewrite <- Ex. apply list_elem_of_fmap. exists x. split; [done|by apply list_elem_of_In].
    - apply NoDup_cons in Hd as [Hd _]. exfalso. apply Hd. rewrite Ex. apply list_elem_of_fmap. exists h. split; [done|by apply list_elem_of_In].
    - apply NoDup_cons in Hd as [_ Hd]. by apply IH. }
  clear -Hall Hnm'. split_and!; [| |done].
  - unfold others. induction (e_headers e) as [|x l IH]; [done|]. cbn [map List.filter].
    specialize (IH (fun y Hy => Hall y (or_intror Hy))). case_bool_decide as E; [rewrite Hnm', (Hall x ltac:(by left) E); exact IH|].
    destruct (named name x); cbn; [exact IH|by rewrite IH].
  - assert (E : length (own name (map (fun x => if bool_decide (h_addr x = h_addr h') then h' else x) (e_headers e))) = length (own name (e_headers e))); [|lia].
    unfold own. induction (e_headers e) as [|x l IH]; [done|]. cbn [map List.filter].
    specialize (IH (fun y Hy => Hall y (or_intror Hy))). case_bool_decide as E; [rewrite Hnm', (Hall x ltac:(by left) E); cbn; by rewrite IH|].
    destruct (named name x); cbn; [by rewrite IH|exact IH].
Qed.

Lemma same_name_refl name : same_name name name = true.
Proof. unfold same_name. by rewrite bool_decide_true. Qed.
(** A header linked where there is none of its name. *)
Lemma link_touches name e stack h : room name e -> own name (e_headers e) = [] -> h_name h = name -> h_addr h = e_fresh e ->
  touches name e (link (new_header e name).1 stack h).
Proof.
  intros [Hok _] Hown En Ea. pose proof (new_header_ok e name Hok) as Hok2. pose proof (new_header_off e name Hok) as [Ho1 Ho2].
  cbn [new_header snd h_addr] in Ho1, Ho2.
  destruct (link_spec (new_header e name).1 stack h Hok2 ltac:(by rewrite Ea) ltac:(by rewrite Ea)) as [El Hok3].
  eexists. split; [exact El|]. split; [done|]. cbn [set_links e_headers new_header fst e_body]. rewrite Hown.
  set (h' := mk_header _ _ _ _ _). assert (Hnm : named name h' = true).
  { unfold named, h'. cbn [h_hash h_name]. rewrite En, Z.eqb_refl, same_name_refl. by destruct (_ =? _). }
  clearbody h'. unfold others, own in *. destruct (has stack SWITCH_STACK_TOP).
  - cbn [List.filter]. rewrite Hnm. cbn [negb length]. rewrite Hown. by split_and!.
  - rewrite !List.filter_app. cbn [List.filter]. rewrite Hnm, Hown. cbn [negb length app]. rewrite app_nil_r. by split_and!.
Qed.

Definition touching (push : switch_event -> list Z -> list Z -> res switch_event) (name : list Z) (n : nat) : Prop :=
  forall e v, room name e -> (length v <= n)%nat -> touches name e (push e name v).
Lemma push_all_touches push name n vs : touching push name n -> Forall (fun v => (length v <= n)%nat) vs -> forall e, room name e ->
  touches name e (fold_left (fun r v => e <-! r;; push e name v) vs (Ret e)).
Proof.
  intros Hp. induction 1 as [|v vs Hv _ IH]; intros e Hr; [by apply touches_same, Hr|]. cbn [fold_left rbind].
  destruct (Hp e v Hr Hv) as (e1 & -> & H). assert (Hr1 : room name e1) by (apply (touches_room name e); [done|by exists e1]).
  destruct (IH e1 Hr1) as (e2 & -> & H1 & H2 & H3 & H4), H as (_ & H5 & H6 & H7). exists e2. split_and!; [done|done|congruence|lia|congruence].
Qed.

Lemma no_own name hs : List.find (named name) hs = None -> own name hs = [].
Proof. unfold own. induction hs as [|h hs IH]; [done|]. cbn. by destruct (named name h). Qed.

Lemma uniq_alone name e : room name e -> e_uniq e = true \/ own name (e_headers e) = [] -> exists e1,
  (if e_uniq e then switch_event_del_header e name else Ret e) = Ret e1 /\ touches name e (Ret e1) /\ own name (e_headers e1) = [].
Proof.
  intros Hr Ho. destruct (e_uniq e) eqn:Eu.
  - destruct (del_touches name e Hr) as (e1 & -> & Hok & Hh & Hb). exists e1. split; [done|]. rewrite Hh. split; [|apply own_of_others].
    exists e1. split_and!; [done|done|by rewrite Hh, others_others|rewrite Hh, own_of_others; cbn; lia|done].
  - exists e. split; [done|]. split; [by apply touches_same, Hr|]. by destruct Ho.
Qed.

Lemma array_values_length n data vs : array_values data = Some vs -> (length data <= S n)%nat -> Forall (fun v => (length v <= n)%nat) vs.
Proof.
  unfold array_values. destruct (Z.ltb_spec (zlen data) 8) as [|H8]; [done|]. intros [= <-] Hd. unfold zlen in H8.
  pose proof (separate_by_length SEP (length data) (drop 7 data) ltac:(done)) as Hs. rewrite length_drop in Hs.
  apply Forall_forall. intros v Hv. assert (length v <= sum_list (map length (separate_by SEP (length data) (drop 7 data))))%nat; [|lia].
  clear -Hv. induction (separate_by SEP (length data) (drop 7 data)) as [|w vs IH]; [by apply not_elem_of_nil in Hv|].
  apply elem_of_cons in Hv as [->|Hv]; cbn; [lia|]. specialize (IH Hv). lia.
Qed.

Lemma touches_after name e e1 r : touches name e (Ret e1) -> touches name e1 r -> touches name e r.
Proof.
  intros (e0 & [= <-] & H1 & H2 & H3 & H4) (e2 & -> & H5 & H6 & H7 & H8). exists e2. split_and!; [done|done|congruence|lia|congruence].
Qed.
Lemma add_new_touches push n e stack name data : data = [] \/ (touching push name n /\ (length data <= S n)%nat) -> room name e ->
  e_uniq e = true \/ own name (e_headers e) = [] -> touches name e (add_new push e stack name data).
Proof.
  intros Hp Hr Hu. unfold add_new. case_bool_decide as Ed.
  { destruct (del_touches name e Hr) as (e' & -> & Hok & Hh & Hb). exists e'. split_and!; [done|done|by rewrite Hh, others_others| |done].
    rewrite Hh, own_of_others. cbn. lia. }
  destruct Hp as [|[Hp Hd]]; [done|]. destruct (uniq_alone name e Hr Hu) as (e1 & -> & Ht & Ho). cbn [rbind].
  pose proof (touches_room _ _ _ Hr Ht) as Hr1. apply (touches_after name e e1); [done|]. case_bool_decide as Ea.
  - destruct (array_values data) as [vs|] eqn:Ev; [|by apply touches_same, Hr1].
    apply (push_all_touches push name n); [done|by apply (array_values_length n data)|done].
  - pose proof (link_touches name e1 stack (if pushing stack then with_array (new_header e1 name).2 [data] else with_value (new_header e1 name).2 data) Hr1 Ho) as Hl.
    destruct (new_header e1 name) as [e2 h] eqn:En. cbn [fst snd] in Hl. injection En as <- <-. apply Hl; by destruct (pushing stack).
Qed.

(** Adding a value to a plain name changes nothing under other names. *)
Lemma base_add_touches fuel : forall e stack name data, plain_name name -> room name e -> (length data <= fuel)%nat ->
  pushing stack = true \/ e_uniq e = true -> touches name e (base_add_header fuel e stack name data).
Proof.
  assert (Hstep : forall push n e stack name data, plain_name name -> room name e ->
    data = [] \/ (touching push name n /\ (length data <= S n)%nat) -> pushing stack = true \/ e_uniq e = true ->
    touches name e (add_step push e stack name data)).
  { intros push n e stack name data [Hb Hbody] Hr Hp Hu. unfold add_step. rewrite (bool_decide_false (name = BODY)), parse_plain by done. cbn [orb].
    destruct (if pushing stack then switch_event_get_header_ptr e name else None) as [h|] eqn:E.
    - assert (Hf : List.find (named name) (e_headers e) = Some h) by (by destruct (pushing stack)). apply find_own in Hf as [Hin Hnm].
      unfold add_value. by apply (update_touches name e h).
    - apply (add_new_touches push n); [done|done|]. destruct Hu as [Hu|]; [right|by left]. rewrite Hu in E. by apply no_own. }
  induction fuel as [|fuel IH]; intros e stack name data Hn Hr Hf Hu; cbn [base_add_header].
  - apply (Hstep _ 0%nat); [done|done|left; destruct data; [done|simpl in Hf; lia]|done].
  - apply (Hstep _ fuel); [done|done| |done]. right. split; [|done]. intros e1 v H1 H2. apply IH; [done|done|done|by left].
Qed.

(** Other names are looked up as before. *)
Lemma find_others name n hs : Forall (fun h => h_hash h = name_hash (h_name h)) hs -> same_name n name = false ->
  List.find (named n) hs = List.find (named n) (others name hs).
Proof.
  intros Hh Hn. unfold others. induction Hh as [|h hs Hh _ IH]; [done|]. cbn [List.find List.filter]. rewrite !named_same by done.
  destruct (same_name (h_name h) n) eqn:E.
  - assert (same_name (h_name h) name = false) as ->.
    { rewrite !same_name_key in *. apply bool_decide_eq_true in E. by rewrite E. }
    cbn [negb List.find]. by rewrite named_same, E.
  - destruct (same_name (h_name h) name); cbn [negb List.find]; [done|]. by rewrite named_same, E.
Qed.
Lemma touches_get name e e' n idx : event_ok e -> touches name e (Ret e') -> same_name n name = false ->
  switch_event_get_header_idx e' n idx = switch_event_get_header_idx e n idx.
Proof.
  intros Hok (e1 & [= <-] & Hok' & Ho & _ & Hb) Hn. unfold switch_event_get_header_idx, switch_event_get_header_ptr.
  by rewrite (find_others name n), Ho, <- (find_others name n), Hb by (done || apply Hok || apply Hok').
Qed.

(** ** Channels *)
Definition has_room (name : list Z) (c : channel_vars) : Prop :=
  match cv_variables c with Some e => room name e | None => True end.
(** What is left when the variables of a channel other than [name] are as before. *)
Definition only (name : list Z) (c c' : channel_vars) : Prop :=
  forall n idx, same_name n name = false -> switch_channel_get_variable_dup c' n idx = switch_channel_get_variable_dup c n idx.

Lemma get_set_variables c e e' n idx : cv_variables c = Some e -> switch_event_get_header_idx e' n idx = switch_event_get_header_idx e n idx ->
  switch_channel_get_variable_dup (c <| cv_variables := Some e' |>) n idx = switch_channel_get_variable_dup c n idx.
Proof. intros E H. unfold switch_channel_get_variable_dup. cbn. by rewrite H, E. Qed.

Lemma add_header_touches e stack name v : plain_name name -> room name e -> pushing stack = true \/ e_uniq e = true ->
  touches name e ('(e, _) <-! switch_event_add_header_string e stack name (Some v);; Ret e).
Proof.
  intros Hn Hr Hs. unfold switch_event_add_header_string, switch_event_base_add_header.
  destruct (base_add_touches (length v) e stack name v Hn Hr (le_n _) Hs) as (e' & -> & H). cbn [rbind]. by exists e'.
Qed.
(** Setting or adding to a variable leaves the others. *)
Lemma add_variable_only c name value var_check stack : plain_name name -> has_room name c ->
  value = None \/ pushing stack = true \/ match cv_variables c with Some e => e_uniq e = true | None => True end ->
  exists c' st, switch_channel_add_variable_var_check c name value var_check stack = Ret (c', st) /\ has_room name c' /\ only name c c'.
Proof.
  intros Hn Hr Hs. unfold switch_channel_add_variable_var_check, has_room in *. destruct (cv_variables c) as [e|] eqn:Ev.
  2: { exists c, SWITCH_STATUS_FALSE. by rewrite Ev. }
  case_bool_decide as En; [exists c, SWITCH_STATUS_FALSE; by rewrite Ev|].
  assert (Ht : touches name e (match value with
    | None | Some [] => switch_event_del_header e name
    | Some v => if negb (var_check && switch_string_var_check_const v)
                then '(e, _) <-! switch_event_add_header_string e stack name (Some v);; Ret e else Ret e
    end)).
  { assert (Hdel : touches name e (switch_event_del_header e name)).
    { destruct (del_touches name e Hr) as (e' & -> & Hok & Hh & Hb). exists e'. split_and!; [done|done|by rewrite Hh, others_others| |done].
      rewrite Hh, own_of_others. cbn. lia. }
    destruct value as [[|b v]|]; [done| |done]. destruct (negb _); [|by apply touches_same, Hr]. apply add_header_touches; [done|done|].
    by destruct Hs as [[=]|Hs]. }
  destruct Ht as (e' & E & Ht). rewrite E. cbn [rbind]. eexists _, _. split; [reflexivity|].
  assert (Ht' : touches name e (Ret e')) by (by exists e'). split; [cbn; by apply (touches_room name e)|].
  intros n idx Hsame. apply (get_set_variables c e); [done|]. apply (touches_get name); [apply Hr|done|done].
Qed.

(** A variable of the channel hides the profile and the core. *)
Lemma get_own c e name v : cv_variables c = Some e -> name <> [] -> scope_variable (cv_scopes c) name (-1) = None ->
  switch_event_get_header_idx e name (-1) = Some v -> switch_channel_get_variable c name = Ret (Some v).
Proof.
  intros E Hn Hs Hg. unfold switch_channel_get_variable, switch_channel_get_variable_dup. by rewrite bool_decide_false, Hs, E, Hg.
Qed.

(** C22: What [switch_channel_set_variable] does for every channel with unique
    headers and room for one more, and every name and value without the notation of
    arrays: a value that refers to a variable is refused and changes nothing; another
    one is what [switch_channel_get_variable] finds from then on, unless a scope
    hides it; in both cases every other name is found as before, in the scopes, the
    channel, its profiles and the core. *)
Theorem set_variable_is_found c e name v : cv_variables c = Some e -> e_uniq e = true -> room name e ->
  plain_name name -> name <> [] -> plain_data v -> scope_variable (cv_scopes c) name (-1) = None ->
  exists c', switch_channel_set_variable c name (Some v) = Ret c' /\ only name c c' /\
    if switch_string_var_check_const v then c' = c else switch_channel_get_variable c' name = Ret (Some v).
Proof.
  intros Ev Hu Hr Hn Hne Hv Hs. assert (Hu' : match cv_variables c with Some e => e_uniq e = true | None => True end) by (by rewrite Ev).
  assert (Hr' : has_room name c) by (unfold has_room; by rewrite Ev).
  destruct (add_variable_only c name (Some v) true SWITCH_STACK_BOTTOM Hn Hr' (or_intror (or_intror Hu'))) as (c' & st & E & _ & Ho).
  exists c'. unfold switch_channel_set_variable, switch_channel_set_variable_var_check. rewrite E. split; [done|]. split; [done|].
  revert E. unfold switch_channel_add_variable_var_check. rewrite Ev, (bool_decide_false (name = [])) by done.
  destruct Hv as [Hv Ha]. destruct v as [|b v]; [done|]. cbn [andb]. destruct (switch_string_var_check_const (b :: v)); cbn [negb rbind].
  - intros [= <- _]. destruct c; cbn in Ev |- *. by rewrite Ev.
  - destruct (add_plain e false name (b :: v) (proj1 Hr) Hu (room_length _ _ Hr) Hn) as (e' & El & Hok & _ & _ & Hval); [done|].
    unfold switch_event_add_header_string. cbv iota in El. rewrite El. cbn [rbind]. intros [= <- _]. apply (get_own _ e'); [done|done|done|].
    rewrite get_header_value by (done || apply Hn). by rewrite Hval, same_name_refl.
Qed.

Definition demo_channel : channel_vars :=
  mk_vars [] (Some plain_event) (Some (switch_caller_profile_new [] false false
    (mk_args None None (Some (chars "Ann")) None None None None None None None None))) None None plain_event.
Lemma plain_room name : room name plain_event.
Proof. split; [|done]. split; constructor. Qed.
Lemma set_variable_is_found_witness : exists c', switch_channel_set_variable demo_channel (chars "Colour") (Some (chars "red")) = Ret c' /\
  switch_channel_get_variable c' (chars "Colour") = Ret (Some (chars "red")) /\
  switch_channel_get_variable c' (chars "caller_id_name") = Ret (Some (chars "Ann")).
Proof.
  destruct (set_variable_is_found demo_channel plain_event (chars "Colour") (chars "red") eq_refl eq_refl (plain_room _)) as (c' & E & Ho & H);
    [|done| |done|].
  - split; [|done]. intros H. by repeat (apply elem_of_cons in H as [H|H]; [discriminate H|]); apply not_elem_of_nil in H.
  - by split.
  - exists c'. split; [exact E|]. split; [exact H|]. unfold switch_channel_get_variable. rewrite (Ho (chars "caller_id_name") (-1) eq_refl). reflexivity.
Defined.

(** A field of the profile that is set is read back under its name in any letter
    case. *)
Lemma by_name_case {A} (l : list (list Z * A)) a b : strcasecmp a b = true -> by_name l a = by_name l b.
Proof.
  unfold strcasecmp. rewrite bool_decide_eq_true. intros E. induction l as [|[n x] l IH]; [done|]. cbn [by_name]. unfold strcasecmp. by rewrite E, IH.
Qed.
Lemma by_name_in {A} (l : list (list Z * A)) a x : by_name l a = Some x -> exists n, strcasecmp a n = true /\ (n, x) ∈ l.
Proof.
  induction l as [|[n y] l IH]; [done|]. cbn [by_name]. destruct (strcasecmp a n) eqn:E; [intros [= <-]; exists n; split; [done|left]|].
  intros H. destruct (IH H) as (m & H1 & H2). exists m. split; [done|by right].
Qed.
Theorem profile_var_is_read set_device_id c p name f v : cv_profile c = Some p -> by_name profile_texts name = Some f ->
  exists p', switch_channel_set_profile_var set_device_id c name (Some v) = Ret (c <| cv_profile := Some p' |>) /\
    switch_caller_get_field_by_name p' name = Ret (Some v).
Proof.
  intros Hp Hf. destruct (by_name_in _ _ _ Hf) as (n & Hn & Hin).
  assert (Hd : strcasecmp name (chars "device_id") = false).
  { apply not_true_is_false. intros Hd. rewrite (by_name_case _ _ _ Hd) in Hf. vm_compute in Hf. done. }
  assert (Ht : by_name text_names name = Some f).
  { rewrite (by_name_case _ _ _ Hn). unfold profile_texts in Hin.
    repeat (apply elem_of_cons in Hin as [Hin|Hin]; [injection Hin as -> ->; vm_compute; reflexivity|]). by apply not_elem_of_nil in Hin. }
  unfold switch_channel_set_profile_var. rewrite Hd, Hp. cbn [andb or_ub rbind]. cbv iota zeta. rewrite Hf. eexists. split; [reflexivity|].
  unfold switch_caller_get_field_by_name. rewrite Ht. cbn. by rewrite bool_decide_true.
Qed.

(** ** Scopes that are gathered *)

(** A variable of an outer scope replaces that of an inner one. *)
Definition scope_of (v : String.string) : switch_event :=
  match switch_event_add_header_string plain_event SWITCH_STACK_BOTTOM (chars "a") (Some (chars v)) with Ret (e, _) => e | _ => plain_event end.
Arguments scope_of v%_string_scope.
Definition two_scopes : channel_vars :=
  switch_channel_set_scope_variables (switch_channel_set_scope_variables demo_channel (Some (scope_of "outer"))) (Some (scope_of "inner")).
Theorem outer_scope_wins : switch_channel_get_variable two_scopes (chars "a") = Ret (Some (chars "inner")) /\
  match switch_channel_get_scope_variables two_scopes with
  | Ret (Some e) => switch_event_get_header_idx e (chars "a") (-1) = Some (chars "outer")
  | _ => False
  end.
Proof. split; vm_compute; reflexivity. Qed.
