(* ===== verification/Expand.v ===== *)
(** * Expand: references to variables in texts

    [switch_channel_expand_variables_check] of src/switch_channel.c.  What it asks
    of the channel and of the modules is a class.  [None] stands for the pointer it
    was given: the text itself.  The result is written to a buffer that is enlarged
    when it is full; its size is kept, and writing behind it is undefined.  Memory
    is never short, and the absolute value of the smallest number is that number. *)
From S2P Require Import Prelude HashTable CoreHash UrlCode Separate TextUtil CaseLanes NetList Event EventProps EventText Regex DateTime Caller ChannelVars.
From Stdlib Require Import ZArith Lia.
From stdpp Require Import base numbers option list strings.

Local Open Scope Z_scope.

(** ** The session *)
Class expander (S : Type) := {
  get_variable_dup : list Z -> Z -> S -> res (option (list Z));
  (** [None]: the function failed. *)
  switch_api_execute : list Z -> list Z -> S -> option (list Z) * S;
  SCF_API_EXPANSION : bool
}.

(** A list of permissions and whether it allows what it does not mention. *)
Definition permission_list : Type := option (switch_event * bool).
Definition permitted (l : permission_list) (name : list Z) : bool :=
  match l with Some (e, default_allow) => switch_event_check_permission_list (Some e) default_allow name | None => true end.
Definition VARIABLE_DENIED : list Z := chars "<Variable Expansion Permission Denied>".
Definition API_DENIED : list Z := chars "<API Execute Permission Denied>".

(** [switch_string_has_escaped_data] *)
Fixpoint switch_string_has_escaped_data (s : list Z) : bool :=
  match s with
  | c :: r =>
    if c =? 92 then
      match r with
      | d :: _ => (d =? 92) || (d =? 110) || (d =? 115) || (d =? 116) || (d =? 39) || switch_string_has_escaped_data r
      | [] => false
      end
    else switch_string_has_escaped_data r
  | [] => false
  end.
Definition needs_expansion (t : list Z) : bool := switch_string_var_check_const t || switch_string_has_escaped_data t.

(** ** The buffer *)
(** The text and the size. *)
Definition buffer : Type := list Z * Z.
Definition block : Z := 128.
(** [resize], when [n] more bytes do not fit. *)
Definition make_room (n : Z) (b : buffer) : buffer :=
  let '(out, olen) := b in if zlen out + n >=? olen then (out, olen + (zlen out + n + block)) else b.
Definition append (t : list Z) (b : buffer) : res buffer :=
  let '(out, olen) := make_room (zlen t) b in if zlen out + zlen t <? olen then Ret (out ++ t, olen) else Ub.

(** ** The parts of a reference *)

(** Behind the opening brace: the name, what is behind its closing brace, and the
    number of open braces. *)
Fixpoint close_brace (first : bool) (br : Z) (e : list Z) : list Z * list Z * Z :=
  match e with
  | [] => ([], [], br)
  | c :: r =>
    if (br =? 1) && (c =? 125) then ([], r, 0)
    else
      let br := if 0 <? br then
                  if negb first && (c =? 123) then br + 1 else if (1 <? br) && (c =? 125) then br - 1 else br
                else br in
      let '(name, rest, br) := close_brace false br r in (c :: name, rest, br)
  end.
(** A call: the function, whether a parenthesis follows, and the rest. *)
Fixpoint split_call (vname : list Z) : option (list Z * bool * list Z) :=
  match vname with
  | [] => None
  | c :: r =>
    if c =? 32 then Some ([], false, r)
    else if c =? 40 then Some ([], true, r)
    else option_map (fun '(f, paren, vval) => (c :: f, paren, vval)) (split_call r)
  end.
Fixpoint call_args (br : Z) (e : list Z) : list Z :=
  match e with
  | [] => []
  | c :: r =>
    if c =? 40 then c :: call_args (br + 1) r
    else if (1 <? br) && (c =? 41) then c :: call_args (br - 1) r
    else if (br =? 1) && (c =? 41) then []
    else c :: call_args br r
  end.
(** The name, its index, the offset and the length. *)
Definition split_name (vname : list Z) : list Z * Z * Z * Z :=
  let '(name, offset, ooffset) :=
    match split_at 58 vname with
    | Some (name, ptr) => (name, atoi ptr, match split_at 58 ptr with Some (_, ptr) => atoi ptr | None => 0 end)
    | None => (vname, 0, 0)
    end in
  match split_at 91 name with
  | Some (n, ptr) => if has_char 93 ptr then (n, atoi ptr, offset, ooffset) else (name, -1, offset, ooffset)
  | None => (name, -1, offset, ooffset)
  end.
Definition part_of (v : list Z) (offset ooffset : Z) : list Z :=
  let v := if offset >=? 0 then drop (Z.to_nat offset) v
           else if u64 (i32 (Z.abs offset)) <=? zlen v then drop (Z.to_nat (zlen v + offset)) v
           else v in
  if (ooffset >? 0) && (ooffset <? zlen v) then take (Z.to_nat ooffset) v else v.

(** ** Expansion *)
Section Expansion.
Context {St : Type} {E : expander St} (var_list api_list : permission_list).

Section Level.
(** The expansion of the texts in a reference. *)
Context (expand : list Z -> St -> res (option (list Z) * St)).
Definition expanded (t : list Z) (s : St) : res (list Z * St) := '(o, s) <-! expand t s;; Ret (default t o, s).

Definition expand_variable (vname : list Z) (s : St) : res (list Z * St) :=
  '(vname, s) <-! expanded vname s;;
  let '(name, idx, offset, ooffset) := split_name vname in
  v <-! get_variable_dup name idx s;;
  match v with
  | None => Ret ([], s)
  | Some v =>
    '(v, s) <-! expanded (if permitted var_list name then v else VARIABLE_DENIED) s;;
    Ret (part_of v offset ooffset, s)
  end.
Definition expand_call (vname vval : list Z) (s : St) : res (list Z * St) :=
  '(vname, s) <-! expanded vname s;;
  '(vval, s) <-! expanded vval s;;
  if negb SCF_API_EXPANSION || negb (permitted api_list vname) then Ret (API_DENIED, s)
  else let '(o, s) := switch_api_execute vname vval s in Ret (default [] o, s).
(** What a reference stands for; [br] braces are open. *)
Definition expand_reference (vname : list Z) (br : Z) (s : St) : res (list Z * St) :=
  match split_call vname with
  | Some (f, paren, vval) => expand_call f (call_args (if (paren : bool) then 1 else br) vval) s
  | None => expand_variable vname s
  end.

(** The character behind a reference is not looked at, but for a dollar sign; at the
    end of the text it is the terminating zero, which the buffer holds already. *)
Fixpoint expand_loop (fuel : nat) (p : list Z) (b : buffer) (s : St) : res (buffer * St) :=
  match fuel, p with
  | _, [] => Ret (b, s)
  | O, _ => Ub
  | S fuel, c :: r =>
    let copy c r := b <-! append [c] b;; expand_loop fuel r b s in
    if c =? 92 then
      match r with
      | d :: r' =>
        if d =? 36 then copy 36 (match r' with x :: r'' => if x =? 36 then r'' else r' | [] => r' end)
        else if d =? 39 then expand_loop fuel r' b s
        else if d =? 92 then copy 92 r'
        else copy c r
      | [] => copy c r
      end
    else if c =? 36 then
      let r := match r with x :: r' => if x =? 36 then r' else r | [] => r end in
      match r with
      | x :: body =>
        if x =? 123 then
          let '(vname, rest, br) := close_brace true 1 body in
          '(sub_val, s) <-! expand_reference vname br s;;
          b <-! (if zlen sub_val =? 0 then Ret b else append sub_val b);;
          match rest with
          | [] => Ret (b, s)
          | c :: r => if c =? 36 then expand_loop fuel rest b s else b <-! append [c] b;; expand_loop fuel r b s
          end
        else copy 36 r
      | [] => copy 36 r
      end
    else copy c r
  end.
End Level.

(** [levels] more levels may be opened. *)
Fixpoint expand_levels (levels : nat) (t : list Z) (s : St) : res (option (list Z) * St) :=
  match levels with
  | O => Ret (None, s)
  | S levels =>
    if bool_decide (t = []) || negb (needs_expansion t) then Ret (None, s)
    else
      '(b, s) <-! expand_loop (expand_levels levels) (length t) t ([], zlen t + 1) s;;
      Ret (Some (fst b), s)
  end.
Definition switch_channel_expand_variables_check (t : list Z) (recur : Z) (s : St) : res (option (list Z) * St) :=
  expand_levels (Z.to_nat (101 - recur)) t s.
End Expansion.
Definition switch_channel_expand_variables {St : Type} {E : expander St} (t : list Z) (s : St) : res (option (list Z) * St) :=
  switch_channel_expand_variables_check None None t 0 s.

(** ** The buffer is large enough *)
Lemma append_ret t (b : buffer) : 0 < snd b -> exists b' : buffer, append t b = Ret b' /\ fst b' = fst b ++ t /\ 0 < snd b'.
Proof.
  destruct b as [out olen]. cbn [snd]. intros Hl. pose proof (zlen_nonneg t). pose proof (zlen_nonneg out). unfold append, make_room.
  destruct (_ >=? olen) eqn:E; rewrite Z.geb_leb in E.
  - apply Z.leb_le in E. unfold block. rewrite (proj2 (Z.ltb_lt _ _)) by lia. eexists. split_and!; [done|done|cbn; lia].
  - apply Z.leb_gt in E. rewrite (proj2 (Z.ltb_lt _ _)) by lia. eexists. by split_and!.
Qed.
Lemma close_brace_length e : forall first br, let '(_, rest, _) := close_brace first br e in (length rest <= length e)%nat.
Proof.
  induction e as [|c e IH]; intros first br; cbn [close_brace]; [cbn; lia|]. destruct (_ && _); [cbn; lia|].
  match goal with |- context [close_brace false ?k e] => specialize (IH false k); destruct (close_brace false k e) as [[n r] b] end. cbn. lia.
Qed.

Section Bounds.
Context {St : Type} {E : expander St} (var_list api_list : permission_list).
(** In such a session every variable can be asked for, and functions keep it so. *)
Context (fine : St -> Prop) (Hget : forall n i s, fine s -> is_ret (get_variable_dup n i s)).
Context (Hapi : forall f a s, fine s -> fine (snd (switch_api_execute f a s))).
Definition ends_fine {A} (m : res (A * St)) : Prop := exists a s, m = Ret (a, s) /\ fine s.

Lemma reference_total expand vname br s : (forall t s, fine s -> ends_fine (expand t s)) -> fine s ->
  ends_fine (expand_reference var_list api_list expand vname br s).
Proof.
  intros He Hs. assert (Hx : forall t s, fine s -> ends_fine (expanded expand t s)).
  { intros t s1 H1. unfold expanded. destruct (He t s1 H1) as (o & s2 & -> & H2). by exists (default t o), s2. }
  unfold expand_reference. destruct (split_call vname) as [[[f paren] vval]|].
  - unfold expand_call. destruct (Hx f s Hs) as (f' & s1 & -> & H1). cbn [rbind].
    destruct (Hx (call_args (if paren then 1 else br) vval) s1 H1) as (v & s2 & -> & H2). cbn [rbind].
    destruct (_ || _); [by exists API_DENIED, s2|]. pose proof (Hapi f' v s2 H2) as H3. destruct (switch_api_execute f' v s2) as [o s3].
    by exists (default [] o), s3.
  - unfold expand_variable. destruct (Hx vname s Hs) as (n & s1 & -> & H1). cbn [rbind]. destruct (split_name n) as [[[name idx] offset] ooffset].
    destruct (Hget name idx s1 H1) as [[v|] ->]; cbn [rbind]; [|by exists [], s1].
    destruct (Hx (if permitted var_list name then v else VARIABLE_DENIED) s1 H1) as (w & s2 & -> & H2). by exists (part_of w offset ooffset), s2.
Qed.

Lemma loop_total expand : (forall t s, fine s -> ends_fine (expand t s)) -> forall fuel p (b : buffer) s, (length p <= fuel)%nat -> 0 < snd b ->
  fine s -> ends_fine (expand_loop var_list api_list expand fuel p b s).
Proof.
  intros He. induction fuel as [|fuel IH]; intros p b s Hf Hb Hs; (destruct p as [|c r]; [by exists b, s|]); cbn in Hf; [lia|].
  assert (Hcopy : forall c r, (length r <= fuel)%nat -> ends_fine (b <-! append [c] b;; expand_loop var_list api_list expand fuel r b s)).
  { intros x q Hq. destruct (append_ret [x] b Hb) as (b' & -> & _ & Hb'). cbn [rbind]. by apply IH. }
  cbn [expand_loop]. destruct (c =? 92).
  { destruct r as [|d r]; [apply Hcopy; cbn; lia|]. cbn in Hf.
    destruct (d =? 36); [apply Hcopy; destruct r as [|x q]; [cbn; lia|]; destruct (x =? 36); cbn in *; lia|].
    destruct (d =? 39); [apply IH; [lia|done|done]|]. destruct (d =? 92); apply Hcopy; cbn; lia. }
  destruct (c =? 36); [|apply Hcopy; lia]. set (q := match r with [] => r | _ => _ end).
  assert (Hq : (length q <= length r)%nat) by (unfold q; destruct r as [|x q']; [done|]; destruct (x =? 36); cbn; lia). clearbody q.
  destruct q as [|x body]; [apply Hcopy; cbn; lia|]. destruct (x =? 123); [|apply Hcopy; cbn in *; lia].
  pose proof (close_brace_length body true 1) as Hr. destruct (close_brace true 1 body) as [[vname rest] br].
  destruct (reference_total expand vname br s He Hs) as (w & s1 & -> & Hs1). cbn [rbind].
  assert (Hb1 : exists b1 : buffer, (if zlen w =? 0 then Ret b else append w b) = Ret b1 /\ 0 < snd b1).
  { destruct (zlen w =? 0); [by exists b|]. destruct (append_ret w b Hb) as (b1 & -> & _ & H). by exists b1. }
  destruct Hb1 as (b1 & -> & Hb1). cbn [rbind]. cbn in Hq. destruct rest as [|y rest]; [by exists b1, s1|].
  destruct (y =? 36); [apply IH; [lia|done|done]|].
  destruct (append_ret [y] b1 Hb1) as (b2 & -> & _ & Hb2). cbn [rbind]. apply IH; [cbn in *; lia|done|done].
Qed.

Lemma levels_total levels : forall t s, fine s -> ends_fine (expand_levels var_list api_list levels t s).
Proof.
  induction levels as [|levels IH]; intros t s Hs; cbn [expand_levels]; [by exists None, s|]. destruct (_ || _); [by exists None, s|].
  pose proof (zlen_nonneg t). destruct (loop_total _ IH (length t) t ([], zlen t + 1) s (le_n _) ltac:(cbn; lia) Hs) as (b & s1 & -> & H1).
  by exists (Some (fst b)), s1.
Qed.
End Bounds.

(** ** Texts without references *)
Lemma var_check_mono s : var_check_loop s true = false -> var_check_loop s false = false.
Proof.
  induction s as [|c s IH]; [done|]. cbn [var_check_loop]. destruct (c =? 36); [done|]. destruct (c =? 123); [done|].
  destruct (c =? 92); [exact IH|done].
Qed.

(** Nobody is asked for the expansion of such a text. *)
Lemma loop_inert fuel : forall p (b : buffer), (length p <= fuel)%nat -> 0 < snd b -> var_check_loop p false = false ->
  exists b', forall (St : Type) (E : expander St) var_list api_list expand s, expand_loop (E := E) var_list api_list expand fuel p b s = Ret (b', s).
Proof.
  induction fuel as [|fuel IH]; intros p b Hf Hb Hp; (destruct p as [|c r]; [by exists b|]); cbn in Hf; [lia|].
  assert (Hcopy : forall c r, (length r <= fuel)%nat -> var_check_loop r false = false ->
    exists b', forall (St : Type) (E : expander St) var_list api_list expand s,
      (b <-! append [c] b;; expand_loop (E := E) var_list api_list expand fuel r b s) = Ret (b', s)).
  { intros x q Hq Hc. destruct (append_ret [x] b Hb) as (b1 & E1 & _ & Hb1). destruct (IH q b1 Hq Hb1 Hc) as (b' & H).
    exists b'. intros. rewrite E1. apply H. }
  cbn [expand_loop]. cbn [var_check_loop] in Hp. destruct (Z.eqb_spec c 92) as [->|Hc].
  { change (92 =? 36) with false in Hp. cbv iota in Hp. destruct r as [|d r]; [apply Hcopy; [cbn; lia|done]|]. cbn in Hf.
    destruct (Z.eqb_spec d 36) as [->|Hd].
    { apply Hcopy.
      - destruct r as [|x q]; [cbn; lia|]. destruct (x =? 36); cbn in *; lia.
      - cbn [var_check_loop] in Hp. change (36 =? 36) with true in Hp. cbv iota in Hp. destruct r as [|x q]; [done|].
        destruct (Z.eqb_spec x 36) as [->|]; [|by apply var_check_mono]. by apply var_check_mono. }
    cbn [var_check_loop] in Hp. rewrite (proj2 (Z.eqb_neq d 36)) in Hp by done. destruct (d =? 39); [apply IH; [lia|done|done]|].
    destruct (d =? 92); apply Hcopy; [lia|done|cbn; lia|]. cbn [var_check_loop]. by rewrite (proj2 (Z.eqb_neq d 36)). }
  destruct (Z.eqb_spec c 36) as [->|Hc36]; [|apply Hcopy; [lia|done]].
  assert (Hq : exists q, (length q <= length r)%nat /\ var_check_loop q true = false /\
    match r with [] => r | x :: r' => if x =? 36 then r' else r end = q).
  { destruct r as [|x q]; [by exists []|]. cbn [var_check_loop] in Hp. destruct (x =? 36) eqn:Ex.
    - exists q. split_and!; [cbn; lia|exact Hp|done].
    - exists (x :: q). split_and!; [done| |done]. cbn [var_check_loop]. by rewrite Ex. }
  destruct Hq as (q & Hl & Hv & ->). destruct q as [|x body]; [by apply Hcopy; [cbn; lia|]|]. destruct (Z.eqb_spec x 123) as [->|]; [by cbn in Hv|].
  apply Hcopy; [cbn in *; lia|by apply var_check_mono].
Qed.
Lemma expand_inert t recur : switch_string_var_check_const t = false -> exists o,
  forall (St : Type) (E : expander St) var_list api_list s, switch_channel_expand_variables_check (E := E) var_list api_list t recur s = Ret (o, s).
Proof.
  intros Ht. unfold switch_channel_expand_variables_check. destruct (Z.to_nat (101 - recur)) as [|n]; [by exists None|]. cbn [expand_levels].
  destruct (_ || _); [by exists None|]. pose proof (zlen_nonneg t).
  destruct (loop_inert (length t) t ([], zlen t + 1) (le_n _) ltac:(cbn; lia) Ht) as (b & H1). exists (Some (fst b)). intros. by rewrite H1.
Qed.

(** ** Templates *)

(** A character, an escaped dollar sign or backslash, and a variable with an offset
    and a length, which is written as a reference. *)
Inductive vpiece := Char (c : Z) | Escaped (c : Z) | Var (name : list Z) (range : option (list Z * option (list Z))).
Definition range_text (range : option (list Z * option (list Z))) : list Z :=
  match range with
  | None => []
  | Some (offset, None) => 58 :: offset
  | Some (offset, Some len) => 58 :: offset ++ 58 :: len
  end.
Definition vpiece_text (p : vpiece) : list Z :=
  match p with
  | Char c => [c]
  | Escaped c => [92; c]
  | Var name range => 36 :: 123 :: name ++ range_text range ++ [125]
  end.
Definition vtemplate (ps : list vpiece) : list Z := concat (map vpiece_text ps).

Definition name_chars (s : list Z) : bool :=
  forallb (fun c => negb (existsb (Z.eqb c) [36; 92; 123; 125; 32; 40; 58; 91])) s.
Definition range_chars (range : option (list Z * option (list Z))) : bool :=
  match range with
  | None => true
  | Some (offset, len) => name_chars offset && match len with Some l => name_chars l | None => true end
  end.
(** What follows a piece does not change its meaning. *)
Definition follows (p : vpiece) (ps : list vpiece) : bool :=
  match p, ps with
  | Escaped _, Var _ _ :: _ | Var _ _, Escaped _ :: _ => false
  | _, _ => true
  end.
Fixpoint well_written (ps : list vpiece) : bool :=
  match ps with
  | [] => true
  | p :: ps =>
    match p with
    | Char c => negb (c =? 36) && negb (c =? 92)
    | Escaped c => (c =? 36) || (c =? 92)
    | Var name range => name_chars name && range_chars range
    end && follows p ps && well_written ps
  end.

Definition range_of (range : option (list Z * option (list Z))) : Z * Z :=
  match range with
  | None => (0, 0)
  | Some (offset, len) => (atoi offset, match len with Some l => atoi l | None => 0 end)
  end.
(** The characters behind an offset, or as many as it says from the end, and of
    these the first [n], if [n] is positive. *)
Definition portion (v : list Z) (offset n : Z) : list Z :=
  let w := if 0 <=? offset then drop (Z.to_nat offset) v else if - offset <=? zlen v then drop (length v - Z.to_nat (- offset)) v else v in
  if 0 <? n then take (Z.to_nat n) w else w.
(** [env] gives the texts of the variables. *)
Definition vpiece_value (env : list Z -> list Z) (p : vpiece) : list Z :=
  match p with
  | Char c | Escaped c => [c]
  | Var name range => portion (env name) (fst (range_of range)) (snd (range_of range))
  end.

Lemma name_chars_not s : name_chars s = true -> forall c, existsb (Z.eqb c) [36; 92; 123; 125; 32; 40; 58; 91] = true -> c ∉ s.
Proof.
  intros Hs c Hc Hin. unfold name_chars in Hs. rewrite forallb_forall in Hs. apply list_elem_of_In, Hs in Hin. by rewrite Hc in Hin.
Qed.
Lemma plain_var_check s : 36 ∉ s -> var_check_loop s false = false.
Proof.
  induction s as [|c s IH]; intros Hs; [done|]. apply not_elem_of_cons in Hs as [Hc Hs]. cbn [var_check_loop].
  rewrite (proj2 (Z.eqb_neq c 36)) by congruence. by apply IH.
Qed.
Lemma plain_escapes s : 92 ∉ s -> switch_string_has_escaped_data s = false.
Proof.
  induction s as [|c s IH]; intros Hs; [done|]. apply not_elem_of_cons in Hs as [Hc Hs]. cbn [switch_string_has_escaped_data].
  rewrite (proj2 (Z.eqb_neq c 92)) by congruence. by apply IH.
Qed.
Lemma close_plain t rest : 123 ∉ t -> 125 ∉ t -> forall first, close_brace first 1 (t ++ 125 :: rest) = (t, rest, 0).
Proof.
  induction t as [|c t IH]; intros H1 H2 first; [done|]. apply not_elem_of_cons in H1 as [N1 H1], H2 as [N2 H2]. cbn [app close_brace].
  rewrite (proj2 (Z.eqb_neq c 125)), (proj2 (Z.eqb_neq c 123)) by congruence. rewrite !andb_false_r. change (0 <? 1) with true. cbv iota.
  by rewrite IH.
Qed.
Lemma no_call t : 32 ∉ t -> 40 ∉ t -> split_call t = None.
Proof.
  induction t as [|c t IH]; intros H1 H2; [done|]. apply not_elem_of_cons in H1 as [N1 H1], H2 as [N2 H2]. cbn [split_call].
  rewrite (proj2 (Z.eqb_neq c 32)), (proj2 (Z.eqb_neq c 40)) by congruence. by rewrite IH.
Qed.

(** The text of a reference and what is read from it. *)
Lemma reference_chars name range c : name_chars name = true -> range_chars range = true -> existsb (Z.eqb c) [36; 92; 123; 125; 32; 40; 91] = true ->
  c ∉ name ++ range_text range.
Proof.
  intros Hn Hr Hc.
  assert (Hc' : existsb (Z.eqb c) [36; 92; 123; 125; 32; 40; 58; 91] = true /\ c <> 58).
  { split; [|by intros ->]. cbn in Hc |- *. rewrite !orb_true_iff in *. tauto. }
  destruct Hc' as [Hc' H58]. rewrite not_elem_of_app. split; [by apply name_chars_not|].
  destruct range as [[offset [len|]]|]; cbn [range_text range_chars] in *; [| |by apply not_elem_of_nil];
    apply andb_prop in Hr as [Ho Hl]; apply not_elem_of_cons; (split; [done|]).
  - rewrite not_elem_of_app, not_elem_of_cons. split_and!; [by apply name_chars_not|done|by apply name_chars_not].
  - by apply name_chars_not.
Qed.
Lemma digits_colon s r : forall v, digits_value (s ++ 58 :: r) v = digits_value s v.
Proof. induction s as [|c s IH]; intros v; [done|]. cbn [app digits_value]. by destruct (_ && _). Qed.
Lemma skip_colon s r : skip_front isspace (s ++ 58 :: r) = skip_front isspace s ++ 58 :: r.
Proof. induction s as [|c s IH]; [done|]. cbn [app skip_front]. by destruct (isspace c). Qed.
Lemma atoi_colon s r : atoi (s ++ 58 :: r) = atoi s.
Proof.
  unfold atoi. rewrite skip_colon. destruct (skip_front isspace s) as [|c q]; [done|]. cbn [app].
  change (c :: q ++ 58 :: r) with ((c :: q) ++ 58 :: r). by rewrite !digits_colon.
Qed.
Lemma split_reference name range : name_chars name = true -> range_chars range = true ->
  split_name (name ++ range_text range) = (name, -1, fst (range_of range), snd (range_of range)).
Proof.
  intros Hn Hr. pose proof (name_chars_not name Hn 58 eq_refl) as H58. pose proof (name_chars_not name Hn 91 eq_refl) as H91.
  unfold split_name. destruct range as [[offset len]|]; cbn [range_text range_of fst snd].
  - cbn [range_chars] in Hr. apply andb_prop in Hr as [Ho Hl]. pose proof (name_chars_not offset Ho 58 eq_refl) as Ho58.
    destruct len as [len|].
    + rewrite split_at_app by done. rewrite split_at_app by done. rewrite split_at_none by done. by rewrite atoi_colon.
    + rewrite split_at_app by done. rewrite !split_at_none by done. done.
  - rewrite app_nil_r, !split_at_none by done. done.
Qed.

(** *** Parts of texts *)
Lemma i32_range z : -2147483648 <= i32 z < 2147483648.
Proof. unfold i32. pose proof (Z.mod_pos_bound (z + 2147483648) 4294967296 ltac:(lia)). lia. Qed.
Lemma atoi_range s : -2147483648 <= atoi s < 2147483648.
Proof. unfold atoi. destruct (skip_front isspace s) as [|c r]; [lia|]. destruct (c =? 45); [apply i32_range|]. destruct (c =? 43); apply i32_range. Qed.
Lemma range_of_bound range : -2147483648 <= fst (range_of range) < 2147483648.
Proof. destruct range as [[offset len]|]; [apply atoi_range|cbn; lia]. Qed.
(** The smallest offset asks for more than there is in every way. *)
Lemma part_portion v offset n : zlen v < 2147483648 -> -2147483648 <= offset < 2147483648 -> part_of v offset n = portion v offset n.
Proof.
  intros Hv Ho. unfold part_of, portion. pose proof (zlen_nonneg v). assert (Htake : forall w : list Z, (if (n >? 0) && (n <? zlen w) then take (Z.to_nat n) w else w) =
    (if 0 <? n then take (Z.to_nat n) w else w)).
  { intros w. rewrite Z.gtb_ltb. destruct (Z.ltb_spec 0 n); [|done]. cbn [andb]. destruct (Z.ltb_spec n (zlen w)); [done|].
    rewrite take_ge; [done|]. unfold zlen in *. lia. }
  rewrite Htake, Z.geb_leb. destruct (Z.leb_spec 0 offset); [done|]. rewrite Z.abs_neq by lia.
  assert (Hc : (u64 (i32 (- offset)) <=? zlen v) = (- offset <=? zlen v)).
  { destruct (Z.eq_dec offset (-2147483648)) as [->|Hne].
    - change (u64 (i32 (- -2147483648))) with 18446744071562067968. destruct (Z.leb_spec 18446744071562067968 (zlen v)), (Z.leb_spec (- -2147483648) (zlen v)); lia || done.
    - rewrite i32_small by lia. unfold u64. by rewrite Z.mod_small by lia. }
  rewrite Hc. destruct (Z.leb_spec (- offset) (zlen v)); [|done].
  replace (Z.to_nat (zlen v + offset)) with (length v - Z.to_nat (- offset))%nat by (unfold zlen in *; lia). done.
Qed.

Section Templates.
Context {St : Type} {E : expander St} (var_list api_list : permission_list) (env : list Z -> list Z) (s : St).

(** A variable has this text in the end, with [levels] more levels. *)
Definition has_text (levels : nat) (name w : list Z) : Prop :=
  exists v, get_variable_dup name (-1) s = Ret v /\
    match v with
    | None => w = []
    | Some v => zlen w < 2147483648 /\ permitted var_list name = true /\
                exists o, expand_levels var_list api_list levels v s = Ret (o, s) /\ w = default v o
    end.
Definition known (levels : nat) (p : vpiece) : Prop := match p with Var name _ => has_text levels name (env name) | _ => True end.

Lemma plain_stays levels t : 36 ∉ t -> 92 ∉ t -> expand_levels var_list api_list levels t s = Ret (None, s).
Proof.
  intros H1 H2. destruct levels; [done|]. cbn [expand_levels]. unfold needs_expansion, switch_string_var_check_const.
  rewrite plain_var_check, plain_escapes by done. by rewrite orb_true_r.
Qed.
Lemma portion_nothing o n : portion [] o n = [].
Proof. unfold portion. rewrite !drop_nil. by repeat case_match; rewrite ?take_nil. Qed.

Lemma reference_spec levels name range : name_chars name = true -> range_chars range = true -> has_text levels name (env name) ->
  expand_reference var_list api_list (expand_levels var_list api_list levels) (name ++ range_text range) 0 s =
    Ret (vpiece_value env (Var name range), s).
Proof.
  intros Hn Hr (v & Hv & Hw). pose proof (reference_chars name range) as Hc. unfold expand_reference.
  rewrite no_call by (by apply Hc). unfold expand_variable. unfold expanded at 1. rewrite plain_stays by (by apply Hc). cbn [rbind default].
  rewrite split_reference by done. rewrite Hv. cbn [rbind vpiece_value]. destruct v as [v|].
  - destruct Hw as (Hz & -> & o & Ho & Ew). unfold expanded. rewrite Ho. cbn [rbind]. rewrite <- Ew. by rewrite part_portion by (done || apply range_of_bound).
  - rewrite Hw. by rewrite portion_nothing.
Qed.

Lemma template_head ps : well_written ps = true ->
  match vtemplate ps with c :: _ => c = 36 -> exists n r qs, ps = Var n r :: qs | [] => ps = [] end.
Proof.
  destruct ps as [|[c|c|n r] qs]; intros H; [done|..].
  - cbn. intros ->. cbn in H. done.
  - cbn. intros [=].
  - cbn. intros _. by exists n, r, qs.
Qed.

Lemma loop_spec levels ps : well_written ps = true -> Forall (known levels) ps -> forall fuel (b : buffer), (length (vtemplate ps) <= fuel)%nat -> 0 < snd b ->
  exists b', expand_loop var_list api_list (expand_levels var_list api_list levels) fuel (vtemplate ps) b s = Ret (b', s) /\
    fst b' = fst b ++ concat (map (vpiece_value env) ps).
Proof.
  induction ps as [|p ps IH]; intros Hw Hk fuel b Hf Hb.
  { exists b. split; [by destruct fuel|]. by rewrite app_nil_r. }
  apply Forall_cons in Hk as [Hp Hk]. cbn [well_written] in Hw. apply andb_prop in Hw as [Hw Hps]. apply andb_prop in Hw as [Hpc Hfol].
  assert (Hcopy : forall c f, (length (vtemplate ps) <= f)%nat -> exists b',
    (b <-! append [c] b;; expand_loop var_list api_list (expand_levels var_list api_list levels) f (vtemplate ps) b s) = Ret (b', s) /\
    fst b' = fst b ++ c :: concat (map (vpiece_value env) ps)).
  { intros c f Hl. destruct (append_ret [c] b Hb) as (b1 & -> & E1 & Hb1). cbn [rbind].
    destruct (IH Hps Hk f b1 Hl Hb1) as (b' & -> & E2). exists b'. split; [done|]. by rewrite E2, E1, <- app_assoc. }
  change (vtemplate (p :: ps)) with (vpiece_text p ++ vtemplate ps) in *. rewrite length_app in Hf. cbn [map concat].
  destruct fuel as [|fuel]; [destruct p; cbn in Hf; lia|]. destruct p as [c|c|name range]; cbn [vpiece_text app length] in Hf |- *.
  - apply andb_prop in Hpc as [H1 H2]. apply negb_true_iff in H1, H2. cbn [expand_loop]. rewrite H1, H2. apply Hcopy. lia.
  - cbn [expand_loop]. change (92 =? 92) with true. cbv iota. apply orb_prop in Hpc as [Hpc|Hpc]; apply Z.eqb_eq in Hpc as ->.
    + change (36 =? 36) with true. cbv iota. pose proof (template_head ps Hps) as Hh. destruct (vtemplate ps) as [|x q] eqn:Et; [apply Hcopy; cbn; lia|].
      destruct (Z.eqb_spec x 36) as [->|]; [|apply Hcopy; lia]. destruct (Hh eq_refl) as (n & r & qs & ->). done.
    + change (92 =? 36) with false. change (92 =? 39) with false. change (92 =? 92) with true. cbv iota. apply Hcopy. lia.
  - apply andb_prop in Hpc as [Hn Hr]. cbn [expand_loop]. change (36 =? 92) with false. change (36 =? 36) with true. change (123 =? 36) with false.
    change (123 =? 123) with true. cbv iota.
    replace ((name ++ range_text range ++ [125]) ++ vtemplate ps) with ((name ++ range_text range) ++ 125 :: vtemplate ps) by (by rewrite <- !app_assoc).
    pose proof (reference_chars name range) as Hc. rewrite close_plain by (by apply Hc). rewrite (reference_spec levels) by done. cbn [rbind].
    set (w := vpiece_value env (Var name range)).
    assert (Hb1 : exists b1 : buffer, (if zlen w =? 0 then Ret b else append w b) = Ret b1 /\ fst b1 = fst b ++ w /\ 0 < snd b1).
    { destruct (Z.eqb_spec (zlen w) 0) as [Hz|]; [|by apply append_ret]. exists b. split_and!; [done| |done].
      destruct w; [by rewrite app_nil_r|]. rewrite zlen_cons in Hz. pose proof (zlen_nonneg w). lia. }
    destruct Hb1 as (b1 & -> & E1 & Hb1). cbn [rbind]. rewrite length_app in Hf. pose proof (template_head ps Hps) as Hh.
    assert (Hf' : (length (vtemplate ps) <= fuel)%nat) by (cbn in Hf; lia). change (123 =? 123) with true. cbv iota.
    rewrite app_assoc, <- E1. clear Hcopy. destruct (vtemplate ps) as [|x q] eqn:Et.
    + subst ps. exists b1. split; [done|]. by rewrite app_nil_r.
    + destruct (Z.eqb_spec x 36) as [->|Hx].
      { destruct (IH Hps Hk fuel b1 Hf' Hb1) as (b2 & E2 & E3). by exists b2. }
      destruct (IH Hps Hk (S fuel) b1 ltac:(lia) Hb1) as (b2 & E2 & E3). exists b2. split; [|done].
      destruct ps as [|[c|c|n r] qs]; [done| |done|]; cbn in Et; injection Et as <- <-; [|by destruct Hx].
      cbn [well_written] in Hps. apply andb_prop in Hps as [Hps _]. apply andb_prop in Hps as [Hps _]. apply andb_prop in Hps as [_ Hps].
      apply negb_true_iff in Hps. cbn [expand_loop] in E2. rewrite Hps, (proj2 (Z.eqb_neq c 36)) in E2 by done. exact E2.
Qed.

Lemma template_spec levels ps : well_written ps = true -> Forall (known levels) ps ->
  expand_levels var_list api_list (S levels) (vtemplate ps) s =
    Ret (if needs_expansion (vtemplate ps) then Some (concat (map (vpiece_value env) ps)) else None, s).
Proof.
  intros Hw Hk. cbn [expand_levels]. destruct (needs_expansion (vtemplate ps)) eqn:En; [|by rewrite orb_true_r].
  rewrite bool_decide_eq_false_2 by (by intros H; rewrite H in En). cbn [orb negb]. pose proof (zlen_nonneg (vtemplate ps)).
  destruct (loop_spec levels ps Hw Hk (length (vtemplate ps)) ([], zlen (vtemplate ps) + 1) (le_n _) ltac:(cbn; lia)) as (b & -> & Eb).
  cbn [rbind]. by rewrite Eb.
Qed.
End Templates.

(** ** Claims *)

(** C8: what references stand for. In a text of plain characters, escaped dollar signs
    and backslashes, and references to permitted variables with an offset and a length,
    each reference is replaced by the part of the variable's text that it asks for, by
    nothing when there is no such variable, each escaped character by the character, and
    the rest stays; the session does not change. Names and ranges are written without
    dollar signs, backslashes, braces, blanks, parentheses, colons and brackets, and no
    escape stands directly before or behind a reference (behind one the code keeps the
    backslash, [escape_behind_reference]). The variables may hold references themselves,
    as long as their own expansion leaves the session and is shorter than two gigabytes.
    The exception: a text that has neither a reference nor an escape of another kind
    than that of a dollar sign needs no expansion and is returned as it is, with its
    backslashes ([dollar_keeps_escape]). *)
Theorem references_are_expanded {St : Type} {E : expander St} (var_list api_list : permission_list) (env : list Z -> list Z) (s : St)
    (ps : list vpiece) (recur : Z) : 0 <= recur <= 100 ->
  well_written ps = true -> Forall (known var_list api_list env s (Z.to_nat (100 - recur))) ps ->
  switch_channel_expand_variables_check var_list api_list (vtemplate ps) recur s =
    Ret (if needs_expansion (vtemplate ps) then Some (concat (map (vpiece_value env) ps)) else None, s).
Proof.
  intros Hr Hw Hk. unfold switch_channel_expand_variables_check. replace (Z.to_nat (101 - recur)) with (S (Z.to_nat (100 - recur))) by lia.
  by apply template_spec.
Qed.


(** C24: What a caller supplies runs nothing: whatever the arguments of a new profile
    are, the expansion of each of its text fields other than the identifier is the
    same in all sessions, with all modules and permissions, and leaves the session as
    it is: no variable is read and no function called. *)
Theorem caller_text_runs_nothing id soft_prefix soft_lookup a f t recur : f <> uuid_str ->
  p_text (switch_caller_profile_new id soft_prefix soft_lookup a) f = Some t ->
  exists o, forall (St : Type) (E : expander St) var_list api_list s,
    switch_channel_expand_variables_check (E := E) var_list api_list t recur s = Ret (o, s).
Proof. intros Hf Ht. apply expand_inert. by apply (new_profile_inert id soft_prefix soft_lookup a f). Qed.

(** ** On a channel *)

(** [api] are the functions of the modules, which know the channel. *)
Definition channel_expander (api : list Z -> list Z -> channel_vars -> option (list Z) * channel_vars) : expander channel_vars := {|
  get_variable_dup := fun name idx c => switch_channel_get_variable_dup c name idx;
  switch_api_execute := api;
  SCF_API_EXPANSION := true
|}.
(** A function that returns its arguments in brackets. *)
Definition echo (f a : list Z) (c : channel_vars) : option (list Z) * channel_vars :=
  (if bool_decide (f = chars "echo") then Some (91 :: a ++ [93]) else None, c).
#[local] Instance echo_expander : expander channel_vars := channel_expander echo.
(** The expansion of a text on a channel with a variable, of the level [recur]. *)
Definition with_variable (name v : list Z) : channel_vars :=
  match switch_channel_set_variable_var_check demo_channel name (Some v) false with Ret (c, _) => c | _ => demo_channel end.
Definition expansion (t : list Z) (c : channel_vars) : res (option (list Z)) :=
  '(o, _) <-! switch_channel_expand_variables t c;; Ret o.

(** The text of a caller's name, from its second letter, between others. *)
Definition demo_pieces : list vpiece :=
  map Char (chars "To ") ++ [Var (chars "caller_id_name") (Some (chars "1", None)); Char 33; Var (chars "nobody") None; Char 32; Escaped 36; Char 53].
Definition demo_texts (name : list Z) : list Z := if bool_decide (name = chars "caller_id_name") then chars "Ann" else [].
Lemma references_are_expanded_witness :
  switch_channel_expand_variables_check None None (chars "To ${caller_id_name:1}!${nobody} \$5") 0 demo_channel =
    Ret (Some (chars "To nn! $5"), demo_channel).
Proof.
  change (chars "To ${caller_id_name:1}!${nobody} \$5") with (vtemplate demo_pieces). rewrite (references_are_expanded None None demo_texts demo_channel demo_pieces 0).
  - reflexivity.
  - lia.
  - reflexivity.
  - repeat (apply Forall_cons; split; [|]); try exact I; try apply Forall_nil_2; [|].
    + exists (Some (chars "Ann")). split; [reflexivity|]. split; [reflexivity|]. split; [reflexivity|]. exists None. by split.
    + exists None. by split.
Defined.

Lemma field_answers p name : p_times p <> None -> is_ret (switch_caller_get_field_by_name p name).
Proof.
  intros Ht. unfold switch_caller_get_field_by_name. destruct (by_name text_names name); [by eexists|].
  destruct (by_name number_names name); [by eexists|]. destruct (by_name flag_names name); [by eexists|].
  destruct (by_name time_names name); [|by eexists]. destruct (p_times p); [by eexists|done].
Qed.
(** The fields of the profiles of a channel that have times can be asked for. *)
Definition has_times (p : option caller_profile) : Prop := match p with Some p => p_times p <> None | None => True end.
Lemma channel_answers c name idx : has_times (cv_profile c) -> has_times (cv_originator c) -> has_times (cv_originatee c) ->
  is_ret (switch_channel_get_variable_dup c name idx).
Proof.
  intros H1 H2 H3. unfold switch_channel_get_variable_dup. case_bool_decide; [by eexists|].
  destruct (match scope_variable _ _ _ with Some _ => _ | None => _ end); [by eexists|].
  assert (Hl : has_times (fst (leg c name))).
  { unfold leg. destruct (cv_profile c); [|done]. by do 2 (destruct (begins _ _); [done|]). }
  destruct (leg c name) as [[p|] n]; [|by eexists]. destruct (field_answers p n Hl) as [v ->]. by eexists.
Qed.

Definition answers (c : channel_vars) : Prop := has_times (cv_profile c) /\ has_times (cv_originator c) /\ has_times (cv_originatee c).
Definition timed_channel : channel_vars := demo_channel <| cv_profile ::= option_map (fun p => p <| p_times := Some no_times |>) |>.

(** Somebody calls with a name that is a reference. *)
Lemma caller_text_runs_nothing_witness : exists t o,
  p_text (switch_caller_profile_new [] false false demo_args) caller_id_name = Some t /\ t = chars "$%{%{hook}" /\
  switch_channel_expand_variables_check None None t 0 demo_channel = Ret (o, demo_channel).
Proof.
  destruct (caller_text_runs_nothing [] false false demo_args caller_id_name (chars "$%{%{hook}") 0) as (o & H); [discriminate|reflexivity|].
  exists (chars "$%{%{hook}"), o. split; [reflexivity|]. split; [reflexivity|]. apply H.
Defined.

(** ** What expansion does besides *)

(** The arguments of a function behind a space end at the first parenthesis that is
    closed; behind a parenthesis they are balanced. *)
Theorem space_arguments_are_cut :
  expansion (chars "${echo one(two) three}") demo_channel = Ret (Some (chars "[one(two]")) /\
  expansion (chars "${echo(one(two) three)}") demo_channel = Ret (Some (chars "[one(two) three]")).
Proof. split; vm_compute; reflexivity. Qed.

(** A value that is not a reference for the check becomes one when it is expanded. *)
Theorem quote_hides_reference :
  switch_string_var_check_const (chars "$\'{caller_id_name}") = false /\
  expansion (chars "$\'{caller_id_name}") demo_channel = Ret (Some (chars "${caller_id_name}")).
Proof. split; vm_compute; reflexivity. Qed.

(** The escape of a quote is taken away, that of a backslash behind a reference is
    not, and that of a dollar sign only in a text that is expanded. *)
Theorem escape_behind_reference :
  expansion (chars "a\\${caller_id_name}") demo_channel = Ret (Some (chars "a\Ann")) /\
  expansion (chars "${caller_id_name}\\") demo_channel = Ret (Some (chars "Ann\\")).
Proof. split; vm_compute; reflexivity. Qed.
Theorem dollar_keeps_escape :
  expansion (chars "\$5") demo_channel = Ret None /\
  expansion (chars "${caller_id_name} \$5") demo_channel = Ret (Some (chars "Ann $5")).
Proof. split; vm_compute; reflexivity. Qed.

(** A variable that refers to itself is expanded a hundred times; what stays is the
    reference itself. *)
Theorem self_reference_ends : expansion (chars "${v}") (with_variable (chars "v") (chars "x${v}")) =
  Ret (Some (repeat 120 100 ++ chars "x${v}")).
Proof. vm_compute. reflexivity. Qed.
