(* ===== verification/Dialplan.v ===== *)
(** * Dialplan: the XML dialplan

    src/mod/dialplans/mod_dialplan_xml/mod_dialplan_xml.c: how the extensions of a
    context are searched for one that fits the call, and which applications it
    gives.  The document is a heap of tags, which is only read.  What the dialplan
    asks of the session is a class; time zones, the clock and PCRE are those of
    DateTime and Regex.  Texts that are freed while a pointer to them is kept are
    [Freed], and reading one is undefined. *)
From S2P Require Import Prelude CoreHash ChannelNames StateMachine UrlCode TextUtil NetList EventText Regex XmlText XmlTree XmlParse XmlPrint DateTime Caller.
From Stdlib Require Import ZArith Lia.
From stdpp Require Import base numbers option list strings gmap.

Local Open Scope Z_scope.

(** ** The session *)

(** [switch_application_interface_t]: the function, if there is one, and
    SAF_ROUTING_EXEC. *)
Record app_interface (S : Type) := mk_app {
  application_function : option (list Z -> S -> S);
  SAF_ROUTING_EXEC : bool
}.
Arguments mk_app {S}.
Arguments application_function {S}.
Arguments SAF_ROUTING_EXEC {S}.

Class dialplan_session (S : Type) := {
  get_variable : list Z -> S -> res (option (list Z));
  set_variable : list Z -> option (list Z) -> S -> res S;
  (** [switch_channel_add_variable_var_check] with SWITCH_STACK_PUSH *)
  push_variable : list Z -> list Z -> S -> res S;
  del_variable_prefix : list Z -> S -> res S;
  (** [None]: the text itself is returned. *)
  expand_variables : list Z -> S -> res (option (list Z) * S);
  get_application_interface : list Z -> S -> option (app_interface S);
  (** [switch_channel_hangup] with DESTINATION_OUT_OF_ORDER *)
  hangup_out_of_order : S -> S;
  session_clock : S -> clock
}.

(** ** Tags *)

(** [for (p = ...; p; p = p->next)] *)
Fixpoint next_tags (fuel : nat) (h : heap) (p : option positive) : res (list positive) :=
  match p with
  | None => Ret []
  | Some p =>
    match fuel with
    | O => Ub
    | S fuel => t <-! or_ub (h !! p);; l <-! next_tags fuel h (x_next t);; Ret (p :: l)
    end
  end.
Definition first_child (h : heap) (p : positive) (name : list Z) : res (option positive) :=
  match switch_xml_child (S (size h)) (Some p) name h with Done c _ => Ret c | Fault | Spin => Ub end.
Definition tags_of (h : heap) (p : positive) (name : list Z) : res (list positive) :=
  c <-! first_child h p name;; next_tags (size h) h c.
Definition tag_at (h : heap) (p : positive) : res tag := or_ub (h !! p).
Definition attr_soft (t : tag) (an : String.string) : list Z := default [] (attr_of t an).
Arguments attr_soft t an%_string_scope.

(** [switch_xml_find_child]; a null value finds the node itself. *)
Fixpoint find_tag (h : heap) (l : list positive) (an value : list Z) : res (option positive) :=
  match l with
  | [] => Ret None
  | p :: l =>
    t <-! tag_at h p;;
    match option_map (default []) (switch_xml_attr (x_attr t) an) with
    | Some a => if strcasecmp a value then Ret (Some p) else find_tag h l an value
    | None => find_tag h l an value
    end
  end.
Definition switch_xml_find_child (h : heap) (node : positive) (childname attrname : list Z) (value : option (list Z)) : res (option positive) :=
  match value with
  | None => Ret (Some node)
  | Some value => l <-! tags_of h node childname;; find_tag h l attrname value
  end.

(** ** Pointers to texts *)
Inductive ptr := Null | Freed | Live (s : list Z).
Definition read (p : ptr) : res (list Z) := match p with Live s => Ret s | _ => Ub end.
Definition is_null (p : ptr) : bool := match p with Null => true | _ => false end.

Section Dialplan.
Context {P : pcre} {St : Type} {D : dialplan_session St}.
(** The document, the caller, and what a vector holds before it is written. *)
Context (h : heap) (caller : caller_profile) (garbage : list Z).

(** *** Applications that are executed at once *)
Definition exec_app (app arg : list Z) (s : St) : St :=
  match get_application_interface app s with
  | None => hangup_out_of_order s
  | Some i =>
    match application_function i with
    | None => hangup_out_of_order s
    | Some f => if SAF_ROUTING_EXEC i then f arg s else s
    end
  end.

(** *** The time zone *)
Definition check_tz (s : St) : res (option Z * option (list Z)) :=
  tzoff <-! get_variable (chars "tod_tz_offset") s;;
  tzname <-! get_variable (chars "timezone") s;;
  Ret (match tzoff with
       | Some o => if negb (bool_decide (o = [])) && switch_is_number o then Some (NetList.atoi o) else None
       | None => None
       end, tzname).
Definition check_time (t : tag) (s : St) : res Z :=
  '(offset, tzname) <-! check_tz s;;
  switch_xml_std_datetime_check (C := session_clock s) t offset tzname garbage.

(** *** Fields and expressions *)
Definition expand_text (t : list Z) (s : St) : res (list Z * bool * St) :=
  '(o, s) <-! expand_variables t s;;
  Ret (match o with Some e => (e, true, s) | None => (t, false, s) end).
(** The text of the field, and whether it was allocated. *)
Definition field_text (field : list Z) (s : St) : res (list Z * bool * St) :=
  if has_char 36 field then expand_text field s
  else d <-! switch_caller_get_field_by_name caller field;; Ret (default [] d, false, s).
(** Of a tag: the text of its [expression] tag or attribute. *)
Definition expression_text (p : positive) (t : tag) (s : St) : res (list Z * bool * St) :=
  c <-! first_child h p (chars "expression");;
  e <-! match c with Some c => x <-! tag_at h c;; Ret (x_txt x) | None => Ret (attr_soft t "expression") end;;
  expand_text e s.

(** What the tests of a condition leave. *)
Record match_state := mk_match {
  m_field : ptr;
  m_data : ptr;
  m_expr : ptr;
  m_re : option regex;
  m_ovector : list Z;
  m_proceed : Z
}.
(** [field && strchr(expression, '(')] *)
Definition captures (m : match_state) : res bool :=
  if is_null (m_field m) then Ret false else e <-! read (m_expr m);; Ret (has_char 40 e).
Definition set_captures (var : list Z) (m : match_state) (s : St) : res St :=
  s <-! set_variable var None s;;
  if m_proceed m <=? 0 then Ret s
  else d <-! read (m_data m);; switch_capture_regex (m_proceed m) d (m_ovector m) (fun t => push_variable var t) s.

(** *** A condition with one test *)
Definition one_test (p : positive) (t : tag) (time_match : Z) (anti_action : bool) (proceed : Z) (s : St)
    : res (bool * match_state * St) :=
  '(expression, _, s) <-! expression_text p t s;;
  match attr_of t "field" with
  | Some field =>
    '(data, _, s) <-! field_text field s;;
    '(proceed, re, ov) <-! switch_regex_perform data expression None garbage;;
    Ret (if proceed =? 0 then anti_action else false,
         mk_match (Live field) (Live data) (Live expression) re ov proceed, s)
  | None =>
    let m := mk_match Null Null (Live expression) None garbage in
    if time_match =? -1 then Ret (false, m 1, s) else Ret (anti_action, m proceed, s)
  end.

(** *** A condition with many tests *)
Record tally := mk_tally { n_pass : Z; n_fail : Z; n_total : Z }.
(** The text, the expression and the vector's expression of the last match that
    captured something, with its [proceed]. *)
Definition saved : Type := option (regex * list Z * list Z * Z).

(** One test: whether the loop is left, and which texts were allocated. *)
Definition regex_test (all xor : bool) (p : positive) (m : match_state) (n : tally) (s : St)
    : res (bool * bool * bool * match_state * tally * St) :=
  t <-! tag_at h p;;
  regex_time_match <-! check_time t s;;
  '(expression, e_new, s) <-! expression_text p t s;;
  let n := mk_tally (n_pass n) (n_fail n) (n_total n + 1) in
  let passed := mk_tally (n_pass n + 1) (n_fail n) (n_total n) in
  let failed := mk_tally (n_pass n) (n_fail n + 1) (n_total n) in
  match attr_of t "field" with
  | Some field =>
    '(data, d_new, s) <-! field_text field s;;
    '(proceed, re, ov) <-! switch_regex_perform data expression None (m_ovector m);;
    let m := mk_match (Live field) (Live data) (Live expression) re ov proceed in
    if proceed =? 0 then Ret (all && negb xor, e_new, d_new, m, failed, s)
    else Ret (negb all && negb xor, e_new, d_new, m, passed, s)
  | None =>
    let 'mk_match _ d0 _ _ ov0 proceed0 := m in
    if (regex_time_match =? -1) || (regex_time_match =? 1)
    then Ret (negb all && negb xor, e_new, false, mk_match Null d0 (Live expression) None ov0 1, passed, s)
    else Ret (all, e_new, false, mk_match Null d0 (Live expression) None ov0 proceed0, failed, s)
  end.

(** What is freed at the end of a round. *)
Definition free_texts (e_new d_new : bool) (m : match_state) : match_state :=
  mk_match (m_field m) (if d_new then Freed else m_data m) (if e_new then Freed else m_expr m) (m_re m) (m_ovector m) (m_proceed m).
Definition drop_re (m : match_state) : match_state :=
  mk_match (m_field m) (m_data m) (m_expr m) None (m_ovector m) (m_proceed m).
Definition DP_REGEX_MATCH (total : Z) : list Z := chars "DP_REGEX_MATCH_" ++ print_number total.

Fixpoint regex_loop (all xor : bool) (l : list positive) (m : match_state) (n : tally) (save : saved) (s : St)
    : res (match_state * tally * saved * St) :=
  match l with
  | [] => Ret (m, n, save, s)
  | p :: l =>
    '(leave, e_new, d_new, m, n, s) <-! regex_test all xor p m n s;;
    if (leave : bool) then Ret (free_texts e_new d_new m, n, save, s)
    else
      cap <-! captures m;;
      '(save, s) <-!
        (if (cap : bool) then
           s <-! set_captures (DP_REGEX_MATCH (n_total n)) m s;;
           e <-! read (m_expr m);; d <-! read (m_data m);;
           Ret (match m_re m with Some re => Some (re, e, d, m_proceed m) | None => None end, s)
         else Ret (save, s));;
      regex_loop all xor l (free_texts e_new d_new (drop_re m)) n save s
  end.

(** The rule says whether all tests, one or exactly one have to pass. *)
Definition many_tests (p : positive) (t : tag) (rule : list Z) (anti_action : bool) (proceed : Z) (s : St)
    : res (bool * match_state * St) :=
  let all := strcasecmp rule (chars "all") in
  let xor := strcasecmp rule (chars "xor") in
  s <-! del_variable_prefix (chars "DP_REGEX_MATCH") s;;
  l <-! tags_of h p (chars "regex");;
  let field := match attr_of t "field" with Some f => Live f | None => Null end in
  '(m, n, save, s) <-! regex_loop all xor l (mk_match field Null Null None garbage proceed) (mk_tally 0 0 0) None s;;
  let anti_action :=
    if xor then if n_pass n =? 1 then false else anti_action
    else if (all && (n_fail n =? 0)) || (negb all && negb (n_pass n =? 0)) then false else anti_action in
  let m := match save with
           | Some (re, e, d, proceed) => mk_match (Live d) (Live d) (Live e) (Some re) (m_ovector m) proceed
           | None => m
           end in
  Ret (anti_action, m, s).

(** *** Actions *)
Definition action_data (t : tag) : list Z := if bool_decide (x_txt t = []) then attr_soft t "data" else x_txt t.
Definition loop_count (t : tag) : nat :=
  match attr_of t "loop" with Some l => Z.to_nat (NetList.atoi l) | None => 1%nat end.
(** The extension is made when the first action asks for it. *)
Definition ensure_extension (exten_name : list Z) (e : option extension) : extension :=
  match e with Some e => e | None => switch_caller_extension_new exten_name (p_text caller destination_number) end.
Fixpoint repeat_action (n : nat) (xinline : bool) (application data : list Z) (e : extension) (s : St) : extension * St :=
  match n with
  | O => (e, s)
  | S n =>
    if xinline then repeat_action n xinline application data e (exec_app application data s)
    else repeat_action n xinline application data (switch_caller_extension_add_application e application data) s
  end.
(** An action with its argument. *)
Definition perform_action (exten_name : list Z) (t : tag) (data : list Z) (e : option extension) (s : St) : res (extension * St) :=
  xinline <-! true_Z (attr_soft t "inline");;
  Ret (repeat_action (loop_count t) xinline (attr_soft t "application") data (ensure_extension exten_name e) s).

Fixpoint anti_actions (exten_name : list Z) (l : list positive) (proceed : Z) (e : option extension) (s : St)
    : res (Z * option extension * St) :=
  match l with
  | [] => Ret (proceed, e, s)
  | p :: l =>
    t <-! tag_at h p;;
    '(e, s) <-! perform_action exten_name t (action_data t) e s;;
    anti_actions exten_name l 1 (Some e) s
  end.

(** The argument with the groups of the match, in a buffer of the size computed in
    32 bits. *)
Definition substitute (m : match_state) (data : list Z) : res (list Z) :=
  cap <-! captures m;;
  if (cap : bool) then
    d <-! read (m_data m);;
    switch_perform_substitution (m_proceed m) data d (u32 (u32 (zlen data + zlen d + 10) * m_proceed m)) (m_ovector m)
  else Ret data.
Fixpoint actions (exten_name : list Z) (m : match_state) (l : list positive) (e : option extension) (s : St)
    : res (option extension * St) :=
  match l with
  | [] => Ret (e, s)
  | p :: l =>
    t <-! tag_at h p;;
    data <-! substitute m (action_data t);;
    '(e, s) <-! perform_action exten_name t data e s;;
    actions exten_name m l (Some e) s
  end.

(** *** Conditions *)
Inductive break_t := BREAK_ON_TRUE | BREAK_ON_FALSE | BREAK_ALWAYS | BREAK_NEVER.
Definition break_of (t : tag) : break_t :=
  match attr_of t "break" with
  | Some b =>
    if strcasecmp b (chars "on-true") then BREAK_ON_TRUE
    else if strcasecmp b (chars "on-false") then BREAK_ON_FALSE
    else if strcasecmp b (chars "always") then BREAK_ALWAYS
    else if strcasecmp b (chars "never") then BREAK_NEVER
    else BREAK_ON_FALSE
  | None => BREAK_ON_FALSE
  end.
Definition breaks (b : break_t) (anti_action : bool) : bool :=
  match b with
  | BREAK_ON_TRUE => negb anti_action
  | BREAK_ON_FALSE => anti_action
  | BREAK_ALWAYS => true
  | BREAK_NEVER => false
  end.

(** The tests of a condition: [anti_action], the match, the session. *)
Definition run_tests (p : positive) (t : tag) (proceed : Z) (s : St) : res (bool * match_state * St) :=
  time_match <-! check_time t s;;
  let anti_action := negb (time_match =? 1) in
  let proceed := if time_match =? 1 then 1 else if time_match =? 0 then 0 else proceed in
  match attr_of t "regex" with
  | Some rule => many_tests p t rule anti_action proceed s
  | None => one_test p t time_match anti_action proceed s
  end.
(** And its actions: [proceed], the extension, the session. *)
Definition run_actions (exten_name : list Z) (p : positive) (anti_action : bool) (m : match_state) (e : option extension) (s : St)
    : res (Z * option extension * St) :=
  if anti_action then
    l <-! tags_of h p (chars "anti-action");; anti_actions exten_name l (m_proceed m) e s
  else
    cap <-! captures m;;
    s <-! (if (cap : bool) then set_captures (chars "DP_MATCH") m s else Ret s);;
    l <-! tags_of h p (chars "action");;
    '(e, s) <-! actions exten_name m l e s;;
    Ret (m_proceed m, e, s).

(** The conditions of a tag; [nested] is the search in a condition. *)
Fixpoint conditions (nested : positive -> option extension -> St -> res (Z * option extension * St)) (exten_name : list Z)
    (l : list positive) (proceed : Z) (e : option extension) (s : St) : res (Z * option extension * St) :=
  match l with
  | [] => Ret (proceed, e, s)
  | p :: l =>
    t <-! tag_at h p;;
    '(anti_action, m, s) <-! run_tests p t proceed s;;
    '(proceed, e, s) <-! run_actions exten_name p anti_action m e s;;
    if breaks (break_of t) anti_action then Ret (proceed, e, s)
    else
      c <-! first_child h p (chars "condition");;
      match c with
      | Some _ =>
        if proceed =? 0 then conditions nested exten_name l proceed e s
        else
          '(proceed, e, s) <-! nested p e s;;
          if (proceed =? 0) && negb (match break_of t with BREAK_NEVER => true | _ => false end) then Ret (proceed, e, s)
          else conditions nested exten_name l proceed e s
      | None => conditions nested exten_name l proceed e s
      end
  end.

Definition MAX_RECUR : Z := 100.
Definition MAX_RECUR_SPACE : Z := 400.
(** The lines of the log are indented with a bar and four characters for each level,
    in [space]. *)
Definition indent_fits (recur : Z) : bool := 1 + 4 * recur <=? MAX_RECUR_SPACE.

Fixpoint parse_exten (fuel : nat) (recur : Z) (orig_exten_name : list Z) (xexten : positive) (e : option extension) (s : St)
    : res (Z * option extension * St) :=
  match fuel with
  | O => Ub
  | S fuel =>
    t <-! tag_at h xexten;;
    if recur >? MAX_RECUR then Ret (0, e, s)
    else if negb (recur =? 0) && negb (indent_fits recur) then Ub
    else
      let exten_name :=
        if recur =? 0 then default orig_exten_name (attr_of t "name")
        else take 127 (orig_exten_name ++ chars "_recur_" ++ print_number recur) in
      req_nest <-! (if recur =? 0 then Ret true
                    else match attr_of t "require-nested" with Some r => true_Z r | None => Ret true end);;
      l <-! tags_of h xexten (chars "condition");;
      '(proceed, e, s) <-! conditions (fun p => parse_exten fuel (recur + 1) orig_exten_name p) exten_name l 0 e s;;
      Ret (if (req_nest : bool) then proceed else 1, e, s)
  end.

(** *** The search *)
Fixpoint extensions_loop (l : list positive) (e : option extension) (s : St) : res (option extension * St) :=
  match l with
  | [] => Ret (e, s)
  | p :: l =>
    t <-! tag_at h p;;
    let exten_name := default (chars "UNKNOWN") (attr_of t "name") in
    '(proceed, e, s) <-! parse_exten 102 0 exten_name p e s;;
    cont <-! match attr_of t "continue" with Some c => true_Z c | None => Ret false end;;
    if negb (proceed =? 0) && negb cont then Ret (e, s) else extensions_loop l e s
  end.

Definition find_context (cfg : positive) : res (option positive) :=
  let ctx := default (chars "default") (p_text caller context) in
  c <-! switch_xml_find_child h cfg (chars "context") (chars "name") (Some ctx);;
  match c with
  | Some c => Ret (Some c)
  | None => switch_xml_find_child h cfg (chars "context") (chars "name") (Some (chars "global"))
  end.

(** [dialplan_hunt] from the [dialplan] tag on, which [dialplan_xml_locate] or the
    alternate file gave. *)
Definition dialplan_hunt (cfg : positive) (s : St) : res (option extension * St) :=
  c <-! find_context cfg;;
  match c with
  | None => Ret (None, s)
  | Some xcontext =>
    hunt <-! get_variable (chars "auto_hunt") s;;
    hunted <-! match hunt with
               | Some v =>
                 b <-! true_Z v;;
                 if (b : bool) then switch_xml_find_child h xcontext (chars "extension") (chars "name") (p_text caller destination_number)
                 else Ret None
               | None => Ret None
               end;;
    l <-! match hunted with Some x => next_tags (size h) h (Some x) | None => tags_of h xcontext (chars "extension") end;;
    extensions_loop l None s
  end.
End Dialplan.
