(* ===== verification/DialplanProps.v ===== *)
(** * DialplanProps: what an XML dialplan means

    A dialplan is a list of contexts, a context a list of extensions, an extension a
    list of conditions with a test, actions for both outcomes, a rule when to stop
    and conditions inside; its meaning is a list of applications.  Written as tags
    in a heap, it makes [dialplan_hunt] give just these. *)
From Stdlib Require Import ZArith Lia.
From stdpp Require Import base numbers option list strings gmap.
From S2P Require Import Prelude CoreHash ChannelNames StateMachine UrlCode TextUtil NetList EventText Regex XmlText XmlTree XmlParse XmlPrint DateTime Caller Expand Dialplan.

Local Open Scope Z_scope.

(** ** Tags and trees *)
Definition tree_name (t : tree) : list Z := match t with Tree n _ _ _ => n end.
Definition named (n : list Z) (l : list tree) : list tree := filter (fun t => tree_name t = n) l.

Lemma chain_tags h : forall l p fuel, chain x_next h p l -> (length l <= fuel)%nat -> next_tags fuel h p = Ret l.
Proof.
  induction l as [|x l IH]; intros p fuel Hc Hf.
  - simpl in Hc. subst p. by destruct fuel.
  - destruct Hc as [-> (v & (t & Ht & ->)%fmap_Some & Hc)]. destruct fuel as [|fuel]; [simpl in Hf; lia|].
    cbn [next_tags]. rewrite Ht. cbn [or_ub rbind]. rewrite (IH (x_next t)) by (done || (simpl in Hf; lia)). done.
Qed.

Lemma of_name_bound n K : (length (of_name n K) <= length K)%nat.
Proof. apply length_filter. Qed.

(** The subtags of a name are those of the tree. *)
Lemma rep_named h K ts n : Forall2 (fun k u => rep h (k_loc k) u) K ts ->
  (forall k, k ∈ K -> exists t, h !! k_loc k = Some t /\ x_name t = k_name k) ->
  Forall2 (rep h) (k_loc <$> of_name n K) (named n ts).
Proof.
  intros Hr Hn. induction Hr as [|k u K ts Hu Hr IH]; [constructor|].
  assert (Hk : tree_name u = k_name k).
  { destruct (Hn k) as (t & Ht & En); [left|]. inversion Hu as [p' t' K' ts' Ht' _ _]; subst. rewrite Ht in Ht'. by injection Ht' as <-. }
  unfold of_name, named in *. rewrite !filter_cons, Hk. destruct (decide (k_name k = n)).
  - constructor; [done|]. apply IH. intros k' Hk'. apply Hn. by right.
  - apply IH. intros k' Hk'. apply Hn. by right.
Qed.

Lemma rep_tags h p nm at_ tx subs n : rep h p (Tree nm at_ tx subs) -> exists L,
  tags_of h p n = Ret L /\ first_child h p n = Ret (head L) /\ Forall2 (rep h) L (named n subs).
Proof.
  intros Hr. inversion Hr as [p' t K ts Ht Hch Hsub]; subst. exists (k_loc <$> of_name n K).
  pose proof (children_size _ _ _ Hch) as Hb. pose proof (of_name_bound n K) as Hb'.
  assert (Hf : first_child h p n = Ret (head (k_loc <$> of_name n K))).
  { unfold first_child. by rewrite (child_children _ h p K n Hch) by lia. }
  split; [|split; [done|]].
  - unfold tags_of. rewrite Hf. cbn [rbind]. apply chain_tags; [apply Hch|]. rewrite length_fmap. lia.
  - apply (rep_named h K); [done|]. intros k Hk. pose proof (ch_tags _ _ _ Hch) as Htg. unfold tags in Htg.
    rewrite Forall_forall in Htg. destruct (Htg k Hk) as (tk & Htk & Hfx). exists tk. split; [done|]. by injection Hfx.
Qed.
Lemma rep_tag h p nm at_ tx subs : rep h p (Tree nm at_ tx subs) ->
  exists t, tag_at h p = Ret t /\ x_attr t = at_ /\ x_txt t = tx.
Proof. inversion 1 as [p' t K ts Ht Hch Hsub]; subst. exists t. unfold tag_at. by rewrite Ht. Qed.

(** The texts between tags do not matter: a tag with subtags may hold any text. *)
Inductive fills : tree -> tree -> Prop :=
| Fills n a tx tx' us ts : (ts = [] -> tx' = tx) -> Forall2 fills us ts -> fills (Tree n a tx' us) (Tree n a tx ts).
Definition shown (h : heap) (p : positive) (t : tree) : Prop := exists u, rep h p u /\ fills u t.

Lemma fills_name u t : fills u t -> tree_name u = tree_name t.
Proof. by intros []. Qed.
Lemma fills_named n us ts : Forall2 fills us ts -> Forall2 fills (named n us) (named n ts).
Proof.
  induction 1 as [|u t us ts Hu _ IH]; [constructor|]. unfold named in *. rewrite !filter_cons, (fills_name _ _ Hu).
  destruct (decide (tree_name t = n)); [by constructor|done].
Qed.
Lemma fills_shown h L us : Forall2 (rep h) L us -> forall ts, Forall2 fills us ts -> Forall2 (shown h) L ts.
Proof.
  induction 1 as [|p u L us Hp _ IH]; intros ts Ht; inversion Ht; subst; [constructor|]. constructor; [by exists u|by apply IH].
Qed.

(** The subtags of a name, from the first. *)
Lemma shown_tags h p nm at_ tx subs n : shown h p (Tree nm at_ tx subs) -> exists L,
  tags_of h p n = Ret L /\ first_child h p n = Ret (head L) /\ Forall2 (shown h) L (named n subs).
Proof.
  intros (u & Hr & Hf). inversion Hf as [? ? ? tx' us ? _ Hs]; subst. destruct (rep_tags _ _ _ _ _ _ n Hr) as (L & H1 & H2 & H3).
  exists L. split_and!; [done|done|]. apply (fills_shown h L _ H3). by apply fills_named.
Qed.
Lemma shown_tag h p nm at_ tx subs : shown h p (Tree nm at_ tx subs) ->
  exists t, tag_at h p = Ret t /\ x_attr t = at_ /\ (subs = [] -> x_txt t = tx).
Proof.
  intros (u & Hr & Hf). inversion Hf as [? ? ? tx' us ? Htx _]; subst. destruct (rep_tag _ _ _ _ _ _ Hr) as (t & H1 & H2 & H3).
  exists t. split_and!; [done|done|]. intros E. rewrite H3. by apply Htx.
Qed.

Lemma named_app n a b : named n (a ++ b) = named n a ++ named n b.
Proof. apply filter_app. Qed.
Lemma named_all {A} n (f : A -> tree) l : (forall x, tree_name (f x) = n) -> named n (map f l) = map f l.
Proof. intros Hf. induction l as [|x l IH]; [done|]. cbn [map]. unfold named. rewrite filter_cons, decide_True by done. by f_equal. Qed.
Lemma named_none {A} n (f : A -> tree) l : (forall x, tree_name (f x) <> n) -> named n (map f l) = [].
Proof. intros Hf. induction l as [|x l IH]; [done|]. cbn [map]. unfold named. by rewrite filter_cons, decide_False. Qed.

(** ** Attributes *)
Definition opt_attr (n : list Z) (o : option (list Z)) : list attribute := match o with Some v => [(n, Some v)] | None => [] end.
Lemma attr_app l1 l2 n : switch_xml_attr (l1 ++ l2) n = match switch_xml_attr l1 n with Some v => Some v | None => switch_xml_attr l2 n end.
Proof. induction l1 as [|[m v] l1 IH]; [done|]. cbn [app switch_xml_attr]. by destruct (bool_decide (m = n)). Qed.
Lemma attr_opt m o n : switch_xml_attr (opt_attr m o) n = if bool_decide (m = n) then option_map Some o else None.
Proof. destruct o as [v|]; cbn; by destruct (bool_decide (m = n)). Qed.

(** Comparing names that are written out. *)
Ltac decide_names := repeat match goal with
  | |- context [bool_decide (?a = ?b)] => let v := eval vm_compute in (bool_decide (a = b)) in
      lazymatch v with true => change (bool_decide (a = b)) with true | false => change (bool_decide (a = b)) with false end
  end; cbv iota.

(** ** The syntax of a dialplan *)

(** An application with a template for its argument, executed as often as the
    digits say, or once. *)
Record act := mk_act { act_app : list Z; act_data : list piece; act_loop : option (list Z) }.
(** A field of the caller against an expression, or a condition on the time,
    which may be empty. *)
Inductive test := Match (field expression : list Z) | When (c : condition).
Inductive cond := Cond (t : test) (b : break_t) (acts antis : list act) (require_nested : bool) (subs : list cond).

Definition act_tree (name : list Z) (a : act) : tree :=
  Tree name ((chars "application", Some (act_app a)) :: (chars "data", Some (template (act_data a))) ::
    opt_attr (chars "loop") (act_loop a)) [] [].
Definition when_attrs (c : condition) : list attribute :=
  opt_attr (chars "year") (items_text num_text (c_year c)) ++ opt_attr (chars "yday") (items_text num_text (c_yday c)) ++
  opt_attr (chars "mon") (items_text num_text (c_mon c)) ++ opt_attr (chars "mday") (items_text num_text (c_mday c)) ++
  opt_attr (chars "week") (items_text num_text (c_week c)) ++ opt_attr (chars "mweek") (items_text num_text (c_mweek c)) ++
  opt_attr (chars "wday") (items_text day_text (c_wday c)) ++ opt_attr (chars "hour") (items_text num_text (c_hour c)) ++
  opt_attr (chars "minute") (items_text num_text (c_minute c)) ++ opt_attr (chars "minute-of-day") (items_text num_text (c_minday c)) ++
  opt_attr (chars "time-of-day") (items_text span_text (c_tod c)).
Definition test_attrs (t : test) : list attribute :=
  match t with
  | Match f e => [(chars "field", Some f); (chars "expression", Some e)]
  | When c => when_attrs c
  end.
Definition break_text (b : break_t) : list Z :=
  match b with BREAK_ON_TRUE => chars "on-true" | BREAK_ON_FALSE => chars "on-false" | BREAK_ALWAYS => chars "always" | BREAK_NEVER => chars "never" end.
Definition bool_text (b : bool) : list Z := if b then chars "true" else chars "false".
Definition cond_attrs (t : test) (b : break_t) (req : bool) : list attribute :=
  test_attrs t ++ [(chars "break", Some (break_text b)); (chars "require-nested", Some (bool_text req))].
Fixpoint cond_tree (c : cond) : tree :=
  match c with
  | Cond t b acts antis req subs =>
    Tree (chars "condition") (cond_attrs t b req) []
      (map (act_tree (chars "action")) acts ++ map (act_tree (chars "anti-action")) antis ++ map cond_tree subs)
  end.

Record exten := mk_exten { ex_name : list Z; ex_continue : bool; ex_conds : list cond }.
Definition exten_tree (x : exten) : tree :=
  Tree (chars "extension") [(chars "name", Some (ex_name x)); (chars "continue", Some (bool_text (ex_continue x)))] []
    (map cond_tree (ex_conds x)).
Definition context_tree (c : list Z * list exten) : tree :=
  Tree (chars "context") [(chars "name", Some (fst c))] [] (map exten_tree (snd c)).
Definition dialplan_tree (d : list (list Z * list exten)) : tree := Tree (chars "dialplan") [] [] (map context_tree d).

(** *** The attributes of a condition *)
Lemma cond_attr_when c b req n : switch_xml_attr (cond_attrs (When c) b req) n =
  match switch_xml_attr (when_attrs c) n with Some v => Some v | None =>
    switch_xml_attr [(chars "break", Some (break_text b)); (chars "require-nested", Some (bool_text req))] n end.
Proof. apply attr_app. Qed.
Ltac when_attr := unfold when_attrs; rewrite !attr_app, !attr_opt; decide_names.

Lemma when_written t c b req : x_attr t = cond_attrs (When c) b req -> written t c.
Proof.
  intros E. constructor; unfold attr_of; rewrite E, cond_attr_when; when_attr; cbn [switch_xml_attr]; decide_names;
    try match goal with |- context [items_text ?f ?l] => destruct (items_text f l) end; done.
Qed.

Definition no_condition : condition := mk_condition [] [] [] [] [] [] [] [] [] [] [].
Lemma match_written t f e b req : x_attr t = cond_attrs (Match f e) b req -> written t no_condition.
Proof. intros E. constructor; unfold attr_of; rewrite E; cbn [cond_attrs test_attrs app switch_xml_attr]; decide_names; done. Qed.
Lemma no_condition_good : all_good no_condition.
Proof. repeat constructor. Qed.

(** ** What is relied on *)

(** A text that [switch_channel_expand_variables] returns as it is. *)
Definition plain (t : list Z) : Prop := switch_string_var_check_const t = false /\ switch_string_has_escaped_data t = false.

(** The same session for those who ask for other variables than [DP_MATCH]. *)
Definition same_elsewhere {St : Type} {D : dialplan_session St} (s s' : St) : Prop :=
  session_clock s' = session_clock s /\
  forall n, map ascii_lower n <> map ascii_lower (chars "DP_MATCH") -> get_variable n s' = get_variable n s.
#[export] Instance same_elsewhere_preorder {St : Type} {D : dialplan_session St} : PreOrder (same_elsewhere (St := St)).
Proof.
  split; [by intros s|]. intros a b c [Hc Hg] [Hc' Hg']. split; [congruence|]. intros n Hn. by rewrite Hg', Hg.
Qed.
(** In a usable session [DP_MATCH] can be removed and pushed to, which changes
    nothing else, and plain texts are not expanded. *)
Class session_laws (St : Type) (D : dialplan_session St) := {
  usable : St -> Prop;
  remove_match s : usable s -> exists s', set_variable (chars "DP_MATCH") None s = Ret s' /\ usable s' /\ same_elsewhere s s';
  push_match t s : usable s -> exists s', push_variable (chars "DP_MATCH") t s = Ret s' /\ usable s' /\ same_elsewhere s s';
  expand_plain t s : plain t -> expand_variables t s = Ret (None, s)
}.

Section Meaning.
Context {P : pcre} {L : pcre_laws P} {St : Type} {D : dialplan_session St} {DL : session_laws St D}.
Context (h : heap) (caller : caller_profile) (garbage : list Z) (tm : time_exp).

(** The session is in the time [tm], in the zone its variables ask for. *)
Definition timed (s : St) : Prop :=
  usable s /\ exists offset tzname, check_tz s = Ret (offset, tzname) /\
    chosen_time (C := session_clock s) offset tzname (@switch_micro_time_now (session_clock s)) = Ret tm.

Lemma timed_same s s' : usable s' -> same_elsewhere s s' -> timed s -> timed s'.
Proof.
  intros Hu [Hc Hg] (_ & o & z & Ht & Htm). split; [done|]. exists o, z. rewrite Hc. split; [|done].
  unfold check_tz in *. by rewrite !Hg.
Qed.

Lemma check_time_spec t c s : timed s -> written t c -> all_good c ->
  check_time garbage t s = Ret (verdict (sayings c tm)).
Proof.
  intros (_ & o & z & E & Ht) Hw Hg. unfold check_time. rewrite E. cbn [rbind].
  by apply (check_written (C := session_clock s)).
Qed.

(** The session since the search began in [s0]. *)
Section Search.
Context (s0 : St).
Definition since (s : St) : Prop := timed s /\ same_elsewhere s0 s.
Lemma since_same s s' : usable s' -> same_elsewhere s s' -> since s -> since s'.
Proof. intros Hu He [Ht H0]. split; [by apply (timed_same s)|by transitivity s]. Qed.
Lemma since_usable s : since s -> usable s.
Proof. by intros [[H _] _]. Qed.

(** *** Tests *)
Definition field_value (f : list Z) : list Z :=
  match switch_caller_get_field_by_name caller f with Ret d => default [] d | _ => [] end.
Definition match_count (f e : list Z) : Z :=
  match switch_regex_perform (field_value f) e None garbage with Ret (n, _, _) => n | _ => 0 end.
Definition match_vector (f e : list Z) : list Z :=
  match switch_regex_perform (field_value f) e None garbage with Ret (_, _, ov) => ov | _ => [] end.
Definition match_groups (f e : list Z) : list (list Z) := groups_of (field_value f) (match_vector f e) (match_count f e).

Definition good_test (t : test) : Prop :=
  match t with
  | Match f e => has_char 36 f = false /\ is_ret (switch_caller_get_field_by_name caller f) /\ hd 0 e <> 95 /\ plain e /\
                 zlen (field_value f) < 2 ^ 20
  | When c => all_good c
  end.
Definition passes (t : test) : bool :=
  match t with Match f e => negb (match_count f e =? 0) | When c => negb (verdict (sayings c tm) =? 0) end.
(** The argument of an action behind a test that passed: a test with parentheses
    gives it the groups, in a buffer for ten more bytes than the template and the
    field have, times the number of groups. *)
Definition argument (t : test) (data : list piece) : list Z :=
  match t with
  | Match f e =>
    if has_char 40 e then
      take (Z.to_nat ((zlen (template data) + zlen (field_value f) + 10) * match_count f e - 1))
        (concat (map (piece_value (match_groups f e)) data))
    else template data
  | When _ => template data
  end.

Lemma perform_spec f e : hd 0 e <> 95 -> exists re,
  switch_regex_perform (field_value f) e None garbage = Ret (match_count f e, re, match_vector f e) /\
  0 <= match_count f e <= 10 /\
  (0 < match_count f e -> zlen (match_groups f e) = match_count f e /\ matched (field_value f) (match_vector f e) (match_groups f e)).
Proof.
  intros He. unfold match_groups, match_count, match_vector.
  assert (Hp : exists n re ov, switch_regex_perform (field_value f) e None garbage = Ret (n, re, ov) /\ 0 <= n <= 10 /\
    (0 < n -> zlen (groups_of (field_value f) ov n) = n /\ matched (field_value f) ov (groups_of (field_value f) ov n))).
  { unfold switch_regex_perform.
    assert (Hast : match e with c :: pat => if c =? 95 then '(b, abuf) <-! switch_ast2regex pat 256;; Ret (if (b : bool) then abuf else e) else Ret e | [] => Ret e end = Ret e).
    { destruct e as [|c pat]; [done|]. cbn [hd] in He. by rewrite (proj2 (Z.eqb_neq c 95)). }
    rewrite Hast. cbn [rbind]. destruct (regex_flags e) as [[e' fl]|]; [|eexists _, _, _; split; [done|lia]].
    destruct (pcre_compile e' fl) as [r|]; [|eexists _, _, _; split; [done|lia]].
    pose proof (groups_matched L r (field_value f) garbage) as Hg. pose proof (pcre_exec_count r (field_value f) garbage) as Hc.
    destruct (pcre_exec r (field_value f) garbage) as [n ov]. cbn [fst] in Hc.
    destruct (Z.leb_spec n 0); (eexists _, _, _; split; [done|]); [lia|]. split; [lia|]. exact Hg. }
  destruct Hp as (n & re & ov & E & Hn & Hg). rewrite E. by exists re.
Qed.

(** What the tests of a condition leave for its actions. *)
Definition leaves (t : test) (m : match_state) : Prop :=
  match t with
  | Match f e => m_field m = Live f /\ m_data m = Live (field_value f) /\ m_expr m = Live e /\
                 m_ovector m = match_vector f e /\ m_proceed m = match_count f e
  | When c => m_field m = Null /\ m_proceed m = if passes (When c) then 1 else 0
  end.

Lemma no_children p nm at_ tx subs n : shown h p (Tree nm at_ tx subs) -> named n subs = [] -> first_child h p n = Ret None.
Proof. intros Hr Hn. destruct (shown_tags h p nm at_ tx subs n Hr) as (l & _ & -> & H2). rewrite Hn in H2. by inversion H2. Qed.

Lemma named_cond n acts antis subs : chars "action" <> n -> chars "anti-action" <> n -> chars "condition" <> n ->
  named n (map (act_tree (chars "action")) acts ++ map (act_tree (chars "anti-action")) antis ++ map cond_tree subs) = [].
Proof. intros H1 H2 H3. rewrite !named_app, !named_none; [done|by intros []|done|done]. Qed.

Lemma attr_of_cond t tst b req : x_attr t = cond_attrs tst b req ->
  attr_of t "regex" = None /\ attr_of t "require-nested" = Some (bool_text req) /\ break_of t = b /\
  attr_of t "field" = match tst with Match f _ => Some f | When _ => None end /\
  attr_soft t "expression" = match tst with Match _ e => e | When _ => [] end.
Proof.
  intros E. unfold break_of, attr_soft, attr_of. rewrite E. destruct tst as [f e|c].
  - cbn [cond_attrs test_attrs app switch_xml_attr]. decide_names. split_and!; try done. by destruct b.
  - rewrite !cond_attr_when. when_attr. cbn [switch_xml_attr]. decide_names. split_and!; try done. by destruct b.
Qed.

Lemma verdict_cases l : verdict l = -1 \/ verdict l = 1 \/ verdict l = 0.
Proof. unfold verdict. destruct (forallb _ l); [by left|]. destruct (forallb _ l); [by right; left|by right; right]. Qed.

Lemma run_tests_spec p tg t b acts antis req subs proceed s :
  shown h p (cond_tree (Cond t b acts antis req subs)) -> x_attr tg = cond_attrs t b req -> since s -> good_test t ->
  exists m, run_tests h caller garbage p tg proceed s = Ret (negb (passes t), m, s) /\ leaves t m.
Proof.
  intros Hr Ea Ht Hg. destruct (attr_of_cond _ _ _ _ Ea) as (Eregex & _ & _ & Efield & Eexpr). cbn [cond_tree] in Hr.
  assert (Hch : first_child h p (chars "expression") = Ret None).
  { apply (no_children _ _ _ _ _ _ Hr). by apply named_cond. }
  unfold run_tests. destruct t as [f e|c].
  - destruct Hg as (Hf & [d Hd] & He & Hplain & _). rewrite (check_time_spec tg no_condition) by
      (apply Ht || done || apply no_condition_good || by apply (match_written _ _ _ _ _ Ea)).
    change (verdict (sayings no_condition tm)) with (-1). cbn [rbind]. rewrite Eregex. unfold one_test, expression_text.
    rewrite Hch. cbn [rbind]. rewrite Eexpr. unfold expand_text at 1. rewrite expand_plain by done. cbn [rbind]. rewrite Efield.
    unfold field_text. rewrite Hf, Hd. cbn [rbind].
    destruct (perform_spec f e He) as (re & Ep & Hn & _). unfold field_value in Ep. rewrite Hd in Ep. rewrite Ep. cbn [rbind].
    exists (mk_match (Live f) (Live (default [] d)) (Live e) re (match_vector f e) (match_count f e)). split.
    + do 3 f_equal. unfold passes. by destruct (match_count f e =? 0).
    + unfold leaves, field_value. by rewrite Hd.
  - rewrite (check_time_spec tg c) by (apply Ht || done || by apply (when_written _ _ _ _ Ea)). cbn [rbind]. rewrite Eregex.
    unfold one_test, expression_text. rewrite Hch. cbn [rbind]. rewrite Eexpr. unfold expand_text. rewrite expand_plain by done.
    cbn [rbind]. rewrite Efield. unfold leaves, passes.
    destruct (verdict_cases (sayings c tm)) as [E|[E|E]]; rewrite E; eexists; split; first [reflexivity|done].
Qed.

(** *** Actions *)

(** An action that was performed: the application, its argument, how often. *)
Definition performed : Type := list Z * list Z * nat.
Definition kept (a : list Z * list Z) : bool := negb (has_escaped_quote (snd a)).
(** The applications of an extension. *)
Definition applications (l : list performed) : list (list Z * list Z) :=
  List.filter kept (concat (map (fun '(app, data, n) => repeat (app, data) n) l)).
(** No extension is made before the first action. *)
Definition holds (e : option extension) (l : list performed) : Prop :=
  match e with None => l = [] | Some x => l <> [] /\ e_applications x = applications l /\ e_current x = 0%nat end.

Definition times (a : act) : nat := match act_loop a with Some ds => Z.to_nat (number ds) | None => 1%nat end.
Definition good_act (t : test) (a : act) : Prop :=
  tidy (act_data a) = true /\ zlen (template (act_data a)) < 2 ^ 20 /\
  match act_loop a with Some ds => good 9 ds | None => True end.

Lemma applications_app l1 l2 : applications (l1 ++ l2) = applications l1 ++ applications l2.
Proof. unfold applications. by rewrite map_app, concat_app, List.filter_app. Qed.

Lemma repeat_action_spec app data n : forall e s, e_current e = 0%nat -> exists e',
  repeat_action n false app data e s = (e', s) /\ e_current e' = 0%nat /\
  e_applications e' = e_applications e ++ List.filter kept (repeat (app, data) n).
Proof.
  induction n as [|n IH]; intros e s He; cbn [repeat_action repeat].
  - exists e. by rewrite app_nil_r.
  - destruct (IH (switch_caller_extension_add_application e app data) s) as (e' & -> & Hc & Ha).
    { unfold switch_caller_extension_add_application. by destruct (has_escaped_quote data). }
    exists e'. split; [done|]. split; [done|]. rewrite Ha. cbn [List.filter]. unfold kept at 2. cbn [snd].
    unfold switch_caller_extension_add_application. destruct (has_escaped_quote data); [done|]. cbn. by rewrite <- app_assoc.
Qed.

Lemma atoi_number_good ds : good 9 ds -> NetList.atoi ds = number ds.
Proof.
  intros Hg. pose proof (number_i32 ds Hg) as Hi. destruct Hg as (Hn & Hd & Hz). unfold NetList.atoi, number in *.
  destruct ds as [|d ds]; [done|]. pose proof Hd as Hd'. cbn [forallb] in Hd'. apply andb_prop in Hd' as [Hc _]. unfold is_digit in Hc. boolify.
  cbn [skip_front]. unfold isspace. rewrite (proj2 (Z.eqb_neq d 32)), (proj2 (Z.leb_gt d 13)), andb_false_r by lia. cbn [orb].
  rewrite (proj2 (Z.eqb_neq d 45)), (proj2 (Z.eqb_neq d 43)) by lia.
  pose proof (digits_value_bound (d :: ds) 0 ltac:(lia) Hd) as Hb.
  assert (10 ^ zlen (d :: ds) <= 10 ^ 9) by (apply Z.pow_le_mono_r; [lia|done]). change (10 ^ 9) with 1000000000 in *.
  unfold clamp64. by rewrite Z.min_r, Z.max_r by lia.
Qed.

Lemma act_attrs tg a : x_attr tg = (chars "application", Some (act_app a)) :: (chars "data", Some (template (act_data a))) ::
    opt_attr (chars "loop") (act_loop a) ->
  attr_soft tg "application" = act_app a /\ attr_soft tg "data" = template (act_data a) /\ attr_soft tg "inline" = [] /\
  attr_of tg "loop" = act_loop a.
Proof.
  intros E. unfold attr_soft, attr_of. rewrite E. cbn [switch_xml_attr]. decide_names. rewrite !attr_opt. decide_names.
  split_and!; try done. by destruct (act_loop a).
Qed.

Lemma perform_action_spec exten_name p nm a data e l s : shown h p (act_tree nm a) ->
  match act_loop a with Some ds => good 9 ds | None => True end -> holds e l ->
  exists tg e', tag_at h p = Ret tg /\ action_data tg = template (act_data a) /\
    perform_action caller exten_name tg data e s = Ret (e', s) /\ holds (Some e') (l ++ [(act_app a, data, times a)]).
Proof.
  intros Hr Hloop He. destruct (shown_tag _ _ _ _ _ _ Hr) as (tg & Htg & Ea & Ex). exists tg.
  destruct (act_attrs tg a Ea) as (E1 & E2 & E3 & E4).
  assert (Hcur : e_current (ensure_extension caller exten_name e) = 0%nat) by (destruct e as [x|]; [apply He|done]).
  destruct (repeat_action_spec (act_app a) data (times a) _ s Hcur) as (e' & Hrep & Hc & Ha). exists e'.
  split; [done|]. split; [by unfold action_data; rewrite Ex, bool_decide_eq_true_2|]. split.
  - unfold perform_action. rewrite E3. change (true_Z []) with (Ret (A := bool) false). cbn [rbind]. rewrite E1.
    replace (loop_count tg) with (times a); [by rewrite Hrep|]. unfold loop_count, times. rewrite E4. destruct (act_loop a); [|done].
    by rewrite atoi_number_good.
  - split; [by destruct l|]. split; [|done]. rewrite Ha, applications_app. f_equal.
    + destruct e as [x|]; [apply He|]. by rewrite He.
    + unfold applications. cbn [map concat]. by rewrite app_nil_r.
Qed.

Lemma anti_actions_spec exten_name s antis : forall L' proceed e l, Forall2 (shown h) L' (map (act_tree (chars "anti-action")) antis) ->
  Forall (fun a => match act_loop a with Some ds => good 9 ds | None => True end) antis -> holds e l ->
  exists e', anti_actions h caller exten_name L' proceed e s = Ret (if bool_decide (antis = []) then proceed else 1, e', s) /\
    holds e' (l ++ map (fun a => (act_app a, template (act_data a), times a)) antis).
Proof.
  induction antis as [|a antis IH]; intros L' proceed e l Hr Hg He; cbn [map] in Hr.
  - inversion Hr; subst. exists e. cbn [map]. by rewrite app_nil_r.
  - inversion Hr as [|p ? L'' ? Hp Hr']; subst. apply Forall_cons in Hg as [Ha Hg]. cbn [anti_actions].
    destruct (perform_action_spec exten_name p _ a (template (act_data a)) e l s Hp Ha He) as (tg & e1 & -> & E1 & E2 & H1).
    cbn [rbind]. rewrite E1, E2. cbn [rbind]. destruct (IH L'' 1 (Some e1) _ Hr' Hg H1) as (e' & -> & H2).
    exists e'. split; [|by rewrite <- app_assoc in H2]. by destruct antis.
Qed.

(** The argument an action gets behind a test that passed. *)
Lemma substitute_spec t m data : good_test t -> leaves t m -> passes t = true -> tidy data = true -> zlen (template data) < 2 ^ 20 ->
  substitute m (template data) = Ret (argument t data).
Proof.
  intros Hg Hl Hp Hd Hz. unfold substitute, captures. destruct t as [f e|c].
  2: { destruct Hl as [-> _]. done. }
  destruct Hl as (-> & -> & -> & -> & ->). destruct Hg as (_ & _ & He & _ & Hf). cbn [is_null read rbind argument].
  destruct (has_char 40 e); [|done]. destruct (perform_spec f e He) as (re & _ & Hn & Hm).
  cbn [passes] in Hp. apply negb_true_iff, Z.eqb_neq in Hp. destruct (Hm ltac:(lia)) as [Hzg Hmm].
  change (2 ^ 20) with 1048576 in *. pose proof (zlen_nonneg (template data)). pose proof (zlen_nonneg (field_value f)).
  rewrite (u32_small (zlen (template data) + _ + 10)) by lia. rewrite u32_small by nia.
  rewrite <- Hzg at 1. rewrite substitution_tidy; [done|done|done|]. change (2 ^ 63) with 9223372036854775808. nia.
Qed.

Lemma actions_spec exten_name t m s acts : good_test t -> leaves t m -> passes t = true ->
  forall L' e l, Forall2 (shown h) L' (map (act_tree (chars "action")) acts) -> Forall (good_act t) acts -> holds e l ->
  exists e', actions h caller exten_name m L' e s = Ret (e', s) /\
    holds e' (l ++ map (fun a => (act_app a, argument t (act_data a), times a)) acts).
Proof.
  intros Hg Hl Hp. induction acts as [|a acts IH]; intros L' e l Hr Ha He; cbn [map] in Hr.
  - inversion Hr; subst. exists e. cbn [map]. by rewrite app_nil_r.
  - inversion Hr as [|p ? L'' ? Hrp Hr']; subst. apply Forall_cons in Ha as [(Htidy & Hz & Hloop) Ha]. cbn [actions].
    destruct (perform_action_spec exten_name p _ a (argument t (act_data a)) e l s Hrp Hloop He) as (tg & e1 & -> & E1 & E2 & H1).
    cbn [rbind]. rewrite E1, (substitute_spec t) by done. cbn [rbind]. rewrite E2. cbn [rbind].
    destruct (IH L'' (Some e1) _ Hr' Ha H1) as (e' & -> & H2). exists e'. split; [done|]. by rewrite <- app_assoc in H2.
Qed.

(** The variable with the groups of the match. *)
Lemma capture_loop_spec subject ov count : forall n i s, since s ->
  (forall j, (j < i + n)%nat -> exists g, pcre_get_substring subject ov count (Z.of_nat j) = Ret (Some g)) ->
  exists s', capture_loop (fun t => push_variable (chars "DP_MATCH") t) subject ov count i n s = Ret s' /\ since s'.
Proof.
  induction n as [|n IH]; intros i s Hs Hg; cbn [capture_loop]; [by exists s|].
  destruct (Hg i) as [g Eg]; [lia|]. rewrite Eg. cbn [rbind].
  destruct (push_match g s (since_usable s Hs)) as (s1 & -> & Hu & He). cbn [rbind]. apply IH; [by apply (since_same s)|]. intros j Hj. apply Hg. lia.
Qed.
Lemma captures_spec t m s : good_test t -> leaves t m -> since s ->
  exists s', (cap <-! captures m;; if (cap : bool) then set_captures (chars "DP_MATCH") m s else Ret s) = Ret s' /\ since s'.
Proof.
  intros Hg Hl Hs. unfold captures. destruct t as [f e|c]; [|destruct Hl as [-> _]; by exists s].
  destruct Hl as (-> & Ed & -> & Eo & Ep). destruct Hg as (_ & _ & He & _). cbn [is_null read rbind].
  destruct (has_char 40 e); [|by exists s]. unfold set_captures. rewrite Ep, Ed, Eo.
  destruct (remove_match s (since_usable s Hs)) as (s1 & -> & Hu & Hs1). cbn [rbind]. apply (since_same s s1) in Hs; [|done..].
  destruct (Z.leb_spec (match_count f e) 0); [by eexists|]. cbn [read rbind]. unfold switch_capture_regex.
  destruct (perform_spec f e He) as (re & _ & Hn & Hm). destruct (Hm ltac:(lia)) as [Hz Hmm].
  apply capture_loop_spec; [done|]. intros j Hj. destruct (lookup_lt_is_Some_2 (match_groups f e) j) as [g Eg].
  { unfold zlen in Hz. lia. }
  exists g. rewrite <- Hz. by apply Hmm.
Qed.

(** *** Conditions *)
Definition actions_of (t : test) (acts antis : list act) : list performed :=
  if passes t then map (fun a => (act_app a, argument t (act_data a), times a)) acts
  else map (fun a => (act_app a, template (act_data a), times a)) antis.
Definition good_loop (a : act) : Prop := match act_loop a with Some ds => good 9 ds | None => True end.

Lemma run_actions_spec exten_name p t b acts antis req subs m e l s :
  shown h p (cond_tree (Cond t b acts antis req subs)) -> good_test t -> Forall (good_act t) acts -> Forall good_loop antis ->
  leaves t m -> since s -> holds e l ->
  exists pr e' s', run_actions h caller exten_name p (negb (passes t)) m e s = Ret (pr, e', s') /\
    (pr =? 0) = negb (passes t || negb (bool_decide (antis = []))) /\ since s' /\ holds e' (l ++ actions_of t acts antis).
Proof.
  intros Hr Hg Ha Hl Hm Hs He. unfold run_actions, actions_of. cbn [cond_tree] in Hr.
  assert (Hpr : (m_proceed m =? 0) = negb (passes t)).
  { destruct t as [f ex|c]; [destruct Hm as (_ & _ & _ & _ & ->); cbn [passes]; by rewrite negb_involutive|].
    destruct Hm as [_ ->]. by destruct (passes (When c)). }
  destruct (passes t) eqn:Ep; cbn [negb orb] in *.
  - destruct (captures_spec t m s Hg Hm Hs) as (s1 & Hcap & Hs1).
    destruct (captures m) as [cap| |] eqn:Ecap; cbn [rbind] in Hcap |- *; try done. rewrite Hcap. cbn [rbind].
    destruct (shown_tags h p _ _ _ _ (chars "action") Hr) as (L' & -> & _ & Hrep). cbn [rbind].
    rewrite !named_app, named_all, !named_none, !app_nil_r in Hrep by (done || by intros []).
    destruct (actions_spec exten_name t m s1 acts Hg Hm Ep L' e l Hrep Ha He) as (e' & -> & He'). cbn [rbind].
    exists (m_proceed m), e', s1. split_and!; done.
  - destruct (shown_tags h p _ _ _ _ (chars "anti-action") Hr) as (L' & -> & _ & Hrep). cbn [rbind].
    rewrite !named_app, (named_none _ (act_tree (chars "action"))), named_all, named_none, app_nil_r in Hrep by (done || by intros []).
    cbn [app] in Hrep. destruct (anti_actions_spec exten_name s antis L' (m_proceed m) e l Hrep Hl He) as (e' & -> & He').
    exists (if bool_decide (antis = []) then m_proceed m else 1), e', s. split_and!; try done. by case_bool_decide.
Qed.

(** The meaning of conditions, one after the other: the actions performed and
    whether the call goes on with what fits. *)
Section EvalList.
Context (eval : cond -> list performed * bool * bool).
Fixpoint eval_list (cs : list cond) (proceed : bool) : list performed * bool :=
  match cs with
  | [] => ([], proceed)
  | c :: cs =>
    let '(here, proceed, leave) := eval c in
    if leave : bool then (here, proceed) else let '(rest, proceed) := eval_list cs proceed in (here ++ rest, proceed)
  end.
End EvalList.
(** Whether a rule stops behind a test. *)
Definition stops (b : break_t) (pass : bool) : bool :=
  match b, pass with
  | BREAK_ALWAYS, _ | BREAK_ON_TRUE, true | BREAK_ON_FALSE, false => true
  | _, _ => false
  end.
(** And of one condition; the last component says whether those behind it are left
    out. *)
Fixpoint eval (c : cond) : list performed * bool * bool :=
  match c with
  | Cond t b acts antis req subs =>
    let here := actions_of t acts antis in
    let proceed := passes t || negb (bool_decide (antis = [])) in
    if stops b (passes t) then (here, proceed, true)
    else if proceed && negb (bool_decide (subs = [])) then
      let '(inner, ok) := eval_list eval subs false in
      let ok := negb req || ok in
      (here ++ inner, ok, negb ok && negb (match b with BREAK_NEVER => true | _ => false end))
    else (here, proceed, false)
  end.

Lemma breaks_stops b pass : breaks b (negb pass) = stops b pass.
Proof. by destruct b, pass. Qed.

Fixpoint depth (c : cond) : Z :=
  match c with Cond _ _ _ _ _ subs => match subs with [] => 0 | _ => 1 + fold_right Z.max 0 (map depth subs) end end.
Inductive good_cond : cond -> Prop :=
| GoodCond t b acts antis req subs : good_test t -> Forall (good_act t) acts -> Forall good_loop antis -> Forall good_cond subs ->
    good_cond (Cond t b acts antis req subs).
Definition subs_of (c : cond) : list cond := match c with Cond _ _ _ _ _ subs => subs end.
Definition nested_of (c : cond) : bool := match c with Cond _ _ _ _ req _ => req end.

(** What a search leaves. *)
Definition found (r : res (Z * option extension * St)) (l : list performed) (res : list performed * bool) : Prop :=
  exists pr e s, r = Ret (pr, e, s) /\ (pr =? 0) = negb (snd res) /\ since s /\ holds e (l ++ fst res).

Lemma conditions_spec nested exten_name cs : Forall good_cond cs ->
  (forall c p e s l, c ∈ cs -> subs_of c <> [] -> shown h p (cond_tree c) -> since s -> holds e l ->
     found (nested p e s) l (let '(inner, ok) := eval_list eval (subs_of c) false in (inner, negb (nested_of c) || ok))) ->
  forall L' proceed ok e s l, Forall2 (shown h) L' (map cond_tree cs) -> (proceed =? 0) = negb ok -> since s -> holds e l ->
  found (conditions h caller garbage nested exten_name L' proceed e s) l (eval_list eval cs ok).
Proof.
  intros Hg Hn. induction Hg as [|c cs Hc Hg IH]; intros L' proceed ok e s l Hr Hpr Hs He; cbn [map] in Hr.
  - inversion Hr; subst. exists proceed, e, s. cbn [eval_list fst snd]. by rewrite app_nil_r.
  - inversion Hr as [|p ? L'' ? Hp Hr']; subst. cbn [conditions eval_list]. destruct Hc as [t b acts antis req subs Ht Ha Hl Hsub].
    destruct (shown_tag _ _ _ _ _ _ Hp) as (tg & -> & Ea & _). cbn [rbind].
    destruct (run_tests_spec p tg t b acts antis req subs proceed s Hp Ea Hs Ht) as (m & -> & Hm). cbn [rbind].
    destruct (run_actions_spec exten_name p t b acts antis req subs m e l s Hp Ht Ha Hl Hm Hs He) as (pr & e1 & s1 & -> & Hpr1 & Hs1 & He1).
    cbn [rbind]. destruct (attr_of_cond _ _ _ _ Ea) as (_ & _ & -> & _). cbn [eval].
    set (pc := passes t || negb (bool_decide (antis = []))) in *.
    rewrite breaks_stops. destruct (stops b (passes t)) eqn:Eb; [by exists pr, e1, s1|].
    assert (Hnext : forall pr2 ok2 e2 s2 here, (pr2 =? 0) = negb ok2 -> since s2 -> holds e2 (l ++ here) ->
      found (conditions h caller garbage nested exten_name L'' pr2 e2 s2) l
        (let '(rest, proceed) := eval_list eval cs ok2 in (here ++ rest, proceed))).
    { intros pr2 ok2 e2 s2 here H1 H2 H3. destruct (IH ltac:(intros; apply Hn; [by right|..]; done) L'' pr2 ok2 e2 s2 _ Hr' H1 H2 H3) as (pr3 & e3 & s3 & -> & H4 & H5 & H6).
      destruct (eval_list eval cs ok2) as [rest ok3]. cbn [fst snd] in *. exists pr3, e3, s3. cbn [fst snd]. by rewrite app_assoc. }
    cbn [cond_tree] in Hp. destruct (shown_tags h p _ _ _ _ (chars "condition") Hp) as (Lc & _ & -> & Hrc). cbn [rbind].
    rewrite !named_app, !(named_none _ (act_tree _)), named_all in Hrc by (done || by intros []). cbn [app] in Hrc.
    destruct subs as [|u us].
    + inversion Hrc; subst. cbn [head]. rewrite bool_decide_eq_true_2, andb_false_r by done. by apply Hnext.
    + inversion Hrc as [|q ? Lq ? _ _]; subst. cbn [head]. rewrite (bool_decide_eq_false_2 (u :: us = [])), Hpr1 by done. cbn [negb]. rewrite andb_true_r.
      destruct pc; cbn [negb]; [|by apply Hnext].
      destruct (Hn (Cond t b acts antis req (u :: us)) p e1 s1 _ ltac:(left) ltac:(done) Hp Hs1 He1) as (pr2 & e2 & s2 & -> & Hpr2 & Hs2 & He2).
      cbn [rbind subs_of nested_of] in *. destruct (eval_list eval (u :: us) false) as [inner ok1]. cbn [fst snd] in *.
      rewrite Hpr2. rewrite <- app_assoc in He2. destruct (_ && _) eqn:El; [by exists pr2, e2, s2|]. by apply Hnext.
Qed.

Lemma depth_sub c u : u ∈ subs_of c -> depth u + 1 <= depth c.
Proof.
  destruct c as [t b acts antis req subs]. cbn [subs_of depth]. intros Hu. destruct subs as [|v vs]; [by apply not_elem_of_nil in Hu|].
  assert (depth u <= fold_right Z.max 0 (map depth (v :: vs))); [|lia]. clear -Hu. induction (v :: vs) as [|w ws IH]; [by apply not_elem_of_nil in Hu|].
  cbn [map fold_right]. apply elem_of_cons in Hu as [->|Hu]; [lia|]. specialize (IH Hu). lia.
Qed.
Lemma depth_pos c : 0 <= depth c.
Proof. destruct c as [t b acts antis req [|u us]]; cbn [depth]; [done|]. assert (0 <= fold_right Z.max 0 (map depth (u :: us))); [|lia].
  generalize (map depth (u :: us)). intros l. induction l; simpl; lia. Qed.

(** A tag with conditions, at level [recur]. *)
Lemma parse_exten_spec fuel : forall recur name p nm at_ tx subs cs e s l,
  shown h p (Tree nm at_ tx subs) -> named (chars "condition") subs = map cond_tree cs -> Forall good_cond cs ->
  (forall tg, x_attr tg = at_ -> recur <> 0 -> exists b, attr_of tg "require-nested" = Some (bool_text b)) ->
  recur + Z.of_nat fuel = 102 -> 0 <= recur <= 99 -> Forall (fun c => recur + depth c <= 99) cs -> since s -> holds e l ->
  found (parse_exten h caller garbage fuel recur name p e s) l
    (let '(inner, ok) := eval_list eval cs false in
     (inner, (negb (recur =? 0) && bool_decide (attr_of (mk_tag [] at_ [] 0 None None None None None) "require-nested" = Some (bool_text false))) || ok)).
Proof.
  induction fuel as [|fuel IH]; intros recur name p nm at_ tx subs cs e s l Hr Hnamed Hg Hreq Hf Hrec Hdepth Hs He; [lia|].
  cbn [parse_exten]. destruct (shown_tag _ _ _ _ _ _ Hr) as (tg & -> & Ea & _). cbn [rbind].
  unfold MAX_RECUR, indent_fits, MAX_RECUR_SPACE. rewrite Z.gtb_ltb, (proj2 (Z.ltb_ge 100 recur)) by lia.
  rewrite (proj2 (Z.leb_le (1 + 4 * recur) 400)) by lia. cbn [negb]. rewrite andb_false_r.
  assert (Hat : forall an, attr_of tg an = attr_of (mk_tag [] at_ [] 0 None None None None None) an) by (intros an; unfold attr_of; by rewrite Ea).
  assert (Hn : exists b, (if recur =? 0 then Ret true else match attr_of tg "require-nested" with Some r => true_Z r | None => Ret true end) = Ret b /\
    negb b = negb (recur =? 0) && bool_decide (attr_of (mk_tag [] at_ [] 0 None None None None None) "require-nested" = Some (bool_text false))).
  { destruct (Z.eqb_spec recur 0) as [->|Hne]; [by exists true|]. destruct (Hreq tg Ea Hne) as [b Eb]. rewrite <- Hat, Eb. exists b.
    split; [by destruct b|]. by destruct b. }
  destruct Hn as (b & -> & Hb). cbn [rbind].
  destruct (shown_tags h p _ _ _ _ (chars "condition") Hr) as (L' & -> & _ & Hrep). cbn [rbind]. rewrite Hnamed in Hrep.
  set (nm' := if recur =? 0 then _ else _).
  destruct (conditions_spec (fun p => parse_exten h caller garbage fuel (recur + 1) name p) nm' cs Hg) with (L' := L') (proceed := 0) (ok := false) (e := e) (s := s) (l := l)
    as (pr & e' & s' & -> & Hpr & Hs' & He'); try done.
  - intros c q e1 s1 l1 Hc Hsub Hq Hs1 He1. rewrite Forall_forall in Hdepth. specialize (Hdepth c Hc).
    rewrite Forall_forall in Hg. specialize (Hg c Hc). destruct Hg as [t b' acts antis req us Ht Ha Hl Hus]. cbn [subs_of nested_of] in *.
    pose proof (depth_sub (Cond t b' acts antis req us)) as Hd. cbn [subs_of] in Hd.
    destruct us as [|u us]; [done|]. pose proof (Hd u ltac:(left)). pose proof (depth_pos u).
    destruct (IH (recur + 1) name q _ _ _ _ (u :: us) e1 s1 l1 Hq) as (pr & e' & s' & E & H1 & H2 & H3); try done; try lia.
    + cbn [cond_tree]. rewrite !named_app, !(named_none _ (act_tree _)), named_all by (done || by intros []). done.
    + intros tg' Ea' _. destruct (attr_of_cond _ _ _ _ Ea') as (_ & E & _). by exists req.
    + apply Forall_forall. intros v Hv. specialize (Hd v Hv). lia.
    + exists pr, e', s'. destruct (eval_list eval (u :: us) false) as [inner ok]. cbn [fst snd] in *. split_and!; try done. rewrite H1. f_equal. f_equal.
      rewrite (proj2 (Z.eqb_neq (recur + 1) 0)) by lia. cbn [negb andb].
      destruct (attr_of_cond (mk_tag [] (cond_attrs t b' req) [] 0 None None None None None) t b' req eq_refl) as (_ & E' & _). rewrite E'. by destruct req.
  - cbn [rbind]. destruct (eval_list eval cs false) as [inner ok]. cbn [fst snd] in *. rewrite <- Hb.
    exists (if b then pr else 1), e', s'. split_and!; try done. by destruct b.
Qed.

(** *** Extensions and contexts *)

(** The extensions are tried in their order, until one fits that does not ask to
    go on. *)
Fixpoint eval_extens (xs : list exten) : list performed :=
  match xs with
  | [] => []
  | x :: xs =>
    let '(here, ok) := eval_list eval (ex_conds x) false in
    if ok && negb (ex_continue x) then here else here ++ eval_extens xs
  end.
Definition good_exten (x : exten) : Prop := Forall good_cond (ex_conds x) /\ Forall (fun c => depth c <= 99) (ex_conds x).

Lemma extensions_spec xs : Forall good_exten xs -> forall L' e s l, Forall2 (shown h) L' (map exten_tree xs) -> since s -> holds e l ->
  exists e' s', extensions_loop h caller garbage L' e s = Ret (e', s') /\ since s' /\ holds e' (l ++ eval_extens xs).
Proof.
  induction 1 as [|x xs [Hg Hd] _ IH]; intros L' e s l Hr Hs He; cbn [map] in Hr.
  - inversion Hr; subst. exists e, s. cbn [extensions_loop eval_extens]. by rewrite app_nil_r.
  - inversion Hr as [|p ? L'' ? Hp Hr']; subst. cbn [extensions_loop eval_extens].
    destruct (shown_tag _ _ _ _ _ _ Hp) as (tg & -> & Ea & _). cbn [rbind].
    destruct (parse_exten_spec 102 0 (default (chars "UNKNOWN") (attr_of tg "name")) p _ _ _ _ (ex_conds x) e s l Hp) as (pr & e1 & s1 & -> & Hpr & Hs1 & He1); try done.
    { by rewrite named_all by (by intros []). }
    cbn [rbind]. assert (Ec : attr_of tg "continue" = Some (bool_text (ex_continue x))).
    { unfold attr_of. rewrite Ea. cbn [switch_xml_attr]. by decide_names. }
    rewrite Ec. assert (Et : true_Z (bool_text (ex_continue x)) = Ret (ex_continue x)) by (by destruct (ex_continue x)). rewrite Et. cbn [rbind].
    rewrite Hpr. destruct (eval_list eval (ex_conds x) false) as [inner ok]. cbn [fst snd] in *.
    change (negb (0 =? 0) && _) with false. cbn [orb]. rewrite negb_involutive. destruct (ok && negb (ex_continue x)); [by exists e1, s1|].
    destruct (IH L'' e1 s1 _ Hr' Hs1 He1) as (e' & s' & -> & Hs' & He'). exists e', s'. split; [done|]. split; [done|]. by rewrite <- app_assoc in He'.
Qed.

(** The first context of a name. *)
Fixpoint context_named (d : list (list Z * list exten)) (n : list Z) : option (list exten) :=
  match d with [] => None | (m, xs) :: d => if strcasecmp m n then Some xs else context_named d n end.
Definition context_of (d : list (list Z * list exten)) : option (list exten) :=
  match context_named d (default (chars "default") (p_text caller context)) with
  | Some xs => Some xs
  | None => context_named d (chars "global")
  end.

Lemma find_tag_spec n d : forall L', Forall2 (shown h) L' (map context_tree d) -> exists o, find_tag h L' (chars "name") n = Ret o /\
  match o, context_named d n with
  | Some q, Some xs => exists m, shown h q (context_tree (m, xs))
  | None, None => True
  | _, _ => False
  end.
Proof.
  induction d as [|[m xs] d IH]; intros L' Hr; cbn [map] in Hr.
  - inversion Hr; subst. by exists None.
  - inversion Hr as [|p ? L'' ? Hp Hr']; subst. cbn [find_tag context_named].
    destruct (shown_tag _ _ _ _ _ _ Hp) as (tg & -> & Ea & _). cbn [rbind]. rewrite Ea. cbn [fst switch_xml_attr]. decide_names.
    cbn [option_map]. change (default [] (Some m)) with m.
    destruct (strcasecmp m n); [|by apply IH]. exists (Some p). split; [done|]. by exists m.
Qed.

Lemma find_child_spec cfg d n : shown h cfg (dialplan_tree d) -> exists o,
  switch_xml_find_child h cfg (chars "context") (chars "name") (Some n) = Ret o /\
  match o, context_named d n with
  | Some q, Some xs => exists m, shown h q (context_tree (m, xs))
  | None, None => True
  | _, _ => False
  end.
Proof.
  intros Hr. unfold switch_xml_find_child. destruct (shown_tags h cfg _ _ _ _ (chars "context") Hr) as (L' & -> & _ & Hrep). cbn [rbind].
  rewrite named_all in Hrep by (by intros []). by apply find_tag_spec.
Qed.

Lemma context_good d n xs : Forall (fun c => Forall good_exten (snd c)) d -> context_named d n = Some xs -> Forall good_exten xs.
Proof.
  induction 1 as [|[m ys] d Hy _ IH]; [done|]. cbn [context_named]. by destruct (strcasecmp m n); [intros [= <-]|].
Qed.
End Search.

Lemma dialplan_hunt_spec cfg d s : shown h cfg (dialplan_tree d) -> timed s -> get_variable (chars "auto_hunt") s = Ret None ->
  Forall (fun c => Forall good_exten (snd c)) d ->
  exists e s', dialplan_hunt h caller garbage cfg s = Ret (e, s') /\ same_elsewhere s s' /\
    match context_of d with None => e = None | Some xs => holds e (eval_extens xs) end.
Proof.
  intros Hr Hs Hh Hg. unfold dialplan_hunt, find_context, context_of.
  pose proof (context_good d) as Hsome.
  assert (Hgo : forall n xs q m, context_named d n = Some xs -> shown h q (context_tree (m, xs)) -> exists e s',
    (l <-! tags_of h q (chars "extension");; extensions_loop h caller garbage l None s) = Ret (e, s') /\ same_elsewhere s s' /\ holds e (eval_extens xs)).
  { intros n xs q m Hn Hq. destruct (shown_tags h q _ _ _ _ (chars "extension") Hq) as (L' & -> & _ & Hrep). cbn [rbind snd] in *.
    rewrite named_all in Hrep by (by intros []). destruct (extensions_spec s xs (Hsome n xs Hg Hn) L' None s [] Hrep (conj Hs (reflexivity s)) eq_refl) as (e & s' & E & [_ He] & H).
    by exists e, s'. }
  destruct (find_child_spec cfg d (default (chars "default") (p_text caller context)) Hr) as (o & -> & Ho). cbn [rbind].
  destruct o as [q|]; destruct (context_named d (default _ _)) as [xs|] eqn:En; try done.
  - destruct Ho as [m Hq]. cbn [rbind]. rewrite Hh. cbn [rbind]. by apply (Hgo _ xs q m En).
  - destruct (find_child_spec cfg d (chars "global") Hr) as (o & -> & Ho'). cbn [rbind].
    destruct o as [q|]; destruct (context_named d (chars "global")) as [xs|] eqn:En'; try done.
    + destruct Ho' as [m Hq]. rewrite Hh. cbn [rbind]. by apply (Hgo _ xs q m En').
    + by exists None, s.
Qed.
End Meaning.
