(* ===== verification/DialplanText.v ===== *)
(** * DialplanText: from the text of a dialplan to applications

    The claims about [dialplan_hunt], with a session and a matcher to try them on,
    and what conditions do that they do not say. *)
From Stdlib Require Import ZArith Lia.
From stdpp Require Import base numbers option list strings gmap.
From S2P Require Import Prelude CoreHash ChannelNames StateMachine Utf8 UrlCode TextUtil NetList EventText Regex XmlText XmlTree XmlParse XmlPrint XmlRound DateTime Caller Dialplan DialplanProps.

Local Open Scope Z_scope.

(** ** Dialplans that are written and read *)

(** Reading a document again only fills tags that have subtags. *)
Lemma reread_fills t : forall count, fills (reread t count) t.
Proof.
  induction t as [name attrs txt subs IH] using tree_induction. intros count. cbn [reread]. constructor.
  - by intros ->.
  - clear - IH. induction IH as [|u us Hu _ IH']; cbn [map]; constructor; [apply Hu|apply IH'].
Qed.
Lemma reread_shown h p t count : rep h p (reread t count) -> shown h p t.
Proof. intros Hr. exists (reread t count). split; [done|apply reread_fills]. Qed.

(** C1: What the XML dialplan does.  The tags show a dialplan: contexts with
    extensions with conditions, each of which tests a field of the caller against
    an expression or the date and time, has actions for both outcomes, a rule when
    to stop, and conditions inside, to 99 levels.  Then the search ends, without
    reading a text that is gone or leaving a buffer, and the extension it returns
    holds just the applications the dialplan means: those of the context of the
    caller or else of [global], extension by extension until one fits that does not
    continue, condition by condition until a rule stops, with the groups of the
    match put into the arguments, each as often as its loop says, but for those
    with an escaped quote; no extension is returned when there is no such context
    or no action.  The search leaves every variable other than [DP_MATCH]. *)
Theorem dialplan_gives_applications {P : pcre} {L : pcre_laws P} {St : Type} {D : dialplan_session St} {DL : session_laws St D}
    (h : heap) (caller : caller_profile) (garbage : list Z) (tm : time_exp) (cfg : positive) (d : list (list Z * list exten)) (s : St) :
  shown h cfg (dialplan_tree d) -> timed tm s -> get_variable (chars "auto_hunt") s = Ret None ->
  Forall (fun c => Forall (good_exten caller) (snd c)) d ->
  exists e s', dialplan_hunt h caller garbage cfg s = Ret (e, s') /\ same_elsewhere s s' /\
    match context_of caller d with
    | None => e = None
    | Some xs => holds e (eval_extens caller garbage tm xs)
    end.
Proof. apply dialplan_hunt_spec. Qed.

(** From the text to the applications: a dialplan whose names, attributes and
    texts XML can hold, printed as a document, is parsed into tags in which
    [dialplan_hunt] finds just the applications the dialplan means. *)
Theorem printed_dialplan_works {P : pcre} {L : pcre_laws P} {St : Type} {D : dialplan_session St} {DL : session_laws St D}
    (caller : caller_profile) (garbage : list Z) (tm : time_exp) (header : bool) (d : list (list Z * list exten)) (s : St) :
  valid (dialplan_tree d) -> timed tm s -> get_variable (chars "auto_hunt") s = Ret None ->
  Forall (fun c => Forall (good_exten caller) (snd c)) d ->
  exists st e s', switch_xml_parse_str ((if header then HEADER else []) ++ print_tree (dialplan_tree d) 0) = Ret (Parsed st) /\
    dialplan_hunt (ps_heap st) caller garbage ROOT s = Ret (e, s') /\ same_elsewhere s s' /\
    match context_of caller d with
    | None => e = None
    | Some xs => holds e (eval_extens caller garbage tm xs)
    end.
Proof.
  intros Hv Ht Ha Hg. destruct (parse_printed (dialplan_tree d) header Hv) as (st & Es & Hr).
  destruct (dialplan_hunt_spec (ps_heap st) caller garbage tm ROOT d s (reread_shown _ _ _ _ Hr) Ht Ha Hg) as (e & s' & He & H).
  by exists st, e, s'.
Qed.

(** ** A session and a matcher *)

(** Expressions of a text at the beginning, with what follows as a group, and of a
    whole text. *)
Definition strip_anchor (e : list Z) : list Z := match e with c :: r => if c =? 94 then r else e | [] => [] end.
Definition prefix_of (e : list Z) : option (list Z) :=
  let b := strip_anchor e in
  if bool_decide (drop (length b - 5) b = chars "(.*)$") then Some (take (length b - 5) b) else None.
Definition demo_exec (e subject ov : list Z) : Z * list Z :=
  match prefix_of e with
  | Some p =>
    if bool_decide (take (length p) subject = p) then (2, [0; zlen subject; zlen p; zlen subject] ++ drop 4 ov) else (-1, ov)
  | None => if bool_decide (subject ++ [DOLLAR] = strip_anchor e) then (1, [0; zlen subject] ++ drop 2 ov) else (-1, ov)
  end.
Definition demo_pcre : pcre := {| regex := list Z; pcre_compile := fun e _ => Some e; pcre_exec := demo_exec;
  pcre_get_substring := vector_substring |}.

Lemma substring_tail subject ov count n a : ov !! Z.to_nat (2 * n) = Some a -> ov !! Z.to_nat (2 * n + 1) = Some (zlen subject) ->
  0 <= n < count -> 0 <= a <= zlen subject -> exists g, vector_substring subject ov count n = Ret (Some g).
Proof.
  intros Ha Hb Hn Hle. unfold vector_substring. rewrite (proj2 (Z.ltb_ge n 0)), (proj2 (Z.leb_gt count n)), Ha, Hb by lia.
  cbn [orb or_ub rbind]. rewrite mem_read_Some by lia. by eexists.
Qed.
#[local] Instance demo_pcre_laws : pcre_laws demo_pcre.
Proof.
  split; intros re subject ov.
  - cbn. unfold demo_exec. repeat case_match; simpl; lia.
  - intros n Hn. pose proof (zlen_nonneg subject). cbn in *. unfold demo_exec in *. destruct (prefix_of re) as [p|].
    + case_bool_decide as Hp; cbn [fst snd] in *; [|lia].
      assert (zlen p <= zlen subject) by (rewrite <- Hp; unfold zlen; rewrite length_take; lia). pose proof (zlen_nonneg p).
      assert (n = 0 \/ n = 1) as [->| ->] by lia; [apply (substring_tail _ _ _ _ 0)|apply (substring_tail _ _ _ _ (zlen p))]; (done || lia).
    + case_bool_decide; cbn [fst snd] in *; [|lia]. assert (n = 0) as -> by lia. by apply (substring_tail _ _ _ _ 0).
  - apply vector_no_substring.
Qed.

(** Variables by name, each with its values joined, and a clock that stands still at
    9:30 on a Friday. *)
Definition demo_now : time_exp := mk_time 0 0 30 9 15 0 126 5 14 0 0.
Definition still : clock := {| switch_micro_time_now := 1; switch_time_exp_lt := fun _ => demo_now;
  switch_time_exp_tz := fun _ _ => demo_now; switch_time_exp_tz_name := fun _ _ => None;
  switch_time_exp_get := fun _ => 0; switch_time_exp_gmt_get := fun _ => 0 |}.
Definition variables : Type := list Z -> option (list Z).
Definition no_variables : variables := fun _ => None.
Definition same_letters (a b : list Z) : bool := bool_decide (map ascii_lower a = map ascii_lower b).
Definition demo_session : dialplan_session variables := {|
  get_variable := fun n s => Ret (s n);
  set_variable := fun n v s => Ret (fun m => if same_letters m n then v else s m);
  push_variable := fun n v s => Ret (fun m => if same_letters m n then Some (default [] (s n) ++ v) else s m);
  del_variable_prefix := fun n s => Ret (fun m => if same_letters (take (length n) m) n then None else s m);
  expand_variables := fun _ s => Ret (None, s);
  get_application_interface := fun _ _ => None;
  hangup_out_of_order := fun s => s;
  session_clock := fun _ => still
|}.
#[local] Instance demo_session_laws : session_laws variables demo_session.
Proof.
  refine {| usable := fun _ => True |}; [| |done].
  - intros s _. eexists. split; [reflexivity|]. split; [done|]. split; [done|]. intros n Hn. cbn -[map]. unfold same_letters. by rewrite bool_decide_false.
  - intros t s _. eexists. split; [reflexivity|]. split; [done|]. split; [done|]. intros n Hn. cbn -[map]. unfold same_letters. by rewrite bool_decide_false.
Defined.
Lemma demo_timed : timed (DL := demo_session_laws) demo_now no_variables.
Proof. split; [done|]. by exists None, None. Qed.

(** A caller of a number in a context. *)
Definition demo_caller (number : list Z) : caller_profile :=
  switch_caller_profile_new (chars "id") false false
    (mk_args None None None None None None None None None (Some (chars "office")) (Some number)).

(** On working days, calls of 9 and a number go out and are recorded, twice, when the
    number begins with 1; other calls of the office get a message. *)
Definition one (n : String.string) : act := mk_act (chars n) [] None.
Arguments one n%_string_scope.
Definition lits (s : String.string) : list piece := map Lit (chars s).
Arguments lits s%_string_scope.
Definition workdays : condition := mk_condition [] [] [] [] [] [] [Days (chars "mon") 2 (chars "fri") 6] [] [] [] [].
Definition demo_plan : list (list Z * list exten) := [
  (chars "office", [
    mk_exten (chars "log") true [Cond (When workdays) BREAK_ON_FALSE [one "info"] [one "closed"] true []];
    mk_exten (chars "out") false [
      Cond (Match (chars "destination_number") (chars "^9(.*)$")) BREAK_ON_FALSE
        [mk_act (chars "bridge") (lits "trunk/" ++ [Ref [49] false]) None] [] false
        [Cond (Match (chars "destination_number") (chars "^91(.*)$")) BREAK_NEVER
           [mk_act (chars "record") (Ref [49] true :: lits ".wav") (Some (chars "2"))] [one "norecord"] true []]];
    mk_exten (chars "rest") false [Cond (When no_condition) BREAK_ON_FALSE [one "message"] [] true []]]);
  (chars "global", [])].
Definition app_of (a : String.string) (d : String.string) : list Z * list Z := (chars a, chars d).
Arguments app_of a%_string_scope d%_string_scope.

Lemma no_text : valid_text [] /\ last (A := Z) [] <> Some 10.
Proof. split; [exists []; split_and!; [done|constructor|done]|done]. Qed.
(** Names and values are texts of plain letters. *)
Definition easy (s : list Z) : bool := forallb (fun c => (0 <? c) && (c <? 128)) s && bool_decide (encode s = s) && no_markup s && no_feeds s.
Lemma easy_attr n v : forallb attr_char n = true -> easy v = true -> valid_attr (n, Some v).
Proof.
  unfold easy. intros Hn He. apply andb_prop in He as [He Hf]. apply andb_prop in He as [He Hm]. apply andb_prop in He as [Hr He].
  split; [done|]. exists v. apply bool_decide_eq_true in He. split_and!; [by rewrite He| |done|done].
  apply Forall_forall. intros c Hc. rewrite forallb_forall in Hr. apply list_elem_of_In, Hr in Hc. boolify. lia.
Qed.
(** Trees of such, without texts. *)
Fixpoint easy_tree (t : tree) : bool :=
  match t with
  | Tree n attrs txt subs =>
    forallb name_char n && match n with c :: _ => name_start c | [] => false end && bool_decide (NoDup (fst <$> attrs)) &&
    forallb (fun a => forallb attr_char (fst a) && match snd a with Some v => easy v | None => false end) attrs &&
    bool_decide (txt = []) && forallb easy_tree subs
  end.
Lemma easy_valid t : easy_tree t = true -> valid t.
Proof.
  induction t as [n attrs txt subs IH] using tree_induction. cbn [easy_tree]. intros H.
  apply andb_prop in H as [H Hs]. apply andb_prop in H as [H Ht]. apply andb_prop in H as [H Ha]. apply andb_prop in H as [H Hd].
  apply andb_prop in H as [Hn Hc]. apply bool_decide_eq_true in Ht as ->. apply bool_decide_eq_true in Hd.
  rewrite forallb_forall in Ha, Hs. rewrite Forall_forall in IH. constructor; [split; [done|by destruct n]|done| |by intros _; apply no_text|done|].
  - apply Forall_forall. intros [a v] Hv. apply list_elem_of_In, Ha, andb_prop in Hv as [H1 H2]. destruct v as [v|]; [by apply easy_attr|done].
  - apply Forall_forall. intros u Hu. apply (IH u Hu). by apply Hs, list_elem_of_In.
Qed.

Lemma demo_plan_valid : valid (dialplan_tree demo_plan).
Proof. by apply easy_valid; vm_compute. Qed.
Lemma demo_plan_good : Forall (fun c => Forall (good_exten (demo_caller (chars "91555"))) (snd c)) demo_plan.
Proof.
  repeat first [ apply Forall_nil_2 | apply Forall_cons_2 | apply GoodCond | split ].
  all: cbn; first [lia | discriminate | by eexists | done].
Qed.

(** The applications for a call of 91555. *)
Definition demo_result : list (list Z * list Z) :=
  [app_of "info" ""; app_of "bridge" "trunk/1555"; app_of "record" "555.wav"; app_of "record" "555.wav"].
Lemma demo_holds e : match context_of (demo_caller (chars "91555")) demo_plan with
    | None => e = None
    | Some xs => holds e (eval_extens (P := demo_pcre) (demo_caller (chars "91555")) [] demo_now xs)
    end -> exists x, e = Some x /\ e_applications x = demo_result.
Proof.
  vm_compute. destruct e as [x|]; [|done]. intros (_ & H & _). by exists x.
Qed.

Lemma dialplan_gives_applications_witness : exists h x s',
  dialplan_hunt (P := demo_pcre) (D := demo_session) h (demo_caller (chars "91555")) [] ROOT no_variables = Ret (Some x, s') /\
  e_applications x = demo_result.
Proof.
  destruct (parse_printed (dialplan_tree demo_plan) false demo_plan_valid) as (st & _ & Hr).
  destruct (@dialplan_gives_applications demo_pcre demo_pcre_laws variables demo_session demo_session_laws (ps_heap st)
    (demo_caller (chars "91555")) [] demo_now ROOT demo_plan no_variables (reread_shown _ _ _ _ Hr) demo_timed eq_refl demo_plan_good)
    as (e & s' & E & _ & H).
  apply demo_holds in H as (x & -> & H). by exists (ps_heap st), x, s'.
Defined.

(** ** What conditions do besides *)

(** The applications a text gives for a call of a number. *)
Definition hunted (D : dialplan_session variables) (text number : list Z) : res (option (list (list Z * list Z))) :=
  match switch_xml_parse_str text with
  | Ret (Parsed st) =>
    '(e, _) <-! dialplan_hunt (P := demo_pcre) (D := D) (ps_heap st) (demo_caller number) [] ROOT no_variables;;
    Ret (option_map e_applications e)
  | _ => Ub
  end.
(** A context with extensions, written with single quotes. *)
Definition in_context (xs : list (list Z)) : list Z :=
  chars "<d><context name='office'>" ++ concat xs ++ chars "</context></d>".
Definition extension_text (c : String.string) : list Z := chars "<extension>" ++ chars c ++ chars "</extension>".
Arguments extension_text c%_string_scope.
Definition message : list Z := extension_text "<condition><action application='message'/></condition>".
Definition xor_text : list Z := in_context [extension_text "<condition regex='xor'><regex field='context' expression='^office$'/><regex field='context' expression='^office$'/><action application='one'/></condition>"; message].

(** Two tests of an [xor] that both pass: no action is performed, and the search
    ends with this extension all the same. *)
Theorem xor_failure_ends_search : hunted demo_session xor_text (chars "1") = Ret None.
Proof. vm_compute. reflexivity. Qed.

(** A date that fits performs the actions of a field that does not match, but the
    search goes on; a field that matches performs them on the wrong day. *)
Theorem time_overrides_field : hunted demo_session
  (in_context [extension_text "<condition wday='fri' field='context' expression='^home$'><action application='fits'/></condition>"; message])
  (chars "1") = Ret (Some [app_of "fits" ""; app_of "message" ""]).
Proof. vm_compute. reflexivity. Qed.
Theorem field_overrides_time : hunted demo_session
  (in_context [extension_text "<condition wday='sun' field='context' expression='^office$'><action application='fits'/></condition>"; message])
  (chars "1") = Ret (Some [app_of "fits" ""]).
Proof. vm_compute. reflexivity. Qed.

(** With parentheses in the expression that does not match, the argument is written
    to a buffer of no bytes. *)
Theorem time_match_overflows : hunted demo_session
  (in_context [extension_text "<condition wday='fri' field='context' expression='^home(.*)$'><action application='a' data='b'/></condition>"])
  (chars "1") = Ub.
Proof. vm_compute. reflexivity. Qed.

(** The tests of a condition share one vector: what the last of them leaves is read
    with the text of the last with parentheses. *)
Theorem vector_of_another_test : hunted demo_session
  (in_context [extension_text "<condition regex='all'><regex field='destination_number' expression='^9(.*)$'/><regex field='context' expression='^office$'/><action application='a'/></condition>"])
  (chars "91") = Ub.
Proof. vm_compute. reflexivity. Qed.

(** A condition with a field of its own and no tests has no expression. *)
Theorem no_tests_no_expression : hunted demo_session
  (in_context [extension_text "<condition regex='all' field='context'><action application='a'/></condition>"]) (chars "1") = Ub.
Proof. vm_compute. reflexivity. Qed.

(** An expression with a variable is freed behind its test and read before the
    actions. *)
Definition expanding : dialplan_session variables := {|
  get_variable := @get_variable _ demo_session; set_variable := @set_variable _ demo_session;
  push_variable := @push_variable _ demo_session; del_variable_prefix := @del_variable_prefix _ demo_session;
  expand_variables := fun t s => Ret (if bool_decide (t = chars "${where}") then Some (chars "^office$") else None, s);
  get_application_interface := fun _ _ => None; hangup_out_of_order := fun s => s; session_clock := fun _ => still |}.
Theorem expression_read_when_freed : hunted expanding
  (in_context [extension_text "<condition regex='all'><regex field='context' expression='${where}'/><action application='a'/></condition>"])
  (chars "1") = Ub.
Proof. vm_compute. reflexivity. Qed.

(** Conditions nested a hundred deep, which [MAX_RECUR] allows: the bar and 400
    more characters are written to [space], which has room for 400. *)
Theorem deep_nesting_overflows {P : pcre} {St : Type} {D : dialplan_session St} h caller garbage fuel name p t e (s : St) :
  h !! p = Some t -> parse_exten h caller garbage (S fuel) 100 name p e s = Ub.
Proof. intros Ht. cbn [parse_exten]. unfold tag_at. by rewrite Ht. Qed.
