(* ===== verification/DialplanChannel.v ===== *)
(** * DialplanChannel: the XML dialplan on a channel

    The interface that the dialplan asks of a session, given by the variables of a
    channel and their expansion.  Applications, hanging up and the clock are those
    of the modules and the core. *)
From Stdlib Require Import ZArith Lia.
From stdpp Require Import base numbers option list strings gmap.
From S2P Require Import Prelude CoreHash UrlCode TextUtil NetList Event EventProps EventText Regex XmlText XmlTree XmlParse XmlPrint XmlRound DateTime Caller ChannelVars Expand Dialplan DialplanProps DialplanText.

Local Open Scope Z_scope.

Section Channel.
Context (api : list Z -> list Z -> channel_vars -> option (list Z) * channel_vars).
Context (apps : list Z -> channel_vars -> option (app_interface channel_vars)) (hangup : channel_vars -> channel_vars) (now : clock).

Definition channel_session : dialplan_session channel_vars := {|
  get_variable := fun n c => switch_channel_get_variable c n;
  set_variable := fun n v c => switch_channel_set_variable c n v;
  push_variable := fun n v c => '(c, _) <-! switch_channel_add_variable_var_check c n (Some v) false SWITCH_STACK_PUSH;; Ret c;
  del_variable_prefix := fun p c => switch_channel_del_variable_prefix c (Some p);
  expand_variables := fun t c => switch_channel_expand_variables (E := channel_expander api) t c;
  get_application_interface := apps;
  hangup_out_of_order := hangup;
  session_clock := fun _ => now
|}.

Lemma match_plain : plain_name (chars "DP_MATCH").
Proof.
  split; [|done]. intros H. by repeat (apply elem_of_cons in H as [H|H]; [discriminate H|]); apply not_elem_of_nil in H.
Qed.
Lemma only_elsewhere c c' : only (chars "DP_MATCH") c c' -> same_elsewhere (D := channel_session) c c'.
Proof. intros H. split; [done|]. intros n Hn. apply H. unfold same_name. by apply bool_decide_eq_false_2. Qed.

(** What the dialplan relies on holds on every channel with room for one more
    header: [DP_MATCH] is removed and pushed to, which leaves the other variables, and
    a text without references and escapes is not expanded. *)
#[export] Instance channel_session_laws : session_laws channel_vars channel_session.
Proof.
  refine {| usable := has_room (chars "DP_MATCH") |}.
  - intros c Hr. destruct (add_variable_only c (chars "DP_MATCH") None true SWITCH_STACK_BOTTOM match_plain Hr (or_introl eq_refl)) as (c' & st & E & Hr' & Ho).
    exists c'. split_and!; [|done|by apply only_elsewhere]. cbn -[chars]. unfold switch_channel_set_variable, switch_channel_set_variable_var_check. by rewrite E.
  - intros t c Hr. destruct (add_variable_only c (chars "DP_MATCH") (Some t) false SWITCH_STACK_PUSH match_plain Hr (or_intror (or_introl eq_refl)))
      as (c' & st & E & Hr' & Ho).
    exists c'. split_and!; [|done|by apply only_elsewhere]. cbn -[chars]. by rewrite E.
  - intros t c [H1 H2]. cbn. unfold switch_channel_expand_variables, switch_channel_expand_variables_check. cbn [Z.sub Z.to_nat Pos.to_nat].
    change (Z.to_nat (101 - 0)) with 101%nat. cbn [expand_levels]. unfold needs_expansion. by rewrite H1, H2, orb_true_r.
Defined.

(** The time in the zone that the variables [tod_tz_offset] and [timezone] ask for. *)
Definition on_time (tm : time_exp) (c : channel_vars) : Prop :=
  exists offset tzname, check_tz (D := channel_session) c = Ret (offset, tzname) /\
    chosen_time (C := now) offset tzname (@switch_micro_time_now now) = Ret tm.

End Channel.

(** ** A call *)

(** The demonstration dialplan for a channel whose caller dials 91555. *)
Definition dialing : channel_vars := demo_channel <| cv_profile := Some (demo_caller (chars "91555")) |>.
Definition quiet : dialplan_session channel_vars := channel_session echo (fun _ _ => None) (fun c => c) still.
Lemma dialing_on_time : on_time echo (fun _ _ => None) (fun c => c) still demo_now dialing.
Proof. exists None, None. split; vm_compute; reflexivity. Qed.
Lemma dialing_no_hunt : switch_channel_get_variable dialing (chars "auto_hunt") = Ret None.
Proof. vm_compute. reflexivity. Qed.

(** A field that is a reference is the variable's text: of this caller the name is
    tested, and the group is a variable behind. *)
Definition named_call : res (option (list (list Z * list Z)) * option (list Z)) :=
  match switch_xml_parse_str (in_context [extension_text "<condition field='${caller_id_name}' expression='^An(.*)$'><action application='greet' data='$1'/></condition>"]) with
  | Ret (Parsed st) =>
    '(e, c) <-! dialplan_hunt (P := demo_pcre) (D := quiet) (ps_heap st) (demo_caller (chars "1")) [] ROOT demo_channel;;
    v <-! switch_channel_get_variable c (chars "DP_MATCH");; Ret (option_map e_applications e, v)
  | _ => Ub
  end.
Theorem reference_is_tested : named_call = Ret (Some [app_of "greet" "n"], Some (chars "ARRAY::Ann|:n")).
Proof. vm_compute. reflexivity. Qed.
