(* ===== verification/IvrMenu.v ===== *)
(** * IvrMenu: menus for callers

    src/switch_ivr_menu.c: a caller hears a greeting and enters digits, which an
    action of the menu answers; actions lead to other menus of the same list and
    back.  Playing, collecting and applications are operations of the session.  The
    first menu of the list counts the levels; the buffer with the digits belongs to
    the menu and is shared when the menu is entered again.  Memory is never short.
    The counter of rounds is not bounded. *)
From S2P Require Import Prelude CoreHash UrlCode TextUtil NetList EventText Regex DateTime.
From Stdlib Require Import ZArith Lia.
From stdpp Require Import base numbers option list strings.

Local Open Scope Z_scope.

(** ** The session *)
Class ivr_session (S : Type) := {
  channel_ready : S -> bool;
  set_variable : list Z -> list Z -> S -> S;
  get_variable : list Z -> S -> option (list Z);
  (** [switch_channel_expand_variables]: the text that is used. *)
  expand_variables : list Z -> S -> list Z * S;
  (** The kind of event and the name of the menu. *)
  send_event : list Z -> option (list Z) -> S -> S;
  (** The sound and the size of the buffer, if there is one: the digits entered. *)
  switch_ivr_play_file : list Z -> option Z -> S -> switch_status * list Z * S;
  (** The room, the number of digits, the terminators, and the timeouts: for the
      first digit, between digits and for all. *)
  switch_ivr_collect_digits_count : Z -> Z -> list Z -> Z -> Z -> Z -> S -> switch_status * list Z * S;
  (** The macro, its data and the size of the buffer, if there is one. *)
  switch_ivr_phrase_macro : list Z -> list Z -> option Z -> S -> list Z * S;
  (** The length, the sounds and the expression. *)
  switch_play_and_get_digits : Z -> option (list Z) -> option (list Z) -> list Z -> S -> switch_status * S;
  has_application : list Z -> S -> bool;
  (** The name and the argument. *)
  execute_application : list Z -> option (list Z) -> S -> S
}.

(** ** Menus *)
Inductive ivr_action := ACTION_DIE | ACTION_EXECMENU | ACTION_EXECAPP | ACTION_PLAYSOUND | ACTION_BACK | ACTION_TOMAIN | ACTION_NOOP.
#[export] Instance ivr_action_eq_dec : EqDecision ivr_action.
Proof. solve_decision. Defined.

(** A function gets the argument and the array for the argument of its action. *)
Record menu_action (S : Type) := mk_action {
  a_function : option (list Z -> list Z -> S -> ivr_action * list Z * S);
  a_action : ivr_action;
  a_arg : list Z;
  a_bind : list Z;
  a_re : bool
}.
Arguments mk_action {S}.
Arguments a_function {S}.
Arguments a_action {S}.
Arguments a_arg {S}.
Arguments a_bind {S}.
Arguments a_re {S}.

(** What a caller does not change; [stack] and [freepool] are flags. *)
Record menu (S : Type) := mk_menu {
  m_name : option (list Z);
  greeting_sound : option (list Z);
  short_greeting_sound : option (list Z);
  invalid_sound : option (list Z);
  exit_sound : option (list Z);
  transfer_sound : option (list Z);
  confirm_macro : option (list Z);
  confirm_key : option (list Z);
  tts_engine : option (list Z);
  tts_voice : option (list Z);
  confirm_attempts : Z;
  max_failures : Z;
  max_timeouts : Z;
  timeout : Z;
  inter_timeout : Z;
  exec_on_max_fail : option (list Z);
  exec_on_max_timeout : option (list Z);
  inlen : Z;
  actions : list (menu_action S);
  pin : option (list Z);
  prompt_pin_file : option (list Z);
  bad_pin_file : option (list Z);
  m_stack : bool;
  m_freepool : bool
}.
Arguments mk_menu {S}.
Arguments m_name {S}.
Arguments greeting_sound {S}.
Arguments short_greeting_sound {S}.
Arguments invalid_sound {S}.
Arguments exit_sound {S}.
Arguments transfer_sound {S}.
Arguments confirm_macro {S}.
Arguments confirm_key {S}.
Arguments tts_engine {S}.
Arguments tts_voice {S}.
Arguments confirm_attempts {S}.
Arguments max_failures {S}.
Arguments max_timeouts {S}.
Arguments timeout {S}.
Arguments inter_timeout {S}.
Arguments exec_on_max_fail {S}.
Arguments exec_on_max_timeout {S}.
Arguments inlen {S}.
Arguments actions {S}.
Arguments pin {S}.
Arguments prompt_pin_file {S}.
Arguments bad_pin_file {S}.
Arguments m_stack {S}.
Arguments m_freepool {S}.
#[export] Instance eta_menu {S : Type} : Eta (menu S) := fun m =>
  mk_menu (m_name m) (greeting_sound m) (short_greeting_sound m) (invalid_sound m) (exit_sound m) (transfer_sound m) (confirm_macro m)
    (confirm_key m) (tts_engine m) (tts_voice m) (confirm_attempts m) (max_failures m) (max_timeouts m) (timeout m) (inter_timeout m)
    (exec_on_max_fail m) (exec_on_max_timeout m) (inlen m) (actions m) (pin m) (prompt_pin_file m) (bad_pin_file m) (m_stack m) (m_freepool m).

(** The bytes of [buf]. *)
Definition menu_buf_size : Z := 1024.

(** [!zstr]: a text that is there and not empty. *)
Definition filled (o : option (list Z)) : option (list Z) := match o with Some [] => None | o => o end.

(** The menu, behind those of [main]. *)
Definition switch_ivr_menu_init {S : Type} (main : list (menu S)) (name greeting short_greeting invalid exit transfer macro key engine voice : option (list Z))
    (attempts inter_timeout digit_len timeout max_failures max_timeouts : Z) (newpool : bool) : menu S :=
  mk_menu (filled name) (filled greeting) (filled short_greeting) (filled invalid) (filled exit) (filled transfer) (filled macro) (filled key)
    (filled engine) (filled voice) (if attempts =? 0 then 3 else attempts)
    (if max_failures >? 0 then max_failures else 3) (if max_timeouts >? 0 then max_timeouts else 3)
    (if timeout <=? 0 then 10000 else timeout) (if inter_timeout =? 0 then Z.quot timeout 2 else inter_timeout)
    None None (u64 digit_len) [] None None None (bool_decide (length main = 0%nat)) newpool.

(** An action is put behind the others; [switch_ivr_menu_bind_action] and
    [switch_ivr_menu_bind_function]. *)
Definition bind {S : Type} (m : menu S) (function : option (list Z -> list Z -> S -> ivr_action * list Z * S)) (action : ivr_action) (arg bind : list Z) : menu S :=
  let re := hd 0 bind =? 47 in
  m <| actions ::= fun l => l ++ [mk_action function action arg bind re] |>
    <| inlen ::= fun n => if re then n else let len := u32 (zlen bind) in if len >? n then len else n |>.
Definition switch_ivr_menu_bind_action {S : Type} (m : menu S) (action : ivr_action) (arg bind_ : list Z) : menu S := bind m None action arg bind_.
Definition switch_ivr_menu_bind_function {S : Type} (m : menu S) (function : list Z -> list Z -> S -> ivr_action * list Z * S) (arg bind_ : list Z) : menu S :=
  bind m (Some function) ACTION_DIE arg bind_.

Fixpoint find_loop {S : Type} (i : nat) (l : list (menu S)) (name : option (list Z)) : res (option nat) :=
  match l with
  | [] => Ret None
  | m :: l =>
    match name with
    | None => Ret (Some i)
    | Some n => k <-! or_ub (m_name m);; if bool_decide (k = n) then Ret (Some i) else find_loop (Datatypes.S i) l name
    end
  end.
Definition switch_ivr_menu_find {S : Type} (l : list (menu S)) (name : option (list Z)) : res (option nat) := find_loop 0 l name.

(** [SWITCH_STATUS_IS_BREAK] *)
Definition is_break (s : switch_status) : bool :=
  match s with SWITCH_STATUS_BREAK | SWITCH_STATUS_XBREAK | SWITCH_STATUS_WINBREAK | SWITCH_STATUS_INTR => true | _ => false end.
Definition succeeded (s : switch_status) : bool := match s with SWITCH_STATUS_SUCCESS => true | _ => false end.
Definition timed_out (s : switch_status) : bool := match s with SWITCH_STATUS_TIMEOUT => true | _ => false end.

(** ** State *)

(** [stack_count] and SWITCH_IVR_MENU_FLAG_FALLTOMAIN of the first menu, the digits
    in the buffers, and the session. *)
Record ivr_state (S : Type) := mk_ivr { v_count : Z; v_fall : bool; v_buf : nat -> list Z; v_ses : S }.
Arguments mk_ivr {S}.
Arguments v_count {S}.
Arguments v_fall {S}.
Arguments v_buf {S}.
Arguments v_ses {S}.
#[export] Instance eta_ivr {S : Type} : Eta (ivr_state S) := fun v => mk_ivr (v_count v) (v_fall v) (v_buf v) (v_ses v).
Definition store {S : Type} (i : nat) (d : list Z) (v : ivr_state S) : ivr_state S :=
  v <| v_buf ::= fun b j => if Nat.eqb j i then d else b j |>.

(** The variables of a round: whether there was a match, the failures, the rounds,
    whether the menu goes on, the status, and [arg]. *)
Record turn := mk_turn { t_match : bool; t_errs : Z; t_reps : Z; t_running : bool; t_status : switch_status; t_arg : list Z }.
#[export] Instance eta_turn : Eta turn := fun t => mk_turn (t_match t) (t_errs t) (t_reps t) (t_running t) (t_status t) (t_arg t).

Definition MENU_EVENT_ENTER : list Z := chars "menu::enter".
Definition MENU_EVENT_EXIT : list Z := chars "menu::exit".

Section Menus.
Context {P : pcre} {St : Type} {I : ivr_session St}.
(** The list from the first menu on, and what a vector holds before it is written. *)
Context (menus : list (menu St)) (garbage : list Z).

Definition with_ses (f : St -> St) (v : ivr_state St) : ivr_state St := v <| v_ses ::= f |>.
Definition ivr_send_event (event_type : list Z) (m : menu St) : ivr_state St -> ivr_state St := with_ses (send_event event_type (m_name m)).

(** *** Digits *)
Definition terminators (s : St) : list Z :=
  match filled (get_variable (chars "ivr_menu_terminator") s) with Some t => t | None => chars "#" end.

(** The attempts to have the digits confirmed: whether they were.  A number below
    zero is counted down until it overflows. *)
Fixpoint confirm_loop (n : nat) (endless : bool) (m : menu St) (term macro digits : list Z) (s : St) : res (bool * St) :=
  match n with
  | O => if endless then Ub else Ret (false, s)
  | S n =>
    let '(buf, s) := switch_ivr_phrase_macro macro digits (match confirm_key m with Some _ => Some 10 | None => None end) s in
    match confirm_key m with
    | None => confirm_loop n endless m term macro digits s
    | Some key =>
      let '(buf, s) := match buf with
                       | [] => let '(_, d, s) := switch_ivr_collect_digits_count 10 1 term (u32 (timeout m)) 0 0 s in (d, s)
                       | _ => (buf, s)
                       end in
      match buf with
      | [] => confirm_loop n endless m term macro digits s
      | d :: _ => Ret (hd 0 key =? d, s)
      end
    end
  end.
Definition confirmed (m : menu St) (term macro digits : list Z) (s : St) : res (bool * St) :=
  let att := confirm_attempts m in
  confirm_loop (Z.to_nat (if att <? 0 then att + 2 ^ 31 else att)) (att <? 0) m term macro digits s.

(** The status and the digits; [None] when the buffer is not touched. *)
Definition gather (m : menu St) (sound : option (list Z)) (need : Z) (s : St) : res (switch_status * option (list Z) * St) :=
  match filled sound with
  | None => Ret (SWITCH_STATUS_FALSE, None, s)
  | Some sound =>
    let '(sound, s) := expand_variables sound s in
    let term := terminators s in
    if u64 (inlen m + 1) >? menu_buf_size then Ub
    else
      let '(status, d, s) := switch_ivr_play_file sound (if need =? 0 then None else Some (u32 (inlen m + 1))) s in
      if need =? 0 then Ret (status, Some [], s)
      else if zlen d >? inlen m then Ub
      else
        let '(status, d, s) :=
          if zlen d <? need then
            let '(status, more, s) := switch_ivr_collect_digits_count (inlen m - zlen d) need term
              (u32 (match d with [] => timeout m | _ => inter_timeout m end)) (u32 (inter_timeout m)) (u32 (timeout m)) s in
            (status, d ++ more, s)
          else (status, d, s) in
        if zlen d >? inlen m then Ub
        else
          match confirm_macro m, d with
          | Some macro, _ :: _ =>
            if succeeded status then
              '(ok, s) <-! confirmed m term macro d s;; Ret (status, Some (if (ok : bool) then d else []), s)
            else Ret (status, Some d, s)
          | _, _ => Ret (status, Some d, s)
          end
  end.
Definition play_and_collect (i : nat) (m : menu St) (sound : option (list Z)) (need : Z) (v : ivr_state St) : res (switch_status * ivr_state St) :=
  '(status, d, s) <-! gather m sound need (v_ses v);;
  let v := v <| v_ses := s |> in
  Ret (status, match d with Some d => store i d v | None => v end).

(** *** Applications *)
Definition exec_app (app_str : list Z) (s : St) : St :=
  match split_at 32 app_str with
  | None => execute_application app_str None s
  | Some (app, data) => let '(data, s) := expand_variables data s in execute_application app (Some data) s
  end.
Definition set_voice (m : menu St) (s : St) : St :=
  match filled (tts_engine m), filled (tts_voice m) with
  | Some engine, Some voice => set_variable (chars "tts_voice") voice (set_variable (chars "tts_engine") engine s)
  | _, _ => s
  end.

(** *** Actions *)

(** Whether an action answers the digits, and its argument. *)
Definition matches (ap : menu_action St) (digits : list Z) : res (bool * list Z) :=
  if a_re ap then
    '(ok, _, ovector) <-! switch_regex_perform digits (a_bind ap) None garbage;;
    if ok =? 0 then Ret (false, a_arg ap)
    else t <-! switch_perform_substitution ok (a_arg ap) digits 1024 ovector;; Ret (true, t)
  else Ret (bool_decide (digits = a_bind ap), a_arg ap).

Section Level.
(** A menu of the next level. *)
Context (execute : list Z -> ivr_state St -> res (switch_status * ivr_state St)).

Definition perform (i : nat) (m : menu St) (todo : ivr_action) (aptr : list Z) (t : turn) (v : ivr_state St) : res (turn * ivr_state St) :=
  match todo with
  | ACTION_DIE => Ret (t <| t_status := SWITCH_STATUS_FALSE |>, v)
  | ACTION_PLAYSOUND =>
    let '(status, _, s) := switch_ivr_play_file aptr None (v_ses v) in Ret (t <| t_status := status |>, v <| v_ses := s |>)
  | ACTION_EXECMENU =>
    name <-! or_ub (m_name m);;
    if bool_decide (aptr = name) then Ret (t <| t_status := SWITCH_STATUS_SUCCESS |>, v)
    else
      '(status, v) <-! execute aptr (ivr_send_event MENU_EVENT_EXIT m v);;
      Ret (t <| t_reps := -1 |> <| t_status := status |>, ivr_send_event MENU_EVENT_ENTER m v)
  | ACTION_EXECAPP =>
    let t := t <| t_status := SWITCH_STATUS_FALSE |> in
    match aptr with
    | [] => Ret (t, v)
    | _ =>
      let '(app_name, app_arg) := match split_at 32 aptr with Some (a, d) => (a, Some d) | None => (aptr, None) end in
      if has_application app_name (v_ses v) then
        v <-! match filled (transfer_sound m) with
              | Some sound => if bool_decide (app_name = chars "transfer") then '(_, v) <-! play_and_collect i m (Some sound) 0 v;; Ret v else Ret v
              | None => Ret v
              end;;
        Ret (t <| t_status := SWITCH_STATUS_SUCCESS |>, with_ses (execute_application app_name app_arg) v)
      else Ret (t, v)
    end
  | ACTION_BACK => Ret (t <| t_running := false |> <| t_status := SWITCH_STATUS_SUCCESS |>, v)
  | ACTION_TOMAIN => Ret (t <| t_status := SWITCH_STATUS_BREAK |>, v <| v_fall := true |>)
  | ACTION_NOOP => Ret (t <| t_status := SWITCH_STATUS_SUCCESS |>, v)
  end.

(** Every action that answers is performed; the buffer may have changed since. *)
Fixpoint actions_loop (i : nat) (m : menu St) (aps : list (menu_action St)) (t : turn) (v : ivr_state St) : res (turn * ivr_state St) :=
  match aps with
  | [] => Ret (t, v)
  | ap :: aps =>
    let v := with_ses (set_voice m) v in
    '(ok, use_arg) <-! matches ap (v_buf v i);;
    if ok : bool then
      let '(todo, aptr, arg, s) :=
        match a_function ap with
        | Some f => let '(todo, arg, s) := f use_arg (t_arg t) (v_ses v) in (todo, arg, arg, s)
        | None => (a_action ap, use_arg, t_arg t, v_ses v)
        end in
      '(t, v) <-! perform i m todo aptr (t <| t_match := true |> <| t_errs := 0 |> <| t_arg := arg |>) (v <| v_ses := s |>);;
      actions_loop i m aps t v
    else actions_loop i m aps t v
  end.

(** The end of the loop by a failure that was configured. *)
Definition stand_down (status : list Z) (app : option (list Z)) (s : St) : St :=
  let s := set_variable (chars "ivr_menu_status") status s in
  match filled app with Some app => exec_app app s | None => s end.

(** What is said about digits that nothing answers. *)
Definition answer_none (i : nat) (m : menu St) (t : turn) (v : ivr_state St) : res (turn * ivr_state St) :=
  v <-! match v_buf v i, invalid_sound m with
        | _ :: _, Some sound => '(_, v) <-! play_and_collect i m (Some sound) 0 v;; Ret v
        | _, _ => Ret v
        end;;
  Ret (t <| t_errs ::= fun e => e + 1 |> <| t_status ::= fun st => if is_break st then SWITCH_STATUS_SUCCESS else st |>, v).

(** The rest of a round, when there was no timeout. *)
Definition answer (i : nat) (m : menu St) (t : turn) (v : ivr_state St) : res (turn * ivr_state St) :=
  match v_buf v i with
  | [] => answer_none i m t v
  | _ =>
    '(t, v) <-! actions_loop i m (actions m) t v;;
    if m_stack m && v_fall v then Ret (t <| t_status := SWITCH_STATUS_SUCCESS |> <| t_running := true |>, v <| v_fall := false |>)
    else if t_match t then Ret (t, v)
    else answer_none i m t v
  end.

Fixpoint rounds (fuel : nat) (i : nat) (m : menu St) (reps errs timeouts : Z) (running : bool) (status : switch_status) (v : ivr_state St)
    : res (switch_status * ivr_state St) :=
  if negb (running && succeeded status) then Ret (status, v)
  else if negb (channel_ready (v_ses v)) then Ret (status, v)
  else if errs =? max_failures m then Ret (status, with_ses (stand_down (chars "failure") (exec_on_max_fail m)) v)
  else if timeouts =? max_timeouts m then Ret (status, with_ses (stand_down (chars "timeout") (exec_on_max_timeout m)) v)
  else
    match fuel with
    | O => Ub
    | S fuel =>
      let greeting := match short_greeting_sound m with Some s => if reps >? 0 then Some s else greeting_sound m | None => greeting_sound m end in
      if u64 (inlen m + 1) >? menu_buf_size then Ub
      else
        '(st, v) <-! play_and_collect i m greeting (inlen m) (store i [] v);;
        if timed_out st && bool_decide (v_buf v i = []) then rounds fuel i m (reps + 1) errs (timeouts + 1) running status v
        else
          '(t, v) <-! answer i m (mk_turn false errs reps running status []) v;;
          rounds fuel i m (t_reps t + 1) (t_errs t) timeouts (t_running t) (t_status t) v
    end.
End Level.

(** What happens to a caller who enters a menu: the status that the menu ends
    with. *)
Definition enter (execute : list Z -> ivr_state St -> res (switch_status * ivr_state St)) (fuel : nat) (i : nat) (m : menu St) (v : ivr_state St)
    : res (switch_status * ivr_state St) :=
  let v := with_ses (set_variable (chars "ivr_menu_status") (chars "success")) (with_ses (set_voice m) v) in
  let v := ivr_send_event MENU_EVENT_ENTER m v in
  let '(granted, s) :=
    match filled (pin m) with
    | None => (true, v_ses v)
    | Some p =>
      let '(status, s) := switch_play_and_get_digits (u32 (zlen p)) (prompt_pin_file m) (bad_pin_file m) (94 :: p ++ [36]) (v_ses v) in
      (succeeded status, s)
    end in
  let v := v <| v_ses := s |> in
  if granted : bool then
    '(status, v) <-! rounds execute fuel i m 0 0 0 true SWITCH_STATUS_SUCCESS v;;
    if v_count v =? 1 then
      match filled (exit_sound m) with
      | Some sound => play_and_collect i m (Some sound) 0 v
      | None => Ret (status, v)
      end
    else Ret (status, v)
  else Ret (SWITCH_STATUS_FALSE, v).

(** [levels] more menus may be entered, each with [fuel] rounds. *)
Fixpoint switch_ivr_menu_execute (levels fuel : nat) (name : list Z) (v : ivr_state St) : res (switch_status * ivr_state St) :=
  _ <-! or_ub (head menus);;
  let v := v <| v_count ::= fun n => n + 1 |> in
  let leave v := v <| v_count ::= fun n => n - 1 |> in
  if (v_count v >? 12) || bool_decide (name = []) then Ret (SWITCH_STATUS_FALSE, leave v)
  else
    match levels with
    | O => Ub
    | S levels =>
      i <-! switch_ivr_menu_find menus (Some name);;
      match i with
      | None => Ret (SWITCH_STATUS_FALSE, leave v)
      | Some i =>
        m <-! or_ub (menus !! i);;
        '(status, v) <-! enter (switch_ivr_menu_execute levels fuel) fuel i m v;;
        Ret (status, ivr_send_event MENU_EVENT_EXIT m (leave v))
      end
    end.
End Menus.
