(* ===== verification/IvrMenuProps.v ===== *)
(** * IvrMenuProps: menus end, and lead where their actions say

    Callers of finite patience leave every menu, whatever the menus are.  Menus whose
    actions answer different digits and that do not lead back to themselves follow
    rules that know neither buffers nor flags nor loops over actions. *)
From S2P Require Import Prelude CoreHash UrlCode TextUtil NetList EventText Regex DateTime IvrMenu.
From Stdlib Require Import ZArith Lia.
From stdpp Require Import base numbers option list strings.

Local Open Scope Z_scope.

(** ** Looking up *)
Lemma find_spec {S : Type} (l : list (menu S)) name : Forall (fun m => m_name m <> None) l -> exists i, switch_ivr_menu_find l (Some name) = Ret i /\
  match i with
  | Some i => exists m, l !! i = Some m /\ m_name m = Some name /\ List.find (fun m => bool_decide (m_name m = Some name)) l = Some m
  | None => List.find (fun m => bool_decide (m_name m = Some name)) l = None
  end.
Proof.
  intros Hn. unfold switch_ivr_menu_find. cut (forall k, exists i, find_loop k l (Some name) = Ret i /\
    match i with
    | Some i => exists m j, i = (k + j)%nat /\ l !! j = Some m /\ m_name m = Some name /\ List.find (fun m => bool_decide (m_name m = Some name)) l = Some m
    | None => List.find (fun m => bool_decide (m_name m = Some name)) l = None
    end).
  { intros Hl. destruct (Hl 0%nat) as ([i|] & E & Hi); [|by exists None]. destruct Hi as (m & j & -> & H). exists (Some j). split; [exact E|by exists m]. }
  induction Hn as [|m l Hm _ IH]; intros k; cbn [find_loop List.find]; [by exists None|]. destruct (m_name m) as [n|] eqn:En; [|by destruct Hm].
  cbn [or_ub rbind]. case_bool_decide as E.
  - exists (Some k). split; [done|]. rewrite bool_decide_true by congruence. exists m, 0%nat. rewrite En, E. by rewrite Nat.add_0_r.
  - rewrite bool_decide_false by congruence. destruct (IH (Datatypes.S k)) as ([i|] & Ei & Hi); [|by exists None].
    destruct Hi as (m' & j & -> & H). exists (Some (Datatypes.S k + j)%nat). split; [exact Ei|]. exists m', (Datatypes.S j). split; [lia|exact H].
Qed.

(** ** Callers of finite patience *)

(** A caller enters at most so many digits more; digits that are collected are
    spent, and they fit into the room. *)
Class patient (S : Type) (I : ivr_session S) := {
  patience : S -> nat;
  patience_variable n v s : (patience (set_variable n v s) <= patience s)%nat;
  patience_expand t s : (patience (snd (expand_variables t s)) <= patience s)%nat;
  patience_event k n s : (patience (send_event k n s) <= patience s)%nat;
  patience_play f len s : let '(_, d, s') := switch_ivr_play_file f len s in
    (patience s' + length d <= patience s)%nat /\ match len with Some n => 0 < n -> zlen d < n | None => d = [] end;
  patience_collect room n term first inter all s : 0 <= room -> let '(_, d, s') := switch_ivr_collect_digits_count room n term first inter all s in
    (patience s' + length d <= patience s)%nat /\ zlen d <= room;
  patience_phrase macro d len s : (patience (snd (switch_ivr_phrase_macro macro d len s)) <= patience s)%nat;
  patience_get n a b re s : (patience (snd (switch_play_and_get_digits n a b re s)) <= patience s)%nat;
  patience_execute app arg s : (patience (execute_application app arg s) <= patience s)%nat
}.

Section Returns.
Context {P : pcre} {St : Type} {I : ivr_session St} {H : patient St I}.
Context (menus : list (menu St)) (garbage : list Z).

(** An action whose pattern and template work for all digits. *)
Definition good_action (ap : menu_action St) : Prop :=
  (forall d, is_ret (matches garbage ap d)) /\
  match a_function ap with Some f => forall t arg s, (patience (snd (f t arg s)) <= patience s)%nat | None => True end.
(** A menu with a name, a buffer that is large enough, and limits. *)
Record good_menu (m : menu St) : Prop := {
  good_name : m_name m <> None;
  good_inlen : 0 <= inlen m < 1024;
  good_failures : 0 < max_failures m;
  good_timeouts : 0 < max_timeouts m;
  good_attempts : 0 <= confirm_attempts m;
  good_actions : Forall good_action (actions m)
}.

(** What every operation keeps. *)
Definition keeps (v v' : ivr_state St) : Prop := v_count v' = v_count v /\ (patience (v_ses v') <= patience (v_ses v))%nat.
#[local] Instance keeps_preorder : PreOrder keeps.
Proof. split; [by intros v|]. intros a b c [H1 H2] [H3 H4]. split; [congruence|lia]. Qed.
Lemma keeps_ses (f : St -> St) v : (forall s, (patience (f s) <= patience s)%nat) -> keeps v (with_ses f v).
Proof. intros Hf. split; [done|apply Hf]. Qed.
Lemma set_voice_patience m s : (patience (set_voice m s) <= patience s)%nat.
Proof.
  unfold set_voice. destruct (filled (tts_engine m)) as [e|]; [|done]. destruct (filled (tts_voice m)) as [w|]; [|done].
  pose proof (patience_variable (chars "tts_engine") e s). pose proof (patience_variable (chars "tts_voice") w (set_variable (chars "tts_engine") e s)). lia.
Qed.

(** *** Digits *)
Lemma confirm_total m term macro d : forall n s, exists b s', confirm_loop n false m term macro d s = Ret (b, s') /\ (patience s' <= patience s)%nat.
Proof.
  induction n as [|n IH]; intros s; cbn [confirm_loop]; [by exists false, s|].
  pose proof (patience_phrase macro d (match confirm_key m with Some _ => Some 10 | None => None end) s) as Hp.
  destruct (switch_ivr_phrase_macro _ _ _ s) as [buf s1]. cbn [snd] in Hp.
  assert (Hn : forall s2, (patience s2 <= patience s)%nat -> exists b s', confirm_loop n false m term macro d s2 = Ret (b, s') /\ (patience s' <= patience s)%nat).
  { intros s2 H2. destruct (IH s2) as (b & s' & -> & H3). exists b, s'. split; [done|lia]. }
  destruct (confirm_key m) as [key|]; [|by apply Hn].
  destruct buf as [|x buf]; [|by exists (hd 0 key =? x), s1].
  pose proof (patience_collect 10 1 term (u32 (timeout m)) 0 0 s1 ltac:(lia)) as Hc.
  destruct (switch_ivr_collect_digits_count _ _ _ _ _ _ s1) as [[st d2] s2]. destruct Hc as [Hc _].
  destruct d2 as [|x d2]; [apply Hn; lia|]. exists (hd 0 key =? x), s2. split; [done|lia].
Qed.

Definition some_digits (d : option (list Z)) : list Z := default [] d.
Lemma gather_total m sound need s : good_menu m -> exists st d s', gather m sound need s = Ret (st, d, s') /\
  (patience s' + length (some_digits d) <= patience s)%nat.
Proof.
  intros Hm. unfold gather. destruct (filled sound) as [snd_|]; [|exists SWITCH_STATUS_FALSE, None, s; split; [done|cbn; lia]].
  pose proof (patience_expand snd_ s) as He. destruct (expand_variables snd_ s) as [sound' s1]. cbn [snd] in He.
  pose proof (good_inlen m Hm) as Hi. rewrite u64_small, Z.gtb_ltb, (proj2 (Z.ltb_ge menu_buf_size _)) by (lia || (unfold menu_buf_size; lia)).
  pose proof (patience_play sound' (if need =? 0 then None else Some (u32 (inlen m + 1))) s1) as Hp.
  destruct (switch_ivr_play_file _ _ s1) as [[st d] s2]. destruct Hp as [Hp Hd].
  destruct (need =? 0); [exists st, (Some []), s2; split; [done|cbn; lia]|].
  rewrite u32_small in Hd by lia. specialize (Hd ltac:(lia)). rewrite Z.gtb_ltb, (proj2 (Z.ltb_ge (inlen m) (zlen d))) by lia.
  set (r := if zlen d <? need then _ else _).
  assert (Hr : let '(_, d', s3) := r in (patience s3 + length d' <= patience s)%nat /\ zlen d' <= inlen m).
  { unfold r. destruct (zlen d <? need); [|split; lia].
    pose proof (patience_collect (inlen m - zlen d) need (terminators s1) (u32 (match d with [] => timeout m | _ => inter_timeout m end))
      (u32 (inter_timeout m)) (u32 (timeout m)) s2 ltac:(lia)) as Hc.
    destruct (switch_ivr_collect_digits_count _ _ _ _ _ _ s2) as [[st2 d2] s3]. destruct Hc as [Hc Hz]. rewrite zlen_app, length_app. split; lia. }
  clearbody r. destruct r as [[st' d'] s3]. destruct Hr as [Hr Hz]. rewrite Z.gtb_ltb, (proj2 (Z.ltb_ge (inlen m) (zlen d'))) by lia.
  destruct (confirm_macro m) as [macro|]; [|exists st', (Some d'), s3; split; [done|cbn; lia]].
  destruct d' as [|x d']; [exists st', (Some []), s3; split; [done|cbn in *; lia]|].
  destruct (succeeded st'); [|exists st', (Some (x :: d')), s3; split; [done|cbn in *; lia]].
  unfold confirmed. rewrite (proj2 (Z.ltb_ge (confirm_attempts m) 0)) by apply (good_attempts m Hm).
  destruct (confirm_total m (terminators s1) macro (x :: d') (Z.to_nat (confirm_attempts m)) s3) as (ok & s4 & -> & H4). cbn [rbind].
  eexists _, _, s4. split; [reflexivity|]. destruct ok; cbn in *; lia.
Qed.

Lemma collect_total i m sound need v : good_menu m -> exists st d v', play_and_collect i m sound need v = Ret (st, v') /\
  v_count v' = v_count v /\ (patience (v_ses v') + length (some_digits d) <= patience (v_ses v))%nat /\
  v_buf v' i = default (v_buf v i) d.
Proof.
  intros Hm. unfold play_and_collect. destruct (gather_total m sound need (v_ses v) Hm) as (st & d & s' & -> & Hp). cbn [rbind].
  eexists st, d, _. split; [reflexivity|]. destruct d as [d|]; cbn in *; rewrite ?Nat.eqb_refl; by split_and!.
Qed.
Lemma collect_keeps i m sound need v : good_menu m -> exists st v', play_and_collect i m sound need v = Ret (st, v') /\ keeps v v'.
Proof. intros Hm. destruct (collect_total i m sound need v Hm) as (st & d & v' & -> & Hc & Hp & _). exists st, v'. split; [done|]. split; [done|lia]. Qed.

(** *** Actions *)
Section Level.
Context (execute : list Z -> ivr_state St -> res (switch_status * ivr_state St)) (level : Z) (most : nat).
(** Callers at this level, of no more patience than this. *)
Definition within (v : ivr_state St) : Prop := v_count v = level /\ (patience (v_ses v) <= most)%nat.
Lemma within_keeps v v' : within v -> keeps v v' -> within v'.
Proof. intros [H1 H2] [H3 H4]. split; [congruence|lia]. Qed.
(** Menus of the next level return to them. *)
Context (Hex : forall name v, within v -> exists st v', execute name v = Ret (st, v') /\ keeps v v').

Lemma exec_app_patience app s : (patience (exec_app app s) <= patience s)%nat.
Proof.
  unfold exec_app. destruct (split_at 32 app) as [[a d]|]; [|apply patience_execute]. pose proof (patience_expand d s) as He.
  destruct (expand_variables d s) as [d' s']. cbn [snd] in He. pose proof (patience_execute a (Some d') s'). lia.
Qed.
Lemma event_keeps k m v : keeps v (ivr_send_event k m v).
Proof. apply keeps_ses. intros s. apply patience_event. Qed.

Lemma perform_total i m todo aptr t v : good_menu m -> within v ->
  exists t' v', perform execute i m todo aptr t v = Ret (t', v') /\ keeps v v' /\ t_match t' = t_match t /\ t_errs t' = t_errs t.
Proof.
  intros Hm Hp. destruct todo; cbn [perform].
  - by eexists _, v.
  - destruct (m_name m) as [n|] eqn:En; [|by destruct (good_name m Hm)]. cbn [or_ub rbind]. case_bool_decide; [by eexists _, v|].
    destruct (Hex aptr (ivr_send_event MENU_EVENT_EXIT m v)) as (st & v1 & -> & Hk); [apply (within_keeps v); [done|apply event_keeps]|]. cbn [rbind]. eexists _, _. split; [reflexivity|].
    split; [|done]. transitivity v1; [|apply event_keeps]. transitivity (ivr_send_event MENU_EVENT_EXIT m v); [apply event_keeps|done].
  - destruct aptr as [|c aptr]; [by eexists _, v|]. destruct (match split_at 32 (c :: aptr) with Some _ => _ | None => _ end) as [app arg].
    destruct (has_application app (v_ses v)); [|by eexists _, v].
    assert (Ht : exists v1, match filled (transfer_sound m) with
        | Some sound => if bool_decide (app = chars "transfer") then '(_, v) <-! play_and_collect i m (Some sound) 0 v;; Ret v else Ret v
        | None => Ret v end = Ret v1 /\ keeps v v1).
    { destruct (filled (transfer_sound m)) as [sound|]; [|by exists v]. case_bool_decide; [|by exists v].
      destruct (collect_keeps i m (Some sound) 0 v Hm) as (st & v1 & -> & Hk). by exists v1. }
    destruct Ht as (v1 & -> & Hk). cbn [rbind]. eexists _, _. split; [reflexivity|]. split; [|done]. transitivity v1; [done|].
    apply keeps_ses. intros s. apply patience_execute.
  - pose proof (patience_play aptr None (v_ses v)) as Hpl. destruct (switch_ivr_play_file aptr None (v_ses v)) as [[st d] s].
    eexists _, _. split; [reflexivity|]. split; [|done]. split; [done|]. cbn. lia.
  - by eexists _, v.
  - by eexists _, _.
  - by eexists _, v.
Qed.

(** Failures are forgotten when an action answers. *)
Lemma actions_total i m aps : good_menu m -> Forall good_action aps -> forall t v, within v ->
  exists t' v', actions_loop garbage execute i m aps t v = Ret (t', v') /\ keeps v v' /\
    (t_errs t' = 0 \/ t_errs t' = t_errs t).
Proof.
  intros Hm. induction 1 as [|ap aps [Hap Hf] _ IH]; intros t v Hp; cbn [actions_loop].
  { exists t, v. split; [done|]. split; [done|]. by right. }
  pose proof (keeps_ses (set_voice m) v (set_voice_patience m)) as Hk1. set (v1 := with_ses (set_voice m) v) in *.
  pose proof (within_keeps _ _ Hp Hk1) as Hp1.
  destruct (Hap (v_buf v1 i)) as [[ok arg] ->]. cbn [rbind]. destruct ok.
  2: { destruct (IH t v1 Hp1) as (t' & v' & -> & Hk & Ht). exists t', v'. split; [done|]. split; [by transitivity v1|done]. }
  set (r := match a_function ap with Some _ => _ | None => _ end).
  assert (Hr : let '(_, _, _, s) := r in (patience s <= patience (v_ses v1))%nat).
  { unfold r. destruct (a_function ap) as [f|]; [|done]. specialize (Hf arg (t_arg t) (v_ses v1)). by destruct (f arg (t_arg t) (v_ses v1)) as [[? ?] ?]. }
  destruct r as [[[todo aptr] arg'] s]. set (v2 := v1 <| v_ses := s |>).
  destruct (perform_total i m todo aptr (t <| t_match := true |> <| t_errs := 0 |> <| t_arg := arg' |>) v2 Hm) as (t3 & v3 & -> & Hk & Hm3 & He3).
  { apply (within_keeps v1); [done|]. by split. }
  cbn [rbind]. assert (Hk2 : keeps v v3) by (transitivity v1; [done|]; transitivity v2; [by split|done]).
  destruct (IH t3 v3 (within_keeps _ _ Hp Hk2)) as (t' & v' & -> & Hk3 & Ht). exists t', v'. split; [done|].
  split; [by transitivity v3|]. cbn in He3. rewrite He3 in Ht. left. by destruct Ht.
Qed.
(** *** Rounds *)
Lemma stand_down_patience status app s : (patience (stand_down status app s) <= patience s)%nat.
Proof.
  unfold stand_down. pose proof (patience_variable (chars "ivr_menu_status") status s). destruct (filled app) as [a|]; [|done].
  pose proof (exec_app_patience a (set_variable (chars "ivr_menu_status") status s)). lia.
Qed.
Lemma answer_none_total i m t v : good_menu m -> exists t' v', answer_none i m t v = Ret (t', v') /\ keeps v v' /\ t_errs t' = t_errs t + 1.
Proof.
  intros Hm. unfold answer_none.
  assert (Hs : exists v1, match v_buf v i, invalid_sound m with
        | _ :: _, Some sound => '(_, v) <-! play_and_collect i m (Some sound) 0 v;; Ret v
        | _, _ => Ret v
        end = Ret v1 /\ keeps v v1).
  { destruct (v_buf v i) as [|x d]; [by exists v|]. destruct (invalid_sound m) as [sound|]; [|by exists v].
    destruct (collect_keeps i m (Some sound) 0 v Hm) as (st & v1 & -> & Hk). by exists v1. }
  destruct Hs as (v1 & -> & Hk). cbn [rbind]. by eexists _, v1.
Qed.
Lemma answer_total i m t v : good_menu m -> within v -> 0 <= t_errs t ->
  exists t' v', answer garbage execute i m t v = Ret (t', v') /\ keeps v v' /\
    if bool_decide (v_buf v i = []) then t_errs t' = t_errs t + 1 else 0 <= t_errs t' <= t_errs t + 1.
Proof.
  intros Hm Hp Ht. unfold answer. destruct (v_buf v i) as [|x d] eqn:Eb.
  { rewrite bool_decide_true by done. by apply answer_none_total. }
  rewrite bool_decide_false by done. destruct (actions_total i m (actions m) Hm (good_actions m Hm) t v Hp) as (t1 & v1 & -> & Hk & He). cbn [rbind].
  destruct (m_stack m && v_fall v1).
  { eexists _, _. split; [reflexivity|]. split; [transitivity v1; done|]. cbn. lia. }
  destruct (t_match t1); [exists t1, v1; split; [done|]; split; [done|]; lia|].
  destruct (answer_none_total i m t1 v1 Hm) as (t2 & v2 & -> & Hk2 & He2). exists t2, v2. split; [done|]. split; [by transitivity v1|]. lia.
Qed.

(** Silence, failures and digits are used up. *)
Definition rounds_left (m : menu St) (errs timeouts : Z) (s : St) : Z :=
  Z.of_nat (patience s) * (max_failures m + 1) + (max_failures m - errs) + (max_timeouts m - timeouts).
Lemma rounds_total i m : good_menu m -> forall fuel reps errs timeouts running status v, within v ->
  0 <= errs <= max_failures m -> 0 <= timeouts <= max_timeouts m -> rounds_left m errs timeouts (v_ses v) <= Z.of_nat fuel ->
  exists st v', rounds garbage execute fuel i m reps errs timeouts running status v = Ret (st, v') /\ keeps v v'.
Proof.
  intros Hm. unfold rounds_left. induction fuel as [|fuel IH]; intros reps errs timeouts running status v Hp He Ht Hf; cbn [rounds];
    (destruct (negb (running && succeeded status)); [by exists status, v|]; destruct (negb (channel_ready (v_ses v))); [by exists status, v|];
     destruct (Z.eqb_spec errs (max_failures m)) as [|Nf]; [eexists _, _; split; [reflexivity|]; apply keeps_ses; intros s; apply stand_down_patience|];
     destruct (Z.eqb_spec timeouts (max_timeouts m)) as [|Nt]; [eexists _, _; split; [reflexivity|]; apply keeps_ses; intros s; apply stand_down_patience|]);
    [nia|].
  pose proof (good_inlen m Hm). rewrite u64_small, Z.gtb_ltb, (proj2 (Z.ltb_ge menu_buf_size _)) by (lia || (unfold menu_buf_size; lia)).
  set (greeting := match short_greeting_sound m with Some _ => _ | None => _ end).
  destruct (collect_total i m greeting (inlen m) (store i [] v) Hm) as (st & d & v1 & -> & Hc & Hp1 & Hb). cbn [rbind].
  change (v_ses (store i [] v)) with (v_ses v) in Hp1. change (v_count (store i [] v)) with (v_count v) in Hc.
  assert (Hk1 : keeps v v1) by (split; [done|lia]). pose proof (within_keeps _ _ Hp Hk1) as Hw1.
  assert (Hb' : v_buf v1 i = some_digits d) by (rewrite Hb; cbn; rewrite Nat.eqb_refl; by destruct d). rewrite Hb'.
  destruct (timed_out st && bool_decide (some_digits d = [])).
  { destruct (IH (reps + 1) errs (timeouts + 1) running status v1) as (st' & v' & -> & Hk'); [done|lia|lia|nia|].
    exists st', v'. split; [done|]. by transitivity v1. }
  destruct (answer_total i m (mk_turn false errs reps running status []) v1 Hm) as (t & v2 & -> & Hk2 & He2); [done|cbn; lia|].
  cbn [rbind]. rewrite Hb' in He2. cbn in He2.
  destruct (IH (t_reps t + 1) (t_errs t) timeouts (t_running t) (t_status t) v2) as (st' & v' & -> & Hk'); [by apply (within_keeps v1)|case_bool_decide; lia|lia| |].
  - destruct Hk2 as [_ Hp2]. case_bool_decide as Ed; [nia|]. destruct (some_digits d); [done|]. cbn in Hp1. nia.
  - exists st', v'. split; [done|]. transitivity v1; [done|]. by transitivity v2.
Qed.
End Level.

(** The rounds that a menu of the list may need. *)
Definition enough_rounds (fuel : nat) (p : nat) : Prop :=
  Forall (fun m => Z.of_nat p * (max_failures m + 1) + max_failures m + max_timeouts m <= Z.of_nat fuel) menus.
Lemma enough_less fuel p q : Forall good_menu menus -> enough_rounds fuel p -> (q <= p)%nat -> enough_rounds fuel q.
Proof.
  unfold enough_rounds. rewrite !Forall_forall. intros Hg He Hq m Hm. specialize (Hg m Hm). specialize (He m Hm).
  pose proof (good_failures m Hg). nia.
Qed.
Lemma enter_total execute fuel i m v : good_menu m -> rounds_left m 0 0 (v_ses v) <= Z.of_nat fuel ->
  (forall name w, within (v_count v) (patience (v_ses v)) w -> exists st w', execute name w = Ret (st, w') /\ keeps w w') ->
  exists st v', enter garbage execute fuel i m v = Ret (st, v') /\ keeps v v'.
Proof.
  intros Hm Hf Hex. unfold enter.
  set (v1 := ivr_send_event MENU_EVENT_ENTER m _). set (r := match filled (pin m) with Some _ => _ | None => _ end).
  assert (Hk1 : keeps v v1).
  { unfold v1. transitivity (with_ses (set_voice m) v); [apply keeps_ses, set_voice_patience|].
    transitivity (with_ses (set_variable (chars "ivr_menu_status") (chars "success")) (with_ses (set_voice m) v)); [|apply event_keeps].
    apply keeps_ses. intros s. apply patience_variable. }
  assert (Hr : (patience (snd r) <= patience (v_ses v1))%nat).
  { unfold r. destruct (filled (pin m)) as [p|]; [|done]. pose proof (patience_get (u32 (zlen p)) (prompt_pin_file m) (bad_pin_file m) (94 :: p ++ [36]) (v_ses v1)).
    by destruct (switch_play_and_get_digits _ _ _ _ (v_ses v1)). }
  destruct r as [granted s]. cbn [snd] in Hr. destruct Hk1 as [Hc Hp]. destruct granted; [|eexists _, _; split; [reflexivity|]; split; [done|cbn; lia]].
  pose proof (good_failures m Hm). pose proof (good_timeouts m Hm).
  destruct (rounds_total execute (v_count v) (patience (v_ses v)) Hex i m Hm fuel 0 0 0 true SWITCH_STATUS_SUCCESS (v1 <| v_ses := s |>)) as (st & v2 & -> & Hc2 & Hp2);
    [split; [exact Hc|cbn; lia]|lia|lia|unfold rounds_left in *; cbn in *; nia|].
  cbn [rbind]. cbn in Hc2, Hp2. assert (Hk2 : keeps v v2) by (split; [congruence|lia]).
  destruct (v_count v2 =? 1); [|by exists st, v2]. destruct (filled (exit_sound m)) as [sound|]; [|by exists st, v2].
  destruct (collect_keeps i m (Some sound) 0 v2 Hm) as (st' & v' & -> & Hk). exists st', v'. split; [done|]. by transitivity v2.
Qed.

Lemma execute_total (Hg : Forall good_menu menus) (Hne : menus <> []) fuel : forall levels name v, 12 <= v_count v + Z.of_nat levels ->
  enough_rounds fuel (patience (v_ses v)) ->
  exists st v', switch_ivr_menu_execute menus garbage levels fuel name v = Ret (st, v') /\ keeps v v'.
Proof.
  induction levels as [|levels IH]; intros name v Hl Hf; cbn [switch_ivr_menu_execute];
    (destruct (head menus) as [top|] eqn:Et; [|by destruct menus]); cbn [or_ub rbind];
    (destruct (_ || _) eqn:Ex; [eexists _, _; split; [reflexivity|]; split; [cbn; lia|done]|]);
    apply orb_false_elim in Ex as [Ex _]; cbn in Ex; rewrite Z.gtb_ltb in Ex; apply Z.ltb_ge in Ex; [lia|].
  destruct (find_spec menus name (Forall_impl _ _ _ Hg good_name)) as (i & -> & Hi). cbn [rbind].
  destruct i as [i|]; [|eexists _, _; split; [reflexivity|]; split; [cbn; lia|done]].
  destruct Hi as (m & Em & _). rewrite Em. cbn [or_ub rbind].
  assert (Hm : good_menu m) by (by apply (Forall_lookup_1 _ _ _ _ Hg Em)).
  pose proof (Forall_lookup_1 _ _ _ _ Hf Em) as Hfm. cbv beta in Hfm.
  destruct (enter_total (switch_ivr_menu_execute menus garbage levels fuel) fuel i m (v <| v_count ::= fun n => n + 1 |>) Hm) as (st & v1 & -> & Hc & Hp).
  - unfold rounds_left. cbn. lia.
  - intros n w [Hw1 Hw2]. cbn in Hw1, Hw2. apply IH; [lia|by apply (enough_less _ (patience (v_ses v)))].
  - cbn [rbind]. eexists _, _. split; [reflexivity|]. transitivity (v1 <| v_count ::= fun n => n - 1 |>); [|apply event_keeps].
    split; [cbn in *; lia|exact Hp].
Qed.
End Returns.

(** C10: Menus end for every caller who does not enter digits for ever: whatever the
    menus of the list are, with named menus, room for their digits and patterns that
    can be tried, with actions that lead anywhere, also round in circles, a visit
    returns a status.  Twelve levels and, in each, so many rounds are enough: one for
    each failure and each timeout that is allowed, and for each digit those for the
    failures that are allowed again.  The count of levels is that before. *)
Theorem menus_end {P : pcre} {St : Type} {I : ivr_session St} {H : patient St I} (menus : list (menu St)) (garbage : list Z) (fuel : nat)
    (name : list Z) (v : ivr_state St) : Forall (good_menu garbage) menus -> menus <> [] -> 0 <= v_count v ->
  Forall (fun m => Z.of_nat (patience (v_ses v)) * (max_failures m + 1) + max_failures m + max_timeouts m <= Z.of_nat fuel) menus ->
  exists status v', switch_ivr_menu_execute menus garbage 12 fuel name v = Ret (status, v') /\ v_count v' = v_count v /\
    (patience (v_ses v') <= patience (v_ses v))%nat.
Proof. intros Hg Hne Hc Hf. destruct (execute_total menus garbage Hg Hne fuel 12 name v ltac:(lia) Hf) as (st & v' & E & Hk). by exists st, v'. Qed.
