(* ===== verification/IvrMenuRules.v ===== *)
(** * IvrMenuRules: where menus lead

    Rules for what a caller meets in the menus of a list, which know neither buffers
    nor flags nor loops over actions: a menu is visited, and left back to where it
    was entered from, to the top, or altogether.  Menus no two of whose actions answer
    the same digits and that do not lead back to themselves follow them; actions may
    be bound to patterns and to functions, and menus have voices. *)
From S2P Require Import Prelude CoreHash UrlCode TextUtil NetList EventText Regex DateTime IvrMenu IvrMenuProps.
From Stdlib Require Import ZArith Lia.
From stdpp Require Import base numbers option list strings.

Local Open Scope Z_scope.

(** ** Rules *)
Inductive outcome := Back | Top | Leave (status : switch_status).
Definition status_of (o : outcome) : switch_status :=
  match o with Back => SWITCH_STATUS_SUCCESS | Top => SWITCH_STATUS_BREAK | Leave status => status end.
Definition is_top (o : outcome) : bool := match o with Top => true | _ => false end.

Section Rules.
Context {P : pcre} {St : Type} {I : ivr_session St} (menus : list (menu St)) (garbage : list Z).

Definition named (name : list Z) : option (menu St) := List.find (fun m => bool_decide (m_name m = Some name)) menus.
(** The argument an action is given when it answers digits: those it is bound to, or
    those its pattern matches. *)
Definition answers (ap : menu_action St) (digits : list Z) : option (list Z) :=
  match matches garbage ap digits with Ret (true, arg) => Some arg | _ => None end.
(** The action for digits with its argument, and the numbers of actions that are
    looked at up to it and behind it. *)
Fixpoint answering (aps : list (menu_action St)) (digits : list Z) : option (nat * menu_action St * list Z * nat) :=
  match aps with
  | [] => None
  | ap :: aps =>
    match answers ap digits with
    | Some arg => Some (1%nat, ap, arg, length aps)
    | None => match answering aps digits with Some (n, ap, arg, k) => Some (S n, ap, arg, k) | None => None end
    end
  end.
(** What is to be done: a function says it. *)
Definition todo_of (ap : menu_action St) (arg : list Z) (s : St) : ivr_action * list Z * St :=
  match a_function ap with Some f => f arg [] s | None => (a_action ap, arg, s) end.
(** The voice of the menu is set for every action that is looked at. *)
Fixpoint speak (m : menu St) (n : nat) (s : St) : St := match n with O => s | S n => speak m n (set_voice m s) end.

(** A caller is announced and has the PIN, if there is one. *)
Definition arrive (m : menu St) (s : St) : bool * St :=
  let s := send_event MENU_EVENT_ENTER (m_name m) (set_variable (chars "ivr_menu_status") (chars "success") (set_voice m s)) in
  match filled (pin m) with
  | None => (true, s)
  | Some p => let '(status, s) := switch_play_and_get_digits (u32 (zlen p)) (prompt_pin_file m) (bad_pin_file m) (94 :: p ++ [36]) s in (succeeded status, s)
  end.
(** The short greeting is for those who have been there. *)
Definition hear (m : menu St) (reps : Z) (s : St) : res (switch_status * option (list Z) * St) :=
  gather m (match short_greeting_sound m with Some g => if reps >? 0 then Some g else greeting_sound m | None => greeting_sound m end) (inlen m) s.
Definition listens (m : menu St) (errs timeouts : Z) (s : St) : Prop :=
  channel_ready s = true /\ errs <> max_failures m /\ timeouts <> max_timeouts m.
Definition apologize (m : menu St) (digits : list Z) (s : St) : res St :=
  match digits, invalid_sound m with
  | _ :: _, Some sound => '(_, _, s) <-! gather m (Some sound) 0 s;; Ret s
  | _, _ => Ret s
  end.
Definition run_app (m : menu St) (arg : list Z) (s : St) : res (bool * St) :=
  match arg with
  | [] => Ret (false, s)
  | _ =>
    let '(name, data) := match split_at 32 arg with Some (a, d) => (a, Some d) | None => (arg, None) end in
    if has_application name s then
      s <-! match filled (transfer_sound m) with
            | Some sound => if bool_decide (name = chars "transfer") then '(_, _, s) <-! gather m (Some sound) 0 s;; Ret s else Ret s
            | None => Ret s
            end;;
      Ret (true, execute_application name data s)
    else Ret (false, s)
  end.
(** The first menu is the top. *)
Definition after_menu (m : menu St) (o : outcome) : Z + outcome :=
  match o with
  | Back => inl (-1)
  | Top => if m_stack m then inl (-1) else inr Top
  | Leave status => inr (Leave status)
  end.

(** [visits level name s o s']: a caller who enters a menu.  [stays level m reps errs
    timeouts s o s']: a caller in a menu, who has come round so often, with so many
    failures in a row and so many silences.  [acts level m action arg reps s r s']: an
    action, behind which the caller stays, as if there for so many rounds, or leaves. *)
Inductive visits : Z -> list Z -> St -> outcome -> St -> Prop :=
| too_deep level name s : 12 <= level -> visits level name s (Leave SWITCH_STATUS_FALSE) s
| no_menu level name s : level < 12 -> name = [] \/ named name = None -> visits level name s (Leave SWITCH_STATUS_FALSE) s
| not_granted level name s m s' : level < 12 -> name <> [] -> named name = Some m -> arrive m s = (false, s') ->
    visits level name s (Leave SWITCH_STATUS_FALSE) (send_event MENU_EVENT_EXIT (m_name m) s')
| visit level name s m s1 o s2 : level < 12 -> name <> [] -> named name = Some m -> arrive m s = (true, s1) ->
    stays (level + 1) m 0 0 0 s1 o s2 -> level <> 0 \/ filled (exit_sound m) = None ->
    visits level name s o (send_event MENU_EVENT_EXIT (m_name m) s2)
| farewell name s m s1 o s2 sound status d s3 : name <> [] -> named name = Some m -> arrive m s = (true, s1) ->
    stays 1 m 0 0 0 s1 o s2 -> filled (exit_sound m) = Some sound -> gather m (Some sound) 0 s2 = Ret (status, d, s3) ->
    visits 0 name s (Leave status) (send_event MENU_EVENT_EXIT (m_name m) s3)
with stays : Z -> menu St -> Z -> Z -> Z -> St -> outcome -> St -> Prop :=
| gone level m reps errs timeouts s : channel_ready s = false -> stays level m reps errs timeouts s Back s
| too_many_failures level m reps timeouts s : channel_ready s = true ->
    stays level m reps (max_failures m) timeouts s Back (stand_down (chars "failure") (exec_on_max_fail m) s)
| too_many_timeouts level m reps errs s : channel_ready s = true -> errs <> max_failures m ->
    stays level m reps errs (max_timeouts m) s Back (stand_down (chars "timeout") (exec_on_max_timeout m) s)
| silence level m reps errs timeouts s status d s1 o s' : listens m errs timeouts s -> hear m reps s = Ret (status, d, s1) ->
    timed_out status = true -> default [] d = [] -> stays level m (reps + 1) errs (timeouts + 1) s1 o s' -> stays level m reps errs timeouts s o s'
| no_answer level m reps errs timeouts s status d s1 s2 o s' : listens m errs timeouts s -> hear m reps s = Ret (status, d, s1) ->
    timed_out status && bool_decide (default [] d = []) = false -> answering (actions m) (default [] d) = None ->
    apologize m (default [] d) (speak m (match default [] d with [] => 0 | _ => length (actions m) end)%nat s1) = Ret s2 ->
    stays level m (reps + 1) (errs + 1) timeouts s2 o s' -> stays level m reps errs timeouts s o s'
| answered level m reps errs timeouts s status d s1 n ap arg k todo aptr s2 reps' s3 o s' : listens m errs timeouts s -> hear m reps s = Ret (status, d, s1) ->
    answering (actions m) (default [] d) = Some (n, ap, arg, k) -> todo_of ap arg (speak m n s1) = (todo, aptr, s2) ->
    acts level m todo aptr reps s2 (inl reps') s3 ->
    stays level m (reps' + 1) 0 timeouts (speak m k s3) o s' -> stays level m reps errs timeouts s o s'
| left_by level m reps errs timeouts s status d s1 n ap arg k todo aptr s2 o s3 : listens m errs timeouts s -> hear m reps s = Ret (status, d, s1) ->
    answering (actions m) (default [] d) = Some (n, ap, arg, k) -> todo_of ap arg (speak m n s1) = (todo, aptr, s2) ->
    acts level m todo aptr reps s2 (inr o) s3 -> stays level m reps errs timeouts s o (speak m k s3)
with acts : Z -> menu St -> ivr_action -> list Z -> Z -> St -> Z + outcome -> St -> Prop :=
| act_die level m arg reps s : acts level m ACTION_DIE arg reps s (inr (Leave SWITCH_STATUS_FALSE)) s
| act_back level m arg reps s : acts level m ACTION_BACK arg reps s (inr Back) s
| act_noop level m arg reps s : acts level m ACTION_NOOP arg reps s (inl reps) s
| act_top level m arg reps s : acts level m ACTION_TOMAIN arg reps s (if m_stack m then inl reps else inr Top) s
| act_play level m arg reps s status d s' : switch_ivr_play_file arg None s = (status, d, s') ->
    acts level m ACTION_PLAYSOUND arg reps s (if succeeded status then inl reps else inr (Leave status)) s'
| act_app level m arg reps s ok s' : run_app m arg s = Ret (ok, s') ->
    acts level m ACTION_EXECAPP arg reps s (if ok then inl reps else inr (Leave SWITCH_STATUS_FALSE)) s'
| act_same level m arg reps s : m_name m = Some arg -> acts level m ACTION_EXECMENU arg reps s (inl reps) s
| act_menu level m arg reps s o s' : m_name m <> Some arg -> visits level arg (send_event MENU_EVENT_EXIT (m_name m) s) o s' ->
    acts level m ACTION_EXECMENU arg reps s (after_menu m o) (send_event MENU_EVENT_ENTER (m_name m) s').
End Rules.

(** ** The code follows them *)
Section Follow.
Context {P : pcre} {St : Type} {I : ivr_session St} (menus : list (menu St)) (garbage : list Z) (rank : nat -> nat).

(** No two actions answer the same digits, none answers no digits at all, and what
    actions, patterns and functions lead to are menus of a lower rank. *)
Definition leads_down (i : nat) (m : menu St) (ap : menu_action St) : Prop := forall d arg s todo aptr s',
  answers garbage ap d = Some arg -> todo_of ap arg s = (todo, aptr, s') -> todo = ACTION_EXECMENU -> m_name m <> Some aptr ->
  forall j k, menus !! j = Some k -> m_name k = Some aptr -> (rank j < rank i)%nat.
Record tidy_menu (i : nat) (m : menu St) : Prop := {
  tidy_name : m_name m <> None;
  tidy_silent : Forall (fun ap => answers garbage ap [] = None) (actions m);
  tidy_leads : Forall (leads_down i m) (actions m);
  tidy_binds : ForallOrdPairs (fun a b => forall d, answers garbage a d = None \/ answers garbage b d = None) (actions m)
}.

(** Only buffers of menus below [r] are written. *)
Definition spares (r : nat) (v v' : ivr_state St) : Prop := v_count v' = v_count v /\ forall j, (r <= rank j)%nat -> v_buf v' j = v_buf v j.
#[local] Instance spares_preorder r : PreOrder (spares r).
Proof. split; [by intros v|]. intros a b c [H1 H2] [H3 H4]. split; [congruence|]. intros j Hj. by rewrite H4, H2. Qed.
Lemma spares_ses r f v : spares r v (with_ses f v).
Proof. done. Qed.
Lemma spares_less r q v v' : (r <= q)%nat -> spares r v v' -> spares q v v'.
Proof. intros Hrq [H1 H2]. split; [done|]. intros j Hj. apply H2. lia. Qed.
Lemma store_spares r i d v : (rank i < r)%nat -> spares r v (store i d v).
Proof. intros Hi. split; [done|]. intros j Hj. cbn. destruct (Nat.eqb_spec j i) as [->|]; [lia|done]. Qed.

Lemma collect_gather i m sound need v st v' : play_and_collect i m sound need v = Ret (st, v') ->
  exists d, gather m sound need (v_ses v) = Ret (st, d, v_ses v') /\ v_fall v' = v_fall v /\ v_buf v' i = default (v_buf v i) d /\
    forall r, (rank i < r)%nat -> spares r v v'.
Proof.
  unfold play_and_collect. destruct (gather m sound need (v_ses v)) as [[[st' d] s']| |]; [|done|done]. cbn [rbind]. intros [= <- <-].
  exists d. destruct d as [d|]; cbn; rewrite ?Nat.eqb_refl; (split_and!; [done|done|done|]); intros r Hr.
  - split; [done|]. intros j Hj. cbn. destruct (Nat.eqb_spec j i) as [->|]; [lia|done].
  - done.
Qed.
(** Digits come with the buffer that held them; playing without collecting empties
    it or leaves it. *)
Lemma gather_nothing m sound s st d s' : gather m sound 0 s = Ret (st, d, s') -> d = None \/ d = Some [].
Proof.
  unfold gather. destruct (filled sound) as [t|]; [|intros [= _ <- _]; by left]. destruct (expand_variables t s) as [t' s1].
  destruct (_ >? _); [done|]. cbn. destruct (switch_ivr_play_file _ _ s1) as [[? ?] ?]. intros [= _ <- _]. by right.
Qed.

Section Level.
Context (execute : list Z -> ivr_state St -> res (switch_status * ivr_state St)) (i : nat) (m : menu St) (Hm : tidy_menu i m).
(** How a visit shows in the state behind it. *)
Definition visited (r : nat) (name : list Z) (v : ivr_state St) (st : switch_status) (v' : ivr_state St) : Prop :=
  exists o, visits menus garbage (v_count v) name (v_ses v) o (v_ses v') /\ st = status_of o /\ v_fall v' = is_top o /\
    match o with Leave status => succeeded status = false | _ => True end /\ spares r v v'.
(** Menus below are visited. *)
Context (Hex : forall name v st v', (forall j k, menus !! j = Some k -> m_name k = Some name -> (rank j < rank i)%nat) -> 0 < v_count v -> v_fall v = false ->
  execute name v = Ret (st, v') -> visited (rank i) name v st v').

(** How an action shows. *)
Definition shows (r : Z + outcome) (t : turn) (v : ivr_state St) : Prop :=
  match r with
  | inl reps => t_running t = true /\ t_status t = SWITCH_STATUS_SUCCESS /\ t_reps t = reps /\ v_fall v = false
  | inr o => t_running t && succeeded (t_status t) = false /\ t_status t = status_of o /\ v_fall v = is_top o /\
             match o with Leave status => succeeded status = false | Top => m_stack m = false | Back => True end
  end.
(** The flag is looked at behind the actions. *)
Definition settle (t : turn) (v : ivr_state St) : turn * ivr_state St :=
  if m_stack m && v_fall v then (t <| t_status := SWITCH_STATUS_SUCCESS |> <| t_running := true |>, v <| v_fall := false |>) else (t, v).
(** The buffer of the menu holds the digits still, or none. *)
Definition same_digits (v v' : ivr_state St) : Prop := spares (S (rank i)) v v' /\ (v_buf v' i = v_buf v i \/ v_buf v' i = []).

Lemma same_kept v v' : v_count v' = v_count v -> v_buf v' = v_buf v -> same_digits v v'.
Proof. intros Hc Hb. split; [split; [done|by rewrite Hb]|left; by rewrite Hb]. Qed.
Lemma perform_app arg t v t' v' : perform execute i m ACTION_EXECAPP arg t v = Ret (t', v') ->
  exists ok, run_app m arg (v_ses v) = Ret (ok, v_ses v') /\ v_fall v' = v_fall v /\ same_digits v v' /\
    t' = t <| t_status := if ok then SWITCH_STATUS_SUCCESS else SWITCH_STATUS_FALSE |>.
Proof.
  cbn [perform]. unfold run_app. destruct arg as [|c arg]; [intros [= <- <-]; exists false; split; [done|]; split; [done|]; split; [by apply same_kept|done]|].
  destruct (match split_at 32 (c :: arg) with Some _ => _ | None => _ end) as [name data].
  destruct (has_application name (v_ses v)); [|intros [= <- <-]; exists false; split; [done|]; split; [done|]; split; [by apply same_kept|done]].
  destruct (filled (transfer_sound m)) as [sound|]; [|intros [= <- <-]; exists true; split; [done|]; split; [done|]; split; [by apply same_kept|done]].
  case_bool_decide; [|intros [= <- <-]; exists true; split; [done|]; split; [done|]; split; [by apply same_kept|done]].
  destruct (play_and_collect i m (Some sound) 0 v) as [[st v1]| |] eqn:E; [|done|done]. cbn [rbind]. intros [= <- <-].
  destruct (collect_gather _ _ _ _ _ _ _ E) as (d & Eg & Hf & Hb & Hs). rewrite Eg. cbn [rbind]. exists true. split; [done|]. split; [done|]. split; [|done].
  split; [by apply Hs; lia|]. cbn. rewrite Hb. destruct (gather_nothing _ _ _ _ _ _ Eg) as [->| ->]; [by left|by right].
Qed.

Lemma perform_rules todo aptr t v t' v' :
  (todo = ACTION_EXECMENU -> m_name m <> Some aptr -> forall j k, menus !! j = Some k -> m_name k = Some aptr -> (rank j < rank i)%nat) ->
  0 < v_count v -> v_fall v = false -> t_running t = true ->
  perform execute i m todo aptr t v = Ret (t', v') ->
  let (t2, v2) := settle t' v' in
  exists r, acts menus garbage (v_count v) m todo aptr (t_reps t) (v_ses v) r (v_ses v2) /\ shows r t2 v2 /\ same_digits v v' /\
    t_match t' = t_match t /\ t_errs t' = t_errs t.
Proof.
  intros Hlead Hc Hf Hrun. unfold settle. destruct todo eqn:Ea.
  - intros [= <- <-]. rewrite Hf, andb_false_r. eexists. split; [constructor|]. split; [split; [cbn; by rewrite andb_false_r|done]|]. split; [by apply same_kept|done].
  - cbn [perform]. destruct (m_name m) as [n|] eqn:En; [|by destruct (tidy_name i m Hm)]. cbn [or_ub rbind]. case_bool_decide as E.
    { intros [= <- <-]. rewrite Hf, andb_false_r. eexists. split; [apply act_same; by rewrite En, E|]. split; [done|]. split; [by apply same_kept|done]. }
    destruct (execute aptr (ivr_send_event MENU_EVENT_EXIT m v)) as [[st v1]| |] eqn:Ex; [|done|done]. cbn [rbind]. intros [= <- <-].
    destruct (Hex aptr (ivr_send_event MENU_EVENT_EXIT m v) st v1 (Hlead eq_refl ltac:(congruence)) Hc Hf Ex) as (o & Hv & -> & Hfall & Ho & Hs).
    assert (Hsd : same_digits v (ivr_send_event MENU_EVENT_ENTER m v1)).
    { split; [by apply (spares_less (rank i)); [lia|]|]. left. by apply Hs. }
    assert (Hact : acts menus garbage (v_count v) m ACTION_EXECMENU aptr (t_reps t) (v_ses v) (after_menu m o) (send_event MENU_EVENT_ENTER (m_name m) (v_ses v1))).
    { apply act_menu; [congruence|]. exact Hv. }
    destruct (m_stack m && v_fall _) eqn:Ecatch; exists (after_menu m o); (split; [exact Hact|]); (split; [|by split]); cbn in Ecatch; rewrite Hfall in Ecatch.
    + apply andb_prop in Ecatch as [Es Eo]. destruct o; try done. cbn. rewrite Es. by split_and!.
    + destruct o; cbn in *; [by split_and!| |].
      * rewrite andb_true_r in Ecatch. rewrite Ecatch. split_and!; [by rewrite andb_false_r|done|done|done].
      * split_and!; [by rewrite Ho, andb_false_r|done|done|done].
  - intros E. destruct (perform_app _ _ _ _ _ E) as (ok & Er & Hf' & Hsd & ->). rewrite Hf', Hf, andb_false_r.
    eexists. split; [by apply act_app|]. split; [|by split]. destruct ok; cbn; split_and!; try done; try congruence. by rewrite andb_false_r.
  - cbn [perform]. destruct (switch_ivr_play_file aptr None (v_ses v)) as [[st d] s] eqn:Ep. intros [= <- <-]. cbn. rewrite Hf, andb_false_r.
    eexists. split; [by eapply act_play|]. split; [|split; [by apply same_kept|done]]. destruct (succeeded st) eqn:Es; cbn.
    + split_and!; try done. by destruct st.
    + split_and!; try done. by rewrite Es, andb_false_r.
  - intros [= <- <-]. rewrite Hf, andb_false_r. eexists. split; [constructor|]. split; [done|]. split; [by apply same_kept|done].
  - intros [= <- <-]. cbn. rewrite andb_true_r. destruct (m_stack m) eqn:Es; eexists; (split; [apply act_top|]); rewrite Es; (split; [cbn; rewrite ?andb_false_r; by split_and!|]); (split; [by apply same_kept|done]).
  - intros [= <- <-]. rewrite Hf, andb_false_r. eexists. split; [constructor|]. split; [done|]. split; [by apply same_kept|done].
Qed.
(** One action at most answers. *)
Lemma loop_none aps : forall t v t' v', Forall (fun ap => answers garbage ap (v_buf v i) = None) aps ->
  actions_loop garbage execute i m aps t v = Ret (t', v') -> t' = t /\ v' = with_ses (speak m (length aps)) v.
Proof.
  induction aps as [|ap aps IH]; intros t v t' v' Hn; cbn [actions_loop length speak]; [intros [= <- <-]; by destruct v|].
  apply Forall_cons in Hn as [Hap Hn]. unfold answers in Hap. change (v_buf (with_ses (set_voice m) v) i) with (v_buf v i).
  destruct (matches garbage ap (v_buf v i)) as [[[|] arg]| |]; [done| |done|done]. cbn [rbind]. intros E.
  by destruct (IH t (with_ses (set_voice m) v) t' v' Hn E) as [-> ->].
Qed.
Lemma loop_one aps : forall t v t' v', t_arg t = [] -> Forall (fun ap => answers garbage ap [] = None) aps ->
  ForallOrdPairs (fun a b => forall d, answers garbage a d = None \/ answers garbage b d = None) aps ->
  actions_loop garbage execute i m aps t v = Ret (t', v') ->
  match answering garbage aps (v_buf v i) with
  | None => t' = t /\ v' = with_ses (speak m (length aps)) v
  | Some (n, ap, arg, k) => ap ∈ aps /\ answers garbage ap (v_buf v i) = Some arg /\
      exists todo aptr s x t1 v1, todo_of ap arg (speak m n (v_ses v)) = (todo, aptr, s) /\
      perform execute i m todo aptr (mk_turn true 0 (t_reps t) (t_running t) (t_status t) x) (v <| v_ses := s |>) = Ret (t1, v1) /\
      (same_digits v v1 -> t' = t1 /\ v' = with_ses (speak m k) v1)
  end.
Proof.
  induction aps as [|ap aps IH]; intros t v t' v' Harg Hsil Hex1; cbn [actions_loop answering]; [intros [= <- <-]; by destruct v|].
  apply Forall_cons in Hsil as [_ Hsil]. inversion Hex1 as [|? ? Hothers Hex2]; subst.
  change (v_buf (with_ses (set_voice m) v) i) with (v_buf v i). unfold answers at 1.
  destruct (matches garbage ap (v_buf v i)) as [[[|] arg]| |] eqn:Em; [| |done|done]; cbn [rbind].
  - intros E. split; [left|]. assert (Ha : answers garbage ap (v_buf v i) = Some arg) by (unfold answers; by rewrite Em). split; [done|].
    cbn [speak]. destruct (todo_of ap arg (set_voice m (v_ses v))) as [[todo aptr] s] eqn:Et. unfold todo_of in Et.
    assert (E' : exists x, ('(t, v) <-! perform execute i m todo aptr (mk_turn true 0 (t_reps t) (t_running t) (t_status t) x) (v <| v_ses := s |>);;
      actions_loop garbage execute i m aps t v) = Ret (t', v')).
    { destruct (a_function ap) as [f|].
      - rewrite Harg in E. cbn [v_ses with_ses set] in E. change (v_ses (with_ses (set_voice m) v)) with (set_voice m (v_ses v)) in E. rewrite Et in E. by exists aptr.
      - injection Et as <- <- <-. by exists (t_arg t). }
    destruct E' as [x E']. destruct (perform execute i m todo aptr _ _) as [[t1 v1]| |] eqn:Ep; [|done|done]. cbn [rbind] in E'.
    exists todo, aptr, s, x, t1, v1. split; [done|]. split; [exact Ep|]. intros [_ Hbuf]. apply (loop_none aps t1 v1 t' v'); [|done].
    destruct Hbuf as [->| ->]; [|done]. apply (Forall_impl _ _ _ Hothers). intros b Hb. destruct (Hb (v_buf v i)) as [H|H]; [congruence|done].
  - intros E. specialize (IH t (with_ses (set_voice m) v) t' v' Harg Hsil Hex2 E).
    change (v_buf (with_ses (set_voice m) v) i) with (v_buf v i) in IH.
    destruct (answering garbage aps (v_buf v i)) as [[[[n ap'] arg'] k]|]; [|exact IH].
    destruct IH as (Hin & Ha & H). split; [by right|]. split; [exact Ha|exact H].
Qed.
Lemma answering_none (aps : list (menu_action St)) : Forall (fun ap => answers garbage ap [] = None) aps -> answering garbage aps [] = None.
Proof. intros Ha. induction Ha as [|ap aps Hap _ IH]; [done|]. cbn [answering]. by rewrite Hap, IH. Qed.
Lemma answer_none_rules reps errs v t' v' b arg : answer_none i m (mk_turn b errs reps true SWITCH_STATUS_SUCCESS arg) v = Ret (t', v') ->
  apologize m (v_buf v i) (v_ses v) = Ret (v_ses v') /\ v_fall v' = v_fall v /\ spares (S (rank i)) v v' /\
  t_errs t' = errs + 1 /\ t_reps t' = reps /\ t_running t' = true /\ t_status t' = SWITCH_STATUS_SUCCESS.
Proof.
  unfold answer_none, apologize. destruct (v_buf v i) as [|x d]; [by intros [= <- <-]|]. destruct (invalid_sound m) as [sound|]; [|by intros [= <- <-]].
  destruct (play_and_collect i m (Some sound) 0 v) as [[st v1]| |] eqn:E; [|done|done]. cbn [rbind]. intros [= <- <-].
  destruct (collect_gather _ _ _ _ _ _ _ E) as (d' & -> & Hf & _ & Hs). split; [done|]. split; [done|]. split; [apply Hs; lia|done].
Qed.

Lemma answer_rules reps errs v t' v' : 0 < v_count v -> v_fall v = false ->
  answer garbage execute i m (mk_turn false errs reps true SWITCH_STATUS_SUCCESS []) v = Ret (t', v') ->
  spares (S (rank i)) v v' /\
  match answering garbage (actions m) (v_buf v i) with
  | Some (n, ap, arg, k) => exists todo aptr s r s3, todo_of ap arg (speak m n (v_ses v)) = (todo, aptr, s) /\
      acts menus garbage (v_count v) m todo aptr reps s r s3 /\ v_ses v' = speak m k s3 /\ shows r t' v' /\ t_errs t' = 0
  | None => apologize m (v_buf v i) (speak m (match v_buf v i with [] => 0 | _ => length (actions m) end)%nat (v_ses v)) = Ret (v_ses v') /\ v_fall v' = false /\
            t_errs t' = errs + 1 /\ t_reps t' = reps /\ t_running t' = true /\ t_status t' = SWITCH_STATUS_SUCCESS
  end.
Proof.
  intros Hc Hf. unfold answer. destruct (v_buf v i) as [|x d] eqn:Eb.
  { rewrite answering_none by apply Hm. intros E. apply answer_none_rules in E as (Hap & Hf' & Hs & Ht). rewrite Eb in Hap. split; [done|]. split; [done|]. split; [congruence|done]. }
  destruct (actions_loop _ _ _ _ _ _ v) as [[t1 v1]| |] eqn:El; [|done|done]. cbn [rbind].
  pose proof (loop_one (actions m) (mk_turn false errs reps true SWITCH_STATUS_SUCCESS []) v t1 v1 eq_refl (tidy_silent i m Hm) (tidy_binds i m Hm) El) as Hl. rewrite Eb in Hl.
  destruct (answering garbage (actions m) (x :: d)) as [[[[n ap] arg] k]|].
  - destruct Hl as (Hin & Ha & todo & aptr & s & y & t2 & v2 & Et & Ep & Hsame). pose proof (tidy_leads i m Hm) as Hlead. rewrite Forall_forall in Hlead.
    pose (w := v <| v_ses := s |>).
    pose proof (perform_rules todo aptr (mk_turn true 0 reps true SWITCH_STATUS_SUCCESS y) w t2 v2
      (fun E1 E2 => Hlead ap Hin _ _ _ _ _ _ Ha Et E1 E2) Hc Hf eq_refl Ep) as Hr.
    destruct (settle t2 v2) as [t3 v3] eqn:Es. destruct Hr as (r & Hact & Hsh & Hsd & Hm2 & He2).
    assert (Hsd' : same_digits v v2) by exact Hsd. destruct (Hsame Hsd') as [-> ->]. cbn in Hm2, He2. intros E.
    assert (E' : (t3, with_ses (speak m k) v3) = (t', v')).
    { unfold settle in Es. change (v_fall (with_ses (speak m k) v2)) with (v_fall v2) in E. destruct (m_stack m && v_fall v2).
      - injection Es as <- <-. by injection E as <- <-.
      - injection Es as <- <-. rewrite Hm2 in E. by injection E as <- <-. }
    injection E' as <- <-. assert (Hk : spares (S (rank i)) v v3 /\ t_errs t3 = 0).
    { unfold settle in Es. destruct (m_stack m && v_fall v2); injection Es as <- <-; (split; [apply Hsd|done]). }
    split; [apply Hk|]. exists todo, aptr, s, r, (v_ses v3). split; [exact Et|]. split; [exact Hact|]. split; [done|]. split; [|apply Hk].
    unfold shows in *. by destruct r.
  - destruct Hl as [-> ->]. change (v_fall (with_ses (speak m (length (actions m))) v)) with (v_fall v). rewrite Hf, andb_false_r. cbn [t_match].
    intros E. apply answer_none_rules in E as (Hap & Hf' & Hs & Ht).
    change (v_buf (with_ses (speak m (length (actions m))) v) i) with (v_buf v i) in Hap. rewrite Eb in Hap.
    split; [exact Hs|]. split; [exact Hap|]. split; [rewrite Hf'; exact Hf|done].
Qed.

Lemma rounds_stop fuel reps errs timeouts running status v : running && succeeded status = false ->
  rounds garbage execute fuel i m reps errs timeouts running status v = Ret (status, v).
Proof. intros Hs. destruct fuel; cbn [rounds]; by rewrite Hs. Qed.
Lemma rounds_rules : forall fuel reps errs timeouts v st v', 0 < v_count v -> v_fall v = false ->
  rounds garbage execute fuel i m reps errs timeouts true SWITCH_STATUS_SUCCESS v = Ret (st, v') ->
  exists o, stays menus garbage (v_count v) m reps errs timeouts (v_ses v) o (v_ses v') /\ st = status_of o /\ v_fall v' = is_top o /\
    match o with Leave status => succeeded status = false | Top => m_stack m = false | Back => True end /\ spares (S (rank i)) v v'.
Proof.
  induction fuel as [|fuel IH]; intros reps errs timeouts v st v' Hc Hf; cbn [rounds andb succeeded negb];
    (destruct (channel_ready (v_ses v)) eqn:Eready; cbn [negb]; [|intros [= <- <-]; exists Back; split; [by constructor|done]]);
    (destruct (Z.eqb_spec errs (max_failures m)) as [->|Nf]; [intros [= <- <-]; exists Back; split; [by constructor|done]|]);
    (destruct (Z.eqb_spec timeouts (max_timeouts m)) as [->|Nt]; [intros [= <- <-]; exists Back; split; [by constructor|done]|]); [done|].
  destruct (_ >? menu_buf_size); [done|].
  destruct (play_and_collect _ _ _ _ _) as [[st1 v1]| |] eqn:E; [|done|done]. cbn [rbind].
  destruct (collect_gather _ _ _ _ _ _ _ E) as (d & Eg & Hf1 & Hb & Hs). assert (Hl : listens m errs timeouts (v_ses v)) by (by split_and!).
  assert (Hb1 : v_buf v1 i = default [] d) by (rewrite Hb; cbn; by rewrite Nat.eqb_refl). rewrite Hb1.
  assert (Hs1 : spares (S (rank i)) v v1) by (transitivity (store i [] v); [apply store_spares; lia|apply Hs; lia]).
  destruct Hs1 as [Hc1 Hs1]. assert (Hf1' : v_fall v1 = false) by (rewrite Hf1; exact Hf).
  destruct (timed_out st1 && bool_decide (default [] d = [])) eqn:Esil.
  { intros Er. destruct (IH _ _ _ v1 _ _ ltac:(lia) Hf1' Er) as (o & Hst & Ho & Hfo & Hh & Hso). rewrite Hc1 in Hst. exists o.
    apply andb_prop in Esil as [E1 E2]. apply bool_decide_eq_true in E2. split; [by eapply silence|]. split; [done|]. split; [done|]. split; [done|].
    transitivity v1; [by split|done]. }
  destruct (answer _ _ _ _ _ v1) as [[t2 v2]| |] eqn:Ea; [|done|done]. cbn [rbind].
  destruct (answer_rules reps errs v1 t2 v2 ltac:(lia) Hf1' Ea) as [[Hc2 Hs2] Hans]. rewrite Hb1, Hc1 in Hans.
  assert (Hs3 : spares (S (rank i)) v v2) by (split; [congruence|]; intros j Hj; rewrite Hs2 by done; by apply Hs1).
  destruct (answering garbage (actions m) (default [] d)) as [[[[n ap] arg] k]|] eqn:Eans.
  - destruct Hans as (todo & aptr & s & [reps'|o] & s3 & Et & Hact & Hses & Hsh & He).
    + destruct Hsh as (Hrun & Hst & Hre & Hfall). rewrite Hrun, Hst, He, Hre. intros Er.
      destruct (IH _ _ _ v2 _ _ ltac:(lia) Hfall Er) as (o & Hstay & Ho & Hfo & Hh & Hso). rewrite Hc2, Hc1, Hses in Hstay. exists o.
      split; [by eapply answered|]. split; [done|]. split; [done|]. split; [done|]. by transitivity v2.
    + destruct Hsh as (Hstop & Hst & Hfall & Hh). rewrite rounds_stop by done. intros [= <- <-]. exists o. rewrite Hses.
      split; [by eapply left_by|]. split; [done|]. split; [done|]. by split.
  - destruct Hans as (Hap & Hfall & He & Hre & Hrun & Hst). rewrite He, Hre, Hrun, Hst. intros Er.
    destruct (IH _ _ _ v2 _ _ ltac:(lia) Hfall Er) as (o & Hstay & Ho & Hfo & Hh & Hso). rewrite Hc2, Hc1 in Hstay. exists o.
    split; [by eapply no_answer|]. split; [done|]. split; [done|]. split; [done|]. by transitivity v2.
Qed.
End Level.

Lemma enter_arrive execute fuel i m v : enter garbage execute fuel i m v =
  let '(granted, s) := arrive m (v_ses v) in
  if granted then
    '(status, v) <-! rounds garbage execute fuel i m 0 0 0 true SWITCH_STATUS_SUCCESS (v <| v_ses := s |>);;
    if v_count v =? 1 then
      match filled (exit_sound m) with Some sound => play_and_collect i m (Some sound) 0 v | None => Ret (status, v) end
    else Ret (status, v)
  else Ret (SWITCH_STATUS_FALSE, v <| v_ses := s |>).
Proof.
  unfold enter, arrive. cbn. destruct (filled (pin m)) as [p|]; [|done].
  by destruct (switch_play_and_get_digits _ _ _ _ _).
Qed.

Lemma execute_enter levels fuel name v i m : head menus <> None -> v_count v + 1 <= 12 -> name <> [] ->
  switch_ivr_menu_find menus (Some name) = Ret (Some i) -> menus !! i = Some m ->
  switch_ivr_menu_execute menus garbage (S levels) fuel name v =
    ('(status, v) <-! enter garbage (switch_ivr_menu_execute menus garbage levels fuel) fuel i m (v <| v_count ::= fun n => n + 1 |>);;
     Ret (status, ivr_send_event MENU_EVENT_EXIT m (v <| v_count ::= fun n => n - 1 |>))).
Proof.
  intros Hh Hc Hn Hf Hi. cbn [switch_ivr_menu_execute]. destruct (head menus); [|done]. cbn [or_ub rbind]. rewrite bool_decide_false by done.
  rewrite Z.gtb_ltb, (proj2 (Z.ltb_ge 12 _)) by exact Hc. cbn [orb]. rewrite Hf. cbn [rbind]. by rewrite Hi.
Qed.

Context (Htidy : forall i m, menus !! i = Some m -> tidy_menu i m).
Lemma all_named : Forall (fun m => m_name m <> None) menus.
Proof. apply Forall_lookup. intros i m Em. apply (tidy_name i m), Htidy, Em. Qed.

Lemma execute_rules fuel : forall levels r name v st v', (forall j k, menus !! j = Some k -> m_name k = Some name -> (rank j < r)%nat) ->
  0 < v_count v -> v_fall v = false -> switch_ivr_menu_execute menus garbage levels fuel name v = Ret (st, v') -> visited r name v st v'.
Proof.
  induction levels as [|levels IH]; intros r name v st v' Hr Hc Hf; cbn [switch_ivr_menu_execute];
    (destruct (head menus) as [top|]; [|done]); cbn [or_ub rbind]; rewrite Z.gtb_ltb.
  - destruct (_ || _) eqn:Ex; [|done]. intros [= <- <-]. exists (Leave SWITCH_STATUS_FALSE). cbn in Ex.
    split; [|split; [done|]; split; [done|]; split; [done|]; split; [cbn; lia|done]]. apply orb_prop in Ex as [Ex|Ex].
    + apply too_deep. apply Z.ltb_lt in Ex. lia.
    + apply bool_decide_eq_true in Ex as ->. destruct (Z.le_gt_cases 12 (v_count v)); [by apply too_deep|apply no_menu; [lia|by left]].
  - destruct (_ || _) eqn:Ex.
    { intros [= <- <-]. exists (Leave SWITCH_STATUS_FALSE). cbn in Ex.
      split; [|split; [done|]; split; [done|]; split; [done|]; split; [cbn; lia|done]]. apply orb_prop in Ex as [Ex|Ex].
      + apply too_deep. apply Z.ltb_lt in Ex. lia.
      + apply bool_decide_eq_true in Ex as ->. destruct (Z.le_gt_cases 12 (v_count v)); [by apply too_deep|apply no_menu; [lia|by left]]. }
    apply orb_false_elim in Ex as [Ex Ene]. cbn in Ex. apply Z.ltb_ge in Ex. apply bool_decide_eq_false in Ene.
    destruct (find_spec menus name all_named) as (i & -> & Hi). cbn [rbind].
    destruct i as [i|].
    2: { intros [= <- <-]. exists (Leave SWITCH_STATUS_FALSE).
         split; [apply no_menu; [lia|by right]|]. split; [done|]. split; [done|]. split; [done|]. split; [cbn; lia|done]. }
    destruct Hi as (m & Em & Enm & Hnamed). rewrite Em. cbn [or_ub rbind]. pose proof (Htidy i m Em) as Hm. rewrite enter_arrive. cbn.
    destruct (arrive m (v_ses v)) as [granted s] eqn:Earr. destruct granted.
    2: { cbn. intros [= <- <-]. exists (Leave SWITCH_STATUS_FALSE). split; [by apply not_granted; [lia|..]|]. split; [done|]. split; [done|]. split; [done|]. split; [cbn; lia|done]. }
    destruct (rounds _ _ _ _ _ _ _ _ _ _ _) as [[st1 v1]| |] eqn:Er; [|done|done]. cbn [rbind].
    set (v0 := v <| v_count ::= fun n => n + 1 |> <| v_ses := s |>). assert (Hc0 : v_count v0 = v_count v + 1) by done.
    destruct (rounds_rules (switch_ivr_menu_execute menus garbage levels fuel) i m Hm (fun n w st w' Hn H1 H2 => IH (rank i) n w st w' Hn H1 H2) fuel 0 0 0
        v0 st1 v1 ltac:(lia) Hf Er)
      as (o & Hst & -> & Hfo & Ho & Hcs & Hs).
    rewrite (proj2 (Z.eqb_neq (v_count v1) 1)) by lia. cbn [rbind]. intros [= <- <-]. exists o.
    rewrite Hc0 in Hst. split; [cbn; eapply visit; [lia|done|done|done|exact Hst|by left; lia]|]. split; [done|]. split; [done|]. split; [by destruct o|].
    split; [cbn; lia|]. intros j Hj. cbn. apply Hs. specialize (Hr i m Em Enm). lia.
Qed.
End Follow.

(** C9: what menus do, for callers who do not enter digits for ever: in a list of menus
    no two actions of which answer the same digits and that do not lead in circles, a
    visit to the first menu returns, and follows the rules: digits are answered by the
    action they are bound to or whose pattern matches them, with its argument filled in;
    an action, or the function that chooses it, stays in its menu, goes to another one
    and comes back, goes back, to the top, through any number of menus, or leaves;
    failures and silences are counted, and too many of them lead back, not to a hangup;
    the voice of a menu is set before its actions. In the end no level is counted and no
    way to the top is open. The menus have names, limits above zero, fewer than 1024
    digits, and patterns and templates that work. *)
Theorem menus_follow_rules {P : pcre} {St : Type} {I : ivr_session St} {H : patient St I} (menus : list (menu St)) (garbage : list Z) (rank : nat -> nat)
    (fuel : nat) (top : menu St) (name : list Z) (v : ivr_state St) :
  Forall (good_menu garbage) menus -> (forall i m, menus !! i = Some m -> tidy_menu menus garbage rank i m) ->
  head menus = Some top -> m_name top = Some name -> name <> [] -> m_stack top = true -> v_count v = 0 -> v_fall v = false ->
  Forall (fun m => Z.of_nat (patience (v_ses v)) * (max_failures m + 1) + max_failures m + max_timeouts m <= Z.of_nat fuel) menus ->
  exists o v', switch_ivr_menu_execute menus garbage 12 fuel name v = Ret (status_of o, v') /\ visits menus garbage 0 name (v_ses v) o (v_ses v') /\
    v_count v' = 0 /\ v_fall v' = false.
Proof.
  intros Hg Ht Htop Hname Hne Hstack Hc Hf Hfuel. assert (Hnil : menus <> []) by (by destruct menus).
  destruct (execute_total menus garbage Hg Hnil fuel 12 name v ltac:(lia) Hfuel) as (st & v' & E & Hk & _).
  assert (Hl : menus !! 0%nat = Some top) by (by destruct menus).
  assert (Hfind : switch_ivr_menu_find menus (Some name) = Ret (Some 0%nat)).
  { unfold switch_ivr_menu_find. destruct menus as [|m ms]; [done|]. injection Htop as ->. cbn. rewrite Hname. cbn. by rewrite bool_decide_true. }
  assert (Hnamed : named menus name = Some top).
  { destruct menus as [|m ms]; [done|]. injection Htop as ->. unfold named. cbn. by rewrite bool_decide_true. }
  pose proof (Ht _ _ Hl) as Hm. revert E. rewrite (execute_enter menus garbage 11 fuel name v 0 top) by (done || lia || by rewrite Htop).
  assert (Hx := fun n w st w' Hn H1 H2 => execute_rules menus garbage rank Ht fuel 11 (rank 0%nat) n w st w' Hn H1 H2).
  set (ex := switch_ivr_menu_execute menus garbage 11 fuel) in *. clearbody ex. rewrite enter_arrive.
  change (v_ses (v <| v_count ::= fun n => n + 1 |>)) with (v_ses v). destruct (arrive top (v_ses v)) as [granted s] eqn:Earr. destruct granted.
  2: { cbn [rbind]. intros [= <- <-]. exists (Leave SWITCH_STATUS_FALSE). eexists. split; [reflexivity|]. split; [by eapply not_granted|].
       split; [cbn; lia|exact Hf]. }
  destruct (rounds _ _ _ _ _ _ _ _ _ _ _) as [[st1 v1]| |] eqn:Er; [|done|done]. cbn [rbind].
  match type of Er with rounds _ _ _ _ _ _ _ _ _ _ ?w = _ => assert (Hw : v_count w = 1 /\ v_fall w = false) by (split; [cbn; lia|done]); destruct Hw as [Hwc Hwf] end.
  destruct (rounds_rules menus garbage rank _ 0%nat top Hm Hx fuel 0 0 0 _ st1 v1 ltac:(rewrite Hwc; lia) Hwf Er) as (o & Hst & -> & Hfo & Ho & Hcs & _).
  rewrite Hwc in Hcs, Hst. rewrite Hcs. cbn [Z.eqb Pos.eqb].
  assert (Htop' : is_top o = false) by (destruct o; congruence || done). rewrite Htop' in Hfo.
  destruct (filled (exit_sound top)) as [sound|] eqn:Eexit.
  - destruct (play_and_collect _ _ _ _ v1) as [[st2 v2]| |] eqn:Ep; [|done|done]. cbn [rbind]. intros [= <- <-].
    destruct (collect_gather rank _ _ _ _ _ _ _ Ep) as (d & Eg & Hf2 & _ & Hs2). destruct (Hs2 (S (rank 0%nat)) ltac:(lia)) as [Hc2 _].
    exists (Leave st2). eexists. split; [reflexivity|]. split; [by eapply farewell|]. split; [cbn; lia|cbn; congruence].
  - cbn [rbind]. intros [= <- <-]. exists o. eexists. split; [reflexivity|]. split; [eapply visit; [lia|done|done|exact Earr|exact Hst|by right]|].
    split; [cbn; lia|exact Hfo].
Qed.
