(* ===== verification/IvrMenuCases.v ===== *)
(** * IvrMenuCases: callers in menus

    A session that is a list of what a caller enters, at every request for digits,
    and a log of what is played and executed; menus on which the theorems are
    applied, and what menus do that the rules leave out. *)
From S2P Require Import Prelude CoreHash UrlCode TextUtil NetList EventText Regex DateTime DialplanText IvrMenu IvrMenuProps IvrMenuRules.
From Stdlib Require Import ZArith Lia.
From stdpp Require Import base numbers option list strings.

Local Open Scope Z_scope.

(** ** A caller *)
Record script := mk_script { sc_inputs : list (list Z); sc_log : list (list Z) }.
#[local] Instance eta_script : Eta script := fun s => mk_script (sc_inputs s) (sc_log s).
Definition note (t : list Z) (s : script) : script := s <| sc_log ::= fun l => l ++ [t] |>.
(** What is entered next, in so much room. *)
Definition next_input (room : Z) (s : script) : list Z * script :=
  match sc_inputs s with
  | [] => ([], s)
  | d :: ds => (take (Z.to_nat room) d, s <| sc_inputs := ds |>)
  end.
Definition demo_collect (room n : Z) (term : list Z) (first inter all : Z) (s : script) : switch_status * list Z * script :=
  let '(d, s) := next_input room s in (match d with [] => SWITCH_STATUS_TIMEOUT | _ => SWITCH_STATUS_SUCCESS end, d, s).
(** Applications of any name; menus expect what is entered behind a sound. *)
#[local] Instance demo_session : ivr_session script := {|
  channel_ready := fun _ => true;
  set_variable := fun k v s => if bool_decide (k = chars "tts_voice") then note v s else s;
  get_variable := fun _ _ => None;
  expand_variables := fun t s => (t, s);
  send_event := fun _ _ s => s;
  switch_ivr_play_file := fun f _ s => (SWITCH_STATUS_SUCCESS, [], note f s);
  switch_ivr_collect_digits_count := demo_collect;
  switch_ivr_phrase_macro := fun m _ _ s => ([], note m s);
  switch_play_and_get_digits := fun _ _ _ _ s => (SWITCH_STATUS_SUCCESS, s);
  has_application := fun _ _ => true;
  execute_application := fun app arg s => note (app ++ match arg with Some a => 32 :: a | None => [] end) s
|}.
Definition keys (s : script) : nat := length (concat (sc_inputs s)).
#[local] Instance demo_patient : patient script demo_session.
Proof.
  refine {| patience := keys |}; try done.
  - intros k v s. cbn. by case_bool_decide.
  - intros f [n|] s; cbn; (split; [unfold keys; cbn; lia|done]).
  - intros room n term first inter all s Hroom. cbn. unfold demo_collect, next_input, keys. destruct (sc_inputs s) as [|d ds] eqn:E.
    + cbn. rewrite E. split; [done|exact Hroom].
    + cbn. rewrite length_app. unfold zlen. rewrite length_take. lia.
Defined.

(** A menu with a greeting and limits of three. *)
Definition menu_of (name : String.string) (first : bool) (digits : Z) (l : list (menu_action script)) : menu script :=
  fold_left (fun m ap => switch_ivr_menu_bind_action m (a_action ap) (a_arg ap) (a_bind ap)) l
    (switch_ivr_menu_init (if first then [] else [switch_ivr_menu_init [] None None None None None None None None None None 0 0 0 0 0 0 false])
      (Some (chars name)) (Some (chars "hello ") ) None (Some (chars "invalid")) None None None None None None 0 0 digits 5000 0 0 false).
Arguments menu_of name%_string_scope.
Definition on (digits : String.string) (a : ivr_action) (arg : String.string) : menu_action script := mk_action None a (chars arg) (chars digits) false.
Arguments on digits%_string_scope a arg%_string_scope.
Definition start (inputs : list String.string) : ivr_state script := mk_ivr 0 false (fun _ => []) (mk_script (map chars inputs) []).
(** The status and the log of a visit. *)
Definition run (menus : list (menu script)) (name : String.string) (v : ivr_state script) : res (switch_status * list (list Z)) :=
  '(st, v) <-! switch_ivr_menu_execute (P := no_pcre) menus [] 12 40 (chars name) v;; Ret (st, sc_log (v_ses v)).
Arguments run menus name%_string_scope v.

(** Sales are reached with 1 and left with a star, an operator with 0, extensions with
    what begins with 10, and the menu is left with 9.  The first menu has a voice. *)
Definition demo_menus : list (menu script) := [
  (menu_of "main" true 4 [on "1" ACTION_EXECMENU "sales"; on "/^10(.*)$/" ACTION_EXECAPP "transfer 10$1";
     on "0" ACTION_EXECAPP "transfer operator"; on "9" ACTION_DIE ""]) <| tts_engine := Some (chars "cepstral") |> <| tts_voice := Some (chars "[allison]") |>;
  menu_of "sales" false 0 [on "1" ACTION_EXECAPP "bridge user/sales"; on "#" ACTION_TOMAIN ""; on "*" ACTION_BACK ""]].
Definition demo_inputs : ivr_state script := start ["1"; "7"; "1"; "#"; "1012"; ""; "9"; "9"].
Definition demo_execute (name : String.string) : res (switch_status * ivr_state script) :=
  switch_ivr_menu_execute (P := demo_pcre) demo_menus [] 12 60 (chars name) demo_inputs.
Arguments demo_execute name%_string_scope.
Example demo_run : ('(st, v) <-! demo_execute "main";; Ret (st, sc_log (v_ses v))) = Ret (SWITCH_STATUS_FALSE, map chars
  ["[allison]"; "hello "; "[allison]"; "hello "; "invalid"; "hello "; "bridge user/sales"; "hello "; "[allison]"; "[allison]"; "[allison]";
   "hello "; "[allison]"; "[allison]"; "transfer 1012"; "[allison]"; "[allison]"; "hello ";
   "hello "; "[allison]"; "[allison]"; "[allison]"; "[allison]"]).
Proof. vm_compute. reflexivity. Qed.

(** An action that is bound to digits answers them alone; the pattern answers what
    begins with 10. *)
Lemma literal_answers (ap : menu_action script) d : a_re ap = false ->
  answers (P := demo_pcre) [] ap d = if bool_decide (d = a_bind ap) then Some (a_arg ap) else None.
Proof. intros E. unfold answers, matches. rewrite E. by case_bool_decide. Qed.
Lemma literals_differ (a b : menu_action script) : a_re a = false -> answers (P := demo_pcre) [] b (a_bind a) = None ->
  forall d, answers (P := demo_pcre) [] a d = None \/ answers (P := demo_pcre) [] b d = None.
Proof. intros E Eb d. rewrite literal_answers by done. case_bool_decide as Ed; [right; by subst|by left]. Qed.
Definition extension_action : menu_action script := mk_action None ACTION_EXECAPP (chars "transfer 10$1") (chars "/^10(.*)$/") true.
Lemma extension_works d : is_ret (matches (P := demo_pcre) [] extension_action d).
Proof.
  assert (E : matches (P := demo_pcre) [] extension_action d =
    let '(count, ov) := pcre_exec (pcre := demo_pcre) (chars "^10(.*)$") d [] in
    if count <=? 0 then Ret (false, a_arg extension_action)
    else t <-! switch_perform_substitution (P := demo_pcre) count (chars "transfer 10$1") d 1024 ov;; Ret (true, t)).
  { change (matches (P := demo_pcre) [] extension_action d) with
      ('(ok, _, ovector) <-! (let '(match_count, ovector) := pcre_exec (pcre := demo_pcre) (chars "^10(.*)$") d [] in
         if match_count <=? 0 then Ret (0, None, ovector) else Ret (match_count, Some (chars "^10(.*)$"), ovector));;
       if ok =? 0 then Ret (false, a_arg extension_action)
       else t <-! switch_perform_substitution (P := demo_pcre) ok (chars "transfer 10$1") d 1024 ovector;; Ret (true, t)).
    destruct (pcre_exec _ d []) as [count ov]. destruct (Z.leb_spec count 0) as [Hc|Hc]; [done|]. cbn [rbind].
    by rewrite (proj2 (Z.eqb_neq count 0)) by lia. }
  rewrite E. clear E. pose proof (groups_matched demo_pcre_laws (chars "^10(.*)$") d []) as Hg.
  destruct (pcre_exec _ d []) as [count ov]. destruct (Z.leb_spec count 0) as [Hc|Hc]; [by eexists|].
  destruct (Hg Hc) as [Hz Hmt]. rewrite <- Hz at 1.
  change (chars "transfer 10$1") with (template (map Lit (chars "transfer 10") ++ [Ref [49] false])).
  rewrite (substitution_tidy (P := demo_pcre) (L := demo_pcre_laws) _ _ _ _ _ Hmt) by (done || lia). by eexists.
Qed.

(** Decided by looking at the menus. *)
Lemma demo_menus_good : Forall (good_menu (P := demo_pcre) []) demo_menus.
Proof.
  repeat (apply Forall_cons_2 || apply Forall_nil_2); (split; [discriminate|by split; vm_compute|done|done|done|]);
    repeat (apply Forall_cons_2 || apply Forall_nil_2); (split; [|exact I]);
    first [exact extension_works | intros d; unfold matches; cbn; by eexists].
Qed.
Ltac differ := first [apply literals_differ; [reflexivity|vm_compute; reflexivity] |
  intros d; apply or_comm; revert d; apply literals_differ; [reflexivity|vm_compute; reflexivity]].
Ltac exclusive := repeat (apply FOP_cons; [repeat (apply Forall_cons_2; [differ|]); apply Forall_nil_2|]); apply FOP_nil.
Lemma demo_menus_tidy i m : demo_menus !! i = Some m -> tidy_menu (P := demo_pcre) demo_menus [] (fun j => (1 - j)%nat) i m.
Proof.
  destruct i as [|[|i]]; [| |done]; intros [= <-]; (split; [discriminate|repeat (apply Forall_cons_2; [reflexivity|]); apply Forall_nil_2| |exclusive]).
  - repeat apply Forall_cons_2; try apply Forall_nil_2; intros d arg s todo aptr s' Ha [= <- <- <-]; try discriminate.
    rewrite literal_answers in Ha by done. revert Ha. case_bool_decide; [|done]. intros [= <-] _ _ [|[|j]] k; [| |done]; intros [= <-]; [discriminate|]. cbn. lia.
  - repeat (apply Forall_cons_2 || apply Forall_nil_2); intros d arg s todo aptr s' Ha [= <- <- <-]; discriminate.
Qed.
Lemma demo_rounds : Forall (fun m : menu script => Z.of_nat (keys (v_ses demo_inputs)) * (max_failures m + 1) + max_failures m + max_timeouts m <= Z.of_nat 60) demo_menus.
Proof. repeat (apply Forall_cons_2 || apply Forall_nil_2); vm_compute; discriminate. Qed.

(** The caller enters sales, a wrong digit, and so on, in menus that lead in circles
    or not. *)
Lemma menus_end_witness : exists status v', demo_execute "sales" = Ret (status, v') /\ v_count v' = 0.
Proof.
  destruct (menus_end (P := demo_pcre) demo_menus [] 60 (chars "sales") demo_inputs demo_menus_good ltac:(discriminate) ltac:(cbn; lia) demo_rounds) as (st & v' & E & Hc & _).
  exists st, v'. split; [exact E|exact Hc].
Defined.
Lemma menus_follow_rules_witness : exists o v', demo_execute "main" = Ret (status_of o, v') /\
  visits (P := demo_pcre) demo_menus [] 0 (chars "main") (v_ses demo_inputs) o (v_ses v') /\ v_fall v' = false.
Proof.
  destruct (menus_follow_rules (P := demo_pcre) demo_menus [] (fun j => (1 - j)%nat) 60 (hd (menu_of "" true 0 []) demo_menus) (chars "main") demo_inputs
    demo_menus_good demo_menus_tidy eq_refl eq_refl ltac:(discriminate) eq_refl eq_refl eq_refl demo_rounds) as (o & v' & E & Hv & _ & Hf).
  - exists o, v'. split; [exact E|]. split; [exact Hv|exact Hf].
Defined.

(** ** What the rules leave out *)

(** A menu that is entered again shares its buffer: from main to sales and to main
    once more, which is left with 9, and back from sales, the first visit to main looks
    at the rest of its actions with the 9 of the second, and is left without having
    asked the caller. *)
Theorem reentered_menu_answers_twice : run [
    menu_of "main" true 0 [on "1" ACTION_EXECMENU "sales"; on "9" ACTION_BACK ""];
    menu_of "sales" false 0 [on "0" ACTION_EXECMENU "main"; on "5" ACTION_BACK ""]] "main" (start ["1"; "0"; "9"; "5"]) =
  Ret (SWITCH_STATUS_SUCCESS, map chars ["hello "; "hello "; "hello "; "hello "]).
Proof. vm_compute. reflexivity. Qed.

(** When two actions answer the same digits, the second is performed although the
    first leaves the menu, and the menu is not left. *)
Theorem leaving_is_overruled : run [menu_of "main" true 0 [on "9" ACTION_DIE ""; on "9" ACTION_PLAYSOUND "bye"]] "main" (start ["9"]) =
  Ret (SWITCH_STATUS_SUCCESS, map chars ["hello "; "bye"; "hello "; "hello "; "hello "]).
Proof. vm_compute. reflexivity. Qed.

(** A menu without a greeting collects no digits: every round is a failure at once. *)
Theorem no_greeting_no_digits : run [(menu_of "main" true 0 [on "9" ACTION_PLAYSOUND "nine"]) <| greeting_sound := None |>] "main" (start ["9"]) =
  Ret (SWITCH_STATUS_SUCCESS, []).
Proof. vm_compute. reflexivity. Qed.

(** With a macro for the confirmation and no key for it, all digits are rejected. *)
Theorem unconfirmed_without_key : run [(menu_of "main" true 0 [on "9" ACTION_PLAYSOUND "nine"]) <| confirm_macro := Some (chars "sure") |>] "main" (start ["9"]) =
  Ret (SWITCH_STATUS_SUCCESS, map chars ["hello "; "sure"; "sure"; "sure"; "hello "; "hello "; "hello "]).
Proof. vm_compute. reflexivity. Qed.

(** A menu that is not the first of its list leaves the way to the top open: the next
    visit to the first menu does not leave it at the first digits. *)
Definition plain_menus : list (menu script) := [
  menu_of "main" true 0 [on "1" ACTION_EXECMENU "sales"; on "0" ACTION_EXECAPP "transfer operator"; on "9" ACTION_DIE ""];
  menu_of "sales" false 0 [on "1" ACTION_EXECAPP "bridge user/sales"; on "#" ACTION_TOMAIN ""; on "*" ACTION_BACK ""]].
Definition left_open : res (bool * switch_status * list (list Z)) :=
  '(_, v) <-! switch_ivr_menu_execute (P := no_pcre) plain_menus [] 12 40 (chars "sales") (start ["#"; "9"]);;
  '(st, v') <-! switch_ivr_menu_execute (P := no_pcre) plain_menus [] 12 40 (chars "main") v;; Ret (v_fall v, st, sc_log (v_ses v')).
Theorem way_to_top_stays_open : left_open = Ret (true, SWITCH_STATUS_SUCCESS, map chars ["hello "; "hello "; "hello "; "hello "; "hello "]).
Proof. vm_compute. reflexivity. Qed.

(** Three wrong digits in sales do not hang up: they lead back to the first menu, which
    is left with 9. *)
Theorem failures_lead_back : run plain_menus "main" (start ["1"; "7"; "7"; "7"; "0"; "9"]) =
  Ret (SWITCH_STATUS_FALSE, map chars ["hello "; "hello "; "invalid"; "hello "; "invalid"; "hello "; "invalid"; "hello "; "transfer operator"; "hello "]).
Proof. vm_compute. reflexivity. Qed.

(** A thousand and twenty-four digits do not fit into the buffer with the
    terminating zero, and a menu without a name faults when one is looked up. *)
Theorem long_input_overflows : run [menu_of "main" true 1024 []] "main" (start []) = Ub.
Proof. vm_compute. reflexivity. Qed.
Theorem unnamed_menu_faults : run [menu_of "" true 0 []; menu_of "main" false 0 []] "main" (start []) = Ub.
Proof. vm_compute. reflexivity. Qed.
