(* ===== verification/IvrMenuXml.v ===== *)
(** * IvrMenuXml: menus from tags

    The second half of src/switch_ivr_menu.c: the names of actions, and the list of
    menus that an XML document describes.  Memory is never short. *)
From Stdlib Require Import ZArith Lia.
From stdpp Require Import base numbers option list strings gmap.
From S2P Require Import Prelude CoreHash UrlCode TextUtil NetList EventText Regex XmlText XmlTree XmlParse XmlPrint DateTime Dialplan IvrMenu IvrMenuProps IvrMenuRules IvrMenuCases.

Local Open Scope Z_scope.

Definition iam : list (list Z * ivr_action) :=
  [(chars "menu-exit", ACTION_DIE); (chars "menu-sub", ACTION_EXECMENU); (chars "menu-exec-app", ACTION_EXECAPP);
   (chars "menu-play-sound", ACTION_PLAYSOUND); (chars "menu-back", ACTION_BACK); (chars "menu-top", ACTION_TOMAIN)].
Fixpoint by_name_ci {A} (l : list (list Z * A)) (name : list Z) : option A :=
  match l with [] => None | (n, a) :: l => if strcasecmp n name then Some a else by_name_ci l name end.
Definition switch_ivr_menu_str2action (action_name : option (list Z)) : option ivr_action :=
  match filled action_name with Some n => by_name_ci iam n | None => None end.
Definition is_valid_action (action : option (list Z)) : bool :=
  match filled action with Some a => existsb (fun '(n, _) => bool_decide (n = a)) iam | None => false end.

Section Build.
Context {S : Type}.
Definition menu_function : Type := list Z -> list Z -> S -> ivr_action * list Z * S.
(** The action, or a function of its own. *)
Definition xml_map : Type := list (list Z * (ivr_action + menu_function)).

Definition switch_ivr_menu_stack_xml_add (map : xml_map) (name : list Z) (a : ivr_action + menu_function) : xml_map * switch_status :=
  match by_name_ci map name with
  | Some _ => (map, SWITCH_STATUS_FALSE)
  | None => ((name, a) :: map, SWITCH_STATUS_SUCCESS)
  end.
Fixpoint add_iam (l : list (list Z * ivr_action)) (map : xml_map) : xml_map * switch_status :=
  match l with
  | [] => (map, SWITCH_STATUS_SUCCESS)
  | (n, a) :: l =>
    let '(map, status) := switch_ivr_menu_stack_xml_add map n (inl a) in
    if succeeded status then add_iam l map else (map, status)
  end.
Definition switch_ivr_menu_stack_xml_init : xml_map * switch_status := add_iam iam [].
Definition switch_ivr_menu_stack_xml_add_custom (map : xml_map) (name : list Z) (function : menu_function) : xml_map * switch_status :=
  switch_ivr_menu_stack_xml_add map name (inr function).

(** [autocreated]: the memory is given back with the first menu. *)
Context (autocreated : bool) (map : xml_map) (h : heap) (xml_menus : positive).

Definition attr_num (t : tag) (an : String.string) : Z := NetList.atoi (attr_soft t an).
Arguments attr_num t an%_string_scope.
(** The menu of a tag, without its actions, behind those of [l]. *)
Definition menu_of_tag (l : list (menu S)) (t : tag) : menu S :=
  let max_failures := attr_soft t "max-failures" in
  let max_timeouts := match attr_soft t "max-timeouts" with [] => max_failures | v => v end in
  let m := switch_ivr_menu_init l (Some (attr_soft t "name")) (attr_of t "greet-long") (attr_of t "greet-short") (attr_of t "invalid-sound")
    (attr_of t "exit-sound") (attr_of t "transfer-sound") (attr_of t "confirm-macro") (attr_of t "confirm-key") (attr_of t "tts-engine")
    (attr_of t "tts-voice") (attr_num t "confirm-attempts") (attr_num t "inter-digit-timeout") (attr_num t "digit-len") (attr_num t "timeout")
    (NetList.atoi max_failures) (NetList.atoi max_timeouts) (autocreated && bool_decide (length l = 0%nat)) in
  let m := m <| exec_on_max_fail := filled (attr_of t "exec-on-max-failures") |> <| exec_on_max_timeout := filled (attr_of t "exec-on-max-timeouts") |> in
  match attr_soft t "pin" with
  | [] => m
  | p =>
    let file d an := match attr_soft t an with [] => Some (chars d) | f => Some f end in
    m <| pin := Some p |>
      <| prompt_pin_file := file "ivr/ivr-please_enter_pin_followed_by_pound.wav"%string "pin-file"%string |>
      <| bad_pin_file := file "conference/conf-bad-pin.wav"%string "bad-pin-file"%string |>
  end.

Section Entries.
(** The menu of another tag. *)
Context (build : list (menu S) -> positive -> res (switch_status * list (menu S))) (i : nat).

Definition bind_entry (a : ivr_action + menu_function) (param digits : list Z) (m : menu S) : menu S :=
  match a with inl a => switch_ivr_menu_bind_action m a param digits | inr f => switch_ivr_menu_bind_function m f param digits end.
Fixpoint entries_loop (entries : list positive) (l : list (menu S)) : res (switch_status * list (menu S)) :=
  match entries with
  | [] => Ret (SWITCH_STATUS_SUCCESS, l)
  | p :: entries =>
    t <-! tag_at h p;;
    let action := attr_of t "action" in
    let param := attr_soft t "param" in
    match is_valid_action action, filled (attr_of t "digits") with
    | true, Some digits =>
      match by_name_ci map (default [] action) with
      | None => entries_loop entries l
      | Some a =>
        '(status, l) <-! match a with
                         | inl ACTION_EXECMENU =>
                           k <-! switch_ivr_menu_find l (Some param);;
                           match k with
                           | Some _ => Ret (SWITCH_STATUS_SUCCESS, l)
                           | None =>
                             x <-! switch_xml_find_child h xml_menus (chars "menu") (chars "name") (Some param);;
                             match x with Some x => build l x | None => Ret (SWITCH_STATUS_SUCCESS, l) end
                           end
                         | _ => Ret (SWITCH_STATUS_SUCCESS, l)
                         end;;
        if succeeded status then entries_loop entries (alter (bind_entry a param digits) i l) else Ret (status, l)
      end
    | _, _ => Ret (SWITCH_STATUS_FALSE, l)
    end
  end.
End Entries.

(** [levels] more menus may be built inside each other. *)
Fixpoint switch_ivr_menu_stack_xml_build (levels : nat) (l : list (menu S)) (xml_menu : positive) : res (switch_status * list (menu S)) :=
  match levels with
  | O => Ub
  | Datatypes.S levels =>
    t <-! tag_at h xml_menu;;
    entries <-! tags_of h xml_menu (chars "entry");;
    entries_loop (switch_ivr_menu_stack_xml_build levels) (length l) entries (l ++ [menu_of_tag l t])
  end.
End Build.

(** ** What is built *)
Section Built.
Context {S : Type} (autocreated : bool) (map : xml_map (S := S)) (h : heap) (xml_menus : positive).

(** Every menu from a tag may fail, and be silent, a positive number of times. *)
Definition limited (m : menu S) : Prop := 0 < max_failures m /\ 0 < max_timeouts m.
Lemma tag_limited l t : limited (menu_of_tag autocreated l t).
Proof.
  unfold menu_of_tag. match goal with |- limited (match ?p with [] => ?m | _ => _ end) => assert (Hm : limited m); [|by destruct p] end.
  assert (Hx : forall x, 0 < (if x >? 0 then x else 3)) by (intros x; rewrite Z.gtb_ltb; destruct (Z.ltb_spec 0 x); lia). split; apply Hx.
Qed.
Lemma bind_limited a param digits m : limited m -> limited (bind_entry a param digits m).
Proof. by destruct a. Qed.
Lemma entries_limited build i : (forall l p st l', Forall limited l -> build l p = Ret (st, l') -> Forall limited l') ->
  forall entries l st l', Forall limited l -> entries_loop map h xml_menus build i entries l = Ret (st, l') -> Forall limited l'.
Proof.
  intros Hb. induction entries as [|p entries IH]; intros l st l' Hl; cbn [entries_loop]; [by intros [= _ <-]|].
  destruct (tag_at h p) as [t| |]; [|done|done]. cbn [rbind]. destruct (is_valid_action _); [|by intros [= _ <-]].
  destruct (filled (attr_of t "digits")) as [digits|]; [|by intros [= _ <-]]. destruct (by_name_ci map _) as [a|]; [|by apply IH].
  set (r := match a with inl ACTION_EXECMENU => _ | _ => _ end).
  assert (Hr : forall st l', r = Ret (st, l') -> Forall limited l').
  { intros st1 l1. unfold r. assert (Hsame : Ret (SWITCH_STATUS_SUCCESS, l) = Ret (st1, l1) -> Forall limited l1) by (by intros [= _ <-]).
    destruct a as [[]|f]; try exact Hsame. destruct (switch_ivr_menu_find l _) as [[k|]| |]; cbn [rbind]; try done; try exact Hsame.
    destruct (switch_xml_find_child _ _ _ _ _) as [[x|]| |]; cbn [rbind]; try done; try exact Hsame. by apply Hb. }
  clearbody r. destruct r as [[st1 l1]| |]; cbn [rbind]; [|done|done]. specialize (Hr st1 l1 eq_refl).
  destruct (succeeded st1); [|by intros [= _ <-]]. apply IH. apply Forall_alter; [done|]. intros m _. apply bind_limited.
Qed.
Theorem built_limited levels : forall l p st l', Forall limited l ->
  switch_ivr_menu_stack_xml_build autocreated map h xml_menus levels l p = Ret (st, l') -> Forall limited l'.
Proof.
  induction levels as [|levels IH]; intros l p st l' Hl; cbn [switch_ivr_menu_stack_xml_build]; [done|].
  destruct (tag_at h p) as [t| |]; [|done|done]. cbn [rbind]. destruct (tags_of h p _) as [entries| |]; [|done|done]. cbn [rbind].
  apply (entries_limited _ _ IH). apply Forall_app. split; [done|]. apply Forall_singleton, tag_limited.
Qed.
End Built.

(** The demonstration menus are those of a document, from its first menu. *)
Definition demo_document : list Z := chars "<menus><menu name='sales' greet-long='hello ' invalid-sound='invalid' timeout='5000'><entry action='menu-exec-app' digits='1' param='bridge user/sales'/><entry action='menu-top' digits='#'/><entry action='menu-back' digits='*'/></menu><menu name='main' greet-long='hello ' invalid-sound='invalid' timeout='5000'><entry action='menu-sub' digits='1' param='sales'/><entry action='menu-exec-app' digits='0' param='transfer operator'/><entry action='menu-exit' digits='9'/></menu></menus>".
Definition built (text : list Z) (name : String.string) : res (switch_status * list (menu script)) :=
  match switch_xml_parse_str text with
  | Ret (Parsed st) =>
    x <-! switch_xml_find_child (ps_heap st) ROOT (chars "menu") (chars "name") (Some (chars name));; x <-! or_ub x;;
    switch_ivr_menu_stack_xml_build false (fst switch_ivr_menu_stack_xml_init) (ps_heap st) ROOT 12 [] x
  | _ => Ub
  end.
Arguments built text name%_string_scope.
Theorem document_gives_menus : built demo_document "main" = Ret (SWITCH_STATUS_SUCCESS, plain_menus).
Proof. vm_compute. reflexivity. Qed.

(** ** What is not built *)

(** Functions that are added can never be bound: their names are no actions. *)
Theorem custom_is_never_bound {S : Type} (customs : list (list Z * menu_function (S := S))) a : is_valid_action (Some a) = true ->
  exists action, by_name_ci (fold_left (fun map '(n, f) => fst (switch_ivr_menu_stack_xml_add_custom map n f)) customs (fst switch_ivr_menu_stack_xml_init)) a = Some (inl action).
Proof.
  intros Ha. assert (H0 : exists action, by_name_ci (fst (switch_ivr_menu_stack_xml_init (S := S))) a = Some (inl action)).
  { revert Ha. unfold is_valid_action. destruct (filled (Some a)) as [b|] eqn:Eb; [|done]. assert (b = a) as -> by (by destruct a as [|? ?]; [|injection Eb as <-]).
    rewrite existsb_exists. intros ([n act] & Hin & E). apply bool_decide_eq_true in E as <-. revert Hin. unfold iam. cbn [In].
    intros Hin. repeat (destruct Hin as [Hin|Hin]; [injection Hin as <- <-; eexists; vm_compute; reflexivity|]). done. }
  revert H0. generalize (fst (switch_ivr_menu_stack_xml_init (S := S))). induction customs as [|[n f] customs IH]; intros map Hmap; [done|]. cbn [fold_left].
  apply IH. unfold switch_ivr_menu_stack_xml_add_custom, switch_ivr_menu_stack_xml_add. destruct (by_name_ci map n) eqn:En; [done|]. cbn [fst by_name_ci].
  destruct (strcasecmp n a) eqn:E; [|done]. exfalso. destruct Hmap as [act Hact]. clear -En E Hact. unfold strcasecmp in *. apply bool_decide_eq_true in E.
  induction map as [|[k x] map IH]; [done|]. cbn [by_name_ci] in *. unfold strcasecmp in *. rewrite E in En. destruct (bool_decide _); [done|]. by apply IH.
Qed.

(** A menu that refers to itself in other letters is built inside itself, and no
    number of levels is enough. *)
Definition looping_text : list Z := chars "<menus><menu name='main'><entry action='menu-sub' digits='1' param='Main'/></menu></menus>".
Definition looping : heap := match switch_xml_parse_str looping_text with Ret (Parsed st) => ps_heap st | _ => ∅ end.
Definition main_tag : positive := match first_child looping ROOT (chars "menu") with Ret (Some p) => p | _ => ROOT end.
Lemma looping_menu : exists t q e, tag_at looping main_tag = Ret t /\ attr_soft t "name" = chars "main" /\
  tags_of looping main_tag (chars "entry") = Ret [q] /\ tag_at looping q = Ret e /\
  attr_of e "action" = Some (chars "menu-sub") /\ attr_soft e "param" = chars "Main" /\ attr_of e "digits" = Some (chars "1").
Proof. do 3 eexists. split_and!; vm_compute; reflexivity. Qed.
Lemma looping_found : switch_xml_find_child looping ROOT (chars "menu") (chars "name") (Some (chars "Main")) = Ret (Some main_tag).
Proof. vm_compute. reflexivity. Qed.
Theorem other_letters_never_end {S : Type} levels :
  switch_ivr_menu_stack_xml_build (S := S) false (fst switch_ivr_menu_stack_xml_init) looping ROOT levels [] main_tag = Ub.
Proof.
  cut (forall l, Forall (fun m : menu S => m_name m = Some (chars "main")) l ->
    switch_ivr_menu_stack_xml_build false (fst switch_ivr_menu_stack_xml_init) looping ROOT levels l main_tag = Ub); [intros H; by apply H|].
  destruct looping_menu as (t & q & e & Et & En & Eq & Ee & Ea & Ep & Ed).
  induction levels as [|levels IH]; intros l Hl; [done|]. cbn [switch_ivr_menu_stack_xml_build]. rewrite Et, Eq. cbn [rbind entries_loop].
  rewrite Ee. cbn [rbind]. rewrite Ea, Ep, Ed. cbn [filled].
  assert (Hl' : Forall (fun m : menu S => m_name m = Some (chars "main")) (l ++ [menu_of_tag false l t])).
  { apply Forall_app. split; [done|]. apply Forall_singleton. unfold menu_of_tag. rewrite En. by destruct (attr_soft t "pin"). }
  assert (Hf : switch_ivr_menu_find (l ++ [menu_of_tag false l t]) (Some (chars "Main")) = Ret None).
  { unfold switch_ivr_menu_find. generalize 0%nat as k. induction Hl' as [|m ms Em _ IHm]; intros k; [done|]. cbn [find_loop]. rewrite Em. cbn [or_ub rbind].
    rewrite bool_decide_false by done. apply IHm. }
  change (is_valid_action (Some (chars "menu-sub"))) with true. cbn [default].
  change (by_name_ci (fst switch_ivr_menu_stack_xml_init) (chars "menu-sub")) with (Some (inl ACTION_EXECMENU) : option (ivr_action + menu_function (S := S))).
  cbv iota. rewrite Hf. cbn [rbind]. rewrite looping_found. cbn [rbind]. by rewrite IH.
Qed.
